(* ===== verification/_CoqProject ===== *)
-Q . S2P
Prelude.v
Monad.v
Bytes.v
TimeVal.v
Timer.v
TimerInv.v
TimerOps.v
TimerSpec.v
Hash.v
PjString.v
Scanner.v
Jbuf.v
JbufList.v
JbufSpec.v
TsxData.v
TsxEnv.v
Tsx.v
TsxApi.v
TsxInv.v
TsxProofs.v
TsxSend.v
TsxHandlers.v
TsxCreate.v
TsxKeys.v
TsxSpec.v
TsxFlowSpec.v
TsxDemo.v
Base64.v
Rtp.v
RtpSpec.v
Dns.v
DnsSpec.v
Sdp.v
SdpNeg.v
SdpAnswer.v
SdpOffer.v
SdpNego.v
SdpNegoRun.v
SdpCmp.v
SdpDemo.v
SdpText.v
SdpTextSpec.v
SdpPrint.v
SdpTextDemo.v
Digest.v
Sha1.v
Md5.v
Hmac.v
Crc32.v
StunMsg.v
StunDecode.v
StunEncode.v
StunSpec.v
StunAuth.v
StunAuthSpec.v
StunDemo.v
StunTsx.v
StunSess.v
StunSessInv.v
StunSessRun.v
StunSessSpec.v
StunSessDemo.v
SipScan.v
SipUri.v
SipUriParse.v
SipUriText.v
SipUriSpec.v
SipUriCmp.v
SipHdr.v
SipHdrTable.v
SipMsg.v
SipMsgSpec.v
SipFrame.v
SipFrameSpec.v
SipMsgDemo.v
