(* ===== verification/Prelude.v ===== *)
(** * PJSIP: a verification library

    The repository holds pjproject (C sources under [src/pjproject/]), the
    SIP stack of a telephone application: pjlib (containers, timers, strings,
    sockets), pjlib-util (DNS, encoders, digests), pjnath (STUN), pjmedia
    (RTP, SDP, jitter buffer), pjsip (SIP).  This library models the parts
    that carry the logic of the stack and proves that they do what they
    promise.

    ** Parts and files

    A component has a file of definitions named after it, which follows the C
    source function by function under the names of the source, and files of
    proofs.  Everything is built on this file: integers of machine width
    ([u32], [s32]), status codes, record update, arrays whose access out of
    bounds is undefined ([zlookup], [zstore]), reachability, tactics.

    - Bytes: network byte order ([pj_htons] and the like) and copies out of
      packets; finite checks of facts about bytes.
    - TimeVal: [pj/types.h], [types.c].
    - Timer; TimerInv, TimerOps, TimerSpec: the timer heap,
      [pj/timer.c].  [timer_world] is the heap with the entries it points to
      and the group locks; [active w] is its abstract state, a map from
      running entries to deadlines.  The class [TimerService] of TimerSpec is
      what the heap promises to its clients; the heap is an instance.
    - Hash: the hash table, [pj/hash.c], against a finite map.  The class
      [KeyTable] is its promise to clients; the table is an instance.
    - PjString: comparison, printing and reading of numbers, tokens,
      [pj/string.c].
    - Jbuf; JbufList, JbufSpec: the jitter buffer, [pjmedia/jbuf.c] with the
      integer statistics of [pj/math.h].
    - TsxData, TsxEnv, Tsx, TsxApi: SIP transactions,
      [pjsip/sip_transaction.c]; TsxInv, TsxProofs, TsxSend, TsxHandlers,
      TsxCreate: preservation of the invariant by each function,
      in a weakest-precondition calculus ([wp]); TsxKeys: transaction keys and
      retransmission times; TsxSpec: the contract of the layer;
      TsxFlowSpec: what single events do; TsxDemo: a concrete environment on
      which every theorem is instantiated.
    - Base64: [pjlib-util/base64.c].
    - Rtp, RtpSpec: RTP sessions, [pjmedia/rtp.c].
    - Dns, DnsSpec: DNS packets, [pjlib-util/dns.c].
    - Scanner: the text scanner, [pjlib-util/scanner.c], as a monad of
      functions that consume the input or throw.  SipScan: the scanner of the
      SIP parser, with its flags and exceptions ([sip]); percent escapes
      ([pjlib-util/string.c]), the character classes of [sip_parser.c].
    - SipUri: SIP URIs and name addresses, [pjsip/sip_uri.c], and tel URIs,
      [pjsip/sip_tel_uri.c]: data, printing, comparison; SipUriParse: their
      parser, [pjsip/sip_parser.c].  SipUriText: what is printed; SipUriSpec:
      it is parsed back; SipUriCmp: comparison, instances and defects.
    - SipHdr: SIP headers, [pjsip/sip_msg.h], and the parsers of
      [pjsip/sip_parser.c] and [sip_auth_parser.c], one handler each;
      SipHdrTable: the table of handlers, which is searched by hash; SipMsg:
      the parser of messages; SipMsgSpec: what it returns.  SipFrame: messages
      in packets and streams, [pjsip_find_msg], the receiving half of
      [pjsip/sip_transport.c] and the reads of [sip_transport_tcp.c];
      SipFrameSpec: every message of a stream is delivered; SipMsgDemo:
      instances and defects.
    - Sdp: session descriptions, their attributes and validation,
      [pjmedia/sdp.c]; SdpCmp: their comparison, [pjmedia/sdp_cmp.c].
    - SdpText: the printer and the parser of descriptions, [pjmedia/sdp.c];
      SdpTextSpec: what is printed is parsed back; SdpPrint: what the parser
      returns and the printer writes; SdpTextDemo: instances and
      defects.
    - SdpNeg, SdpNego: offer/answer, [pjmedia/sdp_neg.c]: SdpNeg negotiates
      one media, SdpNego whole descriptions, with the negotiator and its
      operations.  SdpAnswer and SdpOffer have the properties of a media,
      SdpNegoRun those of descriptions and of sequences of operations; SdpDemo instantiates the theorems and shows defects.
    - Sha1, Md5: [pjlib-util/sha1.c], [md5.c], each with the digest as its
      standard writes it ([Fips], [Rfc1321]); Digest has what they share and
      the class [Digest], the promise of a digest to its clients, with an
      instance in each.  Hmac: [hmac_sha1.c] and [hmac_md5.c] over
      that class.  Crc32: [crc32.c], with its table and bit by bit.
    - StunMsg: STUN messages, [pjnath/stun_msg.c]; StunDecode: what the
      decoder returns; StunEncode: what the encoder writes; StunSpec: one
      after the other.  StunAuth: [pjnath/stun_auth.c]; StunAuthSpec: who is
      authenticated.  StunDemo: the packet of RFC 5769, instances of the
      theorems, defects.
    - StunTsx: STUN client transactions, [pjnath/stun_transaction.c];
      StunSess: STUN sessions, [pjnath/stun_session.c].  StunSessInv: the
      invariant of a session and what a callback may not take away ([keeps]);
      StunSessRun: each operation and all runs preserve them;
      StunSessSpec: the life of one request; StunSessDemo: sample sessions and defects.
    - Monad: the state monad of the two transaction layers, with its rules of
      total and partial correctness ([wp], [wpx]).

    ** How the parts interact

    The transaction layer is a client of the timer heap and of the hash
    table: a transaction owns two timer entries (numbers [2t] and [2t + 1])
    and a key in the table.  Its model is written over the classes
    [TimerService] and [KeyTable], so its theorems hold for the models of
    [timer.c] and [hash.c] and for any implementation with their laws.  What
    the layer calls that is outside these files (transaction users,
    transports, stateless sending, the resolver) is the class [TsxEnv]: the
    transaction user is an arbitrary transformation of the world, so that
    callbacks may call back into the layer.  Towards the network, the bytes
    of a packet or of a stream go through the transport manager of SipFrame,
    which finds the messages and has them parsed; the parser finds the
    handler of a header in the table of SipHdrTable, whose order is that of
    the hashes of Hash; the handlers call the parsers of URIs.  The DNS model uses the string
    comparison of PjString, the RTP and DNS models the packet reads of Bytes.
    The negotiator works on the descriptions of Sdp; the format callbacks an
    application registers are functions ([fmt_match_fn]), which see both media
    and return a status and the new attributes of the answer's media; what the
    theorems need of them is named ([cb_keeps], [cb_ok]).
    HMAC is written over the class [Digest], whose law is that a context
    which absorbed a text yields the digest of that text; STUN messages are
    signed with HMAC-SHA1 and checked with CRC-32, and the theorems on STUN
    speak of the functions of the standards, through the theorems of Hmac and
    Crc32.  The keys of authentication are MD5 digests.
    STUN sessions are clients of the messages, of the authentication and,
    through the class [TimerService], of the timer heap.  The application is
    the class [StunEnv]: its callbacks are transformations of the world, which
    may call the session again.

    ** Undefined behaviour, fuel and bounds

    Operations are functions in the option monad, or in the state monad of
    Monad over it: [None] is an access out of bounds, a null pointer, a
    dangling object, or a loop that ran out of fuel.  Theorems say that the
    result is [Some], never only what it is then.  Fuel is a parameter of the
    loop functions; the operations pass an amount that the theorems show to be
    enough: the size of the heap for the re-heapification loops, one more
    than the maximum per call for polling, the number of rows for walking a
    hash table, the number of slots for the jitter buffer, the length of the text for Base64,
    eleven times the size of a packet for the names in it (ten nested
    pointers).  [tsx_send_msg] calls itself through a callback at most once,
    and has fuel 2.  Unsigned integers wrap around; [int] and [long] are
    integers, wrapped where the code relies on it.

    ** The theorems

    - Timer heap: the operations implement insertion, deletion and removal of
      the expired entries in the order of their deadlines, on the abstract
      map; all reachable heaps satisfy the invariant (heap order, inverse
      index arrays, free list); polling is safe whatever the callbacks do to
      a valid heap.
    - Hash table: lookup, update, deletion and iteration refine a finite map
      with keys compared up to case where the code does.
    - Jitter buffer: the circular list is a queue with holes; frames put in
      any order within the capacity come out in sequence; every reachable
      buffer is in its bounds and no operation fails.
    - SIP transactions: no sequence of calls runs into undefined behaviour;
      states only advance; no transaction waits without a timer; creation
      registers exactly one key and destruction frees it; what responses,
      ACKs, retransmissions and timeouts do to the state, the timers and the
      messages sent; keys are injective, fit their buffers; retransmission
      times follow RFC 3261.  The assumptions are explicit: [env_ok] (the
      environment, TsxInv), [op_ok] (the caller of an operation, TsxSpec) and
      in the theorems of TsxFlowSpec [quiet] (callbacks leave the layer
      alone).
    - Base64, RTP, DNS: round trips; decoding of arbitrary bytes is safe and
      its results lie in the packet; the 16-bit RTP sequence numbers are
      followed like unbounded ones; a compressed DNS name is parsed exactly
      when there is one, as an inductive relation on packets says; parsed DNS
      records are well-typed unions.
    - Offer/answer: every operation of a negotiator is a step of the machine
      of RFC 3264 ([spec_step]), in every reachable state the descriptions it
      needs are there, and the version of a description is never used again;
      a valid offer is always answered, line by line, with formats that were
      offered; after an answer the two sides agree on the codecs; directions
      are the intersection of what both sides want; the comparison of
      descriptions is an explicit equality.
    - SDP as text: a printed description is parsed back; any text is parsed
      to an error or to a well-formed description ([session_ok]), which is
      what printing asks for; printing stays in its buffer.
    - SIP URIs: what is printed for a context is parsed back, as much of the
      URI as the context shows, and compares equal to it; printing stays in
      its buffer; parsing any text ends.  [sip_uri_ok] and [display_ok] say
      which URIs and names these are.
    - SIP messages: parsing any text ends with well-typed headers (fields in
      their ranges, arrays within their size) and with well-typed notes of
      them in [msg_info]; the binary search finds exactly the handlers that
      are registered, up to case; the processing of a packet ends, whatever
      its bytes; a stream of messages is delivered message by message however
      it is cut into reads.
    - Digests: SHA-1, MD5 and HMAC are those of FIPS 180, RFC 1321 and RFC
      2104 for any text in any chunks; both CRCs are the same function.
    - STUN: any packet is decoded to an error or a well-typed message; the
      bytes of an encoded message are those of RFC 5389, and are decoded back;
      a credential accepts exactly the packets that carry its digest and its
      names, so what one side signs the other accepts.  [sendable],
      [decodable] and [checkable] say which messages and options these are.
    - STUN sessions: in every state that can be reached by operations, packets,
      callbacks and timers, in any order, a running timer belongs to memory
      that is not released, and the callbacks of timers are defined
      ([calm] is what is asked of the application); a request that nobody
      answers is transmitted seven times, after delays that double, and times
      out once.  The encoder is undefined for some messages (see the defects):
      the operations that encode are shown to keep the invariant when they are
      defined, the others to be defined.

    ** Not modelled

    Memory pools (an allocation that fails raises an exception in pjlib;
    sizes of blocks are modelled where writes to them are), group locks and
    threads (each call runs under its lock; references are counted in the
    log of the transaction model, not released), logging, the linked-list
    variant of the timer heap, floating-point statistics, the life cycle of
    the transaction module and its dump functions, [pj_dns_get_type_name].
    The other subsystems are listed in the manifest with the reason:
    vendored code, wrappers of system calls, glue over device and codec
    libraries; ICE and TURN, RTCP, the DNS resolver, dialogs, INVITE sessions and
    subscriptions are left for other developments.  Of SIP messages, the
    printing of headers and messages, the parser of multipart bodies (whose
    text is handed over), the lines and columns of error reports, and the
    sending side and life of transports are not modelled.  A STUN
    session is released by an operation of its own, which runs when no timer
    holds a reference to its lock.  Of STUN, the texts of method and class names are left out.

    ** Defects found

    Beside the theorems, the modelling showed defects of the code, each with
    the line in the manifest: [timer_cancel_reads_out_of_bounds],
    [timer_schedule_nomem_leaks], [hash_create_total], [jbuf_double_discard],
    [jb_peek_refines], [base64_trailing_invalid], [rtp_badssrc_lost],
    [rtp_first_packet_zero], [dns_parse_overreads], [dns_query_overruns],
    [asym_accepts_any], [media_cmp_ignores_conn] and the last sections of
    SdpDemo, SdpTextDemo, StunDemo, StunSessDemo, SipUriCmp and SipMsgDemo. *)

From stdpp Require Export base tactics numbers option list gmap.
From Stdlib Require Export ZArith Lia.

(** ** Machine integers *)

(** [unsigned] / [pj_uint32_t] arithmetic is modulo 2^32. *)
Definition u32 (z : Z) : Z := z `mod` 4294967296.

(** Conversion of a value to a 32-bit [int] (two's complement). *)
Definition s32 (z : Z) : Z :=
  (z + 2147483648) `mod` 4294967296 - 2147483648.

Definition is_u32 (z : Z) : Prop := (0 <= z < 4294967296)%Z.
Definition is_s32 (z : Z) : Prop := (-2147483648 <= z < 2147483648)%Z.

#[export] Instance is_s32_dec z : Decision (is_s32 z).
Proof. unfold is_s32. apply _. Defined.

Lemma u32_range z : is_u32 (u32 z).
Proof. apply Z.mod_pos_bound. lia. Qed.

Lemma u32_id z : is_u32 z -> u32 z = z.
Proof. intros H. apply Z.mod_small. exact H. Qed.

Lemma s32_range z : is_s32 (s32 z).
Proof.
  unfold s32, is_s32.
  pose proof (Z.mod_pos_bound (z + 2147483648) 4294967296). lia.
Qed.

Lemma s32_id z : is_s32 z -> s32 z = z.
Proof. unfold s32, is_s32. intros H. rewrite Z.mod_small; lia. Qed.

(** The result of an operation on [int], which is undefined if it overflows. *)
Definition sint (z : Z) : option Z := if decide (is_s32 z) then Some z else None.

Lemma sint_id z : is_s32 z -> sint z = Some z.
Proof. unfold sint. intros H. by rewrite decide_True. Qed.

(** Equality modulo 2^32 is the equivalence the unsigned arithmetic of the
    code works with; the ring operations respect it. *)
Definition eq32 (a b : Z) : Prop := u32 a = u32 b.

#[export] Instance eq32_equiv : Equivalence eq32.
Proof. split; red; unfold eq32; congruence. Qed.

#[export] Instance eq32_add : Proper (eq32 ==> eq32 ==> eq32) Z.add.
Proof.
  intros a b H c d H'. unfold eq32, u32 in *.
  rewrite (Z.add_mod a c), (Z.add_mod b d) by lia. congruence.
Qed.

#[export] Instance eq32_mul : Proper (eq32 ==> eq32 ==> eq32) Z.mul.
Proof.
  intros a b H c d H'. unfold eq32, u32 in *.
  rewrite (Z.mul_mod a c), (Z.mul_mod b d) by lia. congruence.
Qed.

#[export] Instance eq32_sub : Proper (eq32 ==> eq32 ==> eq32) Z.sub.
Proof.
  intros a b H c d H'. unfold eq32, u32 in *.
  rewrite (Zminus_mod a c), (Zminus_mod b d). congruence.
Qed.

Lemma u32_eq32 z : eq32 (u32 z) z.
Proof. unfold eq32, u32. apply Z.mod_mod. lia. Qed.

(** ** Status codes ([pj/errno.h], [pj/types.h]) *)

Definition PJ_SUCCESS : Z := 0.
Definition PJ_EUNKNOWN : Z := 70001.
Definition PJ_EPENDING : Z := 70002.
Definition PJ_EINVAL : Z := 70004.
Definition PJ_ENOTFOUND : Z := 70006.
Definition PJ_ENOMEM : Z := 70007.
Definition PJ_EBUG : Z := 70008.
Definition PJ_ETOOMANY : Z := 70010.
Definition PJ_EINVALIDOP : Z := 70013.
Definition PJ_EEXISTS : Z := 70015.
Definition PJ_ERESOLVE : Z := 70018.
Definition PJ_ETOOSMALL : Z := 70019.
Definition PJ_EIGNORED : Z := 70020.
Definition PJ_ETOOBIG : Z := 70017.
Definition PJ_MAXULONG : Z := 18446744073709551615.
Definition PJ_MAXINT32 : Z := 2147483647.

(** ** Record update

    [r <| f := v |>] assigns one field of a C struct.  A record type declares
    its eta expansion once, as an instance of [Settable]; the setter of each
    projection is then computed from it. *)

Class Settable (R : Type) := eta_expand : R -> R.
Class Setter {R T : Type} (proj : R -> T) := set_field : (T -> T) -> R -> R.
Arguments set_field {R T} proj {_} _ _.

Ltac compute_setter :=
  lazymatch goal with
  | |- @Setter ?R ?T ?proj =>
      let inst := constr:(_ : Settable R) in
      let upd := fresh "upd" in
      let r := fresh "r" in
      unfold Setter; intros upd r;
      let full := eval red in (inst r) in
      let full := eval cbv beta in full in
      lazymatch full with
      | context ctx [proj r] =>
          let out := context ctx [upd (proj r)] in exact out
      end
  end.

#[export] Hint Extern 0 (Setter _) => compute_setter : typeclass_instances.

Declare Scope pj_scope.
Delimit Scope pj_scope with pj.
#[warnings="-postfix-notation-not-level-1"]
Notation "r <| f := v |>" := (set_field f (fun _ => v) r)
  (at level 12, f at next level, v at level 200, left associativity,
   format "r  <| f  :=  v |>") : pj_scope.
Open Scope pj_scope.

(** ** Undefined behaviour

    A computation that reads or writes outside an array, or dereferences a
    null pointer, has no result: the operations below live in the option
    monad and [None] stands for undefined behaviour (or, for a loop, for
    fuel that was not enough).  That an operation returns [Some] is then its
    memory safety and its termination. *)

(** [arr[i]] for a C index [i]. *)
Definition zlookup {A} (l : list A) (i : Z) : option A :=
  if decide (0 <= i)%Z then l !! Z.to_nat i else None.

(** [arr[i] = x]. *)
Definition zstore {A} (l : list A) (i : Z) (x : A) : option (list A) :=
  if decide (0 <= i < Z.of_nat (length l))%Z
  then Some (<[Z.to_nat i := x]> l) else None.

Lemma zlookup_nat {A} (l : list A) (i : nat) : zlookup l (Z.of_nat i) = l !! i.
Proof. unfold zlookup. rewrite decide_True by lia. by rewrite Nat2Z.id. Qed.

Lemma zlookup_lt_Some {A} (l : list A) i x :
  zlookup l i = Some x -> (0 <= i < Z.of_nat (length l))%Z.
Proof.
  unfold zlookup. case_decide; [|done]. intros Hi%lookup_lt_Some. lia.
Qed.

Lemma zlookup_in_range {A} (l : list A) i :
  (0 <= i < Z.of_nat (length l))%Z -> exists x, zlookup l i = Some x.
Proof.
  intros H. unfold zlookup. rewrite decide_True by lia.
  apply lookup_lt_is_Some. lia.
Qed.

Lemma zstore_in_range {A} (l : list A) i x :
  (0 <= i < Z.of_nat (length l))%Z ->
  zstore l i x = Some (<[Z.to_nat i := x]> l).
Proof. intros H. unfold zstore. by rewrite decide_True. Qed.

Lemma zstore_nat {A} (l : list A) (i : nat) x :
  i < length l -> zstore l (Z.of_nat i) x = Some (<[i := x]> l).
Proof. intros H. rewrite zstore_in_range by lia. by rewrite Nat2Z.id. Qed.

(** ** Lists *)

(** Where [<[i:=x]> l] reads from. *)
Lemma insert_lookup {A} (l : list A) i j x :
  i < length l ->
  <[i:=x]> l !! j = if decide (i = j) then Some x else l !! j.
Proof.
  intros H. case_decide as E.
  - subst. by apply list_lookup_insert_eq.
  - by apply list_lookup_insert_ne.
Qed.

(** ** Runs of a step relation *)

Section runs.
Context {S : Type} (step : S -> S -> Prop).

Inductive reach (init : S -> Prop) : S -> Prop :=
| reach_init s : init s -> reach init s
| reach_step s s' : reach init s -> step s s' -> reach init s'.

Lemma reach_invariant (init : S -> Prop) (I : S -> Prop) :
  (forall s, init s -> I s) ->
  (forall s s', I s -> step s s' -> I s') ->
  forall s, reach init s -> I s.
Proof. intros Hi Hs s. induction 1; eauto. Qed.
End runs.

(** ** Tactics *)

(** Case analysis on every [match]/[if] of the goal, discharging the
    arithmetically impossible cases. *)
Ltac split_match :=
  repeat (case_match || case_decide); simplify_eq/=; try lia.

(** Turn boolean comparisons of the code into propositions. *)
Ltac zbool :=
  repeat match goal with
  | H : (_ && _)%bool = true |- _ => apply andb_true_iff in H; destruct H
  | H : (_ || _)%bool = false |- _ => apply orb_false_iff in H; destruct H
  | H : negb _ = true |- _ => apply negb_true_iff in H
  | H : negb _ = false |- _ => apply negb_false_iff in H
  | H : Z.ltb _ _ = true |- _ => apply Z.ltb_lt in H
  | H : Z.ltb _ _ = false |- _ => apply Z.ltb_ge in H
  | H : Z.leb _ _ = true |- _ => apply Z.leb_le in H
  | H : Z.leb _ _ = false |- _ => apply Z.leb_gt in H
  | H : Z.eqb _ _ = true |- _ => apply Z.eqb_eq in H
  | H : Z.eqb _ _ = false |- _ => apply Z.eqb_neq in H
  | H : Nat.ltb _ _ = true |- _ => apply Nat.ltb_lt in H
  | H : Nat.ltb _ _ = false |- _ => apply Nat.ltb_ge in H
  | H : Nat.leb _ _ = true |- _ => apply Nat.leb_le in H
  | H : Nat.leb _ _ = false |- _ => apply Nat.leb_gt in H
  | H : Nat.eqb _ _ = true |- _ => apply Nat.eqb_eq in H
  | H : Nat.eqb _ _ = false |- _ => apply Nat.eqb_neq in H
  | H : bool_decide _ = true |- _ => apply bool_decide_eq_true in H
  | H : bool_decide _ = false |- _ => apply bool_decide_eq_false in H
  end.

(** Reduce the binds of a goal in the option monad. *)
Ltac ored := cbn [mbind option_bind].

(** Run the first bind of a goal in the option monad. *)
Ltac obind H := rewrite H; cbn [mbind option_bind].

(** Invert a hypothesis [x ← m; k x = Some r]. *)
Ltac obind_inv :=
  repeat match goal with
  | H : mbind _ ?m = Some _ |- _ =>
      let E := fresh "E" in
      destruct m eqn:E; cbn [mbind option_bind] in H; [|discriminate H]
  | H : Some _ = Some _ |- _ => injection H as H; try subst
  end.

Create HintDb pj discriminated.
#[export] Hint Resolve u32_range s32_range : pj.

(** Comparisons of the code stay folded under [cbn]. *)
#[global] Arguments Nat.ltb : simpl never.
#[global] Arguments Nat.leb : simpl never.
#[global] Arguments Nat.eqb : simpl never.
