(* ===== verification/Monad.v ===== *)
(** * State and undefined behaviour

    The monad of the components that work on a world: a transformation of the
    state that returns a value, or [None] for undefined behaviour (an object
    that does not exist, a null pointer).  [wp] is total correctness. *)

From S2P Require Import Prelude.

Definition M (W A : Type) : Type := W -> option (A * W).

#[export] Instance M_ret W : MRet (M W) := fun A a w => Some (a, w).
#[export] Instance M_bind W : MBind (M W) := fun A B f m w =>
  match m w with Some (a, w') => f a w' | None => None end.

Definition undefined {W A} : M W A := fun _ => None.
Definition from_option {W A} (o : option A) : M W A := fun w => a ← o; Some (a, w).
Definition ask {W} : M W W := fun w => Some (w, w).
Definition modify {W} (f : W -> W) : M W unit := fun w => Some (tt, f w).
Definition when {W} (b : bool) (m : M W unit) : M W unit := if b then m else mret tt.

(** Total correctness: [m] run in [w] has a result that satisfies [Q]. *)
Definition wp {W A} (m : M W A) (Q : A -> W -> Prop) (w : W) : Prop :=
  match m w with Some (a, w') => Q a w' | None => False end.

Lemma wp_ret {W A} (a : A) (Q : A -> W -> Prop) w : Q a w -> wp (mret a) Q w.
Proof. done. Qed.

Lemma wp_bind {W A B} (m : M W A) (f : A -> M W B) Q w :
  wp m (fun a => wp (f a) Q) w -> wp (m ≫= f) Q w.
Proof. unfold wp, mbind, M_bind. by destruct (m w) as [[a w']|]. Qed.

Lemma wp_assoc {W A B C} (m : M W A) (f : A -> M W B) (g : B -> M W C) Q w :
  wp (m ≫= fun a => f a ≫= g) Q w <-> wp ((m ≫= f) ≫= g) Q w.
Proof. unfold wp, mbind, M_bind. by destruct (m w) as [[a w']|]. Qed.

Lemma wp_mono {W A} (m : M W A) (Q Q' : A -> W -> Prop) w :
  (forall a w', Q a w' -> Q' a w') -> wp m Q w -> wp m Q' w.
Proof. unfold wp. intros H. destruct (m w) as [[a w']|]; auto. Qed.

Lemma wp_from_option {W A} (o : option A) a (Q : A -> W -> Prop) w :
  o = Some a -> Q a w -> wp (from_option o) Q w.
Proof. intros -> H. exact H. Qed.

Lemma wp_ask {W} (Q : W -> W -> Prop) w : Q w w -> wp ask Q w.
Proof. done. Qed.

Lemma wp_modify {W} (f : W -> W) (Q : unit -> W -> Prop) w :
  Q tt (f w) -> wp (modify f) Q w.
Proof. done. Qed.

Lemma wp_when {W} (b : bool) (m : M W unit) (Q : unit -> W -> Prop) w :
  (b = true -> wp m Q w) -> (b = false -> Q tt w) -> wp (when b m) Q w.
Proof. destruct b; cbn; auto. Qed.

Lemma wp_exists {W A} (m : M W A) Q w :
  wp m Q w <-> exists a w', m w = Some (a, w') /\ Q a w'.
Proof.
  unfold wp. destruct (m w) as [[a w']|]; split; try done.
  - intros H. by exists a, w'.
  - by intros (? & ? & [= <- <-] & ?).
  - by intros (? & ? & ? & ?).
Qed.

(** Total correctness, or partial correctness: [m] may be undefined when
    [total] is false. *)
Definition wpx {W A} (total : bool) (m : M W A) (Q : A -> W -> Prop) (w : W) : Prop :=
  match m w with Some (a, w') => Q a w' | None => total = false end.

Lemma wpx_wp {W A} b (m : M W A) (Q : A -> W -> Prop) w : wp m Q w -> wpx b m Q w.
Proof. unfold wp, wpx. by destruct (m w) as [[a w']|]. Qed.

Lemma wp_wpx {W A} (m : M W A) (Q : A -> W -> Prop) w : wpx true m Q w -> wp m Q w.
Proof. unfold wp, wpx. by destruct (m w) as [[a w']|]. Qed.

Lemma wpx_some {W A} b (m : M W A) (Q : A -> W -> Prop) w a w' : wpx b m Q w -> m w = Some (a, w') -> Q a w'.
Proof. unfold wpx. intros H E. by rewrite E in H. Qed.

Lemma wpx_ret {W A} b (a : A) (Q : A -> W -> Prop) w : Q a w -> wpx b (mret a) Q w.
Proof. done. Qed.

Lemma wpx_bind {W A B} b (m : M W A) (f : A -> M W B) Q w :
  wpx b m (fun a => wpx b (f a) Q) w -> wpx b (m ≫= f) Q w.
Proof. unfold wpx, mbind, M_bind. by destruct (m w) as [[a w']|]. Qed.

Lemma wpx_mono {W A} b (m : M W A) (Q Q' : A -> W -> Prop) w :
  (forall a w', Q a w' -> Q' a w') -> wpx b m Q w -> wpx b m Q' w.
Proof. unfold wpx. intros H. destruct (m w) as [[a w']|]; auto. Qed.

Lemma wpx_when {W} b (c : bool) (m : M W unit) (Q : unit -> W -> Prop) w :
  (c = true -> wpx b m Q w) -> (c = false -> Q tt w) -> wpx b (when c m) Q w.
Proof. destruct c; cbn; auto. Qed.

(** A computation that only reads. *)
Definition reads {W A} (m : M W A) : Prop := forall w a w', m w = Some (a, w') -> w' = w.

Lemma wpx_reads {W A} (m : M W A) (Q : A -> W -> Prop) w :
  reads m -> (forall a, m w = Some (a, w) -> Q a w) -> wpx false m Q w.
Proof.
  unfold wpx. intros Hr HQ. destruct (m w) as [[a w']|] eqn:E; [|done].
  pose proof (Hr _ _ _ E) as ->. auto.
Qed.

Lemma reads_from_option {W A} (o : option A) : reads (W := W) (from_option o).
Proof. unfold reads, from_option. by destruct o; intros ? ? ? [= <- <-]. Qed.

Lemma reads_bind {W A B} (m : M W A) (f : A -> M W B) : reads m -> (forall a, reads (f a)) -> reads (m ≫= f).
Proof.
  intros H1 H2 w a w'. unfold mbind, M_bind. destruct (m w) as [[b w1]|] eqn:E; [|done].
  intros E2. rewrite (H2 _ _ _ _ E2). by eapply H1.
Qed.

Lemma reads_ret {W A} (a : A) : reads (W := W) (mret a).
Proof. by intros ? ? ? [= <- <-]. Qed.

(** Run the first bind of a goal. *)
Ltac wbind := apply wp_bind.
Ltac xbind := apply wpx_bind.
