(* ===== verification/Bytes.v ===== *)
(** * Bytes of packets

    Reading and writing the fields of a packet in network byte order, out of
    a buffer that holds the bytes of the packet; reading outside the buffer
    is undefined behaviour ([None]). *)

From S2P Require Import Prelude.
Local Open Scope Z_scope.

Definition is_byte (b : Z) : Prop := 0 <= b < 256.
Definition is_u16 (z : Z) : Prop := 0 <= z < 65536.

(** [(pj_uint8_t)z] and [(pj_uint16_t)z]. *)
Definition u8 (z : Z) : Z := z mod 256.
Definition u16 (z : Z) : Z := z mod 65536.

(** [pj_htons] and [pj_htonl] followed by a copy to the packet. *)
Definition be16 (v : Z) : list Z := [v / 256 mod 256; v mod 256].
Definition be32 (v : Z) : list Z := be16 (v / 65536 mod 65536) ++ be16 (v mod 65536).

(** A copy from the packet followed by [pj_ntohs] or [pj_ntohl]. *)
Definition rd8 (buf : list Z) (i : Z) : option Z := zlookup buf i.

Definition rd16 (buf : list Z) (i : Z) : option Z :=
  a ← rd8 buf i;
  b ← rd8 buf (i + 1);
  Some (a * 256 + b).

Definition rd32 (buf : list Z) (i : Z) : option Z :=
  a ← rd16 buf i;
  b ← rd16 buf (i + 2);
  Some (a * 65536 + b).

(** [pj_memcpy(dst, p, n)] from the packet. *)
Fixpoint rdn (buf : list Z) (i : Z) (n : nat) : option (list Z) :=
  match n with
  | O => Some []
  | S n => b ← rd8 buf i; l ← rdn buf (i + 1) n; Some (b :: l)
  end.

(** ** Finite checks *)

Definition byte_range : list Z := Z.of_nat <$> seq 0 256.

Lemma byte_range_spec b : is_byte b -> b ∈ byte_range.
Proof.
  intros Hb. apply list_elem_of_fmap. exists (Z.to_nat b).
  split; [|apply elem_of_seq]; unfold is_byte in Hb; lia.
Qed.

(** A decidable fact about bytes is checked on every byte. *)
Lemma byte_check (f : Z -> bool) :
  forallb f byte_range = true -> forall b, is_byte b -> f b = true.
Proof.
  intros H b Hb%byte_range_spec. rewrite forallb_forall in H.
  apply H, list_elem_of_In, Hb.
Qed.

Lemma byte_check2 (f : Z -> Z -> bool) :
  forallb (fun a => forallb (f a) byte_range) byte_range = true ->
  forall a b, is_byte a -> is_byte b -> f a b = true.
Proof. intros H a b Ha Hb. by apply (byte_check (f a)); [apply (byte_check _ H)|]. Qed.

(** ** Bounds *)

Lemma u8_byte z : is_byte (u8 z).
Proof. apply Z.mod_pos_bound. lia. Qed.

Lemma u16_range z : is_u16 (u16 z).
Proof. apply Z.mod_pos_bound. lia. Qed.

Lemma u16_id z : is_u16 z -> u16 z = z.
Proof. intros H. by apply Z.mod_small. Qed.

Lemma be16_length v : length (be16 v) = 2%nat.
Proof. done. Qed.

Lemma be32_length v : length (be32 v) = 4%nat.
Proof. done. Qed.

Lemma be16_bytes v : Forall is_byte (be16 v).
Proof. repeat constructor; apply Z.mod_pos_bound; lia. Qed.

Lemma be32_bytes v : Forall is_byte (be32 v).
Proof. apply Forall_app; split; apply be16_bytes. Qed.

Lemma rd8_in buf i : 0 <= i < Z.of_nat (length buf) -> is_Some (rd8 buf i).
Proof. intros H. destruct (zlookup_in_range buf i H) as [x Hx]. by exists x. Qed.

Lemma rd8_byte buf i b : Forall is_byte buf -> rd8 buf i = Some b -> is_byte b.
Proof.
  unfold rd8, zlookup. intros Hb H. case_decide; [|done].
  eapply Forall_lookup_1 in H; done.
Qed.

Lemma rd16_in buf i : 0 <= i -> i + 2 <= Z.of_nat (length buf) -> is_Some (rd16 buf i).
Proof.
  intros H1 H2. unfold rd16. destruct (rd8_in buf i) as [a ->]; [lia|].
  destruct (rd8_in buf (i + 1)) as [b ->]; [lia|]. by eexists.
Qed.

Lemma rd16_range buf i v : Forall is_byte buf -> rd16 buf i = Some v -> is_u16 v.
Proof.
  intros Hb H. unfold rd16 in H. obind_inv.
  apply (rd8_byte buf) in E; [|done]. apply (rd8_byte buf) in E0; [|done].
  unfold is_byte, is_u16 in *. lia.
Qed.

Lemma rd32_in buf i : 0 <= i -> i + 4 <= Z.of_nat (length buf) -> is_Some (rd32 buf i).
Proof.
  intros H1 H2. unfold rd32. destruct (rd16_in buf i) as [a ->]; [lia..|].
  destruct (rd16_in buf (i + 2)) as [b ->]; [lia..|]. by eexists.
Qed.

Lemma rdn_in buf n : forall i,
  0 <= i -> i + Z.of_nat n <= Z.of_nat (length buf) ->
  exists l, rdn buf i n = Some l /\ length l = n.
Proof.
  induction n as [|n IH]; intros i H1 H2; [by exists []|]. cbn [rdn].
  destruct (rd8_in buf i) as [b ->]; [lia|].
  destruct (IH (i + 1)) as (l & Hl & Hn); [lia..|]. ored. rewrite Hl. ored.
  exists (b :: l). cbn. auto.
Qed.

(** ** Round trips *)

Lemma rd8_app_r pre l i : rd8 (pre ++ l) (Z.of_nat (length pre) + Z.of_nat i) = l !! i.
Proof.
  unfold rd8. rewrite <- Nat2Z.inj_add, zlookup_nat, lookup_app_r by lia.
  f_equal. lia.
Qed.

Lemma rd8_at pre b post : rd8 (pre ++ b :: post) (Z.of_nat (length pre)) = Some b.
Proof. pose proof (rd8_app_r pre (b :: post) 0) as H. by rewrite Z.add_0_r in H. Qed.

Lemma rd16_at pre v post :
  is_u16 v -> rd16 (pre ++ be16 v ++ post) (Z.of_nat (length pre)) = Some v.
Proof.
  intros Hv. unfold rd16, be16. cbn [app]. rewrite rd8_at. ored.
  change 1 with (Z.of_nat 1). rewrite rd8_app_r. cbn [lookup list_lookup]. ored.
  f_equal. unfold is_u16 in Hv. rewrite (Z.mod_small (v / 256)).
  - pose proof (Z.div_mod v 256). lia.
  - split; [apply Z.div_pos; lia|apply Z.div_lt_upper_bound; lia].
Qed.

Lemma rd32_at pre v post :
  is_u32 v -> rd32 (pre ++ be32 v ++ post) (Z.of_nat (length pre)) = Some v.
Proof.
  intros Hv. unfold rd32, be32. rewrite <- app_assoc.
  rewrite rd16_at by apply u16_range. ored.
  replace (Z.of_nat (length pre) + 2)
    with (Z.of_nat (length (pre ++ be16 (v / 65536 mod 65536)))) by (rewrite length_app; cbn; lia).
  rewrite app_assoc, rd16_at by apply u16_range. ored. f_equal. unfold is_u32 in Hv.
  rewrite (Z.mod_small (v / 65536)).
  - pose proof (Z.div_mod v 65536). lia.
  - split; [apply Z.div_pos; lia|apply Z.div_lt_upper_bound; lia].
Qed.

Lemma rdn_at l : forall pre post,
  rdn (pre ++ l ++ post) (Z.of_nat (length pre)) (length l) = Some l.
Proof.
  induction l as [|b l IH]; intros pre post; [done|]. cbn [rdn app length].
  rewrite rd8_at. ored.
  replace (Z.of_nat (length pre) + 1) with (Z.of_nat (length (pre ++ [b])))
    by (rewrite length_app; cbn; lia).
  specialize (IH (pre ++ [b]) post). rewrite <- app_assoc in IH. cbn [app] in IH.
  by rewrite IH.
Qed.
