(* ===== verification/TimeVal.v ===== *)
(** * Time values ([pjlib/src/pj/types.c], [pjlib/include/pj/types.h])

    [pj_time_val], its comparison and arithmetic macros, and
    [pj_time_val_normalize].  A C [long] is a [Z]. *)

From S2P Require Import Prelude.
Local Open Scope Z_scope.

(** ** Definitions *)

Record pj_time_val := mk_time_val { sec : Z; msec : Z }.

#[export] Instance eta_pj_time_val : Settable pj_time_val :=
  fun t => mk_time_val (sec t) (msec t).

#[export] Instance pj_time_val_eq_dec : EqDecision pj_time_val.
Proof. solve_decision. Defined.

Definition PJ_TIME_VAL_MSEC (t : pj_time_val) : Z := sec t * 1000 + msec t.

Definition PJ_TIME_VAL_EQ (t1 t2 : pj_time_val) : bool :=
  (sec t1 =? sec t2) && (msec t1 =? msec t2).

Definition PJ_TIME_VAL_GT (t1 t2 : pj_time_val) : bool :=
  (sec t1 >? sec t2) || ((sec t1 =? sec t2) && (msec t1 >? msec t2)).

Definition PJ_TIME_VAL_GTE (t1 t2 : pj_time_val) : bool :=
  PJ_TIME_VAL_GT t1 t2 || PJ_TIME_VAL_EQ t1 t2.

Definition PJ_TIME_VAL_LT (t1 t2 : pj_time_val) : bool :=
  negb (PJ_TIME_VAL_GTE t1 t2).

Definition PJ_TIME_VAL_LTE (t1 t2 : pj_time_val) : bool :=
  negb (PJ_TIME_VAL_GT t1 t2).

(** The [do ... while (t->msec <= -1000)] loop.  The fuel is the number of
    iterations allowed; [borrow_loop_exit] shows it is enough. *)
Fixpoint borrow_loop (fuel : nat) (t : pj_time_val) : pj_time_val :=
  match fuel with
  | O => t
  | S fuel =>
      let t := mk_time_val (sec t - 1) (msec t + 1000) in
      if msec t <=? -1000 then borrow_loop fuel t else t
  end.

Definition pj_time_val_normalize (t : pj_time_val) : pj_time_val :=
  let t :=
    if msec t >=? 1000 then
      mk_time_val (sec t + Z.quot (msec t) 1000) (Z.rem (msec t) 1000)
    else if msec t <=? -1000 then
      borrow_loop (Z.to_nat (- msec t / 1000)) t
    else t in
  if (sec t >=? 1) && (msec t <? 0) then
    mk_time_val (sec t - 1) (msec t + 1000)
  else if (sec t <? 0) && (msec t >? 0) then
    mk_time_val (sec t + 1) (msec t - 1000)
  else t.

Definition PJ_TIME_VAL_ADD (t1 t2 : pj_time_val) : pj_time_val :=
  pj_time_val_normalize (mk_time_val (sec t1 + sec t2) (msec t1 + msec t2)).

Definition PJ_TIME_VAL_SUB (t1 t2 : pj_time_val) : pj_time_val :=
  pj_time_val_normalize (mk_time_val (sec t1 - sec t2) (msec t1 - msec t2)).

(** What [pj_time_val_normalize] promises: less than a second of
    milliseconds, of the sign of the seconds. *)
Definition normalized (t : pj_time_val) : Prop :=
  -1000 < msec t < 1000 /\ (sec t >= 1 -> 0 <= msec t) /\
  (sec t < 0 -> msec t <= 0).

(** ** The comparison macros are a total order *)

Lemma time_gt_spec t1 t2 :
  PJ_TIME_VAL_GT t1 t2 = true <->
  sec t1 > sec t2 \/ sec t1 = sec t2 /\ msec t1 > msec t2.
Proof. unfold PJ_TIME_VAL_GT. lia. Qed.

Lemma time_eq_spec t1 t2 : PJ_TIME_VAL_EQ t1 t2 = true <-> t1 = t2.
Proof.
  unfold PJ_TIME_VAL_EQ. destruct t1, t2; cbn.
  rewrite andb_true_iff, !Z.eqb_eq. split; [intros [-> ->]|intros [= -> ->]]; auto.
Qed.

Lemma time_lt_gt t1 t2 : PJ_TIME_VAL_LT t1 t2 = PJ_TIME_VAL_GT t2 t1.
Proof.
  unfold PJ_TIME_VAL_LT, PJ_TIME_VAL_GTE, PJ_TIME_VAL_GT, PJ_TIME_VAL_EQ. lia.
Qed.

Lemma time_gte_lte t1 t2 : PJ_TIME_VAL_GTE t1 t2 = PJ_TIME_VAL_LTE t2 t1.
Proof.
  unfold PJ_TIME_VAL_LTE, PJ_TIME_VAL_GTE, PJ_TIME_VAL_GT, PJ_TIME_VAL_EQ. lia.
Qed.

(** The order [PJ_TIME_VAL_LTE] decides. *)
Definition time_le (t1 t2 : pj_time_val) : Prop := PJ_TIME_VAL_LTE t1 t2 = true.

#[export] Instance time_le_dec t1 t2 : Decision (time_le t1 t2).
Proof. unfold time_le. apply _. Defined.

Lemma time_le_spec t1 t2 :
  time_le t1 t2 <-> sec t1 < sec t2 \/ sec t1 = sec t2 /\ msec t1 <= msec t2.
Proof. unfold time_le, PJ_TIME_VAL_LTE, PJ_TIME_VAL_GT. lia. Qed.

#[export] Instance time_le_preorder : PreOrder time_le.
Proof. split; red; intros *; rewrite !time_le_spec; lia. Qed.

Lemma time_le_total t1 t2 : time_le t1 t2 \/ time_le t2 t1.
Proof. rewrite !time_le_spec. lia. Qed.

Lemma time_lt_le t1 t2 : PJ_TIME_VAL_LT t1 t2 = true -> time_le t1 t2.
Proof. rewrite time_lt_gt, time_gt_spec, time_le_spec. lia. Qed.

Lemma time_nlt_le t1 t2 : PJ_TIME_VAL_LT t1 t2 = false -> time_le t2 t1.
Proof.
  rewrite time_lt_gt. intros H. unfold time_le, PJ_TIME_VAL_LTE. by rewrite H.
Qed.

Lemma time_gte_le t1 t2 : PJ_TIME_VAL_GTE t1 t2 = true <-> time_le t2 t1.
Proof. by rewrite time_gte_lte. Qed.

#[export] Hint Resolve time_lt_le time_nlt_le : pj.

(** ** Normalisation *)

Lemma borrow_loop_spec fuel t :
  msec t <= -1000 -> -1000 * (Z.of_nat fuel + 1) < msec t ->
  let t' := borrow_loop fuel t in
  -1000 < msec t' <= 0 /\ PJ_TIME_VAL_MSEC t' = PJ_TIME_VAL_MSEC t.
Proof.
  revert t. induction fuel as [|fuel IH]; intros t Hle Hfuel; [lia|].
  cbn [borrow_loop]. cbv zeta. cbn [sec msec].
  destruct (Z.leb_spec (msec t + 1000) (-1000)).
  - destruct (IH (mk_time_val (sec t - 1) (msec t + 1000))) as [? ->];
      cbn [msec]; [lia..|].
    split; [done|]. unfold PJ_TIME_VAL_MSEC. cbn. lia.
  - unfold PJ_TIME_VAL_MSEC. cbn. lia.
Qed.

Lemma normalize_spec t :
  let t' := pj_time_val_normalize t in
  normalized t' /\ PJ_TIME_VAL_MSEC t' = PJ_TIME_VAL_MSEC t.
Proof.
  assert (Hmid : exists t1,
    pj_time_val_normalize t =
      (if (sec t1 >=? 1) && (msec t1 <? 0) then
         mk_time_val (sec t1 - 1) (msec t1 + 1000)
       else if (sec t1 <? 0) && (msec t1 >? 0) then
         mk_time_val (sec t1 + 1) (msec t1 - 1000)
       else t1) /\
    -1000 < msec t1 < 1000 /\ PJ_TIME_VAL_MSEC t1 = PJ_TIME_VAL_MSEC t).
  { unfold pj_time_val_normalize. eexists. split; [reflexivity|].
    unfold PJ_TIME_VAL_MSEC. rewrite Z.geb_leb.
    destruct (Z.leb_spec 1000 (msec t)); cbn [sec msec].
    - pose proof (Z.quot_rem' (msec t) 1000).
      pose proof (Z.rem_bound_pos (msec t) 1000). lia.
    - destruct (Z.leb_spec (msec t) (-1000)); [|lia].
      pose proof (Z.div_mod (- msec t) 1000).
      pose proof (Z.mod_pos_bound (- msec t) 1000).
      destruct (borrow_loop_spec (Z.to_nat (- msec t / 1000)) t) as [? Hv];
        [lia..|].
      unfold PJ_TIME_VAL_MSEC in Hv. lia. }
  destruct Hmid as (t1 & -> & Hb & <-). cbv zeta.
  unfold normalized, PJ_TIME_VAL_MSEC.
  rewrite Z.geb_leb, Z.gtb_ltb.
  destruct (Z.leb_spec 1 (sec t1)), (Z.ltb_spec (msec t1) 0),
    (Z.ltb_spec (sec t1) 0), (Z.ltb_spec 0 (msec t1)); cbn; lia.
Qed.

Lemma time_add_spec t1 t2 :
  normalized (PJ_TIME_VAL_ADD t1 t2) /\
  PJ_TIME_VAL_MSEC (PJ_TIME_VAL_ADD t1 t2) =
    PJ_TIME_VAL_MSEC t1 + PJ_TIME_VAL_MSEC t2.
Proof.
  destruct (normalize_spec (mk_time_val (sec t1 + sec t2) (msec t1 + msec t2)))
    as [? E]. unfold PJ_TIME_VAL_ADD. split; [done|].
  rewrite E. unfold PJ_TIME_VAL_MSEC. cbn. lia.
Qed.

Lemma time_sub_spec t1 t2 :
  normalized (PJ_TIME_VAL_SUB t1 t2) /\
  PJ_TIME_VAL_MSEC (PJ_TIME_VAL_SUB t1 t2) =
    PJ_TIME_VAL_MSEC t1 - PJ_TIME_VAL_MSEC t2.
Proof.
  destruct (normalize_spec (mk_time_val (sec t1 - sec t2) (msec t1 - msec t2)))
    as [? E]. unfold PJ_TIME_VAL_SUB. split; [done|].
  rewrite E. unfold PJ_TIME_VAL_MSEC. cbn. lia.
Qed.

(** On normalised values the lexicographic macros compare milliseconds. *)
Lemma time_le_msec t1 t2 :
  normalized t1 -> normalized t2 ->
  time_le t1 t2 <-> PJ_TIME_VAL_MSEC t1 <= PJ_TIME_VAL_MSEC t2.
Proof.
  unfold normalized, PJ_TIME_VAL_MSEC. rewrite time_le_spec. lia.
Qed.

#[export] Hint Resolve time_add_spec time_sub_spec : pj.

(** ** Property *)

(** [pj_time_val_normalize] terminates in a normalised value that denotes
    the same number of milliseconds. *)
Theorem time_val_normalize_correct t :
  normalized (pj_time_val_normalize t) /\
  PJ_TIME_VAL_MSEC (pj_time_val_normalize t) = PJ_TIME_VAL_MSEC t.
Proof. apply normalize_spec. Qed.
