(* ===== verification/Timer.v ===== *)
(** * The timer heap ([pjlib/src/pj/timer.c])

    The model follows the default build configuration of [pj/config.h]:
    [PJ_TIMER_USE_COPY = 1], [PJ_TIMER_USE_LINKED_LIST = 0].  A pointer into
    [ht->timer_dups] is the index of the copy it points to; the address of a
    [pj_timer_entry] owned by the application is a [nat], looked up in
    [entries]; callbacks, user data and group locks are named by numbers.
    An array access out of range or through a null pointer is [None].
    [pj_assert] has no effect (release build), [PJ_ASSERT_RETURN] returns. *)

From S2P Require Import Prelude TimeVal.
Local Open Scope nat_scope.

(** ** Data *)

Record pj_timer_entry := mk_timer_entry {
  te_user_data : nat;
  te_id : Z;
  te_cb : option nat;          (* NULL is [None] *)
  te_timer_id : Z
}.

Record pj_timer_entry_dup := mk_timer_entry_dup {
  dup_copy : pj_timer_entry;   (* field [dup] *)
  dup_entry : nat;             (* the original entry *)
  dup_timer_value : pj_time_val;
  dup_grp_lock : option nat
}.

Record pj_timer_heap_t := mk_timer_heap {
  max_size : nat;
  cur_size : nat;
  max_entries_per_poll : nat;
  heap : list (option nat);
  timer_ids : list Z;
  timer_dups : list (option pj_timer_entry_dup); (* [None]: not initialised *)
  timer_ids_freelist : Z
}.

(** The heap, the memory of the application's entries, and the reference
    counters of the group locks. *)
Record timer_world := mk_timer_world {
  ht : pj_timer_heap_t;
  entries : gmap nat pj_timer_entry;
  lock_refs : gmap nat Z
}.

#[export] Instance eta_timer_entry : Settable pj_timer_entry :=
  fun e => mk_timer_entry (te_user_data e) (te_id e) (te_cb e) (te_timer_id e).
#[export] Instance eta_timer_dup : Settable pj_timer_entry_dup :=
  fun d => mk_timer_entry_dup (dup_copy d) (dup_entry d) (dup_timer_value d)
             (dup_grp_lock d).
#[export] Instance eta_timer_heap : Settable pj_timer_heap_t :=
  fun h => mk_timer_heap (max_size h) (cur_size h) (max_entries_per_poll h)
             (heap h) (timer_ids h) (timer_dups h) (timer_ids_freelist h).
#[export] Instance eta_timer_world : Settable timer_world :=
  fun w => mk_timer_world (ht w) (entries w) (lock_refs w).

Definition F_DONT_CALL : Z := 1.
Definition F_DONT_ASSERT : Z := 2.
Definition F_SET_ID : Z := 4.

Definition DEFAULT_MAX_TIMED_OUT_PER_POLL : nat := 64.

Definition HEAP_PARENT (x : nat) : nat := if x =? 0 then 0 else (x - 1) / 2.
Definition HEAP_LEFT (x : nat) : nat := x + x + 1.

(** ** Array accesses *)

Definition heap_at (h : pj_timer_heap_t) (slot : nat) : option nat :=
  mjoin (heap h !! slot).

Definition get_dup (h : pj_timer_heap_t) (p : nat) : option pj_timer_entry_dup :=
  mjoin (timer_dups h !! p).

(** ** Internal operations *)

Definition copy_node (h : pj_timer_heap_t) (slot moved_node : nat)
    : option pj_timer_heap_t :=
  d ← get_dup h moved_node;
  if slot <? length (heap h) then
    ids ← zstore (timer_ids h) (te_timer_id (dup_copy d)) (Z.of_nat slot);
    Some (h <| heap := <[slot := Some moved_node]> (heap h) |>
            <| timer_ids := ids |>)
  else None.

Definition pop_freelist (h : pj_timer_heap_t) : option (Z * pj_timer_heap_t) :=
  let new_id := timer_ids_freelist h in
  next ← zlookup (timer_ids h) (timer_ids_freelist h);
  Some (new_id, h <| timer_ids_freelist := (- next)%Z |>).

Definition push_freelist (h : pj_timer_heap_t) (old_id : Z)
    : option pj_timer_heap_t :=
  ids ← zstore (timer_ids h) old_id (- timer_ids_freelist h)%Z;
  Some (h <| timer_ids := ids |> <| timer_ids_freelist := old_id |>).

(** [PJ_TIME_VAL_LT(a->_timer_value, b->_timer_value)] for two pointers. *)
Definition node_lt (h : pj_timer_heap_t) (a b : nat) : option bool :=
  da ← get_dup h a; db ← get_dup h b;
  Some (PJ_TIME_VAL_LT (dup_timer_value da) (dup_timer_value db)).

(** The smaller of the two children of a node, and its slot. *)
Definition smaller_child (h : pj_timer_heap_t) (child : nat)
    : option (nat * nat) :=
  c ← heap_at h child;
  if child + 1 <? cur_size h then
    c1 ← heap_at h (child + 1);
    lt ← node_lt h c1 c;
    Some (if lt : bool then (child + 1, c1) else (child, c))
  else Some (child, c).

Fixpoint reheap_down_loop (fuel : nat) (h : pj_timer_heap_t)
    (moved_node slot child : nat) : option pj_timer_heap_t :=
  match fuel with
  | O => None
  | S fuel =>
      if child <? cur_size h then
        '(child, c) ← smaller_child h child;
        lt ← node_lt h c moved_node;
        if lt : bool then
          h ← copy_node h slot c;
          reheap_down_loop fuel h moved_node child (HEAP_LEFT child)
        else copy_node h slot moved_node
      else copy_node h slot moved_node
  end.

Definition reheap_down (h : pj_timer_heap_t) (moved_node slot child : nat) :=
  reheap_down_loop (S (cur_size h)) h moved_node slot child.

Fixpoint reheap_up_loop (fuel : nat) (h : pj_timer_heap_t)
    (moved_node slot parent : nat) : option pj_timer_heap_t :=
  match fuel with
  | O => None
  | S fuel =>
      if 0 <? slot then
        p ← heap_at h parent;
        lt ← node_lt h moved_node p;
        if lt : bool then
          h ← copy_node h slot p;
          reheap_up_loop fuel h moved_node parent (HEAP_PARENT parent)
        else copy_node h slot moved_node
      else copy_node h slot moved_node
  end.

Definition reheap_up (h : pj_timer_heap_t) (moved_node slot parent : nat) :=
  reheap_up_loop (S slot) h moved_node slot parent.

(** The re-heapification at the end of [remove_node]: the last node of the
    heap (at index [cur_size], already decremented) fills [slot]. *)
Definition refill_slot (h : pj_timer_heap_t) (slot : nat)
    : option pj_timer_heap_t :=
  if slot <? cur_size h then
    moved_node ← heap_at h (cur_size h);
    h ← copy_node h slot moved_node;
    let parent := HEAP_PARENT slot in
    p ← heap_at h parent;
    dm ← get_dup h moved_node;
    dp ← get_dup h p;
    if PJ_TIME_VAL_GTE (dup_timer_value dm) (dup_timer_value dp)
    then reheap_down h moved_node slot (HEAP_LEFT slot)
    else reheap_up h moved_node slot parent
  else Some h.

Definition remove_node (w : timer_world) (slot : nat)
    : option (nat * timer_world) :=
  removed_node ← heap_at (ht w) slot;
  d ← get_dup (ht w) removed_node;
  h ← push_freelist (ht w) (te_timer_id (dup_copy d));
  let h := h <| cur_size := cur_size h - 1 |> in
  e ← entries w !! dup_entry d;
  let es := <[dup_entry d := e <| te_timer_id := (-1)%Z |>]> (entries w) in
  let d := d <| dup_copy := dup_copy d <| te_timer_id := (-1)%Z |> |> in
  let h := h <| timer_dups := <[removed_node := Some d]> (timer_dups h) |> in
  h ← refill_slot h slot;
  Some (removed_node, w <| ht := h |> <| entries := es |>).

(** Which of the three allocations of [grow_heap] the pool satisfies. *)
Record pool_allocs := mk_pool_allocs {
  alloc_heap : bool; alloc_dups : bool; alloc_ids : bool
}.
Definition pool_ok : pool_allocs := mk_pool_allocs true true true.

Definition grow_heap (h : pj_timer_heap_t) (pool : pool_allocs)
    : Z * pj_timer_heap_t :=
  let new_size := max_size h * 2 in
  if negb (alloc_heap pool) then (PJ_ENOMEM, h) else
  if negb (alloc_dups pool) then (PJ_ENOMEM, h) else
  let h := h
    <| timer_dups := take (max_size h) (timer_dups h)
                       ++ replicate (new_size - max_size h) None |>
    <| heap := take (cur_size h) (heap h)
                 ++ replicate (new_size - cur_size h) None |> in
  if negb (alloc_ids pool) then (PJ_ENOMEM, h) else
  let h := h
    <| timer_ids := take (max_size h) (timer_ids h) ++
         ((fun i => (- Z.of_nat (i + 1))%Z) <$>
            seq (max_size h) (new_size - max_size h)) |>
    <| max_size := new_size |> in
  (PJ_SUCCESS, h).

Definition insert_node (w : timer_world) (new_node : nat)
    (future_time : pj_time_val) (pool : pool_allocs)
    : option (Z * timer_world) :=
  let '(status, h) :=
    if max_size (ht w) <=? cur_size (ht w) + 2 then grow_heap (ht w) pool
    else (PJ_SUCCESS, ht w) in
  if negb (status =? PJ_SUCCESS)%Z then Some (status, w <| ht := h |>) else
  e ← entries w !! new_node;
  let timer_copy := mk_timer_entry_dup e new_node future_time None in
  dups ← zstore (timer_dups h) (te_timer_id e) (Some timer_copy);
  let h := h <| timer_dups := dups |> in
  h ← reheap_up h (Z.to_nat (te_timer_id e)) (cur_size h)
        (HEAP_PARENT (cur_size h));
  let h := h <| cur_size := cur_size h + 1 |> in
  Some (PJ_SUCCESS, w <| ht := h |>).

Definition schedule_entry (w : timer_world) (entry : nat)
    (future_time : pj_time_val) (pool : pool_allocs)
    : option (Z * timer_world) :=
  if cur_size (ht w) <? max_size (ht w) then
    '(new_id, h) ← pop_freelist (ht w);
    e ← entries w !! entry;
    let w := w <| ht := h |>
               <| entries := <[entry := e <| te_timer_id := new_id |>]>
                               (entries w) |> in
    insert_node w entry future_time pool
  else Some ((-1)%Z, w).

Definition cancel (w : timer_world) (entry : nat) (flags : Z)
    : option (Z * timer_world) :=
  e ← entries w !! entry;
  let w_invalid := w <| entries :=
    <[entry := e <| te_timer_id := (-1)%Z |>]> (entries w) |> in
  if (te_timer_id e <? 1)%Z
     || (Z.of_nat (max_size (ht w)) <=? te_timer_id e)%Z then
    Some (0%Z, w_invalid)
  else
    timer_node_slot ← zlookup (timer_ids (ht w)) (te_timer_id e);
    if (timer_node_slot <? 0)%Z then Some (0%Z, w_invalid) else
    node ← heap_at (ht w) (Z.to_nat timer_node_slot);
    d ← get_dup (ht w) node;
    if negb (entry =? dup_entry d) then Some (0%Z, w_invalid) else
    '(_, w) ← remove_node w (Z.to_nat timer_node_slot);
    if (Z.land flags F_DONT_CALL =? 0)%Z
    then None    (* [ht->callback] is never set: a call through NULL *)
    else Some (1%Z, w).

(** ** Public operations *)

Definition pj_timer_heap_create (size : nat) : pj_timer_heap_t :=
  let size := size + 2 in
  mk_timer_heap size 0 DEFAULT_MAX_TIMED_OUT_PER_POLL
    (replicate size None)
    ((fun i => (- Z.of_nat (i + 1))%Z) <$> seq 0 size)
    (replicate size None)
    1%Z.

Definition pj_timer_heap_set_max_timed_out_per_poll (h : pj_timer_heap_t)
    (count : nat) : nat * pj_timer_heap_t :=
  (max_entries_per_poll h, h <| max_entries_per_poll := count |>).

Definition pj_timer_entry_init (id : Z) (user_data : nat) (cb : nat)
    : pj_timer_entry :=
  mk_timer_entry user_data id (Some cb) (-1)%Z.

Definition pj_timer_entry_running (e : pj_timer_entry) : bool :=
  (1 <=? te_timer_id e)%Z.

Definition pj_grp_lock_add_ref (w : timer_world) (l : nat)
    : option timer_world :=
  n ← lock_refs w !! l;
  Some (w <| lock_refs := <[l := (n + 1)%Z]> (lock_refs w) |>).

Definition pj_grp_lock_dec_ref (w : timer_world) (l : nat)
    : option timer_world :=
  n ← lock_refs w !! l;
  Some (w <| lock_refs := <[l := (n - 1)%Z]> (lock_refs w) |>).

(** [now] is the value [pj_gettickcount] returns. *)
Definition schedule_w_grp_lock (w : timer_world) (now : pj_time_val)
    (entry : nat) (delay : pj_time_val) (set_id : bool) (id_val : Z)
    (grp_lock : option nat) (pool : pool_allocs) : option (Z * timer_world) :=
  e ← entries w !! entry;
  if bool_decide (te_cb e = None) then Some (PJ_EINVAL, w) else
  let expires := PJ_TIME_VAL_ADD now delay in
  if pj_timer_entry_running e then Some (PJ_EINVALIDOP, w) else
  '(status, w) ← schedule_entry w entry expires pool;
  if (status =? PJ_SUCCESS)%Z then
    e ← entries w !! entry;
    d ← mjoin (zlookup (timer_dups (ht w)) (te_timer_id e));
    let e := if set_id then e <| te_id := id_val |> else e in
    let d := if set_id then d <| dup_copy := dup_copy d <| te_id := id_val |> |>
             else d in
    let d := d <| dup_grp_lock := grp_lock |> in
    dups ← zstore (timer_dups (ht w)) (te_timer_id e) (Some d);
    let w := w <| ht := ht w <| timer_dups := dups |> |>
               <| entries := <[entry := e]> (entries w) |> in
    w ← match grp_lock with
        | Some l => pj_grp_lock_add_ref w l
        | None => Some w
        end;
    Some (status, w)
  else Some (status, w).

Definition pj_timer_heap_schedule (w : timer_world) (now : pj_time_val)
    (entry : nat) (delay : pj_time_val) (pool : pool_allocs) :=
  schedule_w_grp_lock w now entry delay false 1 None pool.

Definition pj_timer_heap_schedule_w_grp_lock (w : timer_world)
    (now : pj_time_val) (entry : nat) (delay : pj_time_val) (id_val : Z)
    (grp_lock : option nat) (pool : pool_allocs) :=
  schedule_w_grp_lock w now entry delay true id_val grp_lock pool.

(** The read [ht->timer_dups[entry->_timer_id]._grp_lock].  The id is not
    checked: for an entry that is not scheduled it is -1 (or 0, the slot no
    copy is ever in), and the read goes to memory that holds no copy.  [stray]
    is what that memory yields: [None], the read is undefined behaviour. *)
Definition read_dup_lock (stray : option (option nat)) (h : pj_timer_heap_t) (timer_id : Z)
    : option (option nat) :=
  match mjoin (zlookup (timer_dups h) timer_id) with
  | Some d => Some (dup_grp_lock d)
  | None => stray
  end.

(** [cancel_timer] performs that read before [cancel] checks the timer id. *)
Definition cancel_timer (stray : option (option nat)) (w : timer_world) (entry : nat)
    (flags : Z) (id_val : Z) : option (Z * timer_world) :=
  e ← entries w !! entry;
  grp_lock ← read_dup_lock stray (ht w) (te_timer_id e);
  '(count, w) ← cancel w entry (Z.lor flags F_DONT_CALL);
  if (0 <? count)%Z then
    e ← entries w !! entry;
    let w := if (Z.land flags F_SET_ID =? 0)%Z then w
             else w <| entries := <[entry := e <| te_id := id_val |>]>
                                    (entries w) |> in
    w ← match grp_lock with
        | Some l => pj_grp_lock_dec_ref w l
        | None => Some w
        end;
    Some (count, w)
  else Some (count, w).

Definition pj_timer_heap_cancel (stray : option (option nat)) (w : timer_world)
    (entry : nat) := cancel_timer stray w entry 0 0.

Definition pj_timer_heap_cancel_if_active (stray : option (option nat))
    (w : timer_world) (entry : nat) (id_val : Z) :=
  cancel_timer stray w entry (Z.lor F_SET_ID F_DONT_ASSERT) id_val.

(** The deadline of the root of the heap. *)
Definition root_value (h : pj_timer_heap_t) : option pj_time_val :=
  n ← heap_at h 0; d ← get_dup h n; Some (dup_timer_value d).

Section poll.
(** The expiry callbacks: what calling [entry->cb] does to the world. *)
Variable cb : nat -> timer_world -> timer_world.

(** One iteration of the loop of [pj_timer_heap_poll]: the address of the
    entry removed, and whether its callback was called. *)
Definition poll_one (w : timer_world) : option (nat * bool * timer_world) :=
  '(node, w) ← remove_node w 0;
  d ← get_dup (ht w) node;
  let entry := dup_entry d in
  let grp_lock := dup_grp_lock d in
  let w := w <| ht := ht w <| timer_dups :=
    <[node := Some (d <| dup_grp_lock := None |>)]> (timer_dups (ht w)) |> |> in
  e ← entries w !! entry;
  let valid := bool_decide (te_cb (dup_copy d) = te_cb e) &&
               (te_user_data (dup_copy d) =? te_user_data e) in
  let called := valid && negb (bool_decide (te_cb e = None)) in
  let w := if called then cb entry w else w in
  w ← match grp_lock with
      | Some l => if valid then pj_grp_lock_dec_ref w l else Some w
      | None => Some w
      end;
  Some (entry, called, w).

(** The loop; the third component of the result lists the entries removed,
    in order. *)
Fixpoint poll_loop (fuel : nat) (now : pj_time_val) (count : nat)
    (w : timer_world) : option (nat * list nat * timer_world) :=
  match fuel with
  | O => None
  | S fuel =>
      if cur_size (ht w) =? 0 then Some (count, [], w) else
      min_time_node ← root_value (ht w);
      if PJ_TIME_VAL_LTE min_time_node now
         && (count <? max_entries_per_poll (ht w)) then
        '(entry, _, w) ← poll_one w;
        '(count, fired, w) ← poll_loop fuel now (S count) w;
        Some (count, entry :: fired, w)
      else Some (count, [], w)
  end.

Definition max_delay : pj_time_val := mk_time_val PJ_MAXINT32 PJ_MAXINT32.

(** The [next_delay] computed after the loop. *)
Definition poll_next_delay (h : pj_timer_heap_t) (now : pj_time_val)
    : option pj_time_val :=
  if cur_size h =? 0 then Some max_delay else
  v ← root_value h;
  let d := PJ_TIME_VAL_SUB v now in
  Some (if (sec d <? 0)%Z || (msec d <? 0)%Z then mk_time_val 0 0 else d).

(** [pj_timer_heap_poll] with a non-null [next_delay].  The fuel is one more
    than the maximum number of entries processed per poll. *)
Definition pj_timer_heap_poll (w : timer_world) (now : pj_time_val)
    : option (nat * pj_time_val * list nat * timer_world) :=
  if cur_size (ht w) =? 0 then Some (0, max_delay, [], w) else
  '(count, fired, w) ← poll_loop (S (max_entries_per_poll (ht w))) now 0 w;
  next_delay ← poll_next_delay (ht w) now;
  Some (count, next_delay, fired, w).
End poll.

Definition pj_timer_heap_count (h : pj_timer_heap_t) : nat := cur_size h.

Definition pj_timer_heap_earliest_time (h : pj_timer_heap_t)
    : option (Z * option pj_time_val) :=
  if cur_size h =? 0 then Some (PJ_ENOTFOUND, None) else
  v ← root_value h; Some (PJ_SUCCESS, Some v).
