(* ===== verification/TimerInv.v ===== *)
(** * Correctness of the timer heap: loops, invariant and operations

    The re-heapification loops, and the invariant of the heap. *)

From S2P Require Import Prelude TimeVal Timer.
Local Open Scope nat_scope.

(** * Correctness of the timer heap: re-heapification

    [heap_rep h L]: the first [cur_size] slots of [h] hold the nodes [L], and
    [timer_ids] inverts them.  The loops of [reheap_up] and [reheap_down] move
    a hole; [holed h L slot m] is the state in which slot [slot] is about to
    receive the node [m]. *)

(** ** Definitions *)

(** The copy at index [id] belongs to timer id [id]. *)
Definition dup_ok (h : pj_timer_heap_t) (id : nat) : Prop :=
  exists d, get_dup h id = Some d /\ te_timer_id (dup_copy d) = Z.of_nat id /\
            1 <= id < length (timer_ids h).

Definition node_val (h : pj_timer_heap_t) (id : nat) : pj_time_val :=
  from_option dup_timer_value (mk_time_val 0 0) (get_dup h id).

Record heap_rep (h : pj_timer_heap_t) (L : list nat) : Prop := mk_heap_rep {
  rep_room : length L <= length (heap h);
  rep_slot : forall i id, L !! i = Some id ->
    heap h !! i = Some (Some id) /\ timer_ids h !! id = Some (Z.of_nat i);
  rep_dup : forall i id, L !! i = Some id -> dup_ok h id
}.

Record holed (h : pj_timer_heap_t) (L : list nat) (slot m : nat) : Prop :=
  mk_holed {
  holed_room : length L <= length (heap h);
  holed_here : L !! slot = Some m;
  holed_slot : forall i id, L !! i = Some id -> i <> slot ->
    heap h !! i = Some (Some id) /\ timer_ids h !! id = Some (Z.of_nat i);
  holed_dup : forall i id, L !! i = Some id -> dup_ok h id;
  holed_nodup : NoDup L
}.

Definition heap_ordered (h : pj_timer_heap_t) (L : list nat) : Prop :=
  forall i p c, 0 < i -> L !! i = Some c -> L !! HEAP_PARENT i = Some p ->
    time_le (node_val h p) (node_val h c).

(** Everything the re-heapification of the nodes [L] leaves alone. *)
Record same_but_heap (L : list nat) (h h' : pj_timer_heap_t) : Prop :=
  mk_same_but_heap {
  sbh_max : max_size h' = max_size h;
  sbh_cur : cur_size h' = cur_size h;
  sbh_poll : max_entries_per_poll h' = max_entries_per_poll h;
  sbh_dups : timer_dups h' = timer_dups h;
  sbh_free : timer_ids_freelist h' = timer_ids_freelist h;
  sbh_heap_len : length (heap h') = length (heap h);
  sbh_ids_len : length (timer_ids h') = length (timer_ids h);
  sbh_ids : forall x, x ∉ L -> timer_ids h' !! x = timer_ids h !! x
}.

Definition list_swap {A} (L : list A) (i j : nat) (a b : A) : list A :=
  <[i := b]> (<[j := a]> L).

(** Order of the heap except at [slot], whose node may be too small ([up]) or
    too large ([down]) for its place. *)
Definition ordered_up (h : pj_timer_heap_t) (L : list nat) (slot : nat) : Prop :=
  (forall i p c, 0 < i -> i <> slot -> L !! i = Some c ->
     L !! HEAP_PARENT i = Some p -> time_le (node_val h p) (node_val h c)) /\
  (forall i g c, 0 < i -> HEAP_PARENT i = slot -> 0 < slot -> L !! i = Some c ->
     L !! HEAP_PARENT slot = Some g -> time_le (node_val h g) (node_val h c)).

Definition ordered_down (h : pj_timer_heap_t) (L : list nat) (slot : nat) : Prop :=
  (forall i p c, 0 < i -> HEAP_PARENT i <> slot -> L !! i = Some c ->
     L !! HEAP_PARENT i = Some p -> time_le (node_val h p) (node_val h c)) /\
  (forall i g c, 0 < i -> HEAP_PARENT i = slot -> 0 < slot -> L !! i = Some c ->
     L !! HEAP_PARENT slot = Some g -> time_le (node_val h g) (node_val h c)).

(** ** Tree arithmetic and swaps *)

Lemma parent_spec i j : 0 < i -> HEAP_PARENT i = j <-> i = 2*j + 1 \/ i = 2*j + 2.
Proof.
  intros H. unfold HEAP_PARENT. destruct (Nat.eqb_spec i 0); [lia|].
  pose proof (Nat.div_mod_eq (i - 1) 2).
  pose proof (Nat.mod_upper_bound (i - 1) 2). lia.
Qed.

Lemma parent_lt i : 0 < i -> HEAP_PARENT i < i.
Proof. intros H. pose proof (proj1 (parent_spec i _ H) eq_refl). lia. Qed.

Lemma parent_0 : HEAP_PARENT 0 = 0.
Proof. reflexivity. Qed.

Lemma swap_lookup {A} (L : list A) i j a b k :
  L !! i = Some a -> L !! j = Some b ->
  list_swap L i j a b !! k =
    if decide (k = i) then Some b else if decide (k = j) then Some a else L !! k.
Proof.
  intros Hi%lookup_lt_Some Hj%lookup_lt_Some. unfold list_swap.
  rewrite insert_lookup by (rewrite length_insert; lia).
  destruct (decide (i = k)), (decide (k = i)); try congruence.
  rewrite insert_lookup by lia.
  destruct (decide (j = k)), (decide (k = j)); congruence.
Qed.

Lemma length_swap {A} (L : list A) i j a b :
  length (list_swap L i j a b) = length L.
Proof. unfold list_swap. by rewrite !length_insert. Qed.

Lemma swap_perm {A} (L : list A) i j a b :
  L !! i = Some a -> L !! j = Some b -> list_swap L i j a b ≡ₚ L.
Proof.
  intros Hi Hj. apply Permutation_inj. split; [apply length_swap|].
  exists (fun k => if decide (k = i) then j else if decide (k = j) then i else k).
  split.
  - intros x y. repeat case_decide; intros; congruence.
  - intros k. rewrite swap_lookup by done. repeat case_decide; congruence.
Qed.

Lemma perm_lookup {A} (L L' : list A) i x :
  L' ≡ₚ L -> L' !! i = Some x -> exists j, L !! j = Some x.
Proof.
  intros HP H%list_elem_of_lookup_2. rewrite HP in H.
  by apply list_elem_of_lookup_1.
Qed.

Lemma heap_rep_nodup h L : heap_rep h L -> NoDup L.
Proof.
  intros H. apply NoDup_alt. intros i j x Hi Hj.
  destruct (rep_slot _ _ H _ _ Hi), (rep_slot _ _ H _ _ Hj). simplify_eq. lia.
Qed.

(** ** Framing *)

#[export] Instance same_but_heap_preorder L : PreOrder (same_but_heap L).
Proof.
  split.
  - intros h. by split.
  - intros a b c [] []. split; try congruence.
    intros x Hx. rewrite <- sbh_ids0 by done. by apply sbh_ids1.
Qed.

Lemma same_but_heap_perm L L' h h' :
  L' ≡ₚ L -> same_but_heap L' h h' -> same_but_heap L h h'.
Proof.
  intros HP []. split; try done. intros x Hx. apply sbh_ids0. by rewrite HP.
Qed.

Lemma frame_get_dup L h h' p : same_but_heap L h h' -> get_dup h' p = get_dup h p.
Proof. intros H. unfold get_dup. by rewrite (sbh_dups _ _ _ H). Qed.

Lemma frame_node_val L h h' p :
  same_but_heap L h h' -> node_val h' p = node_val h p.
Proof. intros H. unfold node_val. by rewrite (frame_get_dup _ _ _ _ H). Qed.

Lemma frame_dup_ok L h h' p : same_but_heap L h h' -> dup_ok h p -> dup_ok h' p.
Proof.
  intros H (d & Hd & Hid & Hr). exists d.
  by rewrite (frame_get_dup _ _ _ _ H), (sbh_ids_len _ _ _ H).
Qed.

Lemma frame_ordered_up L0 h h' L s :
  same_but_heap L0 h h' -> ordered_up h L s -> ordered_up h' L s.
Proof.
  intros H [A B]. split; intros; rewrite !(frame_node_val _ _ _ _ H); eauto.
Qed.

Lemma frame_ordered_down L0 h h' L s :
  same_but_heap L0 h h' -> ordered_down h L s -> ordered_down h' L s.
Proof.
  intros H [A B]. split; intros; rewrite !(frame_node_val _ _ _ _ H); eauto.
Qed.

Lemma frame_ordered L0 h h' L :
  same_but_heap L0 h h' -> heap_ordered h L -> heap_ordered h' L.
Proof. intros H A ?**. rewrite !(frame_node_val _ _ _ _ H). eauto. Qed.

(** ** Moving the hole *)

(** [copy_node] writes slot and timer id, if they are in range. *)
Lemma copy_node_eq h slot m d :
  get_dup h m = Some d -> te_timer_id (dup_copy d) = Z.of_nat m ->
  m < length (timer_ids h) -> slot < length (heap h) ->
  copy_node h slot m = Some (h <| heap := <[slot := Some m]> (heap h) |>
    <| timer_ids := <[m := Z.of_nat slot]> (timer_ids h) |>).
Proof.
  intros Hd Hid Hm Hs. unfold copy_node. obind Hd.
  rewrite (proj2 (Nat.ltb_lt _ _) Hs), Hid, zstore_nat by done. done.
Qed.

Lemma copy_node_frame h slot m h' L :
  copy_node h slot m = Some h' -> dup_ok h m -> m ∈ L -> same_but_heap L h h'.
Proof.
  intros Hc (d & Hd & Hid & Hm) Hin.
  unfold copy_node in Hc. rewrite Hd in Hc. cbn in Hc.
  destruct (slot <? length (heap h)); [|done].
  rewrite Hid, zstore_nat in Hc by lia. cbn in Hc. simplify_eq.
  split; cbn; rewrite ?length_insert; auto.
  intros x Hx. rewrite list_lookup_insert_ne; [done|]. by intros ->.
Qed.

Lemma holed_fill h L slot m :
  holed h L slot m ->
  exists h', copy_node h slot m = Some h' /\ heap_rep h' L /\ same_but_heap L h h'.
Proof.
  intros [Hroom Hhere Hslot Hdup Hnd].
  pose proof (lookup_lt_Some _ _ _ Hhere) as Hlt.
  destruct (Hdup _ _ Hhere) as (d & Hd & Hid & Hm).
  assert (Hc := copy_node_eq h slot m d Hd Hid ltac:(lia) ltac:(lia)).
  eexists; split; [exact Hc|].
  assert (HF : same_but_heap L h _)
    by (eapply copy_node_frame; [exact Hc|by eapply Hdup|by eapply list_elem_of_lookup_2]).
  split; [|exact HF].
  split; [cbn; rewrite length_insert; lia| |].
  - intros i id Hi. cbn. rewrite !insert_lookup by lia.
    destruct (decide (slot = i)) as [->|Hne].
    + assert (id = m) as -> by congruence. by rewrite decide_True.
    + rewrite decide_False; [eauto|].
      intros ->. apply Hne. by eapply NoDup_lookup.
  - intros i id Hi. eapply frame_dup_ok; eauto.
Qed.

Lemma holed_move h L slot m c q :
  holed h L slot m -> L !! c = Some q -> c <> slot ->
  exists h', copy_node h slot q = Some h' /\
    holed h' (list_swap L slot c m q) c m /\ same_but_heap L h h'.
Proof.
  intros [Hroom Hhere Hslot Hdup Hnd] Hq Hne.
  pose proof (lookup_lt_Some _ _ _ Hhere) as Hlt.
  destruct (Hdup _ _ Hq) as (d & Hd & Hid & Hm).
  assert (Hc := copy_node_eq h slot q d Hd Hid ltac:(lia) ltac:(lia)).
  eexists; split; [exact Hc|].
  assert (HF : same_but_heap L h _)
    by (eapply copy_node_frame; [exact Hc|by eapply Hdup|by eapply list_elem_of_lookup_2]).
  split; [|exact HF].
  assert (HP := swap_perm L slot c m q Hhere Hq).
  split.
  - cbn. rewrite length_swap, length_insert. lia.
  - rewrite swap_lookup by done. by rewrite decide_False, decide_True.
  - intros i id Hi Hic. rewrite swap_lookup in Hi by done.
    rewrite (decide_False (P := i = c)) in Hi by done.
    cbn. rewrite !insert_lookup by lia.
    destruct (decide (i = slot)) as [->|His].
    + simplify_eq. by rewrite !decide_True.
    + rewrite decide_False by done.
      rewrite decide_False; [eauto|].
      intros ->. apply Hic. by eapply NoDup_lookup.
  - intros i id Hi. destruct (perm_lookup _ _ _ _ HP Hi) as [j Hj].
    eapply frame_dup_ok; eauto.
  - by rewrite HP.
Qed.

(** ** [reheap_up] *)

Lemma heap_at_rep h L i id slot m :
  holed h L slot m -> i <> slot -> L !! i = Some id -> heap_at h i = Some id.
Proof.
  intros H Hne Hi. unfold heap_at. by rewrite (proj1 (holed_slot _ _ _ _ H _ _ Hi Hne)).
Qed.

Lemma dup_ok_get h id : dup_ok h id -> exists d, get_dup h id = Some d.
Proof. intros (d & ? & _). eauto. Qed.

Lemma node_lt_eq h a b :
  dup_ok h a -> dup_ok h b ->
  node_lt h a b = Some (PJ_TIME_VAL_LT (node_val h a) (node_val h b)).
Proof.
  intros (da & Ha & _) (db & Hb & _). unfold node_lt, node_val.
  obind Ha. obind Hb. done.
Qed.

(** Moving the hole up along a too large parent keeps the order. *)
Lemma ordered_up_step h L slot m p :
  0 < slot -> L !! slot = Some m -> L !! HEAP_PARENT slot = Some p ->
  ordered_up h L slot -> time_le (node_val h m) (node_val h p) ->
  ordered_up h (list_swap L slot (HEAP_PARENT slot) m p) (HEAP_PARENT slot).
Proof.
  intros Hpos Hs Hp [HA HB] Hle. pose proof (parent_lt slot Hpos) as Hlt.
  split.
  - intros i x c Hi Hne Hc Hx.
    rewrite swap_lookup in Hc, Hx by done.
    destruct (decide (i = slot)) as [->|Hns].
    + rewrite decide_False, decide_True in Hx by lia. by simplify_eq.
    + rewrite (decide_False (P := i = HEAP_PARENT slot)) in Hc by done.
      destruct (decide (HEAP_PARENT i = slot)) as [E|En]; [simplify_eq; eauto|].
      destruct (decide (HEAP_PARENT i = HEAP_PARENT slot)) as [E|En2].
      * simplify_eq. transitivity (node_val h p); [done|].
        apply (HA i); auto. congruence.
      * eauto.
  - intros i g c Hi Hpi Hpos' Hc Hg.
    pose proof (parent_lt _ Hpos') as Hlt'.
    rewrite swap_lookup in Hc, Hg by done.
    rewrite !decide_False in Hg by lia.
    assert (time_le (node_val h g) (node_val h p))
      by (apply (HA (HEAP_PARENT slot)); auto; lia).
    destruct (decide (i = slot)) as [->|Hns]; [by simplify_eq|].
    destruct (decide (i = HEAP_PARENT slot)) as [->|]; [lia|].
    etransitivity; [done|]. apply (HA i); auto. congruence.
Qed.

Lemma ordered_up_done h L slot :
  ordered_up h L slot ->
  (forall p c, 0 < slot -> L !! slot = Some c -> L !! HEAP_PARENT slot = Some p ->
     time_le (node_val h p) (node_val h c)) ->
  heap_ordered h L.
Proof.
  intros [HA _] HS i p c Hi Hc Hp. destruct (decide (i = slot)) as [->|]; eauto.
Qed.

Lemma reheap_up_spec fuel h m slot L :
  holed h L slot m -> slot < fuel ->
  exists h' L',
    reheap_up_loop fuel h m slot (HEAP_PARENT slot) = Some h' /\
    L' ≡ₚ L /\ same_but_heap L h h' /\ heap_rep h' L' /\
    (ordered_up h L slot -> heap_ordered h' L').
Proof.
  revert h slot L. induction fuel as [|fuel IH]; intros h slot L HH Hf; [lia|].
  pose proof (holed_here _ _ _ _ HH) as Hhere.
  assert (Hfill : forall Q : ordered_up h L slot -> heap_ordered h L,
    exists h' L', copy_node h slot m = Some h' /\
    L' ≡ₚ L /\ same_but_heap L h h' /\ heap_rep h' L' /\
    (ordered_up h L slot -> heap_ordered h' L')).
  { intros Q. destruct (holed_fill _ _ _ _ HH) as (h' & Hc & Hr & HF).
    exists h', L. split; [done|]. split; [done|]. split; [done|].
    split; [done|].
    by intros HO; eapply frame_ordered, Q. }
  cbn [reheap_up_loop].
  destruct (Nat.ltb_spec 0 slot) as [Hpos|Hz].
  - pose proof (lookup_lt_Some _ _ _ Hhere) as Hlt.
    pose proof (parent_lt _ Hpos) as Hpl.
    destruct (lookup_lt_is_Some_2 L (HEAP_PARENT slot)) as [p Hp]; [lia|].
    rewrite (heap_at_rep h L (HEAP_PARENT slot) p slot m HH ltac:(lia) Hp). cbn.
    rewrite node_lt_eq by (eapply holed_dup; eauto). cbn.
    destruct (PJ_TIME_VAL_LT _ _) eqn:Hlt2.
    + destruct (holed_move h L slot m (HEAP_PARENT slot) p HH Hp ltac:(lia)) as (h1 & -> & HH1 & HF1).
      cbn. assert (HP := swap_perm L _ _ _ _ Hhere Hp).
      destruct (IH h1 (HEAP_PARENT slot) _ HH1 ltac:(lia)) as (h' & L' & -> & HP' & HF' & Hr' & HO').
      exists h', L'. split; [done|]. split; [by rewrite HP', HP|].
      split; [etransitivity; [exact HF1|]; by eapply same_but_heap_perm|].
      split; [exact Hr'|].
      intros HO. apply HO'. eapply frame_ordered_up; [exact HF1|].
      apply ordered_up_step; auto with pj.
    + apply Hfill. intros HO. eapply ordered_up_done; [exact HO|].
      intros p' c _ ? ?. simplify_eq. auto with pj.
  - apply Hfill. intros HO. eapply ordered_up_done; [exact HO|]. lia.
Qed.

(** ** [reheap_down] *)

Lemma parent_left slot : HEAP_PARENT (HEAP_LEFT slot) = slot.
Proof. apply parent_spec; unfold HEAP_LEFT; lia. Qed.

Lemma smaller_child_spec h L slot m :
  holed h L slot m -> cur_size h = length L -> HEAP_LEFT slot < cur_size h ->
  exists c q, smaller_child h (HEAP_LEFT slot) = Some (c, q) /\
    L !! c = Some q /\ slot < c /\ HEAP_PARENT c = slot /\
    (forall i x, 0 < i -> HEAP_PARENT i = slot -> L !! i = Some x ->
       time_le (node_val h q) (node_val h x)).
Proof.
  intros HH Hcur Hlt. unfold smaller_child.
  assert (Hl : slot < HEAP_LEFT slot) by (unfold HEAP_LEFT; lia).
  destruct (lookup_lt_is_Some_2 L (HEAP_LEFT slot)) as [a Ha]; [lia|].
  rewrite (heap_at_rep h L (HEAP_LEFT slot) a slot m HH ltac:(lia) Ha). cbn.
  assert (Hkids : forall i, 0 < i -> HEAP_PARENT i = slot ->
    i = HEAP_LEFT slot \/ i = HEAP_LEFT slot + 1).
  { intros i Hi Hp. apply parent_spec in Hp; [|done]. unfold HEAP_LEFT. lia. }
  destruct (Nat.ltb_spec (HEAP_LEFT slot + 1) (cur_size h)) as [Hr|Hr].
  - destruct (lookup_lt_is_Some_2 L (HEAP_LEFT slot + 1)) as [b Hb]; [lia|].
    rewrite (heap_at_rep h L (HEAP_LEFT slot + 1) b slot m HH ltac:(lia) Hb). cbn.
    rewrite node_lt_eq by (eapply holed_dup; eauto). cbn.
    assert (HEAP_PARENT (HEAP_LEFT slot + 1) = slot)
      by (apply parent_spec; unfold HEAP_LEFT; lia).
    destruct (PJ_TIME_VAL_LT _ _) eqn:E; eexists _, _; (split; [done|]);
      (split; [done|]); (split; [lia|]); (split; [done || apply parent_left|]);
      intros i x Hi Hp Hx; destruct (Hkids i Hi Hp) as [-> | ->]; simplify_eq;
      auto with pj; reflexivity.
  - eexists _, _. do 3 (split; [done|]). split; [apply parent_left|].
    intros i x Hi Hp Hx. destruct (Hkids i Hi Hp) as [-> | ->]; simplify_eq;
      [reflexivity|]. apply lookup_lt_Some in Hx. lia.
Qed.

Lemma ordered_down_step h L slot m c q :
  L !! slot = Some m -> L !! c = Some q -> slot < c -> HEAP_PARENT c = slot ->
  (forall i x, 0 < i -> HEAP_PARENT i = slot -> L !! i = Some x ->
     time_le (node_val h q) (node_val h x)) ->
  ordered_down h L slot -> time_le (node_val h q) (node_val h m) ->
  ordered_down h (list_swap L slot c m q) c.
Proof.
  intros Hs Hc Hlt Hpc Hmin [HA HB] Hle. split.
  - intros i p x Hi Hne Hx Hp. rewrite swap_lookup in Hx, Hp by done.
    rewrite (decide_False (P := HEAP_PARENT i = c)) in Hp by done.
    destruct (decide (i = slot)) as [->|His].
    + rewrite decide_False in Hp by (pose proof (parent_lt slot Hi); lia).
      simplify_eq. eapply (HB c); eauto. lia.
    + destruct (decide (HEAP_PARENT i = slot)) as [E|En]; simplify_eq.
      * destruct (decide (i = c)); simplify_eq; eauto.
      * destruct (decide (i = c)) as [->|]; [congruence|]. eauto.
  - intros i g x Hi Hpi Hpos Hx Hg. pose proof (parent_lt i Hi).
    rewrite swap_lookup in Hx, Hg by done.
    rewrite Hpc, decide_True in Hg by done.
    rewrite !decide_False in Hx by lia. simplify_eq.
    apply (HA i); auto. lia.
Qed.

Lemma ordered_down_done h L slot m :
  L !! slot = Some m -> ordered_down h L slot ->
  (forall i x, 0 < i -> HEAP_PARENT i = slot -> L !! i = Some x ->
     time_le (node_val h m) (node_val h x)) ->
  heap_ordered h L.
Proof.
  intros Hs [HA _] Hmin i p c Hi Hc Hp.
  destruct (decide (HEAP_PARENT i = slot)) as [E|]; [|by eauto].
  rewrite E in Hp. simplify_eq. eauto.
Qed.

Lemma reheap_down_spec fuel h m slot L :
  holed h L slot m -> cur_size h = length L -> length L < fuel + slot ->
  exists h' L',
    reheap_down_loop fuel h m slot (HEAP_LEFT slot) = Some h' /\
    L' ≡ₚ L /\ same_but_heap L h h' /\ heap_rep h' L' /\
    (ordered_down h L slot -> heap_ordered h' L').
Proof.
  revert h slot L. induction fuel as [|fuel IH]; intros h slot L HH Hcur Hf.
  { pose proof (lookup_lt_Some _ _ _ (holed_here _ _ _ _ HH)). lia. }
  pose proof (holed_here _ _ _ _ HH) as Hhere.
  assert (Hfill : forall Q : ordered_down h L slot -> heap_ordered h L,
    exists h' L', copy_node h slot m = Some h' /\
    L' ≡ₚ L /\ same_but_heap L h h' /\ heap_rep h' L' /\
    (ordered_down h L slot -> heap_ordered h' L')).
  { intros Q. destruct (holed_fill _ _ _ _ HH) as (h' & Hc & Hr & HF).
    exists h', L. do 4 (split; [done|]).
    by intros HO; eapply frame_ordered, Q. }
  cbn [reheap_down_loop].
  destruct (Nat.ltb_spec (HEAP_LEFT slot) (cur_size h)) as [Hlt|Hge].
  - destruct (smaller_child_spec h L slot m HH Hcur Hlt)
      as (c & q & -> & Hq & Hsc & Hpc & Hmin). cbn.
    rewrite node_lt_eq by (eapply holed_dup; eauto). cbn.
    destruct (PJ_TIME_VAL_LT _ _) eqn:Hlt2.
    + destruct (holed_move h L slot m c q HH Hq ltac:(lia)) as (h1 & -> & HH1 & HF1).
      cbn. assert (HP := swap_perm L _ _ _ _ Hhere Hq).
      destruct (IH h1 c _ HH1) as (h' & L' & -> & HP' & HF' & Hr' & HO').
      { by rewrite length_swap, (sbh_cur _ _ _ HF1). }
      { rewrite length_swap. lia. }
      exists h', L'. split; [done|]. split; [by rewrite HP', HP|].
      split; [etransitivity; [exact HF1|]; by eapply same_but_heap_perm|].
      split; [exact Hr'|].
      intros HO. apply HO'. eapply frame_ordered_down; [exact HF1|].
      eapply ordered_down_step; eauto with pj.
    + apply Hfill. intros HO. eapply ordered_down_done; [exact Hhere|exact HO|].
      intros i x Hi Hp Hx. transitivity (node_val h q); eauto with pj.
  - apply Hfill. intros HO. eapply ordered_down_done; [exact Hhere|exact HO|].
    intros i x Hi Hp%parent_spec Hx%lookup_lt_Some; [|done].
    unfold HEAP_LEFT in Hge. lia.
Qed.

(** The root of an ordered heap is a minimum. *)
Lemma heap_ordered_root h L r :
  heap_ordered h L -> L !! 0 = Some r ->
  forall i x, L !! i = Some x -> time_le (node_val h r) (node_val h x).
Proof.
  intros HO Hr i. induction (lt_wf i) as [i _ IH]. intros x Hx.
  destruct (decide (i = 0)) as [->|Hne]; [simplify_eq; reflexivity|].
  pose proof (parent_lt i ltac:(lia)) as Hlt.
  pose proof (lookup_lt_Some _ _ _ Hx).
  destruct (lookup_lt_is_Some_2 L (HEAP_PARENT i)) as [p Hp]; [lia|].
  transitivity (node_val h p); [by eapply IH|]. apply (HO i); auto; lia.
Qed.

(** * Correctness of the timer heap: invariant and operations

    [timer_inv w L fl]: in the world [w] the nodes of the heap are [L], in
    heap order, and the identifiers on the free list are [fl].  Every
    operation preserves it, and acts on the map [active w] from running
    entries to deadlines as its contract says. *)

(** ** Definitions *)

(** The free list threaded through [timer_ids]: starting from [f] it visits
    [fl] and ends at [stop]. *)
Fixpoint free_chain (ids : list Z) (f : Z) (fl : list nat) (stop : Z) : Prop :=
  match fl with
  | [] => f = stop
  | x :: fl =>
      f = Z.of_nat x /\ 1 <= x /\
      exists v, ids !! x = Some v /\ (v < 0)%Z /\ free_chain ids (- v) fl stop
  end.

Record heap_inv (h : pj_timer_heap_t) (L fl : list nat) : Prop := mk_heap_inv {
  inv_rep : heap_rep h L;
  inv_cur : cur_size h = length L;
  inv_heap_len : max_size h <= length (heap h);
  inv_dups_len : max_size h <= length (timer_dups h);
  inv_ids_len : length (timer_ids h) = max_size h;
  inv_order : heap_ordered h L;
  inv_free : free_chain (timer_ids h) (timer_ids_freelist h) fl
               (Z.of_nat (max_size h));
  inv_nodup : NoDup (L ++ fl);
  inv_count : length L + length fl + 1 = max_size h;
  inv_spare : length L + 1 < max_size h
}.

Record timer_inv (w : timer_world) (L fl : list nat) : Prop := mk_timer_inv {
  tinv_heap : heap_inv (ht w) L fl;
  tinv_entry : forall id d, id ∈ L -> get_dup (ht w) id = Some d ->
    exists e, entries w !! dup_entry d = Some e /\ te_timer_id e = Z.of_nat id;
  tinv_running : forall a e, entries w !! a = Some e -> (1 <= te_timer_id e)%Z ->
    exists id d, id ∈ L /\ te_timer_id e = Z.of_nat id /\
                 get_dup (ht w) id = Some d /\ dup_entry d = a;
  tinv_locks : forall id d l, id ∈ L -> get_dup (ht w) id = Some d ->
    dup_grp_lock d = Some l -> is_Some (lock_refs w !! l)
}.

Definition timer_ok (w : timer_world) : Prop := exists L fl, timer_inv w L fl.

(** The abstract state: the deadline of every running entry. *)
Definition deadline (h : pj_timer_heap_t) (e : pj_timer_entry)
    : option pj_time_val :=
  if pj_timer_entry_running e
  then dup_timer_value <$> mjoin (zlookup (timer_dups h) (te_timer_id e))
  else None.

Definition active (w : timer_world) : gmap nat pj_time_val :=
  omap (deadline (ht w)) (entries w).

(** ** Lists *)

Lemma insert_perm {A} (l : list A) i x y :
  l !! i = Some x -> x :: <[i:=y]> l ≡ₚ y :: l.
Proof.
  intros H. pose proof (lookup_lt_Some _ _ _ H).
  rewrite insert_take_drop by done.
  rewrite <- (take_drop_middle l i x H) at 3.
  rewrite <- !Permutation_middle. apply perm_swap.
Qed.

Lemma take_last_perm {A} (l : list A) n x :
  l !! n = Some x -> length l = S n -> l ≡ₚ x :: take n l.
Proof.
  intros H Hl. rewrite <- (take_drop_middle l n x H) at 1.
  rewrite drop_ge by lia. by rewrite Permutation_app_comm.
Qed.

(** ** The free list *)

Lemma free_chain_insert ids f fl stop x v :
  x ∉ fl -> free_chain ids f fl stop -> free_chain (<[x := v]> ids) f fl stop.
Proof.
  revert f. induction fl as [|y fl IH]; intros f Hx; [done|].
  apply not_elem_of_cons in Hx as [Hne Hx].
  intros (? & ? & u & Hu & ? & Hc). split; [done|]. split; [done|].
  exists u. rewrite list_lookup_insert_ne by done. auto.
Qed.

Lemma free_chain_agree ids ids' f fl stop :
  (forall x, x ∈ fl -> ids' !! x = ids !! x) ->
  free_chain ids f fl stop -> free_chain ids' f fl stop.
Proof.
  revert f. induction fl as [|y fl IH]; intros f Hag; [done|].
  intros (? & ? & u & Hu & ? & Hc). split; [done|]. split; [done|].
  exists u. rewrite Hag by set_solver. split; [done|]. split; [done|].
  apply IH; [|done]. intros; apply Hag; set_solver.
Qed.

(** Growing the identifiers extends the chain by the new ones. *)
Lemma free_chain_grow ids f fl n k :
  length ids = n -> 1 <= n ->
  free_chain ids f fl (Z.of_nat n) ->
  free_chain (ids ++ ((fun i => (- Z.of_nat (i + 1))%Z) <$> seq n k)) f
    (fl ++ seq n k) (Z.of_nat (n + k)).
Proof.
  intros Hl Hn. revert f. induction fl as [|y fl IH]; intros f; cbn.
  - intros ->. subst n.
    assert (G : forall j m, m + j = k ->
      free_chain (ids ++ ((fun i => (- Z.of_nat (i + 1))%Z) <$> seq (length ids) k))
        (Z.of_nat (length ids + m)) (seq (length ids + m) j)
        (Z.of_nat (length ids + k))).
    { induction j as [|j IHj]; intros m Hm; cbn; [f_equal; lia|].
      split; [done|]. split; [lia|].
      exists (- Z.of_nat (length ids + m + 1))%Z. split.
      - rewrite lookup_app_r by lia. rewrite list_lookup_fmap.
        replace (length ids + m - length ids) with m by lia.
        rewrite lookup_seq_lt by lia. done.
      - split; [lia|]. rewrite Z.opp_involutive.
        replace (length ids + m + 1) with (length ids + S m) by lia.
        replace (S (length ids + m)) with (length ids + S m) by lia.
        apply IHj. lia. }
    specialize (G k 0 eq_refl). by rewrite Nat.add_0_r in G.
  - intros (-> & ? & v & Hv & ? & Hc). split; [done|]. split; [done|].
    exists v. split; [by apply lookup_app_l_Some|]. split; [done|]. by apply IH.
Qed.

Lemma push_freelist_eq h id :
  id < length (timer_ids h) ->
  push_freelist h (Z.of_nat id) =
    Some (h <| timer_ids := <[id := (- timer_ids_freelist h)%Z]> (timer_ids h) |>
            <| timer_ids_freelist := Z.of_nat id |>).
Proof. intros H. unfold push_freelist. by rewrite zstore_nat. Qed.

(** ** Removing a node *)

Lemma heap_at_eq h i x : heap h !! i = Some (Some x) -> heap_at h i = Some x.
Proof. intros H. unfold heap_at. by rewrite H. Qed.

Lemma heap_rep_holed h L slot m :
  heap_rep h L -> L !! slot = Some m -> holed h L slot m.
Proof.
  intros H Hs. pose proof (heap_rep_nodup _ _ H). destruct H.
  split; auto.
Qed.

(** Conditions under which the last node [last] may replace the node at
    [slot] in the prefix [K] of the heap. *)
Record refillable (h : pj_timer_heap_t) (K : list nat) (slot last : nat) : Prop :=
  mk_refillable {
  rf_cur : cur_size h = length K;
  rf_room : length K < length (heap h);
  rf_last : heap h !! length K = Some (Some last);
  rf_slot : forall i x, K !! i = Some x -> i <> slot ->
    heap h !! i = Some (Some x) /\ timer_ids h !! x = Some (Z.of_nat i);
  rf_dup : forall i x, K !! i = Some x -> i <> slot -> dup_ok h x;
  rf_last_dup : slot < length K -> dup_ok h last;
  rf_nodup : NoDup (<[slot := last]> K);
  rf_slot_le : slot <= length K
}.

Lemma refillable_holed h K slot last :
  refillable h K slot last -> slot < length K ->
  holed h (<[slot := last]> K) slot last.
Proof.
  intros [] Hlt. split; auto.
  - rewrite length_insert. lia.
  - by apply list_lookup_insert_eq.
  - intros i x Hi Hne. rewrite list_lookup_insert_ne in Hi by done. eauto.
  - intros i x Hi. rewrite insert_lookup in Hi by done.
    case_decide; simplify_eq; eauto.
Qed.

Lemma refill_slot_spec h K slot last :
  refillable h K slot last ->
  exists h' L', refill_slot h slot = Some h' /\
    L' ≡ₚ <[slot := last]> K /\ same_but_heap (<[slot := last]> K) h h' /\
    heap_rep h' L' /\
    (heap_ordered h K -> (forall g, 0 < slot -> K !! HEAP_PARENT slot = Some g ->
        forall i c, HEAP_PARENT i = slot -> 0 < i -> K !! i = Some c ->
        time_le (node_val h g) (node_val h c)) ->
     heap_ordered h' L').
Proof.
  intros R. pose proof R as []. unfold refill_slot. rewrite rf_cur0.
  destruct (Nat.ltb_spec slot (length K)) as [Hlt|Hge].
  2:{ rewrite list_insert_ge in * by lia. exists h, K. split; [done|].
      split; [done|]. split; [done|]. split; [|auto].
      split; [lia| |]; intros i x Hi; pose proof (lookup_lt_Some _ _ _ Hi);
        eauto with lia. }
  rewrite (heap_at_eq _ _ _ rf_last0). ored.
  pose proof (refillable_holed _ _ _ _ R Hlt) as HH.
  destruct (holed_fill _ _ _ _ HH) as (h1 & -> & Hr1 & HF1). ored.
  set (L1 := <[slot := last]> K) in *.
  assert (HL1 : L1 !! slot = Some last) by (by apply list_lookup_insert_eq).
  assert (Hlen : length L1 = length K) by apply length_insert.
  assert (Hpl : HEAP_PARENT slot < length L1).
  { destruct (decide (slot = 0)) as [->|]; [rewrite parent_0; lia|].
    pose proof (parent_lt slot). lia. }
  destruct (lookup_lt_is_Some_2 _ _ Hpl) as [p Hp].
  rewrite (heap_at_eq _ _ _ (proj1 (rep_slot _ _ Hr1 _ _ Hp))). ored.
  destruct (rep_dup _ _ Hr1 _ _ HL1) as (dm & Hdm & _).
  destruct (rep_dup _ _ Hr1 _ _ Hp) as (dp & Hdp & _).
  obind Hdm. obind Hdp.
  assert (Hvm : node_val h1 last = dup_timer_value dm)
    by (unfold node_val; by rewrite Hdm).
  assert (Hvp : node_val h1 p = dup_timer_value dp)
    by (unfold node_val; by rewrite Hdp).
  rewrite <- Hvm, <- Hvp.
  pose proof (heap_rep_holed _ _ _ _ Hr1 HL1) as HH1.
  assert (HK : forall i, i <> slot -> L1 !! i = K !! i)
    by (intros; by apply list_lookup_insert_ne).
  unfold reheap_down, reheap_up.
  destruct (PJ_TIME_VAL_GTE _ _) eqn:E.
  - destruct (reheap_down_spec (S (cur_size h1)) h1 last slot L1 HH1)
      as (h' & L' & -> & HP & HF & Hr & HO).
    { rewrite (sbh_cur _ _ _ HF1). lia. }
    { rewrite (sbh_cur _ _ _ HF1). lia. }
    exists h', L'. split; [done|]. split; [done|].
    split; [by etransitivity|]. split; [done|].
    intros Hord Hg. apply HO. apply time_gte_le in E.
    split.
    + intros i q c Hi Hne Hc Hq. destruct (decide (i = slot)) as [->|His].
      * by simplify_eq.
      * rewrite HK in Hc, Hq by done. rewrite !(frame_node_val _ _ _ _ HF1). eauto.
    + intros i g c Hi Hpi Hpos Hc Hgg. pose proof (parent_lt i Hi).
      pose proof (parent_lt slot Hpos).
      rewrite HK in Hc, Hgg by lia. rewrite !(frame_node_val _ _ _ _ HF1). eauto.
  - assert (Hpos : 0 < slot).
    { destruct (decide (slot = 0)) as [->|]; [|lia]. rewrite parent_0 in Hp.
      assert (p = last) as -> by congruence.
      assert (PJ_TIME_VAL_GTE (node_val h1 last) (node_val h1 last) = true)
        by (apply time_gte_le; reflexivity). congruence. }
    destruct (reheap_up_spec (S slot) h1 last slot L1 HH1 ltac:(lia))
      as (h' & L' & -> & HP & HF & Hr & HO).
    exists h', L'. split; [done|]. split; [done|].
    split; [by etransitivity|]. split; [done|].
    intros Hord Hg. apply HO.
    assert (Hle : time_le (node_val h1 last) (node_val h1 p)).
    { destruct (time_le_total (node_val h1 last) (node_val h1 p)) as [|T]; [done|].
      apply time_gte_le in T. congruence. }
    pose proof (parent_lt slot Hpos).
    split.
    + intros i q c Hi Hne Hc Hq. rewrite HK in Hc by done.
      destruct (decide (HEAP_PARENT i = slot)) as [Eq|Hnp].
      * rewrite Eq in Hq. simplify_eq. transitivity (node_val h1 p); [done|].
        rewrite HK in Hp by lia. rewrite !(frame_node_val _ _ _ _ HF1). eauto.
      * rewrite HK in Hq by done. rewrite !(frame_node_val _ _ _ _ HF1). eauto.
    + intros i g c Hi Hpi _ Hc Hgg. pose proof (parent_lt i Hi).
      rewrite HK in Hc, Hgg by lia. rewrite !(frame_node_val _ _ _ _ HF1). eauto.
Qed.

Lemma get_dup_lt h id d : get_dup h id = Some d -> id < length (timer_dups h).
Proof.
  unfold get_dup. intros H. destruct (timer_dups h !! id) eqn:E; [|done].
  by eapply lookup_lt_Some.
Qed.

(** The state of the heap just before [remove_node] re-heapifies. *)
Definition unlinked (h : pj_timer_heap_t) (id : nat) (d : pj_timer_entry_dup)
    : pj_timer_heap_t :=
  h <| timer_ids := <[id := (- timer_ids_freelist h)%Z]> (timer_ids h) |>
    <| timer_ids_freelist := Z.of_nat id |>
    <| cur_size := cur_size h - 1 |>
    <| timer_dups := <[id := Some (d <| dup_copy :=
          dup_copy d <| te_timer_id := (-1)%Z |> |>)]> (timer_dups h) |>.

Lemma unlinked_get_dup h id d id' :
  id' <> id -> get_dup (unlinked h id d) id' = get_dup h id'.
Proof. intros H. unfold get_dup. cbn. by rewrite list_lookup_insert_ne. Qed.

Lemma unlinked_node_val h id d p :
  get_dup h id = Some d -> node_val (unlinked h id d) p = node_val h p.
Proof.
  intros Hd. pose proof (get_dup_lt _ _ _ Hd). unfold node_val.
  destruct (decide (p = id)) as [->|]; [|by rewrite unlinked_get_dup].
  rewrite Hd. unfold get_dup. cbn. by rewrite list_lookup_insert_eq.
Qed.

Lemma unlinked_dup_ok h id d id' :
  id' <> id -> dup_ok h id' -> dup_ok (unlinked h id d) id'.
Proof.
  intros Hne (d' & Hd' & Hi & Hr). exists d'.
  rewrite unlinked_get_dup by done. cbn. by rewrite length_insert.
Qed.

(** Taking node [id] out of [L]: what is left to re-heapify. *)
Lemma unlinked_refillable h L fl slot id d :
  heap_inv h L fl -> L !! slot = Some id -> get_dup h id = Some d ->
  exists last K, K = take (length L - 1) L /\ refillable (unlinked h id d) K slot last /\
    id :: <[slot := last]> K ≡ₚ L.
Proof.
  intros HI Hs Hd. pose proof (lookup_lt_Some _ _ _ Hs) as Hlt.
  pose proof (inv_rep _ _ _ HI) as HR. pose proof (heap_rep_nodup _ _ HR) as Hnd.
  destruct (lookup_lt_is_Some_2 L (length L - 1)) as [last Hlast]; [lia|].
  set (K := take (length L - 1) L).
  assert (HlenK : length K = length L - 1) by (unfold K; rewrite length_take; lia).
  assert (HLK : L ≡ₚ last :: K).
  { unfold K. apply take_last_perm; [done|lia]. }
  assert (HK : forall i x, K !! i = Some x -> L !! i = Some x /\ i < length L - 1).
  { intros i x Hi. pose proof (lookup_lt_Some _ _ _ Hi) as Hi2.
    unfold K in Hi. rewrite lookup_take_lt in Hi by lia. split; [done|lia]. }
  assert (HP : id :: <[slot := last]> K ≡ₚ L).
  { destruct (decide (slot < length L - 1)) as [Hs'|].
    - rewrite HLK. apply insert_perm. unfold K. by rewrite lookup_take_lt.
    - rewrite list_insert_ge by lia. rewrite HLK.
      assert (slot = length L - 1) as -> by lia. by simplify_eq. }
  exists last, K. split; [done|]. split; [|done].
  pose proof (inv_spare _ _ _ HI). pose proof (inv_heap_len _ _ _ HI).
  assert (Hne : forall i x, K !! i = Some x -> i <> slot -> x <> id).
  { intros i x Hi Hn ->. apply Hn. apply HK in Hi as [Hi _].
    by eapply NoDup_lookup. }
  split; cbn.
  - rewrite (inv_cur _ _ _ HI). lia.
  - lia.
  - rewrite HlenK. by apply (rep_slot _ _ HR).
  - intros i x Hi Hn. pose proof (Hne _ _ Hi Hn). apply HK in Hi as [Hi _].
    destruct (rep_slot _ _ HR _ _ Hi) as [? ?].
    by rewrite list_lookup_insert_ne.
  - intros i x Hi Hn. pose proof (Hne _ _ Hi Hn). apply HK in Hi as [Hi _].
    apply unlinked_dup_ok; [done|]. by eapply rep_dup.
  - intros Hs'. apply unlinked_dup_ok; [|by eapply rep_dup].
    intros ->. assert (length L - 1 = slot); [by eapply NoDup_lookup|lia].
  - eapply NoDup_cons_1_2. by rewrite HP.
  - lia.
Qed.

Lemma unlinked_ordered h L fl slot id d :
  heap_inv h L fl -> L !! slot = Some id -> get_dup h id = Some d ->
  let K := take (length L - 1) L in
  heap_ordered (unlinked h id d) K /\
  (forall g, 0 < slot -> K !! HEAP_PARENT slot = Some g ->
     forall i c, HEAP_PARENT i = slot -> 0 < i -> K !! i = Some c ->
     time_le (node_val (unlinked h id d) g) (node_val (unlinked h id d) c)).
Proof.
  intros HI Hs Hd K. pose proof (inv_order _ _ _ HI) as HO.
  assert (HK : forall i x, K !! i = Some x -> L !! i = Some x)
    by (intros i x [? _]%lookup_take_Some; done).
  split.
  - intros i p c Hi Hc Hp. rewrite !unlinked_node_val by done. eauto.
  - intros g Hpos Hg i c Hpi Hi Hc. rewrite !unlinked_node_val by done.
    transitivity (node_val h id); [by apply (HO slot); auto|].
    apply (HO i); auto. by rewrite Hpi.
Qed.

Lemma inv_freelist_pos h L fl : heap_inv h L fl -> (1 <= timer_ids_freelist h)%Z.
Proof.
  intros HI. pose proof (inv_spare _ _ _ HI).
  pose proof (inv_free _ _ _ HI) as Hc. destruct fl as [|x fl]; cbn in Hc; [lia|].
  destruct Hc as (-> & ? & _). lia.
Qed.

Lemma remove_node_heap h L fl slot id d :
  heap_inv h L fl -> L !! slot = Some id -> get_dup h id = Some d ->
  exists h' L', refill_slot (unlinked h id d) slot = Some h' /\
    heap_inv h' L' (id :: fl) /\ id :: L' ≡ₚ L /\
    timer_dups h' = timer_dups (unlinked h id d) /\
    max_entries_per_poll h' = max_entries_per_poll h /\
    max_size h' = max_size h.
Proof.
  intros HI Hs Hd.
  destruct (unlinked_refillable _ _ _ _ _ _ HI Hs Hd) as (last & K & -> & HRf & HP).
  destruct (unlinked_ordered _ _ _ _ _ _ HI Hs Hd) as [Ho Hg].
  destruct (refill_slot_spec _ _ _ _ HRf) as (h' & L' & Hrs & HPL & HF & HR & HO).
  exists h', L'. split; [done|].
  assert (HPL' : id :: L' ≡ₚ L) by (by rewrite HPL).
  destruct (rep_dup _ _ (inv_rep _ _ _ HI) _ _ Hs) as (d2 & _ & _ & Hidr).
  pose proof (inv_nodup _ _ _ HI) as Hnd.
  assert (Hlen : S (length L') = length L) by (by rewrite <- HPL').
  assert (HnL : NoDup (L' ++ id :: fl)).
  { rewrite <- Permutation_middle, app_comm_cons. by rewrite HPL'. }
  pose proof (inv_freelist_pos _ _ _ HI) as Hfp.
  destruct HF as [Fmax Fcur Fpoll Fdups Ffree Fhl Fil Fids].
  destruct HI as [_ Icur Ihl Idl Iil _ Ifree _ Icnt Isp].
  cbn in *. rewrite length_insert in *.
  split; [|done].
  split; cbn; [exact HR|lia|lia|rewrite Fdups, length_insert; lia|lia|auto
              |rewrite Ffree; split; [done|]|done|lia|lia].
  assert (Hidn : id ∉ L' ++ fl).
  { rewrite <- Permutation_middle in HnL. by apply NoDup_cons in HnL as [? _]. }
  split; [lia|]. exists (- timer_ids_freelist h)%Z.
  rewrite Fids by (rewrite <- HPL; set_solver).
  rewrite list_lookup_insert_eq by lia. split; [done|]. split; [lia|].
  rewrite Z.opp_involutive, Fmax.
  eapply free_chain_agree; [|exact Ifree].
  intros x Hx. apply NoDup_app in HnL as (_ & Hdis & _).
  rewrite Fids.
  + rewrite list_lookup_insert_ne; [done|]. intros ->. set_solver.
  + rewrite <- HPL. intros Hx'. apply (Hdis x); set_solver.
Qed.

(** What [remove_node] returns and leaves, for a world in the invariant. *)
Record removed (w w' : timer_world) (L L' : list nat) (id : nat)
    (d : pj_timer_entry_dup) (e : pj_timer_entry) : Prop := mk_removed {
  rm_perm : id :: L' ≡ₚ L;
  rm_entry : entries w !! dup_entry d = Some e;
  rm_entry_id : te_timer_id e = Z.of_nat id;
  rm_entries : entries w' =
    <[dup_entry d := e <| te_timer_id := (-1)%Z |>]> (entries w);
  rm_locks : lock_refs w' = lock_refs w;
  rm_dups : timer_dups (ht w') = <[id := Some (d <| dup_copy :=
      dup_copy d <| te_timer_id := (-1)%Z |> |>)]> (timer_dups (ht w));
  rm_poll : max_entries_per_poll (ht w') = max_entries_per_poll (ht w)
}.

Lemma remove_node_spec w L fl slot id d :
  timer_inv w L fl -> L !! slot = Some id -> get_dup (ht w) id = Some d ->
  exists w' L' e, remove_node w slot = Some (id, w') /\
    timer_inv w' L' (id :: fl) /\ removed w w' L L' id d e.
Proof.
  intros HI Hs Hd. pose proof HI as [HH He Hr Hl].
  pose proof (list_elem_of_lookup_2 _ _ _ Hs) as Hin.
  destruct (He _ _ Hin Hd) as (e & Hee & Hei).
  destruct (rep_slot _ _ (inv_rep _ _ _ HH) _ _ Hs) as [Hhs _].
  destruct (rep_dup _ _ (inv_rep _ _ _ HH) _ _ Hs) as (d2 & Hd2 & Hdid & Hrng).
  rewrite Hd in Hd2. simplify_eq.
  destruct (remove_node_heap _ _ _ _ _ _ HH Hs Hd)
    as (h' & L' & Hrf & HH' & HP & Hdups & Hpoll & Hmax).
  unfold remove_node. rewrite (heap_at_eq _ _ _ Hhs). ored. obind Hd.
  rewrite Hdid, push_freelist_eq by lia. ored. cbn [entries]. obind Hee.
  change (refill_slot _ slot) with (refill_slot (unlinked (ht w) id d2) slot).
  obind Hrf. eexists _, L', e. split; [done|].
  assert (Hnid : id ∉ L').
  { assert (Hnd : NoDup (id :: L')) by (rewrite HP; by eapply heap_rep_nodup, inv_rep).
    by apply NoDup_cons in Hnd as [? _]. }
  assert (Hgd : forall x, x ∈ L' -> get_dup h' x = get_dup (ht w) x).
  { intros x Hx. unfold get_dup. rewrite Hdups. cbn.
    rewrite list_lookup_insert_ne; [done|]. by intros ->. }
  assert (HinL : forall x, x ∈ L' -> x ∈ L) by (intros; rewrite <- HP; set_solver).
  split; [|by split].
  split; cbn [ht entries lock_refs set_field]; [done| | |].
  - intros x dx Hx Hdx. rewrite Hgd in Hdx by done.
    destruct (He x dx) as (ex & Hex & Hexi); auto.
    exists ex. rewrite lookup_insert_ne; [done|].
    intros E. rewrite <- E in Hex. assert (x = id) as -> by (simplify_eq; lia). done.
  - intros a ea Ha Hge. destruct (decide (dup_entry d2 = a)) as [<-|Hne].
    { rewrite lookup_insert_eq in Ha. simplify_eq. cbn in Hge. lia. }
    rewrite lookup_insert_ne in Ha by done.
    destruct (Hr _ _ Ha Hge) as (x & dx & Hx & Hxi & Hdx & <-).
    assert (Hxne : x <> id) by (intros ->; simplify_eq).
    assert (Hx' : x ∈ L') by (rewrite <- HP in Hx; set_solver).
    exists x, dx. by rewrite Hgd.
  - intros x dx l Hx Hdx. rewrite Hgd in Hdx by done. eauto.
Qed.

(** ** The abstract state *)

Lemma active_lookup w a :
  active w !! a = entries w !! a ≫= deadline (ht w).
Proof. unfold active. apply lookup_omap. Qed.

Lemma deadline_inactive h e : (te_timer_id e < 1)%Z -> deadline h e = None.
Proof.
  intros H. unfold deadline, pj_timer_entry_running.
  destruct (Z.leb_spec 1 (te_timer_id e)); [lia|done].
Qed.

Lemma deadline_running h e id :
  te_timer_id e = Z.of_nat id -> 1 <= id ->
  deadline h e = dup_timer_value <$> get_dup h id.
Proof.
  intros H Hid. unfold deadline, pj_timer_entry_running, get_dup. rewrite H.
  destruct (Z.leb_spec 1 (Z.of_nat id)); [|lia]. by rewrite zlookup_nat.
Qed.

(** Entries that keep their identifier and copy keep their deadline. *)
Lemma deadline_agree h h' e :
  (forall id, 1 <= id -> te_timer_id e = Z.of_nat id ->
     dup_timer_value <$> get_dup h' id = dup_timer_value <$> get_dup h id) ->
  deadline h' e = deadline h e.
Proof.
  intros H. destruct (decide (te_timer_id e < 1)%Z) as [Hlt|Hge].
  - by rewrite !deadline_inactive.
  - assert (Hid : te_timer_id e = Z.of_nat (Z.to_nat (te_timer_id e))) by lia.
    rewrite !(deadline_running _ _ _ Hid) by lia. apply H; [lia|done].
Qed.

Lemma removed_active w w' L L' id d e :
  get_dup (ht w) id = Some d -> removed w w' L L' id d e ->
  active w' = delete (dup_entry d) (active w).
Proof.
  intros Hd [HP He Hei Hes Hlk Hdups Hmp]. apply map_eq. intros a.
  rewrite active_lookup, Hes.
  destruct (decide (dup_entry d = a)) as [<-|Hne].
  - rewrite lookup_insert_eq, lookup_delete_eq. ored.
    by rewrite deadline_inactive by (cbn; lia).
  - rewrite lookup_insert_ne, lookup_delete_ne, active_lookup by done.
    destruct (entries w !! a) as [ea|]; [|done]. ored.
    apply deadline_agree. intros x _ _.
    pose proof (get_dup_lt _ _ _ Hd) as Hlt.
    unfold get_dup in *. rewrite Hdups.
    destruct (decide (x = id)) as [->|]; [|by rewrite list_lookup_insert_ne].
    rewrite list_lookup_insert_eq by done. by rewrite Hd.
Qed.

(** The running entries are those the heap holds. *)
Lemma active_spec w L fl a t :
  timer_inv w L fl ->
  active w !! a = Some t <->
  exists id d, id ∈ L /\ get_dup (ht w) id = Some d /\ dup_entry d = a /\
               dup_timer_value d = t.
Proof.
  intros [HH He Hr Hl]. rewrite active_lookup. split.
  - intros (e & Hea & Hdl)%bind_Some.
    destruct (decide (te_timer_id e < 1)%Z) as [|Hge];
      [by rewrite deadline_inactive in Hdl|].
    destruct (Hr _ _ Hea ltac:(lia)) as (id & d & Hin & Hid & Hd & Hda).
    exists id, d. rewrite (deadline_running _ _ _ Hid), Hd in Hdl by lia.
    by simplify_eq/=.
  - intros (id & d & Hin & Hd & <- & <-).
    destruct (He _ _ Hin Hd) as (e & -> & Hid). ored.
    apply list_elem_of_lookup in Hin as [i Hi].
    destruct (rep_dup _ _ (inv_rep _ _ _ HH) _ _ Hi) as (_ & _ & _ & ?).
    by rewrite (deadline_running _ _ _ Hid), Hd by lia.
Qed.
