(* ===== verification/TimerOps.v ===== *)
(** * Correctness of the timer heap: scheduling, cancelling and polling *)

From S2P Require Import Prelude TimeVal Timer TimerInv.
Local Open Scope nat_scope.

(** ** Scheduling *)

(** The heap invariant while identifier [x] is taken off the free list but
    not in the heap yet. *)
Record pending_inv (h : pj_timer_heap_t) (L fl : list nat) (x : nat) : Prop :=
  mk_pending_inv {
  pinv_rep : heap_rep h L;
  pinv_cur : cur_size h = length L;
  pinv_heap_len : max_size h <= length (heap h);
  pinv_dups_len : max_size h <= length (timer_dups h);
  pinv_ids_len : length (timer_ids h) = max_size h;
  pinv_order : heap_ordered h L;
  pinv_free : free_chain (timer_ids h) (timer_ids_freelist h) fl
                (Z.of_nat (max_size h));
  pinv_nodup : NoDup (L ++ x :: fl);
  pinv_count : length L + length fl + 2 = max_size h;
  pinv_x : 1 <= x < max_size h
}.

(** [schedule_w_grp_lock] turned entry [a], which was [e], into a running one
    with the given deadline. *)
Record scheduled (w w' : timer_world) (a : nat) (e e' : pj_timer_entry)
    (t : pj_time_val) (lk : option nat) : Prop := mk_scheduled {
  sc_entries : entries w' = <[a := e']> (entries w);
  sc_running : pj_timer_entry_running e' = true;
  sc_cb : te_cb e' = te_cb e;
  sc_data : te_user_data e' = te_user_data e;
  sc_active : active w' = <[a := t]> (active w);
  sc_poll : max_entries_per_poll (ht w') = max_entries_per_poll (ht w);
  sc_locks : lock_refs w' = match lk with
    | Some l => alter (fun n => (n + 1)%Z) l (lock_refs w)
    | None => lock_refs w
    end
}.

Lemma free_chain_bound ids f fl stop x :
  free_chain ids f fl stop -> x ∈ fl -> 1 <= x < length ids.
Proof.
  revert f. induction fl as [|y fl IH]; intros f; [set_solver|].
  intros (_ & ? & v & Hv%lookup_lt_Some & _ & Hc) [->|Hx]%elem_of_cons; eauto.
Qed.

Lemma pop_freelist_spec h L fl :
  heap_inv h L fl ->
  exists x fl' h', fl = x :: fl' /\ pop_freelist h = Some (Z.of_nat x, h') /\
    pending_inv h' L fl' x /\ max_size h' = max_size h /\
    cur_size h' = cur_size h /\ length L + 1 < max_size h' /\
    timer_dups h' = timer_dups h /\
    max_entries_per_poll h' = max_entries_per_poll h.
Proof.
  intros [HR Hc Hhl Hdl Hil HO Hf Hnd Hcnt Hsp].
  destruct fl as [|x fl]; cbn in *; [lia|].
  destruct Hf as (Hfx & Hx & v & Hv & Hv0 & Hf).
  pose proof (lookup_lt_Some _ _ _ Hv).
  exists x, fl, (h <| timer_ids_freelist := (- v)%Z |>).
  unfold pop_freelist. rewrite Hfx, zlookup_nat. obind Hv.
  do 2 (split; [done|]). split; [|by cbn].
  split; cbn; auto; [by destruct HR|lia|lia].
Qed.

Lemma grow_heap_spec h L fl x :
  pending_inv h L fl x ->
  exists h' fl', grow_heap h pool_ok = (PJ_SUCCESS, h') /\
    pending_inv h' L fl' x /\ max_size h' = max_size h * 2 /\
    cur_size h' = cur_size h /\
    max_entries_per_poll h' = max_entries_per_poll h /\
    (forall i, i < max_size h -> get_dup h' i = get_dup h i).
Proof.
  intros [HR Hc Hhl Hdl Hil HO Hf Hnd Hcnt Hx].
  unfold grow_heap. cbn [negb alloc_heap alloc_dups alloc_ids pool_ok].
  set (m := max_size h) in *.
  eexists _, (fl ++ seq m m). split; [reflexivity|].
  replace (m * 2 - m) with m by lia.
  match goal with |- pending_inv ?h2 _ _ _ /\ _ => set (h' := h2) end.
  assert (Hgd : forall i, i < m -> get_dup h' i = get_dup h i).
  { intros i Hi. unfold get_dup, h'. cbn [timer_dups set_field].
    rewrite lookup_app_l by (rewrite length_take; lia).
    by rewrite lookup_take_lt. }
  split; [|by auto].
  assert (Hbd : forall i id, L !! i = Some id -> id < m).
  { intros i id Hi. destruct (rep_dup _ _ HR _ _ Hi) as (_ & _ & _ & ?). lia. }
  pose proof (rep_room _ _ HR).
  split; unfold h' in *; cbn -[get_dup node_val]; fold m;
    rewrite ?length_app, ?length_replicate, ?length_fmap,
    ?length_seq, ?length_take; try lia.
  - split; cbn.
    + rewrite length_app, length_take, length_replicate. lia.
    + intros i id Hi. pose proof (lookup_lt_Some _ _ _ Hi).
      destruct (rep_slot _ _ HR _ _ Hi) as [H1 H2].
      rewrite lookup_app_l by (rewrite length_take; lia).
      rewrite lookup_take_lt by lia. split; [done|].
      rewrite take_ge by lia. by apply lookup_app_l_Some.
    + intros i id Hi. destruct (rep_dup _ _ HR _ _ Hi) as (d & Hd & Hdi & Hr).
      exists d. rewrite Hgd by eauto. do 2 (split; [done|]). cbn.
      rewrite length_app, length_take. lia.
  - intros i p c Hi Hc' Hp. specialize (HO i p c Hi Hc' Hp).
    unfold node_val in *. by rewrite !Hgd by eauto.
  - replace (m * 2 - m) with m by lia. rewrite take_ge by lia.
    replace (Z.of_nat (m * 2)) with (Z.of_nat (m + m)) by lia.
    apply free_chain_grow; lia || done.
  - rewrite app_comm_cons, app_assoc. apply NoDup_app. split; [done|].
    split; [|apply NoDup_seq]. intros y Hy Hys%elem_of_seq.
    rewrite elem_of_app, elem_of_cons in Hy. destruct Hy as [Hy|[->|Hy]].
    + apply list_elem_of_lookup in Hy as [i Hi]. apply Hbd in Hi. lia.
    + lia.
    + eapply free_chain_bound in Hy; [|done]. lia.
Qed.

(** Storing the copy of the new node and re-heapifying from the bottom. *)
Lemma insert_heap h L fl x d :
  pending_inv h L fl x -> length L + 2 < max_size h ->
  te_timer_id (dup_copy d) = Z.of_nat x ->
  let h1 := h <| timer_dups := <[x := Some d]> (timer_dups h) |> in
  exists h' L',
    reheap_up h1 x (cur_size h1) (HEAP_PARENT (cur_size h1)) = Some h' /\
    heap_inv (h' <| cur_size := cur_size h' + 1 |>) L' fl /\ L' ≡ₚ x :: L /\
    timer_dups h' = timer_dups h1 /\
    max_entries_per_poll h' = max_entries_per_poll h.
Proof.
  intros [HR Hc Hhl Hdl Hil HO Hf Hnd Hcnt Hx] Hroom Hid h1.
  assert (HxL : x ∉ L).
  { apply NoDup_app in Hnd as (_ & Hdis & _). intros Hin. apply (Hdis x); set_solver. }
  assert (Hgd : forall y, y <> x -> get_dup h1 y = get_dup h y)
    by (intros; unfold get_dup; cbn; by rewrite list_lookup_insert_ne).
  assert (HLn : forall i y, L !! i = Some y -> y <> x)
    by (intros i y Hi ->; apply HxL; by eapply list_elem_of_lookup_2).
  assert (Hlk : forall i y, (L ++ [x]) !! i = Some y -> i <> length L ->
    L !! i = Some y).
  { intros i y Hi Hne. apply lookup_app_Some in Hi as [|[Hge Hi]]; [done|].
    apply list_lookup_singleton_Some in Hi as [? _]. lia. }
  assert (HH : holed h1 (L ++ [x]) (length L) x).
  { split.
    - rewrite length_app. cbn. lia.
    - by apply list_lookup_middle.
    - intros i y Hi Hne. apply Hlk in Hi; [|done]. by apply (rep_slot _ _ HR).
    - intros i y Hi. destruct (decide (i = length L)) as [->|Hne].
      + rewrite list_lookup_middle in Hi by done. simplify_eq.
        exists d. unfold get_dup. cbn. rewrite list_lookup_insert_eq by lia.
        split; [done|]. split; [done|lia].
      + apply Hlk in Hi; [|done].
        destruct (rep_dup _ _ HR _ _ Hi) as (d' & Hd' & ? & ?).
        exists d'. by rewrite Hgd by eauto.
    - rewrite Permutation_app_comm. cbn. apply NoDup_cons. split; [done|].
      by apply heap_rep_nodup in HR. }
  assert (Hc1 : cur_size h1 = length L) by done. rewrite Hc1.
  destruct (reheap_up_spec (S (length L)) h1 x (length L) (L ++ [x]) HH ltac:(lia))
    as (h' & L' & Hup & HP & HF & HR' & HO').
  exists h', L'. split; [exact Hup|].
  assert (HP' : L' ≡ₚ x :: L) by (by rewrite HP, Permutation_app_comm).
  assert (Hlen : length L' = S (length L)) by (by rewrite HP').
  destruct HF as [Fmax Fcur Fpoll Fdups Ffree Fhl Fil Fids]. cbn in *.
  split; [|done].
  split; cbn; try lia.
  - by destruct HR'.
  - rewrite Fdups, length_insert. lia.
  - apply HO'. split.
    + intros i p c Hi Hne Hci Hpi. apply Hlk in Hci; [|done].
      pose proof (lookup_lt_Some _ _ _ Hci). pose proof (parent_lt i Hi).
      apply Hlk in Hpi; [|lia].
      unfold node_val. rewrite !Hgd by eauto. by eapply HO.
    + intros i g c Hi Hpi%parent_spec Hpos Hci; [|done].
      apply lookup_lt_Some in Hci. rewrite length_app in Hci. cbn in Hci. lia.
  - rewrite Ffree, Fmax. eapply free_chain_agree; [|exact Hf].
    intros y Hy. rewrite Fids; [done|]. rewrite elem_of_app.
    apply NoDup_app in Hnd as (_ & Hdis & [Hxf _]%NoDup_cons).
    intros [Hin|Hin]; [apply (Hdis y); set_solver|].
    apply list_elem_of_singleton in Hin as ->. done.
  - rewrite HP'. cbn. by rewrite Permutation_middle.
Qed.

(** [insert_node] after the identifier was taken, with memory available. *)
Lemma insert_node_spec h L fl x es lk a e t :
  pending_inv h L fl x -> length L + 1 < max_size h ->
  es !! a = Some e -> te_timer_id e = Z.of_nat x ->
  exists h' L' fl',
    insert_node (mk_timer_world h es lk) a t pool_ok =
      Some (PJ_SUCCESS, mk_timer_world h' es lk) /\
    heap_inv h' L' fl' /\ L' ≡ₚ x :: L /\
    get_dup h' x = Some (mk_timer_entry_dup e a t None) /\
    (forall y, y ∈ L -> get_dup h' y = get_dup h y) /\
    max_entries_per_poll h' = max_entries_per_poll h.
Proof.
  intros HI Hsp He Hid.
  assert (exists h1 fl1,
    (if max_size h <=? cur_size h + 2 then grow_heap h pool_ok else (PJ_SUCCESS, h))
      = (PJ_SUCCESS, h1) /\ pending_inv h1 L fl1 x /\ length L + 2 < max_size h1 /\
    (forall y, y ∈ L -> get_dup h1 y = get_dup h y) /\
    max_entries_per_poll h1 = max_entries_per_poll h)
    as (h1 & fl1 & Hg & HI1 & Hsp1 & Hgd1 & Hmp1).
  { pose proof (pinv_cur _ _ _ _ HI). destruct (Nat.leb_spec (max_size h) (cur_size h + 2)).
    - destruct (grow_heap_spec _ _ _ _ HI) as (h1 & fl1 & Hg & HI1 & Hm & _ & Hp & Hgd).
      exists h1, fl1. split; [done|]. split; [done|]. split; [lia|]. split; [|done].
      intros y [i Hi]%list_elem_of_lookup. apply Hgd.
      destruct (rep_dup _ _ (pinv_rep _ _ _ _ HI) _ _ Hi) as (_ & _ & _ & ?).
      pose proof (pinv_ids_len _ _ _ _ HI). lia.
    - exists h, fl. split; [done|]. split; [done|]. split; [lia|]. done. }
  destruct (insert_heap h1 L fl1 x (mk_timer_entry_dup e a t None) HI1 Hsp1 Hid)
    as (h' & L' & Hup & HI' & HP & Hdups & Hmp).
  pose proof (pinv_dups_len _ _ _ _ HI1). pose proof (pinv_x _ _ _ _ HI1).
  exists (h' <| cur_size := cur_size h' + 1 |>), L', fl1.
  unfold insert_node. cbn [ht entries]. rewrite Hg. cbn [negb].
  rewrite (Z.eqb_refl PJ_SUCCESS). cbn [negb]. obind He.
  rewrite Hid, zstore_nat by lia. ored. rewrite Nat2Z.id.
  cbv zeta. obind Hup. split; [done|]. split; [done|]. split; [done|].
  assert (HxL : x ∉ L).
  { pose proof (pinv_nodup _ _ _ _ HI1) as Hnd.
    apply NoDup_app in Hnd as (_ & Hdis & _). intros Hin. apply (Hdis x); set_solver. }
  split.
  { unfold get_dup. cbn. rewrite Hdups. cbn. by rewrite list_lookup_insert_eq by lia. }
  split; [|cbn; congruence].
  intros y Hy. rewrite <- Hgd1 by done. unfold get_dup. cbn. rewrite Hdups. cbn.
  rewrite list_lookup_insert_ne; [done|]. by intros ->.
Qed.

(** Overwriting a copy without touching its identifier and deadline. *)
Lemma heap_inv_set_dup h L fl x d d' :
  heap_inv h L fl -> get_dup h x = Some d ->
  te_timer_id (dup_copy d') = te_timer_id (dup_copy d) ->
  dup_timer_value d' = dup_timer_value d ->
  heap_inv (h <| timer_dups := <[x := Some d']> (timer_dups h) |>) L fl.
Proof.
  intros HI Hd Hid Hv. pose proof (get_dup_lt _ _ _ Hd) as Hlt.
  assert (Hgd : forall y, get_dup (h <| timer_dups := <[x := Some d']> (timer_dups h) |>) y
    = if decide (x = y) then Some d' else get_dup h y).
  { intros y. unfold get_dup. cbn. rewrite insert_lookup by done. by case_decide. }
  assert (Hnv : forall y, node_val (h <| timer_dups := <[x := Some d']> (timer_dups h) |>) y
    = node_val h y).
  { intros y. unfold node_val. rewrite Hgd. case_decide; [|done].
    subst. by rewrite Hd. }
  destruct HI as [HR Hc Hhl Hdl Hil HO Hf Hnd Hcnt Hsp].
  split; try done.
  - destruct HR as [R1 R2 R3]. split; [done|done|].
    intros i y Hi. destruct (R3 _ _ Hi) as (dy & Hdy & Hidy & Hr).
    destruct (decide (x = y)) as [->|Hne].
    + exists d'. rewrite Hgd, decide_True by done. split; [done|].
      split; [|done]. simplify_eq. congruence.
    + exists dy. by rewrite Hgd, decide_False.
  - cbn. by rewrite length_insert.
  - intros i p c Hi Hci Hpi. rewrite !Hnv. eauto.
Qed.

(** The world after the identifier [x] was given to entry [a]. *)
Lemma timer_inv_schedule w L L' fl fl' x h' a e e' d' lks :
  timer_inv w L fl -> entries w !! a = Some e -> (te_timer_id e < 1)%Z ->
  heap_inv h' L' fl' -> L' ≡ₚ x :: L -> get_dup h' x = Some d' ->
  dup_entry d' = a -> te_timer_id e' = Z.of_nat x ->
  (forall y, y ∈ L -> get_dup h' y = get_dup (ht w) y) ->
  (forall l, is_Some (lock_refs w !! l) -> is_Some (lks !! l)) ->
  (forall l, dup_grp_lock d' = Some l -> is_Some (lks !! l)) ->
  timer_inv (mk_timer_world h' (<[a := e']> (entries w)) lks) L' fl' /\
  active (mk_timer_world h' (<[a := e']> (entries w)) lks) =
    <[a := dup_timer_value d']> (active w).
Proof.
  intros [HH He Hr Hl] Ha Hlt HH' HP Hd' <- Hid' Hgd Hlks Hlk'.
  assert (Hx1 : 1 <= x).
  { pose proof (inv_rep _ _ _ HH') as HR'.
    assert (x ∈ L') as [j Hj]%list_elem_of_lookup by (rewrite HP; set_solver).
    destruct (rep_dup _ _ HR' _ _ Hj) as (_ & _ & _ & ?). lia. }
  assert (HxL : x ∉ L).
  { pose proof (heap_rep_nodup _ _ (inv_rep _ _ _ HH')) as Hnd.
    rewrite HP in Hnd. by apply NoDup_cons in Hnd as [? _]. }
  assert (Hold : forall y dy, y ∈ L -> get_dup (ht w) y = Some dy ->
    dup_entry dy <> dup_entry d').
  { intros y dy Hy Hdy Heq. destruct (He _ _ Hy Hdy) as (ey & Hey & Hyid).
    apply list_elem_of_lookup in Hy as [i Hi].
    destruct (rep_dup _ _ (inv_rep _ _ _ HH) _ _ Hi) as (_ & _ & _ & ?).
    rewrite Heq in Hey. simplify_eq. lia. }
  assert (HI : timer_inv (mk_timer_world h' (<[dup_entry d' := e']> (entries w)) lks) L' fl').
  { split; cbn; [done| | |].
    - intros y dy Hy Hdy. rewrite HP in Hy. apply elem_of_cons in Hy as [->|Hy].
      + simplify_eq. rewrite lookup_insert_eq. eauto.
      + rewrite Hgd in Hdy by done. rewrite lookup_insert_ne; [eauto|].
        intros Heq. by eapply Hold.
    - intros b eb Hb Hge. destruct (decide (dup_entry d' = b)) as [<-|Hne].
      + rewrite lookup_insert_eq in Hb. simplify_eq. exists x, d'.
        rewrite HP. split; [set_solver|done].
      + rewrite lookup_insert_ne in Hb by done.
        destruct (Hr _ _ Hb Hge) as (y & dy & Hy & ? & ? & ?).
        exists y, dy. rewrite HP, Hgd by done. split; [set_solver|done].
    - intros y dy l Hy Hdy Hlk. rewrite HP in Hy.
      apply elem_of_cons in Hy as [->|Hy]; [simplify_eq; eauto|].
      rewrite Hgd in Hdy by done. eauto. }
  split; [exact HI|]. apply map_eq. intros b. rewrite active_lookup. cbn [entries ht].
  destruct (decide (dup_entry d' = b)) as [<-|Hne].
  - rewrite !lookup_insert_eq. ored.
    by rewrite (deadline_running _ _ _ Hid'), Hd' by lia.
  - rewrite !lookup_insert_ne, active_lookup by done.
    destruct (entries w !! b) as [eb|] eqn:Hb; [|done]. ored.
    apply deadline_agree. intros y Hy1 Hy.
    destruct (Hr _ _ Hb ltac:(lia)) as (z & dz & Hz & Hzid & _).
    assert (z = y) as -> by lia. by rewrite Hgd.
Qed.

Lemma lock_alter (refs : gmap nat Z) l n :
  refs !! l = Some n -> <[l := (n + 1)%Z]> refs = alter (fun n => (n + 1)%Z) l refs.
Proof.
  intros H. apply map_eq. intros k. rewrite lookup_alter, lookup_insert.
  case_decide; [subst; by rewrite H|done].
Qed.

Lemma lock_alter_is_Some (f : Z -> Z) (refs : gmap nat Z) l k :
  is_Some (refs !! k) -> is_Some (alter f l refs !! k).
Proof. intros H. rewrite lookup_alter. case_decide; [subst; by apply fmap_is_Some|done]. Qed.

(** [schedule_entry] on an idle entry. *)
Lemma schedule_entry_spec w L fl a e t :
  timer_inv w L fl -> entries w !! a = Some e -> (te_timer_id e < 1)%Z ->
  exists x h' L' fl',
    schedule_entry w a t pool_ok =
      Some (PJ_SUCCESS, mk_timer_world h'
        (<[a := e <| te_timer_id := Z.of_nat x |>]> (entries w)) (lock_refs w)) /\
    heap_inv h' L' fl' /\ L' ≡ₚ x :: L /\
    get_dup h' x =
      Some (mk_timer_entry_dup (e <| te_timer_id := Z.of_nat x |>) a t None) /\
    (forall y, y ∈ L -> get_dup h' y = get_dup (ht w) y) /\
    max_entries_per_poll h' = max_entries_per_poll (ht w).
Proof.
  intros HI Ha Hid. pose proof (tinv_heap _ _ _ HI) as HH.
  destruct (pop_freelist_spec _ _ _ HH)
    as (x & fl' & h0 & -> & Hpop & HP & Hmax & Hcur & Hsp & Hdups & Hmp).
  set (e1 := e <| te_timer_id := Z.of_nat x |>).
  destruct (insert_node_spec h0 L fl' x (<[a := e1]> (entries w)) (lock_refs w)
    a e1 t HP Hsp (lookup_insert_eq _ _ _) eq_refl)
    as (h' & L' & fl2 & Hins & HI' & HPL & Hgx & Hgy & Hmp').
  exists x, h', L', fl2. unfold schedule_entry.
  pose proof (inv_spare _ _ _ HH). pose proof (inv_cur _ _ _ HH).
  destruct (Nat.ltb_spec (cur_size (ht w)) (max_size (ht w))); [|lia].
  obind Hpop. obind Ha. split; [exact Hins|]. split; [done|]. split; [done|].
  split; [done|]. split; [|congruence].
  intros y Hy. rewrite Hgy by done. unfold get_dup. by rewrite Hdups.
Qed.

Lemma schedule_inv_spec w now a e delay set_id id_val lk L fl :
  timer_inv w L fl -> entries w !! a = Some e -> te_cb e <> None ->
  (te_timer_id e < 1)%Z -> (forall l, lk = Some l -> is_Some (lock_refs w !! l)) ->
  exists w' e' L' fl',
    schedule_w_grp_lock w now a delay set_id id_val lk pool_ok =
      Some (PJ_SUCCESS, w') /\ timer_inv w' L' fl' /\
    scheduled w w' a e e' (PJ_TIME_VAL_ADD now delay) lk /\
    te_id e' = if set_id then id_val else te_id e.
Proof.
  intros HI Ha Hcb Hid Hlk.
  destruct (schedule_entry_spec w L fl a e (PJ_TIME_VAL_ADD now delay) HI Ha Hid)
    as (x & h' & L' & fl' & Hs & HH' & HP & Hgx & Hgy & Hmp).
  set (e1 := e <| te_timer_id := Z.of_nat x |>) in *.
  set (e2 := if set_id then e1 <| te_id := id_val |> else e1).
  set (d2 := (if set_id then (mk_timer_entry_dup e1 a (PJ_TIME_VAL_ADD now delay) None)
      <| dup_copy := e1 <| te_id := id_val |> |>
    else mk_timer_entry_dup e1 a (PJ_TIME_VAL_ADD now delay) None)
    <| dup_grp_lock := lk |>).
  pose proof (get_dup_lt _ _ _ Hgx) as Hxlt.
  set (h2 := h' <| timer_dups := <[x := Some d2]> (timer_dups h') |>).
  assert (HH2 : heap_inv h2 L' fl')
    by (eapply heap_inv_set_dup; [exact HH'|exact Hgx|by destruct set_id..]).
  set (lks := match lk with
    | Some l => alter (fun n => (n + 1)%Z) l (lock_refs w) | None => lock_refs w end).
  assert (Hg2 : forall y, y ∈ L -> get_dup h2 y = get_dup (ht w) y).
  { intros y Hy. rewrite <- Hgy by done. unfold get_dup. cbn.
    rewrite list_lookup_insert_ne; [done|]. intros ->.
    pose proof (heap_rep_nodup _ _ (inv_rep _ _ _ HH')) as Hnd.
    rewrite HP in Hnd. by apply NoDup_cons in Hnd as [? _]. }
  destruct (timer_inv_schedule w L L' fl fl' x h2 a e e2 d2 lks HI Ha Hid HH2 HP)
    as [HI' Hact]; try done.
  { unfold get_dup. cbn. by rewrite list_lookup_insert_eq. }
  { by destruct set_id. }
  { by destruct set_id. }
  { intros l Hl. unfold lks. destruct lk; [by apply lock_alter_is_Some|done]. }
  { intros l Hl. assert (lk = Some l) as -> by (by destruct set_id).
    apply lock_alter_is_Some. auto. }
  exists (mk_timer_world h2 (<[a := e2]> (entries w)) lks), e2, L', fl'.
  assert (Hx1 : (1 <= Z.of_nat x)%Z).
  { assert (x ∈ L') as [j Hj]%list_elem_of_lookup by (rewrite HP; set_solver).
    destruct (rep_dup _ _ (inv_rep _ _ _ HH') _ _ Hj) as (_ & _ & _ & ?). lia. }
  split; [|split; [exact HI'|split; [|by destruct set_id]]].
  - unfold schedule_w_grp_lock. obind Ha. rewrite bool_decide_false by done.
    unfold pj_timer_entry_running at 1.
    destruct (Z.leb_spec 1 (te_timer_id e)); [lia|].
    obind Hs. rewrite Z.eqb_refl. cbn [entries ht].
    rewrite lookup_insert_eq. ored.
    change (te_timer_id e1) with (Z.of_nat x). rewrite zlookup_nat.
    change (mjoin (timer_dups h' !! x)) with (get_dup h' x). obind Hgx.
    replace (te_timer_id (if set_id then e1 <| te_id := id_val |> else e1))
      with (Z.of_nat x) by (by destruct set_id).
    rewrite zstore_nat by done. ored.
    unfold pj_grp_lock_add_ref. cbn [lock_refs set_field].
    unfold lks. destruct lk as [l|].
    + destruct (Hlk l eq_refl) as [n Hn].
      rewrite (insert_insert_eq (entries w)). rewrite Hn. ored.
      by rewrite (lock_alter _ _ _ Hn).
    + by rewrite (insert_insert_eq (entries w)).
  - split; cbn; try done; try (by destruct set_id).
    unfold pj_timer_entry_running. destruct set_id; by apply Z.leb_le.
Qed.

(** ** Cancelling *)

(** Marking an idle entry idle changes nothing that matters. *)
Lemma timer_inv_idle w L fl a e :
  timer_inv w L fl -> entries w !! a = Some e -> (te_timer_id e < 1)%Z ->
  let w' := w <| entries := <[a := e <| te_timer_id := (-1)%Z |>]> (entries w) |> in
  timer_inv w' L fl /\ active w' = active w.
Proof.
  intros [HH He Hr Hl] Ha Hid. cbv zeta. split.
  - split; cbn; [done| | |done].
    + intros y dy Hy Hdy. destruct (He _ _ Hy Hdy) as (ey & Hey & Hyid).
      rewrite lookup_insert_ne; [eauto|]. intros ->. simplify_eq.
      apply list_elem_of_lookup in Hy as [i Hi].
      destruct (rep_dup _ _ (inv_rep _ _ _ HH) _ _ Hi) as (_ & _ & _ & ?). lia.
    + intros b eb Hb Hge. destruct (decide (a = b)) as [->|Hne].
      * rewrite lookup_insert_eq in Hb. simplify_eq. cbn in Hge. lia.
      * rewrite lookup_insert_ne in Hb by done. eauto.
  - apply map_eq. intros b. rewrite !active_lookup. cbn [entries ht set_field].
    destruct (decide (a = b)) as [->|Hne].
    + rewrite lookup_insert_eq, Ha. ored.
      by rewrite !deadline_inactive by (cbn; lia).
    + by rewrite lookup_insert_ne.
Qed.

Lemma cancel_idle w a e flags :
  entries w !! a = Some e -> (te_timer_id e < 1)%Z ->
  cancel w a flags = Some (0%Z,
    w <| entries := <[a := e <| te_timer_id := (-1)%Z |>]> (entries w) |>).
Proof.
  intros Ha Hid. unfold cancel. obind Ha.
  destruct (Z.ltb_spec (te_timer_id e) 1); [done|lia].
Qed.

Lemma cancel_running w L fl a e flags :
  timer_inv w L fl -> entries w !! a = Some e -> (1 <= te_timer_id e)%Z ->
  Z.land flags F_DONT_CALL <> 0%Z ->
  exists w' L' fl' id d, cancel w a flags = Some (1%Z, w') /\
    timer_inv w' L' fl' /\ removed w w' L L' id d e /\
    dup_entry d = a /\ get_dup (ht w) id = Some d /\ id ∈ L.
Proof.
  intros HI Ha Hge Hfl. pose proof HI as [HH He Hr Hl].
  destruct (Hr _ _ Ha Hge) as (id & d & Hin & Hid & Hd & Hda).
  pose proof Hin as [slot Hs]%list_elem_of_lookup.
  destruct (rep_slot _ _ (inv_rep _ _ _ HH) _ _ Hs) as [Hhs Hts].
  destruct (rep_dup _ _ (inv_rep _ _ _ HH) _ _ Hs) as (_ & _ & _ & Hrng).
  pose proof (inv_ids_len _ _ _ HH).
  destruct (remove_node_spec _ _ _ _ _ _ HI Hs Hd) as (w' & L' & e' & Hrm & HI' & R).
  assert (e' = e) as -> by (pose proof (rm_entry _ _ _ _ _ _ _ R); congruence).
  exists w', L', (id :: fl), id, d. split; [|done].
  unfold cancel. obind Ha.
  destruct (Z.ltb_spec (te_timer_id e) 1); [lia|].
  destruct (Z.leb_spec (Z.of_nat (max_size (ht w))) (te_timer_id e)); [lia|].
  cbn [orb]. rewrite Hid, zlookup_nat. obind Hts.
  destruct (Z.ltb_spec (Z.of_nat slot) 0); [lia|]. rewrite Nat2Z.id.
  rewrite (heap_at_eq _ _ _ Hhs). ored. obind Hd.
  rewrite Hda, Nat.eqb_refl. cbn [negb]. obind Hrm.
  destruct (Z.eqb_spec (Z.land flags F_DONT_CALL) 0); done.
Qed.

(** What a successful or vain [cancel_timer] leaves. *)
Record cancelled (w w' : timer_world) (a : nat) (e : pj_timer_entry)
    (flags id_val : Z) : Prop := mk_cancelled {
  cn_active : active w' = delete a (active w);
  cn_entries : entries w' = <[a := (if pj_timer_entry_running e
      && negb (Z.land flags F_SET_ID =? 0)%Z then e <| te_id := id_val |> else e)
      <| te_timer_id := (-1)%Z |>]> (entries w);
  cn_poll : max_entries_per_poll (ht w') = max_entries_per_poll (ht w);
  cn_locks : forall l, is_Some (lock_refs w !! l) -> is_Some (lock_refs w' !! l)
}.

Lemma timer_inv_set_te_id w L fl a e v :
  timer_inv w L fl -> entries w !! a = Some e ->
  let w' := w <| entries := <[a := e <| te_id := v |>]> (entries w) |> in
  timer_inv w' L fl /\ active w' = active w.
Proof.
  intros [HH He Hr Hl] Ha. cbv zeta. split.
  - split; cbn; [done| | |done].
    + intros y dy Hy Hdy. destruct (He _ _ Hy Hdy) as (ey & Hey & Hyid).
      rewrite lookup_insert. case_decide; [|by eauto].
      simplify_eq. by eexists.
    + intros b eb Hb Hge. rewrite lookup_insert in Hb. case_decide; [|by eauto].
      simplify_eq. exact (Hr _ _ Ha Hge).
  - apply map_eq. intros b. rewrite !active_lookup. cbn [entries ht set_field].
    rewrite lookup_insert. case_decide; [subst; by rewrite Ha|done].
Qed.

Lemma timer_inv_locks w L fl lks :
  timer_inv w L fl ->
  (forall l, is_Some (lock_refs w !! l) -> is_Some (lks !! l)) ->
  timer_inv (w <| lock_refs := lks |>) L fl.
Proof. intros [] H. split; cbn; eauto. Qed.

(** The optional [pj_grp_lock_dec_ref] of [cancel_timer] and of the poll. *)
Lemma dec_ref_spec w L fl lk :
  timer_inv w L fl -> (forall l, lk = Some l -> is_Some (lock_refs w !! l)) ->
  exists lks,
    match lk with Some l => pj_grp_lock_dec_ref w l | None => Some w end =
      Some (w <| lock_refs := lks |>) /\
    timer_inv (w <| lock_refs := lks |>) L fl /\
    (forall l, is_Some (lock_refs w !! l) -> is_Some (lks !! l)).
Proof.
  intros HI Hlk. destruct lk as [l|].
  - destruct (Hlk l eq_refl) as [n Hn]. unfold pj_grp_lock_dec_ref. obind Hn.
    eexists. split; [reflexivity|].
    assert (forall k, is_Some (lock_refs w !! k) ->
      is_Some (<[l := (n - 1)%Z]> (lock_refs w) !! k)).
    { intros k Hk. rewrite lookup_insert. case_decide; eauto. }
    split; [by apply timer_inv_locks|done].
  - exists (lock_refs w). destruct w. split; [done|]. split; [done|auto].
Qed.

Lemma cancel_timer_spec stray w L fl a e flags id_val :
  timer_inv w L fl -> entries w !! a = Some e ->
  pj_timer_entry_running e = true \/ stray <> None ->
  exists w' L' fl', cancel_timer stray w a flags id_val =
      Some ((if pj_timer_entry_running e then 1 else 0)%Z, w') /\
    timer_inv w' L' fl' /\ cancelled w w' a e flags id_val.
Proof.
  intros HI Ha Hst. unfold cancel_timer. obind Ha.
  unfold pj_timer_entry_running in *.
  destruct (Z.leb_spec 1 (te_timer_id e)) as [Hge|Hlt].
  - destruct (cancel_running w L fl a e (Z.lor flags F_DONT_CALL) HI Ha Hge)
      as (w1 & L1 & fl1 & x & d & Hc & HI1 & R & Hda & Hd & Hin).
    { intros E. apply (f_equal (fun z => Z.testbit z 0)) in E.
      rewrite Z.land_spec, Z.lor_spec, orb_true_r in E. done. }
    pose proof (removed_active _ _ _ _ _ _ _ Hd R) as Hact.
    destruct R as [HP Hee Hei Hes Hlk Hdups Hmp]. rewrite Hda in *.
    assert (He1 : entries w1 !! a = Some (e <| te_timer_id := (-1)%Z |>))
      by (rewrite Hes; apply lookup_insert_eq).
    unfold read_dup_lock. rewrite Hei, zlookup_nat.
    change (mjoin (timer_dups (ht w) !! x)) with (get_dup (ht w) x). rewrite Hd.
    cbn [mbind option_bind].
    obind Hc. cbn [Z.ltb Z.compare]. change (0 <? 1)%Z with true. cbv iota.
    obind He1.
    set (w2 := if (Z.land flags F_SET_ID =? 0)%Z then w1 else _).
    assert (HI2 : timer_inv w2 L1 fl1 /\ active w2 = active w1 /\
      lock_refs w2 = lock_refs w1 /\ ht w2 = ht w1 /\
      entries w2 = <[a := (if negb (Z.land flags F_SET_ID =? 0)%Z
        then e <| te_id := id_val |> else e) <| te_timer_id := (-1)%Z |>]> (entries w)).
    { unfold w2. destruct (Z.land flags F_SET_ID =? 0)%Z; [done|].
      destruct (timer_inv_set_te_id _ _ _ _ _ id_val HI1 He1) as [? ?].
      do 4 (split; [done|]). cbn. by rewrite Hes, insert_insert_eq. }
    destruct HI2 as (HI2 & Ha2 & Hl2 & Hh2 & He2).
    destruct (dec_ref_spec w2 L1 fl1 (dup_grp_lock d) HI2) as (lks & -> & HI3 & Hlks).
    { intros l Hl. rewrite Hl2, Hlk. by eapply (tinv_locks _ _ _ HI). }
    ored. eexists _, L1, fl1. split; [reflexivity|]. split; [exact HI3|].
    split; cbn [ht entries lock_refs set_field].
    + rewrite <- Hact, <- Ha2. done.
    + unfold pj_timer_entry_running. destruct (Z.leb_spec 1 (te_timer_id e)); [|lia].
      done.
    + by rewrite Hh2.
    + intros l Hl. apply Hlks. by rewrite Hl2, Hlk.
  - assert (exists l, read_dup_lock stray (ht w) (te_timer_id e) = Some l) as [l ->].
    { unfold read_dup_lock. case_match; [by eexists|]. destruct stray; [by eexists|].
      by destruct Hst. }
    ored. rewrite (cancel_idle _ _ _ _ Ha Hlt). ored.
    destruct (timer_inv_idle _ _ _ _ _ HI Ha Hlt) as [HI' Hact].
    eexists _, L, fl. split; [reflexivity|]. split; [exact HI'|].
    split; [| |done|done].
    + rewrite Hact, delete_id; [done|]. rewrite active_lookup, Ha. ored.
      by apply deadline_inactive.
    + cbn. unfold pj_timer_entry_running.
      destruct (Z.leb_spec 1 (te_timer_id e)); [lia|done].
Qed.

(** ** Polling *)

(** What is asked of expiry callbacks: they act on the heap through its
    operations, so they keep its invariant; they do not change the number of
    entries processed per poll nor destroy a group lock in use. *)
Definition cb_ok (cb : nat -> timer_world -> timer_world) : Prop :=
  forall a w, timer_ok w ->
    timer_ok (cb a w) /\
    max_entries_per_poll (ht (cb a w)) = max_entries_per_poll (ht w) /\
    (forall l, is_Some (lock_refs w !! l) -> is_Some (lock_refs (cb a w) !! l)).

(** A callback that leaves the heap and the entries alone. *)
Definition cb_quiet (cb : nat -> timer_world -> timer_world) : Prop :=
  forall a w, ht (cb a w) = ht w /\ entries (cb a w) = entries w /\
    (forall l, is_Some (lock_refs w !! l) -> is_Some (lock_refs (cb a w) !! l)).

(** The contract of a poll at time [now]: repeatedly remove an entry whose
    deadline is the earliest of all, and is not after [now]. *)
Inductive fires (now : pj_time_val)
    : gmap nat pj_time_val -> list nat -> gmap nat pj_time_val -> Prop :=
| fires_nil m : fires now m [] m
| fires_cons m a t fired m' :
    m !! a = Some t -> time_le t now ->
    (forall b tb, m !! b = Some tb -> time_le t tb) ->
    fires now (delete a m) fired m' ->
    fires now m (a :: fired) m'.

Lemma timer_inv_drop_lock w L fl x d :
  timer_inv w L fl -> x ∉ L -> get_dup (ht w) x = Some d ->
  let w' := w <| ht := ht w <| timer_dups :=
    <[x := Some (d <| dup_grp_lock := None |>)]> (timer_dups (ht w)) |> |> in
  timer_inv w' L fl /\ active w' = active w.
Proof.
  intros [HH He Hr Hl] Hx Hd. cbv zeta.
  set (h' := ht w <| timer_dups := _ |>).
  assert (Hgd : forall y, y ∈ L -> get_dup h' y = get_dup (ht w) y).
  { intros y Hy. unfold get_dup, h'. cbn.
    rewrite list_lookup_insert_ne; [done|]. by intros ->. }
  split.
  - split; cbn [ht entries lock_refs set_field].
    + by eapply heap_inv_set_dup.
    + intros y dy Hy Hdy. rewrite Hgd in Hdy by done. eauto.
    + intros a e Ha Hge. destruct (Hr _ _ Ha Hge) as (y & dy & Hy & ? & ? & ?).
      exists y, dy. by rewrite Hgd.
    + intros y dy l Hy Hdy. rewrite Hgd in Hdy by done. eauto.
  - apply map_eq. intros b. rewrite !active_lookup. cbn [entries ht set_field].
    destruct (entries w !! b) as [e|] eqn:Hb; [|done]. ored.
    apply deadline_agree. intros y Hy1 Hy.
    destruct (Hr _ _ Hb ltac:(lia)) as (z & dz & Hz & Hzid & _).
    assert (z = y) as -> by lia. by rewrite Hgd.
Qed.

Lemma cur_size_active w L fl :
  timer_inv w L fl -> (cur_size (ht w) = 0 <-> active w = ∅).
Proof.
  intros HI. rewrite (inv_cur _ _ _ (tinv_heap _ _ _ HI)). split.
  - intros ->%nil_length_inv. apply map_eq. intros a. rewrite lookup_empty.
    destruct (active w !! a) as [t|] eqn:E; [|done].
    apply (active_spec _ _ _ _ _ HI) in E as (id & d & Hin & _). set_solver.
  - intros Hemp. destruct L as [|x L]; [done|]. exfalso.
    destruct (rep_dup _ _ (inv_rep _ _ _ (tinv_heap _ _ _ HI)) 0 x eq_refl)
      as (d & Hd & _).
    assert (active w !! dup_entry d = Some (dup_timer_value d)) as Ha.
    { apply (active_spec _ _ _ _ _ HI). exists x, d. split; [set_solver|done]. }
    by rewrite Hemp in Ha.
Qed.

(** The root of the heap is an earliest entry. *)
Lemma root_value_spec w L fl :
  timer_inv w L fl -> cur_size (ht w) <> 0 ->
  exists x d, L !! 0 = Some x /\ get_dup (ht w) x = Some d /\
    root_value (ht w) = Some (dup_timer_value d) /\
    active w !! dup_entry d = Some (dup_timer_value d) /\
    (forall b tb, active w !! b = Some tb -> time_le (dup_timer_value d) tb).
Proof.
  intros HI Hne. pose proof (tinv_heap _ _ _ HI) as HH.
  rewrite (inv_cur _ _ _ HH) in Hne.
  destruct L as [|x L]; [done|].
  destruct (rep_dup _ _ (inv_rep _ _ _ HH) 0 x eq_refl) as (d & Hd & _).
  destruct (rep_slot _ _ (inv_rep _ _ _ HH) 0 x eq_refl) as [Hhs _].
  exists x, d. split; [done|]. split; [done|]. split.
  { unfold root_value. rewrite (heap_at_eq _ _ _ Hhs). ored. by obind Hd. }
  split.
  { apply (active_spec _ _ _ _ _ HI). exists x, d. split; [set_solver|done]. }
  intros b tb (y & dy & [i Hi]%list_elem_of_lookup & Hdy & _ & <-)%(active_spec _ _ _ _ _ HI).
  pose proof (heap_ordered_root _ _ _ (inv_order _ _ _ HH) eq_refl i y Hi) as Hle.
  unfold node_val in Hle. by rewrite Hd, Hdy in Hle.
Qed.

Section callbacks.
Context (cb : nat -> timer_world -> timer_world).

Lemma poll_one_spec w L fl x d :
  cb_ok cb -> timer_inv w L fl -> L !! 0 = Some x -> get_dup (ht w) x = Some d ->
  exists called w1 w', poll_one cb w = Some (dup_entry d, called, w') /\
    timer_ok w1 /\ active w1 = delete (dup_entry d) (active w) /\
    timer_ok w' /\
    max_entries_per_poll (ht w') = max_entries_per_poll (ht w) /\
    max_entries_per_poll (ht w1) = max_entries_per_poll (ht w) /\
    exists lks, w' = (if called : bool then cb (dup_entry d) w1 else w1)
                       <| lock_refs := lks |>.
Proof.
  intros Hcb HI Hx Hd.
  destruct (remove_node_spec _ _ _ _ _ _ HI Hx Hd) as (w0 & L' & e & Hrm & HI0 & R).
  pose proof (removed_active _ _ _ _ _ _ _ Hd R) as Hact.
  destruct R as [HP Hee Hei Hes Hlk Hdups Hmp].
  pose proof (get_dup_lt _ _ _ Hd) as Hlt.
  assert (Hd0 : get_dup (ht w0) x =
    Some (d <| dup_copy := dup_copy d <| te_timer_id := (-1)%Z |> |>)).
  { unfold get_dup. rewrite Hdups. by rewrite list_lookup_insert_eq. }
  assert (HxL : x ∉ L').
  { pose proof (heap_rep_nodup _ _ (inv_rep _ _ _ (tinv_heap _ _ _ HI))) as Hnd.
    rewrite <- HP in Hnd. by apply NoDup_cons in Hnd as [? _]. }
  destruct (timer_inv_drop_lock _ _ _ _ _ HI0 HxL Hd0) as [HI1 Ha1].
  set (w1 := w0 <| ht := _ |>) in *.
  assert (Hok1 : timer_ok w1) by (by exists L', (x :: fl)).
  assert (He1 : entries w1 !! dup_entry d = Some (e <| te_timer_id := (-1)%Z |>))
    by (cbn; rewrite Hes; apply lookup_insert_eq).
  unfold poll_one. obind Hrm. obind Hd0. fold w1.
  cbn [dup_entry dup_grp_lock dup_copy set_field te_cb te_user_data].
  obind He1.
  set (valid := bool_decide _ && _).
  set (called := valid && _).
  exists called, w1.
  set (w2 := if called then cb (dup_entry d) w1 else w1).
  assert (H2 : timer_ok w2 /\
    max_entries_per_poll (ht w2) = max_entries_per_poll (ht w) /\
    forall l, is_Some (lock_refs w1 !! l) -> is_Some (lock_refs w2 !! l)).
  { unfold w2. destruct called; [|done].
    destruct (Hcb (dup_entry d) w1 Hok1) as (? & Hm & ?). split; [done|].
    split; [|done]. by rewrite Hm. }
  destruct H2 as ((L2 & fl2 & HI2) & Hm2 & Hl2).
  destruct (dec_ref_spec w2 L2 fl2 (if valid then dup_grp_lock d else None) HI2)
    as (lks & Hdec & HI3 & _).
  { intros l Hl. apply Hl2. cbn. rewrite Hlk.
    destruct valid; [|done]. eapply (tinv_locks _ _ _ HI); eauto.
    by eapply list_elem_of_lookup_2. }
  exists (w2 <| lock_refs := lks |>).
  split; [|split; [done|split; [by rewrite Ha1|split; [by exists L2, fl2|split; [done|split; [done|by exists lks]]]]]].
  clearbody w2 called.
  destruct (dup_grp_lock d) as [l|], valid; ored;
    first [by rewrite Hdec | injection Hdec as E; by rewrite <- E].
Qed.

(** The loop terminates without undefined behaviour, whatever well-behaved
    callbacks do. *)
Lemma poll_loop_safe fuel now count w :
  cb_ok cb -> timer_ok w ->
  count <= max_entries_per_poll (ht w) ->
  max_entries_per_poll (ht w) < fuel + count ->
  exists n (fired : list nat) w', poll_loop cb fuel now count w = Some (n, fired, w') /\
    timer_ok w' /\ n = count + length fired /\
    n <= max_entries_per_poll (ht w).
Proof.
  intros Hcb. revert count w.
  induction fuel as [|fuel IH]; intros count w Hok Hle Hf; [lia|].
  destruct Hok as (L & fl & HI). cbn [poll_loop].
  assert (Hstop : exists n (fired : list nat) w', Some (count, [], w) = Some (n, fired, w') /\
    timer_ok w' /\ n = count + length fired /\ n <= max_entries_per_poll (ht w)).
  { exists count, [], w. split; [done|]. split; [by exists L, fl|]. cbn. lia. }
  destruct (Nat.eqb_spec (cur_size (ht w)) 0) as [|Hne]; [done|].
  destruct (root_value_spec _ _ _ HI Hne) as (x & d & Hx & Hd & Hrv & _).
  obind Hrv.
  destruct (PJ_TIME_VAL_LTE _ now); [|done].
  destruct (Nat.ltb_spec count (max_entries_per_poll (ht w))); [|done].
  cbn [andb].
  destruct (poll_one_spec w L fl x d Hcb HI Hx Hd)
    as (called & w1 & w2 & -> & _ & _ & Hok2 & Hm2 & _). ored.
  destruct (IH (S count) w2) as (n & fired & w' & -> & Hok' & Hn & Hn'); [done|lia|lia|].
  ored. exists n, (dup_entry d :: fired), w'. split; [done|]. split; [done|].
  cbn. lia.
Qed.

Lemma quiet_ok : cb_quiet cb -> cb_ok cb.
Proof.
  intros Hq a w (L & fl & HI). destruct (Hq a w) as (Hh & He & Hl).
  assert (Hw : cb a w = mk_timer_world (ht w) (entries w) (lock_refs (cb a w))).
  { destruct (cb a w); cbn in *; congruence. }
  split; [|split; [by rewrite Hh|done]].
  exists L, fl. rewrite Hw. apply (timer_inv_locks _ _ _ _ HI). exact Hl.
Qed.

Lemma quiet_active a w lks :
  cb_quiet cb -> active (cb a w <| lock_refs := lks |>) = active w.
Proof.
  intros Hq. destruct (Hq a w) as (Hh & He & _). unfold active. cbn.
  by rewrite Hh, He.
Qed.

(** With callbacks that leave the heap alone, the loop meets the contract. *)
Lemma poll_loop_fires fuel now count w :
  cb_quiet cb -> timer_ok w ->
  count <= max_entries_per_poll (ht w) ->
  max_entries_per_poll (ht w) < fuel + count ->
  exists (fired : list nat) w', poll_loop cb fuel now count w = Some (count + length fired, fired, w') /\
    timer_ok w' /\ fires now (active w) fired (active w') /\
    count + length fired <= max_entries_per_poll (ht w) /\
    (count + length fired < max_entries_per_poll (ht w) ->
     forall b tb, active w' !! b = Some tb -> ~ time_le tb now).
Proof.
  intros Hq. pose proof (quiet_ok Hq) as Hcb. revert count w.
  induction fuel as [|fuel IH]; intros count w Hok Hle Hf; [lia|].
  destruct Hok as (L & fl & HI). cbn [poll_loop].
  assert (Hstop : (count < max_entries_per_poll (ht w) ->
      forall b tb, active w !! b = Some tb -> ~ time_le tb now) ->
    exists (fired : list nat) w', Some (count, [], w) = Some (count + length fired, fired, w') /\
    timer_ok w' /\ fires now (active w) fired (active w') /\
    count + length fired <= max_entries_per_poll (ht w) /\
    (count + length fired < max_entries_per_poll (ht w) ->
     forall b tb, active w' !! b = Some tb -> ~ time_le tb now)).
  { intros H. exists [], w. cbn. rewrite Nat.add_0_r. split; [done|].
    split; [by exists L, fl|]. split; [constructor|]. split; [done|exact H]. }
  destruct (Nat.eqb_spec (cur_size (ht w)) 0) as [H0|Hne].
  { apply Hstop. intros _ b tb. apply (cur_size_active _ _ _ HI) in H0.
    by rewrite H0, lookup_empty. }
  destruct (root_value_spec _ _ _ HI Hne) as (x & d & Hx & Hd & Hrv & Ha & Hmin).
  obind Hrv.
  destruct (PJ_TIME_VAL_LTE (dup_timer_value d) now) eqn:Hexp.
  2:{ cbn [andb]. apply Hstop. intros _ b tb Hb Hle'.
      assert (time_le (dup_timer_value d) now) as Hc
        by (etransitivity; [by eapply Hmin|done]).
      unfold time_le in Hc. congruence. }
  destruct (Nat.ltb_spec count (max_entries_per_poll (ht w))); [|apply Hstop; lia].
  cbn [andb].
  destruct (poll_one_spec w L fl x d Hcb HI Hx Hd)
    as (called & w1 & w2 & -> & Hok1 & Ha1 & Hok2 & Hm2 & Hm1 & lks & Hw2). ored.
  assert (Ha2 : active w2 = delete (dup_entry d) (active w)).
  { rewrite <- Ha1, Hw2. destruct called; [by apply quiet_active|done]. }
  destruct (IH (S count) w2) as (fired & w' & -> & Hok' & Hf' & Hn & Hrest);
    [done|lia|lia|].
  ored. exists (dup_entry d :: fired), w'. cbn [length].
  replace (count + S (length fired)) with (S count + length fired) by lia.
  rewrite Hm2 in *. split; [done|]. split; [done|].
  split; [|split; [lia|exact Hrest]].
  eapply fires_cons; [exact Ha|exact Hexp|exact Hmin|by rewrite <- Ha2].
Qed.
End callbacks.

(** [next_delay]: the time to the earliest entry left, never negative. *)
Lemma poll_next_delay_spec w now :
  timer_ok w ->
  exists nd, poll_next_delay (ht w) now = Some nd /\
    (active w = ∅ -> nd = max_delay) /\
    (forall a t, active w !! a = Some t ->
       (forall b tb, active w !! b = Some tb -> time_le t tb) ->
       PJ_TIME_VAL_MSEC nd =
         Z.max 0 (PJ_TIME_VAL_MSEC t - PJ_TIME_VAL_MSEC now)).
Proof.
  intros (L & fl & HI). unfold poll_next_delay.
  destruct (Nat.eqb_spec (cur_size (ht w)) 0) as [H0|Hne].
  - apply (cur_size_active _ _ _ HI) in H0. eexists. split; [done|].
    split; [done|]. intros a t. by rewrite H0, lookup_empty.
  - destruct (root_value_spec _ _ _ HI Hne) as (x & d & Hx & Hd & Hrv & Ha & Hmin).
    obind Hrv. eexists. split; [reflexivity|]. split.
    { intros E. by rewrite E in Ha. }
    intros a t Hat Hmint.
    assert (t = dup_timer_value d) as ->.
    { pose proof (Hmint _ _ Ha) as H1. pose proof (Hmin _ _ Hat) as H2.
      rewrite time_le_spec in H1, H2. destruct t, (dup_timer_value d); cbn in *.
      f_equal; lia. }
    destruct (time_sub_spec (dup_timer_value d) now) as [(Hb & Hp & Hn) <-].
    unfold PJ_TIME_VAL_MSEC.
    destruct (Z.ltb_spec (sec (PJ_TIME_VAL_SUB (dup_timer_value d) now)) 0),
      (Z.ltb_spec (msec (PJ_TIME_VAL_SUB (dup_timer_value d) now)) 0); cbn; lia.
Qed.

Lemma create_inv size es lks :
  (forall a e, es !! a = Some e -> (te_timer_id e < 1)%Z) ->
  timer_ok (mk_timer_world (pj_timer_heap_create size) es lks) /\
  active (mk_timer_world (pj_timer_heap_create size) es lks) = ∅.
Proof.
  intros Hes. split.
  - exists [], (seq 1 (size + 1)).
    assert (Hids : timer_ids (pj_timer_heap_create size) =
      [(-1)%Z] ++ ((fun i => (- Z.of_nat (i + 1))%Z) <$> seq 1 (size + 1)))
      by (cbn; by replace (size + 2) with (S (size + 1)) by lia).
    split.
    + split; cbn -[seq replicate]; rewrite ?length_replicate, ?length_fmap, ?length_seq;
        try done; try lia.
      * split; [cbn; lia|by intros i x ?..].
      * cbn [timer_ids pj_timer_heap_create] in Hids. rewrite Hids.
        pose proof (free_chain_grow [(-1)%Z] 1 [] 1 (size + 1) eq_refl
          ltac:(lia) eq_refl) as Hc.
        cbn [app] in Hc. replace (size + 2) with (1 + (size + 1)) by lia. exact Hc.
      * apply NoDup_seq.
    + intros id d Hin. set_solver.
    + intros a e Ha Hge. specialize (Hes a e Ha). lia.
    + intros id d l Hin. set_solver.
  - apply map_eq. intros a. rewrite active_lookup, lookup_empty. cbn [entries].
    destruct (es !! a) as [e|] eqn:E; [|done]. ored.
    apply deadline_inactive. eauto.
Qed.
