(* ===== verification/TimerSpec.v ===== *)
(** * The contract of the timer heap

    The theorems clients rely on, stated on the abstract state [active w]
    (running entries and their deadlines), the two defects modelling found,
    and the [TimerService] interface through which other components use the
    heap. *)

From S2P Require Import Prelude TimeVal Timer TimerInv TimerOps.
Local Open Scope nat_scope.

(** ** Definitions *)

(** The calls an application makes, with a pool that does not run out of
    memory, expiry callbacks that keep the heap valid, and entries that are
    initialised before they are scheduled. *)
Inductive timer_step (w : timer_world) : timer_world -> Prop :=
| step_schedule now a e delay id_val lk w' r :
    entries w !! a = Some e ->
    (forall l, lk = Some l -> is_Some (lock_refs w !! l)) ->
    pj_timer_heap_schedule_w_grp_lock w now a delay id_val lk pool_ok
      = Some (r, w') ->
    timer_step w w'
| step_cancel stray a w' r :
    is_Some (entries w !! a) ->
    pj_timer_heap_cancel stray w a = Some (r, w') -> timer_step w w'
| step_cancel_if_active stray a id_val w' r :
    is_Some (entries w !! a) ->
    pj_timer_heap_cancel_if_active stray w a id_val = Some (r, w') ->
    timer_step w w'
| step_poll cb now n nd fired w' :
    cb_ok cb -> pj_timer_heap_poll cb w now = Some (n, nd, fired, w') ->
    timer_step w w'.

Inductive timer_init : timer_world -> Prop :=
| timer_init_create size es lks :
    (forall a e, es !! a = Some e -> (te_timer_id e < 1)%Z) ->
    timer_init (mk_timer_world (pj_timer_heap_create size) es lks).

(** What a component that only schedules and cancels timers knows of them.
    [ts_armed] maps the entries that are scheduled to their deadlines,
    [ts_id] the entries that exist to their [id] fields. *)
Class TimerService (TW : Type) := {
  ts_ok : TW -> Prop;
  ts_armed : TW -> gmap nat pj_time_val;
  ts_id : TW -> gmap nat Z;
  ts_schedule : TW -> pj_time_val -> nat -> pj_time_val -> Z ->
                option (Z * TW);
  ts_cancel : TW -> nat -> Z -> option (Z * TW);
  ts_set_id : TW -> nat -> Z -> TW;
  ts_new : TW -> nat -> TW;
  (* scheduling an idle entry *)
  ts_schedule_ok w now a delay id_val :
    ts_ok w -> is_Some (ts_id w !! a) -> ts_armed w !! a = None ->
    exists w', ts_schedule w now a delay id_val = Some (PJ_SUCCESS, w') /\
      ts_ok w' /\ ts_armed w' = <[a := PJ_TIME_VAL_ADD now delay]> (ts_armed w) /\
      ts_id w' = <[a := id_val]> (ts_id w);
  (* scheduling an armed entry is refused *)
  ts_schedule_armed w now a delay id_val :
    ts_ok w -> is_Some (ts_id w !! a) -> is_Some (ts_armed w !! a) ->
    ts_schedule w now a delay id_val = Some (PJ_EINVALIDOP, w);
  (* cancelling sets the id only of an armed entry *)
  ts_cancel_ok w a id_val :
    ts_ok w -> is_Some (ts_id w !! a) ->
    exists w', ts_cancel w a id_val =
        Some ((if bool_decide (is_Some (ts_armed w !! a)) then 1 else 0)%Z, w') /\
      ts_ok w' /\ ts_armed w' = delete a (ts_armed w) /\
      ts_id w' = (if bool_decide (is_Some (ts_armed w !! a))
                  then <[a := id_val]> (ts_id w) else ts_id w);
  (* the owner of an entry may assign its id *)
  ts_set_id_ok w a id_val :
    ts_ok w -> is_Some (ts_id w !! a) ->
    ts_ok (ts_set_id w a id_val) /\
    ts_armed (ts_set_id w a id_val) = ts_armed w /\
    ts_id (ts_set_id w a id_val) = <[a := id_val]> (ts_id w);
  (* a new entry is idle with id 0 *)
  ts_new_ok w a :
    ts_ok w -> ts_id w !! a = None ->
    ts_ok (ts_new w a) /\ ts_armed (ts_new w a) = ts_armed w /\
    ts_id (ts_new w a) = <[a := 0%Z]> (ts_id w);
  (* armed entries exist *)
  ts_armed_id w a : ts_ok w -> is_Some (ts_armed w !! a) -> is_Some (ts_id w !! a)
}.

(** The heap as a [TimerService] whose timers hold the group lock [lk]. *)
Definition heap_schedule (lk : option nat) (w : timer_world)
    (now : pj_time_val) (a : nat) (delay : pj_time_val) (id_val : Z) :=
  pj_timer_heap_schedule_w_grp_lock w now a delay id_val lk pool_ok.

Definition heap_service_ok (lk : option nat) (w : timer_world) : Prop :=
  timer_ok w /\ map_Forall (fun _ e => te_cb e <> None) (entries w) /\
  forall l, lk = Some l -> is_Some (lock_refs w !! l).

Definition set_te_id (w : timer_world) (a : nat) (id_val : Z) : timer_world :=
  w <| entries := alter (fun e => e <| te_id := id_val |>) a (entries w) |>.

(** A zero-initialised entry whose callback is then set. *)
Definition new_te (w : timer_world) (a : nat) : timer_world :=
  w <| entries := <[a := mk_timer_entry a 0 (Some 0) 0]> (entries w) |>.

(** A heap of the given size, one initialised entry and one group lock: the
    world the theorems are instantiated at. *)
Definition demo_world (size : nat) : timer_world :=
  mk_timer_world (pj_timer_heap_create size)
    {[7 := pj_timer_entry_init 0 0 1]} {[3 := 1%Z]}.

(** The same with the entry scheduled for 5.5 s. *)
Definition demo_armed : timer_world :=
  match heap_schedule (Some 3) (demo_world 1) (mk_time_val 5 0) 7
          (mk_time_val 0 500) 1 with
  | Some (_, w) => w
  | None => demo_world 1
  end.

(** ** Lemmas *)

Lemma running_active w a e :
  timer_ok w -> entries w !! a = Some e ->
  pj_timer_entry_running e = bool_decide (is_Some (active w !! a)).
Proof.
  intros (L & fl & HI) Ha. rewrite active_lookup, Ha. ored.
  unfold deadline. destruct (pj_timer_entry_running e) eqn:Hr; symmetry.
  - apply bool_decide_eq_true. unfold pj_timer_entry_running in Hr. zbool.
    destruct (tinv_running _ _ _ HI a e Ha Hr) as (x & d & _ & -> & Hd & _).
    rewrite zlookup_nat. unfold get_dup in Hd. rewrite Hd. by eexists.
  - by apply bool_decide_eq_false, is_Some_None.
Qed.

Lemma idle_not_running w a e :
  timer_ok w -> entries w !! a = Some e -> active w !! a = None ->
  (te_timer_id e < 1)%Z.
Proof.
  intros Hok Ha Hn. pose proof (running_active _ _ _ Hok Ha) as Hr.
  rewrite Hn in Hr. rewrite (bool_decide_eq_false_2 _ is_Some_None) in Hr.
  unfold pj_timer_entry_running in Hr. zbool. lia.
Qed.

Lemma schedule_ok w now a e delay set_id id_val lk :
  timer_ok w -> entries w !! a = Some e -> te_cb e <> None ->
  active w !! a = None -> (forall l, lk = Some l -> is_Some (lock_refs w !! l)) ->
  exists w' e',
    schedule_w_grp_lock w now a delay set_id id_val lk pool_ok =
      Some (PJ_SUCCESS, w') /\ timer_ok w' /\
    scheduled w w' a e e' (PJ_TIME_VAL_ADD now delay) lk /\
    te_id e' = if set_id then id_val else te_id e.
Proof.
  intros Hok Ha Hcb Hn Hlk.
  pose proof (idle_not_running _ _ _ Hok Ha Hn) as Hid.
  destruct Hok as (L & fl & HI).
  destruct (schedule_inv_spec w now a e delay set_id id_val lk L fl HI Ha Hcb Hid Hlk)
    as (w' & e' & L' & fl' & ? & ? & ? & ?).
  exists w', e'. split; [done|]. split; [by exists L', fl'|done].
Qed.

Lemma schedule_running w now a e delay set_id id_val lk pool :
  entries w !! a = Some e -> te_cb e <> None ->
  pj_timer_entry_running e = true ->
  schedule_w_grp_lock w now a delay set_id id_val lk pool = Some (PJ_EINVALIDOP, w).
Proof.
  intros Ha Hcb Hr. unfold schedule_w_grp_lock. obind Ha.
  rewrite bool_decide_false by done. by rewrite Hr.
Qed.

(** A failure of [grow_heap] after [pop_freelist]: the popped id [x] stays on
    the entry although its slot in [timer_ids] still says it is free. *)
Lemma schedule_nomem w now a e delay set_id id_val lk pool :
  timer_ok w -> entries w !! a = Some e -> te_cb e <> None ->
  (te_timer_id e < 1)%Z -> max_size (ht w) <= cur_size (ht w) + 2 ->
  (alloc_heap pool && alloc_dups pool)%bool = false ->
  exists w' x,
    schedule_w_grp_lock w now a delay set_id id_val lk pool = Some (PJ_ENOMEM, w') /\
    1 <= x /\ (exists v, timer_ids (ht w') !! x = Some v /\ (v < 0)%Z) /\
    entries w' !! a = Some (e <| te_timer_id := Z.of_nat x |>) /\
    cur_size (ht w') = cur_size (ht w).
Proof.
  intros (L & fl & HI) Ha Hcb Hid Hfull Hpool.
  pose proof (tinv_heap _ _ _ HI) as HH.
  pose proof (inv_spare _ _ _ HH). pose proof (inv_cur _ _ _ HH).
  pose proof (inv_count _ _ _ HH). pose proof (inv_free _ _ _ HH) as Hfree.
  destruct fl as [|x fl]; [cbn in *; lia|].
  destruct Hfree as (Hf & Hx & v & Hv & Hneg & _).
  set (h1 := ht w <| timer_ids_freelist := (- v)%Z |>).
  set (e1 := e <| te_timer_id := Z.of_nat x |>).
  assert (Hpop : pop_freelist (ht w) = Some (Z.of_nat x, h1)).
  { unfold pop_freelist. rewrite Hf, zlookup_nat. obind Hv. done. }
  assert (Hg : grow_heap h1 pool = (PJ_ENOMEM, h1)).
  { unfold grow_heap. destruct (alloc_heap pool), (alloc_dups pool); done. }
  assert (Hs : schedule_entry w a (PJ_TIME_VAL_ADD now delay) pool =
    Some (PJ_ENOMEM, mk_timer_world h1 (<[a := e1]> (entries w)) (lock_refs w))).
  { unfold schedule_entry, insert_node.
    destruct (Nat.ltb_spec (cur_size (ht w)) (max_size (ht w))); [|lia].
    obind Hpop. obind Ha. cbn [ht set_field].
    destruct (Nat.leb_spec (max_size h1) (cur_size h1 + 2)); [|cbn in *; lia].
    by rewrite Hg. }
  exists (mk_timer_world h1 (<[a := e1]> (entries w)) (lock_refs w)), x.
  split; [|split; [done|split; [by exists v|split]]].
  - unfold schedule_w_grp_lock. obind Ha. rewrite bool_decide_false by done.
    unfold pj_timer_entry_running. destruct (Z.leb_spec 1 (te_timer_id e)); [lia|].
    by obind Hs.
  - apply lookup_insert_eq.
  - done.
Qed.

Lemma running_free_not_ok w a e x :
  entries w !! a = Some (e <| te_timer_id := Z.of_nat x |>) -> 1 <= x ->
  (exists v, timer_ids (ht w) !! x = Some v /\ (v < 0)%Z) -> ~ timer_ok w.
Proof.
  intros Ha Hx (v & Hv & Hneg) (L & fl & HI).
  destruct (tinv_running _ _ _ HI _ _ Ha) as (y & d & Hin & Hy & _); [cbn; lia|].
  cbn in Hy. apply Nat2Z.inj in Hy as <-.
  apply list_elem_of_lookup in Hin as [i Hi].
  destruct (rep_slot _ _ (inv_rep _ _ _ (tinv_heap _ _ _ HI)) _ _ Hi) as [_ Hslot].
  rewrite Hslot in Hv. simplify_eq. lia.
Qed.

Lemma schedule_no_cb w now a e delay set_id id_val lk pool :
  entries w !! a = Some e -> te_cb e = None ->
  schedule_w_grp_lock w now a delay set_id id_val lk pool = Some (PJ_EINVAL, w).
Proof.
  intros Ha Hcb. unfold schedule_w_grp_lock. obind Ha.
  by rewrite bool_decide_true.
Qed.

Lemma cancel_ok stray w a e flags id_val :
  timer_ok w -> entries w !! a = Some e ->
  is_Some (active w !! a) \/ stray <> None ->
  exists w', cancel_timer stray w a flags id_val =
      Some ((if bool_decide (is_Some (active w !! a)) then 1 else 0)%Z, w') /\
    timer_ok w' /\ cancelled w w' a e flags id_val.
Proof.
  intros Hok Ha Hst. rewrite <- (bool_decide_eq_true (is_Some _)) in Hst.
  rewrite <- (running_active _ _ _ Hok Ha) in *.
  destruct Hok as (L & fl & HI).
  destruct (cancel_timer_spec stray w L fl a e flags id_val HI Ha Hst)
    as (w' & L' & fl' & ? & ? & ?).
  exists w'. split; [done|]. split; [by exists L', fl'|done].
Qed.

(** A cancellation that is defined was of an active entry, or read a value. *)
Lemma cancel_defined stray w a e flags id_val r w' :
  timer_ok w -> entries w !! a = Some e ->
  cancel_timer stray w a flags id_val = Some (r, w') ->
  is_Some (active w !! a) \/ stray <> None \/
    exists l, read_dup_lock None (ht w) (te_timer_id e) = Some l.
Proof.
  intros Hok Ha. unfold cancel_timer. rewrite Ha. cbn [mbind option_bind]. unfold read_dup_lock.
  destruct (mjoin _); [by eauto|]. destruct stray; [by auto|done].
Qed.

(** Only the result of the read matters. *)
Lemma cancel_timer_stray l w a e flags id_val :
  entries w !! a = Some e -> read_dup_lock None (ht w) (te_timer_id e) = Some l ->
  cancel_timer None w a flags id_val = cancel_timer (Some l) w a flags id_val.
Proof.
  intros Ha. unfold cancel_timer. rewrite Ha. cbn [mbind option_bind]. unfold read_dup_lock.
  by destruct (mjoin _).
Qed.

Lemma cancel_step_ok stray w a e flags id_val r w' :
  timer_ok w -> entries w !! a = Some e ->
  cancel_timer stray w a flags id_val = Some (r, w') -> timer_ok w'.
Proof.
  intros Hok Ha Hs. destruct stray as [l|].
  { destruct (cancel_ok (Some l) w a e flags id_val Hok Ha) as (w2 & Hc & Hok' & _); [by right|].
    rewrite Hc in Hs. by simplify_eq. }
  destruct (cancel_defined _ _ _ _ _ _ _ _ Hok Ha Hs) as [Hact|[?|[l Hl]]]; [|done|].
  - destruct (cancel_ok None w a e flags id_val Hok Ha) as (w2 & Hc & Hok' & _); [by left|].
    rewrite Hc in Hs. by simplify_eq.
  - rewrite (cancel_timer_stray l _ _ _ _ _ Ha Hl) in Hs.
    destruct (cancel_ok (Some l) w a e flags id_val Hok Ha) as (w2 & Hc & Hok' & _); [by right|].
    rewrite Hc in Hs. by simplify_eq.
Qed.

Lemma poll_ok cb w now :
  cb_ok cb -> timer_ok w ->
  exists n nd fired w', pj_timer_heap_poll cb w now = Some (n, nd, fired, w') /\
    timer_ok w' /\ n = length fired /\ n <= max_entries_per_poll (ht w).
Proof.
  intros Hcb Hok. unfold pj_timer_heap_poll.
  destruct (Nat.eqb_spec (cur_size (ht w)) 0).
  { exists 0, max_delay, [], w. split; [done|]. split; [done|]. cbn. lia. }
  destruct (poll_loop_safe cb (S (max_entries_per_poll (ht w))) now 0 w)
    as (n' & fired & w' & -> & Hok' & Hn & Hle); [done|done|lia|lia|]. ored.
  destruct (poll_next_delay_spec w' now Hok') as (nd & -> & _). ored.
  exists n', nd, fired, w'. split; [done|]. split; [done|]. lia.
Qed.

Lemma timer_step_ok w w' : timer_ok w -> timer_step w w' -> timer_ok w'.
Proof.
  intros Hok [now a e delay id_val lk w1 r Ha Hlk Hs
             |stray a w1 r [e Ha] Hs|stray a id_val w1 r [e Ha] Hs
             |cb now n nd fired w1 Hcb Hs].
  - unfold pj_timer_heap_schedule_w_grp_lock in Hs.
    destruct (te_cb e) as [c|] eqn:Hc.
    2:{ erewrite schedule_no_cb in Hs by done. by simplify_eq. }
    destruct (active w !! a) eqn:Hact.
    + erewrite schedule_running in Hs; [by simplify_eq|done|congruence|].
      rewrite (running_active w a e) by done.
      apply bool_decide_eq_true. by rewrite Hact.
    + destruct (schedule_ok w now a e delay true id_val lk Hok Ha)
        as (w2 & e' & Hs' & Hok' & _); [congruence|done|done|].
      rewrite Hs' in Hs. by simplify_eq.
  - by eapply cancel_step_ok.
  - by eapply cancel_step_ok.
  - destruct (poll_ok cb w now Hcb Hok) as (? & ? & ? & w2 & Hp & Hok' & _).
    rewrite Hp in Hs. by simplify_eq.
Qed.

Lemma set_te_id_ok w a id_val :
  timer_ok w -> is_Some (entries w !! a) ->
  timer_ok (set_te_id w a id_val) /\ active (set_te_id w a id_val) = active w.
Proof.
  intros (L & fl & HI) [e Ha].
  destruct (timer_inv_set_te_id w L fl a e id_val HI Ha) as [HI' Hact].
  assert (set_te_id w a id_val =
    w <| entries := <[a := e <| te_id := id_val |>]> (entries w) |>) as ->.
  { unfold set_te_id.
    assert (alter (fun e => e <| te_id := id_val |>) a (entries w) =
      <[a := e <| te_id := id_val |>]> (entries w)) as ->; [|done].
    apply map_eq. intros b. destruct (decide (a = b)) as [->|].
    - by rewrite lookup_alter_eq, lookup_insert_eq, Ha.
    - by rewrite lookup_alter_ne, lookup_insert_ne. }
  split; [by exists L, fl|done].
Qed.

Lemma new_te_ok w a :
  timer_ok w -> entries w !! a = None ->
  timer_ok (new_te w a) /\ active (new_te w a) = active w.
Proof.
  intros (L & fl & [HH He Hr Hl]) Ha. split.
  - exists L, fl. split; cbn; [done| | |done].
    + intros y dy Hy Hdy. destruct (He _ _ Hy Hdy) as (ey & Hey & Hyid).
      rewrite lookup_insert_ne by congruence. by eauto.
    + intros b eb Hb Hge. rewrite lookup_insert in Hb. case_decide; [|by eauto].
      simplify_eq. cbn in Hge. lia.
  - apply map_eq. intros b. rewrite !active_lookup. cbn [entries ht set_field new_te].
    rewrite lookup_insert. case_decide; [subst; by rewrite Ha|done].
Qed.

(** ** The heap implements the interface *)

#[export, refine] Instance heap_service (lk junk : option nat)
    : TimerService timer_world := {|
  ts_ok := heap_service_ok lk;
  ts_armed := active;
  ts_id w := te_id <$> entries w;
  ts_schedule := heap_schedule lk;
  ts_cancel := pj_timer_heap_cancel_if_active (Some junk);
  ts_set_id := set_te_id;
  ts_new := new_te
|}.
Proof.
  - intros w now a delay id_val (Hok & Hcb & Hlk) [i Hi] Hn.
    rewrite lookup_fmap in Hi. apply fmap_Some in Hi as (e & Ha & ->).
    pose proof (Hcb _ _ Ha) as Hcbe.
    destruct (schedule_ok w now a e delay true id_val lk Hok Ha Hcbe Hn Hlk)
      as (w' & e' & Hs & Hok' & [Hes Hr Hc Hd Hact Hp Hl] & Hid).
    exists w'. split; [exact Hs|]. split; [split; [done|split]|split; [done|]].
    + rewrite Hes. apply map_Forall_insert_2; [congruence|done].
    + intros l ->. rewrite Hl. rewrite lookup_alter_eq. by apply fmap_is_Some, Hlk.
    + by rewrite Hes, fmap_insert, Hid.
  - intros w now a delay id_val (Hok & Hcb & _) [i Hi] Hs.
    rewrite lookup_fmap in Hi. apply fmap_Some in Hi as (e & Ha & ->).
    eapply schedule_running; [exact Ha|by eapply Hcb|].
    rewrite (running_active w a e) by done. by apply bool_decide_eq_true.
  - intros w a id_val (Hok & Hcb & Hlk) [i Hi].
    rewrite lookup_fmap in Hi. apply fmap_Some in Hi as (e & Ha & ->).
    destruct (cancel_ok (Some junk) w a e (Z.lor F_SET_ID F_DONT_ASSERT) id_val Hok Ha)
      as (w' & Hc & Hok' & [Hact Hes Hp Hl]); [by right|].
    exists w'. split; [exact Hc|]. split; [split; [done|split]|split; [done|]].
    + rewrite Hes. apply map_Forall_insert_2; [|done].
      case_match; cbn; by eapply Hcb.
    + eauto.
    + rewrite Hes, fmap_insert, (running_active w a e) by done.
      change (Z.land (Z.lor F_SET_ID F_DONT_ASSERT) F_SET_ID =? 0)%Z with false.
      rewrite andb_true_r. case_bool_decide; [done|]. cbn.
      apply map_eq. intros b. destruct (decide (a = b)) as [->|].
      * by rewrite lookup_insert_eq, lookup_fmap, Ha.
      * by rewrite lookup_insert_ne.
  - intros w a id_val (Hok & Hcb & Hlk) Hi.
    rewrite lookup_fmap, fmap_is_Some in Hi.
    destruct (set_te_id_ok w a id_val Hok Hi) as [Hok' Hact].
    split; [split; [done|split]|split; [done|]].
    + intros b e Hb. unfold set_te_id in Hb. cbn in Hb.
      destruct (decide (a = b)) as [->|].
      * rewrite lookup_alter_eq in Hb. apply fmap_Some in Hb as (e0 & H0 & ->).
        by apply Hcb in H0.
      * rewrite lookup_alter_ne in Hb by done. by apply Hcb in Hb.
    + exact Hlk.
    + apply map_eq. intros b. unfold set_te_id. cbn. rewrite lookup_fmap.
      destruct (decide (a = b)) as [->|].
      * destruct Hi as [e He]. by rewrite lookup_insert_eq, lookup_alter_eq, He.
      * by rewrite lookup_alter_ne, lookup_insert_ne, lookup_fmap.
  - intros w a (Hok & Hcb & Hlk) Hn. rewrite lookup_fmap in Hn.
    apply fmap_None in Hn. destruct (new_te_ok w a Hok Hn) as [Hok' Hact].
    split; [split; [done|split; [|exact Hlk]]|split; [done|]].
    + cbn. by apply map_Forall_insert_2.
    + cbn. by rewrite fmap_insert.
  - intros w a _ Hs. rewrite active_lookup in Hs. rewrite lookup_fmap.
    destruct (entries w !! a); [by eexists|]. by destruct Hs.
Defined.

(** ** Properties *)

(** C1: scheduling an initialised entry on a heap whose pool can grow.  A
    running entry is refused with [PJ_EINVALIDOP] and nothing changes; an
    idle one becomes active with the deadline [now + delay], gets the
    requested id, its group lock is referenced once, no other entry, no other
    deadline is touched, and the heap invariant is kept. *)
Theorem timer_schedule_refines w now a e delay id_val lk :
  timer_ok w -> entries w !! a = Some e -> te_cb e <> None ->
  (forall l, lk = Some l -> is_Some (lock_refs w !! l)) ->
  exists r w',
    pj_timer_heap_schedule_w_grp_lock w now a delay id_val lk pool_ok = Some (r, w') /\
    timer_ok w' /\
    (is_Some (active w !! a) -> r = PJ_EINVALIDOP /\ w' = w) /\
    (active w !! a = None ->
       r = PJ_SUCCESS /\
       active w' = <[a := PJ_TIME_VAL_ADD now delay]> (active w) /\
       (exists e', entries w' = <[a := e']> (entries w) /\ te_id e' = id_val /\
          te_cb e' = te_cb e /\ te_user_data e' = te_user_data e) /\
       lock_refs w' = match lk with
         | Some l => alter (fun n => (n + 1)%Z) l (lock_refs w)
         | None => lock_refs w
         end).
Proof.
  intros Hok Ha Hcb Hlk. destruct (active w !! a) as [t|] eqn:Hact.
  - exists PJ_EINVALIDOP, w. split; [|done].
    eapply schedule_running; [done..|]. rewrite (running_active w a e) by done.
    apply bool_decide_eq_true. by rewrite Hact.
  - destruct (schedule_ok w now a e delay true id_val lk Hok Ha Hcb Hact Hlk)
      as (w' & e' & Hs & Hok' & [Hes _ Hc Hd Hact' _ Hl] & Hid).
    exists PJ_SUCCESS, w'. split; [exact Hs|]. split; [done|].
    split; [by intros []|]. intros _. repeat split; try done. by exists e'.
Qed.

(** C32: cancelling an entry.  The count returned says whether the entry was
    active; afterwards it is not, no other deadline changes, its timer id is
    invalid, and [pj_timer_heap_cancel_if_active] has set its id exactly when
    it was active.  For an entry that is not active this holds if the stray
    read of a group lock (see [read_dup_lock]) yields some value, and the
    result does not depend on the value; if the read is undefined, so is the
    cancellation of an entry that was initialised or cancelled before. *)
Theorem timer_cancel_refines stray w a e id_val :
  timer_ok w -> entries w !! a = Some e ->
  (is_Some (active w !! a) \/ stray <> None ->
   exists w', pj_timer_heap_cancel_if_active stray w a id_val =
      Some ((if bool_decide (is_Some (active w !! a)) then 1 else 0)%Z, w') /\
    timer_ok w' /\ active w' = delete a (active w) /\
    entries w' = <[a := (if bool_decide (is_Some (active w !! a))
                         then e <| te_id := id_val |> else e)
                        <| te_timer_id := (-1)%Z |>]> (entries w)) /\
  (active w !! a = None -> stray = None -> (te_timer_id e < 0)%Z ->
   pj_timer_heap_cancel_if_active stray w a id_val = None).
Proof.
  intros Hok Ha. split.
  - intros Hst.
    destruct (cancel_ok stray w a e (Z.lor F_SET_ID F_DONT_ASSERT) id_val Hok Ha Hst)
      as (w' & Hc & Hok' & [Hact Hes _ _]).
    exists w'. split; [exact Hc|]. split; [done|]. split; [done|].
    rewrite Hes, (running_active w a e) by done.
    change (Z.land (Z.lor F_SET_ID F_DONT_ASSERT) F_SET_ID =? 0)%Z with false.
    by rewrite andb_true_r.
  - intros _ -> Hid. unfold pj_timer_heap_cancel_if_active, cancel_timer, read_dup_lock.
    rewrite Ha. cbn [mbind option_bind].
    assert (zlookup (timer_dups (ht w)) (te_timer_id e) = None) as ->; [|done].
    unfold zlookup. by destruct (te_timer_id e).
Qed.

(** C2: a poll at time [now], with callbacks that do not touch the heap,
    removes entries in the order of their deadlines, each one expired; it
    stops only when it has processed [max_entries_per_poll] of them or none
    left is expired, and reports the time to the earliest entry left. *)
Theorem timer_poll_fires cb w now :
  cb_quiet cb -> timer_ok w ->
  exists nd fired w',
    pj_timer_heap_poll cb w now = Some (length fired, nd, fired, w') /\
    timer_ok w' /\ fires now (active w) fired (active w') /\
    length fired <= max_entries_per_poll (ht w) /\
    (length fired < max_entries_per_poll (ht w) ->
     forall b tb, active w' !! b = Some tb -> ~ time_le tb now) /\
    (active w' = ∅ -> nd = max_delay) /\
    (forall a t, active w' !! a = Some t ->
       (forall b tb, active w' !! b = Some tb -> time_le t tb) ->
       PJ_TIME_VAL_MSEC nd =
         Z.max 0 (PJ_TIME_VAL_MSEC t - PJ_TIME_VAL_MSEC now)).
Proof.
  intros Hq Hok. unfold pj_timer_heap_poll.
  destruct (Nat.eqb_spec (cur_size (ht w)) 0) as [H0|Hne].
  - assert (Hemp : active w = ∅)
      by (destruct Hok as (L & fl & HI); by apply (cur_size_active _ _ _ HI)).
    exists max_delay, [], w. split; [done|]. split; [done|].
    split; [constructor|]. split; [cbn; lia|].
    rewrite Hemp. split; [|split; [done|]]; intros * **; set_solver.
  - destruct (poll_loop_fires cb (S (max_entries_per_poll (ht w))) now 0 w)
      as (fired & w' & -> & Hok' & Hf & Hle & Hrest); [done|done|lia|lia|]. ored.
    destruct (poll_next_delay_spec w' now Hok') as (nd & -> & Hnd). ored.
    by exists nd, fired, w'.
Qed.

(** whatever the expiry callbacks do to a valid heap (schedule, cancel,
    even re-entrantly poll), as long as they leave it valid, the poll
    terminates, makes no access out of bounds, removes at most
    [max_entries_per_poll] entries and leaves the heap valid. *)
Theorem timer_poll_safe cb w now :
  cb_ok cb -> timer_ok w ->
  exists n nd fired w', pj_timer_heap_poll cb w now = Some (n, nd, fired, w') /\
    timer_ok w' /\ n = length fired /\ n <= max_entries_per_poll (ht w).
Proof. apply poll_ok. Qed.

(** C33: every world reachable from [pj_timer_heap_create] by the calls of the
    API satisfies the heap invariant. *)
Theorem timer_reachable_ok w : reach timer_step timer_init w -> timer_ok w.
Proof.
  apply reach_invariant; [|apply timer_step_ok].
  intros _ [size es lks Hes]. by apply create_inv.
Qed.

(** when [grow_heap] runs out of memory, scheduling an idle entry fails
    with [PJ_ENOMEM], but the entry has already been given an id: it now
    counts as running although it is not in the heap, so that the invariant
    is lost and every later attempt to schedule it is refused. *)
Theorem timer_schedule_nomem_leaks w now a e delay id_val lk pool :
  timer_ok w -> entries w !! a = Some e -> te_cb e <> None ->
  active w !! a = None -> max_size (ht w) <= cur_size (ht w) + 2 ->
  (alloc_heap pool && alloc_dups pool)%bool = false ->
  exists w',
    pj_timer_heap_schedule_w_grp_lock w now a delay id_val lk pool =
      Some (PJ_ENOMEM, w') /\
    cur_size (ht w') = cur_size (ht w) /\ ~ timer_ok w' /\
    forall now' delay' pool',
      pj_timer_heap_schedule_w_grp_lock w' now' a delay' id_val lk pool' =
        Some (PJ_EINVALIDOP, w').
Proof.
  intros Hok Ha Hcb Hact Hfull Hpool.
  pose proof (idle_not_running _ _ _ Hok Ha Hact) as Hid.
  destruct (schedule_nomem w now a e delay true id_val lk pool Hok Ha Hcb Hid
    Hfull Hpool) as (w' & x & Hs & Hx & Hidx & He' & Hcur).
  exists w'. split; [exact Hs|]. split; [done|].
  split; [by eapply running_free_not_ok|].
  intros now' delay' pool'. eapply schedule_running; [exact He'|done|].
  unfold pj_timer_entry_running. cbn. zbool. apply Z.leb_le. lia.
Qed.

(** cancelling an entry that is not scheduled reads
    [ht->timer_dups[-1]] before the id is checked: the read of the group lock
    is out of the array for every heap, and undefined. *)
Theorem timer_cancel_reads_out_of_bounds w a id data cb :
  entries w !! a = Some (pj_timer_entry_init id data cb) ->
  pj_timer_heap_cancel None w a = None.
Proof. intros Ha. unfold pj_timer_heap_cancel, cancel_timer. by rewrite Ha. Qed.

(** ** Witnesses *)

Lemma demo_entries a e :
  ({[7 := pj_timer_entry_init 0 0 1]} : gmap nat pj_timer_entry) !! a = Some e ->
  (te_timer_id e < 1)%Z.
Proof. intros [<- <-]%lookup_singleton_Some. cbn. lia. Qed.

Lemma demo_ok size : timer_ok (demo_world size).
Proof. apply create_inv, demo_entries. Qed.

Lemma demo_active size : active (demo_world size) = ∅.
Proof. apply create_inv, demo_entries. Qed.

Lemma timer_schedule_refines_witness :
  exists r w',
    pj_timer_heap_schedule_w_grp_lock (demo_world 1) (mk_time_val 5 0) 7
      (mk_time_val 0 500) 1 (Some 3) pool_ok = Some (r, w') /\
    timer_ok w' /\
    (is_Some (active (demo_world 1) !! 7) -> r = PJ_EINVALIDOP /\ w' = demo_world 1) /\
    (active (demo_world 1) !! 7 = None ->
       r = PJ_SUCCESS /\
       active w' = <[7 := PJ_TIME_VAL_ADD (mk_time_val 5 0) (mk_time_val 0 500)]>
                     (active (demo_world 1)) /\
       (exists e', entries w' = <[7 := e']> (entries (demo_world 1)) /\
          te_id e' = 1%Z /\ te_cb e' = Some 1 /\ te_user_data e' = 0) /\
       lock_refs w' = alter (fun n => (n + 1)%Z) 3 (lock_refs (demo_world 1))).
Proof.
  apply (timer_schedule_refines (demo_world 1) (mk_time_val 5 0) 7
           (pj_timer_entry_init 0 0 1) (mk_time_val 0 500) 1 (Some 3)).
  - apply demo_ok.
  - reflexivity.
  - discriminate.
  - intros l [= <-]. by eexists.
Defined.

Lemma demo_armed_ok : timer_ok demo_armed.
Proof.
  unfold demo_armed. destruct (heap_schedule _ _ _ _ _ _) as [[r w]|] eqn:E.
  - eapply timer_step_ok; [apply (demo_ok 1)|].
    apply (step_schedule (demo_world 1) (mk_time_val 5 0) 7
      (pj_timer_entry_init 0 0 1) (mk_time_val 0 500) 1 (Some 3) w r);
      [reflexivity| |exact E]. intros l [= <-]. by eexists.
  - apply demo_ok.
Qed.

Lemma timer_cancel_refines_witness :
  exists w', pj_timer_heap_cancel_if_active None demo_armed 7 4 = Some (1%Z, w') /\
    timer_ok w' /\ active w' = delete 7 (active demo_armed) /\
    entries w' = <[7 := mk_timer_entry 0 4 (Some 1) (-1)]> (entries demo_armed).
Proof.
  apply (timer_cancel_refines None demo_armed 7
           (mk_timer_entry 0 1 (Some 1) 1) 4).
  - apply demo_armed_ok.
  - reflexivity.
  - left. vm_compute. by eexists.
Defined.

Lemma demo_cb_quiet : cb_quiet (fun _ w => w).
Proof. done. Qed.

Lemma timer_poll_fires_witness :
  exists nd fired w',
    pj_timer_heap_poll (fun _ w => w) demo_armed (mk_time_val 9 0) =
      Some (length fired, nd, fired, w') /\
    timer_ok w' /\ fires (mk_time_val 9 0) (active demo_armed) fired (active w') /\
    length fired <= 64 /\
    (length fired < 64 ->
     forall b tb, active w' !! b = Some tb -> ~ time_le tb (mk_time_val 9 0)) /\
    (active w' = ∅ -> nd = max_delay) /\
    (forall a t, active w' !! a = Some t ->
       (forall b tb, active w' !! b = Some tb -> time_le t tb) ->
       PJ_TIME_VAL_MSEC nd = Z.max 0 (PJ_TIME_VAL_MSEC t - 9000)).
Proof.
  apply (timer_poll_fires (fun _ w => w) demo_armed (mk_time_val 9 0)).
  - apply demo_cb_quiet.
  - apply demo_armed_ok.
Defined.

Lemma timer_poll_safe_witness :
  exists n nd fired w',
    pj_timer_heap_poll (fun _ w => w) demo_armed (mk_time_val 9 0) =
      Some (n, nd, fired, w') /\
    timer_ok w' /\ n = length fired /\ n <= 64.
Proof.
  apply (timer_poll_safe (fun _ w => w) demo_armed (mk_time_val 9 0)).
  - apply quiet_ok, demo_cb_quiet.
  - apply demo_armed_ok.
Defined.

Lemma demo_reach size : reach timer_step timer_init (demo_world size).
Proof. apply reach_init, timer_init_create, demo_entries. Qed.

Lemma timer_reachable_ok_witness : timer_ok (demo_world 1).
Proof. apply (timer_reachable_ok (demo_world 1)). apply demo_reach. Defined.

Lemma timer_schedule_nomem_leaks_witness :
  exists w',
    pj_timer_heap_schedule_w_grp_lock (demo_world 0) (mk_time_val 5 0) 7
      (mk_time_val 0 500) 1 None (mk_pool_allocs false true true) =
      Some (PJ_ENOMEM, w') /\
    cur_size (ht w') = 0 /\ ~ timer_ok w' /\
    forall now' delay' pool',
      pj_timer_heap_schedule_w_grp_lock w' now' 7 delay' 1 None pool' =
        Some (PJ_EINVALIDOP, w').
Proof.
  apply (timer_schedule_nomem_leaks (demo_world 0) (mk_time_val 5 0) 7
           (pj_timer_entry_init 0 0 1) (mk_time_val 0 500) 1 None
           (mk_pool_allocs false true true)).
  - apply demo_ok.
  - reflexivity.
  - discriminate.
  - by rewrite demo_active.
  - cbn. lia.
  - reflexivity.
Defined.
