(* ===== verification/Hash.v ===== *)
(** * The hash table ([pjlib/src/pj/hash.c])

    A table is an array of [rows + 1] chains; a chain is the list of its
    entries, so that a [pj_hash_entry **] returned by [find_entry] is a
    position in the chain of a row (the position past the end is a link that
    holds [NULL]).  A key buffer is a list of bytes, a value pointer a [nat]
    ([NULL] is [None]).  An entry created with the [_np] calls points to the
    caller's key; the model keeps the bytes, that is, it assumes that the
    owner does not change the key of an entry that is in the table. *)

From S2P Require Import Prelude.
From stdpp Require Import sorting.
Local Open Scope Z_scope.

(** ** Definitions *)

Definition PJ_HASH_MULTIPLIER : Z := 33.
(** [(unsigned)-1] as a key length: the key is a NUL-terminated string. *)
Definition PJ_HASH_KEY_STRING : Z := 4294967295.

Definition pj_tolower (c : Z) : Z :=
  if (65 <=? c) && (c <=? 90) then c + 32 else c.

Record pj_hash_entry := mk_hash_entry {
  he_key : list Z;
  he_hash : Z;
  he_keylen : Z;
  he_value : nat
}.

Record pj_hash_table_t := mk_hash_table {
  table : list (list pj_hash_entry);
  count : nat;
  rows : Z
}.

#[export] Instance eta_hash_entry : Settable pj_hash_entry :=
  fun e => mk_hash_entry (he_key e) (he_hash e) (he_keylen e) (he_value e).
#[export] Instance eta_hash_table : Settable pj_hash_table_t :=
  fun h => mk_hash_table (table h) (count h) (rows h).

(** The bytes of a NUL-terminated string in a buffer. *)
Fixpoint cstr (buf : list Z) : option (list Z) :=
  match buf with
  | [] => None
  | c :: buf => if c =? 0 then Some [] else l ← cstr buf; Some (c :: l)
  end.

(** The bytes a key denotes. *)
Definition key_bytes (key : list Z) (keylen : Z) : option (list Z) :=
  if keylen =? PJ_HASH_KEY_STRING then cstr key
  else if decide (0 <= keylen <= Z.of_nat (length key))
       then Some (take (Z.to_nat keylen) key) else None.

Definition hash_step (hash c : Z) : Z := u32 (u32 (hash * PJ_HASH_MULTIPLIER) + c).

Definition pj_hash_calc (hash : Z) (key : list Z) (keylen : Z) : option Z :=
  bytes ← key_bytes key keylen;
  Some (foldl hash_step hash bytes).

(** The hash, and the bytes written to [result]. *)
Fixpoint pj_hash_calc_tolower (hval : Z) (key : list Z) : Z * list Z :=
  match key with
  | [] => (hval, [])
  | c :: key =>
      let lower := pj_tolower c in
      let '(h, result) := pj_hash_calc_tolower (hash_step hval lower) key in
      (h, lower :: result)
  end.

(** [do table_size <<= 1; while (table_size < size)]. *)
Fixpoint round_up_loop (fuel : nat) (table_size size : Z) : option Z :=
  match fuel with
  | O => None
  | S fuel =>
      let table_size := u32 (Z.shiftl table_size 1) in
      if table_size <? size then round_up_loop fuel table_size size
      else Some table_size
  end.

Definition pj_hash_create (fuel : nat) (size : Z) : option pj_hash_table_t :=
  table_size ← round_up_loop fuel 8 size;
  let table_size := u32 (table_size - 1) in
  Some (mk_hash_table (replicate (Z.to_nat (table_size + 1)) []) 0 table_size).

(** [strncasecmp(a, b, n) == 0], for buffers of at least [n] bytes. *)
Fixpoint strncaseeq (n : nat) (a b : list Z) : bool :=
  match n, a, b with
  | S n, x :: a, y :: b =>
      (pj_tolower x =? pj_tolower y) && ((x =? 0) || strncaseeq n a b)
  | _, _, _ => true
  end.

Definition key_eq (lower : bool) (n : nat) (a b : list Z) : bool :=
  if lower then strncaseeq n a b else bool_decide (take n a = take n b).

(** The hash [find_entry] uses, and the bytes of the key. *)
Definition find_hash (key : list Z) (keylen : Z) (hval : option Z)
    (lower : bool) : option (Z * list Z) :=
  bytes ← key_bytes key keylen;
  let computed :=
    foldl (fun h c => hash_step h (if lower then pj_tolower c else c)) 0 bytes in
  Some (match hval with
        | Some h => if h =? 0 then computed else h
        | None => computed
        end, bytes).

Definition entry_matches (lower : bool) (hash : Z) (bytes : list Z)
    (e : pj_hash_entry) : bool :=
  (he_hash e =? hash) && (he_keylen e =? Z.of_nat (length bytes)) &&
  key_eq lower (length bytes) (he_key e) bytes.

(** The scan of a chain: the position of the link that points to the
    matching entry, or of the last link. *)
Fixpoint scan_chain (lower : bool) (hash : Z) (bytes : list Z)
    (chain : list pj_hash_entry) : nat :=
  match chain with
  | [] => O
  | e :: chain =>
      if entry_matches lower hash bytes e then O
      else S (scan_chain lower hash bytes chain)
  end.

(** Result: the row and the position of the link, the hash reported back in
    [*hval], and the table (changed when an entry was created). *)
Definition find_entry (ht : pj_hash_table_t) (key : list Z) (keylen : Z)
    (val : option nat) (hval : option Z) (lower : bool)
    : option (Z * nat * Z * pj_hash_table_t) :=
  '(hash, bytes) ← find_hash key keylen hval lower;
  let row := Z.land hash (rows ht) in
  chain ← zlookup (table ht) row;
  let p := scan_chain lower hash bytes chain in
  match chain !! p, val with
  | None, Some v =>
      let entry := mk_hash_entry bytes hash (Z.of_nat (length bytes)) v in
      t ← zstore (table ht) row (chain ++ [entry]);
      Some (row, p, hash, ht <| table := t |> <| count := S (count ht) |>)
  | _, _ => Some (row, p, hash, ht)
  end.

(** [*p_entry]. *)
Definition read_link (ht : pj_hash_table_t) (row : Z) (p : nat)
    : option (option pj_hash_entry) :=
  chain ← zlookup (table ht) row; Some (chain !! p).

(** The value, and the hash reported back. *)
Definition hash_get (ht : pj_hash_table_t) (key : list Z) (keylen : Z)
    (hval : option Z) (lower : bool) : option (option nat * Z) :=
  '(row, p, h, _) ← find_entry ht key keylen None hval lower;
  entry ← read_link ht row p;
  Some (he_value <$> (entry : option pj_hash_entry), h).

Definition pj_hash_get ht key keylen hval := hash_get ht key keylen hval false.
Definition pj_hash_get_lower ht key keylen hval := hash_get ht key keylen hval true.

Definition hash_set (ht : pj_hash_table_t) (key : list Z) (keylen hval : Z)
    (value : option nat) (lower : bool) : option pj_hash_table_t :=
  '(row, p, _, ht) ← find_entry ht key keylen value (Some hval) lower;
  chain ← zlookup (table ht) row;
  match chain !! p with
  | None => Some ht
  | Some e =>
      match value with
      | None =>
          t ← zstore (table ht) row (delete p chain);
          Some (ht <| table := t |> <| count := (count ht - 1)%nat |>)
      | Some v =>
          t ← zstore (table ht) row (<[p := e <| he_value := v |>]> chain);
          Some (ht <| table := t |>)
      end
  end.

Definition pj_hash_set ht key keylen hval value :=
  hash_set ht key keylen hval value false.
Definition pj_hash_set_lower ht key keylen hval value :=
  hash_set ht key keylen hval value true.
(** Without a pool the entry lives in the caller's buffer. *)
Definition pj_hash_set_np ht key keylen hval value :=
  hash_set ht key keylen hval value false.
Definition pj_hash_set_np_lower ht key keylen hval value :=
  hash_set ht key keylen hval value true.

Definition pj_hash_count (ht : pj_hash_table_t) : nat := count ht.

(** An iterator: the row, and the chain from the current entry on. *)
Record pj_hash_iterator_t := mk_hash_iterator {
  it_index : Z;
  it_entry : list pj_hash_entry
}.

(** [for (; it->index <= ht->rows; ++it->index)] up to the first entry. *)
Fixpoint scan_rows (fuel : nat) (ht : pj_hash_table_t) (index : Z)
    : option (option pj_hash_iterator_t) :=
  match fuel with
  | O => None
  | S fuel =>
      if index <=? rows ht then
        chain ← zlookup (table ht) index;
        match chain with
        | [] => scan_rows fuel ht (index + 1)
        | _ => Some (Some (mk_hash_iterator index chain))
        end
      else Some None
  end.

(** The fuel: one more than the number of rows left. *)
Definition rows_fuel (ht : pj_hash_table_t) (index : Z) : nat :=
  Z.to_nat (rows ht + 2 - index).

Definition pj_hash_first (ht : pj_hash_table_t)
    : option (option pj_hash_iterator_t) :=
  scan_rows (rows_fuel ht 0) ht 0.

Definition pj_hash_next (ht : pj_hash_table_t) (it : pj_hash_iterator_t)
    : option (option pj_hash_iterator_t) :=
  match it_entry it with
  | [] => None
  | _ :: [] => scan_rows (rows_fuel ht (it_index it + 1)) ht (it_index it + 1)
  | _ :: next => Some (Some (mk_hash_iterator (it_index it) next))
  end.

Definition pj_hash_this (it : pj_hash_iterator_t) : option nat :=
  he_value <$> head (it_entry it).

(** A client's loop over the table: the values seen. *)
Fixpoint hash_walk (fuel : nat) (ht : pj_hash_table_t)
    (it : option pj_hash_iterator_t) : option (list nat) :=
  match fuel, it with
  | _, None => Some []
  | O, Some _ => None
  | S fuel, Some it =>
      v ← pj_hash_this it;
      it ← pj_hash_next ht it;
      vs ← hash_walk fuel ht it;
      Some (v :: vs)
  end.

(** ** The contract *)

(** Keys that differ in case only are the same key of a [lower] table. *)
Definition canon (lower : bool) (bytes : list Z) : list Z :=
  if lower then pj_tolower <$> bytes else bytes.

(** Keys of a [lower] table have no NUL byte (at which [strncasecmp] would
    stop) before their last one; the transaction keys of RFC 2543 end in one. *)
Definition key_ok (lower : bool) (bytes : list Z) : Prop :=
  Forall (fun c => 0 <= c < 256) bytes /\ (lower = true -> 0 ∉ removelast bytes).

Definition hash_of (lower : bool) (bytes : list Z) : Z :=
  foldl (fun h c => hash_step h (if lower then pj_tolower c else c)) 0 bytes.

(** What an entry contributes to the abstract map. *)
Definition entry_pair (lower : bool) (e : pj_hash_entry) : list Z * nat :=
  (canon lower (he_key e), he_value e).

Definition all_entries (ht : pj_hash_table_t) : list pj_hash_entry :=
  concat (table ht).

Definition contents (lower : bool) (ht : pj_hash_table_t) : gmap (list Z) nat :=
  list_to_map (entry_pair lower <$> all_entries ht).

Record entry_ok (lower : bool) (rows : Z) (i : nat) (e : pj_hash_entry) : Prop :=
  mk_entry_ok {
  eo_key : key_ok lower (he_key e);
  eo_hash : he_hash e = hash_of lower (he_key e);
  eo_len : he_keylen e = Z.of_nat (length (he_key e));
  eo_row : Z.land (he_hash e) rows = Z.of_nat i
}.

Record hash_inv (lower : bool) (ht : pj_hash_table_t) : Prop := mk_hash_inv {
  hi_rows : 0 <= rows ht;
  hi_len : Z.of_nat (length (table ht)) = rows ht + 1;
  hi_entry : forall i chain e, table ht !! i = Some chain -> e ∈ chain ->
    entry_ok lower (rows ht) i e;
  hi_nodup : NoDup (canon lower ∘ he_key <$> all_entries ht);
  hi_count : count ht = length (all_entries ht)
}.

(** A caller either lets the table compute the hash or passes the right one. *)
Definition hval_ok (lower : bool) (bytes : list Z) (hval : Z) : Prop :=
  hval = 0 \/ hval = hash_of lower bytes.

(** ** Lemmas: hashing *)

Lemma hash_step_range h c : is_u32 (hash_step h c).
Proof. apply u32_range. Qed.

Lemma foldl_range {A} (f : A -> Z) bytes h :
  is_u32 h -> is_u32 (foldl (fun h c => hash_step h (f c)) h bytes).
Proof.
  revert h. induction bytes as [|c bytes IH]; intros h Hh; [done|].
  apply IH, hash_step_range.
Qed.

Lemma hash_of_range lower bytes : is_u32 (hash_of lower bytes).
Proof. apply foldl_range. by unfold is_u32. Qed.

Lemma land_rows h r : 0 <= h -> 0 <= r -> 0 <= Z.land h r < r + 1.
Proof.
  intros Hh Hr. split; [by apply Z.land_nonneg; left|].
  assert (Z.land h r <= r); [|lia].
  destruct (Z.eq_dec r 0) as [->|]; [by rewrite Z.land_0_r|].
  apply Z.ldiff_le; [done|]. apply Z.bits_inj'. intros k Hk.
  rewrite Z.ldiff_spec, Z.land_spec, Z.bits_0.
  by destruct (Z.testbit h k), (Z.testbit r k).
Qed.

Lemma hash_of_canon lower bytes :
  hash_of lower bytes = hash_of false (canon lower bytes).
Proof.
  destruct lower; [|done]. unfold hash_of. cbn [canon].
  generalize 0. induction bytes as [|c bytes IH]; intros h; [done|].
  cbn. apply IH.
Qed.

Lemma find_hash_ok key keylen hval lower bytes :
  key_bytes key keylen = Some bytes ->
  (forall h, hval = Some h -> hval_ok lower bytes h) ->
  find_hash key keylen hval lower = Some (hash_of lower bytes, bytes).
Proof.
  intros Hk Hv. unfold find_hash. obind Hk. do 2 f_equal.
  destruct hval as [h|]; [|done].
  destruct (Hv h eq_refl) as [->| ->]; [done|]. by case_match.
Qed.

(** ** Lemmas: comparing keys *)

Lemma tolower_0 c : pj_tolower c = 0 -> 0 <= c -> c = 0.
Proof. unfold pj_tolower. intros H Hc. destruct (_ && _) eqn:E; zbool; lia. Qed.

Lemma strncaseeq_spec a b :
  length a = length b -> 0 ∉ removelast a ->
  strncaseeq (length b) a b = bool_decide ((pj_tolower <$> a) = (pj_tolower <$> b)).
Proof.
  revert b. induction a as [|x a IH]; intros [|y b] Hl Hz; try done.
  destruct a as [|x' a].
  { destruct b; [|done]. cbn. rewrite orb_true_r, andb_true_r.
    destruct (Z.eqb_spec (pj_tolower x) (pj_tolower y)) as [E|E]; symmetry.
    - apply bool_decide_eq_true. by rewrite E.
    - apply bool_decide_eq_false. by intros [= ?]. }
  cbn [length strncaseeq]. rewrite (IH b) by (cbn in *; set_solver || lia).
  assert (x <> 0) by (intros ->; apply Hz; cbn; set_solver).
  destruct (Z.eqb_spec x 0); [done|]. rewrite orb_false_l. clear IH.
  generalize (x' :: a); intros a'. cbn [fmap list_fmap].
  destruct (Z.eqb_spec (pj_tolower x) (pj_tolower y)) as [E|E]; cbn [andb].
  - apply bool_decide_ext. rewrite E. split; [by intros ->|by injection 1].
  - symmetry. apply bool_decide_eq_false. by intros [= ?].
Qed.

Lemma key_eq_spec lower a b :
  length a = length b -> key_ok lower a ->
  key_eq lower (length b) a b = bool_decide (canon lower a = canon lower b).
Proof.
  intros Hl [_ Hz]. unfold key_eq, canon. destruct lower.
  - apply strncaseeq_spec; auto.
  - by rewrite firstn_all, <- Hl, firstn_all.
Qed.

Lemma canon_length lower a : length (canon lower a) = length a.
Proof. destruct lower; cbn; by rewrite ?length_fmap. Qed.

(** Under the invariant the scan compares keys only. *)
Lemma entry_matches_spec lower rows i bytes e :
  entry_ok lower rows i e -> 
  entry_matches lower (hash_of lower bytes) bytes e =
    bool_decide (canon lower (he_key e) = canon lower bytes).
Proof.
  intros [Hk Hh Hl _]. unfold entry_matches.
  destruct (decide (length (he_key e) = length bytes)) as [El|El].
  - rewrite key_eq_spec by done. rewrite Hl, El, Z.eqb_refl, andb_true_r.
    case_bool_decide as E; [|by rewrite andb_false_r].
    rewrite Hh, (hash_of_canon _ (he_key e)), E, <- hash_of_canon.
    by rewrite Z.eqb_refl.
  - destruct (Z.eqb_spec (he_keylen e) (Z.of_nat (length bytes))); [lia|].
    rewrite andb_false_r. symmetry. apply bool_decide_eq_false. intros E.
    apply El. by rewrite <- (canon_length lower), E, canon_length.
Qed.

(** ** Lemmas: the scan and the chains *)

Lemma scan_chain_spec lower rows i bytes chain :
  (forall e, e ∈ chain -> entry_ok lower rows i e) ->
  let p := scan_chain lower (hash_of lower bytes) bytes chain in
  (exists l1 e l2, chain = l1 ++ e :: l2 /\ p = length l1 /\
     canon lower (he_key e) = canon lower bytes) \/
  (p = length chain /\
   forall e, e ∈ chain -> canon lower (he_key e) <> canon lower bytes).
Proof.
  induction chain as [|e chain IH]; intros Hok; cbn.
  - right. split; [done|]. set_solver.
  - rewrite (entry_matches_spec lower rows i) by (apply Hok; set_solver).
    case_bool_decide as E.
    + left. by exists [], e, chain.
    + destruct IH as [(l1 & e' & l2 & -> & -> & He')|[-> Hno]]; [set_solver|..].
      * left. by exists (e :: l1), e', l2.
      * right. split; [done|]. intros e' [->|Hin]%elem_of_cons; [done|eauto].
Qed.

Lemma concat_update {A} (t : list (list A)) i chain chain' :
  t !! i = Some chain ->
  exists pre post, concat t = pre ++ chain ++ post /\
    concat (<[i := chain']> t) = pre ++ chain' ++ post.
Proof.
  intros H. exists (concat (take i t)), (concat (drop (S i) t)). split.
  - rewrite <- (take_drop_middle t i chain H) at 1.
    by rewrite concat_app.
  - rewrite insert_take_drop by (by eapply lookup_lt_Some).
    by rewrite concat_app.
Qed.

Lemma entry_in lower ht e :
  hash_inv lower ht -> e ∈ all_entries ht ->
  exists i chain, table ht !! i = Some chain /\ e ∈ chain /\
    entry_ok lower (rows ht) i e.
Proof.
  intros HI Hin. unfold all_entries in Hin.
  rewrite list_elem_of_In, in_concat in Hin. destruct Hin as (chain & Hc & He).
  apply list_elem_of_In in Hc. apply list_elem_of_In in He.
  apply list_elem_of_lookup in Hc as [i Hi].
  exists i, chain. split; [done|]. split; [done|]. by eapply hi_entry.
Qed.

Lemma in_row ht i chain e :
  table ht !! i = Some chain -> e ∈ chain -> e ∈ all_entries ht.
Proof.
  intros Hi He. unfold all_entries. rewrite list_elem_of_In, in_concat.
  exists chain. split; apply list_elem_of_In; [|done].
  by eapply list_elem_of_lookup_2.
Qed.

Lemma contents_nodup lower ht :
  hash_inv lower ht -> NoDup (entry_pair lower <$> all_entries ht).*1.
Proof.
  intros HI. rewrite <- list_fmap_compose.
  exact (hi_nodup _ _ HI).
Qed.

Lemma contents_lookup lower ht k v :
  hash_inv lower ht ->
  contents lower ht !! k = Some v <->
  exists e, e ∈ all_entries ht /\ canon lower (he_key e) = k /\ he_value e = v.
Proof.
  intros HI. unfold contents.
  rewrite <- elem_of_list_to_map by by apply contents_nodup.
  rewrite list_elem_of_fmap. unfold entry_pair. split.
  - intros (e & [= -> ->] & He). eauto.
  - intros (e & He & <- & <-). eauto.
Qed.

Lemma count_size lower ht :
  hash_inv lower ht -> count ht = size (contents lower ht).
Proof.
  intros HI. rewrite (hi_count _ _ HI). unfold contents.
  rewrite <- length_map_to_list, map_to_list_to_map by by apply contents_nodup.
  by rewrite length_fmap.
Qed.

(** The row a key belongs to. *)
Lemma key_row lower ht bytes :
  hash_inv lower ht ->
  exists i chain, Z.land (hash_of lower bytes) (rows ht) = Z.of_nat i /\
    table ht !! i = Some chain /\
    (forall e, e ∈ chain -> entry_ok lower (rows ht) i e) /\
    (forall e, e ∈ all_entries ht ->
       canon lower (he_key e) = canon lower bytes -> e ∈ chain).
Proof.
  intros HI. pose proof (hash_of_range lower bytes) as [Hh _].
  pose proof (land_rows _ _ Hh (hi_rows _ _ HI)) as Hl.
  pose proof (hi_len _ _ HI).
  destruct (lookup_lt_is_Some_2 (table ht)
    (Z.to_nat (Z.land (hash_of lower bytes) (rows ht)))) as [chain Hc]; [lia|].
  eexists _, chain. split; [symmetry; apply Z2Nat.id; lia|]. split; [exact Hc|].
  split; [intros e He; by eapply hi_entry|].
  intros e He Hcan. destruct (entry_in _ _ _ HI He) as (j & cj & Hj & Hin & Hok).
  assert (j = Z.to_nat (Z.land (hash_of lower bytes) (rows ht))) as ->;
    [|by simplify_eq].
  apply Nat2Z.inj. rewrite <- (eo_row _ _ _ _ Hok), (eo_hash _ _ _ _ Hok).
  by rewrite hash_of_canon, Hcan, <- hash_of_canon, Z2Nat.id by lia.
Qed.

(** Replacing one chain. *)
Lemma set_chain_inv lower ht i chain cnt :
  hash_inv lower ht -> (i < length (table ht))%nat ->
  let ht' := mk_hash_table (<[i := chain]> (table ht)) cnt (rows ht) in
  (forall e, e ∈ chain -> entry_ok lower (rows ht) i e) ->
  NoDup (canon lower ∘ he_key <$> all_entries ht') ->
  cnt = length (all_entries ht') -> hash_inv lower ht'.
Proof.
  intros HI Hi ht' Hok Hnd Hc. split; cbn.
  - apply (hi_rows _ _ HI).
  - rewrite length_insert. apply (hi_len _ _ HI).
  - intros j cj e Hj He. rewrite insert_lookup in Hj by done.
    case_decide as E; [|by eapply hi_entry].
    simplify_eq. eauto.
  - exact Hnd.
  - exact Hc.
Qed.

(** The three ways a table changes, up to the order of the entries. *)
Lemma contents_perm lower ht l :
  hash_inv lower ht -> all_entries ht ≡ₚ l ->
  contents lower ht = list_to_map (entry_pair lower <$> l).
Proof.
  intros HI HP. unfold contents. apply list_to_map_proper.
  - by apply contents_nodup.
  - by rewrite HP.
Qed.

Lemma contents_cons lower ht ht' e :
  hash_inv lower ht' -> all_entries ht' ≡ₚ e :: all_entries ht ->
  contents lower ht' = <[canon lower (he_key e) := he_value e]> (contents lower ht).
Proof. intros HI HP. by rewrite (contents_perm lower ht' _ HI HP). Qed.

(** Where [find_entry] looks: the row of the key, and the outcome of the
    scan of its chain. *)
Inductive found (lower : bool) (ht : pj_hash_table_t) (bytes : list Z) (i p : nat)
    (chain : list pj_hash_entry) : Prop :=
| found_at l1 e l2 :
    chain = l1 ++ e :: l2 -> p = length l1 ->
    canon lower (he_key e) = canon lower bytes ->
    contents lower ht !! canon lower bytes = Some (he_value e) ->
    found lower ht bytes i p chain
| not_found :
    p = length chain -> contents lower ht !! canon lower bytes = None ->
    found lower ht bytes i p chain.

Definition new_entry (lower : bool) (bytes : list Z) (v : nat) : pj_hash_entry :=
  mk_hash_entry bytes (hash_of lower bytes) (Z.of_nat (length bytes)) v.

Lemma find_entry_spec lower ht key keylen bytes val hval :
  hash_inv lower ht -> key_bytes key keylen = Some bytes ->
  (forall h, hval = Some h -> hval_ok lower bytes h) ->
  exists i chain p,
    table ht !! i = Some chain /\ found lower ht bytes i p chain /\
    Z.land (hash_of lower bytes) (rows ht) = Z.of_nat i /\
    (forall e, e ∈ chain -> entry_ok lower (rows ht) i e) /\
    find_entry ht key keylen val hval lower =
      Some (Z.of_nat i, p, hash_of lower bytes,
        match contents lower ht !! canon lower bytes, val with
        | None, Some v =>
            mk_hash_table (<[i := chain ++ [new_entry lower bytes v]]> (table ht))
              (S (count ht)) (rows ht)
        | _, _ => ht
        end).
Proof.
  intros HI Hk Hv.
  destruct (key_row lower ht bytes HI) as (i & chain & Hrow & Hi & Hok & Hin).
  pose proof (lookup_lt_Some _ _ _ Hi) as Hlt.
  exists i, chain, (scan_chain lower (hash_of lower bytes) bytes chain).
  split; [done|].
  unfold find_entry. rewrite (find_hash_ok _ _ _ _ _ Hk Hv). ored.
  rewrite Hrow, zlookup_nat, Hi. ored.
  destruct (scan_chain_spec lower (rows ht) i bytes chain Hok)
    as [(l1 & e & l2 & -> & -> & He)|[-> Hno]].
  - assert (contents lower ht !! canon lower bytes = Some (he_value e)) as Hc.
    { apply contents_lookup; [done|]. exists e. split; [|done].
      eapply in_row; [exact Hi|]. set_solver. }
    split; [by eapply found_at|]. split; [done|]. split; [done|].
    rewrite list_lookup_middle by done. by rewrite Hc.
  - assert (contents lower ht !! canon lower bytes = None) as Hc.
    { destruct (contents _ _ !! _) as [v|] eqn:E; [|done]. exfalso.
      apply contents_lookup in E as (e & He & Hce & _); [|done].
      by apply (Hno e); [apply Hin|]. }
    split; [by apply not_found|]. split; [done|]. split; [done|].
    rewrite lookup_ge_None_2 by done. rewrite Hc.
    destruct val as [v|]; [|done]. by rewrite zstore_nat.
Qed.

Lemma hash_get_spec lower ht key keylen bytes hval :
  hash_inv lower ht -> key_bytes key keylen = Some bytes ->
  (forall h, hval = Some h -> hval_ok lower bytes h) ->
  hash_get ht key keylen hval lower =
    Some (contents lower ht !! canon lower bytes, hash_of lower bytes).
Proof.
  intros HI Hk Hv. unfold hash_get.
  destruct (find_entry_spec lower ht key keylen bytes None hval HI Hk Hv)
    as (i & chain & p & Hi & Hf & Hrow & Hok & ->). ored.
  destruct Hf as [l1 e l2 -> -> He Hc| -> Hc]; rewrite Hc; ored;
    unfold read_link; rewrite zlookup_nat, Hi; ored.
  - by rewrite list_lookup_middle.
  - by rewrite lookup_ge_None_2.
Qed.

Lemma insert_middle {A} (l1 l2 : list A) x y :
  <[length l1 := y]> (l1 ++ x :: l2) = l1 ++ y :: l2.
Proof.
  rewrite <- (Nat.add_0_r (length l1)) at 1. by rewrite insert_app_r.
Qed.

(** Replacing the middle of a chain. *)
Lemma set_chain_perm ht i l1 mid mid' l2 cnt :
  table ht !! i = Some (l1 ++ mid ++ l2) ->
  exists rest, all_entries ht ≡ₚ mid ++ rest /\
    all_entries (mk_hash_table (<[i := l1 ++ mid' ++ l2]> (table ht)) cnt (rows ht))
      ≡ₚ mid' ++ rest.
Proof.
  intros Hi.
  destruct (concat_update (table ht) i _ (l1 ++ mid' ++ l2) Hi)
    as (pre & post & H1 & H2).
  exists (pre ++ l1 ++ l2 ++ post). unfold all_entries. cbn [table].
  rewrite H1, H2. split; solve_Permutation.
Qed.

Lemma new_entry_ok lower bytes v r i :
  key_ok lower bytes -> Z.land (hash_of lower bytes) r = Z.of_nat i ->
  entry_ok lower r i (new_entry lower bytes v).
Proof. by split. Qed.

Lemma set_value_ok lower r i e v :
  entry_ok lower r i e -> entry_ok lower r i (e <| he_value := v |>).
Proof. by intros []. Qed.

Lemma hash_set_insert lower ht key keylen bytes hval v :
  hash_inv lower ht -> key_bytes key keylen = Some bytes ->
  key_ok lower bytes -> hval_ok lower bytes hval ->
  exists ht', hash_set ht key keylen hval (Some v) lower = Some ht' /\
    hash_inv lower ht' /\ rows ht' = rows ht /\
    contents lower ht' = <[canon lower bytes := v]> (contents lower ht).
Proof.
  intros HI Hk Hko Hv.
  destruct (find_entry_spec lower ht key keylen bytes (Some v) (Some hval) HI Hk)
    as (i & chain & p & Hi & Hf & Hrow & Hok & Hfe); [by intros h [= <-]|].
  pose proof (lookup_lt_Some _ _ _ Hi) as Hlt.
  unfold hash_set. rewrite Hfe. ored. clear Hfe.
  destruct Hf as [l1 e l2 -> -> He Hc| -> Hc]; rewrite Hc.
  - rewrite zlookup_nat, Hi. ored. rewrite list_lookup_middle by done.
    rewrite zstore_nat, insert_middle by done. ored.
    set (e' := e <| he_value := v |>).
    destruct (set_chain_perm ht i l1 [e] [e'] l2 (count ht) Hi) as (rest & HP & HP').
    cbn [app] in HP, HP'. set (ht' := mk_hash_table _ _ _) in HP'.
    assert (HI' : hash_inv lower ht').
    { apply set_chain_inv; [done|done| | |].
      - intros x Hx. cbn in Hx. apply elem_of_app in Hx.
        rewrite elem_of_cons in Hx. destruct Hx as [Hx|[->|Hx]].
        + apply Hok. set_solver.
        + apply set_value_ok, Hok. set_solver.
        + apply Hok. set_solver.
      - fold ht'. rewrite HP'. pose proof (hi_nodup _ _ HI) as Hnd. by rewrite HP in Hnd.
      - fold ht'; rewrite HP', (hi_count _ _ HI), HP. done. }
    exists ht'. split; [done|]. split; [done|]. split; [done|].
    rewrite (contents_perm _ _ _ HI' HP'), (contents_perm _ _ _ HI HP).
    cbn. rewrite He. by rewrite insert_insert_eq.
  - cbn [table]. rewrite zlookup_nat, list_lookup_insert_eq by done. ored.
    rewrite lookup_app_r, Nat.sub_diag by done. cbn [lookup list_lookup].
    rewrite zstore_nat by (cbn; by rewrite length_insert). ored.
    rewrite insert_middle. cbn [table set_field count rows].
    rewrite list_insert_insert_eq.
    set (e := new_entry lower bytes v).
    assert (Hi0 : table ht !! i = Some (chain ++ [] ++ [])) by by rewrite !app_nil_r.
    destruct (set_chain_perm ht i chain [] [e] [] (S (count ht)) Hi0)
      as (rest & HP & HP').
    cbn [app] in HP, HP'. set (ht' := mk_hash_table _ _ _) in HP'.
    assert (HI' : hash_inv lower ht').
    { apply set_chain_inv; [done|done| | |].
      - intros x Hx. apply elem_of_app in Hx.
        destruct Hx as [Hx| ->%list_elem_of_singleton]; [by apply Hok|].
        by apply new_entry_ok.
      - fold ht'; rewrite HP', <- HP. cbn. apply NoDup_cons. split; [|apply (hi_nodup _ _ HI)].
        intros (x & Hx1 & Hx2)%list_elem_of_fmap.
        assert (contents lower ht !! canon lower bytes = Some (he_value x))
          by (apply contents_lookup; eauto).
        congruence.
      - fold ht'. rewrite HP', <- HP, (hi_count _ _ HI). done. }
    exists ht'. split; [done|]. split; [done|]. split; [done|].
    by rewrite (contents_perm _ _ _ HI' HP'), (contents_perm _ _ _ HI HP).
Qed.

Lemma hash_set_delete lower ht key keylen bytes hval :
  hash_inv lower ht -> key_bytes key keylen = Some bytes ->
  hval_ok lower bytes hval ->
  exists ht', hash_set ht key keylen hval None lower = Some ht' /\
    hash_inv lower ht' /\ rows ht' = rows ht /\
    contents lower ht' = delete (canon lower bytes) (contents lower ht).
Proof.
  intros HI Hk Hv.
  destruct (find_entry_spec lower ht key keylen bytes None (Some hval) HI Hk)
    as (i & chain & p & Hi & Hf & Hrow & Hok & Hfe); [by intros h [= <-]|].
  pose proof (lookup_lt_Some _ _ _ Hi) as Hlt.
  unfold hash_set. rewrite Hfe. ored. clear Hfe.
  destruct Hf as [l1 e l2 -> -> He Hc| -> Hc]; rewrite Hc.
  - rewrite zlookup_nat, Hi. ored. rewrite list_lookup_middle by done.
    rewrite zstore_nat, delete_middle by done. ored.
    destruct (set_chain_perm ht i l1 [e] [] l2 (count ht - 1) Hi) as (rest & HP & HP').
    cbn [app] in HP, HP'. set (ht' := mk_hash_table _ _ _) in HP'.
    assert (HI' : hash_inv lower ht').
    { apply set_chain_inv; [done|done| | |].
      - intros x Hx. apply Hok. set_solver.
      - fold ht'. rewrite HP'. pose proof (hi_nodup _ _ HI) as Hnd.
        rewrite HP in Hnd. by apply NoDup_cons in Hnd as [_ ?].
      - fold ht'. rewrite HP', (hi_count _ _ HI), HP. cbn. lia. }
    exists ht'. split; [done|]. split; [done|]. split; [done|].
    rewrite (contents_perm _ _ _ HI' HP'), (contents_perm _ _ _ HI HP).
    cbn. rewrite He, delete_insert_id; [done|].
    apply not_elem_of_list_to_map. intros Hin.
    pose proof (contents_nodup _ _ HI) as Hnd. rewrite HP in Hnd.
    cbn in Hnd. rewrite He in Hnd. by apply NoDup_cons in Hnd as [? _].
  - rewrite zlookup_nat, Hi. ored. rewrite lookup_ge_None_2 by done.
    exists ht. split; [done|]. split; [done|]. split; [done|].
    by rewrite delete_id.
Qed.

(** ** Lemmas: creation *)

(** One doubling, while the size still fits. *)
Lemma double_pow n : 0 <= n < 31 -> u32 (Z.shiftl (2 ^ n) 1) = 2 ^ (n + 1).
Proof.
  intros Hn. rewrite Z.shiftl_mul_pow2, Z.pow_add_r by lia.
  apply u32_id. split; [pose proof (Z.pow_nonneg 2 n); lia|].
  assert (2 ^ n <= 2 ^ 30) by (apply Z.pow_le_mono_r; lia). lia.
Qed.

Lemma round_up_spec fuel n size :
  0 <= n < 31 -> 31 - n <= Z.of_nat fuel -> size <= 2147483648 ->
  exists m, round_up_loop fuel (2 ^ n) size = Some (2 ^ m) /\
    n < m <= 31 /\ size <= 2 ^ m.
Proof.
  revert n. induction fuel as [|fuel IH]; intros n Hn Hf Hs; [lia|].
  cbn [round_up_loop]. cbv zeta. rewrite double_pow by done.
  destruct (Z.ltb_spec (2 ^ (n + 1)) size) as [Hlt|Hge].
  - assert (n <> 30) by (intros ->; cbn in Hlt; lia).
    destruct (IH (n + 1)) as (m & -> & ? & ?); [lia..|].
    exists m. split; [done|]. lia.
  - exists (n + 1). split; [done|]. lia.
Qed.

(** Past 2^31 the doubled size wraps to 0 and stays there. *)
Lemma round_up_diverges fuel n size :
  0 <= n <= 32 -> 2147483648 < size ->
  round_up_loop fuel (u32 (2 ^ n)) size = None.
Proof.
  revert n. induction fuel as [|fuel IH]; intros n Hn Hs; [done|].
  cbn [round_up_loop]. cbv zeta.
  destruct (decide (n < 31)) as [Hlt|Hge].
  - assert (2 ^ (n + 1) <= 2 ^ 31) by (apply Z.pow_le_mono_r; lia).
    assert (2 ^ n <= 2 ^ 30) by (apply Z.pow_le_mono_r; lia).
    pose proof (Z.pow_pos_nonneg 2 n). pose proof (Z.pow_pos_nonneg 2 (n + 1)).
    rewrite (u32_id (2 ^ n)) by (unfold is_u32; lia).
    rewrite double_pow by lia.
    destruct (Z.ltb_spec (2 ^ (n + 1)) size); [|lia].
    rewrite <- (u32_id (2 ^ (n + 1))) by (unfold is_u32; lia). apply IH; lia.
  - assert (u32 (Z.shiftl (u32 (2 ^ n)) 1) = u32 (2 ^ 32)) as ->.
    { assert (n = 31 \/ n = 32) as [-> | ->] by lia; reflexivity. }
    destruct (Z.ltb_spec (u32 (2 ^ 32)) size) as [|Hge']; [apply IH; lia|].
    change (u32 (2 ^ 32)) with 0 in Hge'. lia.
Qed.

Lemma empty_inv lower n r :
  0 <= r -> Z.of_nat n = r + 1 ->
  let ht := mk_hash_table (replicate n []) 0 r in
  hash_inv lower ht /\ contents lower ht = ∅.
Proof.
  intros Hr Hn. assert (all_entries (mk_hash_table (replicate n []) 0 r) = []) as E.
  { unfold all_entries. cbn. clear. by induction n. }
  split.
  - split; rewrite ?E; cbn; try done.
    + by rewrite length_replicate.
    + intros i chain e [-> _]%lookup_replicate. set_solver.
    + constructor.
  - unfold contents. by rewrite E.
Qed.

(** ** Lemmas: iteration *)

(** The entries an iterator has still to visit. *)
Definition pending (ht : pj_hash_table_t) (it : option pj_hash_iterator_t)
    : list pj_hash_entry :=
  match it with
  | None => []
  | Some it =>
      it_entry it ++ concat (drop (Z.to_nat (it_index it) + 1) (table ht))
  end.

Definition it_ok (ht : pj_hash_table_t) (it : option pj_hash_iterator_t) : Prop :=
  match it with
  | None => True
  | Some it => 0 <= it_index it <= rows ht /\ it_entry it <> []
  end.

Lemma scan_rows_spec fuel ht index :
  Z.of_nat (length (table ht)) = rows ht + 1 ->
  0 <= index <= rows ht + 1 ->
  rows ht + 2 - index <= Z.of_nat fuel ->
  exists it, scan_rows fuel ht index = Some it /\ it_ok ht it /\
    pending ht it = concat (drop (Z.to_nat index) (table ht)).
Proof.
  intros Hlen. revert index. induction fuel as [|fuel IH]; intros index Hi Hf; [lia|].
  cbn [scan_rows]. destruct (Z.leb_spec index (rows ht)) as [Hle|Hgt].
  - destruct (zlookup_in_range (table ht) index) as [chain Hc]; [lia|]. obind Hc.
    unfold zlookup in Hc. rewrite decide_True in Hc by lia.
    rewrite (drop_S _ chain) by done. cbn [concat].
    destruct chain as [|e chain].
    + destruct (IH (index + 1)) as (it & -> & Hok & Hp); [lia|lia|].
      exists it. split; [done|]. split; [done|]. rewrite Hp. cbn.
      by replace (Z.to_nat (index + 1)) with (S (Z.to_nat index)) by lia.
    + eexists. split; [reflexivity|]. split; [cbn; split; [lia|done]|].
      cbn [pending it_entry it_index].
      by replace (Z.to_nat index + 1)%nat with (S (Z.to_nat index)) by lia.
  - exists None. split; [done|]. split; [done|].
    rewrite drop_ge by lia. done.
Qed.

Lemma hash_next_spec lower ht it e chain :
  hash_inv lower ht -> it_ok ht (Some it) -> it_entry it = e :: chain ->
  exists it', pj_hash_next ht it = Some it' /\ it_ok ht it' /\
    pending ht (Some it) = e :: pending ht it'.
Proof.
  intros HI [Hi _] He. unfold pj_hash_next, rows_fuel. cbn [pending].
  rewrite He. destruct chain as [|e' chain].
  - destruct (scan_rows_spec (Z.to_nat (rows ht + 2 - (it_index it + 1))) ht
      (it_index it + 1)) as (it' & -> & Hok & Hp); [apply HI|lia|lia|].
    exists it'. split; [done|]. split; [done|]. rewrite Hp. cbn.
    by replace (Z.to_nat (it_index it + 1)) with (Z.to_nat (it_index it) + 1)%nat by lia.
  - eexists. split; [reflexivity|]. done.
Qed.

Lemma hash_walk_spec fuel lower ht it :
  hash_inv lower ht -> it_ok ht it -> (length (pending ht it) <= fuel)%nat ->
  hash_walk fuel ht it = Some (he_value <$> pending ht it).
Proof.
  intros HI. revert it. induction fuel as [|fuel IH]; intros it Hok Hf.
  - destruct it as [it|]; [|done]. destruct Hok as [_ Hne].
    cbn in Hf. destruct (it_entry it); [done|cbn in Hf; lia].
  - destruct it as [it|]; [|done]. cbn [hash_walk].
    destruct (it_entry it) as [|e chain] eqn:He; [by destruct Hok|].
    destruct (hash_next_spec _ _ _ _ _ HI Hok He) as (it' & Hn & Hok' & Hp).
    unfold pj_hash_this. rewrite He. cbn [head fmap option_fmap option_map].
    ored. obind Hn. rewrite Hp in *.
    rewrite IH; [done|done|cbn in Hf; lia].
Qed.

Lemma hash_first_spec lower ht :
  hash_inv lower ht ->
  exists it, pj_hash_first ht = Some it /\ it_ok ht it /\
    pending ht it = all_entries ht.
Proof.
  intros HI. unfold pj_hash_first, rows_fuel.
  destruct (scan_rows_spec (Z.to_nat (rows ht + 2 - 0)) ht 0)
    as (it & -> & Hok & Hp); [apply HI|pose proof (hi_rows _ _ HI); lia|lia|].
  by exists it.
Qed.

(** ** The contract as an interface

    What a client of a table whose keys it has canonicalised relies on: the
    table is a finite map.  [kt_key] are the keys the table accepts. *)
Class KeyTable (T : Type) := {
  kt_ok : T -> Prop;
  kt_key : list Z -> Prop;
  kt_canon : list Z -> list Z;
  kt_map : T -> gmap (list Z) nat;
  kt_hash : list Z -> Z;
  kt_get : T -> list Z -> option (option nat);
  kt_set : T -> list Z -> Z -> option nat -> option T;
  kt_count : T -> nat;
  kt_get_ok t k : kt_ok t -> kt_key k ->
    kt_get t k = Some (kt_map t !! kt_canon k);
  kt_set_ok t k hval v : kt_ok t -> kt_key k -> hval = kt_hash k ->
    exists t', kt_set t k hval v = Some t' /\ kt_ok t' /\
      kt_map t' = partial_alter (fun _ => v) (kt_canon k) (kt_map t);
  kt_count_ok t : kt_ok t -> kt_count t = size (kt_map t)
}.

Lemma key_bytes_full bytes :
  Z.of_nat (length bytes) < PJ_HASH_KEY_STRING ->
  key_bytes bytes (Z.of_nat (length bytes)) = Some bytes.
Proof.
  intros H. unfold key_bytes.
  destruct (Z.eqb_spec (Z.of_nat (length bytes)) PJ_HASH_KEY_STRING); [lia|].
  rewrite decide_True by lia. by rewrite Nat2Z.id, firstn_all.
Qed.

Lemma calc_tolower_spec bytes h :
  pj_hash_calc_tolower h bytes =
    (foldl (fun h c => hash_step h (pj_tolower c)) h bytes, pj_tolower <$> bytes).
Proof.
  revert h. induction bytes as [|c bytes IH]; intros h; [done|]. cbn.
  by rewrite IH.
Qed.

(** A case-insensitive table, called the way the SIP transaction layer does:
    [pj_hash_get_lower], and [pj_hash_set_lower] with the hash computed by
    [pj_hash_calc_tolower]. *)
#[export, refine] Instance lower_table : KeyTable pj_hash_table_t := {|
  kt_ok := hash_inv true;
  kt_key k := key_ok true k /\ Z.of_nat (length k) < PJ_HASH_KEY_STRING;
  kt_canon := canon true;
  kt_map := contents true;
  kt_hash k := (pj_hash_calc_tolower 0 k).1;
  kt_get t k := r ← pj_hash_get_lower t k (Z.of_nat (length k)) None; Some r.1;
  kt_set t k hval v := pj_hash_set_lower t k (Z.of_nat (length k)) hval v;
  kt_count := pj_hash_count
|}.
Proof.
  - intros t k Hok [Hk Hlen]. unfold pj_hash_get_lower.
    by erewrite hash_get_spec by (done || by apply key_bytes_full).
  - intros t k hval v Hok [Hk Hlen] Hh. pose proof (key_bytes_full k Hlen) as Hb.
    assert (hval_ok true k hval) as Hv by (right; by rewrite Hh, calc_tolower_spec).
    unfold pj_hash_set_lower. destruct v as [v|].
    + destruct (hash_set_insert true t k _ k hval v Hok Hb Hk Hv)
        as (t' & ? & ? & _ & Hc). by exists t'.
    + destruct (hash_set_delete true t k _ k hval Hok Hb Hv)
        as (t' & ? & ? & _ & Hc). by exists t'.
  - intros t Hok. by apply count_size.
Defined.

(** ** Properties *)

(** C37: setting a key.  The table implements a finite map: a value is bound
    to the key, [NULL] removes it, nothing else changes, and the table
    invariant (entries in the row of their hash, no key twice, exact count)
    is kept. *)
Theorem hash_set_refines lower ht key keylen bytes hval value :
  hash_inv lower ht -> key_bytes key keylen = Some bytes ->
  key_ok lower bytes -> hval_ok lower bytes hval ->
  exists ht', hash_set ht key keylen hval value lower = Some ht' /\
    hash_inv lower ht' /\
    contents lower ht' =
      partial_alter (fun _ => value) (canon lower bytes) (contents lower ht) /\
    pj_hash_count ht' = size (contents lower ht').
Proof.
  intros HI Hk Hko Hv.
  assert (exists ht', hash_set ht key keylen hval value lower = Some ht' /\
    hash_inv lower ht' /\ contents lower ht' =
      partial_alter (fun _ => value) (canon lower bytes) (contents lower ht))
    as (ht' & Hs & HI' & Hc).
  { destruct value as [v|].
    - destruct (hash_set_insert _ _ _ _ _ _ v HI Hk Hko Hv) as (ht' & ? & ? & _ & ?).
      by exists ht'.
    - destruct (hash_set_delete _ _ _ _ _ _ HI Hk Hv) as (ht' & ? & ? & _ & ?).
      by exists ht'. }
  exists ht'. split; [done|]. split; [done|]. split; [done|].
  unfold pj_hash_count. by apply count_size.
Qed.

(** looking up a key, with or without a precomputed hash, gives the
    value bound to it, and reports its hash back. *)
Theorem hash_get_refines lower ht key keylen bytes hval :
  hash_inv lower ht -> key_bytes key keylen = Some bytes ->
  (forall h, hval = Some h -> hval_ok lower bytes h) ->
  hash_get ht key keylen hval lower =
    Some (contents lower ht !! canon lower bytes, hash_of lower bytes).
Proof. apply hash_get_spec. Qed.

(** walking a table from [pj_hash_first] with [pj_hash_next] ends after
    as many steps as there are entries, and sees every value once. *)
Theorem hash_walk_complete lower ht :
  hash_inv lower ht ->
  exists it, pj_hash_first ht = Some it /\
    hash_walk (count ht) ht it = Some (he_value <$> all_entries ht) /\
    (he_value <$> all_entries ht) ≡ₚ (map_to_list (contents lower ht)).*2.
Proof.
  intros HI. destruct (hash_first_spec _ _ HI) as (it & Hf & Hok & Hp).
  exists it. split; [done|]. split.
  - rewrite (hash_walk_spec (count ht) lower ht it HI Hok), Hp; [done|].
    by rewrite Hp, (hi_count _ _ HI).
  - unfold contents. rewrite map_to_list_to_map by by apply contents_nodup.
    by rewrite <- list_fmap_compose.
Qed.

(** creating a table.  Up to 2^31 rows it terminates within 28 doublings
    and gives an empty table of at least [size] rows, a power of two; for a
    larger [size] the doubling wraps to 0 and the loop never ends. *)
Theorem hash_create_total size lower :
  is_u32 size ->
  (size <= 2147483648 -> exists ht m,
     pj_hash_create 28 size = Some ht /\ hash_inv lower ht /\
     contents lower ht = ∅ /\ rows ht + 1 = 2 ^ m /\ size <= rows ht + 1) /\
  (2147483648 < size -> forall fuel, pj_hash_create fuel size = None).
Proof.
  intros Hs. split.
  - intros Hle. destruct (round_up_spec 28 3 size) as (m & Hr & Hm & Hge); [lia..|].
    unfold pj_hash_create. change 8 with (2 ^ 3). obind Hr.
    assert (2 ^ m <= 2 ^ 31) by (apply Z.pow_le_mono_r; lia).
    pose proof (Z.pow_pos_nonneg 2 m).
    rewrite u32_id by (unfold is_u32; lia).
    destruct (empty_inv lower (Z.to_nat (2 ^ m - 1 + 1)) (2 ^ m - 1)) as [HI Hc];
      [lia..|].
    eexists _, m. split; [reflexivity|]. split; [done|]. split; [done|]. cbn. lia.
  - intros Hlt fuel. unfold pj_hash_create.
    change 8 with (u32 (2 ^ 3)). by rewrite round_up_diverges by lia.
Qed.

(** hashing while lowering the case, as the clients that precompute
    hashes do, gives the hash the table computes itself, and the lowered key;
    and [pj_hash_calc] gives it for case-sensitive tables. *)
Theorem hash_calc_agrees bytes :
  Z.of_nat (length bytes) < PJ_HASH_KEY_STRING ->
  pj_hash_calc_tolower 0 bytes = (hash_of true bytes, pj_tolower <$> bytes) /\
  pj_hash_calc 0 bytes (Z.of_nat (length bytes)) = Some (hash_of false bytes).
Proof.
  intros Hl. split; [by rewrite calc_tolower_spec|].
  unfold pj_hash_calc. by obind (key_bytes_full _ Hl).
Qed.

(** ** Witnesses *)

(** [key_ok] of a literal key. *)
Ltac key_ok_tac :=
  split; [repeat (apply Forall_cons_2; [lia|]); apply Forall_nil_2
         |intros _; cbn [removelast]; rewrite ?elem_of_cons, elem_of_nil; lia].

Definition demo_table : pj_hash_table_t :=
  default (mk_hash_table [] 0 0) (pj_hash_create 28 9).

(** The table after binding the key "Ab" to 5. *)
Definition demo_table1 : pj_hash_table_t :=
  default demo_table (pj_hash_set_lower demo_table [65; 98] 2 0 (Some 5%nat)).

Lemma demo_table_inv lower : hash_inv lower demo_table.
Proof. apply (empty_inv lower 16 15); lia. Qed.

Lemma demo_key_ok : key_ok true [65; 98].
Proof. key_ok_tac. Qed.

Lemma demo_table1_inv : hash_inv true demo_table1.
Proof.
  destruct (hash_set_insert true demo_table [65; 98] 2 [65; 98] 0 5
    (demo_table_inv true) eq_refl demo_key_ok) as (ht' & Hs & HI & _); [by left|].
  unfold demo_table1, pj_hash_set_lower. by rewrite Hs.
Qed.

Lemma hash_set_refines_witness :
  exists ht', hash_set demo_table1 [97; 66] 2 (hash_of true [97; 66]) None true
      = Some ht' /\
    hash_inv true ht' /\
    contents true ht' =
      partial_alter (fun _ => None) [97; 98] (contents true demo_table1) /\
    pj_hash_count ht' = size (contents true ht').
Proof.
  apply (hash_set_refines true demo_table1 [97; 66] 2 [97; 66]
           (hash_of true [97; 66]) None).
  - apply demo_table1_inv.
  - reflexivity.
  - key_ok_tac.
  - right. reflexivity.
Defined.

Lemma hash_get_refines_witness :
  hash_get demo_table1 [97; 66; 0; 7] PJ_HASH_KEY_STRING None true =
    Some (contents true demo_table1 !! [97; 98], hash_of true [97; 66]).
Proof.
  apply (hash_get_refines true demo_table1 [97; 66; 0; 7] PJ_HASH_KEY_STRING
           [97; 66] None).
  - apply demo_table1_inv.
  - reflexivity.
  - discriminate.
Defined.

Lemma hash_walk_complete_witness :
  exists it, pj_hash_first demo_table1 = Some it /\
    hash_walk 1 demo_table1 it = Some [5%nat] /\
    [5%nat] ≡ₚ (map_to_list (contents true demo_table1)).*2.
Proof. apply (hash_walk_complete true demo_table1). apply demo_table1_inv. Defined.

Lemma hash_create_total_witness :
  (100 <= 2147483648 -> exists ht m,
     pj_hash_create 28 100 = Some ht /\ hash_inv true ht /\
     contents true ht = ∅ /\ rows ht + 1 = 2 ^ m /\ 100 <= rows ht + 1) /\
  (2147483648 < 100 -> forall fuel, pj_hash_create fuel 100 = None).
Proof. apply (hash_create_total 100 true). split; lia. Defined.

Lemma hash_calc_agrees_witness :
  pj_hash_calc_tolower 0 [65; 98] = (hash_of true [65; 98], [97; 98]) /\
  pj_hash_calc 0 [65; 98] 2 = Some (hash_of false [65; 98]).
Proof. apply (hash_calc_agrees [65; 98]). reflexivity. Defined.
