(* ===== verification/PjString.v ===== *)
(** * Strings

    The string functions of pjlib ([pj/string_i.h], [pj/string.c]) the models
    use: comparison, with and without regard to case, and number printing.  A
    [pj_str_t] is the list of its characters. *)

From Stdlib Require Import String Ascii.
From S2P Require Import Prelude Hash.
Local Open Scope Z_scope.

(** The characters of a C string literal. *)
Definition lit (s : string) : list Z :=
  (fun c => Z.of_N (N_of_ascii c)) <$> list_ascii_of_string s.
#[global] Arguments lit : simpl never.

(** [pj_memcmp] of buffers of at least [n] bytes. *)
Fixpoint memcmp (n : nat) (a b : list Z) : Z :=
  match n, a, b with
  | S n, x :: a, y :: b =>
      if x <? y then -1 else if y <? x then 1 else memcmp n a b
  | _, _, _ => 0
  end.

Definition slen (s : list Z) : Z := Z.of_nat (length s).

Definition pj_strcmp (s1 s2 : list Z) : Z :=
  if slen s1 <=? 0 then (if slen s2 <=? 0 then 0 else -1)
  else if slen s2 <=? 0 then 1
  else
    let min := if slen s1 <? slen s2 then slen s1 else slen s2 in
    let res := memcmp (Z.to_nat min) s1 s2 in
    if res =? 0 then
      (if slen s1 <? slen s2 then -1
       else if slen s1 =? slen s2 then 0 else 1)
    else res.

(** [pj_stricmp(s1, s2) == 0] and [pj_strnicmp(s1, s2, len) == 0]. *)
Definition stricmp_eq (s1 s2 : list Z) : bool :=
  if slen s1 <=? 0 then slen s2 <=? 0
  else if slen s2 <=? 0 then false
  else strncaseeq (Nat.min (length s1) (length s2)) s1 s2 && (slen s1 =? slen s2).

Definition strnicmp_eq (s1 s2 : list Z) (len : nat) : bool :=
  let s1 := if Nat.ltb len (length s1) then take len s1 else s1 in
  let s2 := if Nat.ltb len (length s2) then take len s2 else s2 in
  stricmp_eq s1 s2.

(** [pj_utoa_pad]: the digits are stored least significant first, padded,
    and the buffer is reversed.  A 64-bit value has at most 20 digits. *)
Fixpoint utoa_digits (fuel : nat) (val : Z) : list Z :=
  match fuel with
  | O => []
  | S fuel =>
      (val mod 10 + 48) ::
        (if 0 <? val / 10 then utoa_digits fuel (val / 10) else [])
  end.

Definition pj_utoa_pad (val : Z) (min_dig : nat) (pad : Z) : list Z :=
  let digits := utoa_digits 20 val in
  rev (digits ++ replicate (min_dig - length digits) pad).

Definition pj_utoa (val : Z) : list Z := pj_utoa_pad val 0 0.

(** ** Numbers ([pj_strtoul], [pj_strtol]) *)

Definition pj_isdigit (c : Z) : bool := (48 <=? c) && (c <=? 57).

Definition pj_isspace (c : Z) : bool := (c =? 32) || ((9 <=? c) && (c <=? 13)).

(** An [unsigned long] has 64 bits. *)
Definition u64 (z : Z) : Z := z mod 18446744073709551616.
Definition s64 (z : Z) : Z :=
  let u := u64 z in if u <? 9223372036854775808 then u else u - 18446744073709551616.

(** The loop of [pj_strtoul] and of [pj_strtoul2] in base 10. *)
Fixpoint strtoul_loop (value : Z) (s : list Z) : Z :=
  match s with
  | [] => value
  | c :: s => if pj_isdigit c then strtoul_loop (u64 (value * 10 + (c - 48))) s else value
  end.

Definition pj_strtoul (s : list Z) : Z := strtoul_loop 0 s.

Definition pj_strtol (s : list Z) : Z :=
  match s with
  | c :: s' =>
      if (c =? 43) || (c =? 45)
      then (if c =? 45 then s64 (- s64 (pj_strtoul s')) else s64 (pj_strtoul s'))
      else s64 (pj_strtoul s)
  | [] => s64 (pj_strtoul s)
  end.

Fixpoint pj_strltrim (s : list Z) : list Z :=
  match s with
  | c :: s' => if pj_isspace c then pj_strltrim s' else s
  | [] => []
  end.

(** The loop of [pj_strtoul3] in base 10: it stops with [PJ_ETOOBIG] instead
    of wrapping around. *)
Fixpoint strtoul3_loop (value : Z) (s : list Z) : Z * Z :=
  match s with
  | [] => (PJ_SUCCESS, value)
  | ch :: s =>
      let c := ch - 48 in
      if (ch <? 48) || (57 <? ch) then (PJ_SUCCESS, value)
      else if PJ_MAXULONG / 10 <? value then (PJ_ETOOBIG, PJ_MAXULONG)
      else
        let value := value * 10 in
        if PJ_MAXULONG - value <? c then (PJ_ETOOBIG, PJ_MAXULONG)
        else strtoul3_loop (value + c) s
  end.

(** [pj_strtoul3(str, value, 10)]: the status and, on success, the value. *)
Definition pj_strtoul3 (s : list Z) : Z * Z :=
  match pj_strltrim s with
  | [] => (PJ_EINVAL, 0)
  | c :: s' =>
      if (c <? 48) || (57 <? c) then (PJ_EINVAL, 0) else strtoul3_loop 0 (c :: s')
  end.

(** ** Tokens ([pj_strtok2]) *)

Definition in_set (set : list Z) (c : Z) : bool := existsb (Z.eqb c) set.

Fixpoint pj_strspn2 (s set : list Z) : nat :=
  match s with
  | c :: s => if in_set set c then S (pj_strspn2 s set) else O
  | [] => O
  end.

Fixpoint pj_strcspn2 (s set : list Z) : nat :=
  match s with
  | c :: s => if in_set set c then O else S (pj_strcspn2 s set)
  | [] => O
  end.

(** [pj_strtok2(str, delim, tok, start_idx)]: the index and the token. *)
Definition pj_strtok2 (s delim : list Z) (start : nat) : nat * list Z :=
  if (slen s <=? 0) || Nat.ltb (length s) start then (length s, [])
  else
    let tok := drop start s in
    let idx := pj_strspn2 tok delim in
    if Nat.eqb (start + idx) (length s) then (length s, tok)
    else
      let tok := drop idx tok in
      ((start + idx)%nat, take (pj_strcspn2 tok delim) tok).

(** An [int] passed as [unsigned long]. *)
Definition int_to_ulong (z : Z) : Z := z mod 18446744073709551616.

(** ** [pj_utoa] *)

Definition is_digit (c : Z) : Prop := 48 <= c <= 57.

(** The value of decimal digits, most significant first. *)
Definition decimal (s : list Z) : Z := foldl (fun a c => 10 * a + (c - 48)) 0 s.

Lemma decimal_snoc s c : decimal (s ++ [c]) = 10 * decimal s + (c - 48).
Proof. unfold decimal. by rewrite foldl_app. Qed.

Lemma decimal_one c : decimal (rev [c]) = c - 48.
Proof. unfold decimal. cbn [rev app foldl]. lia. Qed.

Lemma utoa_digits_spec fuel val :
  0 <= val < 10 ^ Z.of_nat (S fuel) ->
  decimal (rev (utoa_digits (S fuel) val)) = val /\
  Forall is_digit (utoa_digits (S fuel) val) /\
  (forall k, 0 < k -> val < 10 ^ k -> slen (utoa_digits (S fuel) val) <= k) /\
  1 <= slen (utoa_digits (S fuel) val).
Proof.
  unfold slen. revert val. induction fuel as [|fuel IH]; intros val Hv;
    pose proof (Z.div_mod val 10); pose proof (Z.mod_pos_bound val 10);
    (assert (Hd : is_digit (val mod 10 + 48)) by (unfold is_digit; lia)).
  - change (10 ^ Z.of_nat 1) with 10 in Hv.
    assert (utoa_digits 1 val = [val mod 10 + 48]) as ->.
    { cbn [utoa_digits]. by destruct (0 <? val / 10). }
    rewrite decimal_one. assert (val mod 10 = val) by (apply Z.mod_small; lia). split; [lia|]. split; [by constructor|].
    split; [intros k ??|]; cbn [length]; lia.
  - cbn [utoa_digits] in *. destruct (Z.ltb_spec 0 (val / 10)) as [Hp|Hp].
    2:{ assert (val / 10 = 0) by (apply Z.le_antisymm; [done|]; apply Z.div_pos; lia).
        rewrite decimal_one. split; [lia|]. split; [by constructor|].
        split; [intros k ??|]; cbn [length]; lia. }
    assert (Hr : 0 <= val / 10 < 10 ^ Z.of_nat (S fuel)).
    { rewrite Nat2Z.inj_succ, Z.pow_succ_r in Hv by lia. split; [lia|].
      apply Z.div_lt_upper_bound; lia. }
    destruct (IH (val / 10) Hr) as (H1 & H2 & H3 & H4).
    set (ds := _ :: (if 0 <? val / 10 / 10 then _ else [])) in *.
    cbn [rev]. rewrite decimal_snoc, H1. split; [lia|].
    split; [by constructor|]. split; [|cbn [length]; lia].
    intros k Hk Hlt. cbn [length]. rewrite Nat2Z.inj_succ.
    destruct (Z.eq_dec k 1) as [->|]; [change (10 ^ 1) with 10 in Hlt; rewrite Z.div_small in Hp; lia|].
    assert (Z.of_nat (length ds) <= k - 1); [|lia]. apply H3; [lia|].
    apply Z.div_lt_upper_bound; [lia|]. rewrite <- Z.pow_succ_r by lia.
    by replace (Z.succ (k - 1)) with k by lia.
Qed.

Lemma utoa_spec val : 0 <= val < 2 ^ 64 -> pj_utoa val = rev (utoa_digits 20 val).
Proof. intros _. unfold pj_utoa, pj_utoa_pad. cbn [Nat.sub]. by rewrite app_nil_r. Qed.

Lemma utoa_length val k : 0 <= val < 2 ^ 64 -> 0 < k -> val < 10 ^ k -> slen (pj_utoa val) <= k.
Proof.
  intros Hv Hk Hlt. rewrite utoa_spec by done. unfold slen. rewrite length_rev.
  by apply (utoa_digits_spec 19 val); [lia|..].
Qed.

(** [pj_utoa] prints the decimal digits of every 64-bit value, at most
    20 of them. *)
Theorem utoa_decimal val :
  0 <= val < 2 ^ 64 ->
  decimal (pj_utoa val) = val /\ Forall is_digit (pj_utoa val) /\ 1 <= slen (pj_utoa val) <= 20.
Proof.
  intros Hv. destruct (utoa_digits_spec 19 val) as (H1 & H2 & H3 & H4); [lia|].
  rewrite utoa_spec by done. split; [done|]. split; [by apply Forall_rev|].
  unfold slen in *. rewrite length_rev. split; [done|]. apply H3; lia.
Qed.

(** ** Lengths and comparison *)

Lemma memcmp_refl n a : memcmp n a a = 0.
Proof. revert a. induction n as [|n IH]; intros [|x a]; cbn [memcmp]; try done. by rewrite Z.ltb_irrefl. Qed.

Lemma memcmp_eq a b : length a = length b -> memcmp (length a) a b = 0 -> a = b.
Proof.
  revert b. induction a as [|x a IH]; intros [|y b] Hl; cbn [memcmp length] in *; try done.
  destruct (x <? y) eqn:E1; [done|]. destruct (y <? x) eqn:E2; [done|]. zbool.
  intros H. f_equal; [lia|]. by apply IH; [lia|].
Qed.

(** [pj_strcmp] decides equality. *)
Lemma strcmp_0 a b : pj_strcmp a b = 0 <-> a = b.
Proof.
  unfold pj_strcmp, slen. destruct a as [|x a]; destruct b as [|y b]; try done.
  remember (x :: a) as s1 eqn:E1. remember (y :: b) as s2 eqn:E2.
  assert (0 < length s1 /\ 0 < length s2)%nat as [H1 H2] by (subst; cbn; lia). clear E1 E2.
  destruct (Z.leb_spec (Z.of_nat (length s1)) 0); [lia|].
  destruct (Z.leb_spec (Z.of_nat (length s2)) 0); [lia|].
  split.
  - cbv zeta. destruct (Z.ltb_spec (Z.of_nat (length s1)) (Z.of_nat (length s2)));
      destruct (memcmp _ _ _ =? 0) eqn:E; zbool; try done.
    destruct (Z.eqb_spec (Z.of_nat (length s1)) (Z.of_nat (length s2))); [|done].
    intros _. assert (length s1 = length s2) by lia. apply memcmp_eq; [done|].
    by replace (length s1) with (Z.to_nat (Z.of_nat (length s2))) by lia.
  - intros ->. rewrite Z.ltb_irrefl, memcmp_refl, !Z.eqb_refl. done.
Qed.

Lemma strcmp_eqb a b : (pj_strcmp a b =? 0) = bool_decide (a = b).
Proof.
  apply eq_bool_prop_intro. rewrite bool_decide_spec, <- strcmp_0. unfold Is_true.
  destruct (Z.eqb_spec (pj_strcmp a b) 0); split; done.
Qed.

Lemma strcmp_refl a : pj_strcmp a a = 0.
Proof. by apply strcmp_0. Qed.

Lemma slen_app a b : slen (a ++ b) = slen a + slen b.
Proof. unfold slen. rewrite length_app. lia. Qed.

Lemma slen_cons c s : slen (c :: s) = 1 + slen s.
Proof. unfold slen. cbn [length]. lia. Qed.

Lemma slen_nonneg s : 0 <= slen s.
Proof. unfold slen. lia. Qed.

(** Equality up to the case of letters, which is how the table compares. *)
Definition ci_eq (a b : list Z) : Prop := pj_tolower <$> a = pj_tolower <$> b.

Lemma strncaseeq_ci a b :
  length a = length b -> Forall (fun c => pj_tolower c <> 0) b ->
  strncaseeq (length b) a b = true <-> ci_eq a b.
Proof.
  unfold ci_eq. revert b. induction a as [|x a IH]; intros [|y b] Hl Hb; try done.
  inversion Hb as [|? ? Hy Hb']; subst. cbn [length strncaseeq fmap list_fmap].
  rewrite andb_true_iff, orb_true_iff, !Z.eqb_eq.
  assert (IH' := IH b ltac:(cbn in Hl; lia) Hb'). rewrite IH'.
  split; [|by intros [= -> ->]; auto]. intros [Hx [->|H]]; [|by rewrite Hx, H].
  exfalso. by apply Hy.
Qed.

(** ** [pj_stricmp] is an equivalence *)

Lemma tolower_nul c : pj_tolower c = 0 <-> c = 0.
Proof. unfold pj_tolower. split; intros H; destruct (_ && _) eqn:E; zbool; subst; try lia; done. Qed.

Lemma stricmp_eq_spec a b :
  stricmp_eq a b = true <-> length a = length b /\ strncaseeq (length a) a b = true.
Proof.
  unfold stricmp_eq, slen.
  destruct (Z.leb_spec (Z.of_nat (length a)) 0); destruct (Z.leb_spec (Z.of_nat (length b)) 0);
    destruct a as [|x a], b as [|y b]; cbn [length] in *; try (by split; intros; [split|]; try lia);
    try (by split; [done|intros [? _]]); try lia.
  rewrite andb_true_iff, Z.eqb_eq. split; intros [H1 H2]; (split; [try lia|try lia]);
    [by replace (S (length a)) with (Nat.min (S (length a)) (S (length b))) by lia|].
  by replace (Nat.min (S (length a)) (S (length b))) with (S (length a)) by lia.
Qed.

Lemma strncaseeq_refl a n : strncaseeq n a a = true.
Proof.
  revert n. induction a as [|x a IH]; intros [|n]; cbn [strncaseeq]; try done.
  by rewrite Z.eqb_refl, IH, orb_true_r.
Qed.

Lemma strncaseeq_sym n a b : strncaseeq n a b = true -> strncaseeq n b a = true.
Proof.
  revert n b. induction a as [|x a IH]; intros [|n] [|y b]; cbn [strncaseeq]; try done.
  rewrite !andb_true_iff, !orb_true_iff, !Z.eqb_eq. intros [E [->|H]]; (split; [done|]).
  - left. by apply tolower_nul.
  - right. by apply IH.
Qed.

Lemma strncaseeq_trans n a b c :
  (n <= length b)%nat -> strncaseeq n a b = true -> strncaseeq n b c = true ->
  strncaseeq n a c = true.
Proof.
  revert n b c. induction a as [|x a IH]; intros [|n] [|y b] [|z c]; cbn [strncaseeq length]; try done; try lia.
  intros Hl. rewrite !andb_true_iff, !orb_true_iff, !Z.eqb_eq. intros [E H] [E' H'].
  split; [congruence|]. destruct H as [->|H]; [by left|]. destruct H' as [->|H'].
  - left. by apply tolower_nul.
  - right. apply (IH n b c); [lia|done..].
Qed.

(** Equality of strings up to case. *)
Definition str_ci (a b : list Z) : Prop := stricmp_eq a b = true.

#[export] Instance str_ci_equiv : Equivalence str_ci.
Proof.
  split.
  - intros a. apply stricmp_eq_spec. split; [done|]. apply strncaseeq_refl.
  - intros a b [Hl H]%stricmp_eq_spec. apply stricmp_eq_spec. split; [done|].
    apply strncaseeq_sym. by rewrite <- Hl.
  - intros a b c [Hl H]%stricmp_eq_spec [Hl' H']%stricmp_eq_spec. apply stricmp_eq_spec.
    split; [congruence|]. rewrite <- Hl in H'. eapply strncaseeq_trans; [|done..]. lia.
Qed.

#[export] Instance stricmp_eq_proper : Proper (str_ci ==> str_ci ==> eq) stricmp_eq.
Proof.
  intros a a' Ha b b' Hb. apply eq_bool_prop_intro. unfold Is_true.
  enough (str_ci a b <-> str_ci a' b') as H by (unfold str_ci in H; destruct (stricmp_eq a b), (stricmp_eq a' b'); intuition done).
  by rewrite Ha, Hb.
Qed.

(** ** [pj_strtoul3] agrees with [pj_strtoul] *)

Lemma u64_id z : 0 <= z <= PJ_MAXULONG -> u64 z = z.
Proof. intros H. apply Z.mod_small. unfold PJ_MAXULONG in H. lia. Qed.

Lemma strtoul3_loop_agrees s value pt :
  0 <= value <= PJ_MAXULONG -> strtoul3_loop value s = (PJ_SUCCESS, pt) ->
  strtoul_loop value s = pt.
Proof.
  revert value. induction s as [|c s IH]; intros value Hv; cbn [strtoul3_loop strtoul_loop]; [congruence|].
  unfold pj_isdigit. destruct ((c <? 48) || (57 <? c)) eqn:E.
  - intros [= ->]. destruct (48 <=? c) eqn:E1, (c <=? 57) eqn:E2; try done. exfalso.
    apply orb_true_iff in E. zbool. destruct E; zbool; lia.
  - zbool. rewrite (proj2 (Z.leb_le 48 c)), (proj2 (Z.leb_le c 57)) by lia. cbn [andb].
    destruct (PJ_MAXULONG / 10 <? value) eqn:E2; [done|].
    destruct (PJ_MAXULONG - value * 10 <? c - 48) eqn:E3; [done|]. zbool.
    rewrite u64_id by lia. apply IH. lia.
Qed.

Lemma strtoul3_agrees c s pt :
  pj_isdigit c = true -> pj_strtoul3 (c :: s) = (PJ_SUCCESS, pt) -> pj_strtoul (c :: s) = pt.
Proof.
  unfold pj_isdigit, pj_strtoul3, pj_strtoul. intros Hc. zbool. cbn [pj_strltrim].
  unfold pj_isspace. destruct (c =? 32) eqn:E1; [zbool; lia|].
  destruct ((9 <=? c) && (c <=? 13)) eqn:E2; [zbool; lia|]. cbn [orb].
  destruct ((c <? 48) || (57 <? c)) eqn:E3; [done|]. apply strtoul3_loop_agrees. done.
Qed.

(** ** [pj_strtoul] reads what [pj_utoa] prints *)

Lemma strtoul_digits s v :
  Forall is_digit s -> strtoul_loop (u64 v) s = u64 (foldl (fun a c => 10 * a + (c - 48)) v s).
Proof.
  intros Hs. revert v. induction Hs as [|c s Hc Hs IH]; intros v; cbn [strtoul_loop foldl]; [done|].
  unfold is_digit in Hc. unfold pj_isdigit. rewrite (proj2 (Z.leb_le 48 c)), (proj2 (Z.leb_le c 57)) by lia.
  cbn [andb]. rewrite <- IH. f_equal. unfold u64.
  rewrite Z.add_mod, Z.mul_mod_idemp_l, <- Z.add_mod by lia. f_equal. lia.
Qed.

Lemma strtoul_utoa v : 0 <= v < 2 ^ 64 -> pj_strtoul (pj_utoa v) = v.
Proof.
  intros Hv. destruct (utoa_decimal v Hv) as (Hd & Hf & _). unfold pj_strtoul.
  change 0 with (u64 0). rewrite strtoul_digits by done. fold (decimal (pj_utoa v)). rewrite Hd.
  apply Z.mod_small. lia.
Qed.

Lemma utoa_digit v : 0 <= v < 2 ^ 64 -> Forall is_digit (pj_utoa v).
Proof. intros Hv. by destruct (utoa_decimal v Hv) as (_ & ? & _). Qed.

Lemma utoa_nonempty v : 0 <= v < 2 ^ 64 -> pj_utoa v <> [].
Proof. intros Hv. destruct (utoa_decimal v Hv) as (_ & _ & H). intros E. rewrite E in H. unfold slen in H. cbn in H. lia. Qed.
