(* ===== verification/Scanner.v ===== *)
(** * The text scanner

    [pjlib-util/scanner.c]: the functions the SDP and SIP parsers use.  A scanner is
    what is left of its input, a buffer followed by a zero byte, which is in
    no character class.  A syntax error calls the scanner's callback, which
    throws: [None].  The positions kept for messages are left out.  The
    argument [skip_ws] is the scanner's field of that name: the flags it was
    made with, which say what is skipped after a token. *)

From S2P Require Import Prelude PjString.
Local Open Scope Z_scope.

Definition scan (A : Type) : Type := list Z -> option (A * list Z).

#[export] Instance scan_ret : MRet scan := fun A a s => Some (a, s).
#[export] Instance scan_bind : MBind scan := fun A B f m s =>
  match m s with Some (a, s) => f a s | None => None end.

(** The callback. *)
Definition pj_scan_syntax_err {A} : scan A := fun s => None.

(** [*scanner->curptr] *)
Definition curchar (s : list Z) : Z := match s with c :: _ => c | [] => 0 end.

Definition pj_scan_is_eof (s : list Z) : bool := match s with [] => true | _ => false end.

(** The same in a sequence of scanner calls. *)
Definition at_eof : scan bool := fun s => Some (pj_scan_is_eof s, s).
Definition peek : scan Z := fun s => Some (curchar s, s).

Definition scan_is_space (c : Z) : bool := (c =? 32) || (c =? 9).

Definition scan_is_newline (c : Z) : bool := (c =? 13) || (c =? 10).

(** [(c) <= 32], of a signed [char]. *)
Definition scan_is_probably_space (c : Z) : bool := (c <=? 32) || (128 <=? c).

Definition PJ_SCAN_AUTOSKIP_WS : Z := 1.
Definition PJ_SCAN_AUTOSKIP_WS_HEADER : Z := 3.
Definition PJ_SCAN_AUTOSKIP_NEWLINE : Z := 4.

(** The loops over the characters that satisfy [spec]. *)
Fixpoint scan_skip (spec : Z -> bool) (s : list Z) : list Z :=
  match s with
  | c :: s' => if spec c then scan_skip spec s' else s
  | [] => []
  end.

(** Skip the character [c], if it is next. *)
Definition scan_skip_one (c : Z) (s : list Z) : list Z :=
  match s with d :: s' => if d =? c then s' else s | [] => [] end.

(** Spaces; newlines too if the flag for them is set; with the flag for
    headers, a newline that a space follows, and the spaces after it. *)
Definition pj_scan_skip_whitespace (skip_ws : Z) (s : list Z) : list Z :=
  let s := scan_skip scan_is_space s in
  let s := if scan_is_newline (curchar s) && negb (Z.land skip_ws PJ_SCAN_AUTOSKIP_NEWLINE =? 0)
           then scan_skip (fun c => scan_is_newline c || scan_is_space c) s else s in
  if scan_is_newline (curchar s) &&
     (Z.land skip_ws PJ_SCAN_AUTOSKIP_WS_HEADER =? PJ_SCAN_AUTOSKIP_WS_HEADER)
  then
    let t := scan_skip_one 10 (scan_skip_one 13 s) in
    if scan_is_space (curchar t) then scan_skip scan_is_space t else s
  else s.

(** The characters at the start of the input that satisfy [spec]. *)
Fixpoint scan_span (spec : Z -> bool) (s : list Z) : list Z * list Z :=
  match s with
  | c :: s' => if spec c then let '(tok, r) := scan_span spec s' in (c :: tok, r) else ([], s)
  | [] => ([], [])
  end.

(** Skip the rest of the line, with its newline. *)
Definition pj_scan_skip_line (s : list Z) : list Z :=
  match scan_span (fun c => negb (c =? 10)) s with (_, r) => tail r end.

Definition pj_scan_get_newline : scan unit := fun s =>
  match s with
  | [] => None
  | c :: s' =>
      if negb (scan_is_newline c) then None
      else
        let s := if c =? 13 then s' else s in
        Some (tt, match s with d :: s' => if d =? 10 then s' else s | [] => [] end)
  end.

Section autoskip.
Context (skip_ws : Z).

Definition scan_skip_if_space (s : list Z) : list Z :=
  match s with
  | c :: _ => if scan_is_probably_space c && negb (skip_ws =? 0) then pj_scan_skip_whitespace skip_ws s else s
  | [] => []
  end.

(** [pj_scan_init] *)
Definition pj_scan_init (buf : list Z) : list Z :=
  if negb (skip_ws =? 0) then pj_scan_skip_whitespace skip_ws buf else buf.

(** A token of characters of [spec], at least one. *)
Definition pj_scan_get (spec : Z -> bool) : scan (list Z) := fun s =>
  match s with
  | [] => None
  | c :: _ =>
      if spec c then
        let '(tok, r) := scan_span spec s in Some (tok, scan_skip_if_space r)
      else None
  end.

Definition pj_scan_get_char : scan Z := fun s =>
  match s with
  | [] => None
  | c :: s' => if c =? 0 then None else Some (c, scan_skip_if_space s')
  end.

(** Everything up to a character. *)
Definition pj_scan_get_until_ch (until_char : Z) : scan (list Z) := fun s =>
  match s with
  | [] => None
  | _ =>
      let '(out, r) := scan_span (fun c => negb (c =? until_char)) s in
      Some (out, scan_skip_if_space r)
  end.

(** Everything up to a character of a set. *)
Definition pj_scan_get_until_chr (until_spec : list Z) : scan (list Z) := fun s =>
  match s with
  | [] => None
  | _ =>
      let '(out, r) := scan_span (fun c => negb (in_set until_spec c)) s in
      Some (out, scan_skip_if_space r)
  end.

(** The argument [skip] of the call is another flag than the scanner's. *)
Definition pj_scan_advance_n (n : nat) (skip : bool) : scan unit := fun s =>
  if Nat.ltb (length s) n then None
  else
    let s := drop n s in
    Some (tt, match s with
              | c :: _ => if scan_is_probably_space c && skip then pj_scan_skip_whitespace skip_ws s else s
              | [] => []
              end).
End autoskip.

(** ** Reading back what was written *)

Lemma span_app spec x r :
  Forall (fun c => spec c = true) x -> match r with [] => True | d :: _ => spec d = false end ->
  scan_span spec (x ++ r) = (x, r).
Proof.
  intros Hx Hr. induction Hx as [|c x Hc Hx IH]; cbn [app scan_span].
  - destruct r as [|d r]; cbn [scan_span]; [done|]. by rewrite Hr.
  - by rewrite Hc, IH.
Qed.

Lemma span_spec spec s x r :
  scan_span spec s = (x, r) -> s = x ++ r /\ Forall (fun c => spec c = true) x.
Proof.
  revert x r. induction s as [|c s IH]; cbn [scan_span]; intros x r.
  - intros [= <- <-]. done.
  - destruct (spec c) eqn:E; [|intros [= <- <-]; done].
    destruct (scan_span spec s) as [x1 r1]. intros [= <- <-].
    destruct (IH x1 r1) as [-> Hx]; [done|]. split; [done|]. by constructor.
Qed.

Lemma skip_if_0 s : scan_skip_if_space 0 s = s.
Proof. destruct s as [|c s]; [done|]. cbn [scan_skip_if_space]. by rewrite andb_false_r. Qed.

Lemma not_probably_space c :
  scan_is_probably_space c = false -> scan_is_space c = false /\ scan_is_newline c = false.
Proof.
  unfold scan_is_probably_space, scan_is_space, scan_is_newline. intros [H _]%orb_false_iff.
  apply Z.leb_gt in H. rewrite !orb_false_iff, !Z.eqb_neq. lia.
Qed.

Lemma skip_whitespace_head b c s :
  scan_is_probably_space c = false -> pj_scan_skip_whitespace b (c :: s) = c :: s.
Proof.
  intros [H1 H2]%not_probably_space. unfold pj_scan_skip_whitespace. cbn [scan_skip curchar]. rewrite H1.
  cbn [curchar]. rewrite H2. cbn [andb curchar]. rewrite H2. done.
Qed.

(** No character of [x] is [c]; none is in [set]. *)
Definition lacks (c : Z) (x : list Z) : Prop := Forall (fun d => d <> c) x.
Definition lacks_set (set : list Z) (x : list Z) : Prop := Forall (fun d => in_set set d = false) x.

Lemma skip_line_app x r : lacks 10 x -> pj_scan_skip_line (x ++ 10 :: r) = r.
Proof.
  intros H. unfold pj_scan_skip_line. rewrite span_app; [done| |done].
  eapply Forall_impl; [done|]. intros d Hd. cbn. by apply negb_true_iff, Z.eqb_neq.
Qed.

Lemma get_until_ch_app c x r :
  lacks c x -> pj_scan_get_until_ch 0 c (x ++ c :: r) = Some (x, c :: r).
Proof.
  intros H. unfold pj_scan_get_until_ch. rewrite span_app.
  - rewrite skip_if_0. by destruct x.
  - eapply Forall_impl; [done|]. intros d Hd. cbn. by apply negb_true_iff, Z.eqb_neq.
  - cbn. by rewrite Z.eqb_refl.
Qed.

Lemma get_until_chr_app set x d r :
  lacks_set set x -> in_set set d = true ->
  pj_scan_get_until_chr 0 set (x ++ d :: r) = Some (x, d :: r).
Proof.
  intros H Hd. unfold pj_scan_get_until_chr. rewrite span_app.
  - rewrite skip_if_0. by destruct x.
  - eapply Forall_impl; [done|]. intros e He. cbn. by rewrite He.
  - cbn. by rewrite Hd.
Qed.

Lemma get_app skip spec x d r :
  x <> [] -> Forall (fun c => spec c = true) x -> spec d = false ->
  pj_scan_get skip spec (x ++ d :: r) = Some (x, scan_skip_if_space skip (d :: r)).
Proof.
  intros Hx H Hd. unfold pj_scan_get. rewrite span_app by done.
  destruct x as [|c x]; [done|]. cbn [app]. inversion H. by subst; rewrite H2.
Qed.

Lemma get_end skip spec x :
  x <> [] -> Forall (fun c => spec c = true) x ->
  pj_scan_get skip spec x = Some (x, []).
Proof.
  intros Hx H. assert (E : scan_span spec x = (x, [])).
  { pose proof (span_app spec x [] H I) as E. by rewrite app_nil_r in E. }
  unfold pj_scan_get. rewrite E.
  destruct x as [|c x]; [done|]. inversion H. by subst; rewrite H2.
Qed.

(** ** Progress *)

(** A success takes at least [k] characters. *)
Definition takes {A} (k : nat) (m : scan A) : Prop :=
  forall s a s', m s = Some (a, s') -> (length s' + k <= length s)%nat.

Lemma takes_bind {A B} j k n (m : scan A) (f : A -> scan B) :
  takes j m -> (forall a, takes k (f a)) -> n = (j + k)%nat -> takes n (mbind f m).
Proof.
  intros Hm Hf -> s b s'. unfold mbind, scan_bind. destruct (m s) as [[a s1]|] eqn:E; [|done].
  intros H. specialize (Hm s a s1 E). specialize (Hf a s1 b s' H). lia.
Qed.

Lemma takes_bind_0 {A B} k (m : scan A) (f : A -> scan B) :
  takes k m -> (forall a, takes 0 (f a)) -> takes k (mbind f m).
Proof. intros H1 H2. by eapply takes_bind; [apply H1|apply H2|]. Qed.

Lemma takes_0_bind {A B} k (m : scan A) (f : A -> scan B) :
  takes 0 m -> (forall a, takes k (f a)) -> takes k (mbind f m).
Proof. intros H1 H2. by eapply takes_bind; [apply H1|apply H2|]. Qed.

Lemma takes_ret {A} (a : A) : takes 0 (mret a : scan A).
Proof. intros s b s' [= <- <-]. lia. Qed.

Lemma takes_err {A} k : takes k (pj_scan_syntax_err : scan A).
Proof. intros s b s' [=]. Qed.

Lemma takes_peek : takes 0 peek.
Proof. intros s b s' [= <- <-]. lia. Qed.

Lemma takes_eof : takes 0 at_eof.
Proof. intros s b s' [= <- <-]. lia. Qed.

Lemma scan_skip_length spec s : (length (scan_skip spec s) <= length s)%nat.
Proof. induction s as [|c s IH]; cbn; [lia|]. destruct (spec c); cbn [length]; lia. Qed.

Lemma skip_one_length c s : (length (scan_skip_one c s) <= length s)%nat.
Proof. destruct s as [|d s]; cbn; [lia|]. destruct (d =? c); cbn [length]; lia. Qed.

Lemma skip_whitespace_length b s : (length (pj_scan_skip_whitespace b s) <= length s)%nat.
Proof.
  unfold pj_scan_skip_whitespace. set (s1 := scan_skip scan_is_space s).
  pose proof (scan_skip_length scan_is_space s : (length s1 <= length s)%nat) as H1. clearbody s1.
  match goal with |- context [if ?c then scan_skip ?p s1 else s1] =>
    set (s2 := if c then scan_skip p s1 else s1);
    assert (H2 : (length s2 <= length s1)%nat) by (subst s2; destruct c; [apply scan_skip_length|done]) end.
  clearbody s2. destruct (_ && _); [|lia]. destruct (scan_is_space _); [|lia].
  etrans; [apply scan_skip_length|]. etrans; [apply skip_one_length|].
  etrans; [apply skip_one_length|]. lia.
Qed.

Lemma skip_if_length b s : (length (scan_skip_if_space b s) <= length s)%nat.
Proof.
  destruct s as [|c s]; [done|]. unfold scan_skip_if_space. destruct (_ && _); [|done].
  apply skip_whitespace_length.
Qed.

Lemma span_length spec s x r : scan_span spec s = (x, r) -> (length x + length r = length s)%nat.
Proof. intros [-> _]%span_spec. by rewrite length_app. Qed.

Lemma takes_advance k n b : takes n (pj_scan_advance_n k n b).
Proof.
  intros s [] s'. unfold pj_scan_advance_n. destruct (Nat.ltb_spec (length s) n); [done|].
  assert (Hd : (length (drop n s) + n <= length s)%nat) by (rewrite length_drop; lia). revert Hd.
  destruct (drop n s) as [|c r]; intros Hd [= <-]; [done|].
  change (length (if scan_is_probably_space c && b then pj_scan_skip_whitespace k (c :: r) else c :: r) + n
          <= length s)%nat.
  destruct (_ && _); [|done]. pose proof (skip_whitespace_length k (c :: r)). lia.
Qed.

Lemma takes_get_char b : takes 1 (pj_scan_get_char b).
Proof.
  intros s c s'. unfold pj_scan_get_char. destruct s as [|d s]; [done|]. destruct (d =? 0); [done|].
  intros [= _ <-]. pose proof (skip_if_length b s). cbn [length]. lia.
Qed.

Lemma takes_get b spec : takes 1 (pj_scan_get b spec).
Proof.
  intros s x s'. unfold pj_scan_get. destruct s as [|c s]; [done|]. cbn [scan_span].
  destruct (spec c); [|done]. destruct (scan_span spec s) as [y r] eqn:E. intros [= _ <-].
  apply span_length in E. pose proof (skip_if_length b r). cbn [length]. lia.
Qed.

Lemma takes_until_ch b c : takes 0 (pj_scan_get_until_ch b c).
Proof.
  intros s x s'. unfold pj_scan_get_until_ch. destruct s as [|d s]; [done|].
  destruct (scan_span _ _) as [y r] eqn:E. intros [= _ <-].
  apply span_length in E. pose proof (skip_if_length b r). lia.
Qed.

Lemma takes_until_chr b set : takes 0 (pj_scan_get_until_chr b set).
Proof.
  intros s x s'. unfold pj_scan_get_until_chr. destruct s as [|d s]; [done|].
  destruct (scan_span _ _) as [y r] eqn:E. intros [= _ <-].
  apply span_length in E. pose proof (skip_if_length b r). lia.
Qed.

Lemma skip_line_length s : (length (pj_scan_skip_line s) <= pred (length s))%nat.
Proof.
  unfold pj_scan_skip_line. destruct (scan_span _ _) as [y r] eqn:E. apply span_length in E.
  destruct r as [|c r]; cbn [tail length] in *; lia.
Qed.

Lemma takes_newline : takes 0 pj_scan_get_newline.
Proof.
  intros s [] s'. unfold pj_scan_get_newline. destruct s as [|c s]; [done|]. destruct (negb _); [done|].
  intros [= <-]. destruct (c =? 13); cbn [length].
  - destruct s as [|d s]; cbn [length]; [lia|]. destruct (d =? 10); cbn [length]; lia.
  - destruct (c =? 10); cbn [length]; lia.
Qed.

Lemma takes_weak {A} k (m : scan A) : takes k m -> takes 0 m.
Proof. intros H s a s' E. specialize (H s a s' E). lia. Qed.

Create HintDb takes.
#[export] Hint Resolve takes_ret takes_err takes_peek takes_eof takes_until_ch takes_until_chr
  takes_newline : takes.
#[export] Hint Extern 1 (takes 0 (pj_scan_get_char _)) => eapply takes_weak, takes_get_char : takes.
#[export] Hint Extern 1 (takes 0 (pj_scan_get _ _)) => eapply takes_weak, takes_get : takes.

(** Follow a sequence of scanner calls to the call that counts. *)
Ltac takes :=
  repeat first
    [ done | solve [eauto with takes]
    | apply takes_0_bind; [solve [eauto with takes]|intros ?]
    | match goal with |- takes _ (if ?b then _ else _) => destruct b end
    | match goal with |- takes _ (let _ := _ in _) => cbv zeta end ].
