(* ===== verification/Jbuf.v ===== *)
(** * The adaptive jitter buffer ([pjmedia/src/pjmedia/jbuf.c])

    The five parallel arrays of [jb_framelist_t] are one array of slots.
    Fields are [Z]; arithmetic of unsigned type is reduced modulo 2^32, a
    conversion to [int] wraps ([s32]), and the result of an operation on [int]
    that does not fit is undefined ([sint]).  The optional output pointers are
    all given.  [pj_math_stat] is modelled in its integer
    configuration ([PJ_HAS_FLOATING_POINT = 0]); the statistics are only
    reported, and their sums are not bounded. *)

From S2P Require Import Prelude.
Local Open Scope Z_scope.

(** ** Constants *)

Definition INVALID_OFFSET : Z := -9999.
Definition MAX_BURST_MSEC : Z := 1000.
Definition INIT_CYCLE : Z := 10.
Definition MAX_FRAME_INDEX : Z := 4294967295 / 9000.
Definition STA_DISC_SAFE_SHRINKING_DIFF : Z := 1.
Definition MAX_MISORDER : Z := 100.
Definition MAX_DROPOUT : Z := 3000.
Definition STABLE_HISTORY_LIMIT : Z := 20.
Definition PJMEDIA_JB_DEFAULT_INIT_DELAY : Z := 15.
Definition PJMEDIA_JBUF_DISC_MIN_GAP : Z := 200.
Definition PJMEDIA_JBUF_PRO_DISC_MIN_BURST : Z := 1.
Definition PJMEDIA_JBUF_PRO_DISC_MAX_BURST : Z := 100.
Definition PJMEDIA_JBUF_PRO_DISC_T1 : Z := 2000.
Definition PJMEDIA_JBUF_PRO_DISC_T2 : Z := 10000.

Definition PJMEDIA_JB_MISSING_FRAME : Z := 0.
Definition PJMEDIA_JB_NORMAL_FRAME : Z := 1.
Definition PJMEDIA_JB_ZERO_PREFETCH_FRAME : Z := 2.
Definition PJMEDIA_JB_ZERO_EMPTY_FRAME : Z := 3.
Definition PJMEDIA_JB_DISCARDED_FRAME : Z := 1024.

(** ** The circular frame list *)

Record jb_slot := mk_slot {
  frame_type : Z;
  content_len : Z;
  bit_info : Z;
  ts : Z;
  content : list Z
}.

Record jb_framelist_t := mk_framelist {
  frame_size : Z;
  max_count : Z;
  slots : list jb_slot;
  head : Z;
  size : Z;
  discarded_num : Z;
  origin : Z
}.

#[export] Instance eta_slot : Settable jb_slot :=
  fun s => mk_slot (frame_type s) (content_len s) (bit_info s) (ts s) (content s).
#[export] Instance eta_framelist : Settable jb_framelist_t :=
  fun f => mk_framelist (frame_size f) (max_count f) (slots f) (head f) (size f)
             (discarded_num f) (origin f).

Definition clear_slot (s : jb_slot) : jb_slot :=
  s <| frame_type := PJMEDIA_JB_MISSING_FRAME |> <| content_len := 0 |>.

Definition jb_framelist_reset (f : jb_framelist_t) : jb_framelist_t :=
  f <| head := 0 |> <| origin := INVALID_OFFSET |> <| size := 0 |>
    <| discarded_num := 0 |> <| slots := clear_slot <$> slots f |>.

(** The pool's memory is not initialised: any slot stands for it. *)
Definition jb_framelist_init (junk : jb_slot) (frame_size max_count : Z)
    : jb_framelist_t :=
  jb_framelist_reset
    (mk_framelist frame_size max_count (replicate (Z.to_nat max_count) junk)
       0 0 0 0).

Definition jb_framelist_eff_size (f : jb_framelist_t) : Z :=
  u32 (size f - discarded_num f).

Definition set_slot (f : jb_framelist_t) (pos : Z) (s : jb_slot)
    : option jb_framelist_t :=
  l ← zstore (slots f) pos s; Some (f <| slots := l |>).

(** [for (i = from; i < from + n; ++i)]: uncount the discarded frames. *)
Fixpoint uncount_discarded (n : nat) (f : jb_framelist_t) (i : Z)
    : option jb_framelist_t :=
  match n with
  | O => Some f
  | S n =>
      s ← zlookup (slots f) i;
      let f := if frame_type s =? PJMEDIA_JB_DISCARDED_FRAME
               then f <| discarded_num := u32 (discarded_num f - 1) |> else f in
      uncount_discarded n f (i + 1)
  end.

(** The [pj_memset]/[pj_bzero] of [n] slots from [i]. *)
Fixpoint clear_range (n : nat) (f : jb_framelist_t) (i : Z)
    : option jb_framelist_t :=
  match n with
  | O => Some f
  | S n =>
      s ← zlookup (slots f) i;
      f ← set_slot f i (clear_slot s);
      clear_range n f (i + 1)
  end.

Definition remove_step (f : jb_framelist_t) (i step : Z) : option jb_framelist_t :=
  f ← uncount_discarded (Z.to_nat step) f i;
  clear_range (Z.to_nat step) f i.

Definition jb_framelist_remove_head (f : jb_framelist_t) (count : Z)
    : option (Z * jb_framelist_t) :=
  let count := if size f <? count then size f else count in
  if count =? 0 then Some (0, f) else
  let tmp := u32 (head f + count) in
  let step1 := if max_count f <? tmp then max_count f - head f else count in
  let step2 := if max_count f <? tmp then count - step1 else 0 in
  f ← remove_step f (head f) step1;
  f ← (if step2 =? 0 then Some f else remove_step f 0 step2);
  Some (count, f <| origin := s32 (origin f + count) |>
                 <| head := u32 (head f + count) mod max_count f |>
                 <| size := size f - count |>).

(** What a frame looks like to the reader. *)
Record jb_out := mk_out {
  o_type : Z;
  o_frame : list Z;       (* the bytes copied *)
  o_size : Z;
  o_bit_info : Z;
  o_ts : Z;
  o_seq : Z
}.

(** [while (frame_type[head] == DISCARDED) remove_head(1)]. *)
Fixpoint skip_discarded (fuel : nat) (f : jb_framelist_t) (prev_discarded : bool)
    : option (bool * jb_framelist_t) :=
  match fuel with
  | O => None
  | S fuel =>
      s ← zlookup (slots f) (head f);
      if frame_type s =? PJMEDIA_JB_DISCARDED_FRAME then
        '(_, f) ← jb_framelist_remove_head f 1;
        skip_discarded fuel f true
      else Some (prev_discarded, f)
  end.

(** [max_size] is the room in the caller's buffer ([*size]); [None] as a
    frame is the return value [PJ_FALSE]. *)
Definition jb_framelist_get (f : jb_framelist_t) (max_size : Z)
    : option (option jb_out * jb_framelist_t) :=
  if size f =? 0 then Some (None, f) else
  '(prev_discarded, f) ← skip_discarded (S (Z.to_nat (size f))) f false;
  if size f =? 0 then Some (None, f) else
  s ← zlookup (slots f) (head f);
  let out :=
    if prev_discarded : bool then
      mk_out PJMEDIA_JB_MISSING_FRAME [] 0 0 (ts s) (origin f)
    else
      let copy_size := Z.min max_size (content_len s) in
      mk_out (frame_type s) (take (Z.to_nat copy_size) (content s)) copy_size
        (bit_info s) (ts s) (origin f) in
  f ← set_slot f (head f)
        (s <| frame_type := PJMEDIA_JB_MISSING_FRAME |> <| content_len := 0 |>
           <| bit_info := 0 |> <| ts := 0 |>);
  next ← sint (origin f + 1);
  Some (Some out,
    f <| origin := next |> <| head := u32 (head f + 1) mod max_count f |>
      <| size := size f - 1 |>).

(** [while (1)]: the slot of the [idx]-th frame that is not discarded. *)
Fixpoint peek_pos (fuel : nat) (f : jb_framelist_t) (pos idx : Z) : option Z :=
  match fuel with
  | O => None
  | S fuel =>
      s ← zlookup (slots f) pos;
      let next := u32 (pos + 1) mod max_count f in
      if frame_type s =? PJMEDIA_JB_DISCARDED_FRAME then peek_pos fuel f next idx
      else if idx =? 0 then Some pos else peek_pos fuel f next (idx - 1)
  end.

Definition jb_framelist_peek (f : jb_framelist_t) (offset : Z)
    : option (option jb_out) :=
  if jb_framelist_eff_size f <=? offset then Some None else
  pos ← peek_pos (Z.to_nat (size f)) f (head f) offset;
  s ← zlookup (slots f) pos;
  Some (Some (mk_out (frame_type s) (take (Z.to_nat (content_len s)) (content s))
                (content_len s) (bit_info s) (ts s) (s32 (origin f + offset)))).

(** The first half of [jb_framelist_put_at]: the distance of the frame to the
    head, after a sequence restart, a reset or a change of origin; or the
    error returned. *)
Definition put_late (f : jb_framelist_t) (index : Z)
    : option (Z + (Z * jb_framelist_t)) :=
  distance ← sint (index - origin f);
  if distance <? 0 then
    behind ← sint (origin f - index);
    if behind <? MAX_MISORDER then Some (inl PJ_ETOOSMALL)
    else if MAX_FRAME_INDEX <=? u32 (origin f + size f) then
      Some (inr (s32 (size f), f <| origin := s32 (index - size f) |>))
    else Some (inr (0, jb_framelist_reset f <| origin := index |>))
  else Some (inr (distance, f)).

Definition put_empty (f : jb_framelist_t) (index distance : Z)
    : Z * jb_framelist_t :=
  if size f =? 0 then (0, f <| origin := index |>) else (distance, f).

Definition put_far (f : jb_framelist_t) (index distance : Z)
    : Z + (Z * jb_framelist_t) :=
  if s32 (max_count f) <=? distance then
    if MAX_DROPOUT <? distance
    then inr (0, jb_framelist_reset f <| origin := index |>)
    else inl PJ_ETOOMANY
  else inr (distance, f).

(** The second half: store the frame in its slot. *)
Definition put_store (f : jb_framelist_t) (index distance : Z)
    (frame : list Z) (bits tstamp ftype : Z) : option (Z * jb_framelist_t) :=
  let pos := u32 (head f + distance) mod max_count f in
  s ← zlookup (slots f) pos;
  if negb (frame_type s =? PJMEDIA_JB_MISSING_FRAME) then Some (PJ_EEXISTS, f) else
  let fsize := Z.of_nat (length frame) in
  let s := mk_slot ftype fsize bits tstamp
    (if ftype =? PJMEDIA_JB_NORMAL_FRAME
     then frame ++ drop (length frame) (content s) else content s) in
  f ← set_slot f pos s;
  end_ ← sint (origin f + s32 (size f));
  if end_ <=? index then
    size' ← sint (distance + 1); Some (PJ_SUCCESS, f <| size := u32 size' |>)
  else Some (PJ_SUCCESS, f).

(** On an error the list is returned too: the changes made before it stay. *)
Definition jb_framelist_put_at (f : jb_framelist_t) (index : Z)
    (frame : list Z) (bits tstamp ftype : Z) : option (Z * jb_framelist_t) :=
  if frame_size f <? Z.of_nat (length frame) then Some (PJ_EINVAL, f) else
  late ← put_late f index;
  match (late : Z + (Z * jb_framelist_t)) with
  | inl e => Some (e, f)
  | inr (distance, f) =>
      let '(distance, f) := put_empty f index distance in
      match put_far f index distance with
      | inl e => Some (e, f)
      | inr (distance, f) => put_store f index distance frame bits tstamp ftype
      end
  end.

Definition jb_framelist_discard (f : jb_framelist_t) (index : Z)
    : option (Z * jb_framelist_t) :=
  end_ ← (if origin f <=? index then sint (origin f + s32 (size f)) else Some index);
  if negb ((origin f <=? index) && (index <? end_)) then Some (PJ_EINVAL, f) else
  distance ← sint (index - origin f);
  let pos := u32 (head f + distance) mod max_count f in
  s ← zlookup (slots f) pos;
  f ← set_slot f pos (s <| frame_type := PJMEDIA_JB_DISCARDED_FRAME |>);
  Some (PJ_SUCCESS, f <| discarded_num := u32 (discarded_num f + 1) |>).

(** ** Statistics ([pjlib/include/pj/math.h]) *)

Record pj_math_stat := mk_stat {
  st_n : Z; st_max : Z; st_min : Z; st_last : Z; st_mean : Z;
  st_mean_res : Z; st_m2 : Z
}.

#[export] Instance eta_stat : Settable pj_math_stat :=
  fun s => mk_stat (st_n s) (st_max s) (st_min s) (st_last s) (st_mean s)
             (st_mean_res s) (st_m2 s).

Definition pj_math_stat_init : pj_math_stat := mk_stat 0 0 0 0 0 0 0.

Definition pj_math_stat_update (s : pj_math_stat) (val : Z) : pj_math_stat :=
  let s := s <| st_last := val |> in
  let first := st_n s =? 0 in
  let s := s <| st_n := st_n s + 1 |> in
  let s :=
    if first then s <| st_min := val |> <| st_max := val |>
    else s <| st_min := (if val <? st_min s then val else st_min s) |>
           <| st_max := (if st_max s <? val then val else st_max s) |> in
  let delta := val - st_mean s in
  let s := s <| st_mean := st_mean s + Z.quot delta (st_n s) |>
             <| st_mean_res := st_mean_res s + Z.rem delta (st_n s) |> in
  let s :=
    if st_n s <=? st_mean_res s then
      s <| st_mean := st_mean s + 1 |> <| st_mean_res := st_mean_res s - st_n s |>
    else if st_mean_res s <=? - st_n s then
      s <| st_mean := st_mean s - 1 |> <| st_mean_res := st_mean_res s + st_n s |>
    else s in
  s <| st_m2 := st_m2 s + delta * (val - st_mean s) |>.

Fixpoint isqrt_guess (fuel : nat) (prev res : Z) : option Z :=
  match fuel with
  | O => None
  | S fuel =>
      if prev =? 0 then Some res
      else isqrt_guess fuel (Z.shiftr prev 2) (u32 (Z.shiftl res 1))
  end.

Fixpoint isqrt_iter (fuel : nat) (i res : Z) : option Z :=
  match fuel with
  | O => None
  | S fuel =>
      if res =? 0 then None (* division by zero *) else
      let prev := res in
      let res := Z.shiftr (u32 (prev + i / prev)) 1 in
      if Z.shiftr (u32 (prev + res)) 1 =? res then Some res
      else isqrt_iter fuel i res
  end.

Definition pj_isqrt (fuel : nat) (i : Z) : option Z :=
  res ← isqrt_guess 17 (Z.shiftr i 2) 1;
  isqrt_iter fuel i res.

Definition pj_math_stat_get_stddev (fuel : nat) (s : pj_math_stat) : option Z :=
  if st_n s =? 0 then Some 0 else pj_isqrt fuel (u32 (Z.quot (st_m2 s) (st_n s))).

(** ** The jitter buffer *)

Inductive jb_op := JB_OP_INIT | JB_OP_PUT | JB_OP_GET.
Inductive jb_status_t := JB_STATUS_INITIALIZING | JB_STATUS_PROCESSING.
Inductive discard_algo := DISCARD_NONE | DISCARD_STATIC | DISCARD_PROGRESSIVE.

#[export] Instance jb_op_eq_dec : EqDecision jb_op.
Proof. solve_decision. Defined.

Record pjmedia_jbuf := mk_jbuf {
  jb_frame_size : Z;
  jb_frame_ptime : Z;
  jb_max_count : Z;
  jb_init_prefetch : Z;
  jb_min_prefetch : Z;
  jb_max_prefetch : Z;
  jb_max_burst : Z;
  jb_min_shrink_gap : Z;
  jb_discard_algo : discard_algo;
  jb_framelist : jb_framelist_t;
  jb_level : Z;
  jb_max_hist_level : Z;
  jb_stable_hist : Z;
  jb_last_op : jb_op;
  jb_eff_level : Z;
  jb_prefetch : Z;
  jb_prefetching : bool;
  jb_status : jb_status_t;
  jb_init_cycle_cnt : Z;
  jb_discard_ref : Z;
  jb_discard_dist : Z;
  jb_delay : pj_math_stat;
  jb_burst : pj_math_stat;
  jb_lost : Z;
  jb_discard : Z;
  jb_empty : Z
}.

#[export] Instance eta_jbuf : Settable pjmedia_jbuf :=
  fun j => mk_jbuf (jb_frame_size j) (jb_frame_ptime j) (jb_max_count j)
    (jb_init_prefetch j) (jb_min_prefetch j) (jb_max_prefetch j) (jb_max_burst j)
    (jb_min_shrink_gap j) (jb_discard_algo j) (jb_framelist j) (jb_level j)
    (jb_max_hist_level j) (jb_stable_hist j) (jb_last_op j) (jb_eff_level j)
    (jb_prefetch j) (jb_prefetching j) (jb_status j) (jb_init_cycle_cnt j)
    (jb_discard_ref j) (jb_discard_dist j) (jb_delay j) (jb_burst j) (jb_lost j)
    (jb_discard j) (jb_empty j).

Definition pjmedia_jbuf_set_discard (j : pjmedia_jbuf) (algo : discard_algo)
    : pjmedia_jbuf := j <| jb_discard_algo := algo |>.

Definition pjmedia_jbuf_reset (j : pjmedia_jbuf) : pjmedia_jbuf :=
  j <| jb_level := 0 |> <| jb_last_op := JB_OP_INIT |> <| jb_stable_hist := 0 |>
    <| jb_status := JB_STATUS_INITIALIZING |> <| jb_init_cycle_cnt := 0 |>
    <| jb_max_hist_level := 0 |>
    <| jb_prefetching := negb (jb_prefetch j =? 0) |>
    <| jb_discard_dist := 0 |>
    <| jb_framelist := jb_framelist_reset (jb_framelist j) |>.

(** [ptime = 0] divides by zero. *)
Definition pjmedia_jbuf_create (junk : jb_slot) (frame_size ptime max_count : Z)
    : option pjmedia_jbuf :=
  if ptime =? 0 then None else
  Some (pjmedia_jbuf_reset
    (mk_jbuf frame_size ptime max_count 0 0 (u32 (max_count * 4) / 5)
      (Z.max (MAX_BURST_MSEC / ptime) (u32 (max_count * 3) / 4))
      (PJMEDIA_JBUF_DISC_MIN_GAP / ptime) DISCARD_PROGRESSIVE
      (jb_framelist_init junk frame_size max_count)
      0 0 0 JB_OP_INIT 0
      (Z.min PJMEDIA_JB_DEFAULT_INIT_DELAY (u32 (max_count * 4) / 5))
      false JB_STATUS_INITIALIZING 0 0 0 pj_math_stat_init pj_math_stat_init
      0 0 0)).

Definition pjmedia_jbuf_set_ptime (j : pjmedia_jbuf) (ptime : Z)
    : option (Z * pjmedia_jbuf) :=
  if ptime =? 0 then None else
  Some (PJ_SUCCESS,
    j <| jb_frame_ptime := ptime |>
      <| jb_min_shrink_gap := PJMEDIA_JBUF_DISC_MIN_GAP / ptime |>
      <| jb_max_burst := Z.max (MAX_BURST_MSEC / ptime) (jb_max_count j * 3 / 4) |>).

Definition pjmedia_jbuf_set_fixed (j : pjmedia_jbuf) (prefetch : Z)
    : Z * pjmedia_jbuf :=
  if negb (prefetch <=? jb_max_count j) then (PJ_EINVAL, j) else
  (PJ_SUCCESS, pjmedia_jbuf_set_discard
    (j <| jb_min_prefetch := prefetch |> <| jb_max_prefetch := prefetch |>
       <| jb_prefetch := prefetch |> <| jb_init_prefetch := prefetch |>)
    DISCARD_NONE).

Definition pjmedia_jbuf_set_adaptive (j : pjmedia_jbuf)
    (prefetch min_prefetch max_prefetch : Z) : Z * pjmedia_jbuf :=
  if negb ((min_prefetch <=? max_prefetch) && (prefetch <=? max_prefetch) &&
           (max_prefetch <=? jb_max_count j)) then (PJ_EINVAL, j) else
  (PJ_SUCCESS,
    j <| jb_prefetch := prefetch |> <| jb_init_prefetch := prefetch |>
      <| jb_min_prefetch := min_prefetch |> <| jb_max_prefetch := max_prefetch |>).

Definition pjmedia_jbuf_is_full (j : pjmedia_jbuf) : bool :=
  size (jb_framelist j) =? max_count (jb_framelist j).

(** The branch of [jbuf_calculate_jitter] for a decreasing burst level. *)
Definition jitter_decreasing (j : pjmedia_jbuf) : pjmedia_jbuf :=
  let j := j <| jb_stable_hist := jb_stable_hist j + 1 |> in
  if STABLE_HISTORY_LIMIT <? jb_stable_hist j then
    let diff := Z.quot (jb_eff_level j - jb_max_hist_level j) 3 in
    let diff := if diff <? 1 then 1 else diff in
    let j := j <| jb_eff_level := jb_eff_level j - diff |> in
    let j :=
      if jb_init_prefetch j =? 0 then j else
      let p := jb_eff_level j in
      let p := if p <? jb_min_prefetch j then jb_min_prefetch j else p in
      let p := if jb_max_prefetch j <? p then jb_max_prefetch j else p in
      j <| jb_prefetch := p |> in
    j <| jb_max_hist_level := 0 |> <| jb_stable_hist := 0 |>
  else j.

Definition jitter_increasing (j : pjmedia_jbuf) : pjmedia_jbuf :=
  let j := j <| jb_eff_level :=
    Z.min (jb_max_hist_level j) (jb_max_count j * 4 / 5) |> in
  let j :=
    if jb_init_prefetch j =? 0 then j else
    let p := jb_eff_level j in
    let p := if jb_max_prefetch j <? p then jb_max_prefetch j else p in
    let p := if p <? jb_min_prefetch j then jb_min_prefetch j else p in
    j <| jb_prefetch := p |> in
  j <| jb_stable_hist := 0 |>.

Definition jbuf_calculate_jitter (j : pjmedia_jbuf) : pjmedia_jbuf :=
  let j := j <| jb_burst := pj_math_stat_update (jb_burst j) (jb_level j) |>
             <| jb_max_hist_level := Z.max (jb_max_hist_level j) (jb_level j) |> in
  if jb_level j <? jb_eff_level j then jitter_decreasing j
  else if jb_eff_level j <? jb_level j then jitter_increasing j
  else j <| jb_stable_hist := 0 |>.

Definition jbuf_discard_static (j : pjmedia_jbuf) : option pjmedia_jbuf :=
  let burst_level := Z.max (jb_eff_level j) (jb_level j) in
  twice ← sint (burst_level * 2);
  let diff := s32 (jb_framelist_eff_size (jb_framelist j) - twice) in
  if STA_DISC_SAFE_SHRINKING_DIFF <=? diff then
    let seq_origin := origin (jb_framelist j) in
    let j := if seq_origin <? jb_discard_ref j
             then j <| jb_discard_ref := seq_origin |> else j in
    since ← sint (seq_origin - jb_discard_ref j);
    if jb_min_shrink_gap j <=? since then
      '(diff, f) ← jb_framelist_remove_head (jb_framelist j) 1;
      Some (j <| jb_framelist := f |> <| jb_discard_ref := origin f |>
              <| jb_discard := u32 (jb_discard j + diff) |>)
    else Some j
  else Some j.

(** The time in which the latency should be adjusted. *)
Definition discard_duration (burst_level : Z) : Z :=
  if burst_level <=? PJMEDIA_JBUF_PRO_DISC_MIN_BURST then PJMEDIA_JBUF_PRO_DISC_T1
  else if PJMEDIA_JBUF_PRO_DISC_MAX_BURST <=? burst_level
  then PJMEDIA_JBUF_PRO_DISC_T2
  else PJMEDIA_JBUF_PRO_DISC_T1 +
    (PJMEDIA_JBUF_PRO_DISC_T2 - PJMEDIA_JBUF_PRO_DISC_T1) *
    (burst_level - PJMEDIA_JBUF_PRO_DISC_MIN_BURST) /
    (PJMEDIA_JBUF_PRO_DISC_MAX_BURST - PJMEDIA_JBUF_PRO_DISC_MIN_BURST).

(** Set up a discard schedule, or update the existing one. *)
Definition schedule_discard (j : pjmedia_jbuf) (last_seq discard_dist : Z)
    : pjmedia_jbuf :=
  let j :=
    if (jb_discard_dist j =? 0) || (last_seq <? jb_discard_ref j)
    then j <| jb_discard_ref := last_seq |> else j in
  j <| jb_discard_dist := u32 (Z.max (jb_min_shrink_gap j) (s32 discard_dist)) |>.

Definition jbuf_discard_progressive (j : pjmedia_jbuf) : option pjmedia_jbuf :=
  if negb (bool_decide (jb_last_op j = JB_OP_PUT)) then Some j else
  let cur_size := jb_framelist_eff_size (jb_framelist j) in
  let burst_level := u32 (Z.max (jb_eff_level j) (jb_level j)) in
  if cur_size <=? burst_level then Some (j <| jb_discard_dist := 0 |>) else
  let T := discard_duration burst_level in
  let overflow := cur_size - burst_level in
  if jb_frame_ptime j =? 0 then None else
  let discard_dist := T / overflow / jb_frame_ptime j in
  let last_seq := s32 (origin (jb_framelist j) + size (jb_framelist j) - 1) in
  let j := schedule_discard j last_seq discard_dist in
  next ← sint (jb_discard_ref j + s32 (jb_discard_dist j));
  if next <=? last_seq then
    let discard_seq := s32 (jb_discard_ref j + jb_discard_dist j) in
    let discard_seq := if discard_seq <? origin (jb_framelist j)
                       then origin (jb_framelist j) else discard_seq in
    '(_, f) ← jb_framelist_discard (jb_framelist j) discard_seq;
    Some (j <| jb_framelist := f |> <| jb_discard_ref := discard_seq |>)
  else Some j.

(** The part of [jbuf_update] for a change of operation; [true]: the code
    returns before the discard. *)
Definition jbuf_switch_op (j : pjmedia_jbuf) (oper : jb_op) : bool * pjmedia_jbuf :=
  let j := j <| jb_last_op := oper |> in
  let calc (j : pjmedia_jbuf) :=
    let j := if bool_decide (oper = JB_OP_GET) && (jb_level j <=? jb_max_burst j)
             then jbuf_calculate_jitter j else j in
    (false, j <| jb_level := 0 |>) in
  match jb_status j with
  | JB_STATUS_INITIALIZING =>
      let j := j <| jb_init_cycle_cnt := jb_init_cycle_cnt j + 1 |> in
      if (INIT_CYCLE <=? jb_init_cycle_cnt j) && bool_decide (oper = JB_OP_GET) then
        calc (j <| jb_status := JB_STATUS_PROCESSING |>
                <| jb_level := Z.min (jb_level j) (jb_max_burst j) |>)
      else (true, j <| jb_level := 0 |>)
  | JB_STATUS_PROCESSING => calc j
  end.

Definition run_discard (j : pjmedia_jbuf) : option pjmedia_jbuf :=
  match jb_status j, jb_discard_algo j with
  | JB_STATUS_INITIALIZING, _ | _, DISCARD_NONE => Some j
  | _, DISCARD_STATIC => jbuf_discard_static j
  | _, DISCARD_PROGRESSIVE => jbuf_discard_progressive j
  end.

Definition jbuf_update (j : pjmedia_jbuf) (oper : jb_op) : option pjmedia_jbuf :=
  let '(done, j) :=
    if bool_decide (jb_last_op j = oper) then (false, j)
    else jbuf_switch_op j oper in
  if done : bool then Some j else run_discard j.

(** [while (status == PJ_ETOOMANY)]: remove old frames to make room. *)
Fixpoint put_retry (fuel : nat) (j : pjmedia_jbuf) (status : Z) (frame : list Z)
    (bits frame_seq tstamp : Z) : option (Z * pjmedia_jbuf) :=
  if negb (status =? PJ_ETOOMANY) then Some (status, j) else
  match fuel with
  | O => None
  | S fuel =>
      ahead ← sint (frame_seq - origin (jb_framelist j));
      over ← sint (ahead - s32 (jb_max_count j));
      distance ← sint (over + 1);
      '(removed, f) ← jb_framelist_remove_head (jb_framelist j) (u32 distance);
      '(status, f) ← jb_framelist_put_at f frame_seq frame bits tstamp
                       PJMEDIA_JB_NORMAL_FRAME;
      put_retry fuel
        (j <| jb_framelist := f |> <| jb_discard := u32 (jb_discard j + removed) |>)
        status frame bits frame_seq tstamp
  end.

(** The frame stored is the given one cut to [jb_frame_size]; result: the flag
    [*discarded]. *)
Definition pjmedia_jbuf_put_frame3 (fuel : nat) (j : pjmedia_jbuf)
    (frame : list Z) (bits frame_seq tstamp : Z) : option (bool * pjmedia_jbuf) :=
  let cur_size := s32 (jb_framelist_eff_size (jb_framelist j)) in
  let frame := take (Z.to_nat (jb_frame_size j)) frame in
  '(status, f) ← jb_framelist_put_at (jb_framelist j) frame_seq frame bits tstamp
                   PJMEDIA_JB_NORMAL_FRAME;
  '(status, j) ← put_retry fuel (j <| jb_framelist := f |>) status frame bits
                   frame_seq tstamp;
  let new_size := s32 (jb_framelist_eff_size (jb_framelist j)) in
  if status =? PJ_SUCCESS then
    let j := if jb_prefetching j && (jb_prefetch j <=? new_size)
             then j <| jb_prefetching := false |> else j in
    grown ← (if cur_size <? new_size then sint (new_size - cur_size) else Some 1);
    level ← sint (jb_level j + grown);
    j ← jbuf_update (j <| jb_level := level |>) JB_OP_PUT;
    Some (false, j)
  else Some (true, j <| jb_discard := u32 (jb_discard j + 1) |>).

(** The frame type returned, and the frame if there is one. *)
Definition pjmedia_jbuf_get_frame3 (j : pjmedia_jbuf) (max_size : Z)
    : option (Z * option jb_out * pjmedia_jbuf) :=
  '(ftype, out, j) ←
    (if jb_prefetching j then
       Some (PJMEDIA_JB_ZERO_PREFETCH_FRAME, None,
             j <| jb_empty := u32 (jb_empty j + 1) |>)
     else
       '(res, f) ← jb_framelist_get (jb_framelist j) max_size;
       let j := j <| jb_framelist := f |> in
       match (res : option jb_out) with
       | Some o =>
           let normal := o_type o =? PJMEDIA_JB_NORMAL_FRAME in
           let j := if normal then j else j <| jb_lost := u32 (jb_lost j + 1) |> in
           let cur_size := u32 (jb_framelist_eff_size (jb_framelist j) + 1) in
           let j := if bool_decide (jb_last_op j = JB_OP_PUT)
                    then j <| jb_delay := pj_math_stat_update (jb_delay j)
                                            (s32 (cur_size * jb_frame_ptime j)) |>
                    else j in
           Some (if normal then PJMEDIA_JB_NORMAL_FRAME
                 else PJMEDIA_JB_MISSING_FRAME, Some o, j)
       | None =>
           let j := if jb_prefetch j =? 0 then j
                    else j <| jb_prefetching := true |> in
           Some (PJMEDIA_JB_ZERO_EMPTY_FRAME, None,
                 j <| jb_empty := u32 (jb_empty j + 1) |>)
       end);
  level ← sint (jb_level j + 1);
  j ← jbuf_update (j <| jb_level := level |>) JB_OP_GET;
  Some (ftype, out, j).

Definition pjmedia_jbuf_peek_frame (j : pjmedia_jbuf) (offset : Z)
    : option (Z * option jb_out) :=
  res ← jb_framelist_peek (jb_framelist j) offset;
  Some (match (res : option jb_out) with
        | None => PJMEDIA_JB_ZERO_EMPTY_FRAME
        | Some o => if o_type o =? PJMEDIA_JB_NORMAL_FRAME
                    then PJMEDIA_JB_NORMAL_FRAME else PJMEDIA_JB_MISSING_FRAME
        end, res).

(** [while (discarded_num < last_discard_num)]. *)
Fixpoint remove_more (fuel : nat) (f : jb_framelist_t) (count last_discard_num : Z)
    : option (Z * jb_framelist_t) :=
  if negb (discarded_num f <? last_discard_num) then Some (count, f) else
  match fuel with
  | O => None
  | S fuel =>
      let frame_cnt := last_discard_num - discarded_num f in
      let count := u32 (count - frame_cnt) in
      let last_discard_num := discarded_num f in
      '(n, f) ← jb_framelist_remove_head f frame_cnt;
      remove_more fuel f (u32 (count + n)) last_discard_num
  end.

(** The discarded count drops at every iteration: the fuel is its value. *)
Definition pjmedia_jbuf_remove_frame (j : pjmedia_jbuf) (frame_cnt : Z)
    : option (Z * pjmedia_jbuf) :=
  let last := discarded_num (jb_framelist j) in
  '(count, f) ← jb_framelist_remove_head (jb_framelist j) frame_cnt;
  '(count, f) ← remove_more (S (Z.to_nat last)) f count last;
  Some (count, j <| jb_framelist := f |>).

(** The state reported by [pjmedia_jbuf_get_state]. *)
Record pjmedia_jb_state := mk_jb_state {
  js_frame_size : Z; js_min_prefetch : Z; js_max_prefetch : Z; js_max_count : Z;
  js_burst : Z; js_prefetch : Z; js_size : Z;
  js_avg_delay : Z; js_min_delay : Z; js_max_delay : Z; js_dev_delay : Z;
  js_avg_burst : Z; js_empty : Z; js_discard : Z; js_lost : Z
}.

Definition pjmedia_jbuf_get_state (fuel : nat) (j : pjmedia_jbuf)
    : option pjmedia_jb_state :=
  dev ← pj_math_stat_get_stddev fuel (jb_delay j);
  Some (mk_jb_state (jb_frame_size j) (jb_min_prefetch j) (jb_max_prefetch j)
    (jb_max_count j) (jb_eff_level j) (jb_prefetch j)
    (jb_framelist_eff_size (jb_framelist j))
    (st_mean (jb_delay j)) (st_min (jb_delay j)) (st_max (jb_delay j)) dev
    (st_mean (jb_burst j)) (jb_empty j) (jb_discard j) (jb_lost j)).
