(* ===== verification/JbufList.v ===== *)
(** * Correctness of the jitter buffer's circular list

    [fl_rep f W]: the frame list [f] holds the slots [W], oldest first; the
    slot of index [i] of [W] has sequence number [origin f + i].  Each
    operation of the list is shown to act on [W] and [origin f] as a queue
    with holes, whatever the position of [head]. *)

From S2P Require Import Prelude Jbuf.
Local Open Scope Z_scope.

(** ** Definitions *)

(** The array read from [head] on. *)
Definition ring (f : jb_framelist_t) : list jb_slot :=
  drop (Z.to_nat (head f)) (slots f) ++ take (Z.to_nat (head f)) (slots f).

Definition is_missing (s : jb_slot) : Prop :=
  frame_type s = PJMEDIA_JB_MISSING_FRAME.
Definition is_discarded (s : jb_slot) : Prop :=
  frame_type s = PJMEDIA_JB_DISCARDED_FRAME.

#[export] Instance is_missing_dec s : Decision (is_missing s).
Proof. unfold is_missing. apply _. Defined.
#[export] Instance is_discarded_dec s : Decision (is_discarded s).
Proof. unfold is_discarded. apply _. Defined.

Definition num_discarded (W : list jb_slot) : nat :=
  length (filter is_discarded W).
Definition live (W : list jb_slot) : list jb_slot :=
  filter (fun s => ~ is_discarded s) W.

Record slot_ok (s : jb_slot) : Prop := mk_slot_ok {
  so_type : frame_type s = PJMEDIA_JB_MISSING_FRAME \/
            frame_type s = PJMEDIA_JB_NORMAL_FRAME \/
            frame_type s = PJMEDIA_JB_DISCARDED_FRAME;
  so_len : 0 <= content_len s <= Z.of_nat (length (content s));
  so_missing : is_missing s -> content_len s = 0
}.

(** The sequence numbers of frames for which no arithmetic on [int] overflows,
    and the numbers that the list may begin and end with. *)
Notation SEQ_MAX := 1073741824 (only parsing).

Definition seq_ok (index : Z) : Prop := 0 <= index < SEQ_MAX.

Record fl_rep (f : jb_framelist_t) (W : list jb_slot) : Prop := mk_fl_rep {
  fr_max : 0 < max_count f < SEQ_MAX;
  fr_origin : - SEQ_MAX < origin f;
  fr_end : origin f + Z.of_nat (length W) <= SEQ_MAX;
  fr_slots : Z.of_nat (length (slots f)) = max_count f;
  fr_head : 0 <= head f < max_count f;
  fr_size : size f = Z.of_nat (length W);
  fr_ring : exists M, ring f = W ++ M /\ Forall is_missing M;
  fr_disc : discarded_num f = Z.of_nat (num_discarded W);
  fr_ok : Forall slot_ok (slots f)
}.

(** What an operation leaves alone. *)
Definition same_geometry (f f' : jb_framelist_t) : Prop :=
  frame_size f' = frame_size f /\ max_count f' = max_count f.

(** ** Lemmas: the ring *)

Lemma ring_length f : length (ring f) = length (slots f).
Proof. unfold ring. rewrite length_app, length_drop, length_take. lia. Qed.

Lemma ring_lookup f k :
  Z.of_nat (length (slots f)) = max_count f -> 0 <= head f < max_count f ->
  0 <= k < max_count f ->
  zlookup (slots f) ((head f + k) mod max_count f) = ring f !! Z.to_nat k.
Proof.
  intros Hl Hh Hk. unfold zlookup, ring.
  pose proof (Z.mod_pos_bound (head f + k) (max_count f)).
  rewrite decide_True by lia.
  destruct (decide (head f + k < max_count f)) as [H1|H1].
  - rewrite Z.mod_small by lia. rewrite lookup_app_l by (rewrite length_drop; lia).
    rewrite lookup_drop. f_equal. lia.
  - replace ((head f + k) mod max_count f) with (head f + k - max_count f).
    2:{ apply (Z.mod_unique_pos _ _ 1); lia. }
    rewrite lookup_app_r by (rewrite length_drop; lia).
    rewrite length_drop, lookup_take_lt by lia. f_equal. lia.
Qed.

Lemma ring_set f k s :
  Z.of_nat (length (slots f)) = max_count f -> 0 <= head f < max_count f ->
  0 <= k < max_count f ->
  exists l, set_slot f ((head f + k) mod max_count f) s =
      Some (f <| slots := l |>) /\ length l = length (slots f) /\
    ring (f <| slots := l |>) = <[Z.to_nat k := s]> (ring f) /\
    (forall P : jb_slot -> Prop, Forall P (slots f) -> P s -> Forall P l).
Proof.
  intros Hl Hh Hk. unfold set_slot.
  pose proof (Z.mod_pos_bound (head f + k) (max_count f)).
  rewrite zstore_in_range by lia. ored. eexists. split; [reflexivity|].
  split; [by rewrite length_insert|].
  split; [|intros P HP Hs; by apply Forall_insert].
  unfold ring. cbn [slots head set_field].
  destruct (decide (head f + k < max_count f)) as [H1|H1].
  - rewrite Z.mod_small by lia. rewrite insert_app_l by (rewrite length_drop; lia).
    rewrite drop_insert_ge, take_insert_ge by lia. do 2 f_equal. lia.
  - replace ((head f + k) mod max_count f) with (head f + k - max_count f).
    2:{ apply (Z.mod_unique_pos _ _ 1); lia. }
    rewrite insert_app_r_alt by (rewrite length_drop; lia).
    rewrite length_drop, drop_insert_lt, take_insert_lt by lia. do 2 f_equal. lia.
Qed.

(** Moving the head. *)
Lemma ring_advance f h c :
  Z.of_nat (length (slots f)) = max_count f -> 0 <= head f < max_count f ->
  0 <= c <= max_count f -> h = (head f + c) mod max_count f ->
  ring (f <| head := h |>) =
    drop (Z.to_nat c) (ring f) ++ take (Z.to_nat c) (ring f).
Proof.
  intros Hl Hh Hc ->. unfold ring. cbn [slots head set_field].
  destruct (decide (head f + c < max_count f)) as [H1|H1].
  - rewrite Z.mod_small by lia.
    rewrite drop_app_le, take_app_le by (rewrite length_drop; lia).
    rewrite drop_drop, <- app_assoc, take_take_drop.
    do 2 f_equal; lia.
  - replace ((head f + c) mod max_count f) with (head f + c - max_count f).
    2:{ apply (Z.mod_unique_pos _ _ 1); lia. }
    rewrite drop_app_ge, take_app_ge by (rewrite length_drop; lia).
    rewrite length_drop.
    replace (Z.to_nat c - (length (slots f) - Z.to_nat (head f)))%nat
      with (Z.to_nat (head f + c - max_count f)) by lia.
    rewrite take_take, Nat.min_l by lia.
    rewrite app_assoc. f_equal.
    rewrite <- (take_drop (Z.to_nat (head f)) (slots f)) at 1.
    rewrite drop_app_le; [done|]. rewrite length_take. lia.
Qed.

(** ** Lemmas: counting and clearing *)

Definition clear_mid (i n : nat) (l : list jb_slot) : list jb_slot :=
  take i l ++ (clear_slot <$> take n (drop i l)) ++ drop (i + n) l.

Lemma num_discarded_app W W' :
  num_discarded (W ++ W') = (num_discarded W + num_discarded W')%nat.
Proof. unfold num_discarded. by rewrite filter_app, length_app. Qed.

Lemma num_discarded_cons s W :
  num_discarded (s :: W) = ((if decide (is_discarded s) then 1 else 0) + num_discarded W)%nat.
Proof. unfold num_discarded. rewrite filter_cons. by case_decide. Qed.

Lemma num_discarded_le W : (num_discarded W <= length W)%nat.
Proof. apply length_filter. Qed.

Lemma num_discarded_missing M : Forall is_missing M -> num_discarded M = 0%nat.
Proof.
  induction 1 as [|s M Hs _ IH]; [done|]. rewrite num_discarded_cons.
  rewrite decide_False; [done|]. unfold is_discarded. by rewrite Hs.
Qed.

Lemma live_app W W' : live (W ++ W') = live W ++ live W'.
Proof. apply filter_app. Qed.

Lemma live_cons s W :
  live (s :: W) = if decide (is_discarded s) then live W else s :: live W.
Proof.
  unfold live. rewrite filter_cons. destruct (decide (is_discarded s)).
  - by rewrite decide_False by tauto.
  - by rewrite decide_True.
Qed.

Lemma live_length W : (length (live W) + num_discarded W = length W)%nat.
Proof.
  induction W as [|s W IH]; [done|]. unfold live. rewrite num_discarded_cons.
  rewrite filter_cons. case_decide as H; case_decide; cbn; unfold live in IH;
    [done|lia|lia|done].
Qed.

Lemma uncount_spec n f i :
  0 <= i -> i + Z.of_nat n <= Z.of_nat (length (slots f)) ->
  let c := Z.of_nat (num_discarded (take n (drop (Z.to_nat i) (slots f)))) in
  c <= discarded_num f -> is_u32 (discarded_num f) ->
  uncount_discarded n f i = Some (f <| discarded_num := discarded_num f - c |>).
Proof.
  revert f i. induction n as [|n IH]; intros f i Hi Hn c Hc Hr; unfold c in *; clear c.
  - cbn [uncount_discarded]. rewrite take_0. change (Z.of_nat (num_discarded [])) with 0.
    rewrite Z.sub_0_r. by destruct f.
  - cbn [uncount_discarded].
    destruct (zlookup_in_range (slots f) i) as [s Hs]; [lia|]. obind Hs.
    unfold zlookup in Hs. rewrite decide_True in Hs by lia.
    rewrite (drop_S _ s) in * by done. cbn [take] in *.
    rewrite num_discarded_cons in *. unfold is_discarded in *.
    replace (S (Z.to_nat i)) with (Z.to_nat (i + 1)) in * by lia.
    destruct (Z.eqb_spec (frame_type s) PJMEDIA_JB_DISCARDED_FRAME) as [E|E].
    + rewrite decide_True in * by done.
      rewrite u32_id by (unfold is_u32 in *; lia).
      rewrite IH; cbn [slots discarded_num set_field]; unfold is_u32 in *; try lia.
      f_equal. unfold set_field. f_equal. lia.
    + rewrite decide_False in * by done. rewrite IH by (done || lia). done.
Qed.

Lemma clear_range_spec n f i :
  0 <= i -> i + Z.of_nat n <= Z.of_nat (length (slots f)) ->
  clear_range n f i =
    Some (f <| slots := clear_mid (Z.to_nat i) n (slots f) |>).
Proof.
  revert f i. induction n as [|n IH]; intros f i Hi Hn.
  - cbn [clear_range]. unfold clear_mid. rewrite take_0. cbn [fmap list_fmap app].
    rewrite Nat.add_0_r, take_drop. by destruct f.
  - cbn [clear_range].
    destruct (zlookup_in_range (slots f) i) as [s Hs]; [lia|]. obind Hs.
    unfold zlookup in Hs. rewrite decide_True in Hs by lia.
    unfold set_slot. rewrite zstore_in_range by lia. ored.
    rewrite IH by (cbn [slots set_field]; rewrite ?length_insert; lia).
    cbn [slots set_field]. f_equal. unfold set_field. cbn [slots]. f_equal. unfold clear_mid.
    replace (Z.to_nat (i + 1)) with (S (Z.to_nat i)) by lia.
    pose proof (lookup_lt_Some _ _ _ Hs).
    rewrite (drop_S (slots f) s) by done. cbn [take fmap list_fmap app].
    rewrite (take_S_r _ _ (clear_slot s)) by (apply list_lookup_insert_eq; lia).
    rewrite take_insert_ge, !drop_insert_lt by lia.
    rewrite <- app_assoc. cbn [app]. do 4 f_equal. lia.
Qed.

Lemma remove_step_spec f i n :
  0 <= i -> 0 <= n -> i + n <= Z.of_nat (length (slots f)) ->
  let c := Z.of_nat (num_discarded
             (take (Z.to_nat n) (drop (Z.to_nat i) (slots f)))) in
  c <= discarded_num f -> is_u32 (discarded_num f) ->
  remove_step f i n =
    Some (f <| discarded_num := discarded_num f - c |>
            <| slots := clear_mid (Z.to_nat i) (Z.to_nat n) (slots f) |>).
Proof.
  intros Hi Hn Hb c Hc Hr. unfold remove_step.
  rewrite uncount_spec by (done || lia). ored.
  by rewrite clear_range_spec by (cbn [slots set_field]; lia).
Qed.

Lemma clear_mid_length i n l : length (clear_mid i n l) = length l.
Proof.
  unfold clear_mid. rewrite !length_app, length_fmap, !length_take, !length_drop. lia.
Qed.

Lemma clear_slot_missing s : is_missing (clear_slot s).
Proof. reflexivity. Qed.

Lemma clear_slot_ok s : slot_ok (clear_slot s).
Proof. split; cbn; [by left|lia|done]. Qed.

Lemma clear_all_missing l : Forall is_missing (clear_slot <$> l).
Proof. induction l; constructor; [apply clear_slot_missing|done]. Qed.

Lemma clear_mid_ok i n l : Forall slot_ok l -> Forall slot_ok (clear_mid i n l).
Proof.
  intros H. unfold clear_mid. apply Forall_app_2; [by apply Forall_take|].
  apply Forall_app_2; [|by apply Forall_drop].
  apply Forall_fmap, Forall_true. intros s. apply clear_slot_ok.
Qed.

(** Clearing [c] slots from the head on, in one step or two. *)
Lemma clear_ring_one f c :
  0 <= head f -> 0 <= c -> head f + c <= Z.of_nat (length (slots f)) ->
  ring (f <| slots := clear_mid (Z.to_nat (head f)) (Z.to_nat c) (slots f) |>) =
    (clear_slot <$> take (Z.to_nat c) (ring f)) ++ drop (Z.to_nat c) (ring f).
Proof.
  intros Hh Hc Hb. unfold ring, clear_mid. cbn [slots head set_field].
  rewrite drop_app_length', take_app_length' by (rewrite length_take; lia).
  rewrite take_app_le, drop_app_le by (rewrite length_drop; lia).
  by rewrite <- app_assoc, drop_drop.
Qed.

Lemma clear_mid_split A M B :
  clear_mid 0 (length A) (clear_mid (length A + length M) (length B) (A ++ M ++ B)) =
    (clear_slot <$> A) ++ M ++ (clear_slot <$> B).
Proof.
  unfold clear_mid at 2. rewrite !app_assoc.
  rewrite (take_app_length' (A ++ M)), (drop_app_length' (A ++ M)) by
    (rewrite length_app; lia).
  rewrite firstn_all, (drop_ge (_ ++ B)) by (rewrite !length_app; lia).
  rewrite app_nil_r. unfold clear_mid. cbn [take app].
  rewrite <- !app_assoc, Nat.add_0_l, drop_0, take_app_length, drop_app_length.
  done.
Qed.

Lemma clear_ring_two f c :
  0 <= head f <= Z.of_nat (length (slots f)) ->
  Z.of_nat (length (slots f)) <= head f + c -> c <= Z.of_nat (length (slots f)) ->
  ring (f <| slots := clear_mid 0
               (Z.to_nat (c - (Z.of_nat (length (slots f)) - head f)))
               (clear_mid (Z.to_nat (head f))
                  (Z.to_nat (Z.of_nat (length (slots f)) - head f)) (slots f)) |>) =
    (clear_slot <$> take (Z.to_nat c) (ring f)) ++ drop (Z.to_nat c) (ring f).
Proof.
  intros Hh Hc Hb.
  set (k := Z.to_nat (c - (Z.of_nat (length (slots f)) - head f))).
  set (A := take k (slots f)).
  set (M := take (Z.to_nat (head f) - k) (drop k (slots f))).
  set (B := drop (Z.to_nat (head f)) (slots f)).
  assert (HA : length A = k) by (unfold A; rewrite length_take; lia).
  assert (HM : (length A + length M = Z.to_nat (head f))%nat)
    by (rewrite HA; unfold M; rewrite length_take, length_drop; lia).
  assert (HB : length B = Z.to_nat (Z.of_nat (length (slots f)) - head f))
    by (unfold B; rewrite length_drop; lia).
  assert (HAM : take (Z.to_nat (head f)) (slots f) = A ++ M).
  { unfold A, M. rewrite take_take_drop. f_equal. lia. }
  assert (Hs : slots f = A ++ M ++ B).
  { rewrite app_assoc, <- HAM. symmetry. apply take_drop. }
  unfold ring at 1. cbn [slots head set_field].
  rewrite Hs at 2 4. rewrite <- HM, <- HB, <- HA, clear_mid_split.
  rewrite app_assoc, drop_app_length', take_app_length'
    by (rewrite length_app, length_fmap; lia).
  unfold ring. fold B. rewrite HAM.
  assert (Hc' : Z.to_nat c = (length B + length A)%nat) by lia.
  rewrite Hc', (app_assoc B A M), take_app_length', drop_app_length'
    by (rewrite length_app; lia).
  by rewrite fmap_app, <- !app_assoc.
Qed.

(** ** Lemmas: the operations on the list *)

Lemma fl_rep_window f W :
  fl_rep f W -> (length W <= length (slots f))%nat.
Proof.
  intros R. destruct (fr_ring _ _ R) as (M & HM & _).
  rewrite <- ring_length, HM, length_app. lia.
Qed.

Lemma eff_size_spec f W :
  fl_rep f W -> jb_framelist_eff_size f = Z.of_nat (length (live W)).
Proof.
  intros R. unfold jb_framelist_eff_size.
  rewrite (fr_size _ _ R), (fr_disc _ _ R).
  pose proof (live_length W). pose proof (fl_rep_window _ _ R).
  pose proof (fr_max _ _ R). pose proof (fr_slots _ _ R).
  rewrite u32_id; unfold is_u32; lia.
Qed.

(** The arithmetic of the list stays within [int] and [unsigned]. *)
Ltac ints := unfold seq_ok, INVALID_OFFSET in *;
  repeat match goal with
  | |- context [sint ?z] => rewrite (sint_id z) by (unfold is_s32; lia)
  | |- context [u32 ?z] => rewrite (u32_id z) by (unfold is_u32; lia)
  | |- context [s32 ?z] => rewrite (s32_id z) by (unfold is_s32; lia)
  end.

Lemma reset_spec f W :
  fl_rep f W ->
  fl_rep (jb_framelist_reset f) [] /\ same_geometry f (jb_framelist_reset f) /\
  origin (jb_framelist_reset f) = INVALID_OFFSET.
Proof.
  intros [Hm Ho He Hs Hh Hsz HM Hd Hok]. split; [|done].
  split; cbn; try done.
  - by rewrite length_fmap.
  - lia.
  - exists (ring (jb_framelist_reset f)). split; [done|].
    unfold ring. cbn. rewrite take_0, app_nil_r, drop_0. apply clear_all_missing.
  - apply Forall_fmap, Forall_true. intros s. apply clear_slot_ok.
Qed.

Lemma init_spec junk fs mc :
  0 < mc < SEQ_MAX ->
  fl_rep (jb_framelist_init junk fs mc) [] /\
  frame_size (jb_framelist_init junk fs mc) = fs /\
  max_count (jb_framelist_init junk fs mc) = mc.
Proof.
  intros Hmc. split; [|done]. split; cbn; try done.
  - rewrite length_fmap, length_replicate. lia.
  - lia.
  - eexists. split; [done|]. unfold ring. cbn. rewrite take_0, app_nil_r, drop_0.
    apply clear_all_missing.
  - apply Forall_fmap, Forall_true. intros s. apply clear_slot_ok.
Qed.

(** The list after its first [c] slots have become missing and the head has
    moved past them. *)
Lemma advance_rep f W c l d o :
  fl_rep f W -> 0 <= c <= Z.of_nat (length W) -> o = origin f + c ->
  length l = length (slots f) -> Forall slot_ok l ->
  d = discarded_num f - Z.of_nat (num_discarded (take (Z.to_nat c) W)) ->
  (exists H, length H = Z.to_nat c /\ Forall is_missing H /\
     ring (f <| slots := l |>) = H ++ drop (Z.to_nat c) (ring f)) ->
  fl_rep (mk_framelist (frame_size f) (max_count f) l
            ((head f + c) mod max_count f) (size f - c) d o)
         (drop (Z.to_nat c) W).
Proof.
  intros R Hc -> Hl Hlok -> (H & HlH & HmH & Hring).
  pose proof (fl_rep_window _ _ R) as Hw.
  destruct R as [Hm Ho He Hs Hh Hsz (M & HM & HMm) Hd Hok].
  split; cbn [max_count slots head size discarded_num origin]; try done.
  - lia.
  - rewrite length_drop. lia.
  - by rewrite Hl.
  - apply Z.mod_pos_bound. lia.
  - rewrite length_drop. lia.
  - exists (M ++ H). split; [|by apply Forall_app_2].
    pose proof (ring_advance (f <| slots := l |>) ((head f + c) mod max_count f) c)
      as Ha. cbn [slots head max_count set_field] in Ha.
    unfold ring in Ha at 1. cbn [slots head set_field] in Ha.
    unfold ring at 1. cbn [slots head]. rewrite Ha by (rewrite ?Hl; lia || done).
    rewrite Hring, HM.
    rewrite drop_app_length', take_app_length' by done.
    rewrite drop_app_le by lia. by rewrite <- app_assoc.
  - rewrite Hd. rewrite <- (take_drop (Z.to_nat c) W) at 1.
    rewrite num_discarded_app. lia.
Qed.

Lemma num_discarded_ring f W c :
  fl_rep f W -> (c <= length W)%nat -> take c (ring f) = take c W.
Proof.
  intros R Hc. destruct (fr_ring _ _ R) as (M & -> & _). by apply take_app_le.
Qed.

Lemma disc_bounds f W c :
  fl_rep f W ->
  Z.of_nat (num_discarded (take c W)) <= discarded_num f /\ is_u32 (discarded_num f).
Proof.
  intros R. rewrite (fr_disc _ _ R). pose proof (num_discarded_le W).
  pose proof (fl_rep_window _ _ R). pose proof (fr_slots _ _ R).
  pose proof (fr_max _ _ R). split; [|unfold is_u32; lia].
  rewrite <- (take_drop c W) at 2. rewrite num_discarded_app. lia.
Qed.

Lemma remove_head_spec f W count :
  fl_rep f W -> 0 <= count ->
  exists f', jb_framelist_remove_head f count =
      Some (Z.min count (Z.of_nat (length W)), f') /\
    fl_rep f' (drop (Z.to_nat (Z.min count (Z.of_nat (length W)))) W) /\
    same_geometry f f' /\
    origin f' = origin f + Z.min count (Z.of_nat (length W)).
Proof.
  intros R Hcount. set (c := Z.min count (Z.of_nat (length W))).
  unfold jb_framelist_remove_head.
  assert ((if size f <? count then size f else count) = c) as ->.
  { rewrite (fr_size _ _ R). unfold c.
    destruct (Z.ltb_spec (Z.of_nat (length W)) count); lia. }
  pose proof (fr_slots _ _ R) as Hs. pose proof (fr_head _ _ R) as Hh.
  pose proof (fl_rep_window _ _ R) as Hw.
  destruct (Z.eqb_spec c 0) as [E|E].
  { exists f. rewrite E. split; [done|]. split; [done|]. split; [done|]. lia. }
  destruct (disc_bounds f W (Z.to_nat c) R) as [Hd Hu].
  pose proof (num_discarded_ring f W (Z.to_nat c) R ltac:(lia)) as Hring.
  pose proof (fr_max _ _ R). pose proof (fr_origin _ _ R). pose proof (fr_end _ _ R).
  assert (Hc : 0 <= c <= Z.of_nat (length W)) by (unfold c; lia). ints.
  destruct (Z.ltb_spec (max_count f) (head f + c)) as [Hlt|Hge].
  - set (s1 := max_count f - head f). set (s2 := c - s1).
    assert (Ht : take (Z.to_nat c) (ring f) =
      take (Z.to_nat s1) (drop (Z.to_nat (head f)) (slots f)) ++
      take (Z.to_nat s2) (slots f)).
    { unfold ring. rewrite (take_app_ge (drop _ _)) by (rewrite length_drop; lia).
      rewrite length_drop, take_take.
      rewrite (take_ge (drop _ _)) by (rewrite length_drop; lia).
      do 2 f_equal. lia. }
    rewrite <- Hring, Ht, num_discarded_app in Hd.
    rewrite remove_step_spec by (done || lia). ored.
    destruct (Z.eqb_spec s2 0); [lia|].
    assert (Hmid : take (Z.to_nat s2) (drop 0 (clear_mid (Z.to_nat (head f))
        (Z.to_nat s1) (slots f))) = take (Z.to_nat s2) (slots f)).
    { rewrite drop_0. unfold clear_mid. rewrite take_app_le
        by (rewrite length_take; lia). rewrite take_take. f_equal. lia. }
    rewrite remove_step_spec; cbn [slots discarded_num set_field];
      rewrite ?clear_mid_length; change (Z.to_nat 0) with 0%nat; rewrite ?Hmid;
      unfold is_u32 in *; try lia. ored.
    eexists. split; [reflexivity|]. cbn [origin head max_count size set_field].
    cbn [origin head].
    ints. split; [|done]. unfold set_field. cbn.
    apply advance_rep; [done|lia|done|by rewrite !clear_mid_length| | |].
    + apply clear_mid_ok, clear_mid_ok, (fr_ok _ _ R).
    + rewrite <- Hring, Ht, num_discarded_app. lia.
    + exists (clear_slot <$> take (Z.to_nat c) (ring f)).
      split; [rewrite length_fmap, length_take, ring_length; lia|].
      split; [apply clear_all_missing|].
      rewrite <- clear_ring_two by lia. unfold s2, s1. rewrite <- Hs. done.
  - assert (Ht : take (Z.to_nat c) (ring f) =
      take (Z.to_nat c) (drop (Z.to_nat (head f)) (slots f))).
    { unfold ring. by rewrite take_app_le by (rewrite length_drop; lia). }
    rewrite <- Hring, Ht in Hd.
    rewrite remove_step_spec by (done || lia). ored. rewrite Z.eqb_refl. ored.
    eexists. split; [reflexivity|]. cbn [origin head max_count size set_field]. ints. split; [|done]. unfold set_field. cbn.
    apply advance_rep; [done|lia|done|by rewrite !clear_mid_length| | |].
    + apply clear_mid_ok, (fr_ok _ _ R).
    + by rewrite <- Hring, Ht.
    + exists (clear_slot <$> take (Z.to_nat c) (ring f)).
      split; [rewrite length_fmap, length_take, ring_length; lia|].
      split; [apply clear_all_missing|].
      by rewrite <- clear_ring_one by lia.
Qed.

(** ** Specifications of [get], [discard] and [put] *)

Fixpoint skip_disc (W : list jb_slot) : list jb_slot :=
  match W with
  | s :: W' => if decide (is_discarded s) then skip_disc W' else W
  | [] => []
  end.

(** What [get] returns for the first live slot [s]. *)
Definition out_of (skipped : bool) (max_size o : Z) (s : jb_slot) : jb_out :=
  if skipped then mk_out PJMEDIA_JB_MISSING_FRAME [] 0 0 (ts s) o
  else mk_out (frame_type s)
         (take (Z.to_nat (Z.min max_size (content_len s))) (content s))
         (Z.min max_size (content_len s)) (bit_info s) (ts s) o.

(** [s] holds the frame. *)
Record carries (s : jb_slot) (frame : list Z) (bits tstamp : Z) : Prop := mk_carries {
  ca_type : frame_type s = PJMEDIA_JB_NORMAL_FRAME;
  ca_len : content_len s = Z.of_nat (length frame);
  ca_bits : bit_info s = bits;
  ca_ts : ts s = tstamp;
  ca_content : take (length frame) (content s) = frame
}.

(** [W'] is [W] with [s] at index [d], missing frames filling the gap. *)
Record stored (W : list jb_slot) (d : nat) (s : jb_slot) (W' : list jb_slot)
    : Prop := mk_stored {
  sd_len : length W' = Nat.max (length W) (S d);
  sd_at : W' !! d = Some s;
  sd_old : forall k x, k <> d -> W !! k = Some x -> W' !! k = Some x;
  sd_gap : forall k x, k <> d -> (length W <= k)%nat -> W' !! k = Some x -> is_missing x
}.

(** The origin and the window relative to which frame [index] is put. *)
Inductive rebased (f : jb_framelist_t) (W : list jb_slot) (index : Z)
    : Z -> list jb_slot -> Prop :=
| reb_same : W <> [] -> origin f <= index -> rebased f W index (origin f) W
| reb_restart : W <> [] -> MAX_MISORDER <= origin f - index ->
    MAX_FRAME_INDEX <= u32 (origin f + Z.of_nat (length W)) ->
    rebased f W index (index - Z.of_nat (length W)) W
| reb_empty : W = [] -> ~ (0 < origin f - index < MAX_MISORDER) ->
    rebased f W index index []
| reb_back : W <> [] -> MAX_MISORDER <= origin f - index ->
    u32 (origin f + Z.of_nat (length W)) < MAX_FRAME_INDEX ->
    rebased f W index index []
| reb_ahead o : rebased f W index o W -> W <> [] -> max_count f <= index - o ->
    MAX_DROPOUT < index - o -> rebased f W index index [].

(** The outcomes of [put_at]: status, list and window. *)
Inductive put_outcome (f : jb_framelist_t) (W : list jb_slot) (index : Z)
    (frame : list Z) (bits tstamp : Z)
    : Z -> jb_framelist_t -> list jb_slot -> Prop :=
| po_late : 0 < origin f - index < MAX_MISORDER ->
    put_outcome f W index frame bits tstamp PJ_ETOOSMALL f W
| po_full f' : rebased f W index (origin f') W -> W <> [] ->
    max_count f <= index - origin f' <= MAX_DROPOUT ->
    put_outcome f W index frame bits tstamp PJ_ETOOMANY f' W
| po_dup f' W0 d x : rebased f W index (origin f') W0 ->
    index = origin f' + Z.of_nat d -> W0 !! d = Some x -> ~ is_missing x ->
    put_outcome f W index frame bits tstamp PJ_EEXISTS f' W0
| po_stored f' W0 d s W' : rebased f W index (origin f') W0 ->
    index = origin f' + Z.of_nat d -> Z.of_nat d < max_count f ->
    (forall x, W0 !! d = Some x -> is_missing x) ->
    carries s frame bits tstamp -> stored W0 d s W' ->
    put_outcome f W index frame bits tstamp PJ_SUCCESS f' W'.

(** ** Lemmas: [get] *)

Lemma fl_rep_head f W :
  fl_rep f W -> exists s, zlookup (slots f) (head f) = Some s /\ slot_ok s /\
    match W with x :: _ => s = x | [] => is_missing s end.
Proof.
  intros R. pose proof (fr_max _ _ R). pose proof (fr_slots _ _ R) as Hs.
  pose proof (ring_lookup f 0 Hs (fr_head _ _ R) ltac:(lia)) as Hl.
  rewrite Z.add_0_r, Z.mod_small in Hl by (apply (fr_head _ _ R)).
  change (Z.to_nat 0) with 0%nat in Hl.
  destruct (lookup_lt_is_Some_2 (ring f) 0) as [s Hr]; [rewrite ring_length; lia|].
  exists s. rewrite Hl. split; [done|]. split.
  - rewrite Hr in Hl. unfold zlookup in Hl. case_decide; [|done].
    apply list_elem_of_lookup_2 in Hl.
    pose proof (fr_ok _ _ R) as Hok. rewrite Forall_forall in Hok. auto.
  - destruct (fr_ring _ _ R) as (M & HM & HMm). rewrite HM in Hr.
    destruct W as [|x W]; cbn in Hr; [|by simplify_eq].
    rewrite Forall_lookup in HMm. eauto.
Qed.

Lemma skip_disc_length W : (length (skip_disc W) <= length W)%nat.
Proof. induction W as [|s W IH]; cbn; [done|]. case_decide; cbn; lia. Qed.

Lemma skip_disc_drop W :
  skip_disc W = drop (length W - length (skip_disc W)) W.
Proof.
  induction W as [|s W IH]; [done|]. cbn [skip_disc]. pose proof (skip_disc_length W).
  case_decide; [|by rewrite Nat.sub_diag].
  cbn [length]. replace (S (length W) - length (skip_disc W))%nat
    with (S (length W - length (skip_disc W))) by lia. done.
Qed.

Lemma skip_disc_live W : live (skip_disc W) = live W.
Proof.
  induction W as [|s W IH]; [done|]. cbn [skip_disc]. unfold live in *.
  case_decide as H; [|done]. rewrite filter_cons, decide_False by tauto. done.
Qed.

Lemma skip_disc_head W s W' : skip_disc W = s :: W' -> ~ is_discarded s.
Proof.
  induction W as [|x W IH]; cbn; [done|]. case_decide; [auto|]. by intros [= -> _].
Qed.

Lemma skip_discarded_spec fuel f W pd :
  fl_rep f W -> (length W < fuel)%nat ->
  exists f', skip_discarded fuel f pd =
      Some (pd || (length (skip_disc W) <? length W)%nat, f') /\
    fl_rep f' (skip_disc W) /\ same_geometry f f' /\
    origin f' = origin f + Z.of_nat (length W - length (skip_disc W)).
Proof.
  revert f W pd. induction fuel as [|fuel IH]; intros f W pd R Hf; [lia|].
  destruct (fl_rep_head _ _ R) as (s & Hs & _ & Hw).
  cbn [skip_discarded]. obind Hs. destruct W as [|x W].
  - rewrite Hw. cbn. exists f. rewrite orb_false_r, Z.add_0_r. done.
  - subst x. cbn [skip_disc].
    destruct (Z.eqb_spec (frame_type s) PJMEDIA_JB_DISCARDED_FRAME) as [E|E].
    + rewrite decide_True by done.
      destruct (remove_head_spec f (s :: W) 1 R) as (f1 & -> & R1 & [G1 G2] & Ho1); [lia|].
      ored. replace (Z.min 1 (Z.of_nat (length (s :: W)))) with 1 in * by (cbn; lia).
      change (drop (Z.to_nat 1) (s :: W)) with W in R1.
      destruct (IH f1 W true R1) as (f' & -> & R' & [G1' G2'] & Ho'); [cbn in Hf; lia|].
      exists f'. pose proof (skip_disc_length W). split.
      { do 2 f_equal. cbn. symmetry. apply orb_true_iff. right.
        apply Nat.ltb_lt. lia. }
      split; [done|]. split; [split; congruence|]. rewrite Ho', Ho1. cbn [length]. lia.
    + rewrite decide_False by done. exists f. rewrite Nat.ltb_irrefl, orb_false_r.
      split; [done|]. split; [done|]. split; [done|]. lia.
Qed.

(** Popping the head slot: [set_slot] to a missing slot and [head + 1]. *)
Lemma pop_spec f s W m :
  fl_rep f (s :: W) -> is_missing m -> slot_ok m -> ~ is_discarded s ->
  exists l, set_slot f (head f) m = Some (f <| slots := l |>) /\
    fl_rep (mk_framelist (frame_size f) (max_count f) l
              ((head f + 1) mod max_count f) (size f - 1) (discarded_num f)
              (origin f + 1)) W.
Proof.
  intros R Hm Hmok Hnd. pose proof (fr_max _ _ R).
  destruct (ring_set f 0 m (fr_slots _ _ R) (fr_head _ _ R) ltac:(lia))
    as (l & Hset & Hl & Hring & Hall).
  rewrite Z.add_0_r, Z.mod_small in Hset by (apply (fr_head _ _ R)).
  exists l. split; [done|]. change W with (drop (Z.to_nat 1) (s :: W)).
  apply advance_rep; [done|cbn; lia|done|done| | |].
  - apply Hall; [apply (fr_ok _ _ R)|done].
  - change (take (Z.to_nat 1) (s :: W)) with [s].
    rewrite num_discarded_cons, decide_False by done. cbn. lia.
  - exists [m]. split; [done|]. split; [by constructor|].
    rewrite Hring. destruct (fr_ring _ _ R) as (M & -> & _). done.
Qed.

Lemma get_spec f W max_size :
  fl_rep f W ->
  exists f', jb_framelist_get f max_size =
      Some (match skip_disc W with
            | [] => None
            | s :: _ => Some (out_of (length (skip_disc W) <? length W)%nat max_size
                (origin f + Z.of_nat (length W - length (skip_disc W))) s)
            end, f') /\
    fl_rep f' (tail (skip_disc W)) /\ same_geometry f f' /\
    origin f' = origin f + Z.of_nat (length W - length (tail (skip_disc W))).
Proof.
  intros R. unfold jb_framelist_get.
  destruct (Z.eqb_spec (size f) 0) as [H0|Hne].
  { rewrite (fr_size _ _ R) in H0. destruct W; [|done]. exists f.
    split; [done|]. split; [done|]. split; [done|]. cbn. lia. }
  destruct (skip_discarded_spec (S (Z.to_nat (size f))) f W false R)
    as (f1 & -> & R1 & [G1 G2] & Ho1); [rewrite (fr_size _ _ R); lia|]. ored.
  cbn [orb]. pose proof (skip_disc_length W) as Hle.
  destruct (skip_disc W) as [|s W'] eqn:Esk.
  - rewrite (fr_size _ _ R1). cbn [length Z.of_nat Z.eqb]. exists f1.
    split; [done|]. split; [done|]. split; [done|]. rewrite Ho1. cbn. lia.
  - rewrite (fr_size _ _ R1). destruct (Z.eqb_spec (Z.of_nat (length (s :: W'))) 0);
      [cbn in *; lia|].
    destruct (fl_rep_head _ _ R1) as (s' & Hs & Hok & ->). obind Hs.
    set (m := s <| frame_type := _ |> <| content_len := 0 |>
                <| bit_info := 0 |> <| ts := 0 |>).
    destruct (pop_spec f1 s W' m R1) as (l & Hset & R2);
      [done|split; cbn; [by left|destruct Hok; lia|done]|by eapply skip_disc_head|].
    obind Hset. cbn [origin head max_count set_field].
    pose proof (fr_max _ _ R1). pose proof (fr_head _ _ R1). pose proof (fr_origin _ _ R1).
    pose proof (fr_end _ _ R1) as He1. cbn [length] in He1. ints. ored. rewrite <- Ho1.
    eexists. split; [reflexivity|]. split; [exact R2|]. split; [done|].
    cbn [origin set_field tail]. rewrite Ho1. cbn [length] in *. lia.
Qed.

(** ** Lemmas: [discard] and [peek] *)

Lemma ring_window f W k s :
  fl_rep f W -> (k < length W)%nat -> ring f !! k = Some s <-> W !! k = Some s.
Proof.
  intros R Hk. destruct (fr_ring _ _ R) as (M & -> & _).
  by rewrite lookup_app_l.
Qed.

Lemma ring_tail_missing f W k s :
  fl_rep f W -> (length W <= k)%nat -> ring f !! k = Some s -> is_missing s.
Proof.
  intros R Hk. destruct (fr_ring _ _ R) as (M & -> & HM).
  rewrite lookup_app_r by done. rewrite Forall_lookup in HM. eauto.
Qed.

Lemma slot_at f W d :
  fl_rep f W -> 0 <= d < max_count f ->
  exists s, zlookup (slots f) ((head f + d) mod max_count f) = Some s /\
    ring f !! Z.to_nat d = Some s /\ slot_ok s.
Proof.
  intros R Hd. pose proof (fr_slots _ _ R) as Hs.
  pose proof (ring_lookup f d Hs (fr_head _ _ R) Hd) as Hl.
  destruct (lookup_lt_is_Some_2 (ring f) (Z.to_nat d)) as [s Hr];
    [rewrite ring_length; lia|].
  exists s. rewrite Hl, Hr. split; [done|]. split; [done|].
  rewrite Hr in Hl. unfold zlookup in Hl. case_decide; [|done].
  apply list_elem_of_lookup_2 in Hl.
  pose proof (fr_ok _ _ R) as Hok. rewrite Forall_forall in Hok. auto.
Qed.

Lemma num_discarded_insert W k s x :
  W !! k = Some x ->
  (num_discarded (<[k:=s]> W) + (if decide (is_discarded x) then 1 else 0) =
   num_discarded W + (if decide (is_discarded s) then 1 else 0))%nat.
Proof.
  intros Hk. pose proof (lookup_lt_Some _ _ _ Hk).
  rewrite insert_take_drop by done. rewrite <- (take_drop_middle W k x Hk) at 3.
  rewrite !num_discarded_app, !num_discarded_cons. lia.
Qed.

(** Replacing a slot of the window. *)
Lemma set_window_spec f W d s x :
  fl_rep f W -> W !! d = Some x -> slot_ok s ->
  exists l, set_slot f ((head f + Z.of_nat d) mod max_count f) s =
      Some (f <| slots := l |>) /\
    fl_rep (f <| slots := l |>
              <| discarded_num := Z.of_nat (num_discarded (<[d:=s]> W)) |>)
      (<[d:=s]> W).
Proof.
  intros R Hd Hs. pose proof (lookup_lt_Some _ _ _ Hd) as Hlt.
  pose proof (fl_rep_window _ _ R). pose proof (fr_slots _ _ R).
  destruct (ring_set f (Z.of_nat d) s (fr_slots _ _ R) (fr_head _ _ R) ltac:(lia))
    as (l & Hset & Hl & Hring & Hall).
  exists l. split; [done|]. destruct R as [Hm Ho He Hsl Hh Hsz (M & HM & HMm) Hdn Hok].
  split; cbn; try done.
  - by rewrite length_insert.
  - by rewrite Hl.
  - by rewrite length_insert.
  - exists M. split; [|done].
    change (ring _) with (ring (f <| slots := l |>)).
    rewrite Hring, HM, Nat2Z.id. by rewrite insert_app_l.
  - by apply Hall.
Qed.

Lemma discard_spec f W index x :
  fl_rep f W -> W !! Z.to_nat (index - origin f) = Some x -> origin f <= index ->
  ~ is_discarded x ->
  exists f', jb_framelist_discard f index = Some (PJ_SUCCESS, f') /\
    fl_rep f' (<[Z.to_nat (index - origin f) :=
                 x <| frame_type := PJMEDIA_JB_DISCARDED_FRAME |>]> W) /\
    same_geometry f f' /\ origin f' = origin f.
Proof.
  intros R Hx Ho Hnd. pose proof (lookup_lt_Some _ _ _ Hx) as Hlt.
  pose proof (fl_rep_window _ _ R). pose proof (fr_slots _ _ R).
  pose proof (fr_max _ _ R). pose proof (fr_origin _ _ R). pose proof (fr_end _ _ R).
  pose proof (fr_head _ _ R).
  unfold jb_framelist_discard. rewrite (fr_size _ _ R).
  destruct (Z.leb_spec (origin f) index); [|lia]. ints. ored.
  destruct (Z.ltb_spec index (origin f + Z.of_nat (length W))); [|lia]. cbn [andb negb]. ored. ints.
  destruct (slot_at f W (index - origin f) R) as (s & Hs & Hr & Hsok); [lia|].
  obind Hs. apply (ring_window _ _ _ _ R) in Hr; [|done].
  assert (s = x) as -> by congruence. clear Hr.
  set (s' := x <| frame_type := _ |>).
  assert (Hs'ok : slot_ok s')
    by (destruct Hsok; split; cbn; [by right; right|done|done]).
  destruct (set_window_spec f W _ s' x R Hx Hs'ok) as (l & Hset & R').
  rewrite Z2Nat.id in Hset by lia. obind Hset. eexists. split; [reflexivity|].
  split; [|done]. cbn [discarded_num set_field].
  pose proof (num_discarded_insert W _ s' x Hx) as Hn.
  rewrite (decide_False (P := is_discarded x)), (decide_True (P := is_discarded s')) in Hn
    by done.
  pose proof (num_discarded_le W).
  replace (u32 (discarded_num f + 1)) with
    (Z.of_nat (num_discarded (<[Z.to_nat (index - origin f) := s']> W))); [exact R'|].
  rewrite (fr_disc _ _ R), u32_id by (unfold is_u32; lia). lia.
Qed.

(** The index in [W] of the [idx]-th live slot. *)
Fixpoint live_index (W : list jb_slot) (idx : nat) : option nat :=
  match W with
  | [] => None
  | s :: W =>
      if decide (is_discarded s) then S <$> live_index W idx
      else match idx with O => Some O | S idx => S <$> live_index W idx end
  end.

Lemma live_index_live W idx k s :
  live_index W idx = Some k -> W !! k = Some s -> live W !! idx = Some s.
Proof.
  revert idx k. induction W as [|x W IH]; intros idx k; [done|].
  cbn [live_index]. rewrite live_cons.
  destruct (decide (is_discarded x)) as [H|H].
  - intros (k' & E & ->)%fmap_Some Hk. cbn in Hk. by eapply IH.
  - destruct idx as [|idx].
    + intros [= <-] Hk. cbn in *. done.
    + intros (k' & E & ->)%fmap_Some Hk. cbn in Hk. by eapply IH.
Qed.

Lemma live_index_some W idx :
  (idx < length (live W))%nat -> exists k, live_index W idx = Some k /\ (idx <= k)%nat.
Proof.
  revert idx. induction W as [|x W IH]; intros idx; [cbn; lia|].
  cbn [live_index]. rewrite live_cons.
  destruct (decide (is_discarded x)) as [H|H]; cbn [length].
  - intros Hi. destruct (IH idx Hi) as (k & -> & ?). exists (S k). split; [done|lia].
  - destruct idx as [|idx]; [by exists 0%nat|].
    intros Hi. destruct (IH idx) as (k & -> & ?); [lia|].
    exists (S k). split; [done|lia].
Qed.

Lemma live_index_lt W idx k : live_index W idx = Some k -> (k < length W)%nat.
Proof.
  revert idx k. induction W as [|x W IH]; intros idx k; [done|]. cbn [live_index length].
  repeat case_match; try done; intros Hk;
    first [by simplify_eq; lia | apply fmap_Some in Hk as (j & Hj & ->);
           apply IH in Hj; lia].
Qed.

Lemma peek_pos_spec fuel f W i idx k :
  fl_rep f W -> (i <= length W)%nat ->
  live_index (drop i W) idx = Some k -> (length W - i <= fuel)%nat ->
  peek_pos fuel f ((head f + Z.of_nat i) mod max_count f) (Z.of_nat idx) =
    Some ((head f + Z.of_nat (i + k)) mod max_count f).
Proof.
  intros R. revert i idx k. induction fuel as [|fuel IH]; intros i idx k Hi Hk Hf.
  { rewrite drop_ge in Hk by lia. done. }
  destruct (drop i W) as [|s D] eqn:ED; [done|].
  assert (Hlt : (i < length W)%nat).
  { destruct (decide (i < length W)%nat); [done|]. by rewrite drop_ge in ED by lia. }
  assert (Hs : W !! i = Some s).
  { rewrite <- (Nat.add_0_r i), <- lookup_drop, ED. done. }
  assert (HD : drop (S i) W = D).
  { rewrite (drop_S _ s) in ED by done. by simplify_eq. }
  pose proof (fl_rep_window _ _ R). pose proof (fr_slots _ _ R).
  pose proof (fr_max _ _ R).
  destruct (slot_at f W (Z.of_nat i) R) as (s' & Hz & Hr & _); [lia|].
  rewrite Nat2Z.id in Hr. apply (ring_window _ _ _ _ R) in Hr; [|done].
  simplify_eq. cbn [peek_pos]. obind Hz.
  pose proof (Z.mod_pos_bound (head f + Z.of_nat i) (max_count f)).
  rewrite (u32_id (_ mod _ + 1)) by (unfold is_u32; lia).
  replace (((head f + Z.of_nat i) mod max_count f + 1) mod max_count f)
    with ((head f + Z.of_nat (S i)) mod max_count f).
  2:{ rewrite Zplus_mod_idemp_l. f_equal. lia. }
  cbn [live_index] in Hk. unfold is_discarded in Hk.
  destruct (Z.eqb_spec (frame_type s) PJMEDIA_JB_DISCARDED_FRAME) as [E|E].
  - rewrite decide_True in Hk by done. apply fmap_Some in Hk as (j & Hj & ->).
    rewrite (IH (S i) idx j); [f_equal; f_equal; lia|lia|done|lia].
  - rewrite decide_False in Hk by done. destruct idx as [|idx].
    + simplify_eq. cbn. by rewrite Nat.add_0_r.
    + apply fmap_Some in Hk as (j & Hj & ->).
      destruct (Z.eqb_spec (Z.of_nat (S idx)) 0); [lia|].
      replace (Z.of_nat (S idx) - 1) with (Z.of_nat idx) by lia.
      rewrite (IH (S i) idx j); [f_equal; f_equal; lia|lia|done|lia].
Qed.

Lemma peek_spec f W offset :
  fl_rep f W -> 0 <= offset ->
  if decide (offset < Z.of_nat (length (live W))) then
    exists k s, live_index W (Z.to_nat offset) = Some k /\ W !! k = Some s /\
      live W !! Z.to_nat offset = Some s /\
      jb_framelist_peek f offset = Some (Some (mk_out (frame_type s)
        (take (Z.to_nat (content_len s)) (content s)) (content_len s)
        (bit_info s) (ts s) (origin f + offset)))
  else jb_framelist_peek f offset = Some None.
Proof.
  intros R Ho. unfold jb_framelist_peek. rewrite (eff_size_spec _ _ R).
  destruct (Z.leb_spec (Z.of_nat (length (live W))) offset); case_decide; try lia; [done|].
  destruct (live_index_some W (Z.to_nat offset)) as (k & Hk & _); [lia|].
  pose proof (live_index_lt _ _ _ Hk) as Hlt.
  destruct (lookup_lt_is_Some_2 W k Hlt) as [s Hs].
  exists k, s. split; [done|]. split; [done|]. split; [by eapply live_index_live|].
  pose proof (peek_pos_spec (Z.to_nat (size f)) f W 0 (Z.to_nat offset) k R) as Hp.
  rewrite Z.add_0_r, Z.mod_small, Z2Nat.id in Hp by (lia || apply (fr_head _ _ R)).
  rewrite Hp; [|lia|done|rewrite (fr_size _ _ R); lia]. ored. cbn [Nat.add].
  pose proof (fr_origin _ _ R). pose proof (fr_end _ _ R). pose proof (live_length W).
  pose proof (fr_max _ _ R). ints.
  pose proof (fl_rep_window _ _ R). pose proof (fr_slots _ _ R).
  destruct (slot_at f W (Z.of_nat k) R) as (s' & Hz & Hr & _); [lia|].
  obind Hz. rewrite Nat2Z.id in Hr. apply (ring_window _ _ _ _ R) in Hr; [|done].
  by simplify_eq.
Qed.

(** ** Lemmas: [put] *)

Lemma is_missing_not_discarded s : is_missing s -> ~ is_discarded s.
Proof. unfold is_missing, is_discarded. intros ->. done. Qed.

(** The window after storing [s] in a missing slot at distance [d]. *)
Definition put_window (f : jb_framelist_t) (W : list jb_slot) (d : nat)
    (s : jb_slot) : list jb_slot :=
  <[d := s]> (take (Nat.max (length W) (S d)) (ring f)).

Lemma put_window_stored f W d s :
  fl_rep f W -> (d < length (slots f))%nat -> stored W d s (put_window f W d s).
Proof.
  intros R Hd. pose proof (fl_rep_window _ _ R) as Hw.
  assert (Hlen : length (take (Nat.max (length W) (S d)) (ring f)) =
    Nat.max (length W) (S d)) by (rewrite length_take, ring_length; lia).
  unfold put_window. split.
  - by rewrite length_insert.
  - apply list_lookup_insert_eq. lia.
  - intros k x Hk Hx. pose proof (lookup_lt_Some _ _ _ Hx).
    rewrite list_lookup_insert_ne by done. rewrite lookup_take_lt by lia.
    by apply (ring_window _ _ _ _ R).
  - intros k x Hk Hge Hx. rewrite list_lookup_insert_ne in Hx by done.
    pose proof (lookup_lt_Some _ _ _ Hx) as Hlt.
    rewrite lookup_take_lt in Hx by lia. by eapply ring_tail_missing.
Qed.

Lemma put_window_rep f W d s x l :
  fl_rep f W -> (d < length (slots f))%nat -> origin f + Z.of_nat (S d) <= SEQ_MAX ->
  slot_ok s -> ~ is_discarded s -> ring f !! d = Some x -> is_missing x ->
  ring (f <| slots := l |>) = <[d := s]> (ring f) ->
  length l = length (slots f) -> Forall slot_ok l ->
  fl_rep (f <| slots := l |> <| size := Z.of_nat (Nat.max (length W) (S d)) |>)
    (put_window f W d s).
Proof.
  intros R Hd Hend Hs Hnd Hx Hxm Hring Hl Hlok.
  pose proof (fl_rep_window _ _ R) as Hw.
  set (n := Nat.max (length W) (S d)).
  assert (Hn : length (take n (ring f)) = n) by (rewrite length_take, ring_length; lia).
  assert (Htake : num_discarded (take n (ring f)) = num_discarded W).
  { destruct (fr_ring _ _ R) as (M & -> & HM). rewrite take_app_ge by lia.
    rewrite num_discarded_app, (num_discarded_missing (take _ M)); [lia|].
    by apply Forall_take. }
  unfold put_window. fold n.
  split; cbn -[Nat.max]; try apply R.
  - rewrite length_insert, Hn. pose proof (fr_end _ _ R). unfold n. lia.
  - rewrite Hl. apply R.
  - by rewrite length_insert, Hn.
  - exists (drop n (ring f)). split.
    + etransitivity; [exact Hring|].
      rewrite <- (take_drop n (ring f)) at 1.
      by rewrite insert_app_l by lia.
    + destruct (fr_ring _ _ R) as (M & -> & HM). rewrite drop_app_ge by lia.
      by apply Forall_drop.
  - rewrite (fr_disc _ _ R), <- Htake. f_equal.
    assert (Hx' : take n (ring f) !! d = Some x) by (rewrite lookup_take_lt; [done|lia]).
    pose proof (num_discarded_insert _ _ s x Hx') as Hi.
    rewrite (decide_False (P := is_discarded s)) in Hi by done.
    rewrite (decide_False (P := is_discarded x)) in Hi
      by by apply is_missing_not_discarded.
    lia.
  - done.
Qed.

Lemma put_store_spec f W d frame bits tstamp :
  fl_rep f W -> Z.of_nat d < max_count f -> seq_ok (origin f + Z.of_nat d) ->
  (exists x, W !! d = Some x /\ ~ is_missing x /\
     put_store f (origin f + Z.of_nat d) (Z.of_nat d) frame bits tstamp
       PJMEDIA_JB_NORMAL_FRAME = Some (PJ_EEXISTS, f)) \/
  (exists f' s W', (forall x, W !! d = Some x -> is_missing x) /\
     put_store f (origin f + Z.of_nat d) (Z.of_nat d) frame bits tstamp
       PJMEDIA_JB_NORMAL_FRAME = Some (PJ_SUCCESS, f') /\
     fl_rep f' W' /\ same_geometry f f' /\ origin f' = origin f /\
     carries s frame bits tstamp /\ stored W d s W').
Proof.
  intros R Hd Hseq. pose proof (fl_rep_window _ _ R) as Hw.
  pose proof (fr_slots _ _ R) as Hsl. pose proof (fr_max _ _ R). pose proof (fr_head _ _ R).
  pose proof (fr_origin _ _ R). pose proof (fr_end _ _ R).
  unfold put_store. ints.
  destruct (slot_at f W (Z.of_nat d) R) as (x & Hz & Hr & Hxok); [lia|].
  rewrite Nat2Z.id in Hr. obind Hz.
  destruct (Z.eqb_spec (frame_type x) PJMEDIA_JB_MISSING_FRAME) as [Hm|Hm]; cbn [negb].
  - right. rewrite Z.eqb_refl.
    set (s := mk_slot _ _ _ _ _).
    assert (Hs : slot_ok s).
    { split; [by right; left| |done]. unfold s. cbn. rewrite length_app. lia. }
    assert (Hca : carries s frame bits tstamp).
    { split; try done. unfold s. cbn. by rewrite take_app_length. }
    destruct (ring_set f (Z.of_nat d) s (fr_slots _ _ R) (fr_head _ _ R) ltac:(lia))
      as (l & Hset & Hl & Hring & Hall).
    obind Hset. rewrite Nat2Z.id in Hring.
    exists (f <| slots := l |> <| size := Z.of_nat (Nat.max (length W) (S d)) |>), s,
      (put_window f W d s).
    split.
    { intros y Hy. apply (ring_window _ _ _ _ R) in Hy; [congruence|].
      by eapply lookup_lt_Some. }
    split.
    { cbn [origin size set_field]. rewrite (fr_size _ _ R). ints. ored.
      destruct (Z.leb_spec (origin f + Z.of_nat (length W)) (origin f + Z.of_nat d)).
      - ored. ints. do 2 f_equal. unfold set_field. cbn [slots]. f_equal. lia.
      - do 2 f_equal. replace (Nat.max (length W) (S d)) with (length W) by lia.
        rewrite <- (fr_size _ _ R). by destruct f. }
    split; [|split; [done|split; [done|split; [done|]]]].
    + eapply put_window_rep; try done; [lia|lia|apply Hall; [apply R|done]].
    + apply put_window_stored; [done|lia].
  - left. exists x. split; [|split; [exact Hm|done]].
    apply (ring_window _ _ _ _ R); [|done].
    destruct (decide (d < length W)%nat); [done|]. exfalso. apply Hm.
    eapply ring_tail_missing; [exact R| |exact Hr]. lia.
Qed.

Lemma set_origin_rep f W o :
  fl_rep f W -> - SEQ_MAX < o -> o + Z.of_nat (length W) <= SEQ_MAX -> fl_rep (f <| origin := o |>) W.
Proof. by intros [] ??. Qed.

Lemma reset_at_spec f W o :
  fl_rep f W -> seq_ok o ->
  fl_rep (jb_framelist_reset f <| origin := o |>) [] /\
  same_geometry f (jb_framelist_reset f <| origin := o |>).
Proof.
  intros R Ho. unfold seq_ok in Ho. destruct (reset_spec f W R) as (R' & ? & _).
  split; [apply set_origin_rep; [done|lia|cbn; lia]|done].
Qed.

(** After the two tests that precede the capacity test: the frame is late, or
    its distance to the (possibly moved) origin is known. *)
Lemma put_prepare_spec f W index :
  fl_rep f W -> seq_ok index ->
  (0 < origin f - index < MAX_MISORDER /\ put_late f index = Some (inl PJ_ETOOSMALL)) \/
  (exists d f1 f2 W2,
     put_late f index = Some (inr (d, f1)) /\
     put_empty f1 index d = (index - origin f2, f2) /\
     fl_rep f2 W2 /\ same_geometry f f2 /\
     rebased f W index (origin f2) W2 /\ 0 <= index - origin f2 /\
     (W2 = [] /\ origin f2 = index \/ W2 = W /\ W <> [])).
Proof.
  intros R Hseq. unfold put_late. rewrite (fr_size _ _ R). pose proof (fr_max _ _ R).
  pose proof (fr_slots _ _ R). pose proof (fr_origin _ _ R). pose proof (fr_end _ _ R). pose proof (fl_rep_window _ _ R).
  unfold seq_ok in Hseq. ints. ored.
  destruct (Z.ltb_spec (index - origin f) 0) as [Hneg|Hpos].
  - ints. ored. destruct (Z.ltb_spec (origin f - index) MAX_MISORDER) as [Hlate|Hfar].
    { left. split; [lia|done]. }
    right. unfold put_empty.
    assert (Eu : u32 (origin f + Z.of_nat (length W)) = origin f + Z.of_nat (length W))
      by (apply u32_id; unfold is_u32; lia).
    destruct (Z.leb_spec MAX_FRAME_INDEX (origin f + Z.of_nat (length W))) as [Hre|Hre]; rewrite <- Eu in Hre.
    + exists (Z.of_nat (length W)), (f <| origin := index - Z.of_nat (length W) |>).
      cbn [size set_field]. rewrite (fr_size _ _ R).
      destruct W as [|s W]; cbn [length Z.of_nat Z.eqb].
      * exists (f <| origin := index |>), []. split; [reflexivity|].
        split; [cbn; f_equal; lia|].
        split; [apply set_origin_rep; [done|lia|cbn; lia]|]. split; [done|].
        split; [apply (reb_empty f [] index); [done|lia]|]. split; [cbn; lia|by left].
      * eexists (f <| origin := _ |>), (s :: W). split; [reflexivity|].
        split; [cbn; f_equal; lia|].
        split; [cbn [length] in *; apply set_origin_rep; [done|lia|cbn [length]; lia]|]. split; [done|].
        split; [by apply (reb_restart f)|]. split; [cbn; lia|by right].
    + destruct (reset_at_spec f W index R Hseq) as [R' G'].
      exists 0, (jb_framelist_reset f <| origin := index |>).
      exists (jb_framelist_reset f <| origin := index |>), []. split; [done|].
      split; [cbn; f_equal; lia|]. split; [done|]. split; [done|].
      split; [|split; [cbn; lia|by left]].
      destruct W; [apply (reb_empty f [] index); [done|lia]|by apply (reb_back f)].
  - right. exists (index - origin f), f. unfold put_empty. rewrite (fr_size _ _ R).
    destruct W as [|s W]; cbn [length Z.of_nat Z.eqb].
    + exists (f <| origin := index |>), []. split; [done|].
      split; [cbn; f_equal; lia|]. split; [apply set_origin_rep; [done|lia|cbn; lia]|].
      split; [done|]. split; [apply (reb_empty f [] index); [done|lia]|].
      split; [cbn; lia|by left].
    + exists f, (s :: W). split; [done|]. split; [done|]. split; [done|].
      split; [done|]. split; [apply reb_same; [done|lia]|].
      split; [lia|by right].
Qed.

Lemma put_at_spec f W index frame bits tstamp :
  fl_rep f W -> seq_ok index -> Z.of_nat (length frame) <= frame_size f ->
  exists st f' W',
    jb_framelist_put_at f index frame bits tstamp PJMEDIA_JB_NORMAL_FRAME =
      Some (st, f') /\
    fl_rep f' W' /\ same_geometry f f' /\
    put_outcome f W index frame bits tstamp st f' W'.
Proof.
  intros R Hseq Hfs. unfold jb_framelist_put_at.
  destruct (Z.ltb_spec (frame_size f) (Z.of_nat (length frame))); [lia|].
  destruct (put_prepare_spec f W index R Hseq)
    as [[Hlate ->]|(d & f1 & f2 & W2 & -> & Hemp & R2 & [G1 G2] & Hreb & Hd & HW)]; ored.
  { exists PJ_ETOOSMALL, f, W. split; [done|]. split; [done|]. split; [done|].
    by apply po_late. }
  rewrite Hemp. clear Hemp.
  assert (Hfin : forall f3 W3, fl_rep f3 W3 -> same_geometry f f3 ->
    rebased f W index (origin f3) W3 -> 0 <= index - origin f3 < max_count f3 ->
    exists st f' W',
      put_store f3 index (index - origin f3) frame bits tstamp
        PJMEDIA_JB_NORMAL_FRAME = Some (st, f') /\
      fl_rep f' W' /\ same_geometry f f' /\
      put_outcome f W index frame bits tstamp st f' W').
  { intros f3 W3 R3 [G1' G2'] Hreb3 Hd3.
    set (dn := Z.to_nat (index - origin f3)).
    assert (Hi : index = origin f3 + Z.of_nat dn) by lia.
    destruct (put_store_spec f3 W3 dn frame bits tstamp R3 ltac:(lia) ltac:(by rewrite <- Hi))
      as [(x & Hx & Hxm & Hp)|(f' & s & W' & Hmiss & Hp & R' & [G1'' G2''] & Ho' & Hca & Hst)];
      rewrite <- Hi in Hp; unfold dn in Hp; rewrite Z2Nat.id in Hp by lia.
    - exists PJ_EEXISTS, f3, W3. split; [done|]. split; [done|].
      split; [done|]. by eapply po_dup.
    - exists PJ_SUCCESS, f', W'. split; [done|]. split; [done|].
      split; [split; congruence|]. rewrite <- Ho' in *.
      eapply po_stored; eauto. lia. }
  pose proof (fr_max _ _ R2). unfold put_far. ints. destruct (Z.leb_spec (max_count f2) (index - origin f2)) as [Hge|Hlt].
  - pose proof (fr_max _ _ R2). destruct HW as [[_ ?]|[-> HW]]; [lia|].
    destruct (Z.ltb_spec MAX_DROPOUT (index - origin f2)) as [Hdrop|Hdrop].
    + destruct (reset_at_spec f2 W index R2 Hseq) as [R3 [G3 G3']].
      replace 0 with (index - origin (jb_framelist_reset f2 <| origin := index |>))
        by (cbn; lia).
      apply (Hfin _ []); [done|split; congruence| |].
      * apply (reb_ahead f W index (origin f2)); [done|done|lia|lia].
      * cbn [origin set_field]. lia.
    + exists PJ_ETOOMANY, f2, W. split; [done|]. split; [done|]. split; [done|].
      apply po_full; [done|done|lia].
  - by apply (Hfin f2 W2); [| | |lia].
Qed.
