(* ===== verification/JbufSpec.v ===== *)
(** * The contract of the jitter buffer

    The invariant of [pjmedia_jbuf], preserved by every operation; the
    functional behaviour of the frame list as a queue with holes that
    reorders what is put into it; and the defects modelling found. *)

From S2P Require Import Prelude Jbuf JbufList.
Local Open Scope Z_scope.

(** ** Definitions *)

(** No discarded slot of the window comes after sequence number [ref]. *)
Definition disc_le (W : list jb_slot) (o ref : Z) : Prop :=
  forall k s, W !! k = Some s -> is_discarded s -> o + Z.of_nat k <= ref.

(** A bound of the counter [jb_level], of puts or gets in a row, and of the
    capacity. *)
Notation LEVEL_MAX := 536870912 (only parsing).

Record jb_inv (j : pjmedia_jbuf) (W : list jb_slot) : Prop := mk_jb_inv {
  ji_list : fl_rep (jb_framelist j) W;
  ji_fs_pos : 0 <= jb_frame_size j;
  ji_frame_size : frame_size (jb_framelist j) = jb_frame_size j;
  ji_max_count : jb_max_count j = max_count (jb_framelist j);
  ji_capacity : max_count (jb_framelist j) < LEVEL_MAX;
  ji_ptime : 0 < jb_frame_ptime j;
  ji_gap_max : jb_min_shrink_gap j <= PJMEDIA_JBUF_DISC_MIN_GAP;
  ji_gap : jb_discard_algo j = DISCARD_PROGRESSIVE -> 1 <= jb_min_shrink_gap j;
  ji_prefetch : 0 <= jb_prefetch j <= jb_max_prefetch j;
  ji_prefetch_range :
    0 <= jb_min_prefetch j <= jb_max_prefetch j /\
    jb_max_prefetch j <= jb_max_count j;
  ji_burst : 0 <= jb_max_burst j;
  ji_level : 0 <= jb_level j;
  ji_hist : 0 <= jb_max_hist_level j;
  ji_eff : 0 <= jb_eff_level j <= jb_max_count j * 4 / 5;
  ji_dist : 0 <= jb_discard_dist j <= PJMEDIA_JBUF_PRO_DISC_T2;
  ji_ref : - SEQ_MAX < jb_discard_ref j <= SEQ_MAX;
  ji_disc : jb_discard_algo j = DISCARD_PROGRESSIVE -> jb_discard_dist j <> 0 ->
    disc_le W (origin (jb_framelist j)) (jb_discard_ref j)
}.

Definition jb_ok (j : pjmedia_jbuf) : Prop := exists W, jb_inv j W.

(** The calls of the application.  The frame duration stays within the minimum
    discard gap, and the discard algorithm is changed before a reset or to one
    that does not mark frames; [jbuf_double_discard] shows why.  Sequence
    numbers and the number of calls of a kind in a row are within what [int]
    holds. *)
Inductive jbuf_step (j : pjmedia_jbuf) : pjmedia_jbuf -> Prop :=
| js_put frame bits frame_seq tstamp d j' : seq_ok frame_seq -> jb_level j < LEVEL_MAX ->
    pjmedia_jbuf_put_frame3 1 j frame bits frame_seq tstamp = Some (d, j') ->
    jbuf_step j j'
| js_get max_size t o j' : jb_level j < LEVEL_MAX ->
    pjmedia_jbuf_get_frame3 j max_size = Some (t, o, j') -> jbuf_step j j'
| js_remove n c j' : 0 <= n ->
    pjmedia_jbuf_remove_frame j n = Some (c, j') -> jbuf_step j j'
| js_reset : jbuf_step j (pjmedia_jbuf_reset j)
| js_set_discard algo : algo <> DISCARD_PROGRESSIVE ->
    jbuf_step j (pjmedia_jbuf_set_discard j algo)
| js_set_discard_reset algo : 1 <= jb_min_shrink_gap j ->
    jbuf_step j (pjmedia_jbuf_reset (pjmedia_jbuf_set_discard j algo))
| js_set_fixed p : 0 <= p -> jbuf_step j (pjmedia_jbuf_set_fixed j p).2
| js_set_adaptive p lo hi : 0 <= p -> 0 <= lo ->
    jbuf_step j (pjmedia_jbuf_set_adaptive j p lo hi).2
| js_set_ptime ptime r j' : 0 < ptime <= PJMEDIA_JBUF_DISC_MIN_GAP ->
    pjmedia_jbuf_set_ptime j ptime = Some (r, j') -> jbuf_step j j'.

Inductive jbuf_init : pjmedia_jbuf -> Prop :=
| jbuf_init_create junk fsize ptime mc j :
    0 <= fsize -> 0 < ptime <= PJMEDIA_JBUF_DISC_MIN_GAP -> 0 < mc < LEVEL_MAX ->
    pjmedia_jbuf_create junk fsize ptime mc = Some j -> jbuf_init j.

(** Putting a sequence of frames into a list. *)
Fixpoint put_all (f : jb_framelist_t) (frames : list (Z * list Z))
    : option (list Z * jb_framelist_t) :=
  match frames with
  | [] => Some ([], f)
  | (index, frame) :: frames =>
      '(st, f) ← jb_framelist_put_at f index frame 0 0 PJMEDIA_JB_NORMAL_FRAME;
      '(sts, f) ← put_all f frames;
      Some (st :: sts, f)
  end.

(** Getting [n] frames: sequence numbers and contents. *)
Fixpoint get_all (f : jb_framelist_t) (n : nat)
    : option (list (option (Z * list Z))) :=
  match n with
  | O => Some []
  | S n =>
      '(o, f) ← jb_framelist_get f (frame_size f);
      os ← get_all f n;
      Some ((match (o : option jb_out) with
             | Some o => if o_type o =? PJMEDIA_JB_NORMAL_FRAME
                         then Some (o_seq o, o_frame o) else None
             | None => None
             end) :: os)
  end.

(** Runs of a buffer, for evaluation. *)
Inductive jb_call := CallPut (frame_seq : Z) | CallGet.

Fixpoint jb_run (j : pjmedia_jbuf) (calls : list jb_call) : option pjmedia_jbuf :=
  match calls with
  | [] => Some j
  | CallPut frame_seq :: calls =>
      '(_, j) ← pjmedia_jbuf_put_frame3 1 j [0] 0 frame_seq 0; jb_run j calls
  | CallGet :: calls =>
      '(_, _, j) ← pjmedia_jbuf_get_frame3 j 1; jb_run j calls
  end.

(** ** Lemmas: the discard reference *)

Lemma disc_le_drop W o ref n :
  disc_le W o ref -> disc_le (drop n W) (o + Z.of_nat n) ref.
Proof.
  intros H k s Hk Hs. rewrite lookup_drop in Hk.
  specialize (H _ _ Hk Hs). lia.
Qed.

Lemma disc_le_mono W o o' ref : disc_le W o ref -> o' <= o -> disc_le W o' ref.
Proof. intros H Ho k s Hk Hs. specialize (H _ _ Hk Hs). lia. Qed.

Lemma disc_le_nil o ref : disc_le [] o ref.
Proof. intros k s Hk. by rewrite lookup_nil in Hk. Qed.

Lemma disc_le_last W o : disc_le W o (o + Z.of_nat (length W) - 1).
Proof. intros k s Hk%lookup_lt_Some _. lia. Qed.

Lemma carries_not_discarded s frame bits tstamp :
  carries s frame bits tstamp -> ~ is_discarded s.
Proof. intros [Ht _ _ _ _]. unfold is_discarded. by rewrite Ht. Qed.

Lemma disc_le_stored W d s W' frame bits tstamp o ref :
  stored W d s W' -> carries s frame bits tstamp -> disc_le W o ref ->
  disc_le W' o ref.
Proof.
  intros [Hl Hat Hold Hgap] Hca HW k x Hk Hx.
  destruct (decide (k = d)) as [->|Hne].
  { rewrite Hat in Hk. simplify_eq. by destruct (carries_not_discarded _ _ _ _ Hca). }
  destruct (decide (k < length W)%nat) as [Hlt|Hge].
  - destruct (lookup_lt_is_Some_2 W k Hlt) as [y Hy].
    pose proof (Hold _ _ Hne Hy) as E. simplify_eq. eauto.
  - exfalso. apply (is_missing_not_discarded x); [|done]. apply (Hgap k); [done|lia|done].
Qed.

Lemma disc_le_rebased f W index o W' ref :
  rebased f W index o W' -> disc_le W (origin f) ref -> disc_le W' o ref.
Proof.
  intros Hr Hd. destruct Hr; try apply disc_le_nil; [done|].
  eapply disc_le_mono; [exact Hd|]. unfold MAX_MISORDER in *. lia.
Qed.

Lemma put_outcome_disc f W index frame bits tstamp st f' W' ref :
  put_outcome f W index frame bits tstamp st f' W' ->
  disc_le W (origin f) ref -> disc_le W' (origin f') ref.
Proof.
  intros Ho Hd. destruct Ho; [done|by eapply disc_le_rebased|by eapply disc_le_rebased|].
  eapply disc_le_stored; [done|done|]. by eapply disc_le_rebased.
Qed.

(** ** Lemmas: replacing the list of a buffer *)

Lemma jb_inv_list j f W W' :
  jb_inv j W -> fl_rep f W' -> same_geometry (jb_framelist j) f ->
  (forall ref, disc_le W (origin (jb_framelist j)) ref -> disc_le W' (origin f) ref) ->
  jb_inv (j <| jb_framelist := f |>) W'.
Proof.
  intros [] R [G1 G2] Hd. split; cbn; try done; try congruence.
  auto.
Qed.

Lemma drop_disc (W : list jb_slot) c o :
  0 <= c <= Z.of_nat (length W) ->
  forall ref, disc_le W o ref -> disc_le (drop (Z.to_nat c) W) (o + c) ref.
Proof.
  intros Hc ref H. apply (disc_le_drop _ _ _ (Z.to_nat c)) in H.
  by rewrite Z2Nat.id in H by lia.
Qed.

(** [lia] that knows the constants of the discard algorithms. *)
Ltac jlia := unfold PJMEDIA_JBUF_DISC_MIN_GAP, PJMEDIA_JBUF_PRO_DISC_T2 in *; lia.

(** ** Lemmas: jitter calculation *)

Lemma jitter_inv j W : jb_inv j W -> jb_inv (jbuf_calculate_jitter j) W.
Proof.
  intros []. unfold jbuf_calculate_jitter.
  cbn [jb_level jb_eff_level set_field].
  destruct (Z.ltb_spec (jb_level j) (jb_eff_level j)) as [Hlt|Hge].
  - unfold jitter_decreasing.
    cbn [jb_stable_hist jb_max_hist_level jb_eff_level jb_init_prefetch set_field].
    set (q := Z.quot _ 3).
    assert (Hq : q <= jb_eff_level j).
    { unfold q. apply Z.quot_le_upper_bound; lia. }
    repeat case_match; split; cbn -[Z.mul Z.div] in *; zbool; try done; try lia.
  - destruct (Z.ltb_spec (jb_eff_level j) (jb_level j)).
    + unfold jitter_increasing.
      assert (0 <= jb_max_count j * 4 / 5) by (apply Z.div_pos; lia).
      repeat case_match; split; cbn -[Z.mul Z.div] in *; zbool; try done; try lia.
    + split; cbn; try done; lia.
Qed.

(** Invariance under assignments to fields the invariant bounds. *)
Ltac jb_fields H := destruct H; split; cbn in *; try done; try jlia.

(** ** Lemmas: the discard algorithms *)

Lemma eff_level_max j W : jb_inv j W -> 0 <= jb_eff_level j < LEVEL_MAX.
Proof.
  intros HI. pose proof (ji_eff _ _ HI). pose proof (ji_max_count _ _ HI). pose proof (ji_capacity _ _ HI).
  pose proof (fr_max _ _ (ji_list _ _ HI)).
  assert (jb_max_count j * 4 / 5 <= jb_max_count j) by (apply Z.div_le_upper_bound; lia). lia.
Qed.

Lemma static_inv j W :
  jb_inv j W -> jb_level j < SEQ_MAX -> jb_discard_algo j = DISCARD_STATIC ->
  exists j' W', jbuf_discard_static j = Some j' /\ jb_inv j' W' /\
    (W' = W \/ W' = tail W).
Proof.
  intros HI Hlv Ha. unfold jbuf_discard_static.
  pose proof (ji_level _ _ HI). pose proof (eff_level_max _ _ HI).
  pose proof (ji_capacity _ _ HI). pose proof (ji_ref _ _ HI).
  pose proof (fr_origin _ _ (ji_list _ _ HI)) as Hor. pose proof (fr_end _ _ (ji_list _ _ HI)) as Hend.
  assert (Hb : 0 <= Z.max (jb_eff_level j) (jb_level j) < SEQ_MAX) by lia. ints. ored.
  destruct (STA_DISC_SAFE_SHRINKING_DIFF <=? _); [|by exists j, W; auto].
  set (j1 := if origin (jb_framelist j) <? jb_discard_ref j then _ else _).
  assert (HI1 : jb_inv j1 W).
  { unfold j1. case_match; [|done]. destruct HI; split; cbn; try done; [lia|].
    intros E. congruence. }
  assert (Hr1 : is_s32 (origin (jb_framelist j) - jb_discard_ref j1))
    by (unfold j1, is_s32; case_match; zbool; cbn; lia).
  rewrite (sint_id _ Hr1). ored.
  assert (Hl1 : jb_framelist j1 = jb_framelist j) by (unfold j1; by case_match).
  destruct (_ <=? _); [|by exists j1, W; auto].
  destruct (remove_head_spec (jb_framelist j1) W 1 (ji_list _ _ HI1))
    as (f & -> & R & G & Ho); [lia|]. ored.
  set (c := Z.min 1 _) in *.
  exists (j1 <| jb_framelist := f |> <| jb_discard_ref := origin f |>
             <| jb_discard := u32 (jb_discard j1 + c) |>), (drop (Z.to_nat c) W).
  split; [done|]. split.
  - pose proof (jb_inv_list j1 f W _ HI1 R G) as HI2.
    assert (Hd : forall ref, disc_le W (origin (jb_framelist j1)) ref ->
      disc_le (drop (Z.to_nat c) W) (origin f) ref).
    { rewrite Ho. apply drop_disc. unfold c. lia. }
    specialize (HI2 Hd).
    pose proof (fr_origin _ _ R). pose proof (fr_end _ _ R).
    destruct HI2; split; cbn in *; try done; [lia|].
    intros E. exfalso. unfold j1 in E. case_match; cbn in E; congruence.
  - destruct W as [|s W]; [left; by destruct (Z.to_nat c)|right].
    by replace c with 1 by (unfold c; cbn; lia).
Qed.

(** The schedule keeps the reference at or after every discarded slot. *)
Lemma schedule_discard_spec j W n :
  jb_inv j W -> jb_discard_algo j = DISCARD_PROGRESSIVE -> 0 <= n <= PJMEDIA_JBUF_PRO_DISC_T2 ->
  (0 < length W)%nat ->
  let last := origin (jb_framelist j) + Z.of_nat (length W) - 1 in
  let j' := schedule_discard j last n in
  jb_inv j' W /\ disc_le W (origin (jb_framelist j)) (jb_discard_ref j') /\
  jb_framelist j' = jb_framelist j /\ 1 <= jb_discard_dist j' <= PJMEDIA_JBUF_PRO_DISC_T2 /\
  - SEQ_MAX < jb_discard_ref j' /\ jb_discard_ref j' <= last.
Proof.
  intros HI Ha Hn HW. cbv zeta. unfold schedule_discard.
  set (last := _ - 1). pose proof (ji_gap _ _ HI Ha) as Hgap. pose proof (ji_gap_max _ _ HI) as Hgap'.
  pose proof (fr_origin _ _ (ji_list _ _ HI)) as Hor. pose proof (fr_end _ _ (ji_list _ _ HI)) as Hend.
  pose proof (ji_ref _ _ HI) as Href. unfold PJMEDIA_JBUF_DISC_MIN_GAP, PJMEDIA_JBUF_PRO_DISC_T2 in *.
  assert (Eg : jb_min_shrink_gap (if (jb_discard_dist j =? 0) || (last <? jb_discard_ref j)
    then j <| jb_discard_ref := last |> else j) = jb_min_shrink_gap j) by (by case_match).
  rewrite Eg, (s32_id n) by (unfold is_s32; lia). rewrite u32_id by (unfold is_u32; lia).
  destruct ((jb_discard_dist j =? 0) || (last <? jb_discard_ref j)) eqn:E.
  - assert (Hd : disc_le W (origin (jb_framelist j)) last) by apply disc_le_last.
    split; [|split; [done|split; [done|cbn; unfold last; lia]]].
    destruct HI; split; cbn in *; try done; jlia.
  - zbool.
    assert (Hd : disc_le W (origin (jb_framelist j)) (jb_discard_ref j))
      by by apply (ji_disc _ _ HI).
    split; [|split; [done|split; [done|cbn; lia]]].
    destruct HI; split; cbn in *; try done; jlia.
Qed.

Lemma progressive_inv j W :
  jb_inv j W -> jb_level j < SEQ_MAX -> jb_discard_algo j = DISCARD_PROGRESSIVE ->
  exists j' W', jbuf_discard_progressive j = Some j' /\ jb_inv j' W' /\
    (W' = W \/ exists k s, W !! k = Some s /\ ~ is_discarded s /\
       W' = <[k := s <| frame_type := PJMEDIA_JB_DISCARDED_FRAME |>]> W).
Proof.
  intros HI Hlv Ha. unfold jbuf_discard_progressive.
  destruct (negb _); [by exists j, W; auto|].
  pose proof (ji_level _ _ HI). pose proof (eff_level_max _ _ HI).
  pose proof (ji_capacity _ _ HI). pose proof (ji_ref _ _ HI).
  pose proof (fr_origin _ _ (ji_list _ _ HI)) as Hor. pose proof (fr_end _ _ (ji_list _ _ HI)) as Hend.
  rewrite (u32_id (Z.max _ _)) by (unfold is_u32; lia).
  rewrite (eff_size_spec _ _ (ji_list _ _ HI)).
  set (burst := Z.max _ _). set (n := Z.of_nat (length (live W))).
  destruct (Z.leb_spec n burst) as [|Hgt].
  { exists (j <| jb_discard_dist := 0 |>), W. split; [done|].
    split; [|by left]. jb_fields HI. }
  pose proof (ji_ptime _ _ HI). destruct (Z.eqb_spec (jb_frame_ptime j) 0); [lia|].
  rewrite (fr_size _ _ (ji_list _ _ HI)).
  set (T := discard_duration burst).
  assert (HT : 0 <= T <= PJMEDIA_JBUF_PRO_DISC_T2).
  { unfold T, discard_duration, PJMEDIA_JBUF_PRO_DISC_T1, PJMEDIA_JBUF_PRO_DISC_T2,
      PJMEDIA_JBUF_PRO_DISC_MIN_BURST, PJMEDIA_JBUF_PRO_DISC_MAX_BURST.
    repeat case_match; zbool; try lia.
    assert (0 <= (10000 - 2000) * (burst - 1) / (100 - 1) <= 8000)
      by (split; [apply Z.div_pos; lia|apply Z.div_le_upper_bound; lia]).
    lia. }
  assert (Hdiv : forall a b, 0 <= a -> 0 < b -> 0 <= a / b <= a)
    by (intros a b Ha' Hb'; split; [apply Z.div_pos; lia|apply Z.div_le_upper_bound; nia]).
  assert (Hdist : 0 <= T / (n - burst) / jb_frame_ptime j <= PJMEDIA_JBUF_PRO_DISC_T2).
  { pose proof (Hdiv T (n - burst)). pose proof (Hdiv (T / (n - burst)) (jb_frame_ptime j)). lia. }
  rewrite (s32_id (origin _ + _ - 1)) by (unfold is_s32; lia).
  assert (HW : (0 < length W)%nat).
  { pose proof (live_length W). pose proof (ji_eff _ _ HI). unfold burst, n in *. lia. }
  destruct (schedule_discard_spec j W _ HI Ha Hdist HW) as (HI1 & Hd1 & Hl1 & Hge & Hlo & Href).
  set (j1 := schedule_discard _ _ _) in *. clearbody j1. rewrite Hl1.
  set (f := jb_framelist j) in *. unfold PJMEDIA_JBUF_PRO_DISC_T2 in *. ints. ored. ints.
  destruct (Z.leb_spec (jb_discard_ref j1 + jb_discard_dist j1)
    (origin f + Z.of_nat (length W) - 1)); [|by exists j1, W; auto].
  set (seq := if jb_discard_ref j1 + jb_discard_dist j1 <? origin f then _ else _).
  assert (Hseq : origin f <= seq <= origin f + Z.of_nat (length W) - 1 /\
    jb_discard_ref j1 < seq).
  { unfold seq. destruct (Z.ltb_spec (jb_discard_ref j1 + jb_discard_dist j1) (origin f)); lia. }
  destruct (lookup_lt_is_Some_2 W (Z.to_nat (seq - origin f))) as [s Hs]; [lia|].
  assert (Hnd : ~ is_discarded s) by (intros Hd; specialize (Hd1 _ _ Hs Hd); lia).
  destruct (discard_spec f W seq s) as (f' & -> & R' & G' & Ho');
    [apply HI|done|lia|done|]. ored.
  set (s' := s <| frame_type := _ |>) in *.
  eexists _, _. split; [reflexivity|]. split; [|right; by eexists _, s].
  destruct HI1. rewrite Hl1 in *. destruct G' as [G1 G2].
  split; cbn; try done; try congruence; try lia.
  intros _ _ k x Hk Hx. rewrite Ho'.
  destruct (decide (k = Z.to_nat (seq - origin f))) as [->|Hne]; [lia|].
  rewrite list_lookup_insert_ne in Hk by done. specialize (Hd1 _ _ Hk Hx). lia.
Qed.

(** What [jbuf_update] may do to the window. *)
Definition window_after_update (W W' : list jb_slot) : Prop :=
  W' = W \/ W' = tail W \/
  exists k s, W !! k = Some s /\ ~ is_discarded s /\
    W' = <[k := s <| frame_type := PJMEDIA_JB_DISCARDED_FRAME |>]> W.

Lemma run_discard_inv j W :
  jb_inv j W -> jb_level j < SEQ_MAX -> exists j' W', run_discard j = Some j' /\ jb_inv j' W' /\
    window_after_update W W'.
Proof.
  intros HI Hlv. unfold run_discard, window_after_update.
  destruct (jb_status j); [by exists j, W; auto|].
  destruct (jb_discard_algo j) eqn:Ha.
  - exists j, W. auto.
  - destruct (static_inv _ _ HI Hlv Ha) as (j' & W' & -> & ? & [?|?]); eauto 10.
  - destruct (progressive_inv _ _ HI Hlv Ha) as (j' & W' & -> & ? & [?|?]); eauto 10.
Qed.

Lemma switch_op_inv j W oper :
  jb_inv j W -> jb_inv (jbuf_switch_op j oper).2 W.
Proof.
  intros HI. unfold jbuf_switch_op.
  assert (Hcalc : forall j1, jb_inv j1 W ->
    jb_inv ((if bool_decide (oper = JB_OP_GET) && (jb_level j1 <=? jb_max_burst j1)
             then jbuf_calculate_jitter j1 else j1) <| jb_level := 0 |>) W).
  { intros j1 H1. assert (H2 : jb_inv (if bool_decide (oper = JB_OP_GET) &&
      (jb_level j1 <=? jb_max_burst j1) then jbuf_calculate_jitter j1 else j1) W)
      by (case_match; [by apply jitter_inv|done]).
    revert H2. generalize (if bool_decide (oper = JB_OP_GET) &&
      (jb_level j1 <=? jb_max_burst j1) then jbuf_calculate_jitter j1 else j1).
    intros j2 H2. jb_fields H2. }
  cbn [jb_status set_field]. destruct (jb_status j).
  - destruct (_ && _); cbn [snd]; [|jb_fields HI].
    apply Hcalc. jb_fields HI.
  - cbn [snd]. apply Hcalc. jb_fields HI.
Qed.

Lemma switch_op_level j oper : jb_level (jbuf_switch_op j oper).2 = 0.
Proof. unfold jbuf_switch_op. destruct (jb_status _); [|done]. by destruct (_ && _). Qed.

Lemma update_inv j W oper :
  jb_inv j W -> jb_level j < SEQ_MAX -> exists j' W', jbuf_update j oper = Some j' /\ jb_inv j' W' /\
    window_after_update W W'.
Proof.
  intros HI Hlv. unfold jbuf_update.
  destruct (if bool_decide (jb_last_op j = oper) then (false, j)
            else jbuf_switch_op j oper) as [done j1] eqn:E.
  assert (HI1 : jb_inv j1 W).
  { case_bool_decide; [by simplify_eq|].
    change j1 with ((done, j1).2). rewrite <- E. by apply switch_op_inv. }
  assert (Hlv1 : jb_level j1 < SEQ_MAX).
  { case_bool_decide; [by simplify_eq|].
    change j1 with ((done, j1).2). rewrite <- E. by rewrite switch_op_level. }
  destruct done; [exists j1, W; split; [done|split; [done|by left]]|].
  by apply run_discard_inv.
Qed.

(** ** Lemmas: put *)

(** The frame with sequence number [index] is in the list. *)
Definition holds (f : jb_framelist_t) (W : list jb_slot) (index : Z)
    (frame : list Z) (bits tstamp : Z) : Prop :=
  exists k s, index = origin f + Z.of_nat k /\ W !! k = Some s /\
    carries s frame bits tstamp.

Lemma put_outcome_holds f W index frame bits tstamp f' W' :
  put_outcome f W index frame bits tstamp PJ_SUCCESS f' W' ->
  holds f' W' index frame bits tstamp.
Proof.
  inversion 1 as [| | |? W0 d s ? Hreb Hi Hd Hm Hca Hst]; subst.
  exists d, s. split; [done|]. split; [apply Hst|done].
Qed.

(** A full list: removing the oldest frames makes room at the first attempt. *)
Lemma put_full_spec f W index frame bits tstamp :
  fl_rep f W -> seq_ok index -> W <> [] -> max_count f <= index - origin f <= MAX_DROPOUT ->
  Z.of_nat (length frame) <= frame_size f ->
  exists c f1 f2 W2,
    jb_framelist_remove_head f (u32 ((index - origin f) - max_count f + 1)) =
      Some (c, f1) /\
    jb_framelist_put_at f1 index frame bits tstamp PJMEDIA_JB_NORMAL_FRAME =
      Some (PJ_SUCCESS, f2) /\
    fl_rep f2 W2 /\ same_geometry f f2 /\
    (forall ref, disc_le W (origin f) ref -> disc_le W2 (origin f2) ref) /\
    holds f2 W2 index frame bits tstamp.
Proof.
  intros R Hseq HW Hd Hlen. pose proof (fr_max _ _ R). pose proof (fr_slots _ _ R).
  pose proof (fl_rep_window _ _ R).
  unfold MAX_DROPOUT in *. rewrite u32_id by (unfold is_u32; lia).
  set (dist := index - origin f - max_count f + 1).
  destruct (remove_head_spec f W dist R) as (f1 & -> & R1 & [G1 G2] & Ho1); [lia|].
  set (c := Z.min dist (Z.of_nat (length W))) in *.
  assert (Hc : 0 <= c <= Z.of_nat (length W)) by (unfold c; lia).
  set (W1 := drop (Z.to_nat c) W) in *.
  destruct (put_at_spec f1 W1 index frame bits tstamp R1) as (st & f2 & W2 & Hp & R2 & [G3 G4] & Ho2);
    [done|by rewrite G1|].
  assert (Hl1 : length W1 = (length W - Z.to_nat c)%nat) by (unfold W1; by rewrite length_drop).
  assert (Hroom : W1 <> [] -> index - origin f1 = max_count f - 1).
  { intros Hne. assert (length W1 <> 0%nat) by (by destruct W1). unfold c in *. lia. }
  assert (Hnb : forall o W', rebased f1 W1 index o W' -> W' <> [] ->
    W' = W1 /\ o = origin f1).
  { intros o W' Hr Hne. destruct Hr; try done. unfold MAX_MISORDER in *. lia. }
  assert (st = PJ_SUCCESS) as ->.
  { destruct Ho2 as [Hlate|f' Hr Hne Hfull|f' W0 d x Hr Hi Hx Hxm|]; [| | |done]; exfalso.
    - lia.
    - destruct (Hnb _ _ Hr Hne) as [_ E]. specialize (Hroom Hne). lia.
    - assert (Hne : W0 <> []) by (by intros ->).
      destruct (Hnb _ _ Hr Hne) as [-> E]. specialize (Hroom Hne).
      apply lookup_lt_Some in Hx. unfold c in *. lia. }
  exists c, f1, f2, W2. split; [done|]. split; [done|]. split; [done|].
  split; [split; congruence|]. split; [|by eapply put_outcome_holds].
  intros ref Href. eapply put_outcome_disc; [exact Ho2|].
  rewrite Ho1. by apply drop_disc.
Qed.

(** [put_at] and the retry, seen as one operation on the buffer. *)
Lemma put_list_inv j W frame bits frame_seq tstamp :
  jb_inv j W -> seq_ok frame_seq -> Z.of_nat (length frame) <= jb_frame_size j ->
  exists st0 f0 st j1 W1,
    jb_framelist_put_at (jb_framelist j) frame_seq frame bits tstamp
      PJMEDIA_JB_NORMAL_FRAME = Some (st0, f0) /\
    put_retry 1 (j <| jb_framelist := f0 |>) st0 frame bits frame_seq tstamp =
      Some (st, j1) /\
    jb_inv j1 W1 /\ st <> PJ_ETOOMANY /\
    jb_last_op j1 = jb_last_op j /\ jb_status j1 = jb_status j /\ jb_level j1 = jb_level j /\
    (st = PJ_SUCCESS -> holds (jb_framelist j1) W1 frame_seq frame bits tstamp) /\
    (st <> PJ_SUCCESS -> jb_discard j1 = jb_discard j).
Proof.
  intros HI Hseq Hlen. pose proof (ji_list _ _ HI) as R. pose proof (ji_frame_size _ _ HI).
  destruct (put_at_spec (jb_framelist j) W frame_seq frame bits tstamp R)
    as (st0 & f0 & W0 & Hp & R0 & G0 & Ho0); [done|lia|].
  pose proof (jb_inv_list j f0 W W0 HI R0 G0 (fun ref =>
    put_outcome_disc _ _ _ _ _ _ _ _ _ ref Ho0)) as HI0.
  exists st0, f0. destruct (decide (st0 = PJ_ETOOMANY)) as [->|Hne].
  - cbn [put_retry]. rewrite Z.eqb_refl. cbn [negb].
    assert (HWf : W0 <> [] /\
      max_count f0 <= frame_seq - origin f0 <= MAX_DROPOUT).
    { destruct G0 as [_ ->]. by inversion Ho0; subst. }
    destruct HWf as [HW Hfull]. destruct G0 as [G0 G0'].
    destruct (put_full_spec f0 W0 frame_seq frame bits tstamp R0 Hseq HW Hfull)
      as (c & f1 & f2 & W2 & Hrm & Hp2 & R2 & G2 & Hd2 & Hh); [lia|].
    assert (Hmc : jb_max_count (j <| jb_framelist := f0 |>) = max_count f0)
      by (cbn; rewrite (ji_max_count _ _ HI); congruence).
    rewrite Hmc. cbn [jb_framelist set_field].
    pose proof (fr_max _ _ R0). unfold MAX_DROPOUT in Hfull.
    rewrite (s32_id (max_count f0)) by (unfold is_s32; lia).
    rewrite !sint_id by (unfold is_s32; lia). ored. rewrite !sint_id by (unfold is_s32; lia). ored.
    rewrite !sint_id by (unfold is_s32; lia). ored. rewrite Hrm. ored. rewrite Hp2. ored.
    eexists _, _, W2. split; [done|]. split; [reflexivity|].
    pose proof (jb_inv_list _ f2 W0 W2 HI0 R2 G2 Hd2) as HI2.
    split; [jb_fields HI2|]. done.
  - exists st0, (j <| jb_framelist := f0 |>), W0. split; [done|].
    split; [|split; [done|split; [done|split; [done|split; [done|split; [done|split]]]]]].
    + cbn [put_retry]. destruct (Z.eqb_spec st0 PJ_ETOOMANY); done.
    + intros ->. by eapply put_outcome_holds.
    + done.
Qed.

Lemma eff_size_int j W : jb_inv j W -> 0 <= s32 (jb_framelist_eff_size (jb_framelist j)) < LEVEL_MAX.
Proof.
  intros HI. pose proof (ji_list _ _ HI) as R. rewrite (eff_size_spec _ _ R).
  pose proof (fl_rep_window _ _ R). pose proof (fr_slots _ _ R). pose proof (ji_capacity _ _ HI).
  pose proof (live_length W). rewrite s32_id by (unfold is_s32; lia). lia.
Qed.

Lemma put_inv j W frame bits frame_seq tstamp :
  jb_inv j W -> seq_ok frame_seq -> jb_level j < LEVEL_MAX ->
  exists d j' W', pjmedia_jbuf_put_frame3 1 j frame bits frame_seq tstamp =
    Some (d, j') /\ jb_inv j' W'.
Proof.
  intros HI Hseq Hlv. unfold pjmedia_jbuf_put_frame3.
  set (fr := take _ frame). pose proof (ji_fs_pos _ _ HI).
  assert (Hlen : Z.of_nat (length fr) <= jb_frame_size j)
    by (unfold fr; rewrite length_take; lia).
  destruct (put_list_inv j W fr bits frame_seq tstamp HI Hseq Hlen)
    as (st0 & f0 & st & j1 & W1 & -> & Hr & HI1 & _ & _ & _ & Hlv1 & _). ored. rewrite Hr. ored.
  destruct (st =? PJ_SUCCESS).
  - pose proof (eff_size_int _ _ HI) as Hcur. pose proof (eff_size_int _ _ HI1) as Hnew.
    set (cur := s32 (jb_framelist_eff_size (jb_framelist j))) in *.
    set (new := s32 (jb_framelist_eff_size (jb_framelist j1))) in *.
    set (j2 := if jb_prefetching j1 && _ then _ else _).
    assert (HI2 : jb_inv j2 W1) by (unfold j2; case_match; [jb_fields HI1|done]).
    assert (Hlv2 : jb_level j2 = jb_level j1) by (unfold j2; by case_match).
    clearbody j2. pose proof (ji_level _ _ HI2) as Hl2.
    assert (Hg : exists grown, (if cur <? new then sint (new - cur) else Some 1) = Some grown /\ 1 <= grown <= LEVEL_MAX).
    { destruct (Z.ltb_spec cur new); [|exists 1; split; [done|lia]].
      exists (new - cur). rewrite sint_id by (unfold is_s32; lia). split; [done|lia]. }
    destruct Hg as (grown & -> & Hg). ored. rewrite sint_id by (unfold is_s32; lia). ored.
    set (j3 := j2 <| jb_level := _ |>).
    assert (HI3 : jb_inv j3 W1) by (destruct HI2; split; cbn in *; try done; lia).
    destruct (update_inv j3 W1 JB_OP_PUT HI3) as (j4 & W4 & -> & HI4 & _); [cbn; lia|]. ored.
    by exists false, j4, W4.
  - exists true. eexists _, W1. split; [reflexivity|]. jb_fields HI1.
Qed.

(** ** Lemmas: get, remove and the settings *)

Lemma tail_skip_drop W :
  tail (skip_disc W) = drop (length W - length (tail (skip_disc W))) W.
Proof.
  pose proof (skip_disc_length W). pose proof (skip_disc_drop W) as Hd.
  destruct (skip_disc W) as [|x W2].
  - cbn. by rewrite drop_ge by lia.
  - cbn [tail length] in *.
    replace (length W - length W2)%nat with (length W - S (length W2) + 1)%nat by lia.
    by rewrite <- drop_drop, <- Hd.
Qed.

Lemma get_inv j W max_size :
  jb_inv j W -> jb_level j < LEVEL_MAX ->
  exists t o j' W', pjmedia_jbuf_get_frame3 j max_size = Some (t, o, j') /\
    jb_inv j' W'.
Proof.
  intros HI Hlv. unfold pjmedia_jbuf_get_frame3.
  assert (Hfin : forall (t : Z) (o : option jb_out) j1 W1, jb_inv j1 W1 -> jb_level j1 = jb_level j ->
    exists t' o' j' W', (level ← sint (jb_level j1 + 1); j ← jbuf_update (j1 <| jb_level := level |>) JB_OP_GET;
      Some (t, o, j)) = Some (t', o', j') /\ jb_inv j' W').
  { intros t o j1 W1 HI1 E. pose proof (ji_level _ _ HI). rewrite sint_id by (unfold is_s32; lia). ored.
    destruct (update_inv (j1 <| jb_level := jb_level j1 + 1 |>) W1 JB_OP_GET)
      as (j' & W' & -> & ? & _); [jb_fields HI1|cbn; lia|]. by exists t, o, j', W'. }
  destruct (jb_prefetching j).
  { ored. apply (Hfin _ _ _ W); [jb_fields HI|done]. }
  destruct (get_spec (jb_framelist j) W max_size (ji_list _ _ HI))
    as (f & -> & R & G & Ho). ored.
  assert (HI1 : jb_inv (j <| jb_framelist := f |>) (tail (skip_disc W))).
  { apply (jb_inv_list j f W _ HI R G). intros ref Hd. rewrite Ho.
    rewrite (tail_skip_drop W) at 1. by apply disc_le_drop. }
  destruct (skip_disc W) as [|s W2]; ored.
  - apply (Hfin _ _ _ []); case_match; (done || jb_fields HI1).
  - cbn [tail] in HI1. eapply (Hfin _ _ _ W2); repeat case_match; (done || jb_fields HI1).
Qed.

Lemma u32_nonneg z : 0 <= z < 2147483648 -> u32 z = z.
Proof. intros H. apply u32_id. unfold is_u32. lia. Qed.

Lemma live_take_drop n W :
  (length (live (take n W)) + length (live (drop n W)) = length (live W))%nat.
Proof. by rewrite <- length_app, <- live_app, take_drop. Qed.

Lemma disc_take_drop n W :
  (num_discarded (take n W) + num_discarded (drop n W) = num_discarded W)%nat.
Proof. by rewrite <- num_discarded_app, take_drop. Qed.

(** One more round of the loop of [remove_frame]: [d] frames are still to be
    removed in place of the [d] discarded ones of the last round. *)
Lemma remove_more_spec fuel f W count d :
  fl_rep f W -> 0 <= d <= count -> count < 2147483648 ->
  (0 < d -> (num_discarded W < fuel)%nat) ->
  exists f' n, remove_more fuel f count (discarded_num f + d) =
      Some (count - d + Z.of_nat (length (live (take n W))), f') /\
    fl_rep f' (drop n W) /\ same_geometry f f' /\
    origin f' = origin f + Z.of_nat n /\ (n <= length W)%nat /\
    Z.of_nat (length (live (take n W))) = Z.min d (Z.of_nat (length (live W))).
Proof.
  revert f W count d. induction fuel as [|fuel IH]; intros f W count d R Hd Hc Hf.
  all: assert (Hdone : d = 0 -> exists f' n,
    Some (count, f) = Some (count - d + Z.of_nat (length (live (take n W))), f') /\
    fl_rep f' (drop n W) /\ same_geometry f f' /\
    origin f' = origin f + Z.of_nat n /\ (n <= length W)%nat /\
    Z.of_nat (length (live (take n W))) = Z.min d (Z.of_nat (length (live W))))
    by (intros ->; exists f, 0%nat; rewrite take_0; cbn;
        split; [do 2 f_equal; lia|split; [done|split; [done|lia]]]).
  all: cbn [remove_more];
    destruct (Z.ltb_spec (discarded_num f) (discarded_num f + d)) as [Hlt|Hge];
    cbn [negb]; [|apply Hdone; lia].
  { specialize (Hf ltac:(lia)). lia. }
  replace (discarded_num f + d - discarded_num f) with d by lia.
  destruct (remove_head_spec f W d R) as (f1 & -> & R1 & [G1 G2] & Ho1); [lia|]. ored.
  pose proof (fr_max _ _ R). pose proof (fr_slots _ _ R). pose proof (fl_rep_window _ _ R).
  set (c := Z.to_nat (Z.min d (Z.of_nat (length W)))) in *.
  replace (Z.min d (Z.of_nat (length W))) with (Z.of_nat c) in * by lia.
  rewrite (u32_nonneg (count - d)), (u32_nonneg (count - d + _)) by lia.
  set (d1 := num_discarded (take c W)).
  pose proof (disc_take_drop c W) as Hdt. pose proof (live_take_drop c W) as Hlt'.
  pose proof (live_length (take c W)) as Hll. rewrite length_take in Hll.
  fold d1 in Hdt, Hll.
  replace (discarded_num f) with (discarded_num f1 + Z.of_nat d1)
    by (rewrite (fr_disc _ _ R1), (fr_disc _ _ R); lia).
  destruct (IH f1 (drop c W) (count - d + Z.of_nat c) (Z.of_nat d1) R1)
    as (f' & n & -> & R' & [G1' G2'] & Ho' & Hn & Hmin); [lia|lia|lia|].
  exists f', (c + n)%nat. rewrite length_drop in Hn.
  rewrite <- (take_take_drop W c n), live_app, length_app.
  split; [do 2 f_equal; lia|]. split; [by rewrite <- drop_drop|].
  split; [split; congruence|]. split; [lia|]. split; [lia|].
  pose proof (num_discarded_le (drop c W)). pose proof (live_length (drop c W)) as Hl2.
  rewrite length_drop in Hl2. lia.
Qed.

Lemma remove_frame_spec j W n :
  jb_inv j W -> 0 <= n ->
  exists c j' m, pjmedia_jbuf_remove_frame j n = Some (c, j') /\
    jb_inv j' (drop m W) /\ c = Z.min n (Z.of_nat (length (live W))) /\
    live (drop m W) = drop (Z.to_nat c) (live W).
Proof.
  intros HI Hn. pose proof (ji_list _ _ HI) as R. unfold pjmedia_jbuf_remove_frame.
  set (f := jb_framelist j) in *.
  destruct (remove_head_spec f W n R Hn) as (f1 & -> & R1 & [G1 G2] & Ho1). ored.
  pose proof (fr_max _ _ R). pose proof (fr_slots _ _ R). pose proof (fl_rep_window _ _ R).
  set (c := Z.to_nat (Z.min n (Z.of_nat (length W)))) in *.
  replace (Z.min n (Z.of_nat (length W))) with (Z.of_nat c) in * by lia.
  set (d1 := num_discarded (take c W)).
  pose proof (disc_take_drop c W) as Hdt. pose proof (live_take_drop c W) as Hlt'.
  pose proof (live_length (take c W)) as Hll. rewrite length_take in Hll.
  fold d1 in Hdt, Hll.
  assert (Ef : discarded_num f = discarded_num f1 + Z.of_nat d1)
    by (rewrite (fr_disc _ _ R1), (fr_disc _ _ R); lia).
  destruct (remove_more_spec (S (Z.to_nat (discarded_num f))) f1 (drop c W)
    (Z.of_nat c) (Z.of_nat d1) R1)
    as (f' & m & Hm & R' & [G1' G2'] & Ho' & Hm' & Hmin); [lia|lia| |].
  { intros _. rewrite (fr_disc _ _ R). lia. }
  rewrite <- Ef in Hm. rewrite Hm. ored.
  rewrite length_drop in Hm'. pose proof (live_length (drop c W)) as Hl2.
  rewrite length_drop in Hl2.
  assert (Hc : Z.of_nat c - Z.of_nat d1 + Z.of_nat (length (live (take m (drop c W)))) =
    Z.min n (Z.of_nat (length (live W)))) by lia.
  rewrite Hc. eexists _, _, (c + m)%nat. split; [reflexivity|].
  split; [|split; [done|]].
  - apply (jb_inv_list j f' W); [done|by rewrite <- drop_drop|split; fold f; congruence|].
    intros ref Hd. replace (origin f') with (origin f + Z.of_nat (c + m)) by lia.
    by apply disc_le_drop.
  - rewrite <- Hc.
    assert (Hl : length (live (take (c + m) W)) = Z.to_nat (Z.of_nat c - Z.of_nat d1 +
      Z.of_nat (length (live (take m (drop c W)))))).
    { rewrite <- take_take_drop, live_app, length_app. lia. }
    rewrite <- Hl. rewrite <- (take_drop (c + m) W) at 3.
    by rewrite live_app, drop_app_length.
Qed.

Lemma reset_inv j W :
  jb_inv j W -> jb_inv (pjmedia_jbuf_reset j) [].
Proof.
  intros HI. destruct (reset_spec (jb_framelist j) W (ji_list _ _ HI)) as (R & G & _).
  destruct HI. split; cbn in *; try done; try lia.
Qed.

Lemma set_fixed_inv j W p : 0 <= p -> jb_inv j W ->
  jb_inv (pjmedia_jbuf_set_fixed j p).2 W.
Proof.
  intros Hp HI. unfold pjmedia_jbuf_set_fixed.
  destruct (Z.leb_spec p (jb_max_count j)); cbn [negb snd]; [|done].
  destruct HI; split; cbn in *; try done; lia.
Qed.

Lemma set_adaptive_inv j W p lo hi : 0 <= p -> 0 <= lo -> jb_inv j W ->
  jb_inv (pjmedia_jbuf_set_adaptive j p lo hi).2 W.
Proof.
  intros Hp Hlo HI. unfold pjmedia_jbuf_set_adaptive.
  destruct (_ && _) eqn:E; cbn [negb snd]; [|done]. zbool.
  destruct HI; split; cbn in *; try done; lia.
Qed.

Lemma gap_pos ptime :
  0 < ptime <= PJMEDIA_JBUF_DISC_MIN_GAP ->
  1 <= PJMEDIA_JBUF_DISC_MIN_GAP / ptime <= PJMEDIA_JBUF_DISC_MIN_GAP.
Proof.
  unfold PJMEDIA_JBUF_DISC_MIN_GAP. intros H. split.
  - apply Z.div_le_lower_bound; lia.
  - apply Z.div_le_upper_bound; lia.
Qed.

Lemma set_ptime_inv j W ptime r j' :
  0 < ptime <= PJMEDIA_JBUF_DISC_MIN_GAP -> jb_inv j W ->
  pjmedia_jbuf_set_ptime j ptime = Some (r, j') -> jb_inv j' W.
Proof.
  intros Hp HI. unfold pjmedia_jbuf_set_ptime.
  destruct (Z.eqb_spec ptime 0); [lia|]. intros [= _ <-].
  pose proof (gap_pos _ Hp).
  assert (0 <= MAX_BURST_MSEC / ptime) by (apply Z.div_pos; unfold MAX_BURST_MSEC; lia).
  destruct HI; split; cbn -[Z.div Z.mul] in *; try done; lia.
Qed.

Lemma jbuf_create_inv junk fsize ptime mc j :
  0 <= fsize -> 0 < ptime <= PJMEDIA_JBUF_DISC_MIN_GAP -> 0 < mc < LEVEL_MAX ->
  pjmedia_jbuf_create junk fsize ptime mc = Some j -> jb_inv j [].
Proof.
  intros Hf Hp Hm. unfold pjmedia_jbuf_create.
  destruct (Z.eqb_spec ptime 0); [lia|]. intros [= <-].
  destruct (init_spec junk fsize mc) as (R & Hfs & Hmc); [lia|].
  assert (0 <= MAX_BURST_MSEC / ptime) by (apply Z.div_pos; unfold MAX_BURST_MSEC; lia).
  pose proof (gap_pos _ Hp).
  rewrite (u32_id (mc * 4)) by (unfold is_u32; lia).
  assert (0 <= mc * 4 / 5 <= mc)
    by (split; [apply Z.div_pos; lia|apply Z.div_le_upper_bound; lia]).
  apply (reset_inv _ []).
  split; cbn -[Z.div Z.mul jb_framelist_init]; try done;
    unfold PJMEDIA_JB_DEFAULT_INIT_DELAY, PJMEDIA_JBUF_PRO_DISC_T2; lia.
Qed.

Lemma jbuf_step_ok j j' : jb_ok j -> jbuf_step j j' -> jb_ok j'.
Proof.
  intros [W HI] Hs. destruct Hs as [frame bits fseq tstamp d j' Hseq Hlv Hs
    |max_size t o j' Hlv Hs|n c j' Hn Hs| |algo Ha|algo Hg|p Hp|p lo hi Hp Hlo
    |ptime r j' Hp Hs].
  - destruct (put_inv j W frame bits fseq tstamp HI Hseq Hlv) as (d' & j2 & W' & Hp & HI').
    rewrite Hp in Hs. simplify_eq. by exists W'.
  - destruct (get_inv j W max_size HI Hlv) as (t' & o' & j2 & W' & Hp & HI').
    rewrite Hp in Hs. simplify_eq. by exists W'.
  - destruct (remove_frame_spec j W n HI Hn) as (c' & j2 & m & Hp & HI' & _).
    rewrite Hp in Hs. simplify_eq. by eexists.
  - exists []. by eapply reset_inv.
  - exists W. destruct HI; split; cbn; try done; intros E; congruence.
  - exists []. destruct (reset_spec (jb_framelist j) W (ji_list _ _ HI)) as (R & _).
    jb_fields HI.
  - exists W. by apply set_fixed_inv.
  - exists W. by apply set_adaptive_inv.
  - exists W. by eapply set_ptime_inv.
Qed.

Lemma jbuf_reachable_ok j : reach jbuf_step jbuf_init j -> jb_ok j.
Proof.
  apply reach_invariant; [|apply jbuf_step_ok].
  intros j' [junk fsize ptime mc j0 Hf Hp Hm Hc].
  exists []. by eapply jbuf_create_inv.
Qed.

(** ** Lemmas: reordering *)

(** The window [W] holds the frames of [m] from sequence number [o] on. *)
Definition represents (W : list jb_slot) (o fs : Z) (m : gmap Z (list Z)) : Prop :=
  forall k : nat, match m !! (o + Z.of_nat k) with
  | Some fr => exists s, W !! k = Some s /\ carries s fr 0 0 /\
                 Z.of_nat (length fr) <= fs
  | None => forall s, W !! k = Some s -> is_missing s
  end.

Lemma represents_put W o fs m d s W' fr :
  represents W o fs m -> m !! (o + Z.of_nat d) = None ->
  stored W d s W' -> carries s fr 0 0 -> Z.of_nat (length fr) <= fs ->
  represents W' o fs (<[o + Z.of_nat d := fr]> m).
Proof.
  intros H Hn [Hl Hat Hold Hgap] Hca Hfr k.
  destruct (decide (k = d)) as [->|Hne].
  { rewrite lookup_insert_eq. by exists s. }
  rewrite lookup_insert_ne by lia. specialize (H k).
  destruct (m !! (o + Z.of_nat k)) as [fr'|].
  - destruct H as (x & Hx & ?). exists x. split; [|done]. by apply Hold.
  - intros x Hx. destruct (decide (k < length W)%nat) as [Hlt|].
    + destruct (lookup_lt_is_Some_2 W k Hlt) as [y Hy].
      pose proof (Hold _ _ Hne Hy). simplify_eq. eauto.
    + apply (Hgap k); [done|lia|done].
Qed.

Lemma represents_tail W o fs m :
  represents W o fs m -> represents (tail W) (o + 1) fs m.
Proof.
  intros H k. specialize (H (S k)).
  replace (o + Z.of_nat (S k)) with (o + 1 + Z.of_nat k) in H by lia.
  replace (tail W !! k) with (W !! S k); [done|]. by destruct W.
Qed.

Lemma represents_no_discarded W o fs m :
  represents W o fs m -> skip_disc W = W.
Proof.
  intros H. destruct W as [|s W]; [done|]. cbn. rewrite decide_False; [done|].
  specialize (H 0%nat). destruct (m !! _).
  - destruct H as (x & [= ->] & Hca & _). by eapply carries_not_discarded.
  - by apply is_missing_not_discarded, H.
Qed.

(** A frame inside the capacity, not yet in the list, is stored. *)
Lemma put_fresh f W o fs m index fr :
  fl_rep f W -> W <> [] -> origin f = o -> frame_size f = fs ->
  represents W o fs m -> m !! index = None -> seq_ok index ->
  o <= index < o + max_count f -> Z.of_nat (length fr) <= fs ->
  exists f' W', jb_framelist_put_at f index fr 0 0 PJMEDIA_JB_NORMAL_FRAME =
      Some (PJ_SUCCESS, f') /\ fl_rep f' W' /\ same_geometry f f' /\ W' <> [] /\
    origin f' = o /\ represents W' o fs (<[index := fr]> m).
Proof.
  intros R HW Ho Hfs Hrep Hn Hseq Hi Hl.
  destruct (put_at_spec f W index fr 0 0 R Hseq) as (st & f' & W' & -> & R' & G & Hout); [lia|].
  assert (Hbase : forall o' W0, rebased f W index o' W0 -> o' = o /\ W0 = W).
  { intros o' W0 Hr. destruct Hr as [| | | |o2 Hr2]; unfold MAX_MISORDER in *;
      try done; try lia.
    exfalso. destruct Hr2; unfold MAX_MISORDER in *; try done; lia. }
  destruct Hout as [Hlate|f' Hr _ Hfull|f' W0 d x Hr Hid Hx Hxm
                   |f' W0 d s W' Hr Hid Hd Hmiss Hca Hst]; [lia| | |].
  - destruct (Hbase _ _ Hr) as [E _]. lia.
  - destruct (Hbase _ _ Hr) as [E ->]. exfalso. apply Hxm.
    specialize (Hrep d). rewrite <- E, <- Hid, Hn in Hrep. auto.
  - destruct (Hbase _ _ Hr) as [E ->]. exists f', W'. split; [done|]. split; [done|].
    split; [done|]. split.
    { intros ->. by destruct Hst as [_ Hat _ _]. }
    split; [done|]. rewrite Hid, E in *. by eapply represents_put.
Qed.

Lemma put_all_fresh frames f W o fs m :
  fl_rep f W -> W <> [] -> origin f = o -> frame_size f = fs ->
  represents W o fs m -> NoDup frames.*1 ->
  Forall (fun p => m !! p.1 = None /\ seq_ok p.1 /\ o <= p.1 < o + max_count f /\
                   Z.of_nat (length p.2) <= fs) frames ->
  exists f' W', put_all f frames = Some (replicate (length frames) PJ_SUCCESS, f') /\
    fl_rep f' W' /\ W' <> [] /\ origin f' = o /\ frame_size f' = fs /\
    represents W' o fs (list_to_map frames ∪ m).
Proof.
  revert f W m. induction frames as [|[i fr] frames IH];
    intros f W m R HW Ho Hfs Hrep Hnd Hall.
  { exists f, W. split; [done|]. cbn. by rewrite map_empty_union. }
  apply Forall_cons in Hall as [(Hn & Hs & Hi & Hl) Hall]. cbn [fst snd] in *.
  cbn in Hnd. apply NoDup_cons in Hnd as [Hnin Hnd].
  destruct (put_fresh f W o fs m i fr) as (f1 & W1 & Hp & R1 & [G1 G2] & HW1 & Ho1 & Hrep1);
    [done..|].
  destruct (IH f1 W1 (<[i := fr]> m)) as (f2 & W2 & Hp2 & R2 & HW2 & Ho2 & Hfs2 & Hrep2);
    [done|done|done|congruence|done|done| |].
  { eapply Forall_impl; [apply Forall_and; split; [exact Hall|]|].
    - apply Forall_forall. intros p Hp'. exact (list_elem_of_fmap_2 fst _ _ Hp').
    - intros p [(? & ? & ? & ?) Hin]. rewrite G2. split; [|done].
      rewrite lookup_insert_ne; [done|]. intros ->. done. }
  exists f2, W2. cbn [put_all]. rewrite Hp. ored. rewrite Hp2. ored.
  split; [done|]. split; [done|]. split; [done|]. split; [done|]. split; [done|].
  cbn [list_to_map foldr fst snd]. rewrite <- insert_union_l.
  rewrite insert_union_r; [done|]. by apply not_elem_of_list_to_map_1.
Qed.

Lemma get_all_spec n f W o fs m :
  fl_rep f W -> (W <> [] -> origin f = o) -> frame_size f = fs ->
  represents W o fs m ->
  get_all f n = Some ((fun i => (pair (o + Z.of_nat i)) <$> m !! (o + Z.of_nat i))
                        <$> seq 0 n).
Proof.
  revert f W o. induction n as [|n IH]; intros f W o R Ho Hfs Hrep; [done|].
  cbn [get_all]. destruct (get_spec f W (frame_size f) R) as (f' & -> & R' & [G1 G2] & Ho').
  ored. rewrite (represents_no_discarded _ _ _ _ Hrep) in *.
  rewrite (IH f' (tail W) (o + 1)); [| done| |congruence|by apply represents_tail].
  2:{ intros Hne. destruct W as [|s W]; [done|]. rewrite Ho', Ho by done. cbn. lia. }
  ored. f_equal. cbn [seq fmap list_fmap]. f_equal.
  - specialize (Hrep 0%nat). change (Z.of_nat 0) with 0 in *.
    rewrite Z.add_0_r in *. destruct W as [|s W].
    + destruct (m !! o); [|done]. by destruct Hrep as (? & ? & _).
    + rewrite Nat.ltb_irrefl, Nat.sub_diag, Ho, Z.add_0_r by done. unfold out_of.
      cbn [o_type o_seq o_frame].
      destruct (m !! o) as [fr|].
      * destruct Hrep as (x & [= <-] & [-> -> _ _ Hc] & Hl). cbn.
        rewrite Z.min_r by lia. by rewrite Nat2Z.id, Hc.
      * rewrite (Hrep s eq_refl). done.
  - rewrite <- seq_shift, <- list_fmap_compose. apply list_fmap_ext. intros i x _.
    cbn. by replace (o + 1 + Z.of_nat x) with (o + Z.pos (Pos.of_succ_nat x)) by lia.
Qed.

Lemma live_index_seq W idx k :
  live_index W idx = Some k -> (k = idx + num_discarded (take k W))%nat.
Proof.
  revert idx k. induction W as [|s W IH]; intros idx k; [done|]. cbn [live_index].
  destruct (decide (is_discarded s)) as [Hd|Hd].
  - intros (j & Hj & ->)%fmap_Some. cbn [take]. rewrite num_discarded_cons.
    rewrite decide_True by done. apply IH in Hj. lia.
  - destruct idx as [|idx]; [by intros [= <-]|].
    intros (j & Hj & ->)%fmap_Some. cbn [take]. rewrite num_discarded_cons.
    rewrite decide_False by done. apply IH in Hj. lia.
Qed.

(** ** Properties *)


(** putting one frame: a complete account of the outcomes.  Late frames,
    duplicates and frames beyond the capacity are refused with their own
    status; sequence restarts and far jumps move the origin; and an accepted
    frame is in the window at its sequence number, the other frames staying
    where they were and missing frames filling the gap. *)
Theorem jb_put_refines f W index frame bits tstamp :
  fl_rep f W -> seq_ok index ->
  exists st f' W',
    jb_framelist_put_at f index frame bits tstamp PJMEDIA_JB_NORMAL_FRAME =
      Some (st, f') /\
    fl_rep f' W' /\ same_geometry f f' /\
    (if frame_size f <? Z.of_nat (length frame)
     then st = PJ_EINVAL /\ f' = f
     else put_outcome f W index frame bits tstamp st f' W').
Proof.
  intros R Hseq. destruct (Z.ltb_spec (frame_size f) (Z.of_nat (length frame))) as [Hbig|Hfit].
  - exists PJ_EINVAL, f, W. split; [|done]. unfold jb_framelist_put_at.
    destruct (Z.ltb_spec (frame_size f) (Z.of_nat (length frame))); [done|lia].
  - by apply put_at_spec.
Qed.

(** getting a frame.  The discarded frames at the head are skipped and
    the next one is removed; it is reported missing if any was skipped, else
    returned with its bytes (cut to the caller's buffer), type, timestamp and
    sequence number.  On an empty list nothing is returned. *)
Theorem jb_get_refines f W max_size :
  fl_rep f W ->
  exists f', jb_framelist_get f max_size =
      Some (match skip_disc W with
            | [] => None
            | s :: _ => Some (out_of (length (skip_disc W) <? length W)%nat max_size
                (origin f + Z.of_nat (length W - length (skip_disc W))) s)
            end, f') /\
    fl_rep f' (tail (skip_disc W)) /\ same_geometry f f' /\
    origin f' = origin f + Z.of_nat (length W - length (tail (skip_disc W))) /\
    live (skip_disc W) = live W.
Proof.
  intros R. destruct (get_spec f W max_size R) as (f' & ? & ? & ? & ?).
  exists f'. split; [done|]. split; [done|]. split; [done|]. split; [done|].
  apply skip_disc_live.
Qed.

(** peeking at an offset finds the frame of that rank among the frames
    that are not discarded, and changes nothing.  The sequence number it
    reports, though, is short by the number of discarded frames skipped. *)
Theorem jb_peek_refines f W offset :
  fl_rep f W -> 0 <= offset ->
  if decide (offset < Z.of_nat (length (live W))) then
    exists k s o, W !! k = Some s /\ live W !! Z.to_nat offset = Some s /\
      jb_framelist_peek f offset = Some (Some o) /\
      o_type o = frame_type s /\ o_ts o = ts s /\
      o_frame o = take (Z.to_nat (content_len s)) (content s) /\
      o_seq o = origin f + Z.of_nat k - Z.of_nat (num_discarded (take k W))
  else jb_framelist_peek f offset = Some None.
Proof.
  intros R Ho. pose proof (peek_spec f W offset R Ho) as H. case_decide; [|done].
  destruct H as (k & s & Hk & Hs & Hl & Hp). exists k, s. eexists.
  split; [done|]. split; [done|]. split; [exact Hp|]. split; [done|].
  split; [done|]. split; [done|]. cbn. apply live_index_seq in Hk. lia.
Qed.

(** removing [n] frames from a buffer removes the oldest [n] frames that
    are not discarded (or all of them) together with the discarded ones
    between, returns their number, and keeps the invariant; its loop ends. *)
Theorem jbuf_remove_frame_spec j W n :
  jb_inv j W -> 0 <= n ->
  exists c j' m, pjmedia_jbuf_remove_frame j n = Some (c, j') /\
    jb_inv j' (drop m W) /\ c = Z.min n (Z.of_nat (length (live W))) /\
    live (drop m W) = drop (Z.to_nat c) (live W).
Proof. apply remove_frame_spec. Qed.


(** the adaptation stays in bounds: in every reachable buffer the
    effective burst level is between 0 and four fifths of the capacity, the
    prefetch count between 0 and its maximum, and the size reported is the
    number of frames that are not discarded. *)
Theorem jbuf_bounds j :
  reach jbuf_step jbuf_init j ->
  0 <= jb_eff_level j <= jb_max_count j * 4 / 5 /\
  0 <= jb_prefetch j <= jb_max_prefetch j /\
  jb_max_prefetch j <= jb_max_count j /\
  exists W, fl_rep (jb_framelist j) W /\
    jb_framelist_eff_size (jb_framelist j) = Z.of_nat (length (live W)).
Proof.
  intros Hr. destruct (jbuf_reachable_ok j Hr) as [W HI].
  split; [apply HI|]. split; [apply HI|]. split; [apply HI|].
  exists W. split; [apply HI|]. apply eff_size_spec, HI.
Qed.

(** with a frame duration over [PJMEDIA_JBUF_DISC_MIN_GAP] the minimum
    gap between discards is 0, and the progressive algorithm discards the same
    frame twice: after this run of a buffer of 50 frames of 250 ms, one slot is
    discarded but [discarded_num] is 2, and the size reported is one less
    than the number of frames held. *)
Theorem jbuf_double_discard :
  exists j j', pjmedia_jbuf_create (mk_slot 0 0 0 0 []) 1 250 50 = Some j /\
    jb_run j [CallPut 0; CallGet; CallPut 4; CallGet; CallPut 8; CallGet;
              CallPut 12; CallGet; CallPut 16; CallGet; CallPut 30; CallPut 1]
      = Some j' /\
    let W := take (Z.to_nat (size (jb_framelist j'))) (ring (jb_framelist j')) in
    num_discarded W = 1%nat /\ discarded_num (jb_framelist j') = 2 /\
    jb_framelist_eff_size (jb_framelist j') = Z.of_nat (length (live W)) - 1.
Proof. eexists _, _. split; [reflexivity|]. split; [vm_compute; reflexivity|]. vm_compute. done. Qed.

(** ** Witnesses *)

Definition demo_slot : jb_slot := mk_slot 7 7 7 7 [7; 7; 7; 7].
Definition demo_list : jb_framelist_t := jb_framelist_init demo_slot 4 10.

Lemma demo_list_rep : fl_rep demo_list [].
Proof. apply init_spec. lia. Qed.

(** A list that holds a discarded frame and a live one. *)
Definition demo_list2 : jb_framelist_t :=
  match put_all demo_list [(5, [1; 2]); (6, [3])] with
  | Some (_, f) =>
      match jb_framelist_discard f 5 with Some (_, f) => f | None => f end
  | None => demo_list
  end.

Definition demo_window : list jb_slot :=
  take (Z.to_nat (size demo_list2)) (ring demo_list2).

Lemma demo_list2_rep : fl_rep demo_list2 demo_window.
Proof.
  split; try (vm_compute; by repeat split).
  - exists (drop 2 (ring demo_list2)). split; [done|].
    vm_compute. repeat constructor.
  - unfold demo_list2. vm_compute.
    repeat (apply Forall_cons_2;
      [split; cbn; [tauto|lia|unfold is_missing; cbn; done]|]).
    apply Forall_nil_2.
Qed.

Definition demo_jbuf : pjmedia_jbuf :=
  default (mk_jbuf 0 0 0 0 0 0 0 0 DISCARD_NONE demo_list 0 0 0 JB_OP_INIT 0 0 false
             JB_STATUS_INITIALIZING 0 0 0 pj_math_stat_init pj_math_stat_init 0 0 0)
    (pjmedia_jbuf_create demo_slot 4 20 10).

Lemma demo_jbuf_create : pjmedia_jbuf_create demo_slot 4 20 10 = Some demo_jbuf.
Proof. reflexivity. Qed.

Lemma demo_jbuf_inv : jb_inv demo_jbuf [].
Proof. eapply jbuf_create_inv; [| | |apply demo_jbuf_create]; unfold PJMEDIA_JBUF_DISC_MIN_GAP; lia. Qed.

Lemma demo_jbuf_reach : reach jbuf_step jbuf_init demo_jbuf.
Proof.
  apply reach_init.
  apply (jbuf_init_create demo_slot 4 20 10 demo_jbuf); [lia| |lia|reflexivity].
  unfold PJMEDIA_JBUF_DISC_MIN_GAP. lia.
Qed.


Lemma jb_put_refines_witness :
  exists st f' W',
    jb_framelist_put_at demo_list2 9 [8] 1 2 PJMEDIA_JB_NORMAL_FRAME = Some (st, f') /\
    fl_rep f' W' /\ same_geometry demo_list2 f' /\
    put_outcome demo_list2 demo_window 9 [8] 1 2 st f' W'.
Proof. apply (jb_put_refines demo_list2 demo_window 9 [8] 1 2); [apply demo_list2_rep|].
  unfold seq_ok. lia.
Defined.

Lemma jb_get_refines_witness :
  exists f', jb_framelist_get demo_list2 4 =
      Some (Some (mk_out PJMEDIA_JB_MISSING_FRAME [] 0 0 0 6), f') /\
    fl_rep f' [] /\ same_geometry demo_list2 f' /\ origin f' = 7 /\
    live (skip_disc demo_window) = live demo_window.
Proof. apply (jb_get_refines demo_list2 demo_window 4). apply demo_list2_rep. Defined.

Lemma jb_peek_refines_witness :
  exists k s o, demo_window !! k = Some s /\ live demo_window !! 0%nat = Some s /\
    jb_framelist_peek demo_list2 0 = Some (Some o) /\
    o_type o = frame_type s /\ o_ts o = ts s /\
    o_frame o = take (Z.to_nat (content_len s)) (content s) /\
    o_seq o = 5 + Z.of_nat k - Z.of_nat (num_discarded (take k demo_window)).
Proof.
  apply (jb_peek_refines demo_list2 demo_window 0).
  - apply demo_list2_rep.
  - lia.
Defined.

Lemma jbuf_remove_frame_spec_witness :
  exists c j' m, pjmedia_jbuf_remove_frame demo_jbuf 3 = Some (c, j') /\
    jb_inv j' (drop m []) /\ c = Z.min 3 (Z.of_nat (length (live []))) /\
    live (drop m []) = drop (Z.to_nat c) (live []).
Proof.
  apply (jbuf_remove_frame_spec demo_jbuf [] 3).
  - apply demo_jbuf_inv.
  - lia.
Defined.


Lemma jbuf_bounds_witness :
  0 <= jb_eff_level demo_jbuf <= jb_max_count demo_jbuf * 4 / 5 /\
  0 <= jb_prefetch demo_jbuf <= jb_max_prefetch demo_jbuf /\
  jb_max_prefetch demo_jbuf <= jb_max_count demo_jbuf /\
  exists W, fl_rep (jb_framelist demo_jbuf) W /\
    jb_framelist_eff_size (jb_framelist demo_jbuf) = Z.of_nat (length (live W)).
Proof. apply (jbuf_bounds demo_jbuf). apply demo_jbuf_reach. Defined.
