(* ===== verification/TsxData.v ===== *)
(** * SIP transactions: data, keys and timer settings

    The data of [pjsip/sip_transaction.h] and the pure parts of
    [pjsip/sip_transaction.c]: messages as far as transactions look at them,
    the transaction record, the keys of the transaction table
    ([pjsip_tsx_create_key]) and the timer settings. *)

From S2P Require Import Prelude TimeVal Hash PjString.
Local Open Scope Z_scope.

(** ** Status codes ([pjsip/sip_errno.h], [pjlib-util/errno.h]) *)

Definition PJSIP_ENOTREQUESTMSG : Z := 171021.
Definition PJSIP_ENOTRESPONSEMSG : Z := 171022.
Definition PJSIP_EMISSINGHDR : Z := 171050.
Definition PJSIP_EINVALIDHDR : Z := 171051.
Definition PJSIP_EINVALIDMETHOD : Z := 171055.
Definition PJLIB_UTIL_EDNS_NXDOMAIN : Z := 320053.
Definition PJ_EBUSY : Z := 70011.

Definition PJSIP_SC_TSX_TIMEOUT : Z := 408.
Definition PJSIP_SC_BAD_GATEWAY : Z := 502.
Definition PJSIP_SC_SERVICE_UNAVAILABLE : Z := 503.
Definition PJSIP_SC_TSX_TRANSPORT_ERROR : Z := 503.

(** [status_code/100 == code_class/100] with C division. *)
Definition PJSIP_IS_STATUS_IN_CLASS (status_code code_class : Z) : bool :=
  Z.quot status_code 100 =? Z.quot code_class 100.

(** ** Messages *)

Inductive pjsip_method_e :=
  | PJSIP_INVITE_METHOD
  | PJSIP_CANCEL_METHOD
  | PJSIP_ACK_METHOD
  | PJSIP_BYE_METHOD
  | PJSIP_REGISTER_METHOD
  | PJSIP_OPTIONS_METHOD
  | PJSIP_OTHER_METHOD.

#[export] Instance pjsip_method_e_eq_dec : EqDecision pjsip_method_e.
Proof. solve_decision. Defined.

Record pjsip_method := mk_method { m_id : pjsip_method_e; m_name : list Z }.

#[export] Instance pjsip_method_eq_dec : EqDecision pjsip_method.
Proof. solve_decision. Defined.

Definition method_index (m : pjsip_method_e) : Z :=
  match m with
  | PJSIP_INVITE_METHOD => 0
  | PJSIP_CANCEL_METHOD => 1
  | PJSIP_ACK_METHOD => 2
  | PJSIP_BYE_METHOD => 3
  | PJSIP_REGISTER_METHOD => 4
  | PJSIP_OPTIONS_METHOD => 5
  | PJSIP_OTHER_METHOD => 6
  end.

Definition pjsip_method_cmp (m1 m2 : pjsip_method) : Z :=
  if bool_decide (m_id m1 = m_id m2) then
    if bool_decide (m_id m1 <> PJSIP_OTHER_METHOD) then 0
    else pj_strcmp (m_name m1) (m_name m2)
  else if method_index (m_id m1) <? method_index (m_id m2) then -1 else 1.

(** What transactions read of a message. *)
Inductive pjsip_msg :=
  | PJSIP_REQUEST_MSG (method : pjsip_method)
  | PJSIP_RESPONSE_MSG (code : Z) (reason : list Z).

Record pjsip_cseq_hdr := mk_cseq_hdr { cs_cseq : Z; cs_method : pjsip_method }.
Record pjsip_via_hdr := mk_via_hdr {
  via_host : list Z;      (* sent_by.host *)
  via_port : Z;           (* sent_by.port, an int *)
  via_branch : list Z     (* branch_param, empty when absent *)
}.

(** A received message; a header is [None] when the pointer is NULL. *)
Record pjsip_rx_data := mk_rx_data {
  rx_id : nat;
  rx_msg : option pjsip_msg;
  rx_via : option pjsip_via_hdr;
  rx_cseq : option pjsip_cseq_hdr;
  rx_from_tag : option (list Z);
  rx_cid : option (list Z)
}.

(** A message to transmit. *)
Record pjsip_tx_data := mk_tx_data {
  td_msg : option pjsip_msg;
  td_cseq : option pjsip_cseq_hdr;
  td_via : option pjsip_via_hdr;
  td_is_pending : bool;
  td_mod_data : option nat;   (* mod_data[mod_tsx_layer.mod.id] *)
  td_addr_len : Z             (* length of the current entry of dest_info *)
}.

#[export] Instance eta_tx_data : Settable pjsip_tx_data :=
  fun d => mk_tx_data (td_msg d) (td_cseq d) (td_via d) (td_is_pending d)
             (td_mod_data d) (td_addr_len d).

(** ** Transactions *)

Inductive pjsip_role_e := PJSIP_ROLE_UAC | PJSIP_ROLE_UAS.

#[export] Instance pjsip_role_e_eq_dec : EqDecision pjsip_role_e.
Proof. solve_decision. Defined.

Inductive pjsip_tsx_state_e :=
  | PJSIP_TSX_STATE_NULL
  | PJSIP_TSX_STATE_CALLING
  | PJSIP_TSX_STATE_TRYING
  | PJSIP_TSX_STATE_PROCEEDING
  | PJSIP_TSX_STATE_COMPLETED
  | PJSIP_TSX_STATE_CONFIRMED
  | PJSIP_TSX_STATE_TERMINATED
  | PJSIP_TSX_STATE_DESTROYED.

#[export] Instance pjsip_tsx_state_e_eq_dec : EqDecision pjsip_tsx_state_e.
Proof. solve_decision. Defined.

Definition state_index (s : pjsip_tsx_state_e) : Z :=
  match s with
  | PJSIP_TSX_STATE_NULL => 0
  | PJSIP_TSX_STATE_CALLING => 1
  | PJSIP_TSX_STATE_TRYING => 2
  | PJSIP_TSX_STATE_PROCEEDING => 3
  | PJSIP_TSX_STATE_COMPLETED => 4
  | PJSIP_TSX_STATE_CONFIRMED => 5
  | PJSIP_TSX_STATE_TERMINATED => 6
  | PJSIP_TSX_STATE_DESTROYED => 7
  end.

Definition state_lt (a b : pjsip_tsx_state_e) : bool := state_index a <? state_index b.

(** The functions [tsx->state_handler] can point to. *)
Inductive tsx_handler :=
  | tsx_on_state_null_h
  | tsx_on_state_calling_h
  | tsx_on_state_trying_h
  | tsx_on_state_proceeding_uas_h
  | tsx_on_state_proceeding_uac_h
  | tsx_on_state_completed_uas_h
  | tsx_on_state_completed_uac_h
  | tsx_on_state_confirmed_h
  | tsx_on_state_terminated_h
  | tsx_on_state_destroyed_h.

Definition tsx_state_handler_uac (s : pjsip_tsx_state_e) : option tsx_handler :=
  match s with
  | PJSIP_TSX_STATE_NULL => Some tsx_on_state_null_h
  | PJSIP_TSX_STATE_CALLING => Some tsx_on_state_calling_h
  | PJSIP_TSX_STATE_TRYING => None
  | PJSIP_TSX_STATE_PROCEEDING => Some tsx_on_state_proceeding_uac_h
  | PJSIP_TSX_STATE_COMPLETED => Some tsx_on_state_completed_uac_h
  | PJSIP_TSX_STATE_CONFIRMED => Some tsx_on_state_confirmed_h
  | PJSIP_TSX_STATE_TERMINATED => Some tsx_on_state_terminated_h
  | PJSIP_TSX_STATE_DESTROYED => Some tsx_on_state_destroyed_h
  end.

Definition tsx_state_handler_uas (s : pjsip_tsx_state_e) : option tsx_handler :=
  match s with
  | PJSIP_TSX_STATE_NULL => Some tsx_on_state_null_h
  | PJSIP_TSX_STATE_CALLING => None
  | PJSIP_TSX_STATE_TRYING => Some tsx_on_state_trying_h
  | PJSIP_TSX_STATE_PROCEEDING => Some tsx_on_state_proceeding_uas_h
  | PJSIP_TSX_STATE_COMPLETED => Some tsx_on_state_completed_uas_h
  | PJSIP_TSX_STATE_CONFIRMED => Some tsx_on_state_confirmed_h
  | PJSIP_TSX_STATE_TERMINATED => Some tsx_on_state_terminated_h
  | PJSIP_TSX_STATE_DESTROYED => Some tsx_on_state_destroyed_h
  end.

(** [tsx->transport_flag]: the five bits of the code's enum. *)
Record tsx_flags := mk_flags {
  TSX_HAS_PENDING_TRANSPORT : bool;
  TSX_HAS_PENDING_RESCHED : bool;
  TSX_HAS_PENDING_SEND : bool;
  TSX_HAS_PENDING_DESTROY : bool;
  TSX_HAS_RESOLVED_SERVER : bool
}.

#[export] Instance eta_flags : Settable tsx_flags :=
  fun f => mk_flags (TSX_HAS_PENDING_TRANSPORT f) (TSX_HAS_PENDING_RESCHED f)
    (TSX_HAS_PENDING_SEND f) (TSX_HAS_PENDING_DESTROY f) (TSX_HAS_RESOLVED_SERVER f).

Definition no_flags : tsx_flags := mk_flags false false false false false.

(** [tsx->status_text]: the reason given, or the default text of a code. *)
Inductive tsx_text :=
  | TextNone
  | TextOfCode (code : Z)
  | TextReason (reason : list Z)
  | TextStrerror (status : Z).

Record pjsip_transaction := mk_tsx {
  tsx_user : option nat;
  terminating : bool;
  grp_lock : nat;
  role : pjsip_role_e;
  method : pjsip_method;
  cseq : Z;
  transaction_key : list Z;
  hashed_key : Z;
  branch : list Z;
  status_code : Z;
  status_text : tsx_text;
  state : pjsip_tsx_state_e;
  handle_200resp : bool;
  state_handler : option tsx_handler;
  transport : option nat;
  is_reliable : bool;
  addr_len : Z;
  res_addr_transport : option nat;
  res_addr_len : Z;
  transport_flag : tsx_flags;
  transport_err : Z;
  tp_sel : option nat;
  pending_tx : option nat;
  tp_st_key : bool;             (* a listener key was stored *)
  last_tx : option nat;
  retransmit_count : Z
}.

#[export] Instance eta_tsx : Settable pjsip_transaction :=
  fun x => mk_tsx (tsx_user x) (terminating x) (grp_lock x) (role x) (method x)
    (cseq x) (transaction_key x) (hashed_key x) (branch x) (status_code x)
    (status_text x) (state x) (handle_200resp x) (state_handler x) (transport x)
    (is_reliable x) (addr_len x) (res_addr_transport x) (res_addr_len x)
    (transport_flag x) (transport_err x) (tp_sel x) (pending_tx x) (tp_st_key x)
    (last_tx x) (retransmit_count x).

(** The timer entries embedded in transaction [t], and back. *)
Definition retransmit_timer (t : nat) : nat := (2 * t)%nat.
Definition timeout_timer (t : nat) : nat := (2 * t + 1)%nat.
Definition entry_tsx (e : nat) : nat := Nat.div2 e.

Definition TIMER_INACTIVE : Z := 0.
Definition RETRANSMIT_TIMER : Z := 1.
Definition TIMEOUT_TIMER : Z := 2.
Definition TRANSPORT_ERR_TIMER : Z := 3.
Definition TRANSPORT_DISC_TIMER : Z := 4.

(** Events dispatched to a state handler, also the sources of state changes. *)
Inductive pjsip_event :=
  | PJSIP_EVENT_UNKNOWN
  | PJSIP_EVENT_TIMER (entry : nat)
  | PJSIP_EVENT_TX_MSG (tdata : nat)
  | PJSIP_EVENT_RX_MSG (rdata : pjsip_rx_data)
  | PJSIP_EVENT_TRANSPORT_ERROR (tdata : option nat)
  | PJSIP_EVENT_USER.

Definition is_timer_event (ev : pjsip_event) (entry : nat) : bool :=
  match ev with PJSIP_EVENT_TIMER e => Nat.eqb e entry | _ => false end.

(** ** Transaction keys *)

Definition ch_c : Z := 99.
Definition ch_s : Z := 115.
Definition SEPARATOR : Z := 36.
Definition ch_colon : Z := 58.

Definition role_char (r : pjsip_role_e) : Z :=
  if bool_decide (r = PJSIP_ROLE_UAC) then ch_c else ch_s.

(** Add method, except when method is INVITE or ACK. *)
Definition key_method (m : pjsip_method) : list Z :=
  if bool_decide (m_id m <> PJSIP_INVITE_METHOD)
     && bool_decide (m_id m <> PJSIP_ACK_METHOD)
  then m_name m ++ [SEPARATOR] else [].

(** The key and the number of bytes allocated for it. *)
Definition create_tsx_key_2543 (r : pjsip_role_e) (m : pjsip_method)
    (rdata : pjsip_rx_data) : option (Z * Z * list Z) :=
  match rx_msg rdata, rx_via rdata, rx_cseq rdata, rx_from_tag rdata with
  | None, _, _, _ => Some (PJ_EINVAL, 0, [])
  | _, None, _, _ | _, _, None, _ | _, _, _, None => Some (PJSIP_EMISSINGHDR, 0, [])
  | Some _, Some via, Some cseq, Some from_tag =>
      cid ← rx_cid rdata;
      let host := via_host via in
      let len_required :=
        slen (m_name m) + 11 + slen from_tag + slen cid + slen host + 11 + 16 in
      let key :=
        [role_char r; SEPARATOR] ++ key_method m
        ++ pj_utoa (int_to_ulong (cs_cseq cseq)) ++ [SEPARATOR]
        ++ from_tag ++ [SEPARATOR]
        ++ cid ++ [SEPARATOR]
        ++ host ++ [ch_colon]
        ++ pj_utoa (int_to_ulong (via_port via)) ++ [SEPARATOR]
        ++ [0] in
      Some (PJ_SUCCESS, len_required, key)
  end.

Definition create_tsx_key_3261 (r : pjsip_role_e) (m : pjsip_method)
    (branch : list Z) : Z * Z * list Z :=
  (PJ_SUCCESS, slen branch + slen (m_name m) + 4,
   [role_char r; SEPARATOR] ++ key_method m ++ branch).

(** "z9hG4bK" *)
Definition PJSIP_RFC3261_BRANCH_ID : list Z := [122; 57; 104; 71; 52; 98; 75].
Definition PJSIP_RFC3261_BRANCH_LEN : nat := 7.

(** [None] when the message has no Via header. *)
Definition pjsip_tsx_create_key (r : pjsip_role_e) (m : pjsip_method)
    (rdata : pjsip_rx_data) : option (Z * Z * list Z) :=
  via ← rx_via rdata;
  let branch := via_branch via in
  if strnicmp_eq branch PJSIP_RFC3261_BRANCH_ID PJSIP_RFC3261_BRANCH_LEN
  then Some (create_tsx_key_3261 r m branch)
  else create_tsx_key_2543 r m rdata.

(** ** Timer settings *)

Record tsx_cfg := mk_tsx_cfg {
  cfg_t1 : Z; cfg_t2 : Z; cfg_t4 : Z; cfg_td : Z; cfg_max_count : Z
}.

#[export] Instance eta_tsx_cfg : Settable tsx_cfg :=
  fun c => mk_tsx_cfg (cfg_t1 c) (cfg_t2 c) (cfg_t4 c) (cfg_td c) (cfg_max_count c).

(** The static variables of sip_transaction.c and [pjsip_cfg()->tsx]. *)
Record tsx_timers := mk_tsx_timers {
  t1_timer_val : pj_time_val;
  t2_timer_val : pj_time_val;
  t4_timer_val : pj_time_val;
  td_timer_val : pj_time_val;
  timeout_timer_val : pj_time_val;
  tsx_config : tsx_cfg
}.

#[export] Instance eta_tsx_timers : Settable tsx_timers :=
  fun t => mk_tsx_timers (t1_timer_val t) (t2_timer_val t) (t4_timer_val t)
             (td_timer_val t) (timeout_timer_val t) (tsx_config t).

Definition msec_val (msec : Z) : pj_time_val := mk_time_val (msec / 1000) (msec mod 1000).

Definition PJSIP_T1_TIMEOUT : Z := 500.
Definition PJSIP_T2_TIMEOUT : Z := 4000.
Definition PJSIP_T4_TIMEOUT : Z := 5000.
Definition PJSIP_TD_TIMEOUT : Z := 32000.
Definition PJSIP_MAX_TSX_COUNT : Z := 1023.
Definition PJSIP_TSX_1XX_RETRANS_DELAY : Z := 60.

Definition default_tsx_timers : tsx_timers :=
  mk_tsx_timers (msec_val PJSIP_T1_TIMEOUT) (msec_val PJSIP_T2_TIMEOUT)
    (msec_val PJSIP_T4_TIMEOUT) (msec_val PJSIP_TD_TIMEOUT)
    (msec_val (64 * PJSIP_T1_TIMEOUT))
    (mk_tsx_cfg PJSIP_T1_TIMEOUT PJSIP_T2_TIMEOUT PJSIP_T4_TIMEOUT
       PJSIP_TD_TIMEOUT PJSIP_MAX_TSX_COUNT).

Definition pjsip_tsx_set_timers (t1 t2 t4 td : Z) (v : tsx_timers) : tsx_timers :=
  let v := if negb (t1 =? 0) then
    v <| t1_timer_val := msec_val t1 |>
      <| tsx_config := tsx_config v <| cfg_t1 := t1 |> |> else v in
  let v := if negb (t2 =? 0) then
    v <| t2_timer_val := msec_val t2 |>
      <| tsx_config := tsx_config v <| cfg_t2 := t2 |> |> else v in
  let v := if negb (t4 =? 0) then
    v <| t4_timer_val := msec_val t4 |>
      <| tsx_config := tsx_config v <| cfg_t4 := t4 |> |> else v in
  if negb (td =? 0) then
    v <| td_timer_val := msec_val td |>
      <| timeout_timer_val := msec_val td |>
      <| tsx_config := tsx_config v <| cfg_td := td |> |> else v.

Definition pjsip_tsx_initialize_timer_values (v : tsx_timers) : tsx_timers :=
  let c := tsx_config v in
  v <| t1_timer_val := msec_val (cfg_t1 c) |>
    <| t2_timer_val := msec_val (cfg_t2 c) |>
    <| t4_timer_val := msec_val (cfg_t4 c) |>
    <| td_timer_val := msec_val (cfg_td c) |>
    <| timeout_timer_val := msec_val (cfg_td c) |>.
