(* ===== verification/TsxEnv.v ===== *)
(** * SIP transactions: the world and the monad

    The state the transaction layer works on, the parts of the system it
    calls (transaction users, transports, the stateless sending functions)
    as a class of parameters.  The operations of [pjsip/sip_transaction.c] are
    written in the monad of Monad; [None] is a dangling transaction or
    message, or a NULL [state_handler]. *)

From S2P Require Import Prelude Monad TimeVal TimerSpec Hash TsxData.
Local Open Scope Z_scope.

(** ** Calls to other components

    Every call the code makes to another component is appended to a log, in
    the order of the calls. *)

Inductive ref_target :=
  | RefLock (l : nat)
  | RefTransport (tp : nat)
  | RefTdata (td : nat)
  | RefTpsel (sel : nat).

Inductive tsx_output :=
  | OutRxResponse (user : nat) (rdata : nat)
  | OutTsxState (user : nat) (t : nat) (prev cur : pjsip_tsx_state_e) (src : pjsip_event)
  | OutTransportSend (tp td : nat)
  | OutSendRequest (td : nat)
  | OutSendResponse (td : nat)
  | OutAddRef (r : ref_target)
  | OutDecRef (r : ref_target)
  | OutAddListener (tp t : nat)
  | OutRemoveListener (tp t : nat)
  | OutRdataTsx (rdata t : nat)    (* rdata->endpt_info.mod_data[] = tsx *)
  | OutSetTransport (td : nat) (sel : option nat).  (* pjsip_tx_data_set_transport *)

(** ** The world *)

Record tsx_world (TW HT : Type) := mk_tsx_world {
  tsxs : gmap nat pjsip_transaction;
  tdatas : gmap nat pjsip_tx_data;
  timers : TW;                   (* the endpoint's timer heap *)
  htable : HT;                   (* mod_tsx_layer.htable *)
  now : pj_time_val;
  settings : tsx_timers;
  mod_id : Z;                    (* mod_tsx_layer.mod.id *)
  has_endpt : bool;              (* mod_tsx_layer.endpt != NULL *)
  out : list tsx_output
}.
Arguments mk_tsx_world {TW HT}.
Arguments tsxs {TW HT}.
Arguments tdatas {TW HT}.
Arguments timers {TW HT}.
Arguments htable {TW HT}.
Arguments now {TW HT}.
Arguments settings {TW HT}.
Arguments mod_id {TW HT}.
Arguments has_endpt {TW HT}.
Arguments out {TW HT}.

#[export] Instance eta_tsx_world TW HT : Settable (tsx_world TW HT) :=
  fun w => mk_tsx_world (tsxs w) (tdatas w) (timers w) (htable w) (now w)
             (settings w) (mod_id w) (has_endpt w) (out w).

(** ** The environment

    One notification of the stateless sending functions: the transport the
    message was tried on, [sent], and whether another server can be tried. *)
Record send_notify := mk_send_notify {
  sn_transport : option nat;
  sn_sent : Z;
  sn_cont : bool
}.

(** What sip_util.c, sip_transport.c and the application do.  A transaction
    user is an arbitrary transformation of the world: its callbacks may call
    any function of the transaction layer. *)
Class TsxEnv (TW HT : Type) := {
  on_rx_response : nat -> option (pjsip_rx_data -> tsx_world TW HT -> tsx_world TW HT);
  on_tsx_state : nat ->
    option (nat -> pjsip_event -> pjsip_tsx_state_e -> tsx_world TW HT -> tsx_world TW HT);
  (* the status of pjsip_transport_send *)
  transport_send : tsx_world TW HT -> nat -> nat -> Z;
  (* the status of pjsip_endpt_send_request_stateless and
     pjsip_endpt_send_response, whether the message is left pending, and the
     notifications made before they return *)
  send_request_stateless : tsx_world TW HT -> nat -> Z * bool * list send_notify;
  send_response_stateless : tsx_world TW HT -> nat -> Z * bool * list send_notify;
  (* pjsip_endpt_create_ack: the status and the new message *)
  create_ack : tsx_world TW HT -> option nat -> pjsip_rx_data -> Z * nat * pjsip_tx_data;
  (* pjsip_get_request_dest: the status and the reliable flag *)
  get_request_dest : tsx_world TW HT -> nat -> Z * bool;
  (* pjsip_get_response_addr: the status, the transport to use, the length
     of its address, the reliable flag of dst_host *)
  get_response_addr : tsx_world TW HT -> pjsip_rx_data -> Z * option nat * Z * bool;
  (* the flags of a transport: PJSIP_TRANSPORT_RELIABLE and
     is_shutdown || is_destroying *)
  tp_reliable : nat -> bool;
  tp_down : tsx_world TW HT -> nat -> bool;
  (* pj_generate_unique_string *)
  unique_string : tsx_world TW HT -> list Z
}.
