(* ===== verification/Tsx.v ===== *)
(** * SIP transactions: the operations of sip_transaction.c

    One definition per function of [pjsip/src/pjsip/sip_transaction.c]: the
    timers, the state change [tsx_set_state], sending, the callbacks of the
    transport layer and one handler per state.  Transactions, messages and
    group locks are addresses; [t] is the transaction a function is called
    on.  Acquiring and releasing locks, logging and the pools have no
    counterpart. *)

From S2P Require Import Prelude Monad TimeVal TimerSpec Hash TsxData TsxEnv.
Local Open Scope Z_scope.

Section Tsx.
Context {TW HT : Type} `{TS : !TimerService TW} `{KT : !KeyTable HT}.
Context {E : TsxEnv TW HT}.

#[local] Abbreviation W := (tsx_world TW HT).
#[local] Abbreviation M := (M (tsx_world TW HT)).

(** ** Access to the world *)

Definition get_tsx (t : nat) : M pjsip_transaction :=
  fun w => x ← tsxs w !! t; Some (x, w).

(** An assignment to fields of [*tsx]. *)
Definition upd_tsx (t : nat) (f : pjsip_transaction -> pjsip_transaction) : M unit :=
  fun w => x ← tsxs w !! t; Some (tt, w <| tsxs := <[t := f x]> (tsxs w) |>).

Definition get_td (td : nat) : M pjsip_tx_data :=
  fun w => d ← tdatas w !! td; Some (d, w).

Definition upd_td (td : nat) (f : pjsip_tx_data -> pjsip_tx_data) : M unit :=
  fun w => d ← tdatas w !! td; Some (tt, w <| tdatas := <[td := f d]> (tdatas w) |>).

Definition set_flag (t : nat) (f : tsx_flags -> tsx_flags) : M unit :=
  upd_tsx t (fun x => x <| transport_flag := f (transport_flag x) |>).

Definition emit (o : tsx_output) : M unit :=
  modify (fun w => w <| out := out w ++ [o] |>).

(** [pjsip_tx_data_dec_ref] and [pjsip_tpselector_dec_ref] accept NULL. *)
Definition emit_opt {A} (f : A -> tsx_output) (o : option A) : M unit :=
  match o with Some a => emit (f a) | None => mret tt end.

Definition lock_add_ref (t : nat) : M unit :=
  x ← get_tsx t; emit (OutAddRef (RefLock (grp_lock x))).

Definition lock_dec_ref (t : nat) : M unit :=
  x ← get_tsx t; emit (OutDecRef (RefLock (grp_lock x))).

(** The [id] field of a timer entry, and [pj_timer_entry_running]. *)
Definition timer_id (e : nat) : M Z :=
  fun w => i ← ts_id (timers w) !! e; Some (i, w).

Definition set_timer_id (e : nat) (id : Z) : M unit :=
  modify (fun w => w <| timers := ts_set_id (timers w) e id |>).

Definition timer_running (e : nat) : M bool :=
  fun w => Some (bool_decide (is_Some (ts_armed (timers w) !! e)), w).

(** ** Timers *)

Definition tsx_schedule_timer (e : nat) (delay : pj_time_val) (active_id : Z) : M Z :=
  fun w =>
    '(r, tw) ← ts_schedule (timers w) (now w) e delay active_id;
    Some (r, w <| timers := tw |>).

Definition tsx_cancel_timer (e : nat) : M Z :=
  fun w =>
    '(n, tw) ← ts_cancel (timers w) e TIMER_INACTIVE;
    Some (n, w <| timers := tw |>).

Definition zero_time : pj_time_val := mk_time_val 0 0.

(** ** Transports *)

Definition PJSIP_TP_STATE_DISCONNECTED : bool := true.

(** Callback when transport state changes. *)
Definition tsx_tp_state_callback (t : nat) (disconnected : bool) (status : Z) : M unit :=
  when disconnected (
    upd_tsx t (fun x => x <| transport_err := status |>);;
    x ← get_tsx t;
    when (state_lt (state x) PJSIP_TSX_STATE_COMPLETED) (
      tsx_cancel_timer (timeout_timer t);;
      tsx_schedule_timer (timeout_timer t) zero_time TRANSPORT_DISC_TIMER;;
      mret tt)).

Definition tsx_update_transport (t : nat) (tp : option nat) : M unit :=
  x ← get_tsx t;
  match transport x with
  | Some p =>
      when (tp_st_key x) (emit (OutRemoveListener p t));;
      emit (OutDecRef (RefTransport p));;
      upd_tsx t (fun x => x <| transport := None |>)
  | None => mret tt
  end;;
  match tp with
  | Some p =>
      upd_tsx t (fun x => x <| transport := Some p |>);;
      emit (OutAddRef (RefTransport p));;
      emit (OutAddListener p t);;
      upd_tsx t (fun x => x <| tp_st_key := true |>);;
      w ← ask;
      when (tp_down w p)
        (tsx_tp_state_callback t PJSIP_TP_STATE_DISCONNECTED PJSIP_SC_TSX_TRANSPORT_ERROR)
  | None => mret tt
  end.

(** ** Registration ([mod_tsx_layer]) *)

Definition mod_tsx_layer_register_tsx (t : nat) : M Z :=
  x ← get_tsx t;
  w ← ask;
  found ← from_option (kt_get (htable w) (transaction_key x));
  match found with
  | Some _ => mret PJ_EEXISTS
  | None =>
      ht ← from_option (kt_set (htable w) (transaction_key x) (hashed_key x) (Some t));
      modify (fun w => w <| htable := ht |>);;
      mret PJ_SUCCESS
  end.

Definition mod_tsx_layer_unregister_tsx (t : nat) : M unit :=
  w ← ask;
  if mod_id w =? -1 then mret tt
  else
    x ← get_tsx t;
    ht ← from_option (kt_set (htable w) (transaction_key x) (hashed_key x) None);
    modify (fun w => w <| htable := ht |>).

(** ** Shutdown and state change *)

Definition tsx_shutdown (t : nat) : M Z :=
  tsx_update_transport t None;;
  x ← get_tsx t;
  when (negb (terminating x))
    (emit_opt (fun s => OutDecRef (RefTpsel s)) (tp_sel x));;
  match last_tx x with
  | Some td =>
      emit (OutDecRef (RefTdata td));;
      upd_tsx t (fun x => x <| last_tx := None |>)
  | None => mret tt
  end;;
  tsx_cancel_timer (timeout_timer t);;
  tsx_cancel_timer (retransmit_timer t);;
  set_flag t (fun f => f <| TSX_HAS_PENDING_RESCHED := false |>
                         <| TSX_HAS_PENDING_SEND := false |>);;
  x ← get_tsx t;
  when (TSX_HAS_PENDING_TRANSPORT (transport_flag x)) (
    set_flag t (fun f => f <| TSX_HAS_PENDING_DESTROY := true |>);;
    upd_tsx t (fun x => x <| tsx_user := None |>));;
  x ← get_tsx t;
  when (negb (terminating x)) (
    upd_tsx t (fun x => x <| terminating := true |>);;
    lock_dec_ref t);;
  mret PJ_SUCCESS.

Definition tsx_set_status_code (t : nat) (code : Z) (reason : option tsx_text) : M unit :=
  upd_tsx t (fun x => x <| status_code := code |>
    <| status_text := match reason with Some r => r | None => TextOfCode code end |>).

(** Flags of [tsx_set_state]. *)
Definition NO_NOTIFY : Z := 1.
Definition NO_SCHEDULE_HANDLER : Z := 2.

(** Inform TU about the received response. *)
Definition notify_rx (t : nat) (src : pjsip_event) (flag : Z) : M unit :=
  x ← get_tsx t;
  match src, tsx_user x with
  | PJSIP_EVENT_RX_MSG rdata, Some u =>
      if Z.land flag NO_NOTIFY =? 0 then
        msg ← from_option (rx_msg rdata);
        match msg, on_rx_response u with
        | PJSIP_RESPONSE_MSG _ _, Some cb =>
            emit (OutRxResponse u (rx_id rdata));; modify (cb rdata)
        | _, _ => mret tt
        end
      else mret tt
  | _, _ => mret tt
  end.

(** Inform TU about the state change. *)
Definition notify_state (t : nat) (src : pjsip_event) (prev : pjsip_tsx_state_e) : M unit :=
  x ← get_tsx t;
  match tsx_user x with
  | Some u =>
      match on_tsx_state u with
      | Some cb =>
          emit (OutTsxState u t prev (state x) src);; modify (cb t src prev)
      | None => mret tt
      end
  | None => mret tt
  end.

Definition tsx_set_state (t : nat) (st : pjsip_tsx_state_e) (src : pjsip_event)
    (flag : Z) : M unit :=
  x ← get_tsx t;
  let prev_state := state x in
  upd_tsx t (fun x => x <| state := st |>);;
  upd_tsx t (fun x => x <| state_handler :=
    if bool_decide (role x = PJSIP_ROLE_UAC)
    then tsx_state_handler_uac st else tsx_state_handler_uas st |>);;
  notify_rx t src flag;;
  when (Z.land flag NO_NOTIFY =? 0) (notify_state t src prev_state);;
  match st with
  | PJSIP_TSX_STATE_TERMINATED =>
      x ← get_tsx t;
      when (TSX_HAS_PENDING_TRANSPORT (transport_flag x)) (
        match pending_tx x with
        | Some td =>
            upd_td td (fun d => d <| td_mod_data := None |>);;
            upd_tsx t (fun x => x <| pending_tx := None |>);;
            lock_dec_ref t
        | None => mret tt
        end;;
        set_flag t (fun f => f <| TSX_HAS_PENDING_TRANSPORT := false |>));;
      tsx_cancel_timer (timeout_timer t);;
      when (Z.land flag NO_SCHEDULE_HANDLER =? 0) (
        tsx_schedule_timer (timeout_timer t) zero_time TIMEOUT_TIMER;; mret tt)
  | PJSIP_TSX_STATE_DESTROYED =>
      mod_tsx_layer_unregister_tsx t;;
      tsx_shutdown t;;
      mret tt
  | _ => mret tt
  end.

(** ** Retransmission interval *)

(** [1 << n] on a 32-bit [int]; the shift count is taken modulo 32. *)
Definition shl1 (n : Z) : Z := u32 (Z.shiftl 1 (n mod 32)).

(** [msec_time] of [tsx_resched_retransmission]. *)
Definition resched_msec (c : tsx_cfg) (x : pjsip_transaction) : Z :=
  let msec_time :=
    if bool_decide (role x = PJSIP_ROLE_UAC) && (100 <=? status_code x)
    then cfg_t2 c
    else u32 (shl1 (retransmit_count x) * cfg_t1 c) in
  if bool_decide (role x = PJSIP_ROLE_UAC) then
    if (cfg_t2 c <? msec_time)
       && bool_decide (m_id (method x) <> PJSIP_INVITE_METHOD)
    then cfg_t2 c else msec_time
  else
    if status_code x <? 200 then PJSIP_TSX_1XX_RETRANS_DELAY * 1000
    else if cfg_t2 c <? msec_time then cfg_t2 c else msec_time.

Definition tsx_resched_retransmission (t : nat) : M unit :=
  x ← get_tsx t;
  w ← ask;
  let msec_time := resched_msec (tsx_config (settings w)) x in
  when (negb (msec_time =? 0)) (
    tsx_schedule_timer (retransmit_timer t) (msec_val msec_time) RETRANSMIT_TIMER;;
    mret tt).

(** ** Sending *)

(** [pjsip_transport_send] marks the message pending until the transport is
    done with it. *)
Definition pjsip_transport_send (p td : nat) : M Z :=
  w ← ask;
  emit (OutTransportSend p td);;
  let status := transport_send w p td in
  upd_td td (fun d => d <| td_is_pending := (status =? PJ_EPENDING) |>);;
  mret status.

(** Sending with the transport of the transaction: whether the send is done,
    or the error. *)
Definition tsx_send_direct (t td p : nat) : M (bool * Z) :=
  lock_add_ref t;;
  set_flag t (fun f => f <| TSX_HAS_PENDING_TRANSPORT := true |>);;
  status ← pjsip_transport_send p td;
  status ← (if status =? PJ_EPENDING then mret PJ_SUCCESS
            else
              set_flag t (fun f => f <| TSX_HAS_PENDING_TRANSPORT := false |>);;
              lock_dec_ref t;;
              mret status);
  if negb (status =? PJ_SUCCESS) then
    tsx_update_transport t None;;
    upd_tsx t (fun x => x <| addr_len := 0 |> <| res_addr_transport := None |>
                          <| res_addr_len := 0 |>);;
    mret (false, status)
  else mret (true, PJ_SUCCESS).

Section Send.
(** [tsx_send_msg], which a notification may call again. *)
Variable send : nat -> nat -> M Z.

(** What follows a successful transmission; shared by [send_msg_callback] and
    [transport_callback]. *)
Definition tsx_after_send (t : nat) : M unit :=
  x ← get_tsx t;
  if TSX_HAS_PENDING_DESTROY (transport_flag x) then
    tsx_set_state t PJSIP_TSX_STATE_DESTROYED PJSIP_EVENT_UNKNOWN 0
  else
    when (TSX_HAS_PENDING_SEND (transport_flag x)) (
      set_flag t (fun f => f <| TSX_HAS_PENDING_SEND := false |>);;
      match last_tx x with
      | Some td => send t td;; mret tt
      | None => mret tt     (* tsx_send_msg returns PJ_EINVAL *)
      end);;
    x ← get_tsx t;
    when (TSX_HAS_PENDING_RESCHED (transport_flag x)
          && negb (TSX_HAS_PENDING_TRANSPORT (transport_flag x))) (
      set_flag t (fun f => f <| TSX_HAS_PENDING_RESCHED := false |>);;
      when (negb (is_reliable x)) (tsx_resched_retransmission t)).

(** The branch [sent > 0] of [send_msg_callback]. *)
Definition send_msg_sent (t td : nat) (cur_transport : option nat) : M unit :=
  x ← get_tsx t;
  when (bool_decide (transport x <> cur_transport)) (
    tsx_update_transport t cur_transport;;
    d ← get_td td;
    p ← from_option cur_transport;
    upd_tsx t (fun x => x <| addr_len := td_addr_len d |>
                          <| is_reliable := tp_reliable p |>));;
  set_flag t (fun f => f <| TSX_HAS_PENDING_TRANSPORT := false |>);;
  set_flag t (fun f => f <| TSX_HAS_RESOLVED_SERVER := true |>);;
  tsx_after_send t.

(** The branch [sent <= 0]. *)
Definition send_msg_failed (t td : nat) (cur_transport : option nat) (sent : Z)
    (cont : bool) : M unit :=
  x ← get_tsx t;
  when (bool_decide (cur_transport = transport x)) (tsx_update_transport t None);;
  x ← get_tsx t;
  if negb cont || TSX_HAS_PENDING_DESTROY (transport_flag x) then
    upd_tsx t (fun x => x <| transport_err := - sent |>);;
    set_flag t (fun f => f <| TSX_HAS_PENDING_TRANSPORT := false |>);;
    set_flag t (fun f => f <| TSX_HAS_RESOLVED_SERVER := true |>);;
    let sc := if (- sent =? PJ_ERESOLVE) || (- sent =? PJLIB_UTIL_EDNS_NXDOMAIN)
              then PJSIP_SC_BAD_GATEWAY else PJSIP_SC_TSX_TRANSPORT_ERROR in
    tsx_set_status_code t sc (Some (TextStrerror (- sent)));;
    x ← get_tsx t;
    if bool_decide (state x <> PJSIP_TSX_STATE_TERMINATED)
       && bool_decide (state x <> PJSIP_TSX_STATE_DESTROYED) then
      tsx_set_state t PJSIP_TSX_STATE_TERMINATED
        (PJSIP_EVENT_TRANSPORT_ERROR (Some td)) 0
    else
      when (TSX_HAS_PENDING_DESTROY (transport_flag x)) (
        tsx_set_state t PJSIP_TSX_STATE_DESTROYED
          (PJSIP_EVENT_TRANSPORT_ERROR (Some td)) 0)
  else
    upd_tsx t (fun x => x <| retransmit_count := 0 |>);;
    id ← timer_id (timeout_timer t);
    when (negb (id =? 0)) (
      tsx_cancel_timer (timeout_timer t);;
      w ← ask;
      tsx_schedule_timer (timeout_timer t) (timeout_timer_val (settings w)) TIMEOUT_TIMER;;
      mret tt);;
    upd_td td (fun d => d <| td_mod_data := Some t |>);;
    upd_tsx t (fun x => x <| pending_tx := Some td |>);;
    lock_add_ref t.

(** Callback called by the send message framework, with the token [t] and
    the state of the transmission of [td]; returns [*cont]. *)
Definition send_msg_callback (t td : nat) (n : send_notify) : M bool :=
  w ← ask;
  d ← get_td td;
  if (mod_id w <? 0) || bool_decide (td_mod_data d = None) then mret false
  else
    lock_dec_ref t;;
    upd_td td (fun d => d <| td_mod_data := None |>);;
    upd_tsx t (fun x => x <| pending_tx := None |>);;
    (if 0 <? sn_sent n then send_msg_sent t td (sn_transport n)
     else send_msg_failed t td (sn_transport n) (sn_sent n) (sn_cont n));;
    mret (sn_cont n).

(** The notifications a stateless sending function makes before it returns:
    the next server is tried as long as [*cont] is left true. *)
Fixpoint send_notifications (t td : nat) (ns : list send_notify) : M unit :=
  match ns with
  | [] => mret tt
  | n :: ns =>
      cont ← send_msg_callback t td n;
      when cont (send_notifications t td ns)
  end.

(** The request and response branches of [tsx_send_msg], which differ in the
    function called. *)
Definition tsx_send_resolve (t td : nat) : M Z :=
  emit (OutAddRef (RefTdata td));;
  upd_td td (fun d => d <| td_mod_data := Some t |>);;
  upd_tsx t (fun x => x <| pending_tx := Some td |>);;
  lock_add_ref t;;
  d ← get_td td;
  msg ← from_option (td_msg d);
  set_flag t (fun f => f <| TSX_HAS_PENDING_TRANSPORT := true |>);;
  w ← ask;
  let '(status, pending, ns) :=
    match msg with
    | PJSIP_REQUEST_MSG _ => send_request_stateless w td
    | PJSIP_RESPONSE_MSG _ _ => send_response_stateless w td
    end in
  emit (match msg with
        | PJSIP_REQUEST_MSG _ => OutSendRequest td
        | PJSIP_RESPONSE_MSG _ _ => OutSendResponse td
        end);;
  upd_td td (fun d => d <| td_is_pending := pending |>);;
  send_notifications t td ns;;
  let status := if status =? PJ_EPENDING then PJ_SUCCESS else status in
  when (negb (status =? PJ_SUCCESS)) (
    set_flag t (fun f => f <| TSX_HAS_PENDING_TRANSPORT := false |>);;
    lock_dec_ref t;;
    emit (OutDecRef (RefTdata td));;
    upd_td td (fun d => d <| td_mod_data := None |>);;
    upd_tsx t (fun x => x <| pending_tx := None |>));;
  x ← get_tsx t;
  mret (if (status =? PJ_SUCCESS) && bool_decide (state x = PJSIP_TSX_STATE_TERMINATED)
        then transport_err x else status).

Definition tsx_send_msg_body (t td : nat) : M Z :=
  x ← get_tsx t;
  if TSX_HAS_PENDING_TRANSPORT (transport_flag x) then
    set_flag t (fun f => f <| TSX_HAS_PENDING_SEND := true |>);;
    mret PJ_SUCCESS
  else
    d ← get_td td;
    if td_is_pending d then mret PJ_SUCCESS
    else
      r ← (match transport x with
           | Some p => tsx_send_direct t td p
           | None => mret (false, PJ_SUCCESS)
           end : M (bool * Z));
      let '(done, status) := r : bool * Z in
      if done then mret PJ_SUCCESS
      else
        x ← get_tsx t;
        if TSX_HAS_RESOLVED_SERVER (transport_flag x) then
          let status := if status =? PJ_SUCCESS then PJ_EUNKNOWN else status in
          tsx_set_status_code t PJSIP_SC_TSX_TRANSPORT_ERROR
            (Some (TextStrerror status));;
          tsx_set_state t PJSIP_TSX_STATE_TERMINATED
            (PJSIP_EVENT_TRANSPORT_ERROR None) 0;;
          mret status
        else tsx_send_resolve t td.
End Send.

(** A notification calls [tsx_send_msg] again at most once: it has marked the
    server as resolved, and the nested call then does not reach the stateless
    functions. *)
Fixpoint tsx_send_msg_fuel (fuel : nat) (t td : nat) : M Z :=
  match fuel with
  | O => undefined
  | S fuel => tsx_send_msg_body (tsx_send_msg_fuel fuel) t td
  end.

Definition tsx_send_msg : nat -> nat -> M Z := tsx_send_msg_fuel 2.

(** Transport callback. *)
Definition transport_callback (t td : nat) (sent : Z) : M unit :=
  w ← ask;
  if mod_id w <? 0 then mret tt
  else
    set_flag t (fun f => f <| TSX_HAS_PENDING_TRANSPORT := false |>);;
    x ← get_tsx t;
    if (0 <? sent) && TSX_HAS_PENDING_DESTROY (transport_flag x) then
      tsx_set_state t PJSIP_TSX_STATE_DESTROYED PJSIP_EVENT_UNKNOWN 0
    else
      when (0 <? sent) (tsx_after_send tsx_send_msg t);;
      when (sent <? 0) (
        upd_tsx t (fun x => x <| transport_err := - sent |>);;
        x ← get_tsx t;
        when (state_lt (state x) PJSIP_TSX_STATE_COMPLETED) (
          tsx_cancel_timer (timeout_timer t);;
          tsx_schedule_timer (timeout_timer t) zero_time TRANSPORT_ERR_TIMER;;
          mret tt));;
      lock_dec_ref t.

(** Manually retransmit the last message without updating the state. *)
Definition pjsip_tsx_retransmit_no_state (t : nat) (tdata : option nat) : M Z :=
  td ← (match tdata with
        | Some td => mret td
        | None =>
            x ← get_tsx t;
            td ← from_option (last_tx x);
            emit (OutAddRef (RefTdata td));;
            mret td
        end : M nat);
  status ← tsx_send_msg t td;
  when (status =? PJ_SUCCESS) (emit (OutDecRef (RefTdata td)));;
  mret status.

(** Retransmit last message sent. *)
Definition tsx_retransmit (t : nat) (resched : bool) : M Z :=
  running ← timer_running (retransmit_timer t);
  if resched && running then mret PJ_SUCCESS
  else
    x ← get_tsx t;
    match last_tx x with
    | None => mret PJ_EBUG
    | Some td =>
        upd_tsx t (fun x => x <| retransmit_count := s32 (retransmit_count x + 1) |>);;
        when resched (
          if TSX_HAS_PENDING_TRANSPORT (transport_flag x)
          then set_flag t (fun f => f <| TSX_HAS_PENDING_RESCHED := true |>)
          else tsx_resched_retransmission t);;
        tsx_send_msg t td
    end.

(** ** State handlers *)

(** Saving a message for retransmission. *)
Definition save_last_tx (t td : nat) : M unit :=
  x ← get_tsx t;
  when (bool_decide (last_tx x <> Some td)) (
    upd_tsx t (fun x => x <| last_tx := Some td |>);;
    emit (OutAddRef (RefTdata td))).

(** Dropping the previous one. *)
Definition drop_last_tx (t td : nat) : M unit :=
  x ← get_tsx t;
  match last_tx x with
  | Some old =>
      when (bool_decide (old <> td)) (
        emit (OutDecRef (RefTdata old));;
        upd_tsx t (fun x => x <| last_tx := None |>))
  | None => mret tt
  end.

(** [tsx_cancel_timer] and [tsx_schedule_timer] of the timeout timer. *)
Definition restart_timeout (t : nat) (timeout : pj_time_val) : M unit :=
  tsx_cancel_timer (timeout_timer t);;
  tsx_schedule_timer (timeout_timer t) timeout TIMEOUT_TIMER;;
  mret tt.

(** Resetting the count and starting the retransmission timer, or leaving it
    to the transport when a transmission is pending. *)
Definition start_retransmit (t : nat) (delay : pj_time_val) : M unit :=
  upd_tsx t (fun x => x <| retransmit_count := 0 |>);;
  x ← get_tsx t;
  if TSX_HAS_PENDING_TRANSPORT (transport_flag x)
  then set_flag t (fun f => f <| TSX_HAS_PENDING_RESCHED := true |>)
  else tsx_schedule_timer (retransmit_timer t) delay RETRANSMIT_TIMER;; mret tt.

(** Handler for events in state Null. *)
Definition tsx_on_state_null (t : nat) (ev : pjsip_event) : M Z :=
  x ← get_tsx t;
  if bool_decide (role x = PJSIP_ROLE_UAS) then
    match ev with
    | PJSIP_EVENT_RX_MSG _ =>
        tsx_set_state t PJSIP_TSX_STATE_TRYING ev 0;;
        mret PJ_SUCCESS
    | _ => undefined
    end
  else
    match ev with
    | PJSIP_EVENT_TX_MSG tdata =>
        drop_last_tx t tdata;;
        save_last_tx t tdata;;
        status ← tsx_send_msg t tdata;
        if negb (status =? PJ_SUCCESS) then mret status
        else
          w ← ask;
          restart_timeout t (timeout_timer_val (settings w));;
          x ← get_tsx t;
          when (negb (is_reliable x)) (
            start_retransmit t (t1_timer_val (settings w)));;
          tsx_set_state t PJSIP_TSX_STATE_CALLING ev 0;;
          mret PJ_SUCCESS
    | _ => mret PJ_EBUG
    end.

(** The timeout after a final response received or sent: zero when the
    transport is reliable. *)
Definition final_timeout (reliable : bool) (unreliable_val : pj_time_val) : pj_time_val :=
  if negb reliable then unreliable_val else zero_time.

(** The three response classes of [tsx_on_state_proceeding_uac]. *)
Definition uac_final_2xx (t : nat) (ev : pjsip_event) : M Z :=
  tsx_cancel_timer (timeout_timer t);;
  x ← get_tsx t;
  if bool_decide (m_id (method x) = PJSIP_INVITE_METHOD) then
    tsx_set_state t PJSIP_TSX_STATE_TERMINATED ev 0;;
    mret PJ_SUCCESS
  else
    w ← ask;
    let timeout := final_timeout (is_reliable x)
      (if bool_decide (m_id (method x) = PJSIP_INVITE_METHOD)
       then td_timer_val (settings w) else t4_timer_val (settings w)) in
    tsx_schedule_timer (timeout_timer t) timeout TIMEOUT_TIMER;;
    tsx_cancel_timer (retransmit_timer t);;
    tsx_set_state t PJSIP_TSX_STATE_COMPLETED ev 0;;
    mret PJ_SUCCESS.

(** Generate and send ACK (for INVITE). *)
Definition uac_send_ack (t : nat) (rdata : pjsip_rx_data) : M (Z * option nat) :=
  x ← get_tsx t;
  if bool_decide (m_id (method x) = PJSIP_INVITE_METHOD) then
    w ← ask;
    let '(status, ack, d) := create_ack w (last_tx x) rdata in
    if negb (status =? PJ_SUCCESS) then mret (status, None)
    else
      modify (fun w => w <| tdatas := <[ack := d]> (tdatas w) |>);;
      status ← tsx_send_msg t ack;
      mret (status, Some ack)
  else mret (PJ_SUCCESS, None).

Definition uac_final_3xx (t : nat) (ev : pjsip_event) (rdata : pjsip_rx_data) : M Z :=
  tsx_cancel_timer (retransmit_timer t);;
  tsx_cancel_timer (timeout_timer t);;
  r ← uac_send_ack t rdata;
  let '(status, ack_tdata) := r : Z * option nat in
  if negb (status =? PJ_SUCCESS) then mret status
  else
    tsx_set_state t PJSIP_TSX_STATE_COMPLETED ev 0;;
    x ← get_tsx t;
    when (bool_decide (m_id (method x) = PJSIP_INVITE_METHOD)
          && bool_decide (ack_tdata <> last_tx x)) (
      emit_opt (fun td => OutDecRef (RefTdata td)) (last_tx x);;
      upd_tsx t (fun x => x <| last_tx := ack_tdata |>));;
    x ← get_tsx t;
    w ← ask;
    restart_timeout t (final_timeout (is_reliable x)
      (if bool_decide (m_id (method x) = PJSIP_INVITE_METHOD)
       then td_timer_val (settings w) else t4_timer_val (settings w)));;
    mret PJ_SUCCESS.

(** Handler for events in Proceeding for UAC. *)
Definition tsx_on_state_proceeding_uac (t : nat) (ev : pjsip_event) : M Z :=
  match ev with
  | PJSIP_EVENT_RX_MSG rdata =>
      msg ← from_option (rx_msg rdata);
      match msg with
      | PJSIP_REQUEST_MSG _ => mret PJSIP_ENOTRESPONSEMSG
      | PJSIP_RESPONSE_MSG code reason =>
          tsx_set_status_code t code (Some (TextReason reason));;
          if PJSIP_IS_STATUS_IN_CLASS code 100 then
            tsx_set_state t PJSIP_TSX_STATE_PROCEEDING ev 0;;
            mret PJ_SUCCESS
          else if PJSIP_IS_STATUS_IN_CLASS code 200 then
            uac_final_2xx t ev
          else if (300 <=? code) && (code <=? 699) then
            uac_final_3xx t ev rdata
          else mret PJ_EBUG
      end
  | PJSIP_EVENT_TIMER entry =>
      if Nat.eqb entry (retransmit_timer t) then tsx_retransmit t true
      else
        tsx_set_status_code t PJSIP_SC_TSX_TIMEOUT None;;
        if Nat.eqb entry (timeout_timer t) then
          tsx_set_state t PJSIP_TSX_STATE_TERMINATED ev 0;;
          mret PJ_SUCCESS
        else undefined
  | _ => mret PJ_EINVALIDOP
  end.

(** State Calling is for UAC after it sends request but before any responses
    is received. *)
Definition tsx_on_state_calling (t : nat) (ev : pjsip_event) : M Z :=
  if is_timer_event ev (retransmit_timer t) then tsx_retransmit t true
  else if is_timer_event ev (timeout_timer t) then
    tsx_cancel_timer (retransmit_timer t);;
    set_flag t (fun f => f <| TSX_HAS_PENDING_RESCHED := false |>);;
    tsx_set_status_code t PJSIP_SC_TSX_TIMEOUT None;;
    tsx_set_state t PJSIP_TSX_STATE_TERMINATED ev 0;;
    mret PJ_SUCCESS
  else
    match ev with
    | PJSIP_EVENT_RX_MSG rdata =>
        msg ← from_option (rx_msg rdata);
        match msg with
        | PJSIP_REQUEST_MSG _ => mret PJSIP_ENOTRESPONSEMSG
        | PJSIP_RESPONSE_MSG code _ =>
            tsx_cancel_timer (retransmit_timer t);;
            x ← get_tsx t;
            (if 200 <=? code then
               id ← timer_id (timeout_timer t);
               when (negb (id =? 0)) (tsx_cancel_timer (timeout_timer t);; mret tt)
             else if bool_decide (m_id (method x) = PJSIP_INVITE_METHOD) then
               tsx_cancel_timer (timeout_timer t);; mret tt
             else
               when (negb (is_reliable x)) (
                 w ← ask;
                 tsx_schedule_timer (retransmit_timer t)
                   (t2_timer_val (settings w)) RETRANSMIT_TIMER;;
                 mret tt));;
            set_flag t (fun f => f <| TSX_HAS_PENDING_RESCHED := false |>);;
            tsx_on_state_proceeding_uac t ev;;
            mret PJ_SUCCESS
        end
    | _ => mret PJ_EBUG
    end.

(** The three response classes of [tsx_on_state_proceeding_uas]. *)
Definition uas_provisional (t td : nat) (ev : pjsip_event) : M unit :=
  save_last_tx t td;;
  tsx_set_state t PJSIP_TSX_STATE_PROCEEDING ev 0;;
  x ← get_tsx t;
  when ((0 <? PJSIP_TSX_1XX_RETRANS_DELAY)
        && bool_decide (m_id (method x) = PJSIP_INVITE_METHOD)
        && (100 <? status_code x)) (
    tsx_cancel_timer (retransmit_timer t);;
    start_retransmit t (mk_time_val PJSIP_TSX_1XX_RETRANS_DELAY 0)).

Definition uas_final_2xx (t td : nat) (ev : pjsip_event) : M unit :=
  tsx_cancel_timer (retransmit_timer t);;
  x ← get_tsx t;
  if bool_decide (m_id (method x) = PJSIP_INVITE_METHOD)
     && negb (handle_200resp x) then
    tsx_set_state t PJSIP_TSX_STATE_TERMINATED ev 0
  else
    w ← ask;
    when (bool_decide (m_id (method x) = PJSIP_INVITE_METHOD)) (
      start_retransmit t (t1_timer_val (settings w)));;
    save_last_tx t td;;
    x ← get_tsx t;
    let timeout :=
      if bool_decide (m_id (method x) = PJSIP_INVITE_METHOD)
      then timeout_timer_val (settings w)
      else final_timeout (is_reliable x) (timeout_timer_val (settings w)) in
    restart_timeout t timeout;;
    tsx_set_state t PJSIP_TSX_STATE_COMPLETED ev 0.

Definition uas_final_3xx (t td : nat) (ev : pjsip_event) : M unit :=
  tsx_cancel_timer (retransmit_timer t);;
  save_last_tx t td;;
  x ← get_tsx t;
  w ← ask;
  let timeout :=
    if bool_decide (m_id (method x) = PJSIP_INVITE_METHOD)
    then timeout_timer_val (settings w)
    else final_timeout (is_reliable x) (timeout_timer_val (settings w)) in
  restart_timeout t timeout;;
  x ← get_tsx t;
  when (negb (is_reliable x)) (
    d ← get_td td;
    cs ← from_option (td_cseq d);
    when (bool_decide (m_id (cs_method cs) = PJSIP_INVITE_METHOD)) (
      start_retransmit t (t1_timer_val (settings w))));;
  tsx_set_state t PJSIP_TSX_STATE_COMPLETED ev 0.

(** Handler for events in Proceeding for UAS. *)
Definition tsx_on_state_proceeding_uas (t : nat) (ev : pjsip_event) : M Z :=
  match ev with
  | PJSIP_EVENT_RX_MSG _ =>
      x ← get_tsx t;
      match last_tx x with
      | None => mret PJ_EBUG
      | Some td =>
          if TSX_HAS_PENDING_TRANSPORT (transport_flag x) then
            set_flag t (fun f => f <| TSX_HAS_PENDING_SEND := true |>);;
            mret PJ_SUCCESS
          else tsx_send_msg t td
      end
  | PJSIP_EVENT_TX_MSG tdata =>
      d ← get_td tdata;
      msg ← from_option (td_msg d);
      match msg with
      | PJSIP_REQUEST_MSG _ => mret PJSIP_ENOTRESPONSEMSG
      | PJSIP_RESPONSE_MSG code reason =>
          tsx_set_status_code t code (Some (TextReason reason));;
          drop_last_tx t tdata;;
          status ← tsx_send_msg t tdata;
          if negb (status =? PJ_SUCCESS) then mret status
          else
            x ← get_tsx t;
            (if PJSIP_IS_STATUS_IN_CLASS (status_code x) 100 then
               uas_provisional t tdata ev
             else if PJSIP_IS_STATUS_IN_CLASS (status_code x) 200 then
               uas_final_2xx t tdata ev
             else when (300 <=? status_code x) (uas_final_3xx t tdata ev));;
            mret PJ_SUCCESS
      end
  | PJSIP_EVENT_TIMER entry =>
      if Nat.eqb entry (retransmit_timer t) then tsx_retransmit t true
      else if Nat.eqb entry (timeout_timer t) then
        tsx_set_status_code t PJSIP_SC_TSX_TIMEOUT None;;
        tsx_set_state t PJSIP_TSX_STATE_TERMINATED ev 0;;
        mret PJ_EBUG
      else mret PJ_EBUG
  | _ => mret PJ_EBUG
  end.

(** State Trying is for UAS after it received request but before any
    responses is sent. *)
Definition tsx_on_state_trying (t : nat) (ev : pjsip_event) : M Z :=
  match ev with
  | PJSIP_EVENT_TX_MSG tdata =>
      status ← tsx_on_state_proceeding_uas t ev;
      x ← get_tsx t;
      when ((status =? PJ_SUCCESS) && bool_decide (state x = PJSIP_TSX_STATE_TRYING)) (
        tsx_set_state t PJSIP_TSX_STATE_PROCEEDING ev 0);;
      mret status
  | _ => mret PJ_SUCCESS
  end.

(** Handler for events in Completed state for UAS. *)
Definition tsx_on_state_completed_uas (t : nat) (ev : pjsip_event) : M Z :=
  match ev with
  | PJSIP_EVENT_RX_MSG rdata =>
      msg ← from_option (rx_msg rdata);
      match msg with
      | PJSIP_RESPONSE_MSG _ _ => mret PJSIP_ENOTREQUESTMSG
      | PJSIP_REQUEST_MSG m =>
          if bool_decide (m_id m <> PJSIP_ACK_METHOD) then tsx_retransmit t false
          else
            x ← get_tsx t;
            if bool_decide (m_id (method x) <> PJSIP_INVITE_METHOD)
            then mret PJSIP_EINVALIDMETHOD
            else
              tsx_cancel_timer (retransmit_timer t);;
              set_flag t (fun f => f <| TSX_HAS_PENDING_RESCHED := false |>);;
              w ← ask;
              restart_timeout t
                (final_timeout (is_reliable x) (t4_timer_val (settings w)));;
              tsx_set_state t PJSIP_TSX_STATE_CONFIRMED ev 0;;
              mret PJ_SUCCESS
      end
  | PJSIP_EVENT_TIMER entry =>
      if Nat.eqb entry (retransmit_timer t) then tsx_retransmit t true
      else
        x ← get_tsx t;
        when (bool_decide (m_id (method x) = PJSIP_INVITE_METHOD))
          (tsx_set_status_code t PJSIP_SC_TSX_TIMEOUT None);;
        tsx_set_state t PJSIP_TSX_STATE_TERMINATED
          (PJSIP_EVENT_TIMER (timeout_timer t)) 0;;
        mret PJ_SUCCESS
  | PJSIP_EVENT_TX_MSG tdata =>
      x ← get_tsx t;
      if bool_decide (Some tdata <> last_tx x) then mret PJ_EINVALIDOP
      else mret PJ_SUCCESS
  | _ => mret PJ_EINVALIDOP
  end.

(** Handler for events in Completed state for UAC transaction. *)
Definition tsx_on_state_completed_uac (t : nat) (ev : pjsip_event) : M Z :=
  match ev with
  | PJSIP_EVENT_TIMER entry =>
      if negb (Nat.eqb entry (timeout_timer t)) then mret PJ_SUCCESS
      else
        tsx_set_state t PJSIP_TSX_STATE_TERMINATED ev 0;;
        mret PJ_SUCCESS
  | PJSIP_EVENT_RX_MSG rdata =>
      x ← get_tsx t;
      if bool_decide (m_id (method x) = PJSIP_INVITE_METHOD) then
        msg ← from_option (rx_msg rdata);
        match msg with
        | PJSIP_RESPONSE_MSG code _ =>
            if 200 <=? code then tsx_retransmit t false else mret PJ_SUCCESS
        | PJSIP_REQUEST_MSG _ => mret PJ_SUCCESS
        end
      else mret PJ_SUCCESS
  | _ => mret PJ_EINVALIDOP
  end.

(** Handler for events in state Confirmed. *)
Definition tsx_on_state_confirmed (t : nat) (ev : pjsip_event) : M Z :=
  match ev with
  | PJSIP_EVENT_RX_MSG rdata =>
      msg ← from_option (rx_msg rdata);
      match msg with
      | PJSIP_RESPONSE_MSG _ _ => mret PJSIP_ENOTREQUESTMSG
      | PJSIP_REQUEST_MSG _ => mret PJ_SUCCESS
      end
  | PJSIP_EVENT_TIMER entry =>
      if Nat.eqb entry (retransmit_timer t) then mret PJ_SUCCESS
      else
        tsx_set_state t PJSIP_TSX_STATE_TERMINATED
          (PJSIP_EVENT_TIMER (timeout_timer t)) 0;;
        mret PJ_SUCCESS
  | _ => mret PJ_EBUG
  end.

(** Handler for events in state Terminated. *)
Definition tsx_on_state_terminated (t : nat) (ev : pjsip_event) : M Z :=
  match ev with
  | PJSIP_EVENT_TIMER _ =>
      tsx_set_state t PJSIP_TSX_STATE_DESTROYED ev 0;;
      mret PJ_SUCCESS
  | _ => mret PJ_EIGNORED
  end.

(** Handler for events in state Destroyed. *)
Definition tsx_on_state_destroyed (t : nat) (ev : pjsip_event) : M Z :=
  mret PJ_EIGNORED.

(** [( *tsx->state_handler)(tsx, event)] *)
Definition run_handler (h : tsx_handler) (t : nat) (ev : pjsip_event) : M Z :=
  match h with
  | tsx_on_state_null_h => tsx_on_state_null t ev
  | tsx_on_state_calling_h => tsx_on_state_calling t ev
  | tsx_on_state_trying_h => tsx_on_state_trying t ev
  | tsx_on_state_proceeding_uas_h => tsx_on_state_proceeding_uas t ev
  | tsx_on_state_proceeding_uac_h => tsx_on_state_proceeding_uac t ev
  | tsx_on_state_completed_uas_h => tsx_on_state_completed_uas t ev
  | tsx_on_state_completed_uac_h => tsx_on_state_completed_uac t ev
  | tsx_on_state_confirmed_h => tsx_on_state_confirmed t ev
  | tsx_on_state_terminated_h => tsx_on_state_terminated t ev
  | tsx_on_state_destroyed_h => tsx_on_state_destroyed t ev
  end.

Definition tsx_dispatch (t : nat) (ev : pjsip_event) : M Z :=
  x ← get_tsx t;
  h ← from_option (state_handler x);
  run_handler h t ev.

End Tsx.
