(* ===== verification/TsxApi.v ===== *)
(** * SIP transactions: the interface and the layer module

    The functions of [pjsip/src/pjsip/sip_transaction.c] that applications,
    the endpoint and the timer heap call: creation, sending and receiving,
    termination, the timer callback and the lookups of the layer module. *)

From S2P Require Import Prelude Monad TimeVal TimerSpec Hash PjString TsxData TsxEnv Tsx.
Local Open Scope Z_scope.

Section TsxApi.
Context {TW HT : Type} `{TS : !TimerService TW} `{KT : !KeyTable HT}.
Context {E : TsxEnv TW HT}.

#[local] Abbreviation W := (tsx_world TW HT).
#[local] Abbreviation M := (M (tsx_world TW HT)).

(** ** Timer expiry *)

(** A posted transport error or disconnection. *)
Definition on_transport_timer (t : nat) (tp_disc : bool) : M unit :=
  x ← get_tsx t;
  let prev_state := state x in
  tsx_update_transport t None;;
  x ← get_tsx t;
  if tp_disc && bool_decide (m_id (method x) = PJSIP_INVITE_METHOD)
     && bool_decide (role x = PJSIP_ROLE_UAS) && (status_code x <? 200)
     && negb (TSX_HAS_PENDING_TRANSPORT (transport_flag x))
     && negb (TSX_HAS_PENDING_DESTROY (transport_flag x))
  then
    upd_tsx t (fun x => x <| transport_flag := no_flags |> <| addr_len := 0 |>
      <| res_addr_transport := None |> <| res_addr_len := 0 |>)
  else
    when (status_code x <? 200)
      (tsx_set_status_code t PJSIP_SC_TSX_TRANSPORT_ERROR
         (Some (TextStrerror (transport_err x))));;
    tsx_set_state t PJSIP_TSX_STATE_TERMINATED (PJSIP_EVENT_TRANSPORT_ERROR None)
      (Z.lor NO_NOTIFY NO_SCHEDULE_HANDLER);;
    notify_state t (PJSIP_EVENT_TRANSPORT_ERROR None) prev_state;;
    tsx_schedule_timer (timeout_timer t) zero_time TIMEOUT_TIMER;;
    mret tt.

(** Callback when timer expires; [entry] is one of the two entries of the
    transaction. *)
Definition tsx_timer_callback (entry : nat) : M unit :=
  let t := entry_tsx entry in
  x ← get_tsx t;
  if negb (state_lt (state x) PJSIP_TSX_STATE_DESTROYED) then mret tt
  else
    id ← timer_id entry;
    if (id =? TRANSPORT_ERR_TIMER) || (id =? TRANSPORT_DISC_TIMER) then
      set_timer_id entry 0;;
      when (state_lt (state x) PJSIP_TSX_STATE_TERMINATED)
        (on_transport_timer t (id =? TRANSPORT_DISC_TIMER))
    else
      set_timer_id entry 0;;
      tsx_dispatch t (PJSIP_EVENT_TIMER entry);;
      mret tt.

(** ** Creation *)

(** The outcomes of the allocations of [tsx_create]. *)
Record tsx_alloc := mk_tsx_alloc {
  al_tsx : nat;           (* the address of the transaction *)
  al_pool : bool;
  al_lock : Z * nat;      (* pj_grp_lock_create_w_handler *)
  al_mutex : Z            (* pj_mutex_create_simple *)
}.

(** The structure after [PJ_POOL_ZALLOC_T] and the assignments that follow. *)
Definition tsx_zalloc (user : option nat) (lock : nat) : pjsip_transaction :=
  mk_tsx user false lock PJSIP_ROLE_UAC (mk_method PJSIP_INVITE_METHOD []) 0 [] 0 []
    0 TextNone PJSIP_TSX_STATE_NULL true None None false 0 None 0 no_flags 0 None
    None false None 0.

(** Create and initialize basic transaction structure. *)
Definition tsx_create (user : option nat) (glock : option nat) (al : tsx_alloc) : M Z :=
  if negb (al_pool al) then mret PJ_ENOMEM
  else
    let t := al_tsx al in
    match glock with
    | None => if negb (fst (al_lock al) =? PJ_SUCCESS) then mret (Some (fst (al_lock al)))
              else mret None
    | Some _ => mret None
    end ≫= fun failed : option Z =>
    match failed with
    | Some status => mret status
    | None =>
        let lock := match glock with Some l => l | None => snd (al_lock al) end in
        modify (fun w => w <| tsxs := <[t := tsx_zalloc user lock]> (tsxs w) |>
          <| timers := ts_new (ts_new (timers w) (retransmit_timer t)) (timeout_timer t) |>);;
        lock_add_ref t;;
        if negb (al_mutex al =? PJ_SUCCESS) then
          tsx_shutdown t;;
          mret (al_mutex al)
        else mret PJ_SUCCESS
    end.

(** The last steps of both creations: [tsx_shutdown] when the key is taken. *)
Definition register_or_shutdown (t : nat) : M Z :=
  status ← mod_tsx_layer_register_tsx t;
  when (negb (status =? PJ_SUCCESS)) (tsx_shutdown t;; mret tt);;
  mret status.

(** Generate Via header and branch parameter if they do not exist. *)
Definition uac_branch (td : nat) : M (list Z) :=
  d ← get_td td;
  let via := match td_via d with Some via => via | None => mk_via_hdr [] 0 [] end in
  upd_td td (fun d => d <| td_via := Some via |>);;
  if slen (via_branch via) =? 0 then
    w ← ask;
    let b := PJSIP_RFC3261_BRANCH_ID ++ [80; 106] ++ unique_string w in
    upd_td td (fun d => d <| td_via := Some (mk_via_hdr (via_host via) (via_port via) b) |>);;
    mret b
  else mret (via_branch via).

Definition pjsip_tsx_create_uac2 (user : option nat) (td : nat) (glock : option nat)
    (al : tsx_alloc) : M Z :=
  d ← get_td td;
  match td_msg d with
  | None => mret PJ_EINVAL
  | Some (PJSIP_RESPONSE_MSG _ _) => mret PJSIP_ENOTREQUESTMSG
  | Some (PJSIP_REQUEST_MSG m) =>
      if bool_decide (m_id m = PJSIP_ACK_METHOD) then mret PJ_EINVALIDOP
      else
        match td_cseq d with
        | None => mret PJSIP_EMISSINGHDR
        | Some cs =>
            status ← tsx_create user glock al;
            if negb (status =? PJ_SUCCESS) then mret status
            else
              let t := al_tsx al in
              upd_tsx t (fun x => x <| role := PJSIP_ROLE_UAC |> <| method := m |>
                                    <| cseq := cs_cseq cs |>);;
              br ← uac_branch td;
              let '(_, _, key) := create_tsx_key_3261 PJSIP_ROLE_UAC m br in
              upd_tsx t (fun x => x <| branch := br |> <| transaction_key := key |>
                <| hashed_key := kt_hash key |> <| state := PJSIP_TSX_STATE_NULL |>
                <| state_handler := Some tsx_on_state_null_h |>
                <| last_tx := Some td |>);;
              emit (OutAddRef (RefTdata td));;
              w ← ask;
              let '(status, reliable) := get_request_dest w td in
              if negb (status =? PJ_SUCCESS) then
                tsx_shutdown t;; mret status
              else
                upd_tsx t (fun x => x <| is_reliable := reliable |>);;
                register_or_shutdown t
        end
  end.

Definition pjsip_tsx_create_uac (user : option nat) (td : nat) (al : tsx_alloc) : M Z :=
  pjsip_tsx_create_uac2 user td None al.

(** Keeping the transport the request came from, if the response is to use
    it. *)
Definition uas_response_addr (t : nat) (rdata : pjsip_rx_data) : M Z :=
  w ← ask;
  let '(status, tp, len, reliable) := get_response_addr w rdata in
  upd_tsx t (fun x => x <| res_addr_transport := tp |> <| res_addr_len := len |>);;
  if negb (status =? PJ_SUCCESS) then mret status
  else
    match tp with
    | Some p =>
        tsx_update_transport t (Some p);;
        upd_tsx t (fun x => x <| addr_len := len |> <| is_reliable := tp_reliable p |>)
    | None => upd_tsx t (fun x => x <| is_reliable := reliable |>)
    end;;
    mret PJ_SUCCESS.

Definition pjsip_tsx_create_uas2 (user : option nat) (rdata : pjsip_rx_data)
    (glock : option nat) (al : tsx_alloc) : M Z :=
  match rx_msg rdata with
  | None => mret PJ_EINVAL
  | Some (PJSIP_RESPONSE_MSG _ _) => mret PJSIP_ENOTREQUESTMSG
  | Some (PJSIP_REQUEST_MSG m) =>
      if bool_decide (m_id m = PJSIP_ACK_METHOD) then mret PJ_EINVALIDOP
      else
        match rx_cseq rdata, rx_via rdata with
        | None, _ | _, None => mret PJSIP_EMISSINGHDR
        | Some cs, Some via =>
            if negb (pjsip_method_cmp m (cs_method cs) =? 0) then mret PJSIP_EINVALIDHDR
            else
              status ← tsx_create user glock al;
              if negb (status =? PJ_SUCCESS) then mret status
              else
                let t := al_tsx al in
                upd_tsx t (fun x => x <| role := PJSIP_ROLE_UAS |> <| method := m |>
                                      <| cseq := cs_cseq cs |>);;
                k ← from_option (pjsip_tsx_create_key PJSIP_ROLE_UAS m rdata);
                let '(status, _, key) := k : Z * Z * list Z in
                if negb (status =? PJ_SUCCESS) then
                  tsx_shutdown t;; mret status
                else
                  upd_tsx t (fun x => x <| transaction_key := key |>
                    <| hashed_key := kt_hash key |> <| branch := via_branch via |>
                    <| state := PJSIP_TSX_STATE_NULL |>
                    <| state_handler := Some tsx_on_state_null_h |>);;
                  status ← uas_response_addr t rdata;
                  if negb (status =? PJ_SUCCESS) then
                    tsx_shutdown t;; mret status
                  else
                    status ← register_or_shutdown t;
                    when (status =? PJ_SUCCESS) (emit (OutRdataTsx (rx_id rdata) t));;
                    mret status
        end
  end.

Definition pjsip_tsx_create_uas (user : option nat) (rdata : pjsip_rx_data)
    (al : tsx_alloc) : M Z :=
  pjsip_tsx_create_uas2 user rdata None al.

(** ** Calls of the transaction user *)

Definition pjsip_tsx_set_transport (t : nat) (sel : option nat) : M Z :=
  x ← get_tsx t;
  emit_opt (fun s => OutDecRef (RefTpsel s)) (tp_sel x);;
  upd_tsx t (fun x => x <| tp_sel := sel |>);;
  emit_opt (fun s => OutAddRef (RefTpsel s)) sel;;
  mret PJ_SUCCESS.

Definition pjsip_tsx_terminate (t : nat) (code : Z) : M Z :=
  if negb (200 <=? code) then mret PJ_EINVAL
  else
    x ← get_tsx t;
    when (state_lt (state x) PJSIP_TSX_STATE_TERMINATED) (
      tsx_set_status_code t code None;;
      tsx_set_state t PJSIP_TSX_STATE_TERMINATED PJSIP_EVENT_USER 0);;
    mret PJ_SUCCESS.

Definition pjsip_tsx_stop_retransmit (t : nat) : M Z :=
  x ← get_tsx t;
  if negb (bool_decide (role x = PJSIP_ROLE_UAC)
           && bool_decide (m_id (method x) = PJSIP_INVITE_METHOD))
  then mret PJ_EINVALIDOP
  else
    tsx_cancel_timer (retransmit_timer t);;
    mret PJ_SUCCESS.

Definition pjsip_tsx_set_timeout (t : nat) (millisec : Z) : M Z :=
  x ← get_tsx t;
  if negb (bool_decide (role x = PJSIP_ROLE_UAC)
           && bool_decide (m_id (method x) = PJSIP_INVITE_METHOD))
  then mret PJ_EINVALIDOP
  else
    id ← timer_id (timeout_timer t);
    if (200 <=? status_code x) && negb (id =? 0) then mret PJ_EEXISTS
    else
      restart_timeout t (pj_time_val_normalize (mk_time_val 0 millisec));;
      mret PJ_SUCCESS.

Definition pjsip_tsx_send_msg (t : nat) (tdata : option nat) : M Z :=
  x ← get_tsx t;
  match (match tdata with Some td => Some td | None => last_tx x end) with
  | None => mret PJ_EINVALIDOP
  | Some td =>
      emit (OutSetTransport td (tp_sel x));;
      status ← tsx_dispatch t (PJSIP_EVENT_TX_MSG td);
      when (status =? PJ_SUCCESS) (emit (OutDecRef (RefTdata td)));;
      mret status
  end.

Definition pjsip_tsx_recv_msg (t : nat) (rdata : pjsip_rx_data) : M unit :=
  emit (OutRdataTsx (rx_id rdata) t);;
  tsx_dispatch t (PJSIP_EVENT_RX_MSG rdata);;
  mret tt.

(** ** The layer module *)

Definition pjsip_tsx_layer_get_tsx_count : M Z :=
  w ← ask;
  mret (if has_endpt w then Z.of_nat (kt_count (htable w)) else 0).

(** [find_tsx]: without [add_ref] the reference taken during the lookup is
    dropped again. *)
Definition find_tsx (key : list Z) (add_ref : bool) : M (option nat) :=
  w ← ask;
  found ← from_option (kt_get (htable w) key);
  match found with
  | None => mret None
  | Some t =>
      lock_add_ref t;;
      when (negb add_ref) (lock_dec_ref t);;
      mret (Some t)
  end.

Definition pjsip_tsx_layer_find_tsx (key : list Z) : M (option nat) := find_tsx key false.
Definition pjsip_tsx_layer_find_tsx2 (key : list Z) (add_ref : bool) : M (option nat) :=
  find_tsx key add_ref.

(** [mod_tsx_layer_on_rx_request] and [mod_tsx_layer_on_rx_response] differ in
    the role of the key only.  Without a key (a header is missing) the code
    would look up an uninitialised string. *)
Definition mod_tsx_layer_on_rx (r : pjsip_role_e) (rdata : pjsip_rx_data) : M bool :=
  cs ← from_option (rx_cseq rdata);
  k ← from_option (pjsip_tsx_create_key r (cs_method cs) rdata);
  let '(status, _, key) := k : Z * Z * list Z in
  if negb (status =? PJ_SUCCESS) then undefined
  else
    w ← ask;
    found ← from_option (kt_get (htable w) key);
    match found with
    | None => mret false
    | Some t =>
        x ← get_tsx t;
        if bool_decide (state x = PJSIP_TSX_STATE_TERMINATED) then mret false
        else
          lock_add_ref t;;
          pjsip_tsx_recv_msg t rdata;;
          lock_dec_ref t;;
          mret true
    end.

Definition mod_tsx_layer_on_rx_request (rdata : pjsip_rx_data) : M bool :=
  mod_tsx_layer_on_rx PJSIP_ROLE_UAS rdata.
Definition mod_tsx_layer_on_rx_response (rdata : pjsip_rx_data) : M bool :=
  mod_tsx_layer_on_rx PJSIP_ROLE_UAC rdata.

End TsxApi.
