(* ===== verification/TsxInv.v ===== *)
(** * SIP transactions: the invariant and the primitive steps

    [tsx_inv] is what holds of the world whenever another component runs;
    [evolves] is what a step of the layer or a callback of a transaction user
    may do to it: transactions keep their identity, their state never goes
    back, and a transaction that needs its timeout timer keeps it.  The
    lemmas prove [evolves] for the primitive operations. *)

From S2P Require Import Prelude Monad TimeVal TimerSpec Hash TsxData TsxEnv Tsx TsxApi.
Local Open Scope Z_scope.

(** ** Definitions *)

Definition state_le (a b : pjsip_tsx_state_e) : Prop := state_index a <= state_index b.

Definition handler_of (r : pjsip_role_e) (s : pjsip_tsx_state_e) : option tsx_handler :=
  if bool_decide (r = PJSIP_ROLE_UAC) then tsx_state_handler_uac s
  else tsx_state_handler_uas s.

(** The timeout timer must run after the final response, and from the start
    for a non-INVITE client transaction. *)
Definition needs_timer (x : pjsip_transaction) : bool :=
  match state x with
  | PJSIP_TSX_STATE_COMPLETED | PJSIP_TSX_STATE_CONFIRMED
  | PJSIP_TSX_STATE_TERMINATED => true
  | PJSIP_TSX_STATE_CALLING | PJSIP_TSX_STATE_PROCEEDING =>
      bool_decide (role x = PJSIP_ROLE_UAC)
      && bool_decide (m_id (method x) <> PJSIP_INVITE_METHOD)
  | _ => false
  end.

(** A transaction whose construction is over. *)
Record tsx_ok {TW HT} `{TS : !TimerService TW} `{KT : !KeyTable HT}
    (x : pjsip_transaction) : Prop := mk_tsx_ok {
  to_key : kt_key (transaction_key x);
  to_hash : hashed_key x = kt_hash (transaction_key x);
  to_handler : state_handler x = handler_of (role x) (state x);
  to_destroy : TSX_HAS_PENDING_DESTROY (transport_flag x) = true ->
    state x = PJSIP_TSX_STATE_DESTROYED;
  to_send : state_lt (state x) PJSIP_TSX_STATE_TERMINATED = true ->
    TSX_HAS_PENDING_SEND (transport_flag x) = true ->
    TSX_HAS_PENDING_TRANSPORT (transport_flag x) = true \/ transport_err x <> 0;
  to_status : role x = PJSIP_ROLE_UAS ->
    (state x = PJSIP_TSX_STATE_COMPLETED \/ state x = PJSIP_TSX_STATE_CONFIRMED) ->
    200 <= status_code x
}.
Arguments tsx_ok TW HT {TS KT}.

Definition td_ok (d : pjsip_tx_data) : Prop := is_Some (td_msg d) /\ is_Some (td_cseq d).

(** What never changes of a transaction, and what only grows. *)
Record tsx_le (x y : pjsip_transaction) : Prop := mk_tsx_le {
  tl_role : role y = role x;
  tl_method : method y = method x;
  tl_key : transaction_key y = transaction_key x;
  tl_hash : hashed_key y = hashed_key x;
  tl_state : state_le (state x) (state y);
  tl_err : transport_err x <> 0 -> transport_err y <> 0;
  tl_handler : state_handler y <> None
}.

Section Inv.
Context {TW HT : Type} `{TS : !TimerService TW} `{KT : !KeyTable HT}.

#[local] Abbreviation W := (tsx_world TW HT).

(** The pointers of a transaction. *)
Record tsx_base (w : W) (t : nat) (x : pjsip_transaction) : Prop := mk_tsx_base {
  tb_retransmit : is_Some (ts_id (timers w) !! retransmit_timer t);
  tb_timeout : is_Some (ts_id (timers w) !! timeout_timer t);
  tb_last_tx : forall td, last_tx x = Some td -> is_Some (tdatas w !! td);
  tb_pending_tx : forall td, pending_tx x = Some td -> is_Some (tdatas w !! td);
  tb_ok : state_handler x <> None -> tsx_ok TW HT x
}.

Record tsx_inv (w : W) : Prop := mk_tsx_inv {
  ti_timers : ts_ok (timers w);
  ti_table : kt_ok (htable w);
  ti_mod : 0 <= mod_id w;
  ti_td : map_Forall (fun _ d => td_ok d) (tdatas w);
  ti_tsx : map_Forall (tsx_base w) (tsxs w);
  ti_reg : forall k t, kt_map (htable w) !! k = Some t ->
    exists x, tsxs w !! t = Some x /\ kt_canon (transaction_key x) = k /\
              state_handler x <> None
}.

(** Neither timer of [t] runs. *)
Definition tsx_idle (w : W) (t : nat) : Prop :=
  ts_armed (timers w) !! retransmit_timer t = None /\
  ts_armed (timers w) !! timeout_timer t = None.

(** The timeout timer of [t] is running; after the final response it is not
    a posted transport event. *)
Definition guarded (t : nat) (s : pjsip_tsx_state_e) (w : W) : Prop :=
  is_Some (ts_armed (timers w) !! timeout_timer t) /\
  (state_le PJSIP_TSX_STATE_COMPLETED s ->
   ts_id (timers w) !! timeout_timer t = Some TIMEOUT_TIMER).

Definition no_zombie (w : W) (t : nat) : Prop :=
  forall x, tsxs w !! t = Some x -> state_handler x <> None ->
    needs_timer x = true -> guarded t (state x) w.

(** A timeout timer that runs after the final response is not a posted
    transport event. *)
Definition posted_ok (w : W) (t : nat) : Prop :=
  forall x, tsxs w !! t = Some x -> state_handler x <> None ->
    state_le PJSIP_TSX_STATE_COMPLETED (state x) -> state x <> PJSIP_TSX_STATE_DESTROYED ->
    is_Some (ts_armed (timers w) !! timeout_timer t) ->
    ts_id (timers w) !! timeout_timer t = Some TIMEOUT_TIMER.

(** [ex] is a transaction exempt from the timer requirements. *)
Record evolves (ex : option nat) (w w' : W) : Prop := mk_evolves {
  ev_inv : tsx_inv w';
  ev_tsx : forall t x, tsxs w !! t = Some x -> state_handler x <> None ->
    exists y, tsxs w' !! t = Some y /\ tsx_le x y;
  ev_zombie : forall t, ex <> Some t -> no_zombie w t -> no_zombie w' t;
  ev_posted : forall t, ex <> Some t -> posted_ok w t -> posted_ok w' t;
  ev_td : forall td, is_Some (tdatas w !! td) -> is_Some (tdatas w' !! td)
}.

(** No transaction is destroyed. *)
Definition keeps_alive (w w' : W) : Prop := forall t x y,
  tsxs w !! t = Some x -> tsxs w' !! t = Some y ->
  state x <> PJSIP_TSX_STATE_DESTROYED -> state y <> PJSIP_TSX_STATE_DESTROYED.

(** What the theorems assume of the environment: callbacks of transaction
    users do what the functions they may call do (only timers and transports
    destroy transactions), a transmission that succeeded names its transport
    and one that failed its error, and messages have the headers the code
    reads. *)
Definition notify_ok (n : send_notify) : Prop :=
  sn_sent n <> 0 /\ (0 < sn_sent n -> sn_transport n <> None).

Record env_ok (E : TsxEnv TW HT) : Prop := mk_env_ok {
  eo_rx : forall u cb rdata w, on_rx_response u = Some cb -> tsx_inv w ->
    evolves None w (cb rdata w) /\ keeps_alive w (cb rdata w);
  eo_state : forall u cb t src prev w, on_tsx_state u = Some cb -> tsx_inv w ->
    evolves None w (cb t src prev w) /\ keeps_alive w (cb t src prev w);
  eo_request : forall w td, Forall notify_ok (send_request_stateless w td).2;
  eo_response : forall w td, Forall notify_ok (send_response_stateless w td).2;
  eo_ack : forall w td rdata, td_ok (create_ack w td rdata).2
}.

(** ** Lemmas: the preorder *)

Lemma state_le_refl s : state_le s s.
Proof. unfold state_le. lia. Qed.

Lemma state_le_trans a b c : state_le a b -> state_le b c -> state_le a c.
Proof. unfold state_le. lia. Qed.

Lemma tsx_le_refl x : state_handler x <> None -> tsx_le x x.
Proof. split; auto using state_le_refl. Qed.

Lemma tsx_le_trans x y z : tsx_le x y -> tsx_le y z -> tsx_le x z.
Proof.
  intros [] []. split; try congruence; eauto using state_le_trans.
Qed.

Lemma evolves_refl ex w : tsx_inv w -> evolves ex w w.
Proof. split; eauto using tsx_le_refl. Qed.

Lemma evolves_trans ex w1 w2 w3 :
  evolves ex w1 w2 -> evolves ex w2 w3 -> evolves ex w1 w3.
Proof.
  intros H1 H2. split; [apply H2| |..].
  - intros t x Hx Hh. destruct (ev_tsx _ _ _ H1 t x Hx Hh) as (y & Hy & Hle).
    destruct (ev_tsx _ _ _ H2 t y Hy (tl_handler _ _ Hle)) as (z & Hz & Hle').
    exists z. eauto using tsx_le_trans.
  - intros t Ht Hn. eapply ev_zombie, ev_zombie; eauto.
  - intros t Ht Hn. eapply ev_posted, ev_posted; eauto.
  - intros td Htd. eapply ev_td, ev_td; eauto.
Qed.

Lemma evolves_weaken ex w w' : evolves None w w' -> evolves ex w w'.
Proof. intros []. split; auto. Qed.

(** The requirement implies the weaker one. *)
Lemma no_zombie_posted w t : no_zombie w t -> posted_ok w t.
Proof.
  intros Hz x Hx Hh Hle Hne _. destruct (Hz x Hx Hh) as [_ Hid]; [|auto].
  unfold needs_timer, state_le in *. by destruct (state x).
Qed.

Lemma evolves_keep t w w' :
  evolves (Some t) w w' -> (no_zombie w t -> no_zombie w' t) ->
  (posted_ok w t -> posted_ok w' t) -> evolves None w w'.
Proof.
  intros [] Hn Hp. split; auto; intros t' _ H';
    (destruct (decide (t' = t)) as [->|]; [by auto|]); [apply ev_zombie0|apply ev_posted0];
    try done; congruence.
Qed.

Lemma evolves_close t w w' : evolves (Some t) w w' -> no_zombie w' t -> evolves None w w'.
Proof.
  intros H Hn. apply (evolves_keep t); [done|done|]. intros _. by apply no_zombie_posted.
Qed.

(** The timeout timer of [t] is as it was. *)
Definition same_timeout (t : nat) (w w' : W) : Prop :=
  ts_armed (timers w') !! timeout_timer t = ts_armed (timers w) !! timeout_timer t /\
  ts_id (timers w') !! timeout_timer t = ts_id (timers w) !! timeout_timer t.

Lemma same_timeout_guarded t s w w' : same_timeout t w w' -> guarded t s w -> guarded t s w'.
Proof. unfold guarded. by intros [-> ->]. Qed.

(** The requirements depend on the transaction and its timeout timer. *)
Lemma untouched t (w w' : W) :
  tsxs w' !! t = tsxs w !! t -> same_timeout t w w' ->
  (no_zombie w t -> no_zombie w' t) /\ (posted_ok w t -> posted_ok w' t).
Proof.
  intros Ex Hs. split.
  - intros Hz x Hx Hh Hn. rewrite Ex in Hx. eapply same_timeout_guarded; [done|].
    by apply Hz.
  - intros Hp x Hx Hh Hl Hne. rewrite Ex in Hx. destruct Hs as [-> ->]. by apply (Hp x).
Qed.

Lemma timer_entries_ne t t' :
  t <> t' -> timeout_timer t <> timeout_timer t' /\ timeout_timer t <> retransmit_timer t' /\
    retransmit_timer t <> retransmit_timer t' /\ retransmit_timer t <> timeout_timer t'.
Proof. unfold timeout_timer, retransmit_timer. lia. Qed.

Lemma timer_entries_ne_self t : timeout_timer t <> retransmit_timer t.
Proof. unfold timeout_timer, retransmit_timer. lia. Qed.

(** A change of transaction [t], its timers and messages. *)
Lemma evolves_local t x y (w w' : W) :
  tsx_inv w -> tsxs w !! t = Some x ->
  tsxs w' = <[t := y]> (tsxs w) -> htable w' = htable w -> mod_id w' = mod_id w ->
  map_Forall (fun _ d => td_ok d) (tdatas w') ->
  (forall td, is_Some (tdatas w !! td) -> is_Some (tdatas w' !! td)) ->
  ts_ok (timers w') ->
  (forall e, is_Some (ts_id (timers w) !! e) -> is_Some (ts_id (timers w') !! e)) ->
  (forall e, e <> timeout_timer t -> e <> retransmit_timer t ->
     ts_armed (timers w') !! e = ts_armed (timers w) !! e /\
     ts_id (timers w') !! e = ts_id (timers w) !! e) ->
  tsx_base w' t y -> (state_handler x <> None -> tsx_le x y) ->
  evolves (Some t) w w'.
Proof.
  intros [Htm Htb Hmod Htd Htx Hreg] Hx Etx Eht Emod Htd' Hdom Htm' Hid Hoth Hb Hle.
  split; [split|..].
  - done.
  - by rewrite Eht.
  - by rewrite Emod.
  - done.
  - rewrite Etx. intros t' x' Hx'. rewrite lookup_insert in Hx'. case_decide; [by simplify_eq|].
    destruct (Htx _ _ Hx') as []. split; eauto.
  - rewrite Eht, Etx. intros k t' Hk. destruct (Hreg _ _ Hk) as (x' & Hx' & Hk' & Hh').
    destruct (decide (t = t')) as [<-|].
    + exists y. rewrite lookup_insert_eq. assert (x' = x) as -> by congruence.
      specialize (Hle Hh'). split; [done|]. rewrite (tl_key _ _ Hle). eauto using tl_handler.
    + exists x'. by rewrite lookup_insert_ne.
  - rewrite Etx. intros t' x' Hx' Hh'. destruct (decide (t = t')) as [<-|].
    + exists y. rewrite lookup_insert_eq. assert (x' = x) as -> by congruence. auto.
    + exists x'. rewrite lookup_insert_ne by done. eauto using tsx_le_refl.
  - intros t' Hne. assert (t <> t') by congruence.
    destruct (timer_entries_ne t' t) as (? & ? & _); [done|].
    apply (untouched t' w w'); [by rewrite Etx, lookup_insert_ne|by apply Hoth].
  - intros t' Hne. assert (t <> t') by congruence.
    destruct (timer_entries_ne t' t) as (? & ? & _); [done|].
    apply (untouched t' w w'); [by rewrite Etx, lookup_insert_ne|by apply Hoth].
  - done.
Qed.

Lemma no_zombie_at t x w :
  tsxs w !! t = Some x ->
  (state_handler x <> None -> needs_timer x = true -> guarded t (state x) w) ->
  no_zombie w t.
Proof. intros Hx H y Hy Hh Hn. assert (y = x) as -> by congruence. auto. Qed.

Lemma inv_base t x w : tsx_inv w -> tsxs w !! t = Some x -> tsx_base w t x.
Proof. intros H Hx. exact (ti_tsx _ H t x Hx). Qed.

Lemma inv_ok t x w :
  tsx_inv w -> tsxs w !! t = Some x -> state_handler x <> None -> tsx_ok TW HT x.
Proof. intros H Hx. apply (inv_base t x w H Hx). Qed.

End Inv.

#[export] Hint Resolve tsx_le_refl state_le_refl evolves_refl evolves_weaken : pj.

(** ** Primitive operations *)

Section Primitives.
Context {TW HT : Type} `{TS : !TimerService TW} `{KT : !KeyTable HT}.
Context {E : TsxEnv TW HT}.

#[local] Abbreviation W := (tsx_world TW HT).

Lemma wp_get_tsx t x (Q : pjsip_transaction -> W -> Prop) w :
  tsxs w !! t = Some x -> Q x w -> wp (get_tsx t) Q w.
Proof. intros Hx H. unfold wp, get_tsx. by rewrite Hx. Qed.

Lemma wp_get_td td d (Q : pjsip_tx_data -> W -> Prop) w :
  tdatas w !! td = Some d -> Q d w -> wp (get_td td) Q w.
Proof. intros Hx H. unfold wp, get_td. by rewrite Hx. Qed.

Lemma wp_emit o (Q : unit -> W -> Prop) w :
  Q tt (w <| out := out w ++ [o] |>) -> wp (emit o) Q w.
Proof. done. Qed.

(** A field of [*tsx] other than its identity and state is assigned. *)
Record same_core (x y : pjsip_transaction) : Prop := mk_same_core {
  sc_role : role y = role x;
  sc_method : method y = method x;
  sc_key : transaction_key y = transaction_key x;
  sc_hash : hashed_key y = hashed_key x;
  sc_state : state y = state x;
  sc_handler : state_handler y = state_handler x
}.

Record same_outside (t : nat) (w w' : W) : Prop := mk_same_outside {
  so_timers : timers w' = timers w;
  so_tdatas : tdatas w' = tdatas w;
  so_settings : settings w' = settings w;
  so_htable : htable w' = htable w
}.

Lemma guarded_timers t s (w w' : W) : timers w' = timers w -> guarded t s w -> guarded t s w'.
Proof. unfold guarded. by intros ->. Qed.

Lemma evolves_upd_tsx t x y (w : W) :
  tsx_inv w -> tsxs w !! t = Some x ->
  same_core x y -> (transport_err x <> 0 -> transport_err y <> 0) ->
  (state_handler x <> None -> tsx_ok TW HT y) ->
  (forall td, last_tx y = Some td -> is_Some (tdatas w !! td)) ->
  (forall td, pending_tx y = Some td -> is_Some (tdatas w !! td)) ->
  evolves None w (w <| tsxs := <[t := y]> (tsxs w) |>).
Proof.
  intros HI Hx Hc He Hok Hl Hp. set (w' := w <| tsxs := _ |>).
  assert (Hx' : tsxs w' !! t = Some y) by apply lookup_insert_eq.
  apply (evolves_keep t).
  - pose proof (inv_base _ _ _ HI Hx) as []. destruct Hc as [H1 H2 H3 H4 H5 H6].
    apply (evolves_local t x y); try done; try apply HI.
    + split; try done. rewrite H6. auto.
    + intros Hh. split; try done; unfold state_le; rewrite ?H5, ?H6; done || lia.
  - intros Hn. apply (no_zombie_at t y); [done|]. destruct Hc as [H1 H2 _ _ H5 H6].
    unfold needs_timer. rewrite H1, H2, H5, H6. intros Hh H.
    apply (guarded_timers t _ w); [done|]. by apply Hn.
  - intros Hpo z Hz Hhz. assert (z = y) as -> by congruence.
    rewrite (sc_handler _ _ Hc) in Hhz. rewrite (sc_state _ _ Hc). by apply (Hpo x).
Qed.

Lemma wp_upd_tsx t f x (Q : unit -> W -> Prop) w :
  tsx_inv w -> tsxs w !! t = Some x ->
  same_core x (f x) -> (transport_err x <> 0 -> transport_err (f x) <> 0) ->
  (state_handler x <> None -> tsx_ok TW HT (f x)) ->
  (forall td, last_tx (f x) = Some td -> is_Some (tdatas w !! td)) ->
  (forall td, pending_tx (f x) = Some td -> is_Some (tdatas w !! td)) ->
  (forall w', evolves None w w' -> tsxs w' !! t = Some (f x) -> same_outside t w w' ->
     Q tt w') ->
  wp (upd_tsx t f) Q w.
Proof.
  intros HI Hx Hc He Hok Hl Hp HQ. unfold wp, upd_tsx. rewrite Hx. cbn.
  apply HQ; [by apply (evolves_upd_tsx t x)|apply lookup_insert_eq|done].
Qed.

(** Only the log, the clock or messages change. *)
Lemma evolves_outside (w w' : W) :
  tsx_inv w -> tsxs w' = tsxs w -> timers w' = timers w -> htable w' = htable w ->
  mod_id w' = mod_id w -> map_Forall (fun _ d => td_ok d) (tdatas w') ->
  (forall td, is_Some (tdatas w !! td) -> is_Some (tdatas w' !! td)) ->
  evolves None w w'.
Proof.
  intros [Htm Htb Hmod Htd Htx Hreg] E1 E2 E3 E4 Htd' Hdom. split; [split|..].
  - by rewrite E2.
  - by rewrite E3.
  - by rewrite E4.
  - done.
  - rewrite E1. intros t x Hx. destruct (Htx _ _ Hx) as []. split; rewrite ?E2; eauto.
  - by rewrite E3, E1.
  - rewrite E1. eauto using tsx_le_refl.
  - intros t _. apply (untouched t w w'); [by rewrite E1|]. split; by rewrite E2.
  - intros t _. apply (untouched t w w'); [by rewrite E1|]. split; by rewrite E2.
  - done.
Qed.

Lemma evolves_emit (w : W) o : tsx_inv w -> evolves None w (w <| out := out w ++ [o] |>).
Proof. intros H. apply evolves_outside; try done. apply H. Qed.

Lemma wp_upd_td td f d (Q : unit -> W -> Prop) w :
  tsx_inv w -> tdatas w !! td = Some d -> td_ok (f d) ->
  (forall w', evolves None w w' -> tsxs w' = tsxs w -> timers w' = timers w ->
     settings w' = settings w -> Q tt w') ->
  wp (upd_td td f) Q w.
Proof.
  intros HI Hd Hok HQ. unfold wp, upd_td. rewrite Hd. cbn.
  apply HQ; [|done..]. apply evolves_outside; try done.
  - apply map_Forall_insert_2; [done|]. apply HI.
  - intros td' Htd. cbn. rewrite lookup_insert. case_decide; [by eexists|done].
Qed.

Lemma evolves_timers t tw (w : W) :
  tsx_inv w -> ts_ok tw ->
  (forall e, is_Some (ts_id (timers w) !! e) -> is_Some (ts_id tw !! e)) ->
  (forall e, e <> timeout_timer t -> e <> retransmit_timer t ->
     ts_armed tw !! e = ts_armed (timers w) !! e /\ ts_id tw !! e = ts_id (timers w) !! e) ->
  evolves (Some t) w (w <| timers := tw |>).
Proof.
  intros [Htm Htb Hmod Htd Htx Hreg] Hok Hid Hoth.
  assert (Et : timers (w <| timers := tw |>) = tw) by done.
  split; [split|..]; try done.
  - intros t' x' Hx'. destruct (Htx _ _ Hx') as []. split; rewrite ?Et; eauto.
  - eauto using tsx_le_refl.
  - intros t' Hne. destruct (timer_entries_ne t' t) as (? & ? & _); [congruence|].
    eapply untouched; [done|]. by apply Hoth.
  - intros t' Hne. destruct (timer_entries_ne t' t) as (? & ? & _); [congruence|].
    eapply untouched; [done|]. by apply Hoth.
Qed.

Lemma same_outside_timeout t w w' : same_outside t w w' -> same_timeout t w w'.
Proof. intros [H _ _ _]. unfold same_timeout. by rewrite H. Qed.

(** Keeping the requirement of [t] when only its transaction's core and its
    timeout timer matter. *)
Lemma evolves_same_timeout t (w w' : W) :
  evolves (Some t) w w' -> tsxs w' = tsxs w -> same_timeout t w w' -> evolves None w w'.
Proof.
  intros Hev Ex Hs. destruct (untouched t w w'); [by rewrite Ex|done|].
  by apply (evolves_keep t).
Qed.

Lemma wp_cancel_retransmit t x (Q : Z -> W -> Prop) w :
  tsx_inv w -> tsxs w !! t = Some x ->
  (forall n w', evolves None w w' -> tsxs w' = tsxs w -> same_timeout t w w' ->
     settings w' = settings w -> ts_armed (timers w') !! retransmit_timer t = None ->
     Q n w') ->
  wp (tsx_cancel_timer (retransmit_timer t)) Q w.
Proof.
  intros HI Hx HQ. pose proof (inv_base _ _ _ HI Hx) as Hb.
  destruct (ts_cancel_ok (timers w) (retransmit_timer t) TIMER_INACTIVE (ti_timers _ HI)
    (tb_retransmit _ _ _ Hb)) as (tw & Hc & Hok & Ha & Hi).
  unfold wp, tsx_cancel_timer. rewrite Hc. cbn.
  assert (Hne := timer_entries_ne_self t).
  assert (Hids : forall e, is_Some (ts_id (timers w) !! e) -> is_Some (ts_id tw !! e)).
  { intros e He. rewrite Hi. case_bool_decide; [|done].
    rewrite lookup_insert. by case_decide. }
  assert (Hs : same_timeout t w (w <| timers := tw |>)).
  { split; change (timers (w <| timers := tw |>)) with tw.
    - by rewrite Ha, lookup_delete_ne.
    - rewrite Hi. case_bool_decide; [|done]. by rewrite lookup_insert_ne. }
  apply HQ; try done;
    [|change (ts_armed tw !! retransmit_timer t = None); by rewrite Ha, lookup_delete_eq].
  apply (evolves_same_timeout t); [|done|done]. apply evolves_timers; [done..|].
  intros e H1 H2. split; [by rewrite Ha, lookup_delete_ne|].
  rewrite Hi. case_bool_decide; [|done]. by rewrite lookup_insert_ne.
Qed.

Lemma wp_cancel_timeout t x (Q : Z -> W -> Prop) w :
  tsx_inv w -> tsxs w !! t = Some x ->
  (forall n w', evolves (Some t) w w' -> tsxs w' = tsxs w ->
     settings w' = settings w -> ts_armed (timers w') !! timeout_timer t = None ->
     Q n w') ->
  wp (tsx_cancel_timer (timeout_timer t)) Q w.
Proof.
  intros HI Hx HQ. pose proof (inv_base _ _ _ HI Hx) as Hb.
  destruct (ts_cancel_ok (timers w) (timeout_timer t) TIMER_INACTIVE (ti_timers _ HI)
    (tb_timeout _ _ _ Hb)) as (tw & Hc & Hok & Ha & Hi).
  unfold wp, tsx_cancel_timer. rewrite Hc. cbn.
  apply HQ; try done;
    [|change (ts_armed tw !! timeout_timer t = None); by rewrite Ha, lookup_delete_eq].
  apply evolves_timers; [done..| |].
  - intros e He. rewrite Hi. case_bool_decide; [|done].
    rewrite lookup_insert. by case_decide.
  - intros e H1 H2. split; [by rewrite Ha, lookup_delete_ne|].
    rewrite Hi. case_bool_decide; [|done]. by rewrite lookup_insert_ne.
Qed.

(** Scheduling: an armed entry is left alone. *)
Lemma schedule_cases (w : W) e delay id :
  tsx_inv w -> is_Some (ts_id (timers w) !! e) ->
  exists r tw, tsx_schedule_timer e delay id w = Some (r, w <| timers := tw |>) /\
    ts_ok tw /\ is_Some (ts_armed tw !! e) /\
    (forall e', e' <> e -> ts_armed tw !! e' = ts_armed (timers w) !! e' /\
                           ts_id tw !! e' = ts_id (timers w) !! e') /\
    (ts_armed (timers w) !! e = None -> r = PJ_SUCCESS /\
       ts_armed tw !! e = Some (PJ_TIME_VAL_ADD (now w) delay) /\ ts_id tw !! e = Some id) /\
    (is_Some (ts_armed (timers w) !! e) -> tw = timers w) /\
    is_Some (ts_id tw !! e).
Proof.
  intros HI He. unfold tsx_schedule_timer.
  destruct (ts_armed (timers w) !! e) as [d|] eqn:Ha.
  - rewrite (ts_schedule_armed (timers w) (now w) e delay id (ti_timers _ HI) He) by by rewrite Ha.
    exists PJ_EINVALIDOP, (timers w). cbn. rewrite Ha. split; [by destruct w|].
    split; [apply HI|]. split; [by eexists|]. split; [done|]. split; [done|].
    split; [done|exact He].
  - destruct (ts_schedule_ok (timers w) (now w) e delay id (ti_timers _ HI) He Ha)
      as (tw & -> & Hok & Har & Hid).
    exists PJ_SUCCESS, tw. cbn. split; [done|]. split; [done|].
    rewrite Har, Hid, !lookup_insert_eq. split; [by eexists|].
    split; [|split; [done|split; [by intros []|by eexists]]].
    intros e' Hne. by rewrite !lookup_insert_ne by done.
Qed.

Lemma schedule_ids (w : W) tw e :
  (forall e', e' <> e -> ts_armed tw !! e' = ts_armed (timers w) !! e' /\
                         ts_id tw !! e' = ts_id (timers w) !! e') ->
  is_Some (ts_id tw !! e) ->
  forall e', is_Some (ts_id (timers w) !! e') -> is_Some (ts_id tw !! e').
Proof.
  intros Ho He e' He'. destruct (decide (e' = e)) as [->|Hne]; [done|].
  destruct (Ho e' Hne) as [_ ->]. done.
Qed.

Lemma wp_schedule_retransmit t x delay id (Q : Z -> W -> Prop) w :
  tsx_inv w -> tsxs w !! t = Some x ->
  (forall r w', evolves None w w' -> tsxs w' = tsxs w -> same_timeout t w w' ->
     settings w' = settings w -> Q r w') ->
  wp (tsx_schedule_timer (retransmit_timer t) delay id) Q w.
Proof.
  intros HI Hx HQ. pose proof (inv_base _ _ _ HI Hx) as Hb.
  destruct (schedule_cases w (retransmit_timer t) delay id HI (tb_retransmit _ _ _ Hb))
    as (r & tw & Hs & Hok & Ha & Ho & _ & _ & Hi).
  unfold wp. rewrite Hs. assert (Hne := timer_entries_ne_self t).
  assert (Hst : same_timeout t w (w <| timers := tw |>)) by exact (Ho _ Hne).
  apply HQ; try done. apply (evolves_same_timeout t); [|done|done].
  apply evolves_timers; [done|done|by eapply schedule_ids|auto].
Qed.

Lemma wp_schedule_timeout t x delay id (Q : Z -> W -> Prop) w :
  tsx_inv w -> tsxs w !! t = Some x ->
  (forall r w', evolves (Some t) w w' -> tsxs w' = tsxs w -> settings w' = settings w ->
     is_Some (ts_armed (timers w') !! timeout_timer t) ->
     (ts_armed (timers w) !! timeout_timer t = None ->
        ts_id (timers w') !! timeout_timer t = Some id) ->
     (is_Some (ts_armed (timers w) !! timeout_timer t) -> timers w' = timers w) ->
     Q r w') ->
  wp (tsx_schedule_timer (timeout_timer t) delay id) Q w.
Proof.
  intros HI Hx HQ. pose proof (inv_base _ _ _ HI Hx) as Hb.
  destruct (schedule_cases w (timeout_timer t) delay id HI (tb_timeout _ _ _ Hb))
    as (r & tw & Hs & Hok & Ha & Ho & Hf & Hsame & Hi).
  unfold wp. rewrite Hs. apply HQ; try done; [|by intros H; apply Hf].
  apply evolves_timers; [done|done|by eapply schedule_ids|auto].
Qed.

(** Scheduling the timeout keeps the requirement. *)
Lemma wp_arm_timeout t x delay (Q : Z -> W -> Prop) w :
  tsx_inv w -> tsxs w !! t = Some x -> (ts_armed (timers w) !! timeout_timer t = None \/ no_zombie w t) ->
  (forall r w', evolves (Some t) w w' -> tsxs w' = tsxs w -> no_zombie w' t -> Q r w') ->
  wp (tsx_schedule_timer (timeout_timer t) delay TIMEOUT_TIMER) Q w.
Proof.
  intros HI Hx Hor HQ. eapply wp_schedule_timeout; [done..|].
  intros r w' Hev Ex _ Har Hid Hsame. apply HQ; [done|done|].
  intros y Hy Hh Hn. rewrite Ex in Hy. assert (y = x) as -> by congruence.
  destruct (ts_armed (timers w) !! timeout_timer t) eqn:Ha.
  - destruct Hor as [?|Hz]; [done|].
    apply (guarded_timers t _ w); [by apply Hsame|]. by apply Hz.
  - split; [done|]. intros _. by apply Hid.
Qed.

Lemma wp_restart_timeout t x delay (Q : unit -> W -> Prop) w :
  tsx_inv w -> tsxs w !! t = Some x ->
  (forall w', evolves None w w' -> tsxs w' = tsxs w -> settings w' = settings w ->
     (forall s, guarded t s w') -> Q tt w') ->
  wp (restart_timeout t delay) Q w.
Proof.
  intros HI Hx HQ. unfold restart_timeout. apply wp_bind.
  eapply wp_cancel_timeout; [done..|]. intros n w1 H1 E1 S1 A1. apply wp_bind.
  eapply wp_schedule_timeout; [apply H1|by rewrite E1|].
  intros r w2 H2 E2 S2 A2 I2 _. apply wp_ret.
  assert (Hg : forall s, guarded t s w2) by (intros s; split; auto).
  apply HQ; [|congruence..|done]. apply (evolves_close t).
  - by eapply evolves_trans.
  - intros y _ _ _. apply Hg.
Qed.

(** Posting a transport event before the final response. *)
Lemma wp_post t x delay id (Q : unit -> W -> Prop) w :
  tsx_inv w -> tsxs w !! t = Some x -> state_lt (state x) PJSIP_TSX_STATE_COMPLETED = true ->
  (forall w', evolves None w w' -> tsxs w' = tsxs w -> Q tt w') ->
  wp (tsx_cancel_timer (timeout_timer t);; tsx_schedule_timer (timeout_timer t) delay id;;
      mret tt) Q w.
Proof.
  intros HI Hx Hs HQ. apply wp_bind. eapply wp_cancel_timeout; [done..|].
  intros n w1 H1 E1 S1 A1. apply wp_bind.
  eapply wp_schedule_timeout; [apply H1|by rewrite E1|].
  intros r w2 H2 E2 S2 A2 I2 _. apply wp_ret. apply HQ; [|congruence].
  apply (evolves_close t); [by eapply evolves_trans|].
  rewrite E1 in E2. apply (no_zombie_at t x); [by rewrite E2|]. intros _ _. split; [done|].
  unfold state_lt, state_le in *. zbool. lia.
Qed.

End Primitives.
