(* ===== verification/TsxProofs.v ===== *)
(** * SIP transactions: the operations keep the invariant

    [evolves] for every operation of the layer, under the contract [env_ok]
    of the environment: sending, the callbacks of the transport layer, state
    changes, the state handlers and the interface functions. *)

From S2P Require Import Prelude Monad TimeVal TimerSpec Hash TsxData TsxEnv Tsx TsxApi TsxInv.
Local Open Scope Z_scope.


(** ** Updates of a transaction *)

Section Updates.
Context {TW HT : Type} `{TS : !TimerService TW} `{KT : !KeyTable HT}.
Context {E : TsxEnv TW HT}.

#[local] Abbreviation W := (tsx_world TW HT).

(** Fields the invariant does not speak about. *)
Lemma wp_upd_plain t f x (Q : unit -> W -> Prop) w :
  tsx_inv w -> tsxs w !! t = Some x ->
  same_core x (f x) -> transport_flag (f x) = transport_flag x ->
  status_code (f x) = status_code x ->
  (transport_err (f x) = transport_err x \/ transport_err (f x) <> 0) ->
  (forall td, last_tx (f x) = Some td -> is_Some (tdatas w !! td)) ->
  (forall td, pending_tx (f x) = Some td -> is_Some (tdatas w !! td)) ->
  (forall w', evolves None w w' -> tsxs w' !! t = Some (f x) -> same_outside t w w' ->
     Q tt w') ->
  wp (upd_tsx t f) Q w.
Proof.
  intros HI Hx Hc Hf Hs He Hl Hp HQ. apply (wp_upd_tsx t f x); try done.
  - destruct He as [-> | ]; auto.
  - intros Hh. destruct (inv_ok _ _ _ HI Hx Hh) as [K1 K2 K3 K4 K5 K6], Hc as [H1 H2 H3 H4 H5 H6].
    split; rewrite ?H1, ?H2, ?H3, ?H4, ?H5, ?H6, ?Hf, ?Hs; auto.
    intros Hlt Hps. destruct (K5 Hlt Hps); [auto|]. destruct He as [-> | ]; auto.
Qed.

Lemma wp_set_flag t f x (Q : unit -> W -> Prop) w :
  tsx_inv w -> tsxs w !! t = Some x ->
  (TSX_HAS_PENDING_DESTROY (f (transport_flag x)) = true ->
     TSX_HAS_PENDING_DESTROY (transport_flag x) = true \/
     state x = PJSIP_TSX_STATE_DESTROYED) ->
  (state_lt (state x) PJSIP_TSX_STATE_TERMINATED = true ->
     TSX_HAS_PENDING_SEND (f (transport_flag x)) = true ->
     TSX_HAS_PENDING_TRANSPORT (f (transport_flag x)) = true \/ transport_err x <> 0) ->
  (forall w', evolves None w w' ->
     tsxs w' !! t = Some (x <| transport_flag := f (transport_flag x) |>) ->
     same_outside t w w' -> Q tt w') ->
  wp (set_flag t f) Q w.
Proof.
  intros HI Hx Hd Hs HQ. pose proof (inv_base _ _ _ HI Hx) as Hb. unfold set_flag.
  eapply (wp_upd_tsx t _ x); try done; try apply Hb.
  intros Hh. destruct (inv_ok _ _ _ HI Hx Hh) as [K1 K2 K3 K4 K5 K6].
  split; cbn; auto. intros H. destruct (Hd H); auto.
Qed.

Lemma wp_set_status t code reason x (Q : unit -> W -> Prop) w :
  tsx_inv w -> tsxs w !! t = Some x ->
  (role x = PJSIP_ROLE_UAS ->
     (state x = PJSIP_TSX_STATE_COMPLETED \/ state x = PJSIP_TSX_STATE_CONFIRMED) ->
     200 <= code) ->
  (forall y w', evolves None w w' -> tsxs w' !! t = Some y -> same_outside t w w' ->
     (exists txt, y = x <| status_code := code |> <| status_text := txt |>) -> Q tt w') ->
  wp (tsx_set_status_code t code reason) Q w.
Proof.
  intros HI Hx Hc HQ. pose proof (inv_base _ _ _ HI Hx) as Hb. unfold tsx_set_status_code.
  eapply (wp_upd_tsx t _ x); try done; try apply Hb.
  - intros Hh. destruct (inv_ok _ _ _ HI Hx Hh) as [K1 K2 K3 K4 K5 K6]. split; cbn; auto.
  - intros w' Hev Hx' Hs. eapply HQ; [done..|]. by eexists.
Qed.

(** The other primitives, as steps. *)
Lemma wp_emit_ev o (Q : unit -> W -> Prop) w :
  tsx_inv w ->
  (forall w', evolves None w w' -> tsxs w' = tsxs w -> timers w' = timers w ->
     tdatas w' = tdatas w -> settings w' = settings w -> Q tt w') ->
  wp (emit o) Q w.
Proof. intros HI HQ. apply wp_emit, HQ; try done. by apply evolves_emit. Qed.

Lemma wp_lock t (m : bool) x (Q : unit -> W -> Prop) w :
  tsx_inv w -> tsxs w !! t = Some x ->
  (forall w', evolves None w w' -> tsxs w' = tsxs w -> timers w' = timers w ->
     tdatas w' = tdatas w -> settings w' = settings w -> Q tt w') ->
  wp (if m then lock_add_ref t else lock_dec_ref t) Q w.
Proof.
  intros HI Hx HQ. destruct m; wbind; (eapply wp_get_tsx; [done|]); by apply wp_emit_ev.
Qed.

Lemma wp_emit_opt {A} (f : A -> tsx_output) o (Q : unit -> W -> Prop) w :
  tsx_inv w ->
  (forall w', evolves None w w' -> tsxs w' = tsxs w -> timers w' = timers w ->
     tdatas w' = tdatas w -> settings w' = settings w -> Q tt w') ->
  wp (emit_opt f o) Q w.
Proof.
  intros HI HQ. destruct o; [by apply wp_emit_ev|].
  apply wp_ret, HQ; try done. by apply evolves_refl.
Qed.

Lemma wp_when_ev (b : bool) m (Q : unit -> W -> Prop) w :
  (b = true -> wp m Q w) -> (b = false -> Q tt w) -> wp (when b m) Q w.
Proof. apply wp_when. Qed.

End Updates.

(** ** Transports *)

Section Transports.
Context {TW HT : Type} `{TS : !TimerService TW} `{KT : !KeyTable HT}.
Context {E : TsxEnv TW HT}.

#[local] Abbreviation W := (tsx_world TW HT).

(** What changing the transport changes of the transaction. *)
Definition tp_frame (x y : pjsip_transaction) : Prop :=
  exists tr k e, y = x <| transport := tr |> <| tp_st_key := k |> <| transport_err := e |> /\
    (e = transport_err x \/ e <> 0).

Lemma tp_frame_refl x : tp_frame x x.
Proof. exists (transport x), (tp_st_key x), (transport_err x). destruct x; auto. Qed.

Lemma tp_frame_trans x y z : tp_frame x y -> tp_frame y z -> tp_frame x z.
Proof.
  intros (tr & k & e & -> & He) (tr' & k' & e' & -> & He'). exists tr', k', e'.
  split; [done|]. cbn in He'. destruct He as [-> | ]; [done|]. destruct He' as [-> | ]; auto.
Qed.

Lemma tp_frame_core x y :
  tp_frame x y -> same_core x y /\ transport_flag y = transport_flag x /\
    status_code y = status_code x /\ last_tx y = last_tx x /\
    pending_tx y = pending_tx x /\ is_reliable y = is_reliable x.
Proof. by intros (tr & k & e & -> & _). Qed.

Lemma wp_tp_state_callback t x status (Q : unit -> W -> Prop) w :
  tsx_inv w -> tsxs w !! t = Some x -> status <> 0 ->
  (forall w', evolves None w w' ->
     tsxs w' !! t = Some (x <| transport_err := status |>) -> Q tt w') ->
  wp (tsx_tp_state_callback t PJSIP_TP_STATE_DISCONNECTED status) Q w.
Proof.
  intros HI Hx Hs HQ. unfold tsx_tp_state_callback. cbn [when PJSIP_TP_STATE_DISCONNECTED].
  pose proof (inv_base _ _ _ HI Hx) as Hb.
  wbind. eapply (wp_upd_plain t _ x); try done; try apply Hb; [by right|].
  intros w1 H1 E1 S1. wbind. eapply wp_get_tsx; [exact E1|].
  apply wp_when; intros Hlt; [|by apply HQ].
  eapply wp_post; [apply H1|exact E1|exact Hlt|].
  intros w2 H2 E2. apply HQ; [by eapply evolves_trans|by rewrite E2].
Qed.

Lemma wp_release_transport t x (Q : unit -> W -> Prop) w :
  tsx_inv w -> tsxs w !! t = Some x ->
  (forall w', evolves None w w' -> tsxs w' !! t = Some (x <| transport := None |>) ->
     same_timeout t w w' -> settings w' = settings w -> Q tt w') ->
  wp (match transport x with
      | Some p =>
          when (tp_st_key x) (emit (OutRemoveListener p t));;
          emit (OutDecRef (RefTransport p));;
          upd_tsx t (fun x => x <| transport := None |>)
      | None => mret tt
      end) Q w.
Proof.
  intros HI Hx HQ. pose proof (inv_base _ _ _ HI Hx) as Hb.
  destruct (transport x) as [p|] eqn:Htp.
  2:{ apply wp_ret, HQ; [by apply evolves_refl| |done|done]. rewrite Hx. f_equal.
      destruct x; cbn in *; by subst. }
  wbind. assert (Hend : forall w1, evolves None w w1 -> tsxs w1 = tsxs w ->
    timers w1 = timers w -> tdatas w1 = tdatas w -> settings w1 = settings w ->
    wp (emit (OutDecRef (RefTransport p));; upd_tsx t (fun x => x <| transport := None |>))
      Q w1).
  { intros w1 H1 E1 T1 D1 S1. wbind. apply wp_emit_ev; [apply H1|].
    intros w2 H2 E2 T2 D2 S2. pose proof (evolves_trans _ _ _ _ H1 H2) as H12.
    assert (Hx2 : tsxs w2 !! t = Some x) by by rewrite E2, E1.
    pose proof (inv_base _ _ _ (ev_inv _ _ _ H2) Hx2) as Hb2.
    eapply (wp_upd_plain t _ x); try done; try apply Hb2; [apply H2|by left|].
    intros w3 H3 E3 [S3 _ S4 _]. apply HQ; [by eapply evolves_trans|done| |congruence].
    unfold same_timeout. rewrite S3, T2, T1. done. }
  apply wp_when; intros _; [|apply Hend; try done; by apply evolves_refl].
  by apply wp_emit_ev.
Qed.

Lemma wp_update_transport t tp x (Q : unit -> W -> Prop) w :
  tsx_inv w -> tsxs w !! t = Some x ->
  (forall y w', evolves None w w' -> tsxs w' !! t = Some y -> tp_frame x y ->
     transport y = tp -> Q tt w') ->
  wp (tsx_update_transport t tp) Q w.
Proof.
  intros HI Hx HQ. unfold tsx_update_transport. wbind.
  eapply wp_get_tsx; [done|]. wbind. eapply wp_release_transport; [done..|].
  intros w1 H1 E1 _ _. destruct tp as [p|].
  2:{ apply wp_ret. eapply HQ; [done|exact E1| |done].
      exists None, (tp_st_key x), (transport_err x). destruct x; auto. }
  pose proof (inv_base _ _ _ (ev_inv _ _ _ H1) E1) as Hb1.
  wbind. eapply (wp_upd_plain t _ (x <| transport := None |>));
    try done; try apply Hb1; [apply H1|by left|].
  intros w2 H2 E2 _. wbind. apply wp_emit_ev; [apply H2|].
  intros w3 H3 E3 _ _ _. wbind. apply wp_emit_ev; [apply H3|].
  intros w4 H4 E4 _ _ _. rewrite <- E3 in E2. rewrite <- E4 in E2.
  pose proof (inv_base _ _ _ (ev_inv _ _ _ H4) E2) as Hb4.
  wbind. eapply (wp_upd_plain t _ _ _ w4); try done; try apply Hb4; [apply H4|by left|].
  intros w5 H5 E5 _. wbind. apply wp_ask.
  assert (H : evolves None w w5) by eauto using evolves_trans.
  apply wp_when; intros _.
  - eapply wp_tp_state_callback; [apply H5|exact E5|done|].
    intros w6 H6 E6. eapply HQ; [by eapply evolves_trans|exact E6| |done].
    exists (Some p), true, PJSIP_SC_TSX_TRANSPORT_ERROR. split; [done|by right].
  - eapply HQ; [done|exact E5| |done].
    exists (Some p), true, (transport_err x). destruct x; auto.
Qed.

End Transports.

(** ** Shutdown and state change *)

Section SetState.
Context {TW HT : Type} `{TS : !TimerService TW} `{KT : !KeyTable HT}.
Context {E : TsxEnv TW HT}.

#[local] Abbreviation W := (tsx_world TW HT).

Lemma same_core_refl x : same_core x x.
Proof. done. Qed.

Lemma same_core_trans x y z : same_core x y -> same_core y z -> same_core x z.
Proof. intros [] []. split; congruence. Qed.

(** The steps of [tsx_shutdown] before the timers are cancelled. *)
Lemma wp_shutdown_release t x (Q : unit -> W -> Prop) w :
  tsx_inv w -> tsxs w !! t = Some x ->
  (forall w', evolves None w w' -> tsxs w' !! t = Some (x <| last_tx := None |>) -> Q tt w') ->
  wp (when (negb (terminating x)) (emit_opt (fun s => OutDecRef (RefTpsel s)) (tp_sel x));;
      match last_tx x with
      | Some td =>
          emit (OutDecRef (RefTdata td));;
          upd_tsx t (fun x => x <| last_tx := None |>)
      | None => mret tt
      end) Q w.
Proof.
  intros HI Hx HQ. wbind.
  assert (Hend : forall w2, evolves None w w2 -> tsxs w2 !! t = Some x ->
    wp (match last_tx x with
        | Some td => emit (OutDecRef (RefTdata td));;
                     upd_tsx t (fun x => x <| last_tx := None |>)
        | None => mret tt end) Q w2).
  { intros w2 H2 E2. destruct (last_tx x) as [td|] eqn:Hl.
    2:{ apply wp_ret, HQ; [done|]. rewrite E2. f_equal. destruct x; cbn in *; by subst. }
    wbind. apply wp_emit_ev; [apply H2|]. intros w3 H3 E3 _ _ _. rewrite <- E3 in E2.
    pose proof (inv_base _ _ _ (ev_inv _ _ _ H3) E2) as Hb.
    eapply (wp_upd_plain t _ _ _ w3); try done; try apply Hb; [apply H3|by left|].
    intros w4 H4 E4 _. apply HQ; [eauto using evolves_trans|done]. }
  apply wp_when; intros _; [|by apply Hend; [apply evolves_refl|]].
  apply wp_emit_opt; [done|]. intros w2 H2 E2 _ _ _. apply Hend; [done|by rewrite E2].
Qed.

(** The steps after. *)
Lemma wp_shutdown_finish t x (Q : Z -> W -> Prop) w :
  tsx_inv w -> tsxs w !! t = Some x ->
  (TSX_HAS_PENDING_TRANSPORT (transport_flag x) = true ->
     state x = PJSIP_TSX_STATE_DESTROYED) ->
  (forall y w', evolves None w w' -> tsxs w' !! t = Some y -> same_core x y ->
     timers w' = timers w -> Q PJ_SUCCESS w') ->
  wp (x ← get_tsx t;
      when (TSX_HAS_PENDING_TRANSPORT (transport_flag x)) (
        set_flag t (fun f => f <| TSX_HAS_PENDING_DESTROY := true |>);;
        upd_tsx t (fun x => x <| tsx_user := None |>));;
      x ← get_tsx t;
      when (negb (terminating x)) (
        upd_tsx t (fun x => x <| terminating := true |>);;
        lock_dec_ref t);;
      mret PJ_SUCCESS) Q w.
Proof.
  intros HI Hx Hst HQ. wbind. eapply wp_get_tsx; [done|]. wbind.
  assert (Hlast : forall w7 y, evolves None w w7 -> tsxs w7 !! t = Some y ->
    same_core x y -> timers w7 = timers w ->
    wp (x ← get_tsx t;
        when (negb (terminating x)) (
          upd_tsx t (fun x => x <| terminating := true |>);; lock_dec_ref t);;
        mret PJ_SUCCESS) Q w7).
  { intros w7 y H7 E7 C7 T7. wbind. eapply wp_get_tsx; [exact E7|]. wbind.
    apply wp_when; intros _; [|by eapply wp_ret, HQ].
    pose proof (inv_base _ _ _ (ev_inv _ _ _ H7) E7) as Hb.
    wbind. eapply (wp_upd_plain t _ y); try done; try apply Hb; [apply H7|by left|].
    intros w8 H8 E8 S8. eapply (wp_lock t false); [apply H8|exact E8|].
    intros w9 H9 E9 T9 _ _. apply wp_ret. rewrite <- E9 in E8.
    eapply HQ; [eauto using evolves_trans|exact E8|by destruct C7|].
    rewrite T9, <- T7. apply S8. }
  apply wp_when; intros Hp; [|by eapply Hlast; [apply evolves_refl| |apply same_core_refl|]].
  wbind. eapply wp_set_flag; [done|exact Hx|cbn; by auto|..].
  { intros Hlt. by rewrite (Hst Hp) in Hlt. }
  intros w7 H7 E7 S7.
  pose proof (inv_base _ _ _ (ev_inv _ _ _ H7) E7) as Hb.
  eapply (wp_upd_plain t _ _ _ w7); try done; try apply Hb; [apply H7|by left|].
  intros w8 H8 E8 S8. eapply Hlast; [by eapply evolves_trans|exact E8|done|].
  rewrite (so_timers _ _ _ S8). apply S7.
Qed.

Lemma wp_shutdown t x (Q : Z -> W -> Prop) w :
  tsx_inv w -> tsxs w !! t = Some x ->
  (TSX_HAS_PENDING_TRANSPORT (transport_flag x) = true ->
     state x = PJSIP_TSX_STATE_DESTROYED) ->
  (forall y w', evolves (Some t) w w' -> tsxs w' !! t = Some y -> same_core x y ->
     tsx_idle w' t -> Q PJ_SUCCESS w') ->
  wp (tsx_shutdown t) Q w.
Proof.
  intros HI Hx Hpt HQ. unfold tsx_shutdown. wbind.
  eapply wp_update_transport; [done..|]. intros x1 w1 H1 E1 F1 _.
  destruct (tp_frame_core _ _ F1) as (C1 & Ff1 & _). wbind.
  eapply wp_get_tsx; [exact E1|]. rewrite wp_assoc. wbind.
  eapply wp_shutdown_release; [apply H1|exact E1|]. intros w3 H3 E3.
  wbind. eapply wp_cancel_timeout; [apply H3|exact E3|].
  intros _ w4 H4 E4 _ A4. rewrite <- E4 in E3. wbind.
  eapply wp_cancel_retransmit; [apply H4|exact E3|].
  intros _ w5 H5 E5 S5 _ A5. rewrite <- E5 in E3. wbind.
  set (x3 := x1 <| last_tx := None |>) in *.
  assert (C3 : same_core x x3) by (destruct C1; by split).
  assert (F3 : transport_flag x3 = transport_flag x) by exact Ff1. clearbody x3.
  eapply wp_set_flag; [apply H5|exact E3|cbn; by auto|done|]. intros w6 H6 E6 S6.
  assert (H' : evolves (Some t) w w4) by eauto using evolves_trans, evolves_weaken.
  assert (H : evolves (Some t) w w6) by eauto using evolves_trans, evolves_weaken.
  eapply wp_shutdown_finish; [apply H|exact E6|cbn; rewrite F3, (sc_state _ _ C3); exact Hpt|].
  intros y w7 H7 E7 C7 T7. eapply HQ; [eauto using evolves_trans, evolves_weaken|exact E7|..].
  - eapply same_core_trans; [exact C3|]. by destruct C7.
  - unfold tsx_idle. rewrite T7, (so_timers _ _ _ S6). split; [done|].
    destruct S5 as [-> _]. exact A4.
Qed.

Lemma wp_unregister t x (Q : unit -> W -> Prop) w :
  tsx_inv w -> tsxs w !! t = Some x -> state_handler x <> None ->
  (forall w', evolves None w w' -> tsxs w' = tsxs w -> timers w' = timers w ->
     kt_map (htable w') = delete (kt_canon (transaction_key x)) (kt_map (htable w)) ->
     Q tt w') ->
  wp (mod_tsx_layer_unregister_tsx t) Q w.
Proof.
  intros HI Hx Hh HQ. unfold mod_tsx_layer_unregister_tsx. wbind. apply wp_ask.
  pose proof (ti_mod _ HI) as Hm. destruct (Z.eqb_spec (mod_id w) (-1)); [lia|].
  wbind. eapply wp_get_tsx; [done|]. pose proof (inv_ok _ _ _ HI Hx Hh) as Hok.
  destruct (kt_set_ok (htable w) (transaction_key x) (hashed_key x) None
    (ti_table _ HI) (to_key _ Hok) (to_hash _ Hok)) as (ht & Hs & Hkt & Hmap).
  wbind. eapply wp_from_option; [exact Hs|]. apply wp_modify. apply HQ; try done.
  destruct HI as [Htm Htb Hmod Htd Htx Hreg]. split; [split|..]; try done.
  - intros t' x' Hx'. by destruct (Htx _ _ Hx') as [].
  - change (htable (w <| htable := ht |>)) with ht. rewrite Hmap.
    intros k t' Hk. apply (Hreg k t'). change (partial_alter _ _ _) with
      (delete (kt_canon (transaction_key x)) (kt_map (htable w))) in Hk.
    by apply lookup_delete_Some in Hk as [_ ?].
  - eauto using tsx_le_refl.
Qed.

Lemma wp_upd_upd t f g (k : unit -> M W unit) Q w :
  wp (upd_tsx t (fun x => g (f x)) ≫= k) Q w ->
  wp (upd_tsx t f ≫= fun _ => upd_tsx t g ≫= k) Q w.
Proof.
  unfold wp, mbind, M_bind, upd_tsx. destruct (tsxs w !! t) as [x|]; [|done]. cbn.
  rewrite lookup_insert_eq. cbn. by rewrite insert_insert_eq.
Qed.

Definition set_state_of (st : pjsip_tsx_state_e) (x : pjsip_transaction) :=
  x <| state := st |> <| state_handler := handler_of (role x) st |>.

Lemma wp_upd_state t st x (Q : unit -> W -> Prop) w :
  tsx_inv w -> tsxs w !! t = Some x -> state_handler x <> None ->
  state_le (state x) st -> is_Some (handler_of (role x) st) ->
  (role x = PJSIP_ROLE_UAS ->
     (st = PJSIP_TSX_STATE_COMPLETED \/ st = PJSIP_TSX_STATE_CONFIRMED) ->
     200 <= status_code x) ->
  (forall w', evolves (Some t) w w' -> tsxs w' !! t = Some (set_state_of st x) ->
     same_outside t w w' -> Q tt w') ->
  wp (upd_tsx t (fun x => x <| state := st |> <| state_handler :=
        if bool_decide (role x = PJSIP_ROLE_UAC)
        then tsx_state_handler_uac st else tsx_state_handler_uas st |>)) Q w.
Proof.
  intros HI Hx Hh Hle Hsome Hst HQ. unfold wp, upd_tsx. rewrite Hx. cbn.
  pose proof (inv_base _ _ _ HI Hx) as [B1 B2 B3 B4 B5].
  apply HQ; [|apply lookup_insert_eq|done].
  apply (evolves_local t x (set_state_of st x)); try done; try apply HI.
  - split; try done. intros _. destruct (B5 Hh) as [K1 K2 K3 K4 K5 K6].
    split; cbn; try done.
    + intros Hd. specialize (K4 Hd). rewrite K4 in Hle. unfold state_le in Hle.
      by destruct st.
    + intros Hlt. apply K5. unfold state_lt, state_le in *. zbool.
      apply Z.ltb_lt. lia.
  - intros _. split; try done. cbn. intros Hn. rewrite Hn in Hsome. by destruct Hsome.
Qed.

End SetState.

Section SetStateSpec.
Context {TW HT : Type} `{TS : !TimerService TW} `{KT : !KeyTable HT}.
Context {E : TsxEnv TW HT} (HE : env_ok E).

#[local] Abbreviation W := (tsx_world TW HT).

(** An event source whose message the notifications can read. *)
Definition src_ok (src : pjsip_event) : Prop :=
  match src with PJSIP_EVENT_RX_MSG rdata => is_Some (rx_msg rdata) | _ => True end.

Lemma keeps_alive_refl (w : W) : keeps_alive w w.
Proof. intros t x y Hx Hy. by assert (y = x) as -> by congruence. Qed.

Lemma wp_notify_rx t src flag x (Q : unit -> W -> Prop) w :
  tsx_inv w -> tsxs w !! t = Some x -> src_ok src ->
  (forall w', evolves None w w' -> keeps_alive w w' -> Q tt w') -> wp (notify_rx t src flag) Q w.
Proof.
  intros HI Hx Hs HQ. pose proof (HQ w (evolves_refl _ _ HI) (keeps_alive_refl w)) as Hr.
  unfold notify_rx. wbind. eapply wp_get_tsx; [done|].
  destruct src as [|e|td|rdata|td|]; try by apply wp_ret.
  destruct (tsx_user x) as [u|]; [|by apply wp_ret].
  case_match; [|by apply wp_ret]. destruct Hs as [msg Hm]. wbind.
  eapply wp_from_option; [exact Hm|]. destruct msg; [by apply wp_ret|].
  destruct (on_rx_response u) as [cb|] eqn:Hcb; [|by apply wp_ret].
  wbind. apply wp_emit_ev; [done|]. intros w1 H1 E1 _ _ _. apply wp_modify. destruct (eo_rx _ HE u cb rdata w1 Hcb (ev_inv _ _ _ H1)) as [H2 A2].
  apply HQ; [by eapply evolves_trans|]. intros t' y z. rewrite <- E1. apply A2.
Qed.

Lemma wp_notify_state t src prev x (Q : unit -> W -> Prop) w :
  tsx_inv w -> tsxs w !! t = Some x ->
  (forall w', evolves None w w' -> keeps_alive w w' -> Q tt w') -> wp (notify_state t src prev) Q w.
Proof.
  intros HI Hx HQ. pose proof (HQ w (evolves_refl _ _ HI) (keeps_alive_refl w)) as Hr.
  unfold notify_state. wbind. eapply wp_get_tsx; [done|].
  destruct (tsx_user x) as [u|]; [|by apply wp_ret].
  destruct (on_tsx_state u) as [cb|] eqn:Hcb; [|by apply wp_ret].
  wbind. apply wp_emit_ev; [done|]. intros w1 H1 E1 _ _ _. apply wp_modify. destruct (eo_state _ HE u cb t src prev w1 Hcb (ev_inv _ _ _ H1)) as [H2 A2].
  apply HQ; [by eapply evolves_trans|]. intros t' y z. rewrite <- E1. apply A2.
Qed.

(** A step leaves the transaction at least as far. *)
Lemma evolves_at ex (w w' : W) t x :
  evolves ex w w' -> tsxs w !! t = Some x -> state_handler x <> None ->
  exists y, tsxs w' !! t = Some y /\ tsx_le x y.
Proof. intros H. apply H. Qed.

(** The part of [tsx_set_state] for the Terminated state. *)
Lemma wp_terminated t (flag : bool) x (Q : unit -> W -> Prop) w :
  tsx_inv w -> tsxs w !! t = Some x -> state_handler x <> None ->
  state_le PJSIP_TSX_STATE_TERMINATED (state x) ->
  (forall w' y, evolves (Some t) w w' -> tsxs w' !! t = Some y -> tsx_le x y -> state y = state x ->
     (flag = true -> no_zombie w' t) ->
     (flag = false -> ts_armed (timers w') !! timeout_timer t = None) -> Q tt w') ->
  wp (when (TSX_HAS_PENDING_TRANSPORT (transport_flag x)) (
        match pending_tx x with
        | Some td =>
            upd_td td (fun d => d <| td_mod_data := None |>);;
            upd_tsx t (fun x => x <| pending_tx := None |>);;
            lock_dec_ref t
        | None => mret tt
        end;;
        set_flag t (fun f => f <| TSX_HAS_PENDING_TRANSPORT := false |>));;
      tsx_cancel_timer (timeout_timer t);;
      when flag (tsx_schedule_timer (timeout_timer t) zero_time TIMEOUT_TIMER;; mret tt))
    Q w.
Proof.
  intros HI Hx Hh Hst HQ. wbind.
  assert (Hend : forall w1 y, evolves None w w1 -> tsxs w1 !! t = Some y -> tsx_le x y ->
    state y = state x ->
    wp (tsx_cancel_timer (timeout_timer t);;
      when flag (tsx_schedule_timer (timeout_timer t) zero_time TIMEOUT_TIMER;; mret tt))
      Q w1).
  { intros w1 y H1 E1 L1 Es1. wbind. eapply wp_cancel_timeout; [apply H1|exact E1|].
    intros _ w2 H2 E2 _ A2. rewrite <- E2 in E1.
    assert (H : evolves (Some t) w w2) by eauto using evolves_trans, evolves_weaken.
    apply wp_when; intros Hf; [|by eapply HQ; [..|congruence|done]].
    wbind. eapply wp_arm_timeout; [apply H2|exact E1|by left|].
    intros _ w3 H3 E3 Hz. rewrite <- E3 in E1. apply wp_ret.
    eapply HQ; [by eapply evolves_trans|exact E1|done|done|done|congruence]. }
  apply wp_when; intros _; [|by eapply Hend; eauto using evolves_refl, tsx_le_refl].
  assert (Hflag : forall w1 y, evolves None w w1 -> tsxs w1 !! t = Some y -> tsx_le x y ->
    state y = state x ->
    wp (set_flag t (fun f => f <| TSX_HAS_PENDING_TRANSPORT := false |>))
      (fun _ => wp (tsx_cancel_timer (timeout_timer t);;
      when flag (tsx_schedule_timer (timeout_timer t) zero_time TIMEOUT_TIMER;; mret tt))
      Q) w1).
  { intros w1 y H1 E1 L1 Es1. eapply wp_set_flag; [apply H1|exact E1|cbn; by auto|..].
    { intros Hlt. pose proof (tl_state _ _ L1). unfold state_lt, state_le in *.
      zbool. lia. }
    intros w2 H2 E2 _.
    eapply Hend; [by eapply evolves_trans|exact E2|by destruct L1|done]. }
  wbind. pose proof (inv_base _ _ _ HI Hx) as Hb.
  destruct (pending_tx x) as [td|] eqn:Hp.
  2:{ apply wp_ret. eapply Hflag; eauto using evolves_refl, tsx_le_refl. }
  destruct (tb_pending_tx _ _ _ Hb td Hp) as [d Hd].
  wbind. eapply wp_upd_td; [done|exact Hd|exact (ti_td _ HI td d Hd)|].
  intros w1 H1 E1 _ _. rewrite <- E1 in Hx.
  pose proof (inv_base _ _ _ (ev_inv _ _ _ H1) Hx) as Hb1.
  wbind. eapply (wp_upd_plain t _ x); try done; try apply Hb1; [apply H1|by left|].
  intros w2 H2 E2 _. eapply (wp_lock t false); [apply H2|exact E2|].
  intros w3 H3 E3 _ _ _. rewrite <- E3 in E2.
  eapply Hflag; [by eauto using evolves_trans|exact E2| |done].
  split; try done. apply state_le_refl.
Qed.

(** When the state change leaves the timer requirement satisfied. *)
Definition set_guard (t : nat) (st : pjsip_tsx_state_e) (flag : Z)
    (x : pjsip_transaction) (w : W) : Prop :=
  match st with
  | PJSIP_TSX_STATE_DESTROYED => True
  | PJSIP_TSX_STATE_TERMINATED => Z.land flag NO_SCHEDULE_HANDLER = 0
  | _ => needs_timer (set_state_of st x) = true -> guarded t st w
  end.

(** The state change and the notifications. *)
Lemma wp_set_state_notify t st src flag x (k : unit -> M W unit) Q w :
  tsx_inv w -> tsxs w !! t = Some x -> state_handler x <> None ->
  state_le (state x) st -> is_Some (handler_of (role x) st) ->
  (role x = PJSIP_ROLE_UAS ->
     (st = PJSIP_TSX_STATE_COMPLETED \/ st = PJSIP_TSX_STATE_CONFIRMED) ->
     200 <= status_code x) -> src_ok src ->
  (forall w1 w' y, evolves (Some t) w w1 -> evolves None w1 w' ->
     tsxs w1 !! t = Some (set_state_of st x) -> timers w1 = timers w ->
     tsxs w' !! t = Some y -> tsx_le (set_state_of st x) y ->
     (st <> PJSIP_TSX_STATE_DESTROYED -> state y <> PJSIP_TSX_STATE_DESTROYED) ->
     wp (k tt) Q w') ->
  wp (upd_tsx t (fun x => x <| state := st |>) ≫= fun _ =>
      upd_tsx t (fun x => x <| state_handler :=
        if bool_decide (role x = PJSIP_ROLE_UAC)
        then tsx_state_handler_uac st else tsx_state_handler_uas st |>) ≫= fun _ =>
      notify_rx t src flag ≫= fun _ =>
      when (Z.land flag NO_NOTIFY =? 0) (notify_state t src (state x)) ≫= k) Q w.
Proof.
  intros HI Hx Hh Hle Hsome Hst Hsrc HQ.
  apply wp_upd_upd. wbind. eapply (wp_upd_state t st x); [done..|].
  intros w1 H1 E1 [T1 _ _ _]. set (x1 := set_state_of st x) in *.
  assert (Hh1 : state_handler x1 <> None).
  { cbn. intros Hn. rewrite Hn in Hsome. by destruct Hsome. }
  wbind. eapply wp_notify_rx; [apply H1|exact E1|done|]. intros w2 H2 A2.
  destruct (evolves_at _ _ _ _ _ H2 E1 Hh1) as (y & E2 & L2). wbind.
  assert (Hend : forall w3, evolves None w2 w3 -> keeps_alive w2 w3 -> wp (k tt) Q w3).
  { intros w3 H3 A3. assert (H : evolves None w1 w3) by by eapply evolves_trans.
    destruct (evolves_at _ _ _ _ _ H E1 Hh1) as (z & E3 & L3).
    eapply HQ; try done. intros Hst'. eapply A3; [exact E2|exact E3|].
    by eapply A2. }
  apply wp_when; intros _;
    [|apply Hend; [apply evolves_refl, H2|apply keeps_alive_refl]].
  eapply wp_notify_state; [apply H2|exact E2|done].
Qed.

Lemma wp_set_state t st src flag x (Q : unit -> W -> Prop) w :
  tsx_inv w -> tsxs w !! t = Some x -> state_handler x <> None ->
  state_le (state x) st -> is_Some (handler_of (role x) st) ->
  (role x = PJSIP_ROLE_UAS ->
     (st = PJSIP_TSX_STATE_COMPLETED \/ st = PJSIP_TSX_STATE_CONFIRMED) ->
     200 <= status_code x) -> src_ok src ->
  (forall w' y, evolves (Some t) w w' -> tsxs w' !! t = Some y ->
     tsx_le (set_state_of st x) y -> (set_guard t st flag x w -> no_zombie w' t) ->
     (st <> PJSIP_TSX_STATE_DESTROYED -> state y <> PJSIP_TSX_STATE_DESTROYED) ->
     (st = PJSIP_TSX_STATE_TERMINATED -> Z.land flag NO_SCHEDULE_HANDLER <> 0 ->
      ts_armed (timers w') !! timeout_timer t = None) -> Q tt w') ->
  wp (tsx_set_state t st src flag) Q w.
Proof.
  intros HI Hx Hh Hle Hsome Hst Hsrc HQ. unfold tsx_set_state. wbind.
  eapply wp_get_tsx; [done|]. eapply wp_set_state_notify; [done..|].
  intros w1 w2 y H1 H2 E1 T1 E2 L2 A2.
  assert (H : evolves (Some t) w w2) by eauto using evolves_trans, evolves_weaken.
  assert (Hdone : st <> PJSIP_TSX_STATE_TERMINATED ->
    (set_guard t st flag x w -> no_zombie w1 t) -> Q tt w2).
  { intros Hne Hz. eapply HQ; [done|exact E2|done| |done|done].
    intros Hg. eapply ev_zombie; [exact H2|done|by apply Hz]. }
  assert (Hz : st <> PJSIP_TSX_STATE_TERMINATED -> st <> PJSIP_TSX_STATE_DESTROYED ->
    set_guard t st flag x w -> no_zombie w1 t).
  { intros Hn1 Hn2 Hg. apply (no_zombie_at t (set_state_of st x)); [done|].
    intros _ Hn. apply (guarded_timers t _ w); [done|]. destruct st; try done; by apply Hg. }
  destruct st; try (apply wp_ret, Hdone; [done|by apply Hz]); clear Hdone Hz.
  - wbind. eapply wp_get_tsx; [exact E2|].
    eapply (wp_terminated t (Z.land flag NO_SCHEDULE_HANDLER =? 0)).
    + apply H2.
    + exact E2.
    + apply L2.
    + apply L2.
    + intros w3 z H3 E3 L3 S3 Hz Ha. eapply HQ; [by eapply evolves_trans|exact E3| |..].
      * by eapply tsx_le_trans.
      * intros Hg. apply Hz. by apply Z.eqb_eq.
      * intros Hne. rewrite S3. by apply A2.
      * intros _ Hne. apply Ha. by apply Z.eqb_neq.
  - wbind. eapply wp_unregister; [apply H2|exact E2|apply L2|]. intros w3 H3 E3 _ _.
    rewrite <- E3 in E2. wbind. eapply wp_shutdown; [apply H3|exact E2|..].
    { intros _. pose proof (tl_state _ _ L2) as Hl. unfold state_le in Hl. cbn in Hl.
      by destruct (state y). }
    intros z w4 H4 E4 C4 _. apply wp_ret. eapply HQ; [|exact E4|..].
    + eauto using evolves_trans, evolves_weaken.
    + destruct L2, C4. split; try congruence.
      intros He. pose proof (evolves_at _ _ _ _ _ H4 E2 tl_handler) as (z' & Ez & Lz).
      assert (z' = z) as -> by congruence. apply Lz. auto.
    + intros _. apply (no_zombie_at t z); [done|]. intros _ Hn. exfalso.
      pose proof (tl_state _ _ L2) as Hl. rewrite <- (sc_state _ _ C4) in Hl.
      unfold state_le in Hl. unfold needs_timer in Hn. by destruct (state z).
    + done.
    + done.
Qed.

End SetStateSpec.
