(* ===== verification/TsxSend.v ===== *)
(** * SIP transactions: sending keeps the invariant

    [tsx_send_msg] and the callbacks of the transport layer, under the
    contract of the environment.  Sending either leaves the state of the
    transaction alone or terminates it and reports an error. *)

From S2P Require Import Prelude Monad TimeVal TimerSpec Hash TsxData TsxEnv Tsx TsxApi TsxInv.
From S2P Require Import TsxProofs.
Local Open Scope Z_scope.

(** ** Definitions *)

(** A deferred transmission without a pending one follows a transport
    error. *)
Definition deferred_ok (x : pjsip_transaction) : Prop :=
  state_lt (state x) PJSIP_TSX_STATE_TERMINATED = true ->
  TSX_HAS_PENDING_SEND (transport_flag x) = true -> transport_err x <> 0.

(** A callback may still be outstanding. *)
Definition callback_ok (x : pjsip_transaction) : Prop :=
  state x = PJSIP_TSX_STATE_DESTROYED ->
  TSX_HAS_PENDING_DESTROY (transport_flag x) = true.

Record send_post (x : pjsip_transaction) (status : Z) (y : pjsip_transaction) : Prop :=
  mk_send_post {
  sp_le : tsx_le x y;
  sp_alive : state x <> PJSIP_TSX_STATE_DESTROYED -> state y <> PJSIP_TSX_STATE_DESTROYED;
  sp_state : state_lt (state x) PJSIP_TSX_STATE_TERMINATED = true ->
    state y = state x \/ (state y = PJSIP_TSX_STATE_TERMINATED /\ status <> PJ_SUCCESS);
  sp_deferred : TSX_HAS_PENDING_TRANSPORT (transport_flag x) = false -> deferred_ok y
}.

Record notify_post (x y : pjsip_transaction) : Prop := mk_notify_post {
  np_le : tsx_le x y;
  np_alive : state x <> PJSIP_TSX_STATE_DESTROYED -> state y <> PJSIP_TSX_STATE_DESTROYED;
  np_state : state_lt (state x) PJSIP_TSX_STATE_TERMINATED = true ->
    state y = state x \/
    (state y = PJSIP_TSX_STATE_TERMINATED /\ (deferred_ok x -> transport_err y <> 0));
  np_deferred : deferred_ok x -> deferred_ok y
}.

(** ** Lemmas *)

Lemma notify_post_trans x y z : notify_post x y -> notify_post y z -> notify_post x z.
Proof.
  intros [L1 A1 S1 D1] [L2 A2 S2 D2]. split; [by eapply tsx_le_trans|by auto| |by auto].
  intros Hlt. destruct (S1 Hlt) as [E1|[E1 F1]].
  - rewrite E1 in S2. destruct (S2 Hlt) as [|[? F2]]; auto.
  - right. pose proof (tl_state _ _ L2) as Hle. rewrite E1 in *.
    split; [|intros Hd; by apply L2, F1]. specialize (A2 ltac:(done)).
    unfold state_le in Hle. by destruct (state z).
Qed.

(** A step that leaves the core of the transaction alone. *)
Lemma notify_post_core x y :
  same_core x y -> state_handler x <> None ->
  (transport_err y = transport_err x \/ transport_err y <> 0) ->
  (deferred_ok x -> deferred_ok y) -> notify_post x y.
Proof.
  intros [H1 H2 H3 H4 H5 H6] Hh He Hd. split; [split|..]; try done.
  - rewrite H5. apply state_le_refl.
  - destruct He as [-> | ]; auto.
  - by rewrite H6.
  - by rewrite H5.
  - auto.
Qed.

Lemma same_core_handler x y : same_core x y -> state_handler x <> None -> state_handler y <> None.
Proof. by intros [_ _ _ _ _ ->]. Qed.

Section Send.
Context {TW HT : Type} `{TS : !TimerService TW} `{KT : !KeyTable HT}.
Context {E : TsxEnv TW HT} (HE : env_ok E).

#[local] Abbreviation W := (tsx_world TW HT).

Lemma inv_deferred (w : W) t x :
  tsx_inv w -> tsxs w !! t = Some x -> state_handler x <> None ->
  TSX_HAS_PENDING_TRANSPORT (transport_flag x) = false -> deferred_ok x.
Proof.
  intros HI Hx Hh Hp Hlt Hs. pose proof (inv_ok _ _ _ HI Hx Hh) as Hok.
  destruct (to_send _ Hok Hlt Hs); [congruence|done].
Qed.

(** Clearing the pending transport flag. *)
Lemma wp_clear_pending t x (Q : unit -> W -> Prop) w :
  tsx_inv w -> tsxs w !! t = Some x -> deferred_ok x ->
  (forall w', evolves None w w' ->
     tsxs w' !! t = Some (x <| transport_flag :=
       transport_flag x <| TSX_HAS_PENDING_TRANSPORT := false |> |>) -> Q tt w') ->
  wp (set_flag t (fun f => f <| TSX_HAS_PENDING_TRANSPORT := false |>)) Q w.
Proof.
  intros HI Hx Hd HQ. eapply wp_set_flag; [done|done|cbn; by auto| |by auto].
  intros Hlt Hs. right. by apply Hd.
Qed.

Lemma wp_resched t x (Q : unit -> W -> Prop) w :
  tsx_inv w -> tsxs w !! t = Some x ->
  (forall w', evolves None w w' -> tsxs w' = tsxs w -> Q tt w') ->
  wp (tsx_resched_retransmission t) Q w.
Proof.
  intros HI Hx HQ. unfold tsx_resched_retransmission. wbind.
  eapply wp_get_tsx; [done|]. wbind. apply wp_ask. apply wp_when; intros _.
  - wbind. eapply wp_schedule_retransmit; [done..|]. intros _ w1 H1 E1 _ _.
    by apply wp_ret, HQ.
  - apply HQ; [by apply evolves_refl|done].
Qed.

Lemma wp_send_direct t td p x (Q : bool * Z -> W -> Prop) w :
  tsx_inv w -> tsxs w !! t = Some x -> state_handler x <> None ->
  TSX_HAS_PENDING_TRANSPORT (transport_flag x) = false -> is_Some (tdatas w !! td) ->
  (forall y b st w', evolves None w w' -> tsxs w' !! t = Some y -> same_core x y ->
     (transport_err y = transport_err x \/ transport_err y <> 0) -> deferred_ok y ->
     TSX_HAS_RESOLVED_SERVER (transport_flag y) = TSX_HAS_RESOLVED_SERVER (transport_flag x) ->
     (b = true /\ st = PJ_SUCCESS \/
      b = false /\ st <> PJ_SUCCESS /\
        TSX_HAS_PENDING_TRANSPORT (transport_flag y) = false) -> Q (b, st) w') ->
  wp (tsx_send_direct t td p) Q w.
Proof.
  intros HI Hx Hh Hpt Htd HQ. pose proof (inv_deferred _ _ _ HI Hx Hh Hpt) as Hd.
  unfold tsx_send_direct. wbind. eapply (wp_lock t true); [done..|].
  intros w1 H1 E1 _ D1 _. rewrite <- E1 in Hx. rewrite <- D1 in Htd. wbind.
  eapply wp_set_flag; [apply H1|exact Hx|cbn; by auto|cbn; by auto|].
  intros w2 H2 E2 [_ D2 _ _]. rewrite <- D2 in Htd.
  set (x2 := x <| transport_flag := _ |>) in E2. destruct Htd as [d Hdd].
  wbind. unfold pjsip_transport_send. wbind. apply wp_ask. wbind.
  apply wp_emit_ev; [apply H2|]. intros w3 H3 E3 _ D3 _. rewrite <- D3 in Hdd.
  rewrite <- E3 in E2. wbind.
  eapply wp_upd_td; [apply H3|exact Hdd|exact (ti_td _ (ev_inv _ _ _ H3) td d Hdd)|].
  intros w4 H4 E4 _ _. rewrite <- E4 in E2. apply wp_ret. wbind.
  assert (H : evolves None w w4) by eauto using evolves_trans. clear H1 H2 H3.
  set (st := transport_send w2 p td). destruct (Z.eqb_spec st PJ_EPENDING) as [Est|Est].
  { apply wp_ret. rewrite Z.eqb_refl. apply wp_ret. eapply HQ; try done; auto. }
  wbind. eapply wp_clear_pending; [apply H4|exact E2|exact Hd|].
  intros w5 H5 E5. wbind. eapply (wp_lock t false); [apply H5|exact E5|].
  intros w6 H6 E6 _ _ _. rewrite <- E6 in E5. apply wp_ret.
  set (x5 := x2 <| transport_flag := _ |>) in E5.
  assert (H' : evolves None w w6) by eauto using evolves_trans. clear H H4 H5.
  destruct (Z.eqb_spec st PJ_SUCCESS) as [Es|Es]; cbn [negb].
  { apply wp_ret. eapply HQ; [exact H'|exact E5|..]; try done; auto. }
  wbind. eapply wp_update_transport; [apply H6|exact E5|]. intros y w7 H7 E7 F7 _.
  destruct (tp_frame_core _ _ F7) as (C7 & Ff7 & _).
  pose proof (inv_base _ _ _ (ev_inv _ _ _ H7) E7) as Hb7.
  wbind. eapply (wp_upd_plain t _ y); try done; try apply Hb7; [apply H7|by left|].
  intros w8 H8 E8 _. apply wp_ret.
  assert (He : transport_err y = transport_err x \/ transport_err y <> 0).
  { by destruct F7 as (? & ? & ? & -> & [-> | ]); [left|right]. }
  eapply HQ; [|exact E8|..]; cbn; rewrite ?Ff7; try done; auto.
  - eauto using evolves_trans.
  - by destruct C7.
  - intros Hlt Hs. cbn in *. rewrite Ff7 in Hs. rewrite (sc_state _ _ C7) in Hlt.
    destruct He as [-> | ]; [by apply Hd|done].
Qed.

(** ** Notifications *)

(** [tsx_send_msg], called in transactions that satisfy [ok]. *)
Definition send_spec (ok : pjsip_transaction -> Prop) (send : nat -> nat -> M W Z) : Prop :=
  forall t td x (Q : Z -> W -> Prop) w,
    tsx_inv w -> tsxs w !! t = Some x -> state_handler x <> None ->
    state x <> PJSIP_TSX_STATE_DESTROYED -> ok x -> is_Some (tdatas w !! td) ->
    (forall st y w', evolves None w w' -> tsxs w' !! t = Some y -> send_post x st y ->
       Q st w') ->
    wp (send t td) Q w.

(** Notifications call it with the server resolved. *)
Definition resolved (x : pjsip_transaction) : Prop :=
  TSX_HAS_RESOLVED_SERVER (transport_flag x) = true.

Lemma handler_terminated r : is_Some (handler_of r PJSIP_TSX_STATE_TERMINATED).
Proof. destruct r; by eexists. Qed.

Lemma handler_destroyed r : is_Some (handler_of r PJSIP_TSX_STATE_DESTROYED).
Proof. destruct r; by eexists. Qed.

(** Terminating a transaction arms its timer. *)
Lemma wp_set_terminated t src x (Q : unit -> W -> Prop) w :
  tsx_inv w -> tsxs w !! t = Some x -> state_handler x <> None -> src_ok src ->
  state_le (state x) PJSIP_TSX_STATE_TERMINATED ->
  (forall y w', evolves None w w' -> tsxs w' !! t = Some y -> tsx_le x y ->
     state y = PJSIP_TSX_STATE_TERMINATED -> no_zombie w' t -> Q tt w') ->
  wp (tsx_set_state t PJSIP_TSX_STATE_TERMINATED src 0) Q w.
Proof.
  intros HI Hx Hh Hsrc Hle HQ.
  eapply (wp_set_state HE); try done; [apply handler_terminated|by intros _ [|]|].
  intros w' y H1 E1 L1 Hz Ha _.
  assert (state y = PJSIP_TSX_STATE_TERMINATED) as Ey.
  { specialize (Ha ltac:(done)). pose proof (tl_state _ _ L1) as Hl.
    unfold state_le in Hl. cbn in Hl. by destruct (state y). }
  eapply HQ; [|exact E1| |done|by apply Hz].
  - apply (evolves_close t); [done|]. by apply Hz.
  - destruct L1. split; try done. by rewrite Ey.
Qed.

(** Destroying a transaction whose destruction was pending. *)
Lemma wp_destroy_pending t src x (Q : unit -> W -> Prop) w :
  tsx_inv w -> tsxs w !! t = Some x -> state_handler x <> None -> src_ok src ->
  state x = PJSIP_TSX_STATE_DESTROYED ->
  (forall y w', evolves None w w' -> tsxs w' !! t = Some y -> notify_post x y -> Q tt w') ->
  wp (tsx_set_state t PJSIP_TSX_STATE_DESTROYED src 0) Q w.
Proof.
  intros HI Hx Hh Hsrc Hst HQ. eapply (wp_set_state HE); try done.
  - rewrite Hst. apply state_le_refl.
  - apply handler_destroyed.
  - intros _ [|]; done.
  - intros w' y H1 E1 L1 Hz _ _. eapply HQ; [|exact E1|].
    + apply (evolves_close t); [done|]. by apply Hz.
    + assert (state y = PJSIP_TSX_STATE_DESTROYED) as Ey.
      { pose proof (tl_state _ _ L1) as Hle. unfold state_le in Hle. cbn in Hle.
        by destruct (state y). }
      split.
      * destruct L1. split; try done. rewrite Hst, Ey. apply state_le_refl.
      * by rewrite Hst.
      * by rewrite Hst.
      * intros _ Hlt. by rewrite Ey in Hlt.
Qed.

Lemma wp_upd_raw t f x (Q : unit -> W -> Prop) w :
  tsxs w !! t = Some x -> Q tt (w <| tsxs := <[t := f x]> (tsxs w) |>) ->
  wp (upd_tsx t f) Q w.
Proof. intros Hx H. unfold wp, upd_tsx. by rewrite Hx. Qed.

(** Restarting the retransmission timer that waited for the transport. *)
Lemma wp_resched_deferred t x (w0 w : W) (Q : unit -> W -> Prop) y :
  state_handler x <> None -> evolves None w0 w -> tsxs w !! t = Some y -> notify_post x y ->
  (forall z w', evolves None w0 w' -> tsxs w' !! t = Some z -> notify_post x z -> Q tt w') ->
  wp (x ← get_tsx t;
      when (TSX_HAS_PENDING_RESCHED (transport_flag x)
            && negb (TSX_HAS_PENDING_TRANSPORT (transport_flag x))) (
        set_flag t (fun f => f <| TSX_HAS_PENDING_RESCHED := false |>);;
        when (negb (is_reliable x)) (tsx_resched_retransmission t))) Q w.
Proof.
  intros Hh H1 E1 N1 HQ. wbind. eapply wp_get_tsx; [exact E1|].
  apply wp_when; [|by eauto]. intros [Hr Hp]%andb_prop. apply negb_true_iff in Hp.
  pose proof (np_le _ _ N1) as L1. pose proof (tl_handler _ _ L1) as Hhy.
  wbind. eapply wp_set_flag; [apply H1|exact E1|cbn; by auto|..].
  { cbn. apply (to_send _ (inv_ok _ _ _ (ev_inv _ _ _ H1) E1 Hhy)). }
  intros w2 H2 E2 _.
  assert (N2 : notify_post x (y <| transport_flag := transport_flag y
    <| TSX_HAS_PENDING_RESCHED := false |> |>)).
  { eapply notify_post_trans; [exact N1|]. apply notify_post_core; try done. by left. }
  apply wp_when; intros _; [|by eapply HQ; eauto using evolves_trans].
  eapply wp_resched; [apply H2|exact E2|]. intros w3 H3 E3.
  rewrite <- E3 in E2. eapply HQ; eauto using evolves_trans.
Qed.

(** After a transmission: the pending flag has been cleared (flags [F]),
    which alone does not keep the invariant when a message was deferred. *)
Lemma wp_after_send ok send t F x (Q : unit -> W -> Prop) w :
  send_spec ok send ->
  tsx_inv w -> tsxs w !! t = Some x -> state_handler x <> None -> callback_ok x ->
  TSX_HAS_PENDING_TRANSPORT F = false ->
  TSX_HAS_PENDING_SEND F = TSX_HAS_PENDING_SEND (transport_flag x) ->
  TSX_HAS_PENDING_DESTROY F = TSX_HAS_PENDING_DESTROY (transport_flag x) ->
  ok (x <| transport_flag := F <| TSX_HAS_PENDING_SEND := false |> |>) ->
  (forall y w', evolves None w w' -> tsxs w' !! t = Some y -> notify_post x y -> Q tt w') ->
  wp (tsx_after_send send t) Q
    (w <| tsxs := <[t := x <| transport_flag := F |>]> (tsxs w) |>).
Proof.
  intros Hsend HI Hx Hh Hcb Fp Fs Fd Hok HQ.
  pose proof (inv_ok _ _ _ HI Hx Hh) as Hx_ok. pose proof (inv_base _ _ _ HI Hx) as Hb.
  set (x1 := x <| transport_flag := F |>). set (w1 := w <| tsxs := _ |>).
  assert (E1 : tsxs w1 !! t = Some x1) by apply lookup_insert_eq.
  assert (Hev : (state_lt (state x) PJSIP_TSX_STATE_TERMINATED = true ->
    TSX_HAS_PENDING_SEND F = true -> transport_err x <> 0) -> evolves None w w1).
  { intros Hd. apply (evolves_upd_tsx t x x1); try done; try apply Hb.
    intros _. destruct Hx_ok as [K1 K2 K3 K4 K5 K6]. split; cbn; try done.
    - rewrite Fd. auto.
    - intros Hlt Hs. right. auto. }
  assert (N1 : notify_post x x1).
  { apply notify_post_core; try done; [by left|]. intros Hd Hlt Hs. cbn in Hs.
    rewrite Fs in Hs. by apply Hd. }
  unfold tsx_after_send. wbind. eapply wp_get_tsx; [exact E1|].
  cbn [transport_flag set_field x1]. rewrite Fd.
  destruct (TSX_HAS_PENDING_DESTROY (transport_flag x)) eqn:Hpd.
  { pose proof (to_destroy _ Hx_ok Hpd) as Hst.
    assert (H1 : evolves None w w1) by (apply Hev; by rewrite Hst).
    eapply wp_destroy_pending; [apply H1|exact E1|done|done|done|].
    intros y w2 H2 E2 N2. eapply HQ; [by eapply evolves_trans|exact E2|].
    by eapply notify_post_trans. }
  assert (Halive : state x <> PJSIP_TSX_STATE_DESTROYED).
  { intros Hst. specialize (Hcb Hst). congruence. }
  rewrite Fs. wbind. destruct (TSX_HAS_PENDING_SEND (transport_flag x)) eqn:Hps; cbn [when].
  2:{ assert (H1 : evolves None w w1) by (apply Hev; congruence).
      eapply wp_resched_deferred; [exact Hh|exact H1|exact E1|done|done]. }
  set (x2 := x <| transport_flag := F <| TSX_HAS_PENDING_SEND := false |> |>).
  assert (H2 : evolves None w (w <| tsxs := <[t := x2]> (tsxs w) |>)).
  { apply (evolves_upd_tsx t x x2); try done; try apply Hb.
    intros _. destruct Hx_ok as [K1 K2 K3 K4 K5 K6]. split; cbn; try done.
    by rewrite Fd. }
  set (w2 := w <| tsxs := <[t := x2]> (tsxs w) |>) in *.
  assert (E2 : tsxs w2 !! t = Some x2) by apply lookup_insert_eq.
  assert (N2 : notify_post x x2).
  { apply notify_post_core; try done. by left. }
  wbind. eapply wp_upd_raw; [exact E1|].
  assert (w1 <| tsxs := <[t := x1 <| transport_flag :=
      transport_flag x1 <| TSX_HAS_PENDING_SEND := false |> |>]> (tsxs w1) |> = w2) as ->.
  { unfold w1, w2. cbn. by rewrite insert_insert_eq. }
  cbn [last_tx set_field x1]. destruct (last_tx x) as [td|] eqn:Hl.
  2:{ apply wp_ret. by eapply wp_resched_deferred. }
  wbind. eapply (Hsend t td x2); try done; [apply H2|by apply Hb|].
  intros st y w3 H3 E3 [SL SA SS SD]. apply wp_ret.
  eapply (wp_resched_deferred t x w); [exact Hh|by eapply evolves_trans|exact E3| |done].
  split; [|by auto| |].
  - eapply tsx_le_trans; [apply N2|done].
  - intros Hlt. destruct (SS Hlt) as [|[Hy _]]; [by left|right]. split; [done|].
    intros Hd. apply SL. exact (Hd Hlt Hps).
  - intros _. by apply SD.
Qed.


Lemma deferred_frame x y :
  same_core x y -> transport_flag y = transport_flag x ->
  (transport_err y = transport_err x \/ transport_err y <> 0) ->
  deferred_ok x -> deferred_ok y.
Proof.
  intros C F He Hd Hlt Hs. rewrite (sc_state _ _ C) in Hlt. rewrite F in Hs.
  destruct He as [-> | ]; [by apply Hd|done].
Qed.

Lemma tp_frame_err x y :
  tp_frame x y -> transport_err y = transport_err x \/ transport_err y <> 0.
Proof. by intros (tr & k & e & -> & [-> | ]); [left|right]. Qed.

(** Adopting the transport the message was sent with. *)
Lemma wp_adopt_transport t td cur x (Q : unit -> W -> Prop) w :
  tsx_inv w -> tsxs w !! t = Some x -> is_Some (tdatas w !! td) -> cur <> None ->
  (forall y w', evolves None w w' -> tsxs w' !! t = Some y -> same_core x y ->
     transport_flag y = transport_flag x ->
     (transport_err y = transport_err x \/ transport_err y <> 0) -> Q tt w') ->
  wp (when (bool_decide (transport x <> cur)) (
    tsx_update_transport t cur;;
    d ← get_td td;
    p ← from_option cur;
    upd_tsx t (fun x => x <| addr_len := td_addr_len d |>
                          <| is_reliable := tp_reliable p |>))) Q w.
Proof.
  intros HI Hx Htd Hcur HQ. apply wp_when; intros _.
  2:{ eapply HQ; [by apply evolves_refl|exact Hx|by split|done|by left]. }
  destruct cur as [p|]; [|done].
  wbind. eapply wp_update_transport; [done..|]. intros y w1 H1 E1 F1 _.
  destruct (tp_frame_core _ _ F1) as (C1 & Ff & _).
  destruct (ev_td _ _ _ H1 td Htd) as [d Hd]. wbind. eapply wp_get_td; [exact Hd|].
  wbind. eapply wp_from_option; [done|].
  pose proof (inv_base _ _ _ (ev_inv _ _ _ H1) E1) as Hb.
  eapply (wp_upd_plain t _ y); try done; try apply Hb; [apply H1|by left|].
  intros w2 H2 E2 _. eapply HQ; [|exact E2|..].
  - by eapply evolves_trans.
  - by destruct C1.
  - exact Ff.
  - exact (tp_frame_err _ _ F1).
Qed.

Lemma wp_send_msg_sent ok send t td cur x (Q : unit -> W -> Prop) w :
  send_spec ok send -> (forall y, resolved y -> ok y) ->
  tsx_inv w -> tsxs w !! t = Some x -> state_handler x <> None -> callback_ok x ->
  is_Some (tdatas w !! td) -> cur <> None ->
  (forall y w', evolves None w w' -> tsxs w' !! t = Some y -> notify_post x y -> Q tt w') ->
  wp (send_msg_sent send t td cur) Q w.
Proof.
  intros Hsend Hres HI Hx Hh Hcb Htd Hcur HQ. unfold send_msg_sent. wbind.
  eapply wp_get_tsx; [done|]. wbind. eapply wp_adopt_transport; [done..|].
  intros y w1 H1 E1 C1 F1 He1. wbind. eapply wp_upd_raw; [exact E1|]. wbind.
  eapply wp_upd_raw; [apply lookup_insert_eq|].
  match goal with |- wp _ _ ?w => set (w2 := w) end.
  set (F := transport_flag y <| TSX_HAS_PENDING_TRANSPORT := false |>
              <| TSX_HAS_RESOLVED_SERVER := true |>).
  assert (w2 = w1 <| tsxs := <[t := y <| transport_flag := F |>]> (tsxs w1) |>) as ->.
  { unfold w2. cbn. by rewrite insert_insert_eq. }
  assert (N1 : notify_post x y).
  { apply notify_post_core; try done. by apply deferred_frame. }
  eapply (wp_after_send ok send t F y); try done.
  - apply H1.
  - apply N1.
  - intros Hst. rewrite F1. apply Hcb. by rewrite <- (sc_state _ _ C1).
  - by apply Hres.
  - intros z w4 H4 E4 N4. eapply HQ; [by eapply evolves_trans|exact E4|].
    by eapply notify_post_trans.
Qed.

(** [tsx_cancel_timer] and [tsx_schedule_timer] of the timeout timer with
    the settings read in between. *)
Lemma wp_restart_timeout_ask t x (Q : unit -> W -> Prop) w :
  tsx_inv w -> tsxs w !! t = Some x ->
  (forall w', evolves None w w' -> tsxs w' = tsxs w -> Q tt w') ->
  wp (tsx_cancel_timer (timeout_timer t);; w ← ask;
      tsx_schedule_timer (timeout_timer t) (timeout_timer_val (settings w)) TIMEOUT_TIMER;;
      mret tt) Q w.
Proof.
  intros HI Hx HQ.
  assert (H : wp (restart_timeout t (timeout_timer_val (settings w))) Q w).
  { eapply wp_restart_timeout; [done..|]. intros w' H1 E1 _ _. by apply HQ. }
  revert H. unfold restart_timeout, wp, mbind, M_bind, ask, tsx_cancel_timer.
  destruct (ts_cancel _ _ _) as [[n tw]|]; [|done]. cbn. done.
Qed.

(** A transmission that failed for good terminates the transaction. *)
Lemma wp_send_given_up t td sent x y (Q : unit -> W -> Prop) w w1 :
  state_handler x <> None -> sent <> 0 -> evolves None w w1 -> tsxs w1 !! t = Some y ->
  same_core x y -> transport_flag y = transport_flag x ->
  (forall y w', evolves None w w' -> tsxs w' !! t = Some y -> notify_post x y -> Q tt w') ->
  wp (upd_tsx t (fun x => x <| transport_err := - sent |>);;
      set_flag t (fun f => f <| TSX_HAS_PENDING_TRANSPORT := false |>);;
      set_flag t (fun f => f <| TSX_HAS_RESOLVED_SERVER := true |>);;
      let sc := if (- sent =? PJ_ERESOLVE) || (- sent =? PJLIB_UTIL_EDNS_NXDOMAIN)
                then PJSIP_SC_BAD_GATEWAY else PJSIP_SC_TSX_TRANSPORT_ERROR in
      tsx_set_status_code t sc (Some (TextStrerror (- sent)));;
      x ← get_tsx t;
      if bool_decide (state x <> PJSIP_TSX_STATE_TERMINATED)
         && bool_decide (state x <> PJSIP_TSX_STATE_DESTROYED) then
        tsx_set_state t PJSIP_TSX_STATE_TERMINATED
          (PJSIP_EVENT_TRANSPORT_ERROR (Some td)) 0
      else
        when (TSX_HAS_PENDING_DESTROY (transport_flag x)) (
          tsx_set_state t PJSIP_TSX_STATE_DESTROYED
            (PJSIP_EVENT_TRANSPORT_ERROR (Some td)) 0)) Q w1.
Proof.
  intros Hh Hsent H1 E1 C1 F1 HQ.
  pose proof (inv_base _ _ _ (ev_inv _ _ _ H1) E1) as Hb. wbind.
  eapply (wp_upd_plain t _ y); try done; try apply Hb; [apply H1|cbn; right; lia|].
  intros w2 H2 E2 _.
  wbind. eapply wp_clear_pending; [apply H2|exact E2|..].
  { intros _ _. cbn. lia. }
  intros w3 H3 E3. wbind. eapply wp_set_flag; [apply H3|exact E3|cbn; by auto|..].
  { cbn. intros _ _. right. lia. }
  intros w4 H4 E4 _. cbv zeta. wbind.
  eapply wp_set_status; [apply H4|exact E4|..].
  { intros _ _. destruct (_ || _); done. }
  intros z w5 H5 E5 _ [txt ->].
  match type of E5 with _ = Some ?v => set (x5 := v) in * end.
  assert (N5 : notify_post x x5).
  { apply notify_post_core; try done; [by destruct C1|cbn; right; lia|].
    intros _ _ _. cbn. lia. }
  assert (Er : transport_err x5 <> 0) by (cbn; lia).
  assert (Es : state x5 = state x) by apply C1.
  assert (Ef : TSX_HAS_PENDING_DESTROY (transport_flag x5) =
               TSX_HAS_PENDING_DESTROY (transport_flag x)) by (cbn; by rewrite F1).
  assert (H : evolves None w w5) by eauto using evolves_trans.
  clearbody x5. clear H1 H2 H3 H4 C1 F1 Hb E1 E2 E3 E4.
  wbind. eapply wp_get_tsx; [exact E5|].
  repeat case_bool_decide; cbn [andb].
  - eapply wp_set_terminated; [apply H|exact E5|apply N5|done|..].
    { rewrite Es in *. unfold state_le. by destruct (state x). }
    intros y' w6 H6 E6 L6 Ey _. eapply HQ; [by eapply evolves_trans|exact E6|].
    eapply notify_post_trans; [exact N5|]. split; [done|by rewrite Ey|..].
    + intros _. right. split; [done|]. intros _. by apply L6.
    + intros _ Hlt. by rewrite Ey in Hlt.
  - destruct (TSX_HAS_PENDING_DESTROY _) eqn:Hp; [|by eapply HQ].
    eapply wp_destroy_pending; [apply H|exact E5|apply N5|done| |].
    { congruence. }
    intros y' w6 H6 E6 N6. eapply HQ; [by eapply evolves_trans|exact E6|].
    by eapply notify_post_trans.
  - destruct (TSX_HAS_PENDING_DESTROY _) eqn:Hp; [|by eapply HQ].
    pose proof (to_destroy _ (inv_ok _ _ _ (ev_inv _ _ _ H) E5
      (tl_handler _ _ (np_le _ _ N5))) Hp). congruence.
  - congruence.
Qed.

(** A temporary failure: the next server will be tried. *)
Lemma wp_send_retry t td x y (Q : unit -> W -> Prop) w w1 :
  state_handler x <> None -> is_Some (tdatas w !! td) ->
  evolves None w w1 -> tsxs w1 !! t = Some y ->
  same_core x y -> transport_flag y = transport_flag x ->
  (transport_err y = transport_err x \/ transport_err y <> 0) ->
  (forall y w', evolves None w w' -> tsxs w' !! t = Some y -> notify_post x y -> Q tt w') ->
  wp (upd_tsx t (fun x => x <| retransmit_count := 0 |>);;
      id ← timer_id (timeout_timer t);
      when (negb (id =? 0)) (
        tsx_cancel_timer (timeout_timer t);;
        w ← ask;
        tsx_schedule_timer (timeout_timer t) (timeout_timer_val (settings w))
          TIMEOUT_TIMER;;
        mret tt);;
      upd_td td (fun d => d <| td_mod_data := Some t |>);;
      upd_tsx t (fun x => x <| pending_tx := Some td |>);;
      lock_add_ref t) Q w1.
Proof.
  intros Hh Htd H1 E1 C1 F1 He1 HQ.
  pose proof (inv_base _ _ _ (ev_inv _ _ _ H1) E1) as Hb. wbind.
  eapply (wp_upd_plain t _ y); try done; try apply Hb; [apply H1|by left|].
  intros w2 H2 E2 _. wbind.
  pose proof (inv_base _ _ _ (ev_inv _ _ _ H2) E2) as Hb2.
  destruct (tb_timeout _ _ _ Hb2) as [id Hid].
  unfold timer_id at 1. unfold wp at 1. rewrite Hid. cbn [mbind option_bind]. wbind.
  assert (Hrest : forall w3, evolves None w2 w3 -> tsxs w3 = tsxs w2 ->
    wp (upd_td td (fun d => d <| td_mod_data := Some t |>);;
      upd_tsx t (fun x => x <| pending_tx := Some td |>);;
      lock_add_ref t) Q w3).
  { intros w3 H3 E3. rewrite <- E3 in E2.
    assert (H : evolves None w w3) by eauto using evolves_trans.
    destruct (ev_td _ _ _ H td Htd) as [d Hdd]. wbind.
    eapply wp_upd_td; [apply H|exact Hdd|exact (ti_td _ (ev_inv _ _ _ H) td d Hdd)|].
    intros w4 H4 E4 _ _. rewrite <- E4 in E2.
    pose proof (inv_base _ _ _ (ev_inv _ _ _ H4) E2) as Hb4. wbind.
    eapply (wp_upd_plain t _ _ _ w4); try done; try apply Hb4; [apply H4|by left|..].
    { intros td' [= <-]. by eapply ev_td, ev_td. }
    intros w5 H5 E5 _. eapply (wp_lock t true); [apply H5|exact E5|].
    intros w6 H6 E6 _ _ _. rewrite <- E6 in E5. eapply HQ; [|exact E5|].
    - eauto using evolves_trans.
    - apply notify_post_core; try done; [by destruct C1|].
      apply deferred_frame; [by destruct C1|exact F1|exact He1]. }
  apply wp_when; intros _; [|by apply Hrest; [apply evolves_refl, H2|]].
  eapply wp_restart_timeout_ask; [apply H2|exact E2|done].
Qed.

Lemma wp_send_msg_failed t td cur sent cont x (Q : unit -> W -> Prop) w :
  tsx_inv w -> tsxs w !! t = Some x -> state_handler x <> None ->
  is_Some (tdatas w !! td) -> sent <> 0 ->
  (forall y w', evolves None w w' -> tsxs w' !! t = Some y -> notify_post x y -> Q tt w') ->
  wp (send_msg_failed t td cur sent cont) Q w.
Proof.
  intros HI Hx Hh Htd Hsent HQ. unfold send_msg_failed. wbind.
  eapply wp_get_tsx; [done|]. wbind.
  assert (Hm : wp (when (bool_decide (cur = transport x)) (tsx_update_transport t None))
    (fun _ w1 => exists y, evolves None w w1 /\ tsxs w1 !! t = Some y /\ same_core x y /\
       transport_flag y = transport_flag x /\
       (transport_err y = transport_err x \/ transport_err y <> 0)) w).
  { apply wp_when; intros _.
    - eapply wp_update_transport; [done..|]. intros y w1 H1 E1 F1 _.
      destruct (tp_frame_core _ _ F1) as (C1 & Ff & _).
      exists y. split; [done|]. split; [done|]. split; [done|].
      split; [done|by apply tp_frame_err].
    - exists x. split; [by apply evolves_refl|]. split; [done|].
      split; [by split|]. split; [done|by left]. }
  eapply wp_mono; [|exact Hm]. intros _ w1 (y & H1 & E1 & C1 & F1 & He1).
  wbind. eapply wp_get_tsx; [exact E1|].
  case_match; [by eapply wp_send_given_up|by eapply wp_send_retry].
Qed.

Lemma wp_send_msg_callback ok send t td n x (Q : bool -> W -> Prop) w :
  send_spec ok send -> (forall y, resolved y -> ok y) -> notify_ok n ->
  tsx_inv w -> tsxs w !! t = Some x -> state_handler x <> None -> callback_ok x ->
  is_Some (tdatas w !! td) ->
  (forall b y w', evolves None w w' -> tsxs w' !! t = Some y -> notify_post x y ->
     Q b w') ->
  wp (send_msg_callback send t td n) Q w.
Proof.
  intros Hsend Hres [Hs Htp] HI Hx Hh Hcb [d Hdd] HQ. unfold send_msg_callback.
  wbind. apply wp_ask. wbind. eapply wp_get_td; [exact Hdd|].
  destruct (_ || _).
  { apply wp_ret. eapply HQ; [by apply evolves_refl|exact Hx|].
    apply notify_post_core; auto. by split. }
  wbind. eapply (wp_lock t false); [done..|]. intros w1 H1 E1 _ D1 _.
  rewrite <- E1 in Hx. rewrite <- D1 in Hdd. wbind.
  eapply wp_upd_td; [apply H1|exact Hdd|exact (ti_td _ (ev_inv _ _ _ H1) td d Hdd)|].
  intros w2 H2 E2 _ _. rewrite <- E2 in Hx.
  pose proof (inv_base _ _ _ (ev_inv _ _ _ H2) Hx) as Hb. wbind.
  eapply (wp_upd_plain t _ x); try done; try apply Hb; [apply H2|by left|].
  intros w3 H3 E3 _. set (x3 := x <| pending_tx := None |>) in E3.
  assert (H : evolves None w w3) by eauto using evolves_trans.
  assert (Htd : is_Some (tdatas w3 !! td)).
  { eapply ev_td; [exact H3|]. eapply ev_td; [exact H2|]. by eexists. }
  assert (Hrest : forall y w', evolves None w3 w' -> tsxs w' !! t = Some y ->
    notify_post x3 y -> wp (mret (sn_cont n)) Q w').
  { intros y w' H4 E4 N4. apply wp_ret. eapply HQ; [by eapply evolves_trans|exact E4|].
    eapply notify_post_trans; [|exact N4]. apply notify_post_core; try done. by left. }
  wbind. destruct (Z.ltb_spec 0 (sn_sent n)) as [Hlt|Hlt].
  - eapply (wp_send_msg_sent ok send t td _ x3); try done; [apply H3|by apply Htp].
  - eapply (wp_send_msg_failed t td _ _ _ x3); try done. apply H3.
Qed.

Lemma callback_post x y :
  callback_ok x -> notify_post x y -> state x <> PJSIP_TSX_STATE_DESTROYED -> callback_ok y.
Proof. intros _ N Hx Hy. by destruct (np_alive _ _ N Hx). Qed.

Lemma wp_send_notifications send t td ns x (Q : unit -> W -> Prop) w :
  send_spec resolved send -> Forall notify_ok ns ->
  tsx_inv w -> tsxs w !! t = Some x -> state_handler x <> None ->
  state x <> PJSIP_TSX_STATE_DESTROYED -> is_Some (tdatas w !! td) ->
  (forall y w', evolves None w w' -> tsxs w' !! t = Some y -> notify_post x y -> Q tt w') ->
  wp (send_notifications send t td ns) Q w.
Proof.
  intros Hsend Hns. revert x w. induction Hns as [|n ns Hn Hns IH];
    intros x w HI Hx Hh Ha Htd HQ; cbn [send_notifications].
  { apply wp_ret. eapply HQ; [by apply evolves_refl|exact Hx|].
    apply notify_post_core; auto. by split. }
  wbind. eapply (wp_send_msg_callback resolved); try done; [by intros ?|].
  intros b y w1 H1 E1 N1. apply wp_when; intros _; [|by eapply HQ].
  eapply (IH y); [apply H1|exact E1|apply N1|by apply N1|by eapply ev_td|].
  intros z w2 H2 E2 N2. eapply HQ; [by eapply evolves_trans|exact E2|].
  by eapply notify_post_trans.
Qed.

(** ** [tsx_send_msg] *)

Lemma wp_send_failed_status t td (status : Z) x y (Q : Z -> W -> Prop) w w1 :
  evolves None w w1 -> tsxs w1 !! t = Some y -> notify_post x y -> deferred_ok x ->
  is_Some (tdatas w1 !! td) -> state_handler x <> None ->
  (forall st z w', evolves None w w' -> tsxs w' !! t = Some z -> send_post x st z ->
     Q st w') ->
  wp (when (negb (status =? PJ_SUCCESS)) (
        set_flag t (fun f => f <| TSX_HAS_PENDING_TRANSPORT := false |>);;
        lock_dec_ref t;;
        emit (OutDecRef (RefTdata td));;
        upd_td td (fun d => d <| td_mod_data := None |>);;
        upd_tsx t (fun x => x <| pending_tx := None |>));;
      x ← get_tsx t;
      mret (if (status =? PJ_SUCCESS) && bool_decide (state x = PJSIP_TSX_STATE_TERMINATED)
            then transport_err x else status)) Q w1.
Proof.
  intros H1 E1 N1 Hdx [d Hd] Hh HQ. wbind.
  assert (Hend : forall w2 z, evolves None w w2 -> tsxs w2 !! t = Some z ->
    notify_post x z ->
    wp (x ← get_tsx t;
        mret (if (status =? PJ_SUCCESS) && bool_decide (state x = PJSIP_TSX_STATE_TERMINATED)
              then transport_err x else status)) Q w2).
  { intros w2 z H2 E2 [L2 A2 S2 D2]. wbind. eapply wp_get_tsx; [exact E2|]. apply wp_ret.
    eapply HQ; [done|exact E2|]. split; [done|done| |by auto]. intros Hlt.
    destruct (S2 Hlt) as [|[Ez Ee]]; [by left|right]. split; [done|]. specialize (Ee Hdx).
    destruct (Z.eqb_spec status PJ_SUCCESS); [|done]. cbn.
    by rewrite bool_decide_eq_true_2. }
  apply wp_when; intros Hst; [|by eapply Hend].
  wbind. eapply wp_clear_pending; [apply H1|exact E1|by apply N1|]. intros w2 H2 E2.
  wbind. eapply (wp_lock t false); [apply H2|exact E2|]. intros w3 H3 E3 _ _ _.
  rewrite <- E3 in E2. wbind. apply wp_emit_ev; [apply H3|]. intros w4 H4 E4 _ _ _.
  rewrite <- E4 in E2. wbind.
  assert (H : evolves None w1 w4) by eauto using evolves_trans.
  destruct (ev_td _ _ _ H td ltac:(by eexists)) as [d' Hd'].
  eapply wp_upd_td; [apply H|exact Hd'|exact (ti_td _ (ev_inv _ _ _ H) td d' Hd')|].
  intros w5 H5 E5 _ _. rewrite <- E5 in E2.
  pose proof (inv_base _ _ _ (ev_inv _ _ _ H5) E2) as Hb.
  eapply (wp_upd_plain t _ _ _ w5); try done; try apply Hb; [apply H5|by left|].
  intros w6 H6 E6 _. eapply Hend; [by eauto using evolves_trans|exact E6|].
  eapply notify_post_trans; [exact N1|]. apply notify_post_core; try done; [apply N1|by left].
Qed.

Lemma wp_send_resolve send t td x (Q : Z -> W -> Prop) w :
  send_spec resolved send -> tsx_inv w -> tsxs w !! t = Some x -> state_handler x <> None ->
  state x <> PJSIP_TSX_STATE_DESTROYED -> deferred_ok x -> is_Some (tdatas w !! td) ->
  (forall st z w', evolves None w w' -> tsxs w' !! t = Some z -> send_post x st z ->
     Q st w') ->
  wp (tsx_send_resolve send t td) Q w.
Proof.
  intros Hsend HI Hx Hh Ha Hd [d Hdd] HQ. unfold tsx_send_resolve. wbind.
  apply wp_emit_ev; [done|]. intros w1 H1 E1 _ D1 _. rewrite <- E1 in Hx.
  rewrite <- D1 in Hdd. wbind.
  eapply wp_upd_td; [apply H1|exact Hdd|exact (ti_td _ (ev_inv _ _ _ H1) td d Hdd)|].
  intros w2 H2 E2 _ _. rewrite <- E2 in Hx.
  assert (Htd2 : is_Some (tdatas w2 !! td)) by (eapply ev_td; [exact H2|by eexists]).
  pose proof (inv_base _ _ _ (ev_inv _ _ _ H2) Hx) as Hb. wbind.
  eapply (wp_upd_plain t _ x); try done; try apply Hb; [apply H2|by left|..].
  { by intros td' [= <-]. }
  intros w3 H3 E3 _. wbind. eapply (wp_lock t true); [apply H3|exact E3|].
  intros w4 H4 E4 _ _ _. rewrite <- E4 in E3.
  assert (H : evolves None w2 w4) by by eapply evolves_trans.
  destruct (ev_td _ _ _ H td Htd2) as [d4 Hd4]. wbind.
  eapply wp_get_td; [exact Hd4|].
  destruct (ti_td _ (ev_inv _ _ _ H) td d4 Hd4) as [[msg Hmsg] Hcs]. wbind.
  eapply wp_from_option; [exact Hmsg|]. wbind.
  eapply wp_set_flag; [apply H|exact E3|cbn; by auto|cbn; by auto|].
  intros w5 H5 E5 _. match type of E5 with _ = Some ?v => set (x5 := v) in * end.
  wbind. apply wp_ask.
  set (r := match msg with PJSIP_REQUEST_MSG _ => _ | _ => _ end).
  assert (Hns : Forall notify_ok r.2).
  { subst r. destruct msg; [apply HE|apply HE]. }
  destruct r as [[status pending] ns]. cbn [snd] in Hns. wbind.
  apply wp_emit_ev; [apply H5|]. intros w6 H6 E6 _ _ _. rewrite <- E6 in E5.
  assert (H' : evolves None w w6) by eauto using evolves_trans.
  destruct (ev_td _ _ _ H6 td) as [d6 Hd6]; [eapply ev_td; [exact H5|by eexists]|]. wbind.
  eapply wp_upd_td; [apply H6|exact Hd6|exact (ti_td _ (ev_inv _ _ _ H6) td d6 Hd6)|].
  intros w7 H7 E7 _ _. rewrite <- E7 in E5. wbind.
  assert (N5 : notify_post x x5) by (apply notify_post_core; try done; by left).
  eapply wp_send_notifications; [exact Hsend|exact Hns|apply H7|exact E5|done|done|..].
  { eapply ev_td; [exact H7|by eexists]. }
  intros y w8 H8 E8 N8. eapply (wp_send_failed_status t td _ x y Q w w8); try done.
  - eauto using evolves_trans.
  - by eapply notify_post_trans.
  - eapply ev_td; [exact H8|]. eapply ev_td; [exact H7|by eexists].
Qed.

Lemma send_post_core x y status :
  same_core x y -> state_handler x <> None ->
  (transport_err y = transport_err x \/ transport_err y <> 0) ->
  (TSX_HAS_PENDING_TRANSPORT (transport_flag x) = false -> deferred_ok y) ->
  send_post x status y.
Proof.
  intros C Hh He Hd. split; [| | |done].
  - destruct C as [H1 H2 H3 H4 H5 H6]. split; try done.
    + rewrite H5. apply state_le_refl.
    + destruct He as [-> | ]; auto.
    + by rewrite H6.
  - by rewrite (sc_state _ _ C).
  - rewrite (sc_state _ _ C). auto.
Qed.

(** The server was resolved before: a permanent error. *)
Lemma wp_send_permanent t status x (Q : Z -> W -> Prop) w :
  tsx_inv w -> tsxs w !! t = Some x -> state_handler x <> None ->
  state x <> PJSIP_TSX_STATE_DESTROYED -> status <> PJ_SUCCESS ->
  (forall y w', evolves None w w' -> tsxs w' !! t = Some y -> send_post x status y ->
     Q status w') ->
  wp (tsx_set_status_code t PJSIP_SC_TSX_TRANSPORT_ERROR (Some (TextStrerror status));;
      tsx_set_state t PJSIP_TSX_STATE_TERMINATED (PJSIP_EVENT_TRANSPORT_ERROR None) 0;;
      mret status) Q w.
Proof.
  intros HI Hx Hh Ha Hst HQ. wbind. eapply wp_set_status; [done|done|done|].
  intros y w1 H1 E1 _ [txt ->]. wbind.
  match type of E1 with _ = Some ?v => set (x1 := v) in * end.
  eapply wp_set_terminated; [apply H1|exact E1|done|done|..].
  { cbn. unfold state_le. by destruct (state x). }
  intros y w2 H2 E2 L2 Ey _. apply wp_ret. eapply HQ; [by eapply evolves_trans|exact E2|].
  split.
  - by destruct L2.
  - by rewrite Ey.
  - by right.
  - intros _ Hlt. by rewrite Ey in Hlt.
Qed.

Lemma wp_send_body send t td x (Q : Z -> W -> Prop) w :
  (send_spec resolved send \/ TSX_HAS_RESOLVED_SERVER (transport_flag x) = true) ->
  tsx_inv w -> tsxs w !! t = Some x -> state_handler x <> None ->
  state x <> PJSIP_TSX_STATE_DESTROYED -> is_Some (tdatas w !! td) ->
  (forall st y w', evolves None w w' -> tsxs w' !! t = Some y -> send_post x st y ->
     Q st w') ->
  wp (tsx_send_msg_body send t td) Q w.
Proof.
  intros Hsend HI Hx Hh Ha Htd HQ. unfold tsx_send_msg_body. wbind.
  eapply wp_get_tsx; [done|].
  destruct (TSX_HAS_PENDING_TRANSPORT (transport_flag x)) eqn:Hpt.
  { wbind. eapply wp_set_flag; [done|done|cbn; by auto|cbn; by auto|].
    intros w1 H1 E1 _. apply wp_ret. eapply HQ; [done|exact E1|].
    apply send_post_core; try done; [by left|]. congruence. }
  pose proof (inv_deferred _ _ _ HI Hx Hh Hpt) as Hd. destruct Htd as [d Hdd].
  wbind. eapply wp_get_td; [exact Hdd|]. destruct (td_is_pending d).
  { apply wp_ret. eapply HQ; [by apply evolves_refl|exact Hx|].
    apply send_post_core; try done. by left. }
  wbind. assert (Hend : forall w1 y (b : bool) (st : Z), evolves None w w1 ->
    tsxs w1 !! t = Some y -> same_core x y ->
    (transport_err y = transport_err x \/ transport_err y <> 0) -> deferred_ok y ->
    TSX_HAS_RESOLVED_SERVER (transport_flag y) = TSX_HAS_RESOLVED_SERVER (transport_flag x) ->
    (b = false -> TSX_HAS_PENDING_TRANSPORT (transport_flag y) = false) ->
    wp (if b then mret PJ_SUCCESS
        else
          x ← get_tsx t;
          if TSX_HAS_RESOLVED_SERVER (transport_flag x) then
            let status := if st =? PJ_SUCCESS then PJ_EUNKNOWN else st in
            tsx_set_status_code t PJSIP_SC_TSX_TRANSPORT_ERROR
              (Some (TextStrerror status));;
            tsx_set_state t PJSIP_TSX_STATE_TERMINATED
              (PJSIP_EVENT_TRANSPORT_ERROR None) 0;;
            mret status
          else tsx_send_resolve send t td) Q w1).
  { intros w1 y b st H1 E1 C1 He1 D1 R1 P1.
    destruct b.
    { apply wp_ret. eapply HQ; [done|exact E1|]. by apply send_post_core. }
    assert (Hy : state_handler y <> None) by by eapply same_core_handler.
    assert (Hay : state y <> PJSIP_TSX_STATE_DESTROYED) by by rewrite (sc_state _ _ C1).
    assert (Hpost : forall s z w2, evolves None w1 w2 -> tsxs w2 !! t = Some z ->
      send_post y s z -> Q s w2).
    { intros s z w2 H2 E2 [L2 A2 S2 D2]. eapply HQ; [by eapply evolves_trans|exact E2|].
      split; [|by auto| |by auto].
      - eapply tsx_le_trans; [|exact L2]. by apply (np_le x y), notify_post_core.
      - rewrite <- (sc_state _ _ C1). done. }
    wbind. eapply wp_get_tsx; [exact E1|].
    destruct (TSX_HAS_RESOLVED_SERVER (transport_flag y)) eqn:Hr.
    - eapply wp_send_permanent; [apply H1|exact E1|done|done| |by eauto].
      by destruct (Z.eqb_spec st PJ_SUCCESS).
    - destruct Hsend as [Hsend|]; [|congruence].
      eapply wp_send_resolve; [done|apply H1|exact E1|done..| |by eauto].
      eapply ev_td; [exact H1|by eexists]. }
  destruct (transport x) as [p|].
  - eapply wp_send_direct; try done.
    intros y b st w1 H1 E1 C1 He1 D1 R1 Hcase.
    apply (Hend w1 y b st H1 E1 C1 He1 D1 R1).
    by destruct Hcase as [[-> ->]|(-> & Hst & Hp)].
  - apply wp_ret. by apply (Hend w x false PJ_SUCCESS); auto using evolves_refl, same_core_refl.
Qed.

Lemma send_spec_1 : send_spec resolved (tsx_send_msg_fuel 1).
Proof.
  intros t td x Q w HI Hx Hh Ha Hr Htd HQ. eapply wp_send_body; try done. by right.
Qed.

(** [tsx_send_msg]: two levels of nesting are enough. *)
Lemma wp_send_msg t td x (Q : Z -> W -> Prop) w :
  tsx_inv w -> tsxs w !! t = Some x -> state_handler x <> None ->
  state x <> PJSIP_TSX_STATE_DESTROYED -> is_Some (tdatas w !! td) ->
  (forall st y w', evolves None w w' -> tsxs w' !! t = Some y -> send_post x st y ->
     Q st w') ->
  wp (tsx_send_msg t td) Q w.
Proof.
  intros. eapply wp_send_body; try done. left. apply send_spec_1.
Qed.


End Send.
