(* ===== verification/TsxHandlers.v ===== *)
(** * SIP transactions: handlers and interface keep the invariant

    Preservation of the invariant by the state handlers, and by the functions
    that users of the layer call. *)

From S2P Require Import Prelude Monad TimeVal TimerSpec Hash TsxData TsxEnv Tsx TsxApi TsxInv TsxProofs.
From S2P Require Import TsxSend.
Local Open Scope Z_scope.

(** * SIP transactions: the state handlers keep the invariant

    For every state handler and every event that can reach it: the handler
    returns, the world evolves, and the transaction has its timeout timer if
    its state needs one. *)

(** ** Definitions *)

Section Defs.
Context {TW HT : Type} `{TS : !TimerService TW} `{KT : !KeyTable HT}.

#[local] Abbreviation W := (tsx_world TW HT).

(** Events as the layer and the timer heap deliver them: a received response
    has a code the transport layer lets through, a message to send exists, a
    timer is one of the two of the transaction, and a new server transaction
    is given its request first. *)
Definition event_ok (w : W) (t : nat) (x : pjsip_transaction) (ev : pjsip_event) : Prop :=
  match ev with
  | PJSIP_EVENT_RX_MSG rdata =>
      exists msg, rx_msg rdata = Some msg /\
        (forall code reason, msg = PJSIP_RESPONSE_MSG code reason -> 100 <= code < 700)
  | PJSIP_EVENT_TX_MSG td =>
      is_Some (tdatas w !! td) /\
      (state x = PJSIP_TSX_STATE_NULL -> role x = PJSIP_ROLE_UAC)
  | PJSIP_EVENT_TIMER e =>
      (e = timeout_timer t \/ e = retransmit_timer t) /\
      (state x = PJSIP_TSX_STATE_NULL -> role x = PJSIP_ROLE_UAC)
  | _ => state x = PJSIP_TSX_STATE_NULL -> role x = PJSIP_ROLE_UAC
  end.

(** The expiry of the timeout timer leaves the transaction without it until
    the handler is done. *)
Definition handled (t : nat) (ev : pjsip_event) (w w' : W) : Prop :=
  evolves (Some t) w w' /\
  (is_timer_event ev (timeout_timer t) = true \/ no_zombie w t -> no_zombie w' t).

End Defs.

(** ** Lemmas *)

Section Handlers.
Context {TW HT : Type} `{TS : !TimerService TW} `{KT : !KeyTable HT}.
Context {E : TsxEnv TW HT} (HE : env_ok E).

#[local] Abbreviation W := (tsx_world TW HT).

Lemma handled_evolves t ev (w w' : W) :
  evolves None w w' -> is_timer_event ev (timeout_timer t) = false -> handled t ev w w'.
Proof.
  intros H He. split; [by apply evolves_weaken|]. rewrite He.
  intros [|Hz]; [done|]. by eapply ev_zombie.
Qed.

Lemma handled_zombie t ev (w w' : W) :
  evolves None w w' -> no_zombie w' t -> handled t ev w w'.
Proof. intros H Hz. split; [by apply evolves_weaken|done]. Qed.

Lemma wp_drop_last_tx t td x (Q : unit -> W -> Prop) w :
  tsx_inv w -> tsxs w !! t = Some x ->
  (forall y w', evolves None w w' -> tsxs w' !! t = Some y -> same_core x y ->
     transport_flag y = transport_flag x -> status_code y = status_code x ->
     transport_err y = transport_err x -> is_reliable y = is_reliable x -> Q tt w') ->
  wp (drop_last_tx t td) Q w.
Proof.
  intros HI Hx HQ. unfold drop_last_tx. wbind. eapply wp_get_tsx; [done|].
  assert (Hr : Q tt w) by (eapply HQ; [by apply evolves_refl|exact Hx|by split|done..]).
  destruct (last_tx x) as [old|]; [|by apply wp_ret]. apply wp_when; [intros _|done].
  wbind. apply wp_emit_ev; [done|]. intros w1 H1 E1 _ _ _. rewrite <- E1 in Hx.
  pose proof (inv_base _ _ _ (ev_inv _ _ _ H1) Hx) as Hb.
  eapply (wp_upd_plain t _ x); try done; try apply Hb; [apply H1|by left|].
  intros w2 H2 E2 _. eapply HQ; [by eapply evolves_trans|exact E2|by split|done..].
Qed.

Lemma wp_save_last_tx t td x (Q : unit -> W -> Prop) w :
  tsx_inv w -> tsxs w !! t = Some x -> is_Some (tdatas w !! td) ->
  (forall y w', evolves None w w' -> tsxs w' !! t = Some y -> same_core x y ->
     transport_flag y = transport_flag x -> status_code y = status_code x ->
     same_timeout t w w' -> is_reliable y = is_reliable x -> Q tt w') ->
  wp (save_last_tx t td) Q w.
Proof.
  intros HI Hx Htd HQ. unfold save_last_tx. wbind. eapply wp_get_tsx; [done|].
  pose proof (inv_base _ _ _ HI Hx) as Hb. apply wp_when; intros _.
  2:{ by eapply HQ; [by apply evolves_refl|exact Hx|by split|..]. }
  wbind. eapply (wp_upd_plain t _ x); try done; try apply Hb; [by left|..].
  { by intros td' [= <-]. }
  intros w1 H1 E1 S1. apply wp_emit_ev; [apply H1|]. intros w2 H2 E2 T2 _ _.
  rewrite <- E2 in E1.
  eapply HQ; [by eapply evolves_trans|exact E1|by split|done|done| |done].
  unfold same_timeout. rewrite T2. by destruct S1 as [-> _ _ _].
Qed.

Lemma wp_start_retransmit t delay x (Q : unit -> W -> Prop) w :
  tsx_inv w -> tsxs w !! t = Some x ->
  (forall y w', evolves None w w' -> tsxs w' !! t = Some y -> same_core x y ->
     status_code y = status_code x -> same_timeout t w w' ->
     is_reliable y = is_reliable x -> Q tt w') ->
  wp (start_retransmit t delay) Q w.
Proof.
  intros HI Hx HQ. unfold start_retransmit. pose proof (inv_base _ _ _ HI Hx) as Hb.
  wbind. eapply (wp_upd_plain t _ x); try done; try apply Hb; [by left|].
  intros w1 H1 E1 S1. wbind. eapply wp_get_tsx; [exact E1|].
  assert (St1 : same_timeout t w w1) by by eapply same_outside_timeout.
  match type of E1 with _ = Some ?v => set (x1 := v) in * end.
  destruct (TSX_HAS_PENDING_TRANSPORT (transport_flag x1)) eqn:Hp.
  - eapply wp_set_flag; [apply H1|exact E1|cbn; by auto|cbn; by auto|].
    intros w2 H2 E2 S2. eapply HQ; [by eapply evolves_trans|exact E2|by split|done| |done].
    destruct St1, (same_outside_timeout _ _ _ S2). split; congruence.
  - wbind. eapply wp_schedule_retransmit; [apply H1|exact E1|].
    intros _ w2 H2 E2 S2 _. apply wp_ret. rewrite <- E2 in E1.
    eapply HQ; [by eapply evolves_trans|exact E1|by split|done| |done].
    destruct St1, S2. split; congruence.
Qed.

(** A state change that is not the last, with the timer in place. *)
Lemma wp_set_state_to t st src x (Q : unit -> W -> Prop) w :
  tsx_inv w -> tsxs w !! t = Some x -> state_handler x <> None ->
  state_le (state x) st -> is_Some (handler_of (role x) st) ->
  (role x = PJSIP_ROLE_UAS ->
     (st = PJSIP_TSX_STATE_COMPLETED \/ st = PJSIP_TSX_STATE_CONFIRMED) ->
     200 <= status_code x) -> src_ok src ->
  state_lt st PJSIP_TSX_STATE_TERMINATED = true ->
  (needs_timer (set_state_of st x) = true -> guarded t st w) ->
  (forall y w', evolves None w w' -> no_zombie w' t -> tsxs w' !! t = Some y ->
     tsx_le x y -> state_le st (state y) ->
     state y <> PJSIP_TSX_STATE_DESTROYED -> Q tt w') ->
  wp (tsx_set_state t st src 0) Q w.
Proof.
  intros HI Hx Hh Hle Hsome Hst Hsrc Hlt Hg HQ.
  eapply (wp_set_state HE); [done..|].
  intros w' y H1 E1 L1 Hz Ha _.
  assert (no_zombie w' t) by (apply Hz; by destruct st).
  eapply HQ; [by eapply evolves_close|done|exact E1| | |apply Ha; by intros ->].
  - destruct L1. split; try done. by eapply state_le_trans.
  - apply L1.
Qed.

Lemma wp_retransmit t resched x (Q : Z -> W -> Prop) w :
  tsx_inv w -> tsxs w !! t = Some x -> state_handler x <> None ->
  state x <> PJSIP_TSX_STATE_DESTROYED ->
  (forall st w', evolves None w w' -> Q st w') ->
  wp (tsx_retransmit t resched) Q w.
Proof.
  intros HI Hx Hh Ha HQ. unfold tsx_retransmit. wbind. unfold timer_running, wp at 1.
  pose proof (HQ PJ_SUCCESS w (evolves_refl _ _ HI)).
  destruct (resched && _); [by apply wp_ret|].
  wbind. eapply wp_get_tsx; [done|]. pose proof (inv_base _ _ _ HI Hx) as Hb.
  destruct (last_tx x) as [td|] eqn:Hl; [|apply wp_ret, HQ; by apply evolves_refl].
  destruct (tb_last_tx _ _ _ Hb td Hl) as [d Hd].
  wbind. eapply (wp_upd_plain t _ x); try done; try apply Hb; [by left|].
  intros w1 H1 E1 _. match type of E1 with _ = Some ?v => set (x1 := v) in * end.
  wbind. assert (Hend : forall w2 y, evolves None w w2 -> tsxs w2 !! t = Some y ->
    same_core x y -> wp (tsx_send_msg t td) Q w2).
  { intros w2 y H2 E2 C2. eapply (wp_send_msg HE); [apply H2|exact E2|..].
    - by eapply same_core_handler.
    - by rewrite (sc_state _ _ C2).
    - eapply ev_td; [exact H2|by eexists].
    - intros st z w3 H3 _ _. apply HQ. by eapply evolves_trans. }
  apply wp_when; intros _; [|by eapply Hend].
  destruct (TSX_HAS_PENDING_TRANSPORT (transport_flag x)) eqn:Hp.
  - eapply wp_set_flag; [apply H1|exact E1|cbn; by auto|cbn; by auto|].
    intros w2 H2 E2 _. eapply Hend; [by eapply evolves_trans|exact E2|done].
  - eapply wp_resched; [apply H1|exact E1|]. intros w2 H2 E2. rewrite <- E2 in E1.
    eapply Hend; [by eapply evolves_trans|exact E1|done].
Qed.

(** ** Null, Calling, Trying *)

Lemma handled_refl t ev (w : W) :
  tsx_inv w -> is_timer_event ev (timeout_timer t) = false -> handled t ev w w.
Proof. intros HI He. apply handled_evolves; [by apply evolves_refl|done]. Qed.

Lemma no_need_zombie t x (w : W) :
  tsxs w !! t = Some x -> needs_timer x = false -> no_zombie w t.
Proof. intros Hx Hn. apply (no_zombie_at t x); [done|]. congruence. Qed.

(** A handler that returns at once. *)
Lemma handled_idle t ev x (w : W) :
  tsx_inv w -> tsxs w !! t = Some x ->
  (is_timer_event ev (timeout_timer t) = true -> needs_timer x = false) ->
  handled t ev w w.
Proof.
  intros HI Hx Hn. split; [by apply evolves_refl|].
  intros [He|Hz]; [|done]. eapply no_need_zombie; [exact Hx|auto].
Qed.

Lemma wp_on_state_null t ev x w :
  tsx_inv w -> tsxs w !! t = Some x -> state_handler x <> None ->
  state x = PJSIP_TSX_STATE_NULL -> event_ok w t x ev ->
  wp (tsx_on_state_null t ev) (fun _ => handled t ev w) w.
Proof.
  intros HI Hx Hh Hst Hev. unfold tsx_on_state_null. wbind.
  eapply wp_get_tsx; [done|]. assert (Hidle : handled t ev w w).
  { eapply handled_idle; [done..|]. unfold needs_timer. by rewrite Hst. }
  case_bool_decide as Hr.
  { assert (exists rdata, ev = PJSIP_EVENT_RX_MSG rdata) as [rdata ->].
    { destruct ev; cbn in Hev; [..|by eexists| |]; exfalso; rewrite Hr, Hst in Hev; intuition congruence. }
    wbind. eapply wp_set_state_to; [done..| | | | |done| |].
    - rewrite Hst. unfold state_le. cbn. lia.
    - rewrite Hr. by eexists.
    - by intros _ [|].
    - cbn. by destruct Hev as (msg & -> & _).
    - by cbn.
    - intros y w1 H1 _ _ _ _ _. apply wp_ret. by apply handled_evolves. }
  assert (Hrole : role x = PJSIP_ROLE_UAC) by by destruct (role x).
  destruct ev as [|e|td|rdata|td|]; try by apply wp_ret.
  destruct Hev as [Htd _]. wbind. eapply wp_drop_last_tx; [done..|].
  intros x1 w1 H1 E1 C1 _ _ _ _. wbind.
  eapply wp_save_last_tx; [apply H1|exact E1|by eapply ev_td|].
  intros x2 w2 H2 E2 C2 _ _ _ _. pose proof (same_core_trans _ _ _ C1 C2) as C.
  assert (Hh2 : state_handler x2 <> None) by by eapply same_core_handler.
  assert (Hs2 : state x2 = PJSIP_TSX_STATE_NULL) by by rewrite (sc_state _ _ C).
  wbind. eapply (wp_send_msg HE); [apply H2|exact E2|done|by rewrite Hs2|..].
  { eapply ev_td; [exact H2|]. by eapply ev_td. }
  intros st y w3 H3 E3 [L3 A3 S3 D3].
  assert (H : evolves None w w3) by eauto using evolves_trans.
  destruct (Z.eqb_spec st PJ_SUCCESS) as [->|Hne]; cbn [negb].
  2:{ apply wp_ret. by apply handled_evolves. }
  assert (Hy : state y = PJSIP_TSX_STATE_NULL).
  { rewrite Hs2 in S3. by destruct (S3 ltac:(done)) as [|[_ ?]]. }
  assert (Hry : role y = PJSIP_ROLE_UAC).
  { rewrite (tl_role _ _ L3), (sc_role _ _ C). done. }
  wbind. apply wp_ask. wbind. eapply wp_restart_timeout; [apply H3|exact E3|].
  intros w4 H4 E4 _ G4. rewrite <- E4 in E3. wbind.
  eapply wp_get_tsx; [exact E3|]. wbind.
  assert (Hend : forall w5 z, evolves None w w5 -> tsxs w5 !! t = Some z ->
    same_core y z -> guarded t PJSIP_TSX_STATE_CALLING w5 ->
    wp (tsx_set_state t PJSIP_TSX_STATE_CALLING (PJSIP_EVENT_TX_MSG td) 0;;
        mret PJ_SUCCESS) (fun _ => handled t (PJSIP_EVENT_TX_MSG td) w) w5).
  { intros w5 z H5 E5 C5 G5. wbind.
    eapply wp_set_state_to; [apply H5|exact E5|..]; try done.
    - eapply same_core_handler; [exact C5|apply L3].
    - rewrite (sc_state _ _ C5), Hy. unfold state_le. cbn. lia.
    - rewrite (sc_role _ _ C5), Hry. by eexists.
    - by intros _ [|].
    - intros u w6 H6 _ _ _ _ _. apply wp_ret, handled_evolves; [|done].
      by eapply evolves_trans. }
  apply wp_when; intros _.
  - eapply wp_start_retransmit; [apply H4|exact E3|].
    intros z w5 H5 E5 C5 _ T5 _. eapply Hend; [by eauto using evolves_trans|exact E5|done|].
    by eapply same_timeout_guarded.
  - eapply Hend; [by eapply evolves_trans|exact E3|by split|done].
Qed.

(** ** Client transactions *)

Definition uac_waiting (x : pjsip_transaction) : Prop :=
  role x = PJSIP_ROLE_UAC /\
  (state x = PJSIP_TSX_STATE_CALLING \/ state x = PJSIP_TSX_STATE_PROCEEDING).

Lemma uac_waiting_le x st :
  uac_waiting x -> state_le PJSIP_TSX_STATE_PROCEEDING st ->
  state_le (state x) st /\ state x <> PJSIP_TSX_STATE_DESTROYED.
Proof. unfold state_le. intros [_ [-> | ->]] H; cbn in *; split; done || lia. Qed.

Lemma invite_no_need x :
  uac_waiting x -> m_id (method x) = PJSIP_INVITE_METHOD -> needs_timer x = false.
Proof.
  intros [Hr Hs] Hm. unfold needs_timer. destruct Hs as [-> | ->];
    rewrite Hm, Hr; reflexivity.
Qed.

Lemma wp_uac_final_2xx t ev x w :
  tsx_inv w -> tsxs w !! t = Some x -> state_handler x <> None -> uac_waiting x ->
  src_ok ev ->
  wp (uac_final_2xx t ev) (fun _ w' => evolves (Some t) w w' /\ no_zombie w' t) w.
Proof.
  intros HI Hx Hh Hw Hsrc. unfold uac_final_2xx. wbind.
  eapply wp_cancel_timeout; [done..|]. intros _ w1 H1 E1 _ A1. rewrite <- E1 in Hx.
  wbind. eapply wp_get_tsx; [done|]. case_bool_decide.
  - wbind. eapply (wp_set_terminated HE); [apply H1|exact Hx|done|done|..].
    { by eapply uac_waiting_le. }
    intros y w2 H2 E2 _ _ Hz. apply wp_ret. split; [|done].
    eauto using evolves_trans, evolves_weaken.
  - wbind. apply wp_ask. wbind. eapply wp_schedule_timeout; [apply H1|exact Hx|].
    intros _ w2 H2 E2 _ R2 I2 _. rewrite <- E2 in Hx.
    assert (G2 : guarded t PJSIP_TSX_STATE_COMPLETED w2) by (split; auto).
    wbind. eapply wp_cancel_retransmit; [apply H2|exact Hx|].
    intros _ w3 H3 E3 S3 _ _. rewrite <- E3 in Hx. wbind.
    eapply wp_set_state_to; [apply H3|exact Hx|done|..]; try done.
    + by eapply uac_waiting_le.
    + destruct Hw as [-> _]. by eexists.
    + destruct Hw as [-> _]. done.
    + intros _. by eapply same_timeout_guarded.
    + intros y w4 H4 Hz _ _ _ _. apply wp_ret. split; [|done].
      eauto using evolves_trans, evolves_weaken.
Qed.

Lemma wp_uac_send_ack t rdata x (Q : Z * option nat -> W -> Prop) w :
  tsx_inv w -> tsxs w !! t = Some x -> state_handler x <> None -> uac_waiting x ->
  (forall st ack y w', evolves None w w' -> tsxs w' !! t = Some y -> tsx_le x y ->
     (st = PJ_SUCCESS -> state y = state x) ->
     (forall td, ack = Some td -> is_Some (tdatas w' !! td)) ->
     (m_id (method x) <> PJSIP_INVITE_METHOD -> st = PJ_SUCCESS) -> Q (st, ack) w') ->
  wp (uac_send_ack t rdata) Q w.
Proof.
  intros HI Hx Hh Hw HQ. unfold uac_send_ack. wbind. eapply wp_get_tsx; [done|].
  case_bool_decide as Hm.
  2:{ apply wp_ret. eapply HQ; [by apply evolves_refl|exact Hx|by apply tsx_le_refl|done..]. }
  wbind. apply wp_ask. pose proof (eo_ack _ HE w (last_tx x) rdata) as Hack.
  destruct (create_ack w (last_tx x) rdata) as [[st ack] d]. cbn [snd] in Hack.
  destruct (negb (st =? PJ_SUCCESS)) eqn:Hst.
  { apply wp_ret. eapply HQ; [by apply evolves_refl|exact Hx|by apply tsx_le_refl|done..]. }
  wbind. apply wp_modify.
  assert (H1 : evolves None w (w <| tdatas := <[ack := d]> (tdatas w) |>)).
  { apply evolves_outside; try done.
    - apply map_Forall_insert_2; [done|apply HI].
    - intros td Htd. cbn. rewrite lookup_insert. by case_decide. }
  set (w1 := w <| tdatas := _ |>) in *. wbind.
  assert (Hack1 : is_Some (tdatas w1 !! ack)) by (cbn; rewrite lookup_insert_eq; by eexists).
  eapply (wp_send_msg HE); [apply H1|exact Hx|done|..].
  { destruct Hw as [_ [-> | ->]]; done. } { done. }
  intros st' y w2 H2 E2 [L2 A2 S2 D2]. apply wp_ret.
  eapply HQ; [by eapply evolves_trans|exact E2|done| | |done].
  - intros ->. assert (Hlt : state_lt (state x) PJSIP_TSX_STATE_TERMINATED = true).
    { by destruct Hw as [_ [-> | ->]]. }
    by destruct (S2 Hlt) as [|[_ ?]].
  - intros td [= <-]. by eapply ev_td.
Qed.

Lemma wp_uac_final_3xx t ev rdata x w :
  tsx_inv w -> tsxs w !! t = Some x -> state_handler x <> None -> uac_waiting x ->
  src_ok ev ->
  wp (uac_final_3xx t ev rdata) (fun _ w' => evolves (Some t) w w' /\ no_zombie w' t) w.
Proof.
  intros HI Hx Hh Hw Hsrc. unfold uac_final_3xx. wbind.
  eapply wp_cancel_retransmit; [done..|]. intros _ w1 H1 E1 _ _ _. rewrite <- E1 in Hx.
  wbind. eapply wp_cancel_timeout; [apply H1|exact Hx|].
  intros _ w2 H2 E2 _ A2. rewrite <- E2 in Hx. wbind.
  assert (H : evolves (Some t) w w2) by eauto using evolves_trans, evolves_weaken.
  eapply wp_uac_send_ack; [apply H2|exact Hx|done|done|].
  intros st ack y w3 H3 E3 L3 S3 Hack Hni.
  destruct (Z.eqb_spec st PJ_SUCCESS) as [->|Hne]; cbn [negb].
  2:{ apply wp_ret. split; [by eauto using evolves_trans, evolves_weaken|].
      eapply ev_zombie; [exact H3|done|]. eapply no_need_zombie; [exact Hx|].
      apply invite_no_need; [done|].
      destruct (decide (m_id (method x) = PJSIP_INVITE_METHOD)); [done|].
      by destruct Hne; auto. }
  assert (Hwy : uac_waiting y).
  { destruct Hw as [Hr Hs]. split; [by rewrite (tl_role _ _ L3)|by rewrite S3]. }
  wbind. eapply (wp_set_state HE); [apply H3|exact E3|apply L3|..]; try done.
  { by eapply uac_waiting_le. } { destruct Hwy as [-> _]. by eexists. }
  { destruct Hwy as [-> _]. done. }
  intros w4 z H4 E4 L4 _ _ _. wbind. eapply wp_get_tsx; [exact E4|]. wbind.
  assert (HA : evolves (Some t) w w4) by eauto using evolves_trans, evolves_weaken.
  assert (Hend : forall w5 u, evolves None w4 w5 -> tsxs w5 !! t = Some u ->
    wp (x ← get_tsx t; w ← ask;
        restart_timeout t (final_timeout (is_reliable x)
          (if bool_decide (m_id (method x) = PJSIP_INVITE_METHOD)
           then td_timer_val (settings w) else t4_timer_val (settings w)));;
        mret PJ_SUCCESS)
      (fun _ w' => evolves (Some t) w w' /\ no_zombie w' t) w5).
  { intros w5 u H5 E5. wbind. eapply wp_get_tsx; [exact E5|]. wbind. apply wp_ask.
    wbind. eapply wp_restart_timeout; [apply H5|exact E5|].
    intros w6 H6 E6 _ G6. apply wp_ret. rewrite <- E6 in E5.
    split; [by eauto using evolves_trans, evolves_weaken|].
    apply (no_zombie_at t u); auto. }
  apply wp_when; intros _; [|eapply Hend; [by apply evolves_refl, H4|exact E4]].
  wbind. apply wp_emit_opt; [apply H4|]. intros w5 H5 E5 _ D5 _. rewrite <- E5 in E4.
  pose proof (inv_base _ _ _ (ev_inv _ _ _ H5) E4) as Hb.
  eapply (wp_upd_plain t _ z _ w5); try done; try apply Hb; [apply H5|by left|..].
  { intros td Htd. cbn in Htd. rewrite D5. eapply ev_td; [exact H4|auto]. }
  intros w6 H6 E6 _. eapply Hend; [by eapply evolves_trans|exact E6].
Qed.

Lemma wp_on_state_proceeding_uac t ev x w :
  tsx_inv w -> tsxs w !! t = Some x -> state_handler x <> None -> uac_waiting x ->
  event_ok w t x ev ->
  (forall rdata code reason, ev = PJSIP_EVENT_RX_MSG rdata ->
     rx_msg rdata = Some (PJSIP_RESPONSE_MSG code reason) -> code < 200 -> no_zombie w t) ->
  wp (tsx_on_state_proceeding_uac t ev) (fun _ w' => evolves (Some t) w w' /\
    (is_timer_event ev (timeout_timer t) = true \/ no_zombie w t \/
     (exists rdata code reason, ev = PJSIP_EVENT_RX_MSG rdata /\
        rx_msg rdata = Some (PJSIP_RESPONSE_MSG code reason)) -> no_zombie w' t)) w.
Proof.
  intros HI Hx Hh Hw Hev Hz. unfold tsx_on_state_proceeding_uac.
  destruct ev as [|e|td|rdata|td|];
    try (apply wp_ret; split; [by apply evolves_refl|];
         intros [|[|(? & ? & ? & ? & _)]]; done).
  - destruct Hev as [He _]. destruct (Nat.eqb_spec e (retransmit_timer t)) as [->|Hne].
    { eapply wp_retransmit; try done; [by eapply uac_waiting_le with (st := PJSIP_TSX_STATE_PROCEEDING)|].
      intros _ w' H1. split; [by apply evolves_weaken|]. cbn.
      intros [Ht|[Hz'|(? & ? & ? & ? & _)]]; [|by eapply ev_zombie|done].
      apply Nat.eqb_eq in Ht. by destruct (timer_entries_ne_self t). }
    destruct He as [->|]; [|done]. wbind.
    eapply wp_set_status; [done..| |].
    { destruct Hw as [-> _]. done. }
    intros y w1 H1 E1 _ [txt ->]. rewrite Nat.eqb_refl. wbind.
    eapply (wp_set_terminated HE); [apply H1|exact E1|done|done|..].
    { by eapply (uac_waiting_le x). }
    intros y w2 H2 E2 _ _ Hz2. apply wp_ret. split; [|done].
    eauto using evolves_trans, evolves_weaken.
  - destruct Hev as (msg & Hmsg & Hcode). wbind. eapply wp_from_option; [exact Hmsg|].
    destruct msg as [m|code reason].
    { apply wp_ret. split; [by apply evolves_refl|].
      intros [|[|(? & ? & ? & [= <-] & ?)]]; [done|done|congruence]. }
    specialize (Hcode code reason eq_refl). specialize (Hz rdata code reason eq_refl Hmsg).
    wbind. eapply wp_set_status; [done..| |].
    { destruct Hw as [-> _]. done. }
    intros y w1 H1 E1 S1 [txt ->].
    match type of E1 with _ = Some ?v => set (x1 := v) in * end.
    assert (Hw1 : uac_waiting x1) by exact Hw.
    assert (Hsrc : src_ok (PJSIP_EVENT_RX_MSG rdata)) by (cbn; rewrite Hmsg; by eexists).
    unfold PJSIP_IS_STATUS_IN_CLASS.
    destruct (Z.eqb_spec (code ÷ 100) (100 ÷ 100)) as [H100|H100].
    { assert (code < 200) as Hlt.
      { change (100 ÷ 100) with 1 in H100. rewrite Z.quot_div_nonneg in H100 by lia.
        pose proof (Z.div_mod code 100). pose proof (Z.mod_pos_bound code 100). lia. }
      specialize (Hz Hlt). wbind. eapply wp_set_state_to; [apply H1|exact E1|done|..]; try done.
      - by eapply uac_waiting_le.
      - destruct Hw1 as [-> _]. by eexists.
      - by intros _ [|].
      - intros Hn. pose proof (ev_zombie _ _ _ H1 t ltac:(done) Hz x1 E1 Hh) as Hg.
        assert (Hn' : needs_timer x1 = true).
        { unfold needs_timer in *. destruct Hw1 as [_ [-> | ->]]; exact Hn. }
        destruct (Hg Hn') as [Ha _]. split; [done|]. unfold state_le. cbn. lia.
      - intros z w2 H2 Hz2 _ _ _ _. apply wp_ret. split; [|done].
        eauto using evolves_trans, evolves_weaken. }
    assert (Hdone : forall (A : Type) (m : M W A),
      wp m (fun _ w' => evolves (Some t) w1 w' /\ no_zombie w' t) w1 ->
      wp m (fun _ w' => evolves (Some t) w w' /\
        (is_timer_event (PJSIP_EVENT_RX_MSG rdata) (timeout_timer t) = true \/
         no_zombie w t \/ (exists rd code reason,
           PJSIP_EVENT_RX_MSG rdata = PJSIP_EVENT_RX_MSG rd /\
           rx_msg rd = Some (PJSIP_RESPONSE_MSG code reason)) -> no_zombie w' t)) w1).
    { intros A m Hm. eapply wp_mono; [|exact Hm]. intros _ w' [H2 Hz2]. split; [|done].
      eauto using evolves_trans, evolves_weaken. }
    case_match eqn:Hc2.
    { apply Hdone. eapply wp_uac_final_2xx; [apply H1|exact E1|done..]. }
    case_match eqn:Hc3.
    { apply Hdone. eapply wp_uac_final_3xx; [apply H1|exact E1|done..]. }
    exfalso. change (100 ÷ 100) with 1 in *. change (200 ÷ 100) with 2 in *.
    rewrite Z.quot_div_nonneg in * by lia. zbool.
    pose proof (Z.div_mod code 100). pose proof (Z.mod_pos_bound code 100). lia.
Qed.

Lemma is_timer_refl t : is_timer_event (PJSIP_EVENT_TIMER (timeout_timer t)) (timeout_timer t) = true.
Proof. cbn. apply Nat.eqb_refl. Qed.

Lemma not_timeout_event e t :
  (e = timeout_timer t \/ e = retransmit_timer t) ->
  is_timer_event (PJSIP_EVENT_TIMER e) (timeout_timer t) = false -> e = retransmit_timer t.
Proof. cbn. intros [-> | ->] H; [|done]. by rewrite Nat.eqb_refl in H. Qed.

Lemma retransmit_event t :
  is_timer_event (PJSIP_EVENT_TIMER (retransmit_timer t)) (timeout_timer t) = false.
Proof. cbn. apply Nat.eqb_neq. by apply not_eq_sym, timer_entries_ne_self. Qed.

(** A handler that terminates the transaction. *)
Lemma wp_terminate_handled t ev src x (st : Z) (w0 w : W) :
  evolves None w0 w -> tsxs w !! t = Some x -> state_handler x <> None -> src_ok src ->
  state_le (state x) PJSIP_TSX_STATE_TERMINATED ->
  wp (tsx_set_state t PJSIP_TSX_STATE_TERMINATED src 0;; mret st)
    (fun _ => handled t ev w0) w.
Proof.
  intros H Hx Hh Hsrc Hle. wbind.
  eapply (wp_set_terminated HE); [apply H|exact Hx|done..|].
  intros y w1 H1 _ _ _ Hz. apply wp_ret, handled_zombie; [|done]. by eapply evolves_trans.
Qed.

Lemma wp_on_state_calling t ev x w :
  tsx_inv w -> tsxs w !! t = Some x -> state_handler x <> None ->
  state x = PJSIP_TSX_STATE_CALLING -> event_ok w t x ev ->
  (is_timer_event ev (timeout_timer t) = true \/ no_zombie w t) ->
  wp (tsx_on_state_calling t ev) (fun _ => handled t ev w) w.
Proof.
  intros HI Hx Hh Hst Hev Hz. unfold tsx_on_state_calling.
  pose proof (inv_ok _ _ _ HI Hx Hh) as Hok.
  assert (Hw : uac_waiting x).
  { split; [|by left]. pose proof (to_handler _ Hok) as Hhd. rewrite Hst in Hhd.
    destruct (role x); [done|]. by cbn in Hhd. }
  destruct (is_timer_event ev (retransmit_timer t)) eqn:Hr.
  { eapply wp_retransmit; [done..|by rewrite Hst|]. intros _ w1 H1.
    apply handled_evolves; [done|]. destruct ev as [|e| | | |]; try done.
    apply Nat.eqb_eq in Hr as ->. apply retransmit_event. }
  destruct (is_timer_event ev (timeout_timer t)) eqn:Ht.
  { wbind. eapply wp_cancel_retransmit; [done..|]. intros _ w1 H1 E1 _ _ _.
    rewrite <- E1 in Hx. wbind. eapply wp_set_flag; [apply H1|exact Hx|cbn; by auto|..].
    { cbn. intros Hlt Hs. by apply Hok. }
    intros w2 H2 E2 _. wbind. eapply wp_set_status; [apply H2|exact E2|..].
    { destruct Hw as [Hrole _]. cbn. by rewrite Hrole. }
    intros y w3 H3 E3 _ [txt ->]. eapply wp_terminate_handled; [|exact E3|done|..].
    - eauto using evolves_trans.
    - by destruct ev.
    - cbn. rewrite Hst. unfold state_le. cbn. lia. }
  destruct ev as [|e|td|rdata|td|]; try (apply wp_ret; by apply handled_refl).
  destruct Hev as (msg & Hmsg & Hcode). wbind. eapply wp_from_option; [exact Hmsg|].
  destruct msg as [m|code reason]; [apply wp_ret; by apply handled_refl|]. wbind.
  eapply wp_cancel_retransmit; [done..|]. intros _ w1 H1 E1 _ _ _. rewrite <- E1 in Hx.
  wbind. eapply wp_get_tsx; [exact Hx|]. wbind.
  destruct Hz as [|Hz]; [done|].
  assert (Hend : forall w2, evolves (Some t) w1 w2 -> tsxs w2 = tsxs w1 ->
    (code < 200 -> no_zombie w2 t) ->
    wp (set_flag t (fun f => f <| TSX_HAS_PENDING_RESCHED := false |>);;
        tsx_on_state_proceeding_uac t (PJSIP_EVENT_RX_MSG rdata);;
        mret PJ_SUCCESS) (fun _ => handled t (PJSIP_EVENT_RX_MSG rdata) w) w2).
  { intros w2 H2 E2 Hz2. rewrite <- E2 in Hx. wbind.
    eapply wp_set_flag; [apply H2|exact Hx|cbn; by auto|..].
    { cbn. intros Hlt Hs. by apply Hok. }
    intros w3 H3 E3 _. wbind.
    assert (HA : evolves (Some t) w w3) by eauto using evolves_trans, evolves_weaken.
    eapply wp_mono; [|eapply wp_on_state_proceeding_uac; [apply H3|exact E3|done|exact Hw|..]].
    - intros _ w4 [H4 Hz4]. apply wp_ret. split.
      + eauto using evolves_trans, evolves_weaken.
      + intros _. apply Hz4. right. right. by exists rdata, code, reason.
    - by exists (PJSIP_RESPONSE_MSG code reason).
    - intros rd c r [= <-] Hm Hc. rewrite Hmsg in Hm. injection Hm as <- <-.
      eapply ev_zombie; [exact H3|done|auto]. }
  assert (Hz1 : no_zombie w1 t) by by eapply ev_zombie.
  destruct (Z.leb_spec 200 code) as [Hc|Hc].
  { wbind. pose proof (inv_base _ _ _ (ev_inv _ _ _ H1) Hx) as Hb.
    destruct (tb_timeout _ _ _ Hb) as [id Hid].
    unfold timer_id, wp at 1. rewrite Hid. cbn [mbind option_bind].
    apply wp_when; intros _; [|eapply Hend; [by apply evolves_refl, H1|done|lia]].
    wbind. eapply wp_cancel_timeout; [apply H1|exact Hx|].
    intros _ w2 H2 E2 _ _. apply wp_ret. eapply Hend; [done|done|lia]. }
  case_bool_decide as Hm.
  { wbind. eapply wp_cancel_timeout; [apply H1|exact Hx|].
    intros _ w2 H2 E2 _ _. apply wp_ret. eapply Hend; [done|done|intros _].
    rewrite <- E2 in Hx. eapply no_need_zombie; [exact Hx|]. by apply invite_no_need. }
  apply wp_when; intros _.
  2:{ eapply Hend; [by apply evolves_refl, H1|done|done]. }
  wbind. apply wp_ask. wbind. eapply wp_schedule_retransmit; [apply H1|exact Hx|].
  intros _ w2 H2 E2 _ _. apply wp_ret. eapply Hend; [by apply evolves_weaken|done|].
  intros _. by eapply ev_zombie.
Qed.


(** ** Server transactions *)

Lemma status_class code k :
  0 <= k -> PJSIP_IS_STATUS_IN_CLASS code (100 * k) = true -> 1 <= k -> 100 * k <= code.
Proof.
  unfold PJSIP_IS_STATUS_IN_CLASS. intros Hk H%Z.eqb_eq H1.
  rewrite Z.mul_comm, Z.quot_mul in H by lia.
  destruct (Z.le_gt_cases 0 code) as [Hc|Hc].
  - rewrite Z.quot_div_nonneg in H by lia.
    pose proof (Z.div_mod code 100). pose proof (Z.mod_pos_bound code 100). lia.
  - assert (code ÷ 100 <= 0) by (apply Z.quot_le_upper_bound; lia). lia.
Qed.

Definition uas_waiting (x : pjsip_transaction) : Prop :=
  role x = PJSIP_ROLE_UAS /\
  (state x = PJSIP_TSX_STATE_TRYING \/ state x = PJSIP_TSX_STATE_PROCEEDING).

Lemma uas_waiting_le x st :
  uas_waiting x -> state_le PJSIP_TSX_STATE_PROCEEDING st ->
  state_le (state x) st /\ state x <> PJSIP_TSX_STATE_DESTROYED /\
  state_lt (state x) PJSIP_TSX_STATE_TERMINATED = true.
Proof. unfold state_le. intros [_ [-> | ->]] H; cbn in *; (split; [|split]); done || lia. Qed.

Lemma uas_waiting_core x y : uas_waiting x -> same_core x y -> uas_waiting y.
Proof.
  unfold uas_waiting. intros [H1 H2] C.
  by rewrite (sc_role _ _ C), (sc_state _ _ C).
Qed.

Lemma wp_uas_provisional t td ev x w :
  tsx_inv w -> tsxs w !! t = Some x -> state_handler x <> None -> uas_waiting x ->
  is_Some (tdatas w !! td) -> src_ok ev ->
  wp (uas_provisional t td ev) (fun _ => evolves None w) w.
Proof.
  intros HI Hx Hh Hw Htd Hsrc. unfold uas_provisional. wbind.
  eapply wp_save_last_tx; [done..|]. intros y w1 H1 E1 C1 _ _ _ _.
  pose proof (uas_waiting_core _ _ Hw C1) as Hw1. wbind.
  eapply wp_set_state_to; [apply H1|exact E1|by eapply same_core_handler|..]; try done.
  { by eapply uas_waiting_le. } { destruct Hw1 as [-> _]. by eexists. } { by intros _ [|]. }
  { cbn. destruct Hw1 as [Hr _]. unfold needs_timer. cbn. by rewrite Hr. }
  intros z w2 H2 _ E2 _ _ _. wbind. eapply wp_get_tsx; [exact E2|].
  apply wp_when; intros _; [|by eapply evolves_trans].
  wbind. eapply wp_cancel_retransmit; [apply H2|exact E2|].
  intros _ w3 H3 E3 _ _ _. rewrite <- E3 in E2.
  eapply wp_start_retransmit; [apply H3|exact E2|]. eauto using evolves_trans.
Qed.

(** The end of both final branches. *)
Lemma wp_uas_complete t ev x (w0 w : W) :
  evolves None w0 w -> tsxs w !! t = Some x -> state_handler x <> None -> uas_waiting x ->
  200 <= status_code x -> src_ok ev -> guarded t PJSIP_TSX_STATE_COMPLETED w ->
  wp (tsx_set_state t PJSIP_TSX_STATE_COMPLETED ev 0) (fun _ => evolves None w0) w.
Proof.
  intros H Hx Hh Hw Hs Hsrc Hg.
  eapply wp_set_state_to; [apply H|exact Hx|done|..]; try done.
  - by eapply uas_waiting_le.
  - destruct Hw as [-> _]. by eexists.
  - intros y w1 H1 _ _ _ _ _. by eapply evolves_trans.
Qed.

Lemma wp_uas_final_2xx t td ev x w :
  tsx_inv w -> tsxs w !! t = Some x -> state_handler x <> None -> uas_waiting x ->
  200 <= status_code x -> is_Some (tdatas w !! td) -> src_ok ev ->
  wp (uas_final_2xx t td ev) (fun _ => evolves None w) w.
Proof.
  intros HI Hx Hh Hw Hs Htd Hsrc. unfold uas_final_2xx. wbind.
  eapply wp_cancel_retransmit; [done..|]. intros _ w1 H1 E1 _ _ _. rewrite <- E1 in Hx.
  wbind. eapply wp_get_tsx; [exact Hx|]. case_match.
  { eapply (wp_set_terminated HE); [apply H1|exact Hx|done|done|by eapply uas_waiting_le|].
    intros y w2 H2 _ _ _ _. by eapply evolves_trans. }
  wbind. apply wp_ask. wbind.
  assert (Hend : forall w2 y, evolves None w w2 -> tsxs w2 !! t = Some y ->
    same_core x y -> status_code y = status_code x ->
    wp (save_last_tx t td;;
        x ← get_tsx t;
        let timeout :=
          if bool_decide (m_id (method x) = PJSIP_INVITE_METHOD)
          then timeout_timer_val (settings w1)
          else final_timeout (is_reliable x) (timeout_timer_val (settings w1)) in
        restart_timeout t timeout;;
        tsx_set_state t PJSIP_TSX_STATE_COMPLETED ev 0) (fun _ => evolves None w) w2).
  { intros w2 y H2 E2 C2 S2. wbind.
    eapply wp_save_last_tx; [apply H2|exact E2|by eapply ev_td|].
    intros z w3 H3 E3 C3 _ S3 _ _. wbind. eapply wp_get_tsx; [exact E3|]. cbv zeta.
    pose proof (same_core_trans _ _ _ C2 C3) as C. wbind.
    eapply wp_restart_timeout; [apply H3|exact E3|]. intros w4 H4 E4 _ G4.
    rewrite <- E4 in E3. eapply wp_uas_complete; [|exact E3|..]; try done.
    - eauto using evolves_trans.
    - by eapply same_core_handler.
    - by eapply uas_waiting_core.
    - by rewrite S3, S2. }
  apply wp_when; intros _; [|by eapply Hend].
  eapply wp_start_retransmit; [apply H1|exact Hx|].
  intros y w2 H2 E2 C2 S2 _ _. eapply Hend; [by eapply evolves_trans|exact E2|done..].
Qed.

Lemma wp_uas_final_3xx t td ev x w :
  tsx_inv w -> tsxs w !! t = Some x -> state_handler x <> None -> uas_waiting x ->
  200 <= status_code x -> is_Some (tdatas w !! td) -> src_ok ev ->
  wp (uas_final_3xx t td ev) (fun _ => evolves None w) w.
Proof.
  intros HI Hx Hh Hw Hs Htd Hsrc. unfold uas_final_3xx. wbind.
  eapply wp_cancel_retransmit; [done..|]. intros _ w1 H1 E1 _ _ _. rewrite <- E1 in Hx.
  wbind. eapply wp_save_last_tx; [apply H1|exact Hx|by eapply ev_td|].
  intros y w2 H2 E2 C2 _ S2 _ _. wbind. eapply wp_get_tsx; [exact E2|]. wbind.
  apply wp_ask. cbv zeta. wbind. eapply wp_restart_timeout; [apply H2|exact E2|].
  intros w3 H3 E3 _ G3. rewrite <- E3 in E2. wbind. eapply wp_get_tsx; [exact E2|].
  assert (H : evolves None w w3) by eauto using evolves_trans. wbind.
  assert (Hend : forall w4 z, evolves None w3 w4 -> tsxs w4 !! t = Some z ->
    same_core y z -> status_code z = status_code y -> same_timeout t w3 w4 ->
    wp (tsx_set_state t PJSIP_TSX_STATE_COMPLETED ev 0) (fun _ => evolves None w) w4).
  { intros w4 z H4 E4 C4 S4 T4. pose proof (same_core_trans _ _ _ C2 C4) as C.
    eapply wp_uas_complete; [|exact E4|..]; try done.
    - by eapply evolves_trans.
    - by eapply same_core_handler.
    - by eapply uas_waiting_core.
    - by rewrite S4, S2.
    - by eapply same_timeout_guarded. }
  assert (Hnow : wp (tsx_set_state t PJSIP_TSX_STATE_COMPLETED ev 0)
    (fun _ => evolves None w) w3).
  { by eapply Hend; [apply evolves_refl, H3|exact E2|split|..]. }
  apply wp_when; intros _; [|done].
  destruct (ev_td _ _ _ H td Htd) as [d Hd]. wbind. eapply wp_get_td; [exact Hd|].
  destruct (ti_td _ (ev_inv _ _ _ H) td d Hd) as [_ [cs Hcs]]. wbind.
  eapply wp_from_option; [exact Hcs|]. apply wp_when; intros _; [|done].
  eapply wp_start_retransmit; [apply H3|exact E2|]. intros z w4 H4 E4 C4 S4 T4 _.
  by eapply Hend.
Qed.

Lemma wp_send_handled t td ev x (w : W) :
  tsx_inv w -> tsxs w !! t = Some x -> state_handler x <> None ->
  state x <> PJSIP_TSX_STATE_DESTROYED -> is_Some (tdatas w !! td) ->
  is_timer_event ev (timeout_timer t) = false ->
  wp (tsx_send_msg t td) (fun _ => handled t ev w) w.
Proof.
  intros HI Hx Hh Ha Htd He. eapply (wp_send_msg HE); [done..|].
  intros st y w1 H1 _ _. by apply handled_evolves.
Qed.

Lemma wp_uas_tx t td x w :
  tsx_inv w -> tsxs w !! t = Some x -> state_handler x <> None -> uas_waiting x ->
  is_Some (tdatas w !! td) ->
  wp (tsx_on_state_proceeding_uas t (PJSIP_EVENT_TX_MSG td))
    (fun _ => evolves None w) w.
Proof.
  intros HI Hx Hh Hw [d Hd]. cbn [tsx_on_state_proceeding_uas]. wbind.
  eapply wp_get_td; [exact Hd|]. destruct (ti_td _ HI td d Hd) as [[msg Hmsg] _].
  wbind. eapply wp_from_option; [exact Hmsg|].
  destruct msg as [m|code reason]; [apply wp_ret; by apply evolves_refl|]. wbind.
  destruct (uas_waiting_le x _ Hw (state_le_refl _)) as (_ & Ha & Hlt).
  eapply wp_set_status; [done..| |].
  { intros _ Hs. destruct Hw as [_ [Hw|Hw]], Hs; congruence. }
  intros y w1 H1 E1 _ [txt ->]. wbind. eapply wp_drop_last_tx; [apply H1|exact E1|].
  intros x2 w2 H2 E2 C2 _ S2 _ _.
  assert (C : same_core x x2) by (by destruct C2).
  assert (H : evolves None w w2) by by eapply evolves_trans. wbind.
  eapply (wp_send_msg HE); [apply H2|exact E2|by eapply same_core_handler|..].
  { by rewrite (sc_state _ _ C). } { eapply ev_td; [exact H|by eexists]. }
  intros st y w3 H3 E3 [L3 A3 S3 _].
  assert (H' : evolves None w w3) by by eapply evolves_trans.
  destruct (Z.eqb_spec st PJ_SUCCESS) as [->|Hne]; cbn [negb]; [|by apply wp_ret].
  wbind. eapply wp_get_tsx; [exact E3|]. wbind.
  assert (Hwy : uas_waiting y).
  { rewrite (sc_state _ _ C) in S3. destruct (S3 Hlt) as [Hs|[_ ?]]; [|done].
    destruct Hw as [Hr Hw]. split; [|by rewrite Hs].
    by rewrite (tl_role _ _ L3), (sc_role _ _ C). }
  assert (Htd : is_Some (tdatas w3 !! td)) by (eapply ev_td; [exact H'|by eexists]).
  assert (Hret : forall m : M W unit, wp m (fun _ => evolves None w3) w3 ->
    wp m (fun _ => wp (mret PJ_SUCCESS) (fun _ => evolves None w)) w3).
  { intros m Hm. eapply wp_mono; [|exact Hm]. intros ? w4 H4. apply wp_ret.
    by eapply evolves_trans. }
  apply Hret. pose proof (tl_handler _ _ L3) as Hhy.
  case_match; [eapply wp_uas_provisional; [apply H3|done..]|].
  destruct (PJSIP_IS_STATUS_IN_CLASS (status_code y) 200) eqn:Hc2.
  { eapply wp_uas_final_2xx; [apply H3|exact E3|done..| |done|done].
    by apply (status_class _ 2). }
  apply wp_when; [|intros _; apply evolves_refl, H3].
  intros Hc%Z.leb_le. eapply wp_uas_final_3xx; [apply H3|exact E3|done..|lia|done|done].
Qed.

Lemma wp_on_state_proceeding_uas t ev x w :
  tsx_inv w -> tsxs w !! t = Some x -> state_handler x <> None -> uas_waiting x ->
  event_ok w t x ev ->
  wp (tsx_on_state_proceeding_uas t ev) (fun _ => handled t ev w) w.
Proof.
  intros HI Hx Hh Hw Hev. pose proof (inv_base _ _ _ HI Hx) as Hb.
  destruct (uas_waiting_le x _ Hw (state_le_refl _)) as (_ & Ha & Hlt).
  destruct ev as [|e|td|rdata|td|]; try (apply wp_ret; by apply handled_refl).
  - destruct Hev as [He _]. cbn [tsx_on_state_proceeding_uas].
    destruct (Nat.eqb_spec e (retransmit_timer t)) as [->|Hne].
    { eapply wp_retransmit; try done. intros _ w1 H1.
      apply handled_evolves; [done|]. apply retransmit_event. }
    destruct He as [->|]; [|done]. rewrite Nat.eqb_refl. wbind.
    eapply wp_set_status; [done..| |].
    { intros _ Hs. destruct Hw as [_ [Hw|Hw]], Hs; congruence. }
    intros y w1 H1 E1 _ [txt ->]. eapply wp_terminate_handled; [done|exact E1|done..|].
    cbn. destruct Hw as [_ [-> | ->]]; unfold state_le; cbn; lia.
  - destruct Hev as [Htd _]. eapply wp_mono; [|by eapply wp_uas_tx].
    intros ? w1 H1. by apply handled_evolves.
  - cbn [tsx_on_state_proceeding_uas]. wbind. eapply wp_get_tsx; [done|].
    destruct (last_tx x) as [td|] eqn:Hl; [|apply wp_ret; by apply handled_refl].
    destruct (TSX_HAS_PENDING_TRANSPORT (transport_flag x)) eqn:Hp.
    + wbind. eapply wp_set_flag; [done|done|cbn; by auto|cbn; by auto|].
      intros w1 H1 _ _. apply wp_ret. by apply handled_evolves.
    + eapply wp_send_handled; try done. by apply Hb.
Qed.

Lemma wp_on_state_trying t ev x w :
  tsx_inv w -> tsxs w !! t = Some x -> state_handler x <> None ->
  role x = PJSIP_ROLE_UAS -> state x = PJSIP_TSX_STATE_TRYING -> event_ok w t x ev ->
  wp (tsx_on_state_trying t ev) (fun _ => handled t ev w) w.
Proof.
  intros HI Hx Hh Hr Hst Hev. unfold tsx_on_state_trying.
  destruct ev as [|e|td|rdata|td|]; try (apply wp_ret; eapply handled_idle; [done..|];
    intros _; unfold needs_timer; by rewrite Hst).
  destruct Hev as [Htd _]. wbind.
  eapply wp_mono; [|eapply wp_uas_tx; [done|done|done|split; [done|by left]|done]].
  intros st w1 H1. cbn beta in H1. destruct (evolves_at _ _ _ _ _ H1 Hx Hh) as (y & E1 & L1).
  wbind. eapply wp_get_tsx; [exact E1|]. wbind. apply wp_when.
  2:{ intros _. apply wp_ret. by apply handled_evolves. }
  intros [_ Hy%bool_decide_eq_true]%andb_prop.
  assert (Hry : role y = PJSIP_ROLE_UAS) by by rewrite (tl_role _ _ L1).
  eapply wp_set_state_to; [apply H1|exact E1|apply L1|..]; try done.
  - rewrite Hy. unfold state_le. cbn. lia.
  - rewrite Hry. by eexists.
  - by intros _ [|].
  - unfold needs_timer. cbn. by rewrite Hry.
  - intros z w2 H2 _ _ _ _ _. apply wp_ret, handled_evolves; [|done].
    by eapply evolves_trans.
Qed.

(** ** After the final response *)

Lemma wp_on_state_completed_uas t ev x w :
  tsx_inv w -> tsxs w !! t = Some x -> state_handler x <> None ->
  role x = PJSIP_ROLE_UAS -> state x = PJSIP_TSX_STATE_COMPLETED -> event_ok w t x ev ->
  wp (tsx_on_state_completed_uas t ev) (fun _ => handled t ev w) w.
Proof.
  intros HI Hx Hh Hr Hst Hev. pose proof (inv_ok _ _ _ HI Hx Hh) as Hok.
  assert (Ha : state x <> PJSIP_TSX_STATE_DESTROYED) by by rewrite Hst.
  destruct ev as [|e|td|rdata|td|]; try (apply wp_ret; by apply handled_refl).
  - destruct Hev as [He _]. cbn [tsx_on_state_completed_uas].
    destruct (Nat.eqb_spec e (retransmit_timer t)) as [->|Hne].
    { eapply wp_retransmit; try done. intros _ w1 H1.
      apply handled_evolves; [done|]. apply retransmit_event. }
    wbind. eapply wp_get_tsx; [done|]. wbind. apply wp_when; intros _.
    + eapply wp_set_status; [done..|]. intros y w1 H1 E1 _ [txt ->].
      eapply wp_terminate_handled; [done|exact E1|done..|].
      cbn. rewrite Hst. unfold state_le. cbn. lia.
    + eapply wp_terminate_handled; [by apply evolves_refl|exact Hx|done..|].
      rewrite Hst. unfold state_le. cbn. lia.
  - cbn [tsx_on_state_completed_uas]. wbind. eapply wp_get_tsx; [done|].
    case_bool_decide; apply wp_ret; by apply handled_refl.
  - destruct Hev as (msg & Hmsg & _). cbn [tsx_on_state_completed_uas]. wbind.
    eapply wp_from_option; [exact Hmsg|].
    destruct msg as [m|code reason]; [|apply wp_ret; by apply handled_refl].
    case_bool_decide.
    { eapply wp_retransmit; try done. intros _ w1 H1. by apply handled_evolves. }
    wbind. eapply wp_get_tsx; [done|].
    case_bool_decide; [apply wp_ret; by apply handled_refl|]. wbind.
    eapply wp_cancel_retransmit; [done..|]. intros _ w1 H1 E1 _ _ _. rewrite <- E1 in Hx.
    wbind. eapply wp_set_flag; [apply H1|exact Hx|cbn; by auto|..].
    { cbn. intros Hlt Hs. by apply Hok. }
    intros w2 H2 E2 _. wbind. apply wp_ask. wbind.
    eapply wp_restart_timeout; [apply H2|exact E2|]. intros w3 H3 E3 _ G3.
    rewrite <- E3 in E2. wbind. eapply wp_set_state_to; [apply H3|exact E2|..]; try done.
    + cbn. rewrite Hst. unfold state_le. cbn. lia.
    + cbn. rewrite Hr. by eexists.
    + intros _ _. apply (to_status _ Hok); auto.
    + cbn. by rewrite Hmsg.
    + intros z w4 H4 _ _ _ _ _. apply wp_ret, handled_evolves; [|done].
      eauto using evolves_trans.
Qed.

Lemma wp_on_state_completed_uac t ev x w :
  tsx_inv w -> tsxs w !! t = Some x -> state_handler x <> None ->
  state x = PJSIP_TSX_STATE_COMPLETED -> event_ok w t x ev ->
  wp (tsx_on_state_completed_uac t ev) (fun _ => handled t ev w) w.
Proof.
  intros HI Hx Hh Hst Hev.
  destruct ev as [|e|td|rdata|td|]; try (apply wp_ret; by apply handled_refl).
  - destruct Hev as [He _]. cbn [tsx_on_state_completed_uac].
    destruct (Nat.eqb_spec e (timeout_timer t)) as [->|Hne]; cbn [negb].
    + eapply wp_terminate_handled; [by apply evolves_refl|exact Hx|done..|].
      rewrite Hst. unfold state_le. cbn. lia.
    + apply wp_ret, handled_refl; [done|]. cbn. by apply Nat.eqb_neq.
  - destruct Hev as (msg & Hmsg & _). cbn [tsx_on_state_completed_uac]. wbind.
    eapply wp_get_tsx; [done|].
    case_bool_decide; [|apply wp_ret; by apply handled_refl]. wbind.
    eapply wp_from_option; [exact Hmsg|].
    destruct msg as [m|code reason]; [apply wp_ret; by apply handled_refl|].
    case_match; [|apply wp_ret; by apply handled_refl].
    eapply wp_retransmit; [done|done|done|by rewrite Hst|].
    intros _ w1 H1. by apply handled_evolves.
Qed.

Lemma wp_on_state_confirmed t ev x w :
  tsx_inv w -> tsxs w !! t = Some x -> state_handler x <> None ->
  state x = PJSIP_TSX_STATE_CONFIRMED -> event_ok w t x ev ->
  wp (tsx_on_state_confirmed t ev) (fun _ => handled t ev w) w.
Proof.
  intros HI Hx Hh Hst Hev.
  destruct ev as [|e|td|rdata|td|]; try (apply wp_ret; by apply handled_refl).
  - destruct Hev as [He _]. cbn [tsx_on_state_confirmed].
    destruct (Nat.eqb_spec e (retransmit_timer t)) as [->|Hne].
    + apply wp_ret, handled_refl; [done|]. apply retransmit_event.
    + eapply wp_terminate_handled; [by apply evolves_refl|exact Hx|done..|].
      rewrite Hst. unfold state_le. cbn. lia.
  - destruct Hev as (msg & Hmsg & _). cbn [tsx_on_state_confirmed]. wbind.
    eapply wp_from_option; [exact Hmsg|].
    destruct msg; apply wp_ret; by apply handled_refl.
Qed.

Lemma wp_on_state_terminated t ev x w :
  tsx_inv w -> tsxs w !! t = Some x -> state_handler x <> None ->
  state x = PJSIP_TSX_STATE_TERMINATED ->
  wp (tsx_on_state_terminated t ev) (fun _ => handled t ev w) w.
Proof.
  intros HI Hx Hh Hst.
  destruct ev as [|e|td|rdata|td|]; try (apply wp_ret; by apply handled_refl).
  cbn [tsx_on_state_terminated]. wbind. eapply (wp_set_state HE); [done..| | | |done|].
  - rewrite Hst. unfold state_le. cbn. lia.
  - apply handler_destroyed.
  - by intros _ [|].
  - intros w1 y H1 E1 L1 Hz _ _. apply wp_ret. split; [done|]. intros _. by apply Hz.
Qed.

(** ** Dispatching an event *)

Lemma wp_dispatch t ev x w :
  tsx_inv w -> tsxs w !! t = Some x -> state_handler x <> None -> event_ok w t x ev ->
  (is_timer_event ev (timeout_timer t) = true \/ no_zombie w t) ->
  wp (tsx_dispatch t ev) (fun _ w' => evolves (Some t) w w' /\ no_zombie w' t) w.
Proof.
  intros HI Hx Hh Hev Hz. unfold tsx_dispatch. wbind. eapply wp_get_tsx; [done|].
  pose proof (inv_ok _ _ _ HI Hx Hh) as Hok. pose proof (to_handler _ Hok) as Hhd.
  assert (Hend : forall m, wp m (fun _ => handled t ev w) w ->
    wp m (fun (_ : Z) w' => evolves (Some t) w w' /\ no_zombie w' t) w).
  { intros m Hm. eapply wp_mono; [|exact Hm]. intros _ w' [H1 H2]. auto. }
  destruct (state_handler x) as [h|] eqn:Hh'; [|done]. wbind.
  eapply wp_from_option; [done|].
  assert (Hh2 : state_handler x <> None) by by rewrite Hh'.
  destruct (role x) eqn:Hr; destruct (state x) eqn:Hs; cbn in Hhd; try done;
    injection Hhd as ->; cbn [run_handler];
    try (apply Hend; first [by eapply wp_on_state_null | by eapply wp_on_state_calling
      | by eapply wp_on_state_trying | by eapply wp_on_state_completed_uas
      | by eapply wp_on_state_completed_uac | by eapply wp_on_state_confirmed
      | by eapply wp_on_state_terminated
      | eapply wp_on_state_proceeding_uas; try done; split; [done|by right] ]).
  - eapply wp_mono; [|eapply wp_on_state_proceeding_uac; try done].
    + intros _ w' [H1 H2]. split; [done|]. apply H2. destruct Hz; auto.
    + split; [done|by right].
    + intros rdata code reason -> _ _. by destruct Hz.
  - apply wp_ret. split; [by apply evolves_refl|]. eapply no_need_zombie; [exact Hx|].
    unfold needs_timer. by rewrite Hs.
  - apply wp_ret. split; [by apply evolves_refl|]. eapply no_need_zombie; [exact Hx|].
    unfold needs_timer. by rewrite Hs.
Qed.

End Handlers.

(** * SIP transactions: the interface keeps the invariant

    [evolves] for the timer callback, the functions transaction users call,
    the deliveries of the endpoint and the creation of transactions. *)

Section Api.
Context {TW HT : Type} `{TS : !TimerService TW} `{KT : !KeyTable HT}.
Context {E : TsxEnv TW HT} (HE : env_ok E).

#[local] Abbreviation W := (tsx_world TW HT).

(** ** The timer callback *)

Lemma wp_set_timer_id t e id x (Q : unit -> W -> Prop) w :
  tsx_inv w -> tsxs w !! t = Some x -> e = timeout_timer t \/ e = retransmit_timer t ->
  (forall w', evolves (Some t) w w' -> tsxs w' = tsxs w ->
     ts_armed (timers w') = ts_armed (timers w) ->
     (e = retransmit_timer t -> same_timeout t w w') -> Q tt w') ->
  wp (set_timer_id e id) Q w.
Proof.
  intros HI Hx He HQ. pose proof (inv_base _ _ _ HI Hx) as Hb.
  assert (Hid : is_Some (ts_id (timers w) !! e)).
  { destruct He as [-> | ->]; apply Hb. }
  destruct (ts_set_id_ok (timers w) e id (ti_timers _ HI) Hid) as (Hok & Ha & Hi).
  unfold set_timer_id. apply wp_modify. apply HQ; [|done|done|].
  - apply evolves_timers; [done|done| |].
    + intros e' He'. rewrite Hi, lookup_insert. by case_decide.
    + intros e' H1 H2. rewrite Ha, Hi. split; [done|].
      rewrite lookup_insert_ne; [done|]. destruct He as [-> | ->]; congruence.
  - intros ->. split; change (timers (w <| timers := ts_set_id (timers w) (retransmit_timer t) id |>))
      with (ts_set_id (timers w) (retransmit_timer t) id); [by rewrite Ha|].
    rewrite Hi, lookup_insert_ne; [done|]. apply not_eq_sym, timer_entries_ne_self.
Qed.

(** The TU is notified of the termination before the timer is armed. *)
Lemma wp_terminate_unlocked t prev x (w0 w : W) :
  evolves (Some t) w0 w -> tsxs w !! t = Some x -> state_handler x <> None ->
  state_le (state x) PJSIP_TSX_STATE_TERMINATED ->
  wp (tsx_set_state t PJSIP_TSX_STATE_TERMINATED (PJSIP_EVENT_TRANSPORT_ERROR None)
        (Z.lor NO_NOTIFY NO_SCHEDULE_HANDLER);;
      notify_state t (PJSIP_EVENT_TRANSPORT_ERROR None) prev;;
      tsx_schedule_timer (timeout_timer t) zero_time TIMEOUT_TIMER;;
      mret tt) (fun _ w' => evolves (Some t) w0 w' /\ no_zombie w' t) w.
Proof.
  intros H0 Hx Hh Hle. wbind.
  eapply (wp_set_state HE); [apply H0|exact Hx|done|done|apply handler_terminated|by intros _ [|]|done|].
  intros w1 y H1 E1 L1 _ _ Ha. specialize (Ha eq_refl ltac:(done)). wbind.
  eapply (wp_notify_state HE); [apply H1|exact E1|]. intros w2 H2 _.
  destruct (evolves_at _ _ _ _ _ H2 E1 (tl_handler _ _ L1)) as (z & E2 & L2). wbind.
  assert (Hp : posted_ok w2 t).
  { eapply ev_posted; [exact H2|done|]. intros u _ _ _ _ Hs. rewrite Ha in Hs.
    by destruct Hs. }
  eapply wp_schedule_timeout; [apply H2|exact E2|].
  intros r w3 H3 E3 _ A3 I3 T3. apply wp_ret. split.
  { eauto using evolves_trans, evolves_weaken. }
  rewrite <- E3 in E2. apply (no_zombie_at t z); [done|]. intros Hhz Hn. split; [done|].
  intros Hc. destruct (ts_armed (timers w2) !! timeout_timer t) eqn:Har; [|by apply I3].
  rewrite T3 by by eexists. rewrite E3 in E2. apply (Hp z E2 Hhz Hc); [|by eexists].
  intros Hd. unfold needs_timer in Hn. by rewrite Hd in Hn.
Qed.

Lemma wp_on_transport_timer t disc x (w0 w : W) :
  evolves (Some t) w0 w -> tsxs w !! t = Some x -> state_handler x <> None ->
  state_lt (state x) PJSIP_TSX_STATE_TERMINATED = true ->
  wp (on_transport_timer t disc) (fun _ w' => evolves (Some t) w0 w' /\ no_zombie w' t) w.
Proof.
  intros H0 Hx Hh Hlt. unfold on_transport_timer. wbind. eapply wp_get_tsx; [done|].
  wbind. eapply wp_update_transport; [apply H0|done|]. intros y w1 H1 E1 F1 _.
  destruct (tp_frame_core _ _ F1) as (C1 & Ff & Fs & _). wbind.
  eapply wp_get_tsx; [exact E1|].
  assert (Hhy : state_handler y <> None) by by eapply same_core_handler.
  assert (H : evolves (Some t) w0 w1) by eauto using evolves_trans, evolves_weaken.
  pose proof (inv_base _ _ _ (ev_inv _ _ _ H1) E1) as Hb.
  pose proof (inv_ok _ _ _ (ev_inv _ _ _ H1) E1 Hhy) as Hok.
  rewrite <- (sc_state _ _ C1) in Hlt.
  destruct (disc && _ && _ && _ && _ && _) eqn:Hc.
  { zbool. repeat match goal with
      H : bool_decide _ = true |- _ => apply bool_decide_eq_true in H end.
    assert (Hry : role y = PJSIP_ROLE_UAS) by done.
    eapply (wp_upd_tsx t _ y); try done; try apply Hb; [apply H1|..].
    { intros _. destruct Hok as [K1 K2 K3 K4 K5 K6]. by split. }
    intros w2 Hv2 E2 _. split; [eauto using evolves_trans, evolves_weaken|].
    eapply no_need_zombie; [exact E2|]. unfold needs_timer. cbn.
    destruct (state y) eqn:Hs; try done; try by rewrite Hry.
    - pose proof (to_status _ Hok Hry (or_introl Hs)). lia.
    - pose proof (to_status _ Hok Hry (or_intror Hs)). lia. }
  assert (Hle : state_le (state y) PJSIP_TSX_STATE_TERMINATED).
  { unfold state_lt, state_le in *. zbool. lia. }
  wbind. apply wp_when; intros _; [|by eapply wp_terminate_unlocked].
  eapply wp_set_status; [apply H1|exact E1|done|]. intros z w2 H2 E2 _ [txt ->].
  eapply wp_terminate_unlocked; [|exact E2|done|done].
  eauto using evolves_trans, evolves_weaken.
Qed.

(** The timer heap has removed the entry before it calls back.  A server
    transaction whose request was not delivered yet only has transport events
    posted. *)
Definition null_uas_posted (w : W) (entry : nat) (x : pjsip_transaction) : Prop :=
  state x = PJSIP_TSX_STATE_NULL -> role x = PJSIP_ROLE_UAS ->
  ts_id (timers w) !! entry = Some TRANSPORT_ERR_TIMER \/
  ts_id (timers w) !! entry = Some TRANSPORT_DISC_TIMER.

Lemma wp_timer_callback t entry x w :
  entry_tsx entry = t -> tsx_inv w -> tsxs w !! t = Some x -> state_handler x <> None ->
  (entry = timeout_timer t /\ ts_armed (timers w) !! entry = None /\
     (state_le PJSIP_TSX_STATE_COMPLETED (state x) -> state x <> PJSIP_TSX_STATE_DESTROYED ->
      ts_id (timers w) !! entry = Some TIMEOUT_TIMER) \/
   entry = retransmit_timer t /\ no_zombie w t) ->
  null_uas_posted w entry x ->
  wp (tsx_timer_callback entry) (fun _ w' => evolves (Some t) w w' /\ no_zombie w' t) w.
Proof.
  intros Ht HI Hx Hh He Hnull. unfold tsx_timer_callback. rewrite Ht. wbind.
  eapply wp_get_tsx; [done|].
  destruct (state_lt (state x) PJSIP_TSX_STATE_DESTROYED) eqn:Hlt; cbn [negb].
  2:{ apply wp_ret. split; [by apply evolves_refl|]. eapply no_need_zombie; [done|].
      unfold needs_timer. by destruct (state x). }
  pose proof (inv_base _ _ _ HI Hx) as Hb.
  assert (He' : entry = timeout_timer t \/ entry = retransmit_timer t) by (destruct He as [[? _]|[? _]]; auto).
  assert (exists id, ts_id (timers w) !! entry = Some id) as [id Hid].
  { destruct He' as [-> | ->]; apply Hb. }
  wbind. unfold timer_id, wp at 1. rewrite Hid. cbn [mbind option_bind].
  assert (Hz1 : forall w1, tsxs w1 = tsxs w -> entry = retransmit_timer t -> no_zombie w t ->
    (entry = retransmit_timer t -> same_timeout t w w1) -> no_zombie w1 t).
  { intros w1 E1 Hr Hz S1. apply (untouched t w w1); auto. by rewrite E1. }
  destruct (_ || _) eqn:Hc; wbind; (eapply wp_set_timer_id; [done|done|done|]);
    intros w1 H1 E1 A1 S1; rewrite <- E1 in Hx.
  - apply wp_when; intros Hst; [by eapply wp_on_transport_timer|].
    split; [done|]. destruct He as [(_ & _ & Hc2)|[Hr Hz]]; [|by apply Hz1].
    eapply no_need_zombie; [exact Hx|].
    unfold needs_timer. destruct (state x) eqn:Hs; try done.
    rewrite Hid in Hc2. assert (id = TIMEOUT_TIMER) as -> ; [|done].
    specialize (Hc2 ltac:(unfold state_le; cbn; lia) ltac:(done)). congruence.
  - wbind. eapply wp_mono; [|eapply (wp_dispatch HE); [apply H1|exact Hx|done|..]].
    + intros _ w2 [H2 Hz2]. apply wp_ret. split; [|done]. by eapply evolves_trans.
    + split; [done|]. intros Hs. destruct (role x) eqn:Hr; [done|].
      exfalso. destruct (Hnull Hs Hr) as [Hi|Hi]; rewrite Hid in Hi;
        injection Hi as ->; done.
    + destruct He as [(-> & _)|(-> & Hz)]; [left; apply is_timer_refl|right; by apply Hz1].
Qed.

(** ** The transport layer *)

Definition any_tsx (x : pjsip_transaction) : Prop := True.

Lemma send_spec_any : send_spec any_tsx tsx_send_msg.
Proof. intros t td x Q w HI Hx Hh Ha _ Htd HQ. by eapply (wp_send_msg HE). Qed.

Lemma lock_dec_evolves t x (w0 w : W) :
  evolves None w0 w -> tsxs w !! t = Some x -> wp (lock_dec_ref t) (fun _ => evolves None w0) w.
Proof.
  intros H Hx. eapply (wp_lock t false); [apply H|exact Hx|].
  intros w1 H1 _ _ _ _. by eapply evolves_trans.
Qed.

(** A transmission by the transport of the transaction has ended. *)
Lemma wp_transport_callback t td sent x w :
  tsx_inv w -> tsxs w !! t = Some x -> state_handler x <> None -> callback_ok x ->
  sent <> 0 -> wp (transport_callback t td sent) (fun _ => evolves None w) w.
Proof.
  intros HI Hx Hh Hcb Hs. unfold transport_callback. wbind. apply wp_ask.
  case_match; [by apply wp_ret, evolves_refl|]. wbind.
  pose proof (inv_ok _ _ _ HI Hx Hh) as Hok. pose proof (inv_base _ _ _ HI Hx) as Hb.
  set (F := transport_flag x <| TSX_HAS_PENDING_TRANSPORT := false |>).
  set (x1 := x <| transport_flag := F |>).
  set (w1 := w <| tsxs := <[t := x1]> (tsxs w) |>).
  assert (E1 : tsxs w1 !! t = Some x1) by apply lookup_insert_eq.
  eapply wp_upd_raw; [exact Hx|]. fold F. fold x1. fold w1.
  wbind. eapply wp_get_tsx; [exact E1|].
  destruct ((0 <? sent) && TSX_HAS_PENDING_DESTROY (transport_flag x1)) eqn:Hc.
  { apply andb_prop in Hc as [_ Hpd]. pose proof (to_destroy _ Hok Hpd) as Hst.
    assert (H1 : evolves None w w1).
    { apply (evolves_upd_tsx t x x1); try done; try apply Hb.
      intros _. destruct Hok as [K1 K2 K3 K4 K5 K6]. split; cbn; try done. by rewrite Hst. }
    eapply (wp_destroy_pending HE); [apply H1|exact E1|done|done|done|].
    intros y w2 H2 _ _. by eapply evolves_trans. }
  destruct (Z.ltb_spec 0 sent) as [Hlt|Hlt].
  - cbn [when]. wbind. eapply (wp_after_send HE any_tsx tsx_send_msg t F x);
      try done; [apply send_spec_any|].
    intros y w2 H2 E2 _. wbind. apply wp_when; [intros Hneg; zbool; lia|intros _].
    by eapply lock_dec_evolves.
  - cbn [when]. wbind. apply wp_ret. wbind. apply wp_when; [intros _|intros Hneg; zbool; lia].
    wbind. eapply wp_upd_raw; [exact E1|].
    match goal with |- wp _ _ ?w => set (w2 := w) end.
    set (x2 := x1 <| transport_err := - sent |>) in *.
    assert (H2 : evolves None w w2).
    { assert (w2 = w <| tsxs := <[t := x2]> (tsxs w) |>) as ->.
      { unfold w2, w1. cbn. by rewrite insert_insert_eq. }
      apply (evolves_upd_tsx t x x2); try done; try apply Hb; [cbn; lia|].
      intros _. destruct Hok as [K1 K2 K3 K4 K5 K6]. split; cbn; try done.
      right. lia. }
    assert (E2 : tsxs w2 !! t = Some x2) by apply lookup_insert_eq. clearbody w2.
    wbind. eapply wp_get_tsx; [exact E2|]. apply wp_when; [|intros _; by eapply lock_dec_evolves].
    intros Hst. eapply wp_post; [apply H2|exact E2|exact Hst|]. intros w3 H3 E3.
    rewrite <- E3 in E2. eapply lock_dec_evolves; [by eapply evolves_trans|exact E2].
Qed.

(** A stateless transmission has ended. *)
Lemma wp_send_callback t td n x w :
  tsx_inv w -> tsxs w !! t = Some x -> state_handler x <> None -> callback_ok x ->
  is_Some (tdatas w !! td) -> notify_ok n ->
  wp (send_msg_callback tsx_send_msg t td n) (fun _ => evolves None w) w.
Proof.
  intros HI Hx Hh Hcb Htd Hn.
  eapply (wp_send_msg_callback HE any_tsx); try done. apply send_spec_any.
Qed.

(** The transport was disconnected. *)
Lemma wp_tp_disconnected t status x w :
  tsx_inv w -> tsxs w !! t = Some x -> status <> 0 ->
  wp (tsx_tp_state_callback t PJSIP_TP_STATE_DISCONNECTED status) (fun _ => evolves None w) w.
Proof. intros HI Hx Hs. by eapply wp_tp_state_callback. Qed.

(** ** Functions of the transaction user *)

Lemma wp_tsx_terminate t code x w :
  tsx_inv w -> tsxs w !! t = Some x -> state_handler x <> None ->
  wp (pjsip_tsx_terminate t code) (fun _ => evolves None w) w.
Proof.
  intros HI Hx Hh. unfold pjsip_tsx_terminate.
  destruct (Z.leb_spec 200 code); cbn [negb]; [|by apply wp_ret, evolves_refl].
  wbind. eapply wp_get_tsx; [done|]. wbind.
  apply wp_when; intros Hst; [|by apply wp_ret, evolves_refl].
  wbind. eapply wp_set_status; [done|done|done|]. intros y w1 H1 E1 _ [txt ->].
  eapply (wp_set_terminated HE); [apply H1|exact E1|done|done|..].
  { cbn. unfold state_lt, state_le in *. zbool. lia. }
  intros y w2 H2 _ _ _ _. apply wp_ret. by eapply evolves_trans.
Qed.

Lemma wp_tsx_stop_retransmit t x w :
  tsx_inv w -> tsxs w !! t = Some x ->
  wp (pjsip_tsx_stop_retransmit t) (fun _ => evolves None w) w.
Proof.
  intros HI Hx. unfold pjsip_tsx_stop_retransmit. wbind. eapply wp_get_tsx; [done|].
  case_match; [by apply wp_ret, evolves_refl|]. wbind.
  eapply wp_cancel_retransmit; [done..|]. intros _ w1 H1 _ _ _ _. by apply wp_ret.
Qed.

Lemma wp_tsx_set_timeout t msec x w :
  tsx_inv w -> tsxs w !! t = Some x ->
  wp (pjsip_tsx_set_timeout t msec) (fun _ => evolves None w) w.
Proof.
  intros HI Hx. unfold pjsip_tsx_set_timeout. wbind. eapply wp_get_tsx; [done|].
  case_match; [by apply wp_ret, evolves_refl|]. wbind.
  destruct (tb_timeout _ _ _ (inv_base _ _ _ HI Hx)) as [id Hid].
  unfold timer_id, wp at 1. rewrite Hid. cbn [mbind option_bind].
  case_match; [by apply wp_ret, evolves_refl|]. wbind.
  eapply wp_restart_timeout; [done..|]. intros w1 H1 _ _ _. by apply wp_ret.
Qed.

Lemma wp_tsx_set_transport t sel x w :
  tsx_inv w -> tsxs w !! t = Some x ->
  wp (pjsip_tsx_set_transport t sel) (fun _ => evolves None w) w.
Proof.
  intros HI Hx. unfold pjsip_tsx_set_transport. wbind. eapply wp_get_tsx; [done|]. wbind.
  apply wp_emit_opt; [done|]. intros w1 H1 E1 _ _ _. rewrite <- E1 in Hx.
  pose proof (inv_base _ _ _ (ev_inv _ _ _ H1) Hx) as Hb. wbind.
  eapply (wp_upd_plain t _ x); try done; try apply Hb; [apply H1|by left|].
  intros w2 H2 E2 _. wbind. apply wp_emit_opt; [apply H2|]. intros w3 H3 _ _ _ _.
  apply wp_ret. eauto using evolves_trans.
Qed.

Lemma wp_retransmit_no_state t tdata x w :
  tsx_inv w -> tsxs w !! t = Some x -> state_handler x <> None ->
  state x <> PJSIP_TSX_STATE_DESTROYED ->
  (forall td, tdata = Some td -> is_Some (tdatas w !! td)) ->
  (tdata = None -> last_tx x <> None) ->
  wp (pjsip_tsx_retransmit_no_state t tdata) (fun _ => evolves None w) w.
Proof.
  intros HI Hx Hh Ha Htd Hl. unfold pjsip_tsx_retransmit_no_state. wbind.
  assert (Hend : forall td w1, evolves None w w1 -> tsxs w1 !! t = Some x ->
    is_Some (tdatas w1 !! td) ->
    wp (status ← tsx_send_msg t td;
        when (status =? PJ_SUCCESS) (emit (OutDecRef (RefTdata td)));;
        mret status) (fun _ => evolves None w) w1).
  { intros td w1 H1 E1 T1. wbind. eapply (wp_send_msg HE); [apply H1|exact E1|done..|].
    intros st y w2 H2 E2 _. assert (H : evolves None w w2) by by eapply evolves_trans.
    wbind. apply wp_when; intros _; [|by apply wp_ret].
    apply wp_emit_ev; [apply H2|]. intros w3 H3 _ _ _ _. apply wp_ret.
    by eapply evolves_trans. }
  destruct tdata as [td|].
  - apply wp_ret. apply Hend; [by apply evolves_refl|done|by apply Htd].
  - wbind. eapply wp_get_tsx; [done|]. destruct (last_tx x) as [td|] eqn:Hlt;
      [|by destruct (Hl eq_refl)]. wbind. eapply wp_from_option; [done|]. wbind.
    apply wp_emit_ev; [done|]. intros w1 H1 E1 _ D1 _. apply wp_ret.
    apply Hend; [done|by rewrite E1|]. rewrite D1.
    by apply (tb_last_tx _ _ _ (inv_base _ _ _ HI Hx)).
Qed.

Lemma wp_tsx_send_msg t tdata x w :
  tsx_inv w -> tsxs w !! t = Some x -> state_handler x <> None -> no_zombie w t ->
  (forall td, tdata = Some td -> is_Some (tdatas w !! td)) ->
  (state x = PJSIP_TSX_STATE_NULL -> role x = PJSIP_ROLE_UAC) ->
  wp (pjsip_tsx_send_msg t tdata) (fun _ => evolves None w) w.
Proof.
  intros HI Hx Hh Hz Htd Hn. unfold pjsip_tsx_send_msg. wbind. eapply wp_get_tsx; [done|].
  destruct (match tdata with Some td => Some td | None => last_tx x end) as [td|] eqn:Ht;
    [|by apply wp_ret, evolves_refl].
  assert (Htd' : is_Some (tdatas w !! td)).
  { destruct tdata; [by apply Htd|]. by apply (tb_last_tx _ _ _ (inv_base _ _ _ HI Hx)). }
  wbind. apply wp_emit_ev; [done|]. intros w1 H1 E1 _ D1 _. rewrite <- E1 in Hx. wbind.
  eapply wp_mono; [|eapply (wp_dispatch HE); [apply H1|exact Hx|done|..]].
  - intros st w2 [H2 Hz2]. assert (H : evolves None w w2).
    { eapply evolves_trans; [exact H1|]. by eapply evolves_close. }
    wbind. apply wp_when; intros _; [|by apply wp_ret].
    apply wp_emit_ev; [apply H2|]. intros w3 H3 _ _ _ _. apply wp_ret.
    by eapply evolves_trans.
  - split; [by rewrite D1|done].
  - right. by eapply ev_zombie.
Qed.

(** ** Deliveries of the endpoint *)

(** A message the transport layer delivers. *)
Definition rdata_ok (rdata : pjsip_rx_data) : Prop :=
  exists msg, rx_msg rdata = Some msg /\
    (forall code reason, msg = PJSIP_RESPONSE_MSG code reason -> 100 <= code < 700).

Lemma wp_tsx_recv_msg t rdata x w :
  tsx_inv w -> tsxs w !! t = Some x -> state_handler x <> None -> no_zombie w t ->
  rdata_ok rdata ->
  wp (pjsip_tsx_recv_msg t rdata) (fun _ => evolves None w) w.
Proof.
  intros HI Hx Hh Hz Hr. unfold pjsip_tsx_recv_msg. wbind.
  apply wp_emit_ev; [done|]. intros w1 H1 E1 _ _ _. rewrite <- E1 in Hx. wbind.
  eapply wp_mono; [|eapply (wp_dispatch HE); [apply H1|exact Hx|done|exact Hr|]].
  - intros _ w2 [H2 Hz2]. apply wp_ret. eapply evolves_trans; [exact H1|].
    by eapply evolves_close.
  - right. by eapply ev_zombie.
Qed.

(** The key of a message with the mandatory headers is a key of the table. *)
Lemma wp_layer_on_rx r rdata key len cs w :
  tsx_inv w -> (forall t, no_zombie w t) -> rdata_ok rdata -> rx_cseq rdata = Some cs ->
  pjsip_tsx_create_key r (cs_method cs) rdata = Some (PJ_SUCCESS, len, key) -> kt_key key ->
  wp (mod_tsx_layer_on_rx r rdata) (fun _ => evolves None w) w.
Proof.
  intros HI Hz Hr Hcs Hkey Hk. unfold mod_tsx_layer_on_rx. wbind.
  eapply wp_from_option; [exact Hcs|]. wbind. eapply wp_from_option; [exact Hkey|].
  cbn [negb]. rewrite Z.eqb_refl. cbn [negb]. wbind. apply wp_ask. wbind.
  eapply wp_from_option; [by apply kt_get_ok; [apply HI|]|].
  destruct (kt_map (htable w) !! kt_canon key) as [t|] eqn:Hm;
    [|by apply wp_ret, evolves_refl].
  destruct (ti_reg _ HI _ _ Hm) as (x & Hx & _ & Hh). wbind.
  eapply wp_get_tsx; [exact Hx|]. case_bool_decide; [by apply wp_ret, evolves_refl|].
  wbind. eapply (wp_lock t true); [done..|]. intros w1 H1 E1 _ _ _. rewrite <- E1 in Hx.
  wbind. eapply wp_mono; [|eapply wp_tsx_recv_msg; [apply H1|exact Hx|done|by eapply ev_zombie|done]].
  intros ? w2 H2. cbn beta in H2. destruct (evolves_at _ _ _ _ _ H2 Hx Hh) as (y & E2 & _).
  wbind. eapply wp_mono; [|eapply (lock_dec_evolves t y w); [by eapply evolves_trans|exact E2]].
  intros ? w3 H3. by apply wp_ret.
Qed.

Lemma wp_find_tsx key add_ref w :
  tsx_inv w -> kt_key key ->
  wp (find_tsx key add_ref) (fun r w' => r = kt_map (htable w) !! kt_canon key /\
    evolves None w w') w.
Proof.
  intros HI Hk. unfold find_tsx. wbind. apply wp_ask. wbind.
  eapply wp_from_option; [by apply kt_get_ok; [apply HI|]|].
  destruct (kt_map (htable w) !! kt_canon key) as [t|] eqn:Hm.
  2:{ apply wp_ret. split; [done|by apply evolves_refl]. }
  destruct (ti_reg _ HI _ _ Hm) as (x & Hx & _ & _). wbind.
  eapply (wp_lock t true); [done..|]. intros w1 H1 E1 _ _ _. rewrite <- E1 in Hx. wbind.
  apply wp_when; intros _; [|by apply wp_ret].
  eapply (wp_lock t false); [apply H1|exact Hx|]. intros w2 H2 _ _ _ _.
  apply wp_ret. split; [done|by eapply evolves_trans].
Qed.

End Api.
