(* ===== verification/TsxCreate.v ===== *)
(** * SIP transactions: creation and registration

    [pjsip_tsx_create_uac2] and [pjsip_tsx_create_uas2] on a fresh address:
    the transaction is registered under its key or nothing is registered. *)

From S2P Require Import Prelude Monad TimeVal TimerSpec Hash PjString TsxData TsxEnv Tsx TsxApi TsxInv.
From S2P Require Import TsxProofs TsxSend.
Local Open Scope Z_scope.

Section Create.
Context {TW HT : Type} `{TS : !TimerService TW} `{KT : !KeyTable HT}.
Context {E : TsxEnv TW HT}.

#[local] Abbreviation W := (tsx_world TW HT).

(** ** Operations that leave the table alone *)

Definition same_table {A} (m : M W A) : Prop := forall w a w',
  m w = Some (a, w') -> htable w' = htable w.

Lemma same_table_ret {A} (a : A) : same_table (mret a).
Proof. by intros w b w' [= <- <-]. Qed.

Lemma same_table_bind {A B} (m : M W A) (f : A -> M W B) :
  same_table m -> (forall a, same_table (f a)) -> same_table (m ≫= f).
Proof.
  intros Hm Hf w b w'. unfold mbind, M_bind. destruct (m w) as [[a w1]|] eqn:H; [|done].
  intros Hb. rewrite (Hf _ _ _ _ Hb). by apply Hm in H.
Qed.

Lemma same_table_when b (m : M W unit) : same_table m -> same_table (when b m).
Proof. intros H. destruct b; [done|apply same_table_ret]. Qed.

Lemma same_table_modify f :
  (forall w : W, htable (f w) = htable w) -> same_table (modify f).
Proof. intros H w a w' [= <- <-]. apply H. Qed.

Lemma same_table_ask : same_table (@ask W).
Proof. by intros w a w' [= <- <-]. Qed.

Lemma same_table_get_tsx t : same_table (get_tsx t).
Proof. intros w a w'. unfold get_tsx. destruct (tsxs w !! t); [|done]. by intros [= <- <-]. Qed.

Lemma same_table_upd_tsx t f : same_table (upd_tsx t f).
Proof. intros w a w'. unfold upd_tsx. destruct (tsxs w !! t); [|done]. by intros [= <- <-]. Qed.

Lemma same_table_upd_td td f : same_table (upd_td td f).
Proof. intros w a w'. unfold upd_td. destruct (tdatas w !! td); [|done]. by intros [= <- <-]. Qed.

Lemma same_table_get_td td : same_table (get_td td).
Proof. intros w a w'. unfold get_td. destruct (tdatas w !! td); [|done]. by intros [= <- <-]. Qed.

Lemma same_table_schedule e delay id : same_table (tsx_schedule_timer e delay id).
Proof.
  intros w a w'. unfold tsx_schedule_timer.
  destruct (ts_schedule _ _ _ _ _) as [[r tw]|]; [|done]. by intros [= <- <-].
Qed.

Lemma same_table_cancel e : same_table (tsx_cancel_timer e).
Proof.
  intros w a w'. unfold tsx_cancel_timer.
  destruct (ts_cancel _ _ _) as [[r tw]|]; [|done]. by intros [= <- <-].
Qed.

Lemma same_table_emit o : same_table (emit o).
Proof. by apply same_table_modify. Qed.

Lemma wp_same_table {A} (m : M W A) Q w :
  same_table m -> wp m (fun a w' => htable w' = htable w -> Q a w') w -> wp m Q w.
Proof.
  intros Hm. unfold wp. destruct (m w) as [[a w']|] eqn:H; [|done].
  intros HQ. apply HQ. by eapply Hm.
Qed.

End Create.

Ltac same_table :=
  repeat first
    [ progress intros | apply same_table_bind | apply same_table_when
    | apply same_table_emit | apply same_table_get_tsx | apply same_table_upd_tsx
    | apply same_table_ask | apply same_table_ret | apply same_table_schedule
    | apply same_table_cancel | apply same_table_upd_td | apply same_table_get_td | case_match ].

Section CreateSpec.
Context {TW HT : Type} `{TS : !TimerService TW} `{KT : !KeyTable HT}.
Context {E : TsxEnv TW HT}.

#[local] Abbreviation W := (tsx_world TW HT).

Lemma same_table_update_transport t tp : same_table (tsx_update_transport t tp).
Proof. unfold tsx_update_transport, tsx_tp_state_callback. same_table. Qed.

Lemma same_table_shutdown t : same_table (tsx_shutdown t).
Proof.
  unfold tsx_shutdown. apply same_table_bind; [apply same_table_update_transport|].
  unfold emit_opt, lock_dec_ref, set_flag. same_table.
Qed.

(** ** The new transaction *)

(** The address of a transaction that does not exist yet. *)
Definition fresh_tsx (w : W) (t : nat) : Prop :=
  tsxs w !! t = None /\ ts_id (timers w) !! retransmit_timer t = None /\
  ts_id (timers w) !! timeout_timer t = None.

Lemma fresh_idle (w : W) t : tsx_inv w -> fresh_tsx w t -> tsx_idle w t.
Proof.
  intros HI (_ & H1 & H2). split; apply eq_None_not_Some; intros Ha;
    destruct (ts_armed_id _ _ (ti_timers _ HI) Ha); congruence.
Qed.

Lemma no_handler_zombie (w : W) t x : tsxs w !! t = Some x -> state_handler x = None -> no_zombie w t.
Proof. intros Hx Hh y Hy Hn. congruence. Qed.

Lemma evolves_alloc t user lock (w : W) :
  tsx_inv w -> fresh_tsx w t ->
  let w' := w <| tsxs := <[t := tsx_zalloc user lock]> (tsxs w) |>
    <| timers := ts_new (ts_new (timers w) (retransmit_timer t)) (timeout_timer t) |> in
  evolves None w w' /\ tsx_idle w' t.
Proof.
  intros HI Hf. pose proof (fresh_idle _ _ HI Hf) as [Hi1 Hi2]. destruct Hf as (Hn & H1 & H2).
  destruct HI as [Htm Htb Hmod Htd Htx Hreg]. assert (Hne := timer_entries_ne_self t).
  destruct (ts_new_ok _ _ Htm H1) as (K1 & A1 & I1).
  destruct (ts_new_ok (ts_new (timers w) (retransmit_timer t)) (timeout_timer t) K1)
    as (K2 & A2 & I2); [by rewrite I1, lookup_insert_ne|].
  set (tw := ts_new (ts_new _ _) _) in *. intros w'.
  assert (Et : timers w' = tw) by done. assert (Ex : tsxs w' = <[t := tsx_zalloc user lock]> (tsxs w)) by done.
  assert (Hids : forall e, is_Some (ts_id (timers w) !! e) -> is_Some (ts_id tw !! e)).
  { intros e He. rewrite I2, I1, !lookup_insert. repeat case_decide; done. }
  assert (Hst : forall t', t' <> t -> same_timeout t' w w').
  { intros t' Hd. destruct (timer_entries_ne t' t Hd) as (? & ? & _). split; rewrite Et.
    - by rewrite A2, A1.
    - by rewrite I2, I1, !lookup_insert_ne. }
  assert (Hself : forall x, tsxs w' !! t = Some x -> state_handler x <> None -> False).
  { intros x. rewrite Ex, lookup_insert_eq. by intros [= <-]. }
  split; [|by split; rewrite Et, A2, A1]. split; [split|..]; try done.
  - rewrite Ex. intros t' x. rewrite lookup_insert. case_decide as Hd.
    + intros [= <-]. subst t'. split; rewrite ?Et, ?I2, ?I1; try done;
        rewrite !lookup_insert; repeat case_decide; try done; by eexists.
    + intros Hx. destruct (Htx _ _ Hx). split; rewrite ?Et; auto.
  - intros k t' Hk. destruct (Hreg _ _ Hk) as (x & Hx & ?). exists x.
    rewrite Ex, lookup_insert_ne by congruence. done.
  - intros t' x Hx Hh. exists x. rewrite Ex, lookup_insert_ne by congruence. eauto using tsx_le_refl.
  - intros t' _ Hz. destruct (decide (t' = t)) as [->|Hd]; [intros x Hx Hh; by destruct (Hself x)|].
    apply (untouched t' w w'); auto. by rewrite Ex, lookup_insert_ne.
  - intros t' _ Hz. destruct (decide (t' = t)) as [->|Hd]; [intros x Hx Hh; by destruct (Hself x)|].
    apply (untouched t' w w'); auto. by rewrite Ex, lookup_insert_ne.
Qed.

(** Filling in the fields of a transaction that has no handler yet. *)
Lemma wp_upd_init t f x (Q : unit -> W -> Prop) w :
  tsx_inv w -> tsxs w !! t = Some x -> state_handler x = None ->
  state (f x) = PJSIP_TSX_STATE_NULL ->
  (forall td, last_tx (f x) = Some td -> is_Some (tdatas w !! td)) ->
  pending_tx (f x) = None ->
  (state_handler (f x) <> None -> tsx_ok TW HT (f x)) ->
  (forall w', evolves None w w' -> tsxs w' !! t = Some (f x) -> same_outside t w w' -> Q tt w') ->
  wp (upd_tsx t f) Q w.
Proof.
  intros HI Hx Hh Hs Hl Hp Hok HQ. unfold wp, upd_tsx. rewrite Hx. cbn.
  apply HQ; [|apply lookup_insert_eq|done].
  pose proof (inv_base _ _ _ HI Hx) as [B1 B2 B3 B4 B5].
  apply (evolves_close t).
  - apply (evolves_local t x (f x)); try done; try apply HI.
    split; try done. by rewrite Hp.
  - apply (no_zombie_at t (f x)); [apply lookup_insert_eq|]. unfold needs_timer. by rewrite Hs.
Qed.

(** ** [tsx_create] *)

Lemma wp_tsx_create user glock al (Q : Z -> W -> Prop) w :
  tsx_inv w -> fresh_tsx w (al_tsx al) ->
  (forall st w', evolves None w w' -> htable w' = htable w ->
     (st = PJ_SUCCESS -> tsx_idle w' (al_tsx al) /\ tdatas w' = tdatas w /\
        exists lock, tsxs w' !! al_tsx al = Some (tsx_zalloc user lock)) -> Q st w') ->
  wp (tsx_create user glock al) Q w.
Proof.
  intros HI Hf HQ. unfold tsx_create.
  assert (Hfail : forall st, st <> PJ_SUCCESS -> Q st w).
  { intros st Hst. apply HQ; [by apply evolves_refl|done|done]. }
  destruct (al_pool al); cbn [negb]; [|by apply wp_ret, Hfail]. set (t := al_tsx al) in *.
  wbind.
  assert (Hgo : forall lock, wp (modify (fun w => w <| tsxs := <[t := tsx_zalloc user lock]> (tsxs w) |>
          <| timers := ts_new (ts_new (timers w) (retransmit_timer t)) (timeout_timer t) |>);;
        lock_add_ref t;;
        if negb (al_mutex al =? PJ_SUCCESS) then tsx_shutdown t;; mret (al_mutex al)
        else mret PJ_SUCCESS) Q w).
  { intros lock. wbind. apply wp_modify.
    destruct (evolves_alloc t user lock w HI Hf) as [H1 I1].
    match goal with |- wp _ _ ?v => set (w1 := v) in * end.
    assert (E1 : tsxs w1 !! t = Some (tsx_zalloc user lock)) by apply lookup_insert_eq.
    assert (D1 : htable w1 = htable w /\ tdatas w1 = tdatas w) by done. clearbody w1.
    wbind. apply wp_same_table; [unfold lock_add_ref; same_table|].
    eapply (wp_lock t true); [apply H1|exact E1|]. intros w2 H2 E2 T2 D2 _ HT2.
    rewrite <- E2 in E1. assert (H : evolves None w w2) by by eapply evolves_trans.
    destruct (Z.eqb_spec (al_mutex al) PJ_SUCCESS) as [|Hm]; cbn [negb].
    - apply wp_ret, HQ; [done|rewrite HT2; apply D1|]. intros _.
      split; [by unfold tsx_idle in *; rewrite T2|]. split; [rewrite D2; apply D1|by exists lock].
    - wbind. apply wp_same_table; [apply same_table_shutdown|].
      eapply wp_shutdown; [apply H2|exact E1|done|]. intros y w3 H3 E3 C3 _ HT3. apply wp_ret.
      apply HQ; [|rewrite HT3, HT2; apply D1|done].
      eapply evolves_trans; [exact H|]. apply (evolves_close t); [done|].
      eapply no_handler_zombie; [exact E3|]. by rewrite (sc_handler _ _ C3). }
  destruct glock as [l|]; cbn [negb]; [apply wp_ret, Hgo|].
  destruct (Z.eqb_spec (fst (al_lock al)) PJ_SUCCESS); cbn [negb]; apply wp_ret; [apply Hgo|].
  by apply wp_ret, Hfail.
Qed.

(** ** Registration *)

Lemma wp_register t x (Q : Z -> W -> Prop) w :
  tsx_inv w -> tsxs w !! t = Some x -> state_handler x <> None ->
  (is_Some (kt_map (htable w) !! kt_canon (transaction_key x)) -> Q PJ_EEXISTS w) ->
  (forall w', kt_map (htable w) !! kt_canon (transaction_key x) = None ->
     evolves None w w' -> tsxs w' = tsxs w -> timers w' = timers w ->
     kt_map (htable w') = <[kt_canon (transaction_key x) := t]> (kt_map (htable w)) ->
     Q PJ_SUCCESS w') ->
  wp (mod_tsx_layer_register_tsx t) Q w.
Proof.
  intros HI Hx Hh Hex HQ. unfold mod_tsx_layer_register_tsx. wbind.
  eapply wp_get_tsx; [done|]. wbind. apply wp_ask. wbind.
  pose proof (inv_ok _ _ _ HI Hx Hh) as Hok.
  eapply wp_from_option; [apply kt_get_ok; [apply HI|apply Hok]|].
  destruct (kt_map (htable w) !! kt_canon (transaction_key x)) as [t'|] eqn:Hm.
  { apply wp_ret, Hex. by eexists. }
  destruct (kt_set_ok (htable w) (transaction_key x) (hashed_key x) (Some t)
    (ti_table _ HI) (to_key _ Hok) (to_hash _ Hok)) as (ht & Hs & Hkt & Hmap).
  wbind. eapply wp_from_option; [exact Hs|]. wbind. apply wp_modify, wp_ret.
  assert (Hins : kt_map ht = <[kt_canon (transaction_key x) := t]> (kt_map (htable w))).
  { by rewrite Hmap. }
  apply HQ; try done. destruct HI as [Htm Htb Hmod Htd Htx Hreg]. split; [split|..]; try done.
  - intros t' x' Hx'. by destruct (Htx _ _ Hx') as [].
  - intros k t'. change (htable (w <| htable := ht |>)) with ht. rewrite Hins, lookup_insert.
    case_decide as Hk; [|apply Hreg]. intros [= <-]. by exists x.
  - eauto using tsx_le_refl.
Qed.

(** The end of both creations. *)
Record created (w w' : W) (t : nat) (key : list Z) (st : Z) : Prop := mk_created {
  cr_ev : evolves None w w';
  cr_fail : st <> PJ_SUCCESS -> kt_map (htable w') = kt_map (htable w);
  cr_ok : st = PJ_SUCCESS ->
    kt_map (htable w) !! kt_canon key = None /\
    kt_map (htable w') = <[kt_canon key := t]> (kt_map (htable w)) /\
    exists x, tsxs w' !! t = Some x /\ transaction_key x = key /\
      state x = PJSIP_TSX_STATE_NULL /\ state_handler x = Some tsx_on_state_null_h
}.

Lemma wp_register_or_shutdown t x (w0 w : W) :
  evolves None w0 w -> htable w = htable w0 -> tsxs w !! t = Some x ->
  state x = PJSIP_TSX_STATE_NULL -> state_handler x = Some tsx_on_state_null_h ->
  TSX_HAS_PENDING_TRANSPORT (transport_flag x) = false ->
  wp (register_or_shutdown t) (fun st w' => created w0 w' t (transaction_key x) st /\
    (st = PJ_SUCCESS -> tsxs w' !! t = Some x) /\
    (kt_map (htable w0) !! kt_canon (transaction_key x) = None <-> st = PJ_SUCCESS)) w.
Proof.
  intros H0 Et Hx Hs Hh Hpt. unfold register_or_shutdown. wbind.
  assert (Hhn : state_handler x <> None) by congruence.
  eapply wp_register; [apply H0|exact Hx|done|..].
  - intros Hex. wbind. cbn [negb when Z.eqb]. wbind. apply wp_same_table; [apply same_table_shutdown|].
    eapply wp_shutdown; [apply H0|exact Hx|by rewrite Hpt|].
    intros y w1 H1 E1 C1 _ HT1. apply wp_ret, wp_ret. rewrite Et in Hex, HT1.
    split; [|split; [done|]]; [split; [|by rewrite HT1|done]|].
    + eapply evolves_trans; [exact H0|]. apply (evolves_close t); [done|].
      apply (no_zombie_at t y); [done|]. unfold needs_timer. by rewrite (sc_state _ _ C1), Hs.
    + split; [intros Hn; rewrite Hn in Hex; by destruct Hex|done].
  - intros w1 Hn H1 E1 T1 M1. cbn [negb when Z.eqb]. apply wp_ret. rewrite Et in Hn, M1.
    split; [split|]; [by eapply evolves_trans|done| |].
    + intros _. split; [done|]. split; [done|]. exists x. by rewrite E1.
    + split; [by rewrite E1|done].
Qed.

(** ** [pjsip_tsx_create_uac2] *)

(** The branch parameter [uac_branch] leaves in the message. *)
Definition uac_branch_of (w : W) (d : pjsip_tx_data) : list Z :=
  let b := match td_via d with Some via => via_branch via | None => [] end in
  if slen b =? 0 then PJSIP_RFC3261_BRANCH_ID ++ [80; 106] ++ unique_string w else b.

Definition uac_key (w : W) (d : pjsip_tx_data) (m : pjsip_method) : list Z :=
  (create_tsx_key_3261 PJSIP_ROLE_UAC m (uac_branch_of w d)).2.

Lemma wp_uac_branch td d (Q : list Z -> W -> Prop) w :
  tsx_inv w -> tdatas w !! td = Some d ->
  (forall w1 w', evolves None w w' -> tsxs w' = tsxs w ->
     is_Some (tdatas w' !! td) -> Q (uac_branch_of w1 d) w') ->
  wp (uac_branch td) Q w.
Proof.
  intros HI Hd HQ. unfold uac_branch. wbind. eapply wp_get_td; [done|].
  pose proof (ti_td _ HI td d Hd) as Hok. wbind.
  assert (Htd : forall w', evolves None w w' -> is_Some (tdatas w' !! td)).
  { intros w' H. eapply ev_td; [exact H|by eexists]. }
  unfold wp at 1, upd_td. rewrite Hd. cbn [mbind option_bind].
  set (via := match td_via d with Some via => via | None => _ end).
  set (d1 := d <| td_via := Some via |>).
  set (w1 := w <| tdatas := _ |>).
  assert (H1 : evolves None w w1).
  { apply evolves_outside; try done.
    - apply map_Forall_insert_2; [done|]. apply HI.
    - intros td' Ht. cbn. rewrite lookup_insert. case_decide; [by eexists|done]. }
  assert (Hb : (match td_via d with Some via => via_branch via | None => [] end) = via_branch via).
  { unfold via. by destruct (td_via d). }
  assert (Hdd : tdatas w1 !! td = Some d1) by apply lookup_insert_eq.
  pose proof (HQ w1) as HQ1. unfold uac_branch_of in HQ1. rewrite Hb in HQ1.
  destruct (slen (via_branch via) =? 0).
  - wbind. apply wp_ask. wbind. eapply wp_upd_td; [apply H1|exact Hdd|exact Hok|].
    intros w2 H2 E2 _ _. apply wp_ret. assert (H : evolves None w w2) by by eapply evolves_trans.
    apply HQ1; [done|by rewrite E2|by apply Htd].
  - apply wp_ret. apply HQ1; [done..|by apply Htd].
Qed.

(** The failing path: the new transaction is shut down. *)
Lemma wp_shutdown_new t x st key (w0 w : W) :
  evolves None w0 w -> htable w = htable w0 -> tsxs w !! t = Some x ->
  state x = PJSIP_TSX_STATE_NULL -> TSX_HAS_PENDING_TRANSPORT (transport_flag x) = false ->
  st <> PJ_SUCCESS ->
  wp (tsx_shutdown t;; mret st) (fun st w' => created w0 w' t key st /\ st <> PJ_SUCCESS) w.
Proof.
  intros H0 Et Hx Hs Hpt Hst. wbind. apply wp_same_table; [apply same_table_shutdown|].
  eapply wp_shutdown; [apply H0|exact Hx|by rewrite Hpt|].
  intros y w1 H1 E1 C1 _ T1. apply wp_ret. split; [|done]. split; [|by rewrite T1, Et|done].
  eapply evolves_trans; [exact H0|]. apply (evolves_close t); [done|].
  apply (no_zombie_at t y); [done|]. unfold needs_timer. by rewrite (sc_state _ _ C1), Hs.
Qed.

(** The destination of the request is looked up and the transaction
    registered. *)
Lemma wp_uac_register t td x (w0 w : W) :
  evolves None w0 w -> htable w = htable w0 -> tsxs w !! t = Some x ->
  state x = PJSIP_TSX_STATE_NULL -> state_handler x = Some tsx_on_state_null_h ->
  TSX_HAS_PENDING_TRANSPORT (transport_flag x) = false ->
  wp (emit (OutAddRef (RefTdata td));;
      w ← ask;
      let '(status, reliable) := get_request_dest w td in
      if negb (status =? PJ_SUCCESS) then
        tsx_shutdown t;; mret status
      else
        upd_tsx t (fun x => x <| is_reliable := reliable |>);;
        register_or_shutdown t)
    (fun st w' => created w0 w' t (transaction_key x) st /\
      (st = PJ_SUCCESS -> exists y, tsxs w' !! t = Some y /\
        role y = role x /\ method y = method x /\ last_tx y = last_tx x)) w.
Proof.
  intros H0 T0 Hx Hs Hh Hpt. wbind.
  apply wp_same_table; [apply same_table_emit|]. apply wp_emit_ev; [apply H0|].
  intros w1 H1 E1 _ _ _ T1. rewrite <- E1 in Hx. wbind. apply wp_ask.
  assert (H : evolves None w0 w1) by by eapply evolves_trans.
  assert (T : htable w1 = htable w0) by by rewrite T1.
  destruct (get_request_dest w1 td) as [st reliable].
  destruct (Z.eqb_spec st PJ_SUCCESS) as [Hst|Hst]; cbn [negb].
  - wbind. pose proof (inv_base _ _ _ (ev_inv _ _ _ H) Hx) as Hb.
    apply wp_same_table; [apply same_table_upd_tsx|].
    eapply (wp_upd_plain t _ x); try done; try apply Hb; [apply H|by left|].
    intros w2 H2 E2 _ T2. eapply wp_mono; [|eapply (wp_register_or_shutdown t _ w0 w2);
      [by eapply evolves_trans|by rewrite T2|exact E2|done..]].
    intros st2 w3 (Hc & Hy & _). split; [exact Hc|]. intros Hok. eexists. by split; [apply Hy|].
  - eapply wp_mono; [|by eapply (wp_shutdown_new t x st (transaction_key x) w0 w1)].
    intros ? w2 [Hc Hne]. by split.
Qed.

Lemma wp_create_uac2 user td glock al m cs d w :
  tsx_inv w -> fresh_tsx w (al_tsx al) -> tdatas w !! td = Some d ->
  td_msg d = Some (PJSIP_REQUEST_MSG m) -> td_cseq d = Some cs ->
  (forall w', kt_key (uac_key w' d m)) ->
  wp (pjsip_tsx_create_uac2 user td glock al) (fun st w' =>
    exists wk, created w w' (al_tsx al) (uac_key wk d m) st /\
      (st = PJ_SUCCESS -> exists x, tsxs w' !! al_tsx al = Some x /\
        role x = PJSIP_ROLE_UAC /\ method x = m /\ last_tx x = Some td)) w.
Proof.
  intros HI Hf Hd Hm Hcs Hkey. unfold pjsip_tsx_create_uac2. set (t := al_tsx al).
  wbind. eapply wp_get_td; [done|]. rewrite Hm, Hcs.
  assert (Hfail : forall st w', st <> PJ_SUCCESS -> evolves None w w' ->
    htable w' = htable w -> exists wk, created w w' t (uac_key wk d m) st /\
      (st = PJ_SUCCESS -> exists x, tsxs w' !! t = Some x /\
        role x = PJSIP_ROLE_UAC /\ method x = m /\ last_tx x = Some td)).
  { intros st w' Hst H Ht. exists w. split; [|done]. split; [done|by rewrite Ht|done]. }
  case_bool_decide as Hack. { apply wp_ret, Hfail; [done|by apply evolves_refl|done]. }
  wbind. apply wp_tsx_create; [done..|]. intros st w1 H1 T1 Hok1.
  destruct (Z.eqb_spec st PJ_SUCCESS) as [Hst|Hst]; cbn [negb]; [|by apply wp_ret, Hfail].
  destruct (Hok1 Hst) as (_ & D1 & lock & E1). fold t in E1 |- *. rewrite <- D1 in Hd. wbind.
  apply wp_same_table; [apply same_table_upd_tsx|].
  eapply wp_upd_init; [apply H1|exact E1|done..|]. intros w2 H2 E2 S2 T2. wbind.
  rewrite <- (so_tdatas _ _ _ S2) in Hd.
  apply wp_same_table; [unfold uac_branch; same_table|].
  eapply wp_uac_branch; [apply H2|exact Hd|]. intros wk w3 H3 E3 D3 T3. rewrite <- E3 in E2.
  destruct (create_tsx_key_3261 PJSIP_ROLE_UAC m (uac_branch_of wk d)) as [[r len] key] eqn:Ek.
  assert (Hk : kt_key key) by (pose proof (Hkey wk) as K; unfold uac_key in K; by rewrite Ek in K).
  wbind. apply wp_same_table; [apply same_table_upd_tsx|].
  eapply wp_upd_init; [apply H3|exact E2|done|done|by intros ? [= <-]|done| |].
  { intros _. by split. }
  intros w4 H4 E4 S4 T4.
  assert (H : evolves None w w4).
  { assert (evolves None w w3) by eauto using evolves_trans. eauto using evolves_trans. }
  assert (Ekey : key = uac_key wk d m) by (unfold uac_key; by rewrite Ek).
  eapply wp_mono; [|eapply (wp_uac_register t td _ w w4); [exact H|by rewrite T4, T3, T2, T1|exact E4|done..]].
  intros st4 w5 [Hc Hy]. exists wk. rewrite <- Ekey. split; [exact Hc|exact Hy].
Qed.

(** ** [pjsip_tsx_create_uas2] *)

Lemma same_table_response_addr t rdata : same_table (uas_response_addr t rdata).
Proof.
  unfold uas_response_addr. same_table.
Qed.

Lemma wp_response_addr t rdata x (Q : Z -> W -> Prop) w :
  tsx_inv w -> tsxs w !! t = Some x ->
  (forall st y w', evolves None w w' -> tsxs w' !! t = Some y -> same_core x y ->
     transport_flag y = transport_flag x -> Q st w') ->
  wp (uas_response_addr t rdata) Q w.
Proof.
  intros HI Hx HQ. unfold uas_response_addr. wbind. apply wp_ask.
  destruct (get_response_addr w rdata) as [[[st tp] len] reliable].
  pose proof (inv_base _ _ _ HI Hx) as Hb. wbind.
  eapply (wp_upd_plain t _ x); try done; try apply Hb; [by left|].
  intros w1 H1 E1 _. set (x1 := x <| res_addr_transport := tp |> <| res_addr_len := len |>) in *.
  assert (C1 : same_core x x1) by done. assert (F1 : transport_flag x1 = transport_flag x) by done.
  clearbody x1. destruct (Z.eqb_spec st PJ_SUCCESS); cbn [negb]; [|by eapply wp_ret, HQ]. wbind.
  pose proof (inv_base _ _ _ (ev_inv _ _ _ H1) E1) as Hb1. destruct tp as [p|].
  - wbind. eapply wp_update_transport; [apply H1|exact E1|]. intros y w2 H2 E2 Ff2 _.
    destruct (tp_frame_core _ _ Ff2) as (C2 & Fl2 & _).
    pose proof (inv_base _ _ _ (ev_inv _ _ _ H2) E2) as Hb2.
    eapply (wp_upd_plain t _ y); try done; try apply Hb2; [apply H2|by left|].
    intros w3 H3 E3 _. apply wp_ret. eapply HQ; [eauto using evolves_trans|exact E3|..].
    + eapply same_core_trans; [exact C1|]. by eapply same_core_trans; [exact C2|].
    + by rewrite <- F1, <- Fl2.
  - eapply (wp_upd_plain t _ x1); try done; try apply Hb1; [apply H1|by left|].
    intros w2 H2 E2 _. apply wp_ret. eapply HQ; [by eapply evolves_trans|exact E2|..].
    + by eapply same_core_trans; [exact C1|].
    + done.
Qed.

(** The response address is looked up and the transaction registered. *)
Lemma wp_uas_register t rdata x (w0 w : W) :
  evolves None w0 w -> htable w = htable w0 -> tsxs w !! t = Some x ->
  state x = PJSIP_TSX_STATE_NULL -> state_handler x = Some tsx_on_state_null_h ->
  TSX_HAS_PENDING_TRANSPORT (transport_flag x) = false ->
  wp (status ← uas_response_addr t rdata;
      if negb (status =? PJ_SUCCESS) then
        tsx_shutdown t;; mret status
      else
        status ← register_or_shutdown t;
        when (status =? PJ_SUCCESS) (emit (OutRdataTsx (rx_id rdata) t));;
        mret status)
    (fun st w' => created w0 w' t (transaction_key x) st /\
      (st = PJ_SUCCESS -> exists y, tsxs w' !! t = Some y /\
        role y = role x /\ method y = method x)) w.
Proof.
  intros H0 T0 Hx Hs Hh Hpt. wbind.
  apply wp_same_table; [apply same_table_response_addr|].
  eapply wp_response_addr; [apply H0|exact Hx|]. intros st y w1 H1 E1 C1 F1 T1.
  assert (H : evolves None w0 w1) by by eapply evolves_trans.
  assert (T : htable w1 = htable w0) by by rewrite T1.
  assert (Hy : state y = PJSIP_TSX_STATE_NULL) by by rewrite (sc_state _ _ C1).
  assert (Hpy : TSX_HAS_PENDING_TRANSPORT (transport_flag y) = false) by by rewrite F1.
  assert (Hhy : state_handler y = Some tsx_on_state_null_h) by by rewrite (sc_handler _ _ C1).
  rewrite <- (sc_key _ _ C1), <- (sc_role _ _ C1), <- (sc_method _ _ C1).
  destruct (Z.eqb_spec st PJ_SUCCESS) as [Hst|Hst]; cbn [negb].
  - wbind. eapply wp_mono; [|by eapply (wp_register_or_shutdown t y w0 w1)].
    intros st2 w2 ([H2 K2 M2] & Hx2 & _). wbind. apply wp_when; intros Hc; [|apply wp_ret].
    + zbool. subst st2. specialize (Hx2 eq_refl). specialize (M2 eq_refl).
      apply wp_same_table; [apply same_table_emit|]. apply wp_emit_ev; [apply H2|].
      intros w3 H3 E3 _ _ _ T3. apply wp_ret. split; [split; [by eapply evolves_trans|done|]|].
      * intros _. rewrite T3, E3. exact M2.
      * intros _. exists y. by rewrite E3.
    + split; [by split|]. intros ->. done.
  - eapply wp_mono; [|by eapply (wp_shutdown_new t y st (transaction_key y) w0 w1)].
    intros ? w2 [Hc Hne]. by split.
Qed.

Lemma wp_create_uas2 user rdata glock al m cs via st len key w :
  tsx_inv w -> fresh_tsx w (al_tsx al) ->
  rx_msg rdata = Some (PJSIP_REQUEST_MSG m) -> rx_cseq rdata = Some cs ->
  rx_via rdata = Some via -> pjsip_tsx_create_key PJSIP_ROLE_UAS m rdata = Some (st, len, key) ->
  (st = PJ_SUCCESS -> kt_key key) ->
  wp (pjsip_tsx_create_uas2 user rdata glock al) (fun st w' =>
    created w w' (al_tsx al) key st /\
    (st = PJ_SUCCESS -> exists x, tsxs w' !! al_tsx al = Some x /\
       role x = PJSIP_ROLE_UAS /\ method x = m)) w.
Proof.
  intros HI Hf Hm Hcs Hvia Hkey Hkk. unfold pjsip_tsx_create_uas2. set (t := al_tsx al).
  rewrite Hm, Hcs, Hvia.
  assert (Hfail : forall st w', st <> PJ_SUCCESS -> evolves None w w' ->
    htable w' = htable w -> created w w' t key st /\
      (st = PJ_SUCCESS -> exists x, tsxs w' !! t = Some x /\
        role x = PJSIP_ROLE_UAS /\ method x = m)).
  { intros s w' Hst H Ht. split; [|done]. split; [done|by rewrite Ht|done]. }
  case_bool_decide as Hack. { apply wp_ret, Hfail; [done|by apply evolves_refl|done]. }
  case_match. { apply wp_ret, Hfail; [done|by apply evolves_refl|done]. }
  wbind. apply wp_tsx_create; [done..|]. intros s1 w1 H1 T1 Hok1.
  destruct (Z.eqb_spec s1 PJ_SUCCESS) as [Hs1|Hs1]; cbn [negb]; [|by apply wp_ret, Hfail].
  destruct (Hok1 Hs1) as (_ & D1 & lock & E1). fold t in E1 |- *. wbind.
  apply wp_same_table; [apply same_table_upd_tsx|].
  eapply wp_upd_init; [apply H1|exact E1|done..|]. intros w2 H2 E2 S2 T2. wbind.
  eapply wp_from_option; [exact Hkey|]. cbn beta iota.
  assert (Hw2 : evolves None w w2) by by eapply evolves_trans.
  destruct (Z.eqb_spec st PJ_SUCCESS) as [Hst|Hst]; cbn [negb].
  - wbind. apply wp_same_table; [apply same_table_upd_tsx|].
    eapply wp_upd_init; [apply H2|exact E2|done|done|done|done|intros _; split; [by apply Hkk|done..|by intros _ []]|].
    intros w3 H3 E3 S3 T3. eapply wp_mono; [|eapply (wp_uas_register t rdata _ w w3);
      [by eapply evolves_trans|by rewrite T3, T2, T1|exact E3|done..]].
    intros st4 w4 [Hc Hy]. split; [exact Hc|exact Hy].
  - eapply wp_mono; [|eapply (wp_shutdown_new t _ st key w w2);
      [exact Hw2|by rewrite T2, T1|exact E2|done..]].
    intros ? w3 [Hc Hne]. by split.
Qed.

End CreateSpec.
