(* ===== verification/TsxKeys.v ===== *)
(** * SIP transactions: keys and retransmission times

    The number printing the keys use, the buffer of the RFC 2543 keys, the
    messages two RFC 3261 keys are equal for, and the retransmission schedule
    of a client. *)

From S2P Require Import Prelude Monad TimeVal Hash PjString TsxData TsxEnv Tsx.
Local Open Scope Z_scope.

(** ** RFC 2543 keys *)

Lemma key_method_len m : slen (key_method m) <= slen (m_name m) + 1.
Proof.
  unfold key_method. pose proof (slen_nonneg (m_name m)).
  destruct (_ && _); [rewrite slen_app; change (slen [SEPARATOR]) with 1; lia|].
  change (slen []) with 0. lia.
Qed.

Lemma int_digits z : 0 <= z < 2 ^ 31 -> slen (pj_utoa (int_to_ulong z)) <= 10.
Proof.
  intros Hz. unfold int_to_ulong. rewrite Z.mod_small by lia. apply utoa_length; lia.
Qed.

(** the key of an RFC 2543 message fits the buffer allocated for it,
    for the sequence numbers and ports the parser accepts. *)
Theorem key_2543_fits r m rdata cs via len key :
  rx_cseq rdata = Some cs -> rx_via rdata = Some via ->
  0 <= cs_cseq cs < 2 ^ 31 -> 0 <= via_port via < 2 ^ 31 ->
  create_tsx_key_2543 r m rdata = Some (PJ_SUCCESS, len, key) -> slen key <= len.
Proof.
  intros Hcs Hvia Hc Hp Hk. unfold create_tsx_key_2543 in Hk. rewrite Hcs, Hvia in Hk.
  destruct (rx_msg rdata), (rx_from_tag rdata) as [tag|]; try done.
  destruct (rx_cid rdata) as [cid|]; [|done]. injection Hk as <- <-.
  pose proof (int_digits _ Hc). pose proof (int_digits _ Hp). pose proof (key_method_len m).
  repeat rewrite ?slen_app, ?slen_cons. change (slen []) with 0. lia.
Qed.

(** ** RFC 3261 keys *)

Definition in_invite (m : pjsip_method) : bool :=
  bool_decide (m_id m = PJSIP_INVITE_METHOD) || bool_decide (m_id m = PJSIP_ACK_METHOD).

Lemma key_method_alt m :
  key_method m = if in_invite m then [] else m_name m ++ [SEPARATOR].
Proof.
  unfold key_method, in_invite. by destruct (m_id m).
Qed.

Lemma tolower_separator c : pj_tolower c = SEPARATOR -> c = SEPARATOR.
Proof. unfold pj_tolower, SEPARATOR. destruct (_ && _) eqn:H; zbool; lia. Qed.

(** The parts around the first separator. *)
Lemma separator_split a b x y :
  SEPARATOR ∉ a -> SEPARATOR ∉ b ->
  ci_eq (a ++ SEPARATOR :: x) (b ++ SEPARATOR :: y) -> ci_eq a b /\ ci_eq x y.
Proof.
  unfold ci_eq. revert b. induction a as [|c a IH]; intros [|d b] Ha Hb; cbn; intros H.
  - injection H as H. done.
  - exfalso. apply Hb. injection H as H _. symmetry in H. apply tolower_separator in H.
    subst. apply list_elem_of_here.
  - exfalso. apply Ha. injection H as H _. apply tolower_separator in H.
    subst. apply list_elem_of_here.
  - injection H as Hc H. destruct (IH b) as [H1 H2]; [..|done|].
    { intros Hin. apply Ha. by apply list_elem_of_further. }
    { intros Hin. apply Hb. by apply list_elem_of_further. }
    split; [by f_equal|done].
Qed.

(** The first bytes are those of RFC 3261 branches, up to case. *)
Definition has_magic (s : list Z) : Prop :=
  ci_eq (take PJSIP_RFC3261_BRANCH_LEN s) PJSIP_RFC3261_BRANCH_ID.

(** The test of [pjsip_tsx_create_key]. *)
Lemma magic_test s :
  strnicmp_eq s PJSIP_RFC3261_BRANCH_ID PJSIP_RFC3261_BRANCH_LEN = true <-> has_magic s.
Proof.
  unfold strnicmp_eq, has_magic. change (Nat.ltb _ (length PJSIP_RFC3261_BRANCH_ID)) with false.
  cbn iota.
  assert ((if Nat.ltb PJSIP_RFC3261_BRANCH_LEN (length s) then take PJSIP_RFC3261_BRANCH_LEN s
           else s) = take PJSIP_RFC3261_BRANCH_LEN s) as ->.
  { destruct (Nat.ltb_spec PJSIP_RFC3261_BRANCH_LEN (length s)); [done|].
    by rewrite take_ge. }
  set (a := take _ s). set (b := PJSIP_RFC3261_BRANCH_ID).
  assert (Hb : length b = 7%nat) by done. assert (Ha : (length a <= 7)%nat).
  { unfold a. rewrite length_take. apply Nat.le_min_l. }
  unfold stricmp_eq, slen. rewrite Hb. destruct (Z.leb_spec (Z.of_nat (length a)) 0) as [Hz|Hz].
  - split; [done|]. intros H. apply (f_equal length) in H. rewrite !length_fmap in H. lia.
  - change (Z.of_nat 7 <=? 0) with false. cbn iota. rewrite andb_true_iff, Z.eqb_eq. split.
    + intros [H Hl]. rewrite Nat.min_r in H by lia. rewrite <- Hb in H.
      apply strncaseeq_ci in H; [done|lia|]. by repeat constructor.
    + intros H. pose proof (f_equal length H) as Hl. rewrite !length_fmap in Hl.
      rewrite Nat.min_r by lia. split; [|lia]. rewrite <- Hb. apply strncaseeq_ci; [done| |done].
      by repeat constructor.
Qed.

(** A method name has no separator and does not start like a branch. *)
Definition method_ok (m : pjsip_method) : Prop :=
  (SEPARATOR ∉ m_name m) /\ ~ has_magic (m_name m).

(** What two transactions with one key have in common. *)
Definition same_kind (m1 m2 : pjsip_method) : Prop :=
  if in_invite m1 then in_invite m2 = true
  else in_invite m2 = false /\ ci_eq (m_name m1) (m_name m2).

Lemma magic_no_separator s : has_magic s -> SEPARATOR ∉ take PJSIP_RFC3261_BRANCH_LEN s.
Proof.
  unfold has_magic. intros H Hin. apply (list_elem_of_fmap_2 pj_tolower) in Hin.
  rewrite H in Hin. revert Hin. refine (bool_decide_unpack (~ _) _). by vm_compute.
Qed.

(** A branch is not a method name and a separator followed by something. *)
Lemma branch_not_method name x br :
  SEPARATOR ∉ name -> ~ has_magic name -> has_magic br -> ci_eq (name ++ SEPARATOR :: x) br ->
  False.
Proof.
  intros Hs Hn Hb H. destruct (decide (length name < 7)%nat) as [Hl|Hl].
  - apply (magic_no_separator br Hb).
    assert (Hin : SEPARATOR ∈ pj_tolower <$> take PJSIP_RFC3261_BRANCH_LEN br).
    { unfold ci_eq in H. rewrite fmap_take, <- H, fmap_app.
      apply (list_elem_of_lookup_2 _ (length name)). rewrite lookup_take_lt by done.
      rewrite lookup_app_r; rewrite length_fmap; [|done]. by rewrite Nat.sub_diag. }
    apply list_elem_of_fmap in Hin as (c & Hc & Hin). symmetry in Hc.
    apply tolower_separator in Hc. by subst.
  - apply Hn. unfold has_magic, ci_eq in *. rewrite <- Hb, !fmap_take, <- H, fmap_app.
    rewrite take_app_le; [done|]. rewrite length_fmap. unfold PJSIP_RFC3261_BRANCH_LEN. lia.
Qed.

(** two messages with RFC 3261 branches have the same key in the
    table exactly when they have the same role and branch and the same
    method, INVITE and ACK counting as one. *)
Theorem key_3261_injective r1 r2 m1 m2 b1 b2 :
  method_ok m1 -> method_ok m2 -> has_magic b1 -> has_magic b2 ->
  ci_eq (create_tsx_key_3261 r1 m1 b1).2 (create_tsx_key_3261 r2 m2 b2).2 <->
  r1 = r2 /\ same_kind m1 m2 /\ ci_eq b1 b2.
Proof.
  intros [Hs1 Hn1] [Hs2 Hn2] Hb1 Hb2. unfold create_tsx_key_3261, same_kind. cbn [snd].
  rewrite !key_method_alt. split.
  - intros H. unfold ci_eq in H. cbn [fmap list_fmap app] in H. injection H as Hr H.
    split; [by destruct r1, r2|].
    destruct (in_invite m1), (in_invite m2).
    + done.
    + exfalso. rewrite <- app_assoc in H. cbn [app] in H.
      by apply (branch_not_method (m_name m2) b2 b1).
    + exfalso. rewrite <- app_assoc in H. cbn [app] in H.
      by apply (branch_not_method (m_name m1) b1 b2).
    + rewrite <- !app_assoc in H. apply separator_split in H as [H1 H2]; [|done..]. done.
  - intros (-> & Hk & Hb). unfold ci_eq in *. cbn [fmap list_fmap app]. f_equal. f_equal.
    rewrite !fmap_app. destruct (in_invite m1); [by rewrite Hk, Hb|].
    destruct Hk as [-> Hk]. by rewrite !fmap_app, Hk, Hb.
Qed.

(** ** The retransmission schedule of a client *)

(** The time of the [n]-th retransmission of a request over an unreliable
    transport, if no response arrives: the first comes after T1, and each
    retransmission schedules the next one. *)
Fixpoint retransmit_time (c : tsx_cfg) (x : pjsip_transaction) (n : nat) : Z :=
  match n with
  | O => 0
  | S n => retransmit_time c x n +
      resched_msec c (x <| retransmit_count := Z.of_nat n |>)
  end.

Lemma shl1_pow k : 0 <= k < 32 -> shl1 k = 2 ^ k.
Proof.
  intros Hk. unfold shl1. rewrite Z.mod_small, Z.shiftl_1_l by lia. apply u32_id.
  split; [apply Z.pow_nonneg; lia|]. change 4294967296 with (2 ^ 32).
  apply Z.pow_lt_mono_r; lia.
Qed.

Lemma resched_uac_waiting c x :
  role x = PJSIP_ROLE_UAC -> status_code x < 100 -> 0 <= retransmit_count x < 32 ->
  0 <= cfg_t1 c -> 2 ^ retransmit_count x * cfg_t1 c < 2 ^ 32 ->
  resched_msec c x =
    if bool_decide (m_id (method x) = PJSIP_INVITE_METHOD)
    then 2 ^ retransmit_count x * cfg_t1 c
    else Z.min (cfg_t2 c) (2 ^ retransmit_count x * cfg_t1 c).
Proof.
  intros Hr Hs Hc H1 Hlt. unfold resched_msec. rewrite !bool_decide_eq_true_2 by done.
  destruct (Z.leb_spec 100 (status_code x)); [lia|]. cbn [andb].
  rewrite shl1_pow by done. rewrite u32_id.
  2:{ split; [apply Z.mul_nonneg_nonneg; [apply Z.pow_nonneg; lia|done]|exact Hlt]. }
  destruct (decide (m_id (method x) = PJSIP_INVITE_METHOD)) as [Hi|Hi].
  - rewrite (bool_decide_eq_true_2 (_ = _)), (bool_decide_eq_false_2 (_ <> _)) by tauto.
    by rewrite andb_false_r.
  - rewrite (bool_decide_eq_true_2 (_ <> _)), (bool_decide_eq_false_2 (_ = _)) by done.
    rewrite andb_true_r. destruct (Z.ltb_spec (cfg_t2 c) (2 ^ retransmit_count x * cfg_t1 c)); lia.
Qed.

(** the [n]-th retransmission of an INVITE comes (2^n - 1) T1
    after the request; other requests are retransmitted at least as often
    and at least every T2. *)
Theorem client_retransmit_schedule c x n :
  role x = PJSIP_ROLE_UAC -> status_code x < 100 -> 0 <= cfg_t1 c ->
  (n <= 32)%nat -> 2 ^ Z.of_nat n * cfg_t1 c <= 2 ^ 32 ->
  if bool_decide (m_id (method x) = PJSIP_INVITE_METHOD)
  then retransmit_time c x n = (2 ^ Z.of_nat n - 1) * cfg_t1 c
  else retransmit_time c x n <= Z.min ((2 ^ Z.of_nat n - 1) * cfg_t1 c) (Z.of_nat n * cfg_t2 c).
Proof.
  intros Hr Hs H1 Hn Hlt. induction n as [|n IH].
  { cbn. case_bool_decide; lia. }
  cbn [retransmit_time]. rewrite Nat2Z.inj_succ, Z.pow_succ_r in * by lia.
  assert (0 < 2 ^ Z.of_nat n) by (apply Z.pow_pos_nonneg; lia).
  rewrite resched_uac_waiting; [|done|done|cbn; lia|done|cbn; nia]. cbn [retransmit_count].
  change (method (x <| retransmit_count := Z.of_nat n |>)) with (method x).
  change (retransmit_count (x <| retransmit_count := Z.of_nat n |>)) with (Z.of_nat n).
  specialize (IH ltac:(lia) ltac:(nia)). case_bool_decide; nia.
Qed.
