(* ===== verification/TsxSpec.v ===== *)
(** * SIP transactions: the contract of the layer

    Every call into the layer as an operation, with what the caller must
    respect; runs of operations; the properties of the layer: no undefined
    behaviour, no transaction without the timer it waits for, states that
    never go back, and one registration per key. *)

From S2P Require Import Prelude Monad TimeVal Timer TimerSpec Hash TsxData TsxEnv Tsx TsxApi.
From S2P Require Import TsxInv TsxProofs TsxSend TsxHandlers TsxCreate.
Local Open Scope Z_scope.

(** ** Operations *)

Inductive tsx_op (TW : Type) :=
  (* called by transaction users *)
  | OpCreateUac (user : option nat) (td : nat) (glock : option nat) (al : tsx_alloc)
  | OpCreateUas (user : option nat) (rdata : pjsip_rx_data) (glock : option nat) (al : tsx_alloc)
  | OpSendMsg (t : nat) (tdata : option nat)
  | OpRecvMsg (t : nat) (rdata : pjsip_rx_data)
  | OpRetransmit (t : nat) (tdata : option nat)
  | OpTerminate (t : nat) (code : Z)
  | OpStopRetransmit (t : nat)
  | OpSetTimeout (t : nat) (millisec : Z)
  | OpSetTransport (t : nat) (sel : option nat)
  | OpFind (key : list Z) (add_ref : bool)
  | OpNewTdata (td : nat) (d : pjsip_tx_data)
  | OpSetTimers (t1 t2 t4 td : Z)
  (* called by the endpoint *)
  | OpOnRx (r : pjsip_role_e) (rdata : pjsip_rx_data)
  (* called by the timer heap, which has removed the entry *)
  | OpTimer (entry : nat) (tw : TW)
  | OpClock (t : pj_time_val)
  (* called by the transports *)
  | OpTransportCallback (t td : nat) (sent : Z)
  | OpSendCallback (t td : nat) (n : send_notify)
  | OpDisconnected (t : nat) (status : Z).
Arguments OpCreateUac {TW}.
Arguments OpCreateUas {TW}.
Arguments OpSendMsg {TW}.
Arguments OpRecvMsg {TW}.
Arguments OpRetransmit {TW}.
Arguments OpTerminate {TW}.
Arguments OpStopRetransmit {TW}.
Arguments OpSetTimeout {TW}.
Arguments OpSetTransport {TW}.
Arguments OpFind {TW}.
Arguments OpNewTdata {TW}.
Arguments OpSetTimers {TW}.
Arguments OpOnRx {TW}.
Arguments OpTimer {TW}.
Arguments OpClock {TW}.
Arguments OpTransportCallback {TW}.
Arguments OpSendCallback {TW}.
Arguments OpDisconnected {TW}.

Section Spec.
Context {TW HT : Type} `{TS : !TimerService TW} `{KT : !KeyTable HT}.
Context {E : TsxEnv TW HT}.

#[local] Abbreviation W := (tsx_world TW HT).
#[local] Abbreviation M := (M (tsx_world TW HT)).

Definition run_op (op : tsx_op TW) : M unit :=
  match op with
  | OpCreateUac user td glock al => pjsip_tsx_create_uac2 user td glock al;; mret tt
  | OpCreateUas user rdata glock al => pjsip_tsx_create_uas2 user rdata glock al;; mret tt
  | OpSendMsg t tdata => pjsip_tsx_send_msg t tdata;; mret tt
  | OpRecvMsg t rdata => pjsip_tsx_recv_msg t rdata
  | OpRetransmit t tdata => pjsip_tsx_retransmit_no_state t tdata;; mret tt
  | OpTerminate t code => pjsip_tsx_terminate t code;; mret tt
  | OpStopRetransmit t => pjsip_tsx_stop_retransmit t;; mret tt
  | OpSetTimeout t ms => pjsip_tsx_set_timeout t ms;; mret tt
  | OpSetTransport t sel => pjsip_tsx_set_transport t sel;; mret tt
  | OpFind key add_ref => find_tsx key add_ref;; mret tt
  | OpNewTdata td d => modify (fun w => w <| tdatas := <[td := d]> (tdatas w) |>)
  | OpSetTimers t1 t2 t4 td =>
      modify (fun w => w <| settings := pjsip_tsx_set_timers t1 t2 t4 td (settings w) |>)
  | OpOnRx r rdata => mod_tsx_layer_on_rx r rdata;; mret tt
  | OpTimer entry tw =>
      modify (fun w => w <| timers := tw |>);; tsx_timer_callback entry
  | OpClock t => modify (fun w => w <| now := t |>)
  | OpTransportCallback t td sent => transport_callback t td sent
  | OpSendCallback t td n => send_msg_callback tsx_send_msg t td n;; mret tt
  | OpDisconnected t status =>
      tsx_tp_state_callback t PJSIP_TP_STATE_DISCONNECTED status
  end.

(** A transaction whose creation is over. *)
Definition live_tsx (w : W) (t : nat) (x : pjsip_transaction) : Prop :=
  tsxs w !! t = Some x /\ state_handler x <> None.

(** The key of a received message is a key of the table. *)
Definition rx_key_ok (r : pjsip_role_e) (m : pjsip_method) (rdata : pjsip_rx_data) : Prop :=
  exists len key, pjsip_tsx_create_key r m rdata = Some (PJ_SUCCESS, len, key) /\ kt_key key.

(** What the caller of an operation respects. *)
Definition op_ok (w : W) (op : tsx_op TW) : Prop :=
  match op with
  | OpCreateUac user td glock al =>
      fresh_tsx w (al_tsx al) /\
      exists d m cs, tdatas w !! td = Some d /\ td_msg d = Some (PJSIP_REQUEST_MSG m) /\
        td_cseq d = Some cs /\ forall w', kt_key (uac_key w' d m)
  | OpCreateUas user rdata glock al =>
      fresh_tsx w (al_tsx al) /\
      exists m cs via, rx_msg rdata = Some (PJSIP_REQUEST_MSG m) /\
        rx_cseq rdata = Some cs /\ rx_via rdata = Some via /\ rx_key_ok PJSIP_ROLE_UAS m rdata
  | OpSendMsg t tdata =>
      exists x, live_tsx w t x /\ (forall td, tdata = Some td -> is_Some (tdatas w !! td)) /\
        (state x = PJSIP_TSX_STATE_NULL -> role x = PJSIP_ROLE_UAC)
  | OpRecvMsg t rdata => (exists x, live_tsx w t x) /\ rdata_ok rdata
  | OpRetransmit t tdata =>
      exists x, live_tsx w t x /\ state x <> PJSIP_TSX_STATE_DESTROYED /\
        (forall td, tdata = Some td -> is_Some (tdatas w !! td)) /\
        (tdata = None -> last_tx x <> None)
  | OpTerminate t _ | OpStopRetransmit t | OpSetTimeout t _ | OpSetTransport t _ =>
      exists x, live_tsx w t x
  | OpFind key _ => kt_key key
  | OpNewTdata td d => tdatas w !! td = None /\ td_ok d
  | OpSetTimers _ _ _ _ | OpClock _ => True
  | OpOnRx r rdata =>
      rdata_ok rdata /\ exists cs, rx_cseq rdata = Some cs /\ rx_key_ok r (cs_method cs) rdata
  | OpTimer entry tw =>
      is_Some (ts_armed (timers w) !! entry) /\
      ts_ok tw /\ ts_armed tw = delete entry (ts_armed (timers w)) /\
      ts_id tw = ts_id (timers w) /\
      exists x, live_tsx w (entry_tsx entry) x /\ null_uas_posted w entry x
  | OpTransportCallback t td sent =>
      exists x, live_tsx w t x /\ callback_ok x /\ sent <> 0
  | OpSendCallback t td n =>
      exists x, live_tsx w t x /\ callback_ok x /\ is_Some (tdatas w !! td) /\ notify_ok n
  | OpDisconnected t status => (exists x, live_tsx w t x) /\ status <> 0
  end.

(** What holds between operations. *)
Definition layer_inv (w : W) : Prop := tsx_inv w /\ forall t, no_zombie w t.

Lemma layer_evolves (w w' : W) : layer_inv w -> evolves None w w' -> layer_inv w'.
Proof. intros [_ Hz] H. split; [apply H|]. intros t. by eapply ev_zombie. Qed.

Inductive tsx_run : W -> list (tsx_op TW) -> W -> Prop :=
  | tsx_run_nil w : tsx_run w [] w
  | tsx_run_cons w op w1 ops w' :
      op_ok w op -> run_op op w = Some (tt, w1) -> tsx_run w1 ops w' ->
      tsx_run w (op :: ops) w'.

(** ** Lemmas *)

Lemma wp_discard {A} (m : M A) (Q : unit -> W -> Prop) w :
  wp m (fun _ => Q tt) w -> wp (m;; mret tt) Q w.
Proof. intros H. apply wp_bind. eapply wp_mono; [|exact H]. by intros a w'. Qed.

Context (HE : env_ok E).

Lemma wp_op_timer entry tw (w : W) :
  layer_inv w -> op_ok w (OpTimer entry tw) ->
  wp (run_op (OpTimer entry tw)) (fun _ => evolves None w) w.
Proof.
  intros [HI Hz] (Har & Hok & Ha & Hi & x & [Hx Hh] & Hnull). cbn [run_op].
  set (t := entry_tsx entry) in *. apply wp_bind, wp_modify.
  set (w1 := w <| timers := tw |>).
  assert (Hent : entry = timeout_timer t \/ entry = retransmit_timer t).
  { unfold t, entry_tsx, timeout_timer, retransmit_timer.
    pose proof (Nat.div2_odd entry). destruct (Nat.odd entry); cbn [Nat.b2n] in *; lia. }
  assert (H1 : evolves (Some t) w w1).
  { apply evolves_timers; [done|done|by intros e; rewrite Hi|].
    intros e He1 He2. rewrite Hi, Ha. split; [|done]. apply lookup_delete_ne. destruct Hent; congruence. }
  eapply wp_mono; [|eapply (wp_timer_callback HE t entry x); [done|apply H1|exact Hx|exact Hh|..]].
  - intros ? w2 [H2 Hz2]. apply (evolves_close t); [by eapply evolves_trans|done].
  - destruct Hent as [He|He]; [left|right]; (split; [exact He|]).
    + change (timers w1) with tw. rewrite Ha, Hi, lookup_delete_eq. split; [done|].
      intros Hle Hne. rewrite He.
      apply (no_zombie_posted w t (Hz t) x Hx Hh Hle Hne). by rewrite <- He.
    + apply (untouched t w w1); [done| |apply Hz].
      assert (Hne := timer_entries_ne_self t). split; change (timers w1) with tw.
      * rewrite Ha. apply lookup_delete_ne. congruence.
      * by rewrite Hi.
  - unfold null_uas_posted. change (timers w1) with tw. by rewrite Hi.
Qed.

Lemma wp_run_op op (w : W) :
  layer_inv w -> op_ok w op -> wp (run_op op) (fun _ => evolves None w) w.
Proof.
  intros [HI Hz] Hok. destruct op; cbn [run_op op_ok] in *.
  - destruct Hok as (Hf & d & m & cs & Hd & Hm & Hcs & Hk). apply wp_discard.
    eapply wp_mono; [|by eapply wp_create_uac2]. by intros ? w' (wk & [] & _).
  - destruct Hok as (Hf & m & cs & via & Hm & Hcs & Hv & len & key & Hk & Hkk).
    apply wp_discard. eapply wp_mono; [|by eapply wp_create_uas2]. by intros ? w' ([] & _).
  - destruct Hok as (x & [Hx Hh] & Htd & Hn). apply wp_discard.
    eapply wp_mono; [|eapply (wp_tsx_send_msg HE); done || apply Hz]. done.
  - destruct Hok as [[x [Hx Hh]] Hr]. by eapply (wp_tsx_recv_msg HE).
  - destruct Hok as (x & [Hx Hh] & Ha & Htd & Hl). apply wp_discard.
    eapply wp_mono; [|by eapply (wp_retransmit_no_state HE)]. done.
  - destruct Hok as (x & Hx & Hh). apply wp_discard.
    eapply wp_mono; [|by eapply (wp_tsx_terminate HE)]. done.
  - destruct Hok as (x & Hx & Hh). apply wp_discard.
    eapply wp_mono; [|by eapply wp_tsx_stop_retransmit]. done.
  - destruct Hok as (x & Hx & Hh). apply wp_discard.
    eapply wp_mono; [|by eapply wp_tsx_set_timeout]. done.
  - destruct Hok as (x & Hx & Hh). apply wp_discard.
    eapply wp_mono; [|by eapply wp_tsx_set_transport]. done.
  - apply wp_discard. eapply wp_mono; [|by eapply wp_find_tsx]. by intros ? w' [].
  - destruct Hok as [Hd Htd]. apply wp_modify, evolves_outside; try done.
    + apply map_Forall_insert_2; [done|]. apply HI.
    + intros td' Ht. cbn. rewrite lookup_insert. case_decide; [by eexists|done].
  - apply wp_modify, evolves_outside; try done. apply HI.
  - destruct Hok as (Hr & cs & Hcs & len & key & Hk & Hkk). apply wp_discard.
    eapply wp_mono; [|by eapply (wp_layer_on_rx HE)]. done.
  - by apply wp_op_timer.
  - apply wp_modify, evolves_outside; try done. apply HI.
  - destruct Hok as (x & [Hx Hh] & Hc & Hs). by eapply (wp_transport_callback HE).
  - destruct Hok as (x & [Hx Hh] & Hc & Htd & Hn). apply wp_discard.
    eapply wp_mono; [|by eapply (wp_send_callback HE)]. done.
  - destruct Hok as [[x [Hx Hh]] Hs]. by eapply wp_tp_disconnected.
Qed.

Lemma run_evolves w ops w' : layer_inv w -> tsx_run w ops w' -> evolves None w w'.
Proof.
  intros HI Hr. revert HI. induction Hr as [w|w op w1 ops w' Hok Hop Hr IH]; intros HI.
  { apply evolves_refl, HI. }
  assert (H1 : evolves None w w1).
  { pose proof (wp_run_op op w HI Hok) as H. unfold wp in H. by rewrite Hop in H. }
  eapply evolves_trans; [exact H1|]. apply IH. by eapply layer_evolves.
Qed.

(** ** The end of a transaction *)

(** Nothing is left of transaction [t] with key [key] but its memory. *)
Record gone (w : W) (t : nat) (key : list Z) : Prop := mk_gone {
  gn_state : exists y, tsxs w !! t = Some y /\ state y = PJSIP_TSX_STATE_DESTROYED;
  gn_key : kt_map (htable w) !! kt_canon key = None;
  gn_idle : tsx_idle w t
}.

Lemma wp_destroyed t src x (w : W) :
  tsx_inv w -> tsxs w !! t = Some x -> state_handler x <> None -> src_ok src ->
  wp (tsx_set_state t PJSIP_TSX_STATE_DESTROYED src 0)
    (fun _ w' => evolves (Some t) w w' /\ gone w' t (transaction_key x)) w.
Proof.
  intros HI Hx Hh Hs. unfold tsx_set_state. wbind. eapply wp_get_tsx; [done|].
  assert (Hle : state_le (state x) PJSIP_TSX_STATE_DESTROYED).
  { unfold state_le. by destruct (state x). }
  eapply (wp_set_state_notify HE); [done|done|done|exact Hle|apply handler_destroyed|by intros _ [|]|done|].
  intros w1 w2 y H1 H2 _ _ E2 L2 _.
  pose proof (tl_key _ _ L2) as Ek. change (transaction_key (set_state_of _ x)) with (transaction_key x) in Ek.
  assert (Hst : state y = PJSIP_TSX_STATE_DESTROYED).
  { pose proof (tl_state _ _ L2) as Hl. unfold state_le in Hl. cbn in Hl. by destruct (state y). }
  assert (H : evolves (Some t) w w2) by eauto using evolves_trans, evolves_weaken.
  wbind. eapply wp_unregister; [apply H2|exact E2|apply L2|]. intros w3 H3 E3 _ M3.
  rewrite <- E3 in E2. wbind. apply wp_same_table; [apply same_table_shutdown|].
  eapply wp_shutdown; [apply H3|exact E2|done|]. intros z w4 H4 E4 C4 I4 T4. apply wp_ret.
  split; [eauto using evolves_trans, evolves_weaken|]. split; [|rewrite T4, M3, Ek; apply lookup_delete_eq|done].
  exists z. split; [done|]. by rewrite (sc_state _ _ C4).
Qed.

(** ** Properties *)


(** C18: after any run a transaction that waits for its end has its timeout
    timer running: one that is Completed, Confirmed or Terminated, where the
    timer is not a posted transport event, and a client transaction other than
    INVITE that is Calling or Proceeding. INVITE clients in these two states
    are not covered: one that has got a provisional response has no timeout,
    and when the ACK of a final response cannot be sent the code has already
    cancelled the timers (sip_transaction.c:3202). *)
Theorem tsx_run_timer w ops w' t x :
  layer_inv w -> tsx_run w ops w' -> live_tsx w' t x ->
  state x = PJSIP_TSX_STATE_COMPLETED \/ state x = PJSIP_TSX_STATE_CONFIRMED \/
  state x = PJSIP_TSX_STATE_TERMINATED \/
  (state x = PJSIP_TSX_STATE_CALLING \/ state x = PJSIP_TSX_STATE_PROCEEDING) /\
    role x = PJSIP_ROLE_UAC /\ m_id (method x) <> PJSIP_INVITE_METHOD ->
  (exists expiry, ts_armed (timers w') !! timeout_timer t = Some expiry) /\
  (state_le PJSIP_TSX_STATE_COMPLETED (state x) ->
   ts_id (timers w') !! timeout_timer t = Some TIMEOUT_TIMER).
Proof.
  intros HI Hr [Hx Hh] Hs. pose proof (layer_evolves _ _ HI (run_evolves _ _ _ HI Hr)) as [_ Hz].
  apply (Hz t x Hx Hh). unfold needs_timer.
  destruct Hs as [->|[->|[->|[[->| ->] [Hro Hm]]]]]; try done;
    by rewrite !bool_decide_eq_true_2.
Qed.

(** C34: in any run a transaction keeps its role, method and key, and its
    state never goes back. *)
Theorem tsx_run_monotone w ops w' t x :
  layer_inv w -> tsx_run w ops w' -> live_tsx w t x ->
  exists y, live_tsx w' t y /\ role y = role x /\ method y = method x /\
    transaction_key y = transaction_key x /\ state_le (state x) (state y) /\
    (transport_err x <> 0 -> transport_err y <> 0).
Proof.
  intros HI Hr [Hx Hh]. destruct (ev_tsx _ _ _ (run_evolves _ _ _ HI Hr) t x Hx Hh) as (y & Hy & []).
  by exists y.
Qed.

(** creating a client transaction.  On success it is in state Null
    and registered under its key, which was free; on failure the table is
    unchanged. *)
Theorem create_uac_registers w user td glock al d m cs :
  layer_inv w -> fresh_tsx w (al_tsx al) -> tdatas w !! td = Some d ->
  td_msg d = Some (PJSIP_REQUEST_MSG m) -> td_cseq d = Some cs ->
  (forall w', kt_key (uac_key w' d m)) ->
  exists st w' wk, pjsip_tsx_create_uac2 user td glock al w = Some (st, w') /\ layer_inv w' /\
    let k := kt_canon (uac_key wk d m) in
    (st <> PJ_SUCCESS -> kt_map (htable w') = kt_map (htable w)) /\
    (st = PJ_SUCCESS -> kt_map (htable w) !! k = None /\
       kt_map (htable w') = <[k := al_tsx al]> (kt_map (htable w)) /\
       exists x, live_tsx w' (al_tsx al) x /\ role x = PJSIP_ROLE_UAC /\ method x = m /\
         state x = PJSIP_TSX_STATE_NULL /\ last_tx x = Some td /\
         transaction_key x = uac_key wk d m).
Proof.
  intros HI Hf Hd Hm Hcs Hk.
  pose proof (wp_create_uac2 user td glock al m cs d w (proj1 HI) Hf Hd Hm Hcs Hk)
    as (st & w' & Hrun & wk & [Hev Hfail Hok] & Hx)%wp_exists.
  exists st, w', wk. split; [done|]. split; [by eapply layer_evolves|]. split; [done|].
  intros Hs. destruct (Hok Hs) as (Hn & Hmap & x & E1 & Ekey & Est & Eh).
  destruct (Hx Hs) as (x' & E2 & Er & Em & El). assert (x' = x) as -> by congruence.
  split; [done|]. split; [done|]. exists x. unfold live_tsx. by rewrite Eh.
Qed.

(** C39: creating a server transaction for a received request.  On
    success it is in state Null and registered under the key of the request,
    which was free; on failure the table is unchanged. *)
Theorem create_uas_registers w user rdata glock al m cs via st0 len key :
  layer_inv w -> fresh_tsx w (al_tsx al) ->
  rx_msg rdata = Some (PJSIP_REQUEST_MSG m) -> rx_cseq rdata = Some cs ->
  rx_via rdata = Some via -> pjsip_tsx_create_key PJSIP_ROLE_UAS m rdata = Some (st0, len, key) ->
  (st0 = PJ_SUCCESS -> kt_key key) ->
  exists st w', pjsip_tsx_create_uas2 user rdata glock al w = Some (st, w') /\ layer_inv w' /\
    (st <> PJ_SUCCESS -> kt_map (htable w') = kt_map (htable w)) /\
    (st = PJ_SUCCESS -> kt_map (htable w) !! kt_canon key = None /\
       kt_map (htable w') = <[kt_canon key := al_tsx al]> (kt_map (htable w)) /\
       exists x, live_tsx w' (al_tsx al) x /\ role x = PJSIP_ROLE_UAS /\ method x = m /\
         state x = PJSIP_TSX_STATE_NULL /\ transaction_key x = key).
Proof.
  intros HI Hf Hm Hcs Hv Hk Hkk.
  pose proof (wp_create_uas2 user rdata glock al m cs via st0 len key w (proj1 HI) Hf Hm Hcs Hv Hk Hkk)
    as (st & w' & Hrun & [Hev Hfail Hok] & Hx)%wp_exists.
  exists st, w'. split; [done|]. split; [by eapply layer_evolves|]. split; [done|].
  intros Hs. destruct (Hok Hs) as (Hn & Hmap & x & E1 & Ekey & Est & Eh).
  destruct (Hx Hs) as (x' & E2 & Er & Em). assert (x' = x) as -> by congruence.
  split; [done|]. split; [done|]. exists x. unfold live_tsx. by rewrite Eh.
Qed.

(** C40: the expiry of the timer of a Terminated transaction destroys it:
    its key is free again and neither of its timers runs, whatever the
    transaction user does when it is told. *)
Theorem tsx_terminated_destroyed w t x tw :
  layer_inv w -> live_tsx w t x -> state x = PJSIP_TSX_STATE_TERMINATED ->
  op_ok w (OpTimer (timeout_timer t) tw) ->
  exists w', run_op (OpTimer (timeout_timer t) tw) w = Some (tt, w') /\ layer_inv w' /\
    gone w' t (transaction_key x).
Proof.
  intros HI [Hx Hh] Hst Hop. pose proof (wp_op_timer (timeout_timer t) tw w HI Hop) as Hev.
  destruct Hop as (Har & Hok & Ha & Hi & _). destruct HI as [HI Hz].
  destruct (Hz t x Hx Hh) as [_ Hid]; [unfold needs_timer; by rewrite Hst|].
  specialize (Hid ltac:(rewrite Hst; unfold state_le; cbn; lia)).
  cbn [run_op] in *. set (w1 := w <| timers := tw |>).
  assert (H1 : evolves (Some t) w w1).
  { apply evolves_timers; [done|done|by intros e; rewrite Hi|].
    intros e He1 He2. rewrite Hi, Ha. split; [|done]. by apply lookup_delete_ne. }
  assert (Hhd : state_handler x = Some tsx_on_state_terminated_h).
  { pose proof (to_handler _ (inv_ok _ _ _ HI Hx Hh)) as Hhd. rewrite Hst in Hhd.
    by destruct (role x). }
  assert (Hwp : wp (tsx_timer_callback (timeout_timer t)) (fun _ w' =>
    gone w' t (transaction_key x)) w1).
  { unfold tsx_timer_callback. assert (entry_tsx (timeout_timer t) = t) as ->.
    { unfold entry_tsx, timeout_timer. rewrite Nat.add_1_r. apply Nat.div2_succ_double. }
    wbind. eapply wp_get_tsx; [exact Hx|]. rewrite Hst.
    change (negb (state_lt PJSIP_TSX_STATE_TERMINATED PJSIP_TSX_STATE_DESTROYED)) with false.
    cbn iota. wbind. unfold timer_id, wp at 1. change (timers w1) with tw. rewrite Hi, Hid.
    cbn [mbind option_bind].
    change ((TIMEOUT_TIMER =? TRANSPORT_ERR_TIMER) || (TIMEOUT_TIMER =? TRANSPORT_DISC_TIMER))
      with false. cbn iota. wbind. eapply wp_set_timer_id; [apply H1|exact Hx|by left|].
    intros w2 H2 E2 _ _. assert (Hx2 : tsxs w2 !! t = Some x) by by rewrite E2. wbind.
    unfold tsx_dispatch. wbind. eapply wp_get_tsx; [exact Hx2|]. wbind.
    eapply wp_from_option; [exact Hhd|]. cbn [run_handler tsx_on_state_terminated]. wbind.
    eapply wp_mono; [|eapply (wp_destroyed t _ x w2); [apply H2|exact Hx2|exact Hh|done]].
    intros ? w3 [H3 Hg]. by apply wp_ret, wp_ret. }
  apply wp_exists in Hwp as ([] & w' & Hrun & Hg). exists w'.
  assert (Hall : (modify (fun w : W => w <| timers := tw |>);; tsx_timer_callback (timeout_timer t)) w
    = Some (tt, w')) by exact Hrun.
  split; [exact Hall|]. split; [|done]. unfold wp in Hev. rewrite Hall in Hev.
  by apply (layer_evolves w).
Qed.

End Spec.
