(* ===== verification/TsxFlowSpec.v ===== *)
(** * SIP transactions: what single events do

    The functional behaviour of the state handlers, and the transition table
    of the machines that follows from it. *)

From S2P Require Import Prelude Monad TimeVal Timer TimerSpec Hash TsxData TsxEnv Tsx TsxApi TsxInv.
From S2P Require Import TsxProofs TsxSend TsxHandlers.
Local Open Scope Z_scope.

(** * SIP transactions: what the handlers do

    The functional behaviour of the state handlers on the paths that make up
    a normal transaction, for a transaction user whose callbacks leave the
    layer alone: the new state, the two timers, and the calls to other
    components in their order. *)

Section Flow.
Context {TW HT : Type} `{TS : !TimerService TW} `{KT : !KeyTable HT}.
Context {E : TsxEnv TW HT}.

#[local] Abbreviation W := (tsx_world TW HT).

(** ** The view of one transaction

    The transaction [x], when its timers fire, the messages, the settings,
    the clock and the log. *)
Record at_view (t : nat) (ds : gmap nat pjsip_tx_data) (s : tsx_timers) (n : pj_time_val)
    (x : pjsip_transaction) (rt to : option pj_time_val) (o : list tsx_output) (w : W) : Prop :=
  mk_at_view {
  av_tsx : tsxs w !! t = Some x;
  av_tds : tdatas w = ds;
  av_settings : settings w = s;
  av_now : now w = n;
  av_rt : ts_armed (timers w) !! retransmit_timer t = rt;
  av_to : ts_armed (timers w) !! timeout_timer t = to;
  av_out : out w = o;
  av_ok : ts_ok (timers w);
  av_rt_id : is_Some (ts_id (timers w) !! retransmit_timer t);
  av_to_id : is_Some (ts_id (timers w) !! timeout_timer t)
}.

Lemma view_of t x (w : W) :
  tsx_inv w -> tsxs w !! t = Some x ->
  at_view t (tdatas w) (settings w) (now w) x (ts_armed (timers w) !! retransmit_timer t)
    (ts_armed (timers w) !! timeout_timer t) (out w) w.
Proof. intros HI Hx. destruct (inv_base _ _ _ HI Hx). by split; try apply HI. Qed.

(** Transaction users whose callbacks leave the layer alone. *)
Definition quiet : Prop :=
  (forall u, on_rx_response u = Some (fun _ w => w)) /\
  (forall u, on_tsx_state u = Some (fun _ _ _ w => w)).

(** ** Primitive steps *)

Section Steps.
Context (t : nat) (ds : gmap nat pjsip_tx_data) (s : tsx_timers) (n : pj_time_val).
#[local] Abbreviation view := (at_view t ds s n).

Lemma view_get x rt to o (Q : pjsip_transaction -> W -> Prop) w :
  view x rt to o w -> Q x w -> wp (get_tsx t) Q w.
Proof. intros [] H. by eapply wp_get_tsx. Qed.

Lemma view_upd f x rt to o (Q : unit -> W -> Prop) w :
  view x rt to o w -> (forall w', view (f x) rt to o w' -> Q tt w') -> wp (upd_tsx t f) Q w.
Proof.
  intros [] H. unfold wp, upd_tsx. rewrite av_tsx0. cbn. apply H. split; try done.
  apply lookup_insert_eq.
Qed.

Lemma view_emit e x rt to o (Q : unit -> W -> Prop) w :
  view x rt to o w -> (forall w', view x rt to (o ++ [e]) w' -> Q tt w') -> wp (emit e) Q w.
Proof. intros [] H. apply wp_emit, H. split; try done. cbn. congruence. Qed.

Lemma view_cancel_rt x rt to o (Q : Z -> W -> Prop) w :
  view x rt to o w -> (forall c w', view x None to o w' -> Q c w') ->
  wp (tsx_cancel_timer (retransmit_timer t)) Q w.
Proof.
  intros [] H. unfold wp, tsx_cancel_timer. assert (Hne := timer_entries_ne_self t).
  destruct (ts_cancel_ok (timers w) (retransmit_timer t) TIMER_INACTIVE) as (tw & -> & Hok & Ha & Hi);
    [done|done|]. apply H. split; try done; change (timers (w <| timers := tw |>)) with tw.
  - by rewrite Ha, lookup_delete_eq.
  - by rewrite Ha, lookup_delete_ne.
  - rewrite Hi. case_bool_decide; [|done]. rewrite lookup_insert_eq. by eexists.
  - rewrite Hi. case_bool_decide; [|done]. by rewrite lookup_insert_ne.
Qed.

Lemma view_cancel_to x rt to o (Q : Z -> W -> Prop) w :
  view x rt to o w -> (forall c w', view x rt None o w' -> Q c w') ->
  wp (tsx_cancel_timer (timeout_timer t)) Q w.
Proof.
  intros [] H. unfold wp, tsx_cancel_timer. assert (Hne := timer_entries_ne_self t).
  destruct (ts_cancel_ok (timers w) (timeout_timer t) TIMER_INACTIVE) as (tw & -> & Hok & Ha & Hi);
    [done|done|]. apply H. split; try done; change (timers (w <| timers := tw |>)) with tw.
  - by rewrite Ha, lookup_delete_ne.
  - by rewrite Ha, lookup_delete_eq.
  - rewrite Hi. case_bool_decide; [|done]. by rewrite lookup_insert_ne.
  - rewrite Hi. case_bool_decide; [|done]. rewrite lookup_insert_eq. by eexists.
Qed.

Lemma view_schedule_rt x to o delay id (Q : Z -> W -> Prop) w :
  view x None to o w ->
  (forall w', view x (Some (PJ_TIME_VAL_ADD n delay)) to o w' -> Q PJ_SUCCESS w') ->
  wp (tsx_schedule_timer (retransmit_timer t) delay id) Q w.
Proof.
  intros [] H. unfold wp, tsx_schedule_timer. assert (Hne := timer_entries_ne_self t).
  destruct (ts_schedule_ok (timers w) (now w) (retransmit_timer t) delay id)
    as (tw & -> & Hok & Ha & Hi); [done..|].
  apply H. split; try done; change (timers (w <| timers := tw |>)) with tw.
  - rewrite Ha, lookup_insert_eq. congruence.
  - by rewrite Ha, lookup_insert_ne.
  - rewrite Hi, lookup_insert_eq. by eexists.
  - by rewrite Hi, lookup_insert_ne.
Qed.

Lemma view_schedule_to x rt o delay id (Q : Z -> W -> Prop) w :
  view x rt None o w ->
  (forall w', view x rt (Some (PJ_TIME_VAL_ADD n delay)) o w' -> Q PJ_SUCCESS w') ->
  wp (tsx_schedule_timer (timeout_timer t) delay id) Q w.
Proof.
  intros [] H. unfold wp, tsx_schedule_timer. assert (Hne := timer_entries_ne_self t).
  destruct (ts_schedule_ok (timers w) (now w) (timeout_timer t) delay id)
    as (tw & -> & Hok & Ha & Hi); [done..|].
  apply H. split; try done; change (timers (w <| timers := tw |>)) with tw.
  - by rewrite Ha, lookup_insert_ne.
  - rewrite Ha, lookup_insert_eq. congruence.
  - by rewrite Hi, lookup_insert_ne.
  - rewrite Hi, lookup_insert_eq. by eexists.
Qed.

Lemma view_restart x rt to o delay (Q : unit -> W -> Prop) w :
  view x rt to o w ->
  (forall w', view x rt (Some (PJ_TIME_VAL_ADD n delay)) o w' -> Q tt w') ->
  wp (restart_timeout t delay) Q w.
Proof.
  intros H HQ. unfold restart_timeout. wbind. eapply view_cancel_to; [done|].
  intros _ w1 H1. wbind. eapply view_schedule_to; [done|]. intros w2 H2. by apply wp_ret, HQ.
Qed.

Lemma view_lock (m : bool) x rt to o (Q : unit -> W -> Prop) w :
  view x rt to o w ->
  (forall w', view x rt to (o ++ [if m then OutAddRef (RefLock (grp_lock x))
                                  else OutDecRef (RefLock (grp_lock x))]) w' -> Q tt w') ->
  wp (if m then lock_add_ref t else lock_dec_ref t) Q w.
Proof.
  intros H HQ. destruct m; wbind; (eapply view_get; [done|]); by eapply view_emit.
Qed.

(** ** The state change *)

(** What a quiet transaction user is told. *)
Definition notified (x : pjsip_transaction) (prev st : pjsip_tsx_state_e)
    (src : pjsip_event) : list tsx_output :=
  match tsx_user x with
  | None => []
  | Some u =>
      match src with
      | PJSIP_EVENT_RX_MSG rdata =>
          match rx_msg rdata with
          | Some (PJSIP_RESPONSE_MSG _ _) => [OutRxResponse u (rx_id rdata)]
          | _ => []
          end
      | _ => []
      end ++ [OutTsxState u t prev st src]
  end.

Lemma view_notify_rx src x rt to o (Q : unit -> W -> Prop) w :
  quiet -> src_ok src -> view x rt to o w ->
  (forall w', view x rt to (o ++
     match tsx_user x with
     | None => []
     | Some u =>
         match src with
         | PJSIP_EVENT_RX_MSG rdata =>
             match rx_msg rdata with
             | Some (PJSIP_RESPONSE_MSG _ _) => [OutRxResponse u (rx_id rdata)]
             | _ => []
             end
         | _ => []
         end
     end) w' -> Q tt w') -> wp (notify_rx t src 0) Q w.
Proof.
  intros [Hq _] Hs H HQ. unfold notify_rx. wbind. eapply view_get; [done|]. cbn [Z.land Z.eqb].
  destruct (tsx_user x) as [u|].
  2:{ destruct src; apply wp_ret, HQ; by rewrite app_nil_r. }
  destruct src as [|e|td|rdata|td|]; try (apply wp_ret, HQ; by rewrite app_nil_r).
  destruct Hs as [msg Hm]. wbind. eapply wp_from_option; [exact Hm|]. rewrite Hm in HQ.
  destruct msg; [apply wp_ret, HQ; by rewrite app_nil_r|]. rewrite Hq. wbind.
  eapply view_emit; [done|]. intros w1 H1. by apply wp_modify, HQ.
Qed.

Lemma view_notify_state src prev x rt to o (Q : unit -> W -> Prop) w :
  quiet -> view x rt to o w ->
  (forall w', view x rt to (o ++
     match tsx_user x with None => [] | Some u => [OutTsxState u t prev (state x) src] end) w' ->
     Q tt w') -> wp (notify_state t src prev) Q w.
Proof.
  intros [_ Hq] H HQ. unfold notify_state. wbind. eapply view_get; [done|].
  destruct (tsx_user x) as [u|]; [|apply wp_ret, HQ; by rewrite app_nil_r].
  rewrite Hq. wbind. eapply view_emit; [done|]. intros w1 H1. by apply wp_modify, HQ.
Qed.

Lemma view_set_state_notify st src x rt to o (k : unit -> M W unit) (Q : unit -> W -> Prop) w :
  quiet -> src_ok src -> view x rt to o w ->
  (forall w', view (set_state_of st x) rt to (o ++ notified x (state x) st src) w' ->
     wp (k tt) Q w') ->
  wp (upd_tsx t (fun x => x <| state := st |>) ≫= fun _ =>
      upd_tsx t (fun x => x <| state_handler :=
        if bool_decide (role x = PJSIP_ROLE_UAC)
        then tsx_state_handler_uac st else tsx_state_handler_uas st |>) ≫= fun _ =>
      notify_rx t src 0 ≫= fun _ =>
      when (Z.land 0 NO_NOTIFY =? 0) (notify_state t src (state x)) ≫= k) Q w.
Proof.
  intros Hq Hs H HQ. apply wp_upd_upd. wbind. eapply view_upd; [done|]. intros w1 H1.
  change (view (set_state_of st x) rt to o w1) in H1. wbind.
  eapply view_notify_rx; [done..|]. intros w2 H2. wbind. cbn [Z.land Z.eqb when].
  eapply view_notify_state; [done..|]. intros w3 H3. apply HQ.
  rewrite <- app_assoc in H3. unfold notified. cbn in H3.
  by destruct (tsx_user x).
Qed.

Lemma view_set_state st src x rt to o (Q : unit -> W -> Prop) w :
  quiet -> src_ok src -> st <> PJSIP_TSX_STATE_TERMINATED -> st <> PJSIP_TSX_STATE_DESTROYED ->
  view x rt to o w ->
  (forall w', view (set_state_of st x) rt to (o ++ notified x (state x) st src) w' -> Q tt w') ->
  wp (tsx_set_state t st src 0) Q w.
Proof.
  intros Hq Hs H1 H2 H HQ. unfold tsx_set_state. wbind. eapply view_get; [done|].
  eapply view_set_state_notify; [done..|]. intros w1 Hw1. destruct st; try done; by apply wp_ret, HQ.
Qed.

(** The timeout timer is restarted at zero. *)
Lemma view_set_terminated src x rt to o (Q : unit -> W -> Prop) w :
  quiet -> src_ok src -> view x rt to o w ->
  TSX_HAS_PENDING_TRANSPORT (transport_flag x) = false ->
  (forall w', view (set_state_of PJSIP_TSX_STATE_TERMINATED x) rt
     (Some (PJ_TIME_VAL_ADD n zero_time))
     (o ++ notified x (state x) PJSIP_TSX_STATE_TERMINATED src) w' -> Q tt w') ->
  wp (tsx_set_state t PJSIP_TSX_STATE_TERMINATED src 0) Q w.
Proof.
  intros Hq Hs H Hp HQ. unfold tsx_set_state. wbind. eapply view_get; [done|].
  eapply view_set_state_notify; [done..|]. intros w1 H1. wbind. eapply view_get; [done|].
  wbind. apply wp_when; [intros Hpt; change (TSX_HAS_PENDING_TRANSPORT (transport_flag x) = true) in Hpt;
    congruence|intros _].
  wbind. eapply view_cancel_to; [done|]. intros _ w2 H2.
  cbn [Z.land Z.eqb when]. wbind. eapply view_schedule_to; [done|]. intros w3 H3.
  by apply wp_ret, HQ.
Qed.

(** ** Sending *)

(** A send the transport of the transaction completes at once. *)
Definition sent_by (x : pjsip_transaction) (p td : nat) : list tsx_output :=
  [OutAddRef (RefLock (grp_lock x)); OutTransportSend p td; OutDecRef (RefLock (grp_lock x))].

Lemma view_flag_id f x rt to o w :
  f (transport_flag x) = transport_flag x ->
  view (x <| transport_flag := f (transport_flag x) |>) rt to o w -> view x rt to o w.
Proof. intros Hf. rewrite Hf. by destruct x. Qed.

Lemma view_send x p td d rt to o (Q : Z -> W -> Prop) w :
  view x rt to o w -> transport x = Some p -> TSX_HAS_PENDING_TRANSPORT (transport_flag x) = false ->
  ds !! td = Some d -> td_is_pending d = false ->
  (forall w, transport_send w p td = PJ_SUCCESS) ->
  (forall w', view x rt to (o ++ sent_by x p td) w' -> Q PJ_SUCCESS w') ->
  wp (tsx_send_msg t td) Q w.
Proof.
  intros H Htp Hpt Hd Hpend Hs HQ. unfold tsx_send_msg. cbn [tsx_send_msg_fuel].
  unfold tsx_send_msg_body. wbind. eapply view_get; [done|]. rewrite Hpt. wbind.
  eapply wp_get_td; [by rewrite (av_tds _ _ _ _ _ _ _ _ _ H)|]. rewrite Hpend, Htp. wbind.
  unfold tsx_send_direct. wbind. eapply (view_lock true); [done|]. intros w1 H1. wbind.
  eapply view_upd; [done|]. intros w2 H2. wbind. unfold pjsip_transport_send. wbind.
  apply wp_ask. wbind. eapply view_emit; [done|]. intros w3 H3. wbind. rewrite Hs.
  assert (Hup : forall (Q : unit -> W -> Prop), Q tt w3 ->
    wp (upd_td td (fun d => d <| td_is_pending := (PJ_SUCCESS =? PJ_EPENDING) |>)) Q w3).
  { intros Q' HQ'. unfold wp, upd_td. rewrite (av_tds _ _ _ _ _ _ _ _ _ H3), Hd. cbn.
    rewrite insert_id; [|rewrite Hd; destruct d; cbn in *; by subst].
    destruct H3. by destruct w3; cbn in *; subst. }
  apply Hup, wp_ret. wbind. cbn [Z.eqb PJ_SUCCESS PJ_EPENDING].
  change (PJ_SUCCESS =? PJ_EPENDING) with false. cbn iota. wbind.
  eapply view_upd; [done|]. intros w4 H4. wbind. eapply (view_lock false); [done|].
  intros w5 H5. apply wp_ret. cbn [negb Z.eqb]. change (PJ_SUCCESS =? PJ_SUCCESS) with true.
  cbn [negb]. apply wp_ret, wp_ret, HQ. unfold sent_by. rewrite <- !app_assoc in H5.
  destruct x as [? ? ? ? ? ? ? ? ? ? ? ? ? ? ? ? ? ? ? fl]; destruct fl. cbn in *. by subst.
Qed.

(** What a retransmission of the last message does; [resched] restarts the
    retransmission timer, which has fired. *)
Definition retransmitted (resched : bool) (x : pjsip_transaction) : pjsip_transaction :=
  x <| retransmit_count := s32 (retransmit_count x + 1) |>.

Definition next_retransmit (x : pjsip_transaction) : option pj_time_val :=
  let msec := resched_msec (tsx_config s) x in
  if msec =? 0 then None else Some (PJ_TIME_VAL_ADD n (msec_val msec)).

Lemma view_retransmit resched x p td d rt to o (Q : Z -> W -> Prop) w :
  view x rt to o w -> (resched = true -> rt = None) -> last_tx x = Some td ->
  transport x = Some p -> TSX_HAS_PENDING_TRANSPORT (transport_flag x) = false ->
  ds !! td = Some d -> td_is_pending d = false ->
  (forall w, transport_send w p td = PJ_SUCCESS) ->
  (forall w', view (retransmitted resched x)
     (if resched then next_retransmit (retransmitted resched x) else rt) to
     (o ++ sent_by x p td) w' -> Q PJ_SUCCESS w') ->
  wp (tsx_retransmit t resched) Q w.
Proof.
  intros H Hrt Hl Htp Hpt Hd Hpend Hs HQ. unfold tsx_retransmit. wbind.
  unfold timer_running, wp at 1. rewrite (av_rt _ _ _ _ _ _ _ _ _ H).
  assert (resched && bool_decide (is_Some rt) = false) as ->.
  { destruct resched; [|done]. by rewrite Hrt. }
  wbind. eapply view_get; [done|]. rewrite Hl. wbind. eapply view_upd; [done|].
  intros w1 H1. change (view (retransmitted resched x) rt to o w1) in H1. wbind.
  assert (Hsend : forall rt' w2, view (retransmitted resched x) rt' to o w2 ->
    rt' = (if resched then next_retransmit (retransmitted resched x) else rt) ->
    wp (tsx_send_msg t td) Q w2).
  { intros rt' w2 H2 ->. eapply (view_send (retransmitted resched x)); done. }
  apply wp_when; intros Hr; subst resched; [|by eapply Hsend]. rewrite Hrt in H1 by done.
  rewrite Hpt. unfold tsx_resched_retransmission. wbind. eapply view_get; [done|]. wbind.
  apply wp_ask. rewrite (av_settings _ _ _ _ _ _ _ _ _ H1).
  unfold next_retransmit in Hsend. cbn zeta in *.
  destruct (resched_msec (tsx_config s) (retransmitted true x) =? 0); cbn [negb when].
  - apply wp_ret. by eapply Hsend.
  - wbind. eapply view_schedule_rt; [done|]. intros w2 H2. apply wp_ret. by eapply Hsend.
Qed.

Lemma view_drop_last_tx td x rt to o (Q : unit -> W -> Prop) w :
  view x rt to o w ->
  (forall l o' w', view (x <| last_tx := l |>) rt to (o ++ o') w' ->
     l = None \/ l = Some td -> Q tt w') ->
  wp (drop_last_tx t td) Q w.
Proof.
  intros H HQ. unfold drop_last_tx. wbind. eapply view_get; [done|].
  assert (Hx : x = x <| last_tx := last_tx x |>) by by destruct x.
  destruct (last_tx x) as [old|] eqn:Hl.
  - apply wp_when; intros Hc.
    + wbind. eapply view_emit; [done|]. intros w1 H1. eapply view_upd; [done|].
      intros w2 H2. eapply HQ; [exact H2|by left].
    + apply bool_decide_eq_false in Hc. assert (old = td) by (destruct (decide (old = td)); tauto).
      subst old. apply (HQ (Some td) [] w); [|by right]. by rewrite <- Hx, app_nil_r.
  - apply wp_ret, (HQ None [] w); [|by left]. by rewrite <- Hx, app_nil_r.
Qed.

Lemma view_save_last_tx td x rt to o (Q : unit -> W -> Prop) w :
  view x rt to o w ->
  (forall o' w', view (x <| last_tx := Some td |>) rt to (o ++ o') w' -> Q tt w') ->
  wp (save_last_tx t td) Q w.
Proof.
  intros H HQ. unfold save_last_tx. wbind. eapply view_get; [done|]. apply wp_when; intros Hc.
  - wbind. eapply view_upd; [done|]. intros w1 H1. eapply view_emit; [done|].
    intros w2 H2. by eapply HQ.
  - apply bool_decide_eq_false, dec_stable in Hc. apply (HQ [] w).
    rewrite <- Hc, app_nil_r. by destruct x.
Qed.

Lemma view_start_retransmit delay x to o (Q : unit -> W -> Prop) w :
  view x None to o w -> TSX_HAS_PENDING_TRANSPORT (transport_flag x) = false ->
  (forall w', view (x <| retransmit_count := 0 |>) (Some (PJ_TIME_VAL_ADD n delay)) to o w' ->
     Q tt w') ->
  wp (start_retransmit t delay) Q w.
Proof.
  intros H Hpt HQ. unfold start_retransmit. wbind. eapply view_upd; [done|]. intros w1 H1.
  wbind. eapply view_get; [done|].
  change (TSX_HAS_PENDING_TRANSPORT (transport_flag (x <| retransmit_count := 0 |>)))
    with (TSX_HAS_PENDING_TRANSPORT (transport_flag x)). rewrite Hpt. wbind.
  eapply view_schedule_rt; [done|]. intros w2 H2. by apply wp_ret, HQ.
Qed.

Lemma view_set_status code reason x rt to o (Q : unit -> W -> Prop) w :
  view x rt to o w ->
  (forall w', view (x <| status_code := code |>
     <| status_text := match reason with Some r => r | None => TextOfCode code end |>) rt to o w' ->
     Q tt w') ->
  wp (tsx_set_status_code t code reason) Q w.
Proof. intros H HQ. by eapply view_upd. Qed.

End Steps.
End Flow.

(** * SIP transactions: the transition table

    The steps of a transaction between its request and its end, stated for a
    transaction user whose callbacks leave the layer alone: the state, the
    timers and the calls each event leads to. *)

#[export] Instance tsx_handler_eq_dec : EqDecision tsx_handler.
Proof. solve_decision. Defined.

Section Table.
Context {TW HT : Type} `{TS : !TimerService TW} `{KT : !KeyTable HT}.
Context {E : TsxEnv TW HT}.

#[local] Abbreviation W := (tsx_world TW HT).
#[local] Abbreviation M := (M (tsx_world TW HT)).

Lemma view_dispatch t ds s n ev h x rt to o (Q : Z -> W -> Prop) w :
  at_view t ds s n x rt to o w -> state_handler x = Some h ->
  wp (run_handler h t ev) Q w -> wp (tsx_dispatch t ev) Q w.
Proof.
  intros H Hh HQ. unfold tsx_dispatch. wbind. eapply view_get; [done|]. wbind.
  by eapply wp_from_option.
Qed.

(** Evaluating the condition of a branch. *)
Ltac decide_cond :=
  match goal with |- context [bool_decide ?P] =>
    first [ rewrite (bool_decide_eq_true_2 P) by done
          | rewrite (bool_decide_eq_false_2 P) by (done || tauto) ]
  end; cbn [negb andb orb when].

(** The transport of the transaction takes message [td] at once. *)
Record can_send (x : pjsip_transaction) (ds : gmap nat pjsip_tx_data) (p td : nat) : Prop :=
  mk_can_send {
  cs_transport : transport x = Some p;
  cs_idle : TSX_HAS_PENDING_TRANSPORT (transport_flag x) = false;
  cs_msg : exists d, ds !! td = Some d /\ td_is_pending d = false;
  cs_sent : forall w : W, transport_send w p td = PJ_SUCCESS
}.

(** Nothing is deferred to the end of a transmission any more. *)
Definition no_resched (x : pjsip_transaction) : pjsip_transaction :=
  x <| transport_flag := transport_flag x <| TSX_HAS_PENDING_RESCHED := false |> |>.

(** an ACK in the Completed state of an INVITE server transaction.  The
    retransmission of the response stops, the transaction is Confirmed and ends
    after T4, or at once over a reliable transport. *)
Theorem uas_ack_confirms t ds s n x rt to o rdata m (w : W) :
  quiet -> at_view t ds s n x rt to o w ->
  state_handler x = Some tsx_on_state_completed_uas_h ->
  m_id (method x) = PJSIP_INVITE_METHOD ->
  rx_msg rdata = Some (PJSIP_REQUEST_MSG m) -> m_id m = PJSIP_ACK_METHOD ->
  wp (tsx_dispatch t (PJSIP_EVENT_RX_MSG rdata)) (fun st w' =>
    st = PJ_SUCCESS /\
    at_view t ds s n (set_state_of PJSIP_TSX_STATE_CONFIRMED (no_resched x)) None
      (Some (PJ_TIME_VAL_ADD n (if is_reliable x then zero_time else t4_timer_val s)))
      (o ++ notified t x (state x) PJSIP_TSX_STATE_CONFIRMED (PJSIP_EVENT_RX_MSG rdata)) w') w.
Proof.
  intros Hq H Hh Hinv Hm Hack. eapply view_dispatch; [done..|]. cbn [run_handler].
  unfold tsx_on_state_completed_uas. wbind. eapply wp_from_option; [done|]. cbn beta iota. rewrite Hack.
  decide_cond. wbind. eapply view_get; [done|]. rewrite Hinv. decide_cond. wbind.
  eapply view_cancel_rt; [done|]. intros _ w1 H1. wbind. eapply view_upd; [done|].
  intros w2 H2. wbind. apply wp_ask. wbind. rewrite (av_settings _ _ _ _ _ _ _ _ _ H2).
  eapply view_restart; [done|]. intros w3 H3. wbind.
  eapply view_set_state; [done|by eexists|done|done|exact H3|]. intros w4 H4. apply wp_ret.
  split; [done|]. unfold final_timeout in H4. by destruct (is_reliable x).
Qed.

(** A 2xx response ends an INVITE transaction at once; another one waits for
    retransmitted responses, unless the transport is reliable. *)
Definition uac_2xx_state (x : pjsip_transaction) : pjsip_tsx_state_e :=
  if bool_decide (m_id (method x) = PJSIP_INVITE_METHOD)
  then PJSIP_TSX_STATE_TERMINATED else PJSIP_TSX_STATE_COMPLETED.

Definition uac_2xx_timeout (s : tsx_timers) (x : pjsip_transaction) : pj_time_val :=
  if bool_decide (m_id (method x) = PJSIP_INVITE_METHOD) || is_reliable x
  then zero_time else t4_timer_val s.

Definition uac_succeeded (t : nat) (ds : gmap nat pjsip_tx_data) (s : tsx_timers)
    (n : pj_time_val) (x : pjsip_transaction) (o : list tsx_output)
    (rdata : pjsip_rx_data) (code : Z) (w' : W) : Prop :=
  exists y rt', at_view t ds s n y rt' (Some (PJ_TIME_VAL_ADD n (uac_2xx_timeout s x)))
      (o ++ notified t x (state x) (uac_2xx_state x) (PJSIP_EVENT_RX_MSG rdata)) w' /\
    state y = uac_2xx_state x /\ status_code y = code /\
    (state y = PJSIP_TSX_STATE_COMPLETED -> rt' = None).

Lemma view_uac_2xx t ds s n x rt to o rdata code reason (w : W) :
  quiet -> at_view t ds s n x rt to o w -> role x = PJSIP_ROLE_UAC ->
  TSX_HAS_PENDING_TRANSPORT (transport_flag x) = false ->
  rx_msg rdata = Some (PJSIP_RESPONSE_MSG code reason) -> 200 <= code < 300 ->
  wp (tsx_on_state_proceeding_uac t (PJSIP_EVENT_RX_MSG rdata)) (fun _ => uac_succeeded t ds s n x o rdata code) w.
Proof.
  intros Hq H Hr Hpt Hm Hcode. unfold tsx_on_state_proceeding_uac. wbind.
  eapply wp_from_option; [done|]. cbn beta iota. wbind. eapply view_set_status; [done|].
  set (x1 := _ <| status_text := _ |>). intros w1 H1.
  assert (Hx1 : method x1 = method x /\ is_reliable x1 = is_reliable x) by done.
  destruct Hx1 as [Em Er].
  unfold PJSIP_IS_STATUS_IN_CLASS. assert (Z.quot code 100 = 2) as ->.
  { rewrite Z.quot_div_nonneg by lia. symmetry. apply Z.div_unique with (code - 200); lia. }
  cbn [Z.quot Z.quotrem]. change (2 =? Z.quot 100 100) with false.
  change (2 =? Z.quot 200 100) with true. cbn iota. unfold uac_final_2xx. wbind.
  eapply view_cancel_to; [done|]. intros _ w2 H2. wbind. eapply view_get; [done|]. rewrite Em.
  unfold uac_succeeded, uac_2xx_state, uac_2xx_timeout.
  case_bool_decide as Hi; cbn [orb].
  - wbind. eapply view_set_terminated; [done|by eexists|exact H2|exact Hpt|]. intros w3 H3.
    apply wp_ret. by exists (set_state_of PJSIP_TSX_STATE_TERMINATED x1), rt.
  - wbind. apply wp_ask. rewrite (av_settings _ _ _ _ _ _ _ _ _ H2), Er. wbind.
    eapply view_schedule_to; [done|]. intros w3 H3. wbind. eapply view_cancel_rt; [done|].
    intros _ w4 H4. wbind. eapply view_set_state; [done|by eexists|done|done|exact H4|].
    intros w5 H5. apply wp_ret. exists (set_state_of PJSIP_TSX_STATE_COMPLETED x1), None.
    split; [|done]. unfold final_timeout in H5. by destruct (is_reliable x).
Qed.

(** a 2xx response to a client transaction, whether it is the first
    response or follows provisional ones: INVITE transactions terminate at
    once, others complete and wait T4 (nothing over a reliable transport) for
    retransmissions; the transaction user hears of the response first and
    then of the state. *)
Theorem uac_success_response t ds s n x rt to o rdata code reason h (w : W) :
  quiet -> at_view t ds s n x rt to o w -> role x = PJSIP_ROLE_UAC ->
  state_handler x = Some h ->
  h = tsx_on_state_calling_h \/ h = tsx_on_state_proceeding_uac_h ->
  TSX_HAS_PENDING_TRANSPORT (transport_flag x) = false ->
  rx_msg rdata = Some (PJSIP_RESPONSE_MSG code reason) -> 200 <= code < 300 ->
  wp (tsx_dispatch t (PJSIP_EVENT_RX_MSG rdata)) (fun _ => uac_succeeded t ds s n x o rdata code) w.
Proof.
  intros Hq H Hr Hh Hor Hpt Hm Hcode. eapply view_dispatch; [done..|].
  destruct Hor as [-> | ->]; cbn [run_handler]; [|by eapply view_uac_2xx].
  unfold tsx_on_state_calling. cbn [is_timer_event]. wbind. eapply wp_from_option; [done|].
  cbn beta iota. wbind. eapply view_cancel_rt; [done|]. intros _ w1 H1. wbind.
  eapply view_get; [done|]. wbind. destruct (Z.leb_spec 200 code); [|lia].
  assert (Hend : forall to' w2, at_view t ds s n x None to' o w2 ->
    wp (set_flag t (fun f => f <| TSX_HAS_PENDING_RESCHED := false |>);;
        tsx_on_state_proceeding_uac t (PJSIP_EVENT_RX_MSG rdata);; mret PJ_SUCCESS)
      (fun _ => uac_succeeded t ds s n x o rdata code) w2).
  { intros to' w2 H2. wbind. eapply view_upd; [done|]. intros w3 H3. wbind.
    eapply wp_mono; [|by eapply (view_uac_2xx t ds s n (no_resched x))].
    intros ? w4 H4. exact H4. }
  destruct (av_to_id _ _ _ _ _ _ _ _ _ H1) as [id Hid]. wbind.
  unfold timer_id, wp at 1. rewrite Hid. cbn [mbind option_bind].
  apply wp_when; intros _; [|by eapply Hend]. wbind. eapply view_cancel_to; [done|].
  intros _ w2 H2. by eapply wp_ret, Hend.
Qed.

(** The status a timeout gives the transaction: a final response was sent or
    received already in the other states. *)
Definition timeout_status (h : tsx_handler) (x : pjsip_transaction) : Z :=
  match h with
  | tsx_on_state_calling_h | tsx_on_state_proceeding_uac_h
  | tsx_on_state_proceeding_uas_h => PJSIP_SC_TSX_TIMEOUT
  | tsx_on_state_completed_uas_h =>
      if bool_decide (m_id (method x) = PJSIP_INVITE_METHOD)
      then PJSIP_SC_TSX_TIMEOUT else status_code x
  | _ => status_code x
  end.

Definition may_time_out (h : tsx_handler) : Prop :=
  h = tsx_on_state_calling_h \/ h = tsx_on_state_proceeding_uac_h \/
  h = tsx_on_state_proceeding_uas_h \/ h = tsx_on_state_completed_uas_h \/
  h = tsx_on_state_completed_uac_h \/ h = tsx_on_state_confirmed_h.

Lemma timeout_not_retransmit t : Nat.eqb (timeout_timer t) (retransmit_timer t) = false.
Proof. apply Nat.eqb_neq, timer_entries_ne_self. Qed.

(** the timeout timer in every state that has one before the end.  The
    transaction terminates, with status 408 unless a final response was
    exchanged, its timer is restarted at zero to destroy it, and the
    transaction user is told once. *)
Theorem timeout_terminates t ds s n x rt to o h (w : W) :
  quiet -> at_view t ds s n x rt to o w -> state_handler x = Some h -> may_time_out h ->
  TSX_HAS_PENDING_TRANSPORT (transport_flag x) = false ->
  wp (tsx_dispatch t (PJSIP_EVENT_TIMER (timeout_timer t))) (fun _ w' => exists y,
    at_view t ds s n y (if bool_decide (h = tsx_on_state_calling_h) then None else rt)
      (Some (PJ_TIME_VAL_ADD n zero_time))
      (o ++ notified t x (state x) PJSIP_TSX_STATE_TERMINATED
              (PJSIP_EVENT_TIMER (timeout_timer t))) w' /\
    state y = PJSIP_TSX_STATE_TERMINATED /\ status_code y = timeout_status h x) w.
Proof.
  intros Hq H Hh Hor Hpt. eapply view_dispatch; [done..|].
  match goal with |- wp _ ?Q _ => set (post := Q) end.
  assert (Hend : forall A (a : A) y rt' to' w1, at_view t ds s n y rt' to' o w1 ->
    tsx_user y = tsx_user x -> state y = state x -> status_code y = timeout_status h x ->
    TSX_HAS_PENDING_TRANSPORT (transport_flag y) = false ->
    rt' = (if bool_decide (h = tsx_on_state_calling_h) then None else rt) ->
    wp (tsx_set_state t PJSIP_TSX_STATE_TERMINATED
          (PJSIP_EVENT_TIMER (timeout_timer t)) 0;; mret a) (fun _ => post 0) w1).
  { intros A a y rt' to' w1 H1 Eu Es Ec Ep ->. wbind.
    eapply view_set_terminated; [done|done|exact H1|exact Ep|]. intros w2 H2. apply wp_ret.
    exists (set_state_of PJSIP_TSX_STATE_TERMINATED y). split; [|done].
    rewrite Es in H2. unfold notified in *. by rewrite Eu in H2. }
  destruct Hor as [->|[->|[->|[->|[->| ->]]]]]; cbn [run_handler].
  - unfold tsx_on_state_calling, is_timer_event. rewrite timeout_not_retransmit, Nat.eqb_refl.
    wbind. eapply view_cancel_rt; [done|]. intros _ w1 H1. wbind. eapply view_upd; [done|].
    intros w2 H2. wbind. eapply view_set_status; [done|]. intros w3 H3. by eapply Hend.
  - unfold tsx_on_state_proceeding_uac. rewrite timeout_not_retransmit, Nat.eqb_refl. wbind.
    eapply view_set_status; [done|]. intros w3 H3. by eapply Hend.
  - unfold tsx_on_state_proceeding_uas. rewrite timeout_not_retransmit, Nat.eqb_refl. wbind.
    eapply view_set_status; [done|]. intros w3 H3. by eapply Hend.
  - unfold tsx_on_state_completed_uas. rewrite timeout_not_retransmit. wbind.
    eapply view_get; [done|]. wbind. apply wp_when; intros Hi.
    + eapply view_set_status; [done|]. intros w3 H3. eapply Hend; try done.
      unfold timeout_status. by rewrite Hi.
    + eapply Hend; try done. unfold timeout_status. by rewrite Hi.
  - unfold tsx_on_state_completed_uac. rewrite Nat.eqb_refl. by eapply Hend.
  - unfold tsx_on_state_confirmed. rewrite timeout_not_retransmit. by eapply Hend.
Qed.

Definition retransmits (h : tsx_handler) : Prop :=
  h = tsx_on_state_calling_h \/ h = tsx_on_state_proceeding_uac_h \/
  h = tsx_on_state_proceeding_uas_h \/ h = tsx_on_state_completed_uas_h.

(** the retransmission timer.  The last message is sent again
    once, and the timer restarted with the next interval; the transaction
    user is not told. *)
Theorem retransmit_timer_resends t ds s n x to o h p td (w : W) :
  at_view t ds s n x None to o w -> state_handler x = Some h -> retransmits h ->
  last_tx x = Some td -> can_send x ds p td ->
  let y := x <| retransmit_count := s32 (retransmit_count x + 1) |> in
  let msec := resched_msec (tsx_config s) y in
  wp (tsx_dispatch t (PJSIP_EVENT_TIMER (retransmit_timer t))) (fun st w' =>
    st = PJ_SUCCESS /\
    at_view t ds s n y
      (if msec =? 0 then None else Some (PJ_TIME_VAL_ADD n (msec_val msec))) to
      (o ++ [OutAddRef (RefLock (grp_lock x)); OutTransportSend p td;
             OutDecRef (RefLock (grp_lock x))]) w') w.
Proof.
  intros H Hh Hor Hl [Htp Hpt [d [Hd Hpend]] Hs] y msec. eapply view_dispatch; [done..|].
  match goal with |- wp _ ?Q _ => set (post := Q) end.
  assert (Hend : wp (tsx_retransmit t true) post w).
  { eapply view_retransmit; done. }
  destruct Hor as [->|[->|[->| ->]]]; cbn [run_handler].
  - unfold tsx_on_state_calling, is_timer_event. by rewrite Nat.eqb_refl.
  - unfold tsx_on_state_proceeding_uac. by rewrite Nat.eqb_refl.
  - unfold tsx_on_state_proceeding_uas. by rewrite Nat.eqb_refl.
  - unfold tsx_on_state_completed_uas. by rewrite Nat.eqb_refl.
Qed.

(** a retransmitted request.  The server sends its last response
    again and neither changes state nor tells the transaction user. *)
Theorem uas_resends_response t ds s n x rt to o h p td rdata m (w : W) :
  at_view t ds s n x rt to o w -> state_handler x = Some h ->
  h = tsx_on_state_proceeding_uas_h \/ h = tsx_on_state_completed_uas_h ->
  last_tx x = Some td -> can_send x ds p td ->
  rx_msg rdata = Some (PJSIP_REQUEST_MSG m) -> m_id m <> PJSIP_ACK_METHOD ->
  wp (tsx_dispatch t (PJSIP_EVENT_RX_MSG rdata)) (fun st w' => st = PJ_SUCCESS /\
    exists y, at_view t ds s n y rt to
      (o ++ [OutAddRef (RefLock (grp_lock x)); OutTransportSend p td;
             OutDecRef (RefLock (grp_lock x))]) w' /\
    state y = state x /\ status_code y = status_code x /\ last_tx y = last_tx x) w.
Proof.
  intros H Hh Hor Hl [Htp Hpt [d [Hd Hpend]] Hs] Hm Hack. eapply view_dispatch; [done..|].
  destruct Hor as [-> | ->]; cbn [run_handler].
  - unfold tsx_on_state_proceeding_uas. wbind. eapply view_get; [done|]. rewrite Hl, Hpt.
    eapply view_send; [done..|]. intros w1 H1. split; [done|]. by exists x.
  - unfold tsx_on_state_completed_uas. wbind. eapply wp_from_option; [done|]. cbn beta iota.
    rewrite bool_decide_eq_true_2 by done. eapply view_retransmit; [done..|].
    intros w1 H1. split; [done|]. by eexists.
Qed.

Lemma quot_class code k : 0 <= k -> 100 * k <= code < 100 * k + 100 -> Z.quot code 100 = k.
Proof.
  intros Hk Hc. rewrite Z.quot_div_nonneg by lia. symmetry.
  apply Z.div_unique with (code - 100 * k); lia.
Qed.

Lemma not_class code c k : c = 100 * k -> 100 * (k + 1) <= code -> 0 <= k ->
  PJSIP_IS_STATUS_IN_CLASS code c = false.
Proof.
  intros -> Hc Hk. apply not_true_is_false. unfold PJSIP_IS_STATUS_IN_CLASS. intros H%Z.eqb_eq.
  rewrite Z.mul_comm, Z.quot_mul, Z.quot_div_nonneg in H by lia.
  assert (k + 1 <= code / 100) by (apply Z.div_le_lower_bound; lia). lia.
Qed.

(** When the final response of a server transaction is sent again, and how
    long the transaction waits. *)
Definition uas_final_retransmit (s : tsx_timers) (n : pj_time_val) (x : pjsip_transaction)
    (code : Z) : option pj_time_val :=
  if bool_decide (m_id (method x) = PJSIP_INVITE_METHOD)
     && ((code <? 300) || negb (is_reliable x))
  then Some (PJ_TIME_VAL_ADD n (t1_timer_val s)) else None.

Definition uas_final_timeout (s : tsx_timers) (x : pjsip_transaction) : pj_time_val :=
  if bool_decide (m_id (method x) = PJSIP_INVITE_METHOD) || negb (is_reliable x)
  then timeout_timer_val s else zero_time.

Definition uas_completed (t : nat) (ds : gmap nat pjsip_tx_data) (s : tsx_timers)
    (n : pj_time_val) (x : pjsip_transaction) (o : list tsx_output) (p td : nat) (code : Z)
    (w' : W) : Prop :=
  exists y o1 o2, at_view t ds s n y (uas_final_retransmit s n x code)
    (Some (PJ_TIME_VAL_ADD n (uas_final_timeout s x)))
    (o ++ o1 ++ [OutAddRef (RefLock (grp_lock x)); OutTransportSend p td;
       OutDecRef (RefLock (grp_lock x))] ++ o2 ++
     notified t x (state x) PJSIP_TSX_STATE_COMPLETED (PJSIP_EVENT_TX_MSG td)) w' /\
  state y = PJSIP_TSX_STATE_COMPLETED /\ status_code y = code /\ last_tx y = Some td.

Lemma view_final_2xx t ds s n x rt to o td (Q : unit -> W -> Prop) w :
  quiet -> at_view t ds s n x rt to o w ->
  TSX_HAS_PENDING_TRANSPORT (transport_flag x) = false -> handle_200resp x = true ->
  (forall c o2 w', at_view t ds s n
     (set_state_of PJSIP_TSX_STATE_COMPLETED (x <| retransmit_count := c |> <| last_tx := Some td |>))
     (if bool_decide (m_id (method x) = PJSIP_INVITE_METHOD)
      then Some (PJ_TIME_VAL_ADD n (t1_timer_val s)) else None)
     (Some (PJ_TIME_VAL_ADD n (uas_final_timeout s x)))
     ((o ++ o2) ++ notified t x (state x) PJSIP_TSX_STATE_COMPLETED (PJSIP_EVENT_TX_MSG td)) w' ->
     Q tt w') ->
  wp (uas_final_2xx t td (PJSIP_EVENT_TX_MSG td)) Q w.
Proof.
  intros Hq H Hpt H200 HQ. unfold uas_final_2xx, uas_final_timeout, final_timeout in *. wbind.
  eapply view_cancel_rt; [done|]. intros _ w1 H1. wbind. eapply view_get; [done|].
  rewrite H200, andb_false_r. wbind. apply wp_ask.
  rewrite (av_settings _ _ _ _ _ _ _ _ _ H1). wbind.
  assert (Hend : forall c w2, at_view t ds s n (x <| retransmit_count := c |>)
     (if bool_decide (m_id (method x) = PJSIP_INVITE_METHOD)
      then Some (PJ_TIME_VAL_ADD n (t1_timer_val s)) else None) to o w2 ->
    wp (save_last_tx t td;; x ← get_tsx t;
        restart_timeout t (if bool_decide (m_id (method x) = PJSIP_INVITE_METHOD)
          then timeout_timer_val s
          else if negb (is_reliable x) then timeout_timer_val s else zero_time);;
        tsx_set_state t PJSIP_TSX_STATE_COMPLETED (PJSIP_EVENT_TX_MSG td) 0) Q w2).
  { intros c w2 H2. wbind. eapply view_save_last_tx; [done|]. intros o2 w3 H3. wbind.
    eapply view_get; [done|]. wbind. eapply view_restart; [done|]. intros w4 H4.
    eapply view_set_state; [done|done|done|done|exact H4|]. intros w5 H5.
    apply (HQ c o2). cbn [method is_reliable] in H5.
    change (method (x <| retransmit_count := c |> <| last_tx := Some td |>)) with (method x) in H5.
    change (is_reliable (x <| retransmit_count := c |> <| last_tx := Some td |>))
      with (is_reliable x) in H5.
    by destruct (bool_decide _), (is_reliable x). }
  apply wp_when; intros Hi; rewrite Hi in Hend.
  - eapply view_start_retransmit; [done..|]. intros w2 H2. by eapply Hend.
  - eapply (Hend (retransmit_count x)). by destruct x.
Qed.

Lemma view_final_3xx t ds s n x rt to o td d cs (Q : unit -> W -> Prop) w :
  quiet -> at_view t ds s n x rt to o w ->
  TSX_HAS_PENDING_TRANSPORT (transport_flag x) = false ->
  ds !! td = Some d -> td_cseq d = Some cs -> m_id (cs_method cs) = m_id (method x) ->
  (forall c o2 w', at_view t ds s n
     (set_state_of PJSIP_TSX_STATE_COMPLETED (x <| last_tx := Some td |> <| retransmit_count := c |>))
     (if bool_decide (m_id (method x) = PJSIP_INVITE_METHOD) && negb (is_reliable x)
      then Some (PJ_TIME_VAL_ADD n (t1_timer_val s)) else None)
     (Some (PJ_TIME_VAL_ADD n (uas_final_timeout s x)))
     ((o ++ o2) ++ notified t x (state x) PJSIP_TSX_STATE_COMPLETED (PJSIP_EVENT_TX_MSG td)) w' ->
     Q tt w') ->
  wp (uas_final_3xx t td (PJSIP_EVENT_TX_MSG td)) Q w.
Proof.
  intros Hq H Hpt Hd Hcs Hm HQ. unfold uas_final_3xx, uas_final_timeout, final_timeout in *. wbind.
  eapply view_cancel_rt; [done|]. intros _ w1 H1. wbind. eapply view_save_last_tx; [done|].
  set (x2 := x <| last_tx := Some td |>). intros o2 w2 H2. wbind. eapply view_get; [done|].
  wbind. apply wp_ask. rewrite (av_settings _ _ _ _ _ _ _ _ _ H2). wbind.
  change (method x2) with (method x). change (is_reliable x2) with (is_reliable x).
  eapply view_restart; [done|]. intros w3 H3. wbind. eapply view_get; [done|].
  change (is_reliable x2) with (is_reliable x). wbind.
  assert (Hend : forall c w4, at_view t ds s n (x2 <| retransmit_count := c |>)
     (if bool_decide (m_id (method x) = PJSIP_INVITE_METHOD) && negb (is_reliable x)
      then Some (PJ_TIME_VAL_ADD n (t1_timer_val s)) else None)
     (Some (PJ_TIME_VAL_ADD n (if bool_decide (m_id (method x) = PJSIP_INVITE_METHOD)
        || negb (is_reliable x) then timeout_timer_val s else zero_time))) (o ++ o2) w4 ->
    wp (tsx_set_state t PJSIP_TSX_STATE_COMPLETED (PJSIP_EVENT_TX_MSG td) 0) Q w4).
  { intros c w4 H4. eapply view_set_state; [done|done|done|done|exact H4|]. intros w5 H5.
    by apply (HQ c o2). }
  assert (Hsame : x2 = x2 <| retransmit_count := retransmit_count x2 |>) by by destruct x.
  apply wp_when; intros Hrel; rewrite Hrel in *.
  - wbind. eapply wp_get_td; [by rewrite (av_tds _ _ _ _ _ _ _ _ _ H3)|]. wbind.
    eapply wp_from_option; [done|]. rewrite Hm. apply wp_when; intros Hi; rewrite Hi in *.
    + eapply view_start_retransmit; [done..|]. intros w4 H4. by eapply Hend.
    + apply (Hend (retransmit_count x2)). by rewrite <- Hsame.
  - apply (Hend (retransmit_count x2)). rewrite <- Hsame.
    rewrite andb_false_r, orb_false_r in *. done.
Qed.


End Table.
