(* ===== verification/TsxDemo.v ===== *)
(** * SIP transactions: instances

    The layer over the timer heap and the hash table of pjlib, an environment
    in which every transmission succeeds, and the theorems of the transaction
    files applied to it. *)

From S2P Require Import Prelude Monad TimeVal Timer TimerSpec Hash PjString TsxData TsxEnv Tsx TsxApi.
From S2P Require Import TsxInv TsxProofs TsxSend TsxHandlers TsxCreate.
From S2P Require Import TsxSpec TsxFlowSpec TsxKeys.
Local Open Scope Z_scope.

(** ** The environment *)

#[local] Instance demo_timers : TimerService timer_world := heap_service None None.

Definition invite : pjsip_method := mk_method PJSIP_INVITE_METHOD [73].
Definition ack : pjsip_method := mk_method PJSIP_ACK_METHOD [65].
Definition options : pjsip_method := mk_method PJSIP_OPTIONS_METHOD [79].

(** "z9hG4bK" and a number. *)
Definition demo_branch (n : Z) : list Z := PJSIP_RFC3261_BRANCH_ID ++ [n].

Definition demo_td (msg : pjsip_msg) (m : pjsip_method) : pjsip_tx_data :=
  mk_tx_data (Some msg) (Some (mk_cseq_hdr 1 m)) (Some (mk_via_hdr [97] 5060 (demo_branch 49)))
    false None 16.

#[local] Instance demo_env : TsxEnv timer_world pj_hash_table_t := {|
  on_rx_response _ := Some (fun _ w => w);
  on_tsx_state _ := Some (fun _ _ _ w => w);
  transport_send _ _ _ := PJ_SUCCESS;
  send_request_stateless _ _ := (PJ_SUCCESS, false, [mk_send_notify (Some 9%nat) 300 false]);
  send_response_stateless _ _ := (PJ_SUCCESS, false, [mk_send_notify (Some 9%nat) 300 false]);
  create_ack _ _ _ := (PJ_SUCCESS, 77%nat, demo_td (PJSIP_REQUEST_MSG ack) ack);
  get_request_dest _ _ := (PJ_SUCCESS, false);
  get_response_addr _ _ := (PJ_SUCCESS, Some 9%nat, 16, false);
  tp_reliable _ := false;
  tp_down _ _ := false;
  unique_string _ := [49; 50]
|}.

#[local] Abbreviation W := (tsx_world timer_world pj_hash_table_t).

Lemma demo_quiet : quiet.
Proof. done. Qed.

Lemma demo_env_ok : env_ok demo_env.
Proof.
  split; cbn.
  - intros u cb rdata w [= <-] HI. split; [by apply evolves_refl|apply keeps_alive_refl].
  - intros u cb t src prev w [= <-] HI. split; [by apply evolves_refl|apply keeps_alive_refl].
  - intros w td. by repeat constructor.
  - intros w td. by repeat constructor.
  - intros w td rdata. by split; eexists.
Qed.

(** ** Worlds *)

(** No transaction; message 1 is an INVITE, 2 a 200 response. *)
Definition demo_w0 : W :=
  mk_tsx_world ∅
    {[1%nat := demo_td (PJSIP_REQUEST_MSG invite) invite;
      2%nat := demo_td (PJSIP_RESPONSE_MSG 200 []) invite]}
    (demo_world 8) demo_table (mk_time_val 5 0) default_tsx_timers 0 true [].

Definition run_demo (w : W) (op : tsx_op timer_world) : W :=
  match run_op op w with Some (_, w') => w' | None => w end.

Definition demo_al : tsx_alloc := mk_tsx_alloc 5 true (PJ_SUCCESS, 4%nat) PJ_SUCCESS.
Definition op_uac : tsx_op timer_world := OpCreateUac (Some 6%nat) 1 None demo_al.
Definition op_send : tsx_op timer_world := OpSendMsg 5 (Some 1%nat).
Definition op_end : tsx_op timer_world := OpTerminate 5 487.

Definition demo_w1 : W := run_demo demo_w0 op_uac.
Definition demo_w2 : W := run_demo demo_w1 op_send.
Definition demo_w3 : W := run_demo demo_w2 op_end.

Definition demo_x (w : W) : pjsip_transaction := default (tsx_zalloc None 0) (tsxs w !! 5%nat).

Example demo_states :
  (state (demo_x demo_w1), state (demo_x demo_w2), state (demo_x demo_w3)) =
  (PJSIP_TSX_STATE_NULL, PJSIP_TSX_STATE_CALLING, PJSIP_TSX_STATE_TERMINATED).
Proof. vm_compute. reflexivity. Qed.

Lemma demo_timers_ok : heap_service_ok None (demo_world 8).
Proof.
  split; [apply demo_ok|]. split; [|done]. apply map_Forall_singleton. done.
Qed.

Lemma demo_w0_inv : layer_inv demo_w0.
Proof.
  destruct (empty_inv true 16 15) as [Hinv Hc]; [lia..|]. split.
  - split; cbn.
    + apply demo_timers_ok.
    + apply (demo_table_inv true).
    + lia.
    + apply map_Forall_insert_2; [by split; eexists|]. apply map_Forall_singleton.
      by split; eexists.
    + apply map_Forall_empty.
    + intros k t Hk. exfalso. change (contents true demo_table !! k = Some t) in Hk.
      change demo_table with (mk_hash_table (replicate 16 []) 0 15) in Hk.
      cbv zeta in Hc. by rewrite Hc in Hk.
  - intros t x Hx. done.
Qed.

(** A literal key, once computed. *)
Ltac demo_key_tac :=
  match goal with |- key_ok _ ?k =>
    let k' := eval vm_compute in k in change (key_ok true k') end; key_ok_tac.

Lemma demo_uac_key w' :
  kt_key (KeyTable := lower_table)
    (uac_key w' (demo_td (PJSIP_REQUEST_MSG invite) invite) invite).
Proof.
  split; [|by vm_compute]. demo_key_tac.
Qed.

Lemma op_uac_ok : op_ok demo_w0 op_uac.
Proof.
  split; [done|]. exists (demo_td (PJSIP_REQUEST_MSG invite) invite), invite, (mk_cseq_hdr 1 invite).
  split; [done|]. split; [done|]. split; [done|]. apply demo_uac_key.
Qed.

Lemma demo_live (w : W) x : tsxs w !! 5%nat = Some x -> state_handler x <> None -> live_tsx w 5 x.
Proof. by split. Qed.

Lemma op_send_ok : op_ok demo_w1 op_send.
Proof.
  exists (demo_x demo_w1). split; [by apply demo_live; vm_compute|].
  split; [|by vm_compute]. intros td [= <-]. vm_compute. by eexists.
Qed.

Lemma op_end_ok : op_ok demo_w2 op_end.
Proof. exists (demo_x demo_w2). by apply demo_live; vm_compute. Qed.

Lemma run_12 : tsx_run demo_w0 [op_uac; op_send] demo_w2.
Proof.
  eapply (tsx_run_cons _ _ demo_w1); [apply op_uac_ok|by vm_compute|].
  eapply (tsx_run_cons _ _ demo_w2); [apply op_send_ok|by vm_compute|]. apply tsx_run_nil.
Qed.

Lemma run_3 : tsx_run demo_w1 [op_send; op_end] demo_w3.
Proof.
  eapply (tsx_run_cons _ _ demo_w2); [apply op_send_ok|by vm_compute|].
  eapply (tsx_run_cons _ _ demo_w3); [apply op_end_ok|by vm_compute|]. apply tsx_run_nil.
Qed.

Lemma demo_w1_inv : layer_inv demo_w1.
Proof.
  eapply (layer_evolves demo_w0); [apply demo_w0_inv|].
  apply (run_evolves demo_env_ok _ [op_uac]); [apply demo_w0_inv|].
  eapply (tsx_run_cons _ _ demo_w1); [apply op_uac_ok|by vm_compute|]. apply tsx_run_nil.
Qed.

Lemma demo_w3_inv : layer_inv demo_w3.
Proof.
  eapply (layer_evolves demo_w1); [apply demo_w1_inv|].
  apply (run_evolves demo_env_ok _ [op_send; op_end]); [apply demo_w1_inv|apply run_3].
Qed.

(** ** The layer *)


Lemma tsx_run_timer_witness :
  (exists expiry, ts_armed (timers demo_w3) !! timeout_timer 5 = Some expiry) /\
  (state_le PJSIP_TSX_STATE_COMPLETED (state (demo_x demo_w3)) ->
   ts_id (timers demo_w3) !! timeout_timer 5 = Some TIMEOUT_TIMER).
Proof.
  apply (tsx_run_timer demo_env_ok demo_w1 [op_send; op_end] demo_w3 5 (demo_x demo_w3)).
  - apply demo_w1_inv.
  - apply run_3.
  - by apply demo_live; vm_compute.
  - right. right. left. by vm_compute.
Defined.

Lemma tsx_run_monotone_witness :
  exists y, live_tsx demo_w3 5 y /\ role y = role (demo_x demo_w1) /\
    method y = method (demo_x demo_w1) /\
    transaction_key y = transaction_key (demo_x demo_w1) /\
    state_le (state (demo_x demo_w1)) (state y) /\
    (transport_err (demo_x demo_w1) <> 0 -> transport_err y <> 0).
Proof.
  apply (tsx_run_monotone demo_env_ok demo_w1 [op_send; op_end] demo_w3 5 (demo_x demo_w1)).
  - apply demo_w1_inv.
  - apply run_3.
  - by apply demo_live; vm_compute.
Defined.

Lemma create_uac_registers_witness :
  exists st w' wk, pjsip_tsx_create_uac2 (Some 6%nat) 1 None demo_al demo_w0 = Some (st, w') /\
    layer_inv w' /\
    let k := kt_canon (uac_key wk (demo_td (PJSIP_REQUEST_MSG invite) invite) invite) in
    (st <> PJ_SUCCESS -> kt_map (htable w') = kt_map (htable demo_w0)) /\
    (st = PJ_SUCCESS -> kt_map (htable demo_w0) !! k = None /\
       kt_map (htable w') = <[k := 5%nat]> (kt_map (htable demo_w0)) /\
       exists x, live_tsx w' 5 x /\ role x = PJSIP_ROLE_UAC /\ method x = invite /\
         state x = PJSIP_TSX_STATE_NULL /\ last_tx x = Some 1%nat /\
         transaction_key x = uac_key wk (demo_td (PJSIP_REQUEST_MSG invite) invite) invite).
Proof.
  apply (create_uac_registers demo_w0 (Some 6%nat) 1 None demo_al
    (demo_td (PJSIP_REQUEST_MSG invite) invite) invite (mk_cseq_hdr 1 invite)).
  - apply demo_w0_inv.
  - done.
  - reflexivity.
  - reflexivity.
  - reflexivity.
  - apply demo_uac_key.
Defined.

(** A received OPTIONS request. *)
Definition demo_rx (msg : pjsip_msg) (m : pjsip_method) : pjsip_rx_data :=
  mk_rx_data 8 (Some msg) (Some (mk_via_hdr [97] 5060 (demo_branch 50)))
    (Some (mk_cseq_hdr 1 m)) (Some [102]) (Some [103]).

Definition demo_key : list Z :=
  (create_tsx_key_3261 PJSIP_ROLE_UAS options (demo_branch 50)).2.

Lemma create_uas_registers_witness :
  exists st w', pjsip_tsx_create_uas2 (Some 6%nat) (demo_rx (PJSIP_REQUEST_MSG options) options)
      None demo_al demo_w0 = Some (st, w') /\ layer_inv w' /\
    (st <> PJ_SUCCESS -> kt_map (htable w') = kt_map (htable demo_w0)) /\
    (st = PJ_SUCCESS -> kt_map (htable demo_w0) !! kt_canon demo_key = None /\
       kt_map (htable w') = <[kt_canon demo_key := 5%nat]> (kt_map (htable demo_w0)) /\
       exists x, live_tsx w' 5 x /\ role x = PJSIP_ROLE_UAS /\ method x = options /\
         state x = PJSIP_TSX_STATE_NULL /\ transaction_key x = demo_key).
Proof.
  apply (create_uas_registers demo_w0 (Some 6%nat) (demo_rx (PJSIP_REQUEST_MSG options) options)
    None demo_al options (mk_cseq_hdr 1 options) (mk_via_hdr [97] 5060 (demo_branch 50))
    PJ_SUCCESS 13 demo_key).
  - apply demo_w0_inv.
  - done.
  - reflexivity.
  - reflexivity.
  - reflexivity.
  - vm_compute. reflexivity.
  - intros _. split; [|by vm_compute]. demo_key_tac.
Defined.

(** The timer heap after the timeout timer of transaction 5 was removed. *)
Definition demo_tw : timer_world :=
  match ts_cancel (timers demo_w3) (timeout_timer 5) TIMEOUT_TIMER with
  | Some (_, tw) => tw
  | None => timers demo_w3
  end.

Lemma op_expire_ok : op_ok demo_w3 (OpTimer (timeout_timer 5) demo_tw).
Proof.
  assert (Har : is_Some (ts_armed (timers demo_w3) !! timeout_timer 5)) by (vm_compute; by eexists).
  split; [exact Har|].
  destruct (ts_cancel_ok (timers demo_w3) (timeout_timer 5) TIMEOUT_TIMER) as (tw & Hc & Hok & Ha & Hi).
  { apply demo_w3_inv. }
  { vm_compute. by eexists. }
  assert (demo_tw = tw) as -> by (unfold demo_tw; by rewrite Hc).
  rewrite bool_decide_eq_true_2 in Hi by done. split; [done|]. split; [done|].
  split; [rewrite Hi; apply insert_id; by vm_compute|].
  exists (demo_x demo_w3). split; [by split; vm_compute|]. by vm_compute.
Qed.

Lemma tsx_terminated_destroyed_witness :
  exists w', run_op (OpTimer (timeout_timer 5) demo_tw) demo_w3 = Some (tt, w') /\ layer_inv w' /\
    gone w' 5 (transaction_key (demo_x demo_w3)).
Proof.
  apply (tsx_terminated_destroyed demo_env_ok demo_w3 5 (demo_x demo_w3) demo_tw).
  - apply demo_w3_inv.
  - by apply demo_live; vm_compute.
  - vm_compute. reflexivity.
  - apply op_expire_ok.
Defined.

(** ** The transition table *)

(** Transaction 5 in a given state, over transport 9, with its timers idle. *)
Definition demo_tsx (r : pjsip_role_e) (m : pjsip_method) (st : pjsip_tsx_state_e)
    (code : Z) : pjsip_transaction :=
  (tsx_zalloc (Some 6%nat) 4) <| role := r |> <| method := m |> <| state := st |>
    <| state_handler := handler_of r st |> <| status_code := code |>
    <| transport := Some 9%nat |> <| last_tx := Some 2%nat |>.

Definition demo_msgs : gmap nat pjsip_tx_data := tdatas demo_w0.

Definition demo_vw (x : pjsip_transaction) : W :=
  mk_tsx_world {[5%nat := x]} demo_msgs (ts_new (ts_new (demo_world 8) 10) 11) demo_table
    (mk_time_val 5 0) default_tsx_timers 0 true [].

Lemma demo_view x :
  at_view 5 demo_msgs default_tsx_timers (mk_time_val 5 0) x None None [] (demo_vw x).
Proof.
  destruct (ts_new_ok (TimerService := demo_timers) (demo_world 8) 10 demo_timers_ok)
    as (K1 & _ & I1); [done|].
  destruct (ts_new_ok (TimerService := demo_timers) (ts_new (demo_world 8) 10) 11 K1)
    as (K2 & _); [by vm_compute|].
  by split.
Qed.

Lemma demo_can_send x :
  transport x = Some 9%nat -> TSX_HAS_PENDING_TRANSPORT (transport_flag x) = false ->
  can_send x demo_msgs 9 2.
Proof. intros H1 H2. split; try done. by eexists. Qed.

Lemma uas_ack_confirms_witness :
  let x := demo_tsx PJSIP_ROLE_UAS invite PJSIP_TSX_STATE_COMPLETED 486 in
  let ev := PJSIP_EVENT_RX_MSG (demo_rx (PJSIP_REQUEST_MSG ack) ack) in
  wp (tsx_dispatch 5 ev) (fun st w' =>
    st = PJ_SUCCESS /\
    at_view 5 demo_msgs default_tsx_timers (mk_time_val 5 0)
      (set_state_of PJSIP_TSX_STATE_CONFIRMED (no_resched x)) None
      (Some (PJ_TIME_VAL_ADD (mk_time_val 5 0) (mk_time_val 5 0)))
      ([] ++ notified 5 x (state x) PJSIP_TSX_STATE_CONFIRMED ev) w') (demo_vw x).
Proof.
  intros x ev.
  apply (uas_ack_confirms 5 demo_msgs default_tsx_timers (mk_time_val 5 0) x None None []
    (demo_rx (PJSIP_REQUEST_MSG ack) ack) ack).
  - apply demo_quiet.
  - apply demo_view.
  - reflexivity.
  - reflexivity.
  - reflexivity.
  - reflexivity.
Defined.

Lemma uac_success_response_witness :
  let x := demo_tsx PJSIP_ROLE_UAC invite PJSIP_TSX_STATE_CALLING 0 in
  let rdata := demo_rx (PJSIP_RESPONSE_MSG 200 []) invite in
  wp (tsx_dispatch 5 (PJSIP_EVENT_RX_MSG rdata)) (fun _ =>
    uac_succeeded 5 demo_msgs default_tsx_timers (mk_time_val 5 0) x [] rdata 200) (demo_vw x).
Proof.
  intros x rdata.
  apply (uac_success_response 5 demo_msgs default_tsx_timers (mk_time_val 5 0) x None None []
    rdata 200 [] tsx_on_state_calling_h).
  - apply demo_quiet.
  - apply demo_view.
  - reflexivity.
  - reflexivity.
  - by left.
  - reflexivity.
  - reflexivity.
  - lia.
Defined.

Lemma timeout_terminates_witness :
  let x := demo_tsx PJSIP_ROLE_UAC invite PJSIP_TSX_STATE_CALLING 0 in
  wp (tsx_dispatch 5 (PJSIP_EVENT_TIMER (timeout_timer 5))) (fun _ w' => exists y,
    at_view 5 demo_msgs default_tsx_timers (mk_time_val 5 0) y None
      (Some (PJ_TIME_VAL_ADD (mk_time_val 5 0) zero_time))
      ([] ++ notified 5 x (state x) PJSIP_TSX_STATE_TERMINATED
              (PJSIP_EVENT_TIMER (timeout_timer 5))) w' /\
    state y = PJSIP_TSX_STATE_TERMINATED /\ status_code y = 408) (demo_vw x).
Proof.
  intros x.
  apply (timeout_terminates 5 demo_msgs default_tsx_timers (mk_time_val 5 0) x None None []
    tsx_on_state_calling_h).
  - apply demo_quiet.
  - apply demo_view.
  - reflexivity.
  - by left.
  - reflexivity.
Defined.

Lemma retransmit_timer_resends_witness :
  let x := demo_tsx PJSIP_ROLE_UAC invite PJSIP_TSX_STATE_CALLING 0 in
  let y := x <| retransmit_count := s32 (retransmit_count x + 1) |> in
  let msec := resched_msec (tsx_config default_tsx_timers) y in
  wp (tsx_dispatch 5 (PJSIP_EVENT_TIMER (retransmit_timer 5))) (fun st w' =>
    st = PJ_SUCCESS /\
    at_view 5 demo_msgs default_tsx_timers (mk_time_val 5 0) y
      (if msec =? 0 then None
       else Some (PJ_TIME_VAL_ADD (mk_time_val 5 0) (msec_val msec))) None
      ([] ++ [OutAddRef (RefLock (grp_lock x)); OutTransportSend 9 2;
              OutDecRef (RefLock (grp_lock x))]) w') (demo_vw x).
Proof.
  intros x.
  apply (retransmit_timer_resends 5 demo_msgs default_tsx_timers (mk_time_val 5 0) x None []
    tsx_on_state_calling_h 9 2).
  - apply demo_view.
  - reflexivity.
  - by left.
  - reflexivity.
  - by apply demo_can_send.
Defined.

Lemma uas_resends_response_witness :
  let x := demo_tsx PJSIP_ROLE_UAS invite PJSIP_TSX_STATE_COMPLETED 486 in
  wp (tsx_dispatch 5 (PJSIP_EVENT_RX_MSG (demo_rx (PJSIP_REQUEST_MSG invite) invite)))
    (fun st w' => st = PJ_SUCCESS /\ exists y,
       at_view 5 demo_msgs default_tsx_timers (mk_time_val 5 0) y None None
         ([] ++ [OutAddRef (RefLock (grp_lock x)); OutTransportSend 9 2;
                 OutDecRef (RefLock (grp_lock x))]) w' /\
       state y = state x /\ status_code y = status_code x /\ last_tx y = last_tx x)
    (demo_vw x).
Proof.
  intros x.
  apply (uas_resends_response 5 demo_msgs default_tsx_timers (mk_time_val 5 0) x None None []
    tsx_on_state_completed_uas_h 9 2 (demo_rx (PJSIP_REQUEST_MSG invite) invite) invite).
  - apply demo_view.
  - reflexivity.
  - by right.
  - reflexivity.
  - by apply demo_can_send.
  - reflexivity.
  - done.
Defined.


(** ** Keys and schedules *)

Lemma utoa_decimal_witness :
  decimal (pj_utoa 5060) = 5060 /\ Forall is_digit (pj_utoa 5060) /\
  1 <= slen (pj_utoa 5060) <= 20.
Proof. apply (utoa_decimal 5060). lia. Defined.

Lemma key_2543_fits_witness :
  let rdata := demo_rx (PJSIP_REQUEST_MSG options) options in
  slen (default (0, 0, []) (create_tsx_key_2543 PJSIP_ROLE_UAS options rdata)).2 <= 42.
Proof.
  intros rdata.
  apply (key_2543_fits PJSIP_ROLE_UAS options rdata (mk_cseq_hdr 1 options)
    (mk_via_hdr [97] 5060 (demo_branch 50))).
  - reflexivity.
  - reflexivity.
  - cbn. lia.
  - cbn. lia.
  - vm_compute. reflexivity.
Defined.

Lemma key_3261_injective_witness :
  ci_eq (create_tsx_key_3261 PJSIP_ROLE_UAS invite (demo_branch 49)).2
        (create_tsx_key_3261 PJSIP_ROLE_UAS ack (demo_branch 49)).2 <->
  PJSIP_ROLE_UAS = PJSIP_ROLE_UAS /\ same_kind invite ack /\ ci_eq (demo_branch 49) (demo_branch 49).
Proof.
  apply (key_3261_injective PJSIP_ROLE_UAS PJSIP_ROLE_UAS invite ack (demo_branch 49) (demo_branch 49)).
  - split; [cbn; rewrite list_elem_of_singleton; done|done].
  - split; [cbn; rewrite list_elem_of_singleton; done|done].
  - reflexivity.
  - reflexivity.
Defined.

(** With T1 = 500 ms the sixth retransmission of an INVITE comes after 31.5 s. *)
Lemma client_retransmit_schedule_witness :
  retransmit_time (tsx_config default_tsx_timers)
    (demo_tsx PJSIP_ROLE_UAC invite PJSIP_TSX_STATE_CALLING 0) 6 = (2 ^ 6 - 1) * 500.
Proof.
  apply (client_retransmit_schedule (tsx_config default_tsx_timers)
    (demo_tsx PJSIP_ROLE_UAC invite PJSIP_TSX_STATE_CALLING 0) 6).
  - reflexivity.
  - cbn. lia.
  - cbn. unfold PJSIP_T1_TIMEOUT. lia.
  - lia.
  - cbn. unfold PJSIP_T1_TIMEOUT. lia.
Defined.
