(* ===== verification/Base64.v ===== *)
(** * Base64

    Encoding and decoding of [pjlib-util/base64.c].  A text is the list of
    its character codes; [INV] marks a character outside the alphabet. *)

From S2P Require Import Prelude Bytes.
Local Open Scope Z_scope.

(** ** Definitions *)

Definition INV : Z := -1.
Definition PADDING : Z := 61.

Definition base64_char : list Z :=
  (Z.of_nat <$> seq 65 26) ++ (Z.of_nat <$> seq 97 26) ++ (Z.of_nat <$> seq 48 10)
  ++ [43; 47].

Definition base256_char (c : Z) : Z :=
  if (65 <=? c) && (c <=? 90) then c - 65
  else if (97 <=? c) && (c <=? 122) then c - 97 + 26
  else if (48 <=? c) && (c <=? 57) then c - 48 + 52
  else if c =? 43 then 62
  else if c =? 47 then 63
  else INV.

(** The four characters written for one to three bytes. *)
Definition base256to64 (c1 c2 c3 padding : Z) : option (list Z) :=
  o1 ← zlookup base64_char (Z.shiftr c1 2);
  o2 ← zlookup base64_char
         (Z.lor (Z.shiftl (Z.land c1 3) 4) (Z.shiftr (Z.land c2 240) 4));
  o3 ← (if (padding =? 0) || (padding =? 1)
        then zlookup base64_char
               (Z.lor (Z.shiftl (Z.land c2 15) 2) (Z.shiftr (Z.land c3 192) 6))
        else Some PADDING);
  o4 ← (if padding =? 0 then zlookup base64_char (Z.land c3 63) else Some PADDING);
  Some [o1; o2; o3; o4].

(** The macros of base64.h, on 32-bit integers. *)
Definition PJ_BASE256_TO_BASE64_LEN (len : Z) : Z := s32 (Z.quot (s32 (len * 4)) 3 + 3).
Definition PJ_BASE64_TO_BASE256_LEN (len : Z) : Z := Z.quot (s32 (len * 3)) 4.

Fixpoint encode_loop (input : list Z) : option (list Z) :=
  match input with
  | [] => Some []
  | [c1] => base256to64 c1 0 0 2
  | [c1; c2] => base256to64 c1 c2 0 1
  | c1 :: c2 :: c3 :: rest =>
      o ← base256to64 c1 c2 c3 0;
      l ← encode_loop rest;
      Some (o ++ l)
  end.

(** The status, the bytes written to [output]; their number is [*out_len]. *)
Definition pj_base64_encode (input : list Z) (out_len : Z) : option (Z * list Z) :=
  if negb (PJ_BASE256_TO_BASE64_LEN (Z.of_nat (length input)) <=? out_len)
  then Some (PJ_ETOOSMALL, [])
  else o ← encode_loop input; Some (PJ_SUCCESS, o).

(** The trailing ['='] are skipped. *)
Fixpoint strip (l : list Z) : list Z :=
  match l with
  | [] => []
  | c :: l => if (c =? PADDING) && bool_decide (strip l = []) then [] else c :: strip l
  end.

(** [do c[k] = base256_char(buf[i++]); while (c[k]==INV && i<len)]. *)
Fixpoint read_char (l : list Z) : option (Z * list Z) :=
  match l with
  | [] => None
  | c :: l =>
      let v := base256_char c in
      if (v =? INV) && bool_decide (l <> []) then read_char l else Some (v, l)
  end.

(** [for (k=0; k<4 && i<len; ++k)]. *)
Fixpoint fill (n : nat) (l : list Z) : option (list Z * list Z) :=
  match n, l with
  | O, _ | _, [] => Some ([], l)
  | S n, _ =>
      r ← read_char l;
      let '(v, l) := r : Z * list Z in
      r ← fill n l;
      let '(c, l) := r : list Z * list Z in
      Some (v :: c, l)
  end.

Definition out0 (c0 c1 : Z) : Z := u8 (Z.lor (Z.shiftl c0 2) (Z.shiftr (Z.land c1 48) 4)).
Definition out1 (c1 c2 : Z) : Z :=
  u8 (Z.lor (Z.shiftl (Z.land c1 15) 4) (Z.shiftr (Z.land c2 60) 2)).
Definition out2 (c2 c3 : Z) : Z := u8 (Z.lor (Z.shiftl (Z.land c2 3) 6) (Z.land c3 63)).

Fixpoint decode_loop (fuel : nat) (l : list Z) : option (list Z) :=
  match l with
  | [] => Some []
  | _ =>
      match fuel with
      | O => None
      | S fuel =>
          r ← fill 4 l;
          let '(c, l) := r : list Z * list Z in
          match c with
          | [c0; c1; c2; c3] =>
              o ← decode_loop fuel l;
              Some (out0 c0 c1 :: out1 c1 c2 :: out2 c2 c3 :: o)
          | [c0; c1; c2] => Some [out0 c0 c1; out1 c1 c2]
          | [c0; c1] => Some [out0 c0 c1]
          | _ => Some []
          end
      end
  end.

Definition pj_base64_decode (input : list Z) (out_len : Z) : option (Z * list Z) :=
  let buf := strip input in
  if negb (PJ_BASE64_TO_BASE256_LEN (Z.of_nat (length buf)) <=? out_len)
  then Some (PJ_ETOOSMALL, [])
  else o ← decode_loop (length buf) buf; Some (PJ_SUCCESS, o).

(** ** One group of characters *)

Lemma char_sextet v :
  0 <= v < 64 -> exists c, zlookup base64_char v = Some c /\ base256_char c = v /\ c <> PADDING.
Proof.
  intros Hv.
  assert (H : forall b, is_byte b -> (if b <? 64 then
    match zlookup base64_char b with
    | Some c => (base256_char c =? b) && negb (c =? PADDING) | None => false end else true) = true)
    by (apply byte_check; vm_compute; reflexivity).
  specialize (H v). unfold is_byte in H. rewrite (proj2 (Z.ltb_lt v 64)) in H by lia.
  destruct (zlookup base64_char v) as [c|]; [|by discriminate H; lia].
  specialize (H ltac:(lia)). apply andb_true_iff in H as [H1 H2]. exists c.
  apply Z.eqb_eq in H1. apply negb_true_iff, Z.eqb_neq in H2. done.
Qed.

Definition sextet0 (b1 : Z) : Z := Z.shiftr b1 2.
Definition sextet1 (b1 b2 : Z) : Z :=
  Z.lor (Z.shiftl (Z.land b1 3) 4) (Z.shiftr (Z.land b2 240) 4).
Definition sextet2 (b2 b3 : Z) : Z :=
  Z.lor (Z.shiftl (Z.land b2 15) 2) (Z.shiftr (Z.land b3 192) 6).
Definition sextet3 (b3 : Z) : Z := Z.land b3 63.

Definition in64 (v : Z) : bool := (0 <=? v) && (v <? 64).

Lemma in64_spec v : in64 v = true -> 0 <= v < 64.
Proof. intros [H1%Z.leb_le H2%Z.ltb_lt]%andb_true_iff. done. Qed.

(** What the decoder computes back, as finite checks on pairs of bytes. *)
Lemma sextets_check b1 b2 : is_byte b1 -> is_byte b2 ->
  in64 (sextet0 b1) && in64 (sextet1 b1 b2) && in64 (sextet2 b1 b2) && in64 (sextet3 b1)
  && (out0 (sextet0 b1) (sextet1 b1 b2) =? b1)
  && (Z.land (sextet1 b1 b2) 15 =? Z.shiftr (Z.land b2 240) 4)
  && (Z.shiftr (Z.land (sextet2 b1 b2) 60) 2 =? Z.land b1 15)
  && (Z.land (sextet2 b1 b2) 3 =? Z.shiftr (Z.land b2 192) 6) = true.
Proof. revert b1 b2. apply byte_check2. vm_compute. reflexivity. Qed.

Lemma halves_check b : is_byte b ->
  (u8 (Z.lor (Z.shiftl (Z.shiftr (Z.land b 240) 4) 4) (Z.land b 15)) =? b)
  && (u8 (Z.lor (Z.shiftl (Z.shiftr (Z.land b 192) 6) 6) (Z.land (sextet3 b) 63)) =? b) = true.
Proof. revert b. apply byte_check. vm_compute. reflexivity. Qed.

Record sextets_ok (b1 b2 b3 : Z) : Prop := mk_sextets_ok {
  so_range : Forall (fun v => 0 <= v < 64)
               [sextet0 b1; sextet1 b1 b2; sextet2 b2 b3; sextet3 b3];
  so_out0 : out0 (sextet0 b1) (sextet1 b1 b2) = b1;
  so_out1 : out1 (sextet1 b1 b2) (sextet2 b2 b3) = b2;
  so_out2 : out2 (sextet2 b2 b3) (sextet3 b3) = b3
}.

Lemma sextets_spec b1 b2 b3 : is_byte b1 -> is_byte b2 -> is_byte b3 -> sextets_ok b1 b2 b3.
Proof.
  intros H1 H2 H3.
  pose proof (sextets_check b1 b2 H1 H2) as Ha. pose proof (sextets_check b2 b3 H2 H3) as Hb.
  pose proof (sextets_check b3 b3 H3 H3) as Hc.
  pose proof (halves_check b2 H2) as Hd. pose proof (halves_check b3 H3) as He.
  repeat match goal with
  | H : (_ && _)%bool = true |- _ => apply andb_true_iff in H; destruct H
  | H : in64 _ = true |- _ => apply in64_spec in H
  | H : Z.eqb _ _ = true |- _ => apply Z.eqb_eq in H end.
  constructor; [by do 4 (apply Forall_cons; split; [done|])|done| |]; [unfold out1|unfold out2]; congruence.
Qed.

(** ** Texts as sequences of sextets *)

Definition valid (c : Z) : Prop := base256_char c <> INV.

#[export] Instance valid_dec c : Decision (valid c).
Proof. unfold valid. apply _. Defined.

Definition vals (l : list Z) : list Z := base256_char <$> filter valid l.

(** The sextets of a byte string, and back. *)
Fixpoint sextets (l : list Z) : list Z :=
  match l with
  | [] => []
  | [b1] => [sextet0 b1; sextet1 b1 0]
  | [b1; b2] => [sextet0 b1; sextet1 b1 b2; sextet2 b2 0]
  | b1 :: b2 :: b3 :: l =>
      sextet0 b1 :: sextet1 b1 b2 :: sextet2 b2 b3 :: sextet3 b3 :: sextets l
  end.

Fixpoint unsextets (l : list Z) : list Z :=
  match l with
  | c0 :: c1 :: c2 :: c3 :: l => out0 c0 c1 :: out1 c1 c2 :: out2 c2 c3 :: unsextets l
  | [c0; c1; c2] => [out0 c0 c1; out1 c1 c2]
  | [c0; c1] => [out0 c0 c1]
  | _ => []
  end.

(** Induction on a list three elements at a time. *)
Lemma list_ind3 {A} (P : list A -> Prop) :
  P [] -> (forall a, P [a]) -> (forall a b, P [a; b]) ->
  (forall a b c l, P l -> P (a :: b :: c :: l)) -> forall l, P l.
Proof.
  intros H0 H1 H2 H3. fix IH 1. intros [|a [|b [|c l]]]; [done..|]. apply H3, IH.
Qed.

Lemma zero_byte : is_byte 0.
Proof. unfold is_byte. lia. Qed.

Lemma unsextets_sextets l : Forall is_byte l -> unsextets (sextets l) = l.
Proof.
  induction l as [|a|a b|a b c l IH] using list_ind3; intros H;
    repeat match goal with H : Forall _ (_ :: _) |- _ => apply Forall_cons in H as [? H] end.
  - done.
  - destruct (sextets_spec a 0 0) as [_ E0 _ _]; [done|apply zero_byte..|]. cbn. by rewrite E0.
  - destruct (sextets_spec a b 0) as [_ E0 E1 _]; [done..|apply zero_byte|]. cbn. by rewrite E0, E1.
  - destruct (sextets_spec a b c) as [_ E0 E1 E2]; [done..|]. cbn. by rewrite E0, E1, E2, IH.
Qed.

(** ** Encoding *)

Lemma base256to64_spec c1 c2 c3 :
  is_byte c1 -> is_byte c2 -> is_byte c3 ->
  (exists o, base256to64 c1 c2 c3 0 = Some o /\ length o = 4%nat /\ vals o = sextets [c1; c2; c3]) /\
  (exists o, base256to64 c1 c2 0 1 = Some o /\ length o = 4%nat /\ vals o = sextets [c1; c2]) /\
  (exists o, base256to64 c1 0 0 2 = Some o /\ length o = 4%nat /\ vals o = sextets [c1]).
Proof.
  intros H1 H2 H3.
  assert (Hv : forall v, 0 <= v < 64 -> exists c, zlookup base64_char v = Some c /\
    forall l, vals (c :: l) = v :: vals l).
  { intros v Hv. destruct (char_sextet v Hv) as (c & Hc & Hb & _). exists c. split; [done|].
    intros l. unfold vals. rewrite filter_cons_True by (unfold valid; rewrite Hb; unfold INV; lia).
    cbn. by rewrite Hb. }
  assert (Hp : forall l, vals (PADDING :: l) = vals l) by done.
  repeat split.
  - destruct (sextets_spec c1 c2 c3) as [[? [? [? [? _]%Forall_cons]%Forall_cons]%Forall_cons]%Forall_cons _ _ _]; [done..|].
    destruct (Hv (sextet0 c1)) as (o0 & E0 & V0), (Hv (sextet1 c1 c2)) as (o1 & E1 & V1),
      (Hv (sextet2 c2 c3)) as (o2 & E2 & V2), (Hv (sextet3 c3)) as (o3 & E3 & V3); [done..|].
    exists [o0; o1; o2; o3]. unfold base256to64. cbn [orb Z.eqb].
    fold (sextet0 c1) (sextet1 c1 c2) (sextet2 c2 c3) (sextet3 c3). obind E0. obind E1.
    obind E2. obind E3. by rewrite V0, V1, V2, V3.
  - destruct (sextets_spec c1 c2 0) as [[? [? [? _]%Forall_cons]%Forall_cons]%Forall_cons _ _ _]; [done..|apply zero_byte|].
    destruct (Hv (sextet0 c1)) as (o0 & E0 & V0), (Hv (sextet1 c1 c2)) as (o1 & E1 & V1),
      (Hv (sextet2 c2 0)) as (o2 & E2 & V2); [done..|].
    exists [o0; o1; o2; PADDING]. unfold base256to64. cbn [orb Z.eqb].
    fold (sextet0 c1) (sextet1 c1 c2) (sextet2 c2 0). obind E0. obind E1.
    obind E2. by rewrite V0, V1, V2.
  - destruct (sextets_spec c1 0 0) as [[? [? _]%Forall_cons]%Forall_cons _ _ _]; [done|apply zero_byte..|].
    destruct (Hv (sextet0 c1)) as (o0 & E0 & V0), (Hv (sextet1 c1 0)) as (o1 & E1 & V1); [done..|].
    exists [o0; o1; PADDING; PADDING]. unfold base256to64. cbn [orb Z.eqb].
    fold (sextet0 c1) (sextet1 c1 0). obind E0. obind E1.
    by rewrite V0, V1.
Qed.

Lemma vals_app a b : vals (a ++ b) = vals a ++ vals b.
Proof. unfold vals. by rewrite filter_app, fmap_app. Qed.

(** The text has four characters for each group of three bytes. *)
Lemma encode_loop_spec l :
  Forall is_byte l ->
  exists o, encode_loop l = Some o /\ vals o = sextets l /\
    Z.of_nat (length o) = (Z.of_nat (length l) + 2) / 3 * 4.
Proof.
  induction l as [|a|a b|a b c l IH] using list_ind3; intros H;
    repeat match goal with H : Forall _ (_ :: _) |- _ => apply Forall_cons in H as [? H] end.
  - by exists [].
  - destruct (base256to64_spec a 0 0) as (_ & _ & o & E & L & V); [done|apply zero_byte..|].
    exists o. by rewrite L.
  - destruct (base256to64_spec a b 0) as (_ & (o & E & L & V) & _); [done..|apply zero_byte|].
    exists o. by rewrite L.
  - destruct (base256to64_spec a b c) as ((o & E & L & V) & _ & _); [done..|].
    destruct IH as (o' & E' & V' & L'); [done|]. exists (o ++ o'). cbn [encode_loop].
    rewrite E. ored. rewrite E'. ored. split; [done|]. rewrite vals_app, V, V', length_app, L.
    split; [done|]. cbn [length]. rewrite Nat2Z.inj_add, L'.
    replace (Z.of_nat (S (S (S (length l)))) + 2) with (Z.of_nat (length l) + 2 + 1 * 3) by lia.
    rewrite Z.div_add by lia. lia.
Qed.

(** ** Decoding *)

(** The last character is in the alphabet. *)
Definition ends_valid (l : list Z) : Prop := default True (valid <$> last l).

Lemma ends_valid_tail c l : ends_valid (c :: l) -> l <> [] -> ends_valid l.
Proof. by destruct l. Qed.

Lemma read_char_spec l :
  ends_valid l -> l <> [] ->
  exists v l', read_char l = Some (v, l') /\ vals l = v :: vals l' /\ ends_valid l' /\
    (length l' < length l)%nat.
Proof.
  induction l as [|c l IH]; [done|]. intros He _. cbn [read_char].
  destruct (Z.eqb_spec (base256_char c) INV) as [Hc|Hc]; cbn [andb].
  - assert (Hl : l <> []) by (intros ->; by destruct (He : valid c)).
    rewrite bool_decide_eq_true_2 by done.
    destruct IH as (v & l' & E & V & He' & L); [by eapply ends_valid_tail|done|].
    exists v, l'. split; [done|]. unfold vals in *. rewrite filter_cons_False by (unfold valid; tauto).
    cbn [length]. auto with lia.
  - exists (base256_char c), l. split; [done|]. unfold vals.
    rewrite filter_cons_True by done. split; [done|]. split; [|cbn; lia].
    destruct l; [done|]. by eapply ends_valid_tail.
Qed.

Lemma vals_nonempty l : ends_valid l -> l <> [] -> vals l <> [].
Proof. intros He Hl. by destruct (read_char_spec l He Hl) as (v & l' & _ & -> & _). Qed.

Lemma fill_spec n : forall l,
  ends_valid l ->
  exists l', fill n l = Some (take n (vals l), l') /\ vals l' = drop n (vals l) /\
    ends_valid l' /\ (length l' <= length l)%nat /\ (n <> 0%nat -> l <> [] -> length l' < length l)%nat.
Proof.
  induction n as [|n IH]; intros l He.
  { exists l. cbn [fill]. rewrite take_0, drop_0. destruct l; auto with lia. }
  destruct l as [|c l]; [by exists []|]. cbn [fill].
  destruct (read_char_spec (c :: l) He) as (v & l1 & E & V & He1 & L1); [done|].
  rewrite E. ored. destruct (IH l1 He1) as (l2 & E2 & V2 & He2 & L2 & _). rewrite E2. ored.
  exists l2. rewrite V. cbn [take drop]. split; [done|]. split; [done|]. split; [done|]. lia.
Qed.

(** The decoder computes [unsextets] of the characters of the alphabet. *)
Lemma decode_loop_spec fuel : forall l,
  ends_valid l -> (length l <= fuel)%nat -> decode_loop fuel l = Some (unsextets (vals l)).
Proof.
  induction fuel as [|fuel IH]; intros l He Hl.
  { destruct l; [done|cbn in Hl; lia]. }
  destruct l as [|c l]; [done|]. cbn [decode_loop].
  destruct (fill_spec 4 (c :: l) He) as (l' & E & V & He' & _ & L). rewrite E. ored.
  specialize (L ltac:(lia) ltac:(done)). specialize (IH l' He' ltac:(lia)). rewrite V in IH.
  destruct (vals (c :: l)) as [|c0 [|c1 [|c2 [|c3 r]]]]; try done.
  cbn [take]. rewrite IH. by cbn [drop].
Qed.

Lemma vals_strip l : vals (strip l) = vals l.
Proof.
  induction l as [|c l IH]; [done|]. cbn [strip].
  destruct (Z.eqb_spec c PADDING) as [->|_]; cbn [andb].
  - case_bool_decide as Hs.
    + rewrite Hs in IH. change (vals (PADDING :: l)) with (vals l). done.
    + change (vals (strip l) = vals l). done.
  - change (c :: strip l) with ([c] ++ strip l). change (c :: l) with ([c] ++ l).
    by rewrite !vals_app, IH.
Qed.

Lemma base256_len n : 0 <= n < 2 ^ 29 -> PJ_BASE256_TO_BASE64_LEN n = n * 4 / 3 + 3.
Proof.
  intros Hn. unfold PJ_BASE256_TO_BASE64_LEN. rewrite (s32_id (n * 4)) by (unfold is_s32; lia).
  rewrite Z.quot_div_nonneg by lia. apply s32_id. unfold is_s32.
  pose proof (Z.div_pos (n * 4) 3). assert (n * 4 / 3 < 2 ^ 31 - 3) by (apply Z.div_lt_upper_bound; lia).
  lia.
Qed.

Lemma base64_len n : 0 <= n < 2 ^ 29 -> PJ_BASE64_TO_BASE256_LEN n = n * 3 / 4.
Proof.
  intros Hn. unfold PJ_BASE64_TO_BASE256_LEN. rewrite (s32_id (n * 3)) by (unfold is_s32; lia).
  by apply Z.quot_div_nonneg; lia.
Qed.

(** ** Properties *)

(** encoding fits the buffer size asked for, and every text with
    the same characters of the alphabet in the same order (line breaks or
    other characters may be added anywhere but at the end, padding may be
    left out) decodes to the bytes encoded. *)
Theorem base64_roundtrip input out_len :
  Forall is_byte input -> Z.of_nat (length input) < 2 ^ 29 ->
  PJ_BASE256_TO_BASE64_LEN (Z.of_nat (length input)) <= out_len ->
  exists o, pj_base64_encode input out_len = Some (PJ_SUCCESS, o) /\
    Z.of_nat (length o) <= out_len /\
    forall text len, filter valid text = filter valid o -> ends_valid (strip text) ->
      PJ_BASE64_TO_BASE256_LEN (Z.of_nat (length (strip text))) <= len ->
      pj_base64_decode text len = Some (PJ_SUCCESS, input).
Proof.
  intros Hb Hn Hlen. destruct (encode_loop_spec input Hb) as (o & E & V & L). exists o.
  unfold pj_base64_encode, pj_base64_decode. rewrite (proj2 (Z.leb_le _ _) Hlen). cbn [negb].
  rewrite E. split; [done|]. split.
  { rewrite base256_len in Hlen by lia. rewrite L.
    pose proof (Z.div_mod (Z.of_nat (length input) + 2) 3).
    pose proof (Z.mod_pos_bound (Z.of_nat (length input) + 2) 3).
    pose proof (Z.div_mod (Z.of_nat (length input) * 4) 3).
    pose proof (Z.mod_pos_bound (Z.of_nat (length input) * 4) 3). lia. }
  intros text len Ht He Hl. rewrite (proj2 (Z.leb_le _ _) Hl). cbn [negb].
  rewrite decode_loop_spec by done. ored. rewrite vals_strip. unfold vals in V |- *.
  by rewrite Ht, V, unsextets_sextets.
Qed.

Lemma read_char_total l :
  l <> [] -> exists v l', read_char l = Some (v, l') /\ (length l' < length l)%nat.
Proof.
  induction l as [|c l IH]; [done|]. intros _. cbn [read_char].
  destruct ((base256_char c =? INV) && bool_decide (l <> [])) eqn:E; zbool.
  - destruct IH as (v & l' & -> & L); [done|]. exists v, l'. cbn. auto with lia.
  - exists (base256_char c), l. cbn. auto with lia.
Qed.

Lemma fill_total n : forall l,
  exists c l', fill n l = Some (c, l') /\ (length c <= n)%nat /\
    (length c + length l' <= length l)%nat.
Proof.
  induction n as [|n IH]; intros l.
  { exists [], l. destruct l; cbn; auto with lia. }
  destruct l as [|a l]; [by exists [], []; cbn; auto with lia|]. cbn [fill].
  destruct (read_char_total (a :: l)) as (v & l1 & -> & L1); [done|]. ored.
  destruct (IH l1) as (c & l2 & -> & L2 & L3). ored.
  exists (v :: c), l2. cbn [length] in *. auto with lia.
Qed.

Lemma out_bytes c0 c1 c2 c3 : is_byte (out0 c0 c1) /\ is_byte (out1 c1 c2) /\ is_byte (out2 c2 c3).
Proof. split_and!; apply u8_byte. Qed.

Lemma decode_loop_total fuel : forall l,
  (length l <= fuel)%nat ->
  exists o, decode_loop fuel l = Some o /\ Forall is_byte o /\ (4 * length o <= 3 * length l)%nat.
Proof.
  induction fuel as [|fuel IH]; intros l Hl.
  { destruct l; [by exists []|cbn in Hl; lia]. }
  destruct l as [|a l]; [by exists []|]. cbn [decode_loop].
  destruct (fill_total 4 (a :: l)) as (c & l' & -> & Hc & L). ored.
  destruct c as [|c0 [|c1 [|c2 [|c3 [|c4 r]]]]]; cbn [length] in *; try lia.
  - exists []. cbn. auto with lia.
  - exists []. cbn. auto with lia.
  - exists [out0 c0 c1]. cbn. destruct (out_bytes c0 c1 0 0) as (? & _). auto with lia.
  - exists [out0 c0 c1; out1 c1 c2]. cbn. destruct (out_bytes c0 c1 c2 0) as (? & ? & _).
    repeat split; [by repeat (apply Forall_cons; split)|lia].
  - destruct (IH l') as (o & -> & Ho & Lo); [lia|]. ored. eexists. split; [done|].
    destruct (out_bytes c0 c1 c2 c3) as (? & ? & ?). cbn [length].
    split; [by repeat (apply Forall_cons; split)|lia].
Qed.

(** decoding any text at all ends, and writes no more bytes than
    the buffer size it asks for. *)
Theorem base64_decode_bounds text out_len :
  Z.of_nat (length text) < 2 ^ 29 ->
  exists st o, pj_base64_decode text out_len = Some (st, o) /\
    Z.of_nat (length o) <= Z.max 0 out_len /\ Forall is_byte o /\
    (PJ_BASE64_TO_BASE256_LEN (Z.of_nat (length text)) <= out_len -> st = PJ_SUCCESS).
Proof.
  intros Hn. assert (Hs : (length (strip text) <= length text)%nat).
  { clear. induction text as [|c l IH]; [done|]. cbn [strip]. destruct (_ && _); cbn; lia. }
  unfold pj_base64_decode. rewrite !base64_len by lia.
  destruct (Z.leb_spec (Z.of_nat (length (strip text)) * 3 / 4) out_len) as [H|H]; cbn [negb].
  - destruct (decode_loop_total _ (strip text) (le_n _)) as (o & -> & Ho & L). ored.
    exists PJ_SUCCESS, o. split; [done|]. split; [|done].
    assert (Z.of_nat (length o) <= Z.of_nat (length (strip text)) * 3 / 4)
      by (apply Z.div_le_lower_bound; lia). lia.
  - exists PJ_ETOOSMALL, []. split; [done|]. split; [cbn; lia|]. split; [constructor|].
    intros H'. assert (Z.of_nat (length (strip text)) * 3 / 4 <= Z.of_nat (length text) * 3 / 4)
      by (apply Z.div_le_mono; lia). lia.
Qed.

(** An invalid character at the end of the text is not ignored: it counts as
    a sextet of ones.  [QUI] decodes to two bytes, the same text followed by
    a line feed to three. *)
Theorem base64_trailing_invalid :
  pj_base64_decode [81; 85; 73] 3 = Some (PJ_SUCCESS, [65; 66]) /\
  pj_base64_decode [81; 85; 73; 10] 3 = Some (PJ_SUCCESS, [65; 66; 63]).
Proof. done. Qed.

(** ** Witnesses *)

Lemma base64_roundtrip_witness :
  exists o, pj_base64_encode [72; 105; 33; 10] 10 = Some (PJ_SUCCESS, o) /\
    Z.of_nat (length o) <= 10 /\
    forall text len, filter valid text = filter valid o -> ends_valid (strip text) ->
      PJ_BASE64_TO_BASE256_LEN (Z.of_nat (length (strip text))) <= len ->
      pj_base64_decode text len = Some (PJ_SUCCESS, [72; 105; 33; 10]).
Proof.
  apply (base64_roundtrip [72; 105; 33; 10] 10); [|done|done].
  repeat (apply Forall_cons; split; [by unfold is_byte|]). constructor.
Defined.

Lemma base64_decode_bounds_witness :
  exists st o, pj_base64_decode [81; 85; 73; 10] 3 = Some (st, o) /\
    Z.of_nat (length o) <= Z.max 0 3 /\ Forall is_byte o /\
    (PJ_BASE64_TO_BASE256_LEN (Z.of_nat (length [81; 85; 73; 10])) <= 3 -> st = PJ_SUCCESS).
Proof. by apply (base64_decode_bounds [81; 85; 73; 10] 3). Defined.
