(* ===== verification/Rtp.v ===== *)
(** * RTP sessions

    The RTP header, the sequence number control and the sessions of
    [pjmedia/rtp.c].  The fields of a header that the code keeps in network
    byte order ([seq], [ts], [ssrc]) are their values here; the order of the
    bytes is in [hdr_bytes] and in the reads of [pjmedia_rtp_decode_rtp2]. *)

From S2P Require Import Prelude Bytes.
Local Open Scope Z_scope.

(** ** Data *)

Definition PJMEDIA_RTP_EINVER : Z := 220122.
Definition PJMEDIA_RTP_EINLEN : Z := 220125.

Definition RTP_VERSION : Z := 2.
Definition RTP_SEQ_MOD : Z := 65536.
Definition MAX_DROPOUT : Z := 3000.
Definition MAX_MISORDER : Z := 100.
Definition MIN_SEQUENTIAL : Z := 2.

Record pjmedia_rtp_hdr := mk_rtp_hdr {
  hdr_v : Z;
  hdr_p : Z;
  hdr_x : Z;
  hdr_cc : Z;
  hdr_m : Z;
  hdr_pt : Z;
  hdr_seq : Z;
  hdr_ts : Z;
  hdr_ssrc : Z
}.

#[export] Instance eta_rtp_hdr : Settable pjmedia_rtp_hdr :=
  fun h => mk_rtp_hdr (hdr_v h) (hdr_p h) (hdr_x h) (hdr_cc h) (hdr_m h) (hdr_pt h)
             (hdr_seq h) (hdr_ts h) (hdr_ssrc h).

Definition sizeof_rtp_hdr : Z := 12.
Definition sizeof_rtp_ext_hdr : Z := 4.

(** The bytes of a header: bit fields from the most significant bit. *)
Definition hdr_bytes (h : pjmedia_rtp_hdr) : list Z :=
  [hdr_v h * 64 + hdr_p h * 32 + hdr_x h * 16 + hdr_cc h; hdr_m h * 128 + hdr_pt h]
  ++ be16 (hdr_seq h) ++ be32 (hdr_ts h) ++ be32 (hdr_ssrc h).

Record pjmedia_rtp_seq_session := mk_seq_session {
  max_seq : Z;
  cycles : Z;
  base_seq : Z;
  bad_seq : Z;
  probation : Z
}.

#[export] Instance eta_seq_session : Settable pjmedia_rtp_seq_session :=
  fun s => mk_seq_session (max_seq s) (cycles s) (base_seq s) (bad_seq s) (probation s).

Record pjmedia_rtp_session := mk_rtp_session {
  out_hdr : pjmedia_rtp_hdr;
  seq_ctrl : pjmedia_rtp_seq_session;
  out_pt : Z;
  out_extseq : Z;
  has_peer_ssrc : bool;
  peer_ssrc : Z;
  received : Z
}.

#[export] Instance eta_rtp_session : Settable pjmedia_rtp_session :=
  fun s => mk_rtp_session (out_hdr s) (seq_ctrl s) (out_pt s) (out_extseq s)
             (has_peer_ssrc s) (peer_ssrc s) (received s).

Record pjmedia_rtp_status := mk_rtp_status {
  st_bad : bool;
  st_badpt : bool;
  st_badssrc : bool;
  st_dup : bool;
  st_outorder : bool;
  st_probation : bool;
  st_restart : bool;
  st_diff : Z
}.

#[export] Instance eta_rtp_status : Settable pjmedia_rtp_status :=
  fun s => mk_rtp_status (st_bad s) (st_badpt s) (st_badssrc s) (st_dup s) (st_outorder s)
             (st_probation s) (st_restart s) (st_diff s).

(** [status.value = 0; diff = 0] *)
Definition no_status : pjmedia_rtp_status :=
  mk_rtp_status false false false false false false false 0.

Record pjmedia_rtp_session_setting := mk_setting {
  set_flags : Z;
  set_default_pt : Z;
  set_sender_ssrc : Z;
  set_peer_ssrc : Z;
  set_seq : Z;
  set_ts : Z
}.

(** ** Sequence numbers *)

Definition pjmedia_rtp_seq_restart (sess : pjmedia_rtp_seq_session) (seq : Z) :
    pjmedia_rtp_seq_session :=
  sess <| base_seq := seq |> <| max_seq := seq |>
       <| bad_seq := RTP_SEQ_MOD + 1 |> <| cycles := 0 |>.

Definition pjmedia_rtp_seq_init (sess : pjmedia_rtp_seq_session) (seq : Z) :
    pjmedia_rtp_seq_session :=
  pjmedia_rtp_seq_restart sess seq
    <| max_seq := u16 (seq - 1) |> <| probation := MIN_SEQUENTIAL |>.

(** Before [MIN_SEQUENTIAL] packets in sequence have been received. *)
Definition seq_probation (sess : pjmedia_rtp_seq_session) (seq : Z) :
    pjmedia_rtp_seq_session * pjmedia_rtp_status :=
  let st := no_status <| st_probation := true |> in
  if seq =? max_seq sess + 1 then
    let st := st <| st_diff := 1 |> in
    let sess := sess <| probation := u32 (probation sess - 1) |> <| max_seq := seq |> in
    (sess, if probation sess =? 0 then st <| st_probation := false |> else st)
  else
    let st := st <| st_diff := 0 |> <| st_bad := true |> in
    let st := if seq =? max_seq sess then st <| st_dup := true |>
              else st <| st_outorder := true |> in
    (sess <| probation := MIN_SEQUENTIAL - 1 |> <| max_seq := seq |>, st).

Definition pjmedia_rtp_seq_update (sess : pjmedia_rtp_seq_session) (seq : Z) :
    pjmedia_rtp_seq_session * pjmedia_rtp_status :=
  let udelta := u16 (seq - max_seq sess) in
  let st := no_status in
  if negb (probation sess =? 0) then seq_probation sess seq
  else if udelta =? 0 then (sess, st <| st_dup := true |>)
  else if udelta <? MAX_DROPOUT then
    let sess := if seq <? max_seq sess
                then sess <| cycles := u32 (cycles sess + RTP_SEQ_MOD) |> else sess in
    (sess <| max_seq := seq |>, st <| st_diff := udelta |>)
  else if udelta <=? RTP_SEQ_MOD - MAX_MISORDER then
    if seq =? bad_seq sess then
      (pjmedia_rtp_seq_restart sess seq,
       st <| st_restart := true |> <| st_probation := true |> <| st_diff := 1 |>)
    else
      (sess <| bad_seq := Z.land (seq + 1) (RTP_SEQ_MOD - 1) |>,
       st <| st_bad := true |> <| st_outorder := true |>)
  else (sess, st <| st_outorder := true |>).

(** ** Sessions *)

(** The arguments [rand_ssrc] and [rand_seq] are the results of [pj_rand]. *)
Definition pjmedia_rtp_session_init (default_pt sender_ssrc rand_ssrc rand_seq : Z) :
    Z * pjmedia_rtp_session :=
  let ssrc := if (sender_ssrc =? 0) || (sender_ssrc =? 4294967295)
              then u32 rand_ssrc else sender_ssrc in
  let extseq := Z.land rand_seq 32767 in
  let hdr := mk_rtp_hdr RTP_VERSION 0 0 0 0 (u8 default_pt mod 128) (u16 extseq) 0 ssrc in
  (PJ_SUCCESS,
   mk_rtp_session hdr (mk_seq_session 0 0 0 0 0) (u16 default_pt) extseq false 0 0).

Definition pjmedia_rtp_session_init2 (settings : pjmedia_rtp_session_setting)
    (rand_ssrc rand_seq : Z) : Z * pjmedia_rtp_session :=
  let flag n := negb (Z.land (set_flags settings) n =? 0) in
  let pt := if flag 1 then set_default_pt settings else 0 in
  let sender_ssrc := if flag 2 then set_sender_ssrc settings else 0 in
  let '(status, ses) := pjmedia_rtp_session_init pt sender_ssrc rand_ssrc rand_seq in
  if negb (status =? PJ_SUCCESS) then (status, ses)
  else
    let ses := if flag 4 then
      ses <| out_extseq := set_seq settings |>
          <| out_hdr := out_hdr ses <| hdr_seq := u16 (set_seq settings) |> |> else ses in
    let ses := if flag 8 then
      ses <| out_hdr := out_hdr ses <| hdr_ts := set_ts settings |> |> else ses in
    let ses := if flag 16 then
      ses <| has_peer_ssrc := true |> <| peer_ssrc := set_peer_ssrc settings |> else ses in
    (PJ_SUCCESS, ses).

(** The header is returned ([*rtphdr]) unless the frame is empty. *)
Definition pjmedia_rtp_encode_rtp (ses : pjmedia_rtp_session) (pt m payload_len ts_len : Z) :
    Z * pjmedia_rtp_session * option pjmedia_rtp_hdr :=
  let ses := ses <| out_hdr := out_hdr ses <| hdr_ts := u32 (hdr_ts (out_hdr ses) + ts_len) |> |> in
  if payload_len =? 0 then (PJ_SUCCESS, ses, None)
  else
    let ses := ses <| out_extseq := u32 (out_extseq ses + 1) |> in
    let hdr := out_hdr ses
      <| hdr_pt := u8 (if pt =? -1 then out_pt ses else pt) mod 128 |>
      <| hdr_m := u16 m mod 2 |>
      <| hdr_seq := u16 (out_extseq ses) |> in
    (PJ_SUCCESS, ses <| out_hdr := hdr |>, Some hdr).

(** ** Reception *)

(** The results of decoding: the header, the place and length of the
    extension and of the payload in the packet. *)
Record rtp_decoded := mk_decoded {
  dec_hdr : pjmedia_rtp_hdr;
  dec_ext_hdr : option Z;
  dec_ext : option Z;
  dec_ext_len : Z;
  dec_payload : option Z;
  dec_payloadlen : Z
}.

(** The fields of the header, read where they are used. *)
Definition pkt_v (pkt : list Z) : option Z := b ← rd8 pkt 0; Some (b / 64).
Definition pkt_p (pkt : list Z) : option Z := b ← rd8 pkt 0; Some (b / 32 mod 2).
Definition pkt_x (pkt : list Z) : option Z := b ← rd8 pkt 0; Some (b / 16 mod 2).
Definition pkt_cc (pkt : list Z) : option Z := b ← rd8 pkt 0; Some (b mod 16).

Definition read_hdr (pkt : list Z) : option pjmedia_rtp_hdr :=
  v ← pkt_v pkt;
  p ← pkt_p pkt;
  x ← pkt_x pkt;
  cc ← pkt_cc pkt;
  b ← rd8 pkt 1;
  seq ← rd16 pkt 2;
  ts ← rd32 pkt 4;
  ssrc ← rd32 pkt 8;
  Some (mk_rtp_hdr v p x cc (b / 128) (b mod 128) seq ts ssrc).

(** Decode RTP extension: [ext_hdr], [ext], [ext_len] and the offset after it,
    or an error. *)
Definition decode_ext (pkt : list Z) (pkt_len offset : Z) :
    option (Z + option Z * option Z * Z * Z) :=
  x ← pkt_x pkt;
  if negb (x =? 0) then
    if u32 pkt_len <? offset + sizeof_rtp_ext_hdr then Some (inl PJMEDIA_RTP_EINLEN)
    else
      ext_len ← rd16 pkt (offset + 2);
      Some (inr (Some offset, Some (offset + 4), ext_len, offset + (ext_len + 1) * 4))
  else Some (inr (None, None, 0, offset)).

(** Remove payload padding if any. *)
Definition remove_padding (pkt : list Z) (payload : option Z) (payloadlen : Z) : option Z :=
  p ← pkt_p pkt;
  if negb (p =? 0) && (0 <? payloadlen) then
    start ← payload;
    pad_len ← rd8 pkt (start + (payloadlen - 1));
    Some (if pad_len <=? payloadlen then payloadlen - pad_len else payloadlen)
  else Some payloadlen.

Definition pjmedia_rtp_decode_rtp2 (pkt : list Z) (pkt_len : Z) :
    option (Z * option rtp_decoded) :=
  v ← pkt_v pkt;
  if negb (v =? RTP_VERSION) then Some (PJMEDIA_RTP_EINVER, None)
  else
    cc ← pkt_cc pkt;
    let offset := sizeof_rtp_hdr + cc * 4 in
    r ← decode_ext pkt pkt_len offset;
    match r with
    | inl status => Some (status, None)
    | inr (ext_hdr, ext, ext_len, offset) =>
        if pkt_len <? offset then Some (PJMEDIA_RTP_EINLEN, None)
        else
          let payload := if offset =? pkt_len then None else Some offset in
          let payloadlen := pkt_len - offset in
          payloadlen ← remove_padding pkt payload payloadlen;
          h ← read_hdr pkt;
          Some (PJ_SUCCESS, Some (mk_decoded h ext_hdr ext ext_len payload payloadlen))
    end.

Definition pjmedia_rtp_decode_rtp (pkt : list Z) (pkt_len : Z) :
    option (Z * option (pjmedia_rtp_hdr * option Z * Z)) :=
  r ← pjmedia_rtp_decode_rtp2 pkt pkt_len;
  let '(status, d) := r : Z * option rtp_decoded in
  Some (status, (fun d => (dec_hdr d, dec_payload d, dec_payloadlen d)) <$> d).

(** [p_seq_st] is the status the caller passed, when it passed one. *)
Definition pjmedia_rtp_session_update2 (ses : pjmedia_rtp_session) (hdr : pjmedia_rtp_hdr)
    (p_seq_st : option pjmedia_rtp_status) (check_pt : bool) :
    pjmedia_rtp_session * option pjmedia_rtp_status :=
  let seq_st := no_status in
  let ses := if negb (has_peer_ssrc ses) && (peer_ssrc ses =? 0)
             then ses <| peer_ssrc := hdr_ssrc hdr |> else ses in
  let '(seq_st, ses) :=
    if negb (hdr_ssrc hdr =? peer_ssrc ses) then
      (seq_st <| st_badssrc := true |>,
       if negb (has_peer_ssrc ses) then ses <| peer_ssrc := hdr_ssrc hdr |> else ses)
    else (seq_st, ses) in
  if check_pt && negb (hdr_pt hdr =? out_pt ses) then
    (ses, (fun st => seq_st <| st_diff := st_diff st |>
                            <| st_bad := true |> <| st_badpt := true |>) <$> p_seq_st)
  else
    let ses := if received ses =? 0
               then ses <| seq_ctrl := pjmedia_rtp_seq_init (seq_ctrl ses) (hdr_seq hdr) |>
               else ses in
    let '(ctrl, seq_st) := pjmedia_rtp_seq_update (seq_ctrl ses) (hdr_seq hdr) in
    let ses := ses <| seq_ctrl := ctrl |> in
    let ses := if st_restart seq_st then ses <| received := u32 (received ses + 1) |>
               else if negb (st_bad seq_st) then ses <| received := u32 (received ses + 1) |>
               else ses in
    (ses, (fun _ => seq_st) <$> p_seq_st).

Definition pjmedia_rtp_session_update (ses : pjmedia_rtp_session) (hdr : pjmedia_rtp_hdr)
    (p_seq_st : option pjmedia_rtp_status) :
    pjmedia_rtp_session * option pjmedia_rtp_status :=
  pjmedia_rtp_session_update2 ses hdr p_seq_st true.
