(* ===== verification/RtpSpec.v ===== *)
(** * RTP sessions: properties

    The sequence number control against the true, unbounded packet numbers;
    the layout of packets; a sender and a receiver together. *)

From S2P Require Import Prelude Bytes Rtp.
Local Open Scope Z_scope.

Ltac zdivmod := unfold u8, u16, u32, s32, is_u16, is_u32 in *;
  Z.to_euclidean_division_equations; lia.

(** ** Reference: packets by their true number

    Packet [n] carries the sequence number [u16 n]; [hi] is the highest number
    seen. *)

Definition in_window (hi n : Z) : Prop := hi - MAX_MISORDER < n < hi + MAX_DROPOUT.

Definition packet_status (hi n : Z) : pjmedia_rtp_status :=
  if n =? hi then no_status <| st_dup := true |>
  else if hi <? n then no_status <| st_diff := n - hi |>
  else no_status <| st_outorder := true |>.

Fixpoint all_in_window (hi : Z) (ns : list Z) : Prop :=
  match ns with [] => True | n :: ns => in_window hi n /\ all_in_window (Z.max hi n) ns end.

Fixpoint expected (hi : Z) (ns : list Z) : list pjmedia_rtp_status :=
  match ns with [] => [] | n :: ns => packet_status hi n :: expected (Z.max hi n) ns end.

Definition highest (hi : Z) (ns : list Z) : Z := fold_left Z.max ns hi.

(** The extended sequence number of RFC 3550. *)
Definition ext_seq (s : pjmedia_rtp_seq_session) : Z := u32 (cycles s + max_seq s).

Fixpoint seq_run (s : pjmedia_rtp_seq_session) (ns : list Z) :
    pjmedia_rtp_seq_session * list pjmedia_rtp_status :=
  match ns with
  | [] => (s, [])
  | n :: ns =>
      let '(s, st) := pjmedia_rtp_seq_update s (u16 n) in
      let '(s, sts) := seq_run s ns in
      (s, st :: sts)
  end.

(** The state follows [hi], counting cycles from cycle [base]. *)
Record tracks (s : pjmedia_rtp_seq_session) (base hi : Z) : Prop := mk_tracks {
  tr_probation : probation s = 0;
  tr_max : max_seq s = u16 hi;
  tr_cycles : cycles s = u32 (hi - u16 hi - 65536 * base)
}.

Lemma tracks_ext s base hi : tracks s base hi -> ext_seq s = u32 (hi - 65536 * base).
Proof. intros [_ Hm Hc]. unfold ext_seq. rewrite Hm, Hc. zdivmod. Qed.

Lemma seq_update_tracks s base hi n :
  tracks s base hi -> in_window hi n ->
  exists s', pjmedia_rtp_seq_update s (u16 n) = (s', packet_status hi n) /\
    tracks s' base (Z.max hi n).
Proof.
  intros [Hp Hm Hc] [Hlo Hhi]. unfold MAX_MISORDER, MAX_DROPOUT in *.
  unfold pjmedia_rtp_seq_update. rewrite Hp, Hm. cbn [Z.eqb negb].
  assert (Hd : u16 (u16 n - u16 hi) = u16 (n - hi)) by zdivmod. rewrite Hd. unfold packet_status.
  unfold MAX_DROPOUT, MAX_MISORDER, RTP_SEQ_MOD.
  destruct (Z.eqb_spec n hi) as [->|Hne].
  { replace (u16 (hi - hi)) with 0 by zdivmod. exists s. by rewrite Z.max_id. }
  destruct (Z.ltb_spec hi n) as [Hup|Hdown].
  - assert (Hu : u16 (n - hi) = n - hi) by zdivmod. rewrite Hu.
    rewrite (proj2 (Z.eqb_neq (n - hi) 0)), (proj2 (Z.ltb_lt (n - hi) 3000)) by lia.
    eexists. split; [reflexivity|]. rewrite Z.max_r by lia.
    destruct (Z.ltb_spec (u16 n) (u16 hi)); (split; [done|done|]); cbn; rewrite Hc; zdivmod.
  - assert (Hu : u16 (n - hi) = 65536 + n - hi) by zdivmod. rewrite Hu.
    rewrite (proj2 (Z.eqb_neq _ 0)), (proj2 (Z.ltb_ge _ 3000)), (proj2 (Z.leb_gt _ (65536 - 100))) by lia.
    exists s. by rewrite Z.max_l by lia.
Qed.

Lemma seq_run_tracks ns : forall s base hi,
  tracks s base hi -> all_in_window hi ns ->
  exists s', seq_run s ns = (s', expected hi ns) /\ tracks s' base (highest hi ns).
Proof.
  induction ns as [|n ns IH]; intros s base hi Ht Hw; [by exists s|].
  destruct Hw as [Hn Hw]. cbn [seq_run expected].
  destruct (seq_update_tracks s base hi n Ht Hn) as (s1 & -> & Ht1).
  destruct (IH s1 base _ Ht1 Hw) as (s2 & -> & Ht2). by exists s2.
Qed.

Lemma land_u16 a : Z.land a (65536 - 1) = u16 a.
Proof. change (65536 - 1) with (Z.ones 16). by rewrite Z.land_ones. Qed.

(** A new source: two packets in sequence end the probation. *)
Lemma seq_start s n :
  0 < u16 n < 65535 ->
  exists s', seq_run (pjmedia_rtp_seq_init s (u16 n)) [n; n + 1] =
    (s', [no_status <| st_probation := true |> <| st_diff := 1 |>; no_status <| st_diff := 1 |>]) /\
    tracks s' (n / 65536) (n + 1).
Proof.
  intros Hn. cbn [seq_run]. unfold pjmedia_rtp_seq_init, pjmedia_rtp_seq_update, seq_probation.
  cbn. rewrite (proj2 (Z.eqb_eq (u16 n) _)) by zdivmod. cbn.
  rewrite (proj2 (Z.eqb_eq (u16 (n + 1)) _)) by zdivmod.
  eexists. split; [reflexivity|]. constructor; cbn; [done|done|zdivmod].
Qed.

(** ** Properties *)

(** C28: a source whose first packet has a number other than 0 and 65535 (with
    those its probation goes wrong, [rtp_first_packet_zero]) and is followed by
    the next one: whatever the order in which the other packets arrive, as long
    as each is less than 3000 after and less than 100 before the highest one so
    far, the control keeps the extended number of the highest packet across
    wrap-arounds of the 16-bit numbers and reports for each packet whether it
    is new (and how far ahead), a duplicate or out of order. *)
Theorem rtp_seq_tracks s n ns :
  0 < u16 n < 65535 -> all_in_window (n + 1) ns ->
  exists s', seq_run (pjmedia_rtp_seq_init s (u16 n)) (n :: n + 1 :: ns) =
    (s', [no_status <| st_probation := true |> <| st_diff := 1 |>; no_status <| st_diff := 1 |>]
         ++ expected (n + 1) ns) /\
    ext_seq s' = u32 (highest (n + 1) ns - 65536 * (n / 65536)).
Proof.
  intros Hn Hw. destruct (seq_start s n Hn) as (s1 & E1 & H1).
  destruct (seq_run_tracks ns s1 _ _ H1 Hw) as (s2 & E2 & H2). exists s2.
  split; [|by apply tracks_ext]. cbn [seq_run] in *.
  destruct (pjmedia_rtp_seq_update _ (u16 n)) as [s3 st3].
  destruct (pjmedia_rtp_seq_update s3 _) as [s4 st4]. injection E1 as -> -> ->.
  by rewrite E2.
Qed.

(** a jump of the sequence numbers is not followed by the first
    packet, which is reported bad, but by a second packet in sequence with it:
    the control restarts there. *)
Theorem rtp_seq_jump s base hi n :
  tracks s base hi -> MAX_DROPOUT <= u16 (n - hi) < RTP_SEQ_MOD - MAX_MISORDER ->
  u16 n <> bad_seq s ->
  exists s1 s2,
    pjmedia_rtp_seq_update s (u16 n) =
      (s1, no_status <| st_bad := true |> <| st_outorder := true |>) /\ tracks s1 base hi /\
    pjmedia_rtp_seq_update s1 (u16 (n + 1)) =
      (s2, no_status <| st_restart := true |> <| st_probation := true |> <| st_diff := 1 |>) /\
    tracks s2 ((n + 1) / 65536) (n + 1).
Proof.
  intros [Hp Hm Hc] Hj Hb. unfold MAX_DROPOUT, MAX_MISORDER, RTP_SEQ_MOD in Hj.
  unfold pjmedia_rtp_seq_update, MAX_DROPOUT, MAX_MISORDER, RTP_SEQ_MOD. rewrite Hp, Hm.
  cbn [Z.eqb negb]. replace (u16 (u16 n - u16 hi)) with (u16 (n - hi)) by zdivmod.
  rewrite (proj2 (Z.eqb_neq (u16 (n - hi)) 0)), (proj2 (Z.ltb_ge _ 3000)),
    (proj2 (Z.leb_le _ (65536 - 100))), (proj2 (Z.eqb_neq (u16 n) _)) by (done || lia).
  do 2 eexists. split; [reflexivity|]. split; [done|]. cbn. rewrite Hp, Hm. cbn [Z.eqb negb].
  replace (u16 (u16 (n + 1) - u16 hi)) with (u16 (n - hi) + 1) by zdivmod.
  rewrite (proj2 (Z.eqb_neq (u16 (n - hi) + 1) 0)), (proj2 (Z.ltb_ge (u16 (n - hi) + 1) 3000)),
    (proj2 (Z.leb_le _ 65436)) by lia.
  rewrite (proj2 (Z.eqb_eq (u16 (n + 1)) _)) by (rewrite land_u16; zdivmod).
  split; [reflexivity|]. constructor; cbn; [done|done|zdivmod].
Qed.

(** The first packet of a source with sequence number 0 is reported bad. *)
Theorem rtp_first_packet_zero s :
  (pjmedia_rtp_seq_update (pjmedia_rtp_seq_init s 0) 0).2 =
  no_status <| st_probation := true |> <| st_bad := true |> <| st_outorder := true |>.
Proof. done. Qed.

(** The check of the SSRC is lost: the flag set for a packet of another
    source is overwritten by the status of its sequence number. *)
Theorem rtp_badssrc_lost ses hdr st check_pt :
  check_pt = false \/ hdr_pt hdr = out_pt ses ->
  exists st', (pjmedia_rtp_session_update2 ses hdr (Some st) check_pt).2 = Some st' /\
    st_badssrc st' = false.
Proof.
  intros Hpt. unfold pjmedia_rtp_session_update2. set (ses1 := if negb _ && _ then _ else _).
  assert (E1 : out_pt ses1 = out_pt ses) by (unfold ses1; by destruct (_ && _)).
  set (r := if negb (hdr_ssrc hdr =? peer_ssrc ses1) then _ else _).
  assert (E2 : out_pt r.2 = out_pt ses)
    by (unfold r; destruct (negb (hdr_ssrc hdr =? _)), (negb (has_peer_ssrc ses1)); exact E1).
  destruct r as [seq_st ses2]. cbn [snd] in E2. rewrite E2.
  replace (check_pt && _) with false.
  2:{ destruct Hpt as [-> | ->]; [done|]. rewrite Z.eqb_refl. by rewrite andb_false_r. }
  set (ses3 := if received ses2 =? 0 then _ else _).
  assert (H : st_badssrc (pjmedia_rtp_seq_update (seq_ctrl ses3) (hdr_seq hdr)).2 = false).
  { unfold pjmedia_rtp_seq_update, seq_probation. repeat case_match; done. }
  destruct (pjmedia_rtp_seq_update _ _) as [c st']. cbn [snd] in *. by exists st'.
Qed.

(** ** Packets *)

(** A packet of RFC 3550: header, contributing sources, extension, payload
    and padding. *)
Record packet := mk_packet {
  pk_hdr : pjmedia_rtp_hdr;
  pk_csrc : list Z;
  pk_ext : option (Z * list Z);
  pk_payload : list Z;
  pk_pad : list Z
}.

Definition ext_bytes (e : option (Z * list Z)) : list Z :=
  match e with
  | Some (profile, data) => be16 profile ++ be16 (Z.of_nat (length data) / 4) ++ data
  | None => []
  end.

Definition packet_bytes (k : packet) : list Z :=
  hdr_bytes (pk_hdr k) ++ pk_csrc k ++ ext_bytes (pk_ext k) ++ pk_payload k ++ pk_pad k.

Record hdr_ok (h : pjmedia_rtp_hdr) : Prop := mk_hdr_ok {
  ho_v : hdr_v h = RTP_VERSION;
  ho_p : 0 <= hdr_p h < 2;
  ho_x : 0 <= hdr_x h < 2;
  ho_cc : 0 <= hdr_cc h < 16;
  ho_m : 0 <= hdr_m h < 2;
  ho_pt : 0 <= hdr_pt h < 128;
  ho_seq : is_u16 (hdr_seq h);
  ho_ts : is_u32 (hdr_ts h);
  ho_ssrc : is_u32 (hdr_ssrc h)
}.

Record packet_ok (k : packet) : Prop := mk_packet_ok {
  po_hdr : hdr_ok (pk_hdr k);
  po_csrc : Z.of_nat (length (pk_csrc k)) = 4 * hdr_cc (pk_hdr k);
  po_ext : match pk_ext k with
           | Some (_, data) => hdr_x (pk_hdr k) = 1 /\
               exists n, Z.of_nat (length data) = 4 * n /\ is_u16 n
           | None => hdr_x (pk_hdr k) = 0
           end;
  po_pad : hdr_p (pk_hdr k) = 0 /\ pk_pad k = [] \/
           hdr_p (pk_hdr k) = 1 /\ last (pk_pad k) = Some (Z.of_nat (length (pk_pad k)));
  po_len : Z.of_nat (length (packet_bytes k)) < 2 ^ 31
}.

Lemma hdr_bytes_length h : length (hdr_bytes h) = 12%nat.
Proof. done. Qed.

Lemma first_byte h rest b :
  hdr_ok h -> rd8 (hdr_bytes h ++ rest) 0 = Some b ->
  b / 64 = hdr_v h /\ b / 32 mod 2 = hdr_p h /\ b / 16 mod 2 = hdr_x h /\ b mod 16 = hdr_cc h.
Proof.
  intros [] H. injection H as <-. unfold RTP_VERSION in *. zdivmod.
Qed.

Lemma pkt_fields h rest :
  hdr_ok h ->
  let pkt := hdr_bytes h ++ rest in
  pkt_v pkt = Some (hdr_v h) /\ pkt_p pkt = Some (hdr_p h) /\
  pkt_x pkt = Some (hdr_x h) /\ pkt_cc pkt = Some (hdr_cc h).
Proof.
  intros Hh pkt. unfold pkt_v, pkt_p, pkt_x, pkt_cc.
  destruct (rd8_in pkt 0) as [b Hb].
  { unfold pkt. rewrite length_app, hdr_bytes_length. lia. }
  destruct (first_byte h rest b Hh Hb) as (E1 & E2 & E3 & E4). rewrite Hb. ored.
  by rewrite E1, E2, E3, E4.
Qed.

Lemma hdr_reads b0 b1 seq ts ssrc rest :
  is_u16 seq -> is_u32 ts -> is_u32 ssrc ->
  let pkt := ([b0; b1] ++ be16 seq ++ be32 ts ++ be32 ssrc) ++ rest in
  rd8 pkt 1 = Some b1 /\ rd16 pkt 2 = Some seq /\ rd32 pkt 4 = Some ts /\ rd32 pkt 8 = Some ssrc.
Proof.
  intros H1 H2 H3 pkt. split; [done|]. subst pkt. rewrite <- !app_assoc.
  split; [by apply (rd16_at [b0; b1])|]. rewrite (app_assoc [b0; b1]).
  split; [by apply (rd32_at ([b0; b1] ++ be16 seq))|]. rewrite (app_assoc _ (be32 ts)).
  by apply (rd32_at (([b0; b1] ++ be16 seq) ++ be32 ts)).
Qed.

Lemma read_hdr_bytes h rest : hdr_ok h -> read_hdr (hdr_bytes h ++ rest) = Some h.
Proof.
  intros Hh. unfold read_hdr. destruct (pkt_fields h rest Hh) as (-> & -> & -> & ->). ored.
  destruct Hh. unfold hdr_bytes.
  match goal with |- context [[?a; ?b] ++ _] =>
    destruct (hdr_reads a b (hdr_seq h) (hdr_ts h) (hdr_ssrc h) rest) as (-> & -> & -> & ->);
    [done..|] end.
  ored. f_equal. destruct h; cbn in *. f_equal; zdivmod.
Qed.

(** *** Decoding any packet *)

(** What a successful decoding promises about a packet of [len] bytes. *)
Record decoded_in (len : Z) (d : rtp_decoded) : Prop := mk_decoded_in {
  di_length : 0 <= dec_payloadlen d;
  di_payload : match dec_payload d with
               | Some off => sizeof_rtp_hdr + 4 * hdr_cc (dec_hdr d) <= off /\
                   off + dec_payloadlen d <= len
               | None => dec_payloadlen d = 0
               end;
  di_ext : match dec_ext d with
           | Some off => dec_ext_hdr d = Some (off - 4) /\
               sizeof_rtp_hdr + 4 * hdr_cc (dec_hdr d) + 4 <= off /\
               off + 4 * dec_ext_len d <= len
           | None => dec_ext_len d = 0
           end
}.

Lemma read_hdr_total pkt :
  12 <= Z.of_nat (length pkt) -> exists h, read_hdr pkt = Some h /\ pkt_cc pkt = Some (hdr_cc h).
Proof.
  intros Hl. unfold read_hdr, pkt_v, pkt_p, pkt_x, pkt_cc.
  destruct (rd8_in pkt 0) as [b ->]; [lia|]. ored.
  destruct (rd8_in pkt 1) as [b1 ->]; [lia|]. ored.
  destruct (rd16_in pkt 2) as [seq ->]; [lia..|]. ored.
  destruct (rd32_in pkt 4) as [ts ->]; [lia..|]. ored.
  destruct (rd32_in pkt 8) as [ssrc ->]; [lia..|]. ored. by eexists.
Qed.

Lemma decode_ext_total pkt len offset :
  Forall is_byte pkt -> len = Z.of_nat (length pkt) -> 0 < len < 2 ^ 31 -> 0 <= offset ->
  exists r, decode_ext pkt len offset = Some r /\
    match r with
    | inl st => st = PJMEDIA_RTP_EINLEN
    | inr (eh, ext, elen, off) => offset <= off /\
        (ext = None /\ elen = 0 \/
         ext = Some (offset + 4) /\ eh = Some offset /\ is_u16 elen /\ off = offset + 4 + 4 * elen)
    end.
Proof.
  intros Hb Hlen Hl Ho. unfold decode_ext, pkt_x. destruct (rd8_in pkt 0) as [b ->]; [lia|]. ored.
  case_match; [|eexists; split; [done|]; cbn; auto with lia].
  rewrite u32_id by (unfold is_u32; lia). unfold sizeof_rtp_ext_hdr.
  destruct (Z.ltb_spec len (offset + 4)); [by eexists|].
  destruct (rd16_in pkt (offset + 2)) as [e He]; [lia..|]. rewrite He. ored.
  apply rd16_range in He; [|done]. eexists. split; [done|]. unfold is_u16 in *. cbn. split; [lia|].
  right. auto with lia.
Qed.

Lemma remove_padding_total pkt off :
  Forall is_byte pkt -> 0 <= off <= Z.of_nat (length pkt) -> 0 < Z.of_nat (length pkt) ->
  let len := Z.of_nat (length pkt) in
  exists n, remove_padding pkt (if off =? len then None else Some off) (len - off) = Some n /\
    0 <= n <= len - off.
Proof.
  intros Hb Ho Hl len. unfold remove_padding, pkt_p. destruct (rd8_in pkt 0) as [b ->]; [lia|]. ored.
  destruct (_ && _) eqn:E; [|eexists; split; [done|lia]]. zbool.
  rewrite (proj2 (Z.eqb_neq off len)) by lia. ored.
  destruct (rd8_in pkt (off + (len - off - 1))) as [x Hx]; [unfold len in *; lia|]. rewrite Hx. ored.
  apply rd8_byte in Hx; [|done]. unfold is_byte in Hx.
  eexists. split; [done|]. destruct (Z.leb_spec x (len - off)); lia.
Qed.

(** decoding a packet of any bytes reads inside the packet only, and
    the payload, the padding and the extension it reports lie in the packet,
    after the header and the list of sources. *)
Theorem rtp_decode_bounds pkt :
  Forall is_byte pkt -> 0 < Z.of_nat (length pkt) < 2 ^ 31 ->
  exists st r, pjmedia_rtp_decode_rtp2 pkt (Z.of_nat (length pkt)) = Some (st, r) /\
    (st = PJ_SUCCESS -> exists d, r = Some d /\ decoded_in (Z.of_nat (length pkt)) d).
Proof.
  intros Hb Hl. set (len := Z.of_nat (length pkt)) in *. unfold pjmedia_rtp_decode_rtp2, pkt_v.
  destruct (rd8_in pkt 0) as [b Hb0]; [lia|]. rewrite Hb0. ored.
  case_match; [by do 2 eexists|]. unfold pkt_cc. rewrite Hb0. ored.
  pose proof (Z.mod_pos_bound b 16). unfold sizeof_rtp_hdr.
  destruct (decode_ext_total pkt len (12 + b mod 16 * 4)) as (r & -> & Hr); [done..|lia|]. ored.
  destruct r as [st|[[[eh ext] elen] off]]; [subst st; by do 2 eexists|]. destruct Hr as [Ho He].
  destruct (Z.ltb_spec len off) as [?|Hoff]; [by do 2 eexists|].
  destruct (remove_padding_total pkt off) as (n & Hrp & Hn); [done|lia|lia|].
  fold len in Hrp, Hn. rewrite Hrp. ored.
  destruct (read_hdr_total pkt) as (h & -> & Hcc); [lia|]. ored.
  assert (hdr_cc h = b mod 16) as Hh
    by (unfold pkt_cc in Hcc; rewrite Hb0 in Hcc; by injection Hcc).
  do 2 eexists. split; [done|]. intros _. eexists. split; [done|].
  constructor; cbn; unfold sizeof_rtp_hdr; rewrite ?Hh; [lia|case_match; zbool; lia|].
  destruct He as [[-> ->]|(-> & -> & ? & ->)]; [done|]. split; [f_equal; lia|lia].
Qed.

(** *** Decoding a well-formed packet *)

Definition zlen (l : list Z) : Z := Z.of_nat (length l).

Lemma zlen_app a b : zlen (a ++ b) = zlen a + zlen b.
Proof. unfold zlen. rewrite length_app. lia. Qed.

Lemma zlen_nonneg l : 0 <= zlen l.
Proof. unfold zlen. lia. Qed.

Lemma rd8_zlen pre b post : rd8 (pre ++ b :: post) (zlen pre) = Some b.
Proof. apply rd8_at. Qed.

Lemma rd16_zlen pre v post : is_u16 v -> rd16 (pre ++ be16 v ++ post) (zlen pre) = Some v.
Proof. apply rd16_at. Qed.

Lemma rdn_zlen pre l post : rdn (pre ++ l ++ post) (zlen pre) (length l) = Some l.
Proof. apply rdn_at. Qed.

(** The extension is found after the sources. *)
Lemma decode_ext_bytes k :
  packet_ok k ->
  let pre := hdr_bytes (pk_hdr k) ++ pk_csrc k in
  decode_ext (packet_bytes k) (zlen (packet_bytes k)) (zlen pre) =
  Some (inr (match pk_ext k with
             | Some (_, data) => (Some (zlen pre), Some (zlen pre + 4), zlen data / 4,
                                  zlen (pre ++ ext_bytes (pk_ext k)))
             | None => (None, None, 0, zlen (pre ++ ext_bytes (pk_ext k)))
             end)).
Proof.
  intros Hk pre. unfold decode_ext.
  destruct (pkt_fields (pk_hdr k) (pk_csrc k ++ ext_bytes (pk_ext k) ++ pk_payload k ++ pk_pad k)
              (po_hdr _ Hk)) as (_ & _ & Hx & _).
  change (pkt_x (packet_bytes k) = Some (hdr_x (pk_hdr k))) in Hx. rewrite Hx. ored.
  pose proof (po_ext _ Hk) as He. destruct (pk_ext k) as [[prof data]|] eqn:Ek.
  2:{ rewrite He. cbn [Z.eqb negb ext_bytes]. by rewrite app_nil_r. }
  destruct He as (-> & n & Hd & Hn). cbn [Z.eqb negb].
  assert (Hb : packet_bytes k = pre ++ be16 prof ++ be16 (zlen data / 4) ++ data
                                  ++ pk_payload k ++ pk_pad k).
  { unfold packet_bytes, pre. rewrite Ek. cbn [ext_bytes]. by rewrite <- !app_assoc. }
  pose proof (po_len _ Hk) as Hlen. fold (zlen (packet_bytes k)) in Hlen.
  pose proof (zlen_nonneg (packet_bytes k)). rewrite u32_id by (unfold is_u32; lia).
  rewrite Hb in *. rewrite !zlen_app in *. change (zlen (be16 prof)) with 2 in *.
  change (zlen (be16 (zlen data / 4))) with 2 in *. unfold sizeof_rtp_ext_hdr.
  pose proof (zlen_nonneg data). pose proof (zlen_nonneg (pk_payload k)).
  pose proof (zlen_nonneg (pk_pad k)).
  rewrite (proj2 (Z.ltb_ge _ _)) by lia.
  replace (zlen pre + 2) with (zlen (pre ++ be16 prof)) by (by rewrite zlen_app).
  rewrite app_assoc, rd16_zlen.
  2:{ unfold zlen. rewrite Hd, Z.mul_comm, Z.div_mul by lia. done. }
  ored. do 4 f_equal. cbn [ext_bytes]. rewrite !zlen_app. change (zlen (be16 prof)) with 2.
  change (zlen (be16 _)) with 2. unfold zlen in *. rewrite Hd, (Z.mul_comm 4), Z.div_mul by lia. lia.
Qed.

(** The padding is removed. *)
Lemma remove_padding_bytes k :
  packet_ok k ->
  let pre := hdr_bytes (pk_hdr k) ++ pk_csrc k ++ ext_bytes (pk_ext k) in
  let len := zlen (packet_bytes k) in
  remove_padding (packet_bytes k) (if zlen pre =? len then None else Some (zlen pre))
    (len - zlen pre) = Some (zlen (pk_payload k)).
Proof.
  intros Hk pre len. unfold remove_padding.
  destruct (pkt_fields (pk_hdr k) (pk_csrc k ++ ext_bytes (pk_ext k) ++ pk_payload k ++ pk_pad k)
              (po_hdr _ Hk)) as (_ & Hp & _).
  change (pkt_p (packet_bytes k) = Some (hdr_p (pk_hdr k))) in Hp. rewrite Hp. ored.
  assert (Hb : packet_bytes k = pre ++ pk_payload k ++ pk_pad k).
  { unfold packet_bytes, pre. by rewrite <- !app_assoc. }
  assert (Hl : len = zlen pre + zlen (pk_payload k) + zlen (pk_pad k)).
  { unfold len. rewrite Hb, !zlen_app. lia. }
  pose proof (zlen_nonneg (pk_payload k)).
  destruct (po_pad _ Hk) as [[-> Hpad]|[-> Hlast]]; cbn [Z.eqb negb andb].
  { rewrite Hl, Hpad. f_equal. change (zlen []) with 0. lia. }
  apply last_Some in Hlast as [l El]. rewrite El in Hl.
  rewrite zlen_app in Hl. change (zlen [_]) with 1 in Hl. pose proof (zlen_nonneg l).
  assert (Hn : Z.of_nat (length (pk_pad k)) = zlen l + 1) by (rewrite El, length_app; unfold zlen; cbn; lia).
  rewrite (proj2 (Z.ltb_lt _ _)), (proj2 (Z.eqb_neq _ _)) by lia. cbn [andb]. ored.
  rewrite Hn in El.
  replace (zlen pre + (len - zlen pre - 1)) with (zlen ((pre ++ pk_payload k) ++ l))
    by (rewrite !zlen_app; lia).
  rewrite Hb, El, (app_assoc pre), (app_assoc _ l), rd8_zlen. ored.
  rewrite (proj2 (Z.leb_le _ _)) by lia. f_equal. lia.
Qed.

(** C36: a well-formed packet, with any sources, extension and padding,
    is decoded to its header, its payload without the padding and its
    extension. *)
Theorem rtp_roundtrip k :
  packet_ok k ->
  let pkt := packet_bytes k in
  exists d, pjmedia_rtp_decode_rtp2 pkt (zlen pkt) = Some (PJ_SUCCESS, Some d) /\
    dec_hdr d = pk_hdr k /\ dec_payloadlen d = zlen (pk_payload k) /\
    match dec_payload d with
    | Some off => rdn pkt off (length (pk_payload k)) = Some (pk_payload k)
    | None => pk_payload k = []
    end /\
    match pk_ext k with
    | Some (profile, data) => exists off, dec_ext d = Some off /\
        dec_ext_len d * 4 = zlen data /\ rdn pkt off (length data) = Some data
    | None => dec_ext d = None
    end.
Proof.
  intros Hk pkt. unfold pjmedia_rtp_decode_rtp2.
  destruct (pkt_fields (pk_hdr k) (pk_csrc k ++ ext_bytes (pk_ext k) ++ pk_payload k ++ pk_pad k)
              (po_hdr _ Hk)) as (Hv & _ & _ & Hcc).
  change (pkt_v pkt = Some (hdr_v (pk_hdr k))) in Hv.
  change (pkt_cc pkt = Some (hdr_cc (pk_hdr k))) in Hcc. rewrite Hv. ored.
  rewrite (ho_v _ (po_hdr _ Hk)). cbn [Z.eqb negb RTP_VERSION Pos.eqb]. rewrite Hcc. ored.
  replace (sizeof_rtp_hdr + hdr_cc (pk_hdr k) * 4)
    with (zlen (hdr_bytes (pk_hdr k) ++ pk_csrc k)).
  2:{ rewrite zlen_app. unfold zlen, sizeof_rtp_hdr. rewrite (po_csrc _ Hk), hdr_bytes_length. lia. }
  subst pkt. rewrite decode_ext_bytes by done. ored.
  pose proof (remove_padding_bytes k Hk) as Hpad. cbn zeta in Hpad. rewrite app_assoc in Hpad.
  set (pre := (hdr_bytes (pk_hdr k) ++ pk_csrc k) ++ ext_bytes (pk_ext k)) in *.
  assert (Hb : packet_bytes k = pre ++ pk_payload k ++ pk_pad k).
  { unfold packet_bytes, pre. by rewrite <- !app_assoc. }
  assert (Hl : zlen (packet_bytes k) = zlen pre + zlen (pk_payload k) + zlen (pk_pad k)).
  { rewrite Hb, !zlen_app. lia. }
  pose proof (zlen_nonneg (pk_payload k)). pose proof (zlen_nonneg (pk_pad k)).
  assert (Hh : read_hdr (packet_bytes k) = Some (pk_hdr k))
    by apply (read_hdr_bytes _ _ (po_hdr _ Hk)).
  assert (Hpay : match (if zlen pre =? zlen (packet_bytes k) then None else Some (zlen pre)) with
    | Some off => rdn (packet_bytes k) off (length (pk_payload k)) = Some (pk_payload k)
    | None => pk_payload k = [] end).
  { destruct (Z.eqb_spec (zlen pre) (zlen (packet_bytes k))).
    - apply nil_length_inv. unfold zlen in *. lia.
    - rewrite Hb. apply rdn_zlen. }
  pose proof (po_ext _ Hk) as He. destruct (pk_ext k) as [[prof data]|] eqn:Ek.
  - rewrite (proj2 (Z.ltb_ge _ _)), Hpad by lia. ored. rewrite Hh. ored.
    eexists. split; [reflexivity|].
    cbn [dec_hdr dec_payloadlen dec_payload dec_ext dec_ext_len]. do 3 (split; [done|]).
    destruct He as (_ & n & Hd & _). eexists. split; [done|].
    split; [unfold zlen; rewrite Hd; zdivmod|].
    unfold packet_bytes. rewrite Ek. cbn [ext_bytes].
    change (zlen (hdr_bytes (pk_hdr k) ++ pk_csrc k) + 4)
      with (zlen (hdr_bytes (pk_hdr k) ++ pk_csrc k) + zlen (be16 prof ++ be16 (zlen data / 4))).
    rewrite <- zlen_app, !app_assoc, <- (app_assoc _ (pk_payload k)), <- (app_assoc _ data).
    apply rdn_zlen.
  - rewrite (proj2 (Z.ltb_ge _ _)), Hpad by lia. ored. rewrite Hh. ored.
    eexists. split; [reflexivity|]. cbn. auto.
Qed.

(** ** A sender and a receiver *)

(** Frames with a payload, each with its marker and the advance of the
    timestamp. *)
Fixpoint send (ses : pjmedia_rtp_session) (pt : Z) (frames : list (Z * Z)) :
    list pjmedia_rtp_hdr :=
  match frames with
  | [] => []
  | (m, ts_len) :: frames =>
      match pjmedia_rtp_encode_rtp ses pt m 1 ts_len with
      | (_, ses, Some h) => h :: send ses pt frames
      | (_, ses, None) => send ses pt frames
      end
  end.

Fixpoint receive (ses : pjmedia_rtp_session) (hdrs : list pjmedia_rtp_hdr) :
    pjmedia_rtp_session * list (option pjmedia_rtp_status) :=
  match hdrs with
  | [] => (ses, [])
  | h :: hdrs =>
      let '(ses, st) := pjmedia_rtp_session_update ses h (Some no_status) in
      let '(ses, sts) := receive ses hdrs in
      (ses, st :: sts)
  end.

(** Timestamps of the headers of a stream. *)
Fixpoint stamps (ts : Z) (frames : list (Z * Z)) : list Z :=
  match frames with
  | [] => []
  | (_, ts_len) :: frames => u32 (ts + ts_len) :: stamps (u32 (ts + ts_len)) frames
  end.

(** Headers numbered from [n]. *)
Fixpoint numbered (n pt : Z) (hdrs : list pjmedia_rtp_hdr) : Prop :=
  match hdrs with
  | [] => True
  | h :: hdrs => hdr_seq h = u16 n /\ hdr_pt h = pt /\ numbered (n + 1) pt hdrs
  end.

Lemma encode_next ses pt m ts_len :
  0 <= pt < 128 ->
  exists ses' h, pjmedia_rtp_encode_rtp ses pt m 1 ts_len = (PJ_SUCCESS, ses', Some h) /\
    out_hdr ses' = h /\ hdr_pt h = pt /\ hdr_seq h = u16 (out_extseq ses') /\
    out_extseq ses' = u32 (out_extseq ses + 1) /\ hdr_ts h = u32 (hdr_ts (out_hdr ses) + ts_len).
Proof.
  intros Hpt. do 2 eexists. split; [reflexivity|]. cbn.
  rewrite (proj2 (Z.eqb_neq pt (-1))) by lia. split_and!; try done. zdivmod.
Qed.

Lemma send_numbered pt frames : 0 <= pt < 128 -> forall ses n,
  u16 (out_extseq ses) = u16 n ->
  let hdrs := send ses pt frames in
  length hdrs = length frames /\ numbered (n + 1) pt hdrs /\
  hdr_ts <$> hdrs = stamps (hdr_ts (out_hdr ses)) frames.
Proof.
  intros Hpt. induction frames as [|[m ts_len] frames IH]; intros ses n Hn; [done|].
  cbn [send]. destruct (encode_next ses pt m ts_len Hpt) as (ses' & h & -> & E1 & E2 & E3 & E4 & E5).
  destruct (IH ses' (n + 1)) as (H1 & H2 & H3); [rewrite E4; zdivmod|].
  cbn. rewrite H1, H3, E1, E5. split; [done|]. split; [|done].
  split; [rewrite E3, E4; zdivmod|done].
Qed.

Lemma session_update_ctrl ses h :
  hdr_pt h = out_pt ses ->
  let ctrl := if received ses =? 0 then pjmedia_rtp_seq_init (seq_ctrl ses) (hdr_seq h)
              else seq_ctrl ses in
  let r := pjmedia_rtp_seq_update ctrl (hdr_seq h) in
  exists ses', pjmedia_rtp_session_update ses h (Some no_status) = (ses', Some r.2) /\
    seq_ctrl ses' = r.1 /\ out_pt ses' = out_pt ses /\
    (st_bad r.2 = false -> received ses' = u32 (received ses + 1)).
Proof.
  intros Hpt ctrl r. unfold pjmedia_rtp_session_update, pjmedia_rtp_session_update2.
  set (ses1 := if negb _ && _ then _ else _).
  assert (E1 : out_pt ses1 = out_pt ses /\ received ses1 = received ses /\ seq_ctrl ses1 = seq_ctrl ses)
    by (unfold ses1; by destruct (_ && _)).
  set (q := if negb (hdr_ssrc h =? peer_ssrc ses1) then _ else _).
  assert (E2 : out_pt q.2 = out_pt ses /\ received q.2 = received ses /\ seq_ctrl q.2 = seq_ctrl ses)
    by (unfold q; destruct (negb (hdr_ssrc h =? _)), (negb (has_peer_ssrc ses1)); exact E1).
  clearbody q. destruct q as [st ses2]. destruct E2 as (E2 & E3 & E4). cbn [snd] in *.
  rewrite E2, Hpt, Z.eqb_refl. cbn [negb andb].
  set (ses3 := if received ses2 =? 0 then _ else _).
  assert (E5 : out_pt ses3 = out_pt ses /\ received ses3 = received ses /\ seq_ctrl ses3 = ctrl).
  { unfold ses3, ctrl. rewrite E3, E4. by destruct (received ses =? 0). }
  clearbody ses3. destruct E5 as (E5 & E6 & ->). fold r. destruct r as [c st'].
  eexists. split; [reflexivity|]. cbn [fst snd].
  destruct (st_restart st'), (st_bad st'); cbn; rewrite ?E6; done.
Qed.

Lemma receive_tracks pt hdrs : forall ses base hi,
  out_pt ses = pt -> tracks (seq_ctrl ses) base hi -> 0 < received ses ->
  received ses + Z.of_nat (length hdrs) < 2 ^ 32 -> numbered (hi + 1) pt hdrs ->
  exists ses', receive ses hdrs =
    (ses', (fun _ => Some (no_status <| st_diff := 1 |>)) <$> hdrs) /\
    received ses' = received ses + Z.of_nat (length hdrs) /\
    tracks (seq_ctrl ses') base (hi + Z.of_nat (length hdrs)).
Proof.
  induction hdrs as [|h hdrs IH]; intros ses base hi Hpt Ht Hr Hlen Hn.
  { exists ses. cbn. by rewrite !Z.add_0_r. }
  destruct Hn as (Hseq & Hp & Hn). cbn [receive length] in *.
  destruct (session_update_ctrl ses h) as (ses1 & -> & E1 & E2 & E3); [congruence|].
  rewrite (proj2 (Z.eqb_neq (received ses) 0)), Hseq in * by lia.
  destruct (seq_update_tracks _ base hi (hi + 1) Ht) as (c & Ec & Hc).
  { unfold in_window, MAX_MISORDER, MAX_DROPOUT. lia. }
  rewrite Ec in *. cbn [fst snd] in *. unfold packet_status in *.
  rewrite (proj2 (Z.eqb_neq (hi + 1) hi)), (proj2 (Z.ltb_lt hi (hi + 1))) in * by lia.
  rewrite Z.max_r in Hc by lia. specialize (E3 eq_refl).
  rewrite u32_id in E3 by (unfold is_u32; lia).
  destruct (IH ses1 base (hi + 1)) as (ses2 & -> & E4 & E5); [congruence|by rewrite E1|lia|lia|done|].
  exists ses2. replace (hi + 1 - hi) with 1 by lia. split; [done|].
  rewrite E4, E3. split; [lia|]. by replace (hi + Z.of_nat (S (length hdrs)))
    with (hi + 1 + Z.of_nat (length hdrs)) by lia.
Qed.

(** a sender and a receiver together.  The packets of a stream have
    consecutive numbers modulo 2^16 and timestamps that add up; a receiver that
    gets them in order accepts every one, counts them all and, after the
    probation of the first, reports each as the next in sequence, however many
    times the 16-bit numbers wrap around. *)
Theorem rtp_stream_received tx rx pt f1 f2 frames :
  let n := out_extseq tx + 1 in
  let hdrs := send tx pt (f1 :: f2 :: frames) in
  0 <= pt < 128 -> out_pt rx = pt -> received rx = 0 -> 0 < u16 n < 65535 ->
  Z.of_nat (length frames) + 2 < 2 ^ 32 ->
  numbered n pt hdrs /\ hdr_ts <$> hdrs = stamps (hdr_ts (out_hdr tx)) (f1 :: f2 :: frames) /\
  exists rx', receive rx hdrs =
    (rx', Some (no_status <| st_probation := true |> <| st_diff := 1 |>)
          :: ((fun _ => Some (no_status <| st_diff := 1 |>)) <$> f2 :: frames)) /\
    received rx' = Z.of_nat (length frames) + 2.
Proof.
  intros n hdrs Hpt Hrx Hr Hn Hlen.
  destruct (send_numbered pt (f1 :: f2 :: frames) Hpt tx (out_extseq tx) eq_refl) as (H1 & H2 & H3).
  fold hdrs n in H1, H2, H3. split; [done|]. split; [done|]. clearbody hdrs.
  destruct hdrs as [|h1 [|h2 hdrs]]; [done..|]. destruct H2 as (S1 & P1 & S2 & P2 & H2).
  injection H1 as H1. cbn [receive].
  destruct (seq_start (seq_ctrl rx) n Hn) as (c & Ec & Hc). cbn [seq_run] in Ec.
  destruct (session_update_ctrl rx h1) as (rx1 & -> & A1 & A2 & A3); [congruence|].
  rewrite Hr, S1 in *. cbn [Z.eqb] in *.
  destruct (pjmedia_rtp_seq_update (pjmedia_rtp_seq_init (seq_ctrl rx) (u16 n)) (u16 n)) as [c1 st1].
  cbn [fst snd] in *.
  destruct (session_update_ctrl rx1 h2) as (rx2 & -> & B1 & B2 & B3); [congruence|].
  rewrite A1, S2 in *.
  destruct (pjmedia_rtp_seq_update c1 (u16 (n + 1))) as [c2 st2] eqn:E2. injection Ec as -> -> ->.
  specialize (A3 eq_refl). change (u32 (0 + 1)) with 1 in A3. rewrite A3 in *.
  cbn [Z.eqb Pos.eqb] in *. rewrite E2 in *. cbn [fst snd] in *. specialize (B3 eq_refl).
  change (u32 (1 + 1)) with 2 in B3.
  destruct (receive_tracks pt hdrs rx2 (n / 65536) (n + 1)) as (rx3 & E3 & R3 & _);
    [congruence|by rewrite B1|lia|rewrite B3, H1; lia|done|].
  rewrite E3. exists rx3. split; [|rewrite R3, B3, H1; lia]. do 3 f_equal. cbn. f_equal.
  clear -H1. revert frames H1. induction hdrs as [|h hdrs IH]; intros [|f frames] H; try done.
  cbn. f_equal. apply IH. by injection H.
Qed.

(** ** Witnesses *)

Definition demo_ctrl : pjmedia_rtp_seq_session := mk_seq_session 10 0 10 65537 0.

Definition demo_hdr : pjmedia_rtp_hdr := mk_rtp_hdr 2 1 1 1 1 96 65535 160 3735928559.

Definition demo_packet : packet :=
  mk_packet demo_hdr [1; 2; 3; 4] (Some (48862, [9; 8; 7; 6])) [10; 20; 30] [0; 2].

Definition demo_session : pjmedia_rtp_session :=
  (pjmedia_rtp_session_init 96 1234 0 100).2.

Lemma rtp_seq_tracks_witness :
  exists s', seq_run (pjmedia_rtp_seq_init demo_ctrl (u16 65533)) [65533; 65534; 65537; 65535; 65537] =
    (s', [no_status <| st_probation := true |> <| st_diff := 1 |>; no_status <| st_diff := 1 |>]
         ++ expected 65534 [65537; 65535; 65537]) /\
    ext_seq s' = u32 (highest 65534 [65537; 65535; 65537] - 65536 * (65533 / 65536)).
Proof.
  apply (rtp_seq_tracks demo_ctrl 65533 [65537; 65535; 65537]); [done|].
  cbn. unfold in_window, MAX_MISORDER, MAX_DROPOUT. lia.
Defined.

Lemma rtp_seq_jump_witness :
  exists s1 s2,
    pjmedia_rtp_seq_update demo_ctrl (u16 5000) =
      (s1, no_status <| st_bad := true |> <| st_outorder := true |>) /\ tracks s1 0 10 /\
    pjmedia_rtp_seq_update s1 (u16 (5000 + 1)) =
      (s2, no_status <| st_restart := true |> <| st_probation := true |> <| st_diff := 1 |>) /\
    tracks s2 ((5000 + 1) / 65536) (5000 + 1).
Proof. by apply (rtp_seq_jump demo_ctrl 0 10 5000). Defined.

Lemma rtp_decode_bounds_witness :
  exists st r, pjmedia_rtp_decode_rtp2 (packet_bytes demo_packet)
      (Z.of_nat (length (packet_bytes demo_packet))) = Some (st, r) /\
    (st = PJ_SUCCESS -> exists d, r = Some d /\
      decoded_in (Z.of_nat (length (packet_bytes demo_packet))) d).
Proof.
  apply (rtp_decode_bounds (packet_bytes demo_packet)); [|done].
  cbn. repeat (apply Forall_cons; split; [by unfold is_byte|]). constructor.
Defined.

Lemma rtp_roundtrip_witness :
  exists d, pjmedia_rtp_decode_rtp2 (packet_bytes demo_packet) (zlen (packet_bytes demo_packet)) =
      Some (PJ_SUCCESS, Some d) /\
    dec_hdr d = pk_hdr demo_packet /\ dec_payloadlen d = zlen (pk_payload demo_packet) /\
    match dec_payload d with
    | Some off => rdn (packet_bytes demo_packet) off (length (pk_payload demo_packet)) =
        Some (pk_payload demo_packet)
    | None => pk_payload demo_packet = []
    end /\
    match pk_ext demo_packet with
    | Some (profile, data) => exists off, dec_ext d = Some off /\
        dec_ext_len d * 4 = zlen data /\ rdn (packet_bytes demo_packet) off (length data) = Some data
    | None => dec_ext d = None
    end.
Proof.
  apply (rtp_roundtrip demo_packet). constructor; [by constructor|done| |by right|done].
  split; [done|]. by exists 1.
Defined.

Lemma rtp_stream_received_witness :
  let n := out_extseq demo_session + 1 in
  let hdrs := send demo_session 96 [(1, 160); (0, 160); (0, 160)] in
  numbered n 96 hdrs /\
  hdr_ts <$> hdrs = stamps (hdr_ts (out_hdr demo_session)) [(1, 160); (0, 160); (0, 160)] /\
  exists rx', receive demo_session hdrs =
    (rx', Some (no_status <| st_probation := true |> <| st_diff := 1 |>)
          :: ((fun _ => Some (no_status <| st_diff := 1 |>)) <$> [(0, 160); (0, 160)])) /\
    received rx' = Z.of_nat (length [(0, 160)]) + 2.
Proof. by apply (rtp_stream_received demo_session demo_session 96 (1, 160) (0, 160) [(0, 160)]). Defined.
