(* ===== verification/Dns.v ===== *)
(** * DNS packets

    Building queries, parsing packets with name compression and duplicating
    parsed packets: [pjlib-util/dns.c].  A packet is the buffer that holds it
    ([buf]) and its size ([max]); positions are offsets from its start, and
    reading past the end of the buffer is undefined.  The name being parsed is
    the list of the characters written so far, in a block of [cap] bytes:
    writing past the block is undefined.  Numbers up to the size of a packet
    are assumed to fit an [int]. *)

From S2P Require Import Prelude Bytes PjString.
Local Open Scope Z_scope.

(** ** Data *)

Definition PJLIB_UTIL_EDNSQRYTOOSMALL : Z := 320040.
Definition PJLIB_UTIL_EDNSINSIZE : Z := 320041.
Definition PJLIB_UTIL_EDNSINCLASS : Z := 320042.
Definition PJLIB_UTIL_EDNSINNAMEPTR : Z := 320043.

Definition PJ_DNS_TYPE_A : Z := 1.
Definition PJ_DNS_TYPE_NS : Z := 2.
Definition PJ_DNS_TYPE_CNAME : Z := 5.
Definition PJ_DNS_TYPE_PTR : Z := 12.
Definition PJ_DNS_TYPE_AAAA : Z := 28.
Definition PJ_DNS_TYPE_SRV : Z := 33.

Definition PJ_DNS_SET_RD (on : Z) : Z := u16 (Z.shiftl on 8).
Definition PJ_DNS_MAX_NAMES_IN_NAMETABLE : nat := 16.
Definition PJ_DNS_NO_QD : Z := 1.
Definition PJ_DNS_NO_ANS : Z := 2.
Definition PJ_DNS_NO_NS : Z := 4.
Definition PJ_DNS_NO_AR : Z := 8.

Definition dot : Z := 46.

Record pj_dns_hdr := mk_dns_hdr {
  h_id : Z;
  h_flags : Z;
  h_qdcount : Z;
  h_anscount : Z;
  h_nscount : Z;
  h_arcount : Z
}.

#[export] Instance eta_dns_hdr : Settable pj_dns_hdr :=
  fun h => mk_dns_hdr (h_id h) (h_flags h) (h_qdcount h) (h_anscount h) (h_nscount h)
             (h_arcount h).

Definition sizeof_dns_hdr : Z := 12.

Record pj_dns_parsed_query := mk_query { q_name : list Z; q_type : Z; q_dnsclass : Z }.

#[export] Instance eta_query : Settable pj_dns_parsed_query :=
  fun q => mk_query (q_name q) (q_type q) (q_dnsclass q).

(** The union [rdata]; an address is its bytes, in network order. *)
Inductive rdata :=
  | rdata_none
  | rdata_srv (prio weight port : Z) (target : list Z)
  | rdata_name (name : list Z)          (* cname, ns, ptr *)
  | rdata_a (ip_addr : list Z)
  | rdata_aaaa (ip_addr : list Z).

Record pj_dns_parsed_rr := mk_rr {
  rr_name : list Z;
  rr_type : Z;
  rr_dnsclass : Z;
  rr_ttl : Z;
  rr_rdlength : Z;
  rr_data : option (list Z);
  rr_rdata : rdata
}.

#[export] Instance eta_rr : Settable pj_dns_parsed_rr :=
  fun r => mk_rr (rr_name r) (rr_type r) (rr_dnsclass r) (rr_ttl r) (rr_rdlength r)
             (rr_data r) (rr_rdata r).

Record pj_dns_parsed_packet := mk_dns_packet {
  p_hdr : pj_dns_hdr;
  p_q : list pj_dns_parsed_query;
  p_ans : list pj_dns_parsed_rr;
  p_ns : list pj_dns_parsed_rr;
  p_arr : list pj_dns_parsed_rr
}.

(** ** Queries *)

Fixpoint until_dot (s : list Z) : list Z :=
  match s with [] => [] | c :: s => if c =? dot then [] else c :: until_dot s end.

Fixpoint from_dot (s : list Z) : list Z :=
  match s with [] => [] | c :: s' => if c =? dot then s else from_dot s' end.

(** Tokenize name. *)
Fixpoint tokenize (fuel : nat) (name : list Z) : list Z :=
  match fuel, name with
  | S fuel, _ :: _ =>
      let label := until_dot name in
      u8 (slen label) :: label
        ++ tokenize fuel (match from_dot name with [] => [] | _ :: rest => rest end)
  | _, _ => []
  end.

(** The status and the bytes written to [packet]; their number is [*size]. *)
Definition pj_dns_make_query (size id qtype : Z) (name : list Z) : Z * list Z :=
  if qtype =? 0 then (PJ_EINVAL, [])
  else
    let d := sizeof_dns_hdr + slen name + 4 in
    if negb (d <=? size) then (PJLIB_UTIL_EDNSQRYTOOSMALL, [])
    else
      (PJ_SUCCESS,
       be16 id ++ be16 (PJ_DNS_SET_RD 1) ++ be16 1 ++ [0; 0; 0; 0; 0; 0]
         ++ tokenize (length name) name ++ [0]
         ++ be16 (u16 qtype) ++ be16 1).

(** ** Names *)

(** The functions that may fail return [inl status] then. *)
Definition andthen {A B} (m : option (Z + A)) (f : A -> option (Z + B)) : option (Z + B) :=
  r ← m;
  match r with inl status => Some (inl status) | inr a => f a end.

Section packet.
Context (buf : list Z) (max : Z).

(** The compressed names: the 14-bit offset. *)
Definition read_offset (p : Z) : option Z := v ← rd16 buf p; Some (Z.lxor v 49152).

(** The loop of [get_name_len] at nesting [rec_counter]: the bytes parsed and
    the length of the name. *)
Fixpoint name_len_loop (fuel : nat) (rec_counter p parsed_len name_len : Z) :
    option (Z + Z * Z) :=
  match fuel with
  | O => None
  | S fuel =>
      b ← rd8 buf p;
      if b =? 0 then Some (inr (parsed_len + 1, name_len))
      else if Z.land b 192 =? 192 then
        offset ← read_offset p;
        if max <=? offset then Some (inl PJLIB_UTIL_EDNSINNAMEPTR)
        else if 10 <? rec_counter + 1 then Some (inl PJLIB_UTIL_EDNSINNAMEPTR)
        else
          r ← name_len_loop fuel (rec_counter + 1) offset 0 0;
          match r with
          | inl status => Some (inl status)
          | inr (_, ptr_len) => Some (inr (parsed_len + 2, name_len + ptr_len))
          end
      else
        let label_len := b in
        if max <? p + 1 + label_len + 1 then Some (inl PJLIB_UTIL_EDNSINNAMEPTR)
        else
          let p := p + (label_len + 1) in
          let parsed_len := parsed_len + (label_len + 1) in
          b ← rd8 buf p;
          let label_len := if negb (b =? 0) then label_len + 1 else label_len in
          name_len_loop fuel rec_counter p parsed_len (name_len + label_len)
  end.

Definition get_name_len (fuel : nat) (rec_counter start : Z) : option (Z + Z * Z) :=
  if 10 <? rec_counter then Some (inl PJLIB_UTIL_EDNSINNAMEPTR)
  else name_len_loop fuel rec_counter start 0 0.

(** Writing to a name of capacity [cap]. *)
Definition name_write (cap : Z) (name s : list Z) : option (list Z) :=
  if slen name + slen s <=? cap then Some (name ++ s) else None.

Fixpoint name_loop (fuel : nat) (rec_counter p cap : Z) (name : list Z) :
    option (Z + list Z) :=
  match fuel with
  | O => None
  | S fuel =>
      b ← rd8 buf p;
      if b =? 0 then Some (inr name)
      else if Z.land b 192 =? 192 then
        offset ← read_offset p;
        if max <=? offset then Some (inl PJLIB_UTIL_EDNSINNAMEPTR)
        else if 10 <? rec_counter + 1 then Some (inl PJLIB_UTIL_EDNSINNAMEPTR)
        else name_loop fuel (rec_counter + 1) offset cap name
      else
        let label_len := b in
        if max <? p + 1 + label_len + 1 then Some (inl PJLIB_UTIL_EDNSINNAMEPTR)
        else
          label ← rdn buf (p + 1) (Z.to_nat label_len);
          name ← name_write cap name label;
          let p := p + (label_len + 1) in
          b ← rd8 buf p;
          name ← (if negb (b =? 0) then name_write cap name [dot] else Some name);
          name_loop fuel rec_counter p cap name
  end.

Definition get_name (fuel : nat) (rec_counter start cap : Z) : option (Z + list Z) :=
  if 10 <? rec_counter then Some (inl PJLIB_UTIL_EDNSINNAMEPTR)
  else name_loop fuel rec_counter start cap [].

(** Every step advances in the packet or nests one level deeper. *)
Definition name_fuel : nat := 11 * S (Z.to_nat max).

(** The length of the name, a block for it with [extra] bytes more, and the
    name: the bytes parsed and the name. *)
Definition parse_name (start extra : Z) : option (Z + Z * list Z) :=
  andthen (get_name_len name_fuel 0 start) (fun '(name_part_len, name_len) =>
  andthen (get_name name_fuel 0 start (name_len + extra)) (fun name =>
  Some (inr (name_part_len, name)))).

(** ** Records *)

(** Parse query records: the query and [*parsed_len]. *)
Definition parse_query (start : Z) : option (Z + pj_dns_parsed_query * Z) :=
  andthen (parse_name start 4) (fun '(name_part_len, name) =>
  let p := start + name_part_len in
  if max <? p + 4 then Some (inl PJLIB_UTIL_EDNSINSIZE)
  else
    type ← rd16 buf p;
    dnsclass ← rd16 buf (p + 2);
    Some (inr (mk_query name type dnsclass, p + 4 - start))).

Definition is_name_type (type : Z) : bool :=
  (type =? PJ_DNS_TYPE_CNAME) || (type =? PJ_DNS_TYPE_NS) || (type =? PJ_DNS_TYPE_PTR).

(** Return error only if type is known. *)
Definition known_type (type : Z) : bool :=
  (type =? PJ_DNS_TYPE_A) || (type =? PJ_DNS_TYPE_AAAA) || (type =? PJ_DNS_TYPE_CNAME)
  || (type =? PJ_DNS_TYPE_NS) || (type =? PJ_DNS_TYPE_PTR) || (type =? PJ_DNS_TYPE_SRV).

(** Parse some well known records: the data and the position after it. *)
Definition parse_rdata (type rdlength p : Z) : option (Z + option (list Z) * rdata * Z) :=
  if type =? PJ_DNS_TYPE_A then
    ip_addr ← rdn buf p 4;
    Some (inr (None, rdata_a ip_addr, p + 4))
  else if type =? PJ_DNS_TYPE_AAAA then
    ip_addr ← rdn buf p 16;
    Some (inr (None, rdata_aaaa ip_addr, p + 16))
  else if is_name_type type then
    andthen (parse_name p 0) (fun '(name_part_len, name) =>
    Some (inr (None, rdata_name name, p + name_part_len)))
  else if type =? PJ_DNS_TYPE_SRV then
    prio ← rd16 buf p;
    weight ← rd16 buf (p + 2);
    port ← rd16 buf (p + 4);
    let p := p + 6 in
    andthen (parse_name p 0) (fun '(name_part_len, target) =>
    Some (inr (None, rdata_srv prio weight port target, p + name_part_len)))
  else
    data ← rdn buf p (Z.to_nat rdlength);
    Some (inr (Some data, rdata_none, p + rdlength)).

(** Parse RR records. *)
Definition parse_rr (start : Z) : option (Z + pj_dns_parsed_rr * Z) :=
  andthen (parse_name start 4) (fun '(name_part_len, name) =>
  let p := start + name_part_len in
  if max <? p + 10 then Some (inl PJLIB_UTIL_EDNSINSIZE)
  else
    type ← rd16 buf p;
    dnsclass ← rd16 buf (p + 2);
    if negb (dnsclass =? 1) && known_type type then Some (inl PJLIB_UTIL_EDNSINCLASS)
    else
      ttl ← rd32 buf (p + 4);
      rdlength ← rd16 buf (p + 8);
      let p := p + 10 in
      if max <? p + rdlength then Some (inl PJLIB_UTIL_EDNSINSIZE)
      else
        andthen (parse_rdata type rdlength p) (fun '(data, rdata, p) =>
        Some (inr (mk_rr name type dnsclass ttl rdlength data rdata, p - start)))).

(** The [count] records of a section: the records and the position after. *)
Fixpoint parse_section {A} (parse : Z -> option (Z + A * Z)) (count : nat) (start : Z) :
    option (Z + list A * Z) :=
  match count with
  | O => Some (inr ([], start))
  | S count =>
      andthen (parse start) (fun '(r, parsed_len) =>
      andthen (parse_section parse count (start + parsed_len)) (fun '(l, start) =>
      Some (inr (r :: l, start))))
  end.

Definition read_dns_hdr : option pj_dns_hdr :=
  id ← rd16 buf 0;
  flags ← rd16 buf 2;
  qdcount ← rd16 buf 4;
  anscount ← rd16 buf 6;
  nscount ← rd16 buf 8;
  arcount ← rd16 buf 10;
  Some (mk_dns_hdr id flags qdcount anscount nscount arcount).

(** Parse raw DNS packet into DNS packet structure; [max] is its size. *)
Definition pj_dns_parse_packet : option (Z + pj_dns_parsed_packet) :=
  if max =? 0 then Some (inl PJ_EINVAL)
  else if max <? sizeof_dns_hdr then Some (inl PJLIB_UTIL_EDNSINSIZE)
  else
    hdr ← read_dns_hdr;
    let start := sizeof_dns_hdr in
    andthen (parse_section parse_query (Z.to_nat (h_qdcount hdr)) start) (fun '(q, start) =>
    andthen (parse_section parse_rr (Z.to_nat (h_anscount hdr)) start) (fun '(ans, start) =>
    andthen (parse_section parse_rr (Z.to_nat (h_nscount hdr)) start) (fun '(ns, start) =>
    andthen (parse_section parse_rr (Z.to_nat (h_arcount hdr)) start) (fun '(arr, start) =>
    Some (inr (mk_dns_packet hdr q ans ns arr)))))).

End packet.

(** ** Duplication *)

(** Perform name compression scheme: the table of names and the name used. *)
Definition apply_name_table (nametable : list (list Z)) (src : list Z) :
    list (list Z) * list Z :=
  match list_find (fun name => stricmp_eq name src) nametable with
  | Some (_, name) => (nametable, name)
  | None =>
      (if Nat.ltb (length nametable) PJ_DNS_MAX_NAMES_IN_NAMETABLE
       then nametable ++ [src] else nametable, src)
  end.

Definition copy_query (nametable : list (list Z)) (src : pj_dns_parsed_query) :
    list (list Z) * pj_dns_parsed_query :=
  let '(nametable, name) := apply_name_table nametable (q_name src) in
  (nametable, src <| q_name := name |>).

Definition copy_rr (nametable : list (list Z)) (src : pj_dns_parsed_rr) :
    list (list Z) * pj_dns_parsed_rr :=
  let '(nametable, name) := apply_name_table nametable (rr_name src) in
  let dst := src <| rr_name := name |> in
  if rr_type src =? PJ_DNS_TYPE_SRV then
    match rr_rdata src with
    | rdata_srv prio weight port target =>
        let '(nametable, target) := apply_name_table nametable target in
        (nametable, dst <| rr_rdata := rdata_srv prio weight port target |>)
    | _ => (nametable, dst)
    end
  else (nametable, dst).

Fixpoint copy_section {A} (copy : list (list Z) -> A -> list (list Z) * A)
    (nametable : list (list Z)) (src : list A) : list (list Z) * list A :=
  match src with
  | [] => (nametable, [])
  | r :: src =>
      let '(nametable, r) := copy nametable r in
      let '(nametable, l) := copy_section copy nametable src in
      (nametable, r :: l)
  end.

(** Duplicate DNS packet. *)
Definition pj_dns_packet_dup (p : pj_dns_parsed_packet) (options : Z) : pj_dns_parsed_packet :=
  let keep flag := Z.land options flag =? 0 in
  let section {A} flag copy nametable (l : list A) :=
    if keep flag then copy_section copy nametable l else (nametable, []) in
  let '(nametable, q) := section PJ_DNS_NO_QD copy_query [] (p_q p) in
  let '(nametable, ans) := section PJ_DNS_NO_ANS copy_rr nametable (p_ans p) in
  let '(nametable, ns) := section PJ_DNS_NO_NS copy_rr nametable (p_ns p) in
  let '(nametable, arr) := section PJ_DNS_NO_AR copy_rr nametable (p_arr p) in
  let count {A} (l : list A) := Z.of_nat (length l) in
  mk_dns_packet
    (p_hdr p <| h_qdcount := count q |> <| h_anscount := count ans |>
             <| h_nscount := count ns |> <| h_arcount := count arr |>)
    q ans ns arr.

(** ** Building records *)

Definition pj_dns_init_srv_rr (res_name : list Z) (dnsclass ttl prio weight port : Z)
    (target : list Z) : pj_dns_parsed_rr :=
  mk_rr res_name PJ_DNS_TYPE_SRV (u16 dnsclass) ttl 0 None
    (rdata_srv (u16 prio) (u16 weight) (u16 port) target).

Definition pj_dns_init_cname_rr (res_name : list Z) (dnsclass ttl : Z) (name : list Z) :
    pj_dns_parsed_rr :=
  mk_rr res_name PJ_DNS_TYPE_CNAME (u16 dnsclass) ttl 0 None (rdata_name name).

Definition pj_dns_init_a_rr (res_name : list Z) (dnsclass ttl : Z) (ip_addr : list Z) :
    pj_dns_parsed_rr :=
  mk_rr res_name PJ_DNS_TYPE_A (u16 dnsclass) ttl 0 None (rdata_a ip_addr).

Definition pj_dns_init_aaaa_rr (res_name : list Z) (dnsclass ttl : Z) (ip_addr : list Z) :
    pj_dns_parsed_rr :=
  mk_rr res_name PJ_DNS_TYPE_AAAA (u16 dnsclass) ttl 0 None (rdata_aaaa ip_addr).
