(* ===== verification/DnsSpec.v ===== *)
(** * DNS packets: properties

    What a compressed name in a packet stands for, as an inductive relation,
    and the parsing of names against it; the safety of parsing any packet; the
    round trip of queries; duplication. *)

From S2P Require Import Prelude Bytes Hash PjString Dns.
Local Open Scope Z_scope.

(** How far past the end of a packet the parser may read. *)
Definition slack : Z := 18.

(** ** Names in packets *)

Section names.
Context (buf : list Z) (max : Z).
Hypothesis (Hbytes : Forall is_byte buf).
Hypothesis (Hmax : 0 <= max).
Hypothesis (Hbuf : max + slack <= Z.of_nat (length buf)).

(** At [p] there is a name with text [s] in [n] bytes, through at most [d]
    pointers.  A label is followed by a dot unless the packet has a 0 next. *)
Inductive name_at : nat -> Z -> list Z -> Z -> Prop :=
  | na_end d p : rd8 buf p = Some 0 -> name_at d p [] 1
  | na_label d p b l c s n :
      rd8 buf p = Some b -> b <> 0 -> Z.land b 192 <> 192 -> p + 1 + b + 1 <= max ->
      rdn buf (p + 1) (Z.to_nat b) = Some l -> rd8 buf (p + (b + 1)) = Some c ->
      name_at d (p + (b + 1)) s n ->
      name_at d p (l ++ (if c =? 0 then [] else [dot]) ++ s) (b + 1 + n)
  | na_ptr d p b offset s n :
      rd8 buf p = Some b -> Z.land b 192 = 192 -> read_offset buf p = Some offset ->
      offset < max -> name_at d offset s n -> name_at (S d) p s 2.

Lemma read_offset_in p :
  0 <= p -> p + 2 <= Z.of_nat (length buf) ->
  exists offset, read_offset buf p = Some offset /\ 0 <= offset.
Proof.
  intros H1 H2. unfold read_offset. destruct (rd16_in buf p H1 H2) as [v Hv].
  pose proof (rd16_range _ _ _ Hbytes Hv) as Hr. rewrite Hv. ored. eexists. split; [done|].
  apply Z.lxor_nonneg. unfold is_u16 in Hr. lia.
Qed.

Lemma land_0_192 : Z.land 0 192 <> 192.
Proof. done. Qed.

(** Parsing the length of a name ends, and leaves the position where the
    fixed fields are checked against the end of the packet. *)
Lemma name_len_total fuel : forall rec p parsed nlen,
  0 <= p <= max + 16 -> 0 <= rec <= 10 ->
  (10 - rec) * (max + 1) + Z.max 0 (max - p) + 1 <= Z.of_nat fuel ->
  exists r, name_len_loop buf max fuel rec p parsed nlen = Some r /\
    match r with
    | inl status => status = PJLIB_UTIL_EDNSINNAMEPTR
    | inr (parsed', _) => parsed < parsed' /\
        p + (parsed' - parsed) <= Z.max (max + 1) (p + 2)
    end.
Proof.
  unfold slack in Hbuf. induction fuel as [|fuel IH]; intros rec p parsed nlen Hp Hrec Hf; [nia|].
  cbn [name_len_loop]. destruct (rd8_in buf p) as [b Hb]; [lia|]. rewrite Hb. ored.
  apply rd8_byte in Hb; [|done]. unfold is_byte in Hb.
  destruct (Z.eqb_spec b 0); [eexists; split; [done|]; cbn; lia|].
  destruct (Z.eqb_spec (Z.land b 192) 192).
  - destruct (read_offset_in p) as (off & -> & Ho); [lia..|]. ored.
    destruct (Z.leb_spec max off); [by eexists|].
    destruct (Z.ltb_spec 10 (rec + 1)); [by eexists|].
    destruct (IH (rec + 1) off 0 0) as (r & -> & Hr); [lia|lia|nia|]. ored.
    destruct r as [st|[pl nl]]; eexists; (split; [done|]); [done|cbn; lia].
  - destruct (Z.ltb_spec max (p + 1 + b + 1)); [by eexists|].
    destruct (rd8_in buf (p + (b + 1))) as [c ->]; [lia|]. ored.
    match goal with |- context [name_len_loop _ _ _ _ _ ?x ?y] =>
      destruct (IH rec (p + (b + 1)) x y) as (r & -> & Hr) end; [lia|lia|lia|].
    eexists. split; [done|]. destruct r as [st|[pl nl]]; [done|lia].
Qed.

(** When it succeeds there is a name at the position, and the copy of the
    name fits a block of the length found. *)
Lemma name_loops_sound fuel : forall rec p parsed nlen parsed' nlen',
  0 <= p -> rec <= 10 ->
  name_len_loop buf max fuel rec p parsed nlen = Some (inr (parsed', nlen')) ->
  exists d s, rec + Z.of_nat d <= 10 /\ name_at d p s (parsed' - parsed) /\
    nlen' = nlen + slen s /\
    forall cap name, slen name + slen s <= cap ->
      name_loop buf max fuel rec p cap name = Some (inr (name ++ s)).
Proof.
  unfold slack in Hbuf. induction fuel as [|fuel IH]; intros rec p parsed nlen parsed' nlen' Hp Hrec H; [done|].
  cbn [name_len_loop name_loop] in *. destruct (rd8 buf p) as [b|] eqn:Hb; [|done].
  cbn [mbind option_bind] in *. pose proof (rd8_byte _ _ _ Hbytes Hb) as Hr. unfold is_byte in Hr.
  destruct (Z.eqb_spec b 0) as [->|Hb0].
  { injection H as <- <-. exists 0%nat, []. replace (parsed + 1 - parsed) with 1 by lia.
    split; [lia|]. split; [by constructor|]. split; [unfold slen; cbn; lia|].
    intros. by rewrite app_nil_r. }
  destruct (Z.eqb_spec (Z.land b 192) 192) as [Hc|Hc].
  - destruct (read_offset buf p) as [off|] eqn:Ho; [|done]. cbn [mbind option_bind] in *.
    destruct (Z.leb_spec max off); [done|]. destruct (Z.ltb_spec 10 (rec + 1)); [done|].
    destruct (name_len_loop buf max fuel (rec + 1) off 0 0) as [[st|[n l]]|] eqn:E; try done.
    cbn [mbind option_bind] in *. injection H as <- <-.
    assert (0 <= off).
    { unfold read_offset in Ho. obind_inv. apply Z.lxor_nonneg.
      apply rd16_range in E0; [|done]. unfold is_u16 in E0. lia. }
    apply IH in E as (d & s & Hd & Hn & -> & Hcopy); [|done|done].
    exists (S d), s. replace (parsed + 2 - parsed) with 2 by lia.
    split; [lia|]. split; [by econstructor|]. split; [lia|]. exact Hcopy.
  - destruct (Z.ltb_spec max (p + 1 + b + 1)); [done|].
    destruct (rd8 buf (p + (b + 1))) as [c|] eqn:Hnext; [|done]. cbn [mbind option_bind] in *.
    apply IH in H as (d & s & Hd & Hn & -> & Hcopy); [|lia|done].
    destruct (rdn_in buf (Z.to_nat b) (p + 1)) as (l & Hl & Hlen); [lia..|].
    exists d, (l ++ (if c =? 0 then [] else [dot]) ++ s).
    assert (Hsl : slen l = b) by (unfold slen; lia).
    split; [done|]. split.
    { replace (parsed' - parsed) with (b + 1 + (parsed' - (parsed + (b + 1)))) by lia.
      by eapply na_label. }
    rewrite !slen_app, Hsl. split; [destruct (c =? 0); unfold slen; cbn; lia|].
    intros cap name Hcap. rewrite Hl. ored. unfold name_write.
    pose proof (slen_nonneg s). pose proof (slen_nonneg name).
    assert (0 <= slen (if c =? 0 then [] else [dot])) by apply slen_nonneg.
    rewrite (proj2 (Z.leb_le (slen name + slen l) cap)) by lia. ored.
    destruct (c =? 0); cbn [negb]; ored.
    + rewrite Hcopy by (rewrite slen_app; change (slen []) with 0 in *; lia).
      by rewrite <- app_assoc.
    + change (slen [dot]) with 1 in *. rewrite (proj2 (Z.leb_le _ cap)) by (rewrite slen_app; lia).
      ored. rewrite Hcopy by (rewrite !slen_app; change (slen [dot]) with 1; lia).
      by rewrite <- !app_assoc.
Qed.

Lemma name_len_complete d p s n : name_at d p s n -> forall fuel rec parsed nlen r,
  rec + Z.of_nat d <= 10 -> name_len_loop buf max fuel rec p parsed nlen = Some r ->
  r = inr (parsed + n, nlen + slen s).
Proof.
  induction 1 as [d p Hb|d p b l c s n Hb Hb0 Hc Hm Hl Hnext Hat IH|d p b off s n Hb Hc Ho Hm Hat IH];
    intros [|fuel] rec parsed nlen r Hd H; try done; cbn [name_len_loop] in H; rewrite Hb in H;
    cbn [mbind option_bind] in H.
  - rewrite Z.eqb_refl in H. injection H as <-. unfold slen. cbn. do 3 f_equal. lia.
  - rewrite (proj2 (Z.eqb_neq _ _) Hb0), (proj2 (Z.eqb_neq _ _) Hc), (proj2 (Z.ltb_ge _ _)) in H by lia.
    rewrite Hnext in H. cbn [mbind option_bind] in H. apply IH in H as ->; [|done].
    assert (Hsl : slen l = b).
    { pose proof (rd8_byte _ _ _ Hbytes Hb) as Hr. unfold is_byte in Hr.
      destruct (rdn_in buf (Z.to_nat b) (p + 1)) as (l' & Hl' & Hlen).
      - unfold rd8, zlookup in Hb. case_decide; [lia|done].
      - unfold slack in Hbuf. lia.
      - rewrite Hl in Hl'. injection Hl' as <-. unfold slen. lia. }
    do 2 f_equal; [lia|]. rewrite !slen_app, Hsl.
    destruct (c =? 0); cbn [negb]; unfold slen; cbn; lia.
  - destruct (Z.eqb_spec b 0) as [->|_]; [by destruct (land_0_192)|].
    rewrite Hc, Ho in H. cbn [mbind option_bind Z.eqb Pos.eqb] in H.
    rewrite (proj2 (Z.leb_gt max off)), (proj2 (Z.ltb_ge 10 _)) in H by lia.
    destruct (name_len_loop buf max fuel (rec + 1) off 0 0) as [r'|] eqn:E; [|done].
    apply IH in E as ->; [|lia]. injection H as <-. done.
Qed.

(** A position has at most one name. *)
Lemma name_at_functional d p s n : name_at d p s n -> forall d' s' n',
  name_at d' p s' n' -> s = s'.
Proof.
  induction 1 as [d p Hb|d p b l c s n Hb Hb0 Hc Hm Hl Hnext Hat IH|d p b off s n Hb Hc Ho Hm Hat IH];
    intros d' s' n' H'; inversion H'; subst; try congruence;
    repeat match goal with
    | H1 : ?x = Some ?a, H2 : ?x = Some ?a' |- _ =>
        rewrite H1 in H2; injection H2 as H2; subst
    end; try congruence; try (by destruct land_0_192).
  - do 2 f_equal. by eapply IH.
  - by eapply IH.
Qed.

Definition named (s : list Z) : Prop := exists d p n, (d <= 10)%nat /\ name_at d p s n.

Lemma parse_name_total start extra :
  0 <= start <= max + 16 -> 0 <= extra ->
  exists r, parse_name buf max start extra = Some r /\
    match r with
    | inl status => status = PJLIB_UTIL_EDNSINNAMEPTR
    | inr (n, s) => 0 < n /\ start + n <= Z.max (max + 1) (start + 2) /\
        exists d, (d <= 10)%nat /\ name_at d start s n
    end.
Proof.
  intros Hs He. unfold parse_name, get_name_len, get_name. cbn [Z.ltb Z.compare].
  destruct (name_len_total (name_fuel max) 0 start 0 0) as (r & Hr & Hp); [lia|lia|unfold name_fuel; lia|].
  rewrite Hr. unfold andthen at 1. ored. destruct r as [st|[n l]]; [by eexists|].
  destruct (name_loops_sound (name_fuel max) 0 start 0 0 n l) as (d & s & Hd & Hat & -> & Hcopy);
    [lia|lia|done|].
  unfold andthen. rewrite Hcopy by (unfold slen; cbn; lia). ored.
  eexists. split; [done|]. rewrite Z.sub_0_r in *. cbn [app]. split; [lia|]. split; [lia|].
  exists d. split; [lia|done].
Qed.

(** ** Records *)

Lemma parse_query_total start :
  0 <= start <= max + 16 ->
  exists r, parse_query buf max start = Some r /\
    match r with
    | inl status => status <> PJ_SUCCESS
    | inr (q, n) => 0 < n /\ start + n <= max + 16 /\ named (q_name q)
    end.
Proof.
  intros Hs. unfold parse_query, slack in *.
  destruct (parse_name_total start 4 Hs ltac:(lia)) as (r & -> & Hr). unfold andthen. ored.
  destruct r as [st|[n s]]; [eexists; split; [done|]; by rewrite Hr|].
  destruct Hr as (Hn & Hp & d & Hd & Hat). destruct (Z.ltb_spec max (start + n + 4)); [by eexists|].
  destruct (rd16_in buf (start + n)) as [type ->]; [lia..|]. ored.
  destruct (rd16_in buf (start + n + 2)) as [class ->]; [lia..|]. ored.
  eexists. split; [done|]. cbn. split; [lia|]. split; [lia|]. by exists d, start, n.
Qed.

(** The union of a record agrees with its type. *)
Definition rdata_typed (type rdlength : Z) (data : option (list Z)) (rd : rdata) : Prop :=
  match rd with
  | rdata_a ip => type = PJ_DNS_TYPE_A /\ length ip = 4%nat /\ data = None
  | rdata_aaaa ip => type = PJ_DNS_TYPE_AAAA /\ length ip = 16%nat /\ data = None
  | rdata_name s => is_name_type type = true /\ named s /\ data = None
  | rdata_srv prio weight port target =>
      type = PJ_DNS_TYPE_SRV /\ is_u16 prio /\ is_u16 weight /\ is_u16 port /\ named target /\
      data = None
  | rdata_none => known_type type = false /\
      exists l, data = Some l /\ Z.of_nat (length l) = rdlength
  end.

Record rr_typed (r : pj_dns_parsed_rr) : Prop := mk_rr_typed {
  rt_name : named (rr_name r);
  rt_type : is_u16 (rr_type r);
  rt_class : is_u16 (rr_dnsclass r);
  rt_in : known_type (rr_type r) = true -> rr_dnsclass r = 1;
  rt_ttl : is_u32 (rr_ttl r);
  rt_rdata : rdata_typed (rr_type r) (rr_rdlength r) (rr_data r) (rr_rdata r)
}.

Lemma rd32_range i v : rd32 buf i = Some v -> is_u32 v.
Proof.
  unfold rd32. intros H. obind_inv. apply rd16_range in E; [|done].
  apply rd16_range in E0; [|done]. unfold is_u16, is_u32 in *. lia.
Qed.

Lemma parse_rdata_total type rdlength p :
  0 <= p -> 0 <= rdlength -> p + rdlength <= max ->
  exists r, parse_rdata buf max type rdlength p = Some r /\
    match r with
    | inl status => status <> PJ_SUCCESS
    | inr (data, rd, q) => p <= q <= max + 16 /\ rdata_typed type rdlength data rd
    end.
Proof.
  intros Hp Hrd Hlen. unfold parse_rdata, slack in *.
  destruct (Z.eqb_spec type PJ_DNS_TYPE_A) as [->|HA].
  { destruct (rdn_in buf 4 p) as (l & -> & Hl); [lia..|]. ored. eexists. split; [done|]. cbn. auto with lia. }
  destruct (Z.eqb_spec type PJ_DNS_TYPE_AAAA) as [->|H4].
  { destruct (rdn_in buf 16 p) as (l & -> & Hl); [lia..|]. ored. eexists. split; [done|]. cbn. auto with lia. }
  destruct (is_name_type type) eqn:Hname.
  { destruct (parse_name_total p 0) as (r & -> & Hr); [lia..|]. unfold andthen. ored.
    destruct r as [st|[n s]]; [eexists; split; [done|]; by rewrite Hr|].
    destruct Hr as (Hn & Hq & d & Hd & Hat). eexists. split; [done|]. cbn. split; [lia|].
    split; [done|]. split; [by exists d, p, n|done]. }
  destruct (Z.eqb_spec type PJ_DNS_TYPE_SRV) as [->|HS].
  { destruct (rd16_in buf p) as [x Hx]; [lia..|]. rewrite Hx. ored.
    destruct (rd16_in buf (p + 2)) as [y Hy]; [lia..|]. rewrite Hy. ored.
    destruct (rd16_in buf (p + 4)) as [z Hz]; [lia..|]. rewrite Hz. ored.
    destruct (parse_name_total (p + 6) 0) as (r & -> & Hr); [lia..|]. unfold andthen. ored.
    destruct r as [st|[n s]]; [eexists; split; [done|]; by rewrite Hr|].
    destruct Hr as (Hn & Hq & d & Hd & Hat). eexists. split; [done|]. cbn. split; [lia|].
    split_and!; try (by eapply rd16_range); try done. by exists d, (p + 6), n. }
  destruct (rdn_in buf (Z.to_nat rdlength) p) as (l & -> & Hl); [lia..|]. ored.
  eexists. split; [done|]. cbn. split; [lia|]. split; [|exists l; split; [done|lia]].
  unfold is_name_type in Hname. unfold known_type. zbool.
  repeat match goal with |- context [type =? ?t] => rewrite (proj2 (Z.eqb_neq type t)) by done end.
  done.
Qed.

Lemma parse_rr_total start :
  0 <= start <= max + 16 ->
  exists r, parse_rr buf max start = Some r /\
    match r with
    | inl status => status <> PJ_SUCCESS
    | inr (rr, n) => 0 < n /\ start + n <= max + 16 /\ rr_typed rr
    end.
Proof.
  intros Hs. unfold parse_rr. unfold slack in Hbuf.
  destruct (parse_name_total start 4 Hs ltac:(lia)) as (r & -> & Hr). unfold andthen at 1. ored.
  destruct r as [st|[n s]]; [eexists; split; [done|]; by rewrite Hr|].
  destruct Hr as (Hn & Hp & d & Hd & Hat). set (p := start + n) in *.
  destruct (Z.ltb_spec max (p + 10)); [by eexists|].
  destruct (rd16_in buf p) as [type Ht]; [lia..|]. rewrite Ht. ored.
  destruct (rd16_in buf (p + 2)) as [class Hc]; [lia..|]. rewrite Hc. ored.
  destruct (negb (class =? 1) && known_type type) eqn:Hk; [by eexists|].
  destruct (rd32_in buf (p + 4)) as [ttl Httl]; [lia..|]. rewrite Httl. ored.
  destruct (rd16_in buf (p + 8)) as [rdl Hrdl]; [lia..|]. rewrite Hrdl. ored.
  pose proof (rd16_range _ _ _ Hbytes Hrdl) as Hrange. unfold is_u16 in Hrange.
  destruct (Z.ltb_spec max (p + 10 + rdl)); [by eexists|].
  destruct (parse_rdata_total type rdl (p + 10)) as (r & -> & Hr); [lia..|]. unfold andthen. ored.
  destruct r as [st|[[data rd] q]]; [by eexists|]. destruct Hr as [Hq Hty].
  eexists. split; [done|]. cbn. split; [lia|]. split; [lia|].
  constructor; cbn; [by exists d, start, n|by eapply rd16_range|by eapply rd16_range| |
    by eapply rd32_range|done].
  intros Hknown. rewrite Hknown, andb_true_r in Hk. by zbool.
Qed.

Lemma parse_section_total {A} (parse : Z -> option (Z + A * Z)) (P : A -> Prop) count :
  (forall start, 0 <= start <= max + 16 ->
    exists r, parse start = Some r /\
      match r with
      | inl status => status <> PJ_SUCCESS
      | inr (a, n) => 0 < n /\ start + n <= max + 16 /\ P a
      end) ->
  forall start, 0 <= start <= max + 16 ->
    exists r, parse_section parse count start = Some r /\
      match r with
      | inl status => status <> PJ_SUCCESS
      | inr (l, q) => 0 <= q <= max + 16 /\ length l = count /\ Forall P l
      end.
Proof.
  intros Hp. induction count as [|count IH]; intros start Hs; cbn [parse_section].
  { eexists. split; [done|]. cbn. split; [lia|]. split; [done|constructor]. }
  destruct (Hp start Hs) as (r & -> & Hr). unfold andthen at 1. ored.
  destruct r as [st|[a n]]; [by eexists|]. destruct Hr as (Hn & Hq & Ha).
  destruct (IH (start + n)) as (r & -> & Hr); [lia|]. unfold andthen. ored.
  destruct r as [st|[l q]]; [by eexists|]. destruct Hr as (Hq' & Hl & Hf).
  eexists. split; [done|]. cbn. rewrite Hl. auto.
Qed.

End names.

(** ** Properties *)

(** A packet of [max] bytes in a buffer. *)
Record packet_in (buf : list Z) (max : Z) : Prop := mk_packet_in {
  pi_bytes : Forall is_byte buf;
  pi_size : 0 <= max;
  pi_slack : max + slack <= Z.of_nat (length buf)
}.

(** Where there is a name, parsing finds it. *)
Lemma dns_name_at buf max start extra d s n :
  packet_in buf max -> 0 <= start <= max -> 0 <= extra -> (d <= 10)%nat ->
  name_at buf max d start s n -> parse_name buf max start extra = Some (inr (n, s)).
Proof.
  intros [Hb Hm Hs] Hst He Hd Hat. unfold parse_name, get_name_len. cbn [Z.ltb Z.compare].
  destruct (name_len_total buf max Hb Hm Hs (name_fuel max) 0 start 0 0) as (q & Hq & _);
    [lia|lia|unfold name_fuel; lia|].
  assert (q = inr (0 + n, 0 + slen s)) as ->
    by (eapply (name_len_complete buf max) with (rec := 0) (d := d); [done..|lia|exact Hq]).
  rewrite Hq. unfold andthen at 1. ored. unfold get_name. cbn [Z.ltb Z.compare].
  eapply (name_loops_sound buf max) in Hq as (d' & s' & Hd' & Hat' & Hlen & Hcopy); [|done|done|lia|lia].
  rewrite Hcopy by (unfold slen in *; cbn; lia). unfold andthen. ored. do 3 f_equal.
  by apply (name_at_functional buf max d' start s' _ Hat' d s n).
Qed.

(** C29: parsing a name succeeds exactly when there is one, in at most
    ten pointers, and gives its text and its length in the packet; otherwise
    it fails with the status of an invalid name pointer.  The block allocated
    for the name is long enough. *)
Theorem dns_name_spec buf max start extra :
  packet_in buf max -> 0 <= start <= max -> 0 <= extra ->
  exists r, parse_name buf max start extra = Some r /\
    (forall n s, r = inr (n, s) <-> exists d, (d <= 10)%nat /\ name_at buf max d start s n) /\
    (forall st, r = inl st -> st = PJLIB_UTIL_EDNSINNAMEPTR).
Proof.
  intros H Hst He. pose proof H as [Hb Hm Hs].
  destruct (parse_name_total buf max Hb Hm Hs start extra) as (r & Hr & Hp); [lia|done|].
  exists r. split; [done|]. split; [|intros st ->; exact Hp]. intros n s. split.
  - intros ->. apply Hp.
  - intros (d & Hd & Hat). rewrite (dns_name_at buf max start extra d s n) in Hr by done.
    by injection Hr.
Qed.

Record packet_typed (buf : list Z) (max : Z) (p : pj_dns_parsed_packet) : Prop := mk_packet_typed {
  pt_qdcount : Z.of_nat (length (p_q p)) = h_qdcount (p_hdr p);
  pt_anscount : Z.of_nat (length (p_ans p)) = h_anscount (p_hdr p);
  pt_nscount : Z.of_nat (length (p_ns p)) = h_nscount (p_hdr p);
  pt_arcount : Z.of_nat (length (p_arr p)) = h_arcount (p_hdr p);
  pt_q : Forall (fun q => named buf max (q_name q)) (p_q p);
  pt_ans : Forall (rr_typed buf max) (p_ans p);
  pt_ns : Forall (rr_typed buf max) (p_ns p);
  pt_arr : Forall (rr_typed buf max) (p_arr p)
}.

Lemma parse_packet_total buf max :
  packet_in buf max ->
  exists r, pj_dns_parse_packet buf max = Some r /\
    match r with
    | inl status => status <> PJ_SUCCESS
    | inr p => packet_typed buf max p
    end.
Proof.
  intros [Hb Hm Hs]. unfold pj_dns_parse_packet.
  destruct (Z.eqb_spec max 0); [by eexists|]. destruct (Z.ltb_spec max sizeof_dns_hdr); [by eexists|].
  unfold sizeof_dns_hdr, slack in *. unfold read_dns_hdr.
  destruct (rd16_in buf 0) as [id ->]; [lia..|]. ored.
  destruct (rd16_in buf 2) as [fl ->]; [lia..|]. ored.
  destruct (rd16_in buf 4) as [qd Hqd]; [lia..|]. rewrite Hqd. ored.
  destruct (rd16_in buf 6) as [an Han]; [lia..|]. rewrite Han. ored.
  destruct (rd16_in buf 8) as [ns Hns]; [lia..|]. rewrite Hns. ored.
  destruct (rd16_in buf 10) as [ar Har]; [lia..|]. rewrite Har. ored.
  cbn [h_qdcount h_anscount h_nscount h_arcount].
  apply rd16_range in Hqd, Han, Hns, Har; [|done..]. unfold is_u16 in *.
  assert (Hrr : forall count start, 0 <= start <= max + 16 -> exists r,
    parse_section (parse_rr buf max) count start = Some r /\
    match r with
    | inl status => status <> PJ_SUCCESS
    | inr (l, q) => 0 <= q <= max + 16 /\ length l = count /\ Forall (rr_typed buf max) l
    end) by (intros; eapply parse_section_total; eauto using parse_rr_total).
  assert (Hq : exists r, parse_section (parse_query buf max) (Z.to_nat qd) 12 = Some r /\
    match r with
    | inl status => status <> PJ_SUCCESS
    | inr (l, q) => 0 <= q <= max + 16 /\ length l = Z.to_nat qd /\
        Forall (fun q => named buf max (q_name q)) l
    end) by (eapply parse_section_total; [eauto using parse_query_total..|lia]).
  destruct Hq as (r & -> & Hr). unfold andthen at 1. ored.
  destruct r as [st|[q s1]]; [by eexists|]. destruct Hr as (P1 & L1 & F1).
  destruct (Hrr (Z.to_nat an) s1 P1) as (r & -> & Hr). unfold andthen at 1. ored.
  destruct r as [st|[ans s2]]; [by eexists|]. destruct Hr as (P2 & L2 & F2).
  destruct (Hrr (Z.to_nat ns) s2 P2) as (r & -> & Hr). unfold andthen at 1. ored.
  destruct r as [st|[nss s3]]; [by eexists|]. destruct Hr as (P3 & L3 & F3).
  destruct (Hrr (Z.to_nat ar) s3 P3) as (r & -> & Hr). unfold andthen at 1. ored.
  destruct r as [st|[arr s4]]; [by eexists|]. destruct Hr as (P4 & L4 & F4).
  eexists. split; [done|]. constructor; cbn; try done; lia.
Qed.

(** C23: parsing any packet ends, and neither reads more than [slack]
    bytes past its end nor writes past the block of a name, whatever the
    packet holds: names that point at themselves, wrong counts and lengths. *)
Theorem dns_parse_safe buf max :
  packet_in buf max ->
  exists r, pj_dns_parse_packet buf max = Some r /\ forall st, r = inl st -> st <> PJ_SUCCESS.
Proof.
  intros H. destruct (parse_packet_total buf max H) as (r & Hr & Hp). exists r.
  split; [done|]. by intros st ->.
Qed.

(** a parsed packet is well-typed: the sections have the numbers of
    records the header announces, the names are names of the packet, and the
    union of each record is the one of its type, with an address of the right
    length or raw data of the length announced. *)
Theorem dns_parse_typed buf max p :
  packet_in buf max -> pj_dns_parse_packet buf max = Some (inr p) -> packet_typed buf max p.
Proof.
  intros H Hp. destruct (parse_packet_total buf max H) as (r & Hr & Ht).
  rewrite Hp in Hr. by injection Hr as <-.
Qed.

(** The parser does read past the end of some packets: here the name of the
    query the header announces, and the address of a record without data. *)
Theorem dns_parse_overreads :
  let hdr qd an := be16 1 ++ be16 0 ++ be16 qd ++ be16 an ++ be16 0 ++ be16 0 in
  let a_record := [0] ++ be16 1 ++ be16 1 ++ be32 60 ++ be16 0 in
  pj_dns_parse_packet (hdr 1 0) 12 = None /\
  pj_dns_parse_packet (hdr 0 1 ++ a_record) 23 = None.
Proof. done. Qed.

(** ** Queries *)

(** A name of labels joined by dots, and the labels in a packet. *)
Fixpoint join (labels : list (list Z)) : list Z :=
  match labels with
  | [] => []
  | [l] => l
  | l :: ls => l ++ [dot] ++ join ls
  end.

Definition label_bytes (labels : list (list Z)) : list Z :=
  flat_map (fun l => slen l :: l) labels.

Definition label_ok (l : list Z) : Prop :=
  (dot ∉ l) /\ 0 < slen l < 192 /\ Forall is_byte l.

Lemma until_dot_app l s :
  (dot ∉ l) -> until_dot (l ++ dot :: s) = l /\ from_dot (l ++ dot :: s) = dot :: s.
Proof.
  induction l as [|c l IH]; intros Hl; cbn; [done|].
  destruct (Z.eqb_spec c dot) as [->|_]; [by destruct Hl; left|].
  destruct IH as [-> ->]; [set_solver|done].
Qed.

Lemma until_dot_end l : (dot ∉ l) -> until_dot l = l /\ from_dot l = [].
Proof.
  induction l as [|c l IH]; intros Hl; cbn; [done|].
  destruct (Z.eqb_spec c dot) as [->|_]; [by destruct Hl; left|].
  destruct IH as [-> ->]; [set_solver|done].
Qed.

Lemma tokenize_join labels : forall fuel,
  Forall label_ok labels -> (length (join labels) <= fuel)%nat ->
  tokenize fuel (join labels) = label_bytes labels.
Proof.
  induction labels as [|l labels IH]; intros fuel H Hf; [by destruct fuel|].
  apply Forall_cons in H as [(Hdot & Hlen & _) H].
  assert (Hu : u8 (slen l) = slen l) by (apply Z.mod_small; lia).
  destruct l as [|c l]; [change (slen []) with 0 in Hlen; lia|].
  destruct labels as [|l2 labels].
  - cbn [join] in *. destruct fuel as [|fuel]; [cbn in Hf; lia|]. cbn [tokenize].
    destruct (until_dot_end _ Hdot) as [-> ->]. rewrite Hu. cbn. by destruct fuel.
  - change (join ((c :: l) :: l2 :: labels)) with ((c :: l) ++ dot :: join (l2 :: labels)) in *.
    rewrite length_app in Hf. destruct fuel as [|fuel]; [cbn in Hf; lia|].
    set (nm := (c :: l) ++ dot :: join (l2 :: labels)).
    assert (Ht : tokenize (S fuel) nm = u8 (slen (until_dot nm)) :: until_dot nm ++
      tokenize fuel (match from_dot nm with [] => [] | _ :: rest => rest end)) by done.
    rewrite Ht. unfold nm. destruct (until_dot_app (c :: l) (join (l2 :: labels)) Hdot) as [-> ->].
    rewrite Hu, IH; [done..|]. cbn [length] in *. lia.
Qed.

Lemma land_192_small b : 0 <= b < 192 -> Z.land b 192 <> 192.
Proof.
  intros Hb. assert (H : forall x, is_byte x -> (192 <=? x) || negb (Z.land x 192 =? 192) = true)
    by (apply byte_check; vm_compute; reflexivity).
  specialize (H b ltac:(unfold is_byte; lia)). rewrite (proj2 (Z.leb_gt _ _)) in H by lia.
  by apply negb_true_iff, Z.eqb_neq in H.
Qed.

Lemma rd8_slen pre b post : rd8 (pre ++ b :: post) (slen pre) = Some b.
Proof. apply rd8_at. Qed.

Lemma rdn_slen pre l post : rdn (pre ++ l ++ post) (slen pre) (length l) = Some l.
Proof. apply rdn_at. Qed.

Lemma rd16_slen pre v post : is_u16 v -> rd16 (pre ++ be16 v ++ post) (slen pre) = Some v.
Proof. apply rd16_at. Qed.

(** Labels written one after the other are the name. *)
Lemma labels_name_at max labels : forall pre post,
  Forall label_ok labels ->
  let buf := pre ++ label_bytes labels ++ 0 :: post in
  slen pre + slen (label_bytes labels) + 1 <= max ->
  name_at buf max 0 (slen pre) (join labels) (slen (label_bytes labels) + 1).
Proof.
  induction labels as [|l labels IH]; intros pre post H buf Hm.
  { apply na_end, rd8_slen. }
  apply Forall_cons in H as [(Hdot & Hlen & Hl) H].
  assert (Hbuf : buf = pre ++ slen l :: l ++ label_bytes labels ++ 0 :: post).
  { unfold buf. cbn. by rewrite <- app_assoc. }
  assert (Hbuf2 : buf = (pre ++ [slen l]) ++ l ++ label_bytes labels ++ 0 :: post).
  { rewrite Hbuf, <- app_assoc. done. }
  assert (Hbuf3 : buf = ((pre ++ [slen l]) ++ l) ++ label_bytes labels ++ 0 :: post).
  { rewrite Hbuf2. by rewrite (app_assoc _ l). }
  assert (Hs : slen (label_bytes (l :: labels)) = slen l + 1 + slen (label_bytes labels)).
  { change (label_bytes (l :: labels)) with (slen l :: l ++ label_bytes labels).
    rewrite slen_cons, slen_app. lia. }
  rewrite Hs in *. pose proof (slen_nonneg (label_bytes labels)).
  assert (Hp : slen (pre ++ [slen l]) = slen pre + 1) by (rewrite slen_app; done).
  assert (Hp2 : slen ((pre ++ [slen l]) ++ l) = slen pre + (slen l + 1)) by (rewrite slen_app, Hp; lia).
  specialize (IH ((pre ++ [slen l]) ++ l) post H). cbn zeta in IH. rewrite <- Hbuf3, Hp2 in IH.
  specialize (IH ltac:(lia)).
  assert (Hnext : exists c, rd8 buf (slen pre + (slen l + 1)) = Some c /\
    (if c =? 0 then [] else [dot]) ++ join labels = match labels with [] => [] | _ => [dot] ++ join labels end).
  { rewrite <- Hp2, Hbuf3. destruct labels as [|l2 labels].
    - exists 0. split; [apply rd8_slen|done].
    - exists (slen l2). split; [apply rd8_slen|].
      apply Forall_cons in H as [(_ & H2 & _) _]. by rewrite (proj2 (Z.eqb_neq _ _)) by lia. }
  destruct Hnext as (c & Hc & Hj).
  assert (Hjoin : join (l :: labels) = l ++ (if c =? 0 then [] else [dot]) ++ join labels).
  { rewrite Hj. destruct labels; cbn [join]; [by rewrite app_nil_r|done]. }
  rewrite Hjoin. replace (slen l + 1 + slen (label_bytes labels) + 1)
    with (slen l + 1 + (slen (label_bytes labels) + 1)) by lia.
  apply na_label; [rewrite Hbuf; apply rd8_slen|lia|apply land_192_small; lia|lia| |done|done].
  rewrite <- Hp, Hbuf2. replace (Z.to_nat (slen l)) with (length l) by (unfold slen; lia).
  apply rdn_slen.
Qed.

Lemma label_bytes_byte labels : Forall label_ok labels -> Forall is_byte (label_bytes labels).
Proof.
  induction 1 as [|l labels (_ & Hl & Hb) _ IH]; [constructor|]. cbn.
  apply Forall_cons. split; [unfold is_byte; lia|]. by apply Forall_app.
Qed.

(** The packet of a query. *)
Section query.
Context (id qtype : Z) (labels : list (list Z)) (tail : list Z).
Hypothesis (Hid : is_u16 id) (Hq : 0 < qtype < 65536) (Hl : Forall label_ok labels).
Hypothesis (Htail : Forall is_byte tail) (Hslack : slack <= slen tail).

Definition query_hdr : list Z :=
  be16 id ++ be16 (PJ_DNS_SET_RD 1) ++ be16 1 ++ [0; 0; 0; 0; 0; 0].

Definition query_packet : list Z :=
  query_hdr ++ label_bytes labels ++ [0] ++ be16 qtype ++ be16 1.

Lemma query_packet_len : slen query_packet = 12 + (slen (label_bytes labels) + 1) + 4.
Proof.
  unfold query_packet. rewrite !slen_app. change (slen query_hdr) with 12.
  change (slen [0]) with 1. change (slen (be16 _)) with 2. lia.
Qed.

Lemma query_packet_in : packet_in (query_packet ++ tail) (slen query_packet).
Proof.
  constructor; [|apply slen_nonneg|].
  - unfold query_packet, query_hdr.
    repeat (apply Forall_app; split); try apply be16_bytes; try done;
      [by repeat constructor|by apply label_bytes_byte|by repeat constructor].
  - fold (slen (query_packet ++ tail)). rewrite slen_app. lia.
Qed.

Lemma read_query_hdr : read_dns_hdr (query_packet ++ tail) = Some (mk_dns_hdr id 256 1 0 0 0).
Proof.
  unfold read_dns_hdr, query_packet, query_hdr. rewrite <- !app_assoc.
  match goal with |- context [rd16 (be16 id ++ ?r) 0] =>
    rewrite (rd16_at [] id r Hid : rd16 (be16 id ++ r) 0 = Some id) end.
  reflexivity.
Qed.

Lemma parse_query_packet :
  parse_query (query_packet ++ tail) (slen query_packet) 12 =
  Some (inr (mk_query (join labels) qtype 1, slen query_packet - 12)).
Proof.
  pose proof query_packet_len as Hlen. pose proof (slen_nonneg (label_bytes labels)).
  assert (Hat : name_at (query_packet ++ tail) (slen query_packet) 0 12 (join labels)
                  (slen (label_bytes labels) + 1)).
  { unfold query_packet at 1. rewrite <- !app_assoc.
    apply (labels_name_at _ labels query_hdr); [done|]. change (slen query_hdr) with 12. lia. }
  unfold parse_query.
  rewrite (dns_name_at _ _ 12 4 0 _ _ query_packet_in ltac:(lia) ltac:(lia) ltac:(lia) Hat).
  unfold andthen. ored. rewrite (proj2 (Z.ltb_ge _ _)) by lia.
  set (pre := query_hdr ++ label_bytes labels ++ [0]).
  assert (Hpre : 12 + (slen (label_bytes labels) + 1) = slen pre).
  { unfold pre. rewrite !slen_app. change (slen query_hdr) with 12. change (slen [0]) with 1. lia. }
  assert (Hp : query_packet ++ tail = pre ++ be16 qtype ++ be16 1 ++ tail).
  { unfold query_packet, pre. by rewrite <- !app_assoc. }
  rewrite Hpre, Hp, rd16_slen by (unfold is_u16; lia). ored.
  replace (slen pre + 2) with (slen (pre ++ be16 qtype)) by (by rewrite slen_app).
  rewrite (app_assoc pre), rd16_slen by done. ored. do 4 f_equal. lia.
Qed.

Lemma parse_query_packet_all :
  pj_dns_parse_packet (query_packet ++ tail) (slen query_packet) =
  Some (inr (mk_dns_packet (mk_dns_hdr id 256 1 0 0 0)
               [mk_query (join labels) qtype 1] [] [] [])).
Proof.
  pose proof query_packet_len. pose proof (slen_nonneg (label_bytes labels)).
  unfold pj_dns_parse_packet. rewrite (proj2 (Z.eqb_neq _ 0)), (proj2 (Z.ltb_ge _ sizeof_dns_hdr))
    by (unfold sizeof_dns_hdr; lia).
  rewrite read_query_hdr. ored. cbn [h_qdcount h_anscount h_nscount h_arcount].
  change (Z.to_nat 1) with 1%nat. change (Z.to_nat 0) with 0%nat. cbn [parse_section].
  unfold sizeof_dns_hdr. rewrite parse_query_packet. reflexivity.
Qed.
End query.

(** a query built by [pj_dns_make_query] is parsed back to its id, the
    flag for recursion, and one question with the name, its type and class
    IN. *)
Theorem dns_query_roundtrip size id qtype labels tail :
  is_u16 id -> 0 < qtype < 65536 -> Forall label_ok labels ->
  sizeof_dns_hdr + slen (join labels) + 4 <= size ->
  Forall is_byte tail -> slack <= slen tail ->
  exists pkt, pj_dns_make_query size id qtype (join labels) = (PJ_SUCCESS, pkt) /\
    pj_dns_parse_packet (pkt ++ tail) (slen pkt) =
      Some (inr (mk_dns_packet (mk_dns_hdr id 256 1 0 0 0)
                   [mk_query (join labels) qtype 1] [] [] [])).
Proof.
  intros Hid Hq Hl Hsize Htail Hslack. exists (query_packet id qtype labels).
  split; [|by apply parse_query_packet_all]. unfold pj_dns_make_query.
  rewrite (proj2 (Z.eqb_neq qtype 0)), (proj2 (Z.leb_le _ size)) by lia. cbn [negb].
  rewrite tokenize_join, u16_id by (done || (unfold is_u16; lia)).
  unfold query_packet, query_hdr. by rewrite <- !app_assoc.
Qed.

(** The size asked for is two bytes short: with a buffer of exactly that size
    the query is written past its end. *)
Theorem dns_query_overruns :
  exists pkt, pj_dns_make_query 17 1 PJ_DNS_TYPE_A [97] = (PJ_SUCCESS, pkt) /\ slen pkt = 19.
Proof. by eexists. Qed.

(** ** Duplication *)

Definition no_nul (s : list Z) : Prop := 0 ∉ s.

Lemma stricmp_ci a b : no_nul a -> stricmp_eq a b = true -> ci_eq a b.
Proof.
  intros Ha H. unfold stricmp_eq, slen in H. unfold ci_eq.
  destruct (Z.leb_spec (Z.of_nat (length a)) 0).
  { zbool. by rewrite (nil_length_inv a), (nil_length_inv b) by lia. }
  destruct (Z.of_nat (length b) <=? 0); [done|]. zbool.
  assert (Hl : length a = length b) by lia. rewrite Hl, Nat.min_id in *.
  rewrite strncaseeq_spec in H; [by apply bool_decide_eq_true in H|done|].
  intros Hin. apply Ha. clear -Hin. induction a as [|x a IH]; [done|].
  destruct a; [by apply not_elem_of_nil in Hin|]. cbn [removelast] in Hin.
  apply elem_of_cons in Hin as [->|Hin]; [left|right; auto].
Qed.

Lemma apply_name_table_spec t src :
  Forall no_nul t -> no_nul src ->
  Forall no_nul (apply_name_table t src).1 /\ ci_eq (apply_name_table t src).2 src.
Proof.
  intros Ht Hs. unfold apply_name_table.
  destruct (list_find _ t) as [[i name]|] eqn:E; cbn [fst snd].
  - apply list_find_Some in E as (Hi & Heq & _). split; [done|].
    apply stricmp_ci; [by eapply Forall_lookup_1|]. by destruct (stricmp_eq name src).
  - split; [|done]. destruct (Nat.ltb _ _); [|done]. apply Forall_app. by split; [|constructor].
Qed.

Definition rdata_same (a b : rdata) : Prop :=
  match a, b with
  | rdata_srv prio weight port target, rdata_srv prio' weight' port' target' =>
      prio' = prio /\ weight' = weight /\ port' = port /\ ci_eq target' target
  | _, _ => b = a
  end.

(** The same record up to the case of the names. *)
Record rr_same (a b : pj_dns_parsed_rr) : Prop := mk_rr_same {
  rs_name : ci_eq (rr_name b) (rr_name a);
  rs_type : rr_type b = rr_type a;
  rs_class : rr_dnsclass b = rr_dnsclass a;
  rs_ttl : rr_ttl b = rr_ttl a;
  rs_rdlength : rr_rdlength b = rr_rdlength a;
  rs_data : rr_data b = rr_data a;
  rs_rdata : rdata_same (rr_rdata a) (rr_rdata b)
}.

Definition query_same (a b : pj_dns_parsed_query) : Prop :=
  ci_eq (q_name b) (q_name a) /\ q_type b = q_type a /\ q_dnsclass b = q_dnsclass a.

Definition rr_names_ok (r : pj_dns_parsed_rr) : Prop :=
  no_nul (rr_name r) /\
  match rr_rdata r with rdata_srv _ _ _ target => no_nul target | _ => True end.

Lemma rdata_same_refl r : rdata_same r r.
Proof. by destruct r. Qed.

Lemma copy_rr_spec t r :
  Forall no_nul t -> rr_names_ok r ->
  Forall no_nul (copy_rr t r).1 /\ rr_same r (copy_rr t r).2.
Proof.
  intros Ht [Hn Hrd]. unfold copy_rr.
  pose proof (apply_name_table_spec t (rr_name r) Ht Hn) as [Ht1 Hname].
  destruct (apply_name_table t (rr_name r)) as [t1 name]. cbn [fst snd] in *.
  assert (Hplain : rr_same r (r <| rr_name := name |>)) by (constructor; try done; apply rdata_same_refl).
  destruct (rr_type r =? PJ_DNS_TYPE_SRV); [|done].
  destruct (rr_rdata r) as [|prio weight port target| | |] eqn:E; try done.
  pose proof (apply_name_table_spec t1 target Ht1 Hrd) as [Ht2 Htarget].
  destruct (apply_name_table t1 target) as [t2 target']. cbn [fst snd] in *. split; [done|].
  constructor; try done. by rewrite E.
Qed.

Lemma copy_query_spec t q :
  Forall no_nul t -> no_nul (q_name q) ->
  Forall no_nul (copy_query t q).1 /\ query_same q (copy_query t q).2.
Proof.
  intros Ht Hn. unfold copy_query.
  pose proof (apply_name_table_spec t (q_name q) Ht Hn) as [Ht1 Hname].
  destruct (apply_name_table t (q_name q)) as [t1 name]. done.
Qed.

Lemma copy_section_spec {A} (copy : list (list Z) -> A -> list (list Z) * A)
    (ok : A -> Prop) (same : A -> A -> Prop) l :
  (forall t a, Forall no_nul t -> ok a ->
     Forall no_nul (copy t a).1 /\ same a (copy t a).2) ->
  forall t, Forall no_nul t -> Forall ok l ->
  Forall no_nul (copy_section copy t l).1 /\ Forall2 same l (copy_section copy t l).2.
Proof.
  intros Hc. induction l as [|a l IH]; intros t Ht Hl; [by split; [|constructor]|].
  apply Forall_cons in Hl as [Ha Hl]. cbn [copy_section].
  destruct (Hc t a Ht Ha) as [H1 H2]. destruct (copy t a) as [t1 a']. cbn [fst snd] in *.
  destruct (IH t1 H1 Hl) as [H3 H4]. destruct (copy_section copy t1 l) as [t2 l']. cbn [fst snd] in *.
  split; [done|by constructor].
Qed.

(** A section of the duplicate: dropped, or the same records. *)
Definition section_same {A} (same : A -> A -> Prop) (options flag : Z) (l l' : list A) : Prop :=
  if Z.land options flag =? 0 then Forall2 same l l' else l' = [].

Lemma dup_section_spec {A} (copy : list (list Z) -> A -> list (list Z) * A)
    (ok : A -> Prop) (same : A -> A -> Prop) options flag t l :
  (forall t a, Forall no_nul t -> ok a ->
     Forall no_nul (copy t a).1 /\ same a (copy t a).2) ->
  Forall no_nul t -> Forall ok l ->
  let r := if Z.land options flag =? 0 then copy_section copy t l else (t, []) in
  Forall no_nul r.1 /\ section_same same options flag l r.2.
Proof.
  intros Hc Ht Hl r. unfold section_same, r. destruct (_ =? 0); [|done].
  by eapply copy_section_spec.
Qed.

(** the duplicate of a packet has the records of the sections that
    are kept, in order and unchanged up to the case of their names (a name
    that was seen before is shared), and announces their numbers. *)
Theorem dns_dup_same p options :
  Forall (fun q => no_nul (q_name q)) (p_q p) ->
  Forall rr_names_ok (p_ans p) -> Forall rr_names_ok (p_ns p) -> Forall rr_names_ok (p_arr p) ->
  let d := pj_dns_packet_dup p options in
  section_same query_same options PJ_DNS_NO_QD (p_q p) (p_q d) /\
  section_same rr_same options PJ_DNS_NO_ANS (p_ans p) (p_ans d) /\
  section_same rr_same options PJ_DNS_NO_NS (p_ns p) (p_ns d) /\
  section_same rr_same options PJ_DNS_NO_AR (p_arr p) (p_arr d) /\
  p_hdr d = mk_dns_hdr (h_id (p_hdr p)) (h_flags (p_hdr p))
    (Z.of_nat (length (p_q d))) (Z.of_nat (length (p_ans d)))
    (Z.of_nat (length (p_ns d))) (Z.of_nat (length (p_arr d))).
Proof.
  intros Hq Ha Hn Hr d. subst d. unfold pj_dns_packet_dup.
  destruct (dup_section_spec copy_query _ _ options PJ_DNS_NO_QD [] (p_q p) copy_query_spec
    (Forall_nil_2 _) Hq) as [T1 S1].
  destruct (if _ =? 0 then copy_section copy_query [] _ else _) as [t1 q]. cbn [fst snd] in *.
  destruct (dup_section_spec copy_rr _ _ options PJ_DNS_NO_ANS t1 (p_ans p) copy_rr_spec T1 Ha) as [T2 S2].
  destruct (if _ =? 0 then copy_section copy_rr t1 _ else _) as [t2 ans]. cbn [fst snd] in *.
  destruct (dup_section_spec copy_rr _ _ options PJ_DNS_NO_NS t2 (p_ns p) copy_rr_spec T2 Hn) as [T3 S3].
  destruct (if _ =? 0 then copy_section copy_rr t2 _ else _) as [t3 ns]. cbn [fst snd] in *.
  destruct (dup_section_spec copy_rr _ _ options PJ_DNS_NO_AR t3 (p_arr p) copy_rr_spec T3 Hr) as [T4 S4].
  destruct (if _ =? 0 then copy_section copy_rr t3 _ else _) as [t4 arr]. cbn [fst snd] in *.
  done.
Qed.

(** ** Witnesses *)

(** The name "a.bc", and a response whose answer points back to it. *)
Definition demo_labels : list (list Z) := [[97]; [98; 99]].

Definition demo_response : list Z :=
  be16 7 ++ be16 33152 ++ be16 1 ++ be16 1 ++ be16 0 ++ be16 0
  ++ label_bytes demo_labels ++ [0] ++ be16 1 ++ be16 1
  ++ [192; 12] ++ be16 1 ++ be16 1 ++ be32 60 ++ be16 4 ++ [10; 0; 0; 1].

Definition demo_buf : list Z := demo_response ++ replicate 18 0.

Lemma demo_packet_in : packet_in demo_buf 38.
Proof.
  constructor; [|done|done].
  cbn. repeat (apply Forall_cons; split; [by unfold is_byte|]). constructor.
Qed.

Definition demo_parsed : pj_dns_parsed_packet :=
  mk_dns_packet (mk_dns_hdr 7 33152 1 1 0 0) [mk_query [97; 46; 98; 99] 1 1]
    [mk_rr [97; 46; 98; 99] 1 1 60 4 None (rdata_a [10; 0; 0; 1])] [] [].

Lemma dns_name_spec_witness :
  exists r, parse_name demo_buf 38 22 4 = Some r /\
    (forall n s, r = inr (n, s) <-> exists d, (d <= 10)%nat /\ name_at demo_buf 38 d 22 s n) /\
    (forall st, r = inl st -> st = PJLIB_UTIL_EDNSINNAMEPTR).
Proof. apply (dns_name_spec demo_buf 38 22 4 demo_packet_in); done. Defined.

Lemma dns_parse_safe_witness :
  exists r, pj_dns_parse_packet demo_buf 38 = Some r /\ forall st, r = inl st -> st <> PJ_SUCCESS.
Proof. apply (dns_parse_safe demo_buf 38 demo_packet_in). Defined.

Lemma dns_parse_typed_witness : packet_typed demo_buf 38 demo_parsed.
Proof. apply (dns_parse_typed demo_buf 38 demo_parsed demo_packet_in). vm_compute. reflexivity. Defined.

Lemma demo_labels_ok : Forall label_ok demo_labels.
Proof.
  repeat (apply Forall_cons; split; [|]); [..|constructor];
    (split; [unfold dot; set_solver|]); (split; [done|]);
    repeat (apply Forall_cons; split; [by unfold is_byte|]); constructor.
Qed.

Lemma dns_query_roundtrip_witness :
  exists pkt, pj_dns_make_query 512 7 1 (join demo_labels) = (PJ_SUCCESS, pkt) /\
    pj_dns_parse_packet (pkt ++ replicate 18 0) (slen pkt) =
      Some (inr (mk_dns_packet (mk_dns_hdr 7 256 1 0 0 0)
                   [mk_query (join demo_labels) 1 1] [] [] [])).
Proof.
  apply (dns_query_roundtrip 512 7 1 demo_labels (replicate 18 0));
    [done|done|apply demo_labels_ok|done|by apply Forall_replicate|done].
Defined.

Lemma dns_dup_same_witness :
  let d := pj_dns_packet_dup demo_parsed PJ_DNS_NO_QD in
  section_same query_same PJ_DNS_NO_QD PJ_DNS_NO_QD (p_q demo_parsed) (p_q d) /\
  section_same rr_same PJ_DNS_NO_QD PJ_DNS_NO_ANS (p_ans demo_parsed) (p_ans d) /\
  section_same rr_same PJ_DNS_NO_QD PJ_DNS_NO_NS (p_ns demo_parsed) (p_ns d) /\
  section_same rr_same PJ_DNS_NO_QD PJ_DNS_NO_AR (p_arr demo_parsed) (p_arr d) /\
  p_hdr d = mk_dns_hdr (h_id (p_hdr demo_parsed)) (h_flags (p_hdr demo_parsed))
    (Z.of_nat (length (p_q d))) (Z.of_nat (length (p_ans d)))
    (Z.of_nat (length (p_ns d))) (Z.of_nat (length (p_arr d))).
Proof.
  apply (dns_dup_same demo_parsed PJ_DNS_NO_QD); [| |constructor|constructor].
  - apply Forall_cons. split; [unfold no_nul; cbn; set_solver|constructor].
  - apply Forall_cons. split; [split; [unfold no_nul; cbn; set_solver|done]|constructor].
Defined.
