(* ===== verification/Sdp.v ===== *)
(** * SDP descriptions

    The session descriptions of [pjmedia/sdp.h] and the operations of
    [pjmedia/sdp.c] on them: the attributes of a description, reading
    [rtpmap] and [fmtp] attributes, validation, transports, deactivation.

    Descriptions are values.  In C they are objects in memory pools, and
    [pjmedia_sdp_session_clone] and [pjmedia_sdp_media_clone] copy all they
    point to: here a clone is the description itself.  The attributes of a
    cloned media are distinct objects, so an [pjmedia_sdp_attr*] found in a
    media stands for its index there.  [None] is undefined behaviour. *)

From Stdlib Require Import String.
From S2P Require Import Prelude Hash PjString Scanner.
Local Open Scope Z_scope.

Definition PJMEDIA_MAX_SDP_FMT : nat := 32.
Definition PJMEDIA_MAX_SDP_BANDW : nat := 4.
Definition PJMEDIA_MAX_SDP_ATTR : nat := (PJMEDIA_MAX_SDP_FMT * 2 + 4)%nat.
Definition PJMEDIA_MAX_SDP_MEDIA : nat := 16.

Definition PJMEDIA_SDP_EINORIGIN : Z := 220022.
Definition PJMEDIA_SDP_EINNAME : Z := 220024.
Definition PJMEDIA_SDP_EINCONN : Z := 220025.
Definition PJMEDIA_SDP_EMISSINGCONN : Z := 220026.
Definition PJMEDIA_SDP_EINATTR : Z := 220027.
Definition PJMEDIA_SDP_EINRTPMAP : Z := 220028.
Definition PJMEDIA_SDP_EMISSINGRTPMAP : Z := 220030.
Definition PJMEDIA_SDP_EINMEDIA : Z := 220031.
Definition PJMEDIA_SDP_ENOFMT : Z := 220032.
Definition PJMEDIA_SDP_EINPT : Z := 220033.
Definition PJMEDIA_SDP_EINFMTP : Z := 220034.
Definition PJMEDIA_SDP_EMEDIANOTEQUAL : Z := 220060.
Definition PJMEDIA_SDP_EPORTNOTEQUAL : Z := 220061.
Definition PJMEDIA_SDP_ETPORTNOTEQUAL : Z := 220062.
Definition PJMEDIA_SDP_EFORMATNOTEQUAL : Z := 220063.
Definition PJMEDIA_SDP_ECONNNOTEQUAL : Z := 220064.
Definition PJMEDIA_SDP_EDIRNOTEQUAL : Z := 220066.
Definition PJMEDIA_SDP_EFMTPNOTEQUAL : Z := 220067.
Definition PJMEDIA_SDP_ERTPMAPNOTEQUAL : Z := 220068.
Definition PJMEDIA_SDP_EORIGINNOTEQUAL : Z := 220070.
Definition PJMEDIA_SDP_ENAMENOTEQUAL : Z := 220071.
Definition PJMEDIA_SDP_ETIMENOTEQUAL : Z := 220072.

(** ** Data *)

Record sdp_attr := mk_attr { a_name : list Z; a_value : list Z }.

Record sdp_conn := mk_conn { c_net_type : list Z; c_addr_type : list Z; c_addr : list Z }.

Record sdp_bandw := mk_bandw { b_modifier : list Z; b_value : Z }.

Record sdp_media := mk_media {
  m_media : list Z;
  m_port : Z;
  m_port_count : Z;
  m_transport : list Z;
  m_fmt : list (list Z);
  m_conn : option sdp_conn;
  m_bandw : list sdp_bandw;
  m_attr : list sdp_attr
}.

Record sdp_origin := mk_origin {
  o_user : list Z;
  o_id : Z;
  o_version : Z;
  o_net_type : list Z;
  o_addr_type : list Z;
  o_addr : list Z
}.

Record sdp_session := mk_session {
  s_origin : sdp_origin;
  s_name : list Z;
  s_conn : option sdp_conn;
  s_bandw : list sdp_bandw;
  s_start : Z;
  s_stop : Z;
  s_attr : list sdp_attr;
  s_media : list sdp_media
}.

#[export] Instance sdp_media_settable : Settable sdp_media :=
  fun r => mk_media (m_media r) (m_port r) (m_port_count r) (m_transport r)
             (m_fmt r) (m_conn r) (m_bandw r) (m_attr r).
#[export] Instance sdp_origin_settable : Settable sdp_origin :=
  fun r => mk_origin (o_user r) (o_id r) (o_version r) (o_net_type r)
             (o_addr_type r) (o_addr r).
#[export] Instance sdp_session_settable : Settable sdp_session :=
  fun r => mk_session (s_origin r) (s_name r) (s_conn r) (s_bandw r)
             (s_start r) (s_stop r) (s_attr r) (s_media r).

#[export] Instance sdp_attr_eq_dec : EqDecision sdp_attr.
Proof. solve_decision. Defined.
#[export] Instance sdp_conn_eq_dec : EqDecision sdp_conn.
Proof. solve_decision. Defined.
#[export] Instance sdp_bandw_eq_dec : EqDecision sdp_bandw.
Proof. solve_decision. Defined.
#[export] Instance sdp_media_eq_dec : EqDecision sdp_media.
Proof. solve_decision. Defined.
#[export] Instance sdp_origin_eq_dec : EqDecision sdp_origin.
Proof. solve_decision. Defined.
#[export] Instance sdp_session_eq_dec : EqDecision sdp_session.
Proof. solve_decision. Defined.

(** [*fmt.ptr]: there is nothing to read in an empty string. *)
Definition char0 (s : list Z) : option Z := head s.

(** ** Attributes *)

Definition pjmedia_sdp_attr_create (name : list Z) (value : option (list Z)) : sdp_attr :=
  mk_attr name (default [] value).

(** The loop of [pjmedia_sdp_attr_find]: the index and the attribute. *)
Fixpoint attr_find_loop (i : nat) (attrs : list sdp_attr) (name : list Z)
    (c_pt : option Z) : option (nat * sdp_attr) :=
  match attrs with
  | [] => None
  | a :: attrs =>
      if pj_strcmp (a_name a) name =? 0 then
        match c_pt with
        | Some c_pt =>
            if u32 (pj_strtoul (a_value a)) =? c_pt then Some (i, a)
            else attr_find_loop (S i) attrs name (Some c_pt)
        | None => Some (i, a)
        end
      else attr_find_loop (S i) attrs name c_pt
  end.

Definition pjmedia_sdp_attr_find (attrs : list sdp_attr) (name : list Z)
    (c_fmt : option (list Z)) : option (nat * sdp_attr) :=
  if Nat.leb (length attrs) PJMEDIA_MAX_SDP_ATTR
  then attr_find_loop 0 attrs name ((fun f => u32 (pj_strtoul f)) <$> c_fmt)
  else None.

Definition pjmedia_sdp_attr_add (attrs : list sdp_attr) (a : sdp_attr) : Z * list sdp_attr :=
  if Nat.ltb (length attrs) PJMEDIA_MAX_SDP_ATTR
  then (PJ_SUCCESS, attrs ++ [a]) else (PJ_ETOOMANY, attrs).

Fixpoint attr_remove_all_loop (attrs : list sdp_attr) (name : list Z) : list sdp_attr :=
  match attrs with
  | [] => []
  | a :: attrs =>
      if pj_strcmp (a_name a) name =? 0 then attr_remove_all_loop attrs name
      else a :: attr_remove_all_loop attrs name
  end.

Definition pjmedia_sdp_attr_remove_all (attrs : list sdp_attr) (name : list Z) : list sdp_attr :=
  if Nat.leb (length attrs) PJMEDIA_MAX_SDP_ATTR then attr_remove_all_loop attrs name else attrs.

(** The attribute is given by its index. *)
Definition pjmedia_sdp_attr_remove (attrs : list sdp_attr) (i : nat) : list sdp_attr :=
  if Nat.leb (length attrs) PJMEDIA_MAX_SDP_ATTR then delete i attrs else attrs.

Definition pjmedia_sdp_media_find_attr2 (m : sdp_media) (name : string)
    (fmt : option (list Z)) : option (nat * sdp_attr) :=
  pjmedia_sdp_attr_find (m_attr m) (lit name) fmt.

Definition pjmedia_sdp_media_add_attr (m : sdp_media) (a : sdp_attr) : sdp_media :=
  m <| m_attr := (pjmedia_sdp_attr_add (m_attr m) a).2 |>.

Definition pjmedia_sdp_media_remove_all_attr (m : sdp_media) (name : string) : sdp_media :=
  m <| m_attr := pjmedia_sdp_attr_remove_all (m_attr m) (lit name) |>.

Definition pjmedia_sdp_media_remove_attr (m : sdp_media) (i : nat) : sdp_media :=
  m <| m_attr := pjmedia_sdp_attr_remove (m_attr m) i |>.

(** Remove the attribute with this name and payload type, when there is one. *)
Definition remove_fmt_attr (m : sdp_media) (name : string) (fmt : list Z) : sdp_media :=
  match pjmedia_sdp_media_find_attr2 m name (Some fmt) with
  | Some (i, _) => pjmedia_sdp_media_remove_attr m i
  | None => m
  end.

(** ** Character classes of the parser *)

Definition is_alpha (c : Z) : bool :=
  ((97 <=? c) && (c <=? 122)) || ((65 <=? c) && (c <=? 90)).

Definition cs_token (c : Z) : bool :=
  is_alpha c || pj_isdigit c || in_set (lit "!#$%&'*+-.^_`{|}~") c.

Definition cs_digit (c : Z) : bool := pj_isdigit c.

(** ** [rtpmap] and [fmtp] *)

Record sdp_rtpmap := mk_rtpmap {
  r_pt : list Z; r_enc_name : list Z; r_clock_rate : Z; r_param : list Z }.

Definition rtpmap_init : sdp_rtpmap := mk_rtpmap [] [] 0 [].

Definition slash : Z := 47.

(** The body of the [PJ_TRY]: on a syntax error the fields read so far are
    in the structure. *)
Definition rtpmap_parse (value : list Z) : Z * sdp_rtpmap :=
  let s := pj_scan_init PJ_SCAN_AUTOSKIP_WS value in
  match pj_scan_get PJ_SCAN_AUTOSKIP_WS cs_token s with
  | None => (PJMEDIA_SDP_EINRTPMAP, rtpmap_init)
  | Some (pt, s) =>
  match pj_scan_get PJ_SCAN_AUTOSKIP_WS cs_token s with
  | None => (PJMEDIA_SDP_EINRTPMAP, mk_rtpmap pt [] 0 [])
  | Some (enc_name, s) =>
  match pj_scan_get_char PJ_SCAN_AUTOSKIP_WS s with
  | None => (PJMEDIA_SDP_EINRTPMAP, mk_rtpmap pt enc_name 0 [])
  | Some (c, s) =>
  if negb (c =? slash) then (PJMEDIA_SDP_EINRTPMAP, mk_rtpmap pt enc_name 0 [])
  else
  match pj_scan_get PJ_SCAN_AUTOSKIP_WS cs_digit s with
  | None => (PJMEDIA_SDP_EINRTPMAP, mk_rtpmap pt enc_name 0 [])
  | Some (token, s) =>
  let clock_rate := u32 (pj_strtoul token) in
  if match s with c :: _ => c =? slash | [] => false end then
    match pj_scan_get_char PJ_SCAN_AUTOSKIP_WS s with
    | None => (PJMEDIA_SDP_EINRTPMAP, mk_rtpmap pt enc_name clock_rate [])
    | Some (_, s) =>
    match pj_scan_get PJ_SCAN_AUTOSKIP_WS cs_token s with
    | None => (PJMEDIA_SDP_EINRTPMAP, mk_rtpmap pt enc_name clock_rate [])
    | Some (param, _) => (PJ_SUCCESS, mk_rtpmap pt enc_name clock_rate param)
    end end
  else (PJ_SUCCESS, mk_rtpmap pt enc_name clock_rate [])
  end end end end.

(** The status, and what is in [*rtpmap] afterwards; [None] when nothing was
    written there. *)
Definition pjmedia_sdp_attr_get_rtpmap (attr : sdp_attr) : Z * option sdp_rtpmap :=
  if negb (pj_strcmp (a_name attr) (lit "rtpmap") =? 0) then (PJ_EINVALIDOP, None)
  else
    match a_value attr with
    | [] => (PJMEDIA_SDP_EINATTR, None)
    | value => let '(status, r) := rtpmap_parse value in (status, Some r)
    end.

Record sdp_fmtp := mk_fmtp { f_fmt : list Z; f_fmt_param : list Z }.

(** The structure is given when the status is [PJ_SUCCESS]. *)
Definition pjmedia_sdp_attr_get_fmtp (attr : sdp_attr) : Z * option sdp_fmtp :=
  if negb (pj_strcmp (a_name attr) (lit "fmtp") =? 0) then (PJ_EINVALIDOP, None)
  else
    match a_value attr with
    | [] => (PJMEDIA_SDP_EINATTR, None)
    | value =>
        match scan_span pj_isdigit value with
        | ([], _) => (PJMEDIA_SDP_EINFMTP, None)
        | (token, c :: s) =>
            if c =? 32 then (PJ_SUCCESS, Some (mk_fmtp token s)) else (PJMEDIA_SDP_EINFMTP, None)
        | (_, []) => (PJMEDIA_SDP_EINFMTP, None)
        end
    end.

(** ** Deactivation *)

Definition pjmedia_sdp_media_deactivate (m : sdp_media) : sdp_media :=
  m <| m_port := 0 |> <| m_attr := [] |>.

Definition pjmedia_sdp_media_clone_deactivate (rhs : sdp_media) : sdp_media :=
  pjmedia_sdp_media_deactivate rhs.

(** ** Validation *)

Definition str_is (s : list Z) (c : string) : bool := pj_strcmp s (lit c) =? 0.

Definition validate_sdp_conn (c : sdp_conn) : Z :=
  if negb (str_is (c_net_type c) "IN") then PJMEDIA_SDP_EINCONN
  else if negb (str_is (c_addr_type c) "IP4" || str_is (c_addr_type c) "IP6")
  then PJMEDIA_SDP_EINCONN
  else if slen (c_addr c) =? 0 then PJMEDIA_SDP_EINCONN
  else PJ_SUCCESS.

Definition validate_conn_opt (c : option sdp_conn) : Z :=
  match c with Some c => validate_sdp_conn c | None => PJ_SUCCESS end.

(** One payload type of a media. *)
Definition validate_fmt (m : sdp_media) (fmt : list Z) : option Z :=
  c ← char0 fmt;
  if pj_isdigit c then
    let '(status, pt) := pj_strtoul3 fmt in
    if negb ((status =? PJ_SUCCESS) && (pt <=? 127)) then Some PJMEDIA_SDP_EINPT
    else if negb (m_port m =? 0) && (96 <=? pt) then
      match pjmedia_sdp_attr_find (m_attr m) (lit "rtpmap") (Some fmt) with
      | None => Some PJMEDIA_SDP_EMISSINGRTPMAP
      | Some _ => Some PJ_SUCCESS
      end
    else Some PJ_SUCCESS
  else Some PJ_SUCCESS.

Fixpoint validate_fmts (m : sdp_media) (fmts : list (list Z)) : option Z :=
  match fmts with
  | [] => Some PJ_SUCCESS
  | fmt :: fmts =>
      status ← validate_fmt m fmt;
      if status =? PJ_SUCCESS then validate_fmts m fmts else Some status
  end.

Definition validate_media (sess_conn : option sdp_conn) (strict : bool) (m : sdp_media)
    : option Z :=
  if slen (m_media m) =? 0 then Some PJMEDIA_SDP_EINMEDIA
  else if slen (m_transport m) =? 0 then Some PJMEDIA_SDP_EINMEDIA
  else if negb (negb (Nat.eqb (length (m_fmt m)) 0) || (m_port m =? 0))
  then Some PJMEDIA_SDP_ENOFMT
  else
    let status := validate_conn_opt (m_conn m) in
    if negb (status =? PJ_SUCCESS) then Some status
    else if bool_decide (m_conn m = None) && bool_decide (sess_conn = None) &&
            (strict || negb (m_port m =? 0))
    then Some PJMEDIA_SDP_EMISSINGCONN
    else validate_fmts m (m_fmt m).

Fixpoint validate_medias (sess_conn : option sdp_conn) (strict : bool)
    (ms : list sdp_media) : option Z :=
  match ms with
  | [] => Some PJ_SUCCESS
  | m :: ms =>
      status ← validate_media sess_conn strict m;
      if status =? PJ_SUCCESS then validate_medias sess_conn strict ms else Some status
  end.

Definition pjmedia_sdp_validate2 (sdp : sdp_session) (strict : bool) : option Z :=
  let o := s_origin sdp in
  if slen (o_user o) =? 0 then Some PJMEDIA_SDP_EINORIGIN
  else if negb (str_is (o_net_type o) "IN") then Some PJMEDIA_SDP_EINORIGIN
  else if negb (str_is (o_addr_type o) "IP4" || str_is (o_addr_type o) "IP6")
  then Some PJMEDIA_SDP_EINORIGIN
  else if slen (o_addr o) =? 0 then Some PJMEDIA_SDP_EINORIGIN
  else if slen (s_name sdp) =? 0 then Some PJMEDIA_SDP_EINNAME
  else
    let status := validate_conn_opt (s_conn sdp) in
    if negb (status =? PJ_SUCCESS) then Some status
    else validate_medias (s_conn sdp) strict (s_media sdp).

Definition pjmedia_sdp_validate (sdp : sdp_session) : option Z :=
  pjmedia_sdp_validate2 sdp true.

(** ** Transports ([pjmedia_tp_proto] of [pjmedia/types.h]) *)

Definition PJMEDIA_TP_PROTO_UNKNOWN : Z := 1.
Definition PJMEDIA_TP_PROTO_UDP : Z := Z.shiftl 1 1.
Definition PJMEDIA_TP_PROTO_RTP : Z := Z.shiftl 1 2.
Definition PJMEDIA_TP_PROTO_DTLS : Z := Z.shiftl 1 3.
Definition PJMEDIA_TP_PROFILE_RTCP_FB : Z := Z.shiftl 1 13.
Definition PJMEDIA_TP_PROFILE_SRTP : Z := Z.shiftl 1 14.
Definition PJMEDIA_TP_PROFILE_AVP : Z := Z.shiftl 1 15.
Definition PJMEDIA_TP_PROTO_RTP_AVP : Z := Z.lor PJMEDIA_TP_PROTO_RTP PJMEDIA_TP_PROFILE_AVP.
Definition PJMEDIA_TP_PROTO_RTP_SAVP : Z := Z.lor PJMEDIA_TP_PROTO_RTP_AVP PJMEDIA_TP_PROFILE_SRTP.
Definition PJMEDIA_TP_PROTO_DTLS_SRTP : Z := Z.lor PJMEDIA_TP_PROTO_DTLS PJMEDIA_TP_PROTO_RTP_SAVP.
Definition PJMEDIA_TP_PROTO_RTP_AVPF : Z := Z.lor PJMEDIA_TP_PROTO_RTP_AVP PJMEDIA_TP_PROFILE_RTCP_FB.
Definition PJMEDIA_TP_PROTO_RTP_SAVPF : Z := Z.lor PJMEDIA_TP_PROTO_RTP_SAVP PJMEDIA_TP_PROFILE_RTCP_FB.
Definition PJMEDIA_TP_PROTO_DTLS_SRTPF : Z := Z.lor PJMEDIA_TP_PROTO_DTLS_SRTP PJMEDIA_TP_PROFILE_RTCP_FB.

Definition PJMEDIA_TP_PROTO_HAS_FLAG (proto flags : Z) : bool := Z.land proto flags =? flags.

Definition stricmp2_eq (s : list Z) (c : string) : bool := stricmp_eq s (lit c).

(** [rest] starts after the length of the token, wherever the token starts;
    its length is -1 when the token is the whole of [tp]. *)
Definition pjmedia_sdp_transport_get_proto (tp : list Z) : Z :=
  let '(idx, token) := pj_strtok2 tp (lit "/") 0 in
  let whole := Nat.eqb idx (length tp) in
  let rest := if whole then [] else drop (length token + 1) tp in
  let rest_slen := if whole then 0 else slen tp - slen token - 1 in
  if stricmp2_eq token "RTP" then
    if stricmp2_eq rest "AVP" then PJMEDIA_TP_PROTO_RTP_AVP
    else if stricmp2_eq rest "SAVP" then PJMEDIA_TP_PROTO_RTP_SAVP
    else if stricmp2_eq rest "AVPF" then PJMEDIA_TP_PROTO_RTP_AVPF
    else if stricmp2_eq rest "SAVPF" then PJMEDIA_TP_PROTO_RTP_SAVPF
    else PJMEDIA_TP_PROTO_UNKNOWN
  else if stricmp2_eq token "UDP" then
    if rest_slen =? 0 then PJMEDIA_TP_PROTO_UDP
    else if stricmp2_eq rest "TLS/RTP/SAVP" then PJMEDIA_TP_PROTO_DTLS_SRTP
    else if stricmp2_eq rest "TLS/RTP/SAVPF" then PJMEDIA_TP_PROTO_DTLS_SRTPF
    else PJMEDIA_TP_PROTO_UNKNOWN
  else PJMEDIA_TP_PROTO_UNKNOWN.

Definition pjmedia_sdp_transport_cmp (t1 t2 : list Z) : Z :=
  if stricmp_eq t1 t2 then PJ_SUCCESS
  else if PJMEDIA_TP_PROTO_HAS_FLAG (pjmedia_sdp_transport_get_proto t1) PJMEDIA_TP_PROTO_RTP_AVP
       && PJMEDIA_TP_PROTO_HAS_FLAG (pjmedia_sdp_transport_get_proto t2) PJMEDIA_TP_PROTO_RTP_AVP
  then PJ_SUCCESS
  else PJMEDIA_SDP_ETPORTNOTEQUAL.
