(* ===== verification/SdpNeg.v ===== *)
(** * SDP offer/answer: negotiating media

    The media half of [pjmedia/sdp_neg.c]: matching formats, adjusting
    directions, processing the answer of a media line ([process_m_answer])
    and building one ([match_offer]).  Format matching callbacks are outside
    the code: a callback returns its status and the attributes of the answer
    media, all it may modify.  [None] is undefined behaviour: reading an
    [rtpmap] structure that was not filled in, or past the formats of a
    media, or overflowing one of the local arrays. *)

From Stdlib Require Import String.
From S2P Require Import Prelude Hash PjString Sdp.
Local Open Scope Z_scope.

Definition PJMEDIA_SDPNEG_EINSTATE : Z := 220040.
Definition PJMEDIA_SDPNEG_ENOINITIAL : Z := 220041.
Definition PJMEDIA_SDPNEG_ENOACTIVE : Z := 220042.
Definition PJMEDIA_SDPNEG_ENONEG : Z := 220043.
Definition PJMEDIA_SDPNEG_EINVANSMEDIA : Z := 220045.
Definition PJMEDIA_SDPNEG_EINVANSTP : Z := 220046.
Definition PJMEDIA_SDPNEG_EANSNOMEDIA : Z := 220047.
Definition PJMEDIA_SDPNEG_ENOMEDIA : Z := 220048.
Definition PJMEDIA_SDPNEG_NOANSCODEC : Z := 220049.
Definition PJMEDIA_SDPNEG_NOANSUNKNOWN : Z := 220051.

Definition PJMEDIA_SDP_NEG_MAX_CUSTOM_FMT_NEG_CB : nat := 8.
Definition ALLOW_MODIFY_ANSWER : Z := 1.

(** ** Directions *)

Inductive pjmedia_dir :=
  | PJMEDIA_DIR_NONE
  | PJMEDIA_DIR_ENCODING
  | PJMEDIA_DIR_DECODING
  | PJMEDIA_DIR_ENCODING_DECODING.

#[export] Instance pjmedia_dir_eq_dec : EqDecision pjmedia_dir.
Proof. solve_decision. Defined.

Definition has_attr (m : sdp_media) (name : string) : bool :=
  match pjmedia_sdp_media_find_attr2 m name None with Some _ => true | None => false end.

Definition remove_all_media_directions (m : sdp_media) : sdp_media :=
  let m := pjmedia_sdp_media_remove_all_attr m "inactive" in
  let m := pjmedia_sdp_media_remove_all_attr m "sendrecv" in
  let m := pjmedia_sdp_media_remove_all_attr m "sendonly" in
  pjmedia_sdp_media_remove_all_attr m "recvonly".

(** The direction of the local media, as [update_media_direction] reads it. *)
Definition local_dir (local : sdp_media) : pjmedia_dir :=
  if has_attr local "sendonly" then PJMEDIA_DIR_ENCODING
  else if has_attr local "recvonly" then PJMEDIA_DIR_DECODING
  else if has_attr local "inactive" then PJMEDIA_DIR_NONE
  else PJMEDIA_DIR_ENCODING_DECODING.

Definition adjust_dir (remote : sdp_media) (old_dir : pjmedia_dir) : pjmedia_dir :=
  if has_attr remote "inactive" then PJMEDIA_DIR_NONE
  else if has_attr remote "sendonly" then
    match old_dir with
    | PJMEDIA_DIR_ENCODING_DECODING => PJMEDIA_DIR_DECODING
    | PJMEDIA_DIR_DECODING => old_dir
    | _ => PJMEDIA_DIR_NONE
    end
  else if has_attr remote "recvonly" then
    match old_dir with
    | PJMEDIA_DIR_ENCODING_DECODING => PJMEDIA_DIR_ENCODING
    | PJMEDIA_DIR_ENCODING => old_dir
    | _ => PJMEDIA_DIR_NONE
    end
  else old_dir.

Definition update_media_direction (remote local : sdp_media) : sdp_media :=
  let old_dir := local_dir local in
  let new_dir := adjust_dir remote old_dir in
  if decide (new_dir = old_dir) then local
  else
    let local := remove_all_media_directions local in
    match new_dir with
    | PJMEDIA_DIR_NONE =>
        pjmedia_sdp_media_add_attr local (pjmedia_sdp_attr_create (lit "inactive") None)
    | PJMEDIA_DIR_ENCODING =>
        pjmedia_sdp_media_add_attr local (pjmedia_sdp_attr_create (lit "sendonly") None)
    | PJMEDIA_DIR_DECODING =>
        pjmedia_sdp_media_add_attr local (pjmedia_sdp_attr_create (lit "recvonly") None)
    | PJMEDIA_DIR_ENCODING_DECODING => local
    end.

(** ** Custom format matching *)

(** The registered callbacks, [fmt_match_cb]: a name and a function pointer. *)
Record fmt_match_cb_t := mk_cb { cb_fmt_name : list Z; cb_fn : nat }.

(** What a function pointer does, given the offer, the format's index in it,
    the answer, the format's index in it and the option. *)
Definition fmt_match_fn : Type :=
  nat -> sdp_media -> nat -> sdp_media -> nat -> Z -> Z * list sdp_attr.

Fixpoint cb_lookup (cbs : list fmt_match_cb_t) (fmt_name : list Z) (i : nat)
    : option (nat * fmt_match_cb_t) :=
  match cbs with
  | [] => None
  | f :: cbs =>
      if stricmp_eq fmt_name (cb_fmt_name f) then Some (i, f) else cb_lookup cbs fmt_name (S i)
  end.

(** Registration, and unregistration when [cb] is [NULL]. *)
Definition pjmedia_sdp_neg_register_fmt_match_cb (cbs : list fmt_match_cb_t)
    (fmt_name : list Z) (cb : option nat) : Z * list fmt_match_cb_t :=
  match cb with
  | None =>
      match cb_lookup cbs fmt_name 0 with
      | None => (PJ_ENOTFOUND, cbs)
      | Some (i, _) => (PJ_SUCCESS, delete i cbs)
      end
  | Some cb =>
      match cb_lookup cbs fmt_name 0 with
      | Some (_, f) => ((if Nat.eqb cb (cb_fn f) then PJ_SUCCESS else PJ_EEXISTS), cbs)
      | None =>
          if Nat.leb PJMEDIA_SDP_NEG_MAX_CUSTOM_FMT_NEG_CB (length cbs) then (PJ_ETOOMANY, cbs)
          else (PJ_SUCCESS, cbs ++ [mk_cb fmt_name cb])
      end
  end.

Section negotiation.
Context (run_cb : fmt_match_fn) (fmt_match_cb : list fmt_match_cb_t).

(** The status and the answer media. *)
Definition custom_fmt_match (fmt_name : list Z) (offer : sdp_media) (o_fmt_idx : nat)
    (answer : sdp_media) (a_fmt_idx : nat) (opt : Z) : Z * sdp_media :=
  match cb_lookup fmt_match_cb fmt_name 0 with
  | Some (_, f) =>
      let '(status, attrs) := run_cb (cb_fn f) offer o_fmt_idx answer a_fmt_idx opt in
      (status, answer <| m_attr := attrs |>)
  | None => (PJ_SUCCESS, answer)
  end.

Definition is_one (param : list Z) : bool := bool_decide (param = [49]).

(** The parameters of an [rtpmap], usually the number of channels: absent
    means 1. *)
Definition param_match (p1 p2 : list Z) : bool :=
  stricmp_eq p1 p2 || ((slen p2 =? 0) && is_one p1) || ((slen p1 =? 0) && is_one p2).

(** [pjmedia_sdp_neg_fmt_match] *)
Definition pjmedia_sdp_neg_fmt_match (offer : sdp_media) (o_fmt_idx : nat)
    (answer : sdp_media) (a_fmt_idx : nat) (opt : Z) : option (Z * sdp_media) :=
  o_fmt ← m_fmt offer !! o_fmt_idx;
  a_fmt ← m_fmt answer !! a_fmt_idx;
  let o_pt := u32 (pj_strtoul o_fmt) in
  let a_pt := u32 (pj_strtoul a_fmt) in
  if (o_pt <? 96) || (a_pt <? 96) then
    Some ((if o_pt =? a_pt then PJ_SUCCESS else PJMEDIA_SDP_EFORMATNOTEQUAL), answer)
  else
    match pjmedia_sdp_media_find_attr2 offer "rtpmap" (Some o_fmt) with
    | None => Some (PJ_EBUG, answer)
    | Some (_, attr) =>
    o_rtpmap ← (pjmedia_sdp_attr_get_rtpmap attr).2;
    match pjmedia_sdp_media_find_attr2 answer "rtpmap" (Some a_fmt) with
    | None => Some (PJ_EBUG, answer)
    | Some (_, attr) =>
    a_rtpmap ← (pjmedia_sdp_attr_get_rtpmap attr).2;
    if negb (stricmp_eq (r_enc_name o_rtpmap) (r_enc_name a_rtpmap))
       || negb (r_clock_rate o_rtpmap =? r_clock_rate a_rtpmap)
       || negb (param_match (r_param o_rtpmap) (r_param a_rtpmap))
    then Some (PJMEDIA_SDP_EFORMATNOTEQUAL, answer)
    else Some (custom_fmt_match (r_enc_name o_rtpmap) offer o_fmt_idx answer a_fmt_idx opt)
    end end.

(** ** Processing an answer *)

(** [allow_asym]: the loop compares the formats of the answer with those of
    the answer itself, as many as the offer has. *)
Fixpoint asym_inner (answer_fmt : list (list Z)) (rem_fmt : list Z) (n j : nat) : option bool :=
  match n with
  | O => Some false
  | S n =>
      fmt ← answer_fmt !! j;
      if pj_strcmp rem_fmt fmt =? 0 then Some true else asym_inner answer_fmt rem_fmt n (S j)
  end.

Fixpoint asym_outer (answer_fmt : list (list Z)) (offer_count : nat) (todo : list (list Z))
    : option bool :=
  match todo with
  | [] => Some false
  | rem_fmt :: todo =>
      found ← asym_inner answer_fmt rem_fmt offer_count 0;
      if (found : bool) then Some true else asym_outer answer_fmt offer_count todo
  end.

(** The static payload type [fmt]: its index in the answer. *)
Fixpoint find_static (fmt : list Z) (fmts : list (list Z)) (j : nat) : option nat :=
  match fmts with
  | [] => None
  | f :: fmts => if pj_strcmp fmt f =? 0 then Some j else find_static fmt fmts (S j)
  end.

(** In [process_m_answer] only the answer may spell out one channel. *)
Definition answer_param_match (or_ ar : sdp_rtpmap) : bool :=
  stricmp_eq (r_param or_) (r_param ar) || is_one (r_param ar).

(** The dynamic payload type with [rtpmap] [or_], format [i] of the offer:
    its index in the answer, whose formats from [j] on are [fmts]. *)
Fixpoint find_dynamic (or_ : sdp_rtpmap) (offer : sdp_media) (i : nat)
    (fmts : list (list Z)) (j : nat) (answer : sdp_media) : option (option nat * sdp_media) :=
  match fmts with
  | [] => Some (None, answer)
  | f :: fmts =>
      match pjmedia_sdp_media_find_attr2 answer "rtpmap" (Some f) with
      | None => find_dynamic or_ offer i fmts (S j) answer
      | Some (_, a) =>
          ar ← (pjmedia_sdp_attr_get_rtpmap a).2;
          if stricmp_eq (r_enc_name or_) (r_enc_name ar) &&
             (r_clock_rate or_ =? r_clock_rate ar) && answer_param_match or_ ar
          then
            let '(status, answer) := custom_fmt_match (r_enc_name or_) offer i answer j 0 in
            if status =? PJ_SUCCESS then Some (Some j, answer)
            else find_dynamic or_ offer i fmts (S j) answer
          else find_dynamic or_ offer i fmts (S j) answer
      end
  end.

(** One format of the offer: [inl] is the error return. *)
Definition find_matching (offer : sdp_media) (i : nat) (fmt : list Z) (answer : sdp_media)
    : option (Z + option nat * sdp_media) :=
  if u32 (pj_strtoul fmt) <? 96 then Some (inr (find_static fmt (m_fmt answer) 0, answer))
  else
    match pjmedia_sdp_media_find_attr2 offer "rtpmap" (Some fmt) with
    | None => Some (inl PJ_EBUG)
    | Some (_, a) =>
        or_ ← (pjmedia_sdp_attr_get_rtpmap a).2;
        r ← find_dynamic or_ offer i (m_fmt answer) 0 answer;
        Some (inr r)
    end.

(** Remove format [i] and its attributes. *)
Definition erase_fmt (m : sdp_media) (i : nat) (fmt : list Z) : sdp_media :=
  let m := remove_fmt_attr (remove_fmt_attr m "rtpmap" fmt) "fmtp" fmt in
  m <| m_fmt := delete i (m_fmt m) |>.

(** Remove the formats of the offer without a match; [prior] is
    [offer_fmt_prior], of the first [i] formats.  Every turn either erases a
    format or goes to the next. *)
Fixpoint strip_offer (n i : nat) (prior : list nat) (offer answer : sdp_media)
    : option (Z * list nat * sdp_media * sdp_media) :=
  match n with
  | O => Some (PJ_SUCCESS, prior, offer, answer)
  | S n =>
      fmt ← m_fmt offer !! i;
      r ← find_matching offer i fmt answer;
      match r with
      | inl status => Some (status, prior, offer, answer)
      | inr (Some j, answer) => strip_offer n (S i) (prior ++ [j]) offer answer
      | inr (None, answer) => strip_offer n i prior (erase_fmt offer i fmt) answer
      end
  end.

(** The two arrays [offer_fmt_prior] and [offer->desc.fmt], from index [i]
    on: one turn of the outer loop leaves the least priority at [i]. *)
Fixpoint resort_pass (x : nat * list Z) (l : list (nat * list Z))
    : (nat * list Z) * list (nat * list Z) :=
  match l with
  | [] => (x, [])
  | y :: l =>
      if Nat.ltb y.1 x.1
      then let '(m, l) := resort_pass y l in (m, x :: l)
      else let '(m, l) := resort_pass x l in (m, y :: l)
  end.

Fixpoint resort (n : nat) (l : list (nat * list Z)) : list (nat * list Z) :=
  match n, l with
  | S n, x :: l => let '(m, l) := resort_pass x l in m :: resort n l
  | _, _ => l
  end.

(** Remove the formats of the answer that no format of the offer selects. *)
Fixpoint strip_answer (n i del_cnt : nat) (prior : list nat) (offer_count : nat)
    (answer : sdp_media) : option sdp_media :=
  match n with
  | O => Some answer
  | S n =>
      fmt ← m_fmt answer !! i;
      unmatched ← (if Nat.leb offer_count i then Some true
                   else p ← prior !! i;
                        Some (negb (u32 (Z.of_nat p - Z.of_nat del_cnt) =? Z.of_nat i)));
      if (unmatched : bool)
      then strip_answer n i (S del_cnt) prior offer_count (erase_fmt answer i fmt)
      else strip_answer n (S i) del_cnt prior offer_count answer
  end.

(** The status, the offer and the answer. *)
Definition process_m_answer (offer answer : sdp_media) (allow_asym : bool)
    : option (Z * sdp_media * sdp_media) :=
  if negb (pj_strcmp (m_media answer) (m_media offer) =? 0)
  then Some (PJMEDIA_SDPNEG_EINVANSMEDIA, offer, answer)
  else if m_port answer =? 0
  then Some (PJ_SUCCESS, pjmedia_sdp_media_deactivate offer, answer)
  else if negb (pjmedia_sdp_transport_cmp (m_transport answer) (m_transport offer) =? PJ_SUCCESS)
  then Some (PJMEDIA_SDPNEG_EINVANSTP, offer, answer)
  else if m_port offer =? 0 then Some (PJ_SUCCESS, offer, answer)
  else
    let offer := update_media_direction answer offer in
    if allow_asym then
      found ← asym_outer (m_fmt answer) (length (m_fmt offer)) (m_fmt answer);
      Some ((if (found : bool) then PJ_SUCCESS else PJMEDIA_SDPNEG_EANSNOMEDIA), offer, answer)
    else
      '(status, prior, offer, answer) ← strip_offer (length (m_fmt offer)) 0 [] offer answer;
      if negb (status =? PJ_SUCCESS) then Some (status, offer, answer)
      else if Nat.eqb (length (m_fmt offer)) 0
      then Some (PJMEDIA_SDPNEG_EANSNOMEDIA, offer, answer)
      else
        let sorted := resort (length prior) (zip prior (m_fmt offer)) in
        let offer := offer <| m_fmt := sorted.*2 |> in
        answer ← strip_answer (length (m_fmt answer)) 0 0 (sorted.*1)
                   (length (m_fmt offer)) answer;
        Some (PJ_SUCCESS, offer, answer).

(** ** Building an answer *)

(** [rewrite_pt]: the payload type at the start of an attribute's value.  A
    value shorter than the old payload type has no room for the new one. *)
Definition rewrite_pt (attr_val old_pt new_pt : list Z) : option (list Z) :=
  if Nat.ltb (length attr_val) (length old_pt) then None
  else Some (new_pt ++ drop (length old_pt) attr_val).

(** Rewrite one attribute and move it to [a_tmp]. *)
Definition symmetric_attr (name : string) (answer : sdp_media) (a_tmp : list sdp_attr)
    (old_pt new_pt : list Z) : option (sdp_media * list sdp_attr) :=
  match pjmedia_sdp_media_find_attr2 answer name (Some old_pt) with
  | None => Some (answer, a_tmp)
  | Some (i, a) =>
      value ← rewrite_pt (a_value a) old_pt new_pt;
      if Nat.ltb (length a_tmp) PJMEDIA_MAX_SDP_ATTR
      then Some (pjmedia_sdp_media_remove_attr answer i, a_tmp ++ [mk_attr (a_name a) value])
      else None
  end.

(** [pts]: the formats of [pt_offer] and [pt_answer] from index [i] on. *)
Fixpoint symmetric_loop (pts : list (list Z * list Z)) (i : nat) (answer : sdp_media)
    (a_tmp : list sdp_attr) : option (sdp_media * list sdp_attr) :=
  match pts with
  | [] => Some (answer, a_tmp)
  | (pt_offer, pt_answer) :: pts =>
      if pj_strcmp pt_answer pt_offer =? 0 then symmetric_loop pts (S i) answer a_tmp
      else
        let answer := answer <| m_fmt := <[i := pt_offer]> (m_fmt answer) |> in
        '(answer, a_tmp) ← symmetric_attr "rtpmap" answer a_tmp pt_answer pt_offer;
        '(answer, a_tmp) ← symmetric_attr "fmtp" answer a_tmp pt_answer pt_offer;
        symmetric_loop pts (S i) answer a_tmp
  end.

Definition apply_answer_symmetric_pt (answer : sdp_media) (pts : list (list Z * list Z))
    : option sdp_media :=
  '(answer, a_tmp) ← symmetric_loop pts 0 answer [];
  Some (foldl pjmedia_sdp_media_add_attr answer a_tmp).

(** The local variables of [match_offer]: the arrays [pt_offer] and
    [pt_answer] are one list of pairs. *)
Record match_state := mk_match {
  master_has_codec : bool;
  master_has_other : bool;
  found_matching_codec : bool;
  found_matching_telephone_event : bool;
  found_matching_other : bool;
  pts : list (list Z * list Z);
  preanswer : sdp_media;
  clockrate : list Z;
  tel_clockrate : list Z
}.

#[export] Instance match_state_settable : Settable match_state :=
  fun r => mk_match (master_has_codec r) (master_has_other r) (found_matching_codec r)
    (found_matching_telephone_event r) (found_matching_other r) (pts r) (preanswer r)
    (clockrate r) (tel_clockrate r).

(** [arr[count++] = x], of an array for the formats of a media. *)
Definition push_fmt {A} (l : list A) (x : A) : option (list A) :=
  if Nat.ltb (length l) PJMEDIA_MAX_SDP_FMT then Some (l ++ [x]) else None.

(** Take note of a clock rate, once. *)
Definition add_clockrate (l : list Z) (rate : Z) : option (list Z) :=
  if existsb (Z.eqb rate) l then Some l else push_fmt l rate.

Section match_offer.
Context (prefer_remote_codec_order answer_with_multiple_codecs : bool) (offer : sdp_media).

(** The master's formats are matched, in their order, with the slave's. *)
Definition master (st : match_state) : sdp_media :=
  if prefer_remote_codec_order then offer else preanswer st.
Definition slave (st : match_state) : sdp_media :=
  if prefer_remote_codec_order then preanswer st else offer.

(** [pt_offer] and [pt_answer] for format [i] of the master, [j] of the slave. *)
Definition fmt_pair (st : match_state) (i j : nat) : option (list Z * list Z) :=
  o ← m_fmt offer !! (if prefer_remote_codec_order then i else j);
  a ← m_fmt (preanswer st) !! (if prefer_remote_codec_order then j else i);
  Some (o, a).

(** A static payload type. *)
Fixpoint match_static (pt : Z) (fmts : list (list Z)) (st : match_state) : option match_state :=
  match fmts with
  | [] => Some st
  | f :: fmts =>
      is_pt ← (if u32 (pj_strtoul f) =? pt then c ← char0 f; Some (pj_isdigit c)
               else Some false);
      if (is_pt : bool) then
        l ← push_fmt (pts st) (f, f);
        rates ← add_clockrate (clockrate st) 8000;
        Some (st <| found_matching_codec := true |> <| pts := l |> <| clockrate := rates |>)
      else match_static pt fmts st
  end.

(** Encoding name, clock rate and number of channels agree. *)
Definition rtpmap_match (or_ lr : sdp_rtpmap) : bool :=
  stricmp_eq (r_enc_name or_) (r_enc_name lr) && (r_clock_rate or_ =? r_clock_rate lr)
  && param_match (r_param or_) (r_param lr).

(** A dynamic payload type with [rtpmap] [or_], format [i] of the master. *)
Fixpoint match_dynamic (or_ : sdp_rtpmap) (is_codec : bool) (i : nat)
    (fmts : list (list Z)) (j : nat) (st : match_state) : option match_state :=
  match fmts with
  | [] => Some st
  | f :: fmts =>
      match pjmedia_sdp_media_find_attr2 (slave st) "rtpmap" (Some f) with
      | None => match_dynamic or_ is_codec i fmts (S j) st
      | Some (_, a) =>
          lr ← (pjmedia_sdp_attr_get_rtpmap a).2;
          if rtpmap_match or_ lr then
            if is_codec then
              let o_fmt_idx := if prefer_remote_codec_order then i else j in
              let a_fmt_idx := if prefer_remote_codec_order then j else i in
              let '(status, answer) :=
                custom_fmt_match (r_enc_name or_) offer o_fmt_idx (preanswer st) a_fmt_idx
                  ALLOW_MODIFY_ANSWER in
              let st := st <| preanswer := answer |> in
              if negb (status =? PJ_SUCCESS)
              then match_dynamic or_ is_codec i fmts (S j) st
              else
                rates ← add_clockrate (clockrate st) (r_clock_rate or_);
                pair ← fmt_pair st i j;
                l ← push_fmt (pts st) pair;
                Some (st <| found_matching_codec := true |> <| clockrate := rates |>
                         <| pts := l |>)
            else if existsb (Z.eqb (r_clock_rate or_)) (tel_clockrate st)
            then match_dynamic or_ is_codec i fmts (S j) st
            else
              rates ← push_fmt (tel_clockrate st) (r_clock_rate or_);
              pair ← fmt_pair st i j;
              l ← push_fmt (pts st) pair;
              Some (st <| tel_clockrate := rates |>
                       <| found_matching_telephone_event := true |> <| pts := l |>)
          else match_dynamic or_ is_codec i fmts (S j) st
      end
  end.

(** A format that is not a number. *)
Fixpoint match_other (fmt : list Z) (i : nat) (fmts : list (list Z)) (j : nat)
    (st : match_state) : option match_state :=
  match fmts with
  | [] => Some st
  | f :: fmts =>
      if pj_strcmp fmt f =? 0 then
        pair ← fmt_pair st i j;
        l ← push_fmt (pts st) pair;
        Some (st <| found_matching_other := true |> <| pts := l |>)
      else match_other fmt i fmts (S j) st
  end.

(** One turn of the loop over the master's formats; a status other than
    [PJ_SUCCESS] is the error return. *)
Definition match_one (i : nat) (fmt : list Z) (st : match_state) : option (Z * match_state) :=
  c ← char0 fmt;
  if pj_isdigit c then
    let pt := u32 (pj_strtoul fmt) in
    if pt <? 96 then
      let st := st <| master_has_codec := true |> in
      if negb answer_with_multiple_codecs && found_matching_codec st
      then Some (PJ_SUCCESS, st)
      else st ← match_static pt (m_fmt (slave st)) st; Some (PJ_SUCCESS, st)
    else
      match pjmedia_sdp_media_find_attr2 (master st) "rtpmap" (Some fmt) with
      | None => Some (PJMEDIA_SDP_EMISSINGRTPMAP, st)
      | Some (_, a) =>
          or_ ← (pjmedia_sdp_attr_get_rtpmap a).2;
          let is_codec := negb (stricmp2_eq (r_enc_name or_) "telephone-event") in
          let st := if is_codec then st <| master_has_codec := true |> else st in
          if is_codec && negb answer_with_multiple_codecs && found_matching_codec st
          then Some (PJ_SUCCESS, st)
          else st ← match_dynamic or_ is_codec i (m_fmt (slave st)) 0 st; Some (PJ_SUCCESS, st)
      end
  else
    let st := st <| master_has_other := true |> in
    if found_matching_other st then Some (PJ_SUCCESS, st)
    else st ← match_other fmt i (m_fmt (slave st)) 0 st; Some (PJ_SUCCESS, st).

Fixpoint match_loop (i : nat) (fmts : list (list Z)) (st : match_state)
    : option (Z * match_state) :=
  match fmts with
  | [] => Some (PJ_SUCCESS, st)
  | fmt :: fmts =>
      '(status, st) ← match_one i fmt st;
      if status =? PJ_SUCCESS then match_loop (S i) fmts st else Some (status, st)
  end.

(** Remove the telephone events whose clock rate no chosen codec has.  The
    results are the formats, the number of events kept and the first event. *)
Fixpoint tel_loop (n i : nat) (rates : list Z) (pre : sdp_media)
    (first : list Z * list Z) (matched_cnt : nat) (l : list (list Z * list Z))
    : option (list (list Z * list Z) * nat * (list Z * list Z)) :=
  match n with
  | O => Some (l, matched_cnt, first)
  | S n =>
      p ← l !! i;
      c ← char0 p.2;
      if negb (pj_isdigit c) || (pj_strtol p.2 <? 96)
      then tel_loop n (S i) rates pre first matched_cnt l
      else
        '(_, a) ← pjmedia_sdp_media_find_attr2 pre "rtpmap" (Some p.2);
        r ← (pjmedia_sdp_attr_get_rtpmap a).2;
        if negb (stricmp2_eq (r_enc_name r) "telephone-event")
        then tel_loop n (S i) rates pre first matched_cnt l
        else
          let first := if slen first.1 =? 0 then p else first in
          if existsb (Z.eqb (r_clock_rate r)) rates
          then tel_loop n (S i) rates pre first (S matched_cnt) l
          else tel_loop n i rates pre first matched_cnt (delete i l)
  end.

Definition tel_events (st : match_state) : option (list (list Z * list Z)) :=
  if found_matching_telephone_event st then
    '(l, matched_cnt, first) ←
      tel_loop (length (pts st)) 0 (clockrate st) (preanswer st) ([], []) 0 (pts st);
    if Nat.eqb matched_cnt 0 then push_fmt l first else Some l
  else Some (pts st).

(** The first index from [i] on of a format. *)
Definition fmt_index (fmts : list (list Z)) (i : nat) (pt : list Z) : option nat :=
  (fun j => (i + j)%nat) <$> find_static pt (drop i fmts) 0.

Definition swap_fmt (fmts : list (list Z)) (i j : nat) : option (list (list Z)) :=
  a ← fmts !! i;
  b ← fmts !! j;
  Some (<[j := a]> (<[i := b]> fmts)).

(** Put the chosen formats first.  When one is not found the code goes on,
    in a release build, with the memory after the formats of the clone,
    which is not initialised. *)
Fixpoint reorder (i : nat) (pt_answer : list (list Z)) (fmts : list (list Z))
    : option (list (list Z)) :=
  match pt_answer with
  | [] => Some fmts
  | pt :: pt_answer =>
      j ← fmt_index fmts i pt;
      fmts ← swap_fmt fmts i j;
      reorder (S i) pt_answer fmts
  end.

(** The answer of [match_offer] from the formats chosen. *)
Definition build_answer (pre : sdp_media) (l : list (list Z * list Z)) : option sdp_media :=
  fmts ← reorder 0 (l.*2) (m_fmt pre);
  let unwanted := drop (length l) fmts in
  let answer := foldl (fun m fmt => remove_fmt_attr (remove_fmt_attr m "rtpmap" fmt) "fmtp" fmt)
                  pre unwanted in
  let answer := answer <| m_fmt := take (length l) fmts |> in
  answer ← apply_answer_symmetric_pt answer l;
  Some (update_media_direction offer answer).
End match_offer.

Definition sdp_media_clone_deactivate (rem_med : sdp_media) (local_med : option sdp_media)
    (local_sess : option sdp_session) : sdp_media :=
  let res := pjmedia_sdp_media_clone_deactivate rem_med in
  if bool_decide (m_conn res = None) &&
     bool_decide ((local_sess ≫= s_conn) = None)
  then
    match local_med ≫= m_conn with
    | Some conn => res <| m_conn := Some conn |>
    | None => res <| m_conn := Some (mk_conn (lit "IN") (lit "IP4") (lit "127.0.0.1")) |>
    end
  else res.

Definition match_init (pre : sdp_media) : match_state :=
  mk_match false false false false false [] pre [] [].

(** The status, the answer on success, and the pre-answer media, whose
    attributes a callback may have modified. *)
Definition match_offer (prefer_remote_codec_order answer_with_multiple_codecs : bool)
    (offer pre : sdp_media) (preanswer_sdp : sdp_session)
    : option (Z * option sdp_media * sdp_media) :=
  if m_port offer =? 0
  then Some (PJ_SUCCESS,
             Some (sdp_media_clone_deactivate offer (Some pre) (Some preanswer_sdp)), pre)
  else if m_port pre =? 0 then Some (PJ_SUCCESS, Some pre, pre)
  else
    '(status, st) ← match_loop prefer_remote_codec_order answer_with_multiple_codecs offer 0
                      (m_fmt (master prefer_remote_codec_order offer (match_init pre)))
                      (match_init pre);
    if negb (status =? PJ_SUCCESS) then Some (status, None, preanswer st)
    else if master_has_codec st && negb (found_matching_codec st)
    then Some (PJMEDIA_SDPNEG_NOANSCODEC, None, preanswer st)
    else if master_has_other st && negb (found_matching_other st)
    then Some (PJMEDIA_SDPNEG_NOANSUNKNOWN, None, preanswer st)
    else
      l ← tel_events st;
      answer ← build_answer offer (preanswer st) l;
      Some (PJ_SUCCESS, Some answer, preanswer st).
End negotiation.
