(* ===== verification/SdpAnswer.v ===== *)
(** * SDP attributes and answers received

    Properties of the attributes of a media, and of the answer to an offer. *)

From Stdlib Require Import String.
From stdpp Require Import sorting.
From S2P Require Import Prelude Hash PjString Sdp SdpNeg.
Local Open Scope Z_scope.

(** * SDP attributes: properties

    Finding and removing attributes as operations on lists, and the direction
    of a media after it was adjusted to the other side's. *)

(** ** Finding *)

(** The attribute matches the search. *)
Definition attr_hit (name : list Z) (c_pt : option Z) (a : sdp_attr) : Prop :=
  a_name a = name /\
  match c_pt with Some pt => u32 (pj_strtoul (a_value a)) = pt | None => True end.

#[export] Instance attr_hit_dec name c_pt a : Decision (attr_hit name c_pt a).
Proof. unfold attr_hit. destruct c_pt; apply _. Defined.

(** The payload type a format stands for in a search. *)
Definition fmt_pt (fmt : list Z) : Z := u32 (pj_strtoul fmt).

(** The loop is the search of the first hit. *)
Lemma attr_find_loop_spec i attrs name c_pt :
  attr_find_loop i attrs name c_pt =
  (fun '(j, a) => ((i + j)%nat, a)) <$> list_find (attr_hit name c_pt) attrs.
Proof.
  revert i. induction attrs as [|a attrs IH]; intros i; [done|].
  cbn [attr_find_loop list_find]. rewrite strcmp_eqb.
  assert (Hn : attr_find_loop (S i) attrs name c_pt = (fun '(j, a) => ((i + j)%nat, a)) <$>
    (prod_map S id <$> list_find (attr_hit name c_pt) attrs)).
  { rewrite IH. destruct (list_find _ attrs) as [[j b]|]; cbn; [|done]. do 2 f_equal. lia. }
  unfold attr_hit at 1. case_bool_decide as E.
  - destruct c_pt as [pt|].
    + destruct (Z.eqb_spec (u32 (pj_strtoul (a_value a))) pt) as [E'|E'].
      * rewrite decide_True by done. cbn. do 2 f_equal. lia.
      * rewrite decide_False by (unfold attr_hit; intuition). by rewrite <- Hn.
    + rewrite decide_True by (by unfold attr_hit). cbn. do 2 f_equal. lia.
  - rewrite decide_False by (unfold attr_hit; intuition). by rewrite <- Hn.
Qed.

Lemma attr_find_spec attrs name c_fmt :
  pjmedia_sdp_attr_find attrs name c_fmt =
  if Nat.leb (length attrs) PJMEDIA_MAX_SDP_ATTR
  then list_find (attr_hit name (fmt_pt <$> c_fmt)) attrs else None.
Proof.
  unfold pjmedia_sdp_attr_find. rewrite attr_find_loop_spec. destruct (Nat.leb _ _); [|done].
  unfold fmt_pt. by destruct (list_find _ attrs) as [[j b]|].
Qed.

Lemma attr_find_Some attrs name c_fmt i a :
  pjmedia_sdp_attr_find attrs name c_fmt = Some (i, a) ->
  attrs !! i = Some a /\ attr_hit name (fmt_pt <$> c_fmt) a.
Proof.
  rewrite attr_find_spec. destruct (Nat.leb _ _); [|done].
  intros (Hi & Ha & _)%list_find_Some. done.
Qed.

Lemma find_attr2_Some m name c_fmt i a :
  pjmedia_sdp_media_find_attr2 m name c_fmt = Some (i, a) ->
  a ∈ m_attr m /\ attr_hit (lit name) (fmt_pt <$> c_fmt) a.
Proof. intros [Hi Ha]%attr_find_Some. split; [by eapply list_elem_of_lookup_2|done]. Qed.

(** ** Removing *)

Lemma remove_all_spec attrs name :
  (length attrs <= PJMEDIA_MAX_SDP_ATTR)%nat ->
  pjmedia_sdp_attr_remove_all attrs name = filter (fun a => a_name a <> name) attrs.
Proof.
  intros Hl. unfold pjmedia_sdp_attr_remove_all. rewrite (proj2 (Nat.leb_le _ _)) by done.
  clear Hl. induction attrs as [|a attrs IH]; [done|].
  cbn [attr_remove_all_loop]. rewrite strcmp_eqb, filter_cons, IH.
  case_bool_decide; [by rewrite decide_False by tauto | by rewrite decide_True].
Qed.

(** What [remove_fmt_attr] leaves: everything but the attributes, and no
    attribute that was not there. *)
Lemma remove_fmt_attr_spec m name fmt :
  exists attrs, remove_fmt_attr m name fmt = m <| m_attr := attrs |> /\
    attrs `sublist_of` m_attr m.
Proof.
  unfold remove_fmt_attr. destruct (pjmedia_sdp_media_find_attr2 _ _ _) as [[i a]|].
  - eexists. split; [done|]. unfold pjmedia_sdp_attr_remove.
    destruct (Nat.leb _ _); [apply sublist_delete|done].
  - exists (m_attr m). split; [|done]. by destruct m.
Qed.

Lemma erase_fmt_spec m i fmt :
  exists attrs, erase_fmt m i fmt = m <| m_attr := attrs |> <| m_fmt := delete i (m_fmt m) |> /\
    attrs `sublist_of` m_attr m.
Proof.
  unfold erase_fmt.
  destruct (remove_fmt_attr_spec m "rtpmap" fmt) as (l1 & -> & H1).
  destruct (remove_fmt_attr_spec (m <| m_attr := l1 |>) "fmtp" fmt) as (l2 & -> & H2).
  exists l2. split; [done|]. by etrans.
Qed.

(** ** Directions *)

(** A direction is whether media are sent and whether they are received. *)
Definition dir_bits (d : pjmedia_dir) : bool * bool :=
  match d with
  | PJMEDIA_DIR_NONE => (false, false)
  | PJMEDIA_DIR_ENCODING => (true, false)
  | PJMEDIA_DIR_DECODING => (false, true)
  | PJMEDIA_DIR_ENCODING_DECODING => (true, true)
  end.

(** The direction a remote media announces, in the order
    [update_media_direction] looks. *)
Definition remote_dir (remote : sdp_media) : pjmedia_dir :=
  if has_attr remote "inactive" then PJMEDIA_DIR_NONE
  else if has_attr remote "sendonly" then PJMEDIA_DIR_ENCODING
  else if has_attr remote "recvonly" then PJMEDIA_DIR_DECODING
  else PJMEDIA_DIR_ENCODING_DECODING.

(** We send what we want to send and they to receive, and conversely. *)
Definition dir_negotiated (local remote : pjmedia_dir) : bool * bool :=
  ((dir_bits local).1 && (dir_bits remote).2, (dir_bits local).2 && (dir_bits remote).1).

Definition dir_names : list (list Z) :=
  [lit "inactive"; lit "sendrecv"; lit "sendonly"; lit "recvonly"].

Definition is_dir_attr (a : sdp_attr) : Prop := a_name a ∈ dir_names.

#[export] Instance is_dir_attr_dec a : Decision (is_dir_attr a).
Proof. unfold is_dir_attr. apply _. Defined.

Lemma has_attr_spec m name :
  (length (m_attr m) <= PJMEDIA_MAX_SDP_ATTR)%nat ->
  has_attr m name = bool_decide (Exists (fun a => a_name a = lit name) (m_attr m)).
Proof.
  intros Hl. unfold has_attr, pjmedia_sdp_media_find_attr2. rewrite attr_find_spec.
  rewrite (proj2 (Nat.leb_le _ _)) by done. cbn [fmap option_fmap option_map].
  destruct (list_find _ _) as [[i a]|] eqn:E.
  - apply list_find_Some in E as (Hi & [Ha _] & _). symmetry. apply bool_decide_eq_true.
    apply Exists_exists. exists a. split; [by eapply list_elem_of_lookup_2|done].
  - apply list_find_None in E. symmetry. apply bool_decide_eq_false. intros Hx%Exists_exists.
    destruct Hx as (a & Hin & Ha). rewrite Forall_forall in E. apply (E a Hin). done.
Qed.

Lemma adjust_dir_bits remote old :
  dir_bits (adjust_dir remote old) = dir_negotiated old (remote_dir remote).
Proof.
  unfold adjust_dir, remote_dir, dir_negotiated.
  by destruct (has_attr remote "inactive"), (has_attr remote "sendonly"),
    (has_attr remote "recvonly"), old.
Qed.

Lemma remove_directions_spec m :
  (length (m_attr m) <= PJMEDIA_MAX_SDP_ATTR)%nat ->
  remove_all_media_directions m = m <| m_attr := filter (fun a => ~ is_dir_attr a) (m_attr m) |>.
Proof.
  intros Hl. unfold remove_all_media_directions, pjmedia_sdp_media_remove_all_attr.
  destruct m as [? ? ? ? ? ? ? attrs]. cbn in *.
  assert (Hf : forall l name, (length l <= PJMEDIA_MAX_SDP_ATTR)%nat ->
    (length (pjmedia_sdp_attr_remove_all l name) <= PJMEDIA_MAX_SDP_ATTR)%nat).
  { intros l name H. rewrite remove_all_spec by done. etrans; [apply length_filter|done]. }
  rewrite !remove_all_spec by (repeat apply Hf; done). rewrite !list_filter_filter.
  unfold set_field. f_equal. apply list_filter_iff. intros a. unfold is_dir_attr, dir_names.
  rewrite !not_elem_of_cons. pose proof (not_elem_of_nil (a_name a)). tauto.
Qed.

Lemma add_attr_room m a :
  (length (m_attr m) < PJMEDIA_MAX_SDP_ATTR)%nat ->
  pjmedia_sdp_media_add_attr m a = m <| m_attr := m_attr m ++ [a] |>.
Proof.
  intros Hl. unfold pjmedia_sdp_media_add_attr, pjmedia_sdp_attr_add.
  by rewrite (proj2 (Nat.ltb_lt _ _)).
Qed.

(** The direction attributes of a media whose only one is the last. *)
Lemma has_attr_after m l a name :
  m_attr m = filter (fun a => ~ is_dir_attr a) l ++ option_list a ->
  (length (m_attr m) <= PJMEDIA_MAX_SDP_ATTR)%nat -> lit name ∈ dir_names ->
  has_attr m name = bool_decide (a_name <$> a = Some (lit name)).
Proof.
  intros Hm Hl Hn. rewrite has_attr_spec by done. apply bool_decide_ext.
  rewrite Hm, Exists_app, !Exists_exists. split.
  - intros [(b & [Hb _]%list_elem_of_filter & E)|(b & Hb & E)].
    + destruct Hb. unfold is_dir_attr. by rewrite E.
    + destruct a; [|by apply elem_of_nil in Hb]. apply list_elem_of_singleton in Hb as ->.
      cbn. by rewrite E.
  - intros H. right. destruct a as [a|]; [|done]. exists a. split; [by left|]. by injection H.
Qed.

(** The direction of a media with one direction attribute at most. *)
Definition option_dir (name : option (list Z)) : pjmedia_dir :=
  if decide (name = Some (lit "sendonly")) then PJMEDIA_DIR_ENCODING
  else if decide (name = Some (lit "recvonly")) then PJMEDIA_DIR_DECODING
  else if decide (name = Some (lit "inactive")) then PJMEDIA_DIR_NONE
  else PJMEDIA_DIR_ENCODING_DECODING.

Lemma local_dir_after m l a :
  m_attr m = filter (fun a => ~ is_dir_attr a) l ++ option_list a ->
  (length (m_attr m) <= PJMEDIA_MAX_SDP_ATTR)%nat ->
  local_dir m = option_dir (a_name <$> a).
Proof.
  intros Hm Hl. unfold local_dir, option_dir.
  rewrite !(has_attr_after m l a) by (done || unfold dir_names; set_solver).
  repeat case_bool_decide; repeat case_decide; try done.
Qed.

Lemma update_direction_full remote local :
  (length (m_attr local) < PJMEDIA_MAX_SDP_ATTR)%nat ->
  let local' := update_media_direction remote local in
  dir_bits (local_dir local') = dir_negotiated (local_dir local) (remote_dir remote) /\
  filter (fun a => ~ is_dir_attr a) (m_attr local') =
    filter (fun a => ~ is_dir_attr a) (m_attr local) /\
  local' = local <| m_attr := m_attr local' |>.
Proof.
  intros Hl. cbv zeta. rewrite <- adjust_dir_bits. unfold update_media_direction.
  set (new := adjust_dir remote (local_dir local)).
  case_decide as E; [rewrite E; split; [done|]; split; [done|]; by destruct local|].
  assert (Hf : (length (filter (fun a => ~ is_dir_attr a) (m_attr local)) < PJMEDIA_MAX_SDP_ATTR)%nat)
    by (eapply Nat.le_lt_trans; [apply length_filter|done]).
  rewrite remove_directions_spec by lia. rewrite !add_attr_room by done.
  set (l := filter _ (m_attr local)) in *.
  enough (H : forall a, match a with Some b => is_dir_attr b | None => True end ->
    let local' := local <| m_attr := l ++ option_list a |> in
    local_dir local' = option_dir (a_name <$> a) /\
    filter (fun a => ~ is_dir_attr a) (m_attr local') = l).
  { assert (Hd : forall n, lit n ∈ dir_names -> is_dir_attr (pjmedia_sdp_attr_create (lit n) None)) by done.
    destruct new; [destruct (H (Some (pjmedia_sdp_attr_create (lit "inactive") None))) as [H1 H2]
      |destruct (H (Some (pjmedia_sdp_attr_create (lit "sendonly") None))) as [H1 H2]
      |destruct (H (Some (pjmedia_sdp_attr_create (lit "recvonly") None))) as [H1 H2]
      |destruct (H None) as [H1 H2]]; try done; try (apply Hd; unfold dir_names; set_solver).
    all: cbn [option_list] in H1, H2; rewrite ?app_nil_r in H1, H2.
    all: split; [exact (eq_trans (f_equal dir_bits H1) eq_refl)|]; by split. }
  intros a Ha. cbv zeta.
  assert (length (m_attr (local <| m_attr := l ++ option_list a |>)) <= PJMEDIA_MAX_SDP_ATTR)%nat.
  { cut (length (l ++ option_list a) <= PJMEDIA_MAX_SDP_ATTR)%nat; [done|].
    rewrite length_app. assert (length (option_list a) <= 1)%nat by (by destruct a; cbn; lia). lia. }
  split; [by apply (local_dir_after _ (m_attr local))|].
  change (filter (fun b => ~ is_dir_attr b) (l ++ option_list a) = l). rewrite filter_app.
  assert (filter (fun b => ~ is_dir_attr b) (option_list a) = []) as ->.
  { destruct a as [b|]; [|done]. change (filter (fun b => ~ is_dir_attr b) [b] = []).
    rewrite filter_cons, decide_False by tauto. done. }
  rewrite app_nil_r. unfold l. rewrite list_filter_filter. apply list_filter_iff. tauto.
Qed.

(** Adjusting the direction of the local media to the remote's: afterwards
    the local media sends what both agreed it sends, and receives what both
    agreed it receives; its other attributes, and the rest of it, are as
    before. *)
Theorem update_direction_negotiated remote local :
  (length (m_attr local) < PJMEDIA_MAX_SDP_ATTR)%nat ->
  let local' := update_media_direction remote local in
  dir_bits (local_dir local') = dir_negotiated (local_dir local) (remote_dir remote) /\
  filter (fun a => ~ is_dir_attr a) (m_attr local') =
    filter (fun a => ~ is_dir_attr a) (m_attr local) /\
  local' = local <| m_attr := m_attr local' |>.
Proof. apply update_direction_full. Qed.

(** * SDP answers received: properties

    What [process_m_answer] leaves of an offered media and of its answer:
    the formats both sides agree on, in the order of the answer. *)

(** ** Agreeing formats *)

(** An [rtpmap] attribute of the media for the payload type of [fmt] reads [r]. *)
Definition rtpmap_of (m : sdp_media) (fmt : list Z) (r : sdp_rtpmap) : Prop :=
  exists a, a ∈ m_attr m /\ attr_hit (lit "rtpmap") (Some (fmt_pt fmt)) a /\
    (pjmedia_sdp_attr_get_rtpmap a).2 = Some r.

(** The parameters, usually the numbers of channels, agree: the same text up
    to case, or the answer spells out one channel. *)
Definition channels_agree (or_ ar : sdp_rtpmap) : Prop :=
  str_ci (r_param or_) (r_param ar) \/ r_param ar = [49].

(** Format [f] of the offer and [g] of the answer stand for the same codec:
    the same static payload type, or dynamic ones with matching [rtpmap]s. *)
Definition fmt_agree (offer answer : sdp_media) (f g : list Z) : Prop :=
  if fmt_pt f <? 96 then f = g
  else exists or_ ar, rtpmap_of offer f or_ /\ rtpmap_of answer g ar /\
    str_ci (r_enc_name or_) (r_enc_name ar) /\ r_clock_rate or_ = r_clock_rate ar /\
    channels_agree or_ ar.

Lemma answer_param_match_agree or_ ar : answer_param_match or_ ar = true -> channels_agree or_ ar.
Proof.
  unfold answer_param_match, is_one, channels_agree. rewrite orb_true_iff. intros [H|H]; [by left|].
  right. by apply bool_decide_eq_true in H.
Qed.

Lemma fmt_agree_mono offer offer' answer f g :
  (forall a, a ∈ m_attr offer' -> a_name a = lit "rtpmap" -> a ∈ m_attr offer) ->
  fmt_agree offer' answer f g -> fmt_agree offer answer f g.
Proof.
  intros Hs. unfold fmt_agree. destruct (_ <? 96); [done|].
  intros (r & ar & (a & Ha & Hh & Hr) & H). exists r, ar. split; [|done].
  exists a. split; [|done]. apply Hs; [done|apply Hh].
Qed.

(** ** Sorting the formats *)

Definition prior_le (x y : nat * list Z) : Prop := (x.1 <= y.1)%nat.

Lemma resort_pass_spec x l m l' :
  resort_pass x l = (m, l') ->
  m :: l' ≡ₚ x :: l /\ Forall (prior_le m) l' /\ length l' = length l /\ prior_le m x.
Proof.
  unfold prior_le. revert x m l'. induction l as [|y l IH]; intros x m l'; cbn [resort_pass].
  - intros [= <- <-]. auto.
  - destruct (Nat.ltb y.1 x.1) eqn:E; zbool;
      destruct (resort_pass _ l) as [m0 l0] eqn:Er; intros [= <- <-];
      destruct (IH _ _ _ Er) as (Hp & Hf & Hl & Hx); cbn [length].
    + split; [by rewrite Permutation_swap, Hp|]. split; [|split; lia].
      constructor; [lia|done].
    + split; [rewrite Permutation_swap, Hp; apply Permutation_swap|].
      split; [|split; lia]. constructor; [lia|done].
Qed.

Lemma resort_spec n l :
  (length l <= n)%nat -> resort n l ≡ₚ l /\ StronglySorted prior_le (resort n l).
Proof.
  revert l. induction n as [|n IH]; intros [|x l] Hn; cbn [resort length] in *;
    try (by split; [|apply SSorted_nil]); [lia|].
  destruct (resort_pass x l) as [m l'] eqn:E.
  destruct (resort_pass_spec _ _ _ _ E) as (Hp & Hf & Hl & _).
  destruct (IH l') as [Hp' Hs]; [lia|]. split; [by rewrite Hp'|].
  apply SSorted_cons; [done|]. by rewrite Hp'.
Qed.

(** ** The formats of the answer that are kept *)

(** From format [k] of the answer on, with the priorities left. *)
Fixpoint keep_fmts (prior : list nat) (k : nat) (fmts : list (list Z)) : list (list Z) :=
  match fmts with
  | [] => []
  | g :: fmts =>
      match prior with
      | p :: prior' => if Nat.eqb p k then g :: keep_fmts prior' (S k) fmts
                       else keep_fmts prior (S k) fmts
      | [] => keep_fmts [] (S k) fmts
      end
  end.

Lemma strip_answer_spec n i del prior answer answer' :
  (n = length (m_fmt answer) - i)%nat -> (i <= length (m_fmt answer))%nat ->
  Z.of_nat (length (m_fmt answer) + del) < 4294967296 ->
  Forall (fun p => (p < length (m_fmt answer) + del)%nat) prior ->
  strip_answer n i del prior (length prior) answer = Some answer' ->
  exists attrs, attrs `sublist_of` m_attr answer /\
    answer' = answer <| m_attr := attrs |>
      <| m_fmt := take i (m_fmt answer) ++ keep_fmts (drop i prior) (i + del) (drop i (m_fmt answer)) |>.
Proof.
  revert i del answer. induction n as [|n IH]; intros i del answer Hn Hi Hb Hp; cbn [strip_answer].
  - intros [= <-]. exists (m_attr answer). split; [done|]. rewrite (drop_ge (m_fmt answer)) by lia.
    cbn [keep_fmts]. rewrite app_nil_r, take_ge by lia. by destruct answer.
  - destruct (lookup_lt_is_Some_2 (m_fmt answer) i) as [fmt Hf]; [lia|]. rewrite Hf. ored.
    rewrite (drop_S _ _ _ Hf). cbn [keep_fmts].
    assert (Hd : forall del' : nat, del' = S del -> strip_answer n i del' prior (length prior) (erase_fmt answer i fmt) = Some answer' ->
      exists attrs, attrs `sublist_of` m_attr answer /\
        answer' = answer <| m_attr := attrs |>
          <| m_fmt := take i (m_fmt answer) ++ keep_fmts (drop i prior) (S (i + del)) (drop (S i) (m_fmt answer)) |>).
    { intros del' ->. destruct (erase_fmt_spec answer i fmt) as (l & He & Hl). rewrite He.
      assert (Hlen : length (delete i (m_fmt answer)) = (length (m_fmt answer) - 1)%nat)
        by (apply length_delete; eauto).
      intros (attrs & Ha & ->)%IH; cbn [m_fmt m_attr] in *; unfold set_field in *; cbn [m_fmt m_attr] in *;
        [|lia|lia|lia|]; cycle 1.
      { eapply Forall_impl; [done|]. intros p0 H0. cbn in H0. rewrite Hlen. lia. }
      exists attrs. split; [by etrans|]. f_equal. rewrite delete_take_drop.
      rewrite take_app_le by (rewrite length_take; lia). rewrite take_take, Nat.min_id.
      f_equal. f_equal; [lia|]. rewrite drop_app_ge by (rewrite length_take; lia).
      rewrite length_take, Nat.min_l by lia. by rewrite Nat.sub_diag. }
    destruct (Nat.leb (length prior) i) eqn:E; zbool.
    + ored. rewrite (drop_ge prior) by lia. rewrite (drop_ge prior) in Hd by lia. by apply Hd.
    + destruct (lookup_lt_is_Some_2 prior i) as [p Hpi]; [lia|]. rewrite Hpi. ored.
      rewrite (drop_S _ _ _ Hpi). rewrite (drop_S _ _ _ Hpi) in Hd.
      pose proof (proj1 (Forall_lookup _ _) Hp i p Hpi) as Hpl. cbn in Hpl.
      assert (Hu : (u32 (Z.of_nat p - Z.of_nat del) =? Z.of_nat i) = Nat.eqb p (i + del)).
      { apply eq_bool_prop_intro. unfold Is_true, u32.
        destruct (Nat.le_gt_cases del p).
        - rewrite Z.mod_small by lia. destruct (Z.eqb_spec (Z.of_nat p - Z.of_nat del) (Z.of_nat i)), (Nat.eqb_spec p (i + del)); try done; lia.
        - rewrite <- (Z.mod_add _ 1), Z.mod_small by lia.
          destruct (Z.eqb_spec (Z.of_nat p - Z.of_nat del + 1 * 4294967296) (Z.of_nat i)), (Nat.eqb_spec p (i + del)); try done; lia. }
      rewrite Hu. destruct (Nat.eqb p (i + del)) eqn:Ep; cbn [negb]; [|by apply Hd].
      intros (attrs & Ha & ->)%IH; [|lia|lia|lia|done]. exists attrs. split; [done|]. f_equal.
      rewrite (take_S_r _ _ _ Hf), <- app_assoc. done.
Qed.

Lemma lookup_shift {A} (x : A) l p k :
  (k < p)%nat -> (x :: l) !! (p - k)%nat = l !! (p - S k)%nat.
Proof. intros H. by replace (p - k)%nat with (S (p - S k)) by lia. Qed.

Lemma keep_fmts_head p prior k fmts :
  (k <= p < k + length fmts)%nat ->
  exists g rest, keep_fmts (p :: prior) k fmts = g :: rest /\ fmts !! (p - k)%nat = Some g.
Proof.
  revert k. induction fmts as [|g fmts IH]; intros k Hp; cbn [length keep_fmts] in *; [lia|].
  destruct (Nat.eqb_spec p k) as [->|Hne].
  - exists g, (keep_fmts prior (S k) fmts). by rewrite Nat.sub_diag.
  - destruct (IH (S k)) as (g' & rest & H1 & H2); [lia|]. exists g', rest.
    by rewrite lookup_shift by lia.
Qed.

(** Distinct priorities select their formats, in order. *)
Lemma keep_fmts_distinct prior k fmts :
  StronglySorted lt prior -> Forall (fun p => (k <= p < k + length fmts)%nat) prior ->
  Forall2 (fun p g => fmts !! (p - k)%nat = Some g) prior (keep_fmts prior k fmts).
Proof.
  revert k prior. induction fmts as [|g fmts IH]; intros k prior Hs Hp.
  - destruct prior; [constructor|]. inversion Hp; cbn in *; lia.
  - destruct prior as [|p prior]; cbn [keep_fmts].
    + assert (H := IH (S k) [] (SSorted_nil _) (Forall_nil_2 _)).
      apply Forall2_nil_inv_l in H as ->. constructor.
    + inversion Hs as [|? ? Hs' Hlt]; subst. inversion Hp as [|? ? Hp0 Hp']; subst. cbn [length] in *.
      assert (Hshift : forall pr, Forall (fun q => (S k <= q < S k + length fmts)%nat) pr ->
        StronglySorted lt pr ->
        Forall2 (fun q h => (g :: fmts) !! (q - k)%nat = Some h) pr (keep_fmts pr (S k) fmts)).
      { intros pr Hpr Hss. pose proof (IH (S k) pr Hss Hpr) as H.
        eapply Forall2_same_length_lookup_2; [by apply Forall2_length in H|].
        intros i q h Hq Hh. pose proof (Forall2_lookup_lr _ _ _ _ _ _ H Hq Hh) as He.
        pose proof (Forall_lookup_1 _ _ _ _ Hpr Hq) as Hpq. cbn in Hpq. by rewrite lookup_shift by lia. }
      destruct (Nat.eqb_spec p k) as [->|Hne].
      * constructor; [by rewrite Nat.sub_diag|]. apply Hshift; [|done].
        rewrite Forall_forall in Hp', Hlt |- *. intros q Hq.
        specialize (Hp' q Hq). specialize (Hlt q Hq). lia.
      * apply Hshift; [|done]. rewrite Forall_forall in Hp', Hlt |- *. intros q [->|Hq]%elem_of_cons; [lia|].
        specialize (Hp' q Hq). specialize (Hlt q Hq). lia.
Qed.

(** ** Matching the formats of the offer *)

Section answer.
Context (run_cb : fmt_match_fn) (cbs : list fmt_match_cb_t).

(** Without the flag, a callback may not modify the answer. *)
Definition cb_keeps : Prop :=
  forall fn offer i answer j, (run_cb fn offer i answer j 0).2 = m_attr answer.

Hypothesis (Hkeeps : cb_keeps).

Lemma custom_fmt_match_keeps name offer i answer j :
  (custom_fmt_match run_cb cbs name offer i answer j 0).2 = answer.
Proof.
  unfold custom_fmt_match. destruct (cb_lookup _ _ _) as [[? f]|]; [|done].
  pose proof (Hkeeps (cb_fn f) offer i answer j) as H.
  destruct (run_cb _ _ _ _ _ _) as [status attrs]. cbn in *. subst. by destruct answer.
Qed.

Lemma find_static_spec fmt fmts j k :
  find_static fmt fmts j = Some k -> (j <= k)%nat /\ fmts !! (k - j)%nat = Some fmt.
Proof.
  revert j. induction fmts as [|f fmts IH]; intros j; cbn [find_static]; [done|].
  rewrite strcmp_eqb. case_bool_decide as E.
  - intros [= ->]. subst. by rewrite Nat.sub_diag.
  - intros [H1 H2]%IH. split; [lia|]. by rewrite lookup_shift by lia.
Qed.

Lemma find_dynamic_spec or_ offer i fmts j answer r answer' :
  find_dynamic run_cb cbs or_ offer i fmts j answer = Some (r, answer') ->
  answer' = answer /\
  forall k, r = Some k -> (j <= k)%nat /\ exists g ar, fmts !! (k - j)%nat = Some g /\
    rtpmap_of answer g ar /\ str_ci (r_enc_name or_) (r_enc_name ar) /\
    r_clock_rate or_ = r_clock_rate ar /\ channels_agree or_ ar.
Proof.
  revert j. induction fmts as [|f fmts IH]; intros j; cbn [find_dynamic].
  { intros [= <- <-]. done. }
  assert (Hn : find_dynamic run_cb cbs or_ offer i fmts (S j) answer = Some (r, answer') ->
    answer' = answer /\
    forall k, r = Some k -> (j <= k)%nat /\ exists g ar, (f :: fmts) !! (k - j)%nat = Some g /\
      rtpmap_of answer g ar /\ str_ci (r_enc_name or_) (r_enc_name ar) /\
      r_clock_rate or_ = r_clock_rate ar /\ channels_agree or_ ar).
  { intros [-> H]%IH. split; [done|]. intros k Hk. destruct (H k Hk) as (Hj & g & ar & Hg & Hrest).
    split; [lia|]. exists g, ar. by rewrite lookup_shift by lia. }
  destruct (pjmedia_sdp_media_find_attr2 answer "rtpmap" (Some f)) as [[ai a]|] eqn:Ef; [|done].
  destruct ((pjmedia_sdp_attr_get_rtpmap a).2) as [ar|] eqn:Er; ored; [|done].
  destruct (_ && _) eqn:E; [|done].
  apply andb_true_iff in E as [[E1 E2%Z.eqb_eq]%andb_true_iff E3%answer_param_match_agree].
  pose proof (custom_fmt_match_keeps (r_enc_name or_) offer i answer j) as Hk.
  destruct (custom_fmt_match _ _ _ _ _ _ _ _) as [status answer1]. cbn in Hk. subst answer1.
  destruct (status =? PJ_SUCCESS); [|done]. intros [= <- <-]. split; [done|].
  intros k [= ->]. split; [done|]. exists f, ar. rewrite Nat.sub_diag.
  apply find_attr2_Some in Ef as [Hin Hhit]. split; [done|]. split; [by exists a|]. done.
Qed.

Lemma find_matching_spec offer i fmt answer r :
  find_matching run_cb cbs offer i fmt answer = Some r ->
  match r with
  | inl status => status = PJ_EBUG
  | inr (r, answer') => answer' = answer /\
      forall k, r = Some k -> exists g, m_fmt answer !! k = Some g /\ fmt_agree offer answer fmt g
  end.
Proof.
  unfold find_matching, fmt_agree, fmt_pt. destruct (_ <? 96).
  - intros [= <-]. split; [done|]. intros k [_ H]%find_static_spec. exists fmt.
    by rewrite Nat.sub_0_r in H.
  - destruct (pjmedia_sdp_media_find_attr2 offer "rtpmap" (Some fmt)) as [[ai a]|] eqn:Ef; [|by intros [= <-]].
    destruct ((pjmedia_sdp_attr_get_rtpmap a).2) as [or_|] eqn:Er; ored; [|done].
    destruct (find_dynamic _ _ _ _ _ _ _ _) as [[k answer']|] eqn:Ed; ored; [|done].
    intros [= <-]. apply find_dynamic_spec in Ed as [-> H]. split; [done|].
    intros k0 Hk0. destruct (H k0 Hk0) as (_ & g & ar & Hg & Har & Hm). rewrite Nat.sub_0_r in Hg.
    exists g. split; [done|]. apply find_attr2_Some in Ef as [Hin Hhit]. exists or_, ar.
    split; [by exists a|]. done.
Qed.

(** The formats that stay in the offer, each with the index of the format of
    the answer it agrees with. *)
Lemma strip_offer_spec n i prior offer answer prior' offer' answer' :
  (n = length (m_fmt offer) - i)%nat -> (i <= length (m_fmt offer))%nat ->
  strip_offer run_cb cbs n i prior offer answer = Some (PJ_SUCCESS, prior', offer', answer') ->
  answer' = answer /\
  exists attrs fmts js,
    offer' = offer <| m_attr := attrs |> <| m_fmt := take i (m_fmt offer) ++ fmts |> /\
    attrs `sublist_of` m_attr offer /\ fmts `sublist_of` drop i (m_fmt offer) /\
    prior' = prior ++ js /\
    Forall2 (fun f j => exists g, m_fmt answer !! j = Some g /\ fmt_agree offer answer f g) fmts js.
Proof.
  revert i prior offer. induction n as [|n IH]; intros i prior offer Hn Hi; cbn [strip_offer].
  - intros [= <- <- <-]. split; [done|]. exists (m_attr offer), [], [].
    rewrite !app_nil_r, take_ge by lia. split; [by destruct offer|]. split; [done|].
    split; [apply sublist_nil_l|]. split; [done|constructor].
  - destruct (lookup_lt_is_Some_2 (m_fmt offer) i) as [fmt Hf]; [lia|]. rewrite Hf. ored.
    destruct (find_matching _ _ _ _ _ _) as [[status|[[j|] answer1]]|] eqn:Em; ored; [| | |done];
      apply find_matching_spec in Em.
    + intros [= -> _ _ _]. done.
    + destruct Em as [-> Em]. intros (-> & attrs & fmts & js & -> & H1 & H2 & -> & H3)%IH; [|lia..].
      split; [done|]. exists attrs, (fmt :: fmts), (j :: js). rewrite (drop_S _ _ _ Hf).
      rewrite (take_S_r _ _ _ Hf), <- !app_assoc. split; [done|]. split; [done|].
      split; [by apply sublist_skip|]. split; [done|]. constructor; [|done]. by apply Em.
    + destruct Em as [-> _]. destruct (erase_fmt_spec offer i fmt) as (l & -> & Hl).
      assert (Hlen : length (delete i (m_fmt offer)) = (length (m_fmt offer) - 1)%nat)
        by (apply length_delete; eauto).
      intros (-> & attrs & fmts & js & -> & H1 & H2 & -> & H3)%IH; unfold set_field in *;
        cbn [m_fmt m_attr] in *; [|lia..]. split; [done|]. exists attrs, fmts, js.
      rewrite delete_take_drop in H2 |- *. rewrite drop_app_ge in H2 by (rewrite length_take; lia).
      rewrite length_take, Nat.min_l, Nat.sub_diag in H2 by lia.
      rewrite take_app_le by (rewrite length_take; lia). rewrite take_take, Nat.min_id.
      split; [done|]. split; [by etrans|]. split; [rewrite (drop_S _ _ _ Hf); by apply sublist_cons|].
      split; [done|]. eapply Forall2_impl; [done|]. intros f k (g & Hg & Ha). exists g. split; [done|].
      eapply fmt_agree_mono; [|done]. intros a Hin _. cbn in Hin. by eapply elem_of_sublist.
Qed.

(** The pairs of a priority and a format after sorting. *)
Definition selects (offer answer : sdp_media) (p : nat * list Z) : Prop :=
  exists g, m_fmt answer !! p.1 = Some g /\ fmt_agree offer answer p.2 g.

Lemma sorted_fst (l : list (nat * list Z)) :
  StronglySorted prior_le l -> NoDup l.*1 -> StronglySorted lt l.*1.
Proof.
  induction 1 as [|[p f] l Hs IH Hle]; cbn; [constructor|]. intros [Hp Hn]%NoDup_cons.
  constructor; [by apply IH|]. apply Forall_forall. intros q Hq.
  apply list_elem_of_fmap in Hq as ([q' g] & -> & Hin). cbn.
  rewrite Forall_forall in Hle. specialize (Hle _ Hin). unfold prior_le in Hle. cbn in Hle.
  assert (p <> q'); [|lia]. intros ->. apply Hp. apply list_elem_of_fmap. by exists (q', g).
Qed.

Lemma nodup_selected offer answer (l : list (nat * list Z)) :
  NoDup l.*2 -> Forall (selects offer answer) l ->
  (forall f f' g, f ∈ l.*2 -> f' ∈ l.*2 -> g ∈ m_fmt answer ->
     fmt_agree offer answer f g -> fmt_agree offer answer f' g -> f = f') ->
  NoDup l.*1.
Proof.
  intros Hn Hs Hd. apply NoDup_alt. intros i j p Hi Hj.
  rewrite list_lookup_fmap in Hi, Hj.
  destruct (l !! i) as [[p1 f1]|] eqn:E1; [|done]. destruct (l !! j) as [[p2 f2]|] eqn:E2; [|done].
  cbn in Hi, Hj. injection Hi as ->. injection Hj as ->.
  destruct (Forall_lookup_1 _ _ _ _ Hs E1) as (g1 & Hg1 & Ha1).
  destruct (Forall_lookup_1 _ _ _ _ Hs E2) as (g2 & Hg2 & Ha2). cbn in *.
  rewrite Hg1 in Hg2. injection Hg2 as <-.
  assert (F1 : l.*2 !! i = Some f1) by (by rewrite list_lookup_fmap, E1).
  assert (F2 : l.*2 !! j = Some f2) by (by rewrite list_lookup_fmap, E2).
  assert (f1 = f2) as ->.
  { apply (Hd f1 f2 g1); try done; [by eapply list_elem_of_lookup_2..]. }
  by eapply NoDup_lookup.
Qed.

(** The formats of both sides after sorting and stripping. *)
Lemma sorted_agree offer answer l answer' :
  l <> [] -> StronglySorted prior_le l -> Forall (selects offer answer) l ->
  Z.of_nat (length (m_fmt answer)) < 4294967296 ->
  strip_answer (length (m_fmt answer)) 0 0 l.*1 (length l.*2) answer = Some answer' ->
  (exists f g fs gs, l.*2 = f :: fs /\ m_fmt answer' = g :: gs /\ fmt_agree offer answer f g) /\
  (NoDup l.*1 -> Forall2 (fmt_agree offer answer) l.*2 (m_fmt answer')).
Proof.
  intros Hne Hsort Hsel Hlen Hst.
  assert (Hlt : Forall (fun p => (0 <= p < 0 + length (m_fmt answer))%nat) l.*1).
  { apply Forall_fmap. eapply Forall_impl; [done|]. intros p (g & Hg & _). cbn.
    apply lookup_lt_Some in Hg. lia. }
  replace (length l.*2) with (length l.*1) in Hst by (by rewrite !length_fmap).
  apply strip_answer_spec in Hst as (attrs & _ & ->); [|lia..|];
    [|eapply Forall_impl; [exact Hlt|]; cbn; intros; lia].
  rewrite !drop_0, take_0. cbn [app Nat.add]. unfold set_field; cbn [m_fmt]. split.
  - destruct l as [|[p f] l]; [done|]. inversion Hlt as [|? ? Hp _]; subst.
    destruct (keep_fmts_head p l.*1 0 (m_fmt answer)) as (g & gs & Hk & Hg); [cbn in *; lia|].
    inversion Hsel as [|? ? (g' & Hg' & Ha) _]; subst. cbn in Hg', Ha. rewrite Nat.sub_0_r in Hg.
    rewrite Hg' in Hg. injection Hg as ->. exists f, g, l.*2, gs. cbn. by rewrite Hk.
  - intros Hn. assert (H := keep_fmts_distinct _ 0 (m_fmt answer) (sorted_fst _ Hsort Hn) Hlt).
    assert (Hll := Forall2_length _ _ _ H). rewrite length_fmap in Hll.
    eapply Forall2_same_length_lookup_2; [by rewrite length_fmap|].
    intros i f g Hf Hg. rewrite list_lookup_fmap in Hf.
    destruct (l !! i) as [[p f']|] eqn:E; [|done]. injection Hf as ->.
    assert (Hp : l.*1 !! i = Some p) by (by rewrite list_lookup_fmap, E).
    pose proof (Forall2_lookup_lr _ _ _ _ _ _ H Hp Hg) as Hpg. cbn in Hpg.
    destruct (Forall_lookup_1 _ _ _ _ Hsel E) as (g' & Hg' & Ha). cbn in *.
    rewrite Nat.sub_0_r in Hpg. rewrite Hpg in Hg'. by injection Hg' as <-.
Qed.

(** When no two formats of the offer are the same codec for the answer. *)
Definition codecs_distinct (offer answer : sdp_media) : Prop :=
  NoDup (m_fmt offer) /\
  forall f f' g, f ∈ m_fmt offer -> f' ∈ m_fmt offer -> g ∈ m_fmt answer ->
    fmt_agree offer answer f g -> fmt_agree offer answer f' g -> f = f'.

(** C26: once the answer to an active media was processed with success, without
    [allow_asym]: the offer keeps formats it had, each for a format of the
    answer, and both sides put the same codec first. When no two offered
    formats agree with the same answered one, the formats of the two sides
    agree one by one, and are as many; otherwise their numbers may differ.
    (With [allow_asym] any answer is accepted, [asym_accepts_any].) *)
Theorem answer_codecs_agree offer answer offer' answer' :
  (length (m_attr offer) < PJMEDIA_MAX_SDP_ATTR)%nat ->
  (length (m_fmt answer) <= PJMEDIA_MAX_SDP_FMT)%nat ->
  m_port offer <> 0 -> m_port answer <> 0 ->
  process_m_answer run_cb cbs offer answer false = Some (PJ_SUCCESS, offer', answer') ->
  (forall f, f ∈ m_fmt offer' ->
     f ∈ m_fmt offer /\ exists g, g ∈ m_fmt answer /\ fmt_agree offer answer f g) /\
  (exists f g fs gs, m_fmt offer' = f :: fs /\ m_fmt answer' = g :: gs /\
     fmt_agree offer answer f g) /\
  (codecs_distinct offer answer ->
     Forall2 (fmt_agree offer answer) (m_fmt offer') (m_fmt answer')).
Proof.
  intros Hattr Hlen Hpo Hpa. unfold process_m_answer.
  destruct (negb (_ =? 0)); [by intros [= ? _ _]|]. rewrite (proj2 (Z.eqb_neq _ _) Hpa).
  destruct (negb (_ =? PJ_SUCCESS)); [by intros [= ? _ _]|]. rewrite (proj2 (Z.eqb_neq _ _) Hpo).
  destruct (update_direction_full answer offer Hattr) as (_ & Hdir & Hupd).
  set (offer1 := update_media_direction answer offer) in *.
  assert (Hf1 : m_fmt offer1 = m_fmt offer) by (by rewrite Hupd).
  assert (Hmono : forall f g, fmt_agree offer1 answer f g -> fmt_agree offer answer f g).
  { intros f g. apply fmt_agree_mono. intros a Ha Hn.
    assert (Hin : a ∈ filter (fun a => ~ is_dir_attr a) (m_attr offer1)).
    { apply list_elem_of_filter. split; [|done]. unfold is_dir_attr. rewrite Hn.
      apply (bool_decide_unpack _). by vm_compute. }
    rewrite Hdir in Hin. by apply list_elem_of_filter in Hin as [_ Hin]. }
  destruct (strip_offer _ _ _ _ _ _ _) as [[[[status prior] offer2] answer1]|] eqn:Es; ored; [|done].
  destruct (Z.eqb_spec status PJ_SUCCESS) as [->|Hs]; cbn [negb]; [|intros [= ? _ _]; done].
  apply strip_offer_spec in Es as (-> & attrs & fmts & js & -> & _ & Hsub & -> & Hfj); [|rewrite ?Hf1; lia..].
  rewrite drop_0, Hf1 in Hsub. rewrite take_0. cbn [app]. unfold set_field; cbn [m_fmt].
  destruct (Nat.eqb_spec (length fmts) 0) as [|Hne]; [by intros [= ? _ _]|].
  assert (Hljs := Forall2_length _ _ _ Hfj).
  destruct (resort_spec (length js) (zip js fmts)) as [Hperm Hsort]; [rewrite length_zip; lia|].
  set (l := resort (length js) (zip js fmts)) in *.
  assert (Hl2 : l.*2 ≡ₚ fmts) by (rewrite Hperm, snd_zip by lia; done).
  assert (Hsel : Forall (selects offer answer) l).
  { rewrite Hperm. apply Forall_forall. intros [j f] Hin.
    apply list_elem_of_lookup in Hin as [i Hi]. apply lookup_zip_Some in Hi as [Hj Hf]. cbn in *.
    destruct (Forall2_lookup_lr _ _ _ _ _ _ Hfj Hf Hj) as (g & Hg & Ha). exists g. auto. }
  destruct (strip_answer _ _ _ _ _ _) as [answer2|] eqn:Ea; ored; [|done].
  intros [= <- <-]. cbn [m_fmt].
  apply (sorted_agree offer) in Ea as [Hhd Hall]; [|by intros E; rewrite E in Hl2; apply Permutation_length in Hl2; cbn in Hl2; lia|done|done|unfold PJMEDIA_MAX_SDP_FMT in *; lia].
  split; [|split; [done|]].
  - intros f Hf. split; [eapply elem_of_sublist; [|done]; by rewrite <- Hl2|].
    apply list_elem_of_fmap in Hf as ([j f'] & -> & Hin).
    rewrite Forall_forall in Hsel. destruct (Hsel _ Hin) as (g & Hg & Ha). exists g.
    split; [by eapply list_elem_of_lookup_2|done].
  - intros [Hnd Hd]. apply Hall. apply (nodup_selected offer answer); [|done|].
    + rewrite Hl2. by eapply sublist_NoDup.
    + intros f f' g Hf Hf'. apply Hd; (eapply elem_of_sublist; [|done]; by rewrite <- Hl2).
Qed.
End answer.

(** ** Asymmetric codecs *)

(** With [allow_asym], an answer with any format at all has a codec in common
    with an offer that has one. *)
Theorem asym_accepts_any (offer_count : nat) (answer_fmt : list (list Z)) :
  offer_count <> 0%nat -> answer_fmt <> [] ->
  asym_outer answer_fmt offer_count answer_fmt = Some true.
Proof.
  destruct offer_count as [|n], answer_fmt as [|f fmts]; try done. intros _ _.
  cbn [asym_outer asym_inner lookup list_lookup]. ored. by rewrite strcmp_refl.
Qed.
