(* ===== verification/SdpOffer.v ===== *)
(** * SDP offers received: properties

    [match_offer] in the default configuration (the order of the remote's
    codecs, one codec in the answer): it never runs into undefined behaviour
    on a validated offer, and what it answers was offered. *)

From Stdlib Require Import String.
From S2P Require Import Prelude Hash PjString Sdp SdpNeg SdpAnswer.
Local Open Scope Z_scope.

(** ** Sane media *)

Definition is_num (f : list Z) : Prop := exists c s, f = c :: s /\ pj_isdigit c = true.

(** The first [rtpmap] attribute for a format, and what it reads. *)
Definition rtp (m : sdp_media) (f : list Z) : option sdp_attr :=
  snd <$> pjmedia_sdp_media_find_attr2 m "rtpmap" (Some f).

Definition first_rtpmap (m : sdp_media) (f : list Z) : option sdp_rtpmap :=
  a ← rtp m f; (pjmedia_sdp_attr_get_rtpmap a).2.

Definition is_tel (r : sdp_rtpmap) : bool := stricmp2_eq (r_enc_name r) "telephone-event".

(** A media of our own description: payload types in range, [rtpmap]s with a
    value and only for numeric formats, telephone events on dynamic payload
    types, and the attributes of a format start with its number. *)
Record media_wf (m : sdp_media) : Prop := {
  mw_fmts : (length (m_fmt m) <= PJMEDIA_MAX_SDP_FMT)%nat;
  mw_attrs : (length (m_attr m) <= PJMEDIA_MAX_SDP_ATTR)%nat;
  mw_char0 f : f ∈ m_fmt m -> f <> [];
  mw_pt f : f ∈ m_fmt m -> is_num f -> pj_strtoul f <= 127;
  mw_rtpmap a : a ∈ m_attr m -> a_name a = lit "rtpmap" -> a_value a <> [];
  mw_room f a : f ∈ m_fmt m -> a ∈ m_attr m ->
    a_name a = lit "rtpmap" \/ a_name a = lit "fmtp" ->
    u32 (pj_strtoul (a_value a)) = fmt_pt f -> (length f <= length (a_value a))%nat;
  mw_other f : f ∈ m_fmt m -> is_Some (rtp m f) -> is_num f;
  mw_tel f r : f ∈ m_fmt m -> first_rtpmap m f = Some r -> is_tel r = true -> 96 <= fmt_pt f
}.

(** A format of a validated offer with a port. *)
Definition offer_wf (offer : sdp_media) : Prop :=
  (length (m_fmt offer) <= PJMEDIA_MAX_SDP_FMT)%nat /\
  Forall (fun f => validate_fmt offer f = Some PJ_SUCCESS) (m_fmt offer).

(** An answered format was offered: the same text, or the same static
    payload type. *)
Definition offered (offer : sdp_media) (g : list Z) : Prop :=
  exists f, f ∈ m_fmt offer /\
    (f = g \/ is_num f /\ is_num g /\ fmt_pt f = fmt_pt g /\ fmt_pt f < 96).

Lemma strtoul_loop_nonneg s v : 0 <= v -> 0 <= strtoul_loop v s.
Proof.
  revert v. induction s as [|c s IH]; intros v Hv; cbn [strtoul_loop]; [done|].
  destruct (pj_isdigit c); [|done]. apply IH. unfold u64. apply Z.mod_pos_bound. lia.
Qed.

Lemma strtoul_nonneg s : 0 <= pj_strtoul s.
Proof. by apply strtoul_loop_nonneg. Qed.

Lemma fmt_pt_small f : pj_strtoul f <= 127 -> fmt_pt f = pj_strtoul f.
Proof. intros H. pose proof (strtoul_nonneg f). apply u32_id. unfold is_u32. lia. Qed.

Lemma is_num_char0 c s : is_num (c :: s) <-> pj_isdigit c = true.
Proof. split; [by intros (c' & s' & [= -> ->] & H)|]. intros H. by exists c, s. Qed.

(** What validation says of a format. *)
Lemma validate_fmt_spec m f :
  validate_fmt m f = Some PJ_SUCCESS -> m_port m <> 0 ->
  f <> [] /\ (is_num f -> pj_strtoul f <= 127 /\
    (96 <= pj_strtoul f -> exists r, first_rtpmap m f = Some r)).
Proof.
  intros Hv Hport. destruct f as [|c s]; [done|]. split; [done|]. rewrite is_num_char0. intros Hc.
  revert Hv. unfold validate_fmt. cbn [char0 head]. ored. rewrite Hc.
  destruct (pj_strtoul3 (c :: s)) as [status pt] eqn:E3.
  destruct ((status =? PJ_SUCCESS) && (pt <=? 127)) eqn:E1; cbn [negb]; [|done]. zbool. subst status.
  rewrite (strtoul3_agrees _ _ _ Hc E3). rewrite (proj2 (Z.eqb_neq _ _) Hport). cbn [negb andb].
  destruct (96 <=? pt) eqn:E96; zbool; [|intros _; split; [done|lia]].
  destruct (pjmedia_sdp_attr_find _ _ _) as [[i a]|] eqn:Ef; [|done]. intros _. split; [done|]. intros _.
  unfold first_rtpmap, rtp, pjmedia_sdp_media_find_attr2. rewrite Ef. cbn.
  apply attr_find_Some in Ef as [_ [Hn Hpt]].
  unfold pjmedia_sdp_attr_get_rtpmap. rewrite Hn, strcmp_refl. cbn [negb Z.eqb].
  cbn [fmap option_fmap option_map] in Hpt.
  destruct (a_value a) as [|v vs] eqn:Ev.
  { exfalso. change (u32 (pj_strtoul []) = fmt_pt (c :: s)) in Hpt.
    rewrite fmt_pt_small, (strtoul3_agrees _ _ _ Hc E3) in Hpt by (rewrite (strtoul3_agrees _ _ _ Hc E3); lia).
    change (0 = pt) in Hpt. lia. }
  destruct (rtpmap_parse _) as [st r]. by exists r.
Qed.

(** An [rtpmap] attribute with a value is read. *)
Lemma get_rtpmap_value a :
  a_name a = lit "rtpmap" -> a_value a <> [] -> exists r, (pjmedia_sdp_attr_get_rtpmap a).2 = Some r.
Proof.
  intros Hn Hv. unfold pjmedia_sdp_attr_get_rtpmap. rewrite Hn, strcmp_refl. cbn [negb Z.eqb].
  destruct (a_value a); [done|]. destruct (rtpmap_parse _) as [st r]. by exists r.
Qed.

Lemma rtp_spec m f :
  match pjmedia_sdp_media_find_attr2 m "rtpmap" (Some f) with
  | Some (_, a) => rtp m f = Some a /\ a ∈ m_attr m /\ a_name a = lit "rtpmap"
  | None => rtp m f = None
  end.
Proof.
  unfold rtp. destruct (pjmedia_sdp_media_find_attr2 _ _ _) as [[i a]|] eqn:E; [|done].
  apply find_attr2_Some in E as [Hin [Hn _]]. done.
Qed.

Lemma wf_first_rtpmap m f a :
  media_wf m -> rtp m f = Some a -> exists r, first_rtpmap m f = Some r /\
    (pjmedia_sdp_attr_get_rtpmap a).2 = Some r.
Proof.
  intros Hwf Hr. unfold first_rtpmap. rewrite Hr. ored.
  pose proof (rtp_spec m f) as H. destruct (pjmedia_sdp_media_find_attr2 _ _ _) as [[i b]|]; [|congruence].
  destruct H as (H1 & H2 & H3). assert (b = a) as -> by congruence.
  destruct (get_rtpmap_value a H3 (mw_rtpmap _ Hwf a H2 H3)) as [r E]. eauto.
Qed.

(** ** The kind of a format *)

Inductive fmt_kind := KCodec | KTel (rate : Z) | KOther.

Definition num0 (f : list Z) : bool := match f with c :: _ => pj_isdigit c | [] => false end.

Lemma num0_spec f : num0 f = true <-> is_num f.
Proof.
  destruct f as [|c s]; cbn; [split; [done|by intros (? & ? & ? & ?)]|]. by rewrite is_num_char0.
Qed.

Definition kind (m : sdp_media) (f : list Z) : fmt_kind :=
  if negb (num0 f) then KOther
  else match first_rtpmap m f with
       | Some r => if is_tel r then KTel (r_clock_rate r) else KCodec
       | None => KCodec
       end.

(** ** The invariant of the loop *)

Section offer.
Context (run_cb : fmt_match_fn) (cbs : list fmt_match_cb_t).

(** What a callback may do to the answer: it keeps it sane, and the
    [rtpmap]s as they are. *)
Definition cb_ok : Prop :=
  forall fn offer i answer j, media_wf answer ->
    let answer' := answer <| m_attr := (run_cb fn offer i answer j ALLOW_MODIFY_ANSWER).2 |> in
    media_wf answer' /\ forall f, rtp answer' f = rtp answer f.

Hypothesis (Hcb : cb_ok).
Context (offer pre : sdp_media).
Hypothesis (Hoffer : offer_wf offer).
Hypothesis (Hpre : media_wf pre).

(** A chosen format of the pre-answer. *)
Definition chosen (st : match_state) (a : list Z) : Prop :=
  a ∈ m_fmt pre /\ (is_num a -> 96 <= pj_strtoul a -> is_Some (first_rtpmap pre a)) /\
  match kind pre a with
  | KCodec => found_matching_codec st = true
  | KTel rate => rate ∈ tel_clockrate st /\ found_matching_telephone_event st = true
  | KOther => found_matching_other st = true
  end.

Record match_inv (st : match_state) : Prop := {
  mi_wf : media_wf (preanswer st);
  mi_pre : preanswer st = pre <| m_attr := m_attr (preanswer st) |>;
  mi_rtp f : rtp (preanswer st) f = rtp pre f;
  mi_nodup : NoDup (pts st).*2;
  mi_chosen : Forall (chosen st) (pts st).*2;
  mi_offered : Forall (offered offer) (pts st).*1;
  mi_clock : (length (clockrate st) <= if found_matching_codec st then 1 else 0)%nat;
  mi_tel : (length (tel_clockrate st) <= length (pts st))%nat;
  mi_found_tel : found_matching_telephone_event st = true ->
    exists a rate, a ∈ (pts st).*2 /\ kind pre a = KTel rate
}.

Lemma inv_fmt st : match_inv st -> m_fmt (preanswer st) = m_fmt pre.
Proof. intros H. by rewrite (mi_pre _ H). Qed.

Lemma inv_first st f : match_inv st -> first_rtpmap (preanswer st) f = first_rtpmap pre f.
Proof. intros H. unfold first_rtpmap. by rewrite (mi_rtp _ H). Qed.

(** The arrays have room for one more distinct format. *)
Lemma room (l : list (list Z * list Z)) p :
  NoDup (l.*2 ++ [p.2]) -> Forall (fun a => a ∈ m_fmt pre) (l.*2 ++ [p.2]) ->
  push_fmt l p = Some (l ++ [p]).
Proof.
  intros Hn Hf. unfold push_fmt. rewrite (proj2 (Nat.ltb_lt _ _)); [done|].
  assert (Hl : (length (l.*2 ++ [p.2]) <= length (m_fmt pre))%nat).
  { apply submseteq_length, NoDup_submseteq; [done|]. by apply Forall_forall. }
  rewrite length_app, length_fmap in Hl. cbn in Hl.
  pose proof (mw_fmts _ Hpre). lia.
Qed.

Lemma in_pre st a : match_inv st -> a ∈ (pts st).*2 -> chosen st a.
Proof. intros H. apply (proj1 (Forall_forall _ _) (mi_chosen _ H)). Qed.

(** Choosing one more format, of a kind not chosen yet. *)
Lemma choose st st' o a :
  match_inv st -> a ∈ m_fmt pre -> a ∉ (pts st).*2 -> offered offer o ->
  pts st' = pts st ++ [(o, a)] -> preanswer st' = preanswer st ->
  chosen st' a -> (forall b, chosen st b -> chosen st' b) ->
  (length (clockrate st') <= if found_matching_codec st' then 1 else 0)%nat ->
  (length (tel_clockrate st') <= S (length (pts st)))%nat ->
  (found_matching_telephone_event st' = true -> found_matching_telephone_event st = true \/
     exists rate, kind pre a = KTel rate) ->
  push_fmt (pts st) (o, a) = Some (pts st') /\ match_inv st'.
Proof.
  intros Hi Ha Hn Ho Hp Hpre' Hc Hmono Hclk Htel Hft. rewrite Hp.
  assert (Hnd : NoDup ((pts st).*2 ++ [a])).
  { apply NoDup_app. split; [apply Hi|]. split; [|apply NoDup_singleton].
    intros b Hb ->%list_elem_of_singleton. done. }
  split.
  - apply room; [done|]. cbn. apply Forall_app. split; [|by constructor].
    apply Forall_forall. intros b Hb. apply (in_pre st b Hi Hb).
  - split; rewrite ?Hp, ?Hpre', ?fmap_app; try apply Hi; try done.
    + apply Forall_app. split; [|by constructor].
      eapply Forall_impl; [apply (mi_chosen _ Hi)|]. done.
    + apply Forall_app. split; [apply Hi|by constructor].
    + rewrite length_app. cbn. lia.
    + intros [H|[rate H]]%Hft.
      * destruct (mi_found_tel _ Hi H) as (b & rate & Hb & Hk). exists b, rate.
        split; [apply elem_of_app; by left|done].
      * exists a, rate. split; [apply elem_of_app; right; by left|done].
Qed.

(** Two formats of one kind are not both chosen. *)
Lemma fresh st a :
  match_inv st ->
  match kind pre a with
  | KCodec => found_matching_codec st = false
  | KTel rate => rate ∉ tel_clockrate st
  | KOther => found_matching_other st = false
  end -> a ∉ (pts st).*2.
Proof.
  intros Hi Hk Ha. destruct (in_pre st a Hi Ha) as (_ & _ & H).
  destruct (kind pre a); [congruence|by destruct H|congruence].
Qed.

Lemma existsb_Zeqb x l : existsb (Z.eqb x) l = bool_decide (x ∈ l).
Proof.
  induction l as [|y l IH]; cbn; [done|]. rewrite IH. symmetry.
  destruct (Z.eqb_spec x y) as [->|Hne]; cbn.
  - apply bool_decide_eq_true. by left.
  - apply bool_decide_ext. rewrite elem_of_cons. intuition.
Qed.

Lemma add_first_clock st rate :
  match_inv st -> found_matching_codec st = false -> add_clockrate (clockrate st) rate = Some [rate].
Proof.
  intros Hi Hf. pose proof (mi_clock _ Hi) as H. rewrite Hf in H.
  by destruct (clockrate st); [|cbn in H; lia].
Qed.

Lemma kind_static f : f ∈ m_fmt pre -> is_num f -> fmt_pt f < 96 -> kind pre f = KCodec.
Proof.
  intros Hf Hn Hpt. unfold kind. rewrite (proj2 (num0_spec f) Hn). cbn [negb].
  destruct (first_rtpmap pre f) as [r|] eqn:E; [|done].
  destruct (is_tel r) eqn:Et; [|done]. pose proof (mw_tel _ Hpre f r Hf E Et). lia.
Qed.

Lemma kind_dynamic f r :
  f ∈ m_fmt pre -> first_rtpmap pre f = Some r ->
  kind pre f = if is_tel r then KTel (r_clock_rate r) else KCodec.
Proof.
  intros Hf Hr. unfold kind. rewrite Hr, (proj2 (num0_spec f)); [done|].
  apply (mw_other _ Hpre f Hf). unfold first_rtpmap in Hr. by destruct (rtp pre f).
Qed.

Lemma static_ok pt fmts st :
  match_inv st -> found_matching_codec st = false -> Forall (fun f => f ∈ m_fmt pre) fmts ->
  pt < 96 -> (exists f0, f0 ∈ m_fmt offer /\ is_num f0 /\ fmt_pt f0 = pt) ->
  exists st', match_static pt fmts st = Some st' /\ match_inv st'.
Proof.
  intros Hi Hc Hin Hpt (f0 & Hf0 & Hn0 & Hp0).
  induction fmts as [|f fmts IH]; cbn [match_static]; [by exists st|].
  inversion Hin as [|? ? Hf Hin']; subst. specialize (IH Hin').
  destruct (Z.eqb_spec (u32 (pj_strtoul f)) (fmt_pt f0)) as [E|]; ored; [|done].
  destruct f as [|c s]; [by destruct (mw_char0 _ Hpre _ Hf)|]. cbn [char0 head]. ored.
  destruct (pj_isdigit c) eqn:Ed; [|done].
  assert (Hn : is_num (c :: s)) by (by apply is_num_char0). change (fmt_pt (c :: s) = fmt_pt f0) in E.
  assert (Hk : kind pre (c :: s) = KCodec) by (apply kind_static; [done..|lia]).
  assert (Hfr : (c :: s) ∉ (pts st).*2) by (apply fresh; [done|by rewrite Hk]).
  set (st' := st <| found_matching_codec := true |> <| pts := pts st ++ [(c :: s, c :: s)] |>
                 <| clockrate := [8000] |>).
  destruct (choose st st' (c :: s) (c :: s)) as [Hpush Hinv]; try done.
  - exists f0. split; [done|]. right. split; [done|]. split; [done|]. split; [done|]. lia.
  - split; [done|]. split; [|by rewrite Hk]. intros _ H96.
    rewrite fmt_pt_small in E by (by apply (mw_pt _ Hpre)). lia.
  - intros b (H1 & H2 & H3). split; [done|]. split; [done|]. by destruct (kind pre b).
  - cbn. pose proof (mi_tel _ Hi). lia.
  - auto.
  - rewrite Hpush. ored. rewrite (add_first_clock st 8000 Hi Hc). ored. by exists st'.
Qed.

(** The parts of the state a callback does not change. *)
Lemma callback_inv st name o_idx a_idx status answer :
  match_inv st ->
  custom_fmt_match run_cb cbs name offer o_idx (preanswer st) a_idx ALLOW_MODIFY_ANSWER =
    (status, answer) ->
  match_inv (st <| preanswer := answer |>).
Proof.
  intros Hi. unfold custom_fmt_match. destruct (cb_lookup _ _ _) as [[i f]|].
  2:{ intros [= <- <-]. destruct st; exact Hi. }
  destruct (Hcb (cb_fn f) offer o_idx (preanswer st) a_idx (mi_wf _ Hi)) as [Hw Hr].
  destruct (run_cb _ _ _ _ _ _) as [st' attrs]. cbn in Hw, Hr. intros [= <- <-].
  split; try apply Hi; try done.
  - cbn. rewrite (mi_pre _ Hi). done.
  - intros g. cbn. rewrite <- (mi_rtp _ Hi g). apply Hr.
Qed.

Lemma pair_ok st i j o f :
  match_inv st -> m_fmt offer !! i = Some o -> m_fmt pre !! j = Some f ->
  fmt_pair true offer st i j = Some (o, f).
Proof. intros Hi Ho Hf. unfold fmt_pair. rewrite Ho. ored. by rewrite (inv_fmt _ Hi), Hf. Qed.

Lemma offered_fmt i o : m_fmt offer !! i = Some o -> offered offer o.
Proof. intros H. exists o. split; [by eapply list_elem_of_lookup_2|by left]. Qed.

Lemma rtpmap_match_tel or_ lr : rtpmap_match or_ lr = true -> is_tel lr = is_tel or_ /\ r_clock_rate or_ = r_clock_rate lr.
Proof.
  unfold rtpmap_match, is_tel, stricmp2_eq. intros [[E1 E2%Z.eqb_eq]%andb_true_iff _]%andb_true_iff.
  split; [|done]. by rewrite (E1 : str_ci _ _).
Qed.

Lemma dynamic_ok or_ is_codec i o fmts j st :
  match_inv st -> (is_codec = true -> found_matching_codec st = false) ->
  is_codec = negb (is_tel or_) -> m_fmt offer !! i = Some o -> drop j (m_fmt pre) = fmts ->
  exists st', match_dynamic run_cb cbs true offer or_ is_codec i fmts j st = Some st' /\ match_inv st'.
Proof.
  intros Hi Hc Hic Ho. revert j st Hi Hc. induction fmts as [|f fmts IH]; intros j st Hi Hc Hd;
    cbn [match_dynamic]; [by exists st|].
  assert (Hf : m_fmt pre !! j = Some f).
  { rewrite <- (Nat.add_0_r j), <- lookup_drop, Hd. done. }
  assert (Hd' : drop (S j) (m_fmt pre) = fmts).
  { rewrite <- Nat.add_1_r, <- drop_drop, Hd. done. }
  assert (Hfin : f ∈ m_fmt pre) by (by eapply list_elem_of_lookup_2).
  cbn [slave]. pose proof (rtp_spec (preanswer st) f) as Hrtp.
  destruct (pjmedia_sdp_media_find_attr2 (preanswer st) "rtpmap" (Some f)) as [[ai a]|]; [|by apply IH].
  destruct Hrtp as (Hrtp & _ & _).
  destruct (wf_first_rtpmap _ _ _ (mi_wf _ Hi) Hrtp) as (lr & Hlr & ->). ored.
  rewrite (inv_first _ _ Hi) in Hlr. destruct (rtpmap_match or_ lr) eqn:Em; [|by apply IH].
  apply rtpmap_match_tel in Em as [Htel Hrate]. pose proof (kind_dynamic f lr Hfin Hlr) as Hk.
  rewrite Htel in Hk. assert (Hch : is_num f -> 96 <= pj_strtoul f -> is_Some (first_rtpmap pre f)) by (by rewrite Hlr).
  destruct is_codec.
  - symmetry in Hic. apply negb_true_iff in Hic. rewrite Hic in Hk. specialize (Hc eq_refl).
    destruct (custom_fmt_match _ _ _ _ _ _ _ _) as [status answer] eqn:Ecb.
    apply callback_inv in Ecb; [|done]. set (st1 := st <| preanswer := answer |>) in *.
    destruct (negb (status =? PJ_SUCCESS)); [by apply IH|].
    rewrite (add_first_clock st1 (r_clock_rate or_) Ecb Hc). ored.
    rewrite (pair_ok st1 i j o f Ecb Ho Hf). ored.
    set (st' := st1 <| found_matching_codec := true |> <| clockrate := [r_clock_rate or_] |>
                    <| pts := pts st1 ++ [(o, f)] |>).
    destruct (choose st1 st' o f) as [Hpush Hinv]; try done.
    + apply fresh; [done|]. by rewrite Hk.
    + by eapply offered_fmt.
    + split; [done|]. split; [done|]. by rewrite Hk.
    + intros b (H1 & H2 & H3). split; [done|]. split; [done|]. by destruct (kind pre b).
    + cbn. pose proof (mi_tel _ Hi). lia.
    + auto.
    + rewrite Hpush. ored. by exists st'.
  - symmetry in Hic. apply negb_false_iff in Hic. rewrite Hic, <- Hrate in Hk.
    rewrite existsb_Zeqb. case_bool_decide as Hex; [by apply IH|].
    assert (Hpt : push_fmt (tel_clockrate st) (r_clock_rate or_) =
                  Some (tel_clockrate st ++ [r_clock_rate or_])).
    { unfold push_fmt. rewrite (proj2 (Nat.ltb_lt _ _)); [done|].
      assert (Hfr : f ∉ (pts st).*2) by (apply fresh; [done|by rewrite Hk]).
      assert (Hl : (length (f :: (pts st).*2) <= length (m_fmt pre))%nat).
      { apply submseteq_length, NoDup_submseteq; [by apply NoDup_cons_2; [|apply Hi]|].
        intros b [->|Hb]%elem_of_cons; [done|]. apply (in_pre st b Hi Hb). }
      cbn [length] in Hl. rewrite length_fmap in Hl.
      pose proof (mi_tel _ Hi). pose proof (mw_fmts _ Hpre). lia. }
    rewrite Hpt. ored. rewrite (pair_ok st i j o f Hi Ho Hf). ored.
    set (st' := st <| tel_clockrate := tel_clockrate st ++ [r_clock_rate or_] |>
                   <| found_matching_telephone_event := true |> <| pts := pts st ++ [(o, f)] |>).
    destruct (choose st st' o f) as [Hpush Hinv]; try done.
    + apply fresh; [done|]. by rewrite Hk.
    + by eapply offered_fmt.
    + split; [done|]. split; [done|]. rewrite Hk. split; [|done]. cbn. apply elem_of_app. right. by left.
    + intros b (H1 & H2 & H3). split; [done|]. split; [done|]. destruct (kind pre b); [done| |done].
      destruct H3 as [H3 _]. split; [|done]. cbn. apply elem_of_app. by left.
    + cbn. apply Hi.
    + cbn. rewrite length_app. cbn. pose proof (mi_tel _ Hi). lia.
    + intros _. right. by eexists.
    + rewrite Hpush. ored. by exists st'.
Qed.

Lemma other_ok fmt i o fmts j st :
  match_inv st -> found_matching_other st = false -> ~ is_num fmt ->
  m_fmt offer !! i = Some o -> drop j (m_fmt pre) = fmts ->
  exists st', match_other true offer fmt i fmts j st = Some st' /\ match_inv st'.
Proof.
  intros Hi Hc Hnn Ho. revert j. induction fmts as [|f fmts IH]; intros j Hd;
    cbn [match_other]; [by exists st|].
  assert (Hf : m_fmt pre !! j = Some f).
  { rewrite <- (Nat.add_0_r j), <- lookup_drop, Hd. done. }
  assert (Hd' : drop (S j) (m_fmt pre) = fmts).
  { rewrite <- Nat.add_1_r, <- drop_drop, Hd. done. }
  assert (Hfin : f ∈ m_fmt pre) by (by eapply list_elem_of_lookup_2).
  rewrite strcmp_eqb. case_bool_decide as E; [|by apply IH]. subst fmt.
  rewrite (pair_ok st i j o f Hi Ho Hf). ored.
  assert (Hk : kind pre f = KOther).
  { unfold kind. destruct (num0 f) eqn:En; [|done]. by apply num0_spec in En. }
  set (st' := st <| found_matching_other := true |> <| pts := pts st ++ [(o, f)] |>).
  destruct (choose st st' o f) as [Hpush Hinv]; try done.
  - apply fresh; [done|]. by rewrite Hk.
  - by eapply offered_fmt.
  - split; [done|]. split; [done|]. by rewrite Hk.
  - intros b (H1 & H2 & H3). split; [done|]. split; [done|]. by destruct (kind pre b).
  - cbn. apply Hi.
  - cbn. pose proof (mi_tel _ Hi). lia.
  - auto.
  - rewrite Hpush. ored. by exists st'.
Qed.

(** ** The loop *)

Hypothesis (Hport : m_port offer <> 0).

Lemma inv_master st b : match_inv st -> match_inv (st <| master_has_codec := b |>).
Proof. intros Hi. by split; apply Hi. Qed.

Lemma inv_master_other st b : match_inv st -> match_inv (st <| master_has_other := b |>).
Proof. intros Hi. by split; apply Hi. Qed.

Lemma offer_fmt_ok i f :
  m_fmt offer !! i = Some f ->
  f <> [] /\ (is_num f -> pj_strtoul f <= 127 /\
    (96 <= pj_strtoul f -> exists r, first_rtpmap offer f = Some r)).
Proof.
  intros H. destruct Hoffer as [_ Hv].
  apply (validate_fmt_spec offer f); [|done]. exact (Forall_lookup_1 _ _ _ _ Hv H).
Qed.

Lemma match_one_ok i fmt st :
  match_inv st -> m_fmt offer !! i = Some fmt ->
  exists st', match_one run_cb cbs true false offer i fmt st = Some (PJ_SUCCESS, st') /\ match_inv st'.
Proof.
  intros Hi Hf. destruct (offer_fmt_ok i fmt Hf) as [Hne Hnum]. unfold match_one.
  destruct fmt as [|c s]; [done|]. cbn [char0 head]. ored.
  destruct (pj_isdigit c) eqn:Ed.
  - assert (Hn : is_num (c :: s)) by (by apply is_num_char0). destruct (Hnum Hn) as [H127 Hr]. change (u32 (pj_strtoul (c :: s))) with (fmt_pt (c :: s)).
    destruct (fmt_pt (c :: s) <? 96) eqn:E; zbool.
    + cbn [negb andb]. pose proof (inv_master st true Hi) as Hi'. set (st1 := st <| master_has_codec := true |>) in *.
      destruct (found_matching_codec st1) eqn:Efc; [by exists st1|].
      destruct (static_ok (fmt_pt (c :: s)) (m_fmt (slave true offer st1)) st1) as (st' & -> & Hi''); [done|done| |done| |].
      * cbn [slave]. rewrite (inv_fmt _ Hi'). by apply Forall_forall.
      * exists (c :: s). split; [by eapply list_elem_of_lookup_2|done].
      * ored. by exists st'.
    + rewrite fmt_pt_small in E by done. destruct (Hr E) as [r Hr']. cbn [master].
      pose proof (rtp_spec offer (c :: s)) as Hsp. unfold first_rtpmap in Hr'.
      destruct (pjmedia_sdp_media_find_attr2 offer "rtpmap" (Some (c :: s))) as [[ai a]|];
        [|by rewrite Hsp in Hr'].
      destruct Hsp as (Hsp & _). rewrite Hsp in Hr'. cbn [mbind option_bind] in Hr'. rewrite Hr'. ored.
      change (stricmp2_eq (r_enc_name r) "telephone-event") with (is_tel r).
      destruct (is_tel r) eqn:Et; cbn [negb andb].
      * destruct (dynamic_ok r false i (c :: s) (m_fmt pre) 0 st Hi) as (st' & Hst & Hi'); [done|by rewrite Et|done|done|].
        cbn [slave]. rewrite (inv_fmt _ Hi), Hst. ored. by exists st'.
      * pose proof (inv_master st true Hi) as Hi'. set (st1 := st <| master_has_codec := true |>) in *.
        destruct (found_matching_codec st1) eqn:Efc; [by exists st1|].
        destruct (dynamic_ok r true i (c :: s) (m_fmt pre) 0 st1 Hi') as (st' & Hst & Hi''); [done|by rewrite Et|done|done|].
        cbn [slave]. rewrite (inv_fmt _ Hi'), Hst. ored. by exists st'.
  - pose proof (inv_master_other st true Hi) as Hi'. set (st1 := st <| master_has_other := true |>) in *.
    cbv zeta. destruct (found_matching_other st1) eqn:Efo; [by exists st1|].
    destruct (other_ok (c :: s) i (c :: s) (m_fmt pre) 0 st1 Hi') as (st' & Hst & Hi'');
      [done|by rewrite is_num_char0, Ed|done|done|].
    cbn [slave]. rewrite (inv_fmt _ Hi'), Hst. ored. by exists st'.
Qed.

Lemma match_loop_ok i fmts st :
  match_inv st -> drop i (m_fmt offer) = fmts ->
  exists st', match_loop run_cb cbs true false offer i fmts st = Some (PJ_SUCCESS, st') /\ match_inv st'.
Proof.
  revert i st. induction fmts as [|f fmts IH]; intros i st Hi Hd; cbn [match_loop]; [by exists st|].
  assert (Hf : m_fmt offer !! i = Some f).
  { rewrite <- (Nat.add_0_r i), <- lookup_drop, Hd. done. }
  destruct (match_one_ok i f st Hi Hf) as (st1 & -> & Hi1). ored.
  apply IH; [done|]. rewrite <- Nat.add_1_r, <- drop_drop, Hd. done.
Qed.

Lemma match_init_inv : match_inv (match_init pre).
Proof.
  split; cbn; try done; try constructor. by destruct pre.
Qed.

(** ** Telephone events *)

Lemma strtol_num a : is_num a -> pj_strtoul a <= 127 -> pj_strtol a = pj_strtoul a.
Proof.
  intros (c & s & -> & Hc) H. unfold pj_strtol. unfold pj_isdigit in Hc. zbool.
  rewrite (proj2 (Z.eqb_neq c 43)), (proj2 (Z.eqb_neq c 45)) by lia. cbn [orb].
  pose proof (strtoul_nonneg (c :: s)). unfold s64, u64. rewrite Z.mod_small by lia.
  by destruct (Z.ltb_spec (pj_strtoul (c :: s)) 9223372036854775808); [|lia].
Qed.

Definition tel_rate (p : list Z * list Z) : option Z :=
  match kind pre p.2 with KTel rate => Some rate | _ => None end.

Definition keep_tel (rates : list Z) (p : list Z * list Z) : Prop :=
  match tel_rate p with Some rate => rate ∈ rates | None => True end.

#[local] Instance keep_tel_dec rates p : Decision (keep_tel rates p).
Proof. unfold keep_tel. destruct (tel_rate p); apply _. Defined.

(** One turn of the loop, by the kind of the format. *)
Lemma tel_turn n i rates pre' first m l p st :
  match_inv st -> preanswer st = pre' -> chosen st p.2 -> l !! i = Some p ->
  tel_loop (S n) i rates pre' first m l =
  match tel_rate p with
  | None => tel_loop n (S i) rates pre' first m l
  | Some rate =>
      let first := if slen first.1 =? 0 then p else first in
      if bool_decide (rate ∈ rates) then tel_loop n (S i) rates pre' first (S m) l
      else tel_loop n i rates pre' first m (delete i l)
  end.
Proof.
  intros Hi <- (Hin & H96 & Hk) Hl. cbn [tel_loop]. rewrite Hl. ored. unfold tel_rate, kind in *.
  destruct (p.2) as [|c s] eqn:Ep; [by destruct (mw_char0 _ Hpre _ Hin)|]. cbn [char0 head]. ored.
  cbn [num0] in *. destruct (pj_isdigit c) eqn:Ed; cbn [negb orb]; [|done].
  assert (Hn : is_num (c :: s)) by (by apply is_num_char0). pose proof (mw_pt _ Hpre _ Hin Hn) as H127.
  rewrite strtol_num by done. destruct (Z.ltb_spec (pj_strtoul (c :: s)) 96) as [Hlt|Hge].
  - destruct (first_rtpmap pre (c :: s)) as [r|] eqn:Er; [|done].
    destruct (is_tel r) eqn:Et; [|done]. pose proof (mw_tel _ Hpre _ _ Hin Er Et) as Ht.
    rewrite fmt_pt_small in Ht by done. lia.
  - destruct (H96 Hn Hge) as [r Hr]. rewrite Hr.
    assert (Hr' : first_rtpmap (preanswer st) (c :: s) = Some r) by (by rewrite (inv_first _ _ Hi)).
    pose proof (rtp_spec (preanswer st) (c :: s)) as Hsp. unfold first_rtpmap in Hr'.
    destruct (pjmedia_sdp_media_find_attr2 (preanswer st) "rtpmap" (Some (c :: s))) as [[ai a]|];
      [|by rewrite Hsp in Hr'].
    destruct Hsp as (Hsp & _). rewrite Hsp in Hr'. cbn [mbind option_bind] in Hr'. ored. rewrite Hr'. ored.
    change (stricmp2_eq (r_enc_name r) "telephone-event") with (is_tel r).
    destruct (is_tel r); cbn [negb]; [|done]. rewrite existsb_Zeqb. done.
Qed.

Lemma tel_loop_spec st n i rates first m l :
  match_inv st -> Forall (chosen st) l.*2 -> Forall (fun p => p.1 <> []) l ->
  n = (length l - i)%nat -> (i <= length l)%nat ->
  exists m' first',
    tel_loop n i rates (preanswer st) first m l =
      Some (take i l ++ filter (keep_tel rates) (drop i l), m', first') /\
    (m' = 0%nat -> Forall (fun p => tel_rate p = None) (filter (keep_tel rates) (drop i l))) /\
    (m <= m')%nat /\
    (first.1 <> [] -> first' = first) /\
    (first.1 = [] -> Exists (fun p => is_Some (tel_rate p)) (drop i l) ->
       first' ∈ drop i l /\ is_Some (tel_rate first')).
Proof.
  intros Hi. revert i first m l. induction n as [|n IH]; intros i first m l Hc Hne Hn Hil.
  { exists m, first. rewrite drop_ge, take_ge by lia. cbn. rewrite app_nil_r.
    split; [done|]. split; [by constructor|]. split; [done|]. split; [done|].
    intros _ H. inversion H. }
  destruct (lookup_lt_is_Some_2 l i) as [p Hp]; [lia|].
  assert (Hcp : chosen st p.2) by (eapply Forall_lookup_1; [exact Hc|]; by rewrite list_lookup_fmap, Hp).
  pose proof (Forall_lookup_1 _ _ _ _ Hne Hp) as Hp1. cbn in Hp1.
  rewrite (tel_turn n i rates _ first m l p st Hi eq_refl Hcp Hp), (drop_S _ _ _ Hp), filter_cons.
  destruct (tel_rate p) as [rate|] eqn:Er.
  - set (first1 := if slen first.1 =? 0 then p else first).
    assert (Hf1 : first1.1 <> [] /\ (first.1 <> [] -> first1 = first) /\ (first.1 = [] -> first1 = p)).
    { unfold first1, slen. clear -Hp1. destruct first as [[|z fo] fa]; cbn [fst length]; [done|].
      rewrite (proj2 (Z.eqb_neq _ _)) by lia. done. }
    destruct Hf1 as (Hf1 & Hf2 & Hf3). cbv zeta.
    assert (Hkr : keep_tel rates p <-> rate ∈ rates) by (unfold keep_tel; by rewrite Er).
    case_bool_decide as Hr; case_decide as Hk; try tauto.
    + destruct (IH (S i) first1 (S m) l) as (m' & first' & -> & H1 & H2 & H3 & H4); [done|done|lia|lia|].
      exists m', first'. rewrite (take_S_r _ _ _ Hp), <- app_assoc. split; [done|].
      split; [lia|]. split; [lia|]. rewrite (H3 Hf1). split; [done|]. intros E _. rewrite (Hf3 E).
      split; [by left|by rewrite Er].
    + assert (Hlen : length (delete i l) = (length l - 1)%nat) by (apply length_delete; eauto).
      destruct (IH i first1 m (delete i l)) as (m' & first' & -> & H1 & H2 & H3 & H4);
        [rewrite list_fmap_delete; by apply Forall_delete|by apply Forall_delete|lia|lia|].
      rewrite delete_take_drop in H1 |- *. rewrite drop_app_ge, length_take, Nat.min_l, Nat.sub_diag in H1 |- * by (rewrite ?length_take; lia).
      rewrite drop_0 in H1 |- *. rewrite take_app_le, take_take, Nat.min_id by (rewrite length_take; lia).
      exists m', first'. split; [done|]. split; [done|]. split; [done|]. rewrite (H3 Hf1). split; [done|].
      intros E _. rewrite (Hf3 E). split; [by left|by rewrite Er].
  - rewrite decide_True by (unfold keep_tel; by rewrite Er).
    destruct (IH (S i) first m l) as (m' & first' & -> & H1 & H2 & H3 & H4); [done|done|lia|lia|].
    exists m', first'. rewrite (take_S_r _ _ _ Hp), <- app_assoc. split; [done|].
    split; [intros Hm; constructor; [done|by apply H1]|]. split; [done|]. split; [done|].
    intros E Hx. inversion Hx as [? ? Hx' |? ? Hx']; subst; [rewrite Er in Hx'; by destruct Hx'|].
    destruct (H4 E Hx') as [Hin Hs]. split; [by right|done].
Qed.

Lemma offered_nonempty o : offered offer o -> o <> [].
Proof.
  intros (f & Hf & H). apply list_elem_of_lookup in Hf as [i Hi].
  destruct (offer_fmt_ok i f Hi) as [Hne _]. destruct H as [<-|(_ & (c & s & -> & _) & _)]; done.
Qed.

(** The formats chosen, whatever becomes of the telephone events. *)
Record chosen_fmts (l : list (list Z * list Z)) : Prop := {
  cf_nodup : NoDup l.*2;
  cf_pre : Forall (fun a => a ∈ m_fmt pre) l.*2;
  cf_offered : Forall (offered offer) l.*1
}.

Lemma filter_pairs (P : list Z * list Z -> Prop) `{!forall p, Decision (P p)} (l : list (list Z * list Z)) :
  chosen_fmts l -> chosen_fmts (filter P l).
Proof.
  intros [H1 H2 H3]. split.
  - clear -H1. induction l as [|p l IH]; [done|]. cbn in H1. apply NoDup_cons in H1 as [Hn H1].
    rewrite filter_cons. case_decide; [|by apply IH]. cbn. apply NoDup_cons. split; [|by apply IH].
    intros (q & E & [_ Hq]%list_elem_of_filter)%list_elem_of_fmap. apply Hn.
    apply list_elem_of_fmap. by exists q.
  - rewrite Forall_fmap, Forall_forall in H2 |- *. intros p [_ Hp]%list_elem_of_filter. by apply H2.
  - rewrite Forall_fmap, Forall_forall in H3 |- *. intros p [_ Hp]%list_elem_of_filter. by apply H3.
Qed.

Lemma tel_events_ok st :
  match_inv st -> exists l, tel_events st = Some l /\ chosen_fmts l.
Proof.
  intros Hi. assert (Hcf : chosen_fmts (pts st)).
  { split; [apply Hi| |apply Hi]. eapply Forall_impl; [apply (mi_chosen _ Hi)|]. by intros a [Ha _]. }
  unfold tel_events. destruct (found_matching_telephone_event st) eqn:Eft; [|by exists (pts st)].
  destruct (tel_loop_spec st (length (pts st)) 0 (clockrate st) ([], []) 0 (pts st) Hi) as
    (m' & first' & -> & Hm & _ & _ & Hfirst); [apply Hi| |lia|lia|].
  { apply Forall_forall. intros p Hp. apply offered_nonempty.
    pose proof (mi_offered _ Hi) as Ho. rewrite Forall_forall in Ho. apply Ho.
    apply list_elem_of_fmap. by exists p. }
  ored. rewrite take_0, drop_0 in *. cbn [app].
  set (l1 := filter (keep_tel (clockrate st)) (pts st)) in *.
  assert (Hcf1 : chosen_fmts l1) by by apply filter_pairs.
  destruct (Nat.eqb_spec m' 0) as [->|Hne]; [|by exists l1].
  destruct (Hfirst eq_refl) as [Hin Htel].
  { destruct (mi_found_tel _ Hi Eft) as (a & rate & Ha & Hk).
    apply list_elem_of_fmap in Ha as (p & -> & Hp). apply Exists_exists. exists p. split; [done|].
    unfold tel_rate. by rewrite Hk. }
  specialize (Hm eq_refl).
  assert (Hpos : forall q, q ∈ pts st -> q.2 ∈ (pts st).*2 /\ q.1 ∈ (pts st).*1)
    by (intros q Hq; split; apply list_elem_of_fmap; by exists q).
  destruct (Hpos _ Hin) as [Hin2 Hin1].
  assert (Hfresh : first'.2 ∉ l1.*2).
  { intros (q & E & Hq)%list_elem_of_fmap. rewrite Forall_forall in Hm. specialize (Hm q Hq).
    unfold tel_rate in Hm, Htel. rewrite E in Htel. rewrite Hm in Htel. by destruct Htel. }
  assert (Hcf2 : chosen_fmts (l1 ++ [first'])).
  { destruct Hcf1 as [H1 H2 H3]. split; rewrite fmap_app.
    - apply NoDup_app. split; [done|]. split; [|apply NoDup_singleton].
      intros b Hb ->%list_elem_of_singleton. done.
    - apply Forall_app. split; [done|]. constructor; [|done]. cbn.
      apply (proj1 (Forall_forall _ _) (cf_pre _ Hcf)). done.
    - apply Forall_app. split; [done|]. constructor; [|done].
      apply (proj1 (Forall_forall _ _) (cf_offered _ Hcf)). done. }
  exists (l1 ++ [first']). split; [|done]. pose proof (cf_nodup _ Hcf2) as Hn2.
  pose proof (cf_pre _ Hcf2) as Hp2. rewrite fmap_app in Hn2, Hp2. by apply room.
Qed.
End offer.

(** ** Building the answer *)

Lemma find_static_hit pt l j :
  pt ∈ l -> exists k, find_static pt l j = Some (j + k)%nat /\ l !! k = Some pt.
Proof.
  revert j. induction l as [|f l IH]; intros j Hin; [by apply elem_of_nil in Hin|].
  cbn [find_static]. rewrite strcmp_eqb. case_bool_decide as E.
  - exists 0%nat. rewrite Nat.add_0_r. by subst.
  - apply elem_of_cons in Hin as [->|Hin]; [done|]. destruct (IH (S j) Hin) as (k & Hk & Hl).
    exists (S k). split; [|done]. rewrite Hk. f_equal. lia.
Qed.

(** Swapping the chosen format to the front of what is left. *)
Lemma swap_fmt_spec fin rest k pt :
  rest !! k = Some pt ->
  exists rest', swap_fmt (fin ++ rest) (length fin) (length fin + k) = Some (fin ++ pt :: rest') /\
    pt :: rest' ≡ₚ rest.
Proof.
  intros Hk. unfold swap_fmt. destruct rest as [|a rest]; [done|].
  rewrite (lookup_app_r fin _ (length fin)), Nat.sub_diag by lia. cbn [lookup list_lookup]. ored.
  rewrite lookup_app_r by lia. replace (length fin + k - length fin)%nat with k by lia.
  rewrite Hk. ored. destruct k as [|k].
  - injection Hk as ->. rewrite Nat.add_0_r. exists rest. split; [|done].
    rewrite !insert_app_r_alt by lia. rewrite Nat.sub_diag. done.
  - cbn in Hk. exists (<[k := a]> rest). split.
    + rewrite (insert_app_r_alt _ _ (length fin)) by lia. rewrite Nat.sub_diag. cbn [insert list_insert].
      rewrite insert_app_r_alt by lia. by replace (length fin + S k - length fin)%nat with (S k) by lia.
    + rewrite <- (take_drop_middle rest k pt Hk) at 2. rewrite insert_take_drop by (by eapply lookup_lt_Some).
      rewrite <- !Permutation_middle. apply Permutation_swap.
Qed.

(** Reordering puts the chosen formats, all different, first. *)
Lemma reorder_spec fin todo rest :
  NoDup todo -> Forall (fun a => a ∈ rest) todo ->
  exists rest', reorder (length fin) todo (fin ++ rest) = Some (fin ++ todo ++ rest') /\
    todo ++ rest' ≡ₚ rest.
Proof.
  revert fin rest. induction todo as [|pt todo IH]; intros fin rest Hn Hin; cbn [reorder].
  { exists rest. done. }
  apply NoDup_cons in Hn as [Hpt Hn]. inversion Hin as [|? ? Hp Hin']; subst.
  unfold fmt_index. rewrite drop_app_length. destruct (find_static_hit pt rest 0 Hp) as (k & -> & Hk).
  cbn [fmap option_fmap option_map Nat.add]. ored.
  destruct (swap_fmt_spec fin rest k pt Hk) as (rest1 & -> & Hperm). ored.
  destruct (IH (fin ++ [pt]) rest1) as (rest' & Hr & Hp'); [done| |].
  - apply Forall_forall. intros a Ha. rewrite Forall_forall in Hin'.
    pose proof (Hin' a Ha) as Har. rewrite <- Hperm in Har. apply elem_of_cons in Har as [->|]; done.
  - rewrite length_app, Nat.add_comm in Hr. cbn in Hr. rewrite <- !app_assoc in Hr. cbn in Hr.
    exists rest'. split; [done|]. cbn. by rewrite Hp'.
Qed.

(** Rewriting the payload types: all that is needed is room in the values. *)
Lemma symmetric_attr_ok name answer a_tmp old new :
  (length a_tmp < PJMEDIA_MAX_SDP_ATTR)%nat ->
  (forall a, a ∈ m_attr answer -> a_name a = lit name -> u32 (pj_strtoul (a_value a)) = fmt_pt old ->
     (length old <= length (a_value a))%nat) ->
  exists attrs a_tmp', symmetric_attr name answer a_tmp old new = Some (answer <| m_attr := attrs |>, a_tmp') /\
    attrs `sublist_of` m_attr answer /\ (length a_tmp' <= S (length a_tmp))%nat.
Proof.
  intros Hl Hroom. unfold symmetric_attr.
  destruct (pjmedia_sdp_media_find_attr2 _ _ _) as [[i a]|] eqn:E.
  - apply find_attr2_Some in E as [Hin [Hn Hpt]]. unfold rewrite_pt.
    rewrite (proj2 (Nat.ltb_ge (length (a_value a)) (length old))) by (by apply Hroom). ored. rewrite (proj2 (Nat.ltb_lt _ _)) by done.
    eexists _, _. split; [done|]. rewrite length_app. cbn. split; [|lia].
    unfold pjmedia_sdp_attr_remove. destruct (Nat.leb _ _); [apply sublist_delete|done].
  - exists (m_attr answer), a_tmp. split; [by destruct answer|]. split; [done|lia].
Qed.

Lemma symmetric_loop_ok l i answer a_tmp :
  drop i (m_fmt answer) = l.*2 ->
  (length a_tmp + 2 * length l <= PJMEDIA_MAX_SDP_ATTR)%nat ->
  (forall p a, p ∈ l -> a ∈ m_attr answer -> a_name a = lit "rtpmap" \/ a_name a = lit "fmtp" ->
     u32 (pj_strtoul (a_value a)) = fmt_pt p.2 -> (length p.2 <= length (a_value a))%nat) ->
  exists attrs a_tmp', symmetric_loop l i answer a_tmp =
    Some (answer <| m_attr := attrs |> <| m_fmt := take i (m_fmt answer) ++ l.*1 |>, a_tmp').
Proof.
  revert i answer a_tmp. induction l as [|[o f] l IH]; intros i answer a_tmp Hd Hl Hroom; cbn [symmetric_loop].
  { exists (m_attr answer), a_tmp. cbn in *. rewrite app_nil_r, take_ge; [by destruct answer|].
    apply (f_equal length) in Hd. rewrite length_drop in Hd. cbn in Hd. lia. }
  cbn [fmap list_fmap length] in *.
  assert (Hf : m_fmt answer !! i = Some f).
  { rewrite <- (Nat.add_0_r i), <- lookup_drop, Hd. done. }
  assert (Hd' : drop (S i) (m_fmt answer) = l.*2).
  { rewrite <- Nat.add_1_r, <- drop_drop, Hd. done. }
  rewrite strcmp_eqb. case_bool_decide as E.
  - subst f. destruct (IH (S i) answer a_tmp) as (attrs & a_tmp' & ->); [done|lia|intros; apply Hroom; [by right|done..]|].
    exists attrs, a_tmp'. by rewrite (take_S_r _ _ _ Hf), <- app_assoc.
  - set (answer1 := answer <| m_fmt := <[i := o]> (m_fmt answer) |>).
    destruct (symmetric_attr_ok "rtpmap" answer1 a_tmp f o) as (attrs1 & tmp1 & -> & Hs1 & Hl1);
      [lia|intros; by apply (Hroom (o, f)); [left|auto..]|]. ored.
    destruct (symmetric_attr_ok "fmtp" (answer1 <| m_attr := attrs1 |>) tmp1 f o) as (attrs2 & tmp2 & -> & Hs2 & Hl2);
      [lia|intros a Ha ??; apply (Hroom (o, f)); [by left|by eapply elem_of_sublist|auto..]|]. ored.
    destruct (IH (S i) (answer1 <| m_attr := attrs1 |> <| m_attr := attrs2 |>) tmp2) as (attrs & a_tmp' & ->).
    + cbn. rewrite drop_insert_lt by lia. done.
    + lia.
    + intros p a Hp Ha. apply Hroom; [by right|]. eapply elem_of_sublist; [|done]. by eapply elem_of_sublist.
    + exists attrs, a_tmp'. cbn. unfold set_field. cbn. do 3 f_equal.
      rewrite (take_S_r _ _ o) by (apply list_lookup_insert_eq; by eapply lookup_lt_Some).
      rewrite take_insert_ge by lia. by rewrite <- app_assoc.
Qed.

(** What [update_media_direction] changes. *)
Lemma update_direction_attr remote local :
  exists attrs, update_media_direction remote local = local <| m_attr := attrs |>.
Proof.
  unfold update_media_direction, remove_all_media_directions.
  case_decide; [exists (m_attr local); by destruct local|].
  destruct (adjust_dir _ _); eexists; reflexivity.
Qed.

Lemma add_attrs_attr l m :
  exists attrs, foldl pjmedia_sdp_media_add_attr m l = m <| m_attr := attrs |>.
Proof.
  revert m. induction l as [|a l IH]; intros m; cbn [foldl]; [exists (m_attr m); by destruct m|].
  destruct (IH (pjmedia_sdp_media_add_attr m a)) as [attrs ->]. exists attrs. done.
Qed.

Lemma strip_unwanted_attr l m :
  exists attrs,
    foldl (fun m fmt => remove_fmt_attr (remove_fmt_attr m "rtpmap" fmt) "fmtp" fmt) m l =
      m <| m_attr := attrs |> /\ attrs `sublist_of` m_attr m.
Proof.
  revert m. induction l as [|f l IH]; intros m; cbn [foldl].
  { exists (m_attr m). split; [by destruct m|done]. }
  destruct (remove_fmt_attr_spec m "rtpmap" f) as (l1 & -> & H1).
  destruct (remove_fmt_attr_spec (m <| m_attr := l1 |>) "fmtp" f) as (l2 & -> & H2).
  destruct (IH (m <| m_attr := l1 |> <| m_attr := l2 |>)) as (l3 & -> & H3).
  exists l3. split; [done|]. cbn in *. etrans; [exact H3|]. by etrans.
Qed.

Lemma build_answer_ok offer pre l :
  media_wf pre -> NoDup l.*2 -> Forall (fun a => a ∈ m_fmt pre) l.*2 ->
  exists attrs, build_answer offer pre l = Some (pre <| m_attr := attrs |> <| m_fmt := l.*1 |>).
Proof.
  intros Hwf Hn Hin. unfold build_answer.
  destruct (reorder_spec [] l.*2 (m_fmt pre) Hn Hin) as (rest & Hr & Hp). cbn [app length] in Hr.
  rewrite Hr. ored.
  destruct (strip_unwanted_attr (drop (length l) (l.*2 ++ rest)) pre) as (attrs & -> & Hs).
  assert (Ht : take (length l) (l.*2 ++ rest) = l.*2)
    by (rewrite take_app_le by (by rewrite length_fmap); apply take_ge; by rewrite length_fmap).
  rewrite Ht.
  assert (Hlen : (length l <= PJMEDIA_MAX_SDP_FMT)%nat).
  { etrans; [|apply (mw_fmts _ Hwf)]. rewrite <- (length_fmap snd). rewrite <- (Permutation_length Hp).
    rewrite length_app. lia. }
  unfold apply_answer_symmetric_pt.
  destruct (symmetric_loop_ok l 0 (pre <| m_attr := attrs |> <| m_fmt := l.*2 |>) []) as (attrs1 & tmp & ->).
  - by rewrite drop_0.
  - cbn [length]. unfold PJMEDIA_MAX_SDP_ATTR. lia.
  - intros p a Hpl Ha. apply (mw_room _ Hwf).
    + rewrite Forall_forall in Hin. apply Hin. apply list_elem_of_fmap. by exists p.
    + eapply elem_of_sublist; [exact Ha|exact Hs].
  - ored. rewrite take_0. cbn [app]. unfold set_field; cbn [m_fmt].
    match goal with |- context [foldl _ ?m tmp] => destruct (add_attrs_attr tmp m) as [attrs2 ->] end.
    match goal with |- context [update_media_direction offer ?m] =>
      destruct (update_direction_attr offer m) as [attrs3 ->] end.
    exists attrs3. done.
Qed.

(** Answering one media of a validated offer in the default configuration:
    there is always a result, with no undefined behaviour on the way.  A
    successful answer to an offered port is our media with other formats and
    attributes, and each of its formats was offered; our own media stays sane
    whatever the callbacks do. *)
Theorem match_offer_safe run_cb cbs offer pre sess :
  cb_ok run_cb -> offer_wf offer -> media_wf pre ->
  exists status am pre',
    match_offer run_cb cbs true false offer pre sess = Some (status, am, pre') /\
    media_wf pre' /\ pre' = pre <| m_attr := m_attr pre' |> /\
    (status <> PJ_SUCCESS -> status = PJMEDIA_SDPNEG_NOANSCODEC \/ status = PJMEDIA_SDPNEG_NOANSUNKNOWN) /\
    (status = PJ_SUCCESS -> exists a, am = Some a /\
       m_port a = (if m_port offer =? 0 then 0 else m_port pre) /\
       m_media a = (if m_port offer =? 0 then m_media offer else m_media pre) /\
       (m_port offer <> 0 -> m_port pre <> 0 -> Forall (offered offer) (m_fmt a))).
Proof.
  intros Hcb Ho Hp. unfold match_offer.
  destruct (Z.eqb_spec (m_port offer) 0) as [Eo|Eo].
  { eexists _, _, _. split; [done|]. split; [done|]. split; [by destruct pre|]. split; [done|].
    intros _. eexists. split; [done|]. unfold sdp_media_clone_deactivate. split; [|split; [|done]];
      repeat case_match; done. }
  destruct (Z.eqb_spec (m_port pre) 0) as [Ep|Ep].
  { eexists _, _, _. split; [done|]. split; [done|]. split; [by destruct pre|]. split; [done|].
    intros _. eexists. done. }
  destruct (match_loop_ok run_cb cbs Hcb offer pre Ho Hp Eo 0 (m_fmt offer) (match_init pre)) as (st & Hst & Hi);
    [by apply match_init_inv|done|].
  cbn [master]. rewrite Hst. ored. cbn [negb].
  destruct (master_has_codec st && negb (found_matching_codec st)).
  { eexists _, _, _. split; [done|]. split; [apply Hi|]. split; [apply Hi|]. split; [auto|done]. }
  destruct (master_has_other st && negb (found_matching_other st)).
  { eexists _, _, _. split; [done|]. split; [apply Hi|]. split; [apply Hi|]. split; [auto|done]. }
  destruct (tel_events_ok offer pre Ho Hp Eo st Hi) as (l & -> & Hcf). ored.
  destruct (build_answer_ok offer (preanswer st) l) as (attrs & ->); [apply Hi|apply Hcf| |].
  { rewrite (inv_fmt _ _ _ Hi). apply Hcf. }
  ored. eexists _, _, _. split; [done|]. split; [apply Hi|]. split; [apply Hi|]. split; [done|].
  intros _. eexists. split; [done|]. rewrite (mi_pre _ _ _ Hi). split; [done|]. split; [done|]. intros _ _. apply Hcf.
Qed.
