(* ===== verification/SdpNego.v ===== *)
(** * SDP offer/answer: the negotiator

    The session half of [pjmedia/sdp_neg.c]: [process_answer] and
    [create_answer] on whole descriptions, and the negotiator object with
    its operations.  The descriptions a negotiator points to are clones of
    its own, so they are values here, and a pointer that may be [NULL] is an
    [option].  The arguments the code checks with [PJ_ASSERT_RETURN] only to
    refuse a [NULL] are not modelled, except the [local] of
    [pjmedia_sdp_neg_set_local_answer], whose documentation allows [NULL]. *)

From Stdlib Require Import String.
From S2P Require Import Prelude Hash PjString Sdp SdpNeg.
Local Open Scope Z_scope.

(** [PJMEDIA_SDP_NEG_PREFER_REMOTE_CODEC_ORDER] and
    [PJMEDIA_SDP_NEG_ANSWER_MULTIPLE_CODECS] of [pjmedia/config.h]. *)
Definition NEG_PREFER_REMOTE_CODEC_ORDER : bool := true.
Definition NEG_ANSWER_MULTIPLE_CODECS : bool := false.

Definition PJMEDIA_SDP_NEG_ALLOW_MEDIA_CHANGE : Z := 1.

Inductive pjmedia_sdp_neg_state :=
  | STATE_NULL
  | STATE_LOCAL_OFFER
  | STATE_REMOTE_OFFER
  | STATE_WAIT_NEGO
  | STATE_DONE.

#[export] Instance neg_state_eq_dec : EqDecision pjmedia_sdp_neg_state.
Proof. solve_decision. Defined.

Record pjmedia_sdp_neg := mk_neg {
  state : pjmedia_sdp_neg_state;
  prefer_remote_codec_order : bool;
  answer_with_multiple_codecs : bool;
  has_remote_answer : bool;
  answer_was_remote : bool;
  initial_sdp : option sdp_session;
  initial_sdp_tmp : option sdp_session;
  active_local_sdp : option sdp_session;
  active_remote_sdp : option sdp_session;
  neg_local_sdp : option sdp_session;
  neg_remote_sdp : option sdp_session
}.

#[export] Instance neg_settable : Settable pjmedia_sdp_neg :=
  fun r => mk_neg (state r) (prefer_remote_codec_order r) (answer_with_multiple_codecs r)
    (has_remote_answer r) (answer_was_remote r) (initial_sdp r) (initial_sdp_tmp r)
    (active_local_sdp r) (active_remote_sdp r) (neg_local_sdp r) (neg_remote_sdp r).

(** A new negotiator is zeroed memory. *)
Definition neg_zalloc : pjmedia_sdp_neg :=
  mk_neg STATE_NULL false false false false None None None None None None.

Definition version (s : sdp_session) : Z := o_version (s_origin s).

Definition set_version (s : sdp_session) (v : Z) : sdp_session :=
  s <| s_origin := s_origin s <| o_version := v |> |>.

(** ** Creation *)

Definition pjmedia_sdp_neg_create_w_local_offer (local : sdp_session)
    : option (Z * option pjmedia_sdp_neg) :=
  status ← pjmedia_sdp_validate local;
  if negb (status =? PJ_SUCCESS) then Some (status, None)
  else
    Some (PJ_SUCCESS, Some (neg_zalloc
      <| state := STATE_LOCAL_OFFER |>
      <| prefer_remote_codec_order := NEG_PREFER_REMOTE_CODEC_ORDER |>
      <| answer_with_multiple_codecs := NEG_ANSWER_MULTIPLE_CODECS |>
      <| initial_sdp := Some local |>
      <| neg_local_sdp := Some local |>)).

Definition pjmedia_sdp_neg_create_w_remote_offer (initial : option sdp_session)
    (remote : sdp_session) : option (Z * option pjmedia_sdp_neg) :=
  status ← pjmedia_sdp_validate2 remote false;
  if negb (status =? PJ_SUCCESS) then Some (status, None)
  else
    let neg := neg_zalloc
      <| prefer_remote_codec_order := NEG_PREFER_REMOTE_CODEC_ORDER |>
      <| answer_with_multiple_codecs := NEG_ANSWER_MULTIPLE_CODECS |>
      <| neg_remote_sdp := Some remote |> in
    match initial with
    | Some initial =>
        status ← pjmedia_sdp_validate initial;
        if negb (status =? PJ_SUCCESS) then Some (status, None)
        else
          Some (PJ_SUCCESS, Some (neg <| initial_sdp := Some initial |>
            <| neg_local_sdp := Some initial |> <| state := STATE_WAIT_NEGO |>))
    | None => Some (PJ_SUCCESS, Some (neg <| state := STATE_REMOTE_OFFER |>))
    end.

(** ** Accessors *)

Definition pjmedia_sdp_neg_set_prefer_remote_codec_order (neg : pjmedia_sdp_neg) (b : bool) :=
  (PJ_SUCCESS, neg <| prefer_remote_codec_order := b |>).

Definition pjmedia_sdp_neg_set_answer_multiple_codecs (neg : pjmedia_sdp_neg) (b : bool) :=
  (PJ_SUCCESS, neg <| answer_with_multiple_codecs := b |>).

Definition get_or (error : Z) (s : option sdp_session) : Z * option sdp_session :=
  match s with Some s => (PJ_SUCCESS, Some s) | None => (error, None) end.

Definition pjmedia_sdp_neg_get_active_local (neg : pjmedia_sdp_neg) :=
  get_or PJMEDIA_SDPNEG_ENOACTIVE (active_local_sdp neg).
Definition pjmedia_sdp_neg_get_active_remote (neg : pjmedia_sdp_neg) :=
  get_or PJMEDIA_SDPNEG_ENOACTIVE (active_remote_sdp neg).
Definition pjmedia_sdp_neg_get_neg_remote (neg : pjmedia_sdp_neg) :=
  get_or PJMEDIA_SDPNEG_ENONEG (neg_remote_sdp neg).
Definition pjmedia_sdp_neg_get_neg_local (neg : pjmedia_sdp_neg) :=
  get_or PJMEDIA_SDPNEG_ENONEG (neg_local_sdp neg).

Definition pjmedia_sdp_neg_has_local_answer (neg : pjmedia_sdp_neg) : bool :=
  negb (has_remote_answer neg).

(** ** Offers of the local side *)

(** [pj_array_insert(array, elem_size, count, pos, &value)] *)
Definition array_insert {A} (l : list A) (count pos : nat) (value : A) : list A :=
  take pos l ++ value :: drop pos (take count l) ++ drop (S count) l.

(** The first media from index [ni] on of the type [media]. *)
Fixpoint find_media (media : list Z) (ms : list sdp_media) (ni : nat)
    : option (nat * sdp_media) :=
  match ms with
  | [] => None
  | nm :: ms =>
      if pj_strcmp (m_media nm) media =? 0 then Some (ni, nm) else find_media media ms (S ni)
  end.

(** [media[media_count++]], inserting at [pos]: the array has a fixed size. *)
Definition insert_media (ms : list sdp_media) (pos : nat) (m : sdp_media)
    : option (list sdp_media) :=
  if Nat.ltb (length ms) PJMEDIA_MAX_SDP_MEDIA
  then Some (array_insert ms (length ms) pos m) else None.

(** Fix the order of the new offer's media, from the old media [oi] on, and
    add the missing ones, disabled. *)
Fixpoint fix_media (local : sdp_session) (olds : list sdp_media) (oi : nat)
    (news : list sdp_media) : option (list sdp_media) :=
  match olds with
  | [] => Some news
  | om :: olds =>
      match find_media (m_media om) (drop oi news) oi with
      | Some (ni, nm) =>
          fix_media local olds (S oi)
            (if Nat.eqb ni oi then news else array_insert news ni oi nm)
      | None =>
          news ← insert_media news oi (sdp_media_clone_deactivate om (Some om) (Some local));
          fix_media local olds (S oi) news
      end
  end.

(** With [PJMEDIA_SDP_NEG_ALLOW_MEDIA_CHANGE]: add the old media the new
    offer has none for. *)
Fixpoint append_media (local : sdp_session) (olds : list sdp_media) (oi : nat)
    (news : list sdp_media) : option (list sdp_media) :=
  match olds with
  | [] => Some news
  | om :: olds =>
      news ← insert_media news oi (sdp_media_clone_deactivate om (Some om) (Some local));
      append_media local olds (S oi) news
  end.

Definition pjmedia_sdp_neg_modify_local_offer2 (neg : pjmedia_sdp_neg) (flags : Z)
    (local : sdp_session) : option (Z * pjmedia_sdp_neg) :=
  if negb (bool_decide (state neg = STATE_DONE)) then Some (PJMEDIA_SDPNEG_EINSTATE, neg)
  else
    status ← pjmedia_sdp_validate local;
    if negb (status =? PJ_SUCCESS) then Some (status, neg)
    else
      let neg := neg <| state := STATE_LOCAL_OFFER |> in
      match active_local_sdp neg with
      | None =>
          Some (PJ_SUCCESS, neg <| initial_sdp_tmp := None |> <| initial_sdp := Some local |>
                                <| neg_local_sdp := Some local |>)
      | Some old_offer =>
          let o := s_origin old_offer in
          media ← (if Z.land flags PJMEDIA_SDP_NEG_ALLOW_MEDIA_CHANGE =? 0
                   then fix_media local (s_media old_offer) 0 (s_media local)
                   else append_media local (drop (length (s_media local)) (s_media old_offer))
                          (length (s_media local)) (s_media local));
          let new_offer := local <| s_origin := o <| o_version := u32 (o_version o + 1) |> |>
                                 <| s_media := media |> in
          Some (PJ_SUCCESS, neg <| initial_sdp_tmp := initial_sdp neg |>
                                <| initial_sdp := Some new_offer |>
                                <| neg_local_sdp := Some new_offer |>)
      end.

Definition pjmedia_sdp_neg_modify_local_offer (neg : pjmedia_sdp_neg) (local : sdp_session) :=
  pjmedia_sdp_neg_modify_local_offer2 neg 0 local.

(** The status, the offer and the negotiator. *)
Definition pjmedia_sdp_neg_send_local_offer (neg : pjmedia_sdp_neg)
    : Z * option sdp_session * pjmedia_sdp_neg :=
  if negb (bool_decide (state neg = STATE_DONE)
           || bool_decide (state neg = STATE_LOCAL_OFFER))
  then (PJMEDIA_SDPNEG_EINSTATE, None, neg)
  else if bool_decide (state neg = STATE_DONE) then
    match active_local_sdp neg with
    | None => (PJMEDIA_SDPNEG_ENOACTIVE, None, neg)
    | Some active =>
        let neg := match initial_sdp neg with
                   | Some initial => neg <| initial_sdp_tmp := Some initial |>
                   | None => neg
                   end in
        let offer := set_version active (u32 (version active + 1)) in
        (PJ_SUCCESS, Some offer,
         neg <| state := STATE_LOCAL_OFFER |> <| neg_local_sdp := Some offer |>)
    end
  else (PJ_SUCCESS, neg_local_sdp neg, neg).

Definition pjmedia_sdp_neg_set_remote_answer (neg : pjmedia_sdp_neg) (remote : sdp_session)
    : Z * pjmedia_sdp_neg :=
  if negb (bool_decide (state neg = STATE_LOCAL_OFFER)) then (PJMEDIA_SDPNEG_EINSTATE, neg)
  else (PJ_SUCCESS, neg <| state := STATE_WAIT_NEGO |> <| has_remote_answer := true |>
                        <| neg_remote_sdp := Some remote |>).

(** ** Offers of the remote side *)

Definition pjmedia_sdp_neg_set_remote_offer (neg : pjmedia_sdp_neg) (remote : sdp_session)
    : Z * pjmedia_sdp_neg :=
  if negb (bool_decide (state neg = STATE_DONE)) then (PJMEDIA_SDPNEG_EINSTATE, neg)
  else (PJ_SUCCESS, neg <| state := STATE_REMOTE_OFFER |> <| neg_remote_sdp := Some remote |>).

(** The branch for a [NULL] answer after the first check is never taken. *)
Definition pjmedia_sdp_neg_set_local_answer (neg : pjmedia_sdp_neg)
    (local : option sdp_session) : Z * pjmedia_sdp_neg :=
  match local with
  | None => (PJ_EINVAL, neg)
  | Some local =>
      if negb (bool_decide (state neg = STATE_REMOTE_OFFER)
               || bool_decide (state neg = STATE_WAIT_NEGO))
      then (PJMEDIA_SDPNEG_EINSTATE, neg)
      else
        let neg := neg <| state := STATE_WAIT_NEGO |> in
        match initial_sdp neg with
        | Some initial =>
            (PJ_SUCCESS,
             neg <| initial_sdp_tmp := Some initial |>
                 <| neg_local_sdp :=
                      Some (local <| s_origin :=
                              s_origin local <| o_id := o_id (s_origin initial) |> |>) |>)
        | None =>
            (PJ_SUCCESS, neg <| neg_local_sdp := Some local |> <| initial_sdp := Some local |>)
        end
  end.

Definition pjmedia_sdp_neg_cancel_offer (neg : pjmedia_sdp_neg) : Z * pjmedia_sdp_neg :=
  if negb (bool_decide (state neg = STATE_LOCAL_OFFER)
           || bool_decide (state neg = STATE_REMOTE_OFFER))
  then (PJMEDIA_SDPNEG_EINSTATE, neg)
  else
    let is_local := bool_decide (state neg = STATE_LOCAL_OFFER) in
    let neg :=
      match active_local_sdp neg with
      | Some active =>
          if is_local
          then neg <| active_local_sdp := Some (set_version active (u32 (version active + 1))) |>
          else neg
      | None => neg
      end in
    let neg := if is_local then neg <| initial_sdp := initial_sdp_tmp neg |> else neg in
    (PJ_SUCCESS,
     neg <| initial_sdp_tmp := None |> <| neg_local_sdp := None |> <| neg_remote_sdp := None |>
         <| has_remote_answer := false |> <| state := STATE_DONE |>).

(** ** Negotiation *)

Section negotiate.
Context (run_cb : fmt_match_fn) (fmt_match_cb : list fmt_match_cb_t).

(** The media lines of the offer from [omi] on; [ami] is the current line of
    the answer.  The results are the status, the two lists of media and
    [has_active]. *)
Fixpoint process_loop (n omi ami : nat) (offer : sdp_session) (oms ams : list sdp_media)
    (allow_asym has_active : bool) : option (Z * list sdp_media * list sdp_media * bool) :=
  match n with
  | O => Some (PJ_SUCCESS, oms, ams, has_active)
  | S n =>
      om ← oms !! omi;
      if Nat.eqb ami (length ams) then
        let am := sdp_media_clone_deactivate om (Some om) (Some offer) in
        if Nat.ltb (length ams) PJMEDIA_MAX_SDP_MEDIA then
          process_loop n (S omi) (S ami) offer (<[omi := pjmedia_sdp_media_deactivate om]> oms)
            (ams ++ [am]) allow_asym has_active
        else None
      else
        am ← ams !! ami;
        '(status, om, am) ← process_m_answer run_cb fmt_match_cb om am allow_asym;
        if status =? PJMEDIA_SDPNEG_EINVANSMEDIA then
          process_loop n (S omi) ami offer (<[omi := pjmedia_sdp_media_deactivate om]> oms)
            (<[ami := am]> ams) allow_asym has_active
        else if status =? PJMEDIA_SDPNEG_EANSNOMEDIA then
          process_loop n (S omi) (S ami) offer (<[omi := pjmedia_sdp_media_deactivate om]> oms)
            (<[ami := pjmedia_sdp_media_deactivate am]> ams) allow_asym has_active
        else if negb (status =? PJ_SUCCESS) then
          Some (status, <[omi := om]> oms, <[ami := am]> ams, has_active)
        else
          process_loop n (S omi) (S ami) offer (<[omi := om]> oms) (<[ami := am]> ams)
            allow_asym (has_active || negb (m_port om =? 0))
  end.

(** The status, the active local description when it was set, and the
    answer, which is modified in place. *)
Definition process_answer (local_offer answer : sdp_session) (allow_asym : bool)
    : option (Z * option sdp_session * sdp_session) :=
  '(status, oms, ams, has_active) ←
    process_loop (length (s_media local_offer)) 0 0 local_offer (s_media local_offer)
      (s_media answer) allow_asym false;
  let answer := answer <| s_media := ams |> in
  if negb (status =? PJ_SUCCESS) then Some (status, None, answer)
  else
    Some ((if (has_active : bool) then PJ_SUCCESS else PJMEDIA_SDPNEG_ENOMEDIA),
          Some (local_offer <| s_media := oms |>), answer).

(** The search for the initial media that answers [om]: the media [j] on of
    [initial], whose [media_used] are [used].  The results are the index and
    the answer, the initial media after the callbacks, and [status]. *)
Fixpoint answer_search (prefer multiple : bool) (initial : sdp_session) (om : sdp_media)
    (n j : nat) (ims : list sdp_media) (used : list bool) (status : Z)
    : option (option (nat * sdp_media) * list sdp_media * Z) :=
  match n with
  | O => Some (None, ims, status)
  | S n =>
      im ← ims !! j;
      u ← used !! j;
      if (pj_strcmp (m_media om) (m_media im) =? 0)
         && (pj_strcmp (m_transport om) (m_transport im) =? 0) && negb u
      then
        '(status2, am, im) ← match_offer run_cb fmt_match_cb prefer multiple om im initial;
        let ims := <[j := im]> ims in
        if status2 =? PJ_SUCCESS
        then am ← am; Some (Some (j, am), ims, status)
        else answer_search prefer multiple initial om n (S j) ims used status2
      else answer_search prefer multiple initial om n (S j) ims used status
  end.

(** The loop over the media of the offer; [ans] are the media of the answer. *)
Fixpoint answer_loop (prefer multiple : bool) (initial : sdp_session) (oms : list sdp_media)
    (ims : list sdp_media) (used : list bool) (status : Z) (has_active : bool)
    (ans : list sdp_media) : option (list sdp_media * Z * bool) :=
  match oms with
  | [] => Some (ans, status, has_active)
  | om :: oms =>
      '(found, ims, status) ←
        answer_search prefer multiple initial om (length ims) 0 ims used status;
      let '(am, used) :=
        match found with
        | Some (j, am) => (am, <[j := true]> used)
        | None =>
            (sdp_media_clone_deactivate om (Some om) (Some (initial <| s_media := ans |>)), used)
        end in
      if Nat.ltb (length ans) PJMEDIA_MAX_SDP_MEDIA then
        answer_loop prefer multiple initial oms ims used status
          (has_active || negb (m_port am =? 0)) (ans ++ [am])
      else None
  end.

(** The status and the answer.  [status] is [PJMEDIA_SDPNEG_ENOMEDIA] only
    until the validation of the offer assigns it. *)
Definition create_answer (prefer multiple : bool) (initial offer : sdp_session)
    : option (Z * option sdp_session) :=
  status ← pjmedia_sdp_validate offer;
  if negb (status =? PJ_SUCCESS) then Some (status, None)
  else
    '(ans, status, has_active) ←
      answer_loop prefer multiple initial (s_media offer) (s_media initial)
        (replicate PJMEDIA_MAX_SDP_MEDIA false) status false [];
    Some ((if (has_active : bool) then PJ_SUCCESS else status),
          Some (initial <| s_media := ans |>)).

(** The outcome of the two kinds of negotiation: the status and the new
    active descriptions.  [process_answer] refuses a [NULL] offer, and the
    clone of a [NULL] description is [NULL]. *)
Definition negotiate_active (neg : pjmedia_sdp_neg) (remote : sdp_session) (allow_asym : bool)
    : option (Z * option (sdp_session * sdp_session)) :=
  match neg_local_sdp neg with
  | None =>
      if has_remote_answer neg then Some (PJ_EINVAL, None)
      else
        status ← pjmedia_sdp_validate remote;
        Some ((if status =? PJ_SUCCESS then PJ_ENOMEM else status), None)
  | Some local =>
      if has_remote_answer neg then
        '(status, active, remote) ← process_answer local remote allow_asym;
        if status =? PJ_SUCCESS then active ← active; Some (status, Some (active, remote))
        else Some (status, None)
      else
        '(status, answer) ← create_answer (prefer_remote_codec_order neg)
                              (answer_with_multiple_codecs neg) local remote;
        if status =? PJ_SUCCESS then
          answer ← answer;
          active_ver ← (match active_local_sdp neg with
                        | Some active => Some (version active)
                        | None => initial ← initial_sdp neg; Some (version initial)
                        end);
          Some (status, Some (set_version answer (u32 (active_ver + 1)), remote))
        else Some (status, None)
  end.

Definition pjmedia_sdp_neg_negotiate (neg : pjmedia_sdp_neg) (allow_asym : bool)
    : option (Z * pjmedia_sdp_neg) :=
  if negb (bool_decide (state neg = STATE_WAIT_NEGO)) then Some (PJMEDIA_SDPNEG_EINSTATE, neg)
  else
    match neg_remote_sdp neg with
    | None => Some (PJ_EBUG, neg)
    | Some remote =>
        '(status, active) ← negotiate_active neg remote allow_asym;
        let neg :=
          match active with
          | Some (local, remote) =>
              neg <| active_local_sdp := Some local |> <| active_remote_sdp := Some remote |>
          | None => neg
          end in
        let neg := neg <| state := STATE_DONE |>
                       <| answer_was_remote := has_remote_answer neg |> in
        let neg := if negb (status =? PJ_SUCCESS)
                   then neg <| initial_sdp := initial_sdp_tmp neg |> else neg in
        Some (status, neg <| initial_sdp_tmp := None |> <| neg_local_sdp := None |>
                          <| neg_remote_sdp := None |> <| has_remote_answer := false |>)
    end.
End negotiate.
