(* ===== verification/SdpNegoRun.v ===== *)
(** * The SDP negotiator: properties

    The descriptions that the negotiator builds, and the machine it is. *)

From Stdlib Require Import String.
From S2P Require Import Prelude Hash PjString Sdp SdpNeg SdpAnswer SdpOffer SdpNego.
Local Open Scope Z_scope.

(** * The SDP negotiator: properties

    The descriptions the negotiator builds from its own ([modify_local_offer],
    [process_answer], [create_answer]), and the negotiator as an
    offer/answer machine: its invariant, and the refinement of the machine
    [sdp_neg.h] documents. *)

(** ** A new offer *)

Definition same_type (om nm : sdp_media) : Prop := m_media nm = m_media om.

Definition disabled (m : sdp_media) : Prop := m_port m = 0.

Lemma clone_deactivate_spec om local_med sess :
  disabled (sdp_media_clone_deactivate om local_med sess) /\
  same_type om (sdp_media_clone_deactivate om local_med sess).
Proof.
  unfold sdp_media_clone_deactivate, disabled, same_type. repeat case_match; done.
Qed.

Lemma find_media_spec media ms ni :
  match find_media media ms ni with
  | Some (nj, nm) => (ni <= nj)%nat /\ ms !! (nj - ni)%nat = Some nm /\ m_media nm = media
  | None => True
  end.
Proof.
  revert ni. induction ms as [|m ms IH]; intros ni; cbn [find_media]; [done|].
  rewrite strcmp_eqb. case_bool_decide as E.
  - rewrite Nat.sub_diag. done.
  - specialize (IH (S ni)). destruct (find_media media ms (S ni)) as [[nj nm]|]; [|done].
    destruct IH as (H1 & H2 & H3). split; [lia|]. split; [|done].
    by replace (nj - ni)%nat with (S (nj - S ni)) by lia.
Qed.

(** Moving element [count] to [pos]. *)
Lemma array_insert_move {A} (l : list A) count pos x :
  l !! count = Some x -> (pos <= count)%nat ->
  array_insert l count pos x ≡ₚ l /\ take pos (array_insert l count pos x) = take pos l /\
  array_insert l count pos x !! pos = Some x.
Proof.
  intros Hx Hp. assert (Hlt := lookup_lt_Some _ _ _ Hx). unfold array_insert.
  assert (Hl : length (take pos l) = pos) by (rewrite length_take; lia).
  split; [|split].
  - transitivity (x :: take count l ++ drop (S count) l).
    + rewrite <- Permutation_middle, app_assoc. constructor. apply Permutation_app_tail.
      rewrite <- (take_drop pos (take count l)) at 2. by rewrite take_take, Nat.min_l by lia.
    + rewrite Permutation_middle. by rewrite take_drop_middle.
  - by rewrite take_app_le, take_take, Nat.min_id by lia.
  - rewrite lookup_app_r by lia. by rewrite Hl, Nat.sub_diag.
Qed.

(** Inserting one more element at [pos]. *)
Lemma array_insert_end {A} (l : list A) pos x :
  (pos <= length l)%nat ->
  array_insert l (length l) pos x ≡ₚ l ++ [x] /\
  take pos (array_insert l (length l) pos x) = take pos l /\
  array_insert l (length l) pos x !! pos = Some x.
Proof.
  intros Hp. unfold array_insert. rewrite (take_ge l (length l)), (drop_ge l (S _)) by lia. rewrite app_nil_r.
  assert (Hl : length (take pos l) = pos) by (rewrite length_take; lia).
  split; [|split].
  - rewrite <- Permutation_middle, take_drop. by rewrite Permutation_app_comm.
  - by rewrite take_app_le, take_take, Nat.min_id by lia.
  - rewrite lookup_app_r by lia. by rewrite Hl, Nat.sub_diag.
Qed.

Lemma take_S_drop {A} (l l' : list A) i x k :
  take (S i) l' = take (S i) l -> l !! i = Some x ->
  take (S k) (drop i l') = x :: take k (drop (S i) l').
Proof.
  intros Ht Hx. assert (Hx' : l' !! i = Some x).
  { rewrite <- (lookup_take_lt l' (S i)), Ht, lookup_take_lt by lia. done. }
  by rewrite (drop_S _ _ _ Hx').
Qed.

Lemma fix_media_spec local olds oi news news' :
  (oi <= length news)%nat -> fix_media local olds oi news = Some news' ->
  (exists added, news' ≡ₚ news ++ added /\ Forall disabled added) /\
  take oi news' = take oi news /\
  Forall2 same_type olds (take (length olds) (drop oi news')).
Proof.
  revert oi news. induction olds as [|om olds IH]; intros oi news Hoi; cbn [fix_media length].
  { intros [= <-]. split; [exists []; by rewrite app_nil_r|]. split; [done|constructor]. }
  enough (Hstep : forall news1 nm added1,
    news1 ≡ₚ news ++ added1 -> Forall disabled added1 -> take oi news1 = take oi news ->
    news1 !! oi = Some nm -> same_type om nm -> fix_media local olds (S oi) news1 = Some news' ->
    (exists added, news' ≡ₚ news ++ added /\ Forall disabled added) /\
    take oi news' = take oi news /\
    Forall2 same_type (om :: olds) (take (S (length olds)) (drop oi news'))).
  { pose proof (find_media_spec (m_media om) (drop oi news) oi) as Hf.
    destruct (find_media _ _ _) as [[ni nm]|].
    - destruct Hf as (Hni & Hnm & Ht). rewrite lookup_drop in Hnm.
      replace (oi + (ni - oi))%nat with ni in Hnm by lia.
      destruct (array_insert_move news ni oi nm Hnm Hni) as (H1 & H2 & H3).
      destruct (Nat.eqb_spec ni oi) as [->|_]; apply (Hstep _ nm []); rewrite ?app_nil_r; done.
    - unfold insert_media. destruct (Nat.ltb _ _); ored; [|done].
      set (m := sdp_media_clone_deactivate om (Some om) (Some local)).
      destruct (clone_deactivate_spec om (Some om) (Some local)) as [Hd Ht].
      destruct (array_insert_end news oi m Hoi) as (H1 & H2 & H3).
      apply (Hstep _ m [m]); try done. by constructor. }
  intros news1 nm added1 Hp Ha Ht Hn Hty Hfix. assert (Hlt := lookup_lt_Some _ _ _ Hn).
  destruct (IH (S oi) news1 ltac:(lia) Hfix) as ((added & Hp' & Ha') & Ht' & Hf).
  split; [|split].
  - exists (added1 ++ added). split; [by rewrite app_assoc, <- Hp|]. by apply Forall_app.
  - rewrite <- Ht. rewrite <- (Nat.min_l oi (S oi)) by lia. by rewrite <- !take_take, Ht'.
  - rewrite (take_S_drop news1 news' oi nm (length olds) Ht' Hn). by constructor.
Qed.

Lemma append_media_spec local olds oi news news' :
  oi = length news -> append_media local olds oi news = Some news' ->
  exists added, news' = news ++ added /\ Forall disabled added /\ Forall2 same_type olds added.
Proof.
  revert oi news. induction olds as [|om olds IH]; intros oi news Hoi; cbn [append_media].
  { intros [= <-]. exists []. rewrite app_nil_r. by split; [|split; constructor]. }
  unfold insert_media. destruct (Nat.ltb _ _); ored; [|done].
  set (m := sdp_media_clone_deactivate om (Some om) (Some local)).
  destruct (clone_deactivate_spec om (Some om) (Some local)) as [Hd Ht].
  assert (array_insert news (length news) oi m = news ++ [m]) as ->.
  { unfold array_insert. subst oi. by rewrite !take_ge, !drop_ge by lia. }
  intros (added & -> & Ha & Hf)%IH; [|rewrite length_app; cbn; lia].
  exists (m :: added). rewrite <- app_assoc. split; [done|]. split; by constructor.
Qed.

(** An offer that modifies an active session: its origin is the active one
    with the version incremented; it has all the media the application gave,
    and disabled ones.  Without the flag it lists the media of the session,
    by type, in their order, before any new one; with the flag the given
    media come first, and it has no fewer media than the session. *)
Theorem modify_offer_aligned neg flags local neg' old :
  active_local_sdp neg = Some old ->
  pjmedia_sdp_neg_modify_local_offer2 neg flags local = Some (PJ_SUCCESS, neg') ->
  exists new, neg_local_sdp neg' = Some new /\ initial_sdp neg' = Some new /\
    state neg' = STATE_LOCAL_OFFER /\
    s_origin new = s_origin old <| o_version := u32 (version old + 1) |> /\
    (exists added, s_media new ≡ₚ s_media local ++ added /\ Forall disabled added) /\
    (length (s_media old) <= length (s_media new))%nat /\
    (if Z.land flags PJMEDIA_SDP_NEG_ALLOW_MEDIA_CHANGE =? 0
     then Forall2 same_type (s_media old) (take (length (s_media old)) (s_media new))
     else take (length (s_media local)) (s_media new) = s_media local).
Proof.
  intros Hact. unfold pjmedia_sdp_neg_modify_local_offer2.
  destruct (negb _); [by intros [= ?]|].
  destruct (pjmedia_sdp_validate local) as [status|]; ored; [|done].
  destruct (Z.eqb_spec status PJ_SUCCESS) as [->|Hs]; cbn [negb]; [|by intros [= ? _]].
  cbn [active_local_sdp]. unfold set_field at 1. cbn [active_local_sdp]. rewrite Hact.
  destruct (Z.land flags _ =? 0).
  - destruct (fix_media _ _ _ _) as [media|] eqn:E; ored; [|done]. intros [= <-].
    apply fix_media_spec in E as (Hadd & _ & Hf); [|lia]. rewrite drop_0 in Hf.
    eexists. split; [done|]. split; [done|]. split; [done|]. split; [done|]. split; [done|].
    split; [|done]. apply Forall2_length in Hf. rewrite length_take in Hf. cbn. lia.
  - destruct (append_media _ _ _ _) as [media|] eqn:E; ored; [|done]. intros [= <-].
    apply append_media_spec in E as (added & -> & Ha & Hf); [|done].
    eexists. split; [done|]. split; [done|]. split; [done|]. split; [done|].
    split; [by exists added|]. apply Forall2_length in Hf. rewrite length_drop in Hf. cbn.
    split; [rewrite length_app; lia|]. by rewrite take_app_le, take_ge by lia.
Qed.

(** ** An answer received *)

(** What negotiation may do to a media of our offer: keep its line, or
    disable it. *)
Definition media_kept (om am : sdp_media) : Prop :=
  m_media am = m_media om /\ m_transport am = m_transport om /\
  (m_port am = m_port om \/ m_port am = 0).

Section process.
Context (run_cb : fmt_match_fn) (cbs : list fmt_match_cb_t).

Lemma strip_offer_media n i prior offer answer status prior' offer' answer' :
  strip_offer run_cb cbs n i prior offer answer = Some (status, prior', offer', answer') ->
  exists attrs fmts, offer' = offer <| m_attr := attrs |> <| m_fmt := fmts |>.
Proof.
  revert i prior offer answer. induction n as [|n IH]; intros i prior offer answer; cbn [strip_offer].
  { intros [= _ _ <- _]. exists (m_attr offer), (m_fmt offer). by destruct offer. }
  destruct (m_fmt offer !! i) as [fmt|]; ored; [|done].
  destruct (find_matching _ _ _ _ _ _) as [[st|[[j|] answer1]]|]; ored; [| | |done].
  - intros [= _ _ <- _]. exists (m_attr offer), (m_fmt offer). by destruct offer.
  - apply IH.
  - intros (attrs & fmts & ->)%IH. destruct (erase_fmt_spec offer i fmt) as (l & -> & _).
    exists attrs, fmts. done.
Qed.

Lemma process_m_kept offer answer asym status offer' answer' :
  process_m_answer run_cb cbs offer answer asym = Some (status, offer', answer') ->
  media_kept offer offer'.
Proof.
  assert (Hk : forall attrs fmts, media_kept offer (offer <| m_attr := attrs |> <| m_fmt := fmts |>))
    by (split; [done|split; [done|by left]]).
  assert (Hr : media_kept offer offer) by (split; [done|split; [done|by left]]).
  unfold process_m_answer. destruct (negb (_ =? 0)); [by intros [= _ <- _]|].
  destruct (_ =? 0); [intros [= _ <- _]; split; [done|split; [done|by right]]|].
  destruct (negb (_ =? PJ_SUCCESS)); [by intros [= _ <- _]|].
  destruct (_ =? 0); [by intros [= _ <- _]|].
  destruct (update_direction_attr answer offer) as [attrs ->]. destruct asym.
  { destruct (asym_outer _ _ _) as [found|]; ored; [|done]. intros [= _ <- _].
    apply (Hk attrs (m_fmt offer)). }
  destruct (strip_offer _ _ _ _ _ _ _) as [[[[st prior] offer2] answer1]|] eqn:Es; ored; [|done].
  apply strip_offer_media in Es as (attrs2 & fmts2 & ->).
  destruct (negb _); [intros [= _ <- _]; apply (Hk attrs2 fmts2)|].
  destruct (Nat.eqb _ _); [intros [= _ <- _]; apply (Hk attrs2 fmts2)|].
  destruct (strip_answer _ _ _ _ _ _); ored; [|done]. intros [= _ <- _]. apply (Hk attrs2).
Qed.

Lemma kept_deactivate om am : media_kept om am -> media_kept om (pjmedia_sdp_media_deactivate am).
Proof. intros (H1 & H2 & _). split; [done|]. split; [done|by right]. Qed.

Lemma kept_insert (oms0 oms : list sdp_media) i om om' :
  Forall2 media_kept oms0 oms -> oms !! i = Some om -> (forall o, media_kept o om -> media_kept o om') ->
  Forall2 media_kept oms0 (<[i := om']> oms).
Proof.
  intros Hf Hi Hk. apply lookup_lt_Some in Hi as Hlt. rewrite insert_take_drop by done.
  rewrite <- (take_drop_middle oms i om Hi) in Hf.
  apply Forall2_app_inv_r in Hf as (l1 & l2 & H1 & H2 & ->).
  apply Forall2_cons_inv_r in H2 as (o & l3 & H3 & H4 & ->).
  apply Forall2_app; [done|]. constructor; [by apply Hk|done].
Qed.

Lemma kept_trans a b c : media_kept a b -> media_kept b c -> media_kept a c.
Proof.
  unfold media_kept. intros (H1 & H2 & H3) (H4 & H5 & H6).
  split; [congruence|]. split; [congruence|]. destruct H6 as [->|]; auto.
Qed.

(** The media of the offer are kept or disabled; [has_active] is set when one
    keeps a port. *)
Lemma process_loop_spec n omi ami offer oms0 oms ams asym active status oms' ams' active' :
  Forall2 media_kept oms0 oms ->
  (active = true -> Exists (fun m => m_port m <> 0) (take omi oms)) ->
  process_loop run_cb cbs n omi ami offer oms ams asym active = Some (status, oms', ams', active') ->
  Forall2 media_kept oms0 oms' /\
  (status = PJ_SUCCESS -> active' = true -> Exists (fun m => m_port m <> 0) oms').
Proof.
  revert omi ami oms ams active.
  induction n as [|n IH]; intros omi ami oms ams active Hk Ha; cbn [process_loop].
  { intros [= <- <- <- <-]. split; [done|]. intros _ Hact. specialize (Ha Hact).
    rewrite <- (take_drop omi oms). apply Exists_app. by left. }
  destruct (oms !! omi) as [om|] eqn:Eo; ored; [|done].
  assert (Hlt := lookup_lt_Some _ _ _ Eo).
  assert (Hins : forall om' b, (b = true -> m_port om' <> 0) ->
    (active || b = true -> Exists (fun m => m_port m <> 0) (take (S omi) (<[omi := om']> oms)))).
  { intros om' b Hb Hact. rewrite (take_S_r _ _ om') by (by apply list_lookup_insert_eq).
    rewrite take_insert_ge by lia. apply Exists_app. apply orb_true_iff in Hact as [Hact|Hact].
    - left. by apply Ha.
    - right. constructor. by apply Hb. }
  destruct (Nat.eqb ami (length ams)).
  { destruct (Nat.ltb _ _); [|done]. apply IH.
    - exact (kept_insert _ _ _ _ _ Hk Eo (fun o => kept_deactivate o om)).
    - intros H. apply (Hins _ false); [done|by rewrite H]. }
  destruct (ams !! ami) as [am|]; ored; [|done].
  destruct (process_m_answer _ _ _ _ _) as [[[st om1] am1]|] eqn:Ep; ored; [|done].
  apply process_m_kept in Ep as Hom.
  assert (Hkd : forall o, media_kept o om -> media_kept o (pjmedia_sdp_media_deactivate om1)).
  { intros o Ho. apply kept_deactivate. exact (kept_trans _ _ _ Ho Hom). }
  destruct (st =? PJMEDIA_SDPNEG_EINVANSMEDIA).
  { apply IH; [exact (kept_insert _ _ _ _ _ Hk Eo Hkd)|]. intros H. apply (Hins _ false); [done|by rewrite H]. }
  destruct (st =? PJMEDIA_SDPNEG_EANSNOMEDIA).
  { apply IH; [exact (kept_insert _ _ _ _ _ Hk Eo Hkd)|]. intros H. apply (Hins _ false); [done|by rewrite H]. }
  destruct (Z.eqb_spec st PJ_SUCCESS) as [->|Hst]; cbn [negb].
  - apply IH.
    + exact (kept_insert _ _ _ _ _ Hk Eo (fun o Ho => kept_trans _ _ _ Ho Hom)).
    + apply Hins. intros H. apply negb_true_iff in H. by apply Z.eqb_neq.
  - intros [= <- <- <- <-]. split; [|done].
    exact (kept_insert _ _ _ _ _ Hk Eo (fun o Ho => kept_trans _ _ _ Ho Hom)).
Qed.

(** The description that becomes active after an answer: our offer, media by
    media, each as offered or disabled, and at least one active. *)
Theorem process_answer_active offer answer asym active answer' :
  process_answer run_cb cbs offer answer asym = Some (PJ_SUCCESS, active, answer') ->
  exists local, active = Some local /\ s_origin local = s_origin offer /\
    Forall2 media_kept (s_media offer) (s_media local) /\
    Exists (fun m => m_port m <> 0) (s_media local).
Proof.
  unfold process_answer.
  destruct (process_loop _ _ _ _ _ _ _ _ _ _) as [[[[st oms] ams] act]|] eqn:E; ored; [|done].
  apply (process_loop_spec _ _ _ _ (s_media offer)) in E as [Hk Hact];
    [|apply Forall_Forall2_diag, Forall_forall; intros m _; split; [done|split; [done|by left]]|done].
  destruct (Z.eqb_spec st PJ_SUCCESS) as [->|Hst]; cbn [negb]; [|by intros [= ?]].
  destruct act; [|by intros [= ?]]. intros [= <- <-]. eexists. split; [done|]. cbn.
  split; [done|]. split; [done|]. by apply Hact.
Qed.
End process.

(** ** An answer sent *)

(** A media of our answer to [om]: the same type; disabled when the offered
    one is; and what it lists was offered. *)
Definition answers (om am : sdp_media) : Prop :=
  m_media am = m_media om /\ (m_port om = 0 -> m_port am = 0) /\
  (m_port am = 0 \/ Forall (offered om) (m_fmt am)).

Section create.
Context (run_cb : fmt_match_fn) (cbs : list fmt_match_cb_t).
Hypothesis (Hcb : cb_ok run_cb).

Lemma validate_fmts_spec m fmts :
  validate_fmts m fmts = Some PJ_SUCCESS -> Forall (fun f => validate_fmt m f = Some PJ_SUCCESS) fmts.
Proof.
  induction fmts as [|f fmts IH]; cbn [validate_fmts]; [constructor|].
  destruct (validate_fmt m f) as [st|] eqn:E; ored; [|done].
  destruct (Z.eqb_spec st PJ_SUCCESS) as [->|]; [|by intros [= ?]]. intros H. constructor; auto.
Qed.

Lemma validate_medias_spec conn strict ms :
  validate_medias conn strict ms = Some PJ_SUCCESS ->
  Forall (fun m => Forall (fun f => validate_fmt m f = Some PJ_SUCCESS) (m_fmt m)) ms.
Proof.
  induction ms as [|m ms IH]; cbn [validate_medias]; [constructor|].
  destruct (validate_media conn strict m) as [st|] eqn:E; ored; [|done].
  destruct (Z.eqb_spec st PJ_SUCCESS) as [->|]; [|by intros [= ?]]. intros H. constructor; [|auto].
  revert E. unfold validate_media.
  destruct (slen _ =? 0); [done|]. destruct (slen _ =? 0); [done|]. destruct (negb (negb _ || _)); [done|].
  destruct (Z.eqb_spec (validate_conn_opt (m_conn m)) PJ_SUCCESS) as [E|E]; cbn [negb]; [|by intros [= ?]].
  destruct (_ && _); [done|]. apply validate_fmts_spec.
Qed.

Lemma validate_spec sdp strict :
  pjmedia_sdp_validate2 sdp strict = Some PJ_SUCCESS ->
  Forall (fun m => Forall (fun f => validate_fmt m f = Some PJ_SUCCESS) (m_fmt m)) (s_media sdp).
Proof.
  unfold pjmedia_sdp_validate2. destruct (slen _ =? 0); [done|].
  destruct (negb (str_is _ _)); [done|]. destruct (negb (_ || _)); [done|].
  destruct (slen _ =? 0); [done|]. destruct (slen _ =? 0); [done|].
  destruct (Z.eqb_spec (validate_conn_opt (s_conn sdp)) PJ_SUCCESS) as [E|E]; cbn [negb]; [|by intros [= ?]].
  apply validate_medias_spec.
Qed.

(** The initial media during the search: only their attributes change. *)
Definition initials_ok (ims0 ims : list sdp_media) : Prop :=
  Forall2 (fun m0 m => m = m0 <| m_attr := m_attr m |> /\ media_wf m) ims0 ims.

Lemma answer_search_ok initial om n j ims0 ims used status :
  offer_wf om -> initials_ok ims0 ims -> (n = length ims - j)%nat -> (j <= length ims)%nat ->
  (length ims <= length used)%nat ->
  exists found ims' status',
    answer_search run_cb cbs true false initial om n j ims used status = Some (found, ims', status') /\
    initials_ok ims0 ims' /\
    match found with Some (_, am) => answers om am | None => True end.
Proof.
  intros Ho. revert j ims status. induction n as [|n IH]; intros j ims status Hi Hn Hj Hu; cbn [answer_search].
  { by exists None, ims, status. }
  destruct (lookup_lt_is_Some_2 ims j) as [im Him]; [lia|]. rewrite Him. ored.
  destruct (lookup_lt_is_Some_2 used j) as [u Hu']; [lia|]. rewrite Hu'. ored.
  destruct (_ && _ && negb u) eqn:Em; [|apply IH; [done|lia..]].
  apply andb_true_iff in Em as [[Em _]%andb_true_iff _]. apply Z.eqb_eq, strcmp_0 in Em.
  pose proof (Forall2_lookup_r _ _ _ _ _ Hi Him) as (im0 & Him0 & Hsame & Hwf).
  destruct (match_offer_safe run_cb cbs om im initial Hcb Ho Hwf) as (st & am & im' & -> & Hwf' & Hsame' & _ & Hsucc).
  ored.
  assert (Hi' : initials_ok ims0 (<[j := im']> ims)).
  { rewrite <- (list_insert_id ims0 j im0 Him0). apply Forall2_insert; [done|]. split; [|done].
    rewrite Hsame', Hsame. done. }
  destruct (Z.eqb_spec st PJ_SUCCESS) as [->|Hst].
  - destruct (Hsucc eq_refl) as (a & -> & Hport & Hmedia & Hfmts). ored.
    eexists _, _, _. split; [done|]. split; [done|]. split; [|split].
    + rewrite Hmedia. destruct (m_port om =? 0); [done|by rewrite Em].
    + intros E. rewrite Hport, E. done.
    + destruct (Z.eq_dec (m_port om) 0) as [E|E]; [left; by rewrite Hport, E|].
      destruct (Z.eq_dec (m_port im) 0) as [E'|E'].
      * left. rewrite Hport. by destruct (m_port om =? 0).
      * right. by apply Hfmts.
  - destruct (IH (S j) (<[j := im']> ims) st) as (found & ims' & st' & Hs & H); rewrite ?length_insert; [done|lia..|].
    by exists found, ims', st'.
Qed.

Lemma answer_loop_ok initial oms ims0 ims used status active ans :
  Forall offer_wf oms -> initials_ok ims0 ims -> (length ims <= length used)%nat ->
  (length ans + length oms <= PJMEDIA_MAX_SDP_MEDIA)%nat ->
  (active = true <-> Exists (fun m => m_port m <> 0) ans) ->
  exists ans' status' active',
    answer_loop run_cb cbs true false initial oms ims used status active ans =
      Some (ans ++ ans', status', active') /\
    Forall2 answers oms ans' /\
    (active' = true <-> Exists (fun m => m_port m <> 0) (ans ++ ans')).
Proof.
  intros Ho. revert ims used status active ans.
  induction Ho as [|om oms Hom Ho IH]; intros ims used status active ans Hi Hu Hlen Hact; cbn [answer_loop].
  { exists [], status, active. rewrite app_nil_r. split; [done|]. split; [constructor|done]. }
  destruct (answer_search_ok initial om (length ims) 0 ims0 ims used status Hom Hi) as
    (found & ims' & status' & -> & Hi' & Hf); [lia|lia|done|]. ored.
  assert (Hl' : length ims' = length ims)
    by (apply Forall2_length in Hi, Hi'; congruence).
  set (am := match found with Some (_, am) => am | None =>
    sdp_media_clone_deactivate om (Some om) (Some (initial <| s_media := ans |>)) end).
  set (used' := match found with Some (j, _) => <[j := true]> used | None => used end).
  assert (Ham : answers om am).
  { unfold am. destruct found as [[j a]|]; [done|].
    destruct (clone_deactivate_spec om (Some om) (Some (initial <| s_media := ans |>))) as [Hd Ht].
    split; [done|]. split; [done|by left]. }
  assert (Hu' : (length ims' <= length used')%nat)
    by (unfold used'; destruct found as [[j a]|]; rewrite ?length_insert; lia).
  replace (match found with Some (j, am) => _ | None => _ end) with (am, used')
    by (by unfold am, used'; destruct found as [[j a]|]).
  cbn [length] in Hlen. rewrite (proj2 (Nat.ltb_lt _ _)) by lia.
  destruct (IH ims' used' status' (active || negb (m_port am =? 0)) (ans ++ [am])) as
    (ans' & st & act & Hr & Hans & Hact'); [done|done|rewrite length_app; cbn; lia| |].
  { rewrite orb_true_iff, Exists_app, Hact, Exists_cons, Exists_nil, negb_true_iff, Z.eqb_neq. tauto. }
  exists (am :: ans'), st, act. rewrite <- app_assoc in Hr, Hact'. split; [done|]. split; [by constructor|done].
Qed.

(** Answering a validated offer in the default configuration: there is always
    a result; a description is returned with one media for each media of the
    offer, in order and of the same type, disabled when the offered one is,
    and listing only formats that were offered.  When one of them is active
    the status is [PJ_SUCCESS]. *)
Theorem create_answer_complete initial offer :
  pjmedia_sdp_validate offer = Some PJ_SUCCESS ->
  (length (s_media offer) <= PJMEDIA_MAX_SDP_MEDIA)%nat ->
  Forall (fun m => (length (m_fmt m) <= PJMEDIA_MAX_SDP_FMT)%nat) (s_media offer) ->
  (length (s_media initial) <= PJMEDIA_MAX_SDP_MEDIA)%nat -> Forall media_wf (s_media initial) ->
  exists status ans,
    create_answer run_cb cbs true false initial offer = Some (status, Some ans) /\
    s_origin ans = s_origin initial /\ Forall2 answers (s_media offer) (s_media ans) /\
    (Exists (fun m => m_port m <> 0) (s_media ans) -> status = PJ_SUCCESS).
Proof.
  intros Hv Hlo Hfo Hli Hwi. unfold create_answer. rewrite Hv. ored. cbn [negb].
  apply validate_spec in Hv as Hfm.
  destruct (answer_loop_ok initial (s_media offer) (s_media initial) (s_media initial)
    (replicate PJMEDIA_MAX_SDP_MEDIA false) PJ_SUCCESS false []) as (ans & st & act & -> & Hans & Hact).
  - apply Forall_forall. intros m Hm. rewrite Forall_forall in Hfm, Hfo. split; auto.
  - apply Forall_Forall2_diag, Forall_forall. intros m Hm. rewrite Forall_forall in Hwi.
    split; [by destruct m|auto].
  - by rewrite length_replicate.
  - done.
  - by split; [|intros H; inversion H].
  - ored. eexists _, _. split; [done|]. split; [done|]. split; [done|]. cbn.
    intros H. by rewrite (proj2 Hact H).
Qed.
End create.

(** * The SDP negotiator: the offer/answer machine

    The operations of a negotiator as steps, its invariant, the machine that
    [pjmedia/sdp_neg.h] documents and the refinement between the two, and the
    versions of the descriptions it hands out. *)

(** ** Steps *)

Inductive neg_op :=
  | OpModifyLocalOffer (flags : Z) (local : sdp_session)
  | OpSendLocalOffer
  | OpSetRemoteAnswer (remote : sdp_session)
  | OpSetRemoteOffer (remote : sdp_session)
  | OpSetLocalAnswer (local : option sdp_session)
  | OpCancelOffer
  | OpNegotiate (allow_asym : bool)
  | OpPreferRemote (b : bool)
  | OpAnswerMultiple (b : bool).

Section run.
Context (run_cb : fmt_match_fn) (cbs : list fmt_match_cb_t).

Definition run_op (op : neg_op) (neg : pjmedia_sdp_neg) : option (Z * pjmedia_sdp_neg) :=
  match op with
  | OpModifyLocalOffer flags local => pjmedia_sdp_neg_modify_local_offer2 neg flags local
  | OpSendLocalOffer =>
      let '(status, _, neg) := pjmedia_sdp_neg_send_local_offer neg in Some (status, neg)
  | OpSetRemoteAnswer remote => Some (pjmedia_sdp_neg_set_remote_answer neg remote)
  | OpSetRemoteOffer remote => Some (pjmedia_sdp_neg_set_remote_offer neg remote)
  | OpSetLocalAnswer local => Some (pjmedia_sdp_neg_set_local_answer neg local)
  | OpCancelOffer => Some (pjmedia_sdp_neg_cancel_offer neg)
  | OpNegotiate asym => pjmedia_sdp_neg_negotiate run_cb cbs neg asym
  | OpPreferRemote b => Some (pjmedia_sdp_neg_set_prefer_remote_codec_order neg b)
  | OpAnswerMultiple b => Some (pjmedia_sdp_neg_set_answer_multiple_codecs neg b)
  end.

Definition neg_step (neg neg' : pjmedia_sdp_neg) : Prop :=
  exists op status, run_op op neg = Some (status, neg').

(** The two ways a negotiator begins. *)
Definition neg_init (neg : pjmedia_sdp_neg) : Prop :=
  (exists local, pjmedia_sdp_neg_create_w_local_offer local = Some (PJ_SUCCESS, Some neg)) \/
  (exists initial remote,
     pjmedia_sdp_neg_create_w_remote_offer initial remote = Some (PJ_SUCCESS, Some neg)).

(** ** The invariant *)

(** What is pending in each state. *)
Definition pending_ok (neg : pjmedia_sdp_neg) : Prop :=
  match state neg with
  | STATE_NULL => False
  | STATE_LOCAL_OFFER =>
      is_Some (neg_local_sdp neg) /\ neg_remote_sdp neg = None /\ has_remote_answer neg = false
  | STATE_REMOTE_OFFER =>
      neg_local_sdp neg = None /\ is_Some (neg_remote_sdp neg) /\ has_remote_answer neg = false /\
      initial_sdp_tmp neg = None
  | STATE_WAIT_NEGO =>
      is_Some (neg_local_sdp neg) /\ is_Some (neg_remote_sdp neg) /\
      (has_remote_answer neg = false -> is_Some (initial_sdp neg))
  | STATE_DONE =>
      neg_local_sdp neg = None /\ neg_remote_sdp neg = None /\ has_remote_answer neg = false /\
      initial_sdp_tmp neg = None
  end.

Record neg_inv (neg : pjmedia_sdp_neg) : Prop := {
  ni_pending : pending_ok neg;
  ni_active : is_Some (active_local_sdp neg) <-> is_Some (active_remote_sdp neg)
}.

(** Compute the fields of a negotiator that was updated; case analysis on the
    state the code tests. *)
Ltac neg_simpl :=
  cbv beta iota zeta delta [set_field state prefer_remote_codec_order answer_with_multiple_codecs
    has_remote_answer answer_was_remote initial_sdp initial_sdp_tmp active_local_sdp
    active_remote_sdp neg_local_sdp neg_remote_sdp].

Ltac neg_cases neg :=
  destruct neg as [st prefer multiple has_ans was init tmp al ar nl nr]; destruct st.

Lemma init_inv neg : neg_init neg -> neg_inv neg.
Proof.
  intros [[local H]|(initial & remote & H)]; revert H.
  - unfold pjmedia_sdp_neg_create_w_local_offer.
    destruct (pjmedia_sdp_validate local) as [st|]; ored; [|done].
    destruct (negb _); [by intros [= ?]|]. intros [= <-]. split; cbn; [|done].
    split; [by eexists|done].
  - unfold pjmedia_sdp_neg_create_w_remote_offer.
    destruct (pjmedia_sdp_validate2 remote false) as [st|]; ored; [|done].
    destruct (negb _); [by intros [= ?]|]. destruct initial as [initial|].
    + destruct (pjmedia_sdp_validate initial) as [st'|]; ored; [|done].
      destruct (negb _); [by intros [= ?]|]. intros [= <-]. split; cbn; [|done].
      split; [by eexists|]. split; [by eexists|]. by eexists.
    + intros [= <-]. split; cbn; [|done]. split; [done|]. split; [by eexists|done].
Qed.

(** ** The documented machine *)

(** An offer/answer exchange with its descriptions: none, an offer of ours or
    of the other side, and an offer with its answer. *)
Inductive exchange :=
  | Idle
  | LocalOffered (offer : sdp_session)
  | RemoteOffered (offer : sdp_session)
  | RemoteAnswered (offer answer : sdp_session)
  | LocalAnswered (offer answer : sdp_session).

(** [sp_agreed]: our description and the other side's, of the last negotiation
    that succeeded; ours has the version that was used last. *)
Record spec := mk_spec { sp_exchange : exchange; sp_agreed : option (sdp_session * sdp_session) }.

Definition exchange_of (neg : pjmedia_sdp_neg) : exchange :=
  match state neg, neg_local_sdp neg, neg_remote_sdp neg with
  | STATE_LOCAL_OFFER, Some l, _ => LocalOffered l
  | STATE_REMOTE_OFFER, _, Some r => RemoteOffered r
  | STATE_WAIT_NEGO, Some l, Some r =>
      if has_remote_answer neg then RemoteAnswered l r else LocalAnswered r l
  | _, _, _ => Idle
  end.

Definition spec_of (neg : pjmedia_sdp_neg) : spec :=
  mk_spec (exchange_of neg)
    (local ← active_local_sdp neg; remote ← active_remote_sdp neg; Some (local, remote)).

Definition next_version (s : sdp_session) : sdp_session := set_version s (u32 (version s + 1)).

Definition with_media (s : sdp_session) (ms : list sdp_media) : sdp_session := s <| s_media := ms |>.

(** The offer made of [local]: it continues the session that was agreed, with
    its next version and its media, by type, in their order; what [local]
    does not have is disabled. *)
Definition offer_of (flags : Z) (agreed : option (sdp_session * sdp_session)) (local offer : sdp_session) : Prop :=
  match agreed with
  | None => offer = local
  | Some (old, _) =>
      offer = with_media (local <| s_origin := s_origin (next_version old) |>) (s_media offer) /\
      (exists added, s_media offer ≡ₚ s_media local ++ added /\ Forall disabled added) /\
      (length (s_media old) <= length (s_media offer))%nat /\
      (if Z.land flags PJMEDIA_SDP_NEG_ALLOW_MEDIA_CHANGE =? 0
       then Forall2 same_type (s_media old) (take (length (s_media old)) (s_media offer))
       else take (length (s_media local)) (s_media offer) = s_media local)
  end.

(** What [local] becomes as an answer: the id of its origin may be that of an
    earlier description. *)
Definition answer_of (local answer : sdp_session) : Prop :=
  answer = local <| s_origin := s_origin local <| o_id := o_id (s_origin answer) |> |>.

(** A negotiation that succeeds.  Our offer keeps its lines, some disabled and
    at least one not; the answer keeps all but its lines. *)
Definition agreed_on_answer (offer answer local remote : sdp_session) : Prop :=
  local = with_media offer (s_media local) /\ remote = with_media answer (s_media remote) /\
  Forall2 media_kept (s_media offer) (s_media local) /\ Exists (fun m => m_port m <> 0) (s_media local).

(** The offer of the other side is valid and stays as it is; our answer has a
    line for each of its lines and the version after the last one. *)
Definition agreed_on_offer (agreed : option (sdp_session * sdp_session)) (offer answer local remote : sdp_session) : Prop :=
  pjmedia_sdp_validate offer = Some PJ_SUCCESS /\ remote = offer /\
  local = set_version (with_media answer (s_media local)) (version local) /\
  length (s_media local) = length (s_media offer) /\
  match agreed with Some (old, _) => version local = version (next_version old) | None => True end.

Definition negotiated (s : spec) (on : sdp_session -> sdp_session -> Prop) (status : Z) (s' : spec) : Prop :=
  sp_exchange s' = Idle /\
  if decide (status = PJ_SUCCESS)
  then exists local remote, sp_agreed s' = Some (local, remote) /\ on local remote
  else sp_agreed s' = sp_agreed s.

(** The result of each operation in each phase; a call out of place fails and
    changes nothing.  A cancelled offer of ours leaves a trace: the version of
    what was agreed moves on, so that the version of the offer is not used
    again. *)
Definition spec_step (s : spec) (op : neg_op) (status : Z) (s' : spec) : Prop :=
  let agreed := sp_agreed s in
  let gives st x := status = st /\ s' = mk_spec x agreed in
  match op, sp_exchange s with
  | OpModifyLocalOffer flags local, Idle =>
      pjmedia_sdp_validate local = Some status /\
      if decide (status = PJ_SUCCESS)
      then exists offer, s' = mk_spec (LocalOffered offer) agreed /\ offer_of flags agreed local offer
      else s' = s
  | OpSendLocalOffer, Idle =>
      match agreed with
      | Some (old, _) => gives PJ_SUCCESS (LocalOffered (next_version old))
      | None => gives PJMEDIA_SDPNEG_ENOACTIVE Idle
      end
  | OpSendLocalOffer, LocalOffered l => gives PJ_SUCCESS (LocalOffered l)
  | OpSetRemoteAnswer r, LocalOffered l => gives PJ_SUCCESS (RemoteAnswered l r)
  | OpSetRemoteOffer r, Idle => gives PJ_SUCCESS (RemoteOffered r)
  | OpSetLocalAnswer None, x => gives PJ_EINVAL x
  | OpSetLocalAnswer (Some l), (RemoteOffered r | LocalAnswered r _) =>
      exists l', answer_of l l' /\ gives PJ_SUCCESS (LocalAnswered r l')
  | OpSetLocalAnswer (Some l), RemoteAnswered _ r =>
      exists l', answer_of l l' /\ gives PJ_SUCCESS (RemoteAnswered l' r)
  | OpCancelOffer, LocalOffered _ =>
      status = PJ_SUCCESS /\
      s' = mk_spec Idle (match agreed with Some (old, r) => Some (next_version old, r) | None => None end)
  | OpCancelOffer, RemoteOffered _ => gives PJ_SUCCESS Idle
  | OpNegotiate asym, RemoteAnswered l r => negotiated s (agreed_on_answer l r) status s'
  | OpNegotiate asym, LocalAnswered r l => negotiated s (agreed_on_offer agreed r l) status s'
  | OpPreferRemote _, x | OpAnswerMultiple _, x => gives PJ_SUCCESS x
  | _, x => gives PJMEDIA_SDPNEG_EINSTATE x
  end.

(** Operations that have a result whatever the descriptions are.  The offer of
    [OpModifyLocalOffer] has to fit with the media that are added to it and
    the formats to be looked at; of a negotiation that takes place
    [negotiate_answer_complete] speaks. *)
Definition op_bounded (op : neg_op) (neg : pjmedia_sdp_neg) : Prop :=
  match op with
  | OpModifyLocalOffer _ local =>
      Forall (fun m => Forall (fun f => f <> []) (m_fmt m)) (s_media local) /\
      (length (s_media local) + from_option (fun old => length (s_media old)) 0 (active_local_sdp neg)
         <= PJMEDIA_MAX_SDP_MEDIA)%nat
  | OpNegotiate _ => state neg <> STATE_WAIT_NEGO
  | _ => True
  end.

(** Both kinds of negotiation give new active descriptions exactly when they
    succeed. *)
Lemma negotiate_active_spec neg remote asym status active :
  negotiate_active run_cb cbs neg remote asym = Some (status, active) ->
  (status = PJ_SUCCESS <-> is_Some active).
Proof.
  unfold negotiate_active. destruct (neg_local_sdp neg) as [local|].
  - destruct (has_remote_answer neg).
    + destruct (process_answer _ _ _ _ _) as [[[st act] rem]|]; ored; [|done].
      destruct (Z.eqb_spec st PJ_SUCCESS) as [->|Hst].
      * destruct act; ored; [|done]. intros [= <- <-]. split; [by eexists|done].
      * intros [= <- <-]. split; [done|by intros [? ?]].
    + destruct (create_answer _ _ _ _ _ _) as [[st ans]|]; ored; [|done].
      destruct (Z.eqb_spec st PJ_SUCCESS) as [->|Hst].
      * destruct ans as [ans|]; ored; [|done]. destruct (active_local_sdp neg) as [al|]; ored; [|destruct (initial_sdp neg); ored; [|done]];
        (intros [= <- <-]; split; [by eexists|done]).
      * intros [= <- <-]. split; [done|by intros [? ?]].
  - destruct (has_remote_answer neg); [intros [= <- <-]; split; [done|by intros [? ?]]|].
    destruct (pjmedia_sdp_validate remote) as [st|]; ored; [|done].
    intros [= <- <-]. split; [|by intros [? ?]]. destruct (Z.eqb_spec st PJ_SUCCESS); done.
Qed.

(** The answer loop adds a line for each line of the offer. *)
Lemma answer_loop_length prefer multiple initial oms : forall ims used status active ans ans' status' active',
  answer_loop run_cb cbs prefer multiple initial oms ims used status active ans = Some (ans', status', active') ->
  length ans' = (length ans + length oms)%nat.
Proof.
  induction oms as [|om oms IH]; intros ims used status active ans ans' status' active'; cbn [answer_loop].
  { intros [= <- _ _]. cbn. lia. }
  destruct (answer_search _ _ _ _ _ _ _ _ _ _ _) as [[[found ims1] st1]|]; ored; [|done].
  destruct (match found with Some _ => _ | None => _ end) as [am used1].
  destruct (Nat.ltb _ _); [|done]. intros ->%IH. rewrite length_app. cbn. lia.
Qed.

Lemma create_answer_shape prefer multiple local remote ans :
  create_answer run_cb cbs prefer multiple local remote = Some (PJ_SUCCESS, Some ans) ->
  pjmedia_sdp_validate remote = Some PJ_SUCCESS /\ ans = with_media local (s_media ans) /\
  length (s_media ans) = length (s_media remote).
Proof.
  unfold create_answer. destruct (pjmedia_sdp_validate remote) as [st|]; ored; [|done].
  destruct (Z.eqb_spec st PJ_SUCCESS) as [->|]; cbn [negb]; [|by intros [= ?]].
  destruct (answer_loop _ _ _ _ _ _ _ _ _ _ _) as [[[l st] act]|] eqn:E; ored; [|done].
  apply answer_loop_length in E. by intros [= _ <-].
Qed.

Lemma process_answer_shape offer answer asym active answer' :
  process_answer run_cb cbs offer answer asym = Some (PJ_SUCCESS, Some active, answer') ->
  agreed_on_answer offer answer active answer'.
Proof.
  intros H. pose proof H as H'. apply process_answer_active in H' as (l & [= <-] & _ & Hk & Hx).
  revert H. unfold process_answer.
  destruct (process_loop _ _ _ _ _ _ _ _ _ _) as [[[[st oms] ams] act]|]; ored; [|done].
  destruct (negb _); [by intros [= ?]|]. intros [= _ <- <-]. done.
Qed.

(** One operation: the invariant is kept, and the machine makes a step. *)
Definition op_ok (op : neg_op) (neg : pjmedia_sdp_neg) : Prop :=
  forall status neg', run_op op neg = Some (status, neg') ->
  neg_inv neg' /\ spec_step (spec_of neg) op status (spec_of neg').

(** The fields of a negotiator, state by state. *)
Ltac decompose_pending Hp :=
  repeat match type of Hp with
  | _ /\ _ => let H := fresh "Hq" in destruct Hp as [H Hp]; decompose_pending H
  | is_Some ?x => let y := fresh "sdp" in destruct Hp as [y ->]
  | ?x = _ => subst x
  end.

Ltac neg_split neg :=
  let Hp := fresh "Hp" in let Ha := fresh "Ha" in
  intros [Hp Ha]; destruct neg as [st prefer multiple has_ans was init tmp al ar nl nr];
  unfold op_ok; destruct st; cbn in Hp, Ha; [done|..];
  (destruct al as [al|], ar as [ar|];
   [|by destruct (proj1 Ha (mk_is_Some _ _ eq_refl))|by destruct (proj2 Ha (mk_is_Some _ _ eq_refl))|]);
  decompose_pending Hp; try destruct has_ans.

Ltac neg_inv_done := split; [split; cbn; [first [done | split_and!; (done || by eexists)]|done]|].

Lemma modify_ok flags local neg : neg_inv neg -> op_ok (OpModifyLocalOffer flags local) neg.
Proof.
  neg_split neg; intros status neg' H; try (injection H as <- <-; neg_inv_done; done).
  all: pose proof H as H'; cbn [run_op] in H; unfold pjmedia_sdp_neg_modify_local_offer2 in H; cbn [state] in H;
    change (negb (bool_decide (STATE_DONE = STATE_DONE))) with false in H; cbv iota in H;
    unfold spec_step; cbn [spec_of exchange_of state neg_local_sdp sp_exchange sp_agreed];
    destruct (pjmedia_sdp_validate local) as [st0|] eqn:Ev; cbn [mbind option_bind] in H; [|done];
    (destruct (decide (st0 = PJ_SUCCESS)) as [->|Hst];
     [|rewrite (proj2 (Z.eqb_neq _ _) Hst) in H; injection H as <- <-; neg_inv_done; split; [done|by rewrite decide_False]]).
  - unfold set_field in H. cbn [active_local_sdp] in H. change (negb (PJ_SUCCESS =? PJ_SUCCESS)) with false in H. cbv iota in H.
    destruct (if _ =? 0 then _ else _) as [media|]; cbn [mbind option_bind] in H; [|done].
    injection H as <- <-. cbn [run_op] in H'.
    apply modify_offer_aligned with (old := al) in H' as (new & Hn & _ & _ & Ho & Hadd & Hlen & Hf); [|reflexivity].
    neg_inv_done. split; [done|]. rewrite decide_True by done.
    cbn in Hn. injection Hn as <-. eexists. split; [reflexivity|]. done.
  - injection H as <- <-. neg_inv_done. split; [done|]. rewrite decide_True by done. by eexists.
Qed.

Lemma send_ok neg : neg_inv neg -> op_ok OpSendLocalOffer neg.
Proof.
  neg_split neg; intros status neg' H; try (destruct init); injection H as <- <-; neg_inv_done; done.
Qed.

Lemma remote_answer_ok remote neg : neg_inv neg -> op_ok (OpSetRemoteAnswer remote) neg.
Proof. neg_split neg; intros status neg' H; injection H as <- <-; neg_inv_done; done. Qed.

Lemma remote_offer_ok remote neg : neg_inv neg -> op_ok (OpSetRemoteOffer remote) neg.
Proof. neg_split neg; intros status neg' H; injection H as <- <-; neg_inv_done; done. Qed.

Lemma answer_of_same s : answer_of s s.
Proof. unfold answer_of. by destruct s as [[] ? ? ? ? ? ? ?]. Qed.

Lemma local_answer_ok local neg : neg_inv neg -> op_ok (OpSetLocalAnswer local) neg.
Proof.
  destruct local as [local|]; neg_split neg; intros status neg' H; cbn [run_op] in H;
    unfold pjmedia_sdp_neg_set_local_answer in H; try (destruct init as [init|]); injection H as <- <-; neg_inv_done;
    try done; try (destruct has_ans); try (eexists; split; [|done]; done).
  all: eexists; split; [apply answer_of_same|done].
Qed.

Lemma cancel_offer_ok neg : neg_inv neg -> op_ok OpCancelOffer neg.
Proof. neg_split neg; intros status neg' H; injection H as <- <-; neg_inv_done; done. Qed.

Lemma negotiate_ok asym neg : neg_inv neg -> op_ok (OpNegotiate asym) neg.
Proof.
  neg_split neg; intros status neg' H; try (injection H as <- <-; neg_inv_done; done).
  all: cbn [run_op] in H; unfold pjmedia_sdp_neg_negotiate, negotiate_active in H;
    cbn [state neg_remote_sdp neg_local_sdp has_remote_answer active_local_sdp initial_sdp
      prefer_remote_codec_order answer_with_multiple_codecs] in H;
    change (negb (bool_decide (STATE_WAIT_NEGO = STATE_WAIT_NEGO))) with false in H; cbv iota in H.
  all: match type of H with
    | context [process_answer run_cb cbs ?l ?r ?a] =>
        destruct (process_answer run_cb cbs l r a) as [[[st act] r']|] eqn:E
    | context [create_answer run_cb cbs ?p ?m ?l ?r] =>
        destruct (create_answer run_cb cbs p m l r) as [[st ans]|] eqn:E
    end; cbn [mbind option_bind] in H; [|done];
    (destruct (decide (st = PJ_SUCCESS)) as [->|Hst];
     [change (PJ_SUCCESS =? PJ_SUCCESS) with true in H; cbv iota in H
     |assert (Es : (st =? PJ_SUCCESS) = false) by (by apply Z.eqb_neq);
      rewrite Es in H; cbn [mbind option_bind] in H; rewrite ?Es in H; injection H as <- <-;
      neg_inv_done; split; [done|by rewrite decide_False]]).
  all: match type of E with
    | process_answer _ _ _ _ _ = _ =>
        destruct act as [act|]; cbn [mbind option_bind] in H; [|done]; apply process_answer_shape in E
    | create_answer _ _ _ _ _ _ = _ =>
        destruct ans as [ans|]; cbn [mbind option_bind] in H; [|done];
        apply create_answer_shape in E as (Hv & Hs & Hl);
        try (destruct init as [init|]; cbn [mbind option_bind] in H; [|done])
    end; change (negb (PJ_SUCCESS =? PJ_SUCCESS)) with false in H; cbv iota in H; injection H as <- <-;
    (split; [split; [done|split; intros _; by eexists]|]);
    (split; [done|]; rewrite decide_True by done; eexists _, _; split; [reflexivity|]).
  all: try exact E.
  all: unfold agreed_on_offer; split_and!; [done|done|by rewrite Hs at 1|exact Hl|done].
Qed.

Lemma prefer_ok v neg : neg_inv neg -> op_ok (OpPreferRemote v) neg.
Proof. neg_split neg; intros status neg' H; injection H as <- <-; neg_inv_done; done. Qed.

Lemma multiple_ok v neg : neg_inv neg -> op_ok (OpAnswerMultiple v) neg.
Proof. neg_split neg; intros status neg' H; injection H as <- <-; neg_inv_done; done. Qed.

Lemma run_op_ok op neg : neg_inv neg -> op_ok op neg.
Proof.
  intros Hi. destruct op; [by apply modify_ok|by apply send_ok|by apply remote_answer_ok|
    by apply remote_offer_ok|by apply local_answer_ok|by apply cancel_offer_ok|by apply negotiate_ok|
    by apply prefer_ok|by apply multiple_ok].
Qed.

(** ** Operations with a result *)

Lemma fix_media_some local olds : forall oi news,
  (oi <= length news)%nat -> (length news + length olds <= PJMEDIA_MAX_SDP_MEDIA)%nat ->
  is_Some (fix_media local olds oi news).
Proof.
  induction olds as [|om olds IH]; intros oi news Hoi Hl; cbn [fix_media length] in *; [by eexists|].
  pose proof (find_media_spec (m_media om) (drop oi news) oi) as Hf.
  destruct (find_media _ _ _) as [[ni nm]|].
  - destruct Hf as (Hni & Hnm & _). rewrite lookup_drop in Hnm.
    replace (oi + (ni - oi))%nat with ni in Hnm by lia. assert (Hlt := lookup_lt_Some _ _ _ Hnm).
    destruct (array_insert_move news ni oi nm Hnm Hni) as (H1 & _). apply Permutation_length in H1.
    destruct (Nat.eqb_spec ni oi); apply IH; lia.
  - unfold insert_media. destruct (Nat.ltb_spec (length news) PJMEDIA_MAX_SDP_MEDIA); [|lia]. ored.
    destruct (array_insert_end news oi (sdp_media_clone_deactivate om (Some om) (Some local)) Hoi) as (H1 & _).
    apply Permutation_length in H1. rewrite length_app in H1. cbn in H1. apply IH; lia.
Qed.

Lemma append_media_some local olds : forall oi news,
  (oi <= length news)%nat -> (length news + length olds <= PJMEDIA_MAX_SDP_MEDIA)%nat ->
  is_Some (append_media local olds oi news).
Proof.
  induction olds as [|om olds IH]; intros oi news Hoi Hl; cbn [append_media length] in *; [by eexists|].
  unfold insert_media. destruct (Nat.ltb_spec (length news) PJMEDIA_MAX_SDP_MEDIA); [|lia]. ored.
  destruct (array_insert_end news oi (sdp_media_clone_deactivate om (Some om) (Some local)) Hoi) as (H1 & _).
  apply Permutation_length in H1. rewrite length_app in H1. cbn in H1. apply IH; lia.
Qed.

Lemma validate_fmt_some m f : f <> [] -> is_Some (validate_fmt m f).
Proof.
  intros Hf. unfold validate_fmt. destruct f as [|c f]; [done|]. change (char0 (c :: f)) with (Some c). ored.
  destruct (pj_isdigit c); [|by eexists]. destruct (pj_strtoul3 (c :: f)) as [st pt].
  destruct (negb (_ && _)); [by eexists|]. destruct (_ && _); [|by eexists]. by destruct (pjmedia_sdp_attr_find _ _ _); eexists.
Qed.

Lemma validate_fmts_some m fs : Forall (fun f => f <> []) fs -> is_Some (validate_fmts m fs).
Proof.
  induction 1 as [|f fs Hf _ IH]; cbn [validate_fmts]; [by eexists|].
  destruct (validate_fmt_some m f Hf) as [st ->]. ored. destruct (st =? PJ_SUCCESS); [exact IH|by eexists].
Qed.

Lemma validate_some sdp :
  Forall (fun m => Forall (fun f => f <> []) (m_fmt m)) (s_media sdp) -> is_Some (pjmedia_sdp_validate sdp).
Proof.
  intros Hm. unfold pjmedia_sdp_validate, pjmedia_sdp_validate2.
  repeat (case_match; [by eexists|]). clear -Hm.
  induction Hm as [|m ms Hf Hm IH]; cbn [validate_medias]; [by eexists|].
  assert (H : is_Some (validate_media (s_conn sdp) true m)).
  { unfold validate_media. repeat (case_match; [by eexists|]). by apply validate_fmts_some. }
  destruct H as [st ->]. ored. destruct (st =? PJ_SUCCESS); [exact IH|by eexists].
Qed.

Lemma op_bounded_ok op neg : op_bounded op neg -> is_Some (run_op op neg).
Proof.
  destruct op as [flags local| |r|r|l| |asym|b|b]; cbn [op_bounded run_op]; try by eexists.
  - intros [Hv Hl]. unfold pjmedia_sdp_neg_modify_local_offer2. destruct (negb _); [by eexists|].
    destruct (validate_some local Hv) as [st ->]. ored. destruct (negb _); [by eexists|].
    unfold set_field at 1. cbn [active_local_sdp]. destruct (active_local_sdp neg) as [old|]; [|by eexists].
    cbn [from_option] in Hl.
    destruct (if _ =? 0 then _ else _) as [media|] eqn:E; ored; [by eexists|]. exfalso.
    destruct (Z.land flags _ =? 0).
    + destruct (fix_media_some local (s_media old) 0 (s_media local)) as [? E']; [lia..|congruence].
    + destruct (append_media_some local (drop (length (s_media local)) (s_media old)) (length (s_media local)) (s_media local))
        as [? E']; [lia|rewrite length_drop; lia|congruence].
  - intros _. destruct (pjmedia_sdp_neg_send_local_offer neg) as [[? ?] ?]. by eexists.
  - intros H. unfold pjmedia_sdp_neg_negotiate. rewrite bool_decide_eq_false_2 by done. by eexists.
Qed.

(** C30: Every negotiator the operations lead to has, in each state, what the next
    operations need, and active descriptions for both sides or for none. *)
Theorem neg_reachable_inv neg : reach neg_step neg_init neg -> neg_inv neg.
Proof.
  apply reach_invariant; [apply init_inv|]. intros s s' Hi (op & status & H).
  by destruct (run_op_ok op s Hi status s' H).
Qed.


(** ** Answering *)

(** The version our next description follows. *)
Definition last_version (neg : pjmedia_sdp_neg) : option Z :=
  match active_local_sdp neg with Some s => Some (version s) | None => version <$> initial_sdp neg end.

(** C19: negotiating the answer to a remote offer in the default configuration
    (the order of the remote codecs, one codec per media): with our media sane
    and an offer that passes [pjmedia_sdp_validate] and fits its arrays there
    is always an outcome, so that nothing undefined is read. On success the
    answer becomes active with the next version, media by media what was
    offered; on failure the active descriptions stay. In the other
    configurations formats that were never written can be read
    ([duplicate_format_not_found]). *)
Theorem negotiate_answer_complete neg asym local remote :
  cb_ok run_cb -> neg_inv neg -> state neg = STATE_WAIT_NEGO -> has_remote_answer neg = false ->
  prefer_remote_codec_order neg = true -> answer_with_multiple_codecs neg = false ->
  neg_local_sdp neg = Some local -> neg_remote_sdp neg = Some remote ->
  pjmedia_sdp_validate remote = Some PJ_SUCCESS ->
  (length (s_media remote) <= PJMEDIA_MAX_SDP_MEDIA)%nat ->
  Forall (fun m => (length (m_fmt m) <= PJMEDIA_MAX_SDP_FMT)%nat) (s_media remote) ->
  (length (s_media local) <= PJMEDIA_MAX_SDP_MEDIA)%nat -> Forall media_wf (s_media local) ->
  exists status neg' v, pjmedia_sdp_neg_negotiate run_cb cbs neg asym = Some (status, neg') /\
    last_version neg = Some v /\
    (if decide (status = PJ_SUCCESS)
     then exists ans, active_local_sdp neg' = Some ans /\ active_remote_sdp neg' = Some remote /\
            version ans = u32 (v + 1) /\ Forall2 answers (s_media remote) (s_media ans)
     else active_local_sdp neg' = active_local_sdp neg /\
          active_remote_sdp neg' = active_remote_sdp neg).
Proof.
  intros Hcb [Hp _] Hst Hhas Hpref Hmult Hl Hr Hv H1 H2 H3 H4.
  unfold pending_ok in Hp. rewrite Hst in Hp. destruct Hp as (_ & _ & Hinit).
  destruct (Hinit Hhas) as [initial Hin].
  unfold pjmedia_sdp_neg_negotiate. rewrite bool_decide_eq_true_2 by done. cbn [negb].
  rewrite Hr. unfold negotiate_active. rewrite Hl, Hhas, Hpref, Hmult.
  destruct (create_answer_complete run_cb cbs Hcb local remote Hv H1 H2 H3 H4) as
    (status & ans & -> & _ & Hans & _). ored.
  assert (Hlv : exists v, last_version neg = Some v /\
    (match active_local_sdp neg with
     | Some active => Some (version active)
     | None => initial ← initial_sdp neg; Some (version initial)
     end) = Some v).
  { unfold last_version. destruct (active_local_sdp neg); [by eexists|]. rewrite Hin. by eexists. }
  destruct Hlv as (v & Hlv & Hver).
  destruct (Z.eqb_spec status PJ_SUCCESS) as [->|Hs].
  - rewrite Hver. ored. eexists _, _, v. split; [done|]. split; [done|].
    rewrite decide_True by done. eexists. split; [done|]. split; [done|]. split; [done|]. exact Hans.
  - ored. eexists _, _, v. split; [done|]. split; [done|]. rewrite decide_False by done.
    rewrite (proj2 (Z.eqb_neq status PJ_SUCCESS) Hs). done.
Qed.

(** ** Versions *)

Definition makes_offer (op : neg_op) : Prop :=
  match op with OpModifyLocalOffer _ _ | OpSendLocalOffer => True | _ => False end.

(** An offer made from an active session, and the session afterwards. *)
Lemma offer_version op neg neg' old :
  makes_offer op -> state neg = STATE_DONE -> active_local_sdp neg = Some old ->
  run_op op neg = Some (PJ_SUCCESS, neg') ->
  state neg' = STATE_LOCAL_OFFER /\ active_local_sdp neg' = Some old /\
  version <$> neg_local_sdp neg' = Some (u32 (version old + 1)).
Proof.
  intros Hop Hst Hact. destruct op; try done; cbn [run_op].
  - unfold pjmedia_sdp_neg_modify_local_offer2. rewrite bool_decide_eq_true_2 by done. cbn [negb].
    destruct (pjmedia_sdp_validate local) as [st|]; ored; [|done].
    destruct (negb _) eqn:E; [intros [= -> _]; done|]. unfold set_field. cbn [active_local_sdp].
    rewrite Hact. destruct (if _ =? 0 then _ else _) as [media|]; ored; [|done]. by intros [= <-].
  - unfold pjmedia_sdp_neg_send_local_offer. rewrite bool_decide_eq_true_2 by done. cbn [negb orb].
    rewrite Hact. by destruct (initial_sdp neg); intros [= <-].
Qed.

(** The version of an offer that was cancelled is not used again: the next
    offer's is one more. *)
Theorem cancelled_version_not_reused op1 op2 neg neg1 neg2 neg3 status old :
  makes_offer op1 -> makes_offer op2 ->
  state neg = STATE_DONE -> active_local_sdp neg = Some old ->
  run_op op1 neg = Some (PJ_SUCCESS, neg1) -> run_op OpCancelOffer neg1 = Some (status, neg2) ->
  run_op op2 neg2 = Some (PJ_SUCCESS, neg3) ->
  version <$> neg_local_sdp neg1 = Some (u32 (version old + 1)) /\
  version <$> neg_local_sdp neg3 = Some (u32 (version old + 2)).
Proof.
  intros Hop1 Hop2 Hst Hact H1 H2 H3.
  destruct (offer_version op1 neg neg1 old Hop1 Hst Hact H1) as (Hst1 & Hact1 & Hv1).
  split; [done|]. revert H2. cbn [run_op]. unfold pjmedia_sdp_neg_cancel_offer.
  rewrite Hst1, Hact1. cbn. intros [= <- <-].
  apply offer_version with (old := set_version old (u32 (version old + 1))) in H3 as (_ & _ & ->); [|done..].
  f_equal. unfold version, set_version, set_field. cbn. unfold u32.
  rewrite Zplus_mod_idemp_l. f_equal. lia.
Qed.
End run.
