(* ===== verification/SdpCmp.v ===== *)
(** * Comparing SDP descriptions ([pjmedia/sdp_cmp.c])

    The comparison of connections, attributes, media and sessions, and what
    its success means. *)

From Stdlib Require Import String.
From S2P Require Import Prelude Hash PjString Sdp.
Local Open Scope Z_scope.

(** ** The code *)

Definition compare_conn (c1 c2 : sdp_conn) : Z :=
  if negb (pj_strcmp (c_net_type c1) (c_net_type c2) =? 0) then PJMEDIA_SDP_ECONNNOTEQUAL
  else if negb (pj_strcmp (c_addr_type c1) (c_addr_type c2) =? 0) then PJMEDIA_SDP_ECONNNOTEQUAL
  else if negb (pj_strcmp (c_addr c1) (c_addr c2) =? 0) then PJMEDIA_SDP_ECONNNOTEQUAL
  else PJ_SUCCESS.

Definition is_direction (name : list Z) : bool :=
  str_is name "inactive" || str_is name "sendrecv" || str_is name "sendonly"
  || str_is name "recvonly".

Definition compare_fmtp (a1 : sdp_attr) (attr2 : list sdp_attr) : Z :=
  match pjmedia_sdp_attr_get_fmtp a1 with
  | (_, None) => PJMEDIA_SDP_EFMTPNOTEQUAL
  | (_, Some fmtp1) =>
  match pjmedia_sdp_attr_find attr2 (a_name a1) (Some (f_fmt fmtp1)) with
  | None => PJMEDIA_SDP_EFMTPNOTEQUAL
  | Some (_, a2) =>
  match pjmedia_sdp_attr_get_fmtp a2 with
  | (_, None) => PJMEDIA_SDP_EFMTPNOTEQUAL
  | (_, Some fmtp2) =>
      if negb (pj_strcmp (f_fmt_param fmtp1) (f_fmt_param fmtp2) =? 0)
      then PJMEDIA_SDP_EFMTPNOTEQUAL else PJ_SUCCESS
  end end end.

(** The structure is read only when the status is [PJ_SUCCESS]. *)
Definition read_rtpmap (a : sdp_attr) : option sdp_rtpmap :=
  let '(status, r) := pjmedia_sdp_attr_get_rtpmap a in
  if status =? PJ_SUCCESS then r else None.

Definition compare_rtpmap (a1 : sdp_attr) (attr2 : list sdp_attr) : Z :=
  match read_rtpmap a1 with
  | None => PJMEDIA_SDP_ERTPMAPNOTEQUAL
  | Some r1 =>
  match pjmedia_sdp_attr_find attr2 (a_name a1) (Some (r_pt r1)) with
  | None => PJMEDIA_SDP_ERTPMAPNOTEQUAL
  | Some (_, a2) =>
  match read_rtpmap a2 with
  | None => PJMEDIA_SDP_ERTPMAPNOTEQUAL
  | Some r2 =>
      if negb (pj_strcmp (r_pt r1) (r_pt r2) =? 0) then PJMEDIA_SDP_ERTPMAPNOTEQUAL
      else if negb (pj_strcmp (r_enc_name r1) (r_enc_name r2) =? 0) then PJMEDIA_SDP_ERTPMAPNOTEQUAL
      else if negb (r_clock_rate r1 =? r_clock_rate r2) then PJMEDIA_SDP_ERTPMAPNOTEQUAL
      else if negb (pj_strcmp (r_param r1) (r_param r2) =? 0) then PJMEDIA_SDP_ERTPMAPNOTEQUAL
      else PJ_SUCCESS
  end end end.

(** One attribute against the attributes of the other description. *)
Definition compare_one_attr (a1 : sdp_attr) (attr2 : list sdp_attr) : Z :=
  if is_direction (a_name a1) then
    match pjmedia_sdp_attr_find attr2 (a_name a1) None with
    | None => PJMEDIA_SDP_EDIRNOTEQUAL
    | Some _ => PJ_SUCCESS
    end
  else if str_is (a_name a1) "fmtp" then compare_fmtp a1 attr2
  else if str_is (a_name a1) "rtpmap" then compare_rtpmap a1 attr2
  else PJ_SUCCESS.

Fixpoint compare_attr_imp (attr1 attr2 : list sdp_attr) : Z :=
  match attr1 with
  | [] => PJ_SUCCESS
  | a1 :: attr1 =>
      let status := compare_one_attr a1 attr2 in
      if status =? PJ_SUCCESS then compare_attr_imp attr1 attr2 else status
  end.

Definition compare_attr (attr1 attr2 : list sdp_attr) : Z :=
  let status := compare_attr_imp attr1 attr2 in
  if negb (status =? PJ_SUCCESS) then status
  else
    let status := compare_attr_imp attr2 attr1 in
    if negb (status =? PJ_SUCCESS) then status else PJ_SUCCESS.

Fixpoint compare_fmts (fmt1 fmt2 : list (list Z)) : Z :=
  match fmt1, fmt2 with
  | f1 :: fmt1, f2 :: fmt2 =>
      if negb (pj_strcmp f1 f2 =? 0) then PJMEDIA_SDP_EFORMATNOTEQUAL else compare_fmts fmt1 fmt2
  | _, _ => PJ_SUCCESS
  end.

(** The status of [compare_conn] is overwritten by that of [compare_attr]. *)
Definition pjmedia_sdp_media_cmp (sd1 sd2 : sdp_media) : Z :=
  if negb (pj_strcmp (m_media sd1) (m_media sd2) =? 0) then PJMEDIA_SDP_EMEDIANOTEQUAL
  else if negb (m_port sd1 =? m_port sd2) then PJMEDIA_SDP_EPORTNOTEQUAL
  else if negb (m_port_count sd1 =? m_port_count sd2) then PJMEDIA_SDP_EPORTNOTEQUAL
  else if negb (pj_strcmp (m_transport sd1) (m_transport sd2) =? 0) then PJMEDIA_SDP_ETPORTNOTEQUAL
  else if m_port sd1 =? 0 then PJ_SUCCESS
  else if negb (Nat.eqb (length (m_fmt sd1)) (length (m_fmt sd2))) then PJMEDIA_SDP_EFORMATNOTEQUAL
  else
    let status := compare_fmts (m_fmt sd1) (m_fmt sd2) in
    if negb (status =? PJ_SUCCESS) then status
    else
      match m_conn sd1, m_conn sd2 with
      | Some _, None => PJMEDIA_SDP_EMEDIANOTEQUAL
      | None, Some _ => PJMEDIA_SDP_EMEDIANOTEQUAL
      | Some c1, Some c2 =>
          let status := compare_conn c1 c2 in
          let status := compare_attr (m_attr sd1) (m_attr sd2) in
          if negb (status =? PJ_SUCCESS) then status else PJ_SUCCESS
      | None, None =>
          let status := compare_attr (m_attr sd1) (m_attr sd2) in
          if negb (status =? PJ_SUCCESS) then status else PJ_SUCCESS
      end.

Fixpoint compare_medias (ms1 ms2 : list sdp_media) : Z :=
  match ms1, ms2 with
  | m1 :: ms1, m2 :: ms2 =>
      let status := pjmedia_sdp_media_cmp m1 m2 in
      if negb (status =? PJ_SUCCESS) then status else compare_medias ms1 ms2
  | _, _ => PJ_SUCCESS
  end.

Definition compare_session_conn (c1 c2 : option sdp_conn) : Z :=
  match c1, c2 with
  | Some c1, Some c2 => compare_conn c1 c2
  | None, None => PJ_SUCCESS
  | _, _ => PJMEDIA_SDP_ECONNNOTEQUAL
  end.

Definition pjmedia_sdp_session_cmp (sd1 sd2 : sdp_session) : Z :=
  let o1 := s_origin sd1 in
  let o2 := s_origin sd2 in
  if negb (pj_strcmp (o_user o1) (o_user o2) =? 0) then PJMEDIA_SDP_EORIGINNOTEQUAL
  else if negb (o_id o1 =? o_id o2) then PJMEDIA_SDP_EORIGINNOTEQUAL
  else if negb (o_version o1 =? o_version o2) then PJMEDIA_SDP_EORIGINNOTEQUAL
  else if negb (pj_strcmp (o_net_type o1) (o_net_type o2) =? 0) then PJMEDIA_SDP_EORIGINNOTEQUAL
  else if negb (pj_strcmp (o_addr_type o1) (o_addr_type o2) =? 0) then PJMEDIA_SDP_EORIGINNOTEQUAL
  else if negb (pj_strcmp (o_addr o1) (o_addr o2) =? 0) then PJMEDIA_SDP_EORIGINNOTEQUAL
  else if negb (pj_strcmp (s_name sd1) (s_name sd2) =? 0) then PJMEDIA_SDP_ENAMENOTEQUAL
  else
    let status := compare_session_conn (s_conn sd1) (s_conn sd2) in
    if negb (status =? PJ_SUCCESS) then status
    else if negb (s_start sd1 =? s_start sd2) then PJMEDIA_SDP_ETIMENOTEQUAL
    else if negb (s_stop sd1 =? s_stop sd2) then PJMEDIA_SDP_ETIMENOTEQUAL
    else
      let status := compare_attr (s_attr sd1) (s_attr sd2) in
      if negb (status =? PJ_SUCCESS) then status
      else if negb (Nat.eqb (length (s_media sd1)) (length (s_media sd2)))
      then PJMEDIA_SDP_EMEDIANOTEQUAL
      else compare_medias (s_media sd1) (s_media sd2).

Definition pjmedia_sdp_conn_cmp (conn1 conn2 : sdp_conn) : Z := compare_conn conn1 conn2.

(** ** What success means *)

(** Both sides have the attribute, as far as the comparison looks. *)
Definition attrs_equal (l1 l2 : list sdp_attr) : Prop :=
  Forall (fun a => compare_one_attr a l2 = PJ_SUCCESS) l1 /\
  Forall (fun a => compare_one_attr a l1 = PJ_SUCCESS) l2.

Definition media_equal (m1 m2 : sdp_media) : Prop :=
  m_media m1 = m_media m2 /\ m_port m1 = m_port m2 /\ m_port_count m1 = m_port_count m2 /\
  m_transport m1 = m_transport m2 /\
  (m_port m1 <> 0 -> m_fmt m1 = m_fmt m2 /\ (is_Some (m_conn m1) <-> is_Some (m_conn m2)) /\
     attrs_equal (m_attr m1) (m_attr m2)).

Definition session_equal (s1 s2 : sdp_session) : Prop :=
  s_origin s1 = s_origin s2 /\ s_name s1 = s_name s2 /\ s_conn s1 = s_conn s2 /\
  s_start s1 = s_start s2 /\ s_stop s1 = s_stop s2 /\
  attrs_equal (s_attr s1) (s_attr s2) /\ Forall2 media_equal (s_media s1) (s_media s2).

(** A check that returns an error, followed by the rest. *)
Lemma check_iff (b : bool) e rest (P Q : Prop) :
  e <> PJ_SUCCESS -> (b = true <-> P) -> (rest = PJ_SUCCESS <-> Q) ->
  (if negb b then e else rest) = PJ_SUCCESS <-> P /\ Q.
Proof. intros He Hb Hr. destruct b; cbn; [|by split; [|intros [[=]%Hb _]]]. rewrite Hr. tauto. Qed.

Lemma check_status st rest (P Q : Prop) :
  (st = PJ_SUCCESS <-> P) -> (rest = PJ_SUCCESS <-> Q) ->
  (if negb (st =? PJ_SUCCESS) then st else rest) = PJ_SUCCESS <-> P /\ Q.
Proof.
  intros Hp Hq. destruct (Z.eqb_spec st PJ_SUCCESS) as [E|E]; cbn [negb]; [rewrite Hq; tauto|].
  split; [done|]. intros [H%Hp _]. done.
Qed.

Lemma strcmp_iff a b : (pj_strcmp a b =? 0) = true <-> a = b.
Proof. rewrite Z.eqb_eq. apply strcmp_0. Qed.

Lemma compare_conn_spec c1 c2 : compare_conn c1 c2 = PJ_SUCCESS <-> c1 = c2.
Proof.
  unfold compare_conn. transitivity (c_net_type c1 = c_net_type c2 /\
    c_addr_type c1 = c_addr_type c2 /\ c_addr c1 = c_addr c2 /\ True).
  - do 3 (apply check_iff; [done|apply strcmp_iff|]). done.
  - destruct c1, c2; cbn. split; [by intros (-> & -> & -> & _)|by intros [= -> -> ->]].
Qed.

Lemma compare_attr_imp_spec l1 l2 :
  compare_attr_imp l1 l2 = PJ_SUCCESS <-> Forall (fun a => compare_one_attr a l2 = PJ_SUCCESS) l1.
Proof.
  induction l1 as [|a l1 IH]; cbn [compare_attr_imp]; [by split; [constructor|]|].
  rewrite Forall_cons. destruct (Z.eqb_spec (compare_one_attr a l2) PJ_SUCCESS) as [E|E].
  - rewrite IH. tauto.
  - by split; [|intros [? _]].
Qed.

Lemma compare_attr_spec l1 l2 : compare_attr l1 l2 = PJ_SUCCESS <-> attrs_equal l1 l2.
Proof.
  unfold compare_attr, attrs_equal. rewrite <- !compare_attr_imp_spec.
  rewrite check_status; [reflexivity|reflexivity|].
  destruct (Z.eqb_spec (compare_attr_imp l2 l1) PJ_SUCCESS) as [E|E]; cbn [negb]; [|done]. by rewrite E.
Qed.

Lemma compare_fmts_spec l1 l2 :
  length l1 = length l2 -> compare_fmts l1 l2 = PJ_SUCCESS <-> l1 = l2.
Proof.
  revert l2. induction l1 as [|f1 l1 IH]; intros [|f2 l2] Hl; cbn [compare_fmts length] in *; try done.
  rewrite check_iff; [|done|apply strcmp_iff|apply IH; lia].
  split; [by intros [-> ->]|by intros [= -> ->]].
Qed.

Lemma media_cmp_spec m1 m2 : pjmedia_sdp_media_cmp m1 m2 = PJ_SUCCESS <-> media_equal m1 m2.
Proof.
  unfold pjmedia_sdp_media_cmp, media_equal.
  apply check_iff; [done|apply strcmp_iff|]. apply check_iff; [done|apply Z.eqb_eq|].
  apply check_iff; [done|apply Z.eqb_eq|]. apply check_iff; [done|apply strcmp_iff|].
  destruct (Z.eqb_spec (m_port m1) 0) as [E|E]; [done|].
  assert (Hl : m_fmt m1 = m_fmt m2 -> Nat.eqb (length (m_fmt m1)) (length (m_fmt m2)) = true)
    by (intros ->; apply Nat.eqb_refl).
  assert (Hatt : (if negb (compare_attr (m_attr m1) (m_attr m2) =? PJ_SUCCESS)
      then compare_attr (m_attr m1) (m_attr m2) else PJ_SUCCESS) = PJ_SUCCESS <->
      attrs_equal (m_attr m1) (m_attr m2)).
  { rewrite check_status; [|apply compare_attr_spec|reflexivity]. tauto. }
  destruct (Nat.eqb_spec (length (m_fmt m1)) (length (m_fmt m2))) as [El|El]; cbn [negb];
    [|split; [done|intros H; destruct (H E) as [Hf _]; by specialize (Hl Hf)]].
  rewrite check_status; [|by apply compare_fmts_spec|reflexivity].
  destruct (m_conn m1) as [c1|], (m_conn m2) as [c2|]; cbv zeta; rewrite ?Hatt.
  - split; [intros [H1 H2] _; split; [done|split; [by split; intros; eexists|done]]|].
    intros H. destruct (H E) as (? & _ & ?). done.
  - split; [by intros [_ ?]|]. intros H. destruct (H E) as (_ & [Hc _] & _).
    by destruct (Hc (ex_intro _ c1 eq_refl)).
  - split; [by intros [_ ?]|]. intros H. destruct (H E) as (_ & [_ Hc] & _).
    by destruct (Hc (ex_intro _ c2 eq_refl)).
  - split; [intros [H1 H2] _; split; [done|split; [done|done]]|].
    intros H. destruct (H E) as (? & _ & ?). done.
Qed.

Lemma compare_medias_spec l1 l2 :
  length l1 = length l2 -> compare_medias l1 l2 = PJ_SUCCESS <-> Forall2 media_equal l1 l2.
Proof.
  revert l2. induction l1 as [|m1 l1 IH]; intros [|m2 l2] Hl; cbn [compare_medias length] in *; try done.
  rewrite check_status; [|apply media_cmp_spec|apply IH; lia]. by rewrite Forall2_cons.
Qed.

Lemma session_conn_spec c1 c2 : compare_session_conn c1 c2 = PJ_SUCCESS <-> c1 = c2.
Proof.
  destruct c1 as [c1|], c2 as [c2|]; cbn; try done. rewrite compare_conn_spec. split; [by intros ->|by intros [=]].
Qed.

(** Comparing two sessions succeeds exactly when they have the same origin,
    subject, connection and times, equal attributes, and media that are equal
    one by one; for a media that is its line and, unless it is disabled, its
    formats in order, its attributes, and whether it has a connection. *)
Theorem session_cmp_spec s1 s2 :
  pjmedia_sdp_session_cmp s1 s2 = PJ_SUCCESS <-> session_equal s1 s2.
Proof.
  unfold pjmedia_sdp_session_cmp, session_equal.
  set (o1 := s_origin s1). set (o2 := s_origin s2).
  transitivity (o_user o1 = o_user o2 /\ o_id o1 = o_id o2 /\ o_version o1 = o_version o2 /\
    o_net_type o1 = o_net_type o2 /\ o_addr_type o1 = o_addr_type o2 /\ o_addr o1 = o_addr o2 /\
    s_name s1 = s_name s2 /\ s_conn s1 = s_conn s2 /\ s_start s1 = s_start s2 /\
    s_stop s1 = s_stop s2 /\ attrs_equal (s_attr s1) (s_attr s2) /\
    Forall2 media_equal (s_media s1) (s_media s2)).
  - repeat first
      [ apply check_iff; [done|first [apply strcmp_iff|apply Z.eqb_eq]|]
      | apply check_status; [first [apply session_conn_spec|apply compare_attr_spec]|] ].
    destruct (Nat.eqb_spec (length (s_media s1)) (length (s_media s2))) as [E|E]; cbn [negb];
      [by apply compare_medias_spec|]. split; [done|]. by intros H%Forall2_length.
  - split; [intros (H1 & H2 & H3 & H4 & H5 & H6 & H)|intros (H & ?)]; (split; [|done]) || idtac.
    + clearbody o1 o2. destruct o1, o2; cbn in *; congruence.
    + rewrite H. done.
Qed.

(** Equal sessions are equal both ways. *)
Lemma attrs_equal_sym l1 l2 : attrs_equal l1 l2 -> attrs_equal l2 l1.
Proof. intros [H1 H2]. by split. Qed.

Lemma media_equal_sym m1 m2 : media_equal m1 m2 -> media_equal m2 m1.
Proof.
  intros (H1 & H2 & H3 & H4 & H5). split; [done|]. split; [done|]. split; [done|]. split; [done|].
  rewrite <- H2. intros Hp. destruct (H5 Hp) as (H6 & H7 & H8). split; [done|]. split; [by symmetry|].
  by apply attrs_equal_sym.
Qed.

(** The comparison does not depend on the order of its arguments. *)
Theorem session_cmp_sym s1 s2 :
  pjmedia_sdp_session_cmp s1 s2 = PJ_SUCCESS -> pjmedia_sdp_session_cmp s2 s1 = PJ_SUCCESS.
Proof.
  rewrite !session_cmp_spec. intros (H1 & H2 & H3 & H4 & H5 & H6 & H7).
  split; [done|]. split; [done|]. split; [done|]. split; [done|]. split; [done|].
  split; [by apply attrs_equal_sym|]. apply Forall2_flip. eapply Forall2_impl; [exact H7|].
  intros m1 m2. apply media_equal_sym.
Qed.

(** Two media that differ only in the address of their connections compare
    equal. *)
Theorem media_cmp_ignores_conn m c1 c2 m2 :
  pjmedia_sdp_media_cmp (m <| m_conn := Some c1 |>) m2 =
  pjmedia_sdp_media_cmp (m <| m_conn := Some c2 |>) m2.
Proof. reflexivity. Qed.
