(* ===== verification/SdpDemo.v ===== *)
(** * SDP offer/answer: witnesses

    Concrete descriptions on which the theorems about offers and answers
    apply, and on which the code does what it should not. *)

From Stdlib Require Import String.
From S2P Require Import Prelude Hash PjString Sdp SdpNeg SdpAnswer SdpOffer SdpNego SdpNegoRun SdpCmp.
Local Open Scope Z_scope.

(** ** Descriptions *)

Definition demo_conn : sdp_conn := mk_conn (lit "IN") (lit "IP4") (lit "10.0.0.1").

Definition attr (name value : string) : sdp_attr := mk_attr (lit name) (lit value).

Definition demo_media (media : string) (port : Z) (fmts : list string) (attrs : list sdp_attr)
    : sdp_media :=
  mk_media (lit media) port 1 (lit "RTP/AVP") (lit <$> fmts) None [] attrs.

Definition demo_session (ver : Z) (ms : list sdp_media) : sdp_session :=
  mk_session (mk_origin (lit "-") 7 ver (lit "IN") (lit "IP4") (lit "10.0.0.1")) (lit "-")
    (Some demo_conn) [] 0 0 [] ms.

(** Our audio: PCMU, PCMA, Opus and telephone events. *)
Definition demo_audio : sdp_media :=
  demo_media "audio" 5000 ["8"; "0"; "100"; "101"]%string
    [attr "rtpmap" "100 opus/48000/2"; attr "rtpmap" "101 telephone-event/8000"; attr "sendrecv" ""].

(** Theirs, with other dynamic payload types, sending only. *)
Definition demo_offered : sdp_media :=
  demo_media "audio" 4000 ["0"; "8"; "96"; "97"]%string
    [attr "rtpmap" "96 opus/48000/2"; attr "rtpmap" "97 telephone-event/8000"; attr "sendonly" ""].

Definition demo_local : sdp_session := demo_session 1 [demo_audio].
Definition demo_remote : sdp_session := demo_session 3 [demo_offered].

(** A callback for Opus that agrees and changes nothing. *)
Definition demo_cb : fmt_match_fn := fun _ _ _ answer _ _ => (PJ_SUCCESS, m_attr answer).
Definition demo_cbs : list fmt_match_cb_t := [mk_cb (lit "opus") 0].

Lemma demo_cb_keeps : cb_keeps demo_cb.
Proof. done. Qed.

Lemma demo_cb_ok : cb_ok demo_cb.
Proof.
  intros fn offer i answer j Hwf.
  change (let a := answer <| m_attr := m_attr answer |> in
          media_wf a /\ forall f, rtp a f = rtp answer f).
  assert (answer <| m_attr := m_attr answer |> = answer) as -> by (by destruct answer). done.
Qed.

(** Case analysis on the membership in a concrete list. *)
Ltac in_cases H :=
  repeat (apply elem_of_cons in H as [->|H]); try (by apply elem_of_nil in H).

Lemma demo_audio_wf : media_wf demo_audio.
Proof.
  split.
  - vm_compute. lia.
  - vm_compute. lia.
  - intros f H. in_cases H; done.
  - intros f H _. in_cases H; vm_compute; done.
  - intros a H. in_cases H; vm_compute; done.
  - intros f a Hf Ha. in_cases Hf; in_cases Ha; intros Hn; vm_compute in Hn |- *; intros;
      first [done|lia|by destruct Hn].
  - intros f H _. in_cases H; by apply num0_spec.
  - intros f r H. in_cases H; vm_compute; intros [= <-]; done.
Qed.

Lemma demo_local_wf : Forall media_wf (s_media demo_local).
Proof. constructor; [apply demo_audio_wf|constructor]. Qed.

(** ** Media *)

Lemma update_direction_negotiated_witness :
  local_dir (update_media_direction demo_offered demo_audio) = PJMEDIA_DIR_DECODING.
Proof.
  destruct (update_direction_negotiated demo_offered demo_audio) as [H _]; [vm_compute; lia|].
  revert H. by destruct (local_dir (update_media_direction demo_offered demo_audio)).
Defined.

(** Our offer, answered by theirs: the codecs they listed, in their order. *)
Lemma answer_codecs_agree_witness :
  exists offer' answer',
    process_m_answer demo_cb demo_cbs demo_audio demo_offered false =
      Some (PJ_SUCCESS, offer', answer') /\
    m_fmt offer' = lit <$> ["0"; "8"; "100"; "101"]%string /\
    exists f g fs gs, m_fmt offer' = f :: fs /\ m_fmt answer' = g :: gs /\
      fmt_agree demo_audio demo_offered f g.
Proof.
  eexists _, _. split; [by vm_compute|]. split; [by vm_compute|].
  eapply (answer_codecs_agree demo_cb demo_cbs demo_cb_keeps demo_audio demo_offered);
    [vm_compute; lia|vm_compute; lia|done|done|by vm_compute].
Defined.

(** ** Sessions *)

(** A session was agreed on; its description has version 2. *)
Definition demo_done : pjmedia_sdp_neg :=
  mk_neg STATE_DONE true false false false (Some demo_local) None
    (Some (demo_session 2 [demo_audio])) (Some demo_remote) None None.

(** A new offer with a video only. *)
Definition demo_video : sdp_session :=
  demo_session 9 [demo_media "video" 5002 ["31"]%string []].

Lemma modify_offer_aligned_witness :
  exists neg' new,
    pjmedia_sdp_neg_modify_local_offer2 demo_done 0 demo_video = Some (PJ_SUCCESS, neg') /\
    neg_local_sdp neg' = Some new /\ version new = 3 /\
    m_media <$> s_media new = [lit "audio"; lit "video"] /\
    Forall2 same_type [demo_audio] (take 1 (s_media new)).
Proof.
  eexists _, _. split; [by vm_compute|]. split; [reflexivity|]. split; [by vm_compute|].
  split; [by vm_compute|].
  edestruct (modify_offer_aligned demo_done 0 demo_video) as (new & Hn & _ & _ & _ & _ & _ & H);
    [reflexivity|by vm_compute|]. injection Hn as <-. exact H.
Defined.

Lemma process_answer_active_witness :
  exists active answer',
    process_answer demo_cb demo_cbs demo_local demo_remote false = Some (PJ_SUCCESS, active, answer') /\
    exists local, active = Some local /\ Exists (fun m => m_port m <> 0) (s_media local).
Proof.
  eexists _, _. split; [by vm_compute|].
  edestruct (process_answer_active demo_cb demo_cbs demo_local demo_remote false) as (local & H1 & _ & _ & H2);
    [by vm_compute|]. by exists local.
Defined.

(** The remote offer arrives first; we answer with our media. *)
Definition demo_wait : pjmedia_sdp_neg :=
  mk_neg STATE_WAIT_NEGO true false false false (Some demo_local) None None None
    (Some demo_local) (Some demo_remote).

Lemma demo_wait_init : neg_init demo_wait.
Proof. right. exists (Some demo_local), demo_remote. by vm_compute. Qed.

(** The negotiator once the answer was negotiated. *)
Definition demo_agreed : pjmedia_sdp_neg :=
  match run_op demo_cb demo_cbs (OpNegotiate false) demo_wait with
  | Some (_, neg) => neg
  | None => demo_wait
  end.

Lemma neg_reachable_inv_witness :
  exists neg, neg_step demo_cb demo_cbs demo_wait neg /\ state neg = STATE_DONE /\ neg_inv neg.
Proof.
  exists demo_agreed. assert (Hs : neg_step demo_cb demo_cbs demo_wait demo_agreed).
  { exists (OpNegotiate false), PJ_SUCCESS. by vm_compute. }
  split; [exact Hs|]. split; [reflexivity|]. apply (neg_reachable_inv demo_cb demo_cbs).
  eapply reach_step; [apply reach_init, demo_wait_init|exact Hs].
Defined.


(** Cancelling an offer changes the active local description: the version of
    its origin. *)
Lemma cancel_changes_active :
  exists neg neg', run_op demo_cb demo_cbs OpSendLocalOffer demo_agreed = Some (PJ_SUCCESS, neg) /\
    run_op demo_cb demo_cbs OpCancelOffer neg = Some (PJ_SUCCESS, neg') /\
    active_local_sdp neg' <> active_local_sdp demo_agreed.
Proof. eexists _, _. split; [by vm_compute|]. split; [by vm_compute|]. by vm_compute. Qed.

Lemma negotiate_answer_complete_witness :
  exists status neg' v,
    pjmedia_sdp_neg_negotiate demo_cb demo_cbs demo_wait false = Some (status, neg') /\
    last_version demo_wait = Some v /\
    (if decide (status = PJ_SUCCESS)
     then exists ans, active_local_sdp neg' = Some ans /\ active_remote_sdp neg' = Some demo_remote /\
            version ans = u32 (v + 1) /\ Forall2 answers (s_media demo_remote) (s_media ans)
     else active_local_sdp neg' = None /\ active_remote_sdp neg' = None).
Proof.
  apply (negotiate_answer_complete demo_cb demo_cbs demo_wait false demo_local demo_remote);
    [apply demo_cb_ok|apply (init_inv demo_wait demo_wait_init)|done..|by vm_compute|vm_compute; lia|
     constructor; [vm_compute; lia|constructor]|vm_compute; lia|apply demo_local_wf].
Defined.

Lemma cancelled_version_not_reused_witness :
  exists neg1 neg2 neg3,
    run_op demo_cb demo_cbs (OpModifyLocalOffer 0 demo_video) demo_done = Some (PJ_SUCCESS, neg1) /\
    run_op demo_cb demo_cbs OpCancelOffer neg1 = Some (PJ_SUCCESS, neg2) /\
    run_op demo_cb demo_cbs OpSendLocalOffer neg2 = Some (PJ_SUCCESS, neg3) /\
    version <$> neg_local_sdp neg1 = Some 3 /\ version <$> neg_local_sdp neg3 = Some 4.
Proof.
  eexists _, _, _. split; [by vm_compute|]. split; [by vm_compute|]. split; [by vm_compute|].
  eapply (cancelled_version_not_reused demo_cb demo_cbs (OpModifyLocalOffer 0 demo_video) OpSendLocalOffer
    demo_done _ _ _ PJ_SUCCESS (demo_session 2 [demo_audio]));
    [exact I|exact I|reflexivity|reflexivity|by vm_compute..].
Defined.

(** ** Where the code departs from what it means to do *)

(** An offer with no media we have is answered with success, although no
    media is active. *)
Theorem success_without_media :
  exists ans, create_answer demo_cb demo_cbs true false demo_local demo_video = Some (PJ_SUCCESS, Some ans) /\
    (m_port <$> s_media ans) = [0].
Proof. eexists. split; [by vm_compute|reflexivity]. Qed.

(** An answer with an [a=rtpmap] line without value, next to the static
    payload type 0, makes the code read a structure that was not filled in. *)
Theorem empty_rtpmap_uninitialised :
  process_m_answer demo_cb demo_cbs demo_audio
    (demo_media "audio" 4000 ["0"]%string [attr "rtpmap" ""]) false = None.
Proof. by vm_compute. Qed.

(** An offer that lists a payload type twice, when several codecs may be
    answered; and one that writes it "00", when our order is preferred: the
    format chosen is not found among ours. *)
Theorem duplicate_format_not_found :
  create_answer demo_cb demo_cbs true true demo_local
    (demo_session 1 [demo_media "audio" 4000 ["0"; "0"]%string []]) = None /\
  create_answer demo_cb demo_cbs false false demo_local
    (demo_session 1 [demo_media "audio" 4000 ["00"]%string []]) = None.
Proof. by vm_compute. Qed.

(** The transport "UDP" is not recognised as UDP. *)
Theorem udp_not_recognised :
  pjmedia_sdp_transport_get_proto (lit "UDP") = PJMEDIA_TP_PROTO_UNKNOWN.
Proof. by vm_compute. Qed.

(** A remote offer with a disabled media and no connection creates a
    negotiator, whose negotiation then fails for the missing connection. *)
Definition demo_no_conn : sdp_session :=
  demo_remote <| s_conn := None |>
    <| s_media := [demo_offered <| m_conn := Some demo_conn |>; demo_media "video" 0 ["31"]%string []] |>.

Definition demo_offered_neg : pjmedia_sdp_neg :=
  match pjmedia_sdp_neg_create_w_remote_offer (Some demo_local) demo_no_conn with
  | Some (_, Some neg) => neg
  | _ => demo_wait
  end.

Theorem validation_disagrees :
  pjmedia_sdp_neg_create_w_remote_offer (Some demo_local) demo_no_conn =
    Some (PJ_SUCCESS, Some demo_offered_neg) /\
  fst <$> pjmedia_sdp_neg_negotiate demo_cb demo_cbs demo_offered_neg false =
    Some PJMEDIA_SDP_EMISSINGCONN.
Proof. split; by vm_compute. Qed.

(** Modifying a session with an audio media into sixteen videos writes past
    the array of media. *)
Theorem modify_offer_overflows :
  pjmedia_sdp_neg_modify_local_offer2 demo_done 0
    (demo_session 1 (replicate 16 (demo_media "video" 5002 ["31"]%string []))) = None.
Proof. by vm_compute. Qed.

(** An answer that swaps the media: the active descriptions list them at
    different places. *)
Definition demo_swapped : Z * option sdp_session * sdp_session :=
  let video := demo_media "video" 5002 ["31"]%string [] in
  default (PJ_SUCCESS, None, demo_remote)
    (process_answer demo_cb demo_cbs (demo_session 1 [demo_audio; video])
       (demo_session 1 [video; demo_offered]) false).

Theorem swapped_answer_misaligned :
  match demo_swapped with
  | (status, Some local, remote) =>
      status = PJ_SUCCESS /\ (m_port <$> s_media local) = [0; 5002] /\
      (m_media <$> s_media local) = [lit "audio"; lit "video"] /\
      (m_media <$> s_media remote) = [lit "video"; lit "audio"]
  | _ => False
  end.
Proof. by vm_compute. Qed.
