(* ===== verification/SdpText.v ===== *)
(** * SDP as text

    The printer and the parser of session descriptions of [pjmedia/sdp.c],
    and the attributes whose values have a format of their own: [rtpmap],
    [rtcp] and [ssrc].

    The printer writes into a buffer of [len] bytes, less than 2^31: a write
    outside of it is undefined, [None].  [pj_utoa] ends its digits with a
    zero byte, which the next character replaces.  The parser throws on a
    syntax error; the error code is [ctx->last_error] at that time. *)

From Stdlib Require Import String.
From S2P Require Import Prelude Hash PjString Scanner Sdp.
Local Open Scope Z_scope.

Definition PJMEDIA_SDP_EINSDP : Z := 220020.
Definition PJMEDIA_SDP_EINVER : Z := 220021.
Definition PJMEDIA_SDP_EINTIME : Z := 220023.
Definition PJMEDIA_SDP_ERTPMAPTOOLONG : Z := 220029.
Definition PJMEDIA_SDP_EINRTCP : Z := 220035.
Definition PJMEDIA_SDP_EINBANDW : Z := 220037.
Definition PJMEDIA_SDP_EINSSRC : Z := 220038.

Definition crlf : list Z := [13; 10].
Definition space : Z := 32.
Definition colon : Z := 58.
Definition equals : Z := 61.

(** ** Attributes with a format *)

(** [pj_ansi_snprintf(tempbuf, sizeof(tempbuf), ...)] of 128 bytes. *)
Definition pjmedia_sdp_rtpmap_to_attr (rtpmap : sdp_rtpmap) : Z * option sdp_attr :=
  if (slen (r_enc_name rtpmap) =? 0) || (r_clock_rate rtpmap =? 0)
  then (PJMEDIA_SDP_EINRTPMAP, None)
  else
    let text := r_pt rtpmap ++ [space] ++ r_enc_name rtpmap ++ [slash] ++
                pj_utoa (r_clock_rate rtpmap) ++
                (if slen (r_param rtpmap) =? 0 then [] else [slash]) ++ r_param rtpmap in
    if (slen text <? 1) || (128 <=? slen text) then (PJMEDIA_SDP_ERTPMAPTOOLONG, None)
    else (PJ_SUCCESS, Some (mk_attr (lit "rtpmap") text)).

Record sdp_rtcp_attr := mk_rtcp {
  rtcp_port : Z; rtcp_net_type : list Z; rtcp_addr_type : list Z; rtcp_addr : list Z }.

Definition rtcp_parse : scan sdp_rtcp_attr :=
  token ← pj_scan_get PJ_SCAN_AUTOSKIP_WS cs_token;
  let port := u32 (pj_strtoul token) in
  eof ← at_eof;
  if (eof : bool) then mret (mk_rtcp port [] [] [])
  else
    net_type ← pj_scan_get PJ_SCAN_AUTOSKIP_WS cs_token;
    addr_type ← pj_scan_get PJ_SCAN_AUTOSKIP_WS cs_token;
    addr ← pj_scan_get_until_chr PJ_SCAN_AUTOSKIP_WS [47; 32; 9; 13; 10];
    mret (mk_rtcp port net_type addr_type addr).

(** The structure is given when the status is [PJ_SUCCESS]. *)
Definition pjmedia_sdp_attr_get_rtcp (attr : sdp_attr) : Z * option sdp_rtcp_attr :=
  if negb (pj_strcmp (a_name attr) (lit "rtcp") =? 0) then (PJ_EINVALIDOP, None)
  else if slen (a_value attr) =? 0 then (PJMEDIA_SDP_EINATTR, None)
  else
    match rtcp_parse (pj_scan_init PJ_SCAN_AUTOSKIP_WS (a_value attr)) with
    | Some (rtcp, _) => (PJ_SUCCESS, Some rtcp)
    | None => (PJMEDIA_SDP_EINRTCP, None)
    end.

(** The port and the text of the address come from [pj_sockaddr_get_port] and
    [pj_sockaddr_print]; the family is IPv4 or IPv6. *)
Definition pjmedia_sdp_attr_create_rtcp (ipv6 : bool) (port : Z) (addr : list Z) : sdp_attr :=
  mk_attr (lit "rtcp")
    (pj_utoa port ++ (if ipv6 then lit " IN IP6 " else lit " IN IP4 ") ++ addr).

Record sdp_ssrc_attr := mk_ssrc { ssrc_ssrc : Z; ssrc_cname : list Z }.

Definition ssrc_parse : scan sdp_ssrc_attr :=
  token ← pj_scan_get PJ_SCAN_AUTOSKIP_WS cs_digit;
  _ ← pj_scan_get_char PJ_SCAN_AUTOSKIP_WS;
  scan_attr ← pj_scan_get PJ_SCAN_AUTOSKIP_WS cs_token;
  let ssrc := u32 (pj_strtoul token) in
  eof ← at_eof;
  if (eof : bool) then mret (mk_ssrc ssrc [])
  else
    c ← pj_scan_get_char PJ_SCAN_AUTOSKIP_WS;
    if (c =? colon) && negb (str_is scan_attr "cname")
    then cname ← pj_scan_get PJ_SCAN_AUTOSKIP_WS cs_token; mret (mk_ssrc ssrc cname)
    else mret (mk_ssrc ssrc []).

Definition pjmedia_sdp_attr_get_ssrc (attr : sdp_attr) : Z * option sdp_ssrc_attr :=
  if negb (pj_strcmp (a_name attr) (lit "ssrc") =? 0) then (PJ_EINVALIDOP, None)
  else if slen (a_value attr) =? 0 then (PJMEDIA_SDP_EINATTR, None)
  else
    match ssrc_parse (pj_scan_init PJ_SCAN_AUTOSKIP_WS (a_value attr)) with
    | Some (ssrc, _) => (PJ_SUCCESS, Some ssrc)
    | None => (PJMEDIA_SDP_EINSSRC, None)
    end.

Definition pjmedia_sdp_attr_create_ssrc (ssrc : Z) (cname : list Z) : option sdp_attr :=
  if slen cname =? 0 then None
  else Some (mk_attr (lit "ssrc") (pj_utoa ssrc ++ lit " cname:" ++ cname)).

(** ** Printing *)

(** What a printing function returns: the text written so far, or -1. *)
Definition printed : Type := option (option (list Z)).

Definition error : printed := Some None.

Definition pbind (r : printed) (k : list Z -> printed) : printed :=
  match r with Some (Some out) => k out | Some None => Some None | None => None end.

(** Write [s] after [out] into a buffer of [len] bytes. *)
Definition put (len : Z) (out s : list Z) : printed :=
  if slen out + slen s <=? len then Some (Some (out ++ s)) else None.

(** Call a printing function on what is left of the buffer. *)
Definition print_sub (len : Z) (out : list Z) (print : Z -> printed) : printed :=
  pbind (print (len - slen out)) (put len out).

Fixpoint print_all {A} (print : A -> Z -> printed) (len : Z) (l : list A) (out : list Z) : printed :=
  match l with
  | [] => Some (Some out)
  | x :: l => pbind (print_sub len out (print x)) (print_all print len l)
  end.

(** The text of single lines. *)
Definition conn_text (c : sdp_conn) : list Z :=
  lit "c=" ++ c_net_type c ++ [space] ++ c_addr_type c ++ [space] ++ c_addr c ++ crlf.

Definition bandw_text (b : sdp_bandw) : list Z :=
  lit "b=" ++ b_modifier b ++ [colon] ++ pj_utoa (b_value b) ++ crlf.

Definition attr_text (a : sdp_attr) : list Z :=
  lit "a=" ++ a_name a ++
  (if slen (a_value a) =? 0 then [] else colon :: a_value a) ++ crlf.

Definition media_text (m : sdp_media) : list Z :=
  lit "m=" ++ m_media m ++ [space] ++ pj_utoa (m_port m) ++
  (if 1 <? m_port_count m then slash :: pj_utoa (m_port_count m) else []) ++
  [space] ++ m_transport m.

Definition origin_text (o : sdp_origin) : list Z :=
  lit "v=0" ++ crlf ++
  lit "o=" ++ o_user o ++ [space] ++ pj_utoa (o_id o) ++ [space] ++ pj_utoa (o_version o) ++
  [space] ++ o_net_type o ++ [space] ++ o_addr_type o ++ [space] ++ o_addr o ++ crlf.

Definition name_text (name : list Z) : list Z := lit "s=" ++ name ++ crlf.

Definition time_text (start stop : Z) : list Z :=
  lit "t=" ++ pj_utoa start ++ [space] ++ pj_utoa stop ++ crlf.

(** [pj_ansi_snprintf]: nothing is written outside the buffer. *)
Definition print_connection_info (c : sdp_conn) (len : Z) : printed :=
  if len <=? slen (conn_text c) then error else put len [] (conn_text c).

Definition print_bandw (b : sdp_bandw) (len : Z) : printed :=
  if len <? slen (b_modifier b) + 10 + 5 then error else put len [] (bandw_text b).

Definition print_attr (a : sdp_attr) (len : Z) : printed :=
  if len <? slen (a_name a) + slen (a_value a) + 10 then error else put len [] (attr_text a).

Fixpoint print_fmts (fmts : list (list Z)) (len : Z) (out : list Z) : printed :=
  match fmts with
  | [] => Some (Some out)
  | fmt :: fmts =>
      if slen fmt <? len - slen out
      then pbind (put len out (space :: fmt)) (print_fmts fmts len)
      else error
  end.

Definition print_conn_opt (c : option sdp_conn) (len : Z) (out : list Z) : printed :=
  match c with
  | Some c => print_sub len out (print_connection_info c)
  | None => Some (Some out)
  end.

Definition print_media_desc (m : sdp_media) (len : Z) : printed :=
  if len <? slen (m_media m) + slen (m_transport m) + 12 + 24 then error
  else
    pbind (put len [] (media_text m)) (fun out =>
    pbind (print_fmts (m_fmt m) len out) (fun out =>
    if len - slen out <? 2 then error
    else
      pbind (put len out crlf) (fun out =>
      pbind (print_conn_opt (m_conn m) len out) (fun out =>
      pbind (print_all print_bandw len (m_bandw m) out)
      (print_all print_attr len (m_attr m)))))).

Definition pjmedia_sdp_media_print (m : sdp_media) (size : Z) : printed := print_media_desc m size.

Definition print_session (ses : sdp_session) (len : Z) : printed :=
  let o := s_origin ses in
  if len <? 5 + 2 + slen (o_user o) + 18 + slen (o_net_type o) + slen (o_addr o) + 2 then error
  else
    pbind (put len [] (origin_text o)) (fun out =>
    if len - slen out <? 8 + slen (s_name ses) then error
    else
      pbind (put len out (name_text (s_name ses))) (fun out =>
      pbind (print_conn_opt (s_conn ses) len out) (fun out =>
      pbind (print_all print_bandw len (s_bandw ses) out) (fun out =>
      if len - slen out <? 24 then error
      else
        pbind (put len out (time_text (s_start ses) (s_stop ses))) (fun out =>
        pbind (print_all print_attr len (s_attr ses) out)
        (print_all print_media_desc len (s_media ses))))))).

Definition pjmedia_sdp_print (desc : sdp_session) (size : Z) : printed := print_session desc size.

(** ** Parsing lines *)

(** [if (scanner->curptr+i >= scanner->end || *(scanner->curptr+i) != c)
    on_scanner_error(scanner)] *)
Definition expect_at (i : nat) (c : Z) : scan unit := fun s =>
  match s !! i with
  | Some d => if d =? c then Some (tt, s) else None
  | None => None
  end.

Definition skip_line : scan unit := fun s => Some (tt, pj_scan_skip_line s).

Definition SKIP_WS : bool := false.

Definition until_ch (c : Z) : scan (list Z) := pj_scan_get_until_ch 0 c.
Definition until_chr (set : list Z) : scan (list Z) := pj_scan_get_until_chr 0 set.
Definition get_char : scan Z := pj_scan_get_char 0.

Definition parse_version : scan unit :=
  _ ← expect_at 1 equals;
  _ ← expect_at 2 48;
  skip_line.

Definition eol : list Z := [13; 10].
Definition ws_eol : list Z := [32; 9; 13; 10].

Definition parse_origin (ses : sdp_session) : scan sdp_session :=
  _ ← expect_at 1 equals;
  _ ← pj_scan_advance_n 0 2 SKIP_WS;
  user ← until_ch space; _ ← get_char;
  id ← until_ch space; _ ← get_char;
  version ← until_ch space; _ ← get_char;
  net_type ← until_ch space; _ ← get_char;
  addr_type ← until_ch space; _ ← get_char;
  addr ← until_chr ws_eol;
  _ ← skip_line;
  mret (ses <| s_origin :=
    mk_origin user (u32 (pj_strtoul id)) (u32 (pj_strtoul version)) net_type addr_type addr |>).

Definition parse_time (ses : sdp_session) : scan sdp_session :=
  _ ← expect_at 1 equals;
  _ ← pj_scan_advance_n 0 2 SKIP_WS;
  start ← until_ch space; _ ← get_char;
  stop ← until_chr ws_eol;
  _ ← skip_line;
  mret (ses <| s_start := u32 (pj_strtoul start) |> <| s_stop := u32 (pj_strtoul stop) |>).

Definition parse_generic_line : scan (list Z) :=
  _ ← expect_at 1 equals;
  _ ← pj_scan_advance_n 0 2 SKIP_WS;
  str ← until_chr eol;
  _ ← pj_scan_get_newline;
  mret str.

Definition parse_connection_info : scan sdp_conn :=
  _ ← pj_scan_advance_n 0 2 SKIP_WS;
  net_type ← until_ch space; _ ← get_char;
  addr_type ← until_ch space; _ ← get_char;
  addr ← until_chr (47 :: ws_eol);
  _ ← skip_line;
  mret (mk_conn net_type addr_type addr).

Definition parse_bandwidth_info : scan sdp_bandw :=
  _ ← pj_scan_advance_n 0 2 SKIP_WS;
  modifier ← until_ch colon; _ ← get_char;
  value ← until_chr ws_eol;
  _ ← skip_line;
  mret (mk_bandw modifier (u32 (pj_strtoul value))).

(** The list of formats: each turn takes a space at least.  Formats beyond
    the size of the array are ignored. *)
Fixpoint parse_fmts (fuel : nat) (fmts : list (list Z)) : scan (list (list Z)) :=
  match fuel with
  | O => pj_scan_syntax_err
  | S fuel =>
      c ← peek;
      if c =? space then
        _ ← get_char;
        c ← peek;
        if scan_is_newline c then mret fmts
        else
          fmt ← pj_scan_get 0 cs_token;
          parse_fmts fuel
            (if Nat.ltb (length fmts) PJMEDIA_MAX_SDP_FMT then fmts ++ [fmt] else fmts)
      else mret fmts
  end.

(** A turn takes two characters or more, or is the last. *)
Definition parse_fmt_list : scan (list (list Z)) := fun s => parse_fmts (S (length s)) [] s.

Definition parse_port_count : scan Z :=
  eof ← at_eof;
  if (eof : bool) then pj_scan_syntax_err
  else
    c ← peek;
    if c =? slash then
      _ ← get_char;
      str ← pj_scan_get 0 cs_token;
      mret (u32 (pj_strtoul str))
    else mret 0.

Definition parse_media : scan sdp_media :=
  _ ← expect_at 1 equals;
  _ ← pj_scan_advance_n 0 2 SKIP_WS;
  media ← until_ch space; _ ← get_char;
  port ← pj_scan_get 0 cs_token;
  port_count ← parse_port_count;
  c ← get_char;
  if negb (c =? space) then pj_scan_syntax_err
  else
    transport ← until_chr ws_eol;
    fmts ← parse_fmt_list;
    _ ← skip_line;
    mret (mk_media media (pj_strtoul port mod 65536) port_count transport fmts None [] []).

(** Skip the colon, when there is one. *)
Definition skip_colon : scan unit :=
  c ← peek;
  if c =? colon then _ ← get_char; mret tt else mret tt.

Definition parse_attr_value : scan (list Z) :=
  c ← peek;
  if negb (c =? 0) && negb (scan_is_newline c) then
    _ ← skip_colon;
    eof ← at_eof;
    c ← peek;
    if negb eof && negb (scan_is_newline c) then until_chr eol else mret []
  else mret [].

Definition parse_attr : scan sdp_attr :=
  _ ← expect_at 1 equals;
  _ ← pj_scan_advance_n 0 2 SKIP_WS;
  name ← pj_scan_get 0 cs_token;
  value ← parse_attr_value;
  _ ← skip_line;
  mret (mk_attr name value).

(** ** Parsing a description *)

(** The current media: the attributes and the like that follow are its.  When
    the session has no room for a media it is kept out of it, and so are they. *)
Inductive cur_media := NoMedia | InSession (i : nat) | Ignored (m : sdp_media).

Record parse_state := mk_pstate { ps_session : sdp_session; ps_media : cur_media }.

#[export] Instance parse_state_settable : Settable parse_state :=
  fun r => mk_pstate (ps_session r) (ps_media r).

(** [media ? change the media : change the session] *)
Definition to_current (fm : sdp_media -> sdp_media) (fs : sdp_session -> sdp_session)
    (st : parse_state) : parse_state :=
  match ps_media st with
  | NoMedia => st <| ps_session := fs (ps_session st) |>
  | InSession i =>
      st <| ps_session :=
              ps_session st <| s_media := alter fm i (s_media (ps_session st)) |> |>
  | Ignored m => st <| ps_media := Ignored (fm m) |>
  end.

Definition add_attr (attrs : list sdp_attr) (a : sdp_attr) : list sdp_attr :=
  if Nat.ltb (length attrs) PJMEDIA_MAX_SDP_ATTR then (pjmedia_sdp_attr_add attrs a).2 else attrs.

Definition add_bandw (l : list sdp_bandw) (b : sdp_bandw) : list sdp_bandw :=
  if Nat.ltb (length l) PJMEDIA_MAX_SDP_BANDW then l ++ [b] else l.

Definition add_media (st : parse_state) (m : sdp_media) : parse_state :=
  let ses := ps_session st in
  if Nat.ltb (length (s_media ses)) PJMEDIA_MAX_SDP_MEDIA
  then mk_pstate (ses <| s_media := s_media ses ++ [m] |>) (InSession (length (s_media ses)))
  else mk_pstate ses (Ignored m).

(** A line, with the error to report when it cannot be parsed. *)
Definition line {A} (err : Z) (p : scan A) (k : A -> parse_state) (s : list Z)
    : Z + parse_state * list Z :=
  match p s with
  | Some (a, s) => inr (k a, s)
  | None => inl err
  end.

Fixpoint all_newlines (s : list Z) : bool :=
  match s with
  | c :: s => scan_is_newline c && all_newlines s
  | [] => true
  end.

(** One turn of the loop, on the lines that start with [cur_name]. *)
Definition parse_line (st : parse_state) (s : list Z) : Z + parse_state * list Z :=
  let cur_name := curchar s in
  let ses := ps_session st in
  let with_ses := fun ses => st <| ps_session := ses |> in
  if cur_name =? 97 then
    line PJMEDIA_SDP_EINATTR parse_attr (fun a =>
      to_current (fun m => m <| m_attr := add_attr (m_attr m) a |>)
                 (fun s => s <| s_attr := add_attr (s_attr s) a |>) st) s
  else if cur_name =? 111 then line PJMEDIA_SDP_EINORIGIN (parse_origin ses) with_ses s
  else if cur_name =? 115 then
    line PJMEDIA_SDP_EINSDP parse_generic_line (fun name => with_ses (ses <| s_name := name |>)) s
  else if cur_name =? 99 then
    line PJMEDIA_SDP_EINCONN parse_connection_info (fun c =>
      to_current (fun m => m <| m_conn := Some c |>) (fun s => s <| s_conn := Some c |>) st) s
  else if cur_name =? 116 then line PJMEDIA_SDP_EINTIME (parse_time ses) with_ses s
  else if cur_name =? 109 then line PJMEDIA_SDP_EINMEDIA parse_media (add_media st) s
  else if cur_name =? 118 then line PJMEDIA_SDP_EINVER parse_version (fun _ => st) s
  else if scan_is_newline cur_name then
    if all_newlines s then inr (st, []) else inl PJMEDIA_SDP_EINSDP
  else if cur_name =? 98 then
    line PJMEDIA_SDP_EINBANDW parse_bandwidth_info (fun b =>
      to_current (fun m => m <| m_bandw := add_bandw (m_bandw m) b |>)
                 (fun s => s <| s_bandw := add_bandw (s_bandw s) b |>) st) s
  else if (97 <=? cur_name) && (cur_name <=? 122) then
    line PJMEDIA_SDP_EINSDP parse_generic_line (fun _ => st) s
  else inl PJMEDIA_SDP_EINSDP.

(** The loop: [inl] is the error; [None] when the fuel is not enough. *)
Fixpoint parse_loop (fuel : nat) (st : parse_state) (s : list Z) : option (Z + parse_state) :=
  match fuel with
  | O => None
  | S fuel =>
      if pj_scan_is_eof s then Some (inr st)
      else
        match parse_line st s with
        | inl err => Some (inl err)
        | inr (st, s) => parse_loop fuel st s
        end
  end.

(** The first direction attribute of the session other than the default. *)
Fixpoint find_direction (attrs : list sdp_attr) (i : nat) : option (nat * sdp_attr) :=
  match attrs with
  | [] => None
  | a :: attrs =>
      if str_is (a_name a) "sendonly" || str_is (a_name a) "recvonly" || str_is (a_name a) "inactive"
      then Some (i, a) else find_direction attrs (S i)
  end.

Definition has_direction (m : sdp_media) : bool :=
  existsb (fun a => str_is (a_name a) "sendrecv" || str_is (a_name a) "sendonly" ||
                    str_is (a_name a) "recvonly" || str_is (a_name a) "inactive") (m_attr m).

Definition apply_media_direction (sdp : sdp_session) : sdp_session :=
  match find_direction (s_attr sdp) 0 with
  | None => sdp
  | Some (i, dir_attr) =>
      sdp <| s_attr := pjmedia_sdp_attr_remove (s_attr sdp) i |>
          <| s_media := (fun m => if has_direction m then m
                                  else pjmedia_sdp_media_add_attr m dir_attr) <$> s_media sdp |>
  end.

Definition session_zalloc : sdp_session :=
  mk_session (mk_origin [] 0 0 [] [] []) [] None [] 0 0 [] [].

Fixpoint skip_newlines (s : list Z) : list Z :=
  match s with
  | c :: s' => if scan_is_newline c then skip_newlines s' else s
  | [] => []
  end.

(** The status and the session. *)
Definition pjmedia_sdp_parse (buf : list Z) : option (Z * option sdp_session) :=
  let s := skip_newlines (pj_scan_init 0 buf) in
  r ← parse_loop (S (length s)) (mk_pstate session_zalloc NoMedia) s;
  match r with
  | inl err => Some (err, None)
  | inr st => Some (PJ_SUCCESS, Some (apply_media_direction (ps_session st)))
  end.
