(* ===== verification/SdpTextSpec.v ===== *)
(** * SDP as text: properties

    What is printed is the text of the description, and parses back to it. *)

From Stdlib Require Import String.
From S2P Require Import Prelude Hash PjString Scanner Sdp SdpText.
Local Open Scope Z_scope.

(** ** The text of a description *)

Definition fmts_text (fmts : list (list Z)) : list Z := fmts ≫= cons space.

Definition full_media_text (m : sdp_media) : list Z :=
  media_text m ++ fmts_text (m_fmt m) ++ crlf ++
  from_option conn_text [] (m_conn m) ++ (m_bandw m ≫= bandw_text) ++ (m_attr m ≫= attr_text).

Definition session_text (ses : sdp_session) : list Z :=
  origin_text (s_origin ses) ++ name_text (s_name ses) ++ from_option conn_text [] (s_conn ses) ++
  (s_bandw ses ≫= bandw_text) ++ time_text (s_start ses) (s_stop ses) ++
  (s_attr ses ≫= attr_text) ++ (s_media ses ≫= full_media_text).

(** ** Descriptions that can be read back *)

Definition token (x : list Z) : Prop := x <> [] /\ Forall (fun c => cs_token c = true) x.

Record attr_ok (a : sdp_attr) : Prop := {
  ao_name : token (a_name a);
  ao_value : lacks_set eol (a_value a)
}.

Record conn_ok (c : sdp_conn) : Prop := {
  co_net : lacks space (c_net_type c);
  co_type : lacks space (c_addr_type c);
  co_addr : lacks_set (47 :: ws_eol) (c_addr c)
}.

Record bandw_ok (b : sdp_bandw) : Prop := {
  bo_modifier : lacks colon (b_modifier b);
  bo_value : is_u32 (b_value b)
}.

Definition conn_opt_ok (c : option sdp_conn) : Prop := from_option conn_ok True c.

Record media_ok (m : sdp_media) : Prop := {
  mo_media : lacks space (m_media m);
  mo_port : 0 <= m_port m < 65536;
  mo_count : is_u32 (m_port_count m);
  mo_transport : lacks_set ws_eol (m_transport m);
  mo_fmts : Forall token (m_fmt m) /\ (length (m_fmt m) <= PJMEDIA_MAX_SDP_FMT)%nat;
  mo_conn : conn_opt_ok (m_conn m);
  mo_bandw : Forall bandw_ok (m_bandw m) /\ (length (m_bandw m) <= PJMEDIA_MAX_SDP_BANDW)%nat;
  mo_attr : Forall attr_ok (m_attr m) /\ (length (m_attr m) <= PJMEDIA_MAX_SDP_ATTR)%nat
}.

Record session_ok (s : sdp_session) : Prop := {
  so_user : lacks space (o_user (s_origin s));
  so_id : is_u32 (o_id (s_origin s));
  so_version : is_u32 (o_version (s_origin s));
  so_net : lacks space (o_net_type (s_origin s));
  so_type : lacks space (o_addr_type (s_origin s));
  so_addr : lacks_set ws_eol (o_addr (s_origin s));
  so_name : lacks_set eol (s_name s);
  so_conn : conn_opt_ok (s_conn s);
  so_bandw : Forall bandw_ok (s_bandw s) /\ (length (s_bandw s) <= PJMEDIA_MAX_SDP_BANDW)%nat;
  so_start : is_u32 (s_start s);
  so_stop : is_u32 (s_stop s);
  so_attr : Forall attr_ok (s_attr s) /\ (length (s_attr s) <= PJMEDIA_MAX_SDP_ATTR)%nat;
  so_media : Forall media_ok (s_media s) /\ (length (s_media s) <= PJMEDIA_MAX_SDP_MEDIA)%nat
}.

(** ** Scanner calls in sequence *)

Lemma scan_run {A B} (m : scan A) (k : A -> scan B) s a s' :
  m s = Some (a, s') -> mbind k m s = k a s'.
Proof. intros H. unfold mbind, scan_bind. by rewrite H. Qed.

Lemma get_char_cons c r : c <> 0 -> get_char (c :: r) = Some (c, r).
Proof.
  intros H. unfold get_char, pj_scan_get_char. rewrite (proj2 (Z.eqb_neq _ _) H).
  by rewrite skip_if_0.
Qed.

Lemma advance_two c d r : pj_scan_advance_n 0 2 SKIP_WS (c :: d :: r) = Some (tt, r).
Proof.
  destruct r as [|e r]; [done|]. unfold pj_scan_advance_n, SKIP_WS. cbn [length Nat.ltb Nat.leb drop].
  by rewrite andb_false_r.
Qed.

Lemma lacks_digits c s : Forall is_digit s -> c < 48 \/ 57 < c -> lacks c s.
Proof. intros H Hc. eapply Forall_impl; [done|]. unfold is_digit. intros d Hd. lia. Qed.

Lemma in_set_ne set c : ~ (c ∈ set) -> in_set set c = false.
Proof.
  intros H. apply not_true_is_false. unfold in_set. rewrite existsb_exists.
  intros (d & Hd & ->%Z.eqb_eq). apply H. by apply list_elem_of_In.
Qed.

Lemma lacks_set_digits set s :
  Forall is_digit s -> Forall (fun c => c < 48 \/ 57 < c) set -> lacks_set set s.
Proof.
  intros H Hset. eapply Forall_impl; [done|]. unfold is_digit. intros d Hd.
  apply in_set_ne. intros Hin. rewrite Forall_forall in Hset. specialize (Hset d Hin). cbn in Hset. lia.
Qed.

Lemma digits_token s : Forall is_digit s -> Forall (fun c => cs_token c = true) s.
Proof.
  intros H. eapply Forall_impl; [done|]. unfold is_digit, cs_token, pj_isdigit. intros d Hd.
  by rewrite (proj2 (Z.leb_le 48 d)), (proj2 (Z.leb_le d 57)), orb_true_r by lia.
Qed.

Lemma u32_range64 v : is_u32 v -> 0 <= v < 2 ^ 64.
Proof. unfold is_u32. lia. Qed.

Lemma skip_line_crlf r : skip_line (13 :: 10 :: r) = Some (tt, r).
Proof. done. Qed.

Lemma strtoul_u32 v : is_u32 v -> u32 (pj_strtoul (pj_utoa v)) = v.
Proof. intros H. rewrite strtoul_utoa by by apply u32_range64. by apply u32_id. Qed.

Create HintDb sdp.
#[export] Hint Resolve u32_range64 utoa_digit utoa_nonempty : sdp.

(** One scanner call on an input that starts with what it reads. *)
Ltac scan_call :=
  first
    [ apply advance_two
    | apply skip_line_crlf
    | apply get_char_cons; done
    | apply get_until_ch_app; solve [assumption | apply lacks_digits; [eauto with sdp|unfold space, colon; lia]]
    | apply get_until_chr_app;
      [ solve [assumption | apply lacks_set_digits; [eauto with sdp|repeat constructor; lia]]
      | reflexivity ]
    | reflexivity ].

Ltac scan_step := etrans; [eapply scan_run; scan_call|]; cbv beta iota.

(** Spell out a text as characters and strings, in sequence. *)
Ltac spell :=
  repeat match goal with |- context [lit ?s] =>
    let v := eval vm_compute in (lit s) in change (lit s) with v end;
  unfold crlf, space, colon, slash; repeat (progress (rewrite <- ?app_assoc; cbn [app])).

(** ** Lines *)

Lemma parse_origin_text o ses r :
  lacks 32 (o_user o) -> is_u32 (o_id o) -> is_u32 (o_version o) ->
  lacks 32 (o_net_type o) -> lacks 32 (o_addr_type o) -> lacks_set ws_eol (o_addr o) ->
  parse_origin ses (drop 5 (origin_text o) ++ r) = Some (ses <| s_origin := o |>, r).
Proof.
  intros H1 H2 H3 H4 H5 H6. unfold origin_text. spell. cbn [drop app]. spell.
  unfold parse_origin. repeat scan_step.
  rewrite !strtoul_u32 by done. by destruct o.
Qed.

Lemma parse_version_text o r : parse_version (take 5 (origin_text o) ++ r) = Some (tt, r).
Proof. unfold origin_text. spell. cbn [take]. done. Qed.

Lemma parse_name_text name r :
  lacks_set eol name -> parse_generic_line (name_text name ++ r) = Some (name, r).
Proof. intros H. unfold name_text. spell. unfold parse_generic_line. by repeat scan_step. Qed.

Lemma parse_conn_text c r :
  conn_ok c -> parse_connection_info (conn_text c ++ r) = Some (c, r).
Proof.
  intros [H1 H2 H3]. unfold conn_text. spell. unfold parse_connection_info. repeat scan_step. by destruct c.
Qed.

Lemma parse_bandw_text b r : bandw_ok b -> parse_bandwidth_info (bandw_text b ++ r) = Some (b, r).
Proof.
  intros [H1 H2]. unfold bandw_text. spell. unfold parse_bandwidth_info. repeat scan_step.
  rewrite strtoul_u32 by done. by destruct b.
Qed.

Lemma parse_time_text ses start stop r :
  is_u32 start -> is_u32 stop ->
  parse_time ses (time_text start stop ++ r) = Some (ses <| s_start := start |> <| s_stop := stop |>, r).
Proof.
  intros H1 H2. unfold time_text. spell. unfold parse_time. repeat scan_step.
  by rewrite !strtoul_u32 by done.
Qed.

(** ** Attributes *)

Lemma get_token x d r :
  token x -> cs_token d = false -> pj_scan_get 0 cs_token (x ++ d :: r) = Some (x, d :: r).
Proof. intros [H1 H2] Hd. rewrite get_app by done. by rewrite skip_if_0. Qed.

Lemma skip_colon_cons s : skip_colon (colon :: s) = Some (tt, s).
Proof.
  unfold skip_colon. etrans; [eapply scan_run; reflexivity|].
  change (curchar (colon :: s) =? colon) with true. cbv beta iota. by scan_step.
Qed.

Lemma parse_attr_value_text v r :
  lacks_set eol v ->
  parse_attr_value ((if slen v =? 0 then [] else colon :: v) ++ 13 :: 10 :: r) = Some (v, 13 :: 10 :: r).
Proof.
  intros H. destruct v as [|c v]; [done|]. rewrite slen_cons, (proj2 (Z.eqb_neq _ 0))
    by (pose proof (slen_nonneg v); lia).
  unfold parse_attr_value. cbn [app]. etrans; [eapply scan_run; reflexivity|].
  change (negb (curchar (colon :: c :: v ++ 13 :: 10 :: r) =? 0) &&
    negb (scan_is_newline (curchar (colon :: c :: v ++ 13 :: 10 :: r)))) with true. cbv beta iota.
  etrans; [eapply scan_run, skip_colon_cons|]. cbv beta.
  etrans; [eapply scan_run; reflexivity|]. etrans; [eapply scan_run; reflexivity|].
  assert (Hc : scan_is_newline c = false).
  { inversion H as [|? ? Hc]. cbn in Hc. unfold scan_is_newline.
    destruct (c =? 13), (c =? 10); done. }
  cbn [curchar pj_scan_is_eof negb andb]. rewrite Hc. cbn [negb]. change (c :: v ++ 13 :: 10 :: r) with ((c :: v) ++ 13 :: 10 :: r).
  by apply get_until_chr_app.
Qed.

Lemma parse_attr_text a r : attr_ok a -> parse_attr (attr_text a ++ r) = Some (a, r).
Proof.
  intros [H1 H2]. unfold attr_text. spell. unfold parse_attr.
  do 2 scan_step.
  assert (Hn : pj_scan_get 0 cs_token (a_name a ++ (if slen (a_value a) =? 0 then [] else 58 :: a_value a) ++ 13 :: 10 :: r)
    = Some (a_name a, (if slen (a_value a) =? 0 then [] else colon :: a_value a) ++ 13 :: 10 :: r)).
  { destruct (slen (a_value a) =? 0); by apply get_token. }
  etrans; [eapply scan_run, Hn|]. cbv beta.
  etrans; [eapply scan_run, parse_attr_value_text, H2|]. cbv beta. scan_step. by destruct a.
Qed.

(** ** Media *)

Lemma token_not_newline c : cs_token c = true -> scan_is_newline c = false.
Proof.
  intros H. unfold scan_is_newline. destruct (Z.eqb_spec c 13) as [->|]; [done|].
  by destruct (Z.eqb_spec c 10) as [->|].
Qed.

Lemma utoa_token v : 0 <= v < 2 ^ 64 -> token (pj_utoa v).
Proof. intros H. split; [by apply utoa_nonempty|]. by apply digits_token, utoa_digit. Qed.

Lemma fmts_text_cons f fmts : fmts_text (f :: fmts) = space :: f ++ fmts_text fmts.
Proof. done. Qed.

Lemma parse_fmts_text fmts n acc r :
  Forall token fmts -> (length acc + length fmts <= PJMEDIA_MAX_SDP_FMT)%nat -> (length fmts < n)%nat ->
  parse_fmts n acc (fmts_text fmts ++ 13 :: 10 :: r) = Some (acc ++ fmts, 13 :: 10 :: r).
Proof.
  intros Hf. revert n acc. induction Hf as [|f fmts Hf Hfs IH]; intros [|n] acc Hl Hn; cbn [length] in *; try lia.
  - cbn. by rewrite app_nil_r.
  - rewrite fmts_text_cons. cbn [parse_fmts app]. rewrite <- app_assoc.
    etrans; [eapply scan_run; reflexivity|].
    change (curchar (space :: f ++ fmts_text fmts ++ 13 :: 10 :: r) =? space) with true. cbv beta iota.
    etrans; [eapply scan_run, get_char_cons; done|]. cbv beta.
    etrans; [eapply scan_run; reflexivity|]. cbv beta.
    assert (Hc : scan_is_newline (curchar (f ++ fmts_text fmts ++ 13 :: 10 :: r)) = false).
    { destruct Hf as [Hne Ht]. destruct f as [|c f]; [done|]. inversion Ht. by apply token_not_newline. }
    rewrite Hc. assert (Hg : pj_scan_get 0 cs_token (f ++ fmts_text fmts ++ 13 :: 10 :: r)
      = Some (f, fmts_text fmts ++ 13 :: 10 :: r)) by (destruct fmts; by apply get_token).
    etrans; [eapply scan_run, Hg|]. cbv beta. rewrite (proj2 (Nat.ltb_lt _ _)) by lia.
    rewrite IH by (rewrite ?length_app; cbn [length]; lia). by rewrite <- app_assoc.
Qed.

Lemma fmts_text_length fmts : (length fmts <= length (fmts_text fmts))%nat.
Proof.
  induction fmts as [|f fmts IH]; [done|]. rewrite fmts_text_cons. cbn [length]. rewrite length_app. lia.
Qed.

(** A port count of 1 is not printed, and read as 0. *)
Definition read_count (n : Z) : Z := if 1 <? n then n else 0.

Lemma parse_port_count_text n r :
  is_u32 n ->
  parse_port_count ((if 1 <? n then slash :: pj_utoa n else []) ++ 32 :: r) = Some (read_count n, 32 :: r).
Proof.
  unfold is_u32, read_count. intros Hn. destruct (Z.ltb_spec 1 n) as [H|H].
  - unfold parse_port_count. rewrite <- app_comm_cons. etrans; [eapply scan_run; reflexivity|].
    etrans; [eapply scan_run; reflexivity|]. change (curchar (slash :: _) =? slash) with true. cbv beta iota.
    cbn [pj_scan_is_eof]. etrans; [eapply scan_run, get_char_cons; done|]. cbv beta.
    etrans; [eapply scan_run, get_token; [apply utoa_token; lia|done]|]. cbv beta.
    by rewrite strtoul_u32 by (unfold is_u32; lia).
  - done.
Qed.

Definition read_media (m : sdp_media) : sdp_media := m <| m_port_count := read_count (m_port_count m) |>.

(** The line of a media: what follows it is filled in by the next lines. *)
Definition bare_media (m : sdp_media) : sdp_media :=
  read_media m <| m_conn := None |> <| m_bandw := [] |> <| m_attr := [] |>.

Lemma parse_media_text m r :
  media_ok m ->
  parse_media (media_text m ++ fmts_text (m_fmt m) ++ crlf ++ r) = Some (bare_media m, r).
Proof.
  intros [H1 H2 H3 H4 [H5 H6] _ _ _]. unfold media_text. spell. unfold parse_media.
  do 4 scan_step.
  assert (Hp : pj_scan_get 0 cs_token (pj_utoa (m_port m) ++
      (if 1 <? m_port_count m then 47 :: pj_utoa (m_port_count m) else []) ++
      32 :: m_transport m ++ fmts_text (m_fmt m) ++ 13 :: 10 :: r) = Some (pj_utoa (m_port m),
      (if 1 <? m_port_count m then slash :: pj_utoa (m_port_count m) else []) ++
      32 :: m_transport m ++ fmts_text (m_fmt m) ++ 13 :: 10 :: r)).
  { assert (token (pj_utoa (m_port m))) by (apply utoa_token; lia).
    destruct (1 <? m_port_count m); by apply get_token. }
  etrans; [eapply scan_run, Hp|]. cbv beta.
  etrans; [eapply scan_run, parse_port_count_text, H3|]. cbv beta. scan_step.
  change (32 =? space) with true. cbn [negb].
  assert (Ht : until_chr ws_eol (m_transport m ++ fmts_text (m_fmt m) ++ 13 :: 10 :: r) =
    Some (m_transport m, fmts_text (m_fmt m) ++ 13 :: 10 :: r)).
  { destruct (m_fmt m) as [|f fmts]; by apply get_until_chr_app. }
  etrans; [eapply scan_run, Ht|]. cbv beta.
  etrans; [eapply scan_run; unfold parse_fmt_list; apply parse_fmts_text; [done|cbn [length]; lia|]|].
  { rewrite length_app. pose proof (fmts_text_length (m_fmt m)). lia. }
  cbv beta. scan_step. rewrite strtoul_utoa by lia. rewrite Z.mod_small by lia. by destruct m.
Qed.

(** ** Every line is shorter than what was left *)

Lemma takes_expect i c : takes 0 (expect_at i c).
Proof.
  intros s b s'. unfold expect_at. destruct (s !! i); [|done]. destruct (_ =? _); [|done]. intros [= <- <-]. lia.
Qed.

Lemma takes_skip_line : takes 0 skip_line.
Proof. intros s b s' [= _ <-]. pose proof (skip_line_length s). lia. Qed.

#[export] Hint Resolve takes_expect takes_skip_line : takes.
#[export] Hint Extern 1 (takes 0 get_char) => eapply takes_weak, takes_get_char : takes.
#[export] Hint Unfold until_ch until_chr get_char : takes.

Ltac takes_two := apply takes_0_bind; [apply takes_expect|intros _];
  apply takes_bind_0; [apply takes_advance|intros _]; takes.

Lemma takes_origin ses : takes 2 (parse_origin ses).
Proof. takes_two. Qed.

Lemma takes_time ses : takes 2 (parse_time ses).
Proof. takes_two. Qed.

Lemma takes_generic : takes 2 parse_generic_line.
Proof. takes_two. Qed.

Lemma takes_conn : takes 2 parse_connection_info.
Proof. apply takes_bind_0; [apply takes_advance|intros _]. takes. Qed.

Lemma takes_bandw : takes 2 parse_bandwidth_info.
Proof. apply takes_bind_0; [apply takes_advance|intros _]. takes. Qed.

Lemma takes_version : takes 1 parse_version.
Proof.
  intros s [] s'. unfold parse_version, mbind, scan_bind, expect_at. destruct (s !! 1%nat) eqn:E; [|done].
  destruct (_ =? _); [|done]. destruct (s !! 2%nat); [|done]. destruct (_ =? _); [|done].
  intros [= <-]. apply lookup_lt_Some in E. pose proof (skip_line_length s). lia.
Qed.

Lemma takes_attr : takes 2 parse_attr.
Proof.
  assert (takes 0 skip_colon) by (unfold skip_colon; takes).
  assert (takes 0 parse_attr_value) by (unfold parse_attr_value; takes).
  unfold parse_attr. takes_two.
Qed.

Lemma takes_fmts n acc : takes 0 (parse_fmts n acc).
Proof.
  revert acc. induction n as [|n IH]; intros acc; cbn [parse_fmts]; [apply takes_err|]. takes.
  all: apply IH.
Qed.

Lemma takes_media : takes 2 parse_media.
Proof.
  assert (takes 0 parse_fmt_list) by (intros s; apply takes_fmts).
  assert (takes 0 parse_port_count) by (unfold parse_port_count; takes).
  unfold parse_media. takes_two.
Qed.

#[export] Hint Resolve takes_version takes_attr takes_origin takes_time takes_generic takes_conn
  takes_bandw takes_media : takes.

Lemma line_shorter {A} err k (p : scan A) (f : A -> parse_state) s st' s' :
  takes (S k) p -> line err p f s = inr (st', s') -> (length s' < length s)%nat.
Proof.
  intros Hp. unfold line. destruct (p s) as [[a s1]|] eqn:E; [|done]. intros [= _ <-].
  specialize (Hp s a s1 E). lia.
Qed.

Lemma parse_line_shorter st s st' s' :
  s <> [] -> parse_line st s = inr (st', s') -> (length s' < length s)%nat.
Proof.
  intros Hs. unfold parse_line.
  repeat match goal with |- context [if ?b then _ else _] => destruct b end; try done;
    try (eapply line_shorter; solve [eauto with takes]).
  intros [= _ <-]. by destruct s; [|cbn; lia].
Qed.

(** ** The loop *)

Lemma parse_loop_fuel n m st s :
  (length s < n)%nat -> (length s < m)%nat -> parse_loop n st s = parse_loop m st s.
Proof.
  revert m st s. induction n as [|n IH]; intros [|m] st s Hn Hm; try lia. cbn [parse_loop].
  destruct s as [|c s]; [done|]. cbn [pj_scan_is_eof].
  destruct (parse_line st (c :: s)) as [err|[st' s']] eqn:E; [done|].
  apply parse_line_shorter in E; [|done]. apply IH; lia.
Qed.

(** Parsing from a state: the loop with enough fuel. *)
Definition parse_from (st : parse_state) (s : list Z) : option (Z + parse_state) :=
  parse_loop (S (length s)) st s.

Lemma parse_from_line st s st' s' :
  s <> [] -> parse_line st s = inr (st', s') -> parse_from st s = parse_from st' s'.
Proof.
  intros Hs H. unfold parse_from at 1. cbn [parse_loop]. destruct s as [|c s]; [done|]. cbn [pj_scan_is_eof].
  rewrite H. apply parse_line_shorter in H; [|done]. apply parse_loop_fuel; lia.
Qed.

Lemma parse_from_total st s : is_Some (parse_from st s).
Proof.
  remember (length s) as n. revert st s Heqn. induction (lt_wf n) as [n _ IH]. intros st s ->.
  destruct s as [|c s]; [by eexists|]. destruct (parse_line st (c :: s)) as [err|[st' s']] eqn:E.
  - unfold parse_from. cbn [parse_loop pj_scan_is_eof]. rewrite E. by eexists.
  - erewrite parse_from_line; [|done|exact E]. eapply IH; [|done]. by eapply parse_line_shorter; [|done].
Qed.

(** ** A whole description *)

(** Lines that each add an item to a list, which has room for [max]. *)
Lemma parse_from_all {X} (text : X -> list Z) (F : list X -> parse_state) max l acc r :
  (forall acc x rest, x ∈ l -> (length acc < max)%nat ->
     text x <> [] /\ parse_line (F acc) (text x ++ rest) = inr (F (acc ++ [x]), rest)) ->
  (length acc + length l <= max)%nat ->
  parse_from (F acc) ((l ≫= text) ++ r) = parse_from (F (acc ++ l)) r.
Proof.
  revert acc. induction l as [|x l IH]; intros acc Hx Hl; [by rewrite app_nil_r|].
  cbn [length] in Hl. destruct (Hx acc x ((l ≫= text) ++ r)) as [Hne Hp]; [left|lia|].
  change ((x :: l) ≫= text) with (text x ++ (l ≫= text)). rewrite <- app_assoc.
  erewrite parse_from_line; [|by destruct (text x)|exact Hp].
  rewrite IH; [by rewrite <- app_assoc|intros acc' y rest Hy; apply Hx; by right|].
  rewrite length_app. cbn [length]. lia.
Qed.

(** Filling in the session, and its last media. *)
Definition at_session (ses : sdp_session) : parse_state := mk_pstate ses NoMedia.

Definition at_media (ses : sdp_session) (pre : list sdp_media) (m : sdp_media) : parse_state :=
  mk_pstate (ses <| s_media := pre ++ [m] |>) (InSession (length pre)).

Lemma to_current_session fm fs ses : to_current fm fs (at_session ses) = at_session (fs ses).
Proof. done. Qed.

Lemma to_current_media fm fs ses pre m : to_current fm fs (at_media ses pre m) = at_media ses pre (fm m).
Proof.
  unfold to_current, at_media. cbn [ps_media]. unfold set_field. cbn [ps_session ps_media s_media].
  f_equal. f_equal. induction pre as [|p pre IH]; [done|]. cbn. by f_equal.
Qed.

Lemma add_text_attr_room l a : (length l < PJMEDIA_MAX_SDP_ATTR)%nat -> add_attr l a = l ++ [a].
Proof.
  intros H. unfold add_attr, pjmedia_sdp_attr_add. by rewrite (proj2 (Nat.ltb_lt _ _) H).
Qed.

Lemma add_bandw_room l b : (length l < PJMEDIA_MAX_SDP_BANDW)%nat -> add_bandw l b = l ++ [b].
Proof. intros H. unfold add_bandw. by rewrite (proj2 (Nat.ltb_lt _ _) H). Qed.

(** Which line a text is. *)
Lemma parse_line_attr st a r :
  attr_ok a -> parse_line st (attr_text a ++ r) =
    inr (to_current (fun m => m <| m_attr := add_attr (m_attr m) a |>)
                    (fun s => s <| s_attr := add_attr (s_attr s) a |>) st, r).
Proof.
  intros H. unfold parse_line. change (curchar (attr_text a ++ r)) with 97. cbn [Z.eqb Pos.eqb].
  unfold line. by rewrite parse_attr_text.
Qed.

Lemma parse_line_bandw st b r :
  bandw_ok b -> parse_line st (bandw_text b ++ r) =
    inr (to_current (fun m => m <| m_bandw := add_bandw (m_bandw m) b |>)
                    (fun s => s <| s_bandw := add_bandw (s_bandw s) b |>) st, r).
Proof.
  intros H. unfold parse_line. change (curchar (bandw_text b ++ r)) with 98. cbn [Z.eqb Pos.eqb scan_is_newline orb].
  unfold line. by rewrite parse_bandw_text.
Qed.

Lemma parse_line_conn st c r :
  conn_ok c -> parse_line st (conn_text c ++ r) =
    inr (to_current (fun m => m <| m_conn := Some c |>) (fun s => s <| s_conn := Some c |>) st, r).
Proof.
  intros H. unfold parse_line. change (curchar (conn_text c ++ r)) with 99. cbn [Z.eqb Pos.eqb].
  unfold line. by rewrite parse_conn_text.
Qed.

Lemma parse_from_conn c F r :
  conn_opt_ok c ->
  (forall c, conn_ok c -> parse_line (F None) (conn_text c ++ r) = inr (F (Some c), r)) ->
  parse_from (F None) (from_option conn_text [] c ++ r) = parse_from (F c) r.
Proof.
  intros Hc H. destruct c as [c|]; [|done]. cbn [from_option]. by erewrite parse_from_line; [|done|apply H].
Qed.

Lemma parse_media_line st m r :
  media_ok m -> (length (s_media (ps_session st)) < PJMEDIA_MAX_SDP_MEDIA)%nat ->
  parse_line st (media_text m ++ fmts_text (m_fmt m) ++ crlf ++ r) =
    inr (at_media (ps_session st) (s_media (ps_session st)) (bare_media m), r).
Proof.
  intros H Hl. unfold parse_line. change (curchar (media_text m ++ fmts_text (m_fmt m) ++ crlf ++ r)) with 109.
  cbn [Z.eqb Pos.eqb]. unfold line. rewrite parse_media_text by done. unfold add_media.
  by rewrite (proj2 (Nat.ltb_lt _ _) Hl).
Qed.

Lemma parse_media_full st m r :
  media_ok m -> (length (s_media (ps_session st)) < PJMEDIA_MAX_SDP_MEDIA)%nat ->
  parse_from st (full_media_text m ++ r) =
    parse_from (at_media (ps_session st) (s_media (ps_session st)) (read_media m)) r.
Proof.
  intros Hm Hl. unfold full_media_text. rewrite <- !app_assoc.
  erewrite parse_from_line; [|done|by apply parse_media_line].
  destruct Hm as [_ _ _ _ _ Hc [Hb Hbl] [Ha Hal]].
  set (ses := ps_session st). set (pre := s_media ses).
  change (bare_media m) with (bare_media m <| m_conn := None |>).
  rewrite (parse_from_conn (m_conn m) (fun c => at_media ses pre (bare_media m <| m_conn := c |>))) by
    (try done; intros c Hc'; rewrite parse_line_conn by done; by rewrite to_current_media).
  change (bare_media m <| m_conn := m_conn m |>) with
    (bare_media m <| m_conn := m_conn m |> <| m_bandw := [] |>).
  rewrite (parse_from_all bandw_text
    (fun l => at_media ses pre (bare_media m <| m_conn := m_conn m |> <| m_bandw := l |>)) PJMEDIA_MAX_SDP_BANDW).
  2:{ intros acc x rest Hx Hr. split; [done|]. rewrite parse_line_bandw by (by eapply Forall_forall in Hx).
      rewrite to_current_media. unfold set_field. cbn [m_bandw]. by rewrite add_bandw_room. }
  2:{ cbn [length]. lia. }
  cbn [app].
  change (bare_media m <| m_conn := m_conn m |> <| m_bandw := m_bandw m |>) with
    (bare_media m <| m_conn := m_conn m |> <| m_bandw := m_bandw m |> <| m_attr := [] |>).
  rewrite (parse_from_all attr_text
    (fun l => at_media ses pre (bare_media m <| m_conn := m_conn m |> <| m_bandw := m_bandw m |> <| m_attr := l |>))
    PJMEDIA_MAX_SDP_ATTR).
  2:{ intros acc x rest Hx Hr. split; [done|]. rewrite parse_line_attr by (by eapply Forall_forall in Hx).
      rewrite to_current_media. unfold set_field. cbn [m_attr]. by rewrite add_text_attr_room. }
  2:{ cbn [length]. lia. }
  by destruct m.
Qed.

Lemma parse_medias_full ms st :
  Forall media_ok ms -> (length (s_media (ps_session st)) + length ms <= PJMEDIA_MAX_SDP_MEDIA)%nat ->
  exists cur, parse_from st (ms ≫= full_media_text) =
    parse_from (mk_pstate (ps_session st <| s_media := s_media (ps_session st) ++ (read_media <$> ms) |>) cur) [].
Proof.
  intros H. revert st. induction H as [|m ms Hm Hms IH]; intros st Hl; cbn [length] in Hl.
  - exists (ps_media st). rewrite app_nil_r. by destruct st as [[]].
  - change ((m :: ms) ≫= full_media_text) with (full_media_text m ++ (ms ≫= full_media_text)).
    rewrite parse_media_full by (done || lia).
    destruct (IH (at_media (ps_session st) (s_media (ps_session st)) (read_media m))) as [cur ->].
    { cbn. rewrite length_app. cbn [length]. lia. }
    exists cur. f_equal. unfold at_media, set_field. cbn. by rewrite <- app_assoc.
Qed.

Lemma parse_first_lines ses o r :
  lacks 32 (o_user o) -> is_u32 (o_id o) -> is_u32 (o_version o) ->
  lacks 32 (o_net_type o) -> lacks 32 (o_addr_type o) -> lacks_set ws_eol (o_addr o) ->
  parse_from (at_session ses) (origin_text o ++ r) = parse_from (at_session (ses <| s_origin := o |>)) r.
Proof.
  intros H1 H2 H3 H4 H5 H6. rewrite <- (take_drop 5 (origin_text o)), <- app_assoc.
  erewrite parse_from_line; [|done|]; cycle 1.
  { unfold parse_line. change (curchar (take 5 (origin_text o) ++ drop 5 (origin_text o) ++ r)) with 118.
    cbn [Z.eqb Pos.eqb]. unfold line. rewrite parse_version_text. reflexivity. }
  erewrite parse_from_line; [|done|]; cycle 1.
  { unfold parse_line. change (curchar (drop 5 (origin_text o) ++ r)) with 111.
    cbn [Z.eqb Pos.eqb]. unfold line. rewrite parse_origin_text by done. reflexivity. }
  done.
Qed.

Lemma parse_from_name ses name r :
  lacks_set eol name ->
  parse_from (at_session ses) (name_text name ++ r) = parse_from (at_session (ses <| s_name := name |>)) r.
Proof.
  intros H. apply parse_from_line; [done|]. unfold parse_line.
  change (curchar (name_text name ++ r)) with 115. cbn [Z.eqb Pos.eqb]. unfold line.
  by rewrite parse_name_text.
Qed.

Lemma parse_from_time ses start stop r :
  is_u32 start -> is_u32 stop ->
  parse_from (at_session ses) (time_text start stop ++ r) =
    parse_from (at_session (ses <| s_start := start |> <| s_stop := stop |>)) r.
Proof.
  intros H1 H2. apply parse_from_line; [done|]. unfold parse_line.
  change (curchar (time_text start stop ++ r)) with 116. cbn [Z.eqb Pos.eqb]. unfold line.
  by rewrite parse_time_text.
Qed.

(** What is read back of a description. *)
Definition read_session (ses : sdp_session) : sdp_session :=
  ses <| s_media := read_media <$> s_media ses |>.

Lemma parse_session_text ses :
  session_ok ses ->
  pjmedia_sdp_parse (session_text ses) =
    Some (PJ_SUCCESS, Some (apply_media_direction (read_session ses))).
Proof.
  intros [H1 H2 H3 H4 H5 H6 H7 H8 [H9 H9'] H10 H11 [H12 H12'] [H13 H13']].
  unfold pjmedia_sdp_parse. change (skip_newlines (pj_scan_init 0 (session_text ses))) with (session_text ses).
  change (parse_loop _ _ _) with (parse_from (at_session session_zalloc) (session_text ses)).
  unfold session_text. rewrite parse_first_lines, parse_from_name by done.
  set (s0 := session_zalloc <| s_origin := s_origin ses |> <| s_name := s_name ses |>).
  change s0 with (s0 <| s_conn := None |>).
  rewrite (parse_from_conn (s_conn ses) (fun c => at_session (s0 <| s_conn := c |>))) by
    (try done; intros c Hc; by rewrite parse_line_conn).
  change (s0 <| s_conn := s_conn ses |>) with (s0 <| s_conn := s_conn ses |> <| s_bandw := [] |>).
  rewrite (parse_from_all bandw_text (fun l => at_session (s0 <| s_conn := s_conn ses |> <| s_bandw := l |>))
    PJMEDIA_MAX_SDP_BANDW).
  2:{ intros acc x rest Hx Hr. split; [done|]. rewrite parse_line_bandw by (by eapply Forall_forall in Hx).
      rewrite to_current_session. unfold set_field. cbn [s_bandw]. by rewrite add_bandw_room. }
  2:{ cbn [length]. lia. }
  rewrite parse_from_time by done. cbn [app].
  set (s1 := s0 <| s_conn := s_conn ses |> <| s_bandw := s_bandw ses |> <| s_start := s_start ses |>
                <| s_stop := s_stop ses |>).
  change s1 with (s1 <| s_attr := [] |>).
  rewrite (parse_from_all attr_text (fun l => at_session (s1 <| s_attr := l |>)) PJMEDIA_MAX_SDP_ATTR).
  2:{ intros acc x rest Hx Hr. split; [done|]. rewrite parse_line_attr by (by eapply Forall_forall in Hx).
      rewrite to_current_session. unfold set_field. cbn [s_attr]. by rewrite add_text_attr_room. }
  2:{ cbn [length]. lia. }
  destruct (parse_medias_full (s_media ses) (at_session (s1 <| s_attr := s_attr ses |>))) as [cur Hcur]; [done..|].
  cbn [app]. rewrite Hcur. by destruct ses as [[]].
Qed.
