(* ===== verification/SdpPrint.v ===== *)
(** * SDP as text: what parsing returns, what printing writes

    Results of the parser are well-formed, and well-formed descriptions are
    printed. *)

From Stdlib Require Import String.
From S2P Require Import Prelude Hash PjString Scanner Sdp SdpText SdpTextSpec.
Local Open Scope Z_scope.

(** * SDP as text: what parsing returns

    Whatever the text, parsing ends, and a description that it returns is
    well-formed: its arrays are within their sizes and its texts are such
    that it can be printed and read back. *)

(** ** Results of scanner calls *)

Definition gives {A} (P : A -> Prop) (m : scan A) : Prop :=
  forall s a s', m s = Some (a, s') -> P a.

Lemma gives_bind {A B} (Q : A -> Prop) (P : B -> Prop) (m : scan A) (f : A -> scan B) :
  gives Q m -> (forall a, Q a -> gives P (f a)) -> gives P (mbind f m).
Proof.
  intros Hm Hf s b s'. unfold mbind, scan_bind. destruct (m s) as [[a s1]|] eqn:E; [|done].
  apply Hf. by eapply Hm.
Qed.

Lemma gives_ret {A} (P : A -> Prop) a : P a -> gives P (mret a : scan A).
Proof. by intros H s b s' [= <- _]. Qed.

Lemma gives_err {A} (P : A -> Prop) : gives P pj_scan_syntax_err.
Proof. by intros s a s' [=]. Qed.

Lemma gives_any {A} (m : scan A) : gives (fun _ => True) m.
Proof. done. Qed.

Lemma gives_until_ch c : gives (lacks c) (until_ch c).
Proof.
  intros s x s'. unfold until_ch, pj_scan_get_until_ch. destruct s as [|d s]; [by intros [=]|].
  destruct (scan_span _ _) as [y r] eqn:E. intros [= <- _]. apply span_spec in E as [_ H].
  eapply Forall_impl; [done|]. intros e He. by apply negb_true_iff, Z.eqb_neq in He.
Qed.

Lemma gives_until_chr set : gives (lacks_set set) (until_chr set).
Proof.
  intros s x s'. unfold until_chr, pj_scan_get_until_chr. destruct s as [|d s]; [by intros [=]|].
  destruct (scan_span _ _) as [y r] eqn:E. intros [= <- _]. apply span_spec in E as [_ H].
  eapply Forall_impl; [done|]. intros e He. by apply negb_true_iff in He.
Qed.

Lemma gives_token : gives token (pj_scan_get 0 cs_token).
Proof.
  intros s x s'. unfold pj_scan_get. destruct s as [|c s]; [done|]. cbn [scan_span].
  destruct (cs_token c) eqn:Hc; [|done]. destruct (scan_span _ s) as [y r] eqn:E. intros [= <- _].
  apply span_spec in E as [_ H]. split; [done|]. by constructor.
Qed.

(** A call whose result does not matter. *)
Ltac gives_skip := eapply gives_bind; [apply gives_any|intros ? _].

(** ** The lines *)

Lemma gives_conn : gives conn_ok parse_connection_info.
Proof.
  unfold parse_connection_info. gives_skip.
  eapply gives_bind; [apply gives_until_ch|]. intros net Hn. gives_skip.
  eapply gives_bind; [apply gives_until_ch|]. intros type Ht. gives_skip.
  eapply gives_bind; [apply gives_until_chr|]. intros addr Ha. gives_skip.
  by apply gives_ret.
Qed.

Lemma gives_bandw : gives bandw_ok parse_bandwidth_info.
Proof.
  unfold parse_bandwidth_info. gives_skip.
  eapply gives_bind; [apply gives_until_ch|]. intros modifier Hm. do 3 gives_skip.
  apply gives_ret. split; [done|]. apply u32_range.
Qed.

Lemma gives_generic : gives (lacks_set eol) parse_generic_line.
Proof.
  unfold parse_generic_line. do 2 gives_skip.
  eapply gives_bind; [apply gives_until_chr|]. intros str Hs. gives_skip. by apply gives_ret.
Qed.

Lemma gives_attr_value : gives (lacks_set eol) parse_attr_value.
Proof.
  unfold parse_attr_value. gives_skip. destruct (_ && _); [|apply gives_ret; constructor].
  do 3 gives_skip. destruct (_ && _); [apply gives_until_chr|apply gives_ret; constructor].
Qed.

Lemma gives_attr : gives attr_ok parse_attr.
Proof.
  unfold parse_attr. do 2 gives_skip.
  eapply gives_bind; [apply gives_token|]. intros name Hn.
  eapply gives_bind; [apply gives_attr_value|]. intros value Hv. gives_skip. by apply gives_ret.
Qed.

Definition fmts_ok (fmts : list (list Z)) : Prop :=
  Forall token fmts /\ (length fmts <= PJMEDIA_MAX_SDP_FMT)%nat.

Lemma gives_fmts n acc : fmts_ok acc -> gives fmts_ok (parse_fmts n acc).
Proof.
  revert acc. induction n as [|n IH]; intros acc Hacc; cbn [parse_fmts]; [apply gives_err|].
  gives_skip. destruct (_ =? _); [|by apply gives_ret]. do 2 gives_skip.
  destruct (scan_is_newline _); [by apply gives_ret|].
  eapply gives_bind; [apply gives_token|]. intros fmt Hf. apply IH. destruct Hacc as [H1 H2].
  destruct (Nat.ltb_spec (length acc) PJMEDIA_MAX_SDP_FMT); [|done].
  split; [by apply Forall_app_2; [|constructor]|]. rewrite length_app. cbn [length]. lia.
Qed.

Lemma gives_count : gives is_u32 parse_port_count.
Proof.
  unfold parse_port_count. gives_skip. destruct (_ : bool); [apply gives_err|]. gives_skip.
  destruct (_ =? _); [|apply gives_ret; unfold is_u32; lia]. do 2 gives_skip. apply gives_ret, u32_range.
Qed.

Lemma gives_media : gives media_ok parse_media.
Proof.
  unfold parse_media. do 2 gives_skip.
  eapply gives_bind; [apply gives_until_ch|]. intros media Hm. do 2 gives_skip.
  eapply gives_bind; [apply gives_count|]. intros count Hc. gives_skip.
  destruct (negb _); [apply gives_err|].
  eapply gives_bind; [apply gives_until_chr|]. intros transport Ht.
  eapply (gives_bind fmts_ok); [intros s; by apply gives_fmts; split; [|cbn; lia]|].
  intros fmts Hf. gives_skip. apply gives_ret. split; cbn; try done.
  - apply Z.mod_pos_bound. lia.
  - split; [done|lia].
  - split; [done|lia].
Qed.

(** ** The state *)

Definition origin_ok (o : sdp_origin) : Prop :=
  lacks space (o_user o) /\ is_u32 (o_id o) /\ is_u32 (o_version o) /\ lacks space (o_net_type o) /\
  lacks space (o_addr_type o) /\ lacks_set ws_eol (o_addr o).

Lemma gives_origin ses : session_ok ses -> gives session_ok (parse_origin ses).
Proof.
  intros Hs. unfold parse_origin. do 2 gives_skip.
  eapply gives_bind; [apply gives_until_ch|]. intros user Hu. do 5 gives_skip.
  eapply gives_bind; [apply gives_until_ch|]. intros net Hn. gives_skip.
  eapply gives_bind; [apply gives_until_ch|]. intros type Ht. gives_skip.
  eapply gives_bind; [apply gives_until_chr|]. intros addr Ha. gives_skip.
  apply gives_ret. destruct Hs. split; cbn; try done; apply u32_range.
Qed.

Lemma gives_time ses : session_ok ses -> gives session_ok (parse_time ses).
Proof.
  intros Hs. unfold parse_time. do 6 gives_skip.
  apply gives_ret. destruct Hs. split; cbn; try done; apply u32_range.
Qed.

Lemma add_attr_ok l a :
  Forall attr_ok l /\ (length l <= PJMEDIA_MAX_SDP_ATTR)%nat -> attr_ok a ->
  Forall attr_ok (add_attr l a) /\ (length (add_attr l a) <= PJMEDIA_MAX_SDP_ATTR)%nat.
Proof.
  intros [H1 H2] Ha. destruct (Nat.ltb_spec (length l) PJMEDIA_MAX_SDP_ATTR).
  - rewrite add_text_attr_room by done. split; [by apply Forall_app_2; [|constructor]|].
    rewrite length_app. cbn [length]. lia.
  - unfold add_attr. by rewrite (proj2 (Nat.ltb_ge _ _)).
Qed.

Lemma add_bandw_ok l b :
  Forall bandw_ok l /\ (length l <= PJMEDIA_MAX_SDP_BANDW)%nat -> bandw_ok b ->
  Forall bandw_ok (add_bandw l b) /\ (length (add_bandw l b) <= PJMEDIA_MAX_SDP_BANDW)%nat.
Proof.
  intros [H1 H2] Hb. unfold add_bandw. destruct (Nat.ltb_spec (length l) PJMEDIA_MAX_SDP_BANDW); [|done].
  split; [by apply Forall_app_2; [|constructor]|]. rewrite length_app. cbn [length]. lia.
Qed.

Lemma to_current_ok fm fs st :
  session_ok (ps_session st) -> (forall m, media_ok m -> media_ok (fm m)) ->
  (forall s, session_ok s -> session_ok (fs s)) -> session_ok (ps_session (to_current fm fs st)).
Proof.
  intros H Hm Hs. unfold to_current. destruct (ps_media st) as [|i|m]; [by apply Hs| |done].
  destruct H. split; cbn; try done. destruct so_media as [H1 H2]. rewrite length_alter.
  split; [|done]. apply Forall_alter; [done|]. intros m _. apply Hm.
Qed.

Lemma add_media_ok st m :
  session_ok (ps_session st) -> media_ok m -> session_ok (ps_session (add_media st m)).
Proof.
  intros H Hm. unfold add_media.
  destruct (Nat.ltb_spec (length (s_media (ps_session st))) PJMEDIA_MAX_SDP_MEDIA); [|done].
  destruct H. split; cbn; try done. destruct so_media as [H1 H2].
  split; [by apply Forall_app_2; [|constructor]|]. rewrite length_app. cbn [length]. lia.
Qed.

Lemma line_ok {A} (P : A -> Prop) err (p : scan A) (k : A -> parse_state) s st' s' :
  gives P p -> (forall a, P a -> session_ok (ps_session (k a))) ->
  line err p k s = inr (st', s') -> session_ok (ps_session st').
Proof.
  intros Hp Hk. unfold line. destruct (p s) as [[a s1]|] eqn:E; [|done]. intros [= <- _].
  apply Hk. by eapply Hp.
Qed.

Lemma parse_line_ok st s st' s' :
  session_ok (ps_session st) -> parse_line st s = inr (st', s') -> session_ok (ps_session st').
Proof.
  intros H. unfold parse_line.
  destruct (_ =? _).
  { apply (line_ok attr_ok); [apply gives_attr|]. intros a Ha. apply to_current_ok; [done|..].
    - intros m []. split; cbn; try done. by apply add_attr_ok.
    - intros s0 []. split; cbn; try done. by apply add_attr_ok. }
  destruct (_ =? _); [by apply (line_ok session_ok); [apply gives_origin|]|].
  destruct (_ =? _).
  { apply (line_ok (lacks_set eol)); [apply gives_generic|]. intros name Hn. destruct H. by split. }
  destruct (_ =? _).
  { apply (line_ok conn_ok); [apply gives_conn|]. intros c Hc. apply to_current_ok; [done|..].
    - intros m []. by split.
    - intros s0 []. by split. }
  destruct (_ =? _); [by apply (line_ok session_ok); [apply gives_time|]|].
  destruct (_ =? _).
  { apply (line_ok media_ok); [apply gives_media|]. intros m Hm. by apply add_media_ok. }
  destruct (_ =? _); [by apply (line_ok (fun _ => True))|].
  destruct (scan_is_newline _); [destruct (all_newlines s); [by intros [= <- _]|done]|].
  destruct (_ =? _).
  { apply (line_ok bandw_ok); [apply gives_bandw|]. intros b Hb. apply to_current_ok; [done|..].
    - intros m []. split; cbn; try done. by apply add_bandw_ok.
    - intros s0 []. split; cbn; try done. by apply add_bandw_ok. }
  destruct (_ && _); [by apply (line_ok (fun _ => True))|done].
Qed.

Lemma parse_line_error st s err : parse_line st s = inl err -> err <> PJ_SUCCESS.
Proof.
  unfold parse_line, line.
  repeat match goal with
  | |- context [if ?b then _ else _] => destruct b
  | |- context [match ?p s with _ => _ end] => destruct (p s) as [[? ?]|]
  end; by intros [= <-].
Qed.

Lemma parse_loop_ok n st s r :
  session_ok (ps_session st) -> parse_loop n st s = Some r ->
  match r with inl err => err <> PJ_SUCCESS | inr st' => session_ok (ps_session st') end.
Proof.
  revert st s. induction n as [|n IH]; intros st s H; cbn [parse_loop]; [done|].
  destruct (pj_scan_is_eof s); [by intros [= <-]|].
  destruct (parse_line st s) as [err|[st' s']] eqn:E.
  - intros [= <-]. by eapply parse_line_error.
  - apply IH. by eapply parse_line_ok.
Qed.

Lemma find_direction_elem attrs i j a : find_direction attrs i = Some (j, a) -> a ∈ attrs.
Proof.
  revert i. induction attrs as [|b attrs IH]; intros i; cbn [find_direction]; [done|].
  destruct (_ || _); [intros [= _ <-]; left|]. intros H%IH. by right.
Qed.

Lemma apply_direction_ok ses : session_ok ses -> session_ok (apply_media_direction ses).
Proof.
  intros H. unfold apply_media_direction. destruct (find_direction _ _) as [[i a]|] eqn:E; [|done].
  apply find_direction_elem in E. destruct H. destruct so_attr as [H1 H2], so_media as [H3 H4].
  assert (Ha : attr_ok a) by (by eapply Forall_forall in H1).
  split; cbn; try done; unfold pjmedia_sdp_attr_remove.
  - rewrite (proj2 (Nat.leb_le _ _)) by done. split; [by apply Forall_delete|].
    rewrite delete_take_drop, length_app, length_take, length_drop. change 68%nat with PJMEDIA_MAX_SDP_ATTR. lia.
  - rewrite length_fmap. split; [|done]. apply Forall_fmap. eapply Forall_impl; [done|].
    intros m Hm. cbn. destruct (has_direction m); [done|]. destruct Hm as [? ? ? ? ? ? ? Hattr].
    split; cbn; try done. by apply (add_attr_ok (m_attr m) a) in Hattr; [|done];
      unfold add_attr, pjmedia_sdp_attr_add in *; destruct (Nat.ltb _ _).
Qed.

Lemma zalloc_ok : session_ok session_zalloc.
Proof.
  split; cbn; try done; try (unfold is_u32; lia); try constructor; try done; cbn; lia.
Qed.

(** C31: Parsing any text ends, with a session or an error.  Every session it
    returns is well-formed: no array holds more than its size, the numbers
    are in their range, names and formats are tokens, and no text contains a
    character that would end it when it is printed. *)
Theorem sdp_parse_typed buf :
  exists status sdp, pjmedia_sdp_parse buf = Some (status, sdp) /\
    (status = PJ_SUCCESS <-> is_Some sdp) /\ (forall ses, sdp = Some ses -> session_ok ses).
Proof.
  unfold pjmedia_sdp_parse. set (s := skip_newlines _).
  destruct (parse_from_total (mk_pstate session_zalloc NoMedia) s) as [r Hr].
  unfold parse_from in Hr. rewrite Hr. ored.
  apply parse_loop_ok in Hr; [|apply zalloc_ok]. destruct r as [err|st].
  - exists err, None. split; [done|]. split; [|done]. split; [done|]. by intros [? ?].
  - eexists _, _. split; [done|]. split; [done|]. intros ses [= <-]. by apply apply_direction_ok.
Qed.

(** * SDP as text: printing

    The printer writes the text of the description inside its buffer, or
    returns an error, which a buffer 30 bytes larger than the text rules out;
    except that the first lines and the time line are written without room
    being checked for all of them. *)

(** [r] is the outcome of writing the text [t] after [out]. *)
Definition good (len : Z) (out t : list Z) (r : printed) : Prop :=
  (r = error /\ len < slen (out ++ t) + 30) \/
  (r = Some (Some (out ++ t)) /\ slen (out ++ t) <= len).

Lemma good_put len out t : slen out + slen t <= len -> good len out t (put len out t).
Proof.
  intros H. right. unfold put. rewrite slen_app. by rewrite (proj2 (Z.leb_le _ _)) by lia.
Qed.

Lemma good_error len out t : len < slen out + slen t + 30 -> good len out t error.
Proof. intros H. left. rewrite slen_app. split; [done|lia]. Qed.

Lemma good_error_prefix len out t1 t2 : len < slen out + slen t1 + 30 -> good len out (t1 ++ t2) error.
Proof. intros H. apply good_error. rewrite slen_app. pose proof (slen_nonneg t2). lia. Qed.

Lemma good_nil len out : slen out <= len -> good len out [] (Some (Some out)).
Proof. intros H. right. by rewrite app_nil_r. Qed.

Lemma good_bind len out t1 t2 r k :
  good len out t1 r -> (slen (out ++ t1) <= len -> good len (out ++ t1) t2 (k (out ++ t1))) ->
  good len out (t1 ++ t2) (pbind r k).
Proof.
  intros [[-> H]|[-> H]] Hk.
  - left. split; [done|]. rewrite app_assoc, slen_app. pose proof (slen_nonneg t2). lia.
  - cbn [pbind]. specialize (Hk H). unfold good in *. by rewrite app_assoc.
Qed.

Lemma good_sub len out t print :
  slen out <= len -> (forall room, 0 <= room -> good room [] t (print room)) ->
  good len out t (print_sub len out print).
Proof.
  intros H Hp. unfold print_sub. destruct (Hp (len - slen out)) as [[-> Hl]|[-> Hl]]; [lia|..];
    cbn [pbind app] in *.
  - apply good_error. lia.
  - apply good_put. lia.
Qed.

Lemma good_all {A} (print : A -> Z -> printed) (text : A -> list Z) len l out :
  slen out <= len -> Forall (fun x => forall room, 0 <= room -> good room [] (text x) (print x room)) l ->
  good len out (l ≫= text) (print_all print len l out).
Proof.
  intros H Hl. revert out H. induction Hl as [|x l Hx Hl IH]; intros out H; cbn [print_all].
  - by apply good_nil.
  - change ((x :: l) ≫= text) with (text x ++ (l ≫= text)).
    apply good_bind; [by apply good_sub|]. apply IH.
Qed.

(** ** Lines *)

Lemma utoa_range v k : is_u32 v -> 0 < k -> v < 10 ^ k -> 1 <= slen (pj_utoa v) <= k.
Proof.
  intros Hv Hk Hlt. assert (0 <= v < 2 ^ 64) by (unfold is_u32 in Hv; lia).
  split; [apply utoa_decimal; lia|]. apply utoa_length; lia.
Qed.

Lemma utoa_10 v : is_u32 v -> 1 <= slen (pj_utoa v) <= 10.
Proof. intros H. apply utoa_range; [done|lia|]. unfold is_u32 in H. lia. Qed.

(** The length of a text, from the lengths of its parts. *)
Ltac lengths :=
  unfold conn_text, bandw_text, attr_text, media_text, origin_text, name_text, time_text, crlf in *;
  rewrite ?slen_app in *;
  repeat match goal with
  | |- context [slen (lit ?s)] => let n := eval vm_compute in (slen (lit s)) in
      change (slen (lit s)) with n in *
  end;
  repeat match goal with
  | |- context [slen (?c :: ?s)] => rewrite (slen_cons c s)
  | |- context [slen []] => change (slen (@nil Z)) with 0
  end;
  repeat match goal with |- context [slen ?s] =>
    lazymatch goal with
    | _ : 0 <= slen s |- _ => fail
    | _ => pose proof (slen_nonneg s)
    end end.

Lemma good_conn c len : 0 <= len -> good len [] (conn_text c) (print_connection_info c len).
Proof.
  intros H. unfold print_connection_info. destruct (Z.leb_spec len (slen (conn_text c))).
  - apply good_error. change (slen []) with 0. lia.
  - apply good_put. change (slen []) with 0. lia.
Qed.

Lemma good_bandw b len : is_u32 (b_value b) -> good len [] (bandw_text b) (print_bandw b len).
Proof.
  intros Hb. pose proof (utoa_10 _ Hb). unfold print_bandw. destruct (Z.ltb_spec len (slen (b_modifier b) + 10 + 5)).
  - apply good_error. lengths. lia.
  - apply good_put. lengths. lia.
Qed.

Lemma good_attr a len : good len [] (attr_text a) (print_attr a len).
Proof.
  unfold print_attr. destruct (Z.ltb_spec len (slen (a_name a) + slen (a_value a) + 10)).
  - apply good_error. unfold attr_text. destruct (Z.eqb_spec (slen (a_value a)) 0); lengths; lia.
  - apply good_put. unfold attr_text. destruct (Z.eqb_spec (slen (a_value a)) 0); lengths; lia.
Qed.

Lemma good_conn_opt c len out :
  slen out <= len -> good len out (from_option conn_text [] c) (print_conn_opt c len out).
Proof.
  intros H. destruct c as [c|]; cbn [from_option print_conn_opt]; [|by apply good_nil].
  apply good_sub; [done|]. apply good_conn.
Qed.

Lemma good_fmts fmts len out : slen out <= len -> good len out (fmts_text fmts) (print_fmts fmts len out).
Proof.
  revert out. induction fmts as [|f fmts IH]; intros out H; cbn [print_fmts]; [by apply good_nil|].
  rewrite fmts_text_cons. destruct (Z.ltb_spec (slen f) (len - slen out)).
  - rewrite app_comm_cons. apply good_bind; [apply good_put; rewrite slen_cons; lia|apply IH].
  - apply good_error. rewrite slen_cons, slen_app. pose proof (slen_nonneg (fmts_text fmts)). lia.
Qed.

(** Numbers of the width the code gives them. *)
Record media_sizes (m : sdp_media) : Prop := {
  ms_port : 0 <= m_port m < 65536;
  ms_count : is_u32 (m_port_count m);
  ms_bandw : Forall (fun b => is_u32 (b_value b)) (m_bandw m)
}.

Record session_sizes (s : sdp_session) : Prop := {
  ss_id : is_u32 (o_id (s_origin s));
  ss_version : is_u32 (o_version (s_origin s));
  ss_start : is_u32 (s_start s);
  ss_stop : is_u32 (s_stop s);
  ss_bandw : Forall (fun b => is_u32 (b_value b)) (s_bandw s);
  ss_media : Forall media_sizes (s_media s)
}.

Lemma session_ok_sizes s : session_ok s -> session_sizes s.
Proof.
  intros []. split; [done..| |].
  - eapply Forall_impl; [apply so_bandw|]. by intros b [].
  - eapply Forall_impl; [apply so_media|]. intros m []. split; [done..|].
    eapply Forall_impl; [apply mo_bandw|]. by intros b [].
Qed.

Lemma good_media m len : media_sizes m -> good len [] (full_media_text m) (print_media_desc m len).
Proof.
  intros [Hp Hc Hb].
  assert (H5 : 1 <= slen (pj_utoa (m_port m)) <= 5) by (apply utoa_range; unfold is_u32; lia).
  pose proof (utoa_10 _ Hc). unfold print_media_desc, full_media_text.
  destruct (Z.ltb_spec len (slen (m_media m) + slen (m_transport m) + 12 + 24)).
  { apply good_error. unfold media_text. destruct (1 <? m_port_count m); lengths; lia. }
  apply good_bind.
  { apply good_put. unfold media_text. destruct (1 <? m_port_count m); lengths; lia. }
  intros Hl1. apply good_bind; [by apply good_fmts|]. intros Hl2.
  destruct (Z.ltb_spec (len - slen (([] ++ media_text m) ++ fmts_text (m_fmt m))) 2).
  { apply good_error_prefix. change (slen crlf) with 2. lia. }
  apply good_bind; [apply good_put; change (slen crlf) with 2; lia|]. intros Hl3.
  apply good_bind; [by apply good_conn_opt|]. intros Hl4.
  apply good_bind; [|intros Hl5].
  - apply good_all; [done|]. eapply Forall_impl; [done|]. intros b Hv room _. by apply good_bandw.
  - apply good_all; [done|]. apply Forall_forall. intros a _ room _. apply good_attr.
Qed.

(** ** Sessions *)

Lemma good_session ses len :
  session_sizes ses -> slen (origin_text (s_origin ses)) <= len ->
  s_start ses < 10 ^ 9 \/ s_stop ses < 10 ^ 9 ->
  good len [] (session_text ses) (pjmedia_sdp_print ses len).
Proof.
  intros [Hid Hv Hs Hp Hb Hm] Ho Ht.
  assert (Htime : slen (time_text (s_start ses) (s_stop ses)) <= 24).
  { pose proof (utoa_10 _ Hs). pose proof (utoa_10 _ Hp).
    assert (slen (pj_utoa (s_start ses)) <= 9 \/ slen (pj_utoa (s_stop ses)) <= 9)
      by (destruct Ht; [left|right]; apply utoa_range; done || lia).
    lengths. lia. }
  unfold pjmedia_sdp_print, print_session, session_text.
  pose proof (utoa_10 _ Hid). pose proof (utoa_10 _ Hv).
  destruct (Z.ltb_spec len (5 + 2 + slen (o_user (s_origin ses)) + 18 + slen (o_net_type (s_origin ses)) +
                            slen (o_addr (s_origin ses)) + 2)).
  { apply good_error_prefix. lengths. lia. }
  apply good_bind; [apply good_put; done|]. intros Hl1.
  destruct (Z.ltb_spec (len - slen ([] ++ origin_text (s_origin ses))) (8 + slen (s_name ses))).
  { apply good_error_prefix. unfold name_text. rewrite !slen_app in *. change (slen (lit "s=")) with 2. change (slen crlf) with 2. lia. }
  apply good_bind.
  { apply good_put. unfold name_text. rewrite !slen_app in *. change (slen (lit "s=")) with 2. change (slen crlf) with 2. lia. }
  intros Hl4. apply good_bind; [by apply good_conn_opt|]. intros Hl5.
  apply good_bind; [apply good_all; [done|]; eapply Forall_impl; [done|]; intros b Hv' room _; by apply good_bandw|].
  intros Hl6.
  match goal with |- good _ ?o _ _ => set (out := o) in * end.
  destruct (Z.ltb_spec (len - slen out) 24).
  { apply good_error_prefix. pose proof (slen_nonneg (time_text (s_start ses) (s_stop ses))). lia. }
  apply good_bind; [apply good_put; lia|]. intros Hl8.
  apply good_bind; [apply good_all; [done|]; apply Forall_forall; intros a _ room _; apply good_attr|].
  intros Hl9. apply good_all; [done|]. eapply Forall_impl; [done|]. intros m Hm' room _. by apply good_media.
Qed.

(** Printing a description, in a buffer with room for its first two
    lines, writes nothing outside the buffer: the result is the text of the
    description, or an error; a buffer 30 bytes larger than the text is always
    enough.  (The time line may be a byte longer than the room checked when
    both times have ten digits.) *)
Theorem sdp_print_bounds ses len :
  session_sizes ses -> slen (origin_text (s_origin ses)) <= len ->
  s_start ses < 10 ^ 9 \/ s_stop ses < 10 ^ 9 ->
  let text := session_text ses in
  (pjmedia_sdp_print ses len = Some None /\ len < slen text + 30) \/
  (pjmedia_sdp_print ses len = Some (Some text) /\ slen text <= len).
Proof. intros Hs Ho Ht. by apply good_session. Qed.

(** C16: A well-formed description that is printed is parsed back, with its
    session-wide direction moved to the media; only a port count of 1 is
    read as 0. *)
Theorem sdp_roundtrip ses len :
  session_ok ses -> s_start ses < 10 ^ 9 \/ s_stop ses < 10 ^ 9 -> slen (session_text ses) + 30 <= len ->
  exists text, pjmedia_sdp_print ses len = Some (Some text) /\
    pjmedia_sdp_parse text = Some (PJ_SUCCESS, Some (apply_media_direction (read_session ses))).
Proof.
  intros Hs Ht Hl. exists (session_text ses). split; [|by apply parse_session_text].
  destruct (good_session ses len) as [[_ H]|[H _]]; [by apply session_ok_sizes| |done| |done].
  - revert Hl. unfold session_text. rewrite slen_app.
    match goal with |- context [_ + slen ?t + 30] => pose proof (slen_nonneg t) end. lia.
  - cbn [app] in H. lia.
Qed.

(** ** Attributes with a format *)

Lemma token_not_space c : cs_token c = true -> scan_is_probably_space c = false.
Proof.
  intros H. unfold scan_is_probably_space. destruct (Z.leb_spec c 32), (Z.leb_spec 128 c); try done; exfalso.
  all: unfold cs_token, is_alpha, pj_isdigit, in_set in H;
    apply orb_true_iff in H as [[H|H]%orb_true_iff|H]; [apply orb_true_iff in H as [H|H]; zbool; lia|zbool; lia|].
  all: apply existsb_exists in H as (d & Hd & ->%Z.eqb_eq); vm_compute in Hd; intuition lia.
Qed.

Lemma skip_token b x r : token x -> scan_skip_if_space b (x ++ r) = x ++ r.
Proof.
  intros [Hne H]. destruct x as [|c x]; [done|]. inversion H as [|? ? Hc]. cbn [app scan_skip_if_space].
  by rewrite token_not_space.
Qed.

Lemma init_token x r : token x -> pj_scan_init PJ_SCAN_AUTOSKIP_WS (x ++ r) = x ++ r.
Proof.
  intros [Hne H]. destruct x as [|c x]; [done|]. inversion H as [|? ? Hc].
  by apply skip_whitespace_head, token_not_space.
Qed.

Lemma get_char_before c x r :
  c <> 0 -> token x -> pj_scan_get_char PJ_SCAN_AUTOSKIP_WS (c :: x ++ r) = Some (c, x ++ r).
Proof.
  intros Hc Hx. unfold pj_scan_get_char. rewrite (proj2 (Z.eqb_neq _ _) Hc). by rewrite skip_token.
Qed.

Lemma skip_space_token x r : token x -> scan_skip_if_space PJ_SCAN_AUTOSKIP_WS (32 :: x ++ r) = x ++ r.
Proof. intros Hx. change (scan_skip_if_space PJ_SCAN_AUTOSKIP_WS (32 :: x ++ r)) with (pj_scan_init PJ_SCAN_AUTOSKIP_WS (x ++ r)). by apply init_token. Qed.

Definition param_ok (p : list Z) : Prop := p = [] \/ token p.

Lemma rtpmap_parse_text pt enc rate param :
  token pt -> token enc -> is_u32 rate -> param_ok param ->
  rtpmap_parse (pt ++ 32 :: enc ++ 47 :: pj_utoa rate ++ (if slen param =? 0 then [] else [47]) ++ param) =
    (PJ_SUCCESS, mk_rtpmap pt enc rate param).
Proof.
  intros Hpt Henc Hr Hparam. pose proof (u32_range64 _ Hr) as H64.
  assert (Hdig : token (pj_utoa rate)) by by apply utoa_token.
  assert (Hd : Forall (fun c => cs_digit c = true) (pj_utoa rate)).
  { eapply Forall_impl; [by apply utoa_digit|]. unfold is_digit, cs_digit, pj_isdigit. intros c Hc.
    by rewrite (proj2 (Z.leb_le 48 c)), (proj2 (Z.leb_le c 57)) by lia. }
  unfold rtpmap_parse. rewrite init_token by done.
  rewrite get_app by (apply Hpt || done). rewrite skip_space_token by done.
  rewrite get_app by (apply Henc || done).
  change (scan_skip_if_space PJ_SCAN_AUTOSKIP_WS (47 :: ?r)) with (47 :: r).
  match goal with |- context [pj_scan_get_char PJ_SCAN_AUTOSKIP_WS (47 :: ?x ++ ?r)] =>
    rewrite (get_char_before 47 x r) by done end.
  change (negb (47 =? slash)) with false. cbv iota.
  destruct Hparam as [->|Hp].
  - change (slen [] =? 0) with true. cbv iota. rewrite !app_nil_r.
    rewrite get_end by (done || apply Hdig). by rewrite strtoul_u32.
  - rewrite (proj2 (Z.eqb_neq _ 0)) by (destruct Hp as [Hp _]; destruct param; [done|];
      rewrite slen_cons; pose proof (slen_nonneg param); lia).
    cbn [app]. rewrite get_app by (done || apply Hdig).
    change (scan_skip_if_space PJ_SCAN_AUTOSKIP_WS (47 :: param)) with (47 :: param). change (47 =? slash) with true. cbv iota.
    pose proof (get_char_before 47 param [] ltac:(done) Hp) as Hc. rewrite app_nil_r in Hc. rewrite Hc.
    rewrite get_end by apply Hp. by rewrite strtoul_u32.
Qed.

(** An [rtpmap] attribute made from its fields is read back as them. *)
Theorem rtpmap_roundtrip r a :
  token (r_pt r) -> token (r_enc_name r) -> is_u32 (r_clock_rate r) -> param_ok (r_param r) ->
  pjmedia_sdp_rtpmap_to_attr r = (PJ_SUCCESS, Some a) ->
  pjmedia_sdp_attr_get_rtpmap a = (PJ_SUCCESS, Some r).
Proof.
  intros Hpt Henc Hr Hp. unfold pjmedia_sdp_rtpmap_to_attr.
  destruct (_ || _); [by intros [=]|]. destruct (_ || _); [by intros [=]|]. intros [= <-].
  unfold pjmedia_sdp_attr_get_rtpmap. cbn [a_name a_value]. rewrite strcmp_refl. cbn [Z.eqb negb].
  pose proof (rtpmap_parse_text _ _ _ _ Hpt Henc Hr Hp) as E. destruct r as [pt enc rate param].
  cbn [r_pt r_enc_name r_clock_rate r_param] in *.
  destruct pt as [|c pt]; [by destruct Hpt|]. unfold space, slash. cbn [app] in *. by rewrite E.
Qed.

Lemma get_ssrc_value value :
  slen value <> 0 ->
  pjmedia_sdp_attr_get_ssrc (mk_attr (lit "ssrc") value) =
    match ssrc_parse (pj_scan_init PJ_SCAN_AUTOSKIP_WS value) with
    | Some (ssrc, _) => (PJ_SUCCESS, Some ssrc)
    | None => (PJMEDIA_SDP_EINSSRC, None)
    end.
Proof.
  intros H. unfold pjmedia_sdp_attr_get_ssrc. cbn [a_name a_value]. rewrite strcmp_refl.
  cbn [Z.eqb negb]. by rewrite (proj2 (Z.eqb_neq (slen value) 0) H).
Qed.

(** An [ssrc] attribute made by the library is read back as its source and
    canonical name. *)
Theorem ssrc_roundtrip ssrc cname a :
  is_u32 ssrc -> token cname ->
  pjmedia_sdp_attr_create_ssrc ssrc cname = Some a ->
  pjmedia_sdp_attr_get_ssrc a = (PJ_SUCCESS, Some (mk_ssrc ssrc cname)).
Proof.
  intros Hs Hc. unfold pjmedia_sdp_attr_create_ssrc. destruct (_ =? 0); [done|]. intros E.
  assert (a = mk_attr (lit "ssrc") (pj_utoa ssrc ++ lit " cname:" ++ cname)) as -> by congruence.
  pose proof (u32_range64 _ Hs) as H64. assert (Hdig : token (pj_utoa ssrc)) by by apply utoa_token.
  rewrite get_ssrc_value.
  2:{ rewrite slen_app. match goal with |- _ + slen ?t <> 0 => pose proof (slen_nonneg t) end.
      pose proof (utoa_10 _ Hs). lia. }
  rewrite init_token by done. unfold ssrc_parse.
  change (lit " cname:" ++ cname) with (32 :: [99; 110; 97; 109; 101] ++ 58 :: cname).
  erewrite scan_run; [|apply get_app; [apply Hdig| |done]].
  2:{ eapply Forall_impl; [by apply utoa_digit|]. unfold is_digit, cs_digit, pj_isdigit. intros c ?.
      by rewrite (proj2 (Z.leb_le 48 c)), (proj2 (Z.leb_le c 57)) by lia. }
  cbv beta. rewrite skip_space_token by (split; [done|by repeat constructor]). cbn [app].
  erewrite scan_run; [|reflexivity]. cbv beta.
  change (scan_skip_if_space PJ_SCAN_AUTOSKIP_WS (110 :: ?r)) with (110 :: r).
  change (110 :: 97 :: 109 :: 101 :: 58 :: cname) with ([110; 97; 109; 101] ++ 58 :: cname).
  erewrite scan_run; [|apply get_app; [done|by repeat constructor|done]]. cbv beta.
  change (scan_skip_if_space PJ_SCAN_AUTOSKIP_WS (58 :: cname)) with (58 :: cname).
  erewrite scan_run; [|reflexivity]. cbv beta iota. cbn [pj_scan_is_eof].
  pose proof (get_char_before 58 cname [] ltac:(done) Hc) as Hg. rewrite app_nil_r in Hg.
  erewrite scan_run; [|exact Hg]. cbv beta.
  change ((58 =? colon) && negb (str_is [110; 97; 109; 101] "cname")) with true. cbv iota.
  erewrite scan_run; [|apply get_end; apply Hc]. cbv beta. unfold mret, scan_ret. by rewrite strtoul_u32.
Qed.
