(* ===== verification/SdpTextDemo.v ===== *)
(** * SDP as text: witnesses

    Concrete descriptions that are printed and read back, and texts on which
    the code does what it should not. *)

From Stdlib Require Import String.
From S2P Require Import Prelude Hash PjString Scanner Sdp SdpDemo SdpText SdpTextSpec SdpPrint.
Local Open Scope Z_scope.

(** A session with a direction and a bandwidth, and two media. *)
Definition text_session : sdp_session :=
  mk_session (mk_origin (lit "alice") 2890844526 2890842807 (lit "IN") (lit "IP4") (lit "10.0.0.1"))
    (lit "A call") (Some demo_conn) [mk_bandw (lit "AS") 84] 0 0 [attr "sendonly" ""]
    [demo_audio; demo_media "video" 5002 ["31"; "99"]%string [attr "rtpmap" "99 h263-1998/90000"]].

(** Origins whose numbers have ten digits. *)
Definition long_session (start stop : Z) : sdp_session :=
  mk_session (mk_origin (lit "-") 4294967295 4294967295 (lit "IN") (lit "IP4") (lit "10.0.0.1"))
    (lit "-") None [] start stop [] [].

(** Boolean versions of the conditions on texts, to evaluate them. *)
Definition token_b (x : list Z) : bool := negb (bool_decide (x = [])) && forallb cs_token x.

Definition lacks_b (set x : list Z) : bool := forallb (fun c => negb (in_set set c)) x.

Definition u32_b (n : Z) : bool := (0 <=? n) && (n <? 4294967296).

Definition attr_b (a : sdp_attr) : bool := token_b (a_name a) && lacks_b eol (a_value a).

Definition conn_b (c : option sdp_conn) : bool :=
  match c with
  | Some c => lacks_b [space] (c_net_type c) && lacks_b [space] (c_addr_type c) &&
              lacks_b (47 :: ws_eol) (c_addr c)
  | None => true
  end.

Definition bandw_b (b : sdp_bandw) : bool := lacks_b [colon] (b_modifier b) && u32_b (b_value b).

Definition media_b (m : sdp_media) : bool :=
  lacks_b [space] (m_media m) && (0 <=? m_port m) && (m_port m <? 65536) && u32_b (m_port_count m) &&
  lacks_b ws_eol (m_transport m) && forallb token_b (m_fmt m) &&
  Nat.leb (length (m_fmt m)) PJMEDIA_MAX_SDP_FMT && conn_b (m_conn m) && forallb bandw_b (m_bandw m) &&
  Nat.leb (length (m_bandw m)) PJMEDIA_MAX_SDP_BANDW && forallb attr_b (m_attr m) &&
  Nat.leb (length (m_attr m)) PJMEDIA_MAX_SDP_ATTR.

Definition session_b (s : sdp_session) : bool :=
  let o := s_origin s in
  lacks_b [space] (o_user o) && u32_b (o_id o) && u32_b (o_version o) && lacks_b [space] (o_net_type o) &&
  lacks_b [space] (o_addr_type o) && lacks_b ws_eol (o_addr o) && lacks_b eol (s_name s) &&
  conn_b (s_conn s) && forallb bandw_b (s_bandw s) && Nat.leb (length (s_bandw s)) PJMEDIA_MAX_SDP_BANDW &&
  u32_b (s_start s) && u32_b (s_stop s) && forallb attr_b (s_attr s) &&
  Nat.leb (length (s_attr s)) PJMEDIA_MAX_SDP_ATTR && forallb media_b (s_media s) &&
  Nat.leb (length (s_media s)) PJMEDIA_MAX_SDP_MEDIA.

Lemma forallb_Forall {A} (f : A -> bool) (P : A -> Prop) l :
  (forall x, f x = true -> P x) -> forallb f l = true -> Forall P l.
Proof.
  intros Hf. induction l as [|x l IH]; cbn [forallb]; [constructor|]. intros [H1 H2]%andb_true_iff.
  constructor; auto.
Qed.

Lemma token_b_ok x : token_b x = true -> token x.
Proof.
  unfold token_b. intros [H1 H2]%andb_true_iff. apply negb_true_iff, bool_decide_eq_false in H1.
  split; [done|]. by eapply forallb_Forall; [|done].
Qed.

Lemma lacks_set_b_ok set x : lacks_b set x = true -> lacks_set set x.
Proof. apply forallb_Forall. intros c. apply negb_true_iff. Qed.

Lemma lacks_b_ok c x : lacks_b [c] x = true -> lacks c x.
Proof.
  apply forallb_Forall. intros d. rewrite negb_true_iff. cbn. rewrite orb_false_r. intros H ->.
  by rewrite Z.eqb_refl in H.
Qed.

Lemma u32_b_ok n : u32_b n = true -> is_u32 n.
Proof. unfold u32_b, is_u32. rewrite andb_true_iff, Z.leb_le, Z.ltb_lt. done. Qed.

Ltac split_b := repeat match goal with H : _ && _ = true |- _ => apply andb_true_iff in H; destruct H end.

Lemma attr_b_ok a : attr_b a = true -> attr_ok a.
Proof. unfold attr_b. intros H. split_b. split; [by apply token_b_ok|by apply lacks_set_b_ok]. Qed.

Lemma conn_b_ok c : conn_b c = true -> conn_opt_ok c.
Proof.
  destruct c as [c|]; [|done]. cbn [conn_b]. intros H. split_b.
  split; (by apply lacks_b_ok) || by apply lacks_set_b_ok.
Qed.

Lemma bandw_b_ok b : bandw_b b = true -> bandw_ok b.
Proof. unfold bandw_b. intros H. split_b. split; [by apply lacks_b_ok|by apply u32_b_ok]. Qed.

#[local] Hint Resolve token_b_ok lacks_set_b_ok lacks_b_ok u32_b_ok attr_b_ok conn_b_ok bandw_b_ok : sdp_b.

Lemma media_b_ok m : media_b m = true -> media_ok m.
Proof.
  unfold media_b. intros H. split_b. split; auto with sdp_b.
  - split; [by apply Z.leb_le|by apply Z.ltb_lt].
  - split; [by apply (forallb_Forall token_b); [apply token_b_ok|]|by apply Nat.leb_le].
  - split; [by apply (forallb_Forall bandw_b); [apply bandw_b_ok|]|by apply Nat.leb_le].
  - split; [by apply (forallb_Forall attr_b); [apply attr_b_ok|]|by apply Nat.leb_le].
Qed.

Lemma session_b_ok s : session_b s = true -> session_ok s.
Proof.
  unfold session_b. intros H. split_b. split; auto with sdp_b.
  - split; [by apply (forallb_Forall bandw_b); [apply bandw_b_ok|]|by apply Nat.leb_le].
  - split; [by apply (forallb_Forall attr_b); [apply attr_b_ok|]|by apply Nat.leb_le].
  - split; [by apply (forallb_Forall media_b); [apply media_b_ok|]|by apply Nat.leb_le].
Qed.

(** ** Witnesses *)

Lemma sdp_roundtrip_witness :
  exists text, pjmedia_sdp_print text_session 1000 = Some (Some text) /\
    pjmedia_sdp_parse text = Some (PJ_SUCCESS, Some (apply_media_direction (read_session text_session))).
Proof.
  apply (sdp_roundtrip text_session 1000);
    [apply session_b_ok; by vm_compute|left; vm_compute; done|by vm_compute].
Defined.

Lemma sdp_print_bounds_witness :
  let text := session_text text_session in
  (pjmedia_sdp_print text_session 100 = Some None /\ 100 < slen text + 30) \/
  (pjmedia_sdp_print text_session 100 = Some (Some text) /\ slen text <= 100).
Proof.
  apply (sdp_print_bounds text_session 100);
    [apply session_ok_sizes, session_b_ok; by vm_compute|by vm_compute|left; vm_compute; done].
Defined.

Definition demo_rtpmap : sdp_rtpmap := mk_rtpmap (lit "96") (lit "opus") 48000 (lit "2").

Lemma rtpmap_roundtrip_witness :
  exists a, pjmedia_sdp_rtpmap_to_attr demo_rtpmap = (PJ_SUCCESS, Some a) /\
    pjmedia_sdp_attr_get_rtpmap a = (PJ_SUCCESS, Some demo_rtpmap).
Proof.
  eexists. split; [by vm_compute|].
  apply (rtpmap_roundtrip demo_rtpmap);
    [apply token_b_ok; by vm_compute|apply token_b_ok; by vm_compute|apply u32_b_ok; by vm_compute|
     right; apply token_b_ok; by vm_compute|by vm_compute].
Defined.

Lemma ssrc_roundtrip_witness :
  exists a, pjmedia_sdp_attr_create_ssrc 123456789 (lit "alice") = Some a /\
    pjmedia_sdp_attr_get_ssrc a = (PJ_SUCCESS, Some (mk_ssrc 123456789 (lit "alice"))).
Proof.
  eexists. split; [by vm_compute|].
  apply (ssrc_roundtrip 123456789 (lit "alice"));
    [apply u32_b_ok; by vm_compute|apply token_b_ok; by vm_compute|by vm_compute].
Defined.

(** ** Where the code departs from what it means to do *)

(** The first lines are written after a check that leaves out the address
    type, the separators and most of the digits: a buffer of 38 to 47 bytes
    is overrun. *)
Theorem sdp_print_origin_overruns :
  pjmedia_sdp_print (long_session 0 0) 37 = Some None /\
  pjmedia_sdp_print (long_session 0 0) 38 = None /\ pjmedia_sdp_print (long_session 0 0) 47 = None.
Proof. by vm_compute. Qed.

(** The time line needs 25 bytes when both times have ten digits; 24 are
    checked. *)
Theorem sdp_print_time_overruns :
  pjmedia_sdp_print (long_session 4294967295 4294967295) 77 = None.
Proof. by vm_compute. Qed.

(** The canonical name is taken from any attribute of the source, and cut at
    the first character that is not in a token. *)
Theorem ssrc_any_attribute :
  pjmedia_sdp_attr_get_ssrc (attr "ssrc" "1 msid:abc") = (PJ_SUCCESS, Some (mk_ssrc 1 (lit "abc"))) /\
  pjmedia_sdp_attr_get_ssrc (attr "ssrc" "1 cname:alice@home") = (PJ_SUCCESS, Some (mk_ssrc 1 (lit "alice"))).
Proof. by vm_compute. Qed.
