(* ===== verification/Digest.v ===== *)
(** * Digests: what the algorithms share

    Words, copies and the absorption of a message in blocks of 64 bytes, which
    [md5.c] and [sha1.c] do with a context that holds the part of the message
    after the last whole block; and the class [Digest], what a digest promises
    to [hmac_md5.c], [hmac_sha1.c] and the STUN code. *)

From S2P Require Import Prelude Bytes PjString.
Local Open Scope Z_scope.

(** ** Words *)

(** [(value << bits) | (value >> (32 - bits))] on [pj_uint32_t]. *)
Definition rol (value bits : Z) : Z :=
  Z.lor (u32 (Z.shiftl value bits)) (Z.shiftr value (32 - bits)).

(** [(pj_uint32_t* )buf] on a little-endian machine, and back. *)
Fixpoint le_words (buf : list Z) : list Z :=
  match buf with
  | a :: b :: c :: d :: rest => (a + 256 * (b + 256 * (c + 256 * d))) :: le_words rest
  | _ => []
  end.

Definition le32 (v : Z) : list Z :=
  [v mod 256; v / 256 mod 256; v / 65536 mod 256; v / 16777216 mod 256].

Definition le_bytes (ws : list Z) : list Z := ws ≫= le32.

(** The words of a block as FIPS 180 reads them. *)
Fixpoint be_words (buf : list Z) : list Z :=
  match buf with
  | a :: b :: c :: d :: rest => (d + 256 * (c + 256 * (b + 256 * a))) :: be_words rest
  | _ => []
  end.

(** [pj_memcpy(&buf[j], data, len)]: undefined when it overruns [buf]. *)
Definition memcpy_at (buf : list Z) (j : Z) (data : list Z) : option (list Z) :=
  if decide (0 <= j /\ j + slen data <= slen buf)
  then Some (take (Z.to_nat j) buf ++ data ++ drop (Z.to_nat j + length data) buf)
  else None.

(** ** What a digest promises *)

(** A message is fed in chunks: [dg_rep ctx m] says that [ctx] has absorbed
    [m], and [dg_hash] is the function the digest computes. *)
Class Digest (ctx : Type) := {
  dg_init : ctx -> ctx;
  dg_update : ctx -> list Z -> option ctx;
  dg_final : ctx -> option (ctx * list Z);
  dg_size : nat;
  dg_hash : list Z -> list Z;
  dg_mem : ctx -> Prop;
  dg_rep : ctx -> list Z -> Prop;
  dg_init_rep : forall c, dg_mem c -> dg_rep (dg_init c) [];
  dg_update_rep : forall c m data, dg_rep c m -> Forall is_byte data -> slen data < 536870912 ->
    exists c', dg_update c data = Some c' /\ dg_rep c' (m ++ data);
  dg_final_rep : forall c m, dg_rep c m ->
    exists c', dg_final c = Some (c', dg_hash m) /\ dg_mem c';
  dg_hash_size : forall m, length (dg_hash m) = dg_size;
  dg_hash_bytes : forall m, Forall is_byte (dg_hash m);
  dg_size_le : (dg_size <= 64)%nat
}.

(** ** Facts about words *)

Lemma byte_testbit_high a n : is_byte a -> 8 <= n -> Z.testbit a n = false.
Proof.
  unfold is_byte. intros Ha Hn. destruct (decide (a = 0)) as [->|]; [by rewrite Z.bits_0|].
  apply Z.bits_above_log2; [lia|]. assert (Z.log2 a < 8); [|lia].
  apply Z.log2_lt_pow2; [lia|]. exact (proj2 Ha).
Qed.

(** The bits of a number written in base 256. *)
Lemma testbit_cons a r n :
  is_byte a -> 0 <= n ->
  Z.testbit (a + 256 * r) n = if n <? 8 then Z.testbit a n else Z.testbit r (n - 8).
Proof.
  intros Ha Hn. destruct (Z.ltb_spec n 8) as [H|H].
  - rewrite <- (Z.mod_pow2_bits_low (a + 256 * r) 8 n) by lia. f_equal.
    change (2 ^ 8) with 256. replace (a + 256 * r) with (a + r * 256) by lia.
    rewrite Z_mod_plus_full. by apply Z.mod_small.
  - replace (Z.testbit r (n - 8)) with (Z.testbit ((a + 256 * r) / 2 ^ 8) (n - 8)).
    + rewrite Z.div_pow2_bits by lia. f_equal. lia.
    + f_equal. change (2 ^ 8) with 256. replace (a + 256 * r) with (a + r * 256) by lia.
      rewrite Z_div_plus_full, Z.div_small by (lia || done). lia.
Qed.

Lemma u32_testbit v n : 0 <= n -> Z.testbit (u32 v) n = (n <? 32) && Z.testbit v n.
Proof.
  intros Hn. unfold u32. change 4294967296 with (2 ^ 32).
  destruct (Z.ltb_spec n 32); [by rewrite Z.mod_pow2_bits_low by lia|].
  by rewrite Z.mod_pow2_bits_high by lia.
Qed.

Lemma is_u32_testbit v n : is_u32 v -> 32 <= n -> Z.testbit v n = false.
Proof.
  intros Hv Hn. rewrite <- (u32_id v) by done. rewrite u32_testbit by lia.
  by destruct (Z.ltb_spec n 32); [lia|].
Qed.

(** Words that agree on their 32 bits are equal. *)
Lemma word_ext a b :
  is_u32 a -> is_u32 b -> (forall n, 0 <= n < 32 -> Z.testbit a n = Z.testbit b n) -> a = b.
Proof.
  intros Ha Hb H. apply Z.bits_inj'. intros n Hn. destruct (Z.ltb_spec n 32); [by apply H|].
  by rewrite !is_u32_testbit by done.
Qed.

Lemma testbit_bound v : 0 <= v -> (forall n, 32 <= n -> Z.testbit v n = false) -> is_u32 v.
Proof.
  intros Hv H. assert (E : v = u32 v); [|rewrite E; apply u32_range].
  apply Z.bits_inj'. intros n Hn. rewrite u32_testbit by done.
  destruct (Z.ltb_spec n 32); [done|]. by rewrite H.
Qed.

Lemma lor_u32 a b : is_u32 a -> is_u32 b -> is_u32 (Z.lor a b).
Proof.
  intros Ha Hb. apply testbit_bound; [apply Z.lor_nonneg; split; [apply Ha|apply Hb]|].
  intros n Hn. by rewrite Z.lor_spec, !is_u32_testbit.
Qed.

Lemma lxor_u32 a b : is_u32 a -> is_u32 b -> is_u32 (Z.lxor a b).
Proof.
  intros Ha Hb. apply testbit_bound.
  - apply Z.lxor_nonneg. unfold is_u32 in *. lia.
  - intros n Hn. by rewrite Z.lxor_spec, !is_u32_testbit.
Qed.

Lemma land_u32 a b : is_u32 a -> 0 <= b -> is_u32 (Z.land a b).
Proof.
  intros Ha Hb. apply testbit_bound; [apply Z.land_nonneg; by left; apply Ha|].
  intros n Hn. by rewrite Z.land_spec, is_u32_testbit.
Qed.

Lemma rol_u32 v k : is_u32 v -> 0 <= k <= 32 -> is_u32 (rol v k).
Proof.
  intros Hv Hk. apply lor_u32; [apply u32_range|]. unfold is_u32 in *.
  rewrite Z.shiftr_div_pow2 by lia. split.
  - apply Z.div_pos; lia.
  - apply Z.div_lt_upper_bound; [lia|]. assert (0 < 2 ^ (32 - k)) by lia. nia.
Qed.

#[export] Hint Resolve rol_u32 lxor_u32 lor_u32 : pj.

Lemma rol_testbit v k n :
  0 <= k <= 32 -> 0 <= n < 32 -> is_u32 v ->
  Z.testbit (rol v k) n = Z.testbit v ((n - k) mod 32).
Proof.
  intros Hk Hn Hv. unfold rol. rewrite Z.lor_spec, u32_testbit, Z.shiftl_spec, Z.shiftr_spec by lia.
  destruct (Z.ltb_spec n 32); [|lia]. cbn [andb]. destruct (Z.ltb_spec n k).
  - rewrite (Z.testbit_neg_r v (n - k)) by lia. cbn [orb]. f_equal.
    rewrite <- (Z_mod_plus_full _ 1), Z.mod_small; lia.
  - rewrite (is_u32_testbit v (n + (32 - k))) by (done || lia).
    rewrite orb_false_r, (Z.mod_small (n - k)) by lia. done.
Qed.

Lemma word_u32 a b c d :
  is_byte a -> is_byte b -> is_byte c -> is_byte d ->
  is_u32 (a + 256 * (b + 256 * (c + 256 * d))).
Proof. unfold is_byte, is_u32. lia. Qed.
#[export] Hint Resolve word_u32 : pj.

Lemma word_testbit a b c d n :
  is_byte a -> is_byte b -> is_byte c -> is_byte d -> 0 <= n ->
  Z.testbit (a + 256 * (b + 256 * (c + 256 * d))) n =
    if n <? 8 then Z.testbit a n else if n <? 16 then Z.testbit b (n - 8)
    else if n <? 24 then Z.testbit c (n - 16) else Z.testbit d (n - 24).
Proof.
  intros Ha Hb Hc Hd Hn. rewrite testbit_cons by done.
  destruct (Z.ltb_spec n 8); [done|]. rewrite testbit_cons by (done || lia).
  destruct (Z.ltb_spec (n - 8) 8), (Z.ltb_spec n 16); try lia; [done|].
  rewrite testbit_cons by (done || lia).
  destruct (Z.ltb_spec (n - 8 - 8) 8), (Z.ltb_spec n 24); try lia; f_equal; lia.
Qed.

(** [n < 32] bit positions, one goal each. *)
Lemma bits32 (P : Z -> Prop) :
  Forall P [0; 1; 2; 3; 4; 5; 6; 7; 8; 9; 10; 11; 12; 13; 14; 15; 16; 17; 18; 19; 20; 21;
            22; 23; 24; 25; 26; 27; 28; 29; 30; 31] ->
  forall n, 0 <= n < 32 -> P n.
Proof.
  change [0; 1; 2; 3; 4; 5; 6; 7; 8; 9; 10; 11; 12; 13; 14; 15; 16; 17; 18; 19; 20; 21;
    22; 23; 24; 25; 26; 27; 28; 29; 30; 31] with (Z.of_nat <$> seq 0 32).
  intros H n Hn. rewrite Forall_forall in H. apply H, list_elem_of_fmap.
  exists (Z.to_nat n). split; [lia|]. apply elem_of_seq. lia.
Qed.

(** ** Lists of words *)

Lemma four_ind (P : list Z -> Prop) :
  (forall m, (length m < 4)%nat -> P m) ->
  (forall a b c d m, P m -> P (a :: b :: c :: d :: m)) -> forall m, P m.
Proof.
  intros H1 H2. refine (fix go m := _).
  destruct m as [|a [|b [|c [|d m]]]]; [apply H1; cbn; lia..|]. apply H2, go.
Qed.

Lemma le_words_length n : forall buf, length buf = (4 * n)%nat -> length (le_words buf) = n.
Proof.
  induction n as [|n IH]; intros buf H; destruct buf as [|a [|b [|c [|d buf]]]]; cbn in *; try lia.
  f_equal. apply IH. lia.
Qed.

Lemma le32_word a b c d :
  is_byte a -> is_byte b -> is_byte c -> is_byte d ->
  le32 (a + 256 * (b + 256 * (c + 256 * d))) = [a; b; c; d].
Proof.
  unfold is_byte. intros. set (v := a + _). unfold le32.
  assert (E1 : v / 256 = b + 256 * (c + 256 * d)) by (unfold v; Z.to_euclidean_division_equations; lia).
  assert (E2 : v / 65536 = c + 256 * d) by (unfold v; Z.to_euclidean_division_equations; lia).
  assert (E3 : v / 16777216 = d) by (unfold v; Z.to_euclidean_division_equations; lia).
  rewrite E1, E2, E3. unfold v. repeat f_equal; Z.to_euclidean_division_equations; lia.
Qed.

Lemma le_bytes_length ws : length (le_bytes ws) = (4 * length ws)%nat.
Proof. induction ws as [|w ws IH]; [done|]. cbn. unfold le_bytes in IH. rewrite IH. lia. Qed.

Lemma le32_bytes v : Forall is_byte (le32 v).
Proof. repeat constructor; apply Z.mod_pos_bound; lia. Qed.

Lemma bind_bytes (f : Z -> list Z) ws :
  (forall v, Forall is_byte (f v)) -> Forall is_byte (ws ≫= f).
Proof. intros H. induction ws; [constructor|]. apply Forall_app; split; [apply H|done]. Qed.

Lemma bind_length (f : Z -> list Z) k ws :
  (forall v, length (f v) = k) -> length (ws ≫= f) = (k * length ws)%nat.
Proof.
  intros H. induction ws as [|w ws IH]; cbn; [lia|]. rewrite length_app, H.
  change (mbind f ws) with (ws ≫= f) in IH. rewrite IH. lia.
Qed.

(** ** Copies *)

Lemma rdn_slice buf n : forall i,
  rdn (i ++ buf) (slen i) n = if decide (n <= length buf)%nat then Some (take n buf) else None.
Proof.
  revert buf. induction n as [|n IH]; intros buf i; [by rewrite decide_True by lia|].
  cbn [rdn]. unfold slen. pose proof (rd8_app_r i buf 0) as E. rewrite Z.add_0_r in E. rewrite E.
  destruct buf as [|b buf]; [by rewrite decide_False by (cbn; lia)|]. cbn [lookup list_lookup]. ored.
  specialize (IH buf (i ++ [b])). rewrite <- app_assoc in IH. cbn [app] in IH. rewrite slen_app in IH.
  change (slen [b]) with 1 in IH. unfold slen in IH. rewrite IH. cbn [length take].
  repeat case_decide; try lia; done.
Qed.

Lemma memcpy_at_app a b c data :
  length b = length data ->
  memcpy_at (a ++ b ++ c) (slen a) data = Some (a ++ data ++ c).
Proof.
  intros H. unfold memcpy_at. rewrite decide_True.
  - f_equal. unfold slen. rewrite Nat2Z.id, take_app_length. f_equal. f_equal.
    rewrite drop_app_add, <- H. by rewrite drop_app_length.
  - rewrite !slen_app. pose proof (slen_nonneg a). pose proof (slen_nonneg c).
    unfold slen in *. lia.
Qed.

(** The first bytes of the buffer after a copy to [j]. *)
Lemma memcpy_at_take buf j data :
  0 <= j -> j + slen data <= slen buf ->
  exists buf', memcpy_at buf j data = Some buf' /\ length buf' = length buf /\
    take (Z.to_nat (j + slen data)) buf' = take (Z.to_nat j) buf ++ data.
Proof.
  intros Hj Hl. unfold memcpy_at. rewrite decide_True by done. eexists. split; [done|].
  unfold slen in *. split.
  - rewrite !length_app, length_take, length_drop. lia.
  - rewrite app_assoc, take_app_le by (rewrite length_app, length_take; lia).
    apply take_ge. rewrite length_app, length_take. lia.
Qed.

Lemma memcpy_at_bytes buf j data buf' :
  Forall is_byte buf -> Forall is_byte data -> memcpy_at buf j data = Some buf' ->
  Forall is_byte buf'.
Proof.
  unfold memcpy_at. intros Hb Hd H. case_decide; [|done]. injection H as <-.
  repeat apply Forall_app_2; auto using Forall_take, Forall_drop.
Qed.

(** ** Absorption of a message by blocks *)

Section absorb.
Context {St : Type} (compress : St -> list Z -> St).

Fixpoint absorb_n (n : nat) (s : St) (m : list Z) : St :=
  match n with
  | O => s
  | S n => absorb_n n (compress s (take 64 m)) (drop 64 m)
  end.

(** The whole blocks of [m], one after the other. *)
Definition absorb (s : St) (m : list Z) : St := absorb_n (length m / 64) s m.

(** The part of [m] after its last whole block. *)
Definition rest (m : list Z) : list Z := drop (64 * (length m / 64)) m.

Lemma rest_length m : length (rest m) = (length m mod 64)%nat.
Proof.
  unfold rest. rewrite length_drop. pose proof (Nat.div_mod_eq (length m) 64). lia.
Qed.

Lemma rest_lt m : (length (rest m) < 64)%nat.
Proof. rewrite rest_length. apply Nat.mod_upper_bound. lia. Qed.

Lemma absorb_short s m : (length m < 64)%nat -> absorb s m = s.
Proof. intros H. unfold absorb. by rewrite Nat.div_small. Qed.

Lemma rest_short m : (length m < 64)%nat -> rest m = m.
Proof. intros H. unfold rest. by rewrite Nat.div_small. Qed.

Lemma block_div (b d : list Z) : length b = 64%nat -> (length (b ++ d) / 64 = S (length d / 64))%nat.
Proof.
  intros H. rewrite length_app, H. replace (64 + length d)%nat with (length d + 1 * 64)%nat by lia.
  rewrite Nat.div_add by lia. lia.
Qed.

Lemma absorb_block s (b d : list Z) : length b = 64%nat -> absorb s (b ++ d) = absorb (compress s b) d.
Proof.
  intros H. unfold absorb. rewrite block_div by done. cbn [absorb_n].
  by rewrite <- H, take_app_length, drop_app_length.
Qed.

Lemma rest_block (b d : list Z) : length b = 64%nat -> rest (b ++ d) = rest d.
Proof.
  intros H. unfold rest. rewrite block_div by done.
  replace (64 * S (length d / 64))%nat with (length b + 64 * (length d / 64))%nat by lia.
  by rewrite drop_app_add.
Qed.

(** A message is its blocks and its rest. *)
Lemma block_ind (P : list Z -> Prop) :
  (forall m, (length m < 64)%nat -> P m) ->
  (forall b m, length b = 64%nat -> P m -> P (b ++ m)) -> forall m, P m.
Proof.
  intros H1 H2 m. remember (length m) as k eqn:E. revert m E. induction k as [k IH] using lt_wf_ind; intros m ->.
  destruct (decide (length m < 64)%nat) as [|Hm]; [by apply H1|].
  rewrite <- (take_drop 64 m). apply H2; [rewrite length_take; lia|].
  eapply IH; [|done]. rewrite length_drop. lia.
Qed.

Lemma absorb_app m d : forall s, absorb s (m ++ d) = absorb (absorb s m) (rest m ++ d).
Proof.
  induction m as [m H|b m H IH] using block_ind; intros s.
  - by rewrite (absorb_short s m), rest_short by done.
  - rewrite <- app_assoc, (absorb_block s b (m ++ d)), (absorb_block s b m), rest_block by done.
    apply IH.
Qed.

Lemma rest_app m d : rest (m ++ d) = rest (rest m ++ d).
Proof.
  induction m as [m H|b m H IH] using block_ind.
  - by rewrite (rest_short m) by done.
  - rewrite <- app_assoc, (rest_block b (m ++ d)), (rest_block b m) by done. exact IH.
Qed.

Lemma rest_suffix m : exists a, m = a ++ rest m.
Proof. exists (take (64 * (length m / 64)) m). unfold rest. by rewrite take_drop. Qed.

Lemma rest_bytes m : Forall is_byte m -> Forall is_byte (rest m).
Proof. apply Forall_drop. Qed.
End absorb.

(** ** The buffer of a context *)

(** The buffer of 64 bytes starts with [r]. *)
Definition holds (buf r : list Z) : Prop :=
  length buf = 64%nat /\ Forall is_byte buf /\ take (length r) buf = r.

Lemma holds_bytes buf r : holds buf r -> Forall is_byte r.
Proof. intros (_ & Hb & <-). by apply Forall_take. Qed.

(** Copying behind [r] up to the end of the buffer. *)
Lemma holds_fill buf r a :
  holds buf r -> length (r ++ a) = 64%nat -> memcpy_at buf (slen r) a = Some (r ++ a).
Proof.
  intros (Hl & _ & Ht) Ha. rewrite length_app in Ha. unfold memcpy_at, slen.
  rewrite decide_True by lia. rewrite Nat2Z.id, Ht, drop_ge, app_nil_r by lia. done.
Qed.

(** Copying behind what the buffer holds of a message, when there is room. *)
Lemma holds_more buf m d :
  holds buf (rest m) -> Forall is_byte d -> slen (rest m) + slen d <= 63 ->
  exists buf', memcpy_at buf (slen (rest m)) d = Some buf' /\
    (length (rest m ++ d) < 64)%nat /\ holds buf' (rest (m ++ d)).
Proof.
  intros (Hl & Hb & Ht) Hd H. unfold slen in H.
  assert (Hs : (length (rest m ++ d) < 64)%nat) by (rewrite length_app; lia).
  destruct (memcpy_at_take buf (slen (rest m)) d) as (buf' & E & Hl' & Ht').
  { apply slen_nonneg. } { unfold slen. lia. }
  exists buf'. split_and!; [done..|]. rewrite rest_app, (rest_short (rest m ++ d)) by done.
  split_and!; [lia|by apply (memcpy_at_bytes buf (slen (rest m)) d)|]. unfold slen in Ht'.
  rewrite Nat2Z.id, Ht, <- Nat2Z.inj_add, Nat2Z.id in Ht'. by rewrite length_app.
Qed.

(** Starting the buffer again with the rest of what has been absorbed. *)
Lemma holds_start buf d :
  length buf = 64%nat -> Forall is_byte buf -> Forall is_byte d ->
  exists buf', memcpy_at buf 0 (rest d) = Some buf' /\ holds buf' (rest d).
Proof.
  intros Hl Hb Hd. pose proof (rest_lt d).
  destruct (memcpy_at_take buf 0 (rest d)) as (buf' & E & Hl' & Ht'); [lia|unfold slen; lia|].
  exists buf'. split; [done|]. split_and!; [lia|by apply (memcpy_at_bytes buf 0 (rest d)); [|apply rest_bytes|]|].
  unfold slen in Ht'. by rewrite Z.add_0_l, Nat2Z.id in Ht'.
Qed.

(** The first bytes of new data that complete a block. *)
Lemma split_head m data :
  63 < slen (rest m) + slen data ->
  exists a d, data = a ++ d /\ length (rest m ++ a) = 64%nat /\ 64 - slen (rest m) = slen a.
Proof.
  intros H. unfold slen in *. pose proof (rest_lt m).
  exists (take (64 - length (rest m)) data), (drop (64 - length (rest m)) data).
  rewrite take_drop, length_app, length_take. split_and!; [done|lia|lia].
Qed.

Lemma rdn_head a d : rdn (a ++ d) 0 (Z.to_nat (slen a)) = Some a.
Proof.
  unfold slen. rewrite Nat2Z.id. pose proof (rdn_at a [] d) as H. exact H.
Qed.

Lemma rdn_rest a d :
  rdn (a ++ d) (slen (a ++ d) - slen (rest d))
    (Z.to_nat (slen (a ++ d) - (slen (a ++ d) - slen (rest d)))) = Some (rest d).
Proof.
  destruct (rest_suffix d) as [p Hp].
  replace (slen (a ++ d) - (slen (a ++ d) - slen (rest d))) with (slen (rest d)) by lia.
  rewrite Hp at 1 2. rewrite app_assoc, (slen_app (a ++ p)), Z.add_simpl_r.
  unfold slen. rewrite Nat2Z.id.
  pose proof (rdn_at (rest d) (a ++ p) []) as H. by rewrite app_nil_r in H.
Qed.

(** [(bits >> 3) & 63] is the number of bytes in the buffer. *)
Lemma count_pos m : Z.land (Z.shiftr (u32 (8 * slen m)) 3) 63 = slen (rest m).
Proof.
  change 63 with (Z.ones 6). rewrite Z.land_ones, Z.shiftr_div_pow2 by lia.
  unfold slen. rewrite rest_length, Nat2Z.inj_mod. change (2 ^ 3) with 8. change (2 ^ 6) with 64.
  unfold u32. change (Z.of_nat 64) with 64. Z.to_euclidean_division_equations; lia.
Qed.

(** The padding of RFC 1321 and FIPS 180: a bit 1, zeroes up to eight bytes
    before the end of a block. *)
Definition padding (n : Z) : list Z := 128 :: replicate (Z.to_nat ((55 - n) mod 64)) 0.

Lemma padding_length n : slen (padding n) = 1 + (55 - n) mod 64.
Proof.
  unfold padding. rewrite slen_cons. unfold slen. rewrite length_replicate.
  pose proof (Z.mod_pos_bound (55 - n) 64). lia.
Qed.
