(* ===== verification/Sha1.v ===== *)
(** * SHA-1

    The digest of [pjlib-util/sha1.c], and its correctness. *)

From Stdlib Require Import Btauto.
From S2P Require Import Prelude Bytes PjString Digest.
Local Open Scope Z_scope.

(** * SHA-1

    The digest of [pjlib-util/sha1.c], little-endian, and its correctness:
    feeding a message in any chunks gives the digest that FIPS 180 defines.
    [R0] to [R4] are the macros of the source; the expansion of the message
    is done in place in the block, as there. *)

Definition PJ_SHA1_DIGEST_SIZE : nat := 20.

Record pj_sha1_context := mk_sha1 {
  sha_state : list Z;
  sha_count0 : Z;
  sha_count1 : Z;
  sha_buffer : list Z
}.

#[export] Instance eta_sha1 : Settable pj_sha1_context :=
  fun c => mk_sha1 (sha_state c) (sha_count0 c) (sha_count1 c) (sha_buffer c).

(** ** The transformation of a block *)

(** The working variables [a] to [e]. *)
Inductive reg := Va | Vb | Vc | Vd | Ve.

Record vars := mk_vars { ra : Z; rb : Z; rc : Z; rd : Z; re : Z }.

#[export] Instance eta_vars : Settable vars :=
  fun s => mk_vars (ra s) (rb s) (rc s) (rd s) (re s).

Definition get (s : vars) (x : reg) : Z :=
  match x with Va => ra s | Vb => rb s | Vc => rc s | Vd => rd s | Ve => re s end.

Definition put (s : vars) (x : reg) (v : Z) : vars :=
  match x with
  | Va => s <| ra := v |> | Vb => s <| rb := v |> | Vc => s <| rc := v |>
  | Vd => s <| rd := v |> | Ve => s <| re := v |>
  end.

Definition blk0 (block : list Z) (i : Z) : option (Z * list Z) :=
  l ← zlookup block i;
  let l := Z.lor (Z.land (rol l 24) 0xFF00FF00) (Z.land (rol l 8) 0x00FF00FF) in
  block ← zstore block i l;
  Some (l, block).

Definition blk (block : list Z) (i : Z) : option (Z * list Z) :=
  l13 ← zlookup block (Z.land (i + 13) 15);
  l8 ← zlookup block (Z.land (i + 8) 15);
  l2 ← zlookup block (Z.land (i + 2) 15);
  l0 ← zlookup block (Z.land i 15);
  let l := rol (Z.lxor (Z.lxor (Z.lxor l13 l8) l2) l0) 1 in
  block ← zstore block (Z.land i 15) l;
  Some (l, block).

Definition round : Type := vars * list Z -> option (vars * list Z).

(** [z+=f(w,x,y)+expand(i)+k+rol(v,5); w=rol(w,30);] *)
Definition mix (f : Z -> Z -> Z -> Z) (k : Z) (expand : list Z -> Z -> option (Z * list Z))
    (v w x y z : reg) (i : Z) : round := fun '(s, block) =>
  r ← expand block i;
  let '(b, block) := r : Z * list Z in
  let s := put s z (u32 (get s z + (f (get s w) (get s x) (get s y) + b + k + rol (get s v) 5))) in
  let s := put s w (rol (get s w) 30) in
  Some (s, block).

Definition R0 := mix (fun w x y => Z.lxor (Z.land w (Z.lxor x y)) y) 0x5A827999 blk0.
Definition R1 := mix (fun w x y => Z.lxor (Z.land w (Z.lxor x y)) y) 0x5A827999 blk.
Definition R2 := mix (fun w x y => Z.lxor (Z.lxor w x) y) 0x6ED9EBA1 blk.
Definition R3 := mix (fun w x y => Z.lor (Z.land (Z.lor w x) y) (Z.land w x)) 0x8F1BBCDC blk.
Definition R4 := mix (fun w x y => Z.lxor (Z.lxor w x) y) 0xCA62C1D6 blk.

Definition rounds : list round :=
  [R0 Va Vb Vc Vd Ve 0; R0 Ve Va Vb Vc Vd 1; R0 Vd Ve Va Vb Vc 2; R0 Vc Vd Ve Va Vb 3;
   R0 Vb Vc Vd Ve Va 4; R0 Va Vb Vc Vd Ve 5; R0 Ve Va Vb Vc Vd 6; R0 Vd Ve Va Vb Vc 7;
   R0 Vc Vd Ve Va Vb 8; R0 Vb Vc Vd Ve Va 9; R0 Va Vb Vc Vd Ve 10; R0 Ve Va Vb Vc Vd 11;
   R0 Vd Ve Va Vb Vc 12; R0 Vc Vd Ve Va Vb 13; R0 Vb Vc Vd Ve Va 14; R0 Va Vb Vc Vd Ve 15;
   R1 Ve Va Vb Vc Vd 16; R1 Vd Ve Va Vb Vc 17; R1 Vc Vd Ve Va Vb 18; R1 Vb Vc Vd Ve Va 19;
   R2 Va Vb Vc Vd Ve 20; R2 Ve Va Vb Vc Vd 21; R2 Vd Ve Va Vb Vc 22; R2 Vc Vd Ve Va Vb 23;
   R2 Vb Vc Vd Ve Va 24; R2 Va Vb Vc Vd Ve 25; R2 Ve Va Vb Vc Vd 26; R2 Vd Ve Va Vb Vc 27;
   R2 Vc Vd Ve Va Vb 28; R2 Vb Vc Vd Ve Va 29; R2 Va Vb Vc Vd Ve 30; R2 Ve Va Vb Vc Vd 31;
   R2 Vd Ve Va Vb Vc 32; R2 Vc Vd Ve Va Vb 33; R2 Vb Vc Vd Ve Va 34; R2 Va Vb Vc Vd Ve 35;
   R2 Ve Va Vb Vc Vd 36; R2 Vd Ve Va Vb Vc 37; R2 Vc Vd Ve Va Vb 38; R2 Vb Vc Vd Ve Va 39;
   R3 Va Vb Vc Vd Ve 40; R3 Ve Va Vb Vc Vd 41; R3 Vd Ve Va Vb Vc 42; R3 Vc Vd Ve Va Vb 43;
   R3 Vb Vc Vd Ve Va 44; R3 Va Vb Vc Vd Ve 45; R3 Ve Va Vb Vc Vd 46; R3 Vd Ve Va Vb Vc 47;
   R3 Vc Vd Ve Va Vb 48; R3 Vb Vc Vd Ve Va 49; R3 Va Vb Vc Vd Ve 50; R3 Ve Va Vb Vc Vd 51;
   R3 Vd Ve Va Vb Vc 52; R3 Vc Vd Ve Va Vb 53; R3 Vb Vc Vd Ve Va 54; R3 Va Vb Vc Vd Ve 55;
   R3 Ve Va Vb Vc Vd 56; R3 Vd Ve Va Vb Vc 57; R3 Vc Vd Ve Va Vb 58; R3 Vb Vc Vd Ve Va 59;
   R4 Va Vb Vc Vd Ve 60; R4 Ve Va Vb Vc Vd 61; R4 Vd Ve Va Vb Vc 62; R4 Vc Vd Ve Va Vb 63;
   R4 Vb Vc Vd Ve Va 64; R4 Va Vb Vc Vd Ve 65; R4 Ve Va Vb Vc Vd 66; R4 Vd Ve Va Vb Vc 67;
   R4 Vc Vd Ve Va Vb 68; R4 Vb Vc Vd Ve Va 69; R4 Va Vb Vc Vd Ve 70; R4 Ve Va Vb Vc Vd 71;
   R4 Vd Ve Va Vb Vc 72; R4 Vc Vd Ve Va Vb 73; R4 Vb Vc Vd Ve Va 74; R4 Va Vb Vc Vd Ve 75;
   R4 Ve Va Vb Vc Vd 76; R4 Vd Ve Va Vb Vc 77; R4 Vc Vd Ve Va Vb 78; R4 Vb Vc Vd Ve Va 79].

Definition run_rounds (rs : list round) (s : vars * list Z) : option (vars * list Z) :=
  foldl (fun s r => s ≫= r) (Some s) rs.

(** The new state, and the block that the expansion has overwritten. *)
Definition SHA1_Transform (state buffer : list Z) : option (list Z * list Z) :=
  a ← state !! 0%nat; b ← state !! 1%nat; c ← state !! 2%nat; d ← state !! 3%nat;
  e ← state !! 4%nat;
  r ← run_rounds rounds (mk_vars a b c d e, le_words buffer);
  let '(s, block) := r : vars * list Z in
  Some ([u32 (a + ra s); u32 (b + rb s); u32 (c + rc s); u32 (d + rd s); u32 (e + re s)],
        le_bytes block).

(** ** The operations *)

Definition sha1_init_state : list Z :=
  [0x67452301; 0xEFCDAB89; 0x98BADCFE; 0x10325476; 0xC3D2E1F0].

Definition pj_sha1_init (context : pj_sha1_context) : pj_sha1_context :=
  context <| sha_state := sha1_init_state |> <| sha_count0 := 0 |> <| sha_count1 := 0 |>.

(** [len] is a [pj_size_t] of 64 bits. *)
Definition sha1_count (count0 count1 len : Z) : Z * Z :=
  let c0 := u32 (count0 + u32 (Z.shiftl (u32 len) 3)) in
  let c1 := if c0 <? Z.shiftl len 3 mod 18446744073709551616 then u32 (count1 + 1) else count1 in
  (c0, u32 (c1 + Z.shiftr (u32 len) 29)).

(** [for ( ; i + 63 < len; i += 64)] *)
Fixpoint sha1_blocks (fuel : nat) (state data : list Z) (len i : Z) : option (list Z * Z) :=
  match fuel with
  | O => None
  | S fuel =>
      if i + 63 <? len then
        tmp ← rdn data i 64;
        r ← SHA1_Transform state tmp;
        sha1_blocks fuel r.1 data len (i + 64)
      else Some (state, i)
  end.

Definition pj_sha1_update (context : pj_sha1_context) (data : list Z) : option pj_sha1_context :=
  let len := slen data in
  let j := Z.land (Z.shiftr (sha_count0 context) 3) 63 in
  let '(c0, c1) := sha1_count (sha_count0 context) (sha_count1 context) len in
  let context := context <| sha_count0 := c0 |> <| sha_count1 := c1 |> in
  if 63 <? j + len then
    let i := 64 - j in
    head ← rdn data 0 (Z.to_nat i);
    buffer ← memcpy_at (sha_buffer context) j head;
    r ← SHA1_Transform (sha_state context) buffer;
    let '(state, buffer) := r : list Z * list Z in
    r ← sha1_blocks (S (length data)) state data len i;
    let '(state, i) := r : list Z * Z in
    tail ← rdn data i (Z.to_nat (len - i));
    buffer ← memcpy_at buffer 0 tail;
    Some (context <| sha_state := state |> <| sha_buffer := buffer |>)
  else
    buffer ← memcpy_at (sha_buffer context) j data;
    Some (context <| sha_buffer := buffer |>).

(** [while ((context->count[0] & 504) != 448)] *)
Fixpoint sha1_pad (fuel : nat) (context : pj_sha1_context) : option pj_sha1_context :=
  match fuel with
  | O => None
  | S fuel =>
      if Z.land (sha_count0 context) 504 =? 448 then Some context
      else context ← pj_sha1_update context [0]; sha1_pad fuel context
  end.

Definition sha1_finalcount (context : pj_sha1_context) : list Z :=
  (fun i => Z.land (Z.shiftr (if 4 <=? i then sha_count0 context else sha_count1 context)
                      ((3 - Z.land i 3) * 8)) 255) <$> [0; 1; 2; 3; 4; 5; 6; 7].

Definition sha1_digest (state : list Z) : option (list Z) :=
  mapM (fun i => v ← state !! Nat.div i 4;
                 Some (Z.land (Z.shiftr v ((3 - Z.land (Z.of_nat i) 3) * 8)) 255))
    (seq 0 PJ_SHA1_DIGEST_SIZE).

(** The context, wiped, and the digest. *)
Definition pj_sha1_final (context : pj_sha1_context) : option (pj_sha1_context * list Z) :=
  let finalcount := sha1_finalcount context in
  context ← pj_sha1_update context [128];
  context ← sha1_pad 65 context;
  context ← pj_sha1_update context finalcount;
  digest ← sha1_digest (sha_state context);
  Some (mk_sha1 (replicate 5 0) 0 0 (replicate 64 0), digest).

(** ** FIPS 180 *)

Module Fips.

Definition Ch x y z := Z.lxor (Z.land x y) (Z.ldiff z x).
Definition Parity x y z := Z.lxor (Z.lxor x y) z.
Definition Maj x y z := Z.lxor (Z.lxor (Z.land x y) (Z.land x z)) (Z.land y z).

Definition f (t : nat) : Z -> Z -> Z -> Z :=
  if Nat.ltb t 20 then Ch else if Nat.ltb t 40 then Parity
  else if Nat.ltb t 60 then Maj else Parity.

Definition K (t : nat) : Z :=
  if Nat.ltb t 20 then 0x5a827999 else if Nat.ltb t 40 then 0x6ed9eba1
  else if Nat.ltb t 60 then 0x8f1bbcdc else 0xca62c1d6.

(** The message schedule, last word first. *)
Fixpoint schedule (n : nat) (M : list Z) : list Z :=
  match n with
  | O => rev M
  | S n =>
      let W := schedule n M in
      let w t := W !!! (t - 1)%nat in
      rol (Z.lxor (Z.lxor (Z.lxor (w 3) (w 8)) (w 14)) (w 16))%nat 1 :: W
  end.

Definition W (M : list Z) (t : nat) : Z := rev (schedule 64 M) !!! t.

Definition step (W : nat -> Z) (s : Z * Z * Z * Z * Z) (t : nat) : Z * Z * Z * Z * Z :=
  let '(a, b, c, d, e) := s in
  (u32 (rol a 5 + f t b c d + e + K t + W t), a, rol b 30, c, d).

Definition compress (H M : list Z) : list Z :=
  match H with
  | [h0; h1; h2; h3; h4] =>
      let '(a, b, c, d, e) := foldl (step (W (be_words M))) (h0, h1, h2, h3, h4) (seq 0 80) in
      [u32 (h0 + a); u32 (h1 + b); u32 (h2 + c); u32 (h3 + d); u32 (h4 + e)]
  | _ => []
  end.

Definition pad (m : list Z) : list Z :=
  let bits := 8 * slen m in
  m ++ padding (slen m) ++ be32 (u32 (bits / 4294967296)) ++ be32 (u32 bits).

Definition sha1 (m : list Z) : list Z := absorb compress sha1_init_state (pad m) ≫= be32.

End Fips.

(** * SHA-1: correctness

    The unrolled rounds with their rotating variables and the expansion in
    place are the compression function of FIPS 180; a context that absorbs
    chunks holds the rest of the message; the final padding is that of
    FIPS 180.  [sha1_digest_inst] is the instance of [Digest]. *)

(** ** Words of a block *)

Definition bswap (l : Z) : Z :=
  Z.lor (Z.land (rol l 24) 0xFF00FF00) (Z.land (rol l 8) 0x00FF00FF).

(** Evaluate the positions of bits, and the bits of constants. *)
Ltac bit_eval :=
  lazy -[Z.testbit orb andb];
  repeat match goal with
  | |- context [Z.testbit (Zpos ?p) ?n] =>
      let b := eval vm_compute in (Z.testbit (Zpos p) n) in
      change (Z.testbit (Zpos p) n) with b
  end.

Lemma bswap_spec a b c d :
  is_byte a -> is_byte b -> is_byte c -> is_byte d ->
  bswap (a + 256 * (b + 256 * (c + 256 * d))) = d + 256 * (c + 256 * (b + 256 * a)).
Proof.
  intros Ha Hb Hc Hd. apply word_ext.
  - apply lor_u32; (apply land_u32; [apply rol_u32; [auto with pj|lia]|lia]).
  - auto with pj.
  - apply bits32.
    repeat (apply Forall_cons; split); [..|apply Forall_nil; exact I]; unfold bswap; rewrite Z.lor_spec, !Z.land_spec, !rol_testbit by (auto with pj; lia);
      rewrite !word_testbit by (done || lia || (apply Z.mod_pos_bound; lia)); bit_eval; btauto.
Qed.

Lemma be_le_words buf : Forall is_byte buf -> be_words buf = bswap <$> le_words buf.
Proof.
  induction buf as [buf H|a b c d buf IH] using four_ind; intros Hb.
  - by destruct buf as [|a [|b [|c [|d buf]]]]; try (cbn in H; lia).
  - decompose_Forall_hyps. cbn [be_words le_words fmap list_fmap].
    by rewrite bswap_spec, IH.
Qed.

(** ** The rounds *)

Definition reg_of (n : nat) : reg :=
  match n with 0%nat => Va | 1%nat => Vb | 2%nat => Vc | 3%nat => Vd | _ => Ve end.

(** The variable in the [k]-th place of the [t]-th round. *)
Definition reg_at (t k : nat) : reg := reg_of ((k + 4 * (t mod 5)) mod 5).

Definition round_kind (t : nat) : reg -> reg -> reg -> reg -> reg -> Z -> round :=
  if Nat.ltb t 16 then R0 else if Nat.ltb t 20 then R1 else if Nat.ltb t 40 then R2
  else if Nat.ltb t 60 then R3 else R4.

Definition round_of (t : nat) : round :=
  round_kind t (reg_at t 0) (reg_at t 1) (reg_at t 2) (reg_at t 3) (reg_at t 4) (Z.of_nat t).

Lemma rounds_eq : rounds = round_of <$> seq 0 80.
Proof. reflexivity. Qed.

(** The variables as FIPS names them in round [t]. *)
Definition view (t : nat) (s : vars) : Z * Z * Z * Z * Z :=
  (get s (reg_at t 0), get s (reg_at t 1), get s (reg_at t 2), get s (reg_at t 3),
   get s (reg_at t 4)).

Lemma mod5 t :
  (t mod 5 = 0 /\ S t mod 5 = 1 \/ t mod 5 = 1 /\ S t mod 5 = 2 \/
   t mod 5 = 2 /\ S t mod 5 = 3 \/ t mod 5 = 3 /\ S t mod 5 = 4 \/
   t mod 5 = 4 /\ S t mod 5 = 0)%nat.
Proof.
  pose proof (Nat.div_mod_eq t 5). pose proof (Nat.mod_upper_bound t 5).
  pose proof (Nat.div_mod_eq (S t) 5). pose proof (Nat.mod_upper_bound (S t) 5). lia.
Qed.

(** A round computes one step and renames the variables. *)
Lemma mix_view fn k expand t s block w block' :
  expand block (Z.of_nat t) = Some (w, block') ->
  exists s', mix fn k expand (reg_at t 0) (reg_at t 1) (reg_at t 2) (reg_at t 3) (reg_at t 4)
      (Z.of_nat t) (s, block) = Some (s', block') /\
    let '(a, b, c, d, e) := view t s in
    view (S t) s' = (u32 (rol a 5 + fn b c d + e + k + w), a, rol b 30, c, d).
Proof.
  intros E. unfold mix. rewrite E. ored. eexists. split; [done|]. unfold view, reg_at.
  destruct (mod5 t) as [[-> ->]|[[-> ->]|[[-> ->]|[[-> ->]|[-> ->]]]]];
    cbn; (match goal with |- (u32 ?x, _, _, _, _) = (u32 ?y, _, _, _, _) =>
            replace y with x by lia; reflexivity end).
Qed.

Lemma Ch_eq x y z : Z.lxor (Z.land x (Z.lxor y z)) z = Fips.Ch x y z.
Proof.
  unfold Fips.Ch. apply Z.bits_inj. intros n.
  rewrite !Z.lxor_spec, !Z.land_spec, Z.ldiff_spec, Z.lxor_spec. btauto.
Qed.

Lemma Maj_eq x y z : Z.lor (Z.land (Z.lor x y) z) (Z.land x y) = Fips.Maj x y z.
Proof.
  unfold Fips.Maj. apply Z.bits_inj. intros n.
  rewrite !Z.lxor_spec, !Z.lor_spec, !Z.land_spec, Z.lor_spec. btauto.
Qed.

(** ** The message schedule *)

Lemma schedule_length n M : length (Fips.schedule n M) = (n + length M)%nat.
Proof. induction n as [|n IH]; cbn [Fips.schedule length]; [apply length_rev|lia]. Qed.

Lemma schedule_grows k : forall n M,
  exists l, Fips.schedule (k + n) M = l ++ Fips.schedule n M.
Proof.
  induction k as [|k IH]; intros n M; [by exists []|].
  destruct (IH n M) as [l Hl]. cbn [Nat.add Fips.schedule]. rewrite Hl.
  eexists (_ :: l). reflexivity.
Qed.

(** The word of step [t] is the last of the schedule when it is made. *)
Lemma W_schedule M n t :
  (n <= 64)%nat -> (t < n + length M)%nat -> Fips.W M t = rev (Fips.schedule n M) !!! t.
Proof.
  intros Hn Ht. unfold Fips.W. destruct (schedule_grows (64 - n) n M) as [l Hl].
  replace (64 - n + n)%nat with 64%nat in Hl by lia. rewrite Hl, rev_app_distr.
  apply lookup_total_app_l. rewrite length_rev, schedule_length. lia.
Qed.

Lemma W_first M t : (t < length M)%nat -> Fips.W M t = M !!! t.
Proof. intros H. rewrite (W_schedule M 0) by lia. cbn [Fips.schedule]. by rewrite rev_involutive. Qed.

Lemma W_next M n :
  (n < 64)%nat -> Fips.W M (n + length M) = Fips.schedule (S n) M !!! 0%nat.
Proof.
  intros H. rewrite (W_schedule M (S n)) by lia. cbn [Fips.schedule rev].
  rewrite lookup_total_app_r; rewrite length_rev, schedule_length; [|lia].
  by rewrite Nat.sub_diag.
Qed.

(** ** Expansion in place *)

(** The block in the first sixteen rounds: the words used are in place. *)
Definition block_head (raw : list Z) (t : nat) : list Z := take t (bswap <$> raw) ++ drop t raw.

Lemma blk0_head raw t :
  (t < length raw)%nat ->
  blk0 (block_head raw t) (Z.of_nat t) = Some ((bswap <$> raw) !!! t, block_head raw (S t)).
Proof.
  intros Ht. destruct (lookup_lt_is_Some_2 raw t Ht) as [l Hl].
  assert (E : length (take t (bswap <$> raw)) = t) by (rewrite length_take, length_fmap; lia).
  unfold blk0, block_head. rewrite zlookup_nat, lookup_app_r by lia.
  rewrite E, Nat.sub_diag, (drop_S _ _ _ Hl). cbn [lookup list_lookup]. ored.
  rewrite zstore_nat by (rewrite length_app, E; cbn; lia). ored.
  rewrite insert_app_r_alt, E, Nat.sub_diag by lia. cbn [insert list_insert].
  assert (Hs : (bswap <$> raw) !! t = Some (bswap l)) by by rewrite list_lookup_fmap, Hl.
  rewrite (list_lookup_total_correct _ _ _ Hs), (take_S_r _ _ _ Hs), <- app_assoc. done.
Qed.

(** From then on it holds the last sixteen words, at their index modulo 16. *)
Definition block_tail (W : list Z) (n : nat) (block : list Z) : Prop :=
  length block = 16%nat /\
  forall k, (k < 16)%nat -> block !! ((15 + n - k) mod 16)%nat = W !! k.

Lemma block_tail_start raw :
  length raw = 16%nat ->
  block_tail (Fips.schedule 0 (bswap <$> raw)) 0 (block_head raw 16).
Proof.
  intros H. unfold block_head. rewrite take_ge, drop_ge, app_nil_r by (rewrite ?length_fmap; lia).
  split; [by rewrite length_fmap|]. intros k Hk. cbn [Fips.schedule].
  rewrite Nat.mod_small by lia. rewrite rev_alt. change (rev_append ?l []) with (reverse l).
  rewrite reverse_lookup, length_fmap by (rewrite length_fmap; lia). f_equal. lia.
Qed.

Lemma land15 (t k : nat) : Z.land (Z.of_nat t + Z.of_nat k) 15 = Z.of_nat ((t + k) mod 16).
Proof.
  rewrite <- Nat2Z.inj_add, Nat2Z.inj_mod.
  change 15 with (Z.ones 4). rewrite Z.land_ones by lia. done.
Qed.

Lemma land15_0 (t : nat) : Z.land (Z.of_nat t) 15 = Z.of_nat (t mod 16).
Proof. pose proof (land15 t 0) as H. by rewrite Z.add_0_r, Nat.add_0_r in H. Qed.

Lemma blk_tail M n block :
  length M = 16%nat ->
  block_tail (Fips.schedule n M) n block ->
  exists block', blk block (Z.of_nat (16 + n)) = Some (Fips.schedule (S n) M !!! 0%nat, block') /\
    block_tail (Fips.schedule (S n) M) (S n) block'.
Proof.
  intros HM [Hlen Hb]. set (W := Fips.schedule n M) in *.
  assert (HW : length W = (n + 16)%nat) by (unfold W; rewrite schedule_length; lia).
  assert (Hat : forall k, (k < 16)%nat ->
    zlookup block (Z.of_nat ((15 + n - k) mod 16)) = Some (W !!! k)).
  { intros k Hk. rewrite zlookup_nat, Hb by done. apply list_lookup_lookup_total_lt. lia. }
  unfold blk. change 13 with (Z.of_nat 13). change 8 with (Z.of_nat 8). change 2 with (Z.of_nat 2).
  rewrite !land15, !land15_0.
  replace ((16 + n + 13) mod 16)%nat with ((15 + n - 2) mod 16)%nat
    by (rewrite <- (Nat.Div0.mod_add (15 + n - 2) 1); f_equal; lia).
  replace ((16 + n + 8) mod 16)%nat with ((15 + n - 7) mod 16)%nat
    by (rewrite <- (Nat.Div0.mod_add (15 + n - 7) 1); f_equal; lia).
  replace ((16 + n + 2) mod 16)%nat with ((15 + n - 13) mod 16)%nat
    by (rewrite <- (Nat.Div0.mod_add (15 + n - 13) 1); f_equal; lia).
  rewrite !Hat by lia. ored.
  replace ((16 + n) mod 16)%nat with ((15 + n - 15) mod 16)%nat
    by (rewrite <- (Nat.Div0.mod_add (15 + n - 15) 1); f_equal; lia).
  rewrite Hat by lia. ored.
  assert (Hi : ((15 + n - 15) mod 16 < length block)%nat)
    by (rewrite Hlen; apply Nat.mod_upper_bound; lia).
  rewrite zstore_nat by done. ored. eexists. split; [done|].
  split; [by rewrite length_insert|]. intros k Hk. cbn [Fips.schedule]. fold W.
  rewrite insert_lookup by done. destruct k as [|k].
  - rewrite decide_True; [done|]. rewrite <- (Nat.Div0.mod_add (15 + n - 15) 1). f_equal. lia.
  - rewrite decide_False.
    + cbn [lookup list_lookup]. rewrite <- Hb by lia. f_equal; f_equal; lia.
    + intros E. assert (15 + S n - S k = n + (15 - k))%nat as E2 by lia.
      rewrite E2 in E. replace (15 + n - 15)%nat with n in E by lia.
      pose proof (Nat.div_mod_eq n 16). pose proof (Nat.div_mod_eq (n + (15 - k)) 16).
      rewrite <- E in H0. nia.
Qed.

(** ** All the rounds *)

Lemma round_step t s block w block' :
  (t < 80)%nat ->
  (if Nat.ltb t 16 then blk0 else blk) block (Z.of_nat t) = Some (w, block') ->
  exists s', round_of t (s, block) = Some (s', block') /\
    view (S t) s' = Fips.step (fun _ => w) (view t s) t.
Proof.
  intros Ht E. unfold round_of, round_kind.
  destruct (Nat.ltb t 16) eqn:E16; zbool;
    [|destruct (Nat.ltb t 20) eqn:E20; [|destruct (Nat.ltb t 40) eqn:E40;
      [|destruct (Nat.ltb t 60) eqn:E60]]]; zbool;
    unfold R0, R1, R2, R3, R4;
    match goal with |- context [mix ?fn ?k _] =>
      destruct (mix_view fn k _ t s block w block' E) as (s' & -> & Hv) end;
    exists s'; (split; [done|]);
    destruct (view t s) as [[[[a b] c] d] e]; cbn [Fips.step];
    unfold Fips.f, Fips.K; repeat (case_match; zbool; try lia);
    rewrite ?Ch_eq, ?Maj_eq in Hv; exact Hv.
Qed.

Lemma step_word W s t : Fips.step W s t = Fips.step (fun _ => W t) s t.
Proof. by destruct s as [[[[? ?] ?] ?] ?]. Qed.

Definition block_at (raw : list Z) (t : nat) (block : list Z) : Prop :=
  if Nat.leb t 16 then block = block_head raw t
  else block_tail (Fips.schedule (t - 16) (bswap <$> raw)) (t - 16) block.

Lemma block_at_next raw t block :
  length raw = 16%nat -> (t < 80)%nat -> block_at raw t block ->
  exists block', (if Nat.ltb t 16 then blk0 else blk) block (Z.of_nat t)
      = Some (Fips.W (bswap <$> raw) t, block') /\ block_at raw (S t) block'.
Proof.
  intros Hl Ht Hb. unfold block_at in *.
  assert (HM : length (bswap <$> raw) = 16%nat) by by rewrite length_fmap.
  destruct (Nat.ltb t 16) eqn:E; zbool.
  - destruct (Nat.leb t 16) eqn:E2; zbool; [|lia]. subst block.
    rewrite blk0_head, W_first by lia. eexists. split; [done|].
    by destruct (Nat.leb (S t) 16) eqn:E3; zbool; [|lia].
  - destruct (blk_tail (bswap <$> raw) (t - 16) block HM) as (block' & E2 & H').
    { destruct (Nat.leb t 16) eqn:E2; zbool; [|done]. assert (t = 16%nat) as -> by lia.
      subst block. by apply block_tail_start. }
    exists block'. replace (16 + (t - 16))%nat with t in E2 by lia. rewrite E2. split.
    + rewrite <- W_next by lia. do 3 f_equal. lia.
    + destruct (Nat.leb (S t) 16) eqn:E3; zbool; [lia|].
      by replace (S t - 16)%nat with (S (t - 16)) by lia.
Qed.

Lemma run_rounds_run raw s0 t :
  length raw = 16%nat -> (t <= 80)%nat ->
  exists s block, run_rounds (round_of <$> seq 0 t) (s0, raw) = Some (s, block) /\
    view t s = foldl (Fips.step (Fips.W (bswap <$> raw))) (view 0 s0) (seq 0 t) /\
    block_at raw t block.
Proof.
  intros Hl. induction t as [|t IH]; intros Ht; [by exists s0, raw|].
  destruct IH as (s & block & Hr & Hv & Hb); [lia|].
  destruct (block_at_next raw t block Hl) as (block' & E & Hb'); [lia|done|].
  destruct (round_step t s block _ block' Ht E) as (s' & Hs & Hv').
  exists s', block'. rewrite seq_S. split_and!; [| |done].
  - unfold run_rounds in *. rewrite fmap_app, foldl_app, Hr. exact Hs.
  - rewrite foldl_app, <- Hv. cbn [foldl Nat.add]. rewrite step_word. exact Hv'.
Qed.

(** The transformation is the compression function of FIPS 180. *)
Lemma transform_compress state buffer :
  length state = 5%nat -> length buffer = 64%nat -> Forall is_byte buffer ->
  exists buffer', SHA1_Transform state buffer = Some (Fips.compress state buffer, buffer') /\
    length buffer' = 64%nat /\ Forall is_byte buffer'.
Proof.
  intros Hs Hb Hbytes. destruct state as [|a [|b [|c [|d [|e [|]]]]]]; try discriminate.
  assert (Hl : length (le_words buffer) = 16%nat) by by apply le_words_length.
  destruct (run_rounds_run (le_words buffer) (mk_vars a b c d e) 80 Hl) as (s & block & E & Hv & Hat);
    [lia|].
  unfold SHA1_Transform. cbn [lookup list_lookup]. ored. rewrite rounds_eq, E. ored.
  exists (le_bytes block). split_and!.
  - assert (Hv' : foldl (Fips.step (Fips.W (be_words buffer))) (a, b, c, d, e) (seq 0 80) = view 80 s)
      by (rewrite be_le_words by done; symmetry; exact Hv).
    unfold Fips.compress. rewrite Hv'. reflexivity.
  - rewrite le_bytes_length. destruct Hat as [Hlen _]. by rewrite Hlen.
  - apply bind_bytes, le32_bytes.
Qed.

(** ** Chunks *)

Definition sha1_rep (c : pj_sha1_context) (m : list Z) : Prop :=
  sha_state c = absorb Fips.compress sha1_init_state m /\
  sha_count0 c = u32 (8 * slen m) /\ sha_count1 c = u32 (8 * slen m / 4294967296) /\
  holds (sha_buffer c) (rest m).

Lemma compress_length H M : length H = 5%nat -> length (Fips.compress H M) = 5%nat.
Proof.
  intros E. destruct H as [|? [|? [|? [|? [|? [|]]]]]]; try discriminate. cbn [Fips.compress].
  by destruct (foldl _ _ _) as [[[[? ?] ?] ?] ?].
Qed.

Lemma absorb_length m : forall s, length s = 5%nat -> length (absorb Fips.compress s m) = 5%nat.
Proof.
  induction m as [m H|b m H IH] using block_ind; intros s Hs.
  - by rewrite absorb_short.
  - rewrite absorb_block by done. by apply IH, compress_length.
Qed.

Lemma sha1_count_add n len :
  0 <= n -> 0 <= len < 536870912 ->
  sha1_count (u32 n) (u32 (n / 4294967296)) len =
    (u32 (n + 8 * len), u32 ((n + 8 * len) / 4294967296)).
Proof.
  intros Hn Hl. unfold sha1_count, u32. rewrite !Z.shiftl_mul_pow2, Z.shiftr_div_pow2 by lia.
  change (2 ^ 3) with 8. change (2 ^ 29) with 536870912.
  assert (E : (n mod 4294967296 + len mod 4294967296 * 8 mod 4294967296) mod 4294967296
              = (n + 8 * len) mod 4294967296) by (Z.to_euclidean_division_equations; lia).
  rewrite E, (Z.mod_small (len * 8)), (Z.mod_small len) by lia.
  rewrite (Z.div_small len) by lia. f_equal.
  destruct (Z.ltb_spec ((n + 8 * len) mod 4294967296) (len * 8));
    Z.to_euclidean_division_equations; lia.
Qed.

Lemma sha1_blocks_spec fuel : forall state pre d,
  length state = 5%nat -> Forall is_byte d -> (length d < fuel)%nat ->
  sha1_blocks fuel state (pre ++ d) (slen (pre ++ d)) (slen pre)
    = Some (absorb Fips.compress state d, slen (pre ++ d) - slen (rest d)).
Proof.
  induction fuel as [|fuel IH]; intros state pre d Hs Hd Hf; [lia|]. cbn [sha1_blocks].
  rewrite slen_app. destruct (Z.ltb_spec (slen pre + 63) (slen pre + slen d)) as [H|H].
  - assert (Hl : (64 <= length d)%nat) by (unfold slen in H; lia).
    rewrite <- (take_drop 64 d) in Hd |- *. apply Forall_app in Hd as [Hb Hd].
    assert (E : length (take 64 d) = 64%nat) by (rewrite length_take; lia).
    assert (Ed : (length (drop 64 d) < fuel)%nat) by (rewrite length_drop; lia).
    set (b := take 64 d) in *. set (d' := drop 64 d) in *. clearbody b d'.
    rewrite rdn_slice, length_app, decide_True by lia. ored.
    rewrite take_app_le, take_ge by lia.
    destruct (transform_compress state b) as (buf & -> & _); [done..|]. ored. cbn [fst].
    rewrite absorb_block, rest_block by done.
    replace (slen pre + 64) with (slen (pre ++ b)) by (rewrite slen_app; unfold slen; lia).
    replace (slen pre + slen (b ++ d')) with (slen ((pre ++ b) ++ d')) by (rewrite !slen_app; lia).
    rewrite app_assoc. apply IH; auto using compress_length.
  - assert (Hl : (length d < 64)%nat) by (unfold slen in H; lia).
    rewrite absorb_short, rest_short by done. do 2 f_equal. lia.
Qed.

Lemma sha1_update_rep c m data :
  sha1_rep c m -> Forall is_byte data -> slen data < 536870912 ->
  exists c', pj_sha1_update c data = Some c' /\ sha1_rep c' (m ++ data).
Proof.
  intros (Hst & Hc0 & Hc1 & Hbuf) Hd Hl.
  pose proof (slen_nonneg data) as Hd0. pose proof (slen_nonneg m) as Hm0.
  unfold pj_sha1_update. rewrite Hc0, Hc1, count_pos, sha1_count_add by lia.
  replace (8 * slen m + 8 * slen data) with (8 * slen (m ++ data)) by (rewrite slen_app; lia).
  cbn [sha_buffer sha_state set_field].
  assert (Hst5 : length (sha_state c) = 5%nat) by (rewrite Hst; by apply absorb_length).
  destruct (Z.ltb_spec 63 (slen (rest m) + slen data)) as [H|H].
  - destruct (split_head m data) as (a & d & -> & Ha & Hi); [lia|].
    apply Forall_app in Hd as [Hab Hdb]. rewrite Hi.
    rewrite rdn_head. ored. rewrite (holds_fill _ _ _ Hbuf Ha). ored.
    destruct (transform_compress (sha_state c) (rest m ++ a)) as (buf' & -> & Hl' & Hb'); [done..| |].
    { apply Forall_app; split; [by apply (holds_bytes _ _ Hbuf)|done]. }
    ored. rewrite sha1_blocks_spec; [|by apply compress_length|done|rewrite length_app; lia]. ored.
    rewrite rdn_rest. ored.
    destruct (holds_start buf' d Hl' Hb' Hdb) as (buf2 & -> & Hbuf2). ored.
    eexists. split; [done|]. split_and!; [|done..|].
    + cbn [sha_state set_field]. by rewrite absorb_app, <- Hst, (app_assoc (rest m)), absorb_block.
    + rewrite rest_app, (app_assoc (rest m)), rest_block by done. exact Hbuf2.
  - destruct (holds_more _ _ _ Hbuf Hd) as (buf & -> & Hs & Hbuf'); [lia|]. ored.
    eexists. split; [done|]. split_and!; [|done..].
    cbn [sha_state set_field]. by rewrite absorb_app, <- Hst, absorb_short.
Qed.

(** ** Padding and digest *)

Lemma shr255 v (k : Z) :
  0 <= k -> Z.land (Z.shiftr v k) 255 = v / 2 ^ k mod 256.
Proof. intros H. change 255 with (Z.ones 8). by rewrite Z.land_ones, Z.shiftr_div_pow2 by lia. Qed.

Lemma be32_shr v :
  be32 v = [Z.land (Z.shiftr v 24) 255; Z.land (Z.shiftr v 16) 255; Z.land (Z.shiftr v 8) 255;
            Z.land (Z.shiftr v 0) 255].
Proof.
  rewrite !shr255 by lia. change (2 ^ 24) with 16777216. change (2 ^ 16) with 65536.
  change (2 ^ 8) with 256. change (2 ^ 0) with 1.
  unfold be32, be16. cbn [app].
  repeat (apply (f_equal2 cons); [Z.to_euclidean_division_equations; lia|]). done.
Qed.

Lemma finalcount_spec c : sha1_finalcount c = be32 (sha_count1 c) ++ be32 (sha_count0 c).
Proof. by rewrite !be32_shr. Qed.

Lemma digest_spec state : length state = 5%nat -> sha1_digest state = Some (state ≫= be32).
Proof.
  intros H. destruct state as [|a [|b [|c [|d [|e [|]]]]]]; try discriminate.
  cbn [mbind list_bind]. by rewrite !be32_shr.
Qed.

Lemma land504 n : (Z.land (u32 (8 * n)) 504 =? 448) = (n mod 64 =? 56).
Proof.
  replace (u32 (8 * n)) with (Z.shiftl (n mod 536870912) 3)
    by (rewrite Z.shiftl_mul_pow2 by lia; unfold u32; change (2 ^ 3) with 8;
        Z.to_euclidean_division_equations; lia).
  change 504 with (Z.shiftl (Z.ones 6) 3). rewrite <- Z.shiftl_land, Z.land_ones by lia.
  rewrite Z.shiftl_mul_pow2 by lia. change (2 ^ 3) with 8. change (2 ^ 6) with 64.
  replace (n mod 536870912 mod 64) with (n mod 64) by (Z.to_euclidean_division_equations; lia).
  destruct (Z.eqb_spec (n mod 64) 56), (Z.eqb_spec (n mod 64 * 8) 448); lia || done.
Qed.

Lemma sha1_pad_rep k : forall fuel c m,
  sha1_rep c m -> (56 - slen m) mod 64 = Z.of_nat k -> (k < fuel)%nat ->
  exists c', sha1_pad fuel c = Some c' /\ sha1_rep c' (m ++ replicate k 0).
Proof.
  induction k as [|k IH]; intros fuel c m Hc Hk Hf; (destruct fuel as [|fuel]; [lia|]); cbn [sha1_pad].
  - destruct Hc as (Hst & Hc0 & Hc1 & Hb). rewrite Hc0, land504.
    destruct (Z.eqb_spec (slen m mod 64) 56); [|exfalso; Z.to_euclidean_division_equations; lia].
    exists c. rewrite app_nil_r. done.
  - pose proof (proj1 (proj2 Hc)) as Hc0. rewrite Hc0, land504.
    destruct (Z.eqb_spec (slen m mod 64) 56); [exfalso; Z.to_euclidean_division_equations; lia|].
    destruct (sha1_update_rep c m [0] Hc) as (c1 & -> & Hc1); [by repeat constructor|done|]. ored.
    destruct (IH fuel c1 (m ++ [0]) Hc1) as (c2 & -> & Hc2); [|lia|].
    { rewrite slen_app. change (slen [0]) with 1. Z.to_euclidean_division_equations; lia. }
    exists c2. split; [done|]. by rewrite <- app_assoc in Hc2.
Qed.

Definition sha1_mem (c : pj_sha1_context) : Prop :=
  length (sha_buffer c) = 64%nat /\ Forall is_byte (sha_buffer c).

Lemma sha1_init_rep c : sha1_mem c -> sha1_rep (pj_sha1_init c) [].
Proof. intros [H1 H2]. by repeat split. Qed.

Lemma sha1_final_rep c m :
  sha1_rep c m ->
  exists c', pj_sha1_final c = Some (c', Fips.sha1 m) /\ sha1_mem c'.
Proof.
  intros Hc. unfold pj_sha1_final. rewrite finalcount_spec.
  pose proof (proj1 (proj2 Hc)) as Hc0. pose proof (proj1 (proj2 (proj2 Hc))) as Hc1.
  rewrite Hc0, Hc1. clear Hc0 Hc1.
  destruct (sha1_update_rep c m [128] Hc) as (c1 & -> & Hc1); [by repeat constructor|done|]. ored.
  destruct (sha1_pad_rep (Z.to_nat ((55 - slen m) mod 64)) 65 c1 _ Hc1) as (c2 & -> & Hc2).
  { rewrite slen_app. change (slen [128]) with 1. Z.to_euclidean_division_equations; lia. }
  { pose proof (Z.mod_pos_bound (55 - slen m) 64). lia. }
  ored. destruct (sha1_update_rep c2 _ (be32 (u32 (8 * slen m / 4294967296)) ++ be32 (u32 (8 * slen m))) Hc2)
    as (c3 & -> & Hc3); [apply Forall_app; split; apply be32_bytes|done|]. ored.
  destruct Hc3 as (Hst & _). rewrite digest_spec by (rewrite Hst; by apply absorb_length). ored.
  exists (mk_sha1 (replicate 5 0) 0 0 (replicate 64 0)).
  split; [|split; [done|apply Forall_replicate; unfold is_byte; lia]].
  do 2 f_equal. rewrite Hst. unfold Fips.sha1, Fips.pad, padding. do 2 f_equal.
  rewrite <- !app_assoc. done.
Qed.

Lemma fips_size m : length (Fips.sha1 m) = 20%nat.
Proof.
  unfold Fips.sha1. rewrite (bind_length _ 4) by done. by rewrite absorb_length.
Qed.

(** The digest of the code is the digest of FIPS 180. *)
#[export] Instance sha1_digest_inst : Digest pj_sha1_context := {|
  dg_init := pj_sha1_init;
  dg_update := pj_sha1_update;
  dg_final := pj_sha1_final;
  dg_size := PJ_SHA1_DIGEST_SIZE;
  dg_hash := Fips.sha1;
  dg_mem := sha1_mem;
  dg_rep := sha1_rep;
  dg_init_rep := sha1_init_rep;
  dg_update_rep := sha1_update_rep;
  dg_final_rep := sha1_final_rep;
  dg_hash_size := fips_size;
  dg_hash_bytes := fun m => bind_bytes be32 _ be32_bytes;
  dg_size_le := ltac:(unfold PJ_SHA1_DIGEST_SIZE; lia)
|}.
