(* ===== verification/Md5.v ===== *)
(** * MD5

    The digest of [pjlib-util/md5.c], and its correctness. *)

From Stdlib Require Import Btauto.
From S2P Require Import Prelude Bytes PjString Digest.
Local Open Scope Z_scope.

(** * MD5

    The digest of [pjlib-util/md5.c], little-endian, and its correctness:
    feeding a message in any chunks gives the digest that RFC 1321 defines.
    [F1] to [F4] and [MD5STEP] are the macros of the source. *)

Record pj_md5_context := mk_md5 {
  md_buf : list Z;
  md_bits0 : Z;
  md_bits1 : Z;
  md_in : list Z
}.

#[export] Instance eta_md5 : Settable pj_md5_context :=
  fun c => mk_md5 (md_buf c) (md_bits0 c) (md_bits1 c) (md_in c).

(** ** The transformation of a block *)

(** [~x] on [pj_uint32_t]. *)
Definition not32 (x : Z) : Z := Z.lxor x 0xffffffff.

Definition F1 (x y z : Z) : Z := Z.lxor z (Z.land x (Z.lxor y z)).
Definition F2 (x y z : Z) : Z := F1 z x y.
Definition F3 (x y z : Z) : Z := Z.lxor (Z.lxor x y) z.
Definition F4 (x y z : Z) : Z := Z.lxor y (Z.lor x (not32 z)).

Inductive wreg := Wa | Wb | Wc | Wd.

Record md_vars := mk_md_vars { wa : Z; wb : Z; wc : Z; wd : Z }.

#[export] Instance eta_md_vars : Settable md_vars :=
  fun s => mk_md_vars (wa s) (wb s) (wc s) (wd s).

Definition wget (s : md_vars) (x : wreg) : Z :=
  match x with Wa => wa s | Wb => wb s | Wc => wc s | Wd => wd s end.

Definition wput (s : md_vars) (x : wreg) (v : Z) : md_vars :=
  match x with
  | Wa => s <| wa := v |> | Wb => s <| wb := v |> | Wc => s <| wc := v |> | Wd => s <| wd := v |>
  end.

Definition md_step : Type := list Z -> md_vars -> option md_vars.

(** [( w += f(x, y, z) + data,  w = w<<s | w>>(32-s),  w += x )] with
    [data] being [in[i] + k]. *)
Definition MD5STEP (f : Z -> Z -> Z -> Z) (w x y z : wreg) (i : nat) (k s : Z) : md_step :=
  fun block v =>
  data ← block !! i;
  let v := wput v w (u32 (wget v w + (f (wget v x) (wget v y) (wget v z) + u32 (data + k)))) in
  let v := wput v w (rol (wget v w) s) in
  Some (wput v w (u32 (wget v w + wget v x))).

Definition md_steps : list md_step :=
  [MD5STEP F1 Wa Wb Wc Wd 0 0xd76aa478 7; MD5STEP F1 Wd Wa Wb Wc 1 0xe8c7b756 12;
   MD5STEP F1 Wc Wd Wa Wb 2 0x242070db 17; MD5STEP F1 Wb Wc Wd Wa 3 0xc1bdceee 22;
   MD5STEP F1 Wa Wb Wc Wd 4 0xf57c0faf 7; MD5STEP F1 Wd Wa Wb Wc 5 0x4787c62a 12;
   MD5STEP F1 Wc Wd Wa Wb 6 0xa8304613 17; MD5STEP F1 Wb Wc Wd Wa 7 0xfd469501 22;
   MD5STEP F1 Wa Wb Wc Wd 8 0x698098d8 7; MD5STEP F1 Wd Wa Wb Wc 9 0x8b44f7af 12;
   MD5STEP F1 Wc Wd Wa Wb 10 0xffff5bb1 17; MD5STEP F1 Wb Wc Wd Wa 11 0x895cd7be 22;
   MD5STEP F1 Wa Wb Wc Wd 12 0x6b901122 7; MD5STEP F1 Wd Wa Wb Wc 13 0xfd987193 12;
   MD5STEP F1 Wc Wd Wa Wb 14 0xa679438e 17; MD5STEP F1 Wb Wc Wd Wa 15 0x49b40821 22;
   MD5STEP F2 Wa Wb Wc Wd 1 0xf61e2562 5; MD5STEP F2 Wd Wa Wb Wc 6 0xc040b340 9;
   MD5STEP F2 Wc Wd Wa Wb 11 0x265e5a51 14; MD5STEP F2 Wb Wc Wd Wa 0 0xe9b6c7aa 20;
   MD5STEP F2 Wa Wb Wc Wd 5 0xd62f105d 5; MD5STEP F2 Wd Wa Wb Wc 10 0x02441453 9;
   MD5STEP F2 Wc Wd Wa Wb 15 0xd8a1e681 14; MD5STEP F2 Wb Wc Wd Wa 4 0xe7d3fbc8 20;
   MD5STEP F2 Wa Wb Wc Wd 9 0x21e1cde6 5; MD5STEP F2 Wd Wa Wb Wc 14 0xc33707d6 9;
   MD5STEP F2 Wc Wd Wa Wb 3 0xf4d50d87 14; MD5STEP F2 Wb Wc Wd Wa 8 0x455a14ed 20;
   MD5STEP F2 Wa Wb Wc Wd 13 0xa9e3e905 5; MD5STEP F2 Wd Wa Wb Wc 2 0xfcefa3f8 9;
   MD5STEP F2 Wc Wd Wa Wb 7 0x676f02d9 14; MD5STEP F2 Wb Wc Wd Wa 12 0x8d2a4c8a 20;
   MD5STEP F3 Wa Wb Wc Wd 5 0xfffa3942 4; MD5STEP F3 Wd Wa Wb Wc 8 0x8771f681 11;
   MD5STEP F3 Wc Wd Wa Wb 11 0x6d9d6122 16; MD5STEP F3 Wb Wc Wd Wa 14 0xfde5380c 23;
   MD5STEP F3 Wa Wb Wc Wd 1 0xa4beea44 4; MD5STEP F3 Wd Wa Wb Wc 4 0x4bdecfa9 11;
   MD5STEP F3 Wc Wd Wa Wb 7 0xf6bb4b60 16; MD5STEP F3 Wb Wc Wd Wa 10 0xbebfbc70 23;
   MD5STEP F3 Wa Wb Wc Wd 13 0x289b7ec6 4; MD5STEP F3 Wd Wa Wb Wc 0 0xeaa127fa 11;
   MD5STEP F3 Wc Wd Wa Wb 3 0xd4ef3085 16; MD5STEP F3 Wb Wc Wd Wa 6 0x04881d05 23;
   MD5STEP F3 Wa Wb Wc Wd 9 0xd9d4d039 4; MD5STEP F3 Wd Wa Wb Wc 12 0xe6db99e5 11;
   MD5STEP F3 Wc Wd Wa Wb 15 0x1fa27cf8 16; MD5STEP F3 Wb Wc Wd Wa 2 0xc4ac5665 23;
   MD5STEP F4 Wa Wb Wc Wd 0 0xf4292244 6; MD5STEP F4 Wd Wa Wb Wc 7 0x432aff97 10;
   MD5STEP F4 Wc Wd Wa Wb 14 0xab9423a7 15; MD5STEP F4 Wb Wc Wd Wa 5 0xfc93a039 21;
   MD5STEP F4 Wa Wb Wc Wd 12 0x655b59c3 6; MD5STEP F4 Wd Wa Wb Wc 3 0x8f0ccc92 10;
   MD5STEP F4 Wc Wd Wa Wb 10 0xffeff47d 15; MD5STEP F4 Wb Wc Wd Wa 1 0x85845dd1 21;
   MD5STEP F4 Wa Wb Wc Wd 8 0x6fa87e4f 6; MD5STEP F4 Wd Wa Wb Wc 15 0xfe2ce6e0 10;
   MD5STEP F4 Wc Wd Wa Wb 6 0xa3014314 15; MD5STEP F4 Wb Wc Wd Wa 13 0x4e0811a1 21;
   MD5STEP F4 Wa Wb Wc Wd 4 0xf7537e82 6; MD5STEP F4 Wd Wa Wb Wc 11 0xbd3af235 10;
   MD5STEP F4 Wc Wd Wa Wb 2 0x2ad7d2bb 15; MD5STEP F4 Wb Wc Wd Wa 9 0xeb86d391 21].

Definition run_steps (ss : list md_step) (block : list Z) (v : md_vars) : option md_vars :=
  foldl (fun v s => v ≫= s block) (Some v) ss.

Definition MD5Transform (buf block : list Z) : option (list Z) :=
  a ← buf !! 0%nat; b ← buf !! 1%nat; c ← buf !! 2%nat; d ← buf !! 3%nat;
  v ← run_steps md_steps (le_words block) (mk_md_vars a b c d);
  Some [u32 (a + wa v); u32 (b + wb v); u32 (c + wc v); u32 (d + wd v)].

(** ** The operations *)

Definition md5_init_buf : list Z := [0x67452301; 0xefcdab89; 0x98badcfe; 0x10325476].

Definition pj_md5_init (ctx : pj_md5_context) : pj_md5_context :=
  ctx <| md_buf := md5_init_buf |> <| md_bits0 := 0 |> <| md_bits1 := 0 |>.

(** Update bitcount; [len] is [unsigned]. *)
Definition md5_count (bits0 bits1 len : Z) : Z * Z :=
  let t := bits0 in
  let b0 := u32 (t + u32 (Z.shiftl len 3)) in
  let b1 := if b0 <? t then u32 (bits1 + 1) else bits1 in
  (b0, u32 (b1 + Z.shiftr len 29)).

(** Process data in 64-byte chunks: the new [buf], [in], and the place reached
    in the data. *)
Fixpoint md5_blocks (fuel : nat) (buf inb data : list Z) (p len : Z) :
    option (list Z * list Z * Z * Z) :=
  match fuel with
  | O => None
  | S fuel =>
      if 64 <=? len then
        chunk ← rdn data p 64;
        inb ← memcpy_at inb 0 chunk;
        buf ← MD5Transform buf inb;
        md5_blocks fuel buf inb data (p + 64) (len - 64)
      else Some (buf, inb, p, len)
  end.

(** The whole chunks, then any remaining bytes of data. *)
Definition md5_body (ctx : pj_md5_context) (data : list Z) (p len : Z) : option pj_md5_context :=
  r ← md5_blocks (S (length data)) (md_buf ctx) (md_in ctx) data p len;
  let '(buf, inb, p, len) := r : list Z * list Z * Z * Z in
  tail ← rdn data p (Z.to_nat len);
  inb ← memcpy_at inb 0 tail;
  Some (ctx <| md_buf := buf |> <| md_in := inb |>).

Definition pj_md5_update (ctx : pj_md5_context) (data : list Z) : option pj_md5_context :=
  let len := slen data in
  let '(b0, b1) := md5_count (md_bits0 ctx) (md_bits1 ctx) len in
  let t := Z.land (Z.shiftr (md_bits0 ctx) 3) 63 in
  let ctx := ctx <| md_bits0 := b0 |> <| md_bits1 := b1 |> in
  if negb (t =? 0) then
    let p := t in
    let t := 64 - t in
    if len <? t then
      inb ← memcpy_at (md_in ctx) p data;
      Some (ctx <| md_in := inb |>)
    else
      head ← rdn data 0 (Z.to_nat t);
      inb ← memcpy_at (md_in ctx) p head;
      buf ← MD5Transform (md_buf ctx) inb;
      md5_body (ctx <| md_buf := buf |> <| md_in := inb |>) data t (len - t)
  else md5_body ctx data 0 len.

(** [pj_bzero] of [n] bytes at [p]. *)
Definition bzero_at (buf : list Z) (p n : Z) : option (list Z) :=
  memcpy_at buf p (replicate (Z.to_nat n) 0).

(** The context, wiped, and the digest. *)
Definition pj_md5_final (ctx : pj_md5_context) : option (pj_md5_context * list Z) :=
  let count := Z.land (Z.shiftr (md_bits0 ctx) 3) 63 in
  inb ← memcpy_at (md_in ctx) count [128];
  let p := count + 1 in
  let count := 64 - 1 - count in
  r ← (if count <? 8 then
         inb ← bzero_at inb p count;
         buf ← MD5Transform (md_buf ctx) inb;
         inb ← bzero_at inb 0 56;
         Some (buf, inb)
       else
         inb ← bzero_at inb p (count - 8);
         Some (md_buf ctx, inb));
  let '(buf, inb) := r : list Z * list Z in
  inb ← memcpy_at inb 56 (le32 (md_bits0 ctx));
  inb ← memcpy_at inb 60 (le32 (md_bits1 ctx));
  buf ← MD5Transform buf inb;
  Some (mk_md5 (replicate 4 0) 0 0 (replicate 64 0), le_bytes buf).

(** ** RFC 1321 *)

Module Rfc1321.

Definition F x y z := Z.lor (Z.land x y) (Z.ldiff z x).
Definition G x y z := Z.lor (Z.land x z) (Z.ldiff y z).
Definition H x y z := Z.lxor (Z.lxor x y) z.
Definition I x y z := Z.lxor y (Z.lor x (not32 z)).

(** [T[i]] is the integer part of [4294967296 * abs(sin(i + 1))]. *)
Definition T : list Z :=
  [0xd76aa478; 0xe8c7b756; 0x242070db; 0xc1bdceee; 0xf57c0faf; 0x4787c62a; 0xa8304613; 0xfd469501;
   0x698098d8; 0x8b44f7af; 0xffff5bb1; 0x895cd7be; 0x6b901122; 0xfd987193; 0xa679438e; 0x49b40821;
   0xf61e2562; 0xc040b340; 0x265e5a51; 0xe9b6c7aa; 0xd62f105d; 0x02441453; 0xd8a1e681; 0xe7d3fbc8;
   0x21e1cde6; 0xc33707d6; 0xf4d50d87; 0x455a14ed; 0xa9e3e905; 0xfcefa3f8; 0x676f02d9; 0x8d2a4c8a;
   0xfffa3942; 0x8771f681; 0x6d9d6122; 0xfde5380c; 0xa4beea44; 0x4bdecfa9; 0xf6bb4b60; 0xbebfbc70;
   0x289b7ec6; 0xeaa127fa; 0xd4ef3085; 0x04881d05; 0xd9d4d039; 0xe6db99e5; 0x1fa27cf8; 0xc4ac5665;
   0xf4292244; 0x432aff97; 0xab9423a7; 0xfc93a039; 0x655b59c3; 0x8f0ccc92; 0xffeff47d; 0x85845dd1;
   0x6fa87e4f; 0xfe2ce6e0; 0xa3014314; 0x4e0811a1; 0xf7537e82; 0xbd3af235; 0x2ad7d2bb; 0xeb86d391].

(** Round [t / 16]: the function, the index of the word and the rotation of
    its operation [t]. *)
Definition func (t : nat) : Z -> Z -> Z -> Z :=
  match Nat.div t 16 with 0%nat => F | 1%nat => G | 2%nat => H | _ => I end.

Definition index (t : nat) : nat :=
  match Nat.div t 16 with
  | 0%nat => t
  | 1%nat => (5 * t + 1) mod 16
  | 2%nat => (3 * t + 5) mod 16
  | _ => (7 * t) mod 16
  end.

Definition shift (t : nat) : Z :=
  let l := match Nat.div t 16 with
           | 0%nat => [7; 12; 17; 22]
           | 1%nat => [5; 9; 14; 20]
           | 2%nat => [4; 11; 16; 23]
           | _ => [6; 10; 15; 21]
           end in
  l !!! (t mod 4)%nat.

(** [a = b + ((a + f(b,c,d) + X[k] + T[i]) <<< s)], then the variables move
    one place. *)
Definition step (X : list Z) (v : Z * Z * Z * Z) (t : nat) : Z * Z * Z * Z :=
  let '(a, b, c, d) := v in
  (d, u32 (b + rol (u32 (a + func t b c d + X !!! index t + T !!! t)) (shift t)), b, c).

Definition compress (buf block : list Z) : list Z :=
  match buf with
  | [a0; b0; c0; d0] =>
      let '(a, b, c, d) := foldl (step (le_words block)) (a0, b0, c0, d0) (seq 0 64) in
      [u32 (a0 + a); u32 (b0 + b); u32 (c0 + c); u32 (d0 + d)]
  | _ => []
  end.

Definition pad (m : list Z) : list Z :=
  let bits := 8 * slen m in
  m ++ padding (slen m) ++ le32 (u32 bits) ++ le32 (u32 (bits / 4294967296)).

Definition md5 (m : list Z) : list Z := le_bytes (absorb compress md5_init_buf (pad m)).

End Rfc1321.

(** * MD5: correctness

    As for SHA-1: the unrolled steps are those of RFC 1321, a context holds
    what its buffer cannot transform yet, and the padding is that of the RFC.
    [md5_digest_inst] is the instance of [Digest]. *)

(** ** The steps *)

Definition wreg_of (n : nat) : wreg :=
  match n with 0%nat => Wa | 1%nat => Wb | 2%nat => Wc | _ => Wd end.

(** The variable in the [k]-th place of the [t]-th step. *)
Definition wreg_at (t k : nat) : wreg := wreg_of ((k + 3 * (t mod 4)) mod 4).

Definition code_func (t : nat) : Z -> Z -> Z -> Z :=
  match Nat.div t 16 with 0%nat => F1 | 1%nat => F2 | 2%nat => F3 | _ => F4 end.

Definition step_of (t : nat) : md_step :=
  MD5STEP (code_func t) (wreg_at t 0) (wreg_at t 1) (wreg_at t 2) (wreg_at t 3)
    (Rfc1321.index t) (Rfc1321.T !!! t) (Rfc1321.shift t).

Lemma steps_eq : md_steps = step_of <$> seq 0 64.
Proof. reflexivity. Qed.

Lemma F1_eq x y z : F1 x y z = Rfc1321.F x y z.
Proof.
  unfold F1, Rfc1321.F. apply Z.bits_inj. intros n.
  rewrite Z.lor_spec, Z.lxor_spec, !Z.land_spec, Z.ldiff_spec, Z.lxor_spec. btauto.
Qed.

Lemma F2_eq x y z : F2 x y z = Rfc1321.G x y z.
Proof.
  unfold F2, F1, Rfc1321.G. apply Z.bits_inj. intros n.
  rewrite Z.lor_spec, Z.lxor_spec, !Z.land_spec, Z.ldiff_spec, Z.lxor_spec. btauto.
Qed.

Lemma code_func_eq t x y z : code_func t x y z = Rfc1321.func t x y z.
Proof.
  unfold code_func, Rfc1321.func.
  destruct (Nat.div t 16) as [|[|[|]]]; auto using F1_eq, F2_eq.
Qed.

Lemma index_lt t : (t < 64)%nat -> (Rfc1321.index t < 16)%nat.
Proof.
  intros Ht. unfold Rfc1321.index. pose proof (Nat.div_mod_eq t 16).
  pose proof (Nat.mod_upper_bound t 16).
  destruct (Nat.div t 16) as [|[|[|]]]; try (apply Nat.mod_upper_bound; lia). lia.
Qed.

Definition wview (t : nat) (v : md_vars) : Z * Z * Z * Z :=
  (wget v (wreg_at t 0), wget v (wreg_at t 1), wget v (wreg_at t 2), wget v (wreg_at t 3)).

Lemma mod4 t :
  (t mod 4 = 0 /\ S t mod 4 = 1 \/ t mod 4 = 1 /\ S t mod 4 = 2 \/
   t mod 4 = 2 /\ S t mod 4 = 3 \/ t mod 4 = 3 /\ S t mod 4 = 0)%nat.
Proof.
  pose proof (Nat.div_mod_eq t 4). pose proof (Nat.mod_upper_bound t 4).
  pose proof (Nat.div_mod_eq (S t) 4). pose proof (Nat.mod_upper_bound (S t) 4). lia.
Qed.

Lemma step_sum a f x k : u32 (a + (f + u32 (x + k))) = u32 (a + f + x + k).
Proof.
  change (eq32 (a + (f + u32 (x + k))) (a + f + x + k)). rewrite (u32_eq32 (x + k)).
  unfold eq32. f_equal. lia.
Qed.

(** A step computes that of the RFC and renames the variables. *)
Lemma step_of_view t block v :
  (t < 64)%nat -> length block = 16%nat ->
  exists v', step_of t block v = Some v' /\ wview (S t) v' = Rfc1321.step block (wview t v) t.
Proof.
  intros Ht Hl. unfold step_of, MD5STEP.
  pose proof (index_lt t Ht) as Hi. rewrite list_lookup_lookup_total_lt by lia. ored.
  rewrite code_func_eq. set (k := Rfc1321.T !!! t). set (X := block !!! Rfc1321.index t).
  set (s := Rfc1321.shift t). set (f := Rfc1321.func t). eexists. split; [done|].
  unfold wview, Rfc1321.step. fold k X s f. unfold wreg_at.
  destruct (mod4 t) as [[-> ->]|[[-> ->]|[[-> ->]|[-> ->]]]];
    cbn; rewrite step_sum; rewrite Z.add_comm; reflexivity.
Qed.

Lemma run_steps_run block v0 t :
  length block = 16%nat -> (t <= 64)%nat ->
  exists v, run_steps (step_of <$> seq 0 t) block v0 = Some v /\
    wview t v = foldl (Rfc1321.step block) (wview 0 v0) (seq 0 t).
Proof.
  intros Hl. induction t as [|t IH]; intros Ht; [by exists v0|].
  destruct IH as (v & Hr & Hv); [lia|].
  destruct (step_of_view t block v) as (v' & Hs & Hv'); [lia|done|].
  exists v'. rewrite seq_S. split.
  - unfold run_steps in *. rewrite fmap_app, foldl_app, Hr. exact Hs.
  - rewrite foldl_app, <- Hv. exact Hv'.
Qed.

Lemma md5_transform buf block :
  length buf = 4%nat -> length block = 64%nat ->
  MD5Transform buf block = Some (Rfc1321.compress buf block).
Proof.
  intros Hb Hl. destruct buf as [|a [|b [|c [|d [|]]]]]; try discriminate.
  assert (Hw : length (le_words block) = 16%nat) by by apply le_words_length.
  destruct (run_steps_run (le_words block) (mk_md_vars a b c d) 64 Hw) as (v & E & Hv); [lia|].
  unfold MD5Transform. cbn [lookup list_lookup]. ored. rewrite steps_eq, E. ored.
  assert (Hv' : foldl (Rfc1321.step (le_words block)) (a, b, c, d) (seq 0 64) = wview 64 v)
    by (symmetry; exact Hv).
  unfold Rfc1321.compress. rewrite Hv'. reflexivity.
Qed.

(** ** Chunks *)

Definition md5_rep (c : pj_md5_context) (m : list Z) : Prop :=
  md_buf c = absorb Rfc1321.compress md5_init_buf m /\
  md_bits0 c = u32 (8 * slen m) /\ md_bits1 c = u32 (8 * slen m / 4294967296) /\
  holds (md_in c) (rest m).

Lemma md5_compress_length H M : length H = 4%nat -> length (Rfc1321.compress H M) = 4%nat.
Proof.
  intros E. destruct H as [|? [|? [|? [|? [|]]]]]; try discriminate. cbn [Rfc1321.compress].
  by destruct (foldl _ _ _) as [[[? ?] ?] ?].
Qed.

Lemma md5_absorb_length m :
  forall s, length s = 4%nat -> length (absorb Rfc1321.compress s m) = 4%nat.
Proof.
  induction m as [m H|b m H IH] using block_ind; intros s Hs.
  - by rewrite absorb_short.
  - rewrite absorb_block by done. by apply IH, md5_compress_length.
Qed.

Lemma md5_count_add n len :
  0 <= n -> 0 <= len < 4294967296 ->
  md5_count (u32 n) (u32 (n / 4294967296)) len =
    (u32 (n + 8 * len), u32 ((n + 8 * len) / 4294967296)).
Proof.
  intros Hn Hl. unfold md5_count, u32. rewrite Z.shiftl_mul_pow2, Z.shiftr_div_pow2 by lia.
  change (2 ^ 3) with 8. change (2 ^ 29) with 536870912.
  assert (E : (n mod 4294967296 + len * 8 mod 4294967296) mod 4294967296
              = (n + 8 * len) mod 4294967296) by (Z.to_euclidean_division_equations; lia).
  rewrite E. f_equal.
  destruct (Z.ltb_spec ((n + 8 * len) mod 4294967296) (n mod 4294967296));
    Z.to_euclidean_division_equations; lia.
Qed.

Lemma md5_blocks_spec fuel : forall buf inb pre d,
  length buf = 4%nat -> length inb = 64%nat -> Forall is_byte inb -> Forall is_byte d ->
  (length d < fuel)%nat ->
  exists inb', md5_blocks fuel buf inb (pre ++ d) (slen pre) (slen d)
      = Some (absorb Rfc1321.compress buf d, inb', slen (pre ++ d) - slen (rest d), slen (rest d)) /\
    length inb' = 64%nat /\ Forall is_byte inb'.
Proof.
  induction fuel as [|fuel IH]; intros buf inb pre d Hs Hin Hib Hd Hf; [lia|]. cbn [md5_blocks].
  destruct (Z.leb_spec 64 (slen d)) as [H|H]; unfold slen in H.
  - rewrite <- (take_drop 64 d) in Hd |- *. apply Forall_app in Hd as [Hb Hd].
    assert (E : length (take 64 d) = 64%nat) by (rewrite length_take; lia).
    assert (Ed : (length (drop 64 d) < fuel)%nat) by (rewrite length_drop; lia).
    set (b := take 64 d) in *. set (d' := drop 64 d) in *. clearbody b d'.
    rewrite rdn_slice, length_app, decide_True by lia. ored.
    rewrite take_app_le, take_ge by lia.
    assert (Hm : memcpy_at inb 0 b = Some b).
    { unfold memcpy_at, slen. rewrite decide_True by lia. cbn [Z.to_nat take app].
      by rewrite drop_ge, app_nil_r by lia. }
    rewrite Hm. ored. rewrite md5_transform by done. ored.
    rewrite absorb_block, rest_block by done.
    replace (slen pre + 64) with (slen (pre ++ b)) by (rewrite slen_app; unfold slen; lia).
    replace (slen (b ++ d') - 64) with (slen d') by (rewrite slen_app; unfold slen; lia).
    rewrite app_assoc. apply IH; auto using md5_compress_length.
  - exists inb. rewrite absorb_short, (rest_short d) by lia.
    rewrite slen_app. split_and!; [|done..]. do 3 f_equal. lia.
Qed.

(** The whole chunks and the remaining bytes, from a point where the buffer
    is free. *)
Lemma md5_body_spec c pre d :
  length (md_buf c) = 4%nat -> length (md_in c) = 64%nat -> Forall is_byte (md_in c) ->
  Forall is_byte d ->
  exists inb, md5_body c (pre ++ d) (slen pre) (slen d)
      = Some (c <| md_buf := absorb Rfc1321.compress (md_buf c) d |> <| md_in := inb |>) /\
    holds inb (rest d).
Proof.
  intros Hb Hl Hin Hd. unfold md5_body.
  destruct (md5_blocks_spec (S (length (pre ++ d))) (md_buf c) (md_in c) pre d)
    as (inb & -> & Hl' & Hb'); [done..|rewrite length_app; lia|]. ored.
  pose proof (rdn_rest pre d) as E.
  replace (slen (pre ++ d) - (slen (pre ++ d) - slen (rest d))) with (slen (rest d)) in E by lia.
  rewrite E. ored. destruct (holds_start inb d Hl' Hb' Hd) as (buf2 & -> & H2). ored. by exists buf2.
Qed.

Lemma md5_update_rep c m data :
  md5_rep c m -> Forall is_byte data -> slen data < 4294967296 ->
  exists c', pj_md5_update c data = Some c' /\ md5_rep c' (m ++ data).
Proof.
  intros (Hst & Hc0 & Hc1 & Hbuf) Hd Hl.
  pose proof (slen_nonneg data) as Hd0. pose proof (slen_nonneg m) as Hm0.
  unfold pj_md5_update. rewrite Hc0, Hc1, count_pos, md5_count_add by lia.
  replace (8 * slen m + 8 * slen data) with (8 * slen (m ++ data)) by (rewrite slen_app; lia).
  cbn [md_in md_buf set_field].
  assert (Hst4 : length (md_buf c) = 4%nat) by (rewrite Hst; by apply md5_absorb_length).
  destruct (Z.eqb_spec (slen (rest m)) 0) as [H0|H0]; cbn [negb].
  - assert (Hr : rest m = []) by (apply nil_length_inv; unfold slen in H0; lia).
    destruct (md5_body_spec (c <| md_bits0 := u32 (8 * slen (m ++ data)) |>
        <| md_bits1 := u32 (8 * slen (m ++ data) / 4294967296) |>) [] data) as (inb & E & Hin);
      [done|apply Hbuf|apply Hbuf|done|].
    cbn [app] in E. change (slen []) with 0 in E. rewrite E. eexists. split; [done|].
    split_and!; [|done..|].
    + cbn [md_buf set_field]. by rewrite absorb_app, Hr, <- Hst.
    + rewrite rest_app, Hr. exact Hin.
  - destruct (Z.ltb_spec (slen data) (64 - slen (rest m))) as [H|H].
    + destruct (holds_more _ _ _ Hbuf Hd) as (buf & -> & Hs & Hbuf'); [lia|]. ored.
      eexists. split; [done|]. split_and!; [|done..].
      cbn [md_buf set_field]. by rewrite absorb_app, <- Hst, absorb_short.
    + destruct (split_head m data) as (a & d & -> & Ha & Hi); [lia|].
      apply Forall_app in Hd as [Hab Hdb]. rewrite Hi, rdn_head. ored.
      rewrite (holds_fill _ _ _ Hbuf Ha). ored. rewrite md5_transform by done. ored.
      rewrite (slen_app a d), Z.add_simpl_l.
      match goal with |- context [md5_body ?c _ _ _] => destruct (md5_body_spec c a d) as (inb & -> & Hin) end;
        cbn [md_in md_buf set_field]; [by apply md5_compress_length|done| |done|].
      { apply Forall_app; split; [by apply (holds_bytes _ _ Hbuf)|done]. }
      eexists. split; [done|]. split_and!; [|done..|].
      * cbn [md_buf set_field]. by rewrite absorb_app, <- Hst, (app_assoc (rest m)), absorb_block.
      * rewrite rest_app, (app_assoc (rest m)), rest_block by done. exact Hin.
Qed.

(** ** Padding and digest *)

Lemma memcpy_at_mid buf i data a b c :
  buf = a ++ b ++ c -> i = slen a -> length b = length data ->
  memcpy_at buf i data = Some (a ++ data ++ c).
Proof. intros -> ->. apply memcpy_at_app. Qed.

(** The bits are written behind the first 56 bytes of the last block. *)
Lemma put_bits P e b0 b1 :
  length P = 56%nat -> length e = 8%nat ->
  (inb ← memcpy_at (P ++ e) 56 (le32 b0); memcpy_at inb 60 (le32 b1))
    = Some (P ++ le32 b0 ++ le32 b1).
Proof.
  intros HP He. rewrite <- (take_drop 4 e).
  rewrite (memcpy_at_mid _ 56 _ P (take 4 e) (drop 4 e));
    [|done|unfold slen; lia|rewrite length_take, He; done]. ored.
  rewrite (memcpy_at_mid _ 60 _ (P ++ le32 b0) (drop 4 e) []).
  - by rewrite app_nil_r, <- app_assoc.
  - by rewrite app_nil_r, <- app_assoc.
  - rewrite slen_app. unfold slen. rewrite HP. reflexivity.
  - rewrite length_drop, He. done.
Qed.

(** The part of [pj_md5_final] before the bits: what remains of the padded
    message is a block. *)
Lemma final_block ctx m :
  holds (md_in ctx) (rest m) -> length (md_buf ctx) = 4%nat ->
  let count := slen (rest m) in
  exists buf P e,
    (inb ← memcpy_at (md_in ctx) count [128];
     if 64 - 1 - count <? 8 then
       inb ← bzero_at inb (count + 1) (64 - 1 - count);
       buf ← MD5Transform (md_buf ctx) inb;
       inb ← bzero_at inb 0 56;
       Some (buf, inb)
     else
       inb ← bzero_at inb (count + 1) (64 - 1 - count - 8);
       Some (md_buf ctx, inb)) = Some (buf, P ++ e) /\
    length buf = 4%nat /\ length P = 56%nat /\ length e = 8%nat /\
    forall l, absorb Rfc1321.compress (md_buf ctx) (rest m ++ padding (slen m) ++ l)
              = absorb Rfc1321.compress buf (P ++ l).
Proof.
  intros (Hl & _ & Ht) Hb. set (r := rest m) in *. cbv zeta.
  pose proof (rest_lt m) as Hr. fold r in Hr.
  assert (Hk : (55 - slen m) mod 64 = (55 - Z.of_nat (length r)) mod 64).
  { unfold r. rewrite rest_length, Nat2Z.inj_mod. unfold slen. change (Z.of_nat 64) with 64.
    Z.to_euclidean_division_equations; lia. }
  unfold padding. rewrite Hk. unfold bzero_at.
  rewrite <- (take_drop (length r) (md_in ctx)), Ht.
  assert (Hy : length (drop (length r) (md_in ctx)) = (64 - length r)%nat) by (rewrite length_drop; lia).
  destruct (drop (length r) (md_in ctx)) as [|x y]; [cbn [length] in Hy; lia|]. cbn [length] in Hy.
  rewrite (memcpy_at_mid _ (slen r) _ r [x] y) by done. ored.
  destruct (Z.ltb_spec (64 - 1 - slen r) 8) as [H|H]; unfold slen in H.
  - rewrite (memcpy_at_mid _ (slen r + 1) _ (r ++ [128]) y []);
      [|by rewrite app_nil_r, <- app_assoc|by rewrite slen_app
       |rewrite length_replicate; unfold slen; lia]. ored.
    set (z := replicate (Z.to_nat (64 - 1 - slen r)) 0).
    assert (Hz : length z = (63 - length r)%nat) by (unfold z, slen; rewrite length_replicate; lia).
    rewrite app_nil_r.
    assert (Hblk : length ((r ++ [128]) ++ z) = 64%nat) by (rewrite !length_app; cbn [length]; lia).
    rewrite md5_transform by done. ored.
    set (e := drop 56 ((r ++ [128]) ++ z)).
    rewrite (memcpy_at_mid _ 0 _ [] (take 56 ((r ++ [128]) ++ z)) e);
      [|by rewrite app_nil_l; unfold e; rewrite take_drop|done
       |rewrite length_replicate, length_take; lia]. ored.
    eexists _, (replicate 56 0), e. split; [reflexivity|]. split_and!.
    + by apply md5_compress_length.
    + by rewrite length_replicate.
    + unfold e. rewrite length_drop. lia.
    + intros l. replace (Z.to_nat ((55 - Z.of_nat (length r)) mod 64))
        with (length z + 56)%nat by (Z.to_euclidean_division_equations; lia).
      rewrite replicate_add. assert (Ez : replicate (length z) 0 = z) by (unfold z; by rewrite length_replicate).
      rewrite Ez. rewrite <- (absorb_block _ _ _ _ Hblk). f_equal. rewrite <- !app_assoc. cbn [app].
      by rewrite <- app_assoc.
  - set (z := replicate (Z.to_nat (64 - 1 - slen r - 8)) 0).
    assert (Hz : length z = (55 - length r)%nat) by (unfold z, slen; rewrite length_replicate; lia).
    rewrite (memcpy_at_mid _ (slen r + 1) _ (r ++ [128]) (take (length z) y) (drop (length z) y));
      [|by rewrite take_drop, <- app_assoc|by rewrite slen_app|rewrite length_take; fold z; lia]. ored.
    eexists _, ((r ++ [128]) ++ z), (drop (length z) y). split; [by rewrite app_assoc|]. split_and!.
    + done.
    + rewrite !length_app. cbn [length]. lia.
    + rewrite length_drop. lia.
    + intros l. replace (Z.to_nat ((55 - Z.of_nat (length r)) mod 64))
        with (length z) by (Z.to_euclidean_division_equations; lia).
      assert (Ez : replicate (length z) 0 = z) by (unfold z; by rewrite length_replicate).
      rewrite Ez. by rewrite <- !app_assoc.
Qed.

Definition md5_mem (c : pj_md5_context) : Prop :=
  length (md_in c) = 64%nat /\ Forall is_byte (md_in c).

Lemma md5_init_rep c : md5_mem c -> md5_rep (pj_md5_init c) [].
Proof. intros [H1 H2]. by repeat split. Qed.

Lemma md5_final_rep c m :
  md5_rep c m -> exists c', pj_md5_final c = Some (c', Rfc1321.md5 m) /\ md5_mem c'.
Proof.
  intros (Hst & Hc0 & Hc1 & Hbuf). unfold pj_md5_final. rewrite Hc0, Hc1, count_pos.
  assert (Hst4 : length (md_buf c) = 4%nat) by (rewrite Hst; by apply md5_absorb_length).
  destruct (final_block c m Hbuf Hst4) as (buf & P & e & E & Hb & HP & He & Habs).
  exists (mk_md5 (replicate 4 0) 0 0 (replicate 64 0)).
  split; [|split; [done|apply Forall_replicate; unfold is_byte; lia]].
  destruct (memcpy_at (md_in c) (slen (rest m)) [128]) as [inb|]; [|discriminate E].
  cbn [mbind option_bind] in E |- *. rewrite E. ored.
  pose proof (put_bits P e (u32 (8 * slen m)) (u32 (8 * slen m / 4294967296)) HP He) as Eb.
  destruct (memcpy_at (P ++ e) 56 _) as [inb2|]; [|discriminate Eb].
  cbn [mbind option_bind] in Eb |- *. rewrite Eb. ored.
  rewrite md5_transform; [|done|rewrite length_app, HP; done]. ored. do 2 f_equal.
  unfold Rfc1321.md5, Rfc1321.pad. f_equal. rewrite absorb_app, <- Hst, Habs.
  set (last := P ++ _). assert (Hl : length last = 64%nat) by (unfold last; by rewrite length_app, HP).
  by rewrite <- (app_nil_r last), absorb_block, absorb_short, app_nil_r by (done || (cbn; lia)).
Qed.

Lemma md5_size m : length (Rfc1321.md5 m) = 16%nat.
Proof. unfold Rfc1321.md5. by rewrite le_bytes_length, md5_absorb_length. Qed.

(** The digest of the code is the digest of RFC 1321. *)
#[export] Instance md5_digest_inst : Digest pj_md5_context := {|
  dg_init := pj_md5_init;
  dg_update := pj_md5_update;
  dg_final := pj_md5_final;
  dg_size := 16;
  dg_hash := Rfc1321.md5;
  dg_mem := md5_mem;
  dg_rep := md5_rep;
  dg_init_rep := md5_init_rep;
  dg_update_rep := fun c m data Hc Hd Hl => md5_update_rep c m data Hc Hd ltac:(lia);
  dg_final_rep := md5_final_rep;
  dg_hash_size := md5_size;
  dg_hash_bytes := fun m => bind_bytes le32 _ le32_bytes;
  dg_size_le := ltac:(lia)
|}.
