(* ===== verification/Hmac.v ===== *)
(** * HMAC

    [pjlib-util/hmac_sha1.c] and [hmac_md5.c], which are the same text over
    the two digests: the functions are written once over the class [Digest],
    and are those of the source at its instances.  What they compute is HMAC
    as RFC 2104 defines it. *)

From S2P Require Import Prelude Bytes PjString Digest Sha1 Md5.
Local Open Scope Z_scope.

Section hmac.
Context {ctx : Type} {D : Digest ctx}.

Record hmac_context := mk_hmac { hm_context : ctx; k_opad : list Z }.

Definition xor_pad (k : list Z) (v : Z) : list Z := (fun b => Z.lxor b v) <$> k.

(** [tctx] is the context on the stack that hashes a long key. *)
Definition hmac_init (tctx : ctx) (hctx : hmac_context) (key : list Z) : option hmac_context :=
  key ← (if 64 <? slen key then
           tctx ← dg_update (dg_init tctx) key;
           r ← dg_final tctx;
           Some r.2
         else Some key);
  ipad ← memcpy_at (replicate 64 0) 0 key;
  opad ← memcpy_at (replicate 64 0) 0 key;
  context ← dg_update (dg_init (hm_context hctx)) (xor_pad ipad 0x36);
  Some (mk_hmac context (xor_pad opad 0x5c)).

Definition hmac_update (hctx : hmac_context) (input : list Z) : option hmac_context :=
  context ← dg_update (hm_context hctx) input;
  Some (mk_hmac context (k_opad hctx)).

Definition hmac_final (hctx : hmac_context) : option (hmac_context * list Z) :=
  r ← dg_final (hm_context hctx);
  let '(context, digest) := r : ctx * list Z in
  context ← dg_update (dg_init context) (k_opad hctx);
  context ← dg_update context digest;
  r ← dg_final context;
  let '(context, digest) := r : ctx * list Z in
  Some (mk_hmac context (k_opad hctx), digest).

Definition hmac (tctx : ctx) (hctx : hmac_context) (input key : list Z) : option (list Z) :=
  hctx ← hmac_init tctx hctx key;
  hctx ← hmac_update hctx input;
  r ← hmac_final hctx;
  Some r.2.

(** ** RFC 2104 *)

(** The key of one block. *)
Definition block_key (key : list Z) : list Z :=
  let k := if 64 <? slen key then dg_hash key else key in
  k ++ replicate (64 - length k) 0.

Definition HMAC (key text : list Z) : list Z :=
  let K0 := block_key key in
  dg_hash (xor_pad K0 0x5c ++ dg_hash (xor_pad K0 0x36 ++ text)).

(** ** Correctness *)

(** [h] has absorbed [text] with [key]. *)
Definition hmac_rep (h : hmac_context) (key text : list Z) : Prop :=
  dg_rep (hm_context h) (xor_pad (block_key key) 0x36 ++ text) /\
  k_opad h = xor_pad (block_key key) 0x5c.

Lemma key_length key :
  (length (if (64 <? slen key)%Z then dg_hash key else key) <= 64)%nat.
Proof.
  destruct (Z.ltb_spec 64 (slen key)) as [H|H]; [rewrite dg_hash_size; apply dg_size_le|].
  unfold slen in H. lia.
Qed.

Lemma block_key_length key : length (block_key key) = 64%nat.
Proof.
  pose proof (key_length key). unfold block_key. rewrite length_app, length_replicate. lia.
Qed.

Lemma block_key_bytes key : Forall is_byte key -> Forall is_byte (block_key key).
Proof.
  intros H. apply Forall_app; split; [|apply Forall_replicate; unfold is_byte; lia].
  destruct (64 <? slen key); [apply dg_hash_bytes|done].
Qed.

Lemma lxor_byte a b : is_byte a -> is_byte b -> is_byte (Z.lxor a b).
Proof.
  intros Ha Hb. unfold is_byte in *.
  assert (H : Z.lxor a b = u8 (Z.lxor a b)); [|rewrite H; apply Z.mod_pos_bound; lia].
  unfold u8. change 256 with (2 ^ 8). symmetry. apply Z.bits_inj'. intros n Hn.
  destruct (Z.ltb_spec n 8).
  - by rewrite Z.mod_pow2_bits_low by lia.
  - rewrite Z.mod_pow2_bits_high, Z.lxor_spec by lia.
    by rewrite !byte_testbit_high by (unfold is_byte; lia).
Qed.

Lemma xor_pad_bytes k v : Forall is_byte k -> is_byte v -> Forall is_byte (xor_pad k v).
Proof.
  intros Hk Hv. unfold xor_pad. apply Forall_fmap. eapply Forall_impl; [done|].
  intros b Hb. by apply lxor_byte.
Qed.

Lemma xor_pad_length k v : length (xor_pad k v) = length k.
Proof. apply length_fmap. Qed.

Lemma hmac_init_rep tctx h key :
  dg_mem tctx -> dg_mem (hm_context h) -> Forall is_byte key -> slen key < 536870912 ->
  exists h', hmac_init tctx h key = Some h' /\ hmac_rep h' key [].
Proof.
  intros Ht Hh Hk Hl. unfold hmac_init.
  set (k := if 64 <? slen key then dg_hash key else key).
  assert (E : (if 64 <? slen key then
             tctx ← dg_update (dg_init tctx) key; r ← dg_final tctx; Some r.2
           else Some key) = Some k).
  { unfold k. destruct (64 <? slen key); [|done].
    destruct (dg_update_rep _ [] key (dg_init_rep _ Ht) Hk Hl) as (c & -> & Hc). ored.
    cbn [app] in Hc. by destruct (dg_final_rep _ _ Hc) as (c' & -> & _). }
  rewrite E. ored. pose proof (key_length key) as Hkl. fold k in Hkl.
  assert (Ep : memcpy_at (replicate 64 0) 0 k = Some (block_key key)).
  { unfold memcpy_at, block_key. fold k. unfold slen. rewrite length_replicate, decide_True by lia.
    rewrite drop_replicate. done. }
  rewrite Ep. ored.
  assert (Hi : Forall is_byte (xor_pad (block_key key) 54))
    by (apply xor_pad_bytes; [by apply block_key_bytes|unfold is_byte; lia]).
  destruct (dg_update_rep _ [] _ (dg_init_rep _ Hh) Hi) as (c & -> & Hc).
  { unfold slen. rewrite xor_pad_length, block_key_length. lia. }
  ored. eexists. split; [done|]. split; [|done]. by rewrite app_nil_r.
Qed.

Lemma hmac_update_rep h key text input :
  hmac_rep h key text -> Forall is_byte input -> slen input < 536870912 ->
  exists h', hmac_update h input = Some h' /\ hmac_rep h' key (text ++ input).
Proof.
  intros [Hr Ho] Hi Hl. unfold hmac_update.
  destruct (dg_update_rep _ _ _ Hr Hi Hl) as (c & -> & Hc). ored.
  eexists. split; [done|]. split; [|done]. by rewrite app_assoc.
Qed.

Lemma hmac_final_rep h key text :
  hmac_rep h key text -> Forall is_byte key ->
  exists h', hmac_final h = Some (h', HMAC key text) /\ dg_mem (hm_context h').
Proof.
  intros [Hr Ho] Hk. unfold hmac_final. destruct (dg_final_rep _ _ Hr) as (c & -> & Hc). ored.
  rewrite Ho.
  assert (Hp : Forall is_byte (xor_pad (block_key key) 92))
    by (apply xor_pad_bytes; [by apply block_key_bytes|unfold is_byte; lia]).
  destruct (dg_update_rep _ [] _ (dg_init_rep _ Hc) Hp) as (c1 & -> & Hc1).
  { unfold slen. rewrite xor_pad_length, block_key_length. lia. }
  ored. match goal with |- context [dg_update c1 ?d] =>
    destruct (dg_update_rep _ _ d Hc1) as (c2 & -> & Hc2) end.
  { apply dg_hash_bytes. }
  { unfold slen. rewrite dg_hash_size. pose proof dg_size_le. lia. }
  ored. destruct (dg_final_rep _ _ Hc2) as (c3 & -> & Hc3). ored. eexists (mk_hmac c3 _). by split.
Qed.

(** A text fed in chunks. *)
Definition hmac_chunks (tctx : ctx) (hctx : hmac_context) (key : list Z) (chunks : list (list Z)) :
    option (list Z) :=
  hctx ← hmac_init tctx hctx key;
  hctx ← foldl (fun h d => h ≫= fun h => hmac_update h d) (Some hctx) chunks;
  r ← hmac_final hctx;
  Some r.2.

Lemma hmac_chunks_rep key chunks : forall h text,
  hmac_rep h key text -> Forall (fun d => Forall is_byte d /\ slen d < 536870912) chunks ->
  exists h', foldl (fun h d => h ≫= fun h => hmac_update h d) (Some h) chunks = Some h' /\
    hmac_rep h' key (text ++ concat chunks).
Proof.
  induction chunks as [|d chunks IH]; intros h text Hh Hf.
  - exists h. by rewrite app_nil_r.
  - inversion Hf as [|? ? [Hb Hl] Hf']; subst. cbn [foldl].
    destruct (hmac_update_rep h key text d Hh Hb Hl) as (h' & Eu & Hh').
    destruct (IH h' _ Hh' Hf') as (h2 & E & H2). exists h2. split; [rewrite <- E, <- Eu; done|].
    by rewrite <- app_assoc in H2.
Qed.

Lemma hmac_chunks_spec tctx h key chunks :
  dg_mem tctx -> dg_mem (hm_context h) ->
  Forall (fun d => Forall is_byte d /\ slen d < 536870912) (key :: chunks) ->
  hmac_chunks tctx h key chunks = Some (HMAC key (concat chunks)).
Proof.
  intros Ht Hh Hf. inversion Hf as [|? ? [Hb Hl] Hf']; subst. unfold hmac_chunks.
  destruct (hmac_init_rep tctx h key Ht Hh Hb Hl) as (h1 & -> & H1). ored.
  destruct (hmac_chunks_rep key chunks h1 [] H1 Hf') as (h2 & -> & H2). ored.
  by destruct (hmac_final_rep h2 key _ H2 Hb) as (h3 & -> & _).
Qed.
End hmac.

Arguments hmac_context : clear implicits.

(** ** The functions of the two files *)

Definition pj_hmac_sha1_context : Type := hmac_context pj_sha1_context.
Definition pj_hmac_sha1_init : _ -> pj_hmac_sha1_context -> list Z -> option pj_hmac_sha1_context :=
  hmac_init.
Definition pj_hmac_sha1_update : pj_hmac_sha1_context -> list Z -> option pj_hmac_sha1_context :=
  hmac_update.
Definition pj_hmac_sha1_final :
    pj_hmac_sha1_context -> option (pj_hmac_sha1_context * list Z) := hmac_final.
Definition pj_hmac_sha1 (tctx : pj_sha1_context) (ctx : pj_hmac_sha1_context)
    (input key : list Z) : option (list Z) := hmac tctx ctx input key.

Definition pj_hmac_md5_context : Type := hmac_context pj_md5_context.
Definition pj_hmac_md5_init : _ -> pj_hmac_md5_context -> list Z -> option pj_hmac_md5_context :=
  hmac_init.
Definition pj_hmac_md5_update : pj_hmac_md5_context -> list Z -> option pj_hmac_md5_context :=
  hmac_update.
Definition pj_hmac_md5_final :
    pj_hmac_md5_context -> option (pj_hmac_md5_context * list Z) := hmac_final.
Definition pj_hmac_md5 (tctx : pj_md5_context) (ctx : pj_hmac_md5_context)
    (input key : list Z) : option (list Z) := hmac tctx ctx input key.

(** ** What they compute *)

(** C20: HMAC-SHA1 of [hmac_sha1.c], whatever the contexts held before and in
    whatever chunks the text is fed, is HMAC of RFC 2104 over the SHA-1 of
    FIPS 180: the unrolled rounds, the expansion in place, the buffering of
    partial blocks, the bit count and the padding included. *)
Theorem hmac_sha1_rfc2104 (tctx : pj_sha1_context) (h : pj_hmac_sha1_context)
    (key : list Z) (chunks : list (list Z)) :
  length (sha_buffer tctx) = 64%nat -> Forall is_byte (sha_buffer tctx) ->
  length (sha_buffer (hm_context h)) = 64%nat -> Forall is_byte (sha_buffer (hm_context h)) ->
  Forall (fun d => Forall is_byte d /\ slen d < 536870912) (key :: chunks) ->
  (h ← pj_hmac_sha1_init tctx h key;
   h ← foldl (fun h d => h ≫= fun h => pj_hmac_sha1_update h d) (Some h) chunks;
   r ← pj_hmac_sha1_final h;
   Some r.2) =
  let K0 := (if 64 <? slen key then Fips.sha1 key ++ replicate 44 0
             else key ++ replicate (64 - length key) 0) in
  Some (Fips.sha1 (xor_pad K0 0x5c ++ Fips.sha1 (xor_pad K0 0x36 ++ concat chunks))).
Proof.
  intros H1 H2 H3 H4 Hf.
  pose proof (hmac_chunks_spec tctx h key chunks (conj H1 H2) (conj H3 H4) Hf) as E.
  unfold hmac_chunks in E. refine (eq_trans E _). unfold HMAC, block_key.
  destruct (64 <? slen key); [|done]. by rewrite dg_hash_size.
Qed.
