(* ===== verification/Crc32.v ===== *)
(** * CRC-32

    [pjlib-util/crc32.c] has two versions: one with a table, which goes
    through the data by aligned words ([PJ_CRC32_HAS_TABLES], the default, on
    a little-endian machine), and one that computes the table's entries bit
    by bit.  They compute the same function, and it does not depend on the
    address of the data or on how they are cut in chunks. *)

From S2P Require Import Prelude Bytes PjString Digest.
From Stdlib Require Import Btauto.
Local Open Scope Z_scope.

Definition CRC32_NEGL : Z := 0xffffffff.

(** ** With a table *)

Module Table.

Definition crc_tab : list Z :=
  [0x00000000; 0x77073096; 0xee0e612c; 0x990951ba; 0x076dc419; 0x706af48f; 0xe963a535; 0x9e6495a3;
   0x0edb8832; 0x79dcb8a4; 0xe0d5e91e; 0x97d2d988; 0x09b64c2b; 0x7eb17cbd; 0xe7b82d07; 0x90bf1d91;
   0x1db71064; 0x6ab020f2; 0xf3b97148; 0x84be41de; 0x1adad47d; 0x6ddde4eb; 0xf4d4b551; 0x83d385c7;
   0x136c9856; 0x646ba8c0; 0xfd62f97a; 0x8a65c9ec; 0x14015c4f; 0x63066cd9; 0xfa0f3d63; 0x8d080df5;
   0x3b6e20c8; 0x4c69105e; 0xd56041e4; 0xa2677172; 0x3c03e4d1; 0x4b04d447; 0xd20d85fd; 0xa50ab56b;
   0x35b5a8fa; 0x42b2986c; 0xdbbbc9d6; 0xacbcf940; 0x32d86ce3; 0x45df5c75; 0xdcd60dcf; 0xabd13d59;
   0x26d930ac; 0x51de003a; 0xc8d75180; 0xbfd06116; 0x21b4f4b5; 0x56b3c423; 0xcfba9599; 0xb8bda50f;
   0x2802b89e; 0x5f058808; 0xc60cd9b2; 0xb10be924; 0x2f6f7c87; 0x58684c11; 0xc1611dab; 0xb6662d3d;
   0x76dc4190; 0x01db7106; 0x98d220bc; 0xefd5102a; 0x71b18589; 0x06b6b51f; 0x9fbfe4a5; 0xe8b8d433;
   0x7807c9a2; 0x0f00f934; 0x9609a88e; 0xe10e9818; 0x7f6a0dbb; 0x086d3d2d; 0x91646c97; 0xe6635c01;
   0x6b6b51f4; 0x1c6c6162; 0x856530d8; 0xf262004e; 0x6c0695ed; 0x1b01a57b; 0x8208f4c1; 0xf50fc457;
   0x65b0d9c6; 0x12b7e950; 0x8bbeb8ea; 0xfcb9887c; 0x62dd1ddf; 0x15da2d49; 0x8cd37cf3; 0xfbd44c65;
   0x4db26158; 0x3ab551ce; 0xa3bc0074; 0xd4bb30e2; 0x4adfa541; 0x3dd895d7; 0xa4d1c46d; 0xd3d6f4fb;
   0x4369e96a; 0x346ed9fc; 0xad678846; 0xda60b8d0; 0x44042d73; 0x33031de5; 0xaa0a4c5f; 0xdd0d7cc9;
   0x5005713c; 0x270241aa; 0xbe0b1010; 0xc90c2086; 0x5768b525; 0x206f85b3; 0xb966d409; 0xce61e49f;
   0x5edef90e; 0x29d9c998; 0xb0d09822; 0xc7d7a8b4; 0x59b33d17; 0x2eb40d81; 0xb7bd5c3b; 0xc0ba6cad;
   0xedb88320; 0x9abfb3b6; 0x03b6e20c; 0x74b1d29a; 0xead54739; 0x9dd277af; 0x04db2615; 0x73dc1683;
   0xe3630b12; 0x94643b84; 0x0d6d6a3e; 0x7a6a5aa8; 0xe40ecf0b; 0x9309ff9d; 0x0a00ae27; 0x7d079eb1;
   0xf00f9344; 0x8708a3d2; 0x1e01f268; 0x6906c2fe; 0xf762575d; 0x806567cb; 0x196c3671; 0x6e6b06e7;
   0xfed41b76; 0x89d32be0; 0x10da7a5a; 0x67dd4acc; 0xf9b9df6f; 0x8ebeeff9; 0x17b7be43; 0x60b08ed5;
   0xd6d6a3e8; 0xa1d1937e; 0x38d8c2c4; 0x4fdff252; 0xd1bb67f1; 0xa6bc5767; 0x3fb506dd; 0x48b2364b;
   0xd80d2bda; 0xaf0a1b4c; 0x36034af6; 0x41047a60; 0xdf60efc3; 0xa867df55; 0x316e8eef; 0x4669be79;
   0xcb61b38c; 0xbc66831a; 0x256fd2a0; 0x5268e236; 0xcc0c7795; 0xbb0b4703; 0x220216b9; 0x5505262f;
   0xc5ba3bbe; 0xb2bd0b28; 0x2bb45a92; 0x5cb36a04; 0xc2d7ffa7; 0xb5d0cf31; 0x2cd99e8b; 0x5bdeae1d;
   0x9b64c2b0; 0xec63f226; 0x756aa39c; 0x026d930a; 0x9c0906a9; 0xeb0e363f; 0x72076785; 0x05005713;
   0x95bf4a82; 0xe2b87a14; 0x7bb12bae; 0x0cb61b38; 0x92d28e9b; 0xe5d5be0d; 0x7cdcefb7; 0x0bdbdf21;
   0x86d3d2d4; 0xf1d4e242; 0x68ddb3f8; 0x1fda836e; 0x81be16cd; 0xf6b9265b; 0x6fb077e1; 0x18b74777;
   0x88085ae6; 0xff0f6a70; 0x66063bca; 0x11010b5c; 0x8f659eff; 0xf862ae69; 0x616bffd3; 0x166ccf45;
   0xa00ae278; 0xd70dd2ee; 0x4e048354; 0x3903b3c2; 0xa7672661; 0xd06016f7; 0x4969474d; 0x3e6e77db;
   0xaed16a4a; 0xd9d65adc; 0x40df0b66; 0x37d83bf0; 0xa9bcae53; 0xdebb9ec5; 0x47b2cf7f; 0x30b5ffe9;
   0xbdbdf21c; 0xcabac28a; 0x53b39330; 0x24b4a3a6; 0xbad03605; 0xcdd70693; 0x54de5729; 0x23d967bf;
   0xb3667a2e; 0xc4614ab8; 0x5d681b02; 0x2a6f2b94; 0xb40bbe37; 0xc30c8ea1; 0x5a05df1b; 0x2d02ef8d].

Definition CRC32_INDEX (c : Z) : Z := Z.land c 0xff.
Definition CRC32_SHIFTED (c : Z) : Z := Z.shiftr c 8.

(** [crc_state] is the only field of the context. *)
Definition pj_crc32_init : Z := 0.

(** [crc_tab[CRC32_INDEX(crc) ^ b] ^ CRC32_SHIFTED(crc)] *)
Definition crc_byte (crc b : Z) : option Z :=
  t ← zlookup crc_tab (Z.lxor (CRC32_INDEX crc) b);
  Some (Z.lxor t (CRC32_SHIFTED crc)).

(** The bytes before the first aligned word; [addr] is the address of the
    data. *)
Fixpoint crc_head (addr crc : Z) (data : list Z) : option (Z * list Z) :=
  match data with
  | b :: rest =>
      if Z.land addr 3 =? 0 then Some (crc, data)
      else crc ← crc_byte crc b; crc_head (addr + 1) crc rest
  | [] => Some (crc, [])
  end.

(** [crc_tab[CRC32_INDEX(crc)] ^ CRC32_SHIFTED(crc)] *)
Definition crc_shift (crc : Z) : option Z :=
  t ← zlookup crc_tab (CRC32_INDEX crc);
  Some (Z.lxor t (CRC32_SHIFTED crc)).

(** [while (nbytes >= 4)], then the bytes that remain. *)
Fixpoint crc_words (crc : Z) (data : list Z) : option Z :=
  match data with
  | a :: ((b :: c :: d :: rest) as tail) =>
      let crc := Z.lxor crc (a + 256 * (b + 256 * (c + 256 * d))) in
      crc ← crc_shift crc;
      crc ← crc_shift crc;
      crc ← crc_shift crc;
      crc ← crc_shift crc;
      crc_words crc rest
  | _ => foldl (fun crc b => crc ≫= fun crc => crc_byte crc b) (Some crc) data
  end.

Definition pj_crc32_update (ctx addr : Z) (data : list Z) : option Z :=
  let crc := Z.lxor ctx CRC32_NEGL in
  r ← crc_head addr crc data;
  let '(crc, data) := r : Z * list Z in
  crc ← crc_words crc data;
  Some (Z.lxor crc CRC32_NEGL).

Definition pj_crc32_final (ctx : Z) : Z := ctx.

Definition pj_crc32_calc (addr : Z) (data : list Z) : option Z :=
  ctx ← pj_crc32_update pj_crc32_init addr data;
  Some (pj_crc32_final ctx).

End Table.

(** ** Bit by bit *)

Module Bitwise.

Definition pj_crc32_init_bits : Z := CRC32_NEGL.

Fixpoint crc_bits (n : nat) (temp : Z) : Z :=
  match n with
  | O => temp
  | S n =>
      crc_bits n (if negb (Z.land temp 1 =? 0) then Z.lxor (Z.shiftr temp 1) 0xEDB88320
                  else Z.shiftr temp 1)
  end.

Fixpoint crc_loop (crc : Z) (data : list Z) : Z :=
  match data with
  | [] => crc
  | b :: rest =>
      let temp := Z.lxor (Z.land crc 0xFF) b in
      crc_loop (Z.lxor (Z.shiftr crc 8) (crc_bits 8 temp)) rest
  end.

(** The new state and the result. *)
Definition pj_crc32_update_bits (ctx : Z) (octets : list Z) : Z * Z :=
  let crc := crc_loop ctx octets in (crc, Z.lxor crc CRC32_NEGL).

Definition pj_crc32_final_bits (ctx : Z) : Z := Z.lxor ctx CRC32_NEGL.

Definition pj_crc32_calc_bits (data : list Z) : Z :=
  pj_crc32_final_bits (pj_crc32_update_bits pj_crc32_init_bits data).1.

End Bitwise.

(** ** Equivalence *)

Lemma table_bits : Table.crc_tab = Bitwise.crc_bits 8 <$> byte_range.
Proof. vm_compute. reflexivity. Qed.

Lemma table_lookup i :
  is_byte i -> zlookup Table.crc_tab i = Some (Bitwise.crc_bits 8 i).
Proof.
  intros Hi. unfold is_byte in Hi. rewrite table_bits.
  rewrite <- (Z2Nat.id i) at 1 by lia. rewrite zlookup_nat, list_lookup_fmap.
  unfold byte_range. rewrite list_lookup_fmap, lookup_seq_lt by lia. cbn.
  by rewrite Z2Nat.id by lia.
Qed.

(** One byte of the reference. *)
Definition crc_ref (crc b : Z) : Z :=
  Z.lxor (Bitwise.crc_bits 8 (Z.lxor (Z.land crc 255) b)) (Z.shiftr crc 8).

Lemma land255_byte c : is_byte (Z.land c 255).
Proof. change 255 with (Z.ones 8). rewrite Z.land_ones by lia. apply Z.mod_pos_bound. lia. Qed.

Lemma crc_loop_foldl data : forall crc, Bitwise.crc_loop crc data = foldl crc_ref crc data.
Proof.
  induction data as [|b data IH]; intros crc; [done|]. cbn [Bitwise.crc_loop foldl].
  rewrite IH. unfold crc_ref at 3. by rewrite Z.lxor_comm.
Qed.

Lemma land255_word a r : is_byte a -> Z.land (a + 256 * r) 255 = a.
Proof.
  intros Ha. change 255 with (Z.ones 8). rewrite Z.land_ones by lia. change (2 ^ 8) with 256.
  unfold is_byte in Ha. Z.to_euclidean_division_equations; lia.
Qed.

Lemma shiftr_word a r : is_byte a -> Z.shiftr (a + 256 * r) 8 = r.
Proof.
  intros Ha. rewrite Z.shiftr_div_pow2 by lia. change (2 ^ 8) with 256.
  unfold is_byte in Ha. Z.to_euclidean_division_equations; lia.
Qed.

(** Shifting a word that was xored in takes its first byte, and leaves the
    others to be xored in. *)
Lemma crc_shift_word crc a r :
  is_byte a -> Table.crc_shift (Z.lxor crc (a + 256 * r)) = Some (Z.lxor (crc_ref crc a) r).
Proof.
  intros Ha. unfold Table.crc_shift, Table.CRC32_INDEX, Table.CRC32_SHIFTED.
  rewrite Z.shiftr_lxor, shiftr_word by done.
  assert (E : Z.land (Z.lxor crc (a + 256 * r)) 255 = Z.lxor (Z.land crc 255) a).
  { rewrite <- (land255_word a r Ha) at 2. apply Z.bits_inj. intros n.
    rewrite Z.land_spec, !Z.lxor_spec, !Z.land_spec. btauto. }
  rewrite E, table_lookup.
  - ored. unfold crc_ref. by rewrite Z.lxor_assoc.
  - rewrite <- E. apply land255_byte.
Qed.

Lemma crc_byte_ref crc b : is_byte b -> Table.crc_byte crc b = Some (crc_ref crc b).
Proof.
  intros Hb. unfold Table.crc_byte, Table.CRC32_INDEX, Table.CRC32_SHIFTED.
  assert (E : is_byte (Z.lxor (Z.land crc 255) b)).
  { rewrite <- (land255_word b 0 Hb). replace (Z.lxor (Z.land crc 255) (Z.land (b + 256 * 0) 255))
      with (Z.land (Z.lxor crc (b + 256 * 0)) 255); [apply land255_byte|].
    apply Z.bits_inj. intros n. rewrite Z.land_spec, !Z.lxor_spec, !Z.land_spec. btauto. }
  by rewrite table_lookup.
Qed.

Lemma crc_bytes_ref data : forall crc, Forall is_byte data ->
  foldl (fun crc b => crc ≫= fun crc => Table.crc_byte crc b) (Some crc) data
    = Some (foldl crc_ref crc data).
Proof.
  induction data as [|b data IH]; intros crc Hd; [done|]. inversion Hd; subst. cbn [foldl].
  rewrite <- IH by done. cbn [mbind option_bind]. by rewrite crc_byte_ref.
Qed.

Lemma obind_eq {A B} (m : option A) (f : A -> option B) x : m = Some x -> m ≫= f = f x.
Proof. by intros ->. Qed.

Lemma crc_words_short data crc :
  (length data < 4)%nat ->
  Table.crc_words crc data = foldl (fun crc b => crc ≫= fun crc => Table.crc_byte crc b) (Some crc) data.
Proof. destruct data as [|a [|b [|c [|d data]]]]; try reflexivity. cbn [length]. lia. Qed.

Lemma crc_words_cons a b c d data crc :
  Table.crc_words crc (a :: b :: c :: d :: data) =
    (crc ← Table.crc_shift (Z.lxor crc (a + 256 * (b + 256 * (c + 256 * d))));
     crc ← Table.crc_shift crc; crc ← Table.crc_shift crc; crc ← Table.crc_shift crc;
     Table.crc_words crc data).
Proof. reflexivity. Qed.

Lemma crc_words_ref data : forall crc, Forall is_byte data ->
  Table.crc_words crc data = Some (foldl crc_ref crc data).
Proof.
  induction data as [data H|a b c d data IH] using four_ind; intros crc Hd.
  - rewrite crc_words_short by done. by apply crc_bytes_ref.
  - inversion Hd as [|? ? Ha Hd1]; subst. inversion Hd1 as [|? ? Hb Hd2]; subst.
    inversion Hd2 as [|? ? Hc Hd3]; subst. inversion Hd3 as [|? ? Hdd Hd4]; subst.
    rewrite crc_words_cons. replace (256 * d) with (256 * (d + 256 * 0)) by lia.
    do 4 (etransitivity; [eapply obind_eq, crc_shift_word; done|cbv beta]).
    rewrite Z.lxor_0_r. by apply IH.
Qed.

Lemma crc_head_ref data : forall addr crc, Forall is_byte data ->
  exists crc' data', Table.crc_head addr crc data = Some (crc', data') /\
    Forall is_byte data' /\ foldl crc_ref crc' data' = foldl crc_ref crc data.
Proof.
  induction data as [|b data IH]; intros addr crc Hd; cbn [Table.crc_head]; [by eexists _, _|].
  destruct (Z.land addr 3 =? 0); [by eexists _, _|].
  inversion Hd; subst. rewrite crc_byte_ref by done. ored. by apply IH.
Qed.

Lemma lxor_negl c : Z.lxor (Z.lxor c CRC32_NEGL) CRC32_NEGL = c.
Proof. by rewrite Z.lxor_assoc, Z.lxor_nilpotent, Z.lxor_0_r. Qed.

(** The table version, at any address, in terms of the other. *)
Lemma table_update_ref ctx addr data :
  Forall is_byte data ->
  Table.pj_crc32_update ctx addr data
    = Some (Bitwise.pj_crc32_update_bits (Z.lxor ctx CRC32_NEGL) data).2.
Proof.
  intros Hd. unfold Table.pj_crc32_update, Bitwise.pj_crc32_update_bits.
  destruct (crc_head_ref data addr (Z.lxor ctx CRC32_NEGL) Hd) as (crc & d & -> & Hd' & E). ored.
  rewrite crc_words_ref by done. ored. by rewrite E, crc_loop_foldl.
Qed.

(** The CRC of a message in one piece is that of the bitwise version. *)
Lemma crc32_calc_ref addr data :
  Forall is_byte data -> Table.pj_crc32_calc addr data = Some (Bitwise.pj_crc32_calc_bits data).
Proof. intros Hd. unfold Table.pj_crc32_calc. by rewrite table_update_ref. Qed.

(** The result has 32 bits. *)
Lemma shiftr_u32 v n : 0 <= n -> is_u32 v -> is_u32 (Z.shiftr v n).
Proof.
  intros Hn [H1 H2]. split; [by apply Z.shiftr_nonneg|]. rewrite Z.shiftr_div_pow2 by done.
  apply Z.div_lt_upper_bound; [lia|]. assert (0 < 2 ^ n) by lia. nia.
Qed.

Lemma crc_bits_u32 n : forall v, is_u32 v -> is_u32 (Bitwise.crc_bits n v).
Proof.
  induction n as [|n IH]; intros v Hv; [done|]. cbn [Bitwise.crc_bits]. apply IH.
  destruct (negb _); [apply lxor_u32; [|unfold is_u32; lia]|]; apply shiftr_u32; done.
Qed.

Lemma crc_loop_u32 data : forall crc, Forall is_byte data -> is_u32 crc -> is_u32 (Bitwise.crc_loop crc data).
Proof.
  induction data as [|b data IH]; intros crc Hb Hc; [done|]. apply Forall_cons in Hb as [Hb Hd].
  cbn [Bitwise.crc_loop]. apply IH; [done|]. apply lxor_u32; [by apply shiftr_u32|].
  apply crc_bits_u32, lxor_u32; [|unfold is_byte, is_u32 in *; lia].
  pose proof (land255_byte crc). unfold is_byte, is_u32 in *. lia.
Qed.

Lemma crc32_calc_u32 data : Forall is_byte data -> is_u32 (Bitwise.pj_crc32_calc_bits data).
Proof.
  intros H. apply lxor_u32; [apply crc_loop_u32; [done|]|]; split; (reflexivity || done).
Qed.

(** C24: the CRC with the table, fed in chunks at any addresses, is the CRC
    computed bit by bit of the whole: the table's entries, the unaligned bytes
    before and after, and the words taken four bytes at a time. *)
Theorem crc32_versions_agree (chunks : list (Z * list Z)) :
  Forall (fun c => Forall is_byte c.2) chunks ->
  (ctx ← foldl (fun ctx c => ctx ≫= fun ctx => Table.pj_crc32_update ctx c.1 c.2)
           (Some Table.pj_crc32_init) chunks;
   Some (Table.pj_crc32_final ctx)) = Some (Bitwise.pj_crc32_calc_bits (concat (chunks.*2))).
Proof.
  intros Hf.
  assert (G : forall ctx, foldl (fun ctx c => ctx ≫= fun ctx => Table.pj_crc32_update ctx c.1 c.2)
      (Some ctx) chunks
    = Some (Bitwise.pj_crc32_update_bits (Z.lxor ctx CRC32_NEGL) (concat (chunks.*2))).2).
  { induction Hf as [|[addr d] chunks Hd Hf IH]; intros ctx.
    - cbn. by rewrite lxor_negl.
    - cbn [foldl fmap list_fmap concat fst snd]. cbn [fst snd] in Hd.
      assert (E : (Some ctx ≫= fun ctx => Table.pj_crc32_update ctx addr d)
        = Some (Bitwise.pj_crc32_update_bits (Z.lxor ctx CRC32_NEGL) d).2) by by apply table_update_ref.
      rewrite E, IH. unfold Bitwise.pj_crc32_update_bits. cbn [snd].
      by rewrite lxor_negl, !crc_loop_foldl, foldl_app. }
  rewrite G. done.
Qed.
