(* ===== verification/StunMsg.v ===== *)
(** * STUN messages

    The messages of [pjnath/stun_msg.c]: attributes, their decoding and
    encoding, and the check of packets.  A packet is the memory that holds it,
    from its first byte; reading or writing outside that memory is undefined.
    The structure behind an attribute is the one of its constructor, and using
    it as another is undefined.  Numbers that the code keeps in network order
    in addresses are their values. *)

From Stdlib Require Import String.
From S2P Require Import Prelude Bytes PjString Digest Sha1 Hmac Crc32.
Local Open Scope Z_scope.

(** ** Constants *)

Definition PJNATH_EINSTUNMSGLEN : Z := 370002.
Definition PJNATH_EINSTUNMSGTYPE : Z := 370003.
Definition PJNATH_ESTUNTOOMANYATTR : Z := 370021.
Definition PJNATH_ESTUNINATTRLEN : Z := 370022.
Definition PJNATH_ESTUNDUPATTR : Z := 370023.
Definition PJNATH_ESTUNFINGERPRINT : Z := 370030.
Definition PJNATH_ESTUNMSGINTPOS : Z := 370031.
Definition PJNATH_ESTUNFINGERPOS : Z := 370033.
Definition PJNATH_EINVAF : Z := 370042.
Definition PJ_STATUS_FROM_STUN_CODE (code : Z) : Z := 370000 + code.

Definition PJ_STUN_MAGIC : Z := 0x2112A442.
Definition STUN_XOR_FINGERPRINT : Z := 0x5354554e.
Definition PJ_STUN_MAX_ATTR : Z := 16.
Definition sizeof_stun_hdr : Z := 20.
Definition ATTR_HDR_LEN : Z := 4.
Definition STUN_GENERIC_IPV4_ADDR_LEN : Z := 8.
Definition STUN_GENERIC_IPV6_ADDR_LEN : Z := 20.

Definition PJ_STUN_ATTR_USERNAME : Z := 0x0006.
Definition PJ_STUN_ATTR_MESSAGE_INTEGRITY : Z := 0x0008.
Definition PJ_STUN_ATTR_ERROR_CODE : Z := 0x0009.
Definition PJ_STUN_ATTR_UNKNOWN_ATTRIBUTES : Z := 0x000A.
Definition PJ_STUN_ATTR_REALM : Z := 0x0014.
Definition PJ_STUN_ATTR_NONCE : Z := 0x0015.
Definition PJ_STUN_ATTR_END_MANDATORY_ATTR : Z := 0x0031.
Definition PJ_STUN_ATTR_START_EXTENDED_ATTR : Z := 0x8021.
Definition PJ_STUN_ATTR_SOFTWARE : Z := 0x8022.
Definition PJ_STUN_ATTR_FINGERPRINT : Z := 0x8028.
Definition PJ_STUN_ATTR_END_EXTENDED_ATTR : Z := 0x802b.

Definition PJ_STUN_SC_BAD_REQUEST : Z := 400.
Definition PJ_STUN_SC_UNAUTHORIZED : Z := 401.
Definition PJ_STUN_SC_UNKNOWN_ATTRIBUTE : Z := 420.
Definition PJ_STUN_SC_STALE_NONCE : Z := 438.
Definition PJ_STUN_SC_SERVER_ERROR : Z := 500.

Definition PJ_STUN_IS_DATAGRAM : Z := 1.
Definition PJ_STUN_CHECK_PACKET : Z := 2.
Definition PJ_STUN_NO_FINGERPRINT_CHECK : Z := 8.

Definition PJ_STUN_IS_REQUEST (t : Z) : bool := Z.land t 0x0110 =? 0x0000.
Definition PJ_STUN_IS_SUCCESS_RESPONSE (t : Z) : bool := Z.land t 0x0110 =? 0x0100.
Definition PJ_STUN_IS_ERROR_RESPONSE (t : Z) : bool := Z.land t 0x0110 =? 0x0110.
Definition PJ_STUN_IS_INDICATION (t : Z) : bool := Z.land t 0x0110 =? 0x0010.
Definition PJ_STUN_SUCCESS_RESPONSE_BIT : Z := 0x0100.
Definition PJ_STUN_ERROR_RESPONSE_BIT : Z := 0x0110.

(** ** Data *)

Record pj_stun_msg_hdr := mk_stun_hdr {
  m_type : Z;
  m_length : Z;
  m_magic : Z;
  m_tsx_id : list Z
}.

#[export] Instance eta_stun_hdr : Settable pj_stun_msg_hdr :=
  fun h => mk_stun_hdr (m_type h) (m_length h) (m_magic h) (m_tsx_id h).

(** [pj_sockaddr]: the family decides the fields. *)
Inductive pj_sockaddr :=
  | sock_in (port : Z) (addr : list Z)
  | sock_in6 (port : Z) (addr : list Z)
  | sock_other.

Record pj_stun_attr_hdr := mk_attr_hdr { a_type : Z; a_length : Z }.

Inductive attr_body :=
  | A_sockaddr (xor_ed : bool) (addr : pj_sockaddr)
  | A_empty
  | A_string (value : list Z)
  | A_uint (value : Z)
  | A_uint64 (hi lo : Z)
  | A_msgint (hmac : list Z)
  | A_errcode (err_code : Z) (reason : list Z)
  | A_unknown (attrs : list Z)
  | A_binary (magic : Z) (data : list Z).

Record pj_stun_attr := mk_attr { a_hdr : pj_stun_attr_hdr; a_body : attr_body }.

Definition attr_type (a : pj_stun_attr) : Z := a_type (a_hdr a).

Record pj_stun_msg := mk_stun_msg { msg_hdr : pj_stun_msg_hdr; msg_attr : list pj_stun_attr }.

#[export] Instance eta_stun_msg : Settable pj_stun_msg :=
  fun m => mk_stun_msg (msg_hdr m) (msg_attr m).

Definition attr_count (m : pj_stun_msg) : Z := Z.of_nat (length (msg_attr m)).

(** ** Descriptors *)

(** The pairs of functions of a descriptor: which one decodes, which one
    encodes. *)
Inductive attr_fns :=
  | F_sockaddr | F_xored_sockaddr | F_uint | F_uint64 | F_string | F_msgint | F_errcode
  | F_unknown | F_binary | F_empty.

Record attr_desc := mk_desc { d_name : string; d_decode : attr_fns; d_encode : attr_fns }.

Definition mandatory_attr_desc : list (option attr_desc) :=
  [None;
   Some (mk_desc "MAPPED-ADDRESS" F_sockaddr F_sockaddr);
   Some (mk_desc "RESPONSE-ADDRESS" F_sockaddr F_sockaddr);
   Some (mk_desc "CHANGE-REQUEST" F_uint F_uint);
   Some (mk_desc "SOURCE-ADDRESS" F_sockaddr F_sockaddr);
   Some (mk_desc "CHANGED-ADDRESS" F_sockaddr F_sockaddr);
   Some (mk_desc "USERNAME" F_string F_string);
   Some (mk_desc "PASSWORD" F_string F_string);
   Some (mk_desc "MESSAGE-INTEGRITY" F_msgint F_msgint);
   Some (mk_desc "ERROR-CODE" F_errcode F_errcode);
   Some (mk_desc "UNKNOWN-ATTRIBUTES" F_unknown F_unknown);
   Some (mk_desc "REFLECTED-FROM" F_sockaddr F_sockaddr);
   Some (mk_desc "CHANNEL-NUMBER" F_uint F_uint);
   Some (mk_desc "LIFETIME" F_uint F_uint);
   None;
   Some (mk_desc "MAGIC-COOKIE" F_uint F_uint);
   Some (mk_desc "BANDWIDTH" F_uint F_uint);
   None;
   Some (mk_desc "XOR-PEER-ADDRESS" F_xored_sockaddr F_sockaddr);
   Some (mk_desc "DATA" F_binary F_binary);
   Some (mk_desc "REALM" F_string F_string);
   Some (mk_desc "NONCE" F_string F_string);
   Some (mk_desc "XOR-RELAYED-ADDRESS" F_xored_sockaddr F_sockaddr);
   Some (mk_desc "REQUESTED-ADDRESS-FAMILY" F_uint F_uint);
   Some (mk_desc "EVEN-PORT" F_uint F_uint);
   Some (mk_desc "REQUESTED-TRANSPORT" F_uint F_uint);
   Some (mk_desc "DONT-FRAGMENT" F_empty F_empty);
   None;
   None;
   None;
   None;
   None;
   Some (mk_desc "XOR-MAPPED-ADDRESS" F_xored_sockaddr F_sockaddr);
   Some (mk_desc "TIMER-VAL" F_uint F_uint);
   Some (mk_desc "RESERVATION-TOKEN" F_uint64 F_uint64);
   Some (mk_desc "XOR-REFLECTED-FROM" F_xored_sockaddr F_sockaddr);
   Some (mk_desc "PRIORITY" F_uint F_uint);
   Some (mk_desc "USE-CANDIDATE" F_empty F_empty);
   None;
   None;
   None;
   None;
   Some (mk_desc "CONNECTION-ID" F_uint F_uint);
   None;
   None;
   None;
   None;
   None;
   Some (mk_desc "ICMP" F_uint F_uint);
   None].

Definition extended_attr_desc : list (option attr_desc) :=
  [None;
   Some (mk_desc "SOFTWARE" F_string F_string);
   Some (mk_desc "ALTERNATE-SERVER" F_sockaddr F_sockaddr);
   Some (mk_desc "REFRESH-INTERVAL" F_uint F_uint);
   None;
   None;
   None;
   Some (mk_desc "FINGERPRINT" F_uint F_uint);
   Some (mk_desc "ICE-CONTROLLED" F_uint64 F_uint64);
   Some (mk_desc "ICE-CONTROLLING" F_uint64 F_uint64)].

Definition find_attr_desc (t : Z) : option attr_desc :=
  if t <? PJ_STUN_ATTR_END_MANDATORY_ATTR then
    default None (zlookup mandatory_attr_desc t)
  else if (PJ_STUN_ATTR_START_EXTENDED_ATTR <=? t) && (t <? PJ_STUN_ATTR_END_EXTENDED_ATTR) then
    default None (zlookup extended_attr_desc (t - PJ_STUN_ATTR_START_EXTENDED_ATTR))
  else None.

Definition pj_stun_get_attr_name (t : Z) : list Z :=
  match find_attr_desc t with Some d => lit (d_name d) | None => lit "???" end.

Definition stun_err_msg_map : list (Z * string) :=
  [(300, "Try Alternate"%string); (400, "Bad Request"%string); (401, "Unauthorized"%string);
   (403, "Forbidden"%string); (420, "Unknown Attribute"%string);
   (437, "Allocation Mismatch"%string); (438, "Stale Nonce"%string);
   (439, "Active Destination Already Set"%string); (441, "Wrong Credentials"%string);
   (442, "Unsupported Transport Protocol"%string); (445, "Operation for TCP Only"%string);
   (446, "Connection Failure"%string); (447, "Connection Timeout"%string);
   (486, "Allocation Quota Reached"%string); (487, "Role Conflict"%string);
   (500, "Server Error"%string); (508, "Insufficient Capacity"%string);
   (600, "Global Failure"%string)].

(** Find error message using binary search: the final [first]. *)
Fixpoint err_search (fuel : nat) (first n err_code : Z) : option Z :=
  match fuel with
  | O => None
  | S fuel =>
      if 0 <? n then
        let half := n / 2 in
        let mid := first + half in
        e ← zlookup stun_err_msg_map mid;
        if e.1 <? err_code then err_search fuel (mid + 1) (n - (half + 1)) err_code
        else if err_code <? e.1 then err_search fuel first half err_code
        else Some mid
      else Some first
  end.

Definition pj_stun_get_err_reason (err_code : Z) : option (list Z) :=
  let n := Z.of_nat (length stun_err_msg_map) in
  first ← err_search (S (length stun_err_msg_map)) 0 n err_code;
  e ← zlookup stun_err_msg_map first;
  Some (if e.1 =? err_code then lit e.2 else []).

(** ** Creation of attributes and messages *)

(** [INIT_ATTR] *)
Definition INIT_ATTR (t l : Z) : pj_stun_attr_hdr := mk_attr_hdr (u16 t) (u16 l).

Definition pj_sockaddr_get_addr_len (addr : pj_sockaddr) : Z :=
  match addr with sock_in _ _ => 4 | sock_in6 _ _ => 16 | sock_other => 0 end.

Definition pj_stun_sockaddr_attr_create (attr_type : Z) (xor_ed : bool) (addr : pj_sockaddr) :
    pj_stun_attr :=
  mk_attr (INIT_ATTR attr_type (pj_sockaddr_get_addr_len addr + 4)) (A_sockaddr xor_ed addr).

Definition pj_stun_string_attr_create (attr_type : Z) (value : list Z) : pj_stun_attr :=
  mk_attr (INIT_ATTR attr_type (slen value)) (A_string value).

Definition pj_stun_empty_attr_create (attr_type : Z) : pj_stun_attr :=
  mk_attr (INIT_ATTR attr_type 0) A_empty.

Definition pj_stun_uint_attr_create (attr_type value : Z) : pj_stun_attr :=
  mk_attr (INIT_ATTR attr_type 4) (A_uint value).

Definition pj_stun_uint64_attr_create (attr_type : Z) (value : option (Z * Z)) : pj_stun_attr :=
  let '(hi, lo) := default (0, 0) value in
  mk_attr (INIT_ATTR attr_type 8) (A_uint64 hi lo).

Definition pj_stun_msgint_attr_create : pj_stun_attr :=
  mk_attr (INIT_ATTR PJ_STUN_ATTR_MESSAGE_INTEGRITY 20) (A_msgint (replicate 20 0)).

(** [pj_ansi_snprintf(... "Unknown error %d", err_code)] *)
Definition unknown_error (err_code : Z) : list Z :=
  lit "Unknown error " ++
  (if err_code <? 0 then 45 :: pj_utoa (- err_code) else pj_utoa err_code).

Definition pj_stun_errcode_attr_create (err_code : Z) (err_reason : option (list Z)) :
    option (Z + pj_stun_attr) :=
  if err_code =? 0 then Some (inl PJ_EINVAL)
  else
    reason ← (match err_reason with
              | Some r => Some r
              | None =>
                  str ← pj_stun_get_err_reason err_code;
                  Some (if slen str =? 0 then unknown_error err_code else str)
              end);
    Some (inr (mk_attr (INIT_ATTR PJ_STUN_ATTR_ERROR_CODE (4 + slen reason))
                 (A_errcode err_code reason))).

Definition pj_stun_unknown_attr_create (attr_array : list Z) : Z + pj_stun_attr :=
  if PJ_STUN_MAX_ATTR <=? Z.of_nat (length attr_array) then inl PJ_EINVAL
  else inr (mk_attr (INIT_ATTR PJ_STUN_ATTR_UNKNOWN_ATTRIBUTES (Z.of_nat (length attr_array) * 2))
              (A_unknown attr_array)).

Definition pj_stun_binary_attr_create (attr_type : Z) (data : list Z) : Z + pj_stun_attr :=
  if attr_type =? 0 then inl PJ_EINVAL
  else inr (mk_attr (INIT_ATTR attr_type (slen data)) (A_binary PJ_STUN_MAGIC data)).

(** [tsx_id] is given, or made of the process id, a random number and a
    counter. *)
Definition pj_stun_msg_create (msg_type magic : Z) (tsx_id : list Z) : Z + pj_stun_msg :=
  if msg_type =? 0 then inl PJ_EINVAL
  else inr (mk_stun_msg (mk_stun_hdr (u16 msg_type) 0 magic tsx_id) []).

Definition pj_stun_msg_add_attr (msg : pj_stun_msg) (attr : pj_stun_attr) : Z * pj_stun_msg :=
  if attr_count msg <? PJ_STUN_MAX_ATTR
  then (PJ_SUCCESS, msg <| msg_attr := msg_attr msg ++ [attr] |>)
  else (PJ_ETOOMANY, msg).

(** Adding the result of a creation: [pj_stun_msg_add_*_attr]. *)
Definition add_created (msg : pj_stun_msg) (attr : Z + pj_stun_attr) : Z * pj_stun_msg :=
  match attr with inl status => (status, msg) | inr a => pj_stun_msg_add_attr msg a end.

Fixpoint find_attr_from (attrs : list pj_stun_attr) (t : Z) : option pj_stun_attr :=
  match attrs with
  | [] => None
  | a :: rest => if attr_type a =? t then Some a else find_attr_from rest t
  end.

Definition pj_stun_msg_find_attr (msg : pj_stun_msg) (t index : Z) : option pj_stun_attr :=
  find_attr_from (drop (Z.to_nat index) (msg_attr msg)) t.

Definition pj_stun_attr_clone (attr : pj_stun_attr) : option (option pj_stun_attr) :=
  match find_attr_desc (attr_type attr) with
  | Some _ => Some (Some attr)
  | None =>
      match a_body attr with
      | A_binary magic _ => Some (if magic =? PJ_STUN_MAGIC then Some attr else None)
      | _ => None
      end
  end.

Definition pj_stun_msg_clone (src : pj_stun_msg) : option pj_stun_msg :=
  attrs ← mapM pj_stun_attr_clone (msg_attr src);
  Some (src <| msg_attr := omap id attrs |>).

(** The error code and the response, if it could be made. *)
Definition pj_stun_msg_create_response (req_msg : pj_stun_msg) (err_code : Z)
    (err_msg : option (list Z)) : option (Z + pj_stun_msg) :=
  let t := m_type (msg_hdr req_msg) in
  if negb (PJ_STUN_IS_REQUEST t) then Some (inl PJNATH_EINSTUNMSGTYPE)
  else
    let t := Z.lor t (if negb (err_code =? 0) then PJ_STUN_ERROR_RESPONSE_BIT
                      else PJ_STUN_SUCCESS_RESPONSE_BIT) in
    match pj_stun_msg_create t (m_magic (msg_hdr req_msg)) (m_tsx_id (msg_hdr req_msg)) with
    | inl status => Some (inl status)
    | inr response =>
        if negb (err_code =? 0) then
          a ← pj_stun_errcode_attr_create err_code err_msg;
          let '(status, response) := add_created response a in
          Some (if negb (status =? PJ_SUCCESS) then inl status else inr response)
        else Some (inr response)
    end.

(** ** Decoding *)

(** [(len + 3) & (~3)] on [unsigned]. *)
Definition align4 (len : Z) : Z := Z.land (u32 (len + 3)) 0xFFFFFFFC.

Definition magic_bytes : list Z := be32 PJ_STUN_MAGIC.

Definition xor_bytes (a b : list Z) : list Z := zip_with Z.lxor a b.

Section decode.
Context (strerror : Z -> list Z) (pdu : list Z).

Definition GETATTRHDR (p : Z) : option pj_stun_attr_hdr :=
  t ← rd16 pdu p; l ← rd16 pdu (p + 2); Some (mk_attr_hdr t l).

Definition decode_sockaddr_attr (p : Z) : option (Z + pj_stun_attr) :=
  hdr ← GETATTRHDR p;
  if negb (a_length hdr =? STUN_GENERIC_IPV4_ADDR_LEN) &&
     negb (a_length hdr =? STUN_GENERIC_IPV6_ADDR_LEN)
  then Some (inl PJNATH_ESTUNINATTRLEN)
  else
    val ← rd8 pdu (p + ATTR_HDR_LEN + 1);
    if val =? 1 then
      if negb (a_length hdr =? STUN_GENERIC_IPV4_ADDR_LEN) then Some (inl PJNATH_ESTUNINATTRLEN)
      else
        port ← rd16 pdu (p + ATTR_HDR_LEN + 2);
        addr ← rdn pdu (p + ATTR_HDR_LEN + 4) 4;
        Some (inr (mk_attr hdr (A_sockaddr false (sock_in port addr))))
    else if val =? 2 then
      if negb (a_length hdr =? STUN_GENERIC_IPV6_ADDR_LEN) then Some (inl PJNATH_ESTUNINATTRLEN)
      else
        port ← rd16 pdu (p + ATTR_HDR_LEN + 2);
        addr ← rdn pdu (p + ATTR_HDR_LEN + 4) 16;
        Some (inr (mk_attr hdr (A_sockaddr false (sock_in6 port addr))))
    else Some (inl PJNATH_EINVAF).

Definition xor_sockaddr (tsx_id : list Z) (addr : pj_sockaddr) : pj_sockaddr :=
  match addr with
  | sock_in port a => sock_in (Z.lxor port (PJ_STUN_MAGIC / 65536)) (xor_bytes a magic_bytes)
  | sock_in6 port a =>
      sock_in6 (Z.lxor port (PJ_STUN_MAGIC / 65536)) (xor_bytes a (magic_bytes ++ tsx_id))
  | sock_other => sock_other
  end.

Definition decode_xored_sockaddr_attr (p : Z) (msghdr : pj_stun_msg_hdr) :
    option (Z + pj_stun_attr) :=
  r ← decode_sockaddr_attr p;
  match r with
  | inl status => Some (inl status)
  | inr attr =>
      match a_body attr with
      | A_sockaddr _ sock_other => Some (inl PJNATH_EINVAF)
      | A_sockaddr _ addr =>
          Some (inr (mk_attr (a_hdr attr) (A_sockaddr true (xor_sockaddr (m_tsx_id msghdr) addr))))
      | _ => None
      end
  end.

Definition decode_string_attr (p : Z) : option (Z + pj_stun_attr) :=
  hdr ← GETATTRHDR p;
  value ← rdn pdu (p + ATTR_HDR_LEN) (Z.to_nat (a_length hdr));
  Some (inr (mk_attr hdr (A_string value))).

Definition decode_empty_attr (p : Z) : option (Z + pj_stun_attr) :=
  hdr ← GETATTRHDR p;
  if negb (a_length hdr =? 0) then Some (inl PJNATH_ESTUNINATTRLEN)
  else Some (inr (mk_attr hdr A_empty)).

Definition decode_uint_attr (p : Z) : option (Z + pj_stun_attr) :=
  hdr ← GETATTRHDR p;
  value ← rd32 pdu (p + 4);
  if negb (a_length hdr =? 4) then Some (inl PJNATH_ESTUNINATTRLEN)
  else Some (inr (mk_attr hdr (A_uint value))).

Definition decode_uint64_attr (p : Z) : option (Z + pj_stun_attr) :=
  hdr ← GETATTRHDR p;
  if negb (a_length hdr =? 8) then Some (inl PJNATH_ESTUNINATTRLEN)
  else
    hi ← rd32 pdu (p + 4);
    lo ← rd32 pdu (p + 8);
    Some (inr (mk_attr hdr (A_uint64 hi lo))).

Definition decode_msgint_attr (p : Z) : option (Z + pj_stun_attr) :=
  hdr ← GETATTRHDR p;
  if negb (a_length hdr =? 20) then Some (inl PJNATH_ESTUNINATTRLEN)
  else
    hmac ← rdn pdu (p + 4) 20;
    Some (inr (mk_attr hdr (A_msgint hmac))).

Definition decode_errcode_attr (p : Z) : option (Z + pj_stun_attr) :=
  hdr ← GETATTRHDR p;
  class ← rd8 pdu (p + 6);
  number ← rd8 pdu (p + 7);
  let len := a_length hdr - 4 in
  let len := if len <? 0 then 0 else len in
  reason ← rdn pdu (p + ATTR_HDR_LEN + 4) (Z.to_nat len);
  Some (inr (mk_attr hdr (A_errcode (class * 100 + number) reason))).

Fixpoint read_types (p : Z) (n : nat) : option (list Z) :=
  match n with
  | O => Some []
  | S n => t ← rd16 pdu p; l ← read_types (p + 2) n; Some (t :: l)
  end.

Definition decode_unknown_attr (p : Z) : option (Z + pj_stun_attr) :=
  hdr ← GETATTRHDR p;
  let count := Z.shiftr (a_length hdr) 1 in
  if PJ_STUN_MAX_ATTR <? count then Some (inl PJ_ETOOMANY)
  else
    attrs ← read_types (p + ATTR_HDR_LEN) (Z.to_nat count);
    Some (inr (mk_attr hdr (A_unknown attrs))).

Definition decode_binary_attr (p : Z) : option (Z + pj_stun_attr) :=
  hdr ← GETATTRHDR p;
  data ← rdn pdu (p + ATTR_HDR_LEN) (Z.to_nat (a_length hdr));
  Some (inr (mk_attr hdr (A_binary 0 data))).

(** [(adesc->decode_attr)(pool, pdu, &msg->hdr, &attr)] *)
Definition decode_attr (f : attr_fns) (p : Z) (msghdr : pj_stun_msg_hdr) :
    option (Z + pj_stun_attr) :=
  match f with
  | F_sockaddr => decode_sockaddr_attr p
  | F_xored_sockaddr => decode_xored_sockaddr_attr p msghdr
  | F_uint => decode_uint_attr p
  | F_uint64 => decode_uint64_attr p
  | F_string => decode_string_attr p
  | F_msgint => decode_msgint_attr p
  | F_errcode => decode_errcode_attr p
  | F_unknown => decode_unknown_attr p
  | F_binary => decode_binary_attr p
  | F_empty => decode_empty_attr p
  end.

(** A failure: the status, and the response unless [p_response] is NULL. *)
Definition dec_error : Type := Z * option pj_stun_msg.

Definition fail_with (want : bool) (msg : pj_stun_msg) (code : Z) (text : option (list Z))
    (status : Z) : option dec_error :=
  if want then
    r ← pj_stun_msg_create_response msg code text;
    Some (status, match r with inl _ => None | inr response => Some response end)
  else Some (status, None).

(** The unrecognized attribute [attr_type] of a mandatory range. *)
Definition fail_unknown (want : bool) (msg : pj_stun_msg) (attr_type : Z) : option dec_error :=
  let status := PJ_STATUS_FROM_STUN_CODE PJ_STUN_SC_UNKNOWN_ATTRIBUTE in
  if want then
    r ← pj_stun_msg_create_response msg PJ_STUN_SC_UNKNOWN_ATTRIBUTE None;
    match r with
    | inl _ => Some (status, None)
    | inr response =>
        let '(_, response) :=
          add_created response (pj_stun_unknown_attr_create [u16 attr_type]) in
        Some (status, Some response)
    end
  else Some (status, None).

Definition snprintf80 (s : list Z) : list Z := take 79 s.

(** The state of the loop: the attribute at [p], [len] bytes remaining. *)
Record dec_state := mk_dec_state {
  ds_msg : pj_stun_msg;
  ds_msg_int : bool;
  ds_fingerprint : bool
}.

(** The position rules of MESSAGE-INTEGRITY and FINGERPRINT. *)
Definition dec_order (st : dec_state) (t : Z) : Z + dec_state :=
  if (t =? PJ_STUN_ATTR_MESSAGE_INTEGRITY) && negb (ds_fingerprint st) then
    if ds_msg_int st then inl PJNATH_ESTUNDUPATTR
    else inr (mk_dec_state (ds_msg st) true (ds_fingerprint st))
  else if t =? PJ_STUN_ATTR_FINGERPRINT then
    if ds_fingerprint st then inl PJNATH_ESTUNDUPATTR
    else inr (mk_dec_state (ds_msg st) (ds_msg_int st) true)
  else if ds_fingerprint st then inl PJNATH_ESTUNFINGERPOS
  else inr st.

Definition dec_add (want : bool) (st : dec_state) (a : pj_stun_attr) :
    option (dec_error + dec_state) :=
  if PJ_STUN_MAX_ATTR <=? attr_count (ds_msg st) then
    e ← fail_with want (ds_msg st) PJ_STUN_SC_SERVER_ERROR None PJNATH_ESTUNTOOMANYATTR;
    Some (inl e)
  else
    Some (inr (mk_dec_state (ds_msg st <| msg_attr := msg_attr (ds_msg st) ++ [a] |>)
                 (ds_msg_int st) (ds_fingerprint st))).

(** An attribute without descriptor. *)
Definition dec_unrecognized (want : bool) (st : dec_state) (p t : Z) :
    option (dec_error + dec_state) :=
  if t <=? 0x7FFF then e ← fail_unknown want (ds_msg st) t; Some (inl e)
  else if PJ_STUN_MAX_ATTR <=? attr_count (ds_msg st) then
    e ← fail_with want (ds_msg st) PJ_STUN_SC_SERVER_ERROR None PJNATH_ESTUNTOOMANYATTR;
    Some (inl e)
  else
    len ← rd16 pdu (p + 2);
    data ← rdn pdu (p + 4) (Z.to_nat len);
    match pj_stun_binary_attr_create t data with
    | inl status =>
        e ← fail_with want (ds_msg st) PJ_STUN_SC_SERVER_ERROR None status; Some (inl e)
    | inr a =>
        Some (inr (mk_dec_state (ds_msg st <| msg_attr := msg_attr (ds_msg st) ++ [a] |>)
                     (ds_msg_int st) (ds_fingerprint st)))
    end.

Definition dec_recognized (want : bool) (st : dec_state) (p t : Z) (d : attr_desc) :
    option (dec_error + dec_state) :=
  r ← decode_attr (d_decode d) p (msg_hdr (ds_msg st));
  match r with
  | inl status =>
      let text := snprintf80 (strerror status ++ lit " in " ++ pj_stun_get_attr_name t) in
      e ← fail_with want (ds_msg st) PJ_STUN_SC_BAD_REQUEST (Some text) status;
      Some (inl e)
  | inr a =>
      match dec_order st t with
      | inl status => e ← fail_with want (ds_msg st) PJ_STUN_SC_BAD_REQUEST None status; Some (inl e)
      | inr st => dec_add want st a
      end
  end.

(** [while (pdu_len >= 4)]: the final state, [pdu] and [pdu_len]. *)
Fixpoint dec_loop (fuel : nat) (want : bool) (st : dec_state) (p len : Z) :
    option (dec_error + dec_state * Z * Z) :=
  match fuel with
  | O => None
  | S fuel =>
      if 4 <=? len then
        t ← rd16 pdu p;
        val_len ← rd16 pdu (p + 2);
        let val_len := align4 val_len in
        if len <? val_len then
          let text := lit "Attribute " ++ pj_stun_get_attr_name t ++ lit " has invalid length" in
          e ← fail_with want (ds_msg st) PJ_STUN_SC_BAD_REQUEST (Some text) PJNATH_ESTUNINATTRLEN;
          Some (inl e)
        else
          r ← (match find_attr_desc t with
               | None => dec_unrecognized want st p t
               | Some d => dec_recognized want st p t d
               end);
          match r with
          | inl e => Some (inl e)
          | inr st =>
              if len <=? val_len + 4 then dec_loop fuel want st (p + len) 0
              else dec_loop fuel want st (p + (val_len + 4)) (len - (val_len + 4))
          end
      else Some (inr (st, p, len))
  end.

(** [crc_addr] is the address of the packet. *)
Definition pj_stun_msg_check (crc_addr pdu_len options : Z) : option Z :=
  if pdu_len <? sizeof_stun_hdr then Some PJNATH_EINSTUNMSGLEN
  else
    b0 ← rd8 pdu 0;
    if negb (b0 =? 0x00) && negb (b0 =? 0x01) then Some PJNATH_EINSTUNMSGTYPE
    else
      msg_len ← rd16 pdu 2;
      if (pdu_len <? msg_len + 20) ||
         (negb (Z.land options PJ_STUN_IS_DATAGRAM =? 0) && negb (msg_len + 20 =? pdu_len))
      then Some PJNATH_EINSTUNMSGLEN
      else if negb (Z.land msg_len 0x03 =? 0) then Some PJNATH_EINSTUNMSGLEN
      else
        magic ← rd32 pdu 4;
        if negb (magic =? PJ_STUN_MAGIC) then Some PJ_SUCCESS
        else if negb (Z.land options PJ_STUN_NO_FINGERPRINT_CHECK =? 0) then Some PJ_SUCCESS
        else
          t ← rd16 pdu (msg_len + 20 - 8);
          if negb (t =? PJ_STUN_ATTR_FINGERPRINT) then Some PJ_SUCCESS
          else
            attr_len ← rd16 pdu (msg_len + 20 - 8 + 2);
            fingerprint ← rd32 pdu (msg_len + 20 - 8 + 4);
            if negb (attr_len =? 4) then Some PJNATH_ESTUNINATTRLEN
            else
              data ← rdn pdu 0 (Z.to_nat (msg_len + 20 - 8));
              crc ← Table.pj_crc32_calc crc_addr data;
              Some (if negb (Z.lxor crc STUN_XOR_FINGERPRINT =? fingerprint)
                    then PJNATH_ESTUNFINGERPRINT else PJ_SUCCESS).

(** The outcome: the status, [*p_msg], [*p_parsed_len] and [*p_response]. *)
Record dec_result := mk_dec_result {
  dr_status : Z;
  dr_msg : option pj_stun_msg;
  dr_parsed_len : Z;
  dr_response : option pj_stun_msg
}.

Definition read_stun_hdr : option pj_stun_msg_hdr :=
  t ← rd16 pdu 0;
  l ← rd16 pdu 2;
  magic ← rd32 pdu 4;
  tsx_id ← rdn pdu 8 12;
  Some (mk_stun_hdr t l magic tsx_id).

(** [want_response]: [p_response] is not NULL. *)
Definition pj_stun_msg_decode (crc_addr pdu_len options : Z) (want_response : bool) :
    option dec_result :=
  if pdu_len =? 0 then Some (mk_dec_result PJ_EINVAL None 0 None)
  else
    status ← (if negb (Z.land options PJ_STUN_CHECK_PACKET =? 0)
              then pj_stun_msg_check crc_addr pdu_len options else Some PJ_SUCCESS);
    if negb (status =? PJ_SUCCESS) then Some (mk_dec_result status None 0 None)
    else
      hdr ← read_stun_hdr;
      let want := want_response && PJ_STUN_IS_REQUEST (m_type hdr) in
      let len := m_length hdr in
      r ← dec_loop (S (Z.to_nat len)) want
            (mk_dec_state (mk_stun_msg hdr []) false false) sizeof_stun_hdr len;
      match r with
      | inl (status, response) => Some (mk_dec_result status None 0 response)
      | inr (st, p, len) =>
          if 0 <? len then Some (mk_dec_result PJNATH_EINSTUNMSGLEN None 0 None)
          else Some (mk_dec_result PJ_SUCCESS (Some (ds_msg st)) p None)
      end.
End decode.

(** ** Encoding *)

(** [PUTVAL16H] and [PUTVAL32H] *)
Definition put16 (mem : list Z) (pos v : Z) : option (list Z) := memcpy_at mem pos (be16 (u16 v)).
Definition put32 (mem : list Z) (pos v : Z) : option (list Z) := memcpy_at mem pos (be32 (u32 v)).

Section encode.
Context (padding_char : Z).

(** The functions that encode an attribute at [pos], in a buffer said to have
    [len] bytes, return the status, the memory and [*printed]. *)

Definition encode_sockaddr_attr (a : pj_stun_attr) (mem : list Z) (pos len : Z)
    (msghdr : pj_stun_msg_hdr) : option (Z * list Z * Z) :=
  match a_body a with
  | A_sockaddr xor_ed sockaddr =>
      mem ← put16 mem pos (attr_type a);
      let x := if xor_ed then xor_sockaddr (m_tsx_id msghdr) sockaddr else sockaddr in
      match x with
      | sock_in port addr =>
          if len <? ATTR_HDR_LEN + STUN_GENERIC_IPV4_ADDR_LEN then Some (PJ_ETOOSMALL, mem, 0)
          else
            mem ← put16 mem (pos + 2) STUN_GENERIC_IPV4_ADDR_LEN;
            mem ← memcpy_at mem (pos + 4) [0];
            mem ← memcpy_at mem (pos + 5) [1];
            mem ← put16 mem (pos + 6) port;
            mem ← memcpy_at mem (pos + 8) addr;
            Some (PJ_SUCCESS, mem, 12)
      | sock_in6 port addr =>
          if len <? ATTR_HDR_LEN + STUN_GENERIC_IPV6_ADDR_LEN then Some (PJ_ETOOSMALL, mem, 0)
          else
            mem ← put16 mem (pos + 2) STUN_GENERIC_IPV6_ADDR_LEN;
            mem ← memcpy_at mem (pos + 4) [0];
            mem ← memcpy_at mem (pos + 5) [2];
            mem ← put16 mem (pos + 6) port;
            mem ← memcpy_at mem (pos + 8) addr;
            Some (PJ_SUCCESS, mem, 24)
      | sock_other => Some (PJNATH_EINVAF, mem, 0)
      end
  | _ => None
  end.

Definition encode_string_attr (a : pj_stun_attr) (mem : list Z) (pos len : Z)
    (msghdr : pj_stun_msg_hdr) : option (Z * list Z * Z) :=
  match a_body a with
  | A_string value =>
      let printed := align4 (u32 (slen value + ATTR_HDR_LEN)) in
      if len <? printed then Some (PJ_ETOOSMALL, mem, 0)
      else
        mem ← put16 mem pos (attr_type a);
        mem ← put16 mem (pos + 2)
                (if negb (m_magic msghdr =? PJ_STUN_MAGIC) ||
                    (attr_type a =? PJ_STUN_ATTR_SOFTWARE)
                 then align4 (slen value) else slen value);
        mem ← memcpy_at mem (pos + ATTR_HDR_LEN) value;
        let odd := Z.land (slen value) 0x03 in
        mem ← (if negb (odd =? 0)
               then memcpy_at mem (pos + ATTR_HDR_LEN + slen value)
                      (replicate (Z.to_nat (4 - odd)) (u8 padding_char))
               else Some mem);
        Some (PJ_SUCCESS, mem, printed)
  | _ => None
  end.

Definition encode_empty_attr (a : pj_stun_attr) (mem : list Z) (pos len : Z) :
    option (Z * list Z * Z) :=
  if len <? ATTR_HDR_LEN then Some (PJ_ETOOSMALL, mem, 0)
  else
    mem ← put16 mem pos (attr_type a);
    mem ← put16 mem (pos + 2) 0;
    Some (PJ_SUCCESS, mem, ATTR_HDR_LEN).

Definition encode_uint_attr (a : pj_stun_attr) (mem : list Z) (pos len : Z) :
    option (Z * list Z * Z) :=
  match a_body a with
  | A_uint value =>
      if len <? 8 then Some (PJ_ETOOSMALL, mem, 0)
      else
        mem ← put16 mem pos (attr_type a);
        mem ← put16 mem (pos + 2) 4;
        mem ← put32 mem (pos + 4) value;
        Some (PJ_SUCCESS, mem, 8)
  | _ => None
  end.

Definition encode_uint64_attr (a : pj_stun_attr) (mem : list Z) (pos len : Z) :
    option (Z * list Z * Z) :=
  match a_body a with
  | A_uint64 hi lo =>
      if len <? 12 then Some (PJ_ETOOSMALL, mem, 0)
      else
        mem ← put16 mem pos (attr_type a);
        mem ← put16 mem (pos + 2) 8;
        mem ← put32 mem (pos + 4) hi;
        mem ← put32 mem (pos + 8) lo;
        Some (PJ_SUCCESS, mem, 12)
  | _ => None
  end.

Definition encode_msgint_attr (a : pj_stun_attr) (mem : list Z) (pos len : Z) :
    option (Z * list Z * Z) :=
  match a_body a with
  | A_msgint hmac =>
      if len <? 24 then Some (PJ_ETOOSMALL, mem, 0)
      else
        mem ← put16 mem pos (attr_type a);
        mem ← put16 mem (pos + 2) (a_length (a_hdr a));
        mem ← memcpy_at mem (pos + 4) hmac;
        Some (PJ_SUCCESS, mem, 24)
  | _ => None
  end.

Definition encode_errcode_attr (a : pj_stun_attr) (mem : list Z) (pos len : Z) :
    option (Z * list Z * Z) :=
  match a_body a with
  | A_errcode err_code reason =>
      if len <? u32 (ATTR_HDR_LEN + 4 + slen reason) then Some (PJ_ETOOSMALL, mem, 0)
      else
        mem ← put16 mem pos (attr_type a);
        mem ← put16 mem (pos + 2) (4 + slen reason);
        mem ← put16 mem (pos + 4) 0;
        mem ← memcpy_at mem (pos + 6) [u8 (Z.quot err_code 100)];
        mem ← memcpy_at mem (pos + 7) [u8 (Z.rem err_code 100)];
        mem ← memcpy_at mem (pos + ATTR_HDR_LEN + 4) reason;
        Some (PJ_SUCCESS, mem, align4 (u32 (ATTR_HDR_LEN + 4 + slen reason)))
  | _ => None
  end.

Fixpoint put_types (mem : list Z) (pos : Z) (attrs : list Z) : option (list Z) :=
  match attrs with
  | [] => Some mem
  | t :: rest => mem ← put16 mem pos t; put_types mem (pos + 2) rest
  end.

Definition encode_unknown_attr (a : pj_stun_attr) (mem : list Z) (pos len : Z) :
    option (Z * list Z * Z) :=
  match a_body a with
  | A_unknown attrs =>
      let count := Z.of_nat (length attrs) in
      if len <? ATTR_HDR_LEN + Z.shiftl count 1 then Some (PJ_ETOOSMALL, mem, 0)
      else
        mem ← put16 mem pos (attr_type a);
        mem ← put16 mem (pos + 2) (Z.shiftl count 1);
        mem ← put_types mem (pos + ATTR_HDR_LEN) attrs;
        Some (PJ_SUCCESS, mem, align4 (ATTR_HDR_LEN + Z.shiftl count 1))
  | _ => None
  end.

Definition encode_binary_attr (a : pj_stun_attr) (mem : list Z) (pos len : Z) :
    option (Z * list Z * Z) :=
  match a_body a with
  | A_binary _ data =>
      let printed := align4 (u32 (slen data + ATTR_HDR_LEN)) in
      if len <? printed then Some (PJ_ETOOSMALL, mem, printed)
      else
        mem ← put16 mem pos (attr_type a);
        mem ← put16 mem (pos + 2) (slen data);
        mem ← memcpy_at mem (pos + ATTR_HDR_LEN) data;
        Some (PJ_SUCCESS, mem, printed)
  | _ => None
  end.

Definition encode_attr (f : attr_fns) (a : pj_stun_attr) (mem : list Z) (pos len : Z)
    (msghdr : pj_stun_msg_hdr) : option (Z * list Z * Z) :=
  match f with
  | F_sockaddr | F_xored_sockaddr => encode_sockaddr_attr a mem pos len msghdr
  | F_uint => encode_uint_attr a mem pos len
  | F_uint64 => encode_uint64_attr a mem pos len
  | F_string => encode_string_attr a mem pos len msghdr
  | F_msgint => encode_msgint_attr a mem pos len
  | F_errcode => encode_errcode_attr a mem pos len
  | F_unknown => encode_unknown_attr a mem pos len
  | F_binary => encode_binary_attr a mem pos len
  | F_empty => encode_empty_attr a mem pos len
  end.

(** An attribute with a descriptor, or a generic one. *)
Definition encode_one (a : pj_stun_attr) (mem : list Z) (pos len : Z)
    (msghdr : pj_stun_msg_hdr) : option (Z * list Z * Z) :=
  match find_attr_desc (attr_type a) with
  | Some d => encode_attr (d_encode d) a mem pos len msghdr
  | None =>
      match a_body a with
      | A_binary magic _ =>
          if negb (magic =? PJ_STUN_MAGIC) then Some (PJ_EBUG, mem, 0)
          else encode_binary_attr a mem pos len
      | _ => None
      end
  end.

(** Encode each attribute: the status, the memory, [buf], [buf_size], and the
    attributes from the one that stopped the loop. *)
Fixpoint encode_attrs (attrs : list pj_stun_attr) (mem : list Z) (pos size : Z)
    (msghdr : pj_stun_msg_hdr) : option (Z * list Z * Z * Z * list pj_stun_attr) :=
  match attrs with
  | [] => Some (PJ_SUCCESS, mem, pos, size, [])
  | a :: rest =>
      if (attr_type a =? PJ_STUN_ATTR_MESSAGE_INTEGRITY) ||
         (attr_type a =? PJ_STUN_ATTR_FINGERPRINT)
      then Some (PJ_SUCCESS, mem, pos, size, attrs)
      else
        r ← encode_one a mem pos (u32 size) msghdr;
        let '(status, mem, printed) := r : Z * list Z * Z in
        if negb (status =? PJ_SUCCESS) then Some (status, mem, pos, size, attrs)
        else encode_attrs rest mem (pos + printed) (u64 (size - printed)) msghdr
  end.

(** The indices of MESSAGE-INTEGRITY and FINGERPRINT among the attributes
    from the [i]-th, given those found before. *)
Fixpoint scan_rest (attrs : list pj_stun_attr) (i : nat) (mi fp : option nat) :
    Z * option nat * option nat :=
  match attrs with
  | [] => (PJ_SUCCESS, mi, fp)
  | a :: rest =>
      if bool_decide (fp <> None) then (PJNATH_ESTUNFINGERPOS, mi, fp)
      else if attr_type a =? PJ_STUN_ATTR_MESSAGE_INTEGRITY then
        if bool_decide (mi <> None) then (PJNATH_ESTUNMSGINTPOS, mi, fp)
        else scan_rest rest (S i) (Some i) fp
      else if attr_type a =? PJ_STUN_ATTR_FINGERPRINT then scan_rest rest (S i) mi (Some i)
      else scan_rest rest (S i) mi fp
  end.

Record enc_result := mk_enc_result {
  er_status : Z;
  er_mem : list Z;
  er_msg : pj_stun_msg;
  er_len : Z
}.

(** [crc_addr] is the address of the buffer; [tctx] and [hctx] are the
    contexts on the stack. *)
Context (crc_addr : Z) (tctx : pj_sha1_context) (hctx : pj_hmac_sha1_context).

Definition set_body (msg : pj_stun_msg) (i : nat) (b : attr_body) : pj_stun_msg :=
  msg <| msg_attr := alter (fun a => mk_attr (a_hdr a) b) i (msg_attr msg) |>.

(** Calculate message integrity: the status, the message with the digest, the
    memory, [buf] and [buf_size]. *)
Definition encode_msgint (msg : pj_stun_msg) (i : nat) (key : list Z) (mem : list Z)
    (pos size : Z) : option (Z * pj_stun_msg * list Z * Z * Z) :=
  text ← rdn mem 0 (Z.to_nat pos);
  digest ← pj_hmac_sha1 tctx hctx text key;
  a ← msg_attr msg !! i;
  match a_body a with
  | A_msgint _ =>
      let msg := set_body msg i (A_msgint digest) in
      r ← encode_msgint_attr (mk_attr (a_hdr a) (A_msgint digest)) mem pos (u32 size);
      let '(status, mem, printed) := r : Z * list Z * Z in
      if negb (status =? PJ_SUCCESS) then Some (status, msg, mem, pos, size)
      else Some (PJ_SUCCESS, msg, mem, pos + printed, u64 (size - printed))
  | _ => None
  end.

(** Calculate FINGERPRINT. *)
Definition encode_fingerprint (msg : pj_stun_msg) (i : nat) (mem : list Z) (pos size : Z) :
    option (Z * pj_stun_msg * list Z * Z * Z) :=
  len ← rd16 mem 2;
  mem ← put16 mem 2 (len + 8);
  data ← rdn mem 0 (Z.to_nat pos);
  crc ← Table.pj_crc32_calc crc_addr data;
  let value := Z.lxor crc STUN_XOR_FINGERPRINT in
  a ← msg_attr msg !! i;
  match a_body a with
  | A_uint _ =>
      let msg := set_body msg i (A_uint value) in
      r ← encode_uint_attr (mk_attr (a_hdr a) (A_uint value)) mem pos (u32 size);
      let '(status, mem, printed) := r : Z * list Z * Z in
      if negb (status =? PJ_SUCCESS) then Some (status, msg, mem, pos, size)
      else Some (PJ_SUCCESS, msg, mem, pos + printed, u64 (size - printed))
  | _ => None
  end.

(** The test of the place of MESSAGE-INTEGRITY, after the loops: [i] is then
    at least the number of attributes. *)
Definition msgint_place (msg : pj_stun_msg) (i : Z) (fp : option nat) : option (Z + option nat) :=
  if (1 <? attr_count msg) && (i <? attr_count msg - 2) then Some (inl PJNATH_ESTUNMSGINTPOS)
  else if i =? u32 (attr_count msg - 2) then
    a ← zlookup (msg_attr msg) (i + 1);
    Some (if negb (attr_type a =? PJ_STUN_ATTR_FINGERPRINT) then inl PJNATH_ESTUNMSGINTPOS
          else inr (Some (Z.to_nat (i + 1))))
  else Some (inr fp).

(** From the end of the second loop. *)
Definition encode_tail (msg : pj_stun_msg) (i : Z) (mi fp : option nat) (key : option (list Z))
    (mem : list Z) (pos size : Z) : option enc_result :=
  let body_len := u16 (match mi with Some _ => pos - 20 + 24 | None => pos - 20 end) in
  mem ← put16 mem 2 body_len;
  r ← (match mi with
       | None => Some (PJ_SUCCESS, msg, mem, pos, size, fp)
       | Some k =>
           match key with
           | None => Some (PJ_EINVALIDOP, msg, mem, pos, size, fp)
           | Some key =>
               pl ← msgint_place msg i fp;
               match pl with
               | inl status => Some (status, msg, mem, pos, size, fp)
               | inr fp =>
                   r ← encode_msgint msg k key mem pos size;
                   Some (r, fp)
               end
           end
       end);
  let '(status, msg, mem, pos, size, fp) := r : Z * pj_stun_msg * list Z * Z * Z * option nat in
  if negb (status =? PJ_SUCCESS) then Some (mk_enc_result status mem msg 0)
  else
    r ← (match fp with
         | None => Some (PJ_SUCCESS, msg, mem, pos, size)
         | Some k => encode_fingerprint msg k mem pos size
         end);
    let '(status, msg, mem, pos, size) := r : Z * pj_stun_msg * list Z * Z * Z in
    if negb (status =? PJ_SUCCESS) then Some (mk_enc_result status mem msg 0)
    else
      Some (mk_enc_result PJ_SUCCESS mem
              (msg <| msg_hdr := msg_hdr msg <| m_length := u16 (pos - 20) |> |>) pos).

Definition pj_stun_msg_encode (msg : pj_stun_msg) (mem : list Z) (buf_size options : Z)
    (key : option (list Z)) : option enc_result :=
  if buf_size =? 0 then Some (mk_enc_result PJ_EINVAL mem msg 0)
  else if negb (options =? 0) then Some (mk_enc_result PJ_EINVAL mem msg 0)
  else if buf_size <? sizeof_stun_hdr then Some (mk_enc_result PJ_ETOOSMALL mem msg 0)
  else
    mem ← put16 mem 0 (m_type (msg_hdr msg));
    mem ← put16 mem 2 0;
    mem ← put32 mem 4 (m_magic (msg_hdr msg));
    mem ← memcpy_at mem 8 (m_tsx_id (msg_hdr msg));
    r ← encode_attrs (msg_attr msg) mem sizeof_stun_hdr (buf_size - sizeof_stun_hdr) (msg_hdr msg);
    let '(status, mem, pos, size, rest) := r : Z * list Z * Z * Z * list pj_stun_attr in
    if negb (status =? PJ_SUCCESS) then Some (mk_enc_result status mem msg 0)
    else
      (* the index of the attribute that stopped the first loop *)
      let i := (length (msg_attr msg) - length rest)%nat in
      let mi := match rest with
                | a :: _ => if attr_type a =? PJ_STUN_ATTR_MESSAGE_INTEGRITY then Some i else None
                | [] => None
                end in
      let fp := match rest with
                | a :: _ => if attr_type a =? PJ_STUN_ATTR_MESSAGE_INTEGRITY then None else Some i
                | [] => None
                end in
      let '(status, mi, fp) := scan_rest (tail rest) (S i) mi fp in
      if negb (status =? PJ_SUCCESS) then Some (mk_enc_result status mem msg 0)
      else
        (* [i] after the second loop *)
        let i := Z.max (Z.of_nat (S i)) (attr_count msg) in
        encode_tail msg i mi fp key mem pos size.
End encode.
