(* ===== verification/StunDecode.v ===== *)
(** * STUN messages: what decoding returns

    Decoding any packet ends, reads at most four bytes past the message, and
    returns an error or a message whose attributes are of the type of their
    descriptor ([attr_typed]) and in the order the protocol asks for. *)

From Stdlib Require Import String.
From S2P Require Import Prelude Bytes PjString Digest Hmac Crc32 StunMsg.
Local Open Scope Z_scope.

(** ** Typed attributes *)

Definition sockaddr_typed (len : Z) (addr : pj_sockaddr) : Prop :=
  match addr with
  | sock_in port a => len = 8 /\ is_u16 port /\ length a = 4%nat /\ Forall is_byte a
  | sock_in6 port a => len = 20 /\ is_u16 port /\ length a = 16%nat /\ Forall is_byte a
  | sock_other => False
  end.

(** The attributes that the function [f] of a descriptor decodes. *)
Definition attr_typed (f : attr_fns) (a : pj_stun_attr) : Prop :=
  let len := a_length (a_hdr a) in
  match f, a_body a with
  | F_sockaddr, A_sockaddr x addr => x = false /\ sockaddr_typed len addr
  | F_xored_sockaddr, A_sockaddr x addr => x = true /\ sockaddr_typed len addr
  | F_uint, A_uint v => len = 4 /\ is_u32 v
  | F_uint64, A_uint64 hi lo => len = 8 /\ is_u32 hi /\ is_u32 lo
  | F_string, A_string s => len = slen s /\ Forall is_byte s
  | F_msgint, A_msgint h => len = 20 /\ length h = 20%nat /\ Forall is_byte h
  | F_errcode, A_errcode code s =>
      slen s = Z.max 0 (len - 4) /\ 0 <= code <= 25755 /\ Forall is_byte s
  | F_unknown, A_unknown l =>
      Z.of_nat (length l) = len / 2 /\ Z.of_nat (length l) <= 16 /\ Forall is_u16 l
  | F_binary, A_binary _ s => len = slen s /\ Forall is_byte s
  | F_empty, A_empty => len = 0
  | _, _ => False
  end.

(** An attribute of a decoded message. *)
Definition attr_ok (a : pj_stun_attr) : Prop :=
  is_u16 (attr_type a) /\ is_u16 (a_length (a_hdr a)) /\
  match find_attr_desc (attr_type a) with
  | Some d => attr_typed (d_decode d) a
  | None => 0x8000 <= attr_type a /\
      exists s, a_body a = A_binary PJ_STUN_MAGIC s /\ a_length (a_hdr a) = slen s /\
        Forall is_byte s
  end.

(** At most one MESSAGE-INTEGRITY and one FINGERPRINT; after the latter only
    attributes that are not known. *)
Fixpoint order_ok (mi fp : bool) (attrs : list pj_stun_attr) : Prop :=
  match attrs with
  | [] => True
  | a :: rest =>
      if attr_type a =? PJ_STUN_ATTR_MESSAGE_INTEGRITY then
        mi = false /\ fp = false /\ order_ok true fp rest
      else if attr_type a =? PJ_STUN_ATTR_FINGERPRINT then fp = false /\ order_ok mi true rest
      else (fp = true -> find_attr_desc (attr_type a) = None) /\ order_ok mi fp rest
  end.

Definition hdr_ok (h : pj_stun_msg_hdr) : Prop :=
  is_u16 (m_type h) /\ is_u16 (m_length h) /\ is_u32 (m_magic h) /\
  length (m_tsx_id h) = 12%nat /\ Forall is_byte (m_tsx_id h).

Definition decoded_ok (m : pj_stun_msg) : Prop :=
  hdr_ok (msg_hdr m) /\ Forall attr_ok (msg_attr m) /\ attr_count m <= PJ_STUN_MAX_ATTR /\
  order_ok false false (msg_attr m).

(** ** Arithmetic and bytes *)

Lemma align4_spec x : 0 <= x < 4294967292 -> align4 x = 4 * ((x + 3) / 4).
Proof.
  intros H. unfold align4. rewrite u32_id by (unfold is_u32; lia).
  change 0xFFFFFFFC with (Z.shiftl (Z.ones 30) 2).
  apply Z.bits_inj'. intros n Hn.
  rewrite Z.land_spec, (Z.mul_comm 4). change 4 with (2 ^ 2) at 2.
  rewrite <- Z.shiftl_mul_pow2, !Z.shiftl_spec by lia. change 4 with (2 ^ 2).
  rewrite <- Z.shiftr_div_pow2 by lia. destruct (Z.ltb_spec n 2).
  - rewrite !(Z.testbit_neg_r _ (n - 2)) by lia. apply andb_false_r.
  - rewrite Z.shiftr_spec by lia. replace (n - 2 + 2) with n by lia.
    destruct (Z.ltb_spec (n - 2) 30).
    + rewrite Z.ones_spec_low by lia. apply andb_true_r.
    + rewrite (is_u32_testbit (x + 3)) by (unfold is_u32; lia). done.
Qed.

Lemma align4_bounds x : is_u16 x -> x <= align4 x <= x + 3 /\ align4 x mod 4 = 0.
Proof.
  unfold is_u16. intros H. rewrite align4_spec by lia. split; [Z.to_euclidean_division_equations; lia|].
  rewrite Z.mul_comm. apply Z_mod_mult.
Qed.

Lemma rd32_word buf i v : Forall is_byte buf -> rd32 buf i = Some v -> is_u32 v.
Proof.
  unfold rd32. intros Hb H.
  destruct (rd16 buf i) as [a|] eqn:Ea; [|done]. cbn [mbind option_bind] in H.
  destruct (rd16 buf (i + 2)) as [b|] eqn:Eb; [|done]. injection H as <-.
  apply (rd16_range buf) in Ea, Eb; [|done..]. unfold is_u16, is_u32 in *. lia.
Qed.

Lemma rdn_bytes buf n : forall i l, Forall is_byte buf -> rdn buf i n = Some l -> Forall is_byte l.
Proof.
  induction n as [|n IH]; intros i l Hb H; cbn [rdn] in H; [by injection H as <-|].
  destruct (rd8 buf i) as [b|] eqn:Ei; [|done]. cbn [mbind option_bind] in H.
  destruct (rdn buf (i + 1) n) as [l'|] eqn:El; [|done]. injection H as <-.
  constructor; [by eapply rd8_byte|by eapply IH].
Qed.

Section decode.
Context (strerror : Z -> list Z) (pdu : list Z) (Hb : Forall is_byte pdu).

(** Reads inside the packet succeed with values in range. *)
Lemma get8 i : 0 <= i < slen pdu -> exists v, rd8 pdu i = Some v /\ is_byte v.
Proof.
  intros H. destruct (rd8_in pdu i) as [v E]; [done|]. exists v. eauto using rd8_byte.
Qed.

Lemma get16 i : 0 <= i -> i + 2 <= slen pdu -> exists v, rd16 pdu i = Some v /\ is_u16 v.
Proof.
  intros H1 H2. destruct (rd16_in pdu i) as [v E]; [done..|]. exists v. eauto using rd16_range.
Qed.

Lemma get32 i : 0 <= i -> i + 4 <= slen pdu -> exists v, rd32 pdu i = Some v /\ is_u32 v.
Proof.
  intros H1 H2. destruct (rd32_in pdu i) as [v E]; [done..|]. exists v. eauto using rd32_word.
Qed.

Lemma getn i n : 0 <= i -> i + Z.of_nat n <= slen pdu ->
  exists l, rdn pdu i n = Some l /\ length l = n /\ Forall is_byte l.
Proof.
  intros H1 H2. destruct (rdn_in pdu n i) as (l & E & Hl); [done..|]. eauto using rdn_bytes.
Qed.

Lemma read_types_in n : forall p, 0 <= p -> p + 2 * Z.of_nat n <= slen pdu ->
  exists l, read_types pdu p n = Some l /\ length l = n /\ Forall is_u16 l.
Proof.
  induction n as [|n IH]; intros p H1 H2; cbn [read_types]; [by exists []|].
  destruct (get16 p) as (t & -> & Ht); [lia..|]. ored.
  destruct (IH (p + 2)) as (l & -> & Hl & Hf); [lia..|]. ored.
  exists (t :: l). split_and!; cbn; auto.
Qed.

(** ** Attributes *)

(** What an attribute of [len] bytes at [p] may be decoded to. *)
Definition dec_post (f : attr_fns) (hdr : pj_stun_attr_hdr) (r : option (Z + pj_stun_attr)) : Prop :=
  exists v, r = Some v /\
    match v with inl e => e <> PJ_SUCCESS | inr a => a_hdr a = hdr /\ attr_typed f a end.

Lemma xor_bytes_length a b : length b = length a -> length (xor_bytes a b) = length a.
Proof. intros H. unfold xor_bytes. rewrite length_zip_with. lia. Qed.

Lemma xor_bytes_bytes a b : Forall is_byte a -> Forall is_byte b -> Forall is_byte (xor_bytes a b).
Proof.
  intros Ha Hb'. apply Forall_zip_with_fst with (P := is_byte); [done|].
  eapply Forall_impl; [done|]. intros y Hy x Hx. by apply Hmac.lxor_byte.
Qed.

Lemma lxor_u16 a b : is_u16 a -> is_u16 b -> is_u16 (Z.lxor a b).
Proof.
  intros Ha Hb'. unfold is_u16 in *.
  assert (H : Z.lxor a b = u16 (Z.lxor a b)); [|rewrite H; apply Z.mod_pos_bound; lia].
  unfold u16. change 65536 with (2 ^ 16). symmetry. apply Z.bits_inj'. intros n Hn.
  destruct (Z.ltb_spec n 16); [by rewrite Z.mod_pow2_bits_low by lia|].
  rewrite Z.mod_pow2_bits_high, Z.lxor_spec by lia.
  rewrite <- (Z.mod_small a 65536), <- (Z.mod_small b 65536) by lia.
  change 65536 with (2 ^ 16). by rewrite !Z.mod_pow2_bits_high by lia.
Qed.

Lemma xor_sockaddr_typed len tsx addr :
  length tsx = 12%nat -> Forall is_byte tsx -> sockaddr_typed len addr ->
  sockaddr_typed len (xor_sockaddr tsx addr).
Proof.
  intros Hl Ht. assert (Hm : Forall is_byte magic_bytes) by apply be32_bytes.
  assert (Hx : is_u16 (PJ_STUN_MAGIC / 65536)) by (split; vm_compute; [discriminate|reflexivity]).
  destruct addr as [port a|port a|]; cbn [sockaddr_typed xor_sockaddr]; [| |done];
    intros (-> & Hp & Ha & Hf); (split; [done|]); (split; [by apply lxor_u16|]).
  - split; [rewrite xor_bytes_length; done|by apply xor_bytes_bytes].
  - split; [rewrite xor_bytes_length; [done|rewrite length_app, Hl, Ha; done]|].
    apply xor_bytes_bytes; [done|]. by apply Forall_app.
Qed.

Section attribute.
Context (p t len : Z) (Hp : 0 <= p) (Ht : rd16 pdu p = Some t) (Hlen : rd16 pdu (p + 2) = Some len)
  (Hu : is_u16 len) (Hin : p + 4 + Z.max 4 len <= slen pdu).

Lemma hdr_read : GETATTRHDR pdu p = Some (mk_attr_hdr t len).
Proof. unfold GETATTRHDR. by rewrite Ht, Hlen. Qed.

Ltac dec_error := eexists; split; [reflexivity|discriminate].
Ltac dec_done := eexists; split; [reflexivity|]; split; [reflexivity|]; cbn.

Lemma decode_sockaddr_typed : dec_post F_sockaddr (mk_attr_hdr t len) (decode_sockaddr_attr pdu p).
Proof.
  unfold decode_sockaddr_attr. rewrite hdr_read. ored. cbn [a_length].
  unfold STUN_GENERIC_IPV4_ADDR_LEN, STUN_GENERIC_IPV6_ADDR_LEN, ATTR_HDR_LEN.
  destruct (Z.eqb_spec len 8) as [H8|H8], (Z.eqb_spec len 20) as [H20|H20]; cbn [negb andb];
    try lia; try dec_error;
    (destruct (get8 (p + 4 + 1)) as (v & -> & _); [lia|]); ored;
    (destruct (v =? 1); [|destruct (v =? 2); [|dec_error]]); try dec_error;
    (destruct (get16 (p + 4 + 2)) as (port & -> & Hport); [lia..|]); ored;
    [destruct (getn (p + 4 + 4) 4) as (a & -> & Ha & Hf)
    |destruct (getn (p + 4 + 4) 16) as (a & -> & Ha & Hf)]; try lia; ored; dec_done;
    split_and!; done.
Qed.

Lemma decode_xored_typed h :
  length (m_tsx_id h) = 12%nat -> Forall is_byte (m_tsx_id h) ->
  dec_post F_xored_sockaddr (mk_attr_hdr t len) (decode_xored_sockaddr_attr pdu p h).
Proof.
  intros Hl Hf. unfold decode_xored_sockaddr_attr.
  destruct decode_sockaddr_typed as ([e|[hd b]] & -> & H); ored; [by eexists; split|].
  destruct H as [Hhd H]. cbn in Hhd, H. subst hd. cbn [a_body a_hdr].
  destruct b as [x addr| | | | | | | |]; try done. destruct H as [_ H].
  apply (xor_sockaddr_typed len (m_tsx_id h)) in H; [|done..].
  destruct addr as [port a|port a|]; [| |done];
    (eexists; split; [reflexivity|]; split; [reflexivity|]; split; [reflexivity|exact H]).
Qed.

Lemma decode_attr_typed f h :
  length (m_tsx_id h) = 12%nat -> Forall is_byte (m_tsx_id h) ->
  dec_post f (mk_attr_hdr t len) (decode_attr pdu f p h).
Proof.
  intros Hl Hf. unfold is_u16 in Hu.
  destruct f; cbn [decode_attr].
  - apply decode_sockaddr_typed.
  - by apply decode_xored_typed.
  - unfold decode_uint_attr. rewrite hdr_read. ored.
    destruct (get32 (p + 4)) as (v & -> & Hv); [lia..|]. ored. cbn [a_length].
    destruct (Z.eqb_spec len 4); cbn [negb]; [by dec_done|dec_error].
  - unfold decode_uint64_attr. rewrite hdr_read. ored. cbn [a_length].
    destruct (Z.eqb_spec len 8); cbn [negb]; [|dec_error].
    destruct (get32 (p + 4)) as (v & -> & Hv); [lia..|]. ored.
    destruct (get32 (p + 8)) as (w & -> & Hw); [lia..|]. ored. by dec_done.
  - unfold decode_string_attr. rewrite hdr_read. ored. cbn [a_length].
    destruct (getn (p + ATTR_HDR_LEN) (Z.to_nat len)) as (s & -> & Hs & Hfs);
      [unfold ATTR_HDR_LEN; lia..|]. ored. dec_done. split; [unfold slen; lia|done].
  - unfold decode_msgint_attr. rewrite hdr_read. ored. cbn [a_length].
    destruct (Z.eqb_spec len 20); cbn [negb]; [|dec_error].
    destruct (getn (p + 4) 20) as (s & -> & Hs & Hfs); [lia..|]. ored. by dec_done.
  - unfold decode_errcode_attr. rewrite hdr_read. ored. cbn [a_length].
    destruct (get8 (p + 6)) as (c & -> & Hc); [lia|]. ored.
    destruct (get8 (p + 7)) as (n & -> & Hn); [lia|]. ored.
    set (l := if len - 4 <? 0 then 0 else len - 4).
    assert (El : l = Z.max 0 (len - 4)) by (unfold l; destruct (Z.ltb_spec (len - 4) 0); lia).
    destruct (getn (p + ATTR_HDR_LEN + 4) (Z.to_nat l)) as (s & -> & Hs & Hfs);
      [unfold ATTR_HDR_LEN; lia..|]. ored. dec_done. unfold is_byte in *.
    split_and!; [unfold slen; lia|lia|lia|done].
  - unfold decode_unknown_attr. rewrite hdr_read. ored. cbn [a_length].
    rewrite Z.shiftr_div_pow2 by lia. change (2 ^ 1) with 2. unfold PJ_STUN_MAX_ATTR.
    destruct (Z.ltb_spec 16 (len / 2)) as [H|H]; [dec_error|].
    assert (0 <= len / 2 /\ 2 * (len / 2) <= len) by (Z.to_euclidean_division_equations; lia).
    destruct (read_types_in (Z.to_nat (len / 2)) (p + ATTR_HDR_LEN)) as (l & -> & Hs & Hfs);
      [unfold ATTR_HDR_LEN; lia..|]. ored. dec_done. split_and!; [lia|lia|done].
  - unfold decode_binary_attr. rewrite hdr_read. ored. cbn [a_length].
    destruct (getn (p + ATTR_HDR_LEN) (Z.to_nat len)) as (s & -> & Hs & Hfs);
      [unfold ATTR_HDR_LEN; lia..|]. ored. dec_done. split; [unfold slen; lia|done].
  - unfold decode_empty_attr. rewrite hdr_read. ored. cbn [a_length].
    destruct (Z.eqb_spec len 0); cbn [negb]; [by dec_done|dec_error].
Qed.
End attribute.

(** ** Responses to errors *)

(** The response made for an error on the request [msg]. *)
Definition response_to (msg : pj_stun_msg) (code : Z) (r : pj_stun_msg) : Prop :=
  m_type (msg_hdr r) = u16 (Z.lor (m_type (msg_hdr msg)) PJ_STUN_ERROR_RESPONSE_BIT) /\
  m_magic (msg_hdr r) = m_magic (msg_hdr msg) /\ m_tsx_id (msg_hdr r) = m_tsx_id (msg_hdr msg) /\
  exists reason h rest, msg_attr r = mk_attr h (A_errcode code reason) :: rest.

(** The error codes of the decoder and of authentication. *)
Definition stun_error (code : Z) : Prop :=
  code = 400 \/ code = 401 \/ code = 420 \/ code = 438 \/ code = 500.

Lemma create_error_response msg code text :
  PJ_STUN_IS_REQUEST (m_type (msg_hdr msg)) = true -> stun_error code ->
  exists r, pj_stun_msg_create_response msg code text = Some (inr r) /\ response_to msg code r /\
    exists l reason, msg_attr r = [mk_attr (mk_attr_hdr PJ_STUN_ATTR_ERROR_CODE l) (A_errcode code reason)].
Proof.
  intros Hr Hc. unfold pj_stun_msg_create_response. rewrite Hr. cbn [negb].
  assert (E0 : (code =? 0) = false) by (destruct Hc as [->|[->|[->|[->| ->]]]]; reflexivity).
  rewrite E0. cbn [negb]. unfold pj_stun_msg_create.
  destruct (Z.eqb_spec (Z.lor (m_type (msg_hdr msg)) PJ_STUN_ERROR_RESPONSE_BIT) 0) as [E|_].
  { apply Z.lor_eq_0_iff in E as [_ E]. discriminate E. }
  unfold pj_stun_errcode_attr_create. rewrite E0.
  assert (Er : exists reason, (match text with
      | Some r => Some r
      | None => str ← pj_stun_get_err_reason code;
                Some (if slen str =? 0 then unknown_error code else str) end) = Some reason).
  { destruct text as [r|]; [by exists r|].
    destruct Hc as [->|[->|[->|[->| ->]]]]; eexists; vm_compute; reflexivity. }
  destruct Er as [reason ->]. ored. unfold add_created, pj_stun_msg_add_attr.
  cbn. eexists. split; [done|]. split; [|by eexists _, _]. split_and!; [done..|]. by eexists reason, _, [].
Qed.

Lemma create_response_error msg code text :
  PJ_STUN_IS_REQUEST (m_type (msg_hdr msg)) = true -> code = 400 \/ code = 420 \/ code = 500 ->
  exists r, pj_stun_msg_create_response msg code text = Some (inr r) /\ response_to msg code r.
Proof.
  intros Hr Hc. destruct (create_error_response msg code text Hr) as (r & E & H & _); [unfold stun_error; tauto|eauto].
Qed.

Definition err_post (want : bool) (msg : pj_stun_msg) (e : dec_error) : Prop :=
  e.1 <> PJ_SUCCESS /\
  match e.2 with
  | None => want = false
  | Some r => want = true /\ exists code, response_to msg code r
  end.

Definition want_ok (want : bool) (msg : pj_stun_msg) : Prop :=
  want = true -> PJ_STUN_IS_REQUEST (m_type (msg_hdr msg)) = true.

Lemma fail_with_ok want msg code text status :
  want_ok want msg -> code = 400 \/ code = 420 \/ code = 500 -> status <> PJ_SUCCESS ->
  exists e, fail_with want msg code text status = Some e /\ err_post want msg e.
Proof.
  intros Hw Hc Hs. unfold fail_with. destruct want; [|by exists (status, None)].
  destruct (create_response_error msg code text) as (r & -> & Hr); [by apply Hw|done|]. ored.
  exists (status, Some r). repeat split; eauto.
Qed.

Lemma fail_unknown_ok want msg t :
  want_ok want msg -> exists e, fail_unknown want msg t = Some e /\ err_post want msg e.
Proof.
  intros Hw. unfold fail_unknown. destruct want; [|by eexists].
  destruct (create_response_error msg 420 None) as (r & E & H); [by apply Hw|auto|].
  unfold PJ_STUN_SC_UNKNOWN_ATTRIBUTE. rewrite E. ored.
  destruct H as (H1 & H2 & H3 & reason & h & rest & H4).
  unfold pj_stun_unknown_attr_create, add_created, pj_stun_msg_add_attr. cbn [length Z.of_nat Z.leb].
  destruct (PJ_STUN_MAX_ATTR <=? 1) eqn:E1; [discriminate E1|].
  destruct (attr_count r <? PJ_STUN_MAX_ATTR); eexists; (split; [reflexivity|]);
    (split; [discriminate|]); cbn; (split; [done|]); exists 420; repeat split; try done;
    rewrite ?H4; by eexists _, _, _.
Qed.

(** ** The loop *)

Definition has_type (t : Z) (attrs : list pj_stun_attr) : bool :=
  existsb (fun a => attr_type a =? t) attrs.

Definition st_ok (st : dec_state) : Prop :=
  decoded_ok (ds_msg st) /\
  ds_msg_int st = has_type PJ_STUN_ATTR_MESSAGE_INTEGRITY (msg_attr (ds_msg st)) /\
  ds_fingerprint st = has_type PJ_STUN_ATTR_FINGERPRINT (msg_attr (ds_msg st)).

Lemma order_ok_snoc a l : forall mi fp,
  order_ok mi fp (l ++ [a]) <->
  order_ok mi fp l /\
  order_ok (mi || has_type PJ_STUN_ATTR_MESSAGE_INTEGRITY l)
           (fp || has_type PJ_STUN_ATTR_FINGERPRINT l) [a].
Proof.
  induction l as [|b l IH]; intros mi fp; cbn [app has_type existsb].
  - rewrite !orb_false_r. cbn. tauto.
  - cbn [order_ok]. fold (has_type PJ_STUN_ATTR_MESSAGE_INTEGRITY l) (has_type PJ_STUN_ATTR_FINGERPRINT l).
    destruct (Z.eqb_spec (attr_type b) PJ_STUN_ATTR_MESSAGE_INTEGRITY) as [E|E].
    + rewrite E. change (PJ_STUN_ATTR_MESSAGE_INTEGRITY =? PJ_STUN_ATTR_FINGERPRINT) with false.
      rewrite IH. cbn [orb]. rewrite !orb_true_r. cbn. tauto.
    + destruct (attr_type b =? PJ_STUN_ATTR_FINGERPRINT); rewrite IH; cbn [orb];
        rewrite ?orb_true_r; cbn; tauto.
Qed.

Lemma st_add st a mi fp :
  st_ok st -> attr_ok a -> attr_count (ds_msg st) < PJ_STUN_MAX_ATTR ->
  order_ok (ds_msg_int st) (ds_fingerprint st) [a] ->
  mi = ds_msg_int st || (attr_type a =? PJ_STUN_ATTR_MESSAGE_INTEGRITY) ->
  fp = ds_fingerprint st || (attr_type a =? PJ_STUN_ATTR_FINGERPRINT) ->
  st_ok (mk_dec_state (ds_msg st <| msg_attr := msg_attr (ds_msg st) ++ [a] |>) mi fp).
Proof.
  intros ((Hh & Ha & Hc & Ho) & Hm & Hf) Hok Hlt Hord -> ->. unfold attr_count in *.
  split; cbn [ds_msg ds_msg_int ds_fingerprint set_field msg_attr msg_hdr].
  - split_and!; [done|by apply Forall_app; split; [|constructor]| |].
    + unfold attr_count. cbn [set_field msg_attr]. rewrite length_app. cbn [length]. lia.
    + cbn [set_field msg_attr]. apply order_ok_snoc. rewrite <- Hm, <- Hf. cbn [orb]. done.
  - unfold has_type. rewrite !existsb_app, Hm, Hf. cbn [existsb]. by rewrite !orb_false_r.
Qed.

Section step.
Context (want : bool) (st : dec_state) (p t len : Z) (Hst : st_ok st) (Hw : want_ok want (ds_msg st))
  (Hp : 0 <= p) (Ht : rd16 pdu p = Some t) (Hlen : rd16 pdu (p + 2) = Some len)
  (Hut : is_u16 t) (Hu : is_u16 len) (Hin : p + 4 + Z.max 4 len <= slen pdu).

(** One attribute: an error, or a state with one attribute more. *)
Definition step_post (r : option (dec_error + dec_state)) : Prop :=
  exists v, r = Some v /\
    match v with
    | inl e => err_post want (ds_msg st) e
    | inr st' => st_ok st' /\ msg_hdr (ds_msg st') = msg_hdr (ds_msg st) /\
        exists a, msg_attr (ds_msg st') = msg_attr (ds_msg st) ++ [a] /\ a_length (a_hdr a) = len
    end.

Lemma step_fail code text status :
  code = 400 \/ code = 420 \/ code = 500 -> status <> PJ_SUCCESS ->
  step_post (e ← fail_with want (ds_msg st) code text status; Some (inl e)).
Proof.
  intros Hc Hs. destruct (fail_with_ok want (ds_msg st) code text status Hw Hc Hs) as (e & -> & He).
  by eexists.
Qed.

Lemma dec_unrecognized_ok :
  find_attr_desc t = None -> step_post (dec_unrecognized pdu want st p t).
Proof.
  intros Hd. unfold dec_unrecognized. destruct (Z.leb_spec t 0x7FFF) as [H|H].
  { destruct (fail_unknown_ok want (ds_msg st) t Hw) as (e & -> & He). by eexists. }
  destruct (Z.leb_spec PJ_STUN_MAX_ATTR (attr_count (ds_msg st))) as [Hc|Hc].
  { apply step_fail; [auto|discriminate]. }
  rewrite Hlen. ored. unfold is_u16 in Hu.
  destruct (getn (p + 4) (Z.to_nat len)) as (data & -> & Hl & Hbd); [lia..|]. ored.
  unfold pj_stun_binary_attr_create. destruct (Z.eqb_spec t 0); [lia|].
  assert (Elen : u16 (slen data) = len) by (unfold slen; rewrite Hl, u16_id; unfold is_u16; lia).
  eexists. split; [reflexivity|]. split; [|split; [done|by eexists]].
  assert (Et : t <> PJ_STUN_ATTR_MESSAGE_INTEGRITY /\ t <> PJ_STUN_ATTR_FINGERPRINT).
  { split; intros ->; discriminate Hd. }
  assert (Eu : u16 t = t) by by apply u16_id.
  set (a := mk_attr _ _). assert (Ea : attr_type a = t) by exact Eu.
  apply st_add; rewrite ?Ea; try done.
  - split_and!; [by rewrite Ea|apply u16_range|]. rewrite Ea, Hd. split; [lia|].
    exists data. cbn. split_and!; [done| |done]. unfold slen. rewrite Hl, u16_id; unfold is_u16; lia.
  - cbn [order_ok]. rewrite Ea. destruct (Z.eqb_spec t PJ_STUN_ATTR_MESSAGE_INTEGRITY); [tauto|].
    destruct (Z.eqb_spec t PJ_STUN_ATTR_FINGERPRINT); tauto.
  - destruct (Z.eqb_spec t PJ_STUN_ATTR_MESSAGE_INTEGRITY); [tauto|]. by rewrite orb_false_r.
  - destruct (Z.eqb_spec t PJ_STUN_ATTR_FINGERPRINT); [tauto|]. by rewrite orb_false_r.
Qed.

Lemma dec_add_ok st' a :
  msg_hdr (ds_msg st') = msg_hdr (ds_msg st) ->
  ds_msg st' = ds_msg st -> attr_ok a -> attr_type a = t ->
  dec_order st t = inr st' -> is_Some (find_attr_desc t) -> a_length (a_hdr a) = len ->
  step_post (dec_add want st' a).
Proof.
  intros Hh Hm Ha Et Ho [d Hd] El. unfold dec_add. rewrite Hm.
  destruct (Z.leb_spec PJ_STUN_MAX_ATTR (attr_count (ds_msg st))) as [Hc|Hc].
  { apply step_fail; [auto|discriminate]. }
  eexists. split; [reflexivity|]. split; [|split; [done|by exists a]].
  unfold dec_order in Ho. apply st_add; try done; cbn [order_ok]; rewrite Et;
    destruct (Z.eqb_spec t PJ_STUN_ATTR_MESSAGE_INTEGRITY) as [E|E];
    try (rewrite E in *; change (PJ_STUN_ATTR_MESSAGE_INTEGRITY =? PJ_STUN_ATTR_FINGERPRINT) with false in * );
    destruct (ds_fingerprint st) eqn:Efp; cbn [andb negb] in Ho;
    try destruct (Z.eqb_spec t PJ_STUN_ATTR_FINGERPRINT) as [E2|E2]; try discriminate Ho;
    destruct (ds_msg_int st) eqn:Emi; try discriminate Ho; injection Ho as <-; cbn;
    rewrite ?Efp, ?Emi; repeat split; try done; try (intros; discriminate).
Qed.

Lemma dec_recognized_ok d :
  find_attr_desc t = Some d -> step_post (dec_recognized strerror pdu want st p t d).
Proof.
  intros Hd. unfold dec_recognized. pose proof Hst as ((Hh & _) & _).
  destruct Hh as (_ & _ & _ & Hl & Hf).
  destruct (decode_attr_typed p t len Hp Ht Hlen Hu Hin (d_decode d) (msg_hdr (ds_msg st)) Hl Hf)
    as ([e|a] & -> & H); ored; [apply step_fail; auto|].
  destruct H as [Hah Hat].
  destruct (dec_order st t) as [status|st'] eqn:Ho.
  - apply step_fail; [auto|]. unfold dec_order in Ho.
    repeat case_match; try discriminate Ho; injection Ho as <-; discriminate.
  - assert (Et : attr_type a = t) by (unfold attr_type; by rewrite Hah).
    apply dec_add_ok; try done.
    + unfold dec_order in Ho. repeat case_match; try discriminate Ho; by injection Ho as <-.
    + unfold dec_order in Ho. repeat case_match; try discriminate Ho; by injection Ho as <-.
    + unfold attr_ok. rewrite Et, Hd. split_and!; [done|by rewrite Hah|done].
    + by rewrite Hah.
Qed.
End step.

(** The bytes of attributes in a packet, all padded. *)
Definition attrs_size (attrs : list pj_stun_attr) : Z :=
  foldr (fun a n => align4 (a_length (a_hdr a)) + 4 + n) 0 attrs.

Lemma attrs_size_snoc l a : attrs_size (l ++ [a]) = attrs_size l + (align4 (a_length (a_hdr a)) + 4).
Proof. induction l as [|b l IH]; cbn [app attrs_size foldr] in *; [lia|]. unfold attrs_size in IH. lia. Qed.

(** The last attribute may lack four bytes of its padded value. *)
Definition loop_post (want : bool) (st : dec_state) (p len : Z)
    (r : option (dec_error + dec_state * Z * Z)) : Prop :=
  exists v, r = Some v /\
    match v with
    | inl e => exists attrs, err_post want (ds_msg st <| msg_attr := attrs |>) e
    | inr (st', p', len') =>
        st_ok st' /\ msg_hdr (ds_msg st') = msg_hdr (ds_msg st) /\ p' + len' = p + len /\ 0 <= len' < 4 /\
        attrs_size (msg_attr (ds_msg st')) + p <=
          attrs_size (msg_attr (ds_msg st)) + p' + (if 0 <? len then 4 else 0)
    end.

Lemma response_hdr msg msg' code r :
  msg_hdr msg' = msg_hdr msg -> response_to msg code r -> response_to msg' code r.
Proof. intros E (H1 & H2 & H3 & H4). unfold response_to. by rewrite E. Qed.

Lemma err_post_hdr want msg msg' e :
  msg_hdr msg' = msg_hdr msg -> err_post want msg e -> err_post want msg' e.
Proof.
  intros E [H1 H2]. split; [done|]. destruct e.2 as [r|]; [|done].
  destruct H2 as (Hw & code & H2). split; [done|]. exists code. by eapply response_hdr.
Qed.

Lemma dec_loop_ok want fuel : forall st p len,
  st_ok st -> want_ok want (ds_msg st) -> 0 <= p -> 0 <= len -> p + len + 4 <= slen pdu ->
  len < Z.of_nat fuel ->
  loop_post want st p len (dec_loop strerror pdu fuel want st p len).
Proof.
  induction fuel as [|fuel IH]; intros st p len Hst Hw Hp Hlen Hin Hf; [lia|]. cbn [dec_loop].
  destruct (Z.leb_spec 4 len) as [H4|H4].
  2: { eexists. split; [reflexivity|]. split_and!; try done; try lia. destruct (0 <? len); lia. }
  destruct (get16 p) as (t & Et & Ht); [lia..|]. rewrite Et. ored.
  destruct (get16 (p + 2)) as (l & El & Hl); [lia..|]. rewrite El. ored.
  pose proof (align4_bounds l Hl) as [Hal _]. pose proof Hl as Hl'. unfold is_u16 in Hl'.
  assert (Hself : ds_msg st <| msg_attr := msg_attr (ds_msg st) |> = ds_msg st) by by destruct (ds_msg st).
  destruct (Z.ltb_spec len (align4 l)) as [Hlt|Hlt].
  { match goal with |- context [fail_with want _ ?c ?tx ?s] =>
      destruct (fail_with_ok want (ds_msg st) c tx s Hw) as (e & -> & He); [auto|discriminate|] end.
    ored. eexists. split; [reflexivity|]. exists (msg_attr (ds_msg st)). by rewrite Hself. }
  assert (Hroom : p + 4 + Z.max 4 l <= slen pdu) by lia.
  assert (Hone : step_post want st l (match find_attr_desc t with
      | None => dec_unrecognized pdu want st p t
      | Some d => dec_recognized strerror pdu want st p t d end)).
  { destruct (find_attr_desc t) as [d|] eqn:Ed.
    - by apply (dec_recognized_ok want st p t l).
    - by apply (dec_unrecognized_ok want st p t l). }
  destruct Hone as ([e|st'] & -> & H); ored.
  { eexists. split; [reflexivity|]. exists (msg_attr (ds_msg st)). by rewrite Hself. }
  destruct H as (Hst' & Hh & a & Ea & Eal).
  assert (Esz : attrs_size (msg_attr (ds_msg st')) = attrs_size (msg_attr (ds_msg st)) + (align4 l + 4))
    by (by rewrite Ea, attrs_size_snoc, Eal).
  assert (Hw' : want_ok want (ds_msg st')) by (unfold want_ok; by rewrite Hh).
  assert (G : forall p' len', 0 <= p' -> 0 <= len' -> p' + len' = p + len -> len' < len ->
    (align4 l + 4 + p + (if 0 <? len' then 4 else 0) <= p' + 4) ->
    loop_post want st p len (dec_loop strerror pdu fuel want st' p' len')).
  { intros p' len' H1 H2 H3 H5 H6.
    destruct (IH st' p' len' Hst' Hw') as (v & Ev & Hv); [lia..|]. exists v. split; [done|].
    destruct v as [e|[[st2 p2] len2]].
    - destruct Hv as (attrs & He). exists attrs. by eapply err_post_hdr, He.
    - destruct Hv as (G1 & G2 & G3 & G4 & G5). split_and!; [done|by rewrite G2|lia|lia|lia|].
      destruct (Z.ltb_spec 0 len); lia. }
  destruct (Z.leb_spec len (align4 l + 4)); apply G; try lia; [cbn; lia|].
  destruct (Z.ltb_spec 0 (len - (align4 l + 4))); lia.
Qed.
End decode.

(** ** The whole packet *)

(** What decoding returns for the message of [L] bytes in the packet. *)
(** [resp] is an error response to the request of which [pdu] is the packet. *)
Definition offered (pdu : list Z) (resp : pj_stun_msg) : Prop :=
  exists hdr code, read_stun_hdr pdu = Some hdr /\ PJ_STUN_IS_REQUEST (m_type hdr) = true /\
    PJ_STUN_IS_ERROR_RESPONSE (m_type (msg_hdr resp)) = true /\ response_to (mk_stun_msg hdr []) code resp.

Definition decode_post (pdu : list Z) (want : bool) (L : Z) (r : option dec_result) : Prop :=
  exists v, r = Some v /\
    match dr_msg v with
    | Some m => dr_status v = PJ_SUCCESS /\ decoded_ok m /\ m_length (msg_hdr m) = L /\
        dr_parsed_len v = 20 + L /\ dr_response v = None /\ attrs_size (msg_attr m) <= L + 4
    | None => dr_status v <> PJ_SUCCESS /\
        (forall resp, dr_response v = Some resp -> want = true /\ offered pdu resp)
    end.

Lemma error_bits t :
  is_u16 t -> PJ_STUN_IS_ERROR_RESPONSE (u16 (Z.lor t PJ_STUN_ERROR_RESPONSE_BIT)) = true.
Proof.
  intros Ht. unfold PJ_STUN_IS_ERROR_RESPONSE. apply Z.eqb_eq. apply Z.bits_inj'. intros n Hn.
  rewrite Z.land_spec. unfold u16. change 65536 with (2 ^ 16).
  destruct (Z.ltb_spec n 16).
  - rewrite Z.mod_pow2_bits_low, Z.lor_spec by lia. change PJ_STUN_ERROR_RESPONSE_BIT with 0x0110.
    destruct (Z.testbit 0x0110 n); [by rewrite orb_true_r|apply andb_false_r].
  - rewrite Z.mod_pow2_bits_high by lia. cbn [andb]. symmetry.
    apply Z.bits_above_log2; [lia|]. change (Z.log2 0x0110) with 8. lia.
Qed.

Lemma check_total pdu addr pdu_len options :
  Forall is_byte pdu -> pdu_len <= slen pdu ->
  exists s, pj_stun_msg_check pdu addr pdu_len options = Some s /\
    (s = PJ_SUCCESS -> 20 <= pdu_len /\ exists L, rd16 pdu 2 = Some L /\ 20 + L <= pdu_len).
Proof.
  intros Hb Hl. unfold pj_stun_msg_check, sizeof_stun_hdr.
  destruct (Z.ltb_spec pdu_len 20); [eexists; split; [reflexivity|discriminate]|].
  destruct (get8 pdu Hb 0) as (b0 & -> & _); [lia|]. ored.
  destruct (negb (b0 =? 0) && negb (b0 =? 1)); [eexists; split; [reflexivity|discriminate]|].
  destruct (get16 pdu Hb 2) as (L & -> & HL); [lia..|]. ored. unfold is_u16 in HL.
  destruct (Z.ltb_spec pdu_len (L + 20)) as [H1|H1]; cbn [orb];
    [eexists; split; [reflexivity|discriminate]|].
  assert (Hok : forall s : Z, s = PJ_SUCCESS -> 20 <= pdu_len /\ exists L', Some L = Some L' /\ 20 + L' <= pdu_len)
    by (intros s _; split; [lia|exists L; split; [done|lia]]).
  destruct (_ && _); [eexists; split; [reflexivity|discriminate]|].
  destruct (negb (Z.land L 3 =? 0)); [eexists; split; [reflexivity|discriminate]|].
  destruct (get32 pdu Hb 4) as (magic & -> & _); [lia..|]. ored.
  destruct (negb (magic =? _)); [eexists; split; [reflexivity|apply Hok]|].
  destruct (negb (Z.land options _ =? 0)); [eexists; split; [reflexivity|apply Hok]|].
  destruct (get16 pdu Hb (L + 20 - 8)) as (t & -> & _); [lia..|]. ored.
  destruct (negb (t =? _)); [eexists; split; [reflexivity|apply Hok]|].
  destruct (get16 pdu Hb (L + 20 - 8 + 2)) as (al & -> & _); [lia..|]. ored.
  destruct (get32 pdu Hb (L + 20 - 8 + 4)) as (fp & -> & _); [lia..|]. ored.
  destruct (negb (al =? 4)); [eexists; split; [reflexivity|discriminate]|].
  destruct (getn pdu Hb 0 (Z.to_nat (L + 20 - 8))) as (d & -> & _ & Hd); [lia..|]. ored.
  rewrite crc32_calc_ref by done. ored. eexists. split; [reflexivity|apply Hok].
Qed.

Lemma decode_ok strerror pdu addr pdu_len options want L :
  Forall is_byte pdu -> 0 < pdu_len ->
  (Z.land options PJ_STUN_CHECK_PACKET = 0 \/ pdu_len <= slen pdu) ->
  rd16 pdu 2 = Some L -> 24 + L <= slen pdu ->
  decode_post pdu want L (pj_stun_msg_decode strerror pdu addr pdu_len options want).
Proof.
  intros Hb Hpos Hchk HL Hin. unfold pj_stun_msg_decode.
  pose proof (rd16_range pdu 2 L Hb HL) as HLr. unfold is_u16 in HLr.
  destruct (Z.eqb_spec pdu_len 0); [lia|].
  assert (E : exists s, (if negb (Z.land options PJ_STUN_CHECK_PACKET =? 0)
      then pj_stun_msg_check pdu addr pdu_len options else Some PJ_SUCCESS) = Some s).
  { destruct (Z.eqb_spec (Z.land options PJ_STUN_CHECK_PACKET) 0); cbn [negb]; [by eexists|].
    destruct (check_total pdu addr pdu_len options) as (s & -> & _); [done|tauto|]. by eexists. }
  destruct E as [s ->]. ored.
  destruct (Z.eqb_spec s PJ_SUCCESS) as [->|Hs]; cbn [negb]; [|by eexists].
  destruct (get16 pdu Hb 0) as (t & E0 & Ht); [lia..|].
  destruct (get32 pdu Hb 4) as (magic & E4 & Hm); [lia..|].
  destruct (getn pdu Hb 8 12) as (tsx & E8 & Htl & Htb); [lia..|].
  set (h := mk_stun_hdr t L magic tsx).
  assert (Eh : read_stun_hdr pdu = Some h) by (unfold read_stun_hdr; by rewrite E0, HL, E4, E8).
  rewrite Eh. ored. change (m_type h) with t. change (m_length h) with L. set (st := mk_dec_state (mk_stun_msg h []) false false).
  assert (Hst : st_ok st) by (unfold st_ok, decoded_ok, hdr_ok; split_and!; try done; constructor).
  set (w := want && PJ_STUN_IS_REQUEST t).
  assert (Hw : want_ok w (ds_msg st)) by (intros H; apply andb_true_iff in H; apply H).
  destruct (dec_loop_ok strerror pdu Hb w (S (Z.to_nat L)) st 20 L Hst Hw) as (v & Ev & Hv); [lia..|].
  unfold sizeof_stun_hdr. rewrite Ev. ored. destruct v as [[status response]|[[st' p'] len']].
  - destruct Hv as (attrs & Hs & Hr). eexists. split; [reflexivity|]. split; [exact Hs|].
    cbn in Hr |- *. intros r [= ->]. destruct Hr as (Hwt & code & Hr).
    apply andb_true_iff in Hwt as [-> Hreq]. split; [done|]. exists h, code. split_and!; [done..| |done].
    destruct Hr as (Hty & _). rewrite Hty. by apply error_bits.
  - destruct Hv as (Hst' & Hh & Hp & Hlen & Hsz). change (attrs_size (msg_attr (ds_msg st))) with 0 in Hsz.
    destruct (Z.ltb_spec 0 len') as [H0|H0].
    + by eexists.
    + eexists. split; [reflexivity|]. cbn [dr_msg dr_status dr_parsed_len dr_response].
      split_and!; [done|apply Hst'|by rewrite Hh|lia|done|]. destruct (0 <? L); lia.
Qed.

