(* ===== verification/StunEncode.v ===== *)
(** * STUN messages: what encoding writes

    The attributes as they lie in the packet ([wire]), the packet with its
    integrity and fingerprint ([stun_packet]), and the proof that
    [pj_stun_msg_encode] writes that packet, or nothing behind its buffer. *)

From Stdlib Require Import String.
From S2P Require Import Prelude Bytes PjString Digest Sha1 Hmac Crc32 StunMsg StunDecode.
Local Open Scope Z_scope.

(** ** The packet *)

Section packet.
Context (padding_char : Z) (h : pj_stun_msg_hdr).

(** The length field of a string: rounded up for old servers. *)
Definition string_len (t : Z) (s : list Z) : Z :=
  if negb (m_magic h =? PJ_STUN_MAGIC) || (t =? PJ_STUN_ATTR_SOFTWARE)
  then align4 (slen s) else slen s.

Definition string_pad (s : list Z) : list Z :=
  replicate (Z.to_nat (align4 (slen s) - slen s)) (u8 padding_char).

Definition addr_wire (addr : pj_sockaddr) : list Z :=
  match addr with
  | sock_in port a => be16 8 ++ [0; 1] ++ be16 port ++ a
  | sock_in6 port a => be16 20 ++ [0; 2] ++ be16 port ++ a
  | sock_other => []
  end.

(** The length and the value of an attribute, as they are written. *)
Definition body_wire (t : Z) (b : attr_body) : list Z :=
  match b with
  | A_sockaddr x addr => addr_wire (if x then xor_sockaddr (m_tsx_id h) addr else addr)
  | A_empty => be16 0
  | A_string s => be16 (string_len t s) ++ s ++ string_pad s
  | A_uint v => be16 4 ++ be32 v
  | A_uint64 hi lo => be16 8 ++ be32 hi ++ be32 lo
  | A_msgint d => be16 20 ++ d
  | A_errcode code s => be16 (4 + slen s) ++ [0; 0; code / 100; code mod 100] ++ s
  | A_unknown l => be16 (2 * Z.of_nat (length l)) ++ (l ≫= be16)
  | A_binary _ s => be16 (slen s) ++ s
  end.

Definition wire (a : pj_stun_attr) : list Z := be16 (attr_type a) ++ body_wire (attr_type a) (a_body a).

(** The place it takes: whole words. *)
Definition room (a : pj_stun_attr) : Z := align4 (slen (wire a)).

(** What [pj_stun_msg_encode] needs of an attribute. *)
Definition body_ok (f : attr_fns) (b : attr_body) : Prop :=
  match f, b with
  | (F_sockaddr | F_xored_sockaddr), A_sockaddr x (sock_in port a) =>
      is_u16 port /\ length a = 4%nat /\ Forall is_byte a
  | (F_sockaddr | F_xored_sockaddr), A_sockaddr x (sock_in6 port a) =>
      is_u16 port /\ length a = 16%nat /\ Forall is_byte a
  | F_empty, A_empty => True
  | F_string, A_string s => slen s <= 65532 /\ Forall is_byte s
  | F_uint, A_uint v => is_u32 v
  | F_uint64, A_uint64 hi lo => is_u32 hi /\ is_u32 lo
  | F_errcode, A_errcode code s => 0 <= code < 25600 /\ slen s <= 65528 /\ Forall is_byte s
  | F_unknown, A_unknown l => (length l <= 16)%nat /\ Forall is_u16 l
  | F_binary, A_binary _ s => slen s <= 65532 /\ Forall is_byte s
  | _, _ => False
  end.

Definition encodable (a : pj_stun_attr) : Prop :=
  is_u16 (attr_type a) /\
  attr_type a <> PJ_STUN_ATTR_MESSAGE_INTEGRITY /\ attr_type a <> PJ_STUN_ATTR_FINGERPRINT /\
  match find_attr_desc (attr_type a) with
  | Some d => body_ok (d_encode d) (a_body a)
  | None => match a_body a with A_binary m _ => m = PJ_STUN_MAGIC | _ => False end /\
      body_ok F_binary (a_body a)
  end.

(** The attributes whose room is checked before they are written: all but
    ERROR-CODE and UNKNOWN-ATTRIBUTES of an odd length. *)
Definition whole (a : pj_stun_attr) : Prop :=
  match a_body a with
  | A_errcode _ s => slen s mod 4 = 0
  | A_unknown l => Z.of_nat (length l) mod 2 = 0
  | _ => True
  end.

End packet.

(** ** Copies *)

Lemma be16_u16 v : be16 (u16 v) = be16 v.
Proof.
  unfold be16, u16. repeat (apply (f_equal2 cons); [Z.to_euclidean_division_equations; lia|]). done.
Qed.

Lemma be32_u32 v : be32 (u32 v) = be32 v.
Proof.
  rewrite !be32_shr, !shr255 by lia. change (2 ^ 24) with 16777216. change (2 ^ 16) with 65536.
  change (2 ^ 8) with 256. change (2 ^ 0) with 1. unfold u32.
  repeat (apply (f_equal2 cons); [Z.to_euclidean_division_equations; lia|]). done.
Qed.

Lemma put16_copy mem pos v : put16 mem pos v = memcpy_at mem pos (be16 v).
Proof. unfold put16. by rewrite be16_u16. Qed.

Lemma put32_copy mem pos v : put32 mem pos v = memcpy_at mem pos (be32 v).
Proof. unfold put32. by rewrite be32_u32. Qed.

Lemma memcpy_nil mem pos : 0 <= pos <= slen mem -> memcpy_at mem pos [] = Some mem.
Proof.
  intros H. unfold memcpy_at. change (slen []) with 0. rewrite decide_True by lia.
  cbn [app length]. by rewrite Nat.add_0_r, take_drop.
Qed.

Lemma memcpy_fits mem pos d :
  0 <= pos -> pos + slen d <= slen mem ->
  memcpy_at mem pos d = Some (take (Z.to_nat pos) mem ++ d ++ drop (Z.to_nat pos + length d) mem).
Proof. intros H1 H2. unfold memcpy_at. by rewrite decide_True. Qed.

(** Two copies, one after the other, are one. *)
Lemma memcpy_seq {A} mem pos pos2 a b (k : list Z -> option A) :
  0 <= pos -> pos2 = pos + slen a ->
  (m ← memcpy_at mem pos a; m ← memcpy_at m pos2 b; k m) = (m ← memcpy_at mem pos (a ++ b); k m).
Proof.
  intros Hp ->. unfold memcpy_at at 2 3. rewrite slen_app.
  destruct (decide (0 <= pos /\ pos + slen a <= slen mem)) as [[_ H]|H].
  2: { rewrite decide_False; [done|]. pose proof (slen_nonneg b). lia. }
  ored. set (m1 := take (Z.to_nat pos) mem ++ a ++ drop (Z.to_nat pos + length a) mem).
  assert (Hl : slen m1 = slen mem).
  { unfold m1. rewrite !slen_app. unfold slen in *. rewrite length_take, length_drop. lia. }
  unfold memcpy_at. rewrite Hl. pose proof (slen_nonneg a).
  destruct (decide (0 <= pos + slen a /\ pos + slen a + slen b <= slen mem)) as [H2|H2];
    [rewrite decide_True by lia|rewrite decide_False by lia; done].
  ored. f_equal. unfold m1.
  assert (Ha : Z.to_nat (pos + slen a) = (Z.to_nat pos + length a)%nat) by (unfold slen; lia).
  rewrite Ha. assert (Hpre : length (take (Z.to_nat pos) mem ++ a) = (Z.to_nat pos + length a)%nat).
  { unfold slen in *. rewrite length_app, length_take. lia. }
  rewrite (app_assoc (take _ mem)), <- Hpre, take_app_length, drop_app_add, drop_drop, Hpre.
  by rewrite length_app, <- !app_assoc, Nat.add_assoc.
Qed.

Lemma memcpy_seq_last mem pos pos2 a b :
  0 <= pos -> pos2 = pos + slen a ->
  (m ← memcpy_at mem pos a; memcpy_at m pos2 b) = memcpy_at mem pos (a ++ b).
Proof.
  intros Hp E. pose proof (memcpy_seq mem pos pos2 a b Some Hp E) as H.
  destruct (memcpy_at mem pos a) as [m|], (memcpy_at mem pos (a ++ b)); cbn in *;
    try destruct (memcpy_at m pos2 b); done.
Qed.

Lemma put16_seq {A} mem pos pos2 a v (k : list Z -> option A) :
  0 <= pos -> pos2 = pos + slen a ->
  (m ← memcpy_at mem pos a; m ← put16 m pos2 v; k m) = (m ← memcpy_at mem pos (a ++ be16 v); k m).
Proof. unfold put16. rewrite be16_u16. apply memcpy_seq. Qed.

Lemma put32_seq {A} mem pos pos2 a v (k : list Z -> option A) :
  0 <= pos -> pos2 = pos + slen a ->
  (m ← memcpy_at mem pos a; m ← put32 m pos2 v; k m) = (m ← memcpy_at mem pos (a ++ be32 v); k m).
Proof. unfold put32. rewrite be32_u32. apply memcpy_seq. Qed.

(** Join the copies of an encoding function into one. *)
Ltac join_copies :=
  rewrite ?put16_copy;
  repeat (first [rewrite memcpy_seq | rewrite put16_seq | rewrite put32_seq];
          [|lia|rewrite ?slen_app; unfold slen; cbn [length be16 be32 app]; lia]).

Lemma put_types_copy l : forall mem pos,
  0 <= pos <= slen mem -> put_types mem pos l = memcpy_at mem pos (l ≫= be16).
Proof.
  induction l as [|t l IH]; intros mem pos H; cbn [put_types mbind list_bind].
  - symmetry. by apply memcpy_nil.
  - rewrite put16_copy. rewrite <- (memcpy_seq_last mem pos (pos + 2)) by (done || lia).
    unfold memcpy_at at 1 3. case_decide as E; [|done]. ored. apply IH.
    rewrite !slen_app. unfold slen in *. rewrite length_take, length_drop. cbn [length be16] in *. lia.
Qed.

(** The memory is the same from [n] on. *)
Definition same_from (n : Z) (mem mem' : list Z) : Prop :=
  length mem' = length mem /\ drop (Z.to_nat n) mem' = drop (Z.to_nat n) mem.

Lemma same_from_refl n mem : same_from n mem mem.
Proof. done. Qed.

Lemma same_from_trans n m1 m2 m3 : same_from n m1 m2 -> same_from n m2 m3 -> same_from n m1 m3.
Proof. intros [H1 H2] [H3 H4]. split; congruence. Qed.

Lemma same_from_copy n mem pos d :
  0 <= pos -> pos + slen d <= n -> n <= slen mem ->
  exists mem', memcpy_at mem pos d = Some mem' /\ same_from n mem mem'.
Proof.
  intros H1 H2 H3. pose proof (slen_nonneg d). rewrite memcpy_fits by lia. eexists. split; [done|].
  assert (Hl : length (take (Z.to_nat pos) mem ++ d) = (Z.to_nat pos + length d)%nat).
  { unfold slen in *. rewrite length_app, length_take. lia. }
  split; [rewrite app_assoc, length_app, Hl, length_drop; unfold slen in *; lia|].
  rewrite app_assoc, drop_app_ge by (rewrite Hl; unfold slen in *; lia).
  rewrite drop_drop, Hl. f_equal. unfold slen in *. lia.
Qed.

Lemma same_from_mono n n' mem mem' : 0 <= n <= n' -> same_from n mem mem' -> same_from n' mem mem'.
Proof.
  intros Hn [H1 H2]. split; [done|]. apply (f_equal (drop (Z.to_nat n' - Z.to_nat n))) in H2.
  rewrite !drop_drop in H2. by replace (Z.to_nat n + (Z.to_nat n' - Z.to_nat n))%nat with (Z.to_nat n') in H2 by lia.
Qed.

Lemma same_from_tail n a b c : length a = length b -> slen a <= n -> same_from n (a ++ c) (b ++ c).
Proof.
  intros Hl Hn. split; [rewrite !length_app; lia|]. unfold slen in Hn.
  rewrite !drop_app_ge by lia. by rewrite Hl.
Qed.

(** ** One attribute *)

Section attribute.
Context (padding_char : Z) (h : pj_stun_msg_hdr).

Lemma align4_up x : 0 <= x < 4294967292 -> x <= align4 x <= x + 3 /\ align4 x mod 4 = 0.
Proof.
  intros H. rewrite align4_spec by done. split; [Z.to_euclidean_division_equations; lia|].
  rewrite Z.mul_comm. apply Z_mod_mult.
Qed.

Lemma align4_id x : 0 <= x < 4294967292 -> x mod 4 = 0 -> align4 x = x.
Proof. intros H E. pose proof (align4_up x H). Z.to_euclidean_division_equations; lia. Qed.

Lemma align4_add4 x : 0 <= x < 4294967284 -> align4 (x + 4) = align4 x + 4.
Proof. intros H. rewrite !align4_spec by lia. Z.to_euclidean_division_equations; lia. Qed.

Lemma be16_bind_length l : slen (l ≫= be16) = 2 * Z.of_nat (length l).
Proof. unfold slen. rewrite (bind_length _ 2) by done. lia. Qed.

Lemma xor_sockaddr_ok f x addr :
  length (m_tsx_id h) = 12%nat -> Forall is_byte (m_tsx_id h) ->
  body_ok f (A_sockaddr x addr) ->
  f = F_sockaddr \/ f = F_xored_sockaddr ->
  body_ok f (A_sockaddr x (if x then xor_sockaddr (m_tsx_id h) addr else addr)).
Proof.
  intros Hl Hb H Hf. destruct x; [|done].
  assert (G : exists len, sockaddr_typed len addr).
  { destruct Hf as [-> | ->], addr; cbn in H; try done; [exists 8|exists 20|exists 8|exists 20]; done. }
  destruct G as [len G]. apply (xor_sockaddr_typed len (m_tsx_id h)) in G; [|done..].
  destruct Hf as [-> | ->], addr; cbn in H, G |- *; try done; tauto.
Qed.

(** When there is room, an encoding function is one copy. *)
Definition encodes (a : pj_stun_attr) (r : list Z -> Z -> Z -> option (Z * list Z * Z)) : Prop :=
  forall mem pos len, 0 <= pos -> pos + slen (wire padding_char h a) <= slen mem ->
    room padding_char h a <= len ->
    r mem pos len = (m ← memcpy_at mem pos (wire padding_char h a);
                     Some (PJ_SUCCESS, m, room padding_char h a)).

Ltac small_len := unfold slen; cbn [length be16 be32 app]; try lia.

Lemma encode_sockaddr_fits a f :
  length (m_tsx_id h) = 12%nat -> Forall is_byte (m_tsx_id h) ->
  body_ok f (a_body a) -> f = F_sockaddr \/ f = F_xored_sockaddr ->
  encodes a (fun mem pos len => encode_sockaddr_attr a mem pos len h).
Proof.
  intros Ht Hb Hok Hf mem pos len Hp Hm Hl. unfold encode_sockaddr_attr.
  destruct (a_body a) as [x addr| | | | | | | |] eqn:Eb; try (by destruct Hf as [-> | ->]).
  unfold room, wire in *. rewrite Eb in *. cbn [body_wire] in *.
  pose proof (xor_sockaddr_ok f x addr Ht Hb Hok Hf) as Hx.
  destruct (if x then xor_sockaddr (m_tsx_id h) addr else addr) as [port ad|port ad|];
    [| |by destruct Hf as [-> | ->]];
    (assert (H : is_u16 port /\ Forall is_byte ad /\ length ad = length ad) by
       (destruct Hf as [-> | ->]; cbn in Hx; tauto)); cbn [addr_wire] in *.
  - assert (Hal : length ad = 4%nat) by (destruct Hf as [-> | ->]; apply Hx).
    assert (Ew : slen (be16 (attr_type a) ++ be16 8 ++ [0; 1] ++ be16 port ++ ad) = 12)
      by (unfold slen; rewrite !length_app, Hal; done).
    rewrite Ew in *. change (align4 12) with 12 in *.
    unfold ATTR_HDR_LEN, STUN_GENERIC_IPV4_ADDR_LEN.
    destruct (Z.ltb_spec len (4 + 8)); [lia|].
    join_copies. by rewrite <- !app_assoc.
  - assert (Hal : length ad = 16%nat) by (destruct Hf as [-> | ->]; apply Hx).
    assert (Ew : slen (be16 (attr_type a) ++ be16 20 ++ [0; 2] ++ be16 port ++ ad) = 24)
      by (unfold slen; rewrite !length_app, Hal; done).
    rewrite Ew in *. change (align4 24) with 24 in *.
    unfold ATTR_HDR_LEN, STUN_GENERIC_IPV6_ADDR_LEN.
    destruct (Z.ltb_spec len (4 + 20)); [lia|].
    join_copies. by rewrite <- !app_assoc.
Qed.

Lemma land3 x : Z.land x 3 = x mod 4.
Proof. change 3 with (Z.ones 2). by rewrite Z.land_ones by lia. Qed.

Lemma string_pad_odd s :
  slen s <= 65532 ->
  string_pad padding_char s =
    if negb (Z.land (slen s) 3 =? 0)
    then replicate (Z.to_nat (4 - Z.land (slen s) 3)) (u8 padding_char) else [].
Proof.
  intros H. pose proof (slen_nonneg s). unfold string_pad. rewrite align4_spec, land3 by lia.
  destruct (Z.eqb_spec (slen s mod 4) 0) as [E|E]; cbn [negb].
  - replace (4 * ((slen s + 3) / 4) - slen s) with 0 by (Z.to_euclidean_division_equations; lia). done.
  - do 2 f_equal. Z.to_euclidean_division_equations; lia.
Qed.

Lemma string_pad_length s :
  slen s <= 65532 -> slen (s ++ string_pad padding_char s) = align4 (slen s).
Proof.
  intros H. pose proof (slen_nonneg s). rewrite slen_app. unfold string_pad.
  unfold slen at 2. rewrite length_replicate.
  pose proof (align4_up (slen s)). lia.
Qed.

Lemma encode_string_fits a :
  body_ok F_string (a_body a) ->
  encodes a (fun mem pos len => encode_string_attr padding_char a mem pos len h).
Proof.
  intros Hok mem pos len Hp Hm Hl. unfold encode_string_attr.
  destruct (a_body a) as [| |s| | | | | |] eqn:Eb; try done. destruct Hok as [Hs Hf].
  unfold room, wire in *. rewrite Eb in *. cbn [body_wire] in *. unfold ATTR_HDR_LEN.
  pose proof (slen_nonneg s) as H0.
  assert (Ew : slen (be16 (attr_type a) ++ be16 (string_len h (attr_type a) s) ++ s ++ string_pad padding_char s)
             = align4 (slen s + 4)).
  { rewrite !slen_app, <- slen_app, string_pad_length, align4_add4 by lia.
    change (slen (be16 (attr_type a))) with 2. change (slen (be16 (string_len h (attr_type a) s))) with 2. lia. }
  pose proof (align4_up (slen s + 4)) as [Ha1 Ha2]; [lia|].
  rewrite Ew, (align4_id (align4 (slen s + 4))) in * by lia.
  rewrite (u32_id (slen s + 4)) by (unfold is_u32; lia).
  destruct (Z.ltb_spec len (align4 (slen s + 4))); [lia|].
  fold (string_len h (attr_type a) s). join_copies.
  rewrite string_pad_odd in * by done.
  destruct (negb (Z.land (slen s) 3 =? 0)).
  - join_copies. by rewrite <- !app_assoc.
  - cbn [mbind option_bind]. rewrite app_nil_r in *. by rewrite <- !app_assoc.
Qed.

Lemma encode_errcode_fits a :
  body_ok F_errcode (a_body a) -> encodes a (fun mem pos len => encode_errcode_attr a mem pos len).
Proof.
  intros Hok mem pos len Hp Hm Hl. unfold encode_errcode_attr.
  destruct (a_body a) as [| | | | | |code s| |] eqn:Eb; try done. destruct Hok as (Hc & Hs & Hf).
  unfold room, wire in *. rewrite Eb in *. cbn [body_wire] in *. unfold ATTR_HDR_LEN.
  pose proof (slen_nonneg s) as H0.
  assert (Ew : slen (be16 (attr_type a) ++ be16 (4 + slen s) ++ [0; 0; code / 100; code mod 100] ++ s)
             = 8 + slen s) by (rewrite !slen_app; small_len).
  rewrite Ew in *. change (4 + 4) with 8. rewrite (u32_id (8 + slen s)) by (unfold is_u32; lia).
  pose proof (align4_up (8 + slen s)) as [Ha1 Ha2]; [lia|].
  destruct (Z.ltb_spec len (8 + slen s)); [lia|].
  rewrite Z.quot_div_nonneg, Z.rem_mod_nonneg by lia.
  assert (E1 : u8 (code / 100) = code / 100)
    by (apply Z.mod_small; Z.to_euclidean_division_equations; lia).
  assert (E2 : u8 (code mod 100) = code mod 100)
    by (apply Z.mod_small; Z.to_euclidean_division_equations; lia).
  rewrite E1, E2. join_copies. by rewrite <- !app_assoc.
Qed.

Lemma encode_unknown_fits a :
  body_ok F_unknown (a_body a) -> encodes a (fun mem pos len => encode_unknown_attr a mem pos len).
Proof.
  intros Hok mem pos len Hp Hm Hl. unfold encode_unknown_attr.
  destruct (a_body a) as [| | | | | | |l|] eqn:Eb; try done. destruct Hok as (Hc & Hf).
  unfold room, wire in *. rewrite Eb in *. cbn [body_wire] in *. unfold ATTR_HDR_LEN.
  assert (Ew : slen (be16 (attr_type a) ++ be16 (2 * Z.of_nat (length l)) ++ (l ≫= be16))
             = 4 + 2 * Z.of_nat (length l)) by (rewrite !slen_app, be16_bind_length; small_len).
  rewrite Ew in *. rewrite Z.shiftl_mul_pow2 by lia. change (2 ^ 1) with 2.
  rewrite (Z.mul_comm _ 2). pose proof (align4_up (4 + 2 * Z.of_nat (length l))) as [Ha1 Ha2]; [lia|].
  destruct (Z.ltb_spec len (4 + 2 * Z.of_nat (length l))); [lia|].
  join_copies. rewrite (app_assoc (be16 (attr_type a))).
  set (hd := be16 (attr_type a) ++ be16 (2 * Z.of_nat (length l))).
  assert (E4 : pos + 4 = pos + slen hd) by reflexivity.
  rewrite <- (memcpy_seq mem pos (pos + 4) hd (l ≫= be16)) by (done || lia).
  unfold memcpy_at at 1 3. case_decide as E; [|done]. ored.
  rewrite put_types_copy; [done|]. rewrite !slen_app. unfold slen in *.
  rewrite length_take, length_drop. cbn [length be16 app] in *. lia.
Qed.

Lemma encode_binary_fits a :
  body_ok F_binary (a_body a) -> encodes a (fun mem pos len => encode_binary_attr a mem pos len).
Proof.
  intros Hok mem pos len Hp Hm Hl. unfold encode_binary_attr.
  destruct (a_body a) as [| | | | | | | |m s] eqn:Eb; try done. destruct Hok as (Hs & Hf).
  unfold room, wire in *. rewrite Eb in *. cbn [body_wire] in *. unfold ATTR_HDR_LEN.
  pose proof (slen_nonneg s) as H0.
  assert (Ew : slen (be16 (attr_type a) ++ be16 (slen s) ++ s) = slen s + 4)
    by (rewrite !slen_app; small_len).
  rewrite Ew in *. rewrite (u32_id (slen s + 4)) by (unfold is_u32; lia).
  destruct (Z.ltb_spec len (align4 (slen s + 4))); [lia|].
  join_copies. by rewrite <- !app_assoc.
Qed.

Lemma encode_attr_fits a f :
  length (m_tsx_id h) = 12%nat -> Forall is_byte (m_tsx_id h) -> body_ok f (a_body a) ->
  encodes a (fun mem pos len => encode_attr padding_char f a mem pos len h).
Proof.
  intros Ht Hb Hok. destruct f; cbn [encode_attr].
  - apply (encode_sockaddr_fits a F_sockaddr); auto.
  - apply (encode_sockaddr_fits a F_xored_sockaddr); auto.
  - intros mem pos len Hp Hm Hl. unfold encode_uint_attr.
    destruct (a_body a) eqn:Eb; try done. unfold room, wire in *. rewrite Eb in *. cbn [body_wire] in *.
    change (align4 _) with 8 in Hl |- *. destruct (Z.ltb_spec len 8); [lia|].
    join_copies. by rewrite <- !app_assoc.
  - intros mem pos len Hp Hm Hl. unfold encode_uint64_attr.
    destruct (a_body a) eqn:Eb; try done. unfold room, wire in *. rewrite Eb in *. cbn [body_wire] in *.
    change (align4 _) with 12 in Hl |- *. destruct (Z.ltb_spec len 12); [lia|].
    join_copies. by rewrite <- !app_assoc.
  - by apply encode_string_fits.
  - done.
  - by apply encode_errcode_fits.
  - by apply encode_unknown_fits.
  - by apply encode_binary_fits.
  - intros mem pos len Hp Hm Hl. unfold encode_empty_attr.
    destruct (a_body a) eqn:Eb; try done. unfold room, wire in *. rewrite Eb in *. cbn [body_wire] in *.
    change (align4 _) with 4 in Hl |- *. unfold ATTR_HDR_LEN. destruct (Z.ltb_spec len 4); [lia|].
    join_copies. done.
Qed.

Lemma encode_one_fits a :
  length (m_tsx_id h) = 12%nat -> Forall is_byte (m_tsx_id h) -> encodable a ->
  encodes a (fun mem pos len => encode_one padding_char a mem pos len h).
Proof.
  intros Ht Hb (_ & _ & _ & Hok). unfold encode_one.
  destruct (find_attr_desc (attr_type a)) as [d|].
  - by apply encode_attr_fits.
  - destruct Hok as [Hm Hok]. destruct (a_body a) as [| | | | | | | |m s] eqn:Eb; try done. subst m.
    change (negb (PJ_STUN_MAGIC =? PJ_STUN_MAGIC)) with false. cbv iota.
    apply encode_binary_fits. by rewrite Eb.
Qed.
End attribute.

(** ** The attributes, one after the other *)

(** The bytes of a value. *)
Definition body_length (b : attr_body) : Z :=
  match b with
  | A_sockaddr _ (sock_in _ _) => 8
  | A_sockaddr _ (sock_in6 _ _) => 20
  | A_sockaddr _ sock_other | A_empty => 0
  | A_string s => align4 (slen s)
  | A_uint _ => 4
  | A_uint64 _ _ => 8
  | A_msgint d => slen d
  | A_errcode _ s => 4 + slen s
  | A_unknown l => 2 * Z.of_nat (length l)
  | A_binary _ s => slen s
  end.

Lemma encodable_body a : encodable a -> exists f, body_ok f (a_body a).
Proof.
  intros (_ & _ & _ & Hok). destruct (find_attr_desc _) as [d|]; [by eexists|].
  destruct Hok as [_ Hok]. by eexists.
Qed.

Lemma body_length_bounds a : encodable a -> 0 <= body_length (a_body a) <= 65536.
Proof.
  intros Ha. destruct (encodable_body a Ha) as [f Hf].
  destruct f, (a_body a) as [x [port ad|port ad|]| |s|v|hi lo|d|code s|l|m s]; try done;
    cbn [body_ok body_length] in *; try lia;
    pose proof (slen_nonneg s); pose proof (align4_up (slen s)); lia.
Qed.

Section message.
Context (padding_char : Z) (h : pj_stun_msg_hdr).
Context (Htsx : length (m_tsx_id h) = 12%nat) (Htb : Forall is_byte (m_tsx_id h)).

(** An attribute in a buffer that held [stale]: the padding of those that do
    not write theirs is what was there. *)
Definition placed (a : pj_stun_attr) (stale : list Z) : list Z :=
  let w := wire padding_char h a in
  w ++ take (Z.to_nat (room padding_char h a) - length w) (drop (length w) stale).

Fixpoint stun_body (l : list pj_stun_attr) (stale : list Z) : list Z :=
  match l with
  | [] => []
  | a :: l => placed a stale ++ stun_body l (drop (Z.to_nat (room padding_char h a)) stale)
  end.

Definition body_room (l : list pj_stun_attr) : Z :=
  foldr (fun a n => room padding_char h a + n) 0 l.

Lemma wire_length a : encodable a -> slen (wire padding_char h a) = 4 + body_length (a_body a).
Proof.
  intros Ha. destruct (encodable_body a Ha) as [f Hf]. unfold wire. rewrite slen_app.
  change (slen (be16 (attr_type a))) with 2.
  destruct f, (a_body a) as [x [port ad|port ad|]| |s|v|hi lo|d|code s|l|m s]; try done;
    cbn [body_ok body_wire body_length] in *;
    try (pose proof (xor_sockaddr_ok h F_sockaddr x (sock_in port ad) Htsx Htb Hf (or_introl eq_refl)) as Hx;
         destruct x; cbn in Hx |- *);
    try (pose proof (xor_sockaddr_ok h F_sockaddr x (sock_in6 port ad) Htsx Htb Hf (or_introl eq_refl)) as Hx;
         destruct x; cbn in Hx |- *);
    try (destruct Hx as (_ & Hx & _)); try (destruct Hf as (_ & Hf & _));
    try (pose proof (string_pad_length padding_char s (proj1 Hf)));
    rewrite ?slen_app in *; rewrite ?be16_bind_length; unfold slen in *; cbn [length be16 be32 app] in *; lia.
Qed.

Lemma room_bounds a :
  encodable a ->
  4 <= slen (wire padding_char h a) <= room padding_char h a /\
  room padding_char h a <= 65543 /\ room padding_char h a mod 4 = 0.
Proof.
  intros H. pose proof (wire_length a H). pose proof (body_length_bounds a H). unfold room.
  pose proof (align4_up (slen (wire padding_char h a))). lia.
Qed.

Lemma body_room_nonneg l : Forall encodable l -> 0 <= body_room l /\ body_room l mod 4 = 0.
Proof.
  induction 1 as [|a l Ha _ [IH IH4]]; [done|]. pose proof (room_bounds a Ha) as (H1 & H2 & H3).
  cbn [body_room foldr]. fold (body_room l). split; [lia|]. by rewrite Z.add_mod, IH4, H3.
Qed.

Lemma stun_body_length l : forall stale,
  Forall encodable l -> body_room l <= slen stale -> slen (stun_body l stale) = body_room l.
Proof.
  induction l as [|a l IH]; intros stale H Hs; [done|]. inversion H as [|? ? Ha Hl]; subst.
  cbn [stun_body body_room foldr] in *. fold (body_room l) in *.
  pose proof (room_bounds a Ha). pose proof (body_room_nonneg l Hl).
  rewrite slen_app, IH; [|done|unfold slen in *; rewrite length_drop; lia].
  unfold placed, slen in *. rewrite length_app, length_take, length_drop. lia.
Qed.

(** The first loop writes the attributes up to MESSAGE-INTEGRITY or
    FINGERPRINT when the buffer has room for them. *)
Definition last_attrs (l : list pj_stun_attr) : Prop :=
  match l with
  | [] => True
  | a :: _ => attr_type a = PJ_STUN_ATTR_MESSAGE_INTEGRITY \/ attr_type a = PJ_STUN_ATTR_FINGERPRINT
  end.

Lemma placed_length a stale :
  encodable a -> room padding_char h a <= slen stale -> slen (placed a stale) = room padding_char h a.
Proof.
  intros Ha Hs. pose proof (room_bounds a Ha). unfold placed, slen in *.
  rewrite length_app, length_take, length_drop. lia.
Qed.

(** One step of the loop, when there is room. *)
Lemma encode_attrs_step a l pre stale size :
  encodable a -> room padding_char h a <= slen stale -> room padding_char h a <= size < 4294967296 ->
  let r := room padding_char h a in
  encode_attrs padding_char (a :: l) (pre ++ stale) (slen pre) size h =
  encode_attrs padding_char l ((pre ++ placed a stale) ++ drop (Z.to_nat r) stale)
    (slen (pre ++ placed a stale)) (size - r) h.
Proof.
  intros Ha Hs Hsz r. pose proof (room_bounds a Ha) as Hb. cbn [encode_attrs].
  pose proof Ha as (_ & Hmi & Hfp & _). apply Z.eqb_neq in Hmi, Hfp. rewrite Hmi, Hfp. cbn [orb].
  rewrite slen_app, placed_length by done. unfold placed.
  set (w := wire padding_char h a) in *. fold r in Hb, Hs, Hsz |- *.
  rewrite (u32_id size) by (unfold is_u32; lia). pose proof (slen_nonneg pre) as Hpre.
  rewrite (encode_one_fits padding_char h a Htsx Htb Ha (pre ++ stale));
    [|done|rewrite slen_app; fold w; lia|fold r; lia].
  fold w. fold r. rewrite memcpy_fits by (rewrite ?slen_app; lia). ored. cbn [negb Z.eqb PJ_SUCCESS].
  assert (Hp : Z.to_nat (slen pre) = length pre) by (unfold slen; lia).
  rewrite Hp, take_app_length, drop_app_add. unfold u64. rewrite Z.mod_small by lia.
  rewrite <- !app_assoc. do 4 f_equal.
  rewrite <- (take_drop (Z.to_nat r - length w) (drop (length w) stale)) at 1. f_equal.
  rewrite drop_drop. f_equal. unfold slen in *. lia.
Qed.

Lemma encode_attrs_fits l rest : forall pre stale size,
  Forall encodable l -> last_attrs rest ->
  body_room l <= slen stale -> body_room l <= size < 4294967296 ->
  encode_attrs padding_char (l ++ rest) (pre ++ stale) (slen pre) size h =
    Some (PJ_SUCCESS, (pre ++ stun_body l stale) ++ drop (Z.to_nat (body_room l)) stale,
          slen pre + body_room l, size - body_room l, rest).
Proof.
  induction l as [|a l IH]; intros pre stale size H Hr Hs Hsz.
  - cbn [app body_room foldr stun_body Z.to_nat drop]. rewrite app_nil_r, Z.add_0_r, Z.sub_0_r.
    destruct rest as [|a rest]; [done|]. cbn [encode_attrs].
    by destruct Hr as [-> | ->].
  - inversion H as [|? ? Ha Hl]; subst. cbn [stun_body body_room foldr] in *.
    fold (body_room l) in *.
    pose proof (room_bounds a Ha) as Hb. pose proof (body_room_nonneg l Hl) as H0.
    change ((a :: l) ++ rest) with (a :: (l ++ rest)). rewrite encode_attrs_step by (done || lia).
    rewrite IH; [|done|done|unfold slen in *; rewrite length_drop; lia|lia].
    rewrite drop_drop, slen_app, placed_length, <- Z2Nat.inj_add by (done || lia).
    by rewrite Z.add_assoc, Z.sub_add_distr, <- !app_assoc.
Qed.

(** ** Too little room *)

Lemma encode_sockaddr_short a mem pos len :
  body_ok F_sockaddr (a_body a) -> 0 <= pos -> pos + 2 <= slen mem ->
  len < align4 (4 + body_length (a_body a)) ->
  exists mem' printed, encode_sockaddr_attr a mem pos len h = Some (PJ_ETOOSMALL, mem', printed) /\
    same_from (pos + 2) mem mem'.
Proof.
  intros Hf Hp Hm Hl. unfold encode_sockaddr_attr.
  destruct (a_body a) as [x addr| | | | | | | |]; try done. rewrite put16_copy.
  destruct (same_from_copy (pos + 2) mem pos (be16 (attr_type a))) as (m1 & -> & Hs); [lia|done|lia|]. ored.
  destruct addr as [port ad|port ad|]; [| |done]; destruct x; cbn [xor_sockaddr body_length] in *;
    try change (align4 (4 + 8)) with 12 in Hl; try change (align4 (4 + 20)) with 24 in Hl;
    rewrite (proj2 (Z.ltb_lt len _)) by (unfold ATTR_HDR_LEN, STUN_GENERIC_IPV4_ADDR_LEN, STUN_GENERIC_IPV6_ADDR_LEN; lia);
    by eexists _, _.
Qed.

Lemma encode_one_short a mem pos len :
  encodable a -> whole a -> 0 <= pos -> pos + 2 <= slen mem -> len < room padding_char h a ->
  exists mem' printed, encode_one padding_char a mem pos len h = Some (PJ_ETOOSMALL, mem', printed) /\
    same_from (pos + 2) mem mem'.
Proof.
  intros Ha Hw Hp Hm Hl. unfold room in Hl. rewrite wire_length in Hl by done.
  pose proof (body_length_bounds a Ha) as Hbl. pose proof (align4_up (4 + body_length (a_body a))) as [Hu _]; [lia|].
  assert (Hf : (exists f, encode_one padding_char a mem pos len h = encode_attr padding_char f a mem pos len h /\
    body_ok f (a_body a))).
  { destruct Ha as (_ & _ & _ & Hok). unfold encode_one. destruct (find_attr_desc _) as [d|]; [by eexists|].
    exists F_binary. destruct (a_body a) as [| | | | | | | |m s]; try tauto. destruct Hok as [-> Hok]. done. }
  destruct Hf as (f & -> & Hf). unfold whole in Hw.
  destruct f; cbn [encode_attr]; unfold encode_uint_attr, encode_uint64_attr,
    encode_string_attr, encode_errcode_attr, encode_unknown_attr, encode_binary_attr, encode_empty_attr.
  1, 2: by apply encode_sockaddr_short.
  all: destruct (a_body a) as [| |s|v|hi lo|d|code s|l|m s]; try done; cbn [body_length body_ok] in *; unfold ATTR_HDR_LEN.
  all: try (pose proof (slen_nonneg s) as H0).
  - change (align4 (4 + 4)) with 8 in Hl. rewrite (proj2 (Z.ltb_lt len 8)) by lia. by eexists _, _.
  - change (align4 (4 + 8)) with 12 in Hl. rewrite (proj2 (Z.ltb_lt len 12)) by lia. by eexists _, _.
  - rewrite u32_id by (unfold is_u32; lia). rewrite align4_add4 by lia.
    pose proof (align4_up (slen s)) as [H1 H2]; [lia|].
    rewrite Z.add_comm, align4_add4, (align4_id (align4 (slen s))) in Hl by lia.
    rewrite (proj2 (Z.ltb_lt len _)) by lia. by eexists _, _.
  - rewrite align4_id in Hl by (lia || (Z.to_euclidean_division_equations; lia)).
    rewrite u32_id by (unfold is_u32; lia). rewrite (proj2 (Z.ltb_lt len _)) by lia. by eexists _, _.
  - rewrite align4_id in Hl by (lia || (Z.to_euclidean_division_equations; lia)).
    rewrite Z.shiftl_mul_pow2 by lia. rewrite (proj2 (Z.ltb_lt len _)) by lia. by eexists _, _.
  - rewrite u32_id by (unfold is_u32; lia). rewrite (Z.add_comm (slen s)).
    rewrite (proj2 (Z.ltb_lt len _)) by lia. by eexists _, _.
  - change (align4 (4 + 0)) with 4 in Hl. rewrite (proj2 (Z.ltb_lt len 4)) by lia. by eexists _, _.
Qed.

Lemma encode_attrs_short l rest : forall pre stale size,
  Forall encodable l -> Forall whole l -> 0 <= size < 4294967296 -> size + 2 <= slen stale ->
  size < body_room l ->
  exists mem' pos' size' rest',
    encode_attrs padding_char (l ++ rest) (pre ++ stale) (slen pre) size h =
      Some (PJ_ETOOSMALL, mem', pos', size', rest') /\
    same_from (slen pre + size + 2) (pre ++ stale) mem'.
Proof.
  induction l as [|a l IH]; intros pre stale size H Hw Hsz Hs Hlt; [cbn in Hlt; lia|].
  inversion H as [|? ? Ha Hl]; subst. inversion Hw as [|? ? Hwa Hwl]; subst.
  cbn [body_room foldr] in Hlt. fold (body_room l) in Hlt. pose proof (slen_nonneg pre) as Hp.
  change ((a :: l) ++ rest) with (a :: (l ++ rest)). pose proof (room_bounds a Ha) as Hb.
  destruct (Z.leb_spec (room padding_char h a) size) as [Hr|Hr].
  - rewrite encode_attrs_step by (done || lia).
    set (r := room padding_char h a) in *.
    destruct (IH (pre ++ placed a stale) (drop (Z.to_nat r) stale) (size - r) Hl Hwl) as (m' & p' & s' & r' & -> & Hm);
      [lia|unfold slen in *; rewrite length_drop; lia|lia|].
    eexists _, _, _, _. split; [done|].
    assert (Hpl : slen (placed a stale) = r) by (apply placed_length; [done|unfold r in *; lia]).
    rewrite slen_app, Hpl in Hm. replace (slen pre + r + (size - r) + 2) with (slen pre + size + 2) in Hm by lia.
    eapply same_from_trans; [|exact Hm]. apply (same_from_mono (slen pre + r)); [lia|].
    split; [rewrite !length_app, length_drop; unfold slen in *; lia|].
    rewrite drop_app_ge, drop_app_ge by (rewrite ?length_app; unfold slen in *; lia).
    rewrite drop_drop. f_equal. rewrite length_app. unfold slen in *. lia.
  - cbn [encode_attrs]. pose proof Ha as (_ & Hmi & Hfp & _). apply Z.eqb_neq in Hmi, Hfp.
    rewrite Hmi, Hfp, u32_id by (unfold is_u32; lia). cbn [orb].
    destruct (encode_one_short a (pre ++ stale) (slen pre) size Ha Hwa) as (m' & pr & -> & Hm);
      [lia|rewrite slen_app; lia|done|].
    ored. cbn. eexists _, _, _, _. split; [reflexivity|]. apply (same_from_mono (slen pre + 2)); [lia|done].
Qed.
End message.

(** ** The whole packet *)

Definition sha1_mem (c : pj_sha1_context) : Prop :=
  length (sha_buffer c) = 64%nat /\ Forall is_byte (sha_buffer c).

(** HMAC-SHA1 of RFC 2104. *)
Definition hmac_sha1_of (key text : list Z) : list Z := HMAC (D := sha1_digest_inst) key text.

Lemma hmac_sha1_of_length key text : length (hmac_sha1_of key text) = 20%nat.
Proof. apply (dg_hash_size (Digest := sha1_digest_inst)). Qed.

Lemma hmac_sha1_of_bytes key text : Forall is_byte (hmac_sha1_of key text).
Proof. apply (dg_hash_bytes (Digest := sha1_digest_inst)). Qed.

Lemma pj_hmac_sha1_of tctx hctx text key :
  sha1_mem tctx -> sha1_mem (hm_context hctx) ->
  Forall is_byte key -> slen key < 536870912 -> Forall is_byte text -> slen text < 536870912 ->
  pj_hmac_sha1 tctx hctx text key = Some (hmac_sha1_of key text).
Proof.
  intros Ht Hh Hk Hkl Hx Hxl.
  assert (Hf : Forall (fun d => Forall is_byte d /\ slen d < 536870912) [key; text])
    by (repeat constructor; done).
  pose proof (hmac_chunks_spec tctx hctx key [text] Ht Hh Hf) as E.
  cbn [concat] in E. rewrite app_nil_r in E. exact E.
Qed.

Section packet.
Context (h : pj_stun_msg_hdr).

Definition stun_hdr_bytes (len : Z) : list Z :=
  be16 (m_type h) ++ be16 len ++ be32 (m_magic h) ++ m_tsx_id h.

(** The digest is of the packet so far, with the length of one that ends with
    MESSAGE-INTEGRITY. *)
Definition mi_digest (key body : list Z) : list Z :=
  hmac_sha1_of key (stun_hdr_bytes (slen body + 24) ++ body).

Definition mi_bytes (key body : list Z) : list Z :=
  be16 PJ_STUN_ATTR_MESSAGE_INTEGRITY ++ be16 20 ++ mi_digest key body.

Definition fp_value (body : list Z) : Z :=
  Z.lxor (Bitwise.pj_crc32_calc_bits (stun_hdr_bytes (slen body + 8) ++ body)) STUN_XOR_FINGERPRINT.

Definition fp_bytes (body : list Z) : list Z :=
  be16 PJ_STUN_ATTR_FINGERPRINT ++ be16 4 ++ be32 (fp_value body).

Definition with_mi (mi : option (list Z)) (body : list Z) : list Z :=
  match mi with Some key => body ++ mi_bytes key body | None => body end.

Definition with_fp (fp : bool) (body : list Z) : list Z :=
  if fp then body ++ fp_bytes body else body.

Definition stun_packet (mi : option (list Z)) (fp : bool) (body : list Z) : list Z :=
  let b := with_fp fp (with_mi mi body) in
  stun_hdr_bytes (slen b) ++ b.
End packet.

(** The attributes of a message: those of the application, and the two that
    the encoder fills in. *)
Definition mi_attr (digest : list Z) : pj_stun_attr :=
  mk_attr (mk_attr_hdr PJ_STUN_ATTR_MESSAGE_INTEGRITY 20) (A_msgint digest).
Definition fp_attr (v : Z) : pj_stun_attr :=
  mk_attr (mk_attr_hdr PJ_STUN_ATTR_FINGERPRINT 4) (A_uint v).
Definition signed (l : list pj_stun_attr) (mi : option (list Z)) (fp : option Z) : list pj_stun_attr :=
  l ++ from_option (fun d => [mi_attr d]) [] mi ++ from_option (fun v => [fp_attr v]) [] fp.

(** What is added to the attributes. *)
Definition fp_room {A} (fp : option A) : Z := if fp is Some _ then 8 else 0.
Definition tail_room {A B} (mi : option A) (fp : option B) : Z :=
  (if mi is Some _ then 24 else 0) + fp_room fp.

Lemma tail_room_nonneg {A B} (mi : option A) (fp : option B) : 0 <= tail_room mi fp.
Proof. unfold tail_room. destruct mi, fp; cbn; lia. Qed.

Lemma memcpy_after a d c :
  slen d <= slen c -> memcpy_at (a ++ c) (slen a) d = Some ((a ++ d) ++ drop (length d) c).
Proof.
  intros H. pose proof (slen_nonneg a). rewrite memcpy_fits by (rewrite ?slen_app; lia).
  assert (Hp : Z.to_nat (slen a) = length a) by (unfold slen; lia).
  rewrite Hp, take_app_length, drop_app_add. by rewrite <- app_assoc.
Qed.

Section tail.
Context (h : pj_stun_msg_hdr) (Htsx : length (m_tsx_id h) = 12%nat) (Htb : Forall is_byte (m_tsx_id h)).

Lemma stun_hdr_length len : slen (stun_hdr_bytes h len) = 20.
Proof. unfold stun_hdr_bytes. rewrite !slen_app. unfold slen. rewrite Htsx. done. Qed.

Lemma hdr_bytes_bytes len : Forall is_byte (stun_hdr_bytes h len).
Proof. unfold stun_hdr_bytes. rewrite !Forall_app. auto using be16_bytes, be32_bytes. Qed.

(** Reading and writing the length of the message. *)
Lemma hdr_put len len' c :
  put16 (stun_hdr_bytes h len ++ c) 2 len' = Some (stun_hdr_bytes h len' ++ c).
Proof.
  rewrite put16_copy. unfold stun_hdr_bytes. rewrite <- !app_assoc.
  exact (memcpy_at_app (be16 (m_type h)) (be16 len) _ (be16 len') eq_refl).
Qed.

Lemma hdr_get len c : is_u16 len -> rd16 (stun_hdr_bytes h len ++ c) 2 = Some len.
Proof.
  intros H. unfold stun_hdr_bytes. rewrite <- !app_assoc. exact (rd16_at (be16 (m_type h)) len _ H).
Qed.

Context (crc_addr : Z) (tctx : pj_sha1_context) (hctx : pj_hmac_sha1_context).
Context (Htc : sha1_mem tctx) (Hhc : sha1_mem (hm_context hctx)).

Lemma mi_bytes_length key body : slen (mi_bytes h key body) = 24.
Proof. unfold mi_bytes. rewrite !slen_app. unfold slen, mi_digest. by rewrite hmac_sha1_of_length. Qed.

Lemma fp_bytes_length body : slen (fp_bytes h body) = 8.
Proof. done. Qed.

Lemma encode_msgint_fits msg i d0 key body stale size :
  msg_attr msg !! i = Some (mi_attr d0) ->
  Forall is_byte key -> slen key < 536870912 -> Forall is_byte body -> slen body <= 65511 ->
  24 <= slen stale -> 24 <= size < 4294967296 ->
  encode_msgint tctx hctx msg i key (stun_hdr_bytes h (slen body + 24) ++ body ++ stale)
      (20 + slen body) size =
    Some (PJ_SUCCESS, set_body msg i (A_msgint (mi_digest h key body)),
          stun_hdr_bytes h (slen body + 24) ++ with_mi h (Some key) body ++ drop 24 stale,
          20 + slen (with_mi h (Some key) body), size - 24).
Proof.
  intros Hi Hk Hkl Hb Hbl Hs Hsz. unfold encode_msgint. pose proof (slen_nonneg body) as H0.
  set (hd := stun_hdr_bytes h (slen body + 24)).
  assert (Hpos : 20 + slen body = slen (hd ++ body)) by (rewrite slen_app; unfold hd; by rewrite stun_hdr_length).
  rewrite Hpos, app_assoc, rdn_head. ored.
  rewrite pj_hmac_sha1_of; [|done|done|done|done| |rewrite slen_app; unfold hd; rewrite stun_hdr_length; lia].
  2: { apply Forall_app. split; [by apply hdr_bytes_bytes|done]. }
  ored. rewrite Hi. ored. cbn [a_body mi_attr]. unfold encode_msgint_attr. cbn [a_body a_hdr attr_type mi_attr].
  rewrite (u32_id size) by (unfold is_u32; lia). destruct (Z.ltb_spec size 24); [lia|].
  pose proof (slen_nonneg (hd ++ body)) as Hn.
  change (hmac_sha1_of key (hd ++ body)) with (mi_digest h key body). unfold attr_type. cbn [a_hdr a_type a_length].
  join_copies. rewrite <- (app_assoc (be16 _)). fold (mi_bytes h key body).
  rewrite memcpy_after by (by rewrite mi_bytes_length). ored. cbn [negb Z.eqb PJ_SUCCESS].
  unfold u64. rewrite Z.mod_small by lia. unfold with_mi. rewrite (slen_app body), mi_bytes_length.
  assert (Hl : length (mi_bytes h key body) = 24%nat) by (pose proof (mi_bytes_length key body); unfold slen in *; lia).
  by rewrite Hl, <- !app_assoc, <- Hpos, Z.add_assoc.
Qed.

Lemma encode_fingerprint_fits msg i v0 body stale size :
  msg_attr msg !! i = Some (fp_attr v0) ->
  Forall is_byte body -> slen body <= 65527 ->
  8 <= slen stale -> 8 <= size < 4294967296 ->
  encode_fingerprint crc_addr msg i (stun_hdr_bytes h (slen body) ++ body ++ stale)
      (20 + slen body) size =
    Some (PJ_SUCCESS, set_body msg i (A_uint (fp_value h body)),
          stun_hdr_bytes h (slen body + 8) ++ with_fp h true body ++ drop 8 stale,
          20 + slen (with_fp h true body), size - 8).
Proof.
  intros Hi Hb Hbl Hs Hsz. unfold encode_fingerprint. pose proof (slen_nonneg body) as H0.
  rewrite hdr_get by (unfold is_u16; lia). ored. rewrite hdr_put. ored.
  set (hd := stun_hdr_bytes h (slen body + 8)).
  assert (Hpos : 20 + slen body = slen (hd ++ body)) by (rewrite slen_app; unfold hd; by rewrite stun_hdr_length).
  rewrite Hpos, app_assoc, rdn_head. ored.
  rewrite crc32_calc_ref; [|apply Forall_app; split; [by apply hdr_bytes_bytes|done]]. ored.
  rewrite Hi. ored. cbn [a_body fp_attr]. unfold encode_uint_attr. cbn [a_body].
  rewrite (u32_id size) by (unfold is_u32; lia). destruct (Z.ltb_spec size 8); [lia|].
  pose proof (slen_nonneg (hd ++ body)) as Hn.
  change (Z.lxor (Bitwise.pj_crc32_calc_bits (hd ++ body)) STUN_XOR_FINGERPRINT) with (fp_value h body).
  unfold attr_type. cbn [a_hdr a_type a_length fp_attr].
  join_copies. rewrite <- (app_assoc (be16 _)).
  change (be16 _ ++ be16 _ ++ be32 _) with (fp_bytes h body).
  rewrite memcpy_after by (by rewrite fp_bytes_length). ored. cbn [negb Z.eqb PJ_SUCCESS].
  unfold u64. rewrite Z.mod_small by lia. unfold with_fp. rewrite (slen_app body), fp_bytes_length.
  change (length (fp_bytes h body)) with 8%nat.
  by rewrite <- !app_assoc, <- Hpos, Z.add_assoc.
Qed.

Lemma encode_msgint_short msg i d0 key body stale len size :
  msg_attr msg !! i = Some (mi_attr d0) ->
  Forall is_byte key -> slen key < 536870912 -> Forall is_byte body -> slen body <= 65535 ->
  0 <= size < 24 ->
  exists m, encode_msgint tctx hctx msg i key (stun_hdr_bytes h len ++ body ++ stale) (20 + slen body) size =
    Some (PJ_ETOOSMALL, m, stun_hdr_bytes h len ++ body ++ stale, 20 + slen body, size).
Proof.
  intros Hi Hk Hkl Hb Hbl Hsz. unfold encode_msgint.
  assert (Hpos : 20 + slen body = slen (stun_hdr_bytes h len ++ body)) by (by rewrite slen_app, stun_hdr_length).
  rewrite Hpos, app_assoc, rdn_head. ored.
  rewrite pj_hmac_sha1_of; [|done|done|done|done| |rewrite slen_app, stun_hdr_length; lia].
  2: { apply Forall_app. split; [by apply hdr_bytes_bytes|done]. }
  ored. rewrite Hi. ored. cbn [a_body mi_attr]. unfold encode_msgint_attr. cbn [a_body].
  rewrite (u32_id size) by (unfold is_u32; lia). rewrite (proj2 (Z.ltb_lt size 24)) by lia. by eexists.
Qed.

Lemma encode_fingerprint_short msg i v0 body stale len size :
  msg_attr msg !! i = Some (fp_attr v0) -> is_u16 len ->
  Forall is_byte body -> 0 <= size < 8 ->
  exists m, encode_fingerprint crc_addr msg i (stun_hdr_bytes h len ++ body ++ stale) (20 + slen body) size =
    Some (PJ_ETOOSMALL, m, stun_hdr_bytes h (len + 8) ++ body ++ stale, 20 + slen body, size).
Proof.
  intros Hi Hlen Hb Hsz. unfold encode_fingerprint. rewrite hdr_get by done. ored. rewrite hdr_put. ored.
  assert (Hpos : 20 + slen body = slen (stun_hdr_bytes h (len + 8) ++ body)) by (by rewrite slen_app, stun_hdr_length).
  rewrite Hpos, app_assoc, rdn_head. ored.
  rewrite crc32_calc_ref; [|apply Forall_app; split; [by apply hdr_bytes_bytes|done]]. ored.
  rewrite Hi. ored. cbn [a_body fp_attr]. unfold encode_uint_attr. cbn [a_body].
  rewrite (u32_id size) by (unfold is_u32; lia). rewrite (proj2 (Z.ltb_lt size 8)) by lia. by eexists.
Qed.

(** The key the message is signed with. *)
Definition sign_key (mi key : option (list Z)) : option (list Z) := mi ≫= fun _ => key.

Definition key_ok (key : option (list Z)) : Prop :=
  forall k, key = Some k -> Forall is_byte k /\ slen k < 536870912.

(** The message after its encoding. *)
Definition encoded_msg (l : list pj_stun_attr) (key : option (list Z)) (fp : option Z)
    (body : list Z) : pj_stun_msg :=
  let b := with_mi h key body in
  mk_stun_msg (h <| m_length := slen (with_fp h (bool_decide (is_Some fp)) b) |>)
    (signed l ((fun k => mi_digest h k body) <$> key) ((fun _ => fp_value h b) <$> fp)).

Lemma with_mi_bytes key body : Forall is_byte body -> Forall is_byte (with_mi h key body).
Proof.
  intros H. destruct key as [k|]; [|done]. apply Forall_app; split; [done|].
  unfold mi_bytes, mi_digest. rewrite !Forall_app. auto using be16_bytes, hmac_sha1_of_bytes.
Qed.

Lemma with_mi_length key body : slen (with_mi h key body) = slen body + if key is Some _ then 24 else 0.
Proof. destruct key; cbn [with_mi]; [|lia]. by rewrite (slen_app body), mi_bytes_length. Qed.

Lemma with_fp_length (fp : option Z) body :
  slen (with_fp h (bool_decide (is_Some fp)) body) = slen body + fp_room fp.
Proof. destruct fp; [|cbn; lia]. exact (slen_app body _). Qed.

Lemma set_body_at (l : list pj_stun_attr) r a b m :
  msg_attr m = l ++ a :: r ->
  set_body m (length l) b = m <| msg_attr := l ++ mk_attr (a_hdr a) b :: r |>.
Proof.
  intros E. unfold set_body. rewrite E, <- (Nat.add_0_r (length l)). by rewrite alter_app_r.
Qed.

Lemma msgint_place_end msg i fp :
  attr_count msg <= i -> i <> u32 (attr_count msg - 2) -> msgint_place msg i fp = Some (inr fp).
Proof.
  intros H1 H2. unfold msgint_place. destruct (Z.ltb_spec i (attr_count msg - 2)); [lia|].
  rewrite andb_false_r. by destruct (Z.eqb_spec i (u32 (attr_count msg - 2))).
Qed.

(** The end of the encoder, from FINGERPRINT. *)
Lemma encode_fp_fits (l : list pj_stun_attr) fp m body stale size :
  msg_attr m = l ++ from_option (fun v => [fp_attr v]) [] fp -> msg_hdr m = h ->
  Forall is_byte body -> slen body + fp_room fp <= 65535 ->
  fp_room fp <= slen stale -> fp_room fp <= size < 4294967296 ->
  let b := with_fp h (bool_decide (is_Some fp)) body in
  exists size',
  match (fun _ => length l) <$> fp with
  | None => Some (PJ_SUCCESS, m, stun_hdr_bytes h (slen body) ++ body ++ stale, 20 + slen body, size)
  | Some k => encode_fingerprint crc_addr m k (stun_hdr_bytes h (slen body) ++ body ++ stale) (20 + slen body) size
  end = Some (PJ_SUCCESS,
    m <| msg_attr := l ++ from_option (fun v => [fp_attr v]) [] ((fun _ => fp_value h body) <$> fp) |>,
    (stun_hdr_bytes h (slen b) ++ b) ++ drop (Z.to_nat (fp_room fp)) stale,
    20 + slen b, size').
Proof.
  intros Em Eh Hb Hbl Hs Hsz. unfold fp_room in *.
  destruct fp as [v|]; cbn [fmap option_fmap option_map from_option] in *.
  - change (bool_decide (is_Some (Some v))) with true. cbv zeta. rewrite (encode_fingerprint_fits m (length l) v); [|by rewrite Em, list_lookup_middle|done|lia..].
    rewrite (set_body_at l [] _ _ _ Em), <- !app_assoc.
    replace (slen (with_fp h true body)) with (slen body + 8); [eexists; reflexivity|].
    cbn [with_fp]. by rewrite slen_app, fp_bytes_length.
  - destruct m as [hm am]. cbn in *. subst. rewrite <- !app_assoc. eexists. reflexivity.
Qed.

Lemma encode_tail_fits l mi fp key msg i body stale size :
  msg = mk_stun_msg h (signed l mi fp) -> (is_Some mi -> is_Some key) -> key_ok (sign_key mi key) ->
  attr_count msg <= i -> i <> u32 (attr_count msg - 2) ->
  Forall is_byte body -> slen body + tail_room mi fp <= 65535 ->
  tail_room mi fp <= slen stale -> tail_room mi fp <= size < 4294967296 ->
  encode_tail crc_addr tctx hctx msg i ((fun _ => length l) <$> mi)
      ((fun _ => length (l ++ from_option (fun d => [mi_attr d]) [] mi)) <$> fp) key
      (stun_hdr_bytes h 0 ++ body ++ stale) (20 + slen body) size =
    Some (mk_enc_result PJ_SUCCESS
            (stun_packet h (sign_key mi key) (bool_decide (is_Some fp)) body ++
             drop (Z.to_nat (tail_room mi fp)) stale)
            (encoded_msg l (sign_key mi key) fp body)
            (20 + slen body + tail_room mi fp)).
Proof.
  intros Em Hkey Hk Hi Hi2 Hb Hbl Hs Hsz. unfold encode_tail. pose proof (slen_nonneg body) as H0.
  assert (Ht : 0 <= fp_room fp) by (destruct fp; done).
  destruct mi as [d|]; cbn [fmap option_fmap option_map from_option].
  - destruct Hkey as [k ->]; [done|]. destruct (Hk k eq_refl) as [Hkb Hkl].
    assert (Et : tail_room (Some d) fp = 24 + fp_room fp) by done. rewrite Et in *.
    rewrite (u16_id (20 + slen body - 20 + 24)) by (unfold is_u16; lia). rewrite hdr_put. ored.
    rewrite msgint_place_end by done. ored.
    replace (20 + slen body - 20 + 24) with (slen body + 24) by lia.
    rewrite (encode_msgint_fits msg (length l) d); [|by subst msg; apply (list_lookup_middle l _ (mi_attr d))|done|done|done|lia..].
    ored. cbn [negb Z.eqb PJ_SUCCESS].
    set (b1 := with_mi h (Some k) body). assert (Eb1 : slen body + 24 = slen b1)
      by (unfold b1; by rewrite with_mi_length).
    rewrite Eb1, (set_body_at l (from_option (fun v => [fp_attr v]) [] fp) (mi_attr d)) by (by rewrite Em).
    destruct (encode_fp_fits (l ++ [mi_attr (mi_digest h k body)]) fp
      (mk_stun_msg h (l ++ mi_attr (mi_digest h k body) :: from_option (fun v => [fp_attr v]) [] fp))
      b1 (drop 24 stale) (size - 24)) as [size' E];
      [cbn; by rewrite <- app_assoc|done|by apply with_mi_bytes|lia|unfold slen in *; rewrite length_drop; lia|lia|].
    assert (El : length (l ++ [mi_attr d]) = length (l ++ [mi_attr (mi_digest h k body)]))
      by by rewrite !length_app.
    rewrite El. subst msg. match type of E with ?a = _ =>
      match goal with |- (?b ≫= _) = _ => change b with a end end. rewrite E.
    ored. cbn [negb Z.eqb PJ_SUCCESS]. unfold encoded_msg, stun_packet, signed.
    cbn [sign_key mbind option_bind fmap option_fmap option_map from_option]. fold b1.
    rewrite with_fp_length, drop_drop, u16_id by (unfold is_u16; lia).
    replace (24 + Z.to_nat (fp_room fp))%nat with (Z.to_nat (24 + fp_room fp)) by lia.
    rewrite <- (app_assoc l). replace (20 + (slen b1 + fp_room fp) - 20) with (slen b1 + fp_room fp) by lia.
    replace (20 + (slen b1 + fp_room fp)) with (20 + slen body + (24 + fp_room fp)) by lia.
    reflexivity.
  - assert (Et : tail_room (@None (list Z)) fp = fp_room fp) by done. rewrite Et in *.
    replace (20 + slen body - 20) with (slen body) by lia.
    rewrite (u16_id (slen body)) by (unfold is_u16; lia). rewrite hdr_put. ored. cbn [negb Z.eqb PJ_SUCCESS].
    destruct (encode_fp_fits l fp msg body stale size) as [size' E]; [by subst msg|by subst msg|done|lia..|].
    subst msg. rewrite app_nil_r. match type of E with ?a = _ =>
      match goal with |- (?b ≫= _) = _ => change b with a end end. rewrite E.
    ored. cbn [negb Z.eqb PJ_SUCCESS]. unfold encoded_msg, stun_packet, signed.
    cbn [sign_key mbind option_bind fmap option_fmap option_map from_option with_mi app].
    rewrite with_fp_length, u16_id by (unfold is_u16; lia).
    replace (20 + (slen body + fp_room fp) - 20) with (slen body + fp_room fp) by lia.
    rewrite Z.add_assoc. reflexivity.
Qed.

Lemma same_hdr n len len' c : 20 <= n -> same_from n (stun_hdr_bytes h len ++ c) (stun_hdr_bytes h len' ++ c).
Proof.
  intros Hn. pose proof (stun_hdr_length len). pose proof (stun_hdr_length len').
  apply same_from_tail; unfold slen in *; lia.
Qed.

Lemma encode_tail_short l mi fp key msg i body stale size :
  msg = mk_stun_msg h (signed l mi fp) -> (is_Some mi -> is_Some key) -> key_ok (sign_key mi key) ->
  attr_count msg <= i -> i <> u32 (attr_count msg - 2) ->
  Forall is_byte body -> slen body + tail_room mi fp <= 65535 ->
  0 <= size < tail_room mi fp -> size + 2 <= slen stale ->
  exists r, encode_tail crc_addr tctx hctx msg i ((fun _ => length l) <$> mi)
      ((fun _ => length (l ++ from_option (fun d => [mi_attr d]) [] mi)) <$> fp) key
      (stun_hdr_bytes h 0 ++ body ++ stale) (20 + slen body) size = Some r /\
    er_status r = PJ_ETOOSMALL /\
    same_from (20 + slen body + size + 2) (stun_hdr_bytes h 0 ++ body ++ stale) (er_mem r).
Proof.
  intros Em Hkey Hk Hi Hi2 Hb Hbl Hsz Hs. unfold encode_tail. pose proof (slen_nonneg body) as H0.
  assert (Ht : 0 <= fp_room fp) by (destruct fp; done).
  destruct mi as [d|]; cbn [fmap option_fmap option_map from_option].
  - destruct Hkey as [k ->]; [done|]. destruct (Hk k eq_refl) as [Hkb Hkl].
    assert (Et : tail_room (Some d) fp = 24 + fp_room fp) by done. rewrite Et in *.
    rewrite (u16_id (20 + slen body - 20 + 24)) by (unfold is_u16; lia). rewrite hdr_put. ored.
    rewrite msgint_place_end by done. ored.
    replace (20 + slen body - 20 + 24) with (slen body + 24) by lia.
    assert (Hmi : msg_attr msg !! length l = Some (mi_attr d))
      by (subst msg; by apply (list_lookup_middle l _ (mi_attr d))).
    destruct (Z.ltb_spec size 24) as [Hlt|Hge].
    + destruct (encode_msgint_short msg (length l) d k body stale (slen body + 24) size Hmi) as [m ->];
        [done|done|done|lia|lia|].
      ored. cbn. eexists. split; [reflexivity|]. split; [done|]. apply same_hdr. lia.
    + rewrite (encode_msgint_fits msg (length l) d) by (done || lia). ored. cbn [negb Z.eqb PJ_SUCCESS].
      destruct fp as [v|]; cbn [fp_room fmap option_fmap option_map] in *; [|lia].
      set (b1 := with_mi h (Some k) body). assert (Eb1 : slen body + 24 = slen b1)
        by (unfold b1; by rewrite with_mi_length).
      edestruct (encode_fingerprint_short (set_body msg (length l) (A_msgint (mi_digest h k body)))
        (length (l ++ [mi_attr d])) v b1 (drop 24 stale) (slen body + 24) (size - 24)) as [m E];
        [|unfold is_u16; lia|by apply with_mi_bytes|lia|].
      { rewrite (set_body_at l [fp_attr v] (mi_attr d)) by (by subst msg).
        cbn. rewrite length_app. cbn [length]. by rewrite lookup_app_r, Nat.add_sub' by lia. }
      rewrite E. ored. cbn [negb Z.eqb PJ_SUCCESS PJ_ETOOSMALL]. eexists. split; [reflexivity|]. split; [done|]. cbn [er_mem].
      eapply same_from_trans; [apply (same_hdr _ _ (slen body + 24 + 8)); lia|].
      rewrite <- (take_drop 24 stale) at 1. rewrite !app_assoc. apply same_from_tail.
      * rewrite !length_app, length_take. pose proof (mi_bytes_length k body). unfold b1, with_mi, slen in *.
        rewrite length_app. lia.
      * rewrite !slen_app, stun_hdr_length. unfold slen. rewrite length_take. lia.
  - destruct fp as [v|]; [|unfold tail_room, fp_room in Hsz; lia]. cbn [tail_room fp_room fmap option_fmap option_map] in *.
    unfold tail_room, fp_room in *.
    replace (20 + slen body - 20) with (slen body) by lia.
    rewrite (u16_id (slen body)) by (unfold is_u16; lia). rewrite hdr_put. ored. cbn [negb Z.eqb PJ_SUCCESS].
    destruct (encode_fingerprint_short msg (length (l ++ [])) v body stale (slen body) size) as [m ->];
      [|unfold is_u16; lia|done|lia|].
    { subst msg. rewrite app_nil_r. by apply (list_lookup_middle l _ (fp_attr v)). }
    ored. cbn. eexists. split; [reflexivity|]. split; [done|]. apply same_hdr. lia.
Qed.
End tail.

Lemma stun_body_bytes padding_char h l : forall stale,
  length (m_tsx_id h) = 12%nat -> Forall is_byte (m_tsx_id h) ->
  Forall encodable l -> Forall is_byte stale -> Forall is_byte (stun_body padding_char h l stale).
Proof.
  induction l as [|a l IH]; intros stale Ht Htb H Hs; [constructor|].
  inversion H as [|? ? Ha Hl]; subst. cbn [stun_body]. unfold placed.
  apply Forall_app; split; [apply Forall_app; split|apply IH; auto using Forall_drop];
    [|auto using Forall_drop, Forall_take].
  destruct (encodable_body a Ha) as [f Hf]. unfold wire. apply Forall_app; split; [apply be16_bytes|].
  assert (Hp : forall s, Forall is_byte (string_pad padding_char s))
    by (intros s; apply Forall_replicate, u8_byte).
  destruct f, (a_body a) as [x addr| |s|v|hi lo|d|code s|l'|m s]; try done; cbn [body_ok body_wire] in *;
    rewrite ?Forall_app; split_and?; try apply be16_bytes; try apply be32_bytes; try tauto; auto.
  1, 2: pose proof (xor_sockaddr_ok h F_sockaddr x addr Ht Htb Hf (or_introl eq_refl)) as Hx;
    destruct (if x then _ else _) as [port ad|port ad|]; cbn in Hx |- *; [| |done];
    repeat (apply Forall_cons; split; [apply u8_byte || (unfold is_byte; lia)|]); apply Hx.
  - repeat (apply Forall_cons; split; [unfold is_byte; Z.to_euclidean_division_equations; lia|]). done.
  - apply bind_bytes. intros v. apply be16_bytes.
Qed.

(** Where the second loop finds the two attributes. *)
Lemma scan_sig (mi : option (list Z)) (fp : option Z) (n : nat) :
  let sig := from_option (fun d => [mi_attr d]) [] mi ++ from_option (fun v => [fp_attr v]) [] fp in
  scan_rest (tail sig) (S n)
    (match sig with
     | [] => None
     | a :: _ => if attr_type a =? PJ_STUN_ATTR_MESSAGE_INTEGRITY then Some n else None
     end)
    (match sig with
     | [] => None
     | a :: _ => if attr_type a =? PJ_STUN_ATTR_MESSAGE_INTEGRITY then None else Some n
     end) =
  (PJ_SUCCESS, (fun _ => n) <$> mi,
   (fun _ => (n + length (from_option (fun d => [mi_attr d]) [] mi))%nat) <$> fp).
Proof. destruct mi, fp; cbn; rewrite ?Nat.add_0_r, ?Nat.add_1_r; done. Qed.

(** ** The theorems *)

Section theorems.
Context (padding_char crc_addr : Z) (tctx : pj_sha1_context) (hctx : pj_hmac_sha1_context).
Context (h : pj_stun_msg_hdr) (l : list pj_stun_attr) (mi : option (list Z)) (fp : option Z).
Context (key : option (list Z)) (mem : list Z) (buf_size : Z).

(** A message that can be sent: encodable attributes, at most sixteen, a key
    when it has MESSAGE-INTEGRITY, and a body of at most 65535 bytes. *)
Definition sendable : Prop :=
  length (m_tsx_id h) = 12%nat /\ Forall is_byte (m_tsx_id h) /\
  Forall encodable l /\ (length (signed l mi fp) <= 16)%nat /\
  (is_Some mi -> is_Some key) /\ key_ok (sign_key mi key) /\
  body_room padding_char h l + tail_room mi fp <= 65535.

(** The contexts on the stack and the buffer hold bytes. *)
Definition memory_ok : Prop :=
  sha1_mem tctx /\ sha1_mem (hm_context hctx) /\ Forall is_byte mem.

Definition packet_length : Z := 20 + body_room padding_char h l + tail_room mi fp.

Let msg := mk_stun_msg h (signed l mi fp).
Let sig := from_option (fun d => [mi_attr d]) [] mi ++ from_option (fun v => [fp_attr v]) [] fp.
Let encode := pj_stun_msg_encode padding_char crc_addr tctx hctx msg mem buf_size 0 key.
Let body := stun_body padding_char h l (drop 20 mem).

(** The header is written. *)
Lemma encode_header {A} (k : list Z -> option A) :
  length (m_tsx_id h) = 12%nat -> 20 <= slen mem ->
  (m ← put16 mem 0 (m_type h); m ← put16 m 2 0; m ← put32 m 4 (m_magic h);
   m ← memcpy_at m 8 (m_tsx_id h); k m) = k (stun_hdr_bytes h 0 ++ drop 20 mem).
Proof.
  intros Ht Hm. pose proof (stun_hdr_length h Ht 0) as Hh.
  join_copies. rewrite <- !app_assoc. fold (stun_hdr_bytes h 0). rewrite memcpy_fits by lia. ored.
  assert (Hhl : length (stun_hdr_bytes h 0) = 20%nat) by (unfold slen in Hh; lia). by rewrite Hhl.
Qed.

Lemma same_header : length (m_tsx_id h) = 12%nat -> 20 <= slen mem ->
  same_from 20 mem (stun_hdr_bytes h 0 ++ drop 20 mem).
Proof.
  intros Ht Hm. pose proof (stun_hdr_length h Ht 0) as Hh. unfold slen in *.
  rewrite <- (take_drop 20 mem) at 1. apply same_from_tail; unfold slen; rewrite ?length_take; lia.
Qed.

Lemma sig_last : last_attrs sig.
Proof. unfold sig. destruct mi, fp; cbn; auto. Qed.

(** With room for the attributes, encoding comes to its end. *)
Lemma encode_to_tail :
  sendable -> Forall is_byte mem ->
  20 + body_room padding_char h l <= buf_size < 4294967296 -> buf_size <= slen mem ->
  exists i, attr_count msg <= i /\ i <> u32 (attr_count msg - 2) /\
    Forall is_byte body /\ slen body = body_room padding_char h l /\
    encode = encode_tail crc_addr tctx hctx msg i ((fun _ => length l) <$> mi)
      ((fun _ => length (l ++ from_option (fun d => [mi_attr d]) [] mi)) <$> fp) key
      (stun_hdr_bytes h 0 ++ body ++ drop (Z.to_nat (body_room padding_char h l)) (drop 20 mem))
      (20 + slen body) (buf_size - 20 - slen body).
Proof.
  intros (Ht & Htb & Hl & Hc & Hkey & Hk & Htot) Hmem Hbs Hbm.
  pose proof (body_room_nonneg padding_char h Ht Htb l Hl) as [H0 _].
  assert (Hst : slen (drop 20 mem) = slen mem - 20) by (unfold slen in *; rewrite length_drop; lia).
  assert (Hbl : slen body = body_room padding_char h l) by (apply stun_body_length; [done..|lia]).
  set (n := length l).
  assert (En : (length (signed l mi fp) - length sig = n)%nat)
    by (unfold signed; fold sig; rewrite length_app; lia).
  exists (Z.max (Z.of_nat (S n)) (attr_count msg)).
  assert (Hac : attr_count msg = Z.of_nat n + Z.of_nat (length sig))
    by (unfold attr_count, msg, signed; cbn [msg_attr]; fold sig; rewrite length_app; lia).
  assert (Hs2 : (length sig <= 2)%nat) by (unfold sig; destruct mi, fp; cbn; lia).
  split; [lia|]. split.
  { assert (attr_count msg <= 16) by (unfold attr_count, msg; cbn [msg_attr]; lia).
    unfold u32. rewrite Hac in *. Z.to_euclidean_division_equations; lia. }
  split; [by apply stun_body_bytes; auto using Forall_drop|]. split; [done|].
  unfold encode, pj_stun_msg_encode. destruct (Z.eqb_spec buf_size 0); [lia|]. cbn [negb Z.eqb].
  unfold sizeof_stun_hdr. destruct (Z.ltb_spec buf_size 20); [lia|]. cbn [msg_hdr msg_attr msg].
  rewrite encode_header by (done || lia). pose proof (stun_hdr_length h Ht 0) as Hh.
  pose proof (encode_attrs_fits padding_char h Ht Htb l sig (stun_hdr_bytes h 0) (drop 20 mem)
    (buf_size - 20) Hl sig_last) as E. rewrite Hh in E. change (l ++ sig) with (signed l mi fp) in E.
  rewrite E by lia. clear E. ored. cbn [negb Z.eqb PJ_SUCCESS]. fold body.
  pose proof (scan_sig mi fp n) as Esc. cbv zeta in Esc. fold sig in Esc.
  rewrite En, Esc. cbn [negb Z.eqb PJ_SUCCESS]. fold msg.
  rewrite Hbl, <- app_assoc, length_app. reflexivity.
Qed.

(** [stun_encode_packet] as a lemma. *)
Lemma encode_fits :
  sendable -> memory_ok -> packet_length <= buf_size < 4294967296 -> buf_size <= slen mem ->
  encode = Some (mk_enc_result PJ_SUCCESS
    (stun_packet h (sign_key mi key) (bool_decide (is_Some fp)) body ++ drop (Z.to_nat packet_length) mem)
    (encoded_msg h l (sign_key mi key) fp body) packet_length).
Proof.
  intros Hs (Htc & Hhc & Hmem) Hbs Hbm. unfold packet_length in *. pose proof (tail_room_nonneg mi fp).
  destruct encode_to_tail as (i & Hi & Hi2 & Hbb & Hbl & ->); [done|done|lia|done|].
  destruct Hs as (Ht & Htb & Hl & Hc & Hkey & Hk & Htot).
  pose proof (body_room_nonneg padding_char h Ht Htb l Hl) as [H0 _].
  rewrite (encode_tail_fits h Ht Htb crc_addr tctx hctx Htc Hhc l mi fp key);
    [|done..|lia| |lia].
  - rewrite !drop_drop, Hbl. repeat f_equal. lia.
  - unfold slen in *. rewrite !length_drop. lia.
Qed.

Lemma encode_short :
  sendable -> memory_ok -> Forall whole l ->
  0 < buf_size < packet_length -> buf_size + 2 <= slen mem ->
  exists r, encode = Some r /\ er_status r = PJ_ETOOSMALL /\ same_from (buf_size + 2) mem (er_mem r).
Proof.
  intros Hs (Htc & Hhc & Hmem) Hw Hbs Hbm. unfold packet_length in *.
  pose proof Hs as (Ht & Htb & Hl & Hc & Hkey & Hk & Htot).
  pose proof (body_room_nonneg padding_char h Ht Htb l Hl) as [H0 _]. pose proof (tail_room_nonneg mi fp).
  destruct (Z.ltb_spec (buf_size - 20) (body_room padding_char h l)) as [Hlt|Hge].
  - unfold encode, pj_stun_msg_encode. destruct (Z.eqb_spec buf_size 0); [lia|]. cbn [negb Z.eqb].
    unfold sizeof_stun_hdr. destruct (Z.ltb_spec buf_size 20); [by eexists|]. cbn [msg_hdr msg_attr msg].
    rewrite encode_header by (done || lia). pose proof (stun_hdr_length h Ht 0) as Hh.
    destruct (encode_attrs_short padding_char h Ht Htb l sig (stun_hdr_bytes h 0) (drop 20 mem) (buf_size - 20) Hl Hw)
      as (m' & p' & s' & r' & E & Hm); [lia|unfold slen in *; rewrite length_drop; lia|lia|].
    rewrite Hh in E, Hm. change (l ++ sig) with (signed l mi fp) in E. rewrite E. ored. cbn [negb Z.eqb PJ_SUCCESS PJ_ETOOSMALL].
    eexists. split; [reflexivity|]. split; [done|]. cbn [er_mem].
    eapply same_from_trans; [apply (same_from_mono 20); [lia|apply same_header; (done || lia)]|].
    by replace (20 + (buf_size - 20) + 2) with (buf_size + 2) in Hm by lia.
  - destruct encode_to_tail as (i & Hi & Hi2 & Hbb & Hbl & ->); [done|done|lia|lia|].
    destruct (encode_tail_short h Ht Htb crc_addr tctx hctx Htc Hhc l mi fp key msg i body
      (drop (Z.to_nat (body_room padding_char h l)) (drop 20 mem)) (buf_size - 20 - slen body))
      as (r & -> & Hr & Hm); [done..|lia|lia|unfold slen in *; rewrite !length_drop; lia|].
    exists r. split; [done|]. split; [done|].
    eapply same_from_trans; [|replace (buf_size + 2) with (20 + slen body + (buf_size - 20 - slen body) + 2) by lia; exact Hm].
    eapply same_from_trans; [apply (same_from_mono 20); [lia|apply same_header; (done || lia)]|].
    rewrite <- (take_drop (Z.to_nat (body_room padding_char h l)) (drop 20 mem)) at 1.
    rewrite !app_assoc. apply same_from_tail.
    + unfold slen in *. rewrite !length_app, length_take, !length_drop. lia.
    + rewrite slen_app, (stun_hdr_length h Ht). unfold slen in *. rewrite length_take, length_drop. lia.
Qed.
End theorems.

Lemma stun_packet_length padding_char h l mi fp key stale :
  length (m_tsx_id h) = 12%nat -> Forall is_byte (m_tsx_id h) -> Forall encodable l ->
  (is_Some mi -> is_Some key) -> body_room padding_char h l <= slen stale ->
  slen (stun_packet h (sign_key mi key) (bool_decide (is_Some fp)) (stun_body padding_char h l stale)) =
    packet_length padding_char h l mi fp.
Proof.
  intros Ht Htb Hl Hkey Hs. unfold stun_packet. rewrite slen_app, (stun_hdr_length h Ht).
  rewrite with_fp_length, with_mi_length, stun_body_length by done.
  unfold packet_length, tail_room. destruct mi; [destruct Hkey as [k ->]; [done|]|]; cbn [sign_key mbind option_bind]; lia.
Qed.

(** C25: [pj_stun_msg_encode] writes exactly the packet of RFC 5389: the header
    with the length of the body, the attributes one after the other on word
    boundaries, then MESSAGE-INTEGRITY, the HMAC-SHA1 of the packet before it
    with the length that counts it, then FINGERPRINT, the CRC-32 of all before
    it, masked.  The message gets its length and the two values. *)
Theorem stun_encode_packet (padding_char crc_addr : Z) (tctx : pj_sha1_context)
    (hctx : pj_hmac_sha1_context) (h : pj_stun_msg_hdr) (l : list pj_stun_attr)
    (mi : option (list Z)) (fp : option Z) (key : option (list Z)) (mem : list Z) (buf_size : Z) :
  sendable padding_char h l mi fp key -> memory_ok tctx hctx mem ->
  packet_length padding_char h l mi fp <= buf_size < 4294967296 -> buf_size <= slen mem ->
  let body := stun_body padding_char h l (drop 20 mem) in
  let b1 := (if sign_key mi key is Some k then
               body ++ [0; 8; 0; 20] ++ hmac_sha1_of k (stun_hdr_bytes h (slen body + 24) ++ body)
             else body) in
  let crc := Z.lxor (Bitwise.pj_crc32_calc_bits (stun_hdr_bytes h (slen b1 + 8) ++ b1)) STUN_XOR_FINGERPRINT in
  let b2 := (if fp is Some _ then b1 ++ [128; 40; 0; 4] ++ be32 crc else b1) in
  pj_stun_msg_encode padding_char crc_addr tctx hctx (mk_stun_msg h (signed l mi fp)) mem buf_size 0 key =
    Some (mk_enc_result PJ_SUCCESS
      ((stun_hdr_bytes h (slen b2) ++ b2) ++ drop (length (stun_hdr_bytes h (slen b2) ++ b2)) mem)
      (encoded_msg h l (sign_key mi key) fp body) (slen (stun_hdr_bytes h (slen b2) ++ b2))).
Proof.
  intros Hs Hm Hb Hbm body b1 crc b2. rewrite encode_fits by done.
  destruct Hs as (Ht & Htb & Hl & _ & Hkey & _). pose proof (tail_room_nonneg mi fp).
  assert (E : stun_packet h (sign_key mi key) (bool_decide (is_Some fp)) body = stun_hdr_bytes h (slen b2) ++ b2).
  { unfold b2, crc, b1. by destruct (sign_key mi key), fp. }
  pose proof (stun_packet_length padding_char h l mi fp key (drop 20 mem) Ht Htb Hl Hkey) as El.
  fold body in El |- *. rewrite E in *. rewrite <- El.
  - unfold slen at 2. by rewrite Nat2Z.id.
  - unfold packet_length in *. unfold slen in *. rewrite length_drop. lia.
Qed.

(** C22: whatever the size of the buffer, encoding is defined: it succeeds
    exactly when the buffer is large enough, and fails with [PJ_ETOOSMALL]
    otherwise, and never writes more than two bytes past the end of the
    buffer, those of the type of an address that did not fit.  (For messages
    whose ERROR-CODE and UNKNOWN-ATTRIBUTES need no padding.) *)
Theorem stun_encode_bounds (padding_char crc_addr : Z) (tctx : pj_sha1_context)
    (hctx : pj_hmac_sha1_context) (h : pj_stun_msg_hdr) (l : list pj_stun_attr)
    (mi : option (list Z)) (fp : option Z) (key : option (list Z)) (mem : list Z) (buf_size : Z) :
  sendable padding_char h l mi fp key -> memory_ok tctx hctx mem -> Forall whole l ->
  0 < buf_size < 4294967296 -> buf_size + 2 <= slen mem ->
  exists r,
    pj_stun_msg_encode padding_char crc_addr tctx hctx (mk_stun_msg h (signed l mi fp)) mem buf_size 0 key = Some r /\
    (if packet_length padding_char h l mi fp <=? buf_size then er_status r = PJ_SUCCESS
     else er_status r = PJ_ETOOSMALL) /\
    length (er_mem r) = length mem /\
    drop (Z.to_nat (buf_size + 2)) (er_mem r) = drop (Z.to_nat (buf_size + 2)) mem.
Proof.
  intros Hs Hm Hw Hb Hbm. destruct (Z.leb_spec (packet_length padding_char h l mi fp) buf_size) as [Hle|Hgt].
  - rewrite encode_fits by (done || lia). eexists. split; [done|]. split; [done|]. cbn [er_mem].
    destruct Hs as (Ht & Htb & Hl & _ & Hkey & _). pose proof (tail_room_nonneg mi fp).
    pose proof (body_room_nonneg padding_char h Ht Htb l Hl) as [H0 _].
    assert (El := stun_packet_length padding_char h l mi fp key (drop 20 mem) Ht Htb Hl Hkey).
    set (p := stun_packet _ _ _ _) in *. unfold packet_length in *.
    assert (G : same_from (buf_size + 2) mem (p ++ drop (Z.to_nat (20 + body_room padding_char h l + tail_room mi fp)) mem)).
    { rewrite <- (take_drop (Z.to_nat (20 + body_room padding_char h l + tail_room mi fp)) mem) at 1.
      unfold slen in *. rewrite length_drop in El.
      apply same_from_tail; unfold slen; rewrite ?length_take; lia. }
    exact G.
  - edestruct encode_short as (r & E & Hr & G); [exact Hs|exact Hm|exact Hw| |exact Hbm|]; [lia|]. eauto.
Qed.
