(* ===== verification/StunSpec.v ===== *)
(** * STUN messages: what is encoded is decoded

    Decoding the packet that [pj_stun_msg_encode] writes gives the message
    back, as its receiver sees it ([received]): the padding of SOFTWARE, and of
    every string for old servers, is part of the string. *)

From Stdlib Require Import String.
From S2P Require Import Prelude Bytes PjString Digest Sha1 Hmac Crc32 StunMsg StunDecode StunEncode.
Local Open Scope Z_scope.

(** ** Reading behind a prefix *)

Lemma rd8_skip a l k p : 0 <= k -> p = slen a + k -> rd8 (a ++ l) p = rd8 l k.
Proof.
  intros Hk ->. unfold rd8, zlookup, slen. rewrite !decide_True by lia.
  rewrite lookup_app_r by lia. f_equal. lia.
Qed.

Lemma rd16_skip a l k p : 0 <= k -> p = slen a + k -> rd16 (a ++ l) p = rd16 l k.
Proof.
  intros Hk ->. unfold rd16. by rewrite (rd8_skip a l k (slen a + k)), (rd8_skip a l (k + 1) (slen a + k + 1)) by lia.
Qed.

Lemma take_slen (a c : list Z) : take (Z.to_nat (slen a)) (a ++ c) = a.
Proof. unfold slen. rewrite Nat2Z.id. apply take_app_length. Qed.

Lemma rd8_app l c i v : rd8 l i = Some v -> rd8 (l ++ c) i = Some v.
Proof. unfold rd8, zlookup. case_decide; [|done]. apply lookup_app_l_Some. Qed.

Lemma rd16_app l c i v : rd16 l i = Some v -> rd16 (l ++ c) i = Some v.
Proof.
  unfold rd16. intros H. destruct (rd8 l i) as [x|] eqn:E1; [|done]. destruct (rd8 l (i + 1)) as [y|] eqn:E2; [|done].
  by rewrite (rd8_app _ _ _ _ E1), (rd8_app _ _ _ _ E2).
Qed.

Lemma rd32_skip a l k p : 0 <= k -> p = slen a + k -> rd32 (a ++ l) p = rd32 l k.
Proof.
  intros Hk ->. unfold rd32. by rewrite (rd16_skip a l k (slen a + k)), (rd16_skip a l (k + 2) (slen a + k + 2)) by lia.
Qed.

Lemma rdn_skip a l n : forall k p, 0 <= k -> p = slen a + k -> rdn (a ++ l) p n = rdn l k n.
Proof.
  induction n as [|n IH]; intros k p Hk ->; [done|]. cbn [rdn].
  by rewrite (rd8_skip a l k (slen a + k)), (IH (k + 1) (slen a + k + 1)) by lia.
Qed.

Lemma rd16_here v l : is_u16 v -> rd16 (be16 v ++ l) 0 = Some v.
Proof. exact (rd16_at [] v l). Qed.

Lemma rd32_here v l : is_u32 v -> rd32 (be32 v ++ l) 0 = Some v.
Proof. exact (rd32_at [] v l). Qed.

Lemma rdn_here a l n : n = length a -> rdn (a ++ l) 0 n = Some a.
Proof. intros ->. exact (rdn_at a [] l). Qed.

Lemma read_types_here l : forall a c p, Forall is_u16 l -> p = slen a ->
  read_types (a ++ (l ≫= be16) ++ c) p (length l) = Some l.
Proof.
  induction l as [|t l IH]; intros a c p Hl Hp; [done|]. inversion Hl as [|? ? Ht Hl']; subst.
  cbn [read_types length mbind list_bind]. change (list_bind _ _ be16 l) with (l ≫= be16).
  rewrite <- (app_assoc (be16 t)), (rd16_skip a _ 0) by lia. rewrite rd16_here by done. ored.
  rewrite (app_assoc a). rewrite (IH (a ++ be16 t)); [done|done|].
  rewrite slen_app. done.
Qed.

(** ** What the receiver sees *)

Section received.
Context (padding_char : Z) (h : pj_stun_msg_hdr).

(** The length field of the attribute in the packet. *)
Definition len_field (a : pj_stun_attr) : Z :=
  match a_body a with
  | A_string s => string_len h (attr_type a) s
  | b => body_length b
  end.

Definition received_body (a : pj_stun_attr) : attr_body :=
  match a_body a with
  | A_string s =>
      A_string (if string_len h (attr_type a) s =? slen s then s else s ++ string_pad padding_char s)
  | A_binary _ s =>
      A_binary (if find_attr_desc (attr_type a) is Some _ then 0 else PJ_STUN_MAGIC) s
  | b => b
  end.

Definition received (a : pj_stun_attr) : pj_stun_attr :=
  mk_attr (mk_attr_hdr (attr_type a) (len_field a)) (received_body a).

(** The attributes that come back: the flag of an address is that of its type,
    and an attribute without descriptor is optional. *)
Definition decodable (a : pj_stun_attr) : Prop :=
  match find_attr_desc (attr_type a) with
  | Some d =>
      match d_decode d, a_body a with
      | F_sockaddr, A_sockaddr x _ => x = false
      | F_xored_sockaddr, A_sockaddr x _ => x = true
      | _, _ => True
      end
  | None => 0x8000 <= attr_type a
  end.
End received.

(** The two functions of a descriptor are of the same data. *)
Lemma desc_fns t d : find_attr_desc t = Some d ->
  d_encode d = match d_decode d with F_xored_sockaddr => F_sockaddr | f => f end.
Proof.
  assert (G : forall (l : list (option attr_desc)) i,
    Forall (fun o => match o with Some d => d_encode d = match d_decode d with F_xored_sockaddr => F_sockaddr | f => f end
                     | None => True end) l ->
    default None (zlookup l i) = Some d ->
    d_encode d = match d_decode d with F_xored_sockaddr => F_sockaddr | f => f end).
  { intros l i Hl H. destruct (zlookup l i) as [o|] eqn:E; [|done]. cbn in H. subst o.
    unfold zlookup in E. case_decide; [|done]. rewrite Forall_lookup in Hl. exact (Hl _ _ E). }
  unfold find_attr_desc. destruct (t <? _); [|destruct (_ && _); [|done]]; apply G; repeat constructor.
Qed.

(** ** One attribute *)

Section reads.
Context (pre : list Z) (t len : Z) (v : list Z).
Let pdu := pre ++ be16 t ++ be16 len ++ v.

Lemma type_here : is_u16 t -> rd16 pdu (slen pre) = Some t.
Proof. intros H. unfold pdu. rewrite (rd16_skip pre _ 0) by lia. by apply rd16_here. Qed.

Lemma len_here : is_u16 len -> rd16 pdu (slen pre + 2) = Some len.
Proof.
  intros H. unfold pdu. rewrite (rd16_skip pre _ 2), (rd16_skip (be16 t) _ 0) by (done || lia).
  by apply rd16_here.
Qed.

Lemma hdr_here : is_u16 t -> is_u16 len -> GETATTRHDR pdu (slen pre) = Some (mk_attr_hdr t len).
Proof. intros. unfold GETATTRHDR. rewrite type_here, len_here by done. done. Qed.

(** The value. *)
Lemma value_split : pdu = (pre ++ be16 t ++ be16 len) ++ v.
Proof. unfold pdu. by rewrite <- !app_assoc. Qed.

Lemma value_start : slen (pre ++ be16 t ++ be16 len) = slen pre + 4.
Proof. by rewrite !slen_app. Qed.

Lemma val8 k q : 0 <= k -> q = slen pre + 4 + k -> rd8 pdu q = rd8 v k.
Proof. intros. rewrite value_split. apply rd8_skip; rewrite ?value_start; lia. Qed.
Lemma val16 k q : 0 <= k -> q = slen pre + 4 + k -> rd16 pdu q = rd16 v k.
Proof. intros. rewrite value_split. apply rd16_skip; rewrite ?value_start; lia. Qed.
Lemma val32 k q : 0 <= k -> q = slen pre + 4 + k -> rd32 pdu q = rd32 v k.
Proof. intros. rewrite value_split. apply rd32_skip; rewrite ?value_start; lia. Qed.
Lemma valn k q n : 0 <= k -> q = slen pre + 4 + k -> rdn pdu q n = rdn v k n.
Proof. intros. rewrite value_split. apply rdn_skip; rewrite ?value_start; lia. Qed.
End reads.

Lemma xor_bytes_twice a b : length b = length a -> xor_bytes (xor_bytes a b) b = a.
Proof.
  revert b. induction a as [|x a IH]; intros [|y b] H; try done. cbn in H.
  change (Z.lxor (Z.lxor x y) y :: xor_bytes (xor_bytes a b) b = x :: a).
  rewrite IH by lia. by rewrite Z.lxor_assoc, Z.lxor_nilpotent, Z.lxor_0_r.
Qed.

Lemma xor_sockaddr_twice tsx addr len :
  length tsx = 12%nat -> sockaddr_typed len addr -> xor_sockaddr tsx (xor_sockaddr tsx addr) = addr.
Proof.
  intros Ht H. destruct addr as [port a|port a|]; [| |done]; destruct H as (_ & _ & Hl & _); cbn [xor_sockaddr];
    rewrite Z.lxor_assoc, Z.lxor_nilpotent, Z.lxor_0_r, xor_bytes_twice; try done.
  rewrite length_app, Ht, Hl. done.
Qed.

Lemma len_field_range h a : encodable a -> is_u16 (len_field h a).
Proof.
  intros Ha. pose proof (body_length_bounds a Ha) as Hb. destruct (encodable_body a Ha) as [f Hf].
  unfold len_field, is_u16 in *. destruct f, (a_body a) as [x [port ad|port ad|]| |s|v|hi lo|d|code s|l|m s]; try done;
    cbn [body_ok body_length] in *; try lia.
  unfold string_len. pose proof (slen_nonneg s). pose proof (align4_up (slen s)) as [H1 H2]; [lia|].
  destruct (_ || _); [Z.to_euclidean_division_equations|]; lia.
Qed.

Lemma body_wire_split padding_char h a : encodable a ->
  exists v, body_wire padding_char h (attr_type a) (a_body a) = be16 (len_field h a) ++ v.
Proof.
  intros Ha. destruct (encodable_body a Ha) as [f Hf]. unfold len_field.
  destruct f, (a_body a) as [[] [port ad|port ad|]| |s|v|hi lo|d|code s|l|m s]; try done;
    cbn [body_wire xor_sockaddr addr_wire body_length]; try (eexists; reflexivity).
  all: by exists [].
Qed.

Section decode_one.
Context (padding_char : Z) (h h' : pj_stun_msg_hdr).
Context (Htsx : length (m_tsx_id h) = 12%nat) (Htb : Forall is_byte (m_tsx_id h)).
Context (Hh' : m_tsx_id h' = m_tsx_id h).
Context (pre c : list Z).

Lemma decode_addr_here t addr :
  is_u16 t -> sockaddr_typed (body_length (A_sockaddr false addr)) addr ->
  decode_sockaddr_attr (pre ++ be16 t ++ addr_wire addr ++ c) (slen pre) =
    Some (inr (mk_attr (mk_attr_hdr t (body_length (A_sockaddr false addr))) (A_sockaddr false addr))).
Proof.
  intros Ht Ha. unfold decode_sockaddr_attr, ATTR_HDR_LEN.
  destruct addr as [port a|port a|]; [| |done]; destruct Ha as (_ & Hp & Hl & _);
    cbn [addr_wire body_length]; rewrite <- !(app_assoc (be16 _)), hdr_here by (done || (unfold is_u16; lia));
    ored; cbn [a_length]; cbn [negb andb Z.eqb Pos.eqb STUN_GENERIC_IPV4_ADDR_LEN STUN_GENERIC_IPV6_ADDR_LEN];
    rewrite (val8 pre t _ _ 1) by lia; rewrite <- !app_assoc.
  - change (rd8 ([0; 1] ++ _) 1) with (Some 1). ored. cbn [Z.eqb Pos.eqb negb].
    rewrite (val16 pre t 8 _ 2), (rd16_skip [0; 1] _ 0) by (done || lia). rewrite rd16_here by done. ored.
    rewrite (valn pre t 8 _ 4), (rdn_skip [0; 1] _ 4 2), (rdn_skip (be16 port) _ 4 0) by (done || lia).
    by rewrite rdn_here.
  - change (rd8 ([0; 2] ++ _) 1) with (Some 2). ored. cbn [Z.eqb Pos.eqb negb].
    rewrite (val16 pre t 20 _ 2), (rd16_skip [0; 2] _ 0) by (done || lia). rewrite rd16_here by done. ored.
    rewrite (valn pre t 20 _ 4), (rdn_skip [0; 2] _ 16 2), (rdn_skip (be16 port) _ 16 0) by (done || lia).
    by rewrite rdn_here.
Qed.

Let wire := wire padding_char h.

Lemma decode_received a d :
  encodable a -> decodable a -> find_attr_desc (attr_type a) = Some d ->
  decode_attr (pre ++ wire a ++ c) (d_decode d) (slen pre) h' = Some (inr (received padding_char h a)).
Proof.
  intros Ha Hd Ed. pose proof (len_field_range h a Ha) as Hlf.
  destruct Ha as (Ht & _ & _ & Hok). rewrite Ed in Hok. pose proof (desc_fns _ _ Ed) as Ef.
  unfold decodable in Hd. rewrite Ed in Hd. unfold wire, StunEncode.wire, received, received_body, len_field in *.
  rewrite Ef in Hok. destruct (d_decode d); destruct (a_body a) as [x addr| |s|v|hi lo|dg|code s|l|m s]; try done;
    cbn [body_ok body_wire decode_attr] in *; rewrite <- ?app_assoc.
  - subst x. rewrite decode_addr_here; [done|done|]. destruct addr; cbn in Hok |- *; tauto.
  - subst x. unfold decode_xored_sockaddr_attr.
    set (len := body_length (A_sockaddr true addr)) in *.
    assert (Hs : sockaddr_typed len addr) by (destruct addr; cbn in Hok |- *; tauto).
    assert (Hx : sockaddr_typed len (xor_sockaddr (m_tsx_id h) addr)) by (by apply xor_sockaddr_typed).
    assert (El : body_length (A_sockaddr false (xor_sockaddr (m_tsx_id h) addr)) = len)
      by (destruct addr; done).
    rewrite decode_addr_here; [|done|by rewrite El]. ored. cbn [a_body a_hdr]. rewrite El, Hh'.
    rewrite (xor_sockaddr_twice _ _ len) by done.
    by destruct (xor_sockaddr (m_tsx_id h) addr).
  - unfold decode_uint_attr. rewrite hdr_here by done. ored. rewrite (val32 pre _ 4 _ 0) by lia.
    by rewrite rd32_here.
  - unfold decode_uint64_attr. rewrite hdr_here by done. ored. cbn [a_length].
    change (negb (8 =? 8)) with false. cbv iota. rewrite (val32 pre _ 8 _ 0 (slen pre + 4)) by lia.
    rewrite rd32_here by tauto. ored. rewrite (val32 pre _ 8 _ 4 (slen pre + 8)), (rd32_skip (be32 hi) _ 0) by (done || lia).
    by rewrite rd32_here by tauto.
  - unfold decode_string_attr, ATTR_HDR_LEN. rewrite hdr_here by done. ored. cbn [a_length].
    rewrite (valn pre _ _ _ 0) by lia. destruct Hok as [Hs _].
    destruct (Z.eqb_spec (string_len h (attr_type a) s) (slen s)) as [E|E].
    + rewrite E, rdn_here; [done|unfold slen; lia].
    + rewrite app_assoc, rdn_here; [done|]. pose proof (string_pad_length padding_char s Hs) as Hp.
      unfold string_len in *. destruct (_ || _); [rewrite <- Hp; unfold slen; lia|done].
  - unfold decode_errcode_attr, ATTR_HDR_LEN. rewrite hdr_here by done. ored.
    destruct Hok as (Hc & Hs & _). pose proof (slen_nonneg s).
    rewrite (val8 pre _ _ _ 2 (slen pre + 6)), (val8 pre _ _ _ 3 (slen pre + 7)), (valn pre _ _ _ 4) by lia.
    change (rd8 ([0; 0; code / 100; code mod 100] ++ s ++ c) 2) with (Some (code / 100)).
    change (rd8 ([0; 0; code / 100; code mod 100] ++ s ++ c) 3) with (Some (code mod 100)). ored.
    cbn [a_length body_length]. replace (4 + slen s - 4) with (slen s) by lia.
    destruct (Z.ltb_spec (slen s) 0); [lia|]. rewrite (rdn_skip [_; _; _; _] _ _ 0) by (done || lia).
    rewrite rdn_here by (unfold slen; lia). ored. do 4 f_equal. Z.to_euclidean_division_equations; lia.
  - unfold decode_unknown_attr, ATTR_HDR_LEN. rewrite hdr_here by done. ored. cbn [a_length].
    destruct Hok as [Hl Hf]. rewrite Z.shiftr_div_pow2 by lia. change (2 ^ 1) with 2.
    rewrite (Z.mul_comm 2), Z.div_mul by lia. unfold PJ_STUN_MAX_ATTR.
    destruct (Z.ltb_spec 16 (Z.of_nat (length l))); [lia|]. rewrite Nat2Z.id.
    rewrite value_split. rewrite read_types_here; [|done|by rewrite value_start].
    ored. cbn [body_length]. by rewrite Z.mul_comm.
  - unfold decode_binary_attr, ATTR_HDR_LEN. rewrite hdr_here by done. ored. cbn [a_length].
    rewrite (valn pre _ _ _ 0) by lia. rewrite rdn_here by (unfold slen; lia). by rewrite Ed.
  - unfold decode_empty_attr. by rewrite hdr_here.
Qed.
End decode_one.

(** ** The loop *)

Section loop.
Context (strerror : Z -> list Z) (padding_char : Z) (h h' : pj_stun_msg_hdr) (want : bool).
Context (Htsx : length (m_tsx_id h) = 12%nat) (Htb : Forall is_byte (m_tsx_id h)).
Context (Hh' : m_tsx_id h' = m_tsx_id h).

(** A step that adds [a]. *)
Lemma dec_step pdu fuel st st' p t len k :
  rd16 pdu p = Some t -> rd16 pdu (p + 2) = Some len -> is_u16 len -> 0 <= k ->
  (match find_attr_desc t with
   | None => dec_unrecognized pdu want st p t
   | Some d => dec_recognized strerror pdu want st p t d
   end) = Some (inr st') ->
  dec_loop strerror pdu (S fuel) want st p (align4 len + 4 + k) =
  dec_loop strerror pdu fuel want st' (p + (align4 len + 4)) k.
Proof.
  intros Ht Hl Hr Hk E. pose proof (align4_bounds len Hr) as [Hb _]. unfold is_u16 in Hr. cbn [dec_loop].
  destruct (Z.leb_spec 4 (align4 len + 4 + k)); [|lia]. rewrite Ht, Hl. ored.
  destruct (Z.ltb_spec (align4 len + 4 + k) (align4 len)); [lia|]. rewrite E. ored.
  destruct (Z.leb_spec (align4 len + 4 + k) (align4 len + 4)).
  - assert (k = 0) as -> by lia. by rewrite Z.add_0_r.
  - by replace (align4 len + 4 + k - (align4 len + 4)) with k by lia.
Qed.

Definition push (st : dec_state) (a : pj_stun_attr) : dec_state :=
  mk_dec_state (ds_msg st <| msg_attr := msg_attr (ds_msg st) ++ [a] |>) (ds_msg_int st) (ds_fingerprint st).

Lemma dec_body_step a st pre c :
  encodable a -> decodable a -> msg_hdr (ds_msg st) = h' -> ds_fingerprint st = false ->
  attr_count (ds_msg st) < 16 ->
  let pdu := pre ++ wire padding_char h a ++ c in
  (match find_attr_desc (attr_type a) with
   | None => dec_unrecognized pdu want st (slen pre) (attr_type a)
   | Some d => dec_recognized strerror pdu want st (slen pre) (attr_type a) d
   end) = Some (inr (push st (received padding_char h a))).
Proof.
  intros Ha Hd Eh Hfp Hc pdu. pose proof Ha as (Ht & Hmi & Hf & Hok).
  apply Z.eqb_neq in Hmi, Hf. destruct (find_attr_desc (attr_type a)) as [d|] eqn:Ed.
  - unfold dec_recognized, pdu. rewrite Eh, (decode_received padding_char h h') by done. ored.
    unfold dec_order. rewrite Hmi, Hf, Hfp. cbn [andb]. unfold dec_add, PJ_STUN_MAX_ATTR.
    destruct (Z.leb_spec 16 (attr_count (ds_msg st))); [lia|]. done.
  - unfold decodable in Hd. rewrite Ed in Hd. destruct Hok as [Hm Hok].
    pose proof (len_field_range h a Ha) as Hlf.
    unfold dec_unrecognized, PJ_STUN_MAX_ATTR. destruct (Z.leb_spec (attr_type a) 0x7FFF); [lia|].
    destruct (Z.leb_spec 16 (attr_count (ds_msg st))); [lia|].
    unfold pdu, wire, len_field, received, received_body, len_field in *.
    destruct (a_body a) as [| | | | | | | |m s]; try done. subst m. destruct Hok as [Hs _].
    cbn [body_wire body_length] in *. rewrite <- !app_assoc.
    rewrite len_here by done. ored. rewrite (valn pre _ _ _ 0) by lia. rewrite rdn_here by (unfold slen; lia).
    ored. unfold pj_stun_binary_attr_create, is_u16 in *. destruct (Z.eqb_spec (attr_type a) 0); [lia|].
    unfold INIT_ATTR. rewrite !u16_id by done. by rewrite Ed.
Qed.

Lemma room_len_field a : encodable a -> room padding_char h a = align4 (len_field h a) + 4.
Proof.
  intros Ha. unfold room. rewrite (wire_length padding_char h Htsx Htb a Ha), Z.add_comm.
  pose proof (body_length_bounds a Ha) as Hb. rewrite align4_add4 by lia. f_equal.
  unfold len_field. destruct (encodable_body a Ha) as [f Hf].
  destruct (a_body a) as [| |s| | | | | |]; try done. destruct f; try done. cbn [body_length body_ok] in *.
  unfold string_len. pose proof (slen_nonneg s). pose proof (align4_up (slen s)) as [H1 H2]; [lia|].
  destruct (_ || _); [done|]. by rewrite (align4_id (align4 (slen s))) by lia.
Qed.

Lemma dec_body l : forall st pre stale c fuel k,
  Forall encodable l -> Forall decodable l -> msg_hdr (ds_msg st) = h' -> ds_fingerprint st = false ->
  attr_count (ds_msg st) + Z.of_nat (length l) <= 16 -> 0 <= k ->
  body_room padding_char h l <= slen stale ->
  let body := stun_body padding_char h l stale in
  dec_loop strerror (pre ++ body ++ c) (length l + fuel) want st (slen pre) (body_room padding_char h l + k) =
  dec_loop strerror (pre ++ body ++ c) fuel want
    (foldl push st (received padding_char h <$> l)) (slen (pre ++ body)) k.
Proof.
  induction l as [|a l IH]; intros st pre stale c fuel k H Hd Eh Hfp Hc Hk Hs.
  - cbn [stun_body length Nat.add body_room foldr fmap list_fmap foldl]. by rewrite app_nil_r, Z.add_0_l.
  - apply Forall_cons in H as [Ha Hl]. apply Forall_cons in Hd as [Hda Hdl].
    cbn [stun_body length Nat.add body_room foldr fmap list_fmap foldl] in *. fold (body_room padding_char h l) in *.
    change (list_fmap _ _ (received padding_char h) l) with (received padding_char h <$> l).
    pose proof (body_room_nonneg padding_char h Htsx Htb l Hl) as [H0 _].
    pose proof (room_bounds padding_char h Htsx Htb a Ha) as Hb.
    pose proof (placed_length padding_char h Htsx Htb a stale Ha) as Hpl.
    set (stale' := drop (Z.to_nat (room padding_char h a)) stale).
    set (body' := stun_body padding_char h l stale').
    pose proof (dec_body_step a st pre (take (Z.to_nat (room padding_char h a) - length (wire padding_char h a))
      (drop (length (wire padding_char h a)) stale) ++ body' ++ c) Ha Hda Eh Hfp) as E.
    assert (Epdu : pre ++ wire padding_char h a ++ take (Z.to_nat (room padding_char h a) - length (wire padding_char h a))
      (drop (length (wire padding_char h a)) stale) ++ body' ++ c = pre ++ (placed padding_char h a stale ++ body') ++ c)
      by (unfold placed; by rewrite <- !app_assoc).
    cbv zeta in E. rewrite Epdu in E. rewrite room_len_field, <- Z.add_assoc by done.
    erewrite dec_step; [| | |by apply len_field_range|lia|apply E; lia].
    + rewrite <- room_len_field by done.
      assert (Ep : slen pre + room padding_char h a = slen (pre ++ placed padding_char h a stale)) by (rewrite slen_app; lia).
      assert (Epdu2 : pre ++ (placed padding_char h a stale ++ body') ++ c =
        (pre ++ placed padding_char h a stale) ++ body' ++ c) by (by rewrite <- !app_assoc).
      rewrite Ep, Epdu2. unfold body'. rewrite IH; [by rewrite <- !app_assoc|done|done|done|done| |done|].
      * unfold attr_count, push in *. cbn. rewrite length_app. cbn [length]. lia.
      * unfold stale', slen in *. rewrite length_drop. lia.
    + rewrite <- Epdu. unfold wire.
      rewrite <- (app_assoc (be16 _)), (rd16_skip pre _ 0) by lia. apply rd16_here, Ha.
    + destruct (body_wire_split padding_char h a Ha) as [v Ev]. rewrite <- Epdu. unfold wire.
      rewrite Ev, <- !app_assoc. apply len_here, len_field_range, Ha.
Qed.

Lemma foldl_push l : forall st,
  foldl push st l = mk_dec_state (ds_msg st <| msg_attr := msg_attr (ds_msg st) ++ l |>)
                      (ds_msg_int st) (ds_fingerprint st).
Proof.
  induction l as [|a l IH]; intros [[hd attrs] mi fp]; cbn [foldl].
  - cbn. by rewrite app_nil_r.
  - rewrite IH. cbn. by rewrite <- app_assoc.
Qed.

(** MESSAGE-INTEGRITY and FINGERPRINT. *)
Lemma dec_mi_step hd attrs pre digest c fuel k :
  (length attrs < 16)%nat -> length digest = 20%nat -> 0 <= k ->
  let pdu := pre ++ (be16 PJ_STUN_ATTR_MESSAGE_INTEGRITY ++ be16 20 ++ digest) ++ c in
  dec_loop strerror pdu (S fuel) want (mk_dec_state (mk_stun_msg hd attrs) false false) (slen pre) (24 + k) =
  dec_loop strerror pdu fuel want (mk_dec_state (mk_stun_msg hd (attrs ++ [mi_attr digest])) true false)
    (slen pre + 24) k.
Proof.
  intros Hc Hd Hk pdu. unfold pdu. rewrite <- !app_assoc. change 24 with (align4 20 + 4).
  apply (dec_step _ _ _ _ _ PJ_STUN_ATTR_MESSAGE_INTEGRITY); [by apply type_here|by apply len_here|done|done|].
  change (find_attr_desc PJ_STUN_ATTR_MESSAGE_INTEGRITY) with (Some (mk_desc "MESSAGE-INTEGRITY" F_msgint F_msgint)).
  cbv iota. unfold dec_recognized. cbn [d_decode decode_attr]. unfold decode_msgint_attr.
  rewrite hdr_here by done. ored. cbn [a_length]. change (negb (20 =? 20)) with false. cbv iota.
  rewrite (valn pre _ 20 _ 0) by lia. rewrite rdn_here by done. ored.
  unfold dec_order. cbn [ds_fingerprint ds_msg_int ds_msg]. unfold dec_add, attr_count, PJ_STUN_MAX_ATTR. cbn [ds_msg msg_attr andb negb].
  change (PJ_STUN_ATTR_MESSAGE_INTEGRITY =? PJ_STUN_ATTR_MESSAGE_INTEGRITY) with true. cbv iota. cbn [andb ds_msg msg_attr].
  destruct (Z.leb_spec 16 (Z.of_nat (length attrs))); [lia|]. done.
Qed.

Lemma dec_fp_step hd attrs mi pre v c fuel k :
  (length attrs < 16)%nat -> is_u32 v -> 0 <= k ->
  let pdu := pre ++ (be16 PJ_STUN_ATTR_FINGERPRINT ++ be16 4 ++ be32 v) ++ c in
  dec_loop strerror pdu (S fuel) want (mk_dec_state (mk_stun_msg hd attrs) mi false) (slen pre) (8 + k) =
  dec_loop strerror pdu fuel want (mk_dec_state (mk_stun_msg hd (attrs ++ [fp_attr v])) mi true)
    (slen pre + 8) k.
Proof.
  intros Hc Hv Hk pdu. unfold pdu. rewrite <- !app_assoc. change 8 with (align4 4 + 4).
  apply (dec_step _ _ _ _ _ PJ_STUN_ATTR_FINGERPRINT); [by apply type_here|by apply len_here|done|done|].
  change (find_attr_desc PJ_STUN_ATTR_FINGERPRINT) with (Some (mk_desc "FINGERPRINT" F_uint F_uint)).
  cbv iota. unfold dec_recognized. cbn [d_decode decode_attr]. unfold decode_uint_attr.
  rewrite hdr_here by done. ored. cbn [a_length]. change (negb (4 =? 4)) with false. cbv iota.
  rewrite (val32 pre _ 4 _ 0) by lia. rewrite rd32_here by done. ored.
  unfold dec_order. cbn [ds_fingerprint ds_msg_int ds_msg].
  change (PJ_STUN_ATTR_FINGERPRINT =? PJ_STUN_ATTR_MESSAGE_INTEGRITY) with false.
  change (PJ_STUN_ATTR_FINGERPRINT =? PJ_STUN_ATTR_FINGERPRINT) with true. cbv iota. cbn [andb].
  unfold dec_add, attr_count, PJ_STUN_MAX_ATTR. cbn [ds_msg msg_attr].
  destruct (Z.leb_spec 16 (Z.of_nat (length attrs))); [lia|]. done.
Qed.

(** The attributes that the encoder fills in, as bytes. *)
Definition tail_bytes (mi : option (list Z)) (fp : option Z) : list Z :=
  from_option (fun d => be16 PJ_STUN_ATTR_MESSAGE_INTEGRITY ++ be16 20 ++ d) [] mi ++
  from_option (fun v => be16 PJ_STUN_ATTR_FINGERPRINT ++ be16 4 ++ be32 v) [] fp.

Lemma dec_tail hd attrs mi fp pre c fuel :
  (length attrs + length (signed [] mi fp) <= 16)%nat -> (length (signed [] mi fp) < fuel)%nat ->
  (forall d, mi = Some d -> length d = 20%nat) -> (forall v, fp = Some v -> is_u32 v) ->
  dec_loop strerror (pre ++ tail_bytes mi fp ++ c) fuel want (mk_dec_state (mk_stun_msg hd attrs) false false)
    (slen pre) (tail_room mi fp) =
  Some (inr (mk_dec_state (mk_stun_msg hd (attrs ++ signed [] mi fp)) (bool_decide (is_Some mi)) (bool_decide (is_Some fp)),
             slen pre + tail_room mi fp, 0)).
Proof.
  intros Hc Hf Hd Hv. unfold tail_bytes, signed, tail_room in *. cbn [app] in *.
  destruct fuel as [|n]; [lia|]. destruct mi as [d|]; cbn [from_option app length] in *.
  - pose proof (dec_mi_step hd attrs pre d (from_option (fun v => be16 PJ_STUN_ATTR_FINGERPRINT ++ be16 4 ++ be32 v) [] fp ++ c)
      n (fp_room fp)) as E. cbv zeta in E. rewrite <- !app_assoc in E. rewrite <- !app_assoc.
    rewrite E; [|lia|by apply Hd|destruct fp; done]. clear E. destruct n as [|n]; [lia|].
    destruct fp as [v|]; cbn [from_option app fp_room length] in *; [|done].
    set (mb := be16 PJ_STUN_ATTR_MESSAGE_INTEGRITY ++ be16 20 ++ d).
    assert (Hmb : slen mb = 24) by (unfold mb, slen; rewrite !length_app, (Hd d) by done; done).
    pose proof (dec_fp_step hd (attrs ++ [mi_attr d]) true (pre ++ mb) v c n 0) as E2.
    rewrite slen_app, Hmb in E2. unfold mb in E2. rewrite <- !app_assoc in E2.
    cbv zeta in E2. change (8 + 0) with 8 in E2. rewrite <- !app_assoc, E2; [|rewrite length_app; cbn; lia|by apply Hv|done].
    destruct n as [|n]; [lia|]. rewrite <- Z.add_assoc, <- ?app_assoc. reflexivity.
  - destruct fp as [v|]; cbn [from_option app fp_room length] in *.
    + change (0 + 8) with (8 + 0) at 1.
      rewrite (dec_fp_step hd attrs false pre v c n 0); [|lia|by apply Hv|done].
      destruct n as [|n]; [lia|]. reflexivity.
    + rewrite app_nil_r. cbn [dec_loop]. change (4 <=? 0 + 0) with false. cbv iota. repeat f_equal. lia.
Qed.
End loop.

(** ** The packet *)

Lemma body_room_count padding_char h l :
  length (m_tsx_id h) = 12%nat -> Forall is_byte (m_tsx_id h) -> Forall encodable l ->
  (4 * length l <= Z.to_nat (body_room padding_char h l))%nat.
Proof.
  intros Ht Htb. induction 1 as [|a l Ha Hl IH]; [done|].
  pose proof (room_bounds padding_char h Ht Htb a Ha). pose proof (body_room_nonneg padding_char h Ht Htb l Hl).
  cbn [length body_room foldr]. fold (body_room padding_char h l). lia.
Qed.

Section packet.
Context (strerror : Z -> list Z) (padding_char : Z) (h : pj_stun_msg_hdr).
Context (Htsx : length (m_tsx_id h) = 12%nat) (Htb : Forall is_byte (m_tsx_id h)).

(** The digest and the fingerprint of a body. *)
Definition digest_of (key : option (list Z)) (body : list Z) : option (list Z) :=
  (fun k => mi_digest h k body) <$> key.
Definition fp_of (key : option (list Z)) (fp : option Z) (body : list Z) : option Z :=
  (fun _ => fp_value h (with_mi h key body)) <$> fp.

Lemma packet_split key fp body :
  with_fp h (bool_decide (is_Some fp)) (with_mi h key body) =
    body ++ tail_bytes (digest_of key body) (fp_of key fp body).
Proof.
  unfold tail_bytes. unfold digest_of, fp_of, with_mi, with_fp, fp_bytes, mi_bytes.
  destruct key, fp; cbn [fmap option_fmap option_map from_option bool_decide app];
    rewrite ?app_nil_r, <- ?app_assoc; done.
Qed.

Lemma digest_length key body d : digest_of key body = Some d -> length d = 20%nat.
Proof. destruct key; cbn; [|done]. intros [= <-]. apply hmac_sha1_of_length. Qed.

Lemma fp_value_u32 body : Forall is_byte body -> is_u32 (fp_value h body).
Proof.
  intros Hb. apply lxor_u32; [apply crc32_calc_u32, Forall_app; split; [by apply hdr_bytes_bytes|done]|].
  unfold is_u32, STUN_XOR_FINGERPRINT. lia.
Qed.

Lemma fp_of_u32 key fp body v : Forall is_byte body -> fp_of key fp body = Some v -> is_u32 v.
Proof.
  destruct fp; cbn; [|done]. intros Hb [= <-]. by apply fp_value_u32, with_mi_bytes.
Qed.

Lemma read_hdr L c : is_u16 (m_type h) -> is_u32 (m_magic h) -> is_u16 L ->
  read_stun_hdr (stun_hdr_bytes h L ++ c) = Some (h <| m_length := L |>).
Proof.
  intros Ht Hm HL. unfold read_stun_hdr, stun_hdr_bytes. rewrite <- !app_assoc.
  rewrite rd16_here by done. ored.
  rewrite (rd16_skip (be16 _) _ 0) by (done || lia). rewrite rd16_here by done. ored.
  rewrite (rd32_skip (be16 (m_type h)) _ 2), (rd32_skip (be16 L) _ 0) by (done || lia).
  rewrite rd32_here by done. ored.
  rewrite (rdn_skip (be16 (m_type h)) _ 12 6), (rdn_skip (be16 L) _ 12 4), (rdn_skip (be32 _) _ 12 0) by (done || lia).
  by rewrite rdn_here.
Qed.

(** The check of a packet of the encoder comes down to its last eight bytes. *)
Lemma check_head addr b c options :
  is_u16 (m_type h) -> m_type h < 512 -> is_u32 (m_magic h) -> slen b mod 4 = 0 -> slen b <= 65535 ->
  let pdu := (stun_hdr_bytes h (slen b) ++ b) ++ c in
  pj_stun_msg_check pdu addr (20 + slen b) options =
    if negb (m_magic h =? PJ_STUN_MAGIC) || negb (Z.land options PJ_STUN_NO_FINGERPRINT_CHECK =? 0)
    then Some PJ_SUCCESS
    else
      t ← rd16 pdu (slen b + 20 - 8);
      if negb (t =? PJ_STUN_ATTR_FINGERPRINT) then Some PJ_SUCCESS
      else
        attr_len ← rd16 pdu (slen b + 20 - 8 + 2);
        fingerprint ← rd32 pdu (slen b + 20 - 8 + 4);
        if negb (attr_len =? 4) then Some PJNATH_ESTUNINATTRLEN
        else
          data ← rdn pdu 0 (Z.to_nat (slen b + 20 - 8));
          crc ← Table.pj_crc32_calc addr data;
          Some (if negb (Z.lxor crc STUN_XOR_FINGERPRINT =? fingerprint)
                then PJNATH_ESTUNFINGERPRINT else PJ_SUCCESS).
Proof.
  intros Ht Ht2 Hm H4 Hl pdu. pose proof (slen_nonneg b) as H0.
  assert (HL : is_u16 (slen b)) by (unfold is_u16; lia).
  unfold pj_stun_msg_check, sizeof_stun_hdr. destruct (Z.ltb_spec (20 + slen b) 20); [lia|].
  unfold pdu. rewrite <- app_assoc.
  assert (E0 : rd8 (stun_hdr_bytes h (slen b) ++ b ++ c) 0 = Some (m_type h / 256 mod 256)) by done.
  rewrite E0. ored.
  assert (Hb0 : negb (m_type h / 256 mod 256 =? 0) && negb (m_type h / 256 mod 256 =? 1) = false).
  { unfold is_u16 in Ht. destruct (Z.eqb_spec (m_type h / 256 mod 256) 0); [done|].
    destruct (Z.eqb_spec (m_type h / 256 mod 256) 1); [done|]. Z.to_euclidean_division_equations; lia. }
  rewrite Hb0. rewrite hdr_get by done. ored.
  destruct (Z.ltb_spec (20 + slen b) (slen b + 20)); [lia|]. cbn [orb].
  rewrite (proj2 (Z.eqb_eq (slen b + 20) (20 + slen b))) by lia. cbn [negb]. rewrite andb_false_r.
  change 3 with (Z.ones 2). rewrite Z.land_ones by lia. change (2 ^ 2) with 4. rewrite H4.
  change (negb (0 =? 0)) with false. cbv iota.
  assert (Em : rd32 (stun_hdr_bytes h (slen b) ++ b ++ c) 4 = Some (m_magic h)).
  { unfold stun_hdr_bytes. rewrite <- !app_assoc.
    rewrite (rd32_skip (be16 (m_type h)) _ 2), (rd32_skip (be16 _) _ 0) by (done || lia). by apply rd32_here. }
  rewrite Em. ored. destruct (negb (m_magic h =? _)); [done|]. cbn [orb]. by destruct (negb (Z.land _ _ =? 0)).
Qed.

(** The check accepts a packet that ends with its FINGERPRINT. *)
Lemma check_packet addr pre c options :
  is_u16 (m_type h) -> m_type h < 512 -> is_u32 (m_magic h) -> Forall is_byte pre -> slen pre mod 4 = 0 ->
  let b := with_fp h true pre in
  slen b <= 65535 ->
  pj_stun_msg_check (stun_packet h None true pre ++ c) addr (20 + slen b) options = Some PJ_SUCCESS.
Proof.
  intros Ht Ht2 Hm Hb H4 b Hl. unfold stun_packet. cbn [with_mi]. fold b.
  pose proof (slen_nonneg pre) as H1.
  assert (Eb : slen b = slen pre + 8) by (unfold b; cbn [with_fp]; by rewrite slen_app, fp_bytes_length).
  assert (Hb4 : slen b mod 4 = 0) by (by rewrite Eb, <- Z.add_mod_idemp_l, H4 by lia).
  rewrite check_head by done. destruct (_ || _); [done|]. rewrite <- app_assoc, Eb.
  set (hd := stun_hdr_bytes h (slen pre + 8)).
  assert (Hp : slen (hd ++ pre) = slen pre + 20) by (rewrite slen_app; unfold hd; rewrite stun_hdr_length by done; lia).
  assert (Ep : hd ++ b ++ c = (hd ++ pre) ++ be16 PJ_STUN_ATTR_FINGERPRINT ++ be16 4 ++ be32 (fp_value h pre) ++ c).
  { unfold b, with_fp, fp_bytes. by rewrite <- !app_assoc. }
  replace (slen pre + 8 + 20 - 8) with (slen (hd ++ pre)) by lia. rewrite Ep.
  rewrite type_here, len_here by done. ored. rewrite (val32 _ _ 4 _ 0) by lia.
  rewrite rd32_here by (by apply fp_value_u32). ored.
  change (negb (PJ_STUN_ATTR_FINGERPRINT =? PJ_STUN_ATTR_FINGERPRINT)) with false.
  change (negb (4 =? 4)) with false. cbv iota. rewrite rdn_head. ored.
  rewrite crc32_calc_ref by (apply Forall_app; split; [by apply hdr_bytes_bytes|done]). ored.
  unfold hd. change (Z.lxor (Bitwise.pj_crc32_calc_bits (stun_hdr_bytes h (slen pre + 8) ++ pre)) STUN_XOR_FINGERPRINT)
    with (fp_value h pre). by rewrite Z.eqb_refl.
Qed.

(** Without one, it accepts what does not end like a FINGERPRINT. *)
Lemma check_unsigned addr b c options :
  is_u16 (m_type h) -> m_type h < 512 -> is_u32 (m_magic h) -> Forall is_byte b -> slen b mod 4 = 0 ->
  slen b <= 65535 ->
  let packet := stun_packet h None false b in
  Z.land options PJ_STUN_NO_FINGERPRINT_CHECK <> 0 \/ m_magic h <> PJ_STUN_MAGIC \/
    rd16 packet (slen packet - 8) <> Some PJ_STUN_ATTR_FINGERPRINT ->
  pj_stun_msg_check (packet ++ c) addr (20 + slen b) options = Some PJ_SUCCESS.
Proof.
  intros Ht Ht2 Hm Hb H4 Hl packet Hc. unfold packet, stun_packet in *. cbn [with_mi with_fp] in *.
  rewrite check_head by done. destruct (Z.eqb_spec (m_magic h) PJ_STUN_MAGIC); [|done].
  destruct (Z.eqb_spec (Z.land options PJ_STUN_NO_FINGERPRINT_CHECK) 0); [|done]. cbn [negb orb].
  destruct Hc as [?|[?|Hc]]; [done..|]. set (p := stun_hdr_bytes h (slen b) ++ b) in *.
  assert (Hpl : slen p = 20 + slen b) by (unfold p; by rewrite slen_app, stun_hdr_length).
  assert (Hpb : Forall is_byte p) by (apply Forall_app; split; [by apply hdr_bytes_bytes|done]).
  pose proof (slen_nonneg b). destruct (get16 p Hpb (slen p - 8)) as (t & Et & _); [lia..|].
  replace (slen b + 20 - 8) with (slen p - 8) by lia.
  rewrite (rd16_app _ _ _ _ Et). ored. rewrite Et in Hc.
  destruct (Z.eqb_spec t PJ_STUN_ATTR_FINGERPRINT); [congruence|done].
Qed.

(** The message the receiver has. *)
Definition received_msg (l : list pj_stun_attr) (key : option (list Z)) (fp : option Z) (body : list Z) : pj_stun_msg :=
  let b := with_fp h (bool_decide (is_Some fp)) (with_mi h key body) in
  mk_stun_msg (h <| m_length := slen b |>)
    (signed (received padding_char h <$> l) (digest_of key body) (fp_of key fp body)).

(** What the check of the packet needs: the type of a STUN message and, where
    it looks for a FINGERPRINT, either one or last eight bytes that do not
    begin as one does: the check reads them whatever they belong to. *)
Definition checkable (fp : option Z) (options : Z) (packet : list Z) : Prop :=
  Z.land options PJ_STUN_CHECK_PACKET = 0 \/
  (m_type h < 512 /\
   (is_Some fp \/ Z.land options PJ_STUN_NO_FINGERPRINT_CHECK <> 0 \/ m_magic h <> PJ_STUN_MAGIC \/
    rd16 packet (slen packet - 8) <> Some PJ_STUN_ATTR_FINGERPRINT)).

Lemma decode_packet l key fp stale c addr options want :
  is_u16 (m_type h) -> is_u32 (m_magic h) ->
  Forall encodable l -> Forall decodable l -> (length (signed l (key) fp) <= 16)%nat ->
  body_room padding_char h l + tail_room key fp <= 65535 -> body_room padding_char h l <= slen stale ->
  Forall is_byte stale ->
  let body := stun_body padding_char h l stale in
  let packet := stun_packet h key (bool_decide (is_Some fp)) body in
  checkable fp options packet ->
  pj_stun_msg_decode strerror (packet ++ c) addr (slen packet) options want =
    Some (mk_dec_result PJ_SUCCESS (Some (received_msg l key fp body)) (slen packet) None).
Proof.
  intros Ht Hm He Hd Hc Htot Hs Hsb body packet Hck.
  assert (Hbb : Forall is_byte body) by (by apply stun_body_bytes).
  assert (Hbl : slen body = body_room padding_char h l) by (by apply stun_body_length).
  pose proof (body_room_nonneg padding_char h Htsx Htb l He) as [H0 H4].
  set (b := with_fp h (bool_decide (is_Some fp)) (with_mi h key body)).
  assert (Hb : slen b = body_room padding_char h l + tail_room key fp).
  { unfold b. rewrite with_fp_length, with_mi_length, Hbl by done. unfold tail_room. destruct key; lia. }
  assert (Htr := tail_room_nonneg key fp).
  assert (HL : is_u16 (slen b)) by (unfold is_u16; lia).
  assert (Hp : slen packet = 20 + slen b) by (unfold packet, stun_packet; rewrite slen_app, stun_hdr_length; done).
  unfold pj_stun_msg_decode. destruct (Z.eqb_spec (slen packet) 0); [lia|].
  assert (Echk : (if negb (Z.land options PJ_STUN_CHECK_PACKET =? 0)
    then pj_stun_msg_check (packet ++ c) addr (slen packet) options else Some PJ_SUCCESS) = Some PJ_SUCCESS).
  { destruct Hck as [-> |[Ht2 Hfp]]; [done|]. destruct (negb _); [|done]. rewrite Hp.
    assert (Hwb : Forall is_byte (with_mi h key body)) by (by apply with_mi_bytes).
    assert (Hw4 : slen (with_mi h key body) mod 4 = 0).
    { rewrite with_mi_length, Hbl by done. destruct key; [|by rewrite Z.add_0_r].
      by rewrite <- Z.add_mod_idemp_l, H4. }
    unfold packet, b in *. destruct fp as [v|].
    - change (bool_decide (is_Some (Some v))) with true in *. by apply (check_packet addr (with_mi h key body)); [..|lia].
    - change (bool_decide (is_Some (@None Z))) with false in *.
      apply (check_unsigned addr (with_mi h key body)); [done..| |].
      { cbn [with_fp] in Hb. lia. }
      destruct Hfp as [[? [=]]|Hfp]. exact Hfp. }
  rewrite Echk. ored. cbn [negb Z.eqb PJ_SUCCESS].
  unfold packet at 1 2, stun_packet. fold b. rewrite <- !app_assoc, read_hdr by done. ored.
  set (h' := h <| m_length := slen b |>). change (m_length h') with (slen b). unfold sizeof_stun_hdr.
  set (w := want && _). set (tb := tail_bytes (digest_of key body) (fp_of key fp body)).
  assert (Eb : b = body ++ tb) by apply packet_split.
  assert (Et : tail_room (digest_of key body) (fp_of key fp body) = tail_room key fp) by (destruct key, fp; done).
  assert (Hcount : (4 * length l <= Z.to_nat (body_room padding_char h l))%nat) by (by apply body_room_count).
  set (sg := signed [] (digest_of key body) (fp_of key fp body)).
  assert (Hsg : (length l + length sg <= 16)%nat).
  { unfold signed in Hc. rewrite length_app in Hc. unfold sg. destruct key, fp; cbn in Hc |- *; lia. }
  assert (Hfuel : S (Z.to_nat (slen b)) = (length l + (S (Z.to_nat (slen b)) - length l))%nat) by lia.
  assert (Hf2 : (length sg < S (Z.to_nat (slen b)) - length l)%nat).
  { assert (Z.of_nat (length sg) <= tail_room key fp) by (unfold sg, tail_room, fp_room; destruct key, fp; done). lia. }
  set (st0 := mk_dec_state (mk_stun_msg h' []) false false).
  assert (E : dec_loop strerror (stun_hdr_bytes h (slen b) ++ b ++ c) (S (Z.to_nat (slen b))) w st0 20 (slen b) =
    Some (inr (mk_dec_state (mk_stun_msg h' ((received padding_char h <$> l) ++ sg))
      (bool_decide (is_Some (digest_of key body))) (bool_decide (is_Some (fp_of key fp body))), 20 + slen b, 0))).
  { rewrite Hfuel. set (fu := (S (Z.to_nat (slen b)) - length l)%nat) in *.
    set (hd := stun_hdr_bytes h (slen b)). assert (Hhd : slen hd = 20) by (unfold hd; by rewrite stun_hdr_length).
    rewrite Hb, Eb, <- app_assoc. rewrite <- Hhd at 1.
    rewrite (dec_body strerror padding_char h h' w Htsx Htb eq_refl l st0 hd stale (tb ++ c) fu); [|done..| |lia|done].
    2: { change (attr_count (ds_msg st0)) with 0. lia. }
    rewrite foldl_push. cbn [ds_msg ds_msg_int ds_fingerprint st0].
    assert (Er : (hd ++ body ++ tb ++ c) = (hd ++ body) ++ tb ++ c) by (by rewrite <- app_assoc).
    fold body. rewrite Er, <- Et.
    change (mk_stun_msg h' [] <| msg_attr := _ |>) with (mk_stun_msg h' (received padding_char h <$> l)).
    unfold tb. rewrite (dec_tail strerror h w Htsx); [|rewrite length_fmap; exact Hsg|exact Hf2|exact (digest_length key body)|intros v; by apply fp_of_u32].
    rewrite slen_app, Hhd, Hbl, Z.add_assoc. done. }
  rewrite E. ored. cbn [ds_msg]. unfold received_msg. fold b. rewrite Hp. done.
Qed.
End packet.

Lemma received_signed padding_char h l mi fp :
  (forall d, mi = Some d -> length d = 20%nat) ->
  received padding_char h <$> signed l mi fp = signed (received padding_char h <$> l) mi fp.
Proof.
  intros Hd. unfold signed. rewrite !fmap_app. f_equal. f_equal; [|by destruct fp].
  destruct mi as [d|]; [|done]. cbn [from_option fmap list_fmap].
  unfold received, len_field, received_body, mi_attr. cbn [a_body attr_type a_hdr a_type body_length].
  unfold slen. by rewrite (Hd d).
Qed.

(** An attribute as [pj_stun_*_attr_create] makes it, with nothing to pad,
    comes back as it is. *)
Lemma received_id padding_char h a :
  a_length (a_hdr a) = body_length (a_body a) ->
  match a_body a with
  | A_string s => slen s mod 4 = 0 /\ slen s <= 65532
  | A_binary m _ => find_attr_desc (attr_type a) = None /\ m = PJ_STUN_MAGIC
  | _ => True
  end -> received padding_char h a = a.
Proof.
  destruct a as [[t len] b]. cbn [a_hdr a_length a_body]. intros -> H.
  unfold received, received_body, len_field, attr_type in *. cbn [a_hdr a_type a_body] in *.
  destruct b as [| |s| | | | | |m s]; try done.
  - destruct H as [H1 H2]. unfold string_len, body_length. pose proof (slen_nonneg s).
    rewrite align4_id by (done || lia). by destruct (_ || _); rewrite Z.eqb_refl.
  - by destruct H as [-> ->].
Qed.

(** C17: a message that was encoded decodes, whatever is behind the packet, to
    its header with the length and every attribute as its receiver sees it
    ([received]: SOFTWARE, and in a message without the magic every string,
    comes with the bytes that pad it), with MESSAGE-INTEGRITY and FINGERPRINT
    as they were computed; all of the packet is consumed.  With the check of
    the packet this is for messages whose type is that of a STUN message and
    that have a FINGERPRINT, or whose last eight bytes do not begin as one
    ([checkable]): the check reads them as a FINGERPRINT if they do. *)
Theorem stun_roundtrip (strerror : Z -> list Z) (padding_char crc_addr addr : Z) (tctx : pj_sha1_context)
    (hctx : pj_hmac_sha1_context) (h : pj_stun_msg_hdr) (l : list pj_stun_attr)
    (mi : option (list Z)) (fp : option Z) (key : option (list Z)) (mem : list Z)
    (buf_size options : Z) (want : bool) :
  sendable padding_char h l mi fp key -> memory_ok tctx hctx mem ->
  packet_length padding_char h l mi fp <= buf_size < 4294967296 -> buf_size <= slen mem ->
  is_u16 (m_type h) -> is_u32 (m_magic h) -> Forall decodable l ->
  exists r,
    pj_stun_msg_encode padding_char crc_addr tctx hctx (mk_stun_msg h (signed l mi fp)) mem buf_size 0 key = Some r /\
    er_status r = PJ_SUCCESS /\
    (checkable h fp options (take (Z.to_nat (er_len r)) (er_mem r)) ->
     pj_stun_msg_decode strerror (er_mem r) addr (er_len r) options want =
      Some (mk_dec_result PJ_SUCCESS
        (Some (mk_stun_msg (msg_hdr (er_msg r)) (received padding_char h <$> msg_attr (er_msg r))))
        (er_len r) None)) /\
    exists digest v, msg_attr (er_msg r) = signed l digest v /\
      (is_Some digest <-> is_Some mi) /\ (is_Some v <-> is_Some fp).
Proof.
  intros Hs Hm Hb Hbm Ht Hmg Hd. rewrite encode_fits by done. eexists. split; [reflexivity|].
  cbn [er_status er_mem er_len er_msg]. split; [done|].
  pose proof Hs as (Htsx & Htb & Hl & Hc & Hkey & Hk & Htot). destruct Hm as (_ & _ & Hmem).
  pose proof (tail_room_nonneg mi fp) as Htr.
  assert (Hst : body_room padding_char h l <= slen (drop 20 mem)).
  { unfold packet_length, slen in *. rewrite length_drop. lia. }
  assert (Etr : tail_room (sign_key mi key) fp = tail_room mi fp).
  { unfold tail_room. destruct mi; [destruct Hkey as [k ->]|]; done. }
  assert (Esl : length (signed l (sign_key mi key) fp) = length (signed l mi fp)).
  { unfold signed. rewrite !length_app. destruct mi; [destruct Hkey as [k ->]|]; done. }
  split.
  - rewrite <- (stun_packet_length padding_char h l mi fp key (drop 20 mem)) by done.
    rewrite take_slen. intros Hck.
    rewrite decode_packet; [|done..|by rewrite Esl|by rewrite Etr|done|by apply Forall_drop|done].
    unfold received_msg, encoded_msg. cbn [msg_hdr msg_attr].
    rewrite received_signed; [done|]. exact (digest_length h (sign_key mi key) _).
  - unfold encoded_msg. cbn [msg_attr]. eexists _, _. split; [reflexivity|]. split.
    + destruct mi; [destruct Hkey as [k ->]|]; [done|cbn; split; eauto|cbn; split; intros [? [=]]].
    + destruct fp; cbn; split; eauto.
Qed.
