(* ===== verification/StunAuth.v ===== *)
(** * STUN authentication

    The credentials of [pjnath/stun_auth.c]: the key of long term credentials,
    the verification of requests and of responses, and the challenges.  A
    message is verified against the packet it was decoded from.  The callbacks
    of a dynamic credential are functions of the application. *)

From Stdlib Require Import String.
From S2P Require Import Prelude Bytes PjString Digest Sha1 Md5 Hmac Crc32 StunMsg.
Local Open Scope Z_scope.

(** ** Credentials *)

Inductive pj_stun_passwd_type := PJ_STUN_PASSWD_PLAIN | PJ_STUN_PASSWD_HASHED.

Record static_cred := mk_static_cred {
  sc_realm : list Z;
  sc_username : list Z;
  sc_data_type : pj_stun_passwd_type;
  sc_data : list Z;
  sc_nonce : list Z
}.

(** The callbacks: [get_auth] gives a status, a realm and a nonce;
    [get_cred] gives a client a status, a realm, a user name, a nonce, and a
    password with its type; [get_password] gives a server a status, a type and
    a password, from a realm, if any, and a user name; [verify_nonce] may be
    NULL. *)
Record dyn_cred := mk_dyn_cred {
  dc_get_auth : Z * list Z * list Z;
  dc_get_cred : pj_stun_msg -> Z * list Z * list Z * list Z * pj_stun_passwd_type * list Z;
  dc_get_password : pj_stun_msg -> option (list Z) -> list Z -> Z * pj_stun_passwd_type * list Z;
  dc_verify_nonce : option (pj_stun_msg -> option (list Z) -> list Z -> list Z -> bool)
}.

Inductive pj_stun_auth_cred :=
  | PJ_STUN_AUTH_CRED_STATIC (c : static_cred)
  | PJ_STUN_AUTH_CRED_DYNAMIC (c : dyn_cred).

Record pj_stun_req_cred_info := mk_cred_info {
  ci_realm : list Z;
  ci_username : list Z;
  ci_nonce : list Z;
  ci_auth_key : list Z
}.

#[export] Instance eta_cred_info : Settable pj_stun_req_cred_info :=
  fun i => mk_cred_info (ci_realm i) (ci_username i) (ci_nonce i) (ci_auth_key i).

Definition pj_stun_auth_cred_dup (src : pj_stun_auth_cred) : pj_stun_auth_cred :=
  match src with
  | PJ_STUN_AUTH_CRED_STATIC c =>
      PJ_STUN_AUTH_CRED_STATIC
        (mk_static_cred (sc_realm c) (sc_username c) (sc_data_type c) (sc_data c) (sc_nonce c))
  | PJ_STUN_AUTH_CRED_DYNAMIC c => PJ_STUN_AUTH_CRED_DYNAMIC c
  end.

Definition pj_stun_req_cred_info_dup (src : pj_stun_req_cred_info) : pj_stun_req_cred_info :=
  mk_cred_info (ci_realm src) (ci_username src) (ci_nonce src) (ci_auth_key src).

(** ** Keys *)

Definition REMOVE_QUOTE (s : list Z) : list Z :=
  let s := match s with c :: rest => if c =? 34 then rest else s | [] => s end in
  match last s with
  | Some c => if c =? 34 then take (length s - 1) s else s
  | None => s
  end.

Section auth.
(** The contexts on the stack: of MD5, and of HMAC-SHA1 with the one that
    hashes a long key. *)
Context (mctx : pj_md5_context) (tctx : pj_sha1_context) (hctx : pj_hmac_sha1_context).

Definition calc_md5_key (realm username passwd : list Z) : option (list Z) :=
  let ctx := pj_md5_init mctx in
  ctx ← pj_md5_update ctx (REMOVE_QUOTE username);
  ctx ← pj_md5_update ctx (lit ":");
  ctx ← pj_md5_update ctx (REMOVE_QUOTE realm);
  ctx ← pj_md5_update ctx (lit ":");
  ctx ← pj_md5_update ctx passwd;
  r ← pj_md5_final ctx;
  Some r.2.

Definition pj_stun_create_key (realm : option (list Z)) (username : list Z)
    (data_type : pj_stun_passwd_type) (data : list Z) : option (list Z) :=
  match realm with
  | Some (c :: rest) =>
      match data_type with
      | PJ_STUN_PASSWD_PLAIN => calc_md5_key (c :: rest) username data
      | PJ_STUN_PASSWD_HASHED => Some data
      end
  | _ => Some data
  end.

Definition PUT_VAL16 (buf : list Z) (pos hval : Z) : option (list Z) :=
  buf ← zstore buf pos (u8 (Z.shiftr (Z.land hval 0xFF00) 8));
  zstore buf (pos + 1) (u8 (Z.shiftr (Z.land hval 0x00FF) 0)).

(** ** Challenges *)

(** Adding a string attribute: [pj_stun_msg_add_string_attr]. *)
Definition add_string (msg : pj_stun_msg) (t : Z) (value : list Z) : Z * pj_stun_msg :=
  add_created msg (inr (pj_stun_string_attr_create t value)).

(** The status, and [*p_response] if it was set. *)
Definition create_challenge (msg : pj_stun_msg) (err_code : Z) (errstr : option (list Z))
    (realm nonce : list Z) : option (Z * option pj_stun_msg) :=
  r ← pj_stun_msg_create_response msg err_code errstr;
  match r with
  | inl rc => Some (rc, None)
  | inr response =>
      let '(rc, response, nonce) :=
        if negb (err_code =? 400) && negb (slen realm =? 0) then
          let '(rc, response) := add_string response PJ_STUN_ATTR_REALM realm in
          (rc, response, if slen nonce =? 0 then lit "pjstun" else nonce)
        else (PJ_SUCCESS, response, nonce) in
      if negb (rc =? PJ_SUCCESS) then Some (rc, None)
      else
        let '(rc, response) :=
          if negb (err_code =? 400) && negb (slen nonce =? 0)
          then add_string response PJ_STUN_ATTR_NONCE nonce else (PJ_SUCCESS, response) in
        if negb (rc =? PJ_SUCCESS) then Some (rc, None) else Some (PJ_SUCCESS, Some response)
  end.

(** ** The digest of a packet *)

(** Look for MESSAGE-INTEGRITY while counting the position: the attribute, its
    position, and whether there is another one behind it. *)
Fixpoint find_msgint (attrs : list pj_stun_attr) (amsgi : option pj_stun_attr) (pos : Z) :
    option pj_stun_attr * Z * bool :=
  match attrs with
  | [] => (amsgi, pos, false)
  | a :: rest =>
      if attr_type a =? PJ_STUN_ATTR_MESSAGE_INTEGRITY then find_msgint rest (Some a) pos
      else
        match amsgi with
        | Some _ => (amsgi, pos, true)
        | None => find_msgint rest None (u32 (pos + (align4 (a_length (a_hdr a)) + 4)))
        end
  end.

(** Calculate HMAC of the message. *)
Definition msgint_digest (pkt key : list Z) (amsgi_pos : Z) (has_attr_beyond_mi : bool) :
    option (list Z) :=
  ctx ← pj_hmac_sha1_init tctx hctx key;
  hdr ← rdn pkt 0 20;
  hdr ← (if has_attr_beyond_mi then PUT_VAL16 hdr 2 (u16 (amsgi_pos + 24)) else Some hdr);
  ctx ← pj_hmac_sha1_update ctx hdr;
  body ← rdn pkt 20 (Z.to_nat amsgi_pos);
  ctx ← pj_hmac_sha1_update ctx body;
  r ← pj_hmac_sha1_final ctx;
  Some r.2.

(** ** Requests *)

(** [->value] of an attribute that is taken for a string. *)
Definition string_value (a : pj_stun_attr) : option (list Z) :=
  match a_body a with A_string s => Some s | _ => None end.

(** The value of an attribute of the message, if it is there. *)
Definition find_string (msg : pj_stun_msg) (t : Z) : option (option (list Z)) :=
  match pj_stun_msg_find_attr msg t 0 with
  | None => Some None
  | Some a => v ← string_value a; Some (Some v)
  end.

(** An authentication failure: [err_code] and [err_text]. *)
Definition auth_failure : Type := Z * option (list Z).

(** Check if username match: the name and the key. *)
Definition check_username (msg : pj_stun_msg) (cred : pj_stun_auth_cred) (realm : list Z)
    (arealm : option (list Z)) (auser : list Z) : option (auth_failure + list Z * list Z) :=
  match cred with
  | PJ_STUN_AUTH_CRED_STATIC c =>
      if pj_strcmp auser (sc_username c) =? 0 then
        key ← pj_stun_create_key (Some realm) auser (sc_data_type c) (sc_data c);
        Some (inr (sc_username c, key))
      else Some (inl (PJ_STUN_SC_UNAUTHORIZED, None))
  | PJ_STUN_AUTH_CRED_DYNAMIC c =>
      let '(rc, data_type, password) := dc_get_password c msg arealm auser in
      if rc =? PJ_SUCCESS then
        key ← pj_stun_create_key arealm auser data_type password;
        Some (inr (auser, key))
      else Some (inl (PJ_STUN_SC_UNAUTHORIZED, None))
  end.

(** Check for long term/short term requirements. *)
Definition check_term (realm nonce : list Z) (arealm anonce : option (list Z)) :
    option auth_failure :=
  match arealm with
  | None =>
      if negb (slen realm =? 0) then Some (PJ_STUN_SC_BAD_REQUEST, Some (lit "Missing REALM"))
      else if negb (slen nonce =? 0) then
        Some (PJ_STUN_SC_UNAUTHORIZED, Some (lit "NONCE required"))
      else None
  | Some arealm =>
      if negb (slen realm =? 0) then
        if bool_decide (anonce = None) && negb (slen nonce =? 0)
        then Some (PJ_STUN_SC_BAD_REQUEST, Some (lit "Missing NONCE"))
        else if negb (stricmp_eq arealm realm)
        then Some (PJ_STUN_SC_UNAUTHORIZED, Some (lit "Invalid REALM"))
        else None
      else None
  end.

(** If NONCE is present, validate it. *)
Definition check_nonce (msg : pj_stun_msg) (cred : pj_stun_auth_cred) (nonce : list Z)
    (arealm : option (list Z)) (auser : list Z) (anonce : option (list Z)) : bool :=
  match anonce with
  | None => true
  | Some anonce =>
      match cred with
      | PJ_STUN_AUTH_CRED_DYNAMIC c =>
          match dc_verify_nonce c with
          | Some verify_nonce => verify_nonce msg arealm auser anonce
          | None => true
          end
      | PJ_STUN_AUTH_CRED_STATIC _ =>
          if negb (slen nonce =? 0) then pj_strcmp anonce nonce =? 0 else true
      end
  end.

(** Now calculate HMAC of the message, and compare. *)
Definition check_msgint (pkt key : list Z) (amsgi : pj_stun_attr) (amsgi_pos : Z) (beyond : bool) :
    option bool :=
  digest ← msgint_digest pkt key amsgi_pos beyond;
  match a_body amsgi with
  | A_msgint hmac => Some (memcmp 20 hmac digest =? 0)
  | _ => None
  end.

(** The checks up to [on_auth_failed], and [p_info]. *)
Definition auth_checks (pkt : list Z) (msg : pj_stun_msg) (cred : pj_stun_auth_cred)
    (info : pj_stun_req_cred_info) : option (option auth_failure * pj_stun_req_cred_info) :=
  let realm := ci_realm info in
  let nonce := ci_nonce info in
  let '(amsgi, amsgi_pos, beyond) := find_msgint (msg_attr msg) None 0 in
  match amsgi with
  | None =>
      Some (Some (if negb (slen realm =? 0) then PJ_STUN_SC_UNAUTHORIZED
                  else PJ_STUN_SC_BAD_REQUEST, None), info)
  | Some amsgi =>
      auser ← find_string msg PJ_STUN_ATTR_USERNAME;
      match auser with
      | None => Some (Some (PJ_STUN_SC_BAD_REQUEST, Some (lit "Missing USERNAME")), info)
      | Some auser =>
          arealm ← find_string msg PJ_STUN_ATTR_REALM;
          if negb (slen realm =? 0) && bool_decide (arealm = None)
          then Some (Some (PJ_STUN_SC_BAD_REQUEST, Some (lit "Missing REALM")), info)
          else
            u ← check_username msg cred realm arealm auser;
            match u with
            | inl e => Some (Some e, info)
            | inr (username, key) =>
                let info := info <| ci_username := username |> <| ci_auth_key := key |> in
                anonce ← find_string msg PJ_STUN_ATTR_NONCE;
                match check_term realm nonce arealm anonce with
                | Some e => Some (Some e, info)
                | None =>
                    if negb (check_nonce msg cred nonce arealm auser anonce)
                    then Some (Some (PJ_STUN_SC_STALE_NONCE, None), info)
                    else
                      ok ← check_msgint pkt key amsgi amsgi_pos beyond;
                      Some (if negb ok then
                              Some (PJ_STUN_SC_UNAUTHORIZED, Some (lit "MESSAGE-INTEGRITY mismatch"))
                            else None, info)
                end
            end
      end
  end.

(** The outcome: the status, [*p_info] and [*p_response]. *)
Record auth_result := mk_auth_result {
  ar_status : Z;
  ar_info : pj_stun_req_cred_info;
  ar_response : option pj_stun_msg
}.

(** [want_response]: [p_response] is not NULL. *)
Definition pj_stun_authenticate_request (pkt : list Z) (pkt_len : Z) (msg : pj_stun_msg)
    (cred : pj_stun_auth_cred) (want_response : bool) : option auth_result :=
  if pkt_len =? 0 then Some (mk_auth_result PJ_EINVAL (mk_cred_info [] [] [] []) None)
  else
    let want := want_response && PJ_STUN_IS_REQUEST (m_type (msg_hdr msg)) in
    let '(status, realm, nonce) :=
      match cred with
      | PJ_STUN_AUTH_CRED_STATIC c => (PJ_SUCCESS, sc_realm c, sc_nonce c)
      | PJ_STUN_AUTH_CRED_DYNAMIC c => dc_get_auth c
      end in
    let info := mk_cred_info realm [] nonce [] in
    if negb (status =? PJ_SUCCESS) then Some (mk_auth_result status info None)
    else
      r ← auth_checks pkt msg cred info;
      let '(failure, info) := r : option auth_failure * pj_stun_req_cred_info in
      match failure with
      | None => Some (mk_auth_result PJ_SUCCESS info None)
      | Some (err_code, err_text) =>
          response ← (if want then
                        r ← create_challenge msg err_code err_text (ci_realm info) (ci_nonce info);
                        Some r.2
                      else Some None);
          Some (mk_auth_result (PJ_STATUS_FROM_STUN_CODE err_code) info response)
      end.

(** ** Responses *)

Definition pj_stun_auth_valid_for_msg (msg : pj_stun_msg) : option bool :=
  let t := m_type (msg_hdr msg) in
  if negb (PJ_STUN_IS_ERROR_RESPONSE t) && negb (PJ_STUN_IS_INDICATION t) then Some true
  else if PJ_STUN_IS_INDICATION t then Some false
  else
    match pj_stun_msg_find_attr msg PJ_STUN_ATTR_ERROR_CODE 0 with
    | None => Some true
    | Some err_attr =>
        match a_body err_attr with
        | A_errcode code _ =>
            Some (negb ((code =? PJ_STUN_SC_BAD_REQUEST) || (code =? PJ_STUN_SC_UNAUTHORIZED) ||
                        (code =? PJ_STUN_SC_STALE_NONCE) || (code =? PJ_STUN_SC_UNKNOWN_ATTRIBUTE)))
        | _ => None
        end
    end.

Definition pj_stun_authenticate_response (pkt : list Z) (pkt_len : Z) (msg : pj_stun_msg)
    (key : list Z) : option Z :=
  if pkt_len =? 0 then Some PJ_EINVAL
  else
    match pj_stun_msg_find_attr msg PJ_STUN_ATTR_MESSAGE_INTEGRITY 0 with
    | None => Some (PJ_STATUS_FROM_STUN_CODE PJ_STUN_SC_UNAUTHORIZED)
    | Some _ =>
        if m_length (msg_hdr msg) <? 24 then Some PJNATH_EINSTUNMSGLEN
        else
          let '(amsgi, amsgi_pos, beyond) := find_msgint (msg_attr msg) None 0 in
          match amsgi with
          | None => Some (PJ_STATUS_FROM_STUN_CODE PJ_STUN_SC_BAD_REQUEST)
          | Some amsgi =>
              ok ← check_msgint pkt key amsgi amsgi_pos beyond;
              Some (if negb ok then PJ_STATUS_FROM_STUN_CODE PJ_STUN_SC_UNAUTHORIZED else PJ_SUCCESS)
          end
    end.
End auth.
