(* ===== verification/StunAuthSpec.v ===== *)
(** * STUN authentication: what it accepts

    A static credential accepts exactly the messages with the right user name,
    realm and nonce whose MESSAGE-INTEGRITY is the HMAC of the packet under
    the key of the credential; what is encoded with that key is accepted. *)

From Stdlib Require Import String.
From S2P Require Import Prelude Bytes PjString Digest Sha1 Md5 Hmac Crc32 StunMsg StunDecode StunEncode.
From S2P Require Import StunSpec StunAuth.
Local Open Scope Z_scope.
#[local] Set Warnings "-clear-no-such-hyp".

(** ** Specification *)

(** The value of the first attribute of a type, when it is a string. *)
Definition find_value (attrs : list pj_stun_attr) (t : Z) : option (list Z) :=
  a ← find_attr_from attrs t; string_value a.

(** The key of a credential. *)
Definition cred_key (c : static_cred) : list Z :=
  match sc_realm c, sc_data_type c with
  | [], _ | _, PJ_STUN_PASSWD_HASHED => sc_data c
  | _, PJ_STUN_PASSWD_PLAIN =>
      Rfc1321.md5 (REMOVE_QUOTE (sc_username c) ++ [58] ++ REMOVE_QUOTE (sc_realm c) ++ [58] ++ sc_data c)
  end.

(** The bytes under the digest: the header, with the length up to
    MESSAGE-INTEGRITY when something follows it, and [pos] bytes. *)
Definition auth_text (pkt : list Z) (pos : Z) (beyond : bool) : list Z :=
  let hdr := take 20 pkt in
  (if beyond then take 2 hdr ++ be16 (pos + 24) ++ drop 4 hdr else hdr) ++ take (Z.to_nat pos) (drop 20 pkt).

(** The strings of a request that a credential wants (RFC 5389, 10.1.2 and
    10.2.2): its user name, the realm of a long-term credential, up to case,
    and the nonce when the credential has one. *)
Definition credential_names (c : static_cred) (attrs : list pj_stun_attr) : Prop :=
  find_value attrs PJ_STUN_ATTR_USERNAME = Some (sc_username c) /\
  (sc_realm c <> [] -> exists r, find_value attrs PJ_STUN_ATTR_REALM = Some r /\ str_ci r (sc_realm c)) /\
  (sc_nonce c <> [] -> find_value attrs PJ_STUN_ATTR_NONCE = Some (sc_nonce c)).

(** A short-term credential that wants a nonce. *)
Definition short_term_nonce (c : static_cred) : Prop := sc_realm c = [] /\ sc_nonce c <> [].

(** The strings the code accepts.  They are those above but for short-term
    credentials that want a nonce ([names_ok_rule], [short_term_accepts]). *)
Definition names_ok (c : static_cred) (attrs : list pj_stun_attr) : Prop :=
  find_value attrs PJ_STUN_ATTR_USERNAME = Some (sc_username c) /\
  match find_value attrs PJ_STUN_ATTR_REALM with
  | None => sc_realm c = [] /\ sc_nonce c = []
  | Some r => sc_realm c <> [] ->
      str_ci r (sc_realm c) /\ (sc_nonce c <> [] -> find_value attrs PJ_STUN_ATTR_NONCE <> None)
  end /\
  (forall n, find_value attrs PJ_STUN_ATTR_NONCE = Some n -> sc_nonce c <> [] -> n = sc_nonce c).

Lemma names_ok_rule c attrs : ~ short_term_nonce c -> names_ok c attrs <-> credential_names c attrs.
Proof.
  unfold names_ok, credential_names, short_term_nonce. intros H.
  destruct (decide (sc_realm c = [])) as [E|E].
  - assert (En : sc_nonce c = []) by (destruct (decide (sc_nonce c = [])); tauto).
    rewrite E, En. split; [naive_solver|]. intros (-> & _). split_and!; [done|by destruct (find_value _ _)|done].
  - destruct (find_value attrs PJ_STUN_ATTR_REALM) as [r|]; [|naive_solver].
    destruct (find_value attrs PJ_STUN_ATTR_NONCE) as [n|]; split.
    + intros (-> & H1 & H2). destruct (H1 E) as [Hr _]. split_and!; [done|by eexists|]. intros Hn. f_equal. by apply H2.
    + intros (-> & H1 & H2). destruct (H1 E) as (r' & [= <-] & Hr). split_and!; [done|done|].
      intros n' [= <-] Hn. specialize (H2 Hn). congruence.
    + intros (-> & H1 & H2). destruct (H1 E) as [Hr Hn]. split_and!; [done|by eexists|]. intros Hn'. by destruct (Hn Hn').
    + intros (-> & H1 & H2). destruct (H1 E) as (r' & [= <-] & Hr). split_and!; [done| |done].
      intros _. split; [done|]. intros Hn. by specialize (H2 Hn).
Qed.

(** The digest of a message is that of its packet under [key]. *)
Definition digest_ok (key pkt : list Z) (attrs : list pj_stun_attr) : Prop :=
  exists l digest rest,
    attrs = l ++ mk_attr (mk_attr_hdr PJ_STUN_ATTR_MESSAGE_INTEGRITY 20) (A_msgint digest) :: rest /\
    digest = hmac_sha1_of key (auth_text pkt (attrs_size l) (bool_decide (rest <> []))).

(** ** Keys *)

Lemma remove_quote_bytes s : Forall is_byte s -> Forall is_byte (REMOVE_QUOTE s).
Proof.
  intros H. unfold REMOVE_QUOTE.
  assert (G : Forall is_byte (match s with c :: rest => if c =? 34 then rest else s | [] => s end)).
  { destruct s as [|c s]; [done|]. inversion H; subst. by destruct (c =? 34). }
  destruct (last _) as [c|]; [|done]. destruct (c =? 34); [by apply Forall_take|done].
Qed.

Lemma remove_quote_length s : slen (REMOVE_QUOTE s) <= slen s.
Proof.
  unfold REMOVE_QUOTE, slen. set (t := match s with c :: rest => if c =? 34 then rest else s | [] => s end).
  assert (G : (length t <= length s)%nat) by (unfold t; destruct s as [|c s]; [done|]; destruct (c =? 34); cbn; lia).
  destruct (last _) as [c|]; [|lia]. destruct (c =? 34); [rewrite length_take|]; lia.
Qed.

Definition str_ok (s : list Z) : Prop := Forall is_byte s /\ slen s < 536870912.

Definition cred_ok (c : static_cred) : Prop :=
  str_ok (sc_realm c) /\ str_ok (sc_username c) /\ str_ok (sc_data c).

Section auth.
Context (mctx : pj_md5_context) (tctx : pj_sha1_context) (hctx : pj_hmac_sha1_context).
Context (Hmc : md5_mem mctx) (Htc : sha1_mem tctx) (Hhc : sha1_mem (hm_context hctx)).

Lemma calc_md5_key_spec realm username passwd :
  str_ok realm -> str_ok username -> str_ok passwd ->
  calc_md5_key mctx realm username passwd =
    Some (Rfc1321.md5 (REMOVE_QUOTE username ++ [58] ++ REMOVE_QUOTE realm ++ [58] ++ passwd)).
Proof.
  intros [Hr Hrl] [Hu Hul] [Hp Hpl]. unfold calc_md5_key. change (lit ":") with [58].
  assert (Hc : Forall is_byte [58]) by (repeat constructor; unfold is_byte; lia).
  pose proof (remove_quote_length realm). pose proof (remove_quote_length username).
  destruct (md5_update_rep _ [] (REMOVE_QUOTE username) (md5_init_rep mctx Hmc)) as (c1 & -> & H1);
    [by apply remove_quote_bytes|lia|]. ored.
  destruct (md5_update_rep _ _ [58] H1 Hc) as (c2 & -> & H2); [done|]. ored.
  destruct (md5_update_rep _ _ (REMOVE_QUOTE realm) H2) as (c3 & -> & H3); [by apply remove_quote_bytes|lia|]. ored.
  destruct (md5_update_rep _ _ [58] H3 Hc) as (c4 & -> & H4); [done|]. ored.
  destruct (md5_update_rep _ _ passwd H4) as (c5 & -> & H5); [done|lia|]. ored.
  destruct (md5_final_rep _ _ H5) as (c6 & -> & _). ored. cbn [snd]. by rewrite <- !app_assoc.
Qed.

Lemma create_key_spec c :
  cred_ok c ->
  pj_stun_create_key mctx (Some (sc_realm c)) (sc_username c) (sc_data_type c) (sc_data c) = Some (cred_key c).
Proof.
  intros (Hr & Hu & Hd). unfold pj_stun_create_key, cred_key.
  destruct (sc_realm c) as [|x r] eqn:E; [by destruct (sc_data_type c)|].
  destruct (sc_data_type c); [|done]. by apply calc_md5_key_spec.
Qed.

Lemma cred_key_ok c : cred_ok c -> str_ok (cred_key c).
Proof.
  intros (_ & _ & Hd). unfold cred_key. destruct (sc_realm c), (sc_data_type c); try done.
  split; [apply (dg_hash_bytes (Digest := md5_digest_inst))|].
  unfold slen. by rewrite md5_size.
Qed.

(** ** The digest of a packet *)

Lemma rdn_take buf i n : 0 <= i -> i + Z.of_nat n <= slen buf -> rdn buf i n = Some (take n (drop (Z.to_nat i) buf)).
Proof.
  intros Hi Hl. unfold slen in Hl. set (d := drop (Z.to_nat i) buf).
  assert (E : rdn buf i n = rdn d 0 n).
  { rewrite <- (take_drop (Z.to_nat i) buf). apply rdn_skip; [done|]. unfold slen. rewrite length_take. lia. }
  rewrite E, <- (take_drop n d) at 1. apply rdn_here. rewrite length_take. unfold d. rewrite length_drop. lia.
Qed.

Lemma put_val16 hdr v :
  (4 <= length hdr)%nat -> is_u16 v -> PUT_VAL16 hdr 2 v = Some (take 2 hdr ++ be16 v ++ drop 4 hdr).
Proof.
  intros Hl Hv. destruct hdr as [|a [|b [|c [|d hdr]]]]; cbn in Hl; try lia.
  unfold PUT_VAL16, zstore. rewrite decide_True by (cbn [length]; lia). ored.
  rewrite decide_True by (rewrite length_insert; cbn [length]; lia). cbn [take drop app].
  change (insert (Z.to_nat (2 + 1)) ?y (insert (Z.to_nat 2) ?x (a :: b :: c :: d :: hdr)))
    with (a :: b :: x :: y :: hdr).
  unfold is_u16 in Hv.
  assert (E1 : u8 (Z.shiftr (Z.land v 0xFF00) 8) = v / 256 mod 256).
  { change 0xFF00 with (Z.shiftl (Z.ones 8) 8). rewrite Z.shiftr_land, Z.shiftr_shiftl_l, Z.sub_diag by lia.
    rewrite Z.shiftl_0_r, Z.land_ones, Z.shiftr_div_pow2 by lia. apply Z.mod_mod. lia. }
  assert (E2 : u8 (Z.shiftr (Z.land v 0x00FF) 0) = v mod 256).
  { change 0x00FF with (Z.ones 8). rewrite Z.shiftr_0_r, Z.land_ones by lia. apply Z.mod_mod. lia. }
  by rewrite E1, E2.
Qed.

Lemma auth_text_bytes pkt pos beyond : Forall is_byte pkt -> Forall is_byte (auth_text pkt pos beyond).
Proof.
  intros H. unfold auth_text. apply Forall_app. split; [|auto using Forall_take, Forall_drop].
  destruct beyond; [|by apply Forall_take]. rewrite !Forall_app. auto using Forall_take, Forall_drop, be16_bytes.
Qed.

Lemma msgint_digest_spec pkt key pos beyond :
  Forall is_byte pkt -> str_ok key -> 0 <= pos <= 65535 -> (beyond = true -> pos <= 65511) -> 20 + pos <= slen pkt ->
  msgint_digest tctx hctx pkt key pos beyond = Some (hmac_sha1_of key (auth_text pkt pos beyond)).
Proof.
  intros Hb [Hk Hkl] Hp Hbey Hin. unfold msgint_digest.
  rewrite (rdn_take pkt 0 20), (rdn_take pkt 20 (Z.to_nat pos)) by lia.
  change (drop (Z.to_nat 0) pkt) with pkt. change (Z.to_nat 20) with 20%nat.
  set (hdr := take 20 pkt).
  assert (Hl : length hdr = 20%nat) by (unfold hdr, slen in *; rewrite length_take; lia).
  set (hdr' := if beyond then take 2 hdr ++ be16 (pos + 24) ++ drop 4 hdr else hdr).
  assert (E : (if beyond then PUT_VAL16 hdr 2 (u16 (pos + 24)) else Some hdr) = Some hdr').
  { unfold hdr'. destruct beyond; [|done]. specialize (Hbey eq_refl). rewrite u16_id by (unfold is_u16; lia).
    apply put_val16; [lia|unfold is_u16; lia]. }
  assert (Hl' : length hdr' = 20%nat).
  { unfold hdr'. destruct beyond; [|done]. rewrite !length_app, length_take, length_drop, Hl. done. }
  assert (Hb' : Forall is_byte hdr').
  { unfold hdr', hdr. destruct beyond; rewrite ?Forall_app; auto using Forall_take, Forall_drop, be16_bytes. }
  pose proof (hmac_chunks_spec tctx hctx key [hdr'; take (Z.to_nat pos) (drop 20 pkt)] Htc Hhc) as G.
  assert (Hf : Forall (fun d => Forall is_byte d /\ slen d < 536870912) (key :: [hdr'; take (Z.to_nat pos) (drop 20 pkt)])).
  { repeat constructor; auto using Forall_take, Forall_drop; unfold slen in *; rewrite ?length_take; lia. }
  specialize (G Hf). unfold hmac_chunks in G. cbn [foldl] in G. ored.
  unfold pj_hmac_sha1_init, pj_hmac_sha1_update, pj_hmac_sha1_final.
  destruct (hmac_init tctx hctx key) as [c0|]; [|discriminate G]. cbn [mbind option_bind] in G |- *.
  rewrite E. cbn [mbind option_bind] in G |- *.
  destruct (hmac_update c0 hdr') as [c1|]; [|discriminate G]. cbn [mbind option_bind] in G |- *.
  destruct (hmac_update c1 _) as [c2|]; [|discriminate G]. cbn [mbind option_bind] in G |- *.
  destruct (hmac_final c2) as [r|]; [|discriminate G]. cbn [mbind option_bind concat] in G |- *.
  rewrite app_nil_r in G. exact G.
Qed.
End auth.

(** ** MESSAGE-INTEGRITY in a message *)

Definition is_mi (a : pj_stun_attr) : bool := attr_type a =? PJ_STUN_ATTR_MESSAGE_INTEGRITY.

Definition no_mi (attrs : list pj_stun_attr) : Prop := Forall (fun a => is_mi a = false) attrs.

Lemma order_no_mi attrs : forall fp, order_ok true fp attrs -> no_mi attrs.
Proof.
  unfold no_mi, is_mi. induction attrs as [|a attrs IH]; intros fp H; [constructor|]. cbn [order_ok] in H.
  destruct (attr_type a =? PJ_STUN_ATTR_MESSAGE_INTEGRITY) eqn:E; [by destruct H|].
  constructor; [done|]. destruct (attr_type a =? PJ_STUN_ATTR_FINGERPRINT); eapply IH; apply H.
Qed.

Lemma mi_split attrs : forall fp, order_ok false fp attrs ->
  no_mi attrs \/ exists l a rest, attrs = l ++ a :: rest /\ is_mi a = true /\ no_mi l /\ no_mi rest.
Proof.
  induction attrs as [|a attrs IH]; intros fp H; [left; constructor|]. cbn [order_ok] in H.
  destruct (is_mi a) eqn:E; unfold is_mi in E; rewrite E in H.
  - right. exists [], a, attrs. split_and!; [done|done|constructor|]. destruct H as (_ & _ & H). by eapply order_no_mi.
  - assert (G : exists fp', order_ok false fp' attrs)
      by (destruct (attr_type a =? PJ_STUN_ATTR_FINGERPRINT); eexists; apply H).
    destruct G as [fp' G]. destruct (IH fp' G) as [Hn|(l & b & rest & -> & Hb & Hl & Hr)].
    + left. by constructor.
    + right. exists (a :: l), b, rest. split_and!; [done|done|by constructor|done].
Qed.

(** The place of a MESSAGE-INTEGRITY is unique. *)
Lemma mi_unique l a rest l' a' rest' :
  l ++ a :: rest = l' ++ a' :: rest' -> no_mi l -> no_mi rest -> is_mi a = true -> is_mi a' = true ->
  l = l' /\ a = a' /\ rest = rest'.
Proof.
  revert l'. induction l as [|b l IH]; intros [|b' l'] E Hl Hr Ha Ha'.
  - by injection E as -> ->.
  - cbn in E. injection E as -> ->. apply Forall_app in Hr as [_ Hr]. apply Forall_cons in Hr as [Hr _]. congruence.
  - cbn in E. injection E as -> _. apply Forall_cons in Hl as [Hl _]. congruence.
  - cbn in E. injection E as -> E. apply Forall_cons in Hl as [_ Hl].
    destruct (IH l' E Hl Hr Ha Ha') as (-> & -> & ->). done.
Qed.

Lemma align4_nonneg x : 0 <= align4 x.
Proof. unfold align4. apply Z.land_nonneg. right. lia. Qed.

Lemma attrs_size_nonneg attrs : 0 <= attrs_size attrs.
Proof.
  induction attrs as [|a attrs IH]; [done|]. unfold attrs_size in *. cbn [foldr].
  pose proof (align4_nonneg (a_length (a_hdr a))). lia.
Qed.

Lemma attrs_size_app l l' : attrs_size (l ++ l') = attrs_size l + attrs_size l'.
Proof. induction l as [|a l IH]; [done|]. unfold attrs_size in *. cbn [app foldr]. lia. Qed.

Lemma find_msgint_skip l attrs : forall pos,
  no_mi l -> 0 <= pos -> pos + attrs_size l < 4294967296 ->
  find_msgint (l ++ attrs) None pos = find_msgint attrs None (pos + attrs_size l).
Proof.
  induction l as [|a l IH]; intros pos Hl Hp Hs; [by rewrite Z.add_0_r|].
  apply Forall_cons in Hl as [Ha Hl]. cbn [app find_msgint]. unfold is_mi in Ha. rewrite Ha.
  unfold attrs_size in *. cbn [foldr] in *. fold (attrs_size l) in *.
  pose proof (attrs_size_nonneg l). pose proof (align4_nonneg (a_length (a_hdr a))).
  rewrite u32_id by (unfold is_u32; lia). rewrite IH; [|done|lia..]. f_equal. lia.
Qed.

Lemma find_msgint_none attrs :
  no_mi attrs -> attrs_size attrs < 4294967296 -> exists pos, find_msgint attrs None 0 = (None, pos, false).
Proof.
  intros Hn Hs. rewrite <- (app_nil_r attrs). rewrite find_msgint_skip by (done || lia). by eexists.
Qed.

Lemma find_msgint_at l a rest :
  no_mi l -> is_mi a = true -> no_mi rest -> attrs_size l < 4294967296 ->
  find_msgint (l ++ a :: rest) None 0 = (Some a, attrs_size l, bool_decide (rest <> [])).
Proof.
  intros Hl Ha Hr Hs. rewrite find_msgint_skip by (done || lia). cbn [find_msgint]. unfold is_mi in Ha. rewrite Ha.
  destruct rest as [|b rest]; [done|]. apply Forall_cons in Hr as [Hb _]. cbn [find_msgint]. unfold is_mi in Hb.
  rewrite Hb. done.
Qed.

(** ** Strings in a message *)

Lemma find_attr_in attrs t a : find_attr_from attrs t = Some a -> a ∈ attrs /\ attr_type a = t.
Proof.
  induction attrs as [|b attrs IH]; [done|]. cbn [find_attr_from]. destruct (Z.eqb_spec (attr_type b) t) as [E|E].
  - intros [= ->]. split; [left|done].
  - intros H. destruct (IH H). split; [by right|done].
Qed.

Lemma find_string_value m t n :
  Forall attr_ok (msg_attr m) -> find_attr_desc t = Some (mk_desc n F_string F_string) ->
  find_string m t = Some (find_value (msg_attr m) t).
Proof.
  intros Hok Hd. unfold find_string, find_value, pj_stun_msg_find_attr.
  change (drop (Z.to_nat 0) (msg_attr m)) with (msg_attr m).
  destruct (find_attr_from (msg_attr m) t) as [a|] eqn:E; [|done]. cbn [mbind option_bind].
  apply find_attr_in in E as [Hin Ht]. rewrite Forall_forall in Hok. destruct (Hok a Hin) as (_ & _ & Ha).
  rewrite Ht, Hd in Ha. cbn in Ha. unfold string_value. by destruct (a_body a).
Qed.

Lemma slen_0 s : (slen s =? 0) = bool_decide (s = []).
Proof. by destruct s. Qed.

(** ** Requests *)

Lemma check_term_spec realm nonce r n :
  check_term realm nonce r n = None <->
  match r with
  | None => realm = [] /\ nonce = []
  | Some r => realm <> [] -> str_ci r realm /\ (nonce <> [] -> n <> None)
  end.
Proof.
  unfold check_term, str_ci. rewrite !slen_0. destruct r as [r|].
  - destruct (bool_decide_reflect (realm = [])), (bool_decide_reflect (nonce = [])),
      (bool_decide_reflect (n = None)), (stricmp_eq r realm); cbn; naive_solver.
  - destruct (bool_decide_reflect (realm = [])), (bool_decide_reflect (nonce = [])); cbn; naive_solver.
Qed.

Lemma check_term_code realm nonce r n code text :
  check_term realm nonce r n = Some (code, text) -> code = 400 \/ code = 401.
Proof.
  unfold check_term, PJ_STUN_SC_BAD_REQUEST, PJ_STUN_SC_UNAUTHORIZED. intros H.
  repeat case_match; simplify_eq; auto.
Qed.

Lemma check_nonce_spec m c nonce r u n :
  check_nonce m (PJ_STUN_AUTH_CRED_STATIC c) nonce r u n = true <->
  (forall x, n = Some x -> nonce <> [] -> x = nonce).
Proof.
  unfold check_nonce. rewrite slen_0. destruct n as [x|]; [|naive_solver].
  destruct (bool_decide_reflect (nonce = [])); cbn [negb]; [naive_solver|].
  rewrite strcmp_eqb, bool_decide_eq_true. naive_solver.
Qed.

Section request.
Context (mctx : pj_md5_context) (tctx : pj_sha1_context) (hctx : pj_hmac_sha1_context).
Context (Hmc : md5_mem mctx) (Htc : sha1_mem tctx) (Hhc : sha1_mem (hm_context hctx)).
Context (pkt : list Z) (m : pj_stun_msg) (c : static_cred).
Context (Hb : Forall is_byte pkt) (Hm : decoded_ok m) (Hc : cred_ok c).
Context (Hsz : attrs_size (msg_attr m) <= m_length (msg_hdr m) + 4)
  (Hin : 20 + m_length (msg_hdr m) <= slen pkt).

Let attrs := msg_attr m.

(** The digest of the attribute, compared. *)
Lemma check_msgint_spec key l a rest :
  str_ok key -> attrs = l ++ a :: rest -> is_mi a = true ->
  exists digest, a = mk_attr (mk_attr_hdr PJ_STUN_ATTR_MESSAGE_INTEGRITY 20) (A_msgint digest) /\
    check_msgint tctx hctx pkt key a (attrs_size l) (bool_decide (rest <> [])) =
      Some (bool_decide (digest = hmac_sha1_of key (auth_text pkt (attrs_size l) (bool_decide (rest <> []))))).
Proof.
  intros Hk Ea Ha. destruct Hm as ((_ & HL & _) & Hok & _). fold attrs in Hok. rewrite Ea in Hok.
  apply Forall_app in Hok as [_ Hok]. apply Forall_cons in Hok as [(Ht & Hl & Ha') _].
  unfold is_mi in Ha. apply Z.eqb_eq in Ha. rewrite Ha in Ha'.
  destruct a as [[t len] b]. cbn in Ha, Ha'. subst t.
  destruct b as [| | | | |d| | |]; try done. destruct Ha' as (El & Hd & Hdb). cbn in El. subst len. exists d. split; [done|].
  unfold attrs in Ea. rewrite Ea, attrs_size_app in Hsz. unfold attrs_size in Hsz at 2. cbn [foldr] in Hsz.
  fold (attrs_size rest) in Hsz. pose proof (attrs_size_nonneg rest). pose proof (attrs_size_nonneg l).
  cbn [a_hdr a_length] in Hsz. change (align4 20) with 20 in Hsz. unfold is_u16 in HL.
  assert (Hbey : bool_decide (rest <> []) = true -> attrs_size l <= 65511).
  { intros Hr%bool_decide_eq_true. destruct rest as [|b rest]; [done|]. unfold attrs_size in Hsz at 2. cbn [foldr] in Hsz.
    fold (attrs_size rest) in Hsz. pose proof (attrs_size_nonneg rest). pose proof (align4_nonneg (a_length (a_hdr b))). lia. }
  unfold check_msgint. rewrite msgint_digest_spec by (done || lia). ored. cbn [a_body].
  set (e := hmac_sha1_of _ _). assert (He : length e = 20%nat) by apply hmac_sha1_of_length. f_equal.
  destruct (bool_decide_reflect (d = e)) as [->|Hne].
  - rewrite memcmp_refl. done.
  - apply Z.eqb_neq. intros E. apply Hne. rewrite <- Hd in E. by apply memcmp_eq in E; [|congruence].
Qed.

Lemma cred_strcmp u : (pj_strcmp u (sc_username c) =? 0) = bool_decide (u = sc_username c).
Proof. apply strcmp_eqb. Qed.

(** The checks of a static credential, and what they find. *)
Lemma auth_checks_spec :
  exists f info,
    auth_checks mctx tctx hctx pkt m (PJ_STUN_AUTH_CRED_STATIC c)
      (mk_cred_info (sc_realm c) [] (sc_nonce c) []) = Some (f, info) /\
    (f = None <-> names_ok c attrs /\ digest_ok (cred_key c) pkt attrs) /\
    (f = None -> info = mk_cred_info (sc_realm c) (sc_username c) (sc_nonce c) (cred_key c)) /\
    (forall code text, f = Some (code, text) -> code = 400 \/ code = 401 \/ code = 438) /\
    ci_realm info = sc_realm c /\ ci_nonce info = sc_nonce c.
Proof.
  unfold auth_checks. cbn [ci_realm ci_nonce]. pose proof Hm as ((_ & HL & _) & Hok & _ & Hord).
  unfold is_u16 in HL. fold attrs in Hok, Hord, Hsz |- *.
  destruct (mi_split attrs false Hord) as [Hn|(l & a & rest & Ea & Ha & Hnl & Hnr)].
  { destruct (find_msgint_none attrs Hn) as [pos ->]; [lia|]. eexists _, _. split; [reflexivity|].
    split_and!; [|done| |done|done].
    - split; [done|]. intros [_ (l & d & rest & Ea & _)]. rewrite Ea in Hn.
      apply Forall_app in Hn as [_ Hn]. by apply Forall_cons in Hn as [Hn _].
    - intros code text [= <- _]. destruct (negb _); auto. }
  pose proof (attrs_size_nonneg (a :: rest)) as Hr0. pose proof (attrs_size_app l (a :: rest)) as Hsa. rewrite <- Ea in Hsa.
  assert (Ef : find_msgint attrs None 0 = (Some a, attrs_size l, bool_decide (rest <> [])))
    by (rewrite Ea; apply find_msgint_at; (done || lia)).
  rewrite Ef.
  destruct (check_msgint_spec (cred_key c) l a rest) as (d & -> & Echk); [by apply cred_key_ok|done|done|].
  assert (Hdig : digest_ok (cred_key c) pkt attrs <->
    d = hmac_sha1_of (cred_key c) (auth_text pkt (attrs_size l) (bool_decide (rest <> [])))).
  { split; [|intros Ed; by exists l, d, rest].
    intros (l' & d' & rest' & Ea' & ->). rewrite Ea in Ea'.
    destruct (mi_unique _ _ _ _ _ _ Ea' Hnl Hnr Ha) as (-> & [= ->] & ->); done. }
  rewrite (find_string_value m PJ_STUN_ATTR_USERNAME "USERNAME"), (find_string_value m PJ_STUN_ATTR_REALM "REALM"),
    (find_string_value m PJ_STUN_ATTR_NONCE "NONCE") by done. ored. fold attrs.
  unfold names_ok. destruct (find_value attrs PJ_STUN_ATTR_USERNAME) as [u|].
  2: { eexists _, _. split; [reflexivity|]. split_and!; [naive_solver|done|intros ? ? [= <- _]; auto|done|done]. }
  set (r := find_value attrs PJ_STUN_ATTR_REALM). set (n := find_value attrs PJ_STUN_ATTR_NONCE).
  pose proof (check_term_spec (sc_realm c) (sc_nonce c) r n) as Ht.
  pose proof (check_term_code (sc_realm c) (sc_nonce c) r n) as Htc2.
  pose proof (check_nonce_spec m c (sc_nonce c) r u n) as Hno.
  rewrite slen_0. destruct (negb (bool_decide (sc_realm c = [])) && bool_decide (r = None)) eqn:E1.
  { apply andb_true_iff in E1 as [E1%negb_true_iff%bool_decide_eq_false E2%bool_decide_eq_true].
    eexists _, _. split; [reflexivity|]. rewrite E2.
    split_and!; [naive_solver|done|intros ? ? [= <- _]; auto|done|done]. }
  unfold check_username. rewrite strcmp_eqb. destruct (bool_decide_reflect (u = sc_username c)) as [->|Hu]; ored.
  2: { eexists _, _. split; [reflexivity|]. split_and!; [naive_solver|done|intros ? ? [= <- _]; auto|done|done]. }
  rewrite create_key_spec by done. ored.
  destruct (check_term (sc_realm c) (sc_nonce c) r n) as [[code text]|].
  { eexists _, _. split; [reflexivity|].
    split_and!; [naive_solver|done|intros ? ? [= <- _]; destruct (Htc2 _ _ eq_refl); auto|done|done]. }
  destruct (check_nonce m _ (sc_nonce c) r (sc_username c) n); cbn [negb].
  2: { eexists _, _. split; [reflexivity|]. split_and!; [naive_solver|done|intros ? ? [= <- _]; auto|done|done]. }
  rewrite Echk. ored. destruct (bool_decide_reflect (d = hmac_sha1_of (cred_key c) (auth_text pkt (attrs_size l) (bool_decide (rest <> [])))));
    cbn [negb]; eexists _, _; (split; [reflexivity|]);
    split_and!; try done; try naive_solver; intros ? ? [= <- _]; auto.
Qed.
End request.

(** A challenge: an error response to the request, with the realm and the
    nonce unless it is a 400. *)
Lemma challenge_ok m code text realm nonce :
  PJ_STUN_IS_REQUEST (m_type (msg_hdr m)) = true -> code = 400 \/ code = 401 \/ code = 438 ->
  exists r, create_challenge m code text realm nonce = Some (PJ_SUCCESS, Some r) /\ response_to m code r /\
    (code <> 400 -> realm <> [] ->
       find_value (msg_attr r) PJ_STUN_ATTR_REALM = Some realm /\
       find_value (msg_attr r) PJ_STUN_ATTR_NONCE = Some (match nonce with [] => lit "pjstun" | _ => nonce end)).
Proof.
  intros Hr Hc. unfold create_challenge.
  destruct (create_error_response m code text Hr) as (r & -> & (H1 & H2 & H3 & _) & len & reason & Ha);
    [unfold stun_error; tauto|]. ored.
  destruct r as [hr ar]. cbn in Ha. subst ar. cbn in H1, H2, H3. rewrite !slen_0.
  assert (E400 : (code =? 400) = bool_decide (code = 400)) by (destruct (Z.eqb_spec code 400); by case_bool_decide).
  rewrite E400. destruct (bool_decide_reflect (code = 400)) as [E|E]; [|destruct realm as [|x realm], nonce as [|y nonce]];
    cbn; (eexists; split; [reflexivity|]); (split; [repeat split; try done; by eexists _, _, _|]); try done; intros _ _; done.
Qed.

(** A message from a packet that was checked, and the room behind it. *)
Definition decoded_from (strerror : Z -> list Z) (pkt : list Z) (addr pkt_len options : Z) (m : pj_stun_msg) : Prop :=
  Forall is_byte pkt /\ 0 < pkt_len /\ pkt_len + 4 <= slen pkt /\
  Z.land options PJ_STUN_CHECK_PACKET <> 0 /\
  exists r, pj_stun_msg_decode strerror pkt addr pkt_len options false = Some r /\ dr_msg r = Some m.

Lemma decoded_from_ok strerror pkt addr pkt_len options m :
  decoded_from strerror pkt addr pkt_len options m ->
  decoded_ok m /\ attrs_size (msg_attr m) <= m_length (msg_hdr m) + 4 /\ 20 + m_length (msg_hdr m) <= slen pkt.
Proof.
  intros (Hb & Hpos & Hl & Hopt & r & Er & Em).
  destruct (check_total pkt addr pkt_len options Hb) as (s & Es & Hs); [lia|].
  destruct (decide (s = PJ_SUCCESS)) as [->|Hne].
  - destruct (Hs eq_refl) as (H20 & L & HL & HLl).
    destruct (decode_ok strerror pkt addr pkt_len options false L) as (r' & Er' & Hr'); [done..|right; lia|done|lia|].
    rewrite Er in Er'. injection Er' as <-. rewrite Em in Hr'. destruct Hr' as (_ & Hok & <- & _ & _ & Hsz).
    split_and!; [done|lia|lia].
  - exfalso. unfold pj_stun_msg_decode in Er. destruct (Z.eqb_spec pkt_len 0); [lia|].
    destruct (Z.eqb_spec (Z.land options PJ_STUN_CHECK_PACKET) 0); [done|]. cbn [negb] in Er.
    rewrite Es in Er. cbn [mbind option_bind] in Er. destruct (Z.eqb_spec s PJ_SUCCESS); [done|].
    cbn [negb] in Er. injection Er as <-. discriminate Em.
Qed.

(** What decides: the strings and the digest. *)
Lemma authenticate_static (strerror : Z -> list Z) (mctx : pj_md5_context) (tctx : pj_sha1_context)
    (hctx : pj_hmac_sha1_context) (pkt : list Z) (addr pkt_len options : Z) (m : pj_stun_msg)
    (c : static_cred) (want : bool) :
  md5_mem mctx -> sha1_mem tctx -> sha1_mem (hm_context hctx) -> cred_ok c ->
  decoded_from strerror pkt addr pkt_len options m ->
  exists a, pj_stun_authenticate_request mctx tctx hctx pkt pkt_len m (PJ_STUN_AUTH_CRED_STATIC c) want = Some a /\
    (ar_status a = PJ_SUCCESS <-> names_ok c (msg_attr m) /\ digest_ok (cred_key c) pkt (msg_attr m)) /\
    (ar_status a = PJ_SUCCESS ->
       ar_info a = mk_cred_info (sc_realm c) (sc_username c) (sc_nonce c) (cred_key c) /\ ar_response a = None) /\
    (ar_status a <> PJ_SUCCESS ->
       exists code, (code = 400 \/ code = 401 \/ code = 438) /\ ar_status a = PJ_STATUS_FROM_STUN_CODE code /\
         if want && PJ_STUN_IS_REQUEST (m_type (msg_hdr m)) then
           exists r, ar_response a = Some r /\ response_to m code r /\
             (code <> 400 -> sc_realm c <> [] ->
                find_value (msg_attr r) PJ_STUN_ATTR_REALM = Some (sc_realm c) /\
                find_value (msg_attr r) PJ_STUN_ATTR_NONCE =
                  Some (match sc_nonce c with [] => lit "pjstun" | n => n end))
         else ar_response a = None).
Proof.
  intros Hmc Htc Hhc Hc Hd. pose proof (decoded_from_ok _ _ _ _ _ _ Hd) as (Hok & Hsz & Hin).
  destruct Hd as (Hb & Hpos & _). unfold pj_stun_authenticate_request.
  destruct (Z.eqb_spec pkt_len 0); [lia|]. cbn [negb Z.eqb PJ_SUCCESS].
  destruct (auth_checks_spec mctx tctx hctx Hmc Htc Hhc pkt m c Hb Hok Hc Hsz Hin)
    as (f & info & -> & Hiff & Hinfo & Hcode & Hre & Hno). ored.
  destruct f as [[code text]|].
  - specialize (Hcode _ _ eq_refl). assert (Hne : PJ_STATUS_FROM_STUN_CODE code <> PJ_SUCCESS)
      by (unfold PJ_STATUS_FROM_STUN_CODE, PJ_SUCCESS; lia).
    assert (Hf : ~ (names_ok c (msg_attr m) /\ digest_ok (cred_key c) pkt (msg_attr m)))
      by (rewrite <- Hiff; discriminate).
    destruct (want && _) eqn:Ew.
    + apply andb_true_iff in Ew as [_ Ereq]. rewrite Hre, Hno.
      destruct (challenge_ok m code text (sc_realm c) (sc_nonce c) Ereq Hcode) as (r & -> & Hr & Hch). ored.
      eexists. split; [reflexivity|]. cbn. split_and!; [tauto|tauto|].
      intros _. exists code. split; [done|]. split; [done|]. exists r. split; [done|]. split; [done|].
      intros H1 H2. destruct (Hch H1 H2) as [-> ->]. by destruct (sc_nonce c).
    + ored. eexists. split; [reflexivity|]. cbn. split_and!; [tauto|tauto|]. intros _. by exists code.
  - eexists. split; [reflexivity|]. cbn. split_and!; [tauto|by auto|]. by intros [].
Qed.


(** A short-term credential with a nonce, which should accept the requests
    with that nonce: it refuses those without a REALM, whatever their NONCE,
    and accepts those with one even without a NONCE. *)
Theorem short_term_accepts (strerror : Z -> list Z) (mctx : pj_md5_context) (tctx : pj_sha1_context)
    (hctx : pj_hmac_sha1_context) (pkt : list Z) (addr pkt_len options : Z) (m : pj_stun_msg)
    (c : static_cred) (want : bool) :
  md5_mem mctx -> sha1_mem tctx -> sha1_mem (hm_context hctx) -> cred_ok c -> short_term_nonce c ->
  decoded_from strerror pkt addr pkt_len options m ->
  exists a, pj_stun_authenticate_request mctx tctx hctx pkt pkt_len m (PJ_STUN_AUTH_CRED_STATIC c) want = Some a /\
    (ar_status a = PJ_SUCCESS <->
       find_value (msg_attr m) PJ_STUN_ATTR_USERNAME = Some (sc_username c) /\
       is_Some (find_value (msg_attr m) PJ_STUN_ATTR_REALM) /\
       (forall n, find_value (msg_attr m) PJ_STUN_ATTR_NONCE = Some n -> n = sc_nonce c) /\
       digest_ok (cred_key c) pkt (msg_attr m)).
Proof.
  intros Hmc Htc Hhc Hc [Hs1 Hs2] Hd.
  destruct (authenticate_static strerror mctx tctx hctx pkt addr pkt_len options m c want) as (a & Ea & Hiff & _); [done..|].
  exists a. split; [done|]. rewrite Hiff. unfold names_ok. rewrite Hs1.
  destruct (find_value (msg_attr m) PJ_STUN_ATTR_REALM) as [r|]; split.
  - intros ((H1 & _ & H2) & H3). split_and!; eauto.
  - intros (H1 & _ & H2 & H3). split_and!; [done|done|auto|done].
  - intros ((_ & [_ H] & _) & _). by destruct Hs2.
  - by intros (_ & [? [=]] & _).
Qed.

(** ** Signed messages *)

Section signed.
Context (padding_char : Z) (h : pj_stun_msg_hdr).
Context (Htsx : length (m_tsx_id h) = 12%nat) (Htb : Forall is_byte (m_tsx_id h)).

Lemma received_size l : Forall encodable l ->
  attrs_size (received padding_char h <$> l) = body_room padding_char h l.
Proof.
  induction 1 as [|a l Ha Hl IH]; [done|]. unfold attrs_size in *. cbn [fmap list_fmap foldr body_room] in *.
  change (list_fmap _ _ (received padding_char h) l) with (received padding_char h <$> l) in *.
  rewrite IH, (room_len_field padding_char h Htsx Htb a Ha). done.
Qed.

Lemma received_no_mi l : Forall encodable l -> no_mi (received padding_char h <$> l).
Proof.
  intros H. apply Forall_fmap. eapply Forall_impl; [done|]. intros a (_ & Hn & _).
  unfold is_mi. cbn. by apply Z.eqb_neq.
Qed.

(** Names come back. *)
Lemma received_value l tail t :
  m_magic h = PJ_STUN_MAGIC -> t <> PJ_STUN_ATTR_SOFTWARE -> find_value tail t = None ->
  find_value ((received padding_char h <$> l) ++ tail) t = find_value l t.
Proof.
  intros Hm Ht Htl. unfold find_value in *. induction l as [|a l IH]; [exact Htl|].
  cbn [fmap list_fmap app find_attr_from]. change (attr_type (received padding_char h a)) with (attr_type a).
  destruct (Z.eqb_spec (attr_type a) t) as [E|E]; [|exact IH]. cbn [mbind option_bind].
  unfold string_value, received, received_body. cbn [a_body].
  destruct (a_body a); try done. unfold string_len. rewrite Hm, E.
  apply Z.eqb_neq in Ht. rewrite Ht. by rewrite Z.eqb_refl.
Qed.

(** The bytes under the digest of a packet are those that were signed. *)
Lemma signed_text k fp body c :
  slen body <= 65511 ->
  auth_text (stun_packet h (Some k) (bool_decide (is_Some fp)) body ++ c) (slen body)
    (bool_decide (from_option (fun v : Z => [fp_attr v]) [] fp <> [])) =
  stun_hdr_bytes h (slen body + 24) ++ body.
Proof.
  intros Hl. unfold auth_text, stun_packet. set (b := with_fp h _ _). rewrite <- app_assoc.
  pose proof (stun_hdr_length h Htsx (slen b)) as Hh. set (hd := stun_hdr_bytes h (slen b)) in *.
  assert (Hhl : length hd = 20%nat) by (unfold slen in Hh; lia).
  rewrite <- Hhl, take_app_length, drop_app_length.
  assert (Eb : exists d, b = body ++ d).
  { unfold b, with_fp, with_mi. destruct (bool_decide _); [|by eexists]. rewrite <- app_assoc. by eexists. }
  destruct Eb as [d Eb]. rewrite Eb, <- app_assoc. f_equal.
  2: { unfold slen. by rewrite Nat2Z.id, take_app_length. }
  destruct fp as [v|]; cbn [from_option].
  - rewrite bool_decide_true by done. unfold hd, stun_hdr_bytes.
    rewrite (app_assoc (be16 (m_type h))). done.
  - rewrite bool_decide_false by (intros H; by apply H). unfold hd. f_equal. unfold b. cbn [bool_decide with_fp].
    change (bool_decide (is_Some None)) with false. cbn [with_fp with_mi]. by rewrite slen_app, mi_bytes_length.
Qed.

Lemma mi_attr_is d : is_mi (mi_attr d) = true.
Proof. done. Qed.
End signed.

Lemma tail_value d fp t :
  t <> PJ_STUN_ATTR_MESSAGE_INTEGRITY -> t <> PJ_STUN_ATTR_FINGERPRINT ->
  find_value (mi_attr d :: from_option (fun v => [fp_attr v]) [] fp) t = None.
Proof.
  intros H1 H2. unfold find_value. cbn [find_attr_from]. change (attr_type (mi_attr d)) with PJ_STUN_ATTR_MESSAGE_INTEGRITY.
  destruct (Z.eqb_spec PJ_STUN_ATTR_MESSAGE_INTEGRITY t); [congruence|]. destruct fp as [v|]; [|done]. cbn [from_option find_attr_from].
  change (attr_type (fp_attr v)) with PJ_STUN_ATTR_FINGERPRINT. by destruct (Z.eqb_spec PJ_STUN_ATTR_FINGERPRINT t).
Qed.

Lemma packet_bytes h key fp body :
  Forall is_byte (m_tsx_id h) -> Forall is_byte body -> Forall is_byte (stun_packet h key fp body).
Proof.
  intros Htb Hb. unfold stun_packet. apply Forall_app. split; [by apply hdr_bytes_bytes|].
  pose proof (with_mi_bytes h key body Hb) as Hw. unfold with_fp. destruct fp; [|done].
  apply Forall_app. split; [done|]. unfold fp_bytes. rewrite !Forall_app. auto using be16_bytes, be32_bytes.
Qed.

Section exchange.
Context (strerror : Z -> list Z) (padding_char addr : Z).
Context (mctx : pj_md5_context) (tctx : pj_sha1_context) (hctx : pj_hmac_sha1_context).
Context (Hmc : md5_mem mctx) (Htc : sha1_mem tctx) (Hhc : sha1_mem (hm_context hctx)).
Context (h : pj_stun_msg_hdr) (l : list pj_stun_attr) (fp : option Z) (k stale c : list Z) (options : Z).
Context (Htsx : length (m_tsx_id h) = 12%nat) (Htb : Forall is_byte (m_tsx_id h)).
Context (Hl : Forall encodable l) (Hd : Forall decodable l) (Hk : str_ok k).
Context (Ht : is_u16 (m_type h)) (Hmg : m_magic h = PJ_STUN_MAGIC).
Context (Hn : (length (signed l (Some k) fp) <= 16)%nat).
Context (Htot : body_room padding_char h l + tail_room (Some k) fp <= 65535).
Context (Hs : body_room padding_char h l <= slen stale) (Hsb : Forall is_byte stale).
Context (Hc : Forall is_byte c) (Hc4 : 4 <= slen c) (Hopt : Z.land options PJ_STUN_CHECK_PACKET <> 0).

Let body := stun_body padding_char h l stale.
Let packet := stun_packet h (Some k) (bool_decide (is_Some fp)) body.
Context (Hck : checkable h fp options packet).
Let m := received_msg padding_char h l (Some k) fp body.
Let digest := mi_digest h k body.
Let rest := from_option (fun v => [fp_attr v]) [] (fp_of h (Some k) fp body).

Lemma exchange_decode want :
  pj_stun_msg_decode strerror (packet ++ c) addr (slen packet) options want =
    Some (mk_dec_result PJ_SUCCESS (Some m) (slen packet) None).
Proof.
  assert (Hm32 : is_u32 (m_magic h)) by (rewrite Hmg; unfold is_u32, PJ_STUN_MAGIC; lia).
  by apply decode_packet.
Qed.

Lemma exchange_attrs : msg_attr m = (received padding_char h <$> l) ++ mi_attr digest :: rest.
Proof. done. Qed.

Lemma exchange_from : decoded_from strerror (packet ++ c) addr (slen packet) options m.
Proof.
  assert (Hbb : Forall is_byte body) by (by apply stun_body_bytes).
  split; [apply Forall_app; split; [by apply packet_bytes|done]|].
  split; [|split; [rewrite slen_app; lia|split; [done|]]].
  - unfold packet, stun_packet. rewrite slen_app, stun_hdr_length by done.
    set (b := with_fp _ _ _). pose proof (slen_nonneg b). lia.
  - eexists. split; [apply exchange_decode|done].
Qed.

Lemma exchange_text :
  auth_text (packet ++ c) (attrs_size (received padding_char h <$> l)) (bool_decide (rest <> [])) =
    stun_hdr_bytes h (slen body + 24) ++ body.
Proof.
  assert (Hbl : slen body = body_room padding_char h l) by (by apply stun_body_length).
  rewrite (received_size padding_char h Htsx Htb l Hl), <- Hbl. unfold packet, rest.
  assert (E : bool_decide (is_Some fp) = bool_decide (is_Some (fp_of h (Some k) fp body))) by (by destruct fp).
  rewrite E. apply signed_text; [done|]. rewrite Hbl. assert (0 <= fp_room fp) by (by destruct fp).
  unfold tail_room in Htot. lia.
Qed.

Lemma exchange_response k' : str_ok k' ->
  pj_stun_authenticate_response tctx hctx (packet ++ c) (slen packet) m k' =
    Some (if bool_decide (hmac_sha1_of k' (stun_hdr_bytes h (slen body + 24) ++ body) = digest)
          then PJ_SUCCESS else PJ_STATUS_FROM_STUN_CODE PJ_STUN_SC_UNAUTHORIZED).
Proof.
  intros Hk'. pose proof exchange_from as Hf. pose proof (decoded_from_ok _ _ _ _ _ _ Hf) as (Hok & Hsz & Hin).
  destruct Hf as (Hb & Hpos & _). unfold pj_stun_authenticate_response.
  destruct (Z.eqb_spec (slen packet) 0); [lia|].
  pose proof (received_no_mi padding_char h l Hl) as Hnl.
  assert (Hfind : is_Some (pj_stun_msg_find_attr m PJ_STUN_ATTR_MESSAGE_INTEGRITY 0)).
  { unfold pj_stun_msg_find_attr. change (drop (Z.to_nat 0) (msg_attr m)) with (msg_attr m). rewrite exchange_attrs.
    clear -Hnl. induction (received padding_char h <$> l) as [|a l' IH]; [by eexists|].
    apply Forall_cons in Hnl as [Ha Hnl]. cbn [app find_attr_from]. unfold is_mi in Ha. rewrite Ha. by apply IH. }
  destruct Hfind as [x ->].
  assert (Hlen : 24 <= m_length (msg_hdr m)).
  { change (m_length (msg_hdr m)) with (slen (with_fp h (bool_decide (is_Some fp)) (with_mi h (Some k) body))).
    rewrite with_fp_length, with_mi_length by done.
    pose proof (slen_nonneg body). assert (0 <= fp_room fp) by (by destruct fp). lia. }
  destruct (Z.ltb_spec (m_length (msg_hdr m)) 24); [lia|].
  assert (Hnr : no_mi rest) by (unfold rest; destruct (fp_of h (Some k) fp body); repeat constructor).
  pose proof exchange_attrs as Ea.
  assert (Esz : attrs_size (received padding_char h <$> l) < 4294967296).
  { rewrite (received_size padding_char h Htsx Htb l Hl). assert (0 <= tail_room (Some k) fp) by (apply tail_room_nonneg). lia. }
  assert (Ef : find_msgint (msg_attr m) None 0 =
    (Some (mi_attr digest), attrs_size (received padding_char h <$> l), bool_decide (rest <> [])))
    by (rewrite Ea; by apply find_msgint_at).
  rewrite Ef.
  destruct (check_msgint_spec tctx hctx Htc Hhc (packet ++ c) m Hb Hok Hsz Hin k' _ _ _ Hk' Ea (mi_attr_is digest))
    as (dg & Edg & ->). injection Edg as <-. ored. rewrite exchange_text.
  set (X := hmac_sha1_of k' _). assert (E : bool_decide (digest = X) = bool_decide (X = digest))
    by (apply bool_decide_ext; split; congruence).
  rewrite E. by destruct (bool_decide (X = digest)).
Qed.

Lemma exchange_request cr want : cred_ok cr -> cred_key cr = k -> names_ok cr l ->
  exists a, pj_stun_authenticate_request mctx tctx hctx (packet ++ c) (slen packet) m
      (PJ_STUN_AUTH_CRED_STATIC cr) want = Some a /\
    ar_status a = PJ_SUCCESS /\ ci_auth_key (ar_info a) = k.
Proof.
  intros Hcr Hck' Hnames. pose proof exchange_from as Hf.
  pose proof (decoded_from_ok _ _ _ _ _ _ Hf) as (Hok & Hsz & Hin). destruct Hf as (Hb & Hpos & _).
  unfold pj_stun_authenticate_request. destruct (Z.eqb_spec (slen packet) 0); [lia|].
  cbn [negb Z.eqb PJ_SUCCESS].
  destruct (auth_checks_spec mctx tctx hctx Hmc Htc Hhc (packet ++ c) m cr Hb Hok Hcr Hsz Hin)
    as (f & info & -> & Hiff & Hinfo & _). ored.
  assert (Ef : f = None).
  { apply Hiff. split.
    - assert (Ev : forall t, t <> PJ_STUN_ATTR_SOFTWARE -> t <> PJ_STUN_ATTR_MESSAGE_INTEGRITY ->
        t <> PJ_STUN_ATTR_FINGERPRINT -> find_value (msg_attr m) t = find_value l t).
      { intros t H1 H2 H3. rewrite exchange_attrs. apply received_value; [done|done|]. by apply tail_value. }
      unfold names_ok in *. by rewrite !Ev by discriminate.
    - exists (received padding_char h <$> l), digest, rest. split; [apply exchange_attrs|].
      rewrite exchange_text, Hck'. done. }
  subst f. specialize (Hinfo eq_refl). subst info. eexists. split; [reflexivity|]. cbn. split; [done|exact Hck'].
Qed.
End exchange.

