(* ===== verification/StunDemo.v ===== *)
(** * STUN: sample messages

    Witnesses of the theorems on STUN, the vectors of RFC 2202 and RFC 5769,
    and what the code does where it departs from its comments. *)

From Stdlib Require Import String.
From S2P Require Import Prelude Bytes PjString Digest Sha1 Md5 Hmac Crc32 StunMsg StunDecode StunEncode.
From S2P Require Import StunSpec StunAuth StunAuthSpec.
Local Open Scope Z_scope.

(** Contexts that hold zeros. *)
Definition sha0 : pj_sha1_context := mk_sha1 (replicate 5 0) 0 0 (replicate 64 0).
Definition hmac0 : pj_hmac_sha1_context := mk_hmac sha0 [].
Definition md50 : pj_md5_context := mk_md5 (replicate 4 0) 0 0 (replicate 64 0).

(** ** RFC 5769, 2.1 *)

Definition rfc5769_request : list Z :=
  [0x00; 0x01; 0x00; 0x58; 0x21; 0x12; 0xa4; 0x42;
   0xb7; 0xe7; 0xa7; 0x01; 0xbc; 0x34; 0xd6; 0x86; 0xfa; 0x87; 0xdf; 0xae;
   0x80; 0x22; 0x00; 0x10; 0x53; 0x54; 0x55; 0x4e; 0x20; 0x74; 0x65; 0x73;
   0x74; 0x20; 0x63; 0x6c; 0x69; 0x65; 0x6e; 0x74;
   0x00; 0x24; 0x00; 0x04; 0x6e; 0x00; 0x01; 0xff;
   0x80; 0x29; 0x00; 0x08; 0x93; 0x2f; 0xf9; 0xb1; 0x51; 0x26; 0x3b; 0x36;
   0x00; 0x06; 0x00; 0x09; 0x65; 0x76; 0x74; 0x6a; 0x3a; 0x68; 0x36; 0x76; 0x59; 0x20; 0x20; 0x20;
   0x00; 0x08; 0x00; 0x14; 0x9a; 0xea; 0xa7; 0x0c; 0xbf; 0xd8; 0xcb; 0x56; 0x78; 0x1e;
   0xf2; 0xb5; 0xb2; 0xd3; 0xf2; 0x49; 0xc1; 0xb5; 0x71; 0xa2;
   0x80; 0x28; 0x00; 0x04; 0xe5; 0x7a; 0x3b; 0xcf].

Definition rfc_key : list Z := lit "VOkJxbRl1RmTxUk/WvJxBt".
Definition rfc_tsx : list Z := [0xb7; 0xe7; 0xa7; 0x01; 0xbc; 0x34; 0xd6; 0x86; 0xfa; 0x87; 0xdf; 0xae].
Definition rfc_hdr : pj_stun_msg_hdr := mk_stun_hdr 1 0 PJ_STUN_MAGIC rfc_tsx.

Definition rfc_attrs : list pj_stun_attr :=
  [pj_stun_string_attr_create PJ_STUN_ATTR_SOFTWARE (lit "STUN test client");
   pj_stun_uint_attr_create 0x0024 0x6e0001ff;
   pj_stun_uint64_attr_create 0x8029 (Some (0x932ff9b1, 0x51263b36));
   pj_stun_string_attr_create PJ_STUN_ATTR_USERNAME (lit "evtj:h6vY")].

Definition rfc_msg : pj_stun_msg := mk_stun_msg rfc_hdr (signed rfc_attrs (Some (replicate 20 0)) (Some 0)).

Example rfc5769_encode :
  er_mem <$> pj_stun_msg_encode 0x20 0 sha0 hmac0 rfc_msg (replicate 108 0) 108 0 (Some rfc_key) =
    Some rfc5769_request.
Proof. vm_compute. reflexivity. Qed.

(** Decoded, and accepted by the credential of the RFC. *)
Definition rfc_cred : static_cred :=
  mk_static_cred [] (lit "evtj:h6vY") PJ_STUN_PASSWD_PLAIN rfc_key [].

Definition rfc_decoded : option pj_stun_msg :=
  r ← pj_stun_msg_decode (fun _ => []) (rfc5769_request ++ [0; 0; 0; 0]) 0 108 PJ_STUN_CHECK_PACKET true;
  dr_msg r.

Example rfc5769_accepted :
  (m ← rfc_decoded;
   a ← pj_stun_authenticate_request md50 sha0 hmac0 rfc5769_request 108 m (PJ_STUN_AUTH_CRED_STATIC rfc_cred) true;
   Some (ar_status a)) = Some PJ_SUCCESS.
Proof. vm_compute. reflexivity. Qed.

(** ** Witnesses *)

Ltac bytes := repeat (apply Forall_cons; split; [unfold is_byte; lia|]); constructor.
Ltac vbytes := match goal with |- Forall is_byte ?l =>
  let l' := eval vm_compute in l in change (Forall is_byte l'); bytes end.

Lemma sha0_mem : sha1_mem sha0.
Proof. split; [done|apply Forall_replicate; unfold is_byte; lia]. Qed.

Lemma md50_mem : md5_mem md50.
Proof. split; [done|apply Forall_replicate; unfold is_byte; lia]. Qed.

Lemma rfc_key_ok : str_ok rfc_key.
Proof. split; [unfold rfc_key; vbytes|vm_compute; done]. Qed.

Lemma rfc_encodable : Forall encodable rfc_attrs.
Proof.
  assert (H : forall a, is_u16 (attr_type a) /\ attr_type a <> PJ_STUN_ATTR_MESSAGE_INTEGRITY /\
    attr_type a <> PJ_STUN_ATTR_FINGERPRINT -> forall d, find_attr_desc (attr_type a) = Some d ->
    body_ok (d_encode d) (a_body a) -> encodable a).
  { intros a (H1 & H2 & H3) d Hd Hb. split_and!; try done. by rewrite Hd. }
  repeat (apply Forall_cons; split); [..|constructor]; (eapply H; [|reflexivity|]);
    try (split_and!; [split|..]; done); cbn.
  all: first [unfold is_u32; lia | split; [done|vbytes]].
Qed.

Lemma rfc_decodable : Forall decodable rfc_attrs.
Proof. repeat constructor. Qed.

Lemma rfc_sendable : sendable 0x20 rfc_hdr rfc_attrs (Some (replicate 20 0)) (Some 0) (Some rfc_key).
Proof.
  split_and!; [done|unfold rfc_hdr; cbn; bytes|apply rfc_encodable|cbn; lia|by eexists| |vm_compute; done].
  intros k [= <-]. apply rfc_key_ok.
Qed.

(** The same without a FINGERPRINT. *)
Lemma plain_sendable : sendable 0x20 rfc_hdr rfc_attrs (Some (replicate 20 0)) None (Some rfc_key).
Proof.
  split_and!; [done|unfold rfc_hdr; cbn; bytes|apply rfc_encodable|cbn; lia|by eexists| |vm_compute; done].
  intros k [= <-]. apply rfc_key_ok.
Qed.

Definition zeros : list Z := replicate 120 0.

Lemma zeros_memory : memory_ok sha0 hmac0 zeros.
Proof. split_and!; [apply sha0_mem..|apply Forall_replicate; unfold is_byte; lia]. Qed.

Lemma stun_encode_packet_witness :
  exists r, pj_stun_msg_encode 0x20 0 sha0 hmac0 rfc_msg zeros 108 0 (Some rfc_key) = Some r /\
    er_status r = PJ_SUCCESS.
Proof.
  eexists. split.
  - apply (stun_encode_packet 0x20 0 sha0 hmac0 rfc_hdr rfc_attrs (Some (replicate 20 0)) (Some 0) (Some rfc_key) zeros 108
      rfc_sendable zeros_memory); vm_compute; try split; done.
  - done.
Defined.

Lemma stun_encode_bounds_witness :
  exists r, pj_stun_msg_encode 0x20 0 sha0 hmac0 rfc_msg zeros 50 0 (Some rfc_key) = Some r /\
    er_status r = PJ_ETOOSMALL.
Proof.
  destruct (stun_encode_bounds 0x20 0 sha0 hmac0 rfc_hdr rfc_attrs (Some (replicate 20 0)) (Some 0) (Some rfc_key) zeros 50
    rfc_sendable zeros_memory) as (r & E & Hr & _); [repeat constructor|done|vm_compute; done|].
  exists r. split; [exact E|exact Hr].
Defined.


Lemma stun_roundtrip_witness :
  exists r, pj_stun_msg_encode 0x20 0 sha0 hmac0 rfc_msg zeros 108 0 (Some rfc_key) = Some r /\
    pj_stun_msg_decode (fun _ => []) (er_mem r) 0 (er_len r) PJ_STUN_CHECK_PACKET true =
      Some (mk_dec_result PJ_SUCCESS
        (Some (mk_stun_msg (msg_hdr (er_msg r)) (received 0x20 rfc_hdr <$> msg_attr (er_msg r)))) (er_len r) None).
Proof.
  destruct (stun_roundtrip (fun _ => []) 0x20 0 0 sha0 hmac0 rfc_hdr rfc_attrs (Some (replicate 20 0)) (Some 0)
    (Some rfc_key) zeros 108 PJ_STUN_CHECK_PACKET true rfc_sendable zeros_memory) as (r & E & _ & D & _);
    [vm_compute; split; done|vm_compute; done|done|done|apply rfc_decodable|].
  exists r. split; [exact E|apply D; right; split; [done|left; by eexists]].
Defined.

Lemma rfc_names : credential_names rfc_cred rfc_attrs.
Proof. split_and!; [done|by vm_compute|by vm_compute]. Qed.

Lemma rfc_cred_rule : ~ short_term_nonce rfc_cred.
Proof. by intros [_ H]. Qed.



Lemma hmac_sha1_rfc2104_witness :
  (h ← pj_hmac_sha1_init sha0 hmac0 (replicate 20 0x0b);
   h ← pj_hmac_sha1_update h (lit "Hi ");
   h ← pj_hmac_sha1_update h (lit "There");
   r ← pj_hmac_sha1_final h;
   Some r.2) =
  Some [0xb6; 0x17; 0x31; 0x86; 0x55; 0x05; 0x72; 0x64; 0xe2; 0x8b; 0xc0; 0xb6; 0xfb; 0x37; 0x8c; 0x8e; 0xf1; 0x46; 0xbe; 0x00].
Proof.
  eassert (E : _) by (apply (hmac_sha1_rfc2104 sha0 hmac0 (replicate 20 0x0b) [lit "Hi "; lit "There"]);
    [done|apply sha0_mem|done|apply sha0_mem|repeat (apply Forall_cons; split); [..|constructor];
       split; (vbytes || (vm_compute; done))]).
  cbn [foldl mbind option_bind] in E. refine (eq_trans _ (eq_trans E _)); [|vm_compute; reflexivity].
  destruct (pj_hmac_sha1_init sha0 hmac0 (replicate 20 11)) as [h|]; [|reflexivity]. cbn [mbind option_bind].
  by destruct (pj_hmac_sha1_update h (lit "Hi ")).
Defined.

Lemma crc32_versions_agree_witness :
  (ctx ← Table.pj_crc32_update Table.pj_crc32_init 1 (lit "12345");
   ctx ← Table.pj_crc32_update ctx 6 (lit "6789");
   Some (Table.pj_crc32_final ctx)) = Some 0xcbf43926.
Proof.
  refine (eq_trans (crc32_versions_agree [(1, lit "12345"); (6, lit "6789")] _) _); [|vm_compute; reflexivity].
  apply Forall_cons; split; [cbn [snd]; vbytes|]. apply Forall_cons; split; [cbn [snd]; vbytes|by apply Forall_nil].
Defined.

(** ** Departures *)

Definition aa (n : nat) : list Z := replicate n 0xaa.
Definition hdr_of (t : Z) : pj_stun_msg_hdr := mk_stun_hdr t 0 PJ_STUN_MAGIC rfc_tsx.

(** The type of an address is written before the room is checked: the two
    bytes behind a full buffer change. *)
Lemma encode_overrun :
  exists r, pj_stun_msg_encode 0 0 sha0 hmac0
      (mk_stun_msg (hdr_of 0x0101) [pj_stun_sockaddr_attr_create 1 false (sock_in 3478 [192; 0; 2; 1])])
      (aa 24) 20 0 None = Some r /\
    er_status r = PJ_ETOOSMALL /\ drop 20 (er_mem r) = [0; 1; 0xaa; 0xaa].
Proof. eexists. split; [vm_compute; reflexivity|]. by vm_compute. Qed.

(** ERROR-CODE is checked without its padding, and counted with it: the size
    of the buffer wraps around, and what follows is written behind it. *)
Lemma encode_underflow :
  exists r, pj_stun_msg_encode 0 0 sha0 hmac0
      (mk_stun_msg (hdr_of 0x0111)
         [mk_attr (INIT_ATTR PJ_STUN_ATTR_ERROR_CODE 5) (A_errcode 400 [120]);
          pj_stun_string_attr_create PJ_STUN_ATTR_SOFTWARE (lit "pjnath")])
      (aa 64) 29 0 None = Some r /\
    er_status r = PJ_SUCCESS /\ er_len r = 44 /\ drop 32 (er_mem r) = be16 0x8022 ++ be16 8 ++ lit "pjnath" ++ [0; 0] ++ aa 20.
Proof. eexists. split; [vm_compute; reflexivity|]. by vm_compute. Qed.

(** The padding of ERROR-CODE is what the buffer held. *)
Lemma encode_stale :
  exists r, pj_stun_msg_encode 0 0 sha0 hmac0
      (mk_stun_msg (hdr_of 0x0111) [mk_attr (INIT_ATTR PJ_STUN_ATTR_ERROR_CODE 5) (A_errcode 400 [120])])
      (aa 32) 32 0 None = Some r /\
    er_status r = PJ_SUCCESS /\ drop 28 (er_mem r) = [120; 0xaa; 0xaa; 0xaa].
Proof. eexists. split; [vm_compute; reflexivity|]. by vm_compute. Qed.

(** An attribute behind MESSAGE-INTEGRITY is dropped, and the message is sent
    without it. *)
Lemma encode_drops :
  forall a, let msg := mk_stun_msg (hdr_of 1) [pj_stun_msgint_attr_create; a] in
    attr_type a = 0x0024 ->
    er_mem <$> pj_stun_msg_encode 0 0 sha0 hmac0 msg (aa 64) 64 0 (Some rfc_key) =
    er_mem <$> pj_stun_msg_encode 0 0 sha0 hmac0 (mk_stun_msg (hdr_of 1) [pj_stun_msgint_attr_create])
                 (aa 64) 64 0 (Some rfc_key).
Proof. intros [[t len] b] msg Ht. cbn in Ht. subst t. vm_compute. reflexivity. Qed.

(** A header that promises four bytes more than the packet has is read past
    its end. *)
Lemma decode_overrun :
  let pkt := stun_hdr_bytes (hdr_of 1) 4 ++ [0; 0x24; 0; 4] in
  pj_stun_msg_check pkt 0 24 PJ_STUN_CHECK_PACKET = Some PJ_SUCCESS /\
  pj_stun_msg_decode (fun _ => []) pkt 0 24 PJ_STUN_CHECK_PACKET false = None.
Proof. by vm_compute. Qed.

(** Attributes behind MESSAGE-INTEGRITY, which it does not cover, are decoded
    and found in a message that is authenticated. *)
Definition appended : list Z :=
  [0x00; 0x01; 0x00; 0x5c] ++ take 96 (drop 4 rfc5769_request) ++
  [0; 1; 0; 8; 0; 1; 0; 80; 6; 6; 6; 6] ++ [0; 0; 0; 0].

Lemma unsigned_attribute :
  exists m a, (r ← pj_stun_msg_decode (fun _ => []) appended 0 112 PJ_STUN_CHECK_PACKET true; dr_msg r) = Some m /\
    pj_stun_authenticate_request md50 sha0 hmac0 appended 112 m (PJ_STUN_AUTH_CRED_STATIC rfc_cred) true = Some a /\
    ar_status a = PJ_SUCCESS /\
    a_body <$> pj_stun_msg_find_attr m 1 0 = Some (A_sockaddr false (sock_in 80 [6; 6; 6; 6])).
Proof.
  eexists _, _. split; [vm_compute; reflexivity|]. split; [vm_compute; reflexivity|]. by vm_compute.
Qed.

(** An unknown attribute behind FINGERPRINT is accepted, and the fingerprint
    is not checked then. *)
Lemma fingerprint_unchecked :
  let pkt := [0x00; 0x01; 0x00; 0x5c] ++ take 100 (drop 4 rfc5769_request) ++ [0; 0; 0; 0] ++ [0x80; 0xff; 0; 0] in
  exists r, pj_stun_msg_decode (fun _ => []) pkt 0 112 PJ_STUN_CHECK_PACKET true = Some r /\
    dr_status r = PJ_SUCCESS /\
    a_body <$> (dr_msg r ≫= fun m => pj_stun_msg_find_attr m PJ_STUN_ATTR_FINGERPRINT 0) = Some (A_uint 0).
Proof. eexists. split; [vm_compute; reflexivity|]. by vm_compute. Qed.

(** A transaction id can look like a fingerprint. *)
Lemma fingerprint_mistaken :
  let h := mk_stun_hdr 1 0 PJ_STUN_MAGIC [1; 2; 3; 4; 0x80; 0x28; 0; 4; 5; 6; 7; 8] in
  exists r, pj_stun_msg_encode 0 0 sha0 hmac0 (mk_stun_msg h []) (aa 20) 20 0 None = Some r /\
    er_status r = PJ_SUCCESS /\
    pj_stun_msg_check (er_mem r) 0 (er_len r) PJ_STUN_CHECK_PACKET = Some PJNATH_ESTUNFINGERPRINT.
Proof. eexists. split; [vm_compute; reflexivity|]. by vm_compute. Qed.

(** With a short term credential that wants a nonce, a REALM in the request
    makes up for it. *)
Lemma realm_skips_nonce nonce r :
  nonce <> [] ->
  check_term [] nonce None None = Some (PJ_STUN_SC_UNAUTHORIZED, Some (lit "NONCE required")) /\
  check_term [] nonce (Some r) None = None.
Proof. by destruct nonce. Qed.

(** The text of an error code above 600 is looked for behind the table. *)
Lemma err_reason_overrun : pj_stun_get_err_reason 601 = None.
Proof. by vm_compute. Qed.

(** [pj_sha1_update] with 2^29 bytes counts a carry twice. *)
Lemma sha1_count_carry : sha1_count 0 0 536870912 = (0, 2).
Proof. done. Qed.
