(* ===== verification/StunTsx.v ===== *)
(** * STUN client transactions

    [pjnath/stun_transaction.c]: a request is sent, sent again when its
    retransmission timer expires, and completes by a response or a timeout.
    Transactions are addresses; transaction [t] owns the timer entries [2t]
    and [2t + 1].  The functions work on a world with the transactions, the
    timer heap, any implementation of [TimerService], and whatever the
    callbacks need, [E]; the callbacks they call are their first arguments. *)

From S2P Require Import Prelude Monad TimeVal TimerSpec StunMsg.
Local Open Scope Z_scope.

(** ** Constants *)

Definition PJ_EBUSY : Z := 70011.
Definition PJNATH_ESTUNTIMEDOUT : Z := 370004.
Definition PJNATH_ESTUNDESTROYED : Z := 370060.
Definition PJ_STUN_RTO_VALUE : Z := 100.
Definition PJ_STUN_TIMEOUT_VALUE : Z := 16 * PJ_STUN_RTO_VALUE.
Definition PJ_STUN_MAX_TRANSMIT_COUNT : Z := 7.
Definition TIMER_INACTIVE : Z := 0.
Definition TIMER_ACTIVE : Z := 1.

(** ** Data *)

(** [ct_user_data] is the data the session attaches, [ct_on_complete] whether
    [cb.on_complete] is set; the timers are entries of the heap, and the heap
    and the group lock are those of the world. *)
Record pj_stun_client_tsx := mk_client_tsx {
  ct_user_data : option nat;
  ct_on_complete : bool;
  ct_complete : bool;
  ct_require_retransmit : bool;
  ct_rto_msec : Z;
  ct_transmit_count : Z;
  ct_retransmit_time : pj_time_val;
  ct_last_pkt : list Z
}.

#[export] Instance eta_client_tsx : Settable pj_stun_client_tsx :=
  fun x => mk_client_tsx (ct_user_data x) (ct_on_complete x) (ct_complete x)
             (ct_require_retransmit x) (ct_rto_msec x) (ct_transmit_count x)
             (ct_retransmit_time x) (ct_last_pkt x).

Definition ct_retransmit_timer (t : nat) : nat := 2 * t.
Definition ct_destroy_timer (t : nat) : nat := 2 * t + 1.

Record stun_world (TW E : Type) := mk_stun_world {
  sw_tsx : gmap nat pj_stun_client_tsx;
  sw_timers : TW;
  sw_now : pj_time_val;
  sw_ext : E
}.
Arguments mk_stun_world {TW E}.
Arguments sw_tsx {TW E}.
Arguments sw_timers {TW E}.
Arguments sw_now {TW E}.
Arguments sw_ext {TW E}.

#[export] Instance eta_stun_world TW E : Settable (stun_world TW E) :=
  fun w => mk_stun_world (sw_tsx w) (sw_timers w) (sw_now w) (sw_ext w).

Section Tsx.
Context {TW E : Type} `{TS : !TimerService TW}.

#[local] Abbreviation M := (M (stun_world TW E)).

(** ** Access to the world *)

Definition get_ct (t : nat) : M pj_stun_client_tsx :=
  fun w => x ← sw_tsx w !! t; Some (x, w).

Definition upd_ct (t : nat) (f : pj_stun_client_tsx -> pj_stun_client_tsx) : M unit :=
  fun w => x ← sw_tsx w !! t; Some (tt, w <| sw_tsx := <[t := f x]> (sw_tsx w) |>).

(** The [id] field of a timer entry. *)
Definition entry_id (e : nat) : M Z :=
  fun w => i ← ts_id (sw_timers w) !! e; Some (i, w).

Definition set_entry_id (e : nat) (id : Z) : M unit :=
  modify (fun w => w <| sw_timers := ts_set_id (sw_timers w) e id |>).

(** [pj_timer_heap_schedule_w_grp_lock] and [pj_timer_heap_cancel_if_active] *)
Definition schedule_entry (e : nat) (delay : pj_time_val) (id : Z) : M Z :=
  fun w =>
    '(r, tw) ← ts_schedule (sw_timers w) (sw_now w) e delay id;
    Some (r, w <| sw_timers := tw |>).

Definition cancel_if_active (e : nat) (id : Z) : M unit :=
  fun w =>
    '(_, tw) ← ts_cancel (sw_timers w) e id;
    Some (tt, w <| sw_timers := tw |>).

(** ** Creation and destruction *)

(** The transaction is at [t], zeroed memory with its two entries. *)
Definition pj_stun_client_tsx_create (rto_msec : Z) (t : nat) : M unit :=
  modify (fun w => w
    <| sw_tsx := <[t := mk_client_tsx None true false false rto_msec 0 (mk_time_val 0 0) []]> (sw_tsx w) |>
    <| sw_timers := ts_new (ts_new (sw_timers w) (ct_retransmit_timer t)) (ct_destroy_timer t) |>).

Definition pj_stun_client_tsx_schedule_destroy (t : nat) (delay : pj_time_val) : M Z :=
  get_ct t;;
  cancel_if_active (ct_destroy_timer t) TIMER_INACTIVE;;
  cancel_if_active (ct_retransmit_timer t) TIMER_INACTIVE;;
  status ← schedule_entry (ct_destroy_timer t) delay TIMER_ACTIVE;
  if negb (status =? PJ_SUCCESS) then mret status
  else
    upd_ct t (fun x => x <| ct_on_complete := false |>);;
    mret PJ_SUCCESS.

Definition pj_stun_client_tsx_destroy (t : nat) : M Z := mret PJ_SUCCESS.

Definition pj_stun_client_tsx_stop (t : nat) : M Z :=
  get_ct t;;
  cancel_if_active (ct_retransmit_timer t) TIMER_INACTIVE;;
  cancel_if_active (ct_destroy_timer t) TIMER_INACTIVE;;
  mret PJ_SUCCESS.

Definition pj_stun_client_tsx_is_complete (t : nat) : M bool :=
  x ← get_ct t; mret (ct_complete x).

Definition pj_stun_client_tsx_set_data (t : nat) (data : option nat) : M Z :=
  upd_ct t (fun x => x <| ct_user_data := data |>);; mret PJ_SUCCESS.

Definition pj_stun_client_tsx_get_data (t : nat) : M (option nat) :=
  x ← get_ct t; mret (ct_user_data x).

(** ** Transmission *)

(** Milliseconds as a time value: [sec = msec / 1000; msec = msec % 1000]. *)
Definition time_of_msec (msec : Z) : pj_time_val := mk_time_val (msec / 1000) (msec mod 1000).

(** Calculate retransmit/timeout delay. *)
Definition retransmit_delay (x : pj_stun_client_tsx) : pj_time_val :=
  if ct_transmit_count x =? 0 then mk_time_val 0 (ct_rto_msec x)
  else if ct_transmit_count x <? PJ_STUN_MAX_TRANSMIT_COUNT - 1 then
    time_of_msec (u32 (Z.shiftl (u32 (PJ_TIME_VAL_MSEC (ct_retransmit_time x))) 1))
  else time_of_msec PJ_STUN_TIMEOUT_VALUE.

(** Schedule the retransmission timer; a failure clears its id. *)
Definition schedule_retransmit (t : nat) : M Z :=
  x ← get_ct t;
  status ← schedule_entry (ct_retransmit_timer t) (ct_retransmit_time x) TIMER_ACTIVE;
  if negb (status =? PJ_SUCCESS) then
    set_entry_id (ct_retransmit_timer t) TIMER_INACTIVE;; mret status
  else mret PJ_SUCCESS.

Section Send.
Context (on_send_msg : nat -> list Z -> M Z).

(** Transmit message. *)
Definition tsx_transmit_msg (t : nat) (mod_count : bool) : M Z :=
  x ← get_ct t;
  id ← entry_id (ct_retransmit_timer t);
  if negb ((id =? TIMER_INACTIVE) || negb (ct_require_retransmit x) || negb mod_count)
  then mret PJ_EBUSY
  else
    status ← (if ct_require_retransmit x && mod_count then
                upd_ct t (fun x => x <| ct_retransmit_time := retransmit_delay x |>);;
                schedule_retransmit t
              else mret PJ_SUCCESS);
    if negb (status =? PJ_SUCCESS) then mret status
    else
      when mod_count (upd_ct t (fun x => x <| ct_transmit_count := u32 (ct_transmit_count x + 1) |>));;
      x ← get_ct t;
      status ← on_send_msg t (ct_last_pkt x);
      let status := if (status =? PJ_EPENDING) || (status =? PJ_EBUSY) then PJ_SUCCESS else status in
      when (negb (status =? PJNATH_ESTUNDESTROYED) && negb (status =? PJ_SUCCESS)) (
        get_ct t;;
        when (mod_count || (status =? PJ_EINVALIDOP))
          (cancel_if_active (ct_retransmit_timer t) TIMER_INACTIVE));;
      mret status.

(** Send outgoing message and start STUN transaction. *)
Definition pj_stun_client_tsx_send_msg (t : nat) (retransmit : bool) (pkt : list Z) : M Z :=
  if bool_decide (pkt = []) then mret PJ_EINVAL
  else
    get_ct t;;
    id ← entry_id (ct_retransmit_timer t);
    if negb (id =? 0) then mret PJ_EBUSY
    else
      upd_ct t (fun x => x <| ct_last_pkt := pkt |> <| ct_require_retransmit := retransmit |>);;
      status ← (if retransmit then mret PJ_SUCCESS
                else
                  upd_ct t (fun x => x <| ct_transmit_count := PJ_STUN_MAX_TRANSMIT_COUNT |>
                    <| ct_retransmit_time := time_of_msec (u32 (ct_rto_msec x * 16)) |>);;
                  schedule_retransmit t);
      if negb (status =? PJ_SUCCESS) then mret status
      else
        status ← tsx_transmit_msg t true;
        get_ct t;;
        if negb (status =? PJ_SUCCESS) then
          cancel_if_active (ct_retransmit_timer t) TIMER_INACTIVE;;
          mret status
        else mret PJ_SUCCESS.

(** Request to retransmit the request. *)
Definition pj_stun_client_tsx_retransmit (t : nat) (mod_count : bool) : M Z :=
  get_ct t;;
  id ← entry_id (ct_destroy_timer t);
  if negb (id =? 0) then mret PJ_SUCCESS
  else
    when mod_count (cancel_if_active (ct_retransmit_timer t) TIMER_INACTIVE);;
    tsx_transmit_msg t mod_count.

(** ** Completion *)

(** The code of ERROR-CODE, if the message has one. *)
Definition find_errcode (msg : pj_stun_msg) : option (option Z) :=
  match pj_stun_msg_find_attr msg PJ_STUN_ATTR_ERROR_CODE 0 with
  | None => Some None
  | Some a => match a_body a with A_errcode code _ => Some (Some code) | _ => None end
  end.

Section Complete.
Context (on_complete : nat -> Z -> option (pj_stun_msg * nat) -> M unit).

(** [if (!tsx->complete)]: the transaction completes once. *)
Definition complete_once (t : nat) (status : Z) (response : option (pj_stun_msg * nat)) : M unit :=
  x ← get_ct t;
  when (negb (ct_complete x)) (
    upd_ct t (fun x => x <| ct_complete := true |>);;
    when (ct_on_complete x) (on_complete t status response)).

Definition retransmit_timer_callback (t : nat) : M unit :=
  x ← get_ct t;
  if PJ_STUN_MAX_TRANSMIT_COUNT <=? ct_transmit_count x then
    set_entry_id (ct_retransmit_timer t) 0;;
    complete_once t PJNATH_ESTUNTIMEDOUT None
  else
    set_entry_id (ct_retransmit_timer t) 0;;
    status ← tsx_transmit_msg t true;
    when (negb (status =? PJ_SUCCESS)) (
      get_ct t;;
      set_entry_id (ct_retransmit_timer t) 0;;
      complete_once t status None);;
    get_ct t;; mret tt.

(** Notify the STUN transaction about the arrival of STUN response. *)
Definition pj_stun_client_tsx_on_rx_msg (t : nat) (msg : pj_stun_msg) (src_addr : nat) : M Z :=
  if negb (PJ_STUN_IS_SUCCESS_RESPONSE (m_type (msg_hdr msg))) &&
     negb (PJ_STUN_IS_ERROR_RESPONSE (m_type (msg_hdr msg)))
  then mret PJNATH_EINSTUNMSGTYPE
  else
    get_ct t;;
    cancel_if_active (ct_retransmit_timer t) TIMER_INACTIVE;;
    err ← from_option (find_errcode msg);
    match err with
    | Some code =>
        if code <=? 200 then mret PJ_SUCCESS
        else
          complete_once t (PJ_STATUS_FROM_STUN_CODE code) (Some (msg, src_addr));;
          mret PJ_SUCCESS
    | None =>
        complete_once t PJ_SUCCESS (Some (msg, src_addr));;
        mret PJ_SUCCESS
    end.
End Complete.
End Send.

(** Timer callback to destroy transaction. *)
Definition destroy_timer_callback (on_destroy : nat -> M unit) (t : nat) : M unit :=
  get_ct t;;
  set_entry_id (ct_destroy_timer t) 0;;
  on_destroy t.
End Tsx.
