(* ===== verification/StunSess.v ===== *)
(** * STUN sessions

    [pjnath/stun_session.c]: outgoing requests with their transactions and
    credentials, responses and their cache, incoming packets.  The messages to
    send, [pj_stun_tx_data], and the transactions are numbered in the order of
    their allocation; message [d] owns the timer entry [2d].  The memory of a
    transaction is in the pool of its message, and is released with it:
    releasing memory in which a timer entry is still scheduled is undefined.

    The group lock of the session is the application's, which keeps a
    reference to it: it is released by an operation of its own,
    [stun_sess_on_destroy].  Logging and dumps have no counterpart. *)

From Stdlib Require Import String.
From S2P Require Import Prelude Monad Bytes PjString TimeVal TimerSpec Digest Sha1 Md5.
From S2P Require Import Hmac Crc32 StunMsg StunAuth StunTsx.
Local Open Scope Z_scope.

(** ** Constants *)

Definition PJ_STUN_MAX_PKT_LEN : Z := 800.
Definition PJ_STUN_NO_AUTHENTICATE : Z := 4.
Definition PJ_STUN_INDICATION_BIT : Z := 0x0010.
Definition PJ_STUN_IS_RESPONSE (t : Z) : bool := Z.land t 0x0100 =? 0x0100.

Inductive pj_stun_auth_type :=
  PJ_STUN_AUTH_NONE | PJ_STUN_AUTH_SHORT_TERM | PJ_STUN_AUTH_LONG_TERM.

#[export] Instance pj_stun_auth_type_eq_dec : EqDecision pj_stun_auth_type.
Proof. solve_decision. Defined.

(** ** Data *)

(** [td_has_lock]: [grp_lock] is not NULL, the message is a cached response. *)
Record pj_stun_tx_data := mk_tx_data {
  td_msg : pj_stun_msg;
  td_is_destroying : bool;
  td_token : Z;
  td_client_tsx : option nat;
  td_retransmit : bool;
  td_msg_magic : Z;
  td_msg_key : list Z;
  td_has_lock : bool;
  td_auth_info : pj_stun_req_cred_info;
  td_pkt : list Z;
  td_dst_addr : nat
}.

#[export] Instance eta_tx_data : Settable pj_stun_tx_data :=
  fun d => mk_tx_data (td_msg d) (td_is_destroying d) (td_token d) (td_client_tsx d) (td_retransmit d)
             (td_msg_magic d) (td_msg_key d) (td_has_lock d) (td_auth_info d) (td_pkt d) (td_dst_addr d).

(** A credential whose memory is zeroed. *)
Definition zero_cred : pj_stun_auth_cred :=
  PJ_STUN_AUTH_CRED_STATIC (mk_static_cred [] [] PJ_STUN_PASSWD_PLAIN [] []).

Definition res_timer (d : nat) : nat := 2 * d.

(** The lists are those of the numbers of their messages, in their order. *)
Record pj_stun_session := mk_session {
  ss_is_destroying : bool;
  ss_use_fingerprint : bool;
  ss_auth_type : pj_stun_auth_type;
  ss_cred : pj_stun_auth_cred;
  ss_auth_retry : Z;
  ss_next_nonce : list Z;
  ss_server_realm : list Z;
  ss_srv_name : list Z;
  ss_pending_request_list : list nat;
  ss_cached_response_list : list nat
}.

#[export] Instance eta_session : Settable pj_stun_session :=
  fun s => mk_session (ss_is_destroying s) (ss_use_fingerprint s) (ss_auth_type s) (ss_cred s)
             (ss_auth_retry s) (ss_next_nonce s) (ss_server_realm s) (ss_srv_name s)
             (ss_pending_request_list s) (ss_cached_response_list s).

(** [pj_stun_rx_data] *)
Record pj_stun_rx_data := mk_rx_data { rx_msg : pj_stun_msg; rx_info : pj_stun_req_cred_info }.

(** The calls of the application's callbacks, in their order. *)
Inductive stun_output :=
  | OutSend (token : Z) (pkt : list Z) (dst : nat)
  | OutRequest (rdata : pj_stun_rx_data) (token : Z) (src : nat)
  | OutIndication (msg : pj_stun_msg) (token : Z) (src : nat)
  | OutComplete (status token : Z) (d : nat) (response : option (pj_stun_msg * nat)).

(** [se_next] is the number of the next allocation; the session is [None] once
    its memory is released. *)
Record stun_ext := mk_stun_ext {
  se_tdata : gmap nat pj_stun_tx_data;
  se_sess : option pj_stun_session;
  se_next : nat;
  se_rto_msec : Z;
  se_res_cache_msec : Z;
  se_out : list stun_output
}.

#[export] Instance eta_stun_ext : Settable stun_ext :=
  fun e => mk_stun_ext (se_tdata e) (se_sess e) (se_next e) (se_rto_msec e) (se_res_cache_msec e) (se_out e).

(** What the session uses: the callbacks of the application, arbitrary
    transformations of the world (only [on_send_msg] must be set); the texts
    of status codes; the padding character; the addresses of packets; what is
    on the stack in contexts, and in memory that is allocated and not zeroed;
    the identification of new transactions. *)
Class StunEnv (TW : Type) := {
  cb_on_send_msg : Z -> list Z -> nat -> stun_world TW stun_ext -> Z * stun_world TW stun_ext;
  cb_on_rx_request : option (list Z -> pj_stun_rx_data -> Z -> nat ->
    stun_world TW stun_ext -> Z * stun_world TW stun_ext);
  cb_on_request_complete : option (Z -> Z -> nat -> option (pj_stun_msg * nat) ->
    stun_world TW stun_ext -> stun_world TW stun_ext);
  cb_on_rx_indication : option (list Z -> pj_stun_msg -> Z -> nat ->
    stun_world TW stun_ext -> Z * stun_world TW stun_ext);
  sv_strerror : Z -> list Z;
  sv_padding_char : Z;
  sv_address : Z;
  sv_md5 : pj_md5_context;
  sv_sha1 : pj_sha1_context;
  sv_hmac : pj_hmac_sha1_context;
  sv_memory : list Z;
  sv_tsx_id : stun_world TW stun_ext -> list Z
}.

Section Sess.
Context {TW : Type} `{TS : !TimerService TW} {EN : StunEnv TW}.

#[local] Abbreviation W := (stun_world TW stun_ext).
#[local] Abbreviation M := (M (stun_world TW stun_ext)).

(** ** Access to the world *)

Definition upd_ext (f : stun_ext -> stun_ext) : M unit :=
  modify (fun w => w <| sw_ext := f (sw_ext w) |>).

Definition get_sess : M pj_stun_session :=
  fun w => s ← se_sess (sw_ext w); Some (s, w).

Definition upd_sess (f : pj_stun_session -> pj_stun_session) : M unit :=
  s ← get_sess; upd_ext (fun e => e <| se_sess := Some (f s) |>).

Definition get_td (d : nat) : M pj_stun_tx_data :=
  fun w => x ← se_tdata (sw_ext w) !! d; Some (x, w).

Definition upd_td (d : nat) (f : pj_stun_tx_data -> pj_stun_tx_data) : M unit :=
  x ← get_td d; upd_ext (fun e => e <| se_tdata := <[d := f x]> (se_tdata e) |>).

(** A new object. *)
Definition alloc : M nat :=
  fun w => Some (se_next (sw_ext w), w <| sw_ext := sw_ext w <| se_next := S (se_next (sw_ext w)) |> |>).

Definition emit (o : stun_output) : M unit := upd_ext (fun e => e <| se_out := se_out e ++ [o] |>).

Definition run_callback {A} (f : W -> A * W) : M A := fun w => Some (f w).

(** [sess->cb.on_send_msg] *)
Definition call_send_msg (token : Z) (pkt : list Z) (dst : nat) : M Z :=
  emit (OutSend token pkt dst);;
  run_callback (cb_on_send_msg token pkt dst).

(** A group lock that is not released for the last time: [PJ_EINVALIDOP] for a
    session that is being destroyed. *)
Definition if_alive (m : M Z) : M Z :=
  s ← get_sess; if ss_is_destroying s then mret PJ_EINVALIDOP else m.

(** ** Transmit data *)

Definition tsx_add (d : nat) : M unit :=
  upd_sess (fun s => s <| ss_pending_request_list := d :: ss_pending_request_list s |>).

(** [pj_list_erase] takes a message out of the list it is in, if any. *)
Definition list_erase (d : nat) : M unit :=
  upd_sess (fun s => s
    <| ss_pending_request_list := filter (fun x => x <> d) (ss_pending_request_list s) |>
    <| ss_cached_response_list := filter (fun x => x <> d) (ss_cached_response_list s) |>).

Definition tsx_erase (d : nat) : M unit := list_erase d.

Definition key_matches (magic : Z) (key : list Z) (h : pj_stun_msg_hdr) : bool :=
  (magic =? m_magic h) && (memcmp 12 key (m_tsx_id h) =? 0).

Fixpoint tsx_lookup (l : list nat) (msg : pj_stun_msg) : M (option nat) :=
  match l with
  | [] => mret None
  | d :: rest =>
      x ← get_td d;
      if key_matches (td_msg_magic x) (td_msg_key x) (msg_hdr msg) then mret (Some d)
      else tsx_lookup rest msg
  end.

(** The message is created in the new pool, whose memory is zeroed. *)
Definition create_tdata (msg : pj_stun_msg) : M nat :=
  d ← alloc;
  upd_ext (fun e => e <| se_tdata :=
    <[d := mk_tx_data msg false 0 None false 0 (replicate 12 0) false (mk_cred_info [] [] [] []) [] 0%nat]>
      (se_tdata e) |>);;
  modify (fun w => w <| sw_timers := ts_new (sw_timers w) (res_timer d) |>);;
  mret d.

(** Releasing the pool of a message, with its transaction. *)
Definition entry_idle (w : W) (e : nat) : bool := bool_decide (ts_armed (sw_timers w) !! e = None).

Definition pool_release (d : nat) : M unit := fun w =>
  x ← se_tdata (sw_ext w) !! d;
  let w' := w <| sw_ext := sw_ext w <| se_tdata := delete d (se_tdata (sw_ext w)) |> |> in
  match td_client_tsx x with
  | None => if entry_idle w (res_timer d) then Some (tt, w') else None
  | Some t =>
      if entry_idle w (res_timer d) && entry_idle w (ct_retransmit_timer t) && entry_idle w (ct_destroy_timer t)
      then Some (tt, w' <| sw_tsx := delete t (sw_tsx w') |>) else None
  end.

Definition tdata_on_destroy (d : nat) : M unit := pool_release d.

Definition destroy_tdata (d : nat) (force : bool) : M unit :=
  x ← get_td d;
  if td_is_destroying x then mret tt
  else
    upd_td d (fun x => x <| td_is_destroying := true |>);;
    id ← entry_id (res_timer d);
    when (negb (id =? 0)) (cancel_if_active (res_timer d) 0);;
    if force then
      list_erase d;;
      match td_client_tsx x with
      | Some t =>
          pj_stun_client_tsx_stop t;;
          pj_stun_client_tsx_set_data t None;;
          mret tt
      | None => mret tt
      end;;
      tdata_on_destroy d
    else
      match td_client_tsx x with
      | Some t =>
          pj_stun_client_tsx_schedule_destroy t (mk_time_val 0 300);;
          upd_td d (fun x => x <| td_is_destroying := false |>)
      | None =>
          list_erase d;;
          tdata_on_destroy d
      end.

Definition pj_stun_msg_destroy_tdata (d : nat) : M unit := destroy_tdata d false.

(** Timer callback to be called when it's time to destroy response cache. *)
Definition on_cache_timeout (d : nat) : M unit :=
  set_entry_id (res_timer d) 0;;
  x ← get_td d;
  s ← get_sess;
  if ss_is_destroying s || td_is_destroying x then mret tt else destroy_tdata d false.

Definition stun_tsx_on_destroy (t : nat) : M unit :=
  data ← pj_stun_client_tsx_get_data t;
  pj_stun_client_tsx_stop t;;
  match data with
  | Some d => tsx_erase d;; destroy_tdata d true
  | None => mret tt
  end;;
  pj_stun_client_tsx_destroy t;;
  mret tt.

(** ** Messages *)

(** Attributes that a session adds to a message before it is encoded; a
    failure to add SOFTWARE or NONCE is ignored. *)
Definition apply_software (s : pj_stun_session) (msg : pj_stun_msg) : pj_stun_msg :=
  let t := m_type (msg_hdr msg) in
  if negb (slen (ss_srv_name s) =? 0) &&
     bool_decide (pj_stun_msg_find_attr msg PJ_STUN_ATTR_SOFTWARE 0 = None) &&
     (PJ_STUN_IS_RESPONSE t || (PJ_STUN_IS_REQUEST t && (m_magic (msg_hdr msg) =? PJ_STUN_MAGIC)))
  then (add_string msg PJ_STUN_ATTR_SOFTWARE (ss_srv_name s)).2 else msg.

(** [cond && (status = add) != PJ_SUCCESS] returns. *)
Definition add_if (b : bool) (add : pj_stun_msg -> Z * pj_stun_msg) (r : Z * pj_stun_msg) : Z * pj_stun_msg :=
  if negb (r.1 =? PJ_SUCCESS) then r else if b then add r.2 else r.

Definition apply_msg_options (s : pj_stun_session) (auth_info : option pj_stun_req_cred_info)
    (msg : pj_stun_msg) : option (Z * pj_stun_msg) :=
  let msg := apply_software s msg in
  let t := m_type (msg_hdr msg) in
  valid ← pj_stun_auth_valid_for_msg msg;
  let info := match auth_info with
              | Some i => if valid : bool then i else mk_cred_info [] [] [] []
              | None => mk_cred_info [] [] [] []
              end in
  let r := add_if (negb (slen (ci_username info) =? 0) && PJ_STUN_IS_REQUEST t)
             (fun m => add_string m PJ_STUN_ATTR_USERNAME (ci_username info)) (PJ_SUCCESS, msg) in
  let r := add_if (negb (slen (ci_realm info) =? 0) && PJ_STUN_IS_REQUEST t)
             (fun m => add_string m PJ_STUN_ATTR_REALM (ci_realm info)) r in
  let r := add_if (negb (slen (ci_nonce info) =? 0) &&
                   (PJ_STUN_IS_REQUEST t || PJ_STUN_IS_ERROR_RESPONSE t))
             (fun m => (PJ_SUCCESS, (add_string m PJ_STUN_ATTR_NONCE (ci_nonce info)).2)) r in
  let r := add_if (negb (slen (ci_username info) =? 0) && negb (slen (ci_auth_key info) =? 0))
             (fun m => pj_stun_msg_add_attr m pj_stun_msgint_attr_create) r in
  Some (add_if (ss_use_fingerprint s)
          (fun m => pj_stun_msg_add_attr m (pj_stun_uint_attr_create PJ_STUN_ATTR_FINGERPRINT 0)) r).

(** Encoding in a buffer of [PJ_STUN_MAX_PKT_LEN] bytes: the status, the
    message and the packet. *)
Definition encode_msg (msg : pj_stun_msg) (memory : list Z) (key : option (list Z)) :
    option (Z * pj_stun_msg * list Z) :=
  r ← pj_stun_msg_encode sv_padding_char sv_address sv_sha1 sv_hmac msg memory PJ_STUN_MAX_PKT_LEN 0 key;
  Some (er_status r, er_msg r, take (Z.to_nat (er_len r)) (er_mem r)).

(** Authentication information of a request, from the credential. *)
Definition get_auth (s : pj_stun_session) (msg : pj_stun_msg) : option (Z * pj_stun_req_cred_info) :=
  match ss_cred s with
  | PJ_STUN_AUTH_CRED_STATIC c =>
      key ← pj_stun_create_key sv_md5 (Some (ss_server_realm s)) (sc_username c) (sc_data_type c) (sc_data c);
      Some (PJ_SUCCESS, mk_cred_info (ss_server_realm s) (sc_username c) (sc_nonce c) key)
  | PJ_STUN_AUTH_CRED_DYNAMIC c =>
      let '(rc, realm, username, nonce, data_type, password) := dc_get_cred c msg in
      if negb (rc =? PJ_SUCCESS) then Some (rc, mk_cred_info realm username nonce [])
      else
        key ← pj_stun_create_key sv_md5 (Some realm) username data_type password;
        Some (PJ_SUCCESS, mk_cred_info realm username nonce key)
  end.

(** The information of a new request: short-term credentials are always
    used, long-term ones when the server has given a nonce. *)
Definition request_auth (s : pj_stun_session) (msg : pj_stun_msg) : option (Z * pj_stun_req_cred_info) :=
  match ss_auth_type s with
  | PJ_STUN_AUTH_NONE => Some (PJ_SUCCESS, mk_cred_info [] [] [] [])
  | PJ_STUN_AUTH_SHORT_TERM => get_auth s msg
  | PJ_STUN_AUTH_LONG_TERM =>
      if negb (slen (ss_next_nonce s) =? 0) then
        r ← get_auth s msg;
        let '(status, info) := r : Z * pj_stun_req_cred_info in
        Some (status, if status =? PJ_SUCCESS
                      then info <| ci_nonce := ss_next_nonce s |> <| ci_realm := ss_server_realm s |> else info)
      else Some (PJ_SUCCESS, mk_cred_info [] [] [] [])
  end.

(** ** Creation of messages *)

(** The status, and the message when it is [PJ_SUCCESS]; without an
    identification a new one is made. *)
Definition pj_stun_session_create_req (method magic : Z) (tsx_id : option (list Z)) : M (Z * option nat) :=
  s ← get_sess;
  if ss_is_destroying s then mret (PJ_EINVALIDOP, None)
  else
    w ← ask;
    match pj_stun_msg_create method magic (default (sv_tsx_id w) tsx_id) with
    | inl status => mret (status, None)
    | inr msg =>
        d ← create_tdata msg;
        upd_td d (fun x => x <| td_msg_magic := m_magic (msg_hdr msg) |>
                             <| td_msg_key := m_tsx_id (msg_hdr msg) |>);;
        r ← from_option (request_auth s msg);
        let '(status, info) := r : Z * pj_stun_req_cred_info in
        upd_td d (fun x => x <| td_auth_info := info |>);;
        if negb (status =? PJ_SUCCESS) then pool_release d;; mret (status, None)
        else mret (PJ_SUCCESS, Some d)
    end.

Definition pj_stun_session_create_ind (msg_type : Z) : M (Z * option nat) :=
  s ← get_sess;
  if ss_is_destroying s then mret (PJ_EINVALIDOP, None)
  else
    w ← ask;
    match pj_stun_msg_create (Z.lor msg_type PJ_STUN_INDICATION_BIT) PJ_STUN_MAGIC (sv_tsx_id w) with
    | inl status => mret (status, None)
    | inr msg => d ← create_tdata msg; mret (PJ_SUCCESS, Some d)
    end.

Definition pj_stun_session_create_res (rdata : pj_stun_rx_data) (err_code : Z) (err_msg : option (list Z)) :
    M (Z * option nat) :=
  s ← get_sess;
  if ss_is_destroying s then mret (PJ_EINVALIDOP, None)
  else
    r ← from_option (pj_stun_msg_create_response (rx_msg rdata) err_code err_msg);
    match r with
    | inl status => mret (status, None)
    | inr msg =>
        d ← create_tdata msg;
        upd_td d (fun x => x <| td_msg_magic := m_magic (msg_hdr (rx_msg rdata)) |>
                             <| td_msg_key := m_tsx_id (msg_hdr (rx_msg rdata)) |>
                             <| td_auth_info := pj_stun_req_cred_info_dup (rx_info rdata) |>);;
        mret (PJ_SUCCESS, Some d)
    end.

(** ** Sending *)

(** [cb.on_send_msg] of the transactions of a session. *)
Definition stun_tsx_on_send_msg (t : nat) (stun_pkt : list Z) : M Z :=
  data ← pj_stun_client_tsx_get_data t;
  d ← from_option data;
  x ← get_td d;
  if_alive (call_send_msg (td_token x) stun_pkt (td_dst_addr x)).

(** A request, with a new transaction. *)
Definition send_request (retransmit : bool) (server : nat) (d : nat) : M Z :=
  e ← ask;
  t ← alloc;
  pj_stun_client_tsx_create (se_rto_msec (sw_ext e)) t;;
  upd_td d (fun x => x <| td_client_tsx := Some t |>);;
  pj_stun_client_tsx_set_data t (Some d);;
  upd_td d (fun x => x <| td_dst_addr := server |>);;
  x ← get_td d;
  status ← pj_stun_client_tsx_send_msg stun_tsx_on_send_msg t retransmit (td_pkt x);
  if negb (status =? PJ_SUCCESS) && negb (status =? PJ_EPENDING) then
    pj_stun_msg_destroy_tdata d;; mret status
  else
    tsx_add d;; mret status.

(** Requested to keep the response in the cache: the timer of the cache. *)
Definition cache_response (d : nat) : M Z :=
  e ← ask;
  upd_td d (fun x => x <| td_has_lock := true |>);;
  set_entry_id (res_timer d) 0;;
  status ← schedule_entry (res_timer d) (time_of_msec (se_res_cache_msec (sw_ext e))) 1;
  if negb (status =? PJ_SUCCESS) then
    pj_stun_msg_destroy_tdata d;; mret status
  else
    upd_sess (fun s => s <| ss_cached_response_list := ss_cached_response_list s ++ [d] |>);;
    mret PJ_SUCCESS.

(** Any other message, directly to the transport. *)
Definition send_direct (token : Z) (cache_res : bool) (server : nat) (d : nat) : M Z :=
  x ← get_td d;
  let t := m_type (msg_hdr (td_msg x)) in
  status ← (if cache_res && (PJ_STUN_IS_SUCCESS_RESPONSE t || PJ_STUN_IS_ERROR_RESPONSE t)
            then cache_response d else mret PJ_SUCCESS);
  if negb (status =? PJ_SUCCESS) then mret status
  else
    status ← call_send_msg token (td_pkt x) server;
    if negb (status =? PJ_SUCCESS) && negb (status =? PJ_EPENDING) then
      pj_stun_msg_destroy_tdata d;; mret status
    else
      get_td d;;
      id ← entry_id (res_timer d);
      when (id =? 0) (pj_stun_msg_destroy_tdata d);;
      mret status.

Definition pj_stun_session_send_msg (token : Z) (cache_res retransmit : bool) (server : nat) (d : nat) : M Z :=
  if_alive (
    s ← get_sess;
    upd_td d (fun x => x <| td_token := token |> <| td_retransmit := retransmit |>);;
    x ← get_td d;
    r ← from_option (apply_msg_options s (Some (td_auth_info x)) (td_msg x));
    let '(status, msg) := r : Z * pj_stun_msg in
    upd_td d (fun x => x <| td_msg := msg |>);;
    if negb (status =? PJ_SUCCESS) then pj_stun_msg_destroy_tdata d;; mret status
    else
      r ← from_option (encode_msg msg (replicate (Z.to_nat PJ_STUN_MAX_PKT_LEN) 0)
                         (Some (ci_auth_key (td_auth_info x))));
      let '(status, msg, pkt) := r : Z * pj_stun_msg * list Z in
      upd_td d (fun x => x <| td_msg := msg |> <| td_pkt := pkt |>);;
      if negb (status =? PJ_SUCCESS) then pj_stun_msg_destroy_tdata d;; mret status
      else if PJ_STUN_IS_REQUEST (m_type (msg_hdr msg)) then send_request retransmit server d
      else send_direct token cache_res server d).

(** Create and send STUN response message. *)
Definition pj_stun_session_respond (rdata : pj_stun_rx_data) (code : Z) (errmsg : option (list Z))
    (token : Z) (cache : bool) (dst_addr : nat) : M Z :=
  if_alive (
    r ← pj_stun_session_create_res rdata code errmsg;
    match r with
    | (_, Some d) => pj_stun_session_send_msg token cache false dst_addr d
    | (status, None) => mret status
    end).

Definition is_request (d : nat) : M bool :=
  x ← get_td d; mret (PJ_STUN_IS_REQUEST (m_type (msg_hdr (td_msg x)))).

(** Cancel outgoing STUN transaction. *)
Definition pj_stun_session_cancel_req (d : nat) (notify : bool) (notify_status : Z) : M Z :=
  if notify && (notify_status =? PJ_SUCCESS) then mret PJ_EINVAL
  else
    req ← is_request d;
    if negb req then mret PJ_EINVAL
    else if_alive (
      when notify (
        x ← get_td d;
        emit (OutComplete notify_status (td_token x) d None);;
        match cb_on_request_complete with
        | Some cb => modify (cb notify_status (td_token x) d None)
        | None => undefined
        end);;
      pj_stun_msg_destroy_tdata d;;
      mret PJ_SUCCESS).

(** Explicitly request retransmission of the request. *)
Definition pj_stun_session_retransmit_req (d : nat) (mod_count : bool) : M Z :=
  req ← is_request d;
  if negb req then mret PJ_EINVAL
  else if_alive (
    x ← get_td d;
    t ← from_option (td_client_tsx x);
    pj_stun_client_tsx_retransmit stun_tsx_on_send_msg t mod_count).

(** ** Completion of requests *)

(** [while (slen && !ptr[slen-1]) --slen] *)
Fixpoint strip_nuls (s : list Z) : list Z :=
  match s with
  | [] => []
  | c :: rest =>
      match strip_nuls rest with
      | [] => if c =? 0 then [] else [c]
      | rest => c :: rest
      end
  end.

Definition is_credential (t : Z) : bool :=
  (t =? PJ_STUN_ATTR_USERNAME) || (t =? PJ_STUN_ATTR_REALM) ||
  (t =? PJ_STUN_ATTR_MESSAGE_INTEGRITY) || (t =? PJ_STUN_ATTR_NONCE).

(** Duplicate all the attributes in the old request, except the credentials;
    a clone that is NULL is used later. *)
Fixpoint clone_attrs (attrs : list pj_stun_attr) : option (list pj_stun_attr) :=
  match attrs with
  | [] => Some []
  | a :: rest =>
      if is_credential (attr_type a) then clone_attrs rest
      else
        c ← pj_stun_attr_clone a;
        c ← c;
        l ← clone_attrs rest;
        Some (c :: l)
  end.

(** Retry the request with the authentication the response asks for. *)
Definition retry_request (request : pj_stun_tx_data) (src_addr : nat) : M bool :=
  let h := msg_hdr (td_msg request) in
  r ← pj_stun_session_create_req (m_type h) (m_magic h) None;
  match r with
  | (_, Some d) =>
      attrs ← from_option (clone_attrs (msg_attr (td_msg request)));
      upd_td d (fun x => x <| td_msg := td_msg x <| msg_attr := msg_attr (td_msg x) ++ attrs |> |>);;
      pj_stun_session_send_msg (td_token request) true (td_retransmit request) src_addr d;;
      mret false
  | (_, None) => mret true
  end.

(** Whether to notify the user; the status is not used. *)
Definition handle_auth_challenge (request : nat) (response : option (pj_stun_msg * nat)) : M bool :=
  match response with
  | None => mret true
  | Some (msg, src_addr) =>
      s ← get_sess;
      if negb (bool_decide (ss_auth_type s = PJ_STUN_AUTH_LONG_TERM)) then mret true
      else if negb (PJ_STUN_IS_ERROR_RESPONSE (m_type (msg_hdr msg))) then
        upd_sess (fun s => s <| ss_auth_retry := 0 |>);; mret true
      else
        ea ← from_option (find_errcode msg);
        match ea with
        | None => mret false
        | Some code =>
            if (code =? PJ_STUN_SC_UNAUTHORIZED) || (code =? PJ_STUN_SC_STALE_NONCE) then
              anonce ← from_option (find_string msg PJ_STUN_ATTR_NONCE);
              match anonce with
              | None => mret false
              | Some nonce =>
                  if pj_strcmp nonce (ss_next_nonce s) =? 0 then mret true
                  else
                    upd_sess (fun s => s <| ss_auth_retry := ss_auth_retry s + 1 |>);;
                    if 3 <? ss_auth_retry s + 1 then mret true
                    else
                      arealm ← from_option (find_string msg PJ_STUN_ATTR_REALM);
                      upd_sess (fun s => s <| ss_next_nonce := nonce |>
                        <| ss_server_realm := match arealm with
                                              | Some realm => strip_nuls realm
                                              | None => ss_server_realm s
                                              end |>);;
                      x ← get_td request;
                      retry_request x src_addr
              end
            else
              upd_sess (fun s => s <| ss_auth_retry := 0 |>);; mret true
        end
  end.

Definition stun_tsx_on_complete (t : nat) (status : Z) (response : option (pj_stun_msg * nat)) : M unit :=
  data ← pj_stun_client_tsx_get_data t;
  d ← from_option data;
  x ← get_td d;
  s ← get_sess;
  if ss_is_destroying s then pj_stun_msg_destroy_tdata d
  else
    notify_user ← handle_auth_challenge d response;
    match cb_on_request_complete with
    | Some cb =>
        when notify_user (
          x ← get_td d;
          emit (OutComplete status (td_token x) d response);;
          modify (cb status (td_token x) d response))
    | None => mret tt
    end;;
    destroy_tdata d (status =? PJNATH_ESTUNTIMEDOUT).

(** ** Incoming packets *)

(** The key is the address of a field: that of a NULL [auth_info] is not
    NULL. *)
Definition response_key (auth_info : option pj_stun_req_cred_info) (msg : pj_stun_msg) : option (option (list Z)) :=
  match auth_info with
  | Some i => Some (Some (ci_auth_key i))
  | None =>
      match pj_stun_msg_find_attr msg PJ_STUN_ATTR_MESSAGE_INTEGRITY 0 with
      | None => Some None
      | Some _ => None
      end
  end.

(** Send response; [keep] stores the message, which the encoder changes. *)
Definition send_response (keep : pj_stun_msg -> M unit) (token : Z) (response : pj_stun_msg)
    (auth_info : option pj_stun_req_cred_info) (retransmission : bool) (addr : nat) : M Z :=
  s ← get_sess;
  r ← from_option (if retransmission then Some (PJ_SUCCESS, response)
                   else apply_msg_options s auth_info response);
  let '(status, response) := r : Z * pj_stun_msg in
  keep response;;
  if negb (status =? PJ_SUCCESS) then mret status
  else
    key ← from_option (response_key auth_info response);
    r ← from_option (encode_msg response sv_memory key);
    let '(status, response, pkt) := r : Z * pj_stun_msg * list Z in
    keep response;;
    if negb (status =? PJ_SUCCESS) then mret status
    else call_send_msg token pkt addr.

(** A response that is not kept. *)
Definition discard (msg : pj_stun_msg) : M unit := mret tt.

(** Authenticate incoming message: the status and the information. *)
Definition authenticate_req (token : Z) (pkt : list Z) (pkt_len : Z) (msg : pj_stun_msg) (src_addr : nat) :
    M (Z * pj_stun_req_cred_info) :=
  s ← get_sess;
  if PJ_STUN_IS_ERROR_RESPONSE (m_type (msg_hdr msg)) || bool_decide (ss_auth_type s = PJ_STUN_AUTH_NONE)
  then mret (PJ_SUCCESS, mk_cred_info [] [] [] [])
  else
    a ← from_option (pj_stun_authenticate_request sv_md5 sv_sha1 sv_hmac pkt pkt_len msg (ss_cred s) true);
    match ar_response a with
    | Some response =>
        when (negb (ar_status a =? PJ_SUCCESS)) (
          send_response discard token response (Some (ar_info a)) false src_addr;; mret tt)
    | None => mret tt
    end;;
    mret (ar_status a, ar_info a).

(** The options of a session without authentication. *)
Definition auth_options (s : pj_stun_session) (options : Z) : Z :=
  if bool_decide (ss_auth_type s = PJ_STUN_AUTH_NONE) then Z.lor options PJ_STUN_NO_AUTHENTICATE else options.

Definition on_incoming_response (options : Z) (pkt : list Z) (pkt_len : Z) (msg : pj_stun_msg) (src_addr : nat) : M Z :=
  s ← get_sess;
  found ← tsx_lookup (ss_pending_request_list s) msg;
  match found with
  | None => mret PJ_SUCCESS
  | Some d =>
      let options := auth_options s options in
      x ← get_td d;
      valid ← from_option (pj_stun_auth_valid_for_msg msg);
      status ← (if (Z.land options PJ_STUN_NO_AUTHENTICATE =? 0) &&
                   negb (slen (ci_auth_key (td_auth_info x)) =? 0) && valid
                then from_option (pj_stun_authenticate_response sv_sha1 sv_hmac pkt pkt_len msg
                                    (ci_auth_key (td_auth_info x)))
                else mret PJ_SUCCESS);
      if negb (status =? PJ_SUCCESS) then mret status
      else
        t ← from_option (td_client_tsx x);
        pj_stun_client_tsx_on_rx_msg stun_tsx_on_complete t msg src_addr
  end.

(** First lookup response in response cache. *)
Fixpoint find_cached (l : list nat) (msg : pj_stun_msg) : M (option nat) :=
  match l with
  | [] => mret None
  | d :: rest =>
      x ← get_td d;
      if (td_msg_magic x =? m_magic (msg_hdr msg)) &&
         (m_type (msg_hdr (td_msg x)) =? m_type (msg_hdr msg)) &&
         (memcmp 12 (td_msg_key x) (m_tsx_id (msg_hdr msg)) =? 0)
      then mret (Some d)
      else find_cached rest msg
  end.

Definition check_cached_response (msg : pj_stun_msg) (src_addr : nat) : M Z :=
  s ← get_sess;
  found ← find_cached (ss_cached_response_list s) msg;
  match found with
  | Some d =>
      x ← get_td d;
      send_response (fun m => upd_td d (fun x => x <| td_msg := m |>)) (td_token x) (td_msg x)
        (Some (td_auth_info x)) true src_addr;;
      mret PJ_SUCCESS
  | None => mret PJ_ENOTFOUND
  end.

Definition on_incoming_request (options token : Z) (in_pkt : list Z) (in_pkt_len : Z) (msg : pj_stun_msg)
    (src_addr : nat) : M Z :=
  s ← get_sess;
  let options := auth_options s options in
  r ← (if Z.land options PJ_STUN_NO_AUTHENTICATE =? 0
       then authenticate_req token in_pkt in_pkt_len msg src_addr
       else mret (PJ_SUCCESS, mk_cred_info [] [] [] []));
  let '(status, info) := r : Z * pj_stun_req_cred_info in
  if negb (status =? PJ_SUCCESS) then mret status
  else
    match cb_on_rx_request with
    | Some cb =>
        emit (OutRequest (mk_rx_data msg info) token src_addr);;
        run_callback (cb in_pkt (mk_rx_data msg info) token src_addr)
    | None =>
        r ← from_option (pj_stun_msg_create_response msg PJ_STUN_SC_BAD_REQUEST
                           (Some (lit "Callback is not set to handle request")));
        match r with
        | inl status => mret status
        | inr response => send_response discard token response None false src_addr
        end
    end.

Definition on_incoming_indication (token : Z) (in_pkt : list Z) (msg : pj_stun_msg) (src_addr : nat) : M Z :=
  match cb_on_rx_indication with
  | Some cb =>
      emit (OutIndication msg token src_addr);;
      run_callback (cb in_pkt msg token src_addr)
  | None => mret PJ_SUCCESS
  end.

(** Handle message. *)
Definition handle_msg (packet : list Z) (pkt_size options token : Z) (msg : pj_stun_msg) (src_addr : nat) : M Z :=
  status ← check_cached_response msg src_addr;
  if status =? PJ_SUCCESS then mret PJ_SUCCESS
  else
    let t := m_type (msg_hdr msg) in
    if PJ_STUN_IS_SUCCESS_RESPONSE t || PJ_STUN_IS_ERROR_RESPONSE t then
      on_incoming_response options packet pkt_size msg src_addr
    else if PJ_STUN_IS_REQUEST t then
      on_incoming_request options token packet pkt_size msg src_addr
    else if PJ_STUN_IS_INDICATION t then on_incoming_indication token packet msg src_addr
    else mret PJ_EBUG.

(** Incoming packet: the status and [*parsed_len]. *)
Definition pj_stun_session_on_rx_pkt (packet : list Z) (pkt_size options token : Z) (src_addr : nat) : M (Z * Z) :=
  if pkt_size =? 0 then mret (PJ_EINVAL, 0)
  else
    s ← get_sess;
    if ss_is_destroying s then mret (PJ_EINVALIDOP, 0)
    else
      r ← from_option (pj_stun_msg_decode sv_strerror packet sv_address pkt_size options true);
      match dr_msg r with
      | None =>
          match dr_response r with
          | Some response => send_response discard token response None false src_addr;; mret tt
          | None => mret tt
          end;;
          mret (dr_status r, dr_parsed_len r)
      | Some msg =>
          status ← handle_msg packet pkt_size options token msg src_addr;
          mret (status, dr_parsed_len r)
      end.

(** ** The life of a session *)

Definition stop_pending (d : nat) : M unit :=
  x ← get_td d;
  match td_client_tsx x with Some t => pj_stun_client_tsx_stop t;; mret tt | None => mret tt end.

Fixpoint stop_all (l : list nat) : M unit :=
  match l with [] => mret tt | d :: rest => stop_pending d;; stop_all rest end.

(** [while (!pj_list_empty(list)) destroy_tdata(list.next, PJ_TRUE)] *)
Fixpoint destroy_all (fuel : nat) (list_of : pj_stun_session -> list nat) : M unit :=
  match fuel with
  | O => undefined
  | S fuel =>
      s ← get_sess;
      match list_of s with
      | [] => mret tt
      | d :: _ => destroy_tdata d true;; destroy_all fuel list_of
      end
  end.

Definition pj_stun_session_destroy : M Z :=
  if_alive (
    upd_sess (fun s => s <| ss_is_destroying := true |>);;
    s ← get_sess;
    stop_all (ss_pending_request_list s);;
    destroy_all (S (length (ss_cached_response_list s))) ss_cached_response_list;;
    mret PJ_SUCCESS).

(** The last reference to the group lock is released. *)
Definition stun_sess_on_destroy : M unit :=
  s ← get_sess;
  destroy_all (S (length (ss_pending_request_list s))) ss_pending_request_list;;
  upd_ext (fun e => e <| se_sess := None |>).

Definition pj_stun_session_create (fingerprint : bool) (software_name : list Z) : pj_stun_session :=
  mk_session false fingerprint PJ_STUN_AUTH_NONE zero_cred 0 [] [] software_name [] [].

Definition pj_stun_session_set_software_name (sw : option (list Z)) : M Z :=
  upd_sess (fun s => s <| ss_srv_name := default [] sw |>);; mret PJ_SUCCESS.

Definition pj_stun_session_set_credential (auth_type : pj_stun_auth_type) (cred : option pj_stun_auth_cred) : M Z :=
  upd_sess (fun s =>
    match cred with
    | Some cred => s <| ss_auth_type := auth_type |> <| ss_cred := pj_stun_auth_cred_dup cred |>
    | None => s <| ss_auth_type := PJ_STUN_AUTH_NONE |> <| ss_cred := zero_cred |>
    end);;
  mret PJ_SUCCESS.

Definition pj_stun_session_use_fingerprint (use : bool) : M bool :=
  s ← get_sess;
  upd_sess (fun s => s <| ss_use_fingerprint := use |>);;
  mret (ss_use_fingerprint s).

(** The callback of an entry that has expired. *)
Definition on_retransmit_timer (t : nat) : M unit :=
  retransmit_timer_callback stun_tsx_on_send_msg stun_tsx_on_complete t.

Definition on_destroy_timer (t : nat) : M unit := destroy_timer_callback stun_tsx_on_destroy t.

(** The [cb] of a timer entry: of a transaction, or of a cached response. *)
Definition on_timer (e : nat) : M unit :=
  w ← ask;
  let o := Nat.div2 e in
  if Nat.odd e then on_destroy_timer o
  else match sw_tsx w !! o with Some _ => on_retransmit_timer o | None => on_cache_timeout o end.
End Sess.
