(* ===== verification/StunSessInv.v ===== *)
(** * STUN sessions: the invariant

    What holds of the world of a session whenever a callback of the
    application runs, and what the application's callbacks and the operations
    may change. *)

From S2P Require Import Prelude Monad TimeVal TimerSpec StunMsg StunAuth StunTsx StunSess.
Local Open Scope Z_scope.
#[local] Set Warnings "-clear-no-such-hyp".

Section Inv.
Context {TW : Type} `{TS : !TimerService TW}.

#[local] Abbreviation W := (stun_world TW stun_ext).

Definition has_entry (w : W) (e : nat) : Prop := is_Some (ts_id (sw_timers w) !! e).
Definition armed (w : W) (e : nat) : Prop := is_Some (ts_armed (sw_timers w) !! e).

(** A transaction belongs to the message that points to it. *)
Record ct_ok (w : W) (t : nat) (x : pj_stun_client_tsx) : Prop := mk_ct_ok {
  co_number : (t < se_next (sw_ext w))%nat;
  co_retransmit : has_entry w (ct_retransmit_timer t);
  co_destroy : has_entry w (ct_destroy_timer t);
  co_unique : se_tdata (sw_ext w) !! t = None;
  co_owner : exists d y, ct_user_data x = Some d /\ se_tdata (sw_ext w) !! d = Some y /\ td_client_tsx y = Some t
}.

Record td_ok (w : W) (d : nat) (y : pj_stun_tx_data) : Prop := mk_td_ok {
  do_number : (d < se_next (sw_ext w))%nat;
  do_entry : has_entry w (res_timer d);
  do_alive : td_is_destroying y = false;
  do_tsx : forall t, td_client_tsx y = Some t -> exists x, sw_tsx w !! t = Some x /\ ct_user_data x = Some d
}.

(** A scheduled entry is in memory that is not released: a timer of a
    transaction, or the timer of a cached response. *)
Definition owned (w : W) (e : nat) : Prop :=
  (exists t, is_Some (sw_tsx w !! t) /\ (e = ct_retransmit_timer t \/ e = ct_destroy_timer t)) \/
  (exists d y, se_tdata (sw_ext w) !! d = Some y /\ td_client_tsx y = None /\ td_has_lock y = true /\
     e = res_timer d).

(** Pending requests have a transaction, cached responses a timer. *)
Record lists_ok (w : W) (s : pj_stun_session) : Prop := mk_lists_ok {
  lo_pending : NoDup (ss_pending_request_list s);
  lo_cached : NoDup (ss_cached_response_list s);
  lo_request : forall d, d ∈ ss_pending_request_list s ->
    exists y t, se_tdata (sw_ext w) !! d = Some y /\ td_client_tsx y = Some t;
  lo_response : forall d, d ∈ ss_cached_response_list s ->
    exists y, se_tdata (sw_ext w) !! d = Some y /\ td_client_tsx y = None /\ td_has_lock y = true
}.

Record sess_inv (w : W) : Prop := mk_sess_inv {
  si_timers : ts_ok (sw_timers w);
  si_fresh : forall e, (2 * se_next (sw_ext w) <= e)%nat -> ts_id (sw_timers w) !! e = None;
  si_tsx : map_Forall (ct_ok w) (sw_tsx w);
  si_td : map_Forall (td_ok w) (se_tdata (sw_ext w));
  si_owned : forall e, armed w e -> owned w e;
  si_ids : forall e, armed w e -> ts_id (sw_timers w) !! e <> Some 0;
  si_lists : forall s, se_sess (sw_ext w) = Some s -> lists_ok w s
}.
End Inv.

(** ** Rules of the primitive steps *)

Section Rules.
Context {TW : Type} `{TS : !TimerService TW}.

#[local] Abbreviation W := (stun_world TW stun_ext).

Lemma wp_get_ct t x (Q : _ -> W -> Prop) w : sw_tsx w !! t = Some x -> Q x w -> wp (get_ct t) Q w.
Proof. intros H HQ. unfold wp, get_ct. by rewrite H. Qed.

Lemma wp_upd_ct t f x (Q : unit -> W -> Prop) w :
  sw_tsx w !! t = Some x -> Q tt (w <| sw_tsx := <[t := f x]> (sw_tsx w) |>) -> wp (upd_ct t f) Q w.
Proof. intros H HQ. unfold wp, upd_ct. by rewrite H. Qed.

Lemma st_get_td d y (Q : _ -> W -> Prop) w : se_tdata (sw_ext w) !! d = Some y -> Q y w -> wp (get_td d) Q w.
Proof. intros H HQ. unfold wp, get_td. by rewrite H. Qed.

Definition put_td (d : nat) (y : pj_stun_tx_data) (w : W) : W :=
  w <| sw_ext := sw_ext w <| se_tdata := <[d := y]> (se_tdata (sw_ext w)) |> |>.

Lemma st_upd_td d f y (Q : unit -> W -> Prop) w :
  se_tdata (sw_ext w) !! d = Some y -> Q tt (put_td d (f y) w) -> wp (upd_td d f) Q w.
Proof. intros H HQ. unfold upd_td. wbind. by eapply st_get_td; [|apply wp_modify]. Qed.

Lemma wp_get_sess s (Q : _ -> W -> Prop) w : se_sess (sw_ext w) = Some s -> Q s w -> wp get_sess Q w.
Proof. intros H HQ. unfold wp, get_sess. by rewrite H. Qed.

Definition put_sess (s : pj_stun_session) (w : W) : W := w <| sw_ext := sw_ext w <| se_sess := Some s |> |>.

Lemma wp_upd_sess f s (Q : unit -> W -> Prop) w :
  se_sess (sw_ext w) = Some s -> Q tt (put_sess (f s) w) -> wp (upd_sess f) Q w.
Proof. intros H HQ. unfold upd_sess. wbind. by eapply wp_get_sess; [|apply wp_modify]. Qed.

Lemma wp_alive s m (Q : Z -> W -> Prop) w :
  se_sess (sw_ext w) = Some s -> (ss_is_destroying s = true -> Q PJ_EINVALIDOP w) ->
  (ss_is_destroying s = false -> wp m Q w) -> wp (if_alive m) Q w.
Proof.
  intros H H1 H2. unfold if_alive. wbind. eapply wp_get_sess; [done|]. destruct (ss_is_destroying s); [apply wp_ret|]; auto.
Qed.

Lemma wp_callback {A} (f : W -> A * W) a w' (Q : A -> W -> Prop) w :
  f w = (a, w') -> Q a w' -> wp (run_callback f) Q w.
Proof. intros H HQ. unfold wp, run_callback. by rewrite H. Qed.

Definition put_timers (tw : TW) (w : W) : W := w <| sw_timers := tw |>.

Lemma wp_entry_id e i (Q : Z -> W -> Prop) w : ts_id (sw_timers w) !! e = Some i -> Q i w -> wp (entry_id e) Q w.
Proof. intros H HQ. unfold wp, entry_id. by rewrite H. Qed.

Lemma wp_cancel e j (Q : unit -> W -> Prop) w :
  ts_ok (sw_timers w) -> is_Some (ts_id (sw_timers w) !! e) ->
  (forall tw, ts_ok tw -> ts_armed tw = delete e (ts_armed (sw_timers w)) ->
     ts_id tw = (if bool_decide (is_Some (ts_armed (sw_timers w) !! e))
                 then <[e := j]> (ts_id (sw_timers w)) else ts_id (sw_timers w)) -> Q tt (put_timers tw w)) ->
  wp (cancel_if_active e j) Q w.
Proof.
  intros Hok He HQ. unfold wp, cancel_if_active.
  destruct (ts_cancel_ok (sw_timers w) e j Hok He) as (tw & -> & H1 & H2 & H3). by apply HQ.
Qed.
End Rules.

(** ** Preservation *)

Section Preserve.
Context {TW : Type} `{TS : !TimerService TW}.

#[local] Abbreviation W := (stun_world TW stun_ext).

(** A change of a message that keeps its links; it may become cached. *)
Definition same_links (y y' : pj_stun_tx_data) : Prop :=
  td_client_tsx y' = td_client_tsx y /\ (td_has_lock y = true -> td_has_lock y' = true) /\ td_is_destroying y' = td_is_destroying y.

Lemma lookup_put_td {d y y' d0 y0} {w : W} :
  se_tdata (sw_ext w) !! d = Some y -> same_links y y' -> se_tdata (sw_ext w) !! d0 = Some y0 ->
  exists y1, se_tdata (sw_ext (put_td d y' w)) !! d0 = Some y1 /\ same_links y0 y1.
Proof.
  intros Hy Hl H0. destruct (decide (d0 = d)) as [->|Hne].
  - exists y'. split; [apply lookup_insert_eq|]. by assert (y0 = y) as -> by congruence.
  - exists y0. split; [by cbn; rewrite lookup_insert_ne|done].
Qed.

Lemma inv_put_td d y y' (w : W) :
  sess_inv w -> se_tdata (sw_ext w) !! d = Some y -> same_links y y' -> sess_inv (put_td d y' w).
Proof.
  intros HI Hy Hl. pose proof (fun d0 y0 => @lookup_put_td d y y' d0 y0 w Hy Hl) as HP.
  pose proof Hl as (L1 & L2 & L3).
  split; [apply HI..| | | |apply HI|].
  - intros t x Hx. destruct (si_tsx _ HI t x Hx) as [A1 A2 A3 A4 (d0 & y0 & B1 & B2 & B3)]. split; try done.
    + apply lookup_insert_None. split; [done|]. intros ->. congruence.
    + destruct (HP d0 y0 B2) as (y1 & C1 & C2 & _). exists d0, y1. by rewrite C2.
  - intros d0 y0 H0. cbn in H0; rewrite lookup_insert_Some in H0; destruct H0 as [[<- <-]|[Hne H0]].
    + destruct (si_td _ HI d y Hy) as [A1 A2 A3 A4]. split; try done; [congruence|]. by rewrite L1.
    + destruct (si_td _ HI d0 y0 H0) as [A1 A2 A3 A4]. by split.
  - intros e He. destruct (si_owned _ HI e He) as [?|(d0 & y0 & B1 & B2 & B3 & B4)]; [by left|right].
    destruct (HP d0 y0 B1) as (y1 & C1 & C2 & C3 & _). exists d0, y1. rewrite C2. auto.
  - intros s Hs. destruct (si_lists _ HI s Hs) as [A1 A2 A3 A4]. split; try done.
    + intros d0 H0. destruct (A3 d0 H0) as (y0 & t & B1 & B2). destruct (HP d0 y0 B1) as (y1 & C1 & C2 & _).
      exists y1, t. by rewrite C2.
    + intros d0 H0. destruct (A4 d0 H0) as (y0 & B1 & B2 & B3). destruct (HP d0 y0 B1) as (y1 & C1 & C2 & C3 & _).
      exists y1. rewrite C2. auto.
Qed.

(** ** What outlives a step *)

(** Messages, except [ex], with their transactions; and a request with a
    transaction does not become pending. *)
Record keeps (ex : option nat) (w w' : W) : Prop := mk_keeps {
  kp_td : forall d y, ex <> Some d -> se_tdata (sw_ext w) !! d = Some y ->
    exists y', se_tdata (sw_ext w') !! d = Some y' /\
      forall t, td_client_tsx y = Some t -> td_client_tsx y' = Some t;
  kp_tsx : forall t x, ct_user_data x <> ex -> sw_tsx w !! t = Some x ->
    exists x', sw_tsx w' !! t = Some x' /\ ct_user_data x' = ct_user_data x;
  kp_sess : is_Some (se_sess (sw_ext w)) -> is_Some (se_sess (sw_ext w'));
  kp_pending : forall d y t s', ex <> Some d -> se_tdata (sw_ext w) !! d = Some y -> td_client_tsx y = Some t ->
    se_sess (sw_ext w') = Some s' -> d ∈ ss_pending_request_list s' ->
    exists s, se_sess (sw_ext w) = Some s /\ d ∈ ss_pending_request_list s
}.

(** The same messages and transactions; the pending requests were pending. *)
Lemma keeps_lists ex (w w' : W) :
  se_tdata (sw_ext w') = se_tdata (sw_ext w) -> sw_tsx w' = sw_tsx w ->
  (is_Some (se_sess (sw_ext w)) -> is_Some (se_sess (sw_ext w'))) ->
  (forall s', se_sess (sw_ext w') = Some s' -> exists s, se_sess (sw_ext w) = Some s /\
     forall d, d ∈ ss_pending_request_list s' -> d ∈ ss_pending_request_list s) -> keeps ex w w'.
Proof.
  intros H1 H2 H3 H4. split; [|rewrite H2; eauto|done|].
  - intros d y _. rewrite H1. intros H. by exists y.
  - intros d y t s' _ _ _ Hs Hd. destruct (H4 s' Hs) as (s & Es & Hin). eauto.
Qed.

Lemma keeps_same ex (w w' : W) :
  se_tdata (sw_ext w') = se_tdata (sw_ext w) -> sw_tsx w' = sw_tsx w ->
  se_sess (sw_ext w') = se_sess (sw_ext w) -> keeps ex w w'.
Proof. intros H1 H2 H3. apply keeps_lists; rewrite ?H3; try done. eauto. Qed.

Lemma keeps_refl ex w : keeps ex w w.
Proof. by apply keeps_same. Qed.

Lemma keeps_trans ex w1 w2 w3 : keeps ex w1 w2 -> keeps ex w2 w3 -> keeps ex w1 w3.
Proof.
  intros [A1 A2 A3 A4] [B1 B2 B3 B4]. split; [| |tauto|].
  - intros d y Hd H. destruct (A1 d y Hd H) as (y1 & H1 & L1). destruct (B1 d y1 Hd H1) as (y2 & H2 & L2). eauto.
  - intros t x Hx H. destruct (A2 t x Hx H) as (x1 & H1 & E1). destruct (B2 t x1) as (x2 & H2 & E2); [congruence|done|].
    exists x2. split; [done|congruence].
  - intros d y t s3 Hd H Ht Hs Hin. destruct (A1 d y Hd H) as (y1 & H1 & L1).
    destruct (B4 d y1 t s3 Hd H1 (L1 t Ht) Hs Hin) as (s2 & Hs2 & Hin2). eauto.
Qed.

Lemma keeps_weaken ex w w' : keeps None w w' -> sess_inv w -> keeps ex w w'.
Proof.
  intros [A1 A2 A3 A4] HI. split; [auto| |done|eauto]. intros t x _ Hx. apply A2; [|done].
  destruct (co_owner _ _ _ (si_tsx _ HI t x Hx)) as (d & _ & -> & _). done.
Qed.

(** A message that is new can be forgotten. *)
Lemma keeps_new d w w1 w2 :
  sess_inv w -> se_tdata (sw_ext w) !! d = None -> keeps None w w1 -> keeps (Some d) w1 w2 -> keeps None w w2.
Proof.
  intros HI Hd [A1 A2 A3 A4] [B1 B2 B3 B4]. split; [| |tauto|].
  - intros d0 y Hn H. destruct (A1 d0 y Hn H) as (y1 & H1 & L1).
    destruct (B1 d0 y1) as (y2 & H2 & L2); [congruence|done|]. eauto.
  - intros t x Hn H. destruct (A2 t x Hn H) as (x1 & H1 & E1).
    destruct (co_owner _ _ _ (si_tsx _ HI t x H)) as (d0 & y0 & C1 & C2 & _).
    destruct (B2 t x1) as (x2 & H2 & E2); [congruence|done|]. exists x2. split; [done|congruence].
  - intros d0 y t s3 Hn H Ht Hs Hin. destruct (A1 d0 y Hn H) as (y1 & H1 & L1).
    destruct (B4 d0 y1 t s3) as (s2 & Hs2 & Hin2); [congruence|done|auto|done..|]. eauto.
Qed.

Lemma keeps_put_td ex d y y' (w : W) :
  se_tdata (sw_ext w) !! d = Some y -> (forall t, td_client_tsx y = Some t -> td_client_tsx y' = Some t) ->
  keeps ex w (put_td d y' w).
Proof.
  intros Hy Hl. split; [|eauto..]. intros d0 y0 _ H0. cbn. destruct (decide (d0 = d)) as [->|Hne].
  - exists y'. rewrite lookup_insert_eq. split; [done|]. assert (y0 = y) as -> by congruence. done.
  - exists y0. by rewrite lookup_insert_ne.
Qed.

(** ** Timers *)

(** Entries that stop running or are idle: the others are as they were. *)
Record quieter (tw tw' : TW) : Prop := mk_quieter {
  qt_ok : ts_ok tw';
  qt_id : forall e, is_Some (ts_id tw' !! e) <-> is_Some (ts_id tw !! e);
  qt_armed : forall e, is_Some (ts_armed tw' !! e) -> is_Some (ts_armed tw !! e) /\ ts_id tw' !! e = ts_id tw !! e
}.

Lemma quieter_refl tw : ts_ok tw -> quieter tw tw.
Proof. by split. Qed.

Lemma quieter_trans tw1 tw2 tw3 : quieter tw1 tw2 -> quieter tw2 tw3 -> quieter tw1 tw3.
Proof.
  intros [A1 A2 A3] [B1 B2 B3]. split; [done|intros e; by rewrite B2|].
  intros e [H1 E1]%B3. destruct (A3 e H1) as [H2 E2]. split; [done|congruence].
Qed.

Lemma quieter_idle tw tw' e : quieter tw tw' -> ts_armed tw !! e = None -> ts_armed tw' !! e = None.
Proof.
  intros Hq He. destruct (ts_armed tw' !! e) eqn:E; [|done]. destruct (qt_armed _ _ Hq e) as [[? ?] _]; [by eexists|congruence].
Qed.

Lemma is_Some_insert {A} (m : gmap nat A) e e' v :
  is_Some (m !! e') -> (is_Some (<[e' := v]> m !! e) <-> is_Some (m !! e)).
Proof.
  intros H. destruct (decide (e = e')) as [->|?]; [rewrite lookup_insert_eq|by rewrite lookup_insert_ne].
  split; [done|by eexists].
Qed.

Lemma is_Some_delete {A} (m : gmap nat A) e e' :
  is_Some (delete e' m !! e) <-> e <> e' /\ is_Some (m !! e).
Proof.
  destruct (decide (e = e')) as [->|?]; [rewrite lookup_delete_eq|rewrite lookup_delete_ne by done; tauto].
  split; [by intros [? ?]|tauto].
Qed.

Lemma cancel_quieter tw e j :
  ts_ok tw -> is_Some (ts_id tw !! e) ->
  exists r tw', ts_cancel tw e j = Some (r, tw') /\ quieter tw tw' /\ ts_armed tw' !! e = None.
Proof.
  intros Hok He. destruct (ts_cancel_ok tw e j Hok He) as (tw' & Ec & Hok' & Ha & Hi).
  eexists _, tw'. split; [exact Ec|]. split; [|by rewrite Ha, lookup_delete_eq]. split; [done|..].
  - intros e'. rewrite Hi. case_bool_decide; [by apply is_Some_insert|done].
  - intros e'. rewrite Ha. intros [Hne H]%is_Some_delete. split; [done|]. rewrite Hi.
    case_bool_decide; [by rewrite lookup_insert_ne|done].
Qed.

Lemma set_id_quieter tw e j :
  ts_ok tw -> is_Some (ts_id tw !! e) -> ts_armed tw !! e = None -> quieter tw (ts_set_id tw e j).
Proof.
  intros Hok He Hn. destruct (ts_set_id_ok tw e j Hok He) as (Hok' & Ha & Hi). split; [done|..].
  - intros e'. rewrite Hi. by apply is_Some_insert.
  - intros e'. rewrite Ha, Hi. intros H. split; [done|]. rewrite lookup_insert_ne; [done|]. intros ->.
    rewrite Hn in H. by destruct H.
Qed.

Lemma expired_quieter tw tw' e :
  ts_ok tw' -> ts_armed tw' = delete e (ts_armed tw) -> ts_id tw' = ts_id tw -> quieter tw tw'.
Proof. intros Hok Ha Hi. split; [done|by rewrite Hi|]. intros e'. rewrite Ha, Hi. intros [_ H]%is_Some_delete. done. Qed.

(** ** Preservation by the primitive steps *)

(** The invariant depends on the timers, the messages, the transactions, the
    session and the next number. *)
Lemma inv_same (w w' : W) :
  sess_inv w -> sw_timers w' = sw_timers w -> se_tdata (sw_ext w') = se_tdata (sw_ext w) -> sw_tsx w' = sw_tsx w ->
  se_sess (sw_ext w') = se_sess (sw_ext w) -> se_next (sw_ext w') = se_next (sw_ext w) -> sess_inv w'.
Proof.
  destruct w as [x1 t1 n1 e1], w' as [x2 t2 n2 e2]. cbn. intros HI -> E2 -> E4 E5. destruct HI as [H1 H2 H3 H4 H5 H6 H7].
  unfold map_Forall, has_entry, armed, owned in *. cbn in *.
  split; unfold map_Forall, armed, owned in *; cbn; rewrite ?E2, ?E4, ?E5; try done.
  - intros t x Hx. destruct (H3 t x Hx) as [A1 A2 A3 A4 A5]. unfold has_entry in *.
    split; unfold has_entry in *; cbn in *; rewrite ?E2, ?E5; done.
  - intros d y Hy. destruct (H4 d y Hy) as [A1 A2 A3 A4]. split; unfold has_entry in *; cbn in *; rewrite ?E5; done.
  - intros s Hs. destruct (H7 s Hs) as [A1 A2 A3 A4]. cbn in *. split; cbn; rewrite ?E2; done.
Qed.

Lemma inv_quieter (w : W) tw : sess_inv w -> quieter (sw_timers w) tw -> sess_inv (put_timers tw w).
Proof.
  intros [H1 H2 H3 H4 H5 H6 H7] [Q1 Q2 Q3]. split; [done|..].
  - intros e He. cbn in *. specialize (H2 e He). destruct (ts_id tw !! e) eqn:E; [|done].
    destruct (Q2 e) as [Q _]. destruct Q as [? ?]; [by eexists|congruence].
  - intros t x Hx. destruct (H3 t x Hx) as [A1 A2 A3 A4 A5]. unfold has_entry in *. split; unfold has_entry; cbn; rewrite ?Q2; done.
  - intros d y Hy. destruct (H4 d y Hy) as [A1 A2 A3 A4]. unfold has_entry in *. split; unfold has_entry; cbn; rewrite ?Q2; done.
  - intros e [He _]%Q3. exact (H5 e He).
  - intros e He. destruct (Q3 e He) as [He' E]. cbn. rewrite E. exact (H6 e He').
  - intros s Hs. destruct (H7 s Hs) as [A1 A2 A3 A4]. by split.
Qed.

Lemma inv_schedule (w : W) tw e dl i :
  sess_inv w -> owned w e -> is_Some (ts_id (sw_timers w) !! e) -> i <> 0 -> ts_ok tw ->
  ts_armed tw = <[e := dl]> (ts_armed (sw_timers w)) -> ts_id tw = <[e := i]> (ts_id (sw_timers w)) ->
  sess_inv (put_timers tw w).
Proof.
  intros [H1 H2 H3 H4 H5 H6 H7] Ho He Hi Hok Ha Hid.
  assert (G : forall e', is_Some (ts_id tw !! e') <-> is_Some (ts_id (sw_timers w) !! e'))
    by (intros e'; rewrite Hid; by apply is_Some_insert).
  split; [done|..].
  - intros e' He'. cbn in *. specialize (H2 e' He'). destruct (ts_id tw !! e') eqn:E; [|done].
    destruct (G e') as [Q _]. destruct Q as [? ?]; [by eexists|congruence].
  - intros t x Hx. destruct (H3 t x Hx) as [A1 A2 A3 A4 A5]. unfold has_entry in *. split; unfold has_entry; cbn; rewrite ?G; done.
  - intros d y Hy. destruct (H4 d y Hy) as [A1 A2 A3 A4]. unfold has_entry in *. split; unfold has_entry; cbn; rewrite ?G; done.
  - intros e' He'. unfold armed in He'. cbn in He'. rewrite Ha in He'. destruct (decide (e' = e)) as [->|Hne]; [done|].
    rewrite lookup_insert_ne in He' by done. exact (H5 e' He').
  - intros e' He'. unfold armed in He'. cbn in He' |- *. rewrite Ha in He'. rewrite Hid.
    destruct (decide (e' = e)) as [->|Hne]; [rewrite lookup_insert_eq; congruence|].
    rewrite lookup_insert_ne in He' by done. rewrite lookup_insert_ne by done. exact (H6 e' He').
  - intros s Hs. destruct (H7 s Hs) as [A1 A2 A3 A4]. by split.
Qed.

Definition put_ct (t : nat) (x : pj_stun_client_tsx) (w : W) : W := w <| sw_tsx := <[t := x]> (sw_tsx w) |>.

Lemma inv_put_ct t x x' (w : W) :
  sess_inv w -> sw_tsx w !! t = Some x -> ct_user_data x' = ct_user_data x -> sess_inv (put_ct t x' w).
Proof.
  intros [H1 H2 H3 H4 H5 H6 H7] Hx Hu. split; try done.
  - intros t0 x0 H0. cbn in H0. rewrite lookup_insert_Some in H0. destruct H0 as [[<- <-]|[_ H0]].
    + destruct (H3 t x Hx) as [A1 A2 A3 A4 A5]. split; try done. by rewrite Hu.
    + destruct (H3 t0 x0 H0) as [A1 A2 A3 A4 A5]. by split.
  - intros d y Hy. destruct (H4 d y Hy) as [A1 A2 A3 A4]. split; try done. intros t0 H0.
    destruct (A4 t0 H0) as (x0 & B1 & B2). cbn. destruct (decide (t0 = t)) as [->|Hne].
    + exists x'. rewrite lookup_insert_eq. split; [done|congruence].
    + exists x0. by rewrite lookup_insert_ne.
  - intros e He. destruct (H5 e He) as [(t0 & B1 & B2)|?]; [left|by right]. exists t0. split; [|done]. cbn.
    apply is_Some_insert; [by eexists|done].
  - intros s Hs. destruct (H7 s Hs) as [A1 A2 A3 A4]. by split.
Qed.

Lemma keeps_put_ct ex t x x' (w : W) :
  sw_tsx w !! t = Some x -> ct_user_data x' = ct_user_data x -> keeps ex w (put_ct t x' w).
Proof.
  intros Hx Hu. split; [intros d y _ H; by exists y| |done|eauto]. intros t0 x0 _ H0. cbn.
  destruct (decide (t0 = t)) as [->|Hne]; [rewrite lookup_insert_eq; exists x'; split; [done|congruence]|].
  exists x0. by rewrite lookup_insert_ne.
Qed.

Lemma inv_put_sess s (w : W) : sess_inv w -> lists_ok w s -> sess_inv (put_sess s w).
Proof.
  intros [H1 H2 H3 H4 H5 H6 H7] [A1 A2 A3 A4]. split; try done.
  - intros t x Hx. destruct (H3 t x Hx) as [B1 B2 B3 B4 B5]. by split.
  - intros d y Hy. destruct (H4 d y Hy) as [B1 B2 B3 B4]. by split.
  - intros s' [= <-]. by split.
Qed.

(** ** Creation, transactions, release *)

(** A message that was created and not sent. *)
Definition unsent (w : W) (d : nat) (y : pj_stun_tx_data) : Prop :=
  se_tdata (sw_ext w) !! d = Some y /\ td_client_tsx y = None /\ td_has_lock y = false /\
  ts_id (sw_timers w) !! res_timer d = Some 0.

Lemma unsent_idle w d y : sess_inv w -> unsent w d y -> ts_armed (sw_timers w) !! res_timer d = None.
Proof.
  intros HI (Hy & _ & Hl & _). destruct (ts_armed (sw_timers w) !! res_timer d) eqn:E; [|done].
  exfalso. destruct (si_owned w HI (res_timer d)) as [(t & [x Hx] & H)|(d' & y' & Hy' & _ & Hl' & H)]; [by eexists|..].
  - unfold res_timer, ct_retransmit_timer, ct_destroy_timer in H. assert (t = d) as -> by lia.
    pose proof (co_unique _ _ _ (si_tsx _ HI _ _ Hx)). congruence.
  - unfold res_timer in H. assert (d' = d) as -> by lia. congruence.
Qed.

Lemma entry_fresh_idle w e : sess_inv w -> ts_id (sw_timers w) !! e = None -> ts_armed (sw_timers w) !! e = None.
Proof.
  intros HI He. destruct (ts_armed (sw_timers w) !! e) eqn:E; [|done]. exfalso.
  destruct (ts_armed_id (sw_timers w) e (si_timers _ HI)); [by eexists|congruence].
Qed.

(** Entries are added for a new object. *)
Record more_timers (tw tw' : TW) (n : nat) : Prop := mk_more_timers {
  mt_ok : ts_ok tw';
  mt_armed : ts_armed tw' = ts_armed tw;
  mt_old : forall e, (e < 2 * n)%nat -> ts_id tw' !! e = ts_id tw !! e;
  mt_new : forall e, (2 * S n <= e)%nat -> ts_id tw' !! e = None
}.

(** [w'] has a new message [d]. *)
Lemma inv_new_td (w w' : W) d y :
  sess_inv w -> d = se_next (sw_ext w) -> td_client_tsx y = None -> td_is_destroying y = false ->
  more_timers (sw_timers w) (sw_timers w') d -> has_entry w' (res_timer d) ->
  se_tdata (sw_ext w') = <[d := y]> (se_tdata (sw_ext w)) -> sw_tsx w' = sw_tsx w ->
  se_sess (sw_ext w') = se_sess (sw_ext w) -> se_next (sw_ext w') = S d -> sess_inv w'.
Proof.
  intros [H1 H2 H3 H4 H5 H6 H7] Hd Hy1 Hy2 [M1 M2 M3 M4] He E1 E2 E3 E4.
  assert (Hfresh : se_tdata (sw_ext w) !! d = None).
  { destruct (se_tdata (sw_ext w) !! d) eqn:E; [|done]. pose proof (do_number _ _ _ (H4 _ _ E)). lia. }
  assert (G : forall e, has_entry w e -> has_entry w' e /\ ts_id (sw_timers w') !! e = ts_id (sw_timers w) !! e).
  { intros e [i Hi]. assert (e < 2 * d)%nat.
    { destruct (decide (e < 2 * d)%nat); [done|]. rewrite H2 in Hi by lia. done. }
    unfold has_entry. rewrite M3 by done. split; [by eexists|done]. }
  assert (P : forall d0 y0, se_tdata (sw_ext w) !! d0 = Some y0 -> se_tdata (sw_ext w') !! d0 = Some y0).
  { intros d0 y0 H0. rewrite E1, lookup_insert_ne; [done|]. intros ->. congruence. }
  split; [done|..].
  - intros e Hle. rewrite E4 in Hle. by apply M4.
  - rewrite E2. intros t x Hx. destruct (H3 t x Hx) as [A1 A2 A3 A4 (d0 & y0 & B1 & B2 & B3)].
    split; [lia|by apply G|by apply G|rewrite E1, lookup_insert_ne by lia; done|]. exists d0, y0. auto.
  - intros d0 y0 H0. rewrite E1, lookup_insert_Some in H0. destruct H0 as [[<- <-]|[Hne H0]].
    + split; [lia|done|done|]. intros t. congruence.
    + destruct (H4 d0 y0 H0) as [A1 A2 A3 A4]. rewrite <- E2 in A4. split; [lia|by apply G|done|done].
  - intros e. unfold armed, owned. rewrite M2, E2. intros H. destruct (H5 e H) as [?|(d0 & y0 & B1 & B)]; [by left|right].
    exists d0, y0. auto.
  - intros e. unfold armed. rewrite M2. intros H. assert (Hh : has_entry w e) by (by apply ts_armed_id).
    destruct (G e Hh) as [_ ->]. by apply H6.
  - rewrite E3. intros s Hs. destruct (H7 s Hs) as [A1 A2 A3 A4]. split; [done..| |].
    + intros d0 (y0 & t & B1 & B2)%A3. exists y0, t. auto.
    + intros d0 (y0 & B1 & B2)%A4. exists y0. auto.
Qed.

(** [w'] has a new transaction [t] of the message [d]. *)
Lemma inv_new_tsx (w w' : W) d t y y' x :
  sess_inv w -> unsent w d y -> t = se_next (sw_ext w) -> td_client_tsx y' = Some t ->
  td_has_lock y' = false -> td_is_destroying y' = false -> ct_user_data x = Some d ->
  more_timers (sw_timers w) (sw_timers w') t -> has_entry w' (ct_retransmit_timer t) -> has_entry w' (ct_destroy_timer t) ->
  se_tdata (sw_ext w') = <[d := y']> (se_tdata (sw_ext w)) -> sw_tsx w' = <[t := x]> (sw_tsx w) ->
  se_sess (sw_ext w') = se_sess (sw_ext w) -> se_next (sw_ext w') = S t -> sess_inv w'.
Proof.
  intros [H1 H2 H3 H4 H5 H6 H7] (Hy & Hu1 & Hu2 & Hu3) Ht Hy1 Hy2 Hy3 Hx [M1 M2 M3 M4] He1 He2 E1 E2 E3 E4.
  assert (Hfresh : se_tdata (sw_ext w) !! t = None).
  { destruct (se_tdata (sw_ext w) !! t) eqn:E; [|done]. pose proof (do_number _ _ _ (H4 _ _ E)). lia. }
  assert (Hft : sw_tsx w !! t = None).
  { destruct (sw_tsx w !! t) eqn:E; [|done]. pose proof (co_number _ _ _ (H3 _ _ E)). lia. }
  assert (Htd : t <> d) by congruence.
  assert (G : forall e, has_entry w e -> has_entry w' e /\ ts_id (sw_timers w') !! e = ts_id (sw_timers w) !! e).
  { intros e [i Hi]. assert (e < 2 * t)%nat.
    { destruct (decide (e < 2 * t)%nat); [done|]. rewrite H2 in Hi by lia. done. }
    unfold has_entry. rewrite M3 by done. split; [by eexists|done]. }
  assert (P : forall d0 y0, d0 <> d -> se_tdata (sw_ext w) !! d0 = Some y0 -> se_tdata (sw_ext w') !! d0 = Some y0).
  { intros d0 y0 Hne H0. by rewrite E1, lookup_insert_ne. }
  assert (N : forall d0 y0, se_tdata (sw_ext w) !! d0 = Some y0 -> td_has_lock y0 = true \/ is_Some (td_client_tsx y0) -> d0 <> d).
  { intros d0 y0 H0 Hor ->. assert (y0 = y) as -> by congruence. rewrite Hu1, Hu2 in Hor. destruct Hor as [?|[? ?]]; done. }
  assert (Et : forall t0 x0, sw_tsx w !! t0 = Some x0 -> sw_tsx w' !! t0 = Some x0).
  { intros t0 x0 H0. rewrite E2, lookup_insert_ne; [done|]. intros ->. congruence. }
  split; [done|..].
  - intros e Hle. rewrite E4 in Hle. by apply M4.
  - intros t0 x0 H0. rewrite E2, lookup_insert_Some in H0. destruct H0 as [[<- <-]|[Hne H0]].
    + split; [lia|done|done|rewrite E1, lookup_insert_ne by done; done|]. exists d, y'. rewrite E1, lookup_insert_eq. done.
    + destruct (H3 t0 x0 H0) as [A1 A2 A3 A4 (d0 & y0 & B1 & B2 & B3)].
      assert (d0 <> d) by (eapply N; [done|right; by eexists]).
      split; [lia|by apply G|by apply G| |exists d0, y0; auto]. rewrite E1, lookup_insert_ne; [done|].
      intros ->. congruence.
  - intros d0 y0 H0. rewrite E1, lookup_insert_Some in H0. destruct H0 as [[<- <-]|[Hne H0]].
    + destruct (H4 d y Hy) as [A1 A2 A3 A4]. split; [lia|by apply G|done|]. intros t0 H0. exists x.
      assert (t0 = t) as -> by congruence. by rewrite E2, lookup_insert_eq.
    + destruct (H4 d0 y0 H0) as [A1 A2 A3 A4]. split; [lia|by apply G|done|]. intros t0 (x0 & B1 & B2)%A4. exists x0. auto.
  - intros e. unfold armed. rewrite M2. intros H. destruct (H5 e H) as [(t0 & [x0 B1] & B2)|(d0 & y0 & B1 & B2 & B3 & B4)].
    + left. exists t0. split; [|done]. exists x0. auto.
    + right. exists d0, y0. split; [|done]. apply P; [|done]. eapply N; [done|by left].
  - intros e. unfold armed. rewrite M2. intros H. assert (Hh : has_entry w e) by (by apply ts_armed_id).
    destruct (G e Hh) as [_ ->]. by apply H6.
  - rewrite E3. intros s Hs. destruct (H7 s Hs) as [A1 A2 A3 A4]. split; [done..| |].
    + intros d0 (y0 & t0 & B1 & B2)%A3. exists y0, t0. split; [|done]. apply P; [|done]. eapply N; [done|right; by eexists].
    + intros d0 (y0 & B1 & B2 & B3)%A4. exists y0. split; [|done]. apply P; [|done]. eapply N; [done|by left].
Qed.

(** A message and its transaction are released, with their entries idle. *)
Definition tsx_gone (o : option nat) (m : gmap nat pj_stun_client_tsx) : gmap nat pj_stun_client_tsx :=
  match o with Some t => delete t m | None => m end.

Definition erased (d : nat) (s : pj_stun_session) : pj_stun_session :=
  s <| ss_pending_request_list := filter (fun x => x <> d) (ss_pending_request_list s) |>
    <| ss_cached_response_list := filter (fun x => x <> d) (ss_cached_response_list s) |>.

Lemma inv_release (w w' : W) d y :
  sess_inv w -> se_tdata (sw_ext w) !! d = Some y -> quieter (sw_timers w) (sw_timers w') ->
  (forall e, armed w' e -> e <> res_timer d /\
     forall t, td_client_tsx y = Some t -> e <> ct_retransmit_timer t /\ e <> ct_destroy_timer t) ->
  se_tdata (sw_ext w') = delete d (se_tdata (sw_ext w)) -> sw_tsx w' = tsx_gone (td_client_tsx y) (sw_tsx w) ->
  se_sess (sw_ext w') = erased d <$> se_sess (sw_ext w) -> se_next (sw_ext w') = se_next (sw_ext w) -> sess_inv w'.
Proof.
  intros HI Hy Hq Hidle E1 E2 E3 E4. destruct (inv_quieter w _ HI Hq) as [H1 H2 H3 H4 H5 H6 H7].
  unfold map_Forall, put_timers in H3, H4. cbn in H1, H2, H3, H4, H5, H6, H7.
  assert (Et : forall t x, sw_tsx w' !! t = Some x <-> td_client_tsx y <> Some t /\ sw_tsx w !! t = Some x).
  { intros t x. rewrite E2. destruct (td_client_tsx y) as [t'|]; cbn; [|naive_solver].
    rewrite lookup_delete_Some. naive_solver. }
  assert (N : forall d0 y0, d0 <> d -> se_tdata (sw_ext w) !! d0 = Some y0 -> se_tdata (sw_ext w') !! d0 = Some y0)
    by (intros d0 y0 Hne H0; by rewrite E1, lookup_delete_ne).
  (* the transaction of a message that stays is not that of [d] *)
  assert (S : forall d0 y0 t, d0 <> d -> se_tdata (sw_ext w) !! d0 = Some y0 -> td_client_tsx y0 = Some t ->
    td_client_tsx y <> Some t).
  { intros d0 y0 t Hne H0 Ht0 Ht. destruct (do_tsx _ _ _ (si_td _ HI d0 y0 H0) t Ht0) as (x & Hx & Hx1).
    destruct (do_tsx _ _ _ (si_td _ HI d y Hy) t Ht) as (x' & Hx' & Hx1'). congruence. }
  split; [done|..].
  - rewrite E4. exact H2.
  - intros t x [Hne Hx]%Et. destruct (H3 t x Hx) as [A1 A2 A3 A4 (d0 & y0 & B1 & B2 & B3)]. cbn in *.
    assert (d0 <> d) by (intros ->; congruence).
    split; [by rewrite E4|done|done|rewrite E1, lookup_delete_None; by right|]. exists d0, y0. auto.
  - intros d0 y0 H0. rewrite E1, lookup_delete_Some in H0. destruct H0 as [Hne H0].
    destruct (H4 d0 y0 H0) as [A1 A2 A3 A4]. cbn in *. split; [by rewrite E4|done|done|].
    intros t Ht. destruct (A4 t Ht) as (x & B1 & B2). exists x. split; [|done]. apply Et. split; [|done]. by eapply S.
  - intros e He. destruct (Hidle e He) as [Hr Ht]. destruct (H5 e He) as [(t & [x B1] & B2)|(d0 & y0 & B1 & B2 & B3 & B4)].
    + left. exists t. split; [|done]. exists x. apply Et. split; [|done]. intros Hc. destruct (Ht t Hc). naive_solver.
    + right. exists d0, y0. split; [|done]. apply N; [congruence|done].
  - exact H6.
  - intros s Hs. rewrite E3 in Hs. destruct (se_sess (sw_ext w)) as [s0|] eqn:Es; [|done]. injection Hs as <-.
    destruct (H7 s0 eq_refl) as [A1 A2 A3 A4]. cbn in *. split; cbn.
    + by apply NoDup_filter.
    + by apply NoDup_filter.
    + intros d0 [Hne Hin]%list_elem_of_filter. destruct (A3 d0 Hin) as (y0 & t & B1 & B2). exists y0, t. auto.
    + intros d0 [Hne Hin]%list_elem_of_filter. destruct (A4 d0 Hin) as (y0 & B1 & B2). exists y0. auto.
Qed.

Lemma keeps_release d w w' y :
  sess_inv w -> se_tdata (sw_ext w) !! d = Some y ->
  se_tdata (sw_ext w') = delete d (se_tdata (sw_ext w)) -> sw_tsx w' = tsx_gone (td_client_tsx y) (sw_tsx w) ->
  se_sess (sw_ext w') = erased d <$> se_sess (sw_ext w) -> se_next (sw_ext w') = se_next (sw_ext w) -> keeps (Some d) w w'.
Proof.
  intros HI Hy E1 E2 E3 E4. split; [| |rewrite E3; by intros [s ->]; eexists|].
  - intros d0 y0 Hne H0. exists y0. rewrite E1, lookup_delete_ne by congruence. done.
  - intros t x Hne Hx. exists x. split; [|done]. rewrite E2. unfold tsx_gone. destruct (td_client_tsx y) as [t'|] eqn:Et; [|done].
    destruct (do_tsx _ _ _ (si_td _ HI d y Hy) t' Et) as (x' & Hx' & Hx1). rewrite lookup_delete_ne; [done|]. congruence.
  - rewrite E3. intros d0 y0 t s' _ _ _ Hs Hin. destruct (se_sess (sw_ext w)) as [s|]; [|done]. injection Hs as <-.
    exists s. split; [done|]. by apply list_elem_of_filter in Hin as [_ ?].
Qed.

Lemma filter_absent (d : nat) (l : list nat) : d ∉ l -> filter (fun x => x <> d) l = l.
Proof.
  induction l as [|x l IH]; [done|]. intros H. apply not_elem_of_cons in H as [H1 H2].
  rewrite filter_cons, decide_True by congruence. by rewrite IH.
Qed.

(** An unsent message is in no list. *)
Lemma unsent_lists w d y s :
  sess_inv w -> se_sess (sw_ext w) = Some s -> unsent w d y ->
  (d ∉ ss_pending_request_list s) /\ (d ∉ ss_cached_response_list s) /\ erased d s = s.
Proof.
  intros HI Hs (Hy & H1 & H2 & _). destruct (si_lists _ HI s Hs) as [_ _ A3 A4].
  assert (P : not (d ∈ ss_pending_request_list s)) by (intros (y0 & t & B1 & B2)%A3; congruence).
  assert (C : not (d ∈ ss_cached_response_list s)) by (intros (y0 & B1 & B2 & B3)%A4; congruence).
  split_and!; [done|done|]. unfold erased. destruct s. cbn in *. unfold set_field; cbn. by rewrite !filter_absent.
Qed.
End Preserve.
