(* ===== verification/StunSessRun.v ===== *)
(** * STUN sessions: preservation of the invariant

    By every operation, by timers and packets, and by all runs. *)

From S2P Require Import Prelude Monad TimeVal TimerSpec PjString StunMsg StunAuth StunTsx StunSess.
From S2P Require Import StunSessInv.
Local Open Scope Z_scope.
#[local] Set Warnings "-clear-no-such-hyp".

(** * STUN sessions: preservation of the invariant

    Each operation keeps the invariant; those that do not encode messages are
    defined as well, and nothing that a timer or a callback still uses is
    released.  The callbacks of the application are arbitrary but for
    [calm]. *)

#[local] Arguments ct_retransmit_timer : simpl never.
#[local] Arguments ct_destroy_timer : simpl never.
#[local] Arguments res_timer : simpl never.

Section Safe.
Context {TW : Type} `{TS : !TimerService TW} {EN : StunEnv TW}.

#[local] Abbreviation W := (stun_world TW stun_ext).

(** Callbacks that may call the operations of the session, but release no
    message that is in use; [on_send_msg] returns neither the status of a
    timeout nor the one that says that the transaction is destroyed. *)
Record calm : Prop := mk_calm {
  cm_send : forall token pkt dst w r w', sess_inv w -> cb_on_send_msg token pkt dst w = (r, w') ->
    sess_inv w' /\ keeps None w w' /\ r <> PJNATH_ESTUNTIMEDOUT /\ r <> PJNATH_ESTUNDESTROYED;
  cm_request : forall cb pkt rdata token src w r w', sess_inv w -> cb_on_rx_request = Some cb ->
    cb pkt rdata token src w = (r, w') -> sess_inv w' /\ keeps None w w';
  cm_complete : forall cb status token d response w, sess_inv w -> cb_on_request_complete = Some cb ->
    sess_inv (cb status token d response w) /\ keeps None w (cb status token d response w);
  cm_indication : forall cb pkt msg token src w r w', sess_inv w -> cb_on_rx_indication = Some cb ->
    cb pkt msg token src w = (r, w') -> sess_inv w' /\ keeps None w w'
}.

(** ** Primitive steps *)

Lemma ok_entry_id e (Q : Z -> W -> Prop) w :
  has_entry w e -> (forall i, ts_id (sw_timers w) !! e = Some i -> Q i w) -> wp (entry_id e) Q w.
Proof. intros [i Hi] HQ. eapply wp_entry_id; eauto. Qed.

Lemma quiet_cancel e j (Q : unit -> W -> Prop) w :
  ts_ok (sw_timers w) -> has_entry w e ->
  (forall tw, quieter (sw_timers w) tw -> ts_armed tw !! e = None -> Q tt (put_timers tw w)) ->
  wp (cancel_if_active e j) Q w.
Proof.
  intros HI He HQ. unfold wp, cancel_if_active. destruct (cancel_quieter (sw_timers w) e j HI He) as (r & tw & -> & Hq & Hn).
  by apply HQ.
Qed.

Lemma ok_cancel e j (Q : unit -> W -> Prop) w :
  sess_inv w -> has_entry w e ->
  (forall tw, sess_inv (put_timers tw w) -> keeps None w (put_timers tw w) -> Q tt (put_timers tw w)) ->
  wp (cancel_if_active e j) Q w.
Proof.
  intros HI He HQ. apply quiet_cancel; [apply HI|done|]. intros tw Hq Hn.
  apply HQ; [by apply inv_quieter|by apply keeps_same].
Qed.

Lemma ok_set_id e j (Q : unit -> W -> Prop) w :
  sess_inv w -> has_entry w e -> ts_armed (sw_timers w) !! e = None ->
  (forall tw, quieter (sw_timers w) tw -> sess_inv (put_timers tw w) -> keeps None w (put_timers tw w) ->
     ts_id tw !! e = Some j -> Q tt (put_timers tw w)) -> wp (set_entry_id e j) Q w.
Proof.
  intros HI He Hn HQ. pose proof (set_id_quieter _ e j (si_timers _ HI) He Hn) as Hq.
  apply wp_modify, HQ; [done|by apply inv_quieter|by apply keeps_same|].
  destruct (ts_set_id_ok (sw_timers w) e j (si_timers _ HI) He) as (_ & _ & ->). apply lookup_insert_eq.
Qed.

Lemma quiet_schedule e delay (Q : Z -> W -> Prop) w :
  ts_ok (sw_timers w) -> has_entry w e -> ts_armed (sw_timers w) !! e = None ->
  (forall tw, ts_ok tw -> ts_armed tw = <[e := PJ_TIME_VAL_ADD (sw_now w) delay]> (ts_armed (sw_timers w)) ->
     ts_id tw = <[e := TIMER_ACTIVE]> (ts_id (sw_timers w)) -> Q PJ_SUCCESS (put_timers tw w)) ->
  wp (schedule_entry e delay TIMER_ACTIVE) Q w.
Proof.
  intros HI He Hn HQ. unfold wp, schedule_entry.
  destruct (ts_schedule_ok (sw_timers w) (sw_now w) e delay TIMER_ACTIVE HI He Hn) as (tw & -> & Hok & Ha & Hi). by apply HQ.
Qed.

Lemma ok_schedule e delay (Q : Z -> W -> Prop) w :
  sess_inv w -> owned w e -> has_entry w e -> ts_armed (sw_timers w) !! e = None ->
  (forall tw, sess_inv (put_timers tw w) -> keeps None w (put_timers tw w) -> Q PJ_SUCCESS (put_timers tw w)) ->
  wp (schedule_entry e delay TIMER_ACTIVE) Q w.
Proof.
  intros HI Ho He Hn HQ. apply quiet_schedule; [apply HI|done|done|]. intros tw Hok Ha Hi.
  apply HQ; [by eapply (inv_schedule w tw e _ TIMER_ACTIVE)|by apply keeps_same].
Qed.

Lemma ok_upd_ct t f x (Q : unit -> W -> Prop) w :
  sess_inv w -> sw_tsx w !! t = Some x -> ct_user_data (f x) = ct_user_data x ->
  (sess_inv (put_ct t (f x) w) -> keeps None w (put_ct t (f x) w) -> Q tt (put_ct t (f x) w)) -> wp (upd_ct t f) Q w.
Proof. intros HI Hx Hu HQ. eapply wp_upd_ct; [done|]. apply HQ; [by eapply inv_put_ct|by eapply keeps_put_ct]. Qed.

Lemma ok_upd_td d f y (Q : unit -> W -> Prop) w :
  sess_inv w -> se_tdata (sw_ext w) !! d = Some y -> same_links y (f y) ->
  (sess_inv (put_td d (f y) w) -> keeps None w (put_td d (f y) w) -> Q tt (put_td d (f y) w)) -> wp (upd_td d f) Q w.
Proof.
  intros HI Hy Hl HQ. eapply st_upd_td; [done|]. apply HQ; [by eapply inv_put_td|].
  eapply keeps_put_td; [done|]. destruct Hl as (-> & _). done.
Qed.

(** The session, with other fields than its lists. *)
Lemma ok_upd_sess f s (Q : unit -> W -> Prop) w :
  sess_inv w -> se_sess (sw_ext w) = Some s ->
  ss_pending_request_list (f s) = ss_pending_request_list s ->
  ss_cached_response_list (f s) = ss_cached_response_list s ->
  (sess_inv (put_sess (f s) w) -> keeps None w (put_sess (f s) w) -> Q tt (put_sess (f s) w)) -> wp (upd_sess f) Q w.
Proof.
  intros HI Hs H1 H2 HQ. eapply wp_upd_sess; [done|]. apply HQ; [|apply keeps_lists; [done|done|by eexists|]; intros s' [= <-]; exists s; rewrite H1; done].
  apply inv_put_sess; [done|]. destruct (si_lists _ HI s Hs) as [A1 A2 A3 A4]. split; rewrite ?H1, ?H2; done.
Qed.

Lemma ok_emit o (Q : unit -> W -> Prop) w :
  sess_inv w -> (forall w', sess_inv w' -> keeps None w w' -> sw_timers w' = sw_timers w ->
     se_tdata (sw_ext w') = se_tdata (sw_ext w) -> se_sess (sw_ext w') = se_sess (sw_ext w) -> Q tt w') -> wp (emit o) Q w.
Proof. intros HI HQ. apply wp_modify, HQ; [by eapply inv_same|by apply keeps_same|done..]. Qed.

(** What a transaction and a message have. *)
Lemma tsx_entries w t x : sess_inv w -> sw_tsx w !! t = Some x ->
  has_entry w (ct_retransmit_timer t) /\ has_entry w (ct_destroy_timer t).
Proof. intros HI Hx. destruct (si_tsx _ HI t x Hx). done. Qed.

Lemma tsx_data w t x : sess_inv w -> sw_tsx w !! t = Some x ->
  exists d y, ct_user_data x = Some d /\ se_tdata (sw_ext w) !! d = Some y /\ td_client_tsx y = Some t.
Proof. intros HI Hx. by destruct (si_tsx _ HI t x Hx). Qed.

Lemma td_tsx w d y t : sess_inv w -> se_tdata (sw_ext w) !! d = Some y -> td_client_tsx y = Some t ->
  exists x, sw_tsx w !! t = Some x /\ ct_user_data x = Some d.
Proof. intros HI Hy Ht. destruct (si_td _ HI d y Hy). auto. Qed.

Lemma inactive_idle w e i : sess_inv w -> ts_id (sw_timers w) !! e = Some i -> i = 0 ->
  ts_armed (sw_timers w) !! e = None.
Proof.
  intros HI Hi ->. destruct (ts_armed (sw_timers w) !! e) eqn:E; [|done]. exfalso.
  apply (si_ids _ HI e); [by eexists|done].
Qed.

(** ** Transmission *)

Section Send.
Context (Hc : calm).

Lemma ok_call_send token pkt dst (Q : Z -> W -> Prop) w :
  sess_inv w -> (forall r w', sess_inv w' -> keeps None w w' -> r <> PJNATH_ESTUNTIMEDOUT /\ r <> PJNATH_ESTUNDESTROYED -> Q r w') ->
  wp (call_send_msg token pkt dst) Q w.
Proof.
  intros HI HQ. unfold call_send_msg. wbind. apply ok_emit; [done|]. intros w1 H1 K1 _ _ _.
  destruct (cb_on_send_msg token pkt dst w1) as [r w2] eqn:E. eapply wp_callback; [exact E|].
  destruct (cm_send Hc _ _ _ _ _ _ H1 E) as (H2 & K2 & Hr). apply HQ; [done|by eapply keeps_trans|done].
Qed.

Lemma ok_on_send t x pkt (Q : Z -> W -> Prop) w :
  sess_inv w -> sw_tsx w !! t = Some x -> is_Some (se_sess (sw_ext w)) ->
  (forall r w', sess_inv w' -> keeps None w w' -> r <> PJNATH_ESTUNTIMEDOUT /\ r <> PJNATH_ESTUNDESTROYED -> Q r w') ->
  wp (stun_tsx_on_send_msg t pkt) Q w.
Proof.
  intros HI Hx [s Hs] HQ. destruct (tsx_data w t x HI Hx) as (d & y & Hd & Hy & _).
  unfold stun_tsx_on_send_msg, pj_stun_client_tsx_get_data. wbind. wbind. eapply wp_get_ct; [done|]. apply wp_ret.
  wbind. eapply wp_from_option; [done|]. wbind. eapply st_get_td; [done|].
  eapply wp_alive; [done|intros _; apply HQ; [done|apply keeps_refl|done]|intros _]. by apply ok_call_send.
Qed.

Lemma ok_transmit t x mod_count (Q : Z -> W -> Prop) w :
  sess_inv w -> sw_tsx w !! t = Some x -> is_Some (se_sess (sw_ext w)) ->
  (forall r w', sess_inv w' -> keeps None w w' -> r <> PJNATH_ESTUNTIMEDOUT ->
     (ts_id (sw_timers w) !! ct_retransmit_timer t = Some 0 -> mod_count = true -> r <> PJ_SUCCESS ->
        ts_armed (sw_timers w') !! ct_retransmit_timer t = None) -> Q r w') ->
  wp (tsx_transmit_msg stun_tsx_on_send_msg t mod_count) Q w.
Proof.
  intros HI Hx Hs HQ. destruct (tsx_entries w t x HI Hx) as [Hr _].
  unfold tsx_transmit_msg. wbind. eapply wp_get_ct; [done|]. wbind. apply ok_entry_id; [done|]. intros i Hi.
  destruct (negb _) eqn:Eb.
  { apply wp_ret, HQ; [done|apply keeps_refl|done|]. intros Hz Hm _. assert (i = 0) as -> by congruence. by rewrite Hm in Eb. }
  (* the transmission itself *)
  assert (G : forall w1 x1, sess_inv w1 -> keeps None w w1 -> sw_tsx w1 !! t = Some x1 ->
    wp (when mod_count (upd_ct t (fun x => x <| ct_transmit_count := u32 (ct_transmit_count x + 1) |>));;
        x ← get_ct t; status ← stun_tsx_on_send_msg t (ct_last_pkt x);
        let status := if (status =? PJ_EPENDING) || (status =? PJ_EBUSY) then PJ_SUCCESS else status in
        when (negb (status =? PJNATH_ESTUNDESTROYED) && negb (status =? PJ_SUCCESS))
          (get_ct t;; when (mod_count || (status =? PJ_EINVALIDOP)) (cancel_if_active (ct_retransmit_timer t) TIMER_INACTIVE));;
        mret status) Q w1).
  { intros w1 x1 H1 K1 Hx1.
    assert (G : forall w2 x2, sess_inv w2 -> keeps None w w2 -> sw_tsx w2 !! t = Some x2 ->
      wp (x ← get_ct t; status ← stun_tsx_on_send_msg t (ct_last_pkt x);
          let status := if (status =? PJ_EPENDING) || (status =? PJ_EBUSY) then PJ_SUCCESS else status in
          when (negb (status =? PJNATH_ESTUNDESTROYED) && negb (status =? PJ_SUCCESS))
            (get_ct t;; when (mod_count || (status =? PJ_EINVALIDOP)) (cancel_if_active (ct_retransmit_timer t) TIMER_INACTIVE));;
          mret status) Q w2).
    { intros w2 x2 H2 K2 Hx2. wbind. eapply wp_get_ct; [done|]. wbind.
      eapply ok_on_send; [done|done|by apply (kp_sess _ _ _ K2)|]. intros r w3 H3 K3 Hr3. cbn zeta.
      destruct (kp_tsx _ _ _ K3 t x2) as (x3 & Hx3 & _);
        [destruct (tsx_data w2 t x2 H2 Hx2) as (d & y & -> & _); done|done|].
      set (r' := if (r =? PJ_EPENDING) || (r =? PJ_EBUSY) then PJ_SUCCESS else r).
      assert (Hst : r' <> PJNATH_ESTUNTIMEDOUT /\ r' <> PJNATH_ESTUNDESTROYED) by (unfold r'; by case_match).
      destruct Hst as [Hst Hsd]. assert (K : keeps None w w3) by (by eapply keeps_trans).
      wbind. apply wp_when; intros Hb.
      - wbind. eapply wp_get_ct; [done|]. destruct (tsx_entries w3 t x3 H3 Hx3) as [He _].
        apply wp_when; [intros _|intros Hm; apply wp_ret, HQ; [done|done|done|intros _ ->; done]].
        apply quiet_cancel; [apply H3|done|]. intros tw Hq Hn.
        apply wp_ret, HQ; [by apply inv_quieter|eapply keeps_trans; [done|by apply keeps_same]|done|done].
      - apply wp_ret, HQ; [done|done|done|]. intros _ _ Hne. apply Z.eqb_neq in Hne, Hsd.
        by rewrite Hne, Hsd in Hb. }
    wbind. apply wp_when; [intros _|intros _; by eapply G]. eapply ok_upd_ct; [done|done|done|]. intros H2 K2.
    eapply G; [done|by eapply keeps_trans|apply lookup_insert_eq]. }
  wbind. destruct (ct_require_retransmit x && mod_count) eqn:Em.
  - apply andb_prop in Em as [Er ->]. rewrite Er in Eb. destruct (Z.eqb_spec i TIMER_INACTIVE) as [->|]; [|done].
    pose proof (inactive_idle w _ _ HI Hi eq_refl) as Hn.
    wbind. eapply ok_upd_ct; [done|done|done|]. intros H1 K1. set (w1 := put_ct _ _ _) in *.
    unfold schedule_retransmit. wbind. eapply wp_get_ct; [apply lookup_insert_eq|]. wbind.
    apply ok_schedule; [done| |exact Hr|exact Hn|].
    + left. exists t. split; [|by left]. cbn. rewrite lookup_insert_eq. by eexists.
    + intros tw H2 K2. cbn [Z.eqb PJ_SUCCESS negb]. apply wp_ret. cbn [Z.eqb PJ_SUCCESS negb].
      eapply G; [done|by eapply keeps_trans|apply lookup_insert_eq].
  - apply wp_ret. cbn [Z.eqb PJ_SUCCESS negb]. eapply G; [done|apply keeps_refl|done].
Qed.

Lemma ok_first_send t x retransmit pkt (Q : Z -> W -> Prop) w :
  sess_inv w -> sw_tsx w !! t = Some x -> is_Some (se_sess (sw_ext w)) ->
  (forall r w', sess_inv w' -> keeps None w w' -> Q r w') ->
  wp (pj_stun_client_tsx_send_msg stun_tsx_on_send_msg t retransmit pkt) Q w.
Proof.
  intros HI Hx Hs HQ. destruct (tsx_entries w t x HI Hx) as [Hr _]. unfold pj_stun_client_tsx_send_msg.
  case_bool_decide; [apply wp_ret, HQ; [done|apply keeps_refl]|].
  wbind. eapply wp_get_ct; [done|]. wbind. apply ok_entry_id; [done|]. intros i Hi.
  destruct (Z.eqb_spec i 0) as [->|]; [|apply wp_ret, HQ; [done|apply keeps_refl]].
  pose proof (inactive_idle w _ _ HI Hi eq_refl) as Hn. cbn [negb].
  wbind. eapply ok_upd_ct; [done|done|done|]. intros H1 K1. set (x1 := _ <| ct_require_retransmit := _ |>) in *.
  assert (G : forall w2 x2, sess_inv w2 -> keeps None w w2 -> sw_tsx w2 !! t = Some x2 ->
    wp (status ← tsx_transmit_msg stun_tsx_on_send_msg t true; get_ct t;;
        if negb (status =? PJ_SUCCESS) then cancel_if_active (ct_retransmit_timer t) TIMER_INACTIVE;; mret status
        else mret PJ_SUCCESS) Q w2).
  { intros w2 x2 H2 K2 Hx2. wbind. eapply ok_transmit; [done|done|by apply (kp_sess _ _ _ K2)|].
    intros r w3 H3 K3 _ _. destruct (kp_tsx _ _ _ K3 t x2) as (x3 & Hx3 & _);
        [destruct (tsx_data w2 t x2 H2 Hx2) as (d & y & -> & _); done|done|].
    wbind. eapply wp_get_ct; [done|]. assert (K : keeps None w w3) by (by eapply keeps_trans).
    destruct (negb _); [|by apply wp_ret, HQ]. wbind. destruct (tsx_entries w3 t x3 H3 Hx3) as [He _].
    apply ok_cancel; [done|done|]. intros tw H4 K4. apply wp_ret, HQ; [done|by eapply keeps_trans]. }
  wbind. destruct retransmit.
  - apply wp_ret. cbn [Z.eqb PJ_SUCCESS negb]. eapply G; [done|done|apply lookup_insert_eq].
  - wbind. eapply ok_upd_ct; [done|apply lookup_insert_eq|done|]. intros H2 K2. unfold schedule_retransmit.
    wbind. eapply wp_get_ct; [apply lookup_insert_eq|]. wbind. apply ok_schedule; [done| |exact Hr|exact Hn|].
    + left. exists t. split; [|by left]. cbn. rewrite lookup_insert_eq. by eexists.
    + intros tw H3 K3. cbn [Z.eqb PJ_SUCCESS negb]. apply wp_ret. cbn [Z.eqb PJ_SUCCESS negb].
      eapply G; [done| |apply lookup_insert_eq]. eapply keeps_trans; [done|]. by eapply keeps_trans.
Qed.
End Send.

(** ** Release *)

Lemma ok_list_erase d s (Q : unit -> W -> Prop) w :
  se_sess (sw_ext w) = Some s -> Q tt (put_sess (erased d s) w) -> wp (list_erase d) Q w.
Proof. intros Hs HQ. by eapply wp_upd_sess. Qed.

(** Releasing a message that is marked, whose entries are idle. *)
Lemma ok_release d y y' s (Q : unit -> W -> Prop) w w0 :
  sess_inv w0 -> se_tdata (sw_ext w0) !! d = Some y -> se_sess (sw_ext w0) = Some s ->
  td_client_tsx y' = td_client_tsx y -> se_tdata (sw_ext w) = <[d := y']> (se_tdata (sw_ext w0)) ->
  tsx_gone (td_client_tsx y) (sw_tsx w) = tsx_gone (td_client_tsx y) (sw_tsx w0) ->
  se_sess (sw_ext w) = Some (erased d s) -> se_next (sw_ext w) = se_next (sw_ext w0) ->
  quieter (sw_timers w0) (sw_timers w) -> ts_armed (sw_timers w) !! res_timer d = None ->
  (forall t, td_client_tsx y = Some t -> ts_armed (sw_timers w) !! ct_retransmit_timer t = None /\
     ts_armed (sw_timers w) !! ct_destroy_timer t = None) ->
  (forall w', sess_inv w' -> keeps (Some d) w0 w' -> se_sess (sw_ext w') = Some (erased d s) ->
     quieter (sw_timers w0) (sw_timers w') -> Q tt w') ->
  wp (pool_release d) Q w.
Proof.
  intros HI Hy Hs Hl E1 E2 E3 E4 Hq Hr Ht HQ. unfold wp, pool_release, entry_idle.
  rewrite E1, lookup_insert_eq. ored. rewrite bool_decide_eq_true_2 by done.
  assert (G : forall w', se_tdata (sw_ext w') = delete d (se_tdata (sw_ext w0)) ->
    sw_tsx w' = tsx_gone (td_client_tsx y) (sw_tsx w0) -> se_sess (sw_ext w') = Some (erased d s) ->
    se_next (sw_ext w') = se_next (sw_ext w0) -> sw_timers w' = sw_timers w -> Q tt w').
  { intros w' F1 F2 F3 F4 F5. apply HQ; [|apply (keeps_release d w0 w' y); by rewrite ?Hs|done|by rewrite F5].
    apply (inv_release w0 w' d y); rewrite ?Hs, ?F5; try done. intros e. unfold armed. rewrite F5. intros He. split.
    - intros ->. rewrite Hr in He. by destruct He.
    - intros t Ec. destruct (Ht t Ec) as [H1 H2].
      split; intros ->; [rewrite H1 in He|rewrite H2 in He]; by destruct He. }
  rewrite Hl. destruct (td_client_tsx y) as [t|] eqn:Et.
  - destruct (Ht t eq_refl) as [H1 H2]. rewrite !bool_decide_eq_true_2 by done. cbn.
    apply G; cbn; rewrite ?E1, ?delete_insert_eq; done.
  - apply G; cbn; rewrite ?E1, ?delete_insert_eq; done.
Qed.

(** The timer of the cache, when a message is destroyed. *)
Lemma quiet_stop_res d (Q : unit -> W -> Prop) w :
  ts_ok (sw_timers w) -> has_entry w (res_timer d) ->
  (ts_id (sw_timers w) !! res_timer d = Some 0 -> ts_armed (sw_timers w) !! res_timer d = None) ->
  (forall tw, quieter (sw_timers w) tw -> ts_armed tw !! res_timer d = None -> Q tt (put_timers tw w)) ->
  wp (id ← entry_id (res_timer d); when (negb (id =? 0)) (cancel_if_active (res_timer d) 0)) Q w.
Proof.
  intros HI He Hz HQ. wbind. apply ok_entry_id; [done|]. intros i Hi. apply wp_when; intros Hb.
  - by apply quiet_cancel.
  - destruct (Z.eqb_spec i 0) as [->|]; [|done].
    assert (E : w = put_timers (sw_timers w) w) by (by destruct w). rewrite E. apply HQ; [|by apply Hz].
    by apply quieter_refl.
Qed.

Lemma quiet_tsx_stop t x (Q : Z -> W -> Prop) w :
  ts_ok (sw_timers w) -> sw_tsx w !! t = Some x -> has_entry w (ct_retransmit_timer t) -> has_entry w (ct_destroy_timer t) ->
  (forall tw, quieter (sw_timers w) tw -> ts_armed tw !! ct_retransmit_timer t = None ->
     ts_armed tw !! ct_destroy_timer t = None -> Q PJ_SUCCESS (put_timers tw w)) ->
  wp (pj_stun_client_tsx_stop t) Q w.
Proof.
  intros HI Hx H1 H2 HQ. unfold pj_stun_client_tsx_stop.
  wbind. eapply wp_get_ct; [done|]. wbind. apply quiet_cancel; [done|done|]. intros tw Hq Hn.
  wbind. apply quiet_cancel; [by apply Hq|by apply Hq|]. intros tw' Hq' Hn'. apply wp_ret, HQ.
  - by eapply quieter_trans.
  - by eapply quieter_idle.
  - done.
Qed.

(** The fields that a step on timers, and on the marks of one message, leaves. *)
Lemma ok_destroy_tdata d force y s (Q : unit -> W -> Prop) w :
  sess_inv w -> se_tdata (sw_ext w) !! d = Some y -> se_sess (sw_ext w) = Some s ->
  (forall w', sess_inv w' -> keeps (Some d) w w' ->
     (force = true -> se_sess (sw_ext w') = Some (erased d s) /\ quieter (sw_timers w) (sw_timers w')) ->
     (force = false -> is_Some (td_client_tsx y) -> keeps None w w') -> Q tt w') ->
  wp (destroy_tdata d force) Q w.
Proof.
  intros HI Hy Hs HQ. pose proof (do_alive _ _ _ (si_td _ HI d y Hy)) as Ha.
  unfold destroy_tdata. wbind. eapply st_get_td; [done|]. rewrite Ha. wbind. eapply st_upd_td; [done|].
  set (y1 := y <| td_is_destroying := true |>). set (w1 := put_td d y1 w).
  (* after the timer of the cache is stopped *)
  assert (G : forall tw, quieter (sw_timers w) tw -> ts_armed tw !! res_timer d = None ->
    wp (if force then list_erase d;;
          match td_client_tsx y with
          | Some t => pj_stun_client_tsx_stop t;; pj_stun_client_tsx_set_data t None;; mret tt
          | None => mret tt end;;
          tdata_on_destroy d
        else
          match td_client_tsx y with
          | Some t => pj_stun_client_tsx_schedule_destroy t (mk_time_val 0 300);;
              upd_td d (fun x => x <| td_is_destroying := false |>)
          | None => list_erase d;; tdata_on_destroy d end) Q (put_timers tw w1)).
  { intros tw Hq Hn. destruct (td_client_tsx y) as [t|] eqn:Et.
    - destruct (td_tsx w d y t HI Hy Et) as (x & Hx & Hxd). destruct (tsx_entries w t x HI Hx) as [E1 E2].
      destruct force.
      + wbind. eapply ok_list_erase; [done|]. wbind. wbind.
        eapply quiet_tsx_stop; [apply Hq|done|by apply Hq|by apply Hq|]. intros tw' Hq' N1 N2.
        wbind. unfold pj_stun_client_tsx_set_data. wbind. eapply wp_upd_ct; [done|]. apply wp_ret. apply wp_ret.
        eapply (ok_release d y y1 s _ _ w HI Hy Hs); try done.
        * rewrite Et. cbn. by rewrite delete_insert_eq.
        * by eapply quieter_trans.
        * by eapply quieter_idle.
        * intros t' Ht'. rewrite Et in Ht'. injection Ht' as <-. done.
        * intros w' H' K' Es Hq2. by apply HQ.
      + wbind. unfold pj_stun_client_tsx_schedule_destroy. wbind. eapply wp_get_ct; [done|].
        wbind. apply quiet_cancel; [apply Hq|by apply Hq|]. intros tw1 Q1 N1.
        wbind. apply quiet_cancel; [apply Q1|by apply Q1, Hq|]. intros tw2 Q2 N2.
        assert (Q02 : quieter (sw_timers w) tw2) by (eapply quieter_trans; [done|]; by eapply quieter_trans).
        wbind. apply quiet_schedule; [apply Q2|by apply Q02|exact (quieter_idle _ _ _ Q2 N1)|]. intros tw3 Hok Ha3 Hi3.
        cbn [Z.eqb PJ_SUCCESS negb]. wbind. eapply wp_upd_ct; [done|]. apply wp_ret.
        eapply st_upd_td; [apply lookup_insert_eq|].
        set (x' := x <| ct_on_complete := false |>). set (y2 := y1 <| td_is_destroying := false |>).
        assert (I1 : sess_inv (put_timers tw2 w)) by (by apply inv_quieter).
        assert (I2 : sess_inv (put_timers tw3 (put_timers tw2 w))).
        { eapply (inv_schedule (put_timers tw2 w) tw3 (ct_destroy_timer t) _ TIMER_ACTIVE); try done; [|by apply Q02].
          left. exists t. split; [by eexists|by right]. }
        assert (I3 : sess_inv (put_ct t x' (put_timers tw3 w))) by (by apply (inv_put_ct t x)).
        assert (I4 : sess_inv (put_td d y2 (put_ct t x' (put_timers tw3 w))))
          by (apply (inv_put_td d y); [done|done|split_and!; [done|done|by rewrite Ha]]).
        set (w' := put_td _ _ _).
        assert (Ew : se_tdata (sw_ext w') = <[d := y2]> (se_tdata (sw_ext w)))
          by (unfold w', w1; cbn; by rewrite insert_insert_eq).
        assert (K : keeps None w w').
        { eapply keeps_trans; [by eapply (keeps_put_ct None t x x')|].
          eapply keeps_trans; [by eapply (keeps_put_td None d y y2)|]. by apply keeps_same. }
        apply HQ; [|by apply keeps_weaken|done|done].
        eapply inv_same; [exact I4|done|exact Ew|done..].
    - assert (R : wp (list_erase d;; tdata_on_destroy d) Q (put_timers tw w1)).
      { wbind. eapply ok_list_erase; [done|]. eapply (ok_release d y y1 s _ _ w HI Hy Hs); try done.
        - intros t' Ht'. congruence.
        - intros w' H' K' Es Hq2. apply HQ; [done|done|done|]. intros _ [? ?]. congruence. }
      destruct force; [|done]. exact R. }
  pose proof (do_entry _ _ _ (si_td _ HI d y Hy)) as He.
  apply wp_assoc. wbind. apply (quiet_stop_res d); [apply HI|exact He|..].
  - intros Hz. by eapply (inactive_idle w).
  - exact G.
Qed.

(** ** Timers *)

Section Events.
Context (Hc : calm).

(** The end of a completed request: the user is told, the message destroyed. *)
Lemma ok_notify b t d status response (notify : bool) y (Q : unit -> W -> Prop) w :
  sess_inv w -> is_Some (se_sess (sw_ext w)) -> se_tdata (sw_ext w) !! d = Some y -> td_client_tsx y = Some t ->
  (forall w', sess_inv w' -> is_Some (se_sess (sw_ext w')) ->
     (status <> PJNATH_ESTUNTIMEDOUT -> keeps None w w') -> Q tt w') ->
  wpx b (match cb_on_request_complete with
         | Some cb => when notify (x ← get_td d; emit (OutComplete status (td_token x) d response);;
                                   modify (cb status (td_token x) d response))
         | None => mret tt end;;
         destroy_tdata d (status =? PJNATH_ESTUNTIMEDOUT)) Q w.
Proof.
  intros HI Hs Hy Ht HQ. apply wpx_wp.
  assert (G : forall w1, sess_inv w1 -> keeps None w w1 -> wp (destroy_tdata d (status =? PJNATH_ESTUNTIMEDOUT)) Q w1).
  { intros w1 H1 K1. destruct (kp_td _ _ _ K1 d y) as (y1 & Hy1 & Ht1); [done|done|].
    destruct (kp_sess _ _ _ K1 Hs) as [s1 Hs1]. specialize (Ht1 t Ht).
    eapply ok_destroy_tdata; [done|done|done|]. intros w2 H2 K2 _ K2'. apply HQ; [done|apply (kp_sess _ _ _ K2); by eexists|].
    intros Hne. apply Z.eqb_neq in Hne. eapply keeps_trans; [done|]. apply K2'; [done|]. rewrite Ht1. by eexists. }
  wbind. destruct cb_on_request_complete as [cb|] eqn:Ec; [|by apply wp_ret, G, keeps_refl].
  apply wp_when; [intros _|intros _; by apply G, keeps_refl]. wbind. eapply st_get_td; [done|].
  wbind. apply ok_emit; [done|]. intros w1 H1 K1 _ _ _. apply wp_modify.
  destruct (cm_complete Hc cb status (td_token y) d response w1 H1 Ec) as [H2 K2].
  apply G; [done|by eapply keeps_trans].
Qed.

(** The completion of a request without a response. *)
Lemma ok_complete_none b t x status (Q : unit -> W -> Prop) w :
  sess_inv w -> is_Some (se_sess (sw_ext w)) -> sw_tsx w !! t = Some x ->
  (forall w', sess_inv w' -> is_Some (se_sess (sw_ext w')) ->
     (status <> PJNATH_ESTUNTIMEDOUT -> keeps None w w') -> Q tt w') ->
  wpx b (stun_tsx_on_complete t status None) Q w.
Proof.
  intros HI [s Hs] Hx HQ. destruct (tsx_data w t x HI Hx) as (d & y & Hd & Hy & Ht).
  unfold stun_tsx_on_complete, pj_stun_client_tsx_get_data.
  xbind. xbind. apply wpx_wp. eapply wp_get_ct; [done|]. apply wpx_ret. xbind. apply wpx_wp.
  eapply wp_from_option; [done|]. xbind. apply wpx_wp. eapply st_get_td; [done|].
  xbind. apply wpx_wp. eapply wp_get_sess; [done|]. destruct (ss_is_destroying s).
  - apply wpx_wp. eapply ok_destroy_tdata; [done|done|done|]. intros w' H' K' _ K2.
    apply HQ; [done|apply (kp_sess _ _ _ K'); by eexists|]. intros _. apply K2; [done|]. rewrite Ht. by eexists.
  - xbind. apply wpx_ret. eapply (ok_notify b t d status None true y); [done|by eexists|done..].
Qed.

Lemma ok_complete_once b t x status response (Q : unit -> W -> Prop) w :
  sess_inv w -> is_Some (se_sess (sw_ext w)) -> sw_tsx w !! t = Some x ->
  (forall w1 x1, sess_inv w1 -> keeps None w w1 -> sw_tsx w1 !! t = Some x1 ->
     wpx b (stun_tsx_on_complete t status response) (fun _ w' => sess_inv w' /\ is_Some (se_sess (sw_ext w')) /\
       (status <> PJNATH_ESTUNTIMEDOUT -> keeps None w1 w')) w1) ->
  (forall w', sess_inv w' -> is_Some (se_sess (sw_ext w')) ->
     (status <> PJNATH_ESTUNTIMEDOUT -> keeps None w w') -> Q tt w') ->
  wpx b (complete_once stun_tsx_on_complete t status response) Q w.
Proof.
  intros HI Hs Hx HP HQ. unfold complete_once. xbind. apply wpx_wp. eapply wp_get_ct; [done|].
  apply wpx_when; [intros _|intros _; apply HQ; [done|done|intros _; apply keeps_refl]].
  xbind. apply wpx_wp. eapply ok_upd_ct; [done|done|done|]. intros H1 K1.
  apply wpx_when; [intros _|intros _; by apply HQ].
  eapply wpx_mono; [|eapply HP; [done|done|apply lookup_insert_eq]]. intros [] w' (H' & Hs' & K').
  apply HQ; [done|done|]. intros Hne. eapply keeps_trans; [done|auto].
Qed.

Lemma ok_retransmit_timer t x (Q : unit -> W -> Prop) w :
  sess_inv w -> is_Some (se_sess (sw_ext w)) -> sw_tsx w !! t = Some x ->
  ts_armed (sw_timers w) !! ct_retransmit_timer t = None ->
  (forall w', sess_inv w' -> is_Some (se_sess (sw_ext w')) -> Q tt w') -> wp (on_retransmit_timer t) Q w.
Proof.
  intros HI Hs Hx Hn HQ. destruct (tsx_entries w t x HI Hx) as [He _].
  unfold on_retransmit_timer, retransmit_timer_callback. wbind. eapply wp_get_ct; [done|].
  destruct (_ <=? _).
  - wbind. apply ok_set_id; [done|done|done|]. intros tw _ H1 _ _. apply wp_wpx.
    eapply ok_complete_once; [done|done|done| |].
    + intros w1 x1 H K Hx1. eapply ok_complete_none; [done|by apply (kp_sess _ _ _ K)|done|]. auto.
    + intros w' H' Hs' _. by apply HQ.
  - wbind. apply ok_set_id; [done|done|done|]. intros tw Hq H1 K1 Hz. wbind.
    eapply ok_transmit; [done|done|done|done|]. intros r w2 H2 K2 Hr Hi.
    assert (K : keeps None w w2) by (by eapply keeps_trans).
    pose proof (kp_sess _ _ _ K Hs) as Hs2. destruct (kp_tsx _ _ _ K t x) as (x2 & Hx2 & _);
      [destruct (tsx_data w t x HI Hx) as (d & y & -> & _); done|done|].
    assert (G : forall w3, sess_inv w3 -> is_Some (se_sess (sw_ext w3)) -> keeps None w2 w3 ->
      wp (get_ct t;; mret tt) Q w3).
    { intros w3 H3 Hs3 K3. destruct (kp_tsx _ _ _ K3 t x2) as (x3 & Hx3 & _);
        [destruct (tsx_data w2 t x2 H2 Hx2) as (d & y & -> & _); done|done|].
      wbind. eapply wp_get_ct; [done|]. by apply wp_ret, HQ. }
    wbind. apply wp_when; [intros Hb|intros _; apply G; [done|done|apply keeps_refl]].
    wbind. eapply wp_get_ct; [done|]. wbind. destruct (tsx_entries w2 t x2 H2 Hx2) as [He2 _].
    apply ok_set_id; [done|done| |].
    { apply Hi; [done|done|]. intros ->. done. }
    intros tw' Hq' H3 K3 _. apply wp_wpx. eapply ok_complete_once; [done|done|done| |].
    + intros w4 x4 H4 K4 Hx4. eapply ok_complete_none; [done|by apply (kp_sess _ _ _ K4)|done|]. auto.
    + intros w4 H4 Hs4 K4. apply G; [done|done|]. eapply keeps_trans; [done|]. by apply K4.
Qed.

Lemma ok_destroy_timer t x (Q : unit -> W -> Prop) w :
  sess_inv w -> is_Some (se_sess (sw_ext w)) -> sw_tsx w !! t = Some x ->
  ts_armed (sw_timers w) !! ct_destroy_timer t = None ->
  (forall w', sess_inv w' -> is_Some (se_sess (sw_ext w')) -> Q tt w') -> wp (on_destroy_timer t) Q w.
Proof.
  intros HI Hs Hx Hn HQ. destruct (tsx_entries w t x HI Hx) as [He1 He2].
  unfold on_destroy_timer, destroy_timer_callback. wbind. eapply wp_get_ct; [done|]. wbind.
  apply ok_set_id; [done|done|done|]. intros tw Hq H1 K1 _. destruct (tsx_data _ t x H1 Hx) as (d & y & Hd & Hy & Ht).
  unfold stun_tsx_on_destroy, pj_stun_client_tsx_get_data. wbind. wbind. eapply wp_get_ct; [done|]. apply wp_ret.
  wbind. eapply quiet_tsx_stop; [apply H1|done|by apply Hq|by apply Hq|]. intros tw' Hq' _ _.
  assert (H2 : sess_inv (put_timers tw' (put_timers tw w))) by (by apply inv_quieter).
  rewrite Hd. wbind. wbind. destruct Hs as [s Hs]. unfold tsx_erase. eapply ok_list_erase; [done|].
  destruct (si_lists _ H2 s Hs) as [A1 A2 A3 A4].
  assert (H3 : sess_inv (put_sess (erased d s) (put_timers tw' (put_timers tw w)))).
  { apply inv_put_sess; [done|]. split; cbn; [by apply NoDup_filter|by apply NoDup_filter|..].
    - intros d0 [_ H]%list_elem_of_filter. auto.
    - intros d0 [_ H]%list_elem_of_filter. auto. }
  eapply ok_destroy_tdata; [done|done|done|]. intros w4 H4 K4 _ _. unfold pj_stun_client_tsx_destroy.
  wbind. apply wp_ret. apply wp_ret, HQ; [done|]. apply (kp_sess _ _ _ K4). by eexists.
Qed.

Lemma ok_cache_timer d y (Q : unit -> W -> Prop) w :
  sess_inv w -> is_Some (se_sess (sw_ext w)) -> se_tdata (sw_ext w) !! d = Some y ->
  ts_armed (sw_timers w) !! res_timer d = None ->
  (forall w', sess_inv w' -> is_Some (se_sess (sw_ext w')) -> Q tt w') -> wp (on_cache_timeout d) Q w.
Proof.
  intros HI [s Hs] Hy Hn HQ. pose proof (do_entry _ _ _ (si_td _ HI d y Hy)) as He. unfold on_cache_timeout.
  wbind. apply ok_set_id; [done|done|done|]. intros tw _ H1 _ _. wbind. eapply st_get_td; [done|].
  wbind. eapply wp_get_sess; [done|]. destruct (_ || _)%bool; [apply wp_ret, HQ; [done|by eexists]|].
  eapply ok_destroy_tdata; [done|done|done|]. intros w2 H2 K2 _ _. apply HQ; [done|]. apply (kp_sess _ _ _ K2). by eexists.
Qed.

(** ** Operations that encode nothing *)

Lemma ok_retransmit_req d y t mod_count (Q : Z -> W -> Prop) w :
  sess_inv w -> is_Some (se_sess (sw_ext w)) -> se_tdata (sw_ext w) !! d = Some y -> td_client_tsx y = Some t ->
  (forall r w', sess_inv w' -> keeps None w w' -> Q r w') -> wp (pj_stun_session_retransmit_req d mod_count) Q w.
Proof.
  intros HI Hs Hy Ht HQ. destruct (td_tsx w d y t HI Hy Ht) as (x & Hx & _). destruct (tsx_entries w t x HI Hx) as [He1 He2].
  unfold pj_stun_session_retransmit_req, is_request. wbind. wbind. eapply st_get_td; [done|]. apply wp_ret.
  destruct (negb _); [apply wp_ret, HQ; [done|apply keeps_refl]|].
  destruct Hs as [s Hs]. eapply wp_alive; [done|intros _; apply HQ; [done|apply keeps_refl]|intros _].
  wbind. eapply st_get_td; [done|]. wbind. eapply wp_from_option; [done|]. unfold pj_stun_client_tsx_retransmit.
  wbind. eapply wp_get_ct; [done|]. wbind. apply ok_entry_id; [done|]. intros i Hi.
  destruct (negb _); [apply wp_ret, HQ; [done|apply keeps_refl]|].
  assert (G : forall w1, sess_inv w1 -> keeps None w w1 -> sw_tsx w1 !! t = Some x ->
    wp (tsx_transmit_msg stun_tsx_on_send_msg t mod_count) Q w1).
  { intros w1 H1 K1 Hx1. eapply ok_transmit; [done|done|done|apply (kp_sess _ _ _ K1); by eexists|].
    intros r w2 H2 K2 _ _. apply HQ; [done|by eapply keeps_trans]. }
  wbind. apply wp_when; [intros _|intros _; apply G; [done|apply keeps_refl|done]].
  apply ok_cancel; [done|done|]. intros tw H1 K1. by apply G.
Qed.

Lemma ok_cancel_req d y notify status (Q : Z -> W -> Prop) w :
  sess_inv w -> is_Some (se_sess (sw_ext w)) -> se_tdata (sw_ext w) !! d = Some y ->
  (notify = true -> is_Some cb_on_request_complete) ->
  (forall r w', sess_inv w' -> is_Some (se_sess (sw_ext w')) -> Q r w') ->
  wp (pj_stun_session_cancel_req d notify status) Q w.
Proof.
  intros HI Hs Hy Hcb HQ. unfold pj_stun_session_cancel_req, is_request.
  destruct (_ && _)%bool; [by apply wp_ret, HQ|]. wbind. wbind. eapply st_get_td; [done|]. apply wp_ret.
  destruct (negb _); [by apply wp_ret, HQ|]. pose proof Hs as [s Es].
  eapply wp_alive; [done|by auto|intros _].
  assert (G : forall w1, sess_inv w1 -> keeps None w w1 -> wp (pj_stun_msg_destroy_tdata d;; mret PJ_SUCCESS) Q w1).
  { intros w1 H1 K1. destruct (kp_td _ _ _ K1 d y) as (y1 & Hy1 & _); [done|done|].
    destruct (kp_sess _ _ _ K1 Hs) as [s1 Hs1]. wbind. eapply ok_destroy_tdata; [done|done|done|].
    intros w2 H2 K2 _ _. apply wp_ret, HQ; [done|]. apply (kp_sess _ _ _ K2). by eexists. }
  wbind. apply wp_when; [intros Hn|intros _; by apply G, keeps_refl]. destruct (Hcb Hn) as [cb Ec].
  wbind. eapply st_get_td; [done|]. wbind. apply ok_emit; [done|]. intros w1 H1 K1 _ _ _. rewrite Ec.
  apply wp_modify. destruct (cm_complete Hc cb status (td_token y) d None w1 H1 Ec) as [H2 K2].
  apply G; [done|by eapply keeps_trans].
Qed.

Lemma ok_stop_all l (Q : unit -> W -> Prop) : forall w,
  sess_inv w -> (forall d, d ∈ l -> exists y t, se_tdata (sw_ext w) !! d = Some y /\ td_client_tsx y = Some t) ->
  (forall tw, quieter (sw_timers w) tw -> Q tt (put_timers tw w)) -> wp (stop_all l) Q w.
Proof.
  induction l as [|d l IH]; intros w HI Hl HQ.
  - apply wp_ret. assert (E : w = put_timers (sw_timers w) w) by (by destruct w). rewrite E. apply HQ.
    apply quieter_refl, HI.
  - destruct (Hl d) as (y & t & Hy & Ht); [left|]. destruct (td_tsx w d y t HI Hy Ht) as (x & Hx & _).
    destruct (tsx_entries w t x HI Hx) as [He1 He2]. cbn [stop_all]. wbind. unfold stop_pending.
    wbind. eapply st_get_td; [done|]. rewrite Ht. wbind. eapply quiet_tsx_stop; [apply HI|done|done|done|].
    intros tw Hq _ _. apply wp_ret. apply IH; [by apply inv_quieter|intros d0 H0; apply Hl; by right|].
    intros tw' Hq'. apply (HQ tw'). by eapply quieter_trans.
Qed.

(** [list_of] is one of the lists of the session. *)
Lemma ok_destroy_all (list_of : pj_stun_session -> list nat) fuel (Q : unit -> W -> Prop) : forall w s,
  (forall d s, list_of (erased d s) = filter (fun x => x <> d) (list_of s)) ->
  (forall w s d, sess_inv w -> se_sess (sw_ext w) = Some s -> d ∈ list_of s -> is_Some (se_tdata (sw_ext w) !! d)) ->
  sess_inv w -> se_sess (sw_ext w) = Some s -> (length (list_of s) < fuel)%nat ->
  (forall w' s', sess_inv w' -> se_sess (sw_ext w') = Some s' -> list_of s' = [] ->
     quieter (sw_timers w) (sw_timers w') -> Q tt w') ->
  wp (destroy_all fuel list_of) Q w.
Proof.
  induction fuel as [|fuel IH]; intros w s He Hd HI Hs Hf HQ; [lia|]. cbn [destroy_all].
  wbind. eapply wp_get_sess; [done|]. destruct (list_of s) as [|d l] eqn:El; [eapply HQ; [done..|apply quieter_refl, HI]|].
  destruct (Hd w s d HI Hs) as [y Hy]; [rewrite El; left|]. wbind. eapply ok_destroy_tdata; [done|done|done|].
  intros w' H' _ Hs' _. destruct (Hs' eq_refl) as [Es' Hq]. apply (IH w' (erased d s)); [done|done|done|done| |].
  - rewrite He, El, filter_cons, decide_False by auto. cbn in Hf.
    pose proof (length_filter (fun x => x <> d) l). lia.
  - intros w2 s2 H2 Es2 El2 Hq2. eapply HQ; [done|done|done|]. by eapply quieter_trans.
Qed.

Lemma ok_session_destroy (Q : Z -> W -> Prop) w :
  sess_inv w -> is_Some (se_sess (sw_ext w)) ->
  (forall r w', sess_inv w' -> is_Some (se_sess (sw_ext w')) -> Q r w') -> wp pj_stun_session_destroy Q w.
Proof.
  intros HI Hs HQ. pose proof Hs as [s Es]. unfold pj_stun_session_destroy. eapply wp_alive; [done|by auto|intros _].
  wbind. eapply ok_upd_sess; [done|done|done|done|]. intros H1 _. set (s1 := s <| ss_is_destroying := true |>) in *.
  wbind. eapply wp_get_sess; [done|]. wbind. destruct (si_lists _ H1 s1 eq_refl) as [_ _ A3 _].
  apply ok_stop_all; [done|exact A3|]. intros tw Hq. wbind.
  eapply (ok_destroy_all ss_cached_response_list); [done| |by apply inv_quieter|done|cbn; lia|].
  - intros w' s' d H' Hs' Hin. destruct (lo_response _ _ (si_lists _ H' s' Hs') d Hin) as (y & -> & _). by eexists.
  - intros w' s' H' Hs' _ _. apply wp_ret, HQ; [done|by eexists].
Qed.

(** The last reference is released when no timer holds one. *)
Lemma ok_on_destroy (Q : unit -> W -> Prop) w :
  sess_inv w -> is_Some (se_sess (sw_ext w)) -> (forall e, ~ armed w e) ->
  (forall w', sess_inv w' -> (forall e, ~ armed w' e) -> Q tt w') -> wp stun_sess_on_destroy Q w.
Proof.
  intros HI [s Es] Hn HQ. unfold stun_sess_on_destroy. wbind. eapply wp_get_sess; [done|]. wbind.
  eapply (ok_destroy_all ss_pending_request_list); [done| |done|done|lia|].
  - intros w' s' d H' Hs' Hin. destruct (lo_request _ _ (si_lists _ H' s' Hs') d Hin) as (y & t & -> & _). by eexists.
  - intros w' s' H' Hs' _ Hq. apply wp_modify, HQ.
    + destruct H' as [B1 B2 B3 B4 B5 B6 B7]. split; try done.
      * intros t x Hx. destruct (B3 t x Hx) as [C1 C2 C3 C4 C5]. by split.
      * intros d y Hy. destruct (B4 d y Hy) as [C1 C2 C3 C4]. by split.
    + intros e He. apply (Hn e). by apply (qt_armed _ _ Hq).
Qed.
End Events.
End Safe.

(** * STUN sessions: preservation by the other operations

    The operations that encode messages keep the invariant as well.  They are
    undefined where the encoder is; this is shown for the runs that are
    defined. *)

#[local] Arguments ct_retransmit_timer : simpl never.
#[local] Arguments ct_destroy_timer : simpl never.
#[local] Arguments res_timer : simpl never.

Section Ops.
Context {TW : Type} `{TS : !TimerService TW} {EN : StunEnv TW} (Hc : calm).

#[local] Abbreviation W := (stun_world TW stun_ext).

(** ** Creation of messages *)

Lemma new_fresh w : sess_inv w -> se_tdata (sw_ext w) !! se_next (sw_ext w) = None.
Proof.
  intros HI. destruct (se_tdata (sw_ext w) !! _) eqn:E; [|done]. pose proof (do_number _ _ _ (si_td _ HI _ _ E)). lia.
Qed.

Lemma ok_create_tdata msg (Q : nat -> W -> Prop) w :
  sess_inv w ->
  (forall d y w', se_tdata (sw_ext w) !! d = None -> sess_inv w' -> keeps None w w' -> unsent w' d y -> Q d w') ->
  wp (create_tdata msg) Q w.
Proof.
  intros HI HQ. unfold create_tdata. wbind. unfold alloc, wp at 1. wbind. apply wp_modify. wbind. apply wp_modify.
  apply wp_ret. set (d := se_next (sw_ext w)). set (y := mk_tx_data _ _ _ _ _ _ _ _ _ _ _). set (w' := set_field _ _ _).
  pose proof (new_fresh w HI) as Hf. fold d in Hf.
  destruct (ts_new_ok (sw_timers w) (res_timer d) (si_timers _ HI)) as (K1 & A1 & I1);
    [apply (si_fresh _ HI); unfold res_timer, d; lia|].
  apply (HQ d y w'); [done| | |].
  - apply (inv_new_td w w' d y); try done.
    + split; cbn; [done|done|..]; intros e He; rewrite I1, lookup_insert_ne; unfold res_timer; try lia; [done|].
      apply (si_fresh _ HI). lia.
    + unfold has_entry. cbn. rewrite I1, lookup_insert_eq. by eexists.
  - split; [| |done|]; cbn.
    + intros d0 y0 _ H0. exists y0. rewrite lookup_insert_ne; [done|]. intros ->. congruence.
    + eauto.
    + eauto.
  - split_and!; cbn; [apply lookup_insert_eq|done|done|]. by rewrite I1, lookup_insert_eq.
Qed.

Lemma unsent_put w d y y' : unsent w d y -> td_client_tsx y' = None -> td_has_lock y' = false ->
  unsent (put_td d y' w) d y'.
Proof. intros (H1 & H2 & H3 & H4) E1 E2. split_and!; [apply lookup_insert_eq|done|done|exact H4]. Qed.

(** Changes of an unsent message. *)
Lemma ok_upd_unsent d f y (Q : unit -> W -> Prop) w :
  sess_inv w -> unsent w d y -> same_links y (f y) -> td_has_lock (f y) = td_has_lock y ->
  (forall w', sess_inv w' -> keeps None w w' -> unsent w' d (f y) -> Q tt w') -> wp (upd_td d f) Q w.
Proof.
  intros HI Hu Hl Hk HQ. pose proof Hu as (Hy & H1 & H2 & _). eapply ok_upd_td; [done|done|done|].
  intros H' K'. apply HQ; [done|done|]. destruct Hl as (L1 & _). eapply unsent_put; [done|congruence..].
Qed.

Lemma ok_release_unsent d y (Q : unit -> W -> Prop) w :
  sess_inv w -> is_Some (se_sess (sw_ext w)) -> unsent w d y ->
  (forall w', sess_inv w' -> keeps (Some d) w w' -> Q tt w') -> wp (pool_release d) Q w.
Proof.
  intros HI [s Hs] Hu HQ. destruct (unsent_lists w d y s HI Hs Hu) as (_ & _ & Es).
  pose proof (unsent_idle w d y HI Hu) as Hi. destruct Hu as (Hy & H1 & H2 & H3).
  eapply (ok_release d y y s _ w w); try done.
  - by rewrite insert_id.
  - by rewrite Es.
  - apply quieter_refl, HI.
  - congruence.
  - auto.
Qed.

(** What is made for the user. *)
Definition made (w : W) (r : Z * option nat) (w' : W) : Prop :=
  sess_inv w' /\ keeps None w w' /\
  forall d, r.2 = Some d -> se_tdata (sw_ext w) !! d = None /\ exists y, unsent w' d y.

Lemma reads_get_sess : reads (get_sess (TW := TW)).
Proof. intros w a w'. unfold get_sess. by destruct (se_sess _); intros [= <- <-]. Qed.

Lemma reads_get_td d : reads (get_td (TW := TW) d).
Proof. intros w a w'. unfold get_td. by destruct (se_tdata _ !! _); intros [= <- <-]. Qed.

Lemma get_sess_some w s w' : get_sess (TW := TW) w = Some (s, w') -> se_sess (sw_ext w) = Some s.
Proof. unfold get_sess. by destruct (se_sess _); intros [= <- _]. Qed.

Lemma get_td_some w d y w' : get_td (TW := TW) d w = Some (y, w') -> se_tdata (sw_ext w) !! d = Some y.
Proof. unfold get_td. by destruct (se_tdata _ !! _); intros [= <- _]. Qed.

Lemma part_sess {B} (f : pj_stun_session -> M W B) (Q : B -> W -> Prop) w :
  (forall s, se_sess (sw_ext w) = Some s -> wpx false (f s) Q w) -> wpx false (s ← get_sess; f s) Q w.
Proof. intros H. xbind. apply wpx_reads; [apply reads_get_sess|]. intros s Hs%get_sess_some. auto. Qed.

Lemma part_td {B} d (f : pj_stun_tx_data -> M W B) (Q : B -> W -> Prop) w :
  (forall y, se_tdata (sw_ext w) !! d = Some y -> wpx false (f y) Q w) -> wpx false (y ← get_td d; f y) Q w.
Proof. intros H. xbind. apply wpx_reads; [apply reads_get_td|]. intros y Hy%get_td_some. auto. Qed.

Lemma part_option {A B} (o : option A) (f : A -> M W B) (Q : B -> W -> Prop) w :
  (forall a, o = Some a -> wpx false (f a) Q w) -> wpx false (a ← from_option o; f a) Q w.
Proof.
  intros H. xbind. apply wpx_reads; [apply reads_from_option|]. intros a Ha. apply H. unfold from_option in Ha.
  destruct o; [|done]. by injection Ha as ->.
Qed.

Lemma part_alive m (Q : Z -> W -> Prop) w :
  Q PJ_EINVALIDOP w -> (forall s, se_sess (sw_ext w) = Some s -> wpx false m Q w) -> wpx false (if_alive m) Q w.
Proof. intros H1 H2. apply part_sess. intros s Hs. destruct (ss_is_destroying s); [by apply wpx_ret|eauto]. Qed.

Lemma ok_create_req method magic tsx_id w :
  sess_inv w -> wpx false (pj_stun_session_create_req method magic tsx_id) (made w) w.
Proof.
  intros HI. apply part_sess. intros s Hs.
  destruct (ss_is_destroying s); [apply wpx_ret; by split_and!; [|apply keeps_refl|]|].
  xbind. apply wpx_ret. destruct (pj_stun_msg_create _ _ _) as [status|msg];
    [apply wpx_ret; by split_and!; [|apply keeps_refl|]|].
  xbind. apply wpx_wp. apply ok_create_tdata; [done|]. intros d y w1 Hd H1 K1 U1.
  xbind. apply wpx_wp. eapply ok_upd_unsent; [done|done|done|done|]. intros w2 H2 K2 U2.
  apply part_option. intros [status info] _. xbind. apply wpx_wp. eapply ok_upd_unsent; [done|done|done|done|].
  intros w3 H3 K3 U3. assert (K : keeps None w w3) by (eapply keeps_trans; [done|]; by eapply keeps_trans).
  destruct (negb _).
  - xbind. apply wpx_wp. eapply ok_release_unsent; [done|apply (kp_sess _ _ _ K); by eexists|done|].
    intros w4 H4 K4. apply wpx_ret. split_and!; [done|by eapply keeps_new|done].
  - apply wpx_ret. split_and!; [done|done|]. intros d0 [= <-]. eauto.
Qed.

Lemma ok_create_ind msg_type w : sess_inv w -> wpx false (pj_stun_session_create_ind msg_type) (made w) w.
Proof.
  intros HI. apply part_sess. intros s Hs.
  destruct (ss_is_destroying s); [apply wpx_ret; by split_and!; [|apply keeps_refl|]|].
  xbind. apply wpx_ret. destruct (pj_stun_msg_create _ _ _) as [status|msg];
    [apply wpx_ret; by split_and!; [|apply keeps_refl|]|].
  xbind. apply wpx_wp. apply ok_create_tdata; [done|]. intros d y w1 Hd H1 K1 U1.
  apply wpx_ret. split_and!; [done|done|]. intros d0 [= <-]. eauto.
Qed.

Lemma ok_create_res rdata code text w : sess_inv w -> wpx false (pj_stun_session_create_res rdata code text) (made w) w.
Proof.
  intros HI. apply part_sess. intros s Hs.
  destruct (ss_is_destroying s); [apply wpx_ret; by split_and!; [|apply keeps_refl|]|].
  apply part_option. intros [status|msg] _; [apply wpx_ret; by split_and!; [|apply keeps_refl|]|].
  xbind. apply wpx_wp. apply ok_create_tdata; [done|]. intros d y w1 Hd H1 K1 U1.
  xbind. apply wpx_wp. eapply ok_upd_unsent; [done|done|done|done|]. intros w2 H2 K2 U2.
  apply wpx_ret. split_and!; [done|by eapply keeps_trans|]. intros d0 [= <-]. eauto.
Qed.

(** ** Sending *)

(** After sending [d]: other messages are kept. *)
Definition sent_msg (d : nat) (w : W) (r : Z) (w' : W) : Prop := sess_inv w' /\ keeps (Some d) w w'.

Lemma ok_give_up d y (Q : unit -> W -> Prop) w :
  sess_inv w -> is_Some (se_sess (sw_ext w)) -> se_tdata (sw_ext w) !! d = Some y ->
  (forall w', sess_inv w' -> keeps (Some d) w w' -> Q tt w') -> wp (pj_stun_msg_destroy_tdata d) Q w.
Proof. intros HI [s Hs] Hy HQ. eapply ok_destroy_tdata; [done|done|done|]. auto. Qed.

Lemma ok_tsx_add d y t s (Q : unit -> W -> Prop) w :
  sess_inv w -> se_sess (sw_ext w) = Some s -> se_tdata (sw_ext w) !! d = Some y -> td_client_tsx y = Some t ->
  d ∉ ss_pending_request_list s ->
  (forall w', sess_inv w' -> keeps (Some d) w w' -> Q tt w') -> wp (tsx_add d) Q w.
Proof.
  intros HI Hs Hy Ht Hn HQ. unfold tsx_add. eapply wp_upd_sess; [done|]. set (s' := s <| ss_pending_request_list := _ |>).
  destruct (si_lists _ HI s Hs) as [A1 A2 A3 A4]. apply HQ.
  - apply inv_put_sess; [done|]. split; cbn; [by apply NoDup_cons|done| |done].
    intros d0 [->|H]%elem_of_cons; [eauto|auto].
  - split; [intros d0 y0 _ H0; by exists y0|eauto|by eexists|]. intros d0 y0 t0 s0 Hne H0 Ht0 [= <-] Hin.
    exists s. split; [done|]. cbn in Hin. apply elem_of_cons in Hin as [->|?]; [congruence|done].
Qed.

Lemma ok_send_request retransmit server d y w :
  sess_inv w -> is_Some (se_sess (sw_ext w)) -> unsent w d y ->
  wp (send_request retransmit server d) (sent_msg d w) w.
Proof.
  intros HI [s Hs] Hu. pose proof Hu as (Hy & Hu1 & Hu2 & Hu3).
  destruct (unsent_lists w d y s HI Hs Hu) as (Hnp & _ & _).
  pose proof (new_fresh w HI) as Hf. unfold send_request. wbind. apply wp_ask. wbind. unfold alloc, wp at 1.
  set (t := se_next (sw_ext w)) in *. assert (Htd : t <> d) by congruence.
  set (w1 := w <| sw_ext := _ |>). unfold pj_stun_client_tsx_create. wbind. apply wp_modify. set (w2 := set_field _ _ _).
  wbind. eapply st_upd_td; [exact Hy|]. unfold pj_stun_client_tsx_set_data. wbind. wbind.
  eapply wp_upd_ct; [apply lookup_insert_eq|]. apply wp_ret. wbind. eapply st_upd_td; [apply lookup_insert_eq|].
  set (x1 := _ <| ct_user_data := Some d |>). set (y1 := _ <| td_dst_addr := server |>). set (w3 := put_td d y1 _).
  destruct (ts_new_ok (sw_timers w) (ct_retransmit_timer t) (si_timers _ HI)) as (K1 & A1 & I1);
    [apply (si_fresh _ HI); unfold ct_retransmit_timer, t; lia|].
  destruct (ts_new_ok (ts_new (sw_timers w) (ct_retransmit_timer t)) (ct_destroy_timer t) K1) as (K2 & A2 & I2).
  { rewrite I1, lookup_insert_ne by (unfold ct_retransmit_timer, ct_destroy_timer; lia).
    apply (si_fresh _ HI). unfold ct_destroy_timer, t. lia. }
  assert (E1 : se_tdata (sw_ext w3) = <[d := y1]> (se_tdata (sw_ext w))) by (cbn; by rewrite insert_insert_eq).
  assert (E2 : sw_tsx w3 = <[t := x1]> (sw_tsx w)) by (cbn; by rewrite insert_insert_eq).
  assert (H3 : sess_inv w3).
  { apply (inv_new_tsx w w3 d t y y1 x1); try done.
    - cbn. apply (do_alive _ _ _ (si_td _ HI _ _ Hy)).
    - split; cbn; [done|congruence|..]; intros e He; rewrite I2, I1;
        rewrite !lookup_insert_ne by (unfold ct_retransmit_timer, ct_destroy_timer; lia); [done|].
      apply (si_fresh _ HI). lia.
    - unfold has_entry. cbn. rewrite I2, I1, lookup_insert_ne, lookup_insert_eq
        by (unfold ct_retransmit_timer, ct_destroy_timer; lia). by eexists.
    - unfold has_entry. cbn. rewrite I2, lookup_insert_eq. by eexists. }
  assert (E3 : se_sess (sw_ext w3) = Some s) by done.
  assert (Hft : sw_tsx w !! t = None).
  { destruct (sw_tsx w !! t) eqn:E; [|done]. pose proof (co_number _ _ _ (si_tsx _ HI _ _ E)). unfold t in *. lia. }
  assert (K3 : keeps (Some d) w w3).
  { split; [| |done|].
    - intros d0 y0 Hne H0. exists y0. rewrite E1, lookup_insert_ne by congruence. done.
    - intros t0 x0 _ H0. exists x0. rewrite E2, lookup_insert_ne; [done|]. congruence.
    - eauto. }
  assert (Hy1 : se_tdata (sw_ext w3) !! d = Some y1) by (rewrite E1; apply lookup_insert_eq).
  clearbody w3. wbind. eapply st_get_td; [done|]. wbind.
  eapply (ok_first_send Hc t x1); [done|rewrite E2; apply lookup_insert_eq|by apply (kp_sess _ _ _ K3); eexists|].
  intros r w4 H4 K4. destruct (kp_td _ _ _ K4 d y1) as (y4 & Hy4 & Ht4); [done|done|]. specialize (Ht4 t eq_refl).
  assert (K : keeps (Some d) w w4) by (eapply keeps_trans; [done|by apply keeps_weaken]).
  destruct (kp_sess _ _ _ K) as [s4 Hs4]; [by eexists|]. destruct (_ && _)%bool.
  - wbind. eapply ok_give_up; [done|by eexists|done|]. intros w5 H5 K5. apply wp_ret.
    split; [done|by eapply keeps_trans].
  - wbind. eapply ok_tsx_add; [done|done|done|done| |].
    + intros Hin. destruct (kp_pending _ _ _ K4 d y1 t s4) as (s3 & Hs3 & Hin3); [done|done|done|done|done|].
      by assert (s3 = s) as -> by congruence.
    + intros w5 H5 K5. apply wp_ret. split; [done|by eapply keeps_trans].
Qed.

Lemma ok_send_direct token cache server d y w :
  sess_inv w -> is_Some (se_sess (sw_ext w)) -> unsent w d y ->
  wp (send_direct token cache server d) (sent_msg d w) w.
Proof.
  intros HI [s Hs] Hu. pose proof Hu as (Hy & Hu1 & Hu2 & Hu3). unfold send_direct. wbind. eapply st_get_td; [done|].
  (* the transmission *)
  assert (G : forall w1 y1, sess_inv w1 -> keeps None w w1 -> se_tdata (sw_ext w1) !! d = Some y1 ->
    wp (status ← call_send_msg token (td_pkt y) server;
        if negb (status =? PJ_SUCCESS) && negb (status =? PJ_EPENDING) then pj_stun_msg_destroy_tdata d;; mret status
        else get_td d;; id ← entry_id (res_timer d); when (id =? 0) (pj_stun_msg_destroy_tdata d);; mret status)
      (sent_msg d w) w1).
  { intros w1 y1 H1 K1 Hy1. wbind. apply (ok_call_send Hc); [done|]. intros r w2 H2 K2 _.
    assert (K : keeps None w w2) by (by eapply keeps_trans).
    destruct (kp_td _ _ _ K d y) as (y2 & Hy2 & _); [done|done|].
    assert (Hs2 : is_Some (se_sess (sw_ext w2))) by (apply (kp_sess _ _ _ K); by eexists).
    assert (F : forall w3, sess_inv w3 -> keeps (Some d) w2 w3 -> sent_msg d w r w3).
    { intros w3 H3 K3. split; [done|]. eapply keeps_trans; [by apply keeps_weaken|done]. }
    destruct (_ && _)%bool.
    - wbind. eapply ok_give_up; [done|done|done|]. intros w3 H3 K3. apply wp_ret. auto.
    - wbind. eapply st_get_td; [done|]. wbind. apply ok_entry_id; [apply (do_entry _ _ _ (si_td _ H2 _ _ Hy2))|]. intros i _.
      wbind. apply wp_when; intros _; [|apply wp_ret, F; [done|apply keeps_refl]].
      eapply ok_give_up; [done|done|done|]. intros w3 H3 K3. apply wp_ret. auto. }
  wbind. destruct (cache && _)%bool; [|by apply wp_ret; eapply G; [|apply keeps_refl|]].
  unfold cache_response. wbind. apply wp_ask. wbind. eapply ok_upd_td; [done|done|by split_and!|]. intros H1 K1.
  pose proof (do_entry _ _ _ (si_td _ HI _ _ Hy)) as He. pose proof (unsent_idle w d y HI Hu) as Hi.
  set (y1 := y <| td_has_lock := true |>) in *.
  wbind. apply ok_set_id; [done|exact He|exact Hi|]. intros tw Hq H2 K2 _.
  wbind. apply ok_schedule; [done| |by apply Hq|by eapply quieter_idle|].
  { right. exists d, y1. split_and!; [apply lookup_insert_eq|done|done|done]. }
  intros tw' H3 K3. cbn [Z.eqb PJ_SUCCESS negb]. wbind. eapply wp_upd_sess; [done|]. apply wp_ret.
  cbn [Z.eqb PJ_SUCCESS negb]. destruct (unsent_lists w d y s HI Hs Hu) as (_ & Hnc & _).
  destruct (si_lists _ H3 s Hs) as [A1 A2 A3 A4]. eapply (G _ y1); [|..|apply lookup_insert_eq].
  - apply inv_put_sess; [done|]. split; cbn; [done| |done|].
    + apply NoDup_app. split_and!; [done| |apply NoDup_singleton]. intros d0 H0 E0%list_elem_of_singleton. congruence.
    + intros d0 [H0|H0%list_elem_of_singleton]%elem_of_app; [by apply A4|]. subst d0.
      exists y1. split_and!; [apply lookup_insert_eq|done|done].
  - eapply keeps_trans; [done|]. eapply keeps_trans; [done|]. eapply keeps_trans; [done|].
    apply keeps_lists; [done|done|by eexists|]. intros s' [= <-]. exists s. done.
Qed.

Lemma ok_send_msg token cache retransmit server d y w :
  sess_inv w -> unsent w d y ->
  wpx false (pj_stun_session_send_msg token cache retransmit server d) (sent_msg d w) w.
Proof.
  intros HI Hu. apply part_alive; [split; [done|apply keeps_refl]|]. intros s Hs. apply part_sess. intros s' Hs'.
  assert (Hss : is_Some (se_sess (sw_ext w))) by (by eexists).
  xbind. apply wpx_wp. eapply ok_upd_unsent; [done|done|done|done|]. intros w1 H1 K1 U1.
  apply part_td. intros y1 Hy1. apply part_option. intros [status msg] _.
  assert (y1 = y <| td_token := token |> <| td_retransmit := retransmit |>) as -> by (destruct U1; congruence).
  xbind. apply wpx_wp. eapply ok_upd_unsent; [done|done|done|done|]. intros w2 H2 K2 U2.
  assert (K02 : keeps None w w2) by (by eapply keeps_trans).
  assert (F : forall r w3 w4, keeps None w w3 -> sent_msg d w3 r w4 -> sent_msg d w r w4).
  { intros r w3 w4 K3 [H4 K4]. split; [done|]. eapply keeps_trans; [by apply keeps_weaken|done]. }
  destruct (negb _).
  { xbind. apply wpx_wp. eapply ok_give_up; [done|by apply (kp_sess _ _ _ K02)|apply U2|]. intros w3 H3 K3. apply wpx_ret.
    by eapply F. }
  apply part_option. intros [[status' msg'] pkt] _. xbind. apply wpx_wp.
  eapply ok_upd_unsent; [done|done|done|done|]. intros w3 H3 K3 U3.
  assert (K03 : keeps None w w3) by (by eapply keeps_trans). pose proof (kp_sess _ _ _ K03 Hss) as Hs3.
  destruct (negb _).
  { xbind. apply wpx_wp. eapply ok_give_up; [done|done|apply U3|]. intros w4 H4 K4. apply wpx_ret. by eapply F. }
  apply wpx_wp. destruct (PJ_STUN_IS_REQUEST _).
  - eapply wp_mono; [|by eapply ok_send_request]. intros r w4 H4. by eapply F.
  - eapply wp_mono; [|by eapply ok_send_direct]. intros r w4 H4. by eapply F.
Qed.

Lemma ok_respond rdata code errmsg token cache dst w :
  sess_inv w -> wpx false (pj_stun_session_respond rdata code errmsg token cache dst)
                  (fun _ w' => sess_inv w' /\ keeps None w w') w.
Proof.
  intros HI. apply part_alive; [split; [done|apply keeps_refl]|]. intros s Hs.
  xbind. eapply wpx_mono; [|by apply ok_create_res]. intros [status [d|]] w1 (H1 & K1 & Hd); [|by apply wpx_ret].
  destruct (Hd d eq_refl) as (Hn & y & Hu). eapply wpx_mono; [|by eapply ok_send_msg]. intros r w2 [H2 K2].
  split; [done|by eapply keeps_new].
Qed.

(** ** Completion of requests *)

Definition kept {A} (w : W) (_ : A) (w' : W) : Prop := sess_inv w' /\ keeps None w w'.

Lemma kept_refl {A} (a : A) w : sess_inv w -> kept w a w.
Proof. split; [done|apply keeps_refl]. Qed.

Lemma kept_after {A B} (a : A) (b : B) w1 w2 w3 : keeps None w1 w2 -> kept w2 a w3 -> kept w1 b w3.
Proof. intros K [H3 K3]. split; [done|by eapply keeps_trans]. Qed.

Lemma ok_retry request src_addr w :
  sess_inv w -> wpx false (retry_request request src_addr) (kept w) w.
Proof.
  intros HI. unfold retry_request. xbind. eapply wpx_mono; [|by apply ok_create_req].
  intros [status [d|]] w1 (H1 & K1 & Hd); [|by apply wpx_ret]. destruct (Hd d eq_refl) as (Hn & y & Hu).
  apply part_option. intros attrs _. xbind. apply wpx_wp. eapply ok_upd_unsent; [done|done|done|done|]. intros w2 H2 K2 U2.
  xbind. eapply wpx_mono; [|by eapply ok_send_msg]. intros r w3 [H3 K3]. apply wpx_ret. split; [done|].
  eapply (keeps_new d); [done|done| |done]. by eapply keeps_trans.
Qed.

Lemma part_upd_sess {B} f (k : unit -> M W B) (Q : B -> W -> Prop) w :
  sess_inv w -> (forall s, ss_pending_request_list (f s) = ss_pending_request_list s) ->
  (forall s, ss_cached_response_list (f s) = ss_cached_response_list s) ->
  (forall w', sess_inv w' -> keeps None w w' -> wpx false (k tt) Q w') -> wpx false (r ← upd_sess f; k r) Q w.
Proof.
  intros HI H1 H2 HQ. xbind. unfold upd_sess. apply part_sess. intros s Hs. apply wpx_wp.
  assert (G : wp (upd_sess f) (fun r w' => wpx false (k r) Q w') w).
  { eapply ok_upd_sess; [done|done|done|done|]. auto. }
  unfold wp, upd_sess, mbind, M_bind, get_sess in G. by rewrite Hs in G.
Qed.

Lemma ok_challenge request response w :
  sess_inv w -> wpx false (handle_auth_challenge request response) (kept w) w.
Proof.
  intros HI. unfold handle_auth_challenge. destruct response as [[msg src]|]; [|by apply wpx_ret, kept_refl].
  apply part_sess. intros s Hs. destruct (negb _); [by apply wpx_ret, kept_refl|].
  destruct (negb _).
  { apply part_upd_sess; [done..|]. intros w1 H1 K1. by apply wpx_ret. }
  apply part_option. intros [code|] _; [|by apply wpx_ret, kept_refl]. destruct (_ || _)%bool.
  2: { apply part_upd_sess; [done..|]. intros w1 H1 K1. by apply wpx_ret. }
  apply part_option. intros [nonce|] _; [|by apply wpx_ret, kept_refl].
  destruct (_ =? _); [by apply wpx_ret, kept_refl|].
  apply part_upd_sess; [done..|]. intros w1 H1 K1. destruct (_ <? _); [by apply wpx_ret|].
  apply part_option. intros realm _. apply part_upd_sess; [done..|]. intros w2 H2 K2. apply part_td. intros y Hy.
  eapply wpx_mono; [|by apply ok_retry]. intros b w3 H3. eapply kept_after; [|done]. by eapply keeps_trans.
Qed.

Lemma ok_complete t x status response w :
  sess_inv w -> is_Some (se_sess (sw_ext w)) -> sw_tsx w !! t = Some x -> status <> PJNATH_ESTUNTIMEDOUT ->
  wpx false (stun_tsx_on_complete t status response) (kept w) w.
Proof.
  intros HI Hs Hx Hne. destruct (tsx_data w t x HI Hx) as (d & y & Hd & Hy & Ht).
  unfold stun_tsx_on_complete, pj_stun_client_tsx_get_data.
  xbind. xbind. apply wpx_wp. eapply wp_get_ct; [done|]. apply wpx_ret. xbind. apply wpx_wp.
  eapply wp_from_option; [done|]. xbind. apply wpx_wp. eapply st_get_td; [done|].
  apply part_sess. intros s Es. destruct (ss_is_destroying s).
  - apply wpx_wp. eapply ok_destroy_tdata; [done|done|done|]. intros w' H' K' _ K2. split; [done|].
    apply K2; [done|]. rewrite Ht. by eexists.
  - xbind. eapply wpx_mono; [|by apply ok_challenge]. intros notify w1 [H1 K1].
    destruct (kp_td _ _ _ K1 d y) as (y1 & Hy1 & Ht1); [done|done|].
    eapply (ok_notify Hc false t d status response notify y1); [done|by apply (kp_sess _ _ _ K1)|done|by apply Ht1|].
    intros w2 H2 _ K2. split; [done|]. eapply keeps_trans; [done|auto].
Qed.

(** ** Incoming packets *)

Lemma ok_rx_response t x msg src w :
  sess_inv w -> is_Some (se_sess (sw_ext w)) -> sw_tsx w !! t = Some x ->
  wpx false (pj_stun_client_tsx_on_rx_msg stun_tsx_on_complete t msg src) (kept w) w.
Proof.
  intros HI Hs Hx. destruct (tsx_entries w t x HI Hx) as [He _]. unfold pj_stun_client_tsx_on_rx_msg.
  destruct (_ && _)%bool; [by apply wpx_ret, kept_refl|]. xbind. apply wpx_wp. eapply wp_get_ct; [done|].
  xbind. apply wpx_wp. apply ok_cancel; [done|done|]. intros tw H1 K1.
  assert (G : forall status r, status <> PJNATH_ESTUNTIMEDOUT ->
    wpx false (complete_once stun_tsx_on_complete t status r;; mret PJ_SUCCESS) (kept w) (put_timers tw w)).
  { intros status r Hne. xbind. eapply ok_complete_once; [done|done|done| |].
    - intros w1 x1 H2 K2 Hx1. eapply wpx_mono; [|eapply ok_complete; [done|by apply (kp_sess _ _ _ K2)|done|done]].
      intros [] w2 [H3 K3]. split_and!; [done|by apply (kp_sess _ _ _ K3), (kp_sess _ _ _ K2)|done].
    - intros w2 H2 _ K2. apply wpx_ret. split; [done|]. eapply keeps_trans; [done|auto]. }
  apply part_option. intros [code|] _; [|by apply G]. destruct (Z.leb_spec code 200) as [|Hc200]; [by apply wpx_ret|].
  apply G. unfold PJ_STATUS_FROM_STUN_CODE, PJNATH_ESTUNTIMEDOUT. lia.
Qed.

Lemma ok_send_response keep token response info retransmission addr w :
  sess_inv w -> (forall msg w1, sess_inv w1 -> keeps None w w1 -> wpx false (keep msg) (kept w1) w1) ->
  wpx false (send_response keep token response info retransmission addr) (kept w) w.
Proof.
  intros HI Hk. apply part_sess. intros s Hs. apply part_option. intros [status msg] _.
  xbind. eapply wpx_mono; [|apply Hk; [done|apply keeps_refl]]. intros [] w1 [H1 K1].
  destruct (negb _); [by apply wpx_ret|]. apply part_option. intros key _. apply part_option.
  intros [[status' msg'] pkt] _. xbind. eapply wpx_mono; [|by apply Hk]. intros [] w2 [H2 K2].
  assert (K : keeps None w w2) by (by eapply keeps_trans).
  destruct (negb _); [by apply wpx_ret|]. apply wpx_wp. apply (ok_call_send Hc); [done|].
  intros r w3 H3 K3 _. split; [done|by eapply keeps_trans].
Qed.

Lemma ok_discard msg w : sess_inv w -> wpx false (discard msg) (kept w) w.
Proof. intros HI. by apply wpx_ret, kept_refl. Qed.

Lemma reads_lookup l : forall msg, reads (tsx_lookup (TW := TW) l msg).
Proof.
  induction l as [|d l IH]; intros msg; [apply reads_ret|]. apply reads_bind; [apply reads_get_td|].
  intros y. destruct (key_matches _ _ _); [apply reads_ret|apply IH].
Qed.

Lemma reads_find_cached l : forall msg, reads (find_cached (TW := TW) l msg).
Proof.
  induction l as [|d l IH]; intros msg; [apply reads_ret|]. apply reads_bind; [apply reads_get_td|].
  intros y. destruct (_ && _)%bool; [apply reads_ret|apply IH].
Qed.

Lemma ok_authenticate token pkt pkt_len msg src w :
  sess_inv w -> wpx false (authenticate_req token pkt pkt_len msg src) (kept w) w.
Proof.
  intros HI. apply part_sess. intros s Hs. destruct (_ || _)%bool; [by apply wpx_ret, kept_refl|].
  apply part_option. intros a _. xbind.
  assert (G : wpx false (match ar_response a with
      | Some response => when (negb (ar_status a =? PJ_SUCCESS))
          (send_response discard token response (Some (ar_info a)) false src;; mret tt)
      | None => mret tt end) (kept w) w).
  { destruct (ar_response a) as [response|]; [|by apply wpx_ret, kept_refl].
    apply wpx_when; [intros _|intros _; by apply kept_refl]. xbind.
    eapply wpx_mono; [|apply ok_send_response; [done|intros; by apply ok_discard]]. intros r w1 [H1 K1]. by apply wpx_ret. }
  eapply wpx_mono; [|exact G]. intros [] w1 H1. by apply wpx_ret.
Qed.

Lemma ok_incoming_request options token pkt pkt_len msg src w :
  sess_inv w -> wpx false (on_incoming_request options token pkt pkt_len msg src) (kept w) w.
Proof.
  intros HI. apply part_sess. intros s Hs. cbn zeta. xbind.
  assert (G : wpx false (if Z.land (auth_options s options) PJ_STUN_NO_AUTHENTICATE =? 0
       then authenticate_req token pkt pkt_len msg src
       else mret (PJ_SUCCESS, mk_cred_info [] [] [] [])) (kept w) w)
    by (destruct (_ =? 0); [by apply ok_authenticate|by apply wpx_ret, kept_refl]).
  eapply wpx_mono; [|exact G]. intros [status info] w1 [H1 K1]. destruct (negb _); [by apply wpx_ret|].
  destruct cb_on_rx_request as [cb|] eqn:Ec.
  - xbind. apply wpx_wp, ok_emit; [done|]. intros w2 H2 K2 _ _ _. apply wpx_wp.
    destruct (cb pkt (mk_rx_data msg info) token src w2) as [r w3] eqn:E. eapply wp_callback; [exact E|].
    destruct (cm_request Hc _ _ _ _ _ _ _ _ H2 Ec E) as [H3 K3]. split; [done|].
    eapply keeps_trans; [done|]. by eapply keeps_trans.
  - apply part_option. intros [st|response] _; [by apply wpx_ret|].
    eapply wpx_mono; [|apply ok_send_response; [done|intros; by apply ok_discard]]. intros r w2 H2. by eapply kept_after.
Qed.

Lemma ok_incoming_indication token pkt msg src w :
  sess_inv w -> wpx false (on_incoming_indication token pkt msg src) (kept w) w.
Proof.
  intros HI. unfold on_incoming_indication. destruct cb_on_rx_indication as [cb|] eqn:Ec; [|by apply wpx_ret, kept_refl].
  xbind. apply wpx_wp, ok_emit; [done|]. intros w1 H1 K1 _ _ _. apply wpx_wp.
  destruct (cb pkt msg token src w1) as [r w2] eqn:E. eapply wp_callback; [exact E|].
  destruct (cm_indication Hc _ _ _ _ _ _ _ _ H1 Ec E) as [H2 K2]. split; [done|by eapply keeps_trans].
Qed.

Lemma ok_incoming_response options pkt pkt_len msg src w :
  sess_inv w -> wpx false (on_incoming_response options pkt pkt_len msg src) (kept w) w.
Proof.
  intros HI. apply part_sess. intros s Hs. xbind. apply wpx_reads; [apply reads_lookup|]. intros [d|] _;
    [|by apply wpx_ret, kept_refl]. cbn zeta. apply part_td. intros y Hy. apply part_option. intros valid _. xbind.
  assert (R : forall Q : Z -> W -> Prop, (forall status, Q status w) -> wpx false
     (if (Z.land (auth_options s options) PJ_STUN_NO_AUTHENTICATE =? 0) && negb (slen (ci_auth_key (td_auth_info y)) =? 0) && valid
      then from_option (pj_stun_authenticate_response sv_sha1 sv_hmac pkt pkt_len msg (ci_auth_key (td_auth_info y)))
      else mret PJ_SUCCESS) Q w).
  { intros Q HQ. destruct (_ && _)%bool; [|apply wpx_ret, HQ]. apply wpx_reads; [apply reads_from_option|auto]. }
  apply R. clear R. intros status. destruct (negb (status =? _)); [by apply wpx_ret, kept_refl|]. apply part_option. intros t Ht.
  destruct (td_tsx w d y t HI Hy Ht) as (x & Hx & _). eapply ok_rx_response; [done|by eexists|done].
Qed.

Lemma ok_cached msg src w : sess_inv w -> wpx false (check_cached_response msg src) (kept w) w.
Proof.
  intros HI. apply part_sess. intros s Hs. xbind. apply wpx_reads; [apply reads_find_cached|]. intros [d|] _;
    [|by apply wpx_ret, kept_refl]. apply part_td. intros y Hy. xbind. eapply wpx_mono; [|apply ok_send_response; [done|]].
  - intros r w1 H1. apply wpx_ret. exact H1.
  - intros m w1 H1 K1. destruct (kp_td _ _ _ K1 d y) as (y1 & Hy1 & _); [done|done|].
    apply wpx_wp. eapply ok_upd_td; [done|done|done|]. intros H2 K2. by split.
Qed.

Lemma ok_rx_pkt packet pkt_size options token src w :
  sess_inv w -> wpx false (pj_stun_session_on_rx_pkt packet pkt_size options token src) (kept w) w.
Proof.
  intros HI. unfold pj_stun_session_on_rx_pkt. destruct (_ =? 0); [by apply wpx_ret, kept_refl|].
  apply part_sess. intros s Hs. destruct (ss_is_destroying s); [by apply wpx_ret, kept_refl|].
  apply part_option. intros r _. destruct (dr_msg r) as [msg|]; xbind.
  - assert (G : wpx false (handle_msg packet pkt_size options token msg src) (kept w) w).
    { unfold handle_msg. xbind. eapply wpx_mono; [|by apply ok_cached]. intros status w1 [H1 K1].
      destruct (status =? PJ_SUCCESS); [by apply wpx_ret|].
      assert (T : forall (m : M W Z), wpx false m (kept w1) w1 -> wpx false m (kept w) w1).
      { intros m Hm. eapply wpx_mono; [|exact Hm]. intros a w2 H2. by eapply kept_after. }
      destruct (_ || _)%bool; [by apply T, ok_incoming_response|].
      destruct (PJ_STUN_IS_REQUEST _); [by apply T, ok_incoming_request|].
      destruct (PJ_STUN_IS_INDICATION _); [by apply T, ok_incoming_indication|by apply wpx_ret]. }
    eapply wpx_mono; [|exact G]. intros status w1 H1. by apply wpx_ret.
  - assert (G : wpx false (match dr_response r with
        | Some response => send_response discard token response None false src;; mret tt
        | None => mret tt end) (kept w) w).
    { destruct (dr_response r) as [response|]; [|by apply wpx_ret, kept_refl]. xbind.
      eapply wpx_mono; [|apply ok_send_response; [done|intros; by apply ok_discard]]. intros a w1 H1. by apply wpx_ret. }
    eapply wpx_mono; [|exact G]. intros [] w1 H1. by apply wpx_ret.
Qed.
End Ops.

(** * STUN sessions: all runs

    The operations of the application, incoming packets and expiring timers
    in any order. *)

Section Run.
Context {TW : Type} `{TS : !TimerService TW} {EN : StunEnv TW}.

#[local] Abbreviation W := (stun_world TW stun_ext).

(** A session that was just created. *)
Definition sess_init (w : W) : Prop :=
  ts_ok (sw_timers w) /\ (forall e, ts_id (sw_timers w) !! e = None) /\ sw_tsx w = ∅ /\ se_tdata (sw_ext w) = ∅ /\
  exists fingerprint name, se_sess (sw_ext w) = Some (pj_stun_session_create fingerprint name).

(** The timer heap takes the entry [e] out to call its callback, at any time. *)
Definition popped (e : nat) (w w' : W) : Prop :=
  armed w e /\ exists tw now, w' = w <| sw_timers := tw |> <| sw_now := now |> /\ ts_ok tw /\
    ts_armed tw = delete e (ts_armed (sw_timers w)) /\ ts_id tw = ts_id (sw_timers w).

(** The results of operations are not looked at. *)
Definition runs {A} (m : M W A) (w w' : W) : Prop := exists a, m w = Some (a, w').

(** What an application may do with a session that exists: it sends a message
    once, and asks for the retransmission of a request that was sent. *)
Inductive app_step (w : W) : W -> Prop :=
  | app_create_req method magic id w' : runs (pj_stun_session_create_req method magic id) w w' -> app_step w w'
  | app_create_ind t w' : runs (pj_stun_session_create_ind t) w w' -> app_step w w'
  | app_create_res rdata code text w' : runs (pj_stun_session_create_res rdata code text) w w' -> app_step w w'
  | app_send token cache retransmit server d y w' :
      unsent w d y -> runs (pj_stun_session_send_msg token cache retransmit server d) w w' -> app_step w w'
  | app_respond rdata code text token cache dst w' :
      runs (pj_stun_session_respond rdata code text token cache dst) w w' -> app_step w w'
  | app_cancel d y notify status w' :
      se_tdata (sw_ext w) !! d = Some y -> (notify = true -> is_Some (cb_on_request_complete (TW := TW))) ->
      runs (pj_stun_session_cancel_req d notify status) w w' -> app_step w w'
  | app_retransmit d y t mod_count w' :
      se_tdata (sw_ext w) !! d = Some y -> td_client_tsx y = Some t ->
      runs (pj_stun_session_retransmit_req d mod_count) w w' -> app_step w w'
  | app_destroy_msg d y w' :
      se_tdata (sw_ext w) !! d = Some y -> runs (pj_stun_msg_destroy_tdata d) w w' -> app_step w w'
  | app_rx packet size options token src w' :
      runs (pj_stun_session_on_rx_pkt packet size options token src) w w' -> app_step w w'
  | app_software name w' : runs (pj_stun_session_set_software_name name) w w' -> app_step w w'
  | app_credential t cred w' : runs (pj_stun_session_set_credential t cred) w w' -> app_step w w'
  | app_fingerprint use w' : runs (pj_stun_session_use_fingerprint use) w w' -> app_step w w'
  | app_destroy w' : runs pj_stun_session_destroy w w' -> app_step w w'.

(** The last reference to the group lock is released when no timer holds one. *)
Inductive sess_step (w : W) : W -> Prop :=
  | sess_app w' : is_Some (se_sess (sw_ext w)) -> app_step w w' -> sess_step w w'
  | sess_timer e w1 w' : popped e w w1 -> runs (on_timer e) w1 w' -> sess_step w w'
  | sess_tick now : sess_step w (w <| sw_now := now |>)
  | sess_release w' : is_Some (se_sess (sw_ext w)) -> (forall e, ~ armed w e) -> runs stun_sess_on_destroy w w' ->
      sess_step w w'.

Definition run_inv (w : W) : Prop :=
  sess_inv w /\ (is_Some (se_sess (sw_ext w)) \/ forall e, ~ armed w e).

Lemma sess_init_inv w : sess_init w -> run_inv w.
Proof.
  intros (Hok & Hi & E1 & E2 & fp & name & Es).
  assert (Hn : forall e, ~ armed w e).
  { intros e He. destruct (ts_armed_id (sw_timers w) e Hok He) as [i Ei]. by rewrite Hi in Ei. }
  split; [|by right]. split; [done|auto|rewrite E1; apply map_Forall_empty|rewrite E2; apply map_Forall_empty|..].
  - intros e He. by destruct (Hn e).
  - intros e He. by destruct (Hn e).
  - intros s Hs. assert (s = pj_stun_session_create fp name) as -> by congruence.
    split; cbn; [apply NoDup_nil_2|apply NoDup_nil_2|..]; by intros d ?%elem_of_nil.
Qed.

Section Calm.
Context (Hc : calm).

(** The callback of an entry that has expired is defined. *)
Lemma popped_runs e w w1 : run_inv w -> popped e w w1 ->
  wp (on_timer e) (fun _ w' => sess_inv w' /\ is_Some (se_sess (sw_ext w'))) w1.
Proof.
  intros [HI Hs] (He & tw & now & -> & Hok & Ha & Hi). destruct Hs as [Hs|Hs]; [|by destruct (Hs e)].
  set (w1 := set_field _ _ _). assert (Hq : quieter (sw_timers w) tw) by (by eapply expired_quieter).
  assert (H1 : sess_inv w1) by (by eapply inv_same; [by apply (inv_quieter w tw)|..]).
  assert (Hn : ts_armed (sw_timers w1) !! e = None) by (cbn; by rewrite Ha, lookup_delete_eq).
  unfold on_timer. wbind. apply wp_ask.
  destruct (si_owned w HI e He) as [(t & [x Hx] & [E|E])|(d & y & Hy & Hy1 & Hy2 & E)]; subst e.
  - unfold ct_retransmit_timer. rewrite Nat.odd_mul, Nat.div2_double. cbn [Nat.odd Nat.even andb negb].
    change (sw_tsx w1) with (sw_tsx w). rewrite Hx. eapply (ok_retransmit_timer Hc); [done|done|done|done|]. by split.
  - unfold ct_destroy_timer. rewrite Nat.add_1_r, Nat.div2_succ_double, Nat.odd_succ, Nat.even_mul. cbn [Nat.even orb].
    eapply ok_destroy_timer; [done|done|done|exact Hn|]. by split.
  - unfold res_timer. rewrite Nat.odd_mul, Nat.div2_double. cbn [Nat.odd Nat.even andb negb].
    change (sw_tsx w1) with (sw_tsx w). destruct (sw_tsx w !! d) as [x|] eqn:Ex.
    { pose proof (co_unique _ _ _ (si_tsx _ HI d x Ex)). congruence. }
    eapply ok_cache_timer; [done|done|done|done|]. by split.
Qed.

Lemma app_inv w w' : sess_inv w -> is_Some (se_sess (sw_ext w)) -> app_step w w' ->
  sess_inv w' /\ is_Some (se_sess (sw_ext w')).
Proof.
  intros HI Hs H.
  assert (P : forall A (m : M W A) X, wpx false m X w -> runs m w w' ->
    (forall a, X a w' -> sess_inv w' /\ is_Some (se_sess (sw_ext w'))) -> sess_inv w' /\ is_Some (se_sess (sw_ext w'))).
  { intros A m X HX [a Ha] HF. apply (HF a). by eapply wpx_some. }
  assert (K : forall A (m : M W A) ex, wpx false m (fun _ w' => sess_inv w' /\ keeps ex w w') w -> runs m w w' ->
    sess_inv w' /\ is_Some (se_sess (sw_ext w'))).
  { intros A m ex HX Hr. eapply P; [exact HX|done|]. intros _ [H1 H2]. split; [done|by apply (kp_sess _ _ _ H2)]. }
  destruct H as [? ? ? ? H|? ? H|? ? ? ? H|? ? ? ? ? y ? Hu H|? ? ? ? ? ? ? H|d y ? ? ? Hy Hcb H|d y t ? ? Hy Ht H
    |d y ? Hy H|? ? ? ? ? ? H|? ? H|? ? ? H|? ? H|? H].
  - eapply P; [by apply ok_create_req|done|]. intros _ (H1 & H2 & _). split; [done|by apply (kp_sess _ _ _ H2)].
  - eapply P; [by apply ok_create_ind|done|]. intros _ (H1 & H2 & _). split; [done|by apply (kp_sess _ _ _ H2)].
  - eapply P; [by apply ok_create_res|done|]. intros _ (H1 & H2 & _). split; [done|by apply (kp_sess _ _ _ H2)].
  - eapply K; [by eapply ok_send_msg|done].
  - eapply K; [by eapply ok_respond|done].
  - eapply P; [apply wpx_wp, (ok_cancel_req Hc d y)|done|]; try done; [by intros r w2 H2 Hs2; exact (conj H2 Hs2)|]. auto.
  - eapply K; [apply wpx_wp, (ok_retransmit_req Hc d y t)|done]; try done.
  - eapply K; [apply wpx_wp, (ok_give_up d y)|done]; try done.
  - eapply K; [by eapply ok_rx_pkt|done].
  - eapply K; [|done]. apply part_upd_sess; [done..|]. intros w1 H1 K1. by apply wpx_ret.
  - eapply K; [|done]. apply part_upd_sess; [done|by intros; case_match..|]. intros w1 H1 K1. by apply wpx_ret.
  - eapply K; [|done]. apply part_sess. intros s Es. apply part_upd_sess; [done..|]. intros w1 H1 K1. by apply wpx_ret.
  - eapply P; [by apply wpx_wp, (ok_session_destroy (fun _ w2 => sess_inv w2 /\ is_Some (se_sess (sw_ext w2))))|done|]. auto.
Qed.

Lemma step_inv w w' : run_inv w -> sess_step w w' -> run_inv w'.
Proof.
  intros [HI Hs] H. destruct H as [w' Hs' H|e w1 w' Hp [a Ha]|now|w' Hs' Hn [a Ha]].
  - destruct (app_inv w w' HI Hs' H). split; [done|by left].
  - pose proof (popped_runs e w w1 (conj HI Hs) Hp) as G. unfold wp in G. rewrite Ha in G. destruct G. split; [done|by left].
  - split; [by eapply inv_same|exact Hs].
  - pose proof (ok_on_destroy (fun _ w2 => sess_inv w2 /\ forall e, ~ armed w2 e) w HI Hs' Hn) as G. unfold wp in G.
    rewrite Ha in G. destruct G as [G1 G2]; [auto|]. split; [done|by right].
Qed.

Lemma reach_inv w : reach sess_step sess_init w -> run_inv w.
Proof. apply reach_invariant; [apply sess_init_inv|intros; by eapply step_inv]. Qed.

End Calm.
End Run.
