(* ===== verification/StunSessSpec.v ===== *)
(** * STUN sessions: the life of a request

    What happens to one request until it times out. *)

From S2P Require Import Prelude Monad TimeVal TimerSpec StunMsg StunAuth StunTsx StunSess StunSessInv.
Local Open Scope Z_scope.

(** * STUN sessions: the life of a request

    What happens to one request, for an application whose callbacks leave the
    session alone: the transmissions and their times until it times out. *)

#[local] Arguments ct_retransmit_timer : simpl never.
#[local] Arguments ct_destroy_timer : simpl never.
#[local] Arguments res_timer : simpl never.

Section Flow.
Context {TW : Type} `{TS : !TimerService TW} {EN : StunEnv TW}.

#[local] Abbreviation W := (stun_world TW stun_ext).

(** Callbacks that return success and change nothing. *)
Record quiet : Prop := mk_quiet {
  q_send : forall token pkt dst w, cb_on_send_msg token pkt dst w = (PJ_SUCCESS, w);
  q_request : cb_on_rx_request = Some (fun _ _ _ _ w => (PJ_SUCCESS, w));
  q_complete : cb_on_request_complete = Some (fun _ _ _ _ w => w)
}.

(** ** The view of one request

    Its transaction and message, the session, the clock, when its timers
    expire, the ids of their entries and the log. *)
Record view (t d : nat) (n : pj_time_val) (x : pj_stun_client_tsx) (y : pj_stun_tx_data)
    (s : pj_stun_session) (rt ds : option pj_time_val) (i : Z) (o : list stun_output) (w : W) : Prop := mk_view {
  vw_tsx : sw_tsx w !! t = Some x;
  vw_td : se_tdata (sw_ext w) !! d = Some y;
  vw_sess : se_sess (sw_ext w) = Some s;
  vw_now : sw_now w = n;
  vw_rt : ts_armed (sw_timers w) !! ct_retransmit_timer t = rt;
  vw_ds : ts_armed (sw_timers w) !! ct_destroy_timer t = ds;
  vw_res : ts_armed (sw_timers w) !! res_timer d = None;
  vw_out : se_out (sw_ext w) = o;
  vw_ok : ts_ok (sw_timers w);
  vw_rt_id : ts_id (sw_timers w) !! ct_retransmit_timer t = Some i;
  vw_ds_id : is_Some (ts_id (sw_timers w) !! ct_destroy_timer t);
  vw_res_id : ts_id (sw_timers w) !! res_timer d = Some 0
}.

Section Steps.
Context (t d : nat) (n : pj_time_val) (Htd : t <> d).
#[local] Abbreviation view := (view t d n).

Lemma entries_ne : ct_retransmit_timer t <> ct_destroy_timer t /\ ct_retransmit_timer t <> res_timer d /\
  ct_destroy_timer t <> res_timer d.
Proof. unfold ct_retransmit_timer, ct_destroy_timer, res_timer. lia. Qed.

Lemma view_get_ct x y s rt ds i o (Q : _ -> W -> Prop) w :
  view x y s rt ds i o w -> Q x w -> wp (get_ct t) Q w.
Proof. intros [] HQ. unfold wp, get_ct. by rewrite vw_tsx0. Qed.

Lemma view_upd_ct f x y s rt ds i o (Q : unit -> W -> Prop) w :
  view x y s rt ds i o w -> (forall w', view (f x) y s rt ds i o w' -> Q tt w') -> wp (upd_ct t f) Q w.
Proof.
  intros [] HQ. unfold wp, upd_ct. rewrite vw_tsx0. cbn. apply HQ. split; try done. apply lookup_insert_eq.
Qed.

Lemma view_entry_id x y s rt ds i o (Q : _ -> W -> Prop) w :
  view x y s rt ds i o w -> Q i w -> wp (entry_id (ct_retransmit_timer t)) Q w.
Proof. intros [] HQ. unfold wp, entry_id. by rewrite vw_rt_id0. Qed.

Lemma view_res_id x y s rt ds i o (Q : _ -> W -> Prop) w :
  view x y s rt ds i o w -> Q 0 w -> wp (entry_id (res_timer d)) Q w.
Proof. intros [] HQ. unfold wp, entry_id. by rewrite vw_res_id0. Qed.

Lemma view_set_id j x y s rt ds i o (Q : unit -> W -> Prop) w :
  view x y s rt ds i o w -> (forall w', view x y s rt ds j o w' -> Q tt w') ->
  wp (set_entry_id (ct_retransmit_timer t) j) Q w.
Proof.
  intros [] HQ. apply wp_modify, HQ. destruct entries_ne as (H1 & H2 & H3).
  destruct (ts_set_id_ok (sw_timers w) (ct_retransmit_timer t) j) as (Hok & Ha & Hi); [done|by eexists|].
  split; try done; cbn; rewrite ?Ha, ?Hi; try done.
  - apply lookup_insert_eq.
  - by rewrite lookup_insert_ne.
  - by rewrite lookup_insert_ne.
Qed.

Lemma view_schedule_retransmit delay j x y s ds i o (Q : Z -> W -> Prop) w :
  view x y s None ds i o w ->
  (forall w', view x y s (Some (PJ_TIME_VAL_ADD n delay)) ds j o w' -> Q PJ_SUCCESS w') ->
  wp (schedule_entry (ct_retransmit_timer t) delay j) Q w.
Proof.
  intros [] HQ. destruct entries_ne as (H1 & H2 & H3). unfold wp, schedule_entry.
  destruct (ts_schedule_ok (sw_timers w) (sw_now w) (ct_retransmit_timer t) delay j)
    as (tw & -> & Hok & Ha & Hi); [done|by eexists|done|]. apply HQ.
  split; try done; cbn; rewrite ?Ha, ?Hi, ?lookup_insert_eq, ?lookup_insert_ne by done; try done. congruence.
Qed.

Lemma view_schedule_ds delay j x y s rt i o (Q : Z -> W -> Prop) w :
  view x y s rt None i o w ->
  (forall w', view x y s rt (Some (PJ_TIME_VAL_ADD n delay)) i o w' -> Q PJ_SUCCESS w') ->
  wp (schedule_entry (ct_destroy_timer t) delay j) Q w.
Proof.
  intros [] HQ. destruct entries_ne as (H1 & H2 & H3). unfold wp, schedule_entry.
  destruct (ts_schedule_ok (sw_timers w) (sw_now w) (ct_destroy_timer t) delay j)
    as (tw & -> & Hok & Ha & Hi); [done|done|done|]. apply HQ.
  split; try done; cbn; rewrite ?Ha, ?Hi, ?lookup_insert_eq, ?lookup_insert_ne by done; try done. congruence.
Qed.

Lemma view_cancel_retransmit j x y s rt ds i o (Q : unit -> W -> Prop) w :
  view x y s rt ds i o w -> (forall i' w', view x y s None ds i' o w' -> Q tt w') ->
  wp (cancel_if_active (ct_retransmit_timer t) j) Q w.
Proof.
  intros [] HQ. destruct entries_ne as (H1 & H2 & H3). unfold wp, cancel_if_active.
  destruct (ts_cancel_ok (sw_timers w) (ct_retransmit_timer t) j) as (tw & -> & Hok & Ha & Hi); [done|by eexists|].
  apply (HQ (if bool_decide (is_Some (ts_armed (sw_timers w) !! ct_retransmit_timer t)) then j else i)).
  split; try done; cbn; rewrite ?Ha, ?Hi, ?lookup_delete_eq, ?lookup_delete_ne by done; try done;
    case_bool_decide; rewrite ?lookup_insert_eq, ?lookup_insert_ne by done; done.
Qed.

Lemma view_cancel_ds j x y s rt ds i o (Q : unit -> W -> Prop) w :
  view x y s rt ds i o w -> (forall w', view x y s rt None i o w' -> Q tt w') ->
  wp (cancel_if_active (ct_destroy_timer t) j) Q w.
Proof.
  intros [] HQ. destruct entries_ne as (H1 & H2 & H3). unfold wp, cancel_if_active.
  destruct (ts_cancel_ok (sw_timers w) (ct_destroy_timer t) j) as (tw & -> & Hok & Ha & Hi); [done|done|].
  apply HQ.
  split; try done; cbn; rewrite ?Ha, ?Hi, ?lookup_delete_eq, ?lookup_delete_ne by done; try done;
    case_bool_decide; rewrite ?lookup_insert_eq, ?lookup_insert_ne by done; done.
Qed.

Lemma view_get_td x y s rt ds i o (Q : _ -> W -> Prop) w :
  view x y s rt ds i o w -> Q y w -> wp (get_td d) Q w.
Proof. intros [] HQ. unfold wp, get_td. by rewrite vw_td0. Qed.

Lemma view_upd_td f x y s rt ds i o (Q : unit -> W -> Prop) w :
  view x y s rt ds i o w -> (forall w', view x (f y) s rt ds i o w' -> Q tt w') -> wp (upd_td d f) Q w.
Proof.
  intros H HQ. unfold upd_td. wbind. eapply view_get_td; [done|]. apply wp_modify, HQ. destruct H.
  split; try done. apply lookup_insert_eq.
Qed.

Lemma view_get_sess x y s rt ds i o (Q : _ -> W -> Prop) w :
  view x y s rt ds i o w -> Q s w -> wp get_sess Q w.
Proof. intros [] HQ. unfold wp, get_sess. by rewrite vw_sess0. Qed.

Lemma view_upd_sess f x y s rt ds i o (Q : unit -> W -> Prop) w :
  view x y s rt ds i o w -> (forall w', view x y (f s) rt ds i o w' -> Q tt w') -> wp (upd_sess f) Q w.
Proof.
  intros H HQ. unfold upd_sess. wbind. eapply view_get_sess; [done|]. apply wp_modify, HQ. by destruct H.
Qed.

Lemma view_log e x y s rt ds i o (Q : unit -> W -> Prop) w :
  view x y s rt ds i o w -> (forall w', view x y s rt ds i (o ++ [e]) w' -> Q tt w') -> wp (emit e) Q w.
Proof. intros [] HQ. apply wp_modify, HQ. split; try done. cbn. congruence. Qed.
End Steps.

(** ** The times of the transmissions *)

(** Milliseconds from transmission [k] to the next expiration, and from the
    first transmission to that expiration. *)
Definition delay_ms (rto : Z) (k : nat) : Z := if decide (k < 6)%nat then rto * 2 ^ Z.of_nat k else 1600.
Definition elapsed_ms (rto : Z) (k : nat) : Z :=
  if decide (k < 6)%nat then rto * (2 ^ (Z.of_nat k + 1) - 1) else rto * 63 + 1600.

Lemma elapsed_step rto k : (k <= 5)%nat -> elapsed_ms rto k + delay_ms rto (S k) = elapsed_ms rto (S k).
Proof.
  intros H. unfold elapsed_ms, delay_ms. rewrite decide_True by lia. destruct (decide (S k < 6)%nat) as [Hk|Hk].
  - rewrite Nat2Z.inj_succ, (Z.pow_add_r 2 (Z.succ _)) by lia. unfold Z.succ. lia.
  - replace k with 5%nat by lia. change (2 ^ (Z.of_nat 5 + 1) - 1) with 63. lia.
Qed.

Lemma time_of_msec_ms m : PJ_TIME_VAL_MSEC (time_of_msec m) = m.
Proof. unfold PJ_TIME_VAL_MSEC, time_of_msec. cbn. pose proof (Z.div_mod m 1000). lia. Qed.

Lemma retransmit_delay_ms rto k x :
  (k <= 6)%nat -> 0 <= rto -> rto * 64 < 4294967296 -> ct_rto_msec x = rto ->
  ct_transmit_count x = Z.of_nat k ->
  (forall j, k = S j -> PJ_TIME_VAL_MSEC (ct_retransmit_time x) = delay_ms rto j) ->
  PJ_TIME_VAL_MSEC (retransmit_delay x) = delay_ms rto k.
Proof.
  intros Hk H0 Hr Hx Hc Hp. unfold retransmit_delay. rewrite Hc. destruct k as [|k].
  - unfold PJ_TIME_VAL_MSEC, delay_ms. change (Z.of_nat 0) with 0. rewrite decide_True by lia.
    change (2 ^ 0) with 1. cbn [Z.eqb sec msec]. lia.
  - destruct (Z.eqb_spec (Z.of_nat (S k)) 0); [lia|]. rewrite (Hp k) by done.
    destruct (Z.ltb_spec (Z.of_nat (S k)) (PJ_STUN_MAX_TRANSMIT_COUNT - 1)) as [Hlt|Hge];
      unfold PJ_STUN_MAX_TRANSMIT_COUNT in *; rewrite time_of_msec_ms; unfold delay_ms.
    + rewrite !decide_True by lia. rewrite Nat2Z.inj_succ, Z.pow_succ_r by lia.
      rewrite Z.shiftl_mul_pow2 by done.
      assert (1 <= 2 ^ Z.of_nat k <= 16).
      { change 16 with (2 ^ 4). split; [apply Z.lt_pred_le, Z.pow_pos_nonneg; lia|apply Z.pow_le_mono_r; lia]. }
      assert (0 <= rto * 2 ^ Z.of_nat k <= rto * 16) by nia. set (v := rto * 2 ^ Z.of_nat k) in *.
      rewrite (u32_id v) by (unfold is_u32; lia). rewrite u32_id by (unfold is_u32; lia). lia.
    + by rewrite decide_False by lia.
Qed.

(** ** Transmissions *)

Section Request.
Context (Hq : quiet) (t d : nat) (Htd : t <> d).

(** What the transaction sends. *)
Definition sent (x : pj_stun_client_tsx) (y : pj_stun_tx_data) : stun_output :=
  OutSend (td_token y) (ct_last_pkt x) (td_dst_addr y).

Lemma view_on_send n x y s rt ds i o (Q : Z -> W -> Prop) w :
  view t d n x y s rt ds i o w -> ct_user_data x = Some d -> ss_is_destroying s = false ->
  (forall w', view t d n x y s rt ds i (o ++ [sent x y]) w' -> Q PJ_SUCCESS w') ->
  wp (stun_tsx_on_send_msg t (ct_last_pkt x)) Q w.
Proof.
  intros H Hd Hs HQ. unfold stun_tsx_on_send_msg, pj_stun_client_tsx_get_data. wbind. wbind.
  eapply view_get_ct; [done|]. apply wp_ret. wbind. eapply wp_from_option; [done|].
  wbind. eapply view_get_td; [done|]. unfold if_alive. wbind. eapply view_get_sess; [done|]. rewrite Hs.
  unfold call_send_msg. wbind. eapply view_log; [done|]. intros w' H'.
  eapply wp_callback; [apply Hq|]. by apply HQ.
Qed.

(** A transmission that is counted. *)
Definition transmitted (x : pj_stun_client_tsx) : pj_stun_client_tsx :=
  x <| ct_retransmit_time := retransmit_delay x |> <| ct_transmit_count := u32 (ct_transmit_count x + 1) |>.

Lemma view_transmit n x y s ds o (Q : Z -> W -> Prop) w :
  view t d n x y s None ds 0 o w -> ct_user_data x = Some d -> ss_is_destroying s = false ->
  ct_require_retransmit x = true ->
  (forall w', view t d n (transmitted x) y s (Some (PJ_TIME_VAL_ADD n (retransmit_delay x))) ds 1
                (o ++ [sent x y]) w' -> Q PJ_SUCCESS w') ->
  wp (tsx_transmit_msg stun_tsx_on_send_msg t true) Q w.
Proof.
  intros H Hd Hs Hr HQ. unfold tsx_transmit_msg. wbind. eapply view_get_ct; [done|].
  wbind. eapply view_entry_id; [done|]. rewrite Hr. cbn [Z.eqb TIMER_INACTIVE negb orb andb].
  wbind. wbind. eapply view_upd_ct; [done|]. intros w1 H1. unfold schedule_retransmit.
  wbind. eapply view_get_ct; [done|]. wbind. eapply view_schedule_retransmit; [done|done|]. intros w2 H2.
  cbn [Z.eqb PJ_SUCCESS negb]. apply wp_ret. cbn [Z.eqb PJ_SUCCESS negb]. wbind. apply wp_when; [intros _|done].
  eapply view_upd_ct; [done|]. intros w3 H3. wbind. eapply view_get_ct; [done|]. wbind.
  eapply view_on_send; [exact H3|done|done|]. intros w4 H4. wbind. apply wp_when; [done|intros _].
  apply wp_ret, HQ, H4.
Qed.

Lemma view_first_send n x y s pkt o (Q : Z -> W -> Prop) w :
  view t d n x y s None None 0 o w -> ct_user_data x = Some d -> ss_is_destroying s = false -> pkt <> [] ->
  let x := x <| ct_last_pkt := pkt |> <| ct_require_retransmit := true |> in
  (forall w', view t d n (transmitted x) y s (Some (PJ_TIME_VAL_ADD n (retransmit_delay x))) None 1
                (o ++ [sent x y]) w' -> Q PJ_SUCCESS w') ->
  wp (pj_stun_client_tsx_send_msg stun_tsx_on_send_msg t true pkt) Q w.
Proof.
  intros H Hd Hs Hp x' HQ. unfold pj_stun_client_tsx_send_msg. rewrite bool_decide_eq_false_2 by done.
  wbind. eapply view_get_ct; [done|]. wbind. eapply view_entry_id; [done|]. cbn [Z.eqb negb].
  wbind. eapply view_upd_ct; [done|]. intros w1 H1. wbind. apply wp_ret. cbn [Z.eqb PJ_SUCCESS negb].
  wbind. eapply view_transmit; [exact H1|done..|]. intros w2 H2. wbind. eapply view_get_ct; [done|].
  cbn [Z.eqb PJ_SUCCESS negb]. apply wp_ret, HQ, H2.
Qed.

(** ** The end of a request *)

Lemma view_stop n x y s rt ds i o (Q : Z -> W -> Prop) w :
  view t d n x y s rt ds i o w -> (forall i w', view t d n x y s None None i o w' -> Q PJ_SUCCESS w') ->
  wp (pj_stun_client_tsx_stop t) Q w.
Proof.
  intros H HQ. unfold pj_stun_client_tsx_stop. wbind. eapply view_get_ct; [done|].
  wbind. eapply view_cancel_retransmit; [done|done|]. intros i1 w1 H1. wbind. eapply view_cancel_ds; [done|done|].
  intros w2 H2. apply wp_ret. by eapply HQ.
Qed.

(** Released, and in no list. *)
Record gone (n : pj_time_val) (s : pj_stun_session) (o : list stun_output) (w : W) : Prop := mk_gone {
  gn_tsx : sw_tsx w !! t = None;
  gn_td : se_tdata (sw_ext w) !! d = None;
  gn_sess : exists s', se_sess (sw_ext w) = Some s' /\
    ss_pending_request_list s' = filter (fun x => x <> d) (ss_pending_request_list s) /\
    ss_is_destroying s' = ss_is_destroying s;
  gn_now : sw_now w = n;
  gn_out : se_out (sw_ext w) = o
}.

Lemma view_destroy_forced n x y s rt ds i o (Q : unit -> W -> Prop) w :
  view t d n x y s rt ds i o w -> td_is_destroying y = false -> td_client_tsx y = Some t ->
  (forall w', gone n s o w' -> Q tt w') -> wp (destroy_tdata d true) Q w.
Proof.
  intros H Hy Ht HQ. unfold destroy_tdata. wbind. eapply view_get_td; [done|]. rewrite Hy.
  wbind. eapply view_upd_td; [done|]. intros w1 H1. wbind. eapply view_res_id; [done|].
  wbind. apply wp_when; [done|intros _]. unfold list_erase. wbind. eapply view_upd_sess; [done|]. intros w2 H2.
  wbind. rewrite Ht. wbind. eapply view_stop; [done|]. intros i3 w3 H3.
  unfold pj_stun_client_tsx_set_data. wbind. wbind. eapply view_upd_ct; [done|]. intros w4 H4. apply wp_ret.
  apply wp_ret. destruct H4. unfold wp, tdata_on_destroy, pool_release, entry_idle. rewrite vw_td0. ored. cbn.
  rewrite Ht, vw_res0, vw_rt0, vw_ds0. cbn. apply HQ. split; cbn; try done.
  - apply lookup_delete_eq.
  - apply lookup_delete_eq.
  - eexists. by split.
Qed.

(** The last expiration: the user is told, and the request is released. *)
Lemma view_timeout n x y s rt ds i o (Q : unit -> W -> Prop) w :
  view t d n x y s rt ds i o w -> ct_user_data x = Some d -> ct_on_complete x = true -> ct_complete x = false ->
  PJ_STUN_MAX_TRANSMIT_COUNT <= ct_transmit_count x -> ss_is_destroying s = false ->
  td_is_destroying y = false -> td_client_tsx y = Some t ->
  (forall w', gone n s (o ++ [OutComplete PJNATH_ESTUNTIMEDOUT (td_token y) d None]) w' -> Q tt w') ->
  wp (on_retransmit_timer t) Q w.
Proof.
  intros H Hd Hc Hn Hcnt Hs Hy Ht HQ. unfold on_retransmit_timer, retransmit_timer_callback.
  wbind. eapply view_get_ct; [done|]. destruct (Z.leb_spec PJ_STUN_MAX_TRANSMIT_COUNT (ct_transmit_count x)); [|lia].
  wbind. eapply view_set_id; [done|done|]. intros w1 H1. unfold complete_once.
  wbind. eapply view_get_ct; [done|]. rewrite Hn. apply wp_when; [intros _|done].
  wbind. eapply view_upd_ct; [done|]. intros w2 H2. rewrite Hc. apply wp_when; [intros _|done].
  unfold stun_tsx_on_complete, pj_stun_client_tsx_get_data. wbind. wbind. eapply view_get_ct; [done|]. apply wp_ret.
  wbind. eapply wp_from_option; [done|]. wbind. eapply view_get_td; [done|].
  wbind. eapply view_get_sess; [done|]. rewrite Hs. wbind. apply wp_ret. wbind. rewrite (q_complete Hq).
  apply wp_when; [intros _|done]. wbind. eapply view_get_td; [done|]. wbind. eapply view_log; [done|].
  intros w3 H3. apply wp_modify. eapply view_destroy_forced; [exact H3|done..].
Qed.

(** An expiration before the last. *)
Lemma view_resend n x y s o (Q : unit -> W -> Prop) w :
  view t d n x y s None None 1 o w -> ct_user_data x = Some d -> ct_require_retransmit x = true ->
  ct_transmit_count x < PJ_STUN_MAX_TRANSMIT_COUNT -> ss_is_destroying s = false ->
  (forall w', view t d n (transmitted x) y s (Some (PJ_TIME_VAL_ADD n (retransmit_delay x))) None 1
                (o ++ [sent x y]) w' -> Q tt w') ->
  wp (on_retransmit_timer t) Q w.
Proof.
  intros H Hd Hr Hcnt Hs HQ. unfold on_retransmit_timer, retransmit_timer_callback.
  wbind. eapply view_get_ct; [done|]. destruct (Z.leb_spec PJ_STUN_MAX_TRANSMIT_COUNT (ct_transmit_count x)); [lia|].
  wbind. eapply view_set_id; [done|done|]. intros w1 H1. wbind. eapply view_transmit; [exact H1|done..|].
  intros w2 H2. wbind. apply wp_when; [done|intros _]. wbind. eapply view_get_ct; [done|]. apply wp_ret, HQ, H2.
Qed.

(** The state between transmission [k] and the next expiration. *)
Record waiting (n0 : pj_time_val) (y : pj_stun_tx_data) (s : pj_stun_session) (rto : Z) (pkt : list Z)
    (o : list stun_output) (k : nat) (w : W) : Prop := mk_waiting {
  wt_view : exists n x dl, view t d n x y s (Some dl) None 1
      (o ++ replicate (S k) (OutSend (td_token y) pkt (td_dst_addr y))) w /\
    PJ_TIME_VAL_MSEC dl = PJ_TIME_VAL_MSEC n0 + elapsed_ms rto k /\
    PJ_TIME_VAL_MSEC (ct_retransmit_time x) = delay_ms rto k /\
    ct_transmit_count x = Z.of_nat (S k) /\ ct_rto_msec x = rto /\ ct_last_pkt x = pkt /\
    ct_user_data x = Some d /\ ct_require_retransmit x = true /\ ct_on_complete x = true /\ ct_complete x = false
}.

(** The retransmission timer expires at its time; nothing else happens. *)
Definition expire (w w' : W) : Prop :=
  exists dl tw, ts_armed (sw_timers w) !! ct_retransmit_timer t = Some dl /\
    ts_ok tw /\ ts_armed tw = delete (ct_retransmit_timer t) (ts_armed (sw_timers w)) /\
    ts_id tw = ts_id (sw_timers w) /\
    on_retransmit_timer t (w <| sw_timers := tw |> <| sw_now := dl |>) = Some (tt, w').

Inductive expirations : nat -> W -> W -> Prop :=
  | expirations_0 w : expirations 0 w w
  | expirations_S k w w' w'' : expirations k w w' -> expire w' w'' -> expirations (S k) w w''.

Lemma view_expired n x y s dl o w tw :
  view t d n x y s (Some dl) None 1 o w -> ts_ok tw ->
  ts_armed tw = delete (ct_retransmit_timer t) (ts_armed (sw_timers w)) -> ts_id tw = ts_id (sw_timers w) ->
  view t d dl x y s None None 1 o (w <| sw_timers := tw |> <| sw_now := dl |>).
Proof.
  intros [] Hok Ha Hi. destruct (entries_ne t d Htd) as (H1 & H2 & H3).
  split; try done; cbn; rewrite ?Ha, ?Hi, ?lookup_delete_eq, ?lookup_delete_ne by done; done.
Qed.

(** The heap can remove the entry. *)
Lemma view_can_expire n x y s dl o w :
  view t d n x y s (Some dl) None 1 o w ->
  exists tw, ts_ok tw /\ ts_armed tw = delete (ct_retransmit_timer t) (ts_armed (sw_timers w)) /\
    ts_id tw = ts_id (sw_timers w).
Proof.
  intros []. destruct (ts_cancel_ok (sw_timers w) (ct_retransmit_timer t) 1) as (tw & _ & Hok & Ha & Hi);
    [done|by eexists|]. exists tw. split_and!; [done|done|]. rewrite Hi, bool_decide_eq_true_2 by by eexists.
  by apply insert_id.
Qed.

Lemma waiting_expire n0 y s rto pkt o k w tw dl :
  (k <= 5)%nat -> 0 <= rto -> rto * 64 < 4294967296 -> ss_is_destroying s = false ->
  waiting n0 y s rto pkt o k w -> ts_armed (sw_timers w) !! ct_retransmit_timer t = Some dl ->
  ts_ok tw -> ts_armed tw = delete (ct_retransmit_timer t) (ts_armed (sw_timers w)) ->
  ts_id tw = ts_id (sw_timers w) ->
  wp (on_retransmit_timer t) (fun _ => waiting n0 y s rto pkt o (S k)) (w <| sw_timers := tw |> <| sw_now := dl |>).
Proof.
  intros Hk H0 Hr Hs [(n & x & dl' & Hv & Hdl & Hms & Hc & Hx & Hp & Hu & Hq' & Hoc & Hnc)] Hdl' Hok Ha Hi.
  assert (dl' = dl) as -> by (pose proof (vw_rt _ _ _ _ _ _ _ _ _ _ _ Hv); congruence).
  eapply view_resend; [by eapply view_expired|done|done|unfold PJ_STUN_MAX_TRANSMIT_COUNT; lia|done|].
  intros w' H'. pose proof (retransmit_delay_ms rto (S k) x) as E. split.
  exists dl, (transmitted x), (PJ_TIME_VAL_ADD dl (retransmit_delay x)).
  assert (Em : PJ_TIME_VAL_MSEC (retransmit_delay x) = delay_ms rto (S k)).
  { apply E; [lia|done..|]. intros j [= <-]. done. }
  split_and!.
  - unfold sent in H'. rewrite Hp in H'. rewrite <- app_assoc in H'. rewrite (replicate_S_end (S k)). exact H'.
  - destruct (time_add_spec dl (retransmit_delay x)) as [_ ->]. rewrite Em, Hdl, <- Z.add_assoc. by rewrite elapsed_step.
  - exact Em.
  - unfold transmitted. cbn. rewrite Hc, u32_id; unfold is_u32; lia.
  - done.
  - done.
  - done.
  - done.
  - done.
  - done.
Qed.
End Request.

(** ** A request that nobody answers *)

(** A new transaction, when the request is sent. *)
Lemma send_request_view (Hq : quiet) server pkt w d y s (Q : Z -> W -> Prop) :
  sess_inv w -> se_sess (sw_ext w) = Some s -> ss_is_destroying s = false -> unsent w d y ->
  td_pkt y = pkt -> pkt <> [] ->
  let t := se_next (sw_ext w) in
  let y' := y <| td_client_tsx := Some t |> <| td_dst_addr := server |> in
  let s' := s <| ss_pending_request_list := d :: ss_pending_request_list s |> in
  let x := mk_client_tsx (Some d) true false true (se_rto_msec (sw_ext w)) 0 (mk_time_val 0 0) pkt in
  (forall w', view t d (sw_now w) (transmitted x) y' s' (Some (PJ_TIME_VAL_ADD (sw_now w) (retransmit_delay x))) None 1
                (se_out (sw_ext w) ++ [OutSend (td_token y) pkt server]) w' -> Q PJ_SUCCESS w') ->
  wp (send_request true server d) Q w.
Proof.
  intros HI Hs Halive Hu Hpk Hne t y' s' x HQ. pose proof (unsent_idle _ _ _ HI Hu) as Hidle.
  destruct Hu as (Hy & Hct & Hl & Hid). pose proof (si_td _ HI _ _ Hy) as Hdok.
  pose proof (do_number _ _ _ Hdok) as Hlt. assert (Htd : t <> d) by (unfold t; lia).
  destruct (entries_ne t d Htd) as (N1 & N2 & N3).
  assert (F1 : ts_id (sw_timers w) !! ct_retransmit_timer t = None)
    by (apply (si_fresh _ HI); unfold ct_retransmit_timer, t; lia).
  assert (F2 : ts_id (sw_timers w) !! ct_destroy_timer t = None)
    by (apply (si_fresh _ HI); unfold ct_destroy_timer, t; lia).
  destruct (ts_new_ok (sw_timers w) _ (si_timers _ HI) F1) as (K1 & A1 & I1).
  destruct (ts_new_ok (ts_new (sw_timers w) (ct_retransmit_timer t)) (ct_destroy_timer t)) as (K2 & A2 & I2);
    [done|rewrite I1, lookup_insert_ne by done; done|].
  assert (G1 : ts_armed (sw_timers w) !! ct_retransmit_timer t = None) by (by apply entry_fresh_idle).
  assert (G2 : ts_armed (sw_timers w) !! ct_destroy_timer t = None) by (by apply entry_fresh_idle).
  unfold send_request. wbind. apply wp_ask. wbind. unfold alloc, wp at 1. fold t.
  set (w1 := w <| sw_ext := _ |>). unfold pj_stun_client_tsx_create. wbind. apply wp_modify. set (w2 := set_field _ _ _).
  assert (H0 : view t d (sw_now w) (mk_client_tsx None true false false (se_rto_msec (sw_ext w)) 0 (mk_time_val 0 0) [])
    y s None None 0 (se_out (sw_ext w)) w2).
  { split; try done; cbn; rewrite ?A2, ?A1, ?I2, ?I1, ?lookup_insert_eq, ?lookup_insert_ne,
      ?lookup_insert_eq, ?lookup_insert_ne by done; try done. }
  clearbody w2. wbind. eapply view_upd_td; [done..|]. intros w3 H3.
  unfold pj_stun_client_tsx_set_data. wbind. wbind. eapply view_upd_ct; [done..|]. intros w4 H4. apply wp_ret.
  wbind. eapply view_upd_td; [done..|]. intros w5 H5. wbind. eapply view_get_td; [done|].
  wbind. cbn [td_pkt]. change (td_pkt _) with (td_pkt y). rewrite Hpk.
  eapply view_first_send; [done|done|exact H5|done|done|done|]. intros w6 H6. cbn [Z.eqb PJ_SUCCESS negb andb].
  wbind. unfold tsx_add. eapply view_upd_sess; [done..|]. intros w7 H7. apply wp_ret. apply HQ. exact H7.
Qed.

(** Sending an unsent request: its first transmission. *)
Lemma send_msg_view (Hq : quiet) token cache server w d y s msg msg' pkt (Q : Z -> W -> Prop) :
  sess_inv w -> se_sess (sw_ext w) = Some s -> ss_is_destroying s = false -> unsent w d y ->
  apply_msg_options s (Some (td_auth_info y)) (td_msg y) = Some (PJ_SUCCESS, msg) ->
  encode_msg msg (replicate (Z.to_nat PJ_STUN_MAX_PKT_LEN) 0) (Some (ci_auth_key (td_auth_info y))) =
    Some (PJ_SUCCESS, msg', pkt) ->
  PJ_STUN_IS_REQUEST (m_type (msg_hdr msg')) = true -> pkt <> [] ->
  let t := se_next (sw_ext w) in
  let x := mk_client_tsx (Some d) true false true (se_rto_msec (sw_ext w)) 0 (mk_time_val 0 0) pkt in
  (forall w' y' s', td_token y' = token -> td_dst_addr y' = server -> td_is_destroying y' = false ->
     td_client_tsx y' = Some t -> ss_is_destroying s' = false -> d ∈ ss_pending_request_list s' ->
     view t d (sw_now w) (transmitted x) y' s' (Some (PJ_TIME_VAL_ADD (sw_now w) (retransmit_delay x))) None 1
       (se_out (sw_ext w) ++ [OutSend token pkt server]) w' -> Q PJ_SUCCESS w') ->
  wp (pj_stun_session_send_msg token cache true server d) Q w.
Proof.
  intros HI Hs Halive Hu Ho He Hr Hne t x HQ. pose proof Hu as (Hy & Hct & Hl & Hid).
  unfold pj_stun_session_send_msg. eapply wp_alive; [done|congruence|intros _].
  wbind. eapply wp_get_sess; [done|]. wbind. eapply st_upd_td; [done|].
  wbind. eapply st_get_td; [apply lookup_insert_eq|]. wbind. eapply wp_from_option; [exact Ho|].
  wbind. eapply st_upd_td; [apply lookup_insert_eq|]. cbn [Z.eqb PJ_SUCCESS negb].
  wbind. eapply wp_from_option; [exact He|]. wbind. eapply st_upd_td; [apply lookup_insert_eq|].
  cbn [Z.eqb PJ_SUCCESS negb]. rewrite Hr.
  set (y' := _ <| td_msg := msg' |> <| td_pkt := pkt |>). set (w' := put_td d y' _).
  assert (HI' : sess_inv w').
  { apply inv_put_td with (y := y <| td_token := token |> <| td_retransmit := true |> <| td_msg := msg |>);
      [|apply lookup_insert_eq|done].
    apply inv_put_td with (y := y <| td_token := token |> <| td_retransmit := true |>);
      [|apply lookup_insert_eq|done]. by apply inv_put_td with (y := y). }
  eapply (send_request_view Hq server pkt w' d y' s); [done|done|done| |done|done|].
  { split_and!; [apply lookup_insert_eq|done..]. }
  cbn zeta. intros w2 H2. eapply HQ; [..|exact H2]; try done.
  - apply (do_alive _ _ _ (si_td _ HI _ _ Hy)).
  - apply elem_of_cons. by left.
Qed.
End Flow.

(** * STUN sessions: theorems

    A request that nobody answers is transmitted seven times and times out. *)

Section Timeout.
Context {TW : Type} `{TS : !TimerService TW} {EN : StunEnv TW}.

#[local] Abbreviation W := (stun_world TW stun_ext).

Lemma waiting_step t d n0 y s rto pkt o k w w' (Hq : quiet) (Htd : t <> d) :
  (k <= 5)%nat -> 0 <= rto -> rto * 64 < 4294967296 -> ss_is_destroying s = false ->
  waiting t d n0 y s rto pkt o k w -> expire t w w' -> waiting t d n0 y s rto pkt o (S k) w'.
Proof.
  intros Hk H0 Hr Hs Hw (dl & tw & Hdl & Hok & Ha & Hi & Hrun).
  pose proof (waiting_expire Hq t d Htd n0 y s rto pkt o k w tw dl Hk H0 Hr Hs Hw Hdl Hok Ha Hi) as H.
  apply wp_exists in H as ([] & w2 & E & H2). rewrite Hrun in E. by injection E as <-.
Qed.

Lemma waiting_progress t d n0 y s rto pkt o k w (Hq : quiet) (Htd : t <> d) :
  (k <= 5)%nat -> 0 <= rto -> rto * 64 < 4294967296 -> ss_is_destroying s = false ->
  waiting t d n0 y s rto pkt o k w -> exists w', expire t w w'.
Proof.
  intros Hk H0 Hr Hs Hw. pose proof Hw as [(n & x & dl & Hv & _)].
  destruct (view_can_expire t d _ _ _ _ _ _ _ Hv) as (tw & Hok & Ha & Hi).
  pose proof (waiting_expire Hq t d Htd n0 y s rto pkt o k w tw dl Hk H0 Hr Hs Hw (vw_rt _ _ _ _ _ _ _ _ _ _ _ Hv) Hok Ha Hi) as H.
  apply wp_exists in H as ([] & w2 & E & H2). exists w2, dl, tw. split_and!; try done. by apply Hv.
Qed.

Lemma expirations_inv t k (w w' : W) :
  expirations t (S k) w w' -> exists w1, expirations t k w w1 /\ expire t w1 w'.
Proof. intros H. inversion H; subst. eauto. Qed.

(** The state after [k] expirations. *)
Lemma waiting_expirations t d n0 y s rto pkt o w (Hq : quiet) (Htd : t <> d) :
  0 <= rto -> rto * 64 < 4294967296 -> ss_is_destroying s = false ->
  waiting t d n0 y s rto pkt o 0 w -> forall k, (k <= 6)%nat ->
  (exists wk, expirations t k w wk) /\ forall wk, expirations t k w wk -> waiting t d n0 y s rto pkt o k wk.
Proof.
  intros H0 Hr Hs Hw k Hk. induction k as [|k IH].
  - split; [exists w; constructor|]. intros wk H. by inversion H; subst.
  - destruct IH as [(wk & H1) H2]; [lia|]. split.
    + destruct (waiting_progress t d n0 y s rto pkt o k wk Hq Htd) as (w' & H'); [lia|done..|by apply H2|].
      exists w'. by econstructor.
    + intros w' (w1 & Hk1 & Hex)%expirations_inv. apply (waiting_step t d n0 y s rto pkt o k w1 w' Hq Htd); [lia|done..|apply H2, Hk1|exact Hex].
Qed.

(** The last expiration. *)
Lemma waiting_last t d n0 y s rto pkt o w (Hq : quiet) (Htd : t <> d) :
  ss_is_destroying s = false -> td_is_destroying y = false -> td_client_tsx y = Some t ->
  waiting t d n0 y s rto pkt o 6 w ->
  let R w' := exists n, PJ_TIME_VAL_MSEC n = PJ_TIME_VAL_MSEC n0 + elapsed_ms rto 6 /\
    gone t d n s (o ++ replicate 7 (OutSend (td_token y) pkt (td_dst_addr y)) ++
                  [OutComplete PJNATH_ESTUNTIMEDOUT (td_token y) d None]) w' in
  (exists w', expire t w w') /\ forall w', expire t w w' -> R w'.
Proof.
  intros Hs Hy Ht [(n & x & dl & Hv & Hdl & Hms & Hc & Hx & Hp & Hu & Hq' & Hoc & Hnc)] R.
  pose proof (vw_rt _ _ _ _ _ _ _ _ _ _ _ Hv) as Hrt.
  assert (H : forall tw, ts_ok tw -> ts_armed tw = delete (ct_retransmit_timer t) (ts_armed (sw_timers w)) ->
    ts_id tw = ts_id (sw_timers w) -> wp (on_retransmit_timer t) (fun _ => R) (w <| sw_timers := tw |> <| sw_now := dl |>)).
  { intros tw Hok Ha Hi. eapply view_timeout; [done|done| |done..| |done|done|done|].
    - eapply view_expired; [done|exact Hv|done..].
    - rewrite Hc. unfold PJ_STUN_MAX_TRANSMIT_COUNT. lia.
    - intros w' H'. exists dl. split; [done|]. by rewrite <- app_assoc in H'. }
  split.
  - destruct (view_can_expire t d _ _ _ _ _ _ _ Hv) as (tw & Hok & Ha & Hi).
    pose proof (H tw Hok Ha Hi) as H'. apply wp_exists in H' as ([] & w2 & E & H2).
    by exists w2, dl, tw.
  - intros w' (dl' & tw & Hdl' & Hok & Ha & Hi & Hrun). pose proof (H tw Hok Ha Hi) as H'.
    apply wp_exists in H' as ([] & w2 & E & H2). assert (dl' = dl) as -> by congruence.
    rewrite Hrun in E. by injection E as <-.
Qed.

(** C5: a request that nobody answers: [pj_stun_session_send_msg] transmits it
    and succeeds; whenever its timer expires it is transmitted again, after
    delays that double from the initial one [rto] ([elapsed_ms]), seven times
    in all and always the same packet; the seventh expiration, [63 rto + 1600]
    milliseconds after the first transmission, reports the timeout, once, and
    the request and its transaction are released. *)
Theorem stun_request_times_out (Hq : quiet) token cache server w d y s msg msg' pkt :
  sess_inv w -> se_sess (sw_ext w) = Some s -> ss_is_destroying s = false -> unsent w d y ->
  apply_msg_options s (Some (td_auth_info y)) (td_msg y) = Some (PJ_SUCCESS, msg) ->
  encode_msg msg (replicate (Z.to_nat PJ_STUN_MAX_PKT_LEN) 0) (Some (ci_auth_key (td_auth_info y))) =
    Some (PJ_SUCCESS, msg', pkt) ->
  PJ_STUN_IS_REQUEST (m_type (msg_hdr msg')) = true -> pkt <> [] ->
  let t := se_next (sw_ext w) in
  let rto := se_rto_msec (sw_ext w) in
  let start := PJ_TIME_VAL_MSEC (sw_now w) in
  let log w' k := se_out (sw_ext w') = se_out (sw_ext w) ++ replicate k (OutSend token pkt server) in
  0 <= rto -> rto * 64 < 4294967296 ->
  exists w1, pj_stun_session_send_msg token cache true server d w = Some (PJ_SUCCESS, w1) /\
    (forall k, (k <= 7)%nat -> exists wk, expirations t k w1 wk) /\
    (forall k wk, (k <= 6)%nat -> expirations t k w1 wk ->
       log wk (S k) /\ (exists y', se_tdata (sw_ext wk) !! d = Some y') /\
       exists dl, ts_armed (sw_timers wk) !! ct_retransmit_timer t = Some dl /\
         PJ_TIME_VAL_MSEC dl = start + elapsed_ms rto k) /\
    (forall w7, expirations t 7 w1 w7 ->
       se_out (sw_ext w7) = se_out (sw_ext w) ++ replicate 7 (OutSend token pkt server) ++
         [OutComplete PJNATH_ESTUNTIMEDOUT token d None] /\
       PJ_TIME_VAL_MSEC (sw_now w7) = start + 63 * rto + 1600 /\
       sw_tsx w7 !! t = None /\ se_tdata (sw_ext w7) !! d = None /\
       exists s', se_sess (sw_ext w7) = Some s' /\ d ∉ ss_pending_request_list s').
Proof.
  intros HI Hs Halive Hu Ho He Hr Hne t rto start log H0 Hr64.
  assert (Htd : t <> d) by (pose proof (do_number _ _ _ (si_td _ HI _ _ (proj1 Hu))); unfold t; lia).
  pose proof (send_msg_view Hq token cache server w d y s msg msg' pkt
    (fun r w1 => r = PJ_SUCCESS /\ exists y' s', td_token y' = token /\ td_dst_addr y' = server /\
       td_is_destroying y' = false /\ td_client_tsx y' = Some t /\ ss_is_destroying s' = false /\
       waiting t d (sw_now w) y' s' rto pkt (se_out (sw_ext w)) 0 w1) HI Hs Halive Hu Ho He Hr Hne) as HW.
  cbn zeta in HW. fold t rto in HW. apply wp_exists in HW as (r & w1 & E & -> & y' & s' & Hy1 & Hy2 & Hy3 & Hy4 & Hs1 & HW).
  2: { intros w' y' s' A1 A2 A3 A4 A5 A6 Hv. split; [done|]. exists y', s'. split_and!; try done. split.
    eexists _, _, _. rewrite A1, A2. split; [exact Hv|].
    set (x := mk_client_tsx _ _ _ _ _ _ _ _).
    assert (Em : PJ_TIME_VAL_MSEC (retransmit_delay x) = delay_ms rto 0)
      by (apply retransmit_delay_ms; [lia|exact H0|exact Hr64|reflexivity|reflexivity|intros j [=]]).
    destruct (time_add_spec (sw_now w) (retransmit_delay x)) as [_ ->]. rewrite Em.
    split_and!; try done. }
  pose proof (waiting_expirations t d _ y' s' rto pkt _ w1 Hq Htd H0 Hr64 Hs1 HW) as HE.
  exists w1. split; [done|]. split_and!.
  - intros k Hk. destruct (decide (k <= 6)%nat) as [H6|H6]; [by apply HE|].
    assert (k = 7%nat) as -> by lia. destruct (HE 6%nat) as [(w6 & E6) W6]; [lia|].
    destruct (waiting_last t d _ y' s' rto pkt _ w6 Hq Htd Hs1 Hy3 Hy4 (W6 _ E6)) as [(w7 & E7) _].
    exists w7. by econstructor.
  - intros k wk Hk Ek. destruct (HE k Hk) as [_ Hk']. destruct (Hk' wk Ek) as [(n & x & dl & Hv & Hdl & _)].
    rewrite Hy1, Hy2 in Hv. split_and!; [apply Hv|exists y'; apply Hv|]. exists dl. split; [apply Hv|done].
  - intros w7 E7. apply expirations_inv in E7 as (w6 & E6 & Hex). destruct (HE 6%nat) as [_ W6]; [lia|].
    destruct (waiting_last t d _ y' s' rto pkt _ w6 Hq Htd Hs1 Hy3 Hy4 (W6 _ E6)) as [_ HL].
    destruct (HL w7 Hex) as (n & Hn & [G1 G2 G3 G4 G5]). rewrite Hy1, Hy2 in G5. split_and!; try done.
    + rewrite G4, Hn. unfold elapsed_ms. rewrite decide_False by lia. unfold start. lia.
    + destruct G3 as (s2 & Es2 & Ep & _). exists s2. split; [done|]. rewrite Ep.
      intros [H _]%list_elem_of_filter. done.
Qed.
End Timeout.
