(* ===== verification/StunSessDemo.v ===== *)
(** * STUN sessions: sample sessions

    A client and a server with the real timer heap: witnesses of the theorems,
    an exchange with a long-term credential, and what the code does where it
    departs from its comments. *)

From Stdlib Require Import String.
From S2P Require Import Prelude Monad Bytes PjString TimeVal Timer TimerOps TimerSpec Digest Sha1 Md5.
From S2P Require Import Hmac Crc32 StunMsg StunAuth.
From S2P Require Import StunTsx StunSess StunSessInv StunSessSpec StunSessRun StunDemo.
Local Open Scope Z_scope.

#[local] Instance stun_demo_timers : TimerService timer_world := heap_service None None.
#[local] Abbreviation W := (stun_world timer_world stun_ext).

(** ** An application that leaves the session alone *)

#[local] Instance stun_demo_env : StunEnv timer_world := {|
  cb_on_send_msg _ _ _ w := (PJ_SUCCESS, w);
  cb_on_rx_request := Some (fun _ _ _ _ w => (PJ_SUCCESS, w));
  cb_on_request_complete := Some (fun _ _ _ _ w => w);
  cb_on_rx_indication := None;
  sv_strerror _ := [];
  sv_padding_char := 32;
  sv_address := 0;
  sv_md5 := md50; sv_sha1 := sha0; sv_hmac := hmac0;
  sv_memory := replicate 800 7;
  sv_tsx_id w := replicate 11 0 ++ [Z.of_nat (se_next (sw_ext w))]
|}.

Lemma stun_demo_quiet : quiet.
Proof. by split. Qed.

Lemma demo_calm : calm.
Proof.
  split.
  - intros token pkt dst w r w' HI [= <- <-]. split_and!; [done|apply keeps_refl|done|done].
  - intros cb pkt rdata token src w r w' HI [= <-] [= <- <-]. split; [done|apply keeps_refl].
  - intros cb status token d response w HI [= <-]. split; [done|apply keeps_refl].
  - done.
Qed.

(** ** Worlds *)

Definition fresh_world (s : pj_stun_session) : W :=
  mk_stun_world ∅ (mk_timer_world (pj_timer_heap_create 20) ∅ ∅) (mk_time_val 10 0) (mk_stun_ext ∅ (Some s) 0 100 10000 []).

Definition world_of {A} (w : W) (r : option (A * W)) : W := match r with Some (_, w') => w' | None => w end.

Definition bare : W := fresh_world (pj_stun_session_create false (lit "pjnath")).

Lemma bare_init : sess_init bare.
Proof.
  split_and!; [|done|done|done|by eexists _, _].
  split; [|split; [apply map_Forall_empty|done]].
  by apply create_inv.
Qed.

(** A binding request that was created, and then sent. *)
Definition created : W := world_of bare (pj_stun_session_create_req 1 PJ_STUN_MAGIC None bare).
Definition demo_td : pj_stun_tx_data :=
  default (mk_tx_data (mk_stun_msg (mk_stun_hdr 0 0 0 []) []) false 0 None false 0 [] false (mk_cred_info [] [] [] []) [] 0%nat)
    (se_tdata (sw_ext created) !! 0%nat).
Definition waiting_world : W := world_of created (pj_stun_session_send_msg 5 false true 9 0 created).

Lemma created_reach : reach sess_step sess_init created.
Proof.
  eapply reach_step; [apply reach_init, bare_init|]. apply sess_app; [by eexists|].
  eapply (app_create_req _ 1 PJ_STUN_MAGIC None). eexists. vm_compute. reflexivity.
Qed.

Lemma demo_unsent : unsent created 0 demo_td.
Proof. split_and!; vm_compute; reflexivity. Qed.

Lemma waiting_reach : reach sess_step sess_init waiting_world.
Proof.
  eapply reach_step; [apply created_reach|]. apply sess_app; [vm_compute; by eexists|].
  eapply (app_send _ 5 false true 9%nat 0%nat); [apply demo_unsent|]. eexists. vm_compute. reflexivity.
Qed.

(** ** Witnesses *)


Lemma stun_request_times_out_witness :
  exists pkt w1, pj_stun_session_send_msg 5 false true 9 0 created = Some (PJ_SUCCESS, w1) /\ slen pkt = 32 /\
    (exists w7, expirations 1 7 w1 w7) /\
    forall w7, expirations 1 7 w1 w7 ->
      se_out (sw_ext w7) = replicate 7 (OutSend 5 pkt 9) ++ [OutComplete PJNATH_ESTUNTIMEDOUT 5 0 None] /\
      PJ_TIME_VAL_MSEC (sw_now w7) = 17900.
Proof.
  assert (HI : sess_inv created) by apply (reach_inv demo_calm created created_reach).
  edestruct (stun_request_times_out stun_demo_quiet 5 false 9%nat created 0%nat demo_td
    (pj_stun_session_create false (lit "pjnath"))) as (w1 & E & Hx & _ & HL);
    [exact HI|vm_compute; reflexivity|reflexivity|apply demo_unsent|vm_compute; reflexivity|vm_compute; reflexivity
    |vm_compute; reflexivity|discriminate|vm_compute; discriminate|vm_compute; reflexivity|].
  eexists _, w1. split; [exact E|]. split; [|split; [exact (Hx 7%nat (le_n 7))|]].
  2: { intros w7 H7. destruct (HL w7 H7) as (H1 & H2 & _). split; [exact H1|]. rewrite H2. vm_compute. reflexivity. }
  vm_compute. reflexivity.
Defined.

(** ** An exchange with a long-term credential *)

Definition demo_cred (realm nonce : string) : pj_stun_auth_cred :=
  PJ_STUN_AUTH_CRED_STATIC (mk_static_cred (lit realm) (lit "bob") PJ_STUN_PASSWD_PLAIN (lit "secret") (lit nonce)).

Definition long_term (fingerprint : bool) (name : string) (cred : pj_stun_auth_cred) : W :=
  fresh_world (pj_stun_session_create fingerprint (lit name) <| ss_auth_type := PJ_STUN_AUTH_LONG_TERM |> <| ss_cred := cred |>).

Definition demo_client (fingerprint : bool) : W := long_term fingerprint "pjnath" (demo_cred "" "").
Definition demo_server : W := long_term false "srv" (demo_cred "pjsip.org" "xyz").

Definition last_pkt (w : W) : list Z :=
  match rev (se_out (sw_ext w)) with OutSend _ p _ :: _ => p | _ => [] end.

(** The packet [p] arrives. *)
Definition arrives (p : list Z) (w : W) : W :=
  world_of w (pj_stun_session_on_rx_pkt (p ++ replicate 8 0) (slen p) 3 6 7 w).

Definition client1 (fp : bool) : W :=
  let w := world_of (demo_client fp) (pj_stun_session_create_req 1 PJ_STUN_MAGIC None (demo_client fp)) in
  world_of w (pj_stun_session_send_msg 5 false true 9 0 w).
Definition server1 (fp : bool) : W := arrives (last_pkt (client1 fp)) demo_server.
Definition client2 (fp : bool) : W := arrives (last_pkt (server1 fp)) (client1 fp).
Definition server2 (fp : bool) : W := arrives (last_pkt (client2 fp)) (server1 fp).

(** What kind of calls the callbacks got. *)
Definition kind (o : stun_output) : Z :=
  match o with OutSend _ _ _ => 0 | OutRequest _ _ _ => 1 | OutIndication _ _ _ => 2 | OutComplete _ _ _ _ => 3 end.
Definition calls (w : W) : list Z := kind <$> se_out (sw_ext w).

(** The request, the challenge, the request again with the credential, and the
    server's application gets it. *)
Example long_term_exchange :
  calls (client1 false) = [0] /\ calls (server1 false) = [0] /\ calls (client2 false) = [0; 0] /\
  calls (server2 false) = [0; 1].
Proof. by vm_compute. Qed.

(** ** Defects *)

(** A session that uses fingerprints copies FINGERPRINT of the first request
    into the second, which cannot be encoded then: the status is dropped, the
    user is not told, and nothing more is sent. *)
Lemma fingerprint_retry_lost :
  calls (client1 true) = [0] /\ calls (client2 true) = [0] /\
  (fst <$> pj_stun_session_on_rx_pkt (last_pkt (server1 true) ++ replicate 8 0) (slen (last_pkt (server1 true))) 3 6 7
     (client1 true)) = Some (PJ_SUCCESS, slen (last_pkt (server1 true))).
Proof. by vm_compute. Qed.

Lemma request_not_response t : PJ_STUN_IS_REQUEST t = true -> PJ_STUN_IS_RESPONSE t = false.
Proof.
  unfold PJ_STUN_IS_REQUEST, PJ_STUN_IS_RESPONSE. intros H%Z.eqb_eq. apply Z.eqb_neq. intros H'.
  assert (E : Z.land (Z.land t 0x0110) 0x0100 = 0) by (by rewrite H).
  rewrite <- Z.land_assoc in E. change (Z.land 272 256) with 256 in E. lia.
Qed.

(** The response cache is never used for a request: the type of the cached
    response is compared with the type of the request. *)
Lemma cache_never_hit (msg : pj_stun_msg) src (w : W) s :
  se_sess (sw_ext w) = Some s -> PJ_STUN_IS_REQUEST (m_type (msg_hdr msg)) = true ->
  (forall d, d ∈ ss_cached_response_list s -> exists y, se_tdata (sw_ext w) !! d = Some y /\
     PJ_STUN_IS_RESPONSE (m_type (msg_hdr (td_msg y))) = true) ->
  check_cached_response msg src w = Some (PJ_ENOTFOUND, w).
Proof.
  intros Hs Ht Hl. assert (F : forall l, (forall d, d ∈ l -> exists y, se_tdata (sw_ext w) !! d = Some y /\
      PJ_STUN_IS_RESPONSE (m_type (msg_hdr (td_msg y))) = true) -> find_cached l msg w = Some (None, w)).
  { induction l as [|d l IH]; intros H; [done|]. destruct (H d) as (y & Hy & Hr); [left|].
    cbn [find_cached]. unfold mbind, M_bind, get_td. rewrite Hy. cbn [mbind option_bind].
    assert (E : (m_type (msg_hdr (td_msg y)) =? m_type (msg_hdr msg)) = false).
    { apply Z.eqb_neq. intros E. rewrite E, (request_not_response _ Ht) in Hr. done. }
    rewrite E, andb_false_r. cbn [andb]. apply IH. intros d0 H0. apply H. by right. }
  unfold check_cached_response, mbind, M_bind, get_sess. rewrite Hs. cbn [mbind option_bind].
  pose proof (F _ Hl) as E. unfold mbind, M_bind in E. by rewrite E.
Qed.

(** A response whose ERROR-CODE is at most 200 stops the retransmissions and
    completes nothing: the transaction has no timer any more. *)
Lemma provisional_stalls t x msg src code (w : W) :
  sess_inv w -> sw_tsx w !! t = Some x -> PJ_STUN_IS_ERROR_RESPONSE (m_type (msg_hdr msg)) = true ->
  find_errcode msg = Some (Some code) -> code <= 200 ->
  exists tw, pj_stun_client_tsx_on_rx_msg stun_tsx_on_complete t msg src w = Some (PJ_SUCCESS, put_timers tw w) /\
    ts_armed tw !! ct_retransmit_timer t = None.
Proof.
  intros HI Hx Ht He Hc.
  assert (H : wp (pj_stun_client_tsx_on_rx_msg stun_tsx_on_complete t msg src)
    (fun r w' => r = PJ_SUCCESS /\ exists tw, w' = put_timers tw w /\ ts_armed tw !! ct_retransmit_timer t = None) w).
  { destruct (tsx_entries w t x HI Hx) as [E1 _]. unfold pj_stun_client_tsx_on_rx_msg. rewrite Ht, andb_false_r.
    wbind. eapply wp_get_ct; [done|]. wbind. apply quiet_cancel; [apply HI|done|]. intros tw Hq Hn.
    wbind. eapply wp_from_option; [done|]. cbv beta iota.
    destruct (Z.leb_spec code 200); [|lia]. apply wp_ret. eauto. }
  apply wp_exists in H as (r & w' & E & -> & tw & -> & Hn). eauto.
Qed.

(** An application whose [on_send_msg] destroys the session. *)
Definition destroying_send (w : W) : Z * W :=
  match pj_stun_session_destroy w with Some (_, w') => (PJNATH_ESTUNDESTROYED, w') | None => (PJ_SUCCESS, w) end.

Definition destroying_env : StunEnv timer_world := {|
  cb_on_send_msg _ _ _ := destroying_send;
  cb_on_rx_request := cb_on_rx_request;
  cb_on_request_complete := cb_on_request_complete;
  cb_on_rx_indication := cb_on_rx_indication;
  sv_strerror := sv_strerror (TW := timer_world);
  sv_padding_char := sv_padding_char (TW := timer_world);
  sv_address := sv_address (TW := timer_world);
  sv_md5 := md50; sv_sha1 := sha0; sv_hmac := hmac0;
  sv_memory := sv_memory (TW := timer_world);
  sv_tsx_id := sv_tsx_id
|}.

(** A cached response is released with the session, and read afterwards. *)
Lemma cached_response_read_after_release :
  let rdata := mk_rx_data (mk_stun_msg (mk_stun_hdr 1 0 PJ_STUN_MAGIC (replicate 12 1)) []) (mk_cred_info [] [] [] []) in
  is_Some (pj_stun_session_respond rdata 0 None 5 true 9 bare) /\
  pj_stun_session_respond (EN := destroying_env) rdata 0 None 5 true 9 bare = None.
Proof. split; [vm_compute; by eexists|by vm_compute]. Qed.
