(* ===== verification/SipScan.v ===== *)
(** * Scanning SIP

    What the SIP parser adds to the scanner ([pjlib-util/scanner.c],
    [pjsip/sip_parser.c]): the flags of a scanner change while a message is
    parsed, and an error is one of two exceptions that a caller may catch and
    go on from, so a parsing function takes the scanner and gives its result
    and the scanner, or the exception and the scanner at the throw.  [Stuck]
    stands for fuel that was not enough.  Also the character classes of the
    parser and the conversion of text with escaped characters. *)

From Stdlib Require Import String.
From S2P Require Import Prelude Hash PjString Scanner.
Local Open Scope Z_scope.

(** ** The scanner and the exceptions *)

Inductive exn :=
  | PJSIP_SYN_ERR_EXCEPTION
  | PJSIP_EINVAL_ERR_EXCEPTION.

#[export] Instance exn_eq_dec : EqDecision exn.
Proof. solve_decision. Defined.

Record pj_scanner := mk_scanner { curptr : list Z; skip_ws : Z }.

#[export] Instance eta_scanner : Settable pj_scanner := fun s => mk_scanner (curptr s) (skip_ws s).

Inductive result (A : Type) :=
  | Ret (a : A) (s : pj_scanner)
  | Throw (e : exn) (s : pj_scanner)
  | Stuck.
Arguments Ret {A} a s.
Arguments Throw {A} e s.
Arguments Stuck {A}.

Definition sip (A : Type) : Type := pj_scanner -> result A.

#[export] Instance sip_ret : MRet sip := fun A a s => Ret a s.
#[export] Instance sip_bind : MBind sip := fun A B f m s =>
  match m s with Ret a s => f a s | Throw e s => Throw e s | Stuck => Stuck end.

Definition throw {A} (e : exn) : sip A := fun s => Throw e s.

(** [on_syntax_error], the callback of the scanner. *)
Definition on_syntax_error {A} : sip A := throw PJSIP_SYN_ERR_EXCEPTION.

Definition stuck {A} : sip A := fun s => Stuck.

(** A scanner call: on an error the callback throws and nothing was taken. *)
Definition call {A} (f : Z -> scan A) : sip A := fun s =>
  match f (skip_ws s) (curptr s) with
  | Some (a, r) => Ret a (s <| curptr := r |>)
  | None => on_syntax_error s
  end.

(** [*scanner->curptr], [pj_scan_is_eof] and the assignment to [skip_ws]. *)
Definition cur : sip Z := fun s => Ret (curchar (curptr s)) s.
Definition eof : sip bool := fun s => Ret (pj_scan_is_eof (curptr s)) s.
Definition get_skip_ws : sip Z := fun s => Ret (skip_ws s) s.
Definition set_skip_ws (flags : Z) : sip unit := fun s => Ret tt (s <| skip_ws := flags |>).

Definition scan_get (spec : Z -> bool) : sip (list Z) := call (fun k => pj_scan_get k spec).
Definition get_char : sip Z := call pj_scan_get_char.
Definition get_until_ch (c : Z) : sip (list Z) := call (fun k => pj_scan_get_until_ch k c).
Definition get_newline : sip unit := call (fun _ => pj_scan_get_newline).
Definition skip_whitespace : sip unit := fun s =>
  Ret tt (s <| curptr := pj_scan_skip_whitespace (skip_ws s) (curptr s) |>).

(** [pj_scan_skip_line] *)
Definition skip_line : sip unit := fun s => Ret tt (s <| curptr := pj_scan_skip_line (curptr s) |>).

(** The characters of [spec] ahead and the character after them. *)
Definition scan_peek (spec : Z -> bool) : sip (list Z * Z) := fun s =>
  match curptr s with
  | [] => on_syntax_error s
  | _ => let '(out, r) := scan_span spec (curptr s) in Ret (out, curchar r) s
  end.

Definition scan_get_n (n : nat) : sip (list Z) := call (fun k s =>
  if Nat.ltb (length s) n then None
  else Some (take n s, scan_skip_if_space k (drop n s))).

(** [pj_scan_get_quotes] after the opening quote: everything up to a closing
    quote that an even number of backslashes precedes, on the same line.
    [odd] is the parity of the backslashes before the next character. *)
Fixpoint quoted (close : Z) (odd : bool) (s : list Z) : option (list Z * list Z) :=
  match s with
  | [] => None
  | c :: s =>
      if (c =? close) && negb odd then Some ([], s)
      else if c =? 10 then None
      else
        match quoted close (if c =? 92 then negb odd else false) s with
        | Some (x, r) => Some (c :: x, r)
        | None => None
        end
  end.

(** The token with its quotes. *)
Definition scan_get_quote (begin_quote end_quote : Z) : sip (list Z) := call (fun k s =>
  match s with
  | c :: s =>
      if c =? begin_quote then
        match quoted end_quote false s with
        | Some (x, r) => Some (c :: x ++ [end_quote], scan_skip_if_space k r)
        | None => None
        end
      else None
  | [] => None
  end).

Definition run_scanner {A} (m : sip A) (flags : Z) (buf : list Z) : result A :=
  m (mk_scanner (pj_scan_init flags buf) flags).

(** ** Strings *)

(** The sign of the result is the one of [strncasecmp]. *)
Fixpoint strncasecmp (n : nat) (a b : list Z) : Z :=
  match n, a, b with
  | S n, x :: a, y :: b =>
      if pj_tolower x <? pj_tolower y then -1
      else if pj_tolower y <? pj_tolower x then 1
      else if x =? 0 then 0 else strncasecmp n a b
  | _, _, _ => 0
  end.

Definition pj_stricmp (s1 s2 : list Z) : Z :=
  if slen s1 <=? 0 then (if slen s2 <=? 0 then 0 else -1)
  else if slen s2 <=? 0 then 1
  else
    let min := if slen s1 <? slen s2 then slen s1 else slen s2 in
    let res := strncasecmp (Z.to_nat min) s1 s2 in
    if res =? 0 then
      (if slen s1 <? slen s2 then -1 else if slen s1 =? slen s2 then 0 else 1)
    else res.

(** [parser_stricmp(s1, s2) == 0] *)
Definition parser_stricmp_eq (s1 s2 : list Z) : bool := (slen s1 =? slen s2) && (pj_stricmp s1 s2 =? 0).

Definition pj_isxdigit (c : Z) : bool :=
  pj_isdigit c || ((97 <=? c) && (c <=? 102)) || ((65 <=? c) && (c <=? 70)).

(** [(c - '0') & 0x0F] and so on. *)
Definition pj_hex_digit_to_val (c : Z) : Z :=
  if c <=? 57 then Z.land (c - 48) 15
  else if c <=? 70 then Z.land (c - 65 + 10) 15
  else Z.land (c - 97 + 10) 15.

Definition hex_digit (v : Z) : Z := if v <? 10 then 48 + v else 97 + (v - 10).

Definition pj_val_to_hex_digit (value : Z) : list Z :=
  [hex_digit (Z.shiftr (Z.land value 240) 4); hex_digit (Z.land value 15)].

Fixpoint pj_str_unescape (src : list Z) : list Z :=
  match src with
  | c :: (h :: l :: r) as src' =>
      if (c =? 37) && pj_isxdigit h && pj_isxdigit l
      then (Z.shiftl (pj_hex_digit_to_val h) 4 + pj_hex_digit_to_val l) mod 256 :: pj_str_unescape r
      else c :: pj_str_unescape src'
  | c :: src' => c :: pj_str_unescape src'
  | [] => []
  end.

(** The loop of [pj_strncpy2_escape], with the room that is left. *)
Fixpoint strncpy_escape_loop (unres : Z -> bool) (src : list Z) (max : Z) : option (list Z) :=
  match src with
  | [] => Some []
  | c :: src =>
      if max <=? 0 then None
      else if unres c then cons c <$> strncpy_escape_loop unres src (max - 1)
      else if 2 <? max then
        (fun t => 37 :: pj_val_to_hex_digit c ++ t) <$> strncpy_escape_loop unres src (max - 3)
      else None
  end.

Definition pj_strncpy2_escape (src : list Z) (max : Z) (unres : Z -> bool) : option (list Z) :=
  if max <? slen src then None else strncpy_escape_loop unres src max.

(** [pj_strtol2]: the status and the value. *)
Definition PJ_MAXLONG : Z := 9223372036854775807.
Definition PJ_MINLONG : Z := -9223372036854775808.

Definition pj_strtol2 (str : list Z) : Z * Z :=
  let s := pj_strltrim str in
  match s with
  | [] => (PJ_EINVAL, 0)
  | c :: s' =>
      let is_negative := c =? 45 in
      let '(rc, retval) := pj_strtoul3 (if (c =? 43) || (c =? 45) then s' else s) in
      if rc =? PJ_EINVAL then (rc, 0)
      else if negb (rc =? PJ_SUCCESS) then
        if is_negative then (PJ_ETOOSMALL, PJ_MINLONG) else (PJ_ETOOBIG, PJ_MAXLONG)
      else if (PJ_MAXLONG <? retval) && negb is_negative then (PJ_ETOOBIG, PJ_MAXLONG)
      else if (PJ_MAXLONG + 1 <? retval) && is_negative then (PJ_ETOOSMALL, PJ_MINLONG)
      else (PJ_SUCCESS, if is_negative then s64 (- s64 retval) else retval)
  end.

(** [strtoi_validate]: the status and the value it stores, if any. *)
Definition strtoi_status (str : list Z) (min_val max_val : Z) : Z * option Z :=
  let '(status, retval) := pj_strtol2 str in
  if negb (status =? PJ_EINVAL) then
    if retval <? min_val then (PJ_ETOOSMALL, Some min_val)
    else if max_val <? retval then (PJ_ETOOBIG, Some max_val)
    else (status, Some (s32 retval))
  else (status, None).

Definition strtoi_validate (str : list Z) (min_val max_val : Z) : sip Z :=
  match strtoi_status str min_val max_val with
  | (status, Some v) => if status =? PJ_SUCCESS then mret v else throw PJSIP_EINVAL_ERR_EXCEPTION
  | (_, None) => throw PJSIP_EINVAL_ERR_EXCEPTION
  end.

(** ** The character classes of [init_parser] *)

Definition cis_alpha (c : Z) : bool := ((97 <=? c) && (c <=? 122)) || ((65 <=? c) && (c <=? 90)).
Definition cis_add (spec : Z -> bool) (s : string) (c : Z) : bool := spec c || in_set (lit s) c.
Definition cis_del (spec : Z -> bool) (s : string) (c : Z) : bool := spec c && negb (in_set (lit s) c).

(** [pj_cis_invert] leaves out the zero byte. *)
Definition cis_not (s : list Z) (c : Z) : bool := negb (c =? 0) && negb (in_set s c).

Definition MARK : string := "-_.!~*'()".
Definition PARAM_CHAR : string := "[]/:&+$-_.!~*'()%".
Definition HDR_CHAR : string := "[]/?:+$-_.!~*'()%".

Definition pjsip_DIGIT_SPEC : Z -> bool := pj_isdigit.
Definition pjsip_ALPHA_SPEC : Z -> bool := cis_alpha.
Definition pjsip_ALNUM_SPEC (c : Z) : bool := cis_alpha c || pj_isdigit c.
Definition pjsip_NOT_NEWLINE : Z -> bool := cis_not [13; 10].
Definition pjsip_NOT_COMMA_OR_NEWLINE : Z -> bool := cis_not [44; 13; 10].
Definition pjsip_TOKEN_SPEC : Z -> bool := cis_add pjsip_ALNUM_SPEC "-.!%*_`'~+".
Definition pjsip_VIA_PARAM_SPEC : Z -> bool := cis_add pjsip_TOKEN_SPEC "[:]".
Definition pjsip_HOST_SPEC : Z -> bool := cis_add pjsip_ALNUM_SPEC "_-.".
Definition pjsip_PARAM_CHAR_SPEC : Z -> bool := cis_add pjsip_ALNUM_SPEC PARAM_CHAR.
Definition pjsip_HDR_CHAR_SPEC : Z -> bool := cis_add pjsip_ALNUM_SPEC HDR_CHAR.
Definition pjsip_USER_SPEC : Z -> bool := cis_add pjsip_ALNUM_SPEC "-_.!~*'()%&=+$,;?/".
Definition pjsip_USER_SPEC_LENIENT : Z -> bool := cis_add pjsip_USER_SPEC "#".
Definition pjsip_PASSWD_SPEC : Z -> bool := cis_add pjsip_ALNUM_SPEC "-_.!~*'()%&=+$,".
Definition pjsip_PROBE_USER_HOST_SPEC : Z -> bool := cis_not [64; 32; 10; 62].
Definition pjsip_DISPLAY_SPEC : Z -> bool := cis_not [58; 13; 10; 60].
Definition pjsip_OTHER_URI_CONTENT : Z -> bool := cis_add pjsip_ALNUM_SPEC "#?;:@&=+-_.!~*'()%$,/%".

(** A token, unescaped ([PJSIP_UNESCAPE_IN_PLACE] is 0). *)
Definition parser_get_and_unescape (spec : Z -> bool) : sip (list Z) :=
  token ← scan_get spec; mret (pj_str_unescape token).

(** ** Numbers that were printed *)

Lemma foldl_digits_grows s v :
  Forall is_digit s -> 0 <= v -> v <= foldl (fun a c => 10 * a + (c - 48)) v s.
Proof.
  intros Hs. revert v. induction Hs as [|c s Hc Hs IH]; intros v Hv; cbn [foldl]; [lia|].
  unfold is_digit in Hc. specialize (IH (10 * v + (c - 48))). lia.
Qed.

Lemma strtoul3_digits s v :
  Forall is_digit s -> 0 <= v -> foldl (fun a c => 10 * a + (c - 48)) v s <= PJ_MAXULONG ->
  strtoul3_loop v s = (PJ_SUCCESS, foldl (fun a c => 10 * a + (c - 48)) v s).
Proof.
  intros Hs. revert v. induction Hs as [|c s Hc Hs IH]; intros v Hv; cbn [foldl strtoul3_loop]; [done|].
  pose proof (foldl_digits_grows s (10 * v + (c - 48)) Hs) as Hg. unfold is_digit in Hc. intros Hm.
  specialize (Hg ltac:(lia)). unfold PJ_MAXULONG in *.
  rewrite (proj2 (Z.ltb_ge c 48)), (proj2 (Z.ltb_ge 57 c)) by lia. cbn [orb].
  assert (v <= 1844674407370955161) by lia.
  change (18446744073709551615 / 10) with 1844674407370955161.
  rewrite (proj2 (Z.ltb_ge 1844674407370955161 v)) by lia.
  rewrite (proj2 (Z.ltb_ge _ (c - 48))) by lia.
  replace (v * 10 + (c - 48)) with (10 * v + (c - 48)) by lia. apply IH; lia.
Qed.

Lemma digit_not_space c : is_digit c -> pj_isspace c = false.
Proof.
  unfold is_digit, pj_isspace. intros H. rewrite (proj2 (Z.eqb_neq c 32)) by lia.
  rewrite (proj2 (Z.leb_gt c 13)) by lia. by rewrite andb_false_r.
Qed.

Lemma strtol2_utoa v : 0 <= v <= PJ_MAXLONG -> pj_strtol2 (pj_utoa v) = (PJ_SUCCESS, v).
Proof.
  unfold PJ_MAXLONG. intros Hv. assert (H64 : 0 <= v < 2 ^ 64) by lia.
  destruct (utoa_decimal v H64) as (Hd & Hf & _). pose proof (utoa_nonempty v H64) as Hn.
  destruct (pj_utoa v) as [|c s]; [done|]. inversion Hf as [|? ? Hc Hs]. subst.
  assert (Ht : pj_strltrim (c :: s) = c :: s) by (cbn [pj_strltrim]; by rewrite digit_not_space).
  unfold pj_strtol2. rewrite Ht. unfold pj_strtoul3. unfold is_digit in Hc.
  rewrite (proj2 (Z.eqb_neq c 43)), (proj2 (Z.eqb_neq c 45)) by lia. cbn [orb]. rewrite Ht.
  rewrite (proj2 (Z.ltb_ge c 48)), (proj2 (Z.ltb_ge 57 c)) by lia. cbn [orb].
  unfold decimal in *. rewrite strtoul3_digits by (done || unfold PJ_MAXULONG; lia).
  set (d := foldl _ _ _) in *. cbn -[d]. unfold PJ_MAXLONG. rewrite !andb_true_r, !andb_false_r.
  rewrite (proj2 (Z.ltb_ge _ d)) by lia. done.
Qed.

Lemma strtoi_utoa v lo hi s :
  0 <= v <= PJ_MAXINT32 -> lo <= v <= hi -> strtoi_validate (pj_utoa v) lo hi s = Ret v s.
Proof.
  unfold PJ_MAXINT32. intros Hv Hr. unfold strtoi_validate, strtoi_status.
  rewrite strtol2_utoa by (unfold PJ_MAXLONG; lia). change (PJ_SUCCESS =? PJ_EINVAL) with false. cbn [negb].
  rewrite (proj2 (Z.ltb_ge v lo)), (proj2 (Z.ltb_ge hi v)) by lia.
  rewrite s32_id by (unfold is_s32; lia). done.
Qed.

(** ** Progress

    [uses k m]: [m] does not get stuck, a success takes at least [k]
    characters, and an exception does not give any back. *)

Definition uses {A} (k : nat) (m : sip A) : Prop :=
  forall s, match m s with
            | Ret _ s' => (length (curptr s') + k <= length (curptr s))%nat
            | Throw _ s' => (length (curptr s') <= length (curptr s))%nat
            | Stuck => False
            end.

Lemma uses_ret {A} (a : A) : uses 0 (mret a : sip A).
Proof. intros s. cbn. lia. Qed.

Lemma uses_throw {A} k e : uses k (throw e : sip A).
Proof. intros s. cbn. lia. Qed.

Lemma uses_err {A} k : uses k (on_syntax_error : sip A).
Proof. apply uses_throw. Qed.

Lemma uses_weak {A} j k (m : sip A) : (k <= j)%nat -> uses j m -> uses k m.
Proof. intros Hk H s. specialize (H s). destruct (m s); [lia|done|done]. Qed.

Lemma uses_bind {A B} j k n (m : sip A) (f : A -> sip B) :
  uses j m -> (forall a, uses k (f a)) -> (n <= j + k)%nat -> uses n (mbind f m).
Proof.
  intros Hm Hf Hn s. unfold mbind, sip_bind. specialize (Hm s). destruct (m s) as [a s1|e s1|]; [|done|done].
  specialize (Hf a s1). destruct (f a s1); [lia|lia|done].
Qed.

Lemma uses_bind_0 {A B} k (m : sip A) (f : A -> sip B) :
  uses k m -> (forall a, uses 0 (f a)) -> uses k (mbind f m).
Proof. intros H1 H2. eapply uses_bind; [done..|lia]. Qed.

Lemma uses_0_bind {A B} k (m : sip A) (f : A -> sip B) :
  uses 0 m -> (forall a, uses k (f a)) -> uses k (mbind f m).
Proof. intros H1 H2. eapply uses_bind; [done..|lia]. Qed.

Lemma uses_call {A} k (f : Z -> scan A) : (forall b, takes k (f b)) -> uses k (call f).
Proof.
  intros H s. unfold call. destruct (f _ _) as [[a r]|] eqn:E; [|cbn; lia].
  apply H in E. cbn. lia.
Qed.

Lemma uses_cur : uses 0 cur. Proof. intros s. cbn. lia. Qed.
Lemma uses_eof : uses 0 eof. Proof. intros s. cbn. lia. Qed.
Lemma uses_get_skip_ws : uses 0 get_skip_ws. Proof. intros s. cbn. lia. Qed.
Lemma uses_set_skip_ws k : uses 0 (set_skip_ws k). Proof. intros s. cbn. lia. Qed.

Lemma uses_skip_whitespace : uses 0 skip_whitespace.
Proof. intros s. cbn. pose proof (skip_whitespace_length (skip_ws s) (curptr s)). lia. Qed.

Lemma uses_skip_line : uses 0 skip_line.
Proof. intros s. cbn. pose proof (skip_line_length (curptr s)). lia. Qed.

Lemma uses_scan_get spec : uses 1 (scan_get spec).
Proof. apply uses_call. intros b. apply takes_get. Qed.

Lemma uses_get_char : uses 1 get_char.
Proof. apply uses_call. intros b. apply takes_get_char. Qed.

Lemma uses_until_ch c : uses 0 (get_until_ch c).
Proof. apply uses_call. intros b. apply takes_until_ch. Qed.

Lemma uses_newline : uses 1 get_newline.
Proof.
  apply uses_call. intros _ s [] s'. unfold pj_scan_get_newline. destruct s as [|c s]; [done|].
  destruct (scan_is_newline c) eqn:E; [|done]. cbn [negb]. intros [= <-]. cbn [length].
  destruct (c =? 13) eqn:E13.
  - destruct s as [|d s]; cbn [length]; [lia|]. destruct (d =? 10); cbn [length]; lia.
  - assert (E10 : (c =? 10) = true) by (unfold scan_is_newline in E; by rewrite E13 in E).
    rewrite E10. lia.
Qed.

Lemma uses_peek spec : uses 0 (scan_peek spec).
Proof.
  intros s. unfold scan_peek. destruct (curptr s) as [|c r] eqn:E; [by cbn; rewrite E|].
  destruct (scan_span _ _). rewrite E. lia.
Qed.

Lemma uses_get_n n : uses n (scan_get_n n).
Proof.
  apply uses_call. intros b s x s'. destruct (Nat.ltb_spec (length s) n); [done|]. intros [= _ <-].
  pose proof (skip_if_length b (drop n s)) as Hd. rewrite length_drop in Hd. lia.
Qed.

Lemma quoted_length close odd s x r : quoted close odd s = Some (x, r) -> (length r < length s)%nat.
Proof.
  revert odd x r. induction s as [|c s IH]; cbn [quoted]; intros odd x r; [done|].
  destruct (_ && _); [intros [= _ <-]; cbn; lia|]. destruct (c =? 10); [done|].
  destruct (quoted close _ s) as [[y q]|] eqn:E; [|done]. intros [= _ <-]. apply IH in E. cbn. lia.
Qed.

Lemma uses_get_quote b e : uses 1 (scan_get_quote b e).
Proof.
  apply uses_call. intros k s x s'. destruct s as [|c s]; [done|]. destruct (c =? b); [|done].
  destruct (quoted e false s) as [[y r]|] eqn:E; [|done]. intros [= _ <-].
  apply quoted_length in E. pose proof (skip_if_length k r). cbn. lia.
Qed.

Lemma uses_strtoi str a b : uses 0 (strtoi_validate str a b).
Proof.
  unfold strtoi_validate. destruct (strtoi_status str a b) as [st [v|]]; [|apply uses_throw].
  destruct (st =? PJ_SUCCESS); [apply uses_ret|apply uses_throw].
Qed.

Lemma uses_unescape spec : uses 1 (parser_get_and_unescape spec).
Proof. eapply uses_bind_0; [apply uses_scan_get|intros t; apply uses_ret]. Qed.

Create HintDb uses.
#[export] Hint Resolve uses_ret uses_throw uses_err uses_cur uses_eof uses_get_skip_ws uses_set_skip_ws
  uses_skip_whitespace uses_skip_line uses_scan_get uses_get_char uses_until_ch uses_newline uses_peek
  uses_get_n uses_get_quote uses_strtoi uses_unescape : uses.
#[export] Hint Extern 2 (uses 0 ?m) =>
  lazymatch m with mbind _ _ => fail | _ => eapply (uses_weak 1 0); [lia|] end : uses.

(** Follow a parsing function; where [k] characters must be taken, the first
    call takes them or none. *)
Ltac uses :=
  repeat first
    [ solve [eauto 4 with uses]
    | match goal with
      | |- uses _ (mbind _ _) => 
          first [ apply uses_bind_0; [solve [eauto 4 with uses]|intros ?]
                | apply uses_0_bind; [|intros ?] ]
      | |- uses _ (if ?b then _ else _) => destruct b
      | |- uses _ (let '(_, _) := ?p in _) => destruct p
      | |- uses _ (let _ := _ in _) => cbv zeta
      | |- uses _ (match ?x with _ => _ end) => destruct x
      end ].
