(* ===== verification/SipUri.v ===== *)
(** * SIP URIs

    The URIs of [pjsip/sip_uri.c] and [pjsip/sip_tel_uri.c]: data, printing,
    comparison.  A parameter list is the list of its elements; cloning a URI
    copies all it points to, so a clone is the URI itself.  The function
    tables of the URIs are the constructors of [pjsip_uri].

    A printing function gets the room that is left, [endbuf - buf], and gives
    the text it writes there, or [None] for its result -1.  The settings of
    [pjsip_cfg] that the functions read are arguments. *)

From Stdlib Require Import String.
From S2P Require Import Prelude Hash PjString Scanner SipScan.
Local Open Scope Z_scope.

(** ** Data *)

Record pjsip_param := mk_param { p_name : list Z; p_value : list Z }.

Record pjsip_sip_uri := mk_sip_uri {
  u_secure : bool;
  u_user : list Z;
  u_passwd : list Z;
  u_host : list Z;
  u_port : Z;
  u_user_param : list Z;
  u_method_param : list Z;
  u_transport_param : list Z;
  u_ttl_param : Z;
  u_lr_param : bool;
  u_maddr_param : list Z;
  u_other_param : list pjsip_param;
  u_header_param : list pjsip_param
}.

#[export] Instance eta_sip_uri : Settable pjsip_sip_uri :=
  fun u => mk_sip_uri (u_secure u) (u_user u) (u_passwd u) (u_host u) (u_port u) (u_user_param u)
             (u_method_param u) (u_transport_param u) (u_ttl_param u) (u_lr_param u)
             (u_maddr_param u) (u_other_param u) (u_header_param u).

Record pjsip_other_uri := mk_other_uri { o_scheme : list Z; o_content : list Z }.

Record pjsip_tel_uri := mk_tel_uri {
  t_number : list Z;
  t_context : list Z;
  t_ext_param : list Z;
  t_isub_param : list Z;
  t_other_param : list pjsip_param
}.

#[export] Instance eta_tel_uri : Settable pjsip_tel_uri :=
  fun t => mk_tel_uri (t_number t) (t_context t) (t_ext_param t) (t_isub_param t) (t_other_param t).

(** A name address holds a URI that is none. *)
Inductive pjsip_uri :=
  | SipUri (u : pjsip_sip_uri)
  | TelUri (t : pjsip_tel_uri)
  | OtherUri (o : pjsip_other_uri).

Record pjsip_name_addr := mk_name_addr { na_display : list Z; na_uri : option pjsip_uri }.

#[export] Instance eta_name_addr : Settable pjsip_name_addr :=
  fun n => mk_name_addr (na_display n) (na_uri n).

(** What the parser of a URI or name address gives. *)
Inductive uri_or_name_addr :=
  | Uri (u : pjsip_uri)
  | NameAddr (n : pjsip_name_addr).

#[export] Instance param_eq_dec : EqDecision pjsip_param.
Proof. solve_decision. Defined.
#[export] Instance sip_uri_eq_dec : EqDecision pjsip_sip_uri.
Proof. solve_decision. Defined.
#[export] Instance other_uri_eq_dec : EqDecision pjsip_other_uri.
Proof. solve_decision. Defined.
#[export] Instance tel_uri_eq_dec : EqDecision pjsip_tel_uri.
Proof. solve_decision. Defined.
#[export] Instance uri_eq_dec : EqDecision pjsip_uri.
Proof. solve_decision. Defined.
#[export] Instance name_addr_eq_dec : EqDecision pjsip_name_addr.
Proof. solve_decision. Defined.

(** [pjsip_sip_uri_create], [pjsip_tel_uri_create], [pjsip_name_addr_create] *)
Definition pjsip_sip_uri_create (secure : bool) : pjsip_sip_uri :=
  mk_sip_uri secure [] [] [] 0 [] [] [] (-1) false [] [] [].

Definition pjsip_tel_uri_create : pjsip_tel_uri := mk_tel_uri [] [] [] [] [].

Definition pjsip_name_addr_create : pjsip_name_addr := mk_name_addr [] None.

Inductive pjsip_uri_context :=
  | PJSIP_URI_IN_REQ_URI
  | PJSIP_URI_IN_FROMTO_HDR
  | PJSIP_URI_IN_CONTACT_HDR
  | PJSIP_URI_IN_ROUTING_HDR
  | PJSIP_URI_IN_OTHER.

#[export] Instance context_eq_dec : EqDecision pjsip_uri_context.
Proof. solve_decision. Defined.

Definition pjsip_url_get_scheme (u : pjsip_sip_uri) : list Z :=
  if u_secure u then lit "sips" else lit "sip".

(** ** Printing ([print_util.h]) *)

Definition printer : Type := Z -> option (list Z).

Definition print_nothing : printer := fun room => Some [].

(** One piece after the other. *)
Definition print_seq (p q : printer) : printer := fun room =>
  a ← p room; b ← q (room - slen a); Some (a ++ b).

(** One piece after the other, with the condition in front of the second. *)
Definition print_if (b : bool) (p : printer) : printer := if b then p else print_nothing.

Fixpoint print_all (l : list printer) : printer :=
  match l with [] => print_nothing | p :: l => print_seq p (print_all l) end.

Definition copy_advance_char_check (chr : Z) : printer := fun room =>
  if room <=? 1 then None else Some [chr].

Definition copy_advance_check (str : list Z) : printer := fun room =>
  if room <=? slen str then None else Some str.

Definition copy_advance_pair_check (str1 str2 : list Z) : printer := fun room =>
  if slen str2 =? 0 then Some []
  else if room <=? slen str1 + slen str2 then None else Some (str1 ++ str2).

Definition copy_advance_pair_quote (str1 str2 : list Z) (quotebegin quoteend : Z) : printer := fun room =>
  if room <=? slen str1 + slen str2 + 2 then None
  else Some (str1 ++ [quotebegin] ++ str2 ++ [quoteend]).

Definition copy_advance_pair_quote_cond (str1 str2 : list Z) (quotebegin quoteend : Z) : printer :=
  if negb (slen str2 =? 0) && negb (curchar str2 =? quotebegin)
  then copy_advance_pair_quote str1 str2 quotebegin quoteend
  else copy_advance_pair_check str1 str2.

Definition copy_advance_escape (str : list Z) (unres : Z -> bool) : printer := fun room =>
  pj_strncpy2_escape str room unres.

Definition copy_advance_pair_escape (str1 str2 : list Z) (unres : Z -> bool) : printer := fun room =>
  if slen str2 =? 0 then Some []
  else if room <=? slen str1 + slen str2 then None
  else t ← pj_strncpy2_escape str2 (room - slen str1) unres; Some (str1 ++ t).

(** [if (endbuf - buf < n) return -1] *)
Definition need (n : Z) (p : printer) : printer := fun room => if room <? n then None else p room.

(** [printed = pj_utoa(...)]; the room was checked before. *)
Definition print_text (t : list Z) : printer := fun room => Some t.

(** ** Parameters *)

Definition param_print (p : pjsip_param) (pname_spec pvalue_spec : Z -> bool) (sep : Z) : printer :=
  print_all [
    copy_advance_char_check sep;
    copy_advance_escape (p_name p) pname_spec;
    print_if (negb (slen (p_value p) =? 0)) (print_seq (copy_advance_char_check 61)
      (if curchar (p_value p) =? 34 then copy_advance_check (p_value p)
       else copy_advance_escape (p_value p) pvalue_spec)) ].

Fixpoint pjsip_param_print_on (l : list pjsip_param) (pname_spec pvalue_spec : Z -> bool) (sep : Z) :
    printer :=
  match l with
  | [] => print_nothing
  | p :: l =>
      print_seq (param_print p pname_spec pvalue_spec sep)
        (pjsip_param_print_on l pname_spec pvalue_spec (if sep =? 63 then 38 else sep))
  end.

Fixpoint pjsip_param_find (l : list pjsip_param) (name : list Z) : option pjsip_param :=
  match l with
  | [] => None
  | p :: l => if pj_stricmp (p_name p) name =? 0 then Some p else pjsip_param_find l name
  end.

Fixpoint param_cmp_loop (l1 l2 : list pjsip_param) (ig_nf : bool) : Z :=
  match l1 with
  | [] => 0
  | p1 :: l1 =>
      match pjsip_param_find l2 (p_name p1) with
      | Some p2 =>
          let rc := pj_stricmp (p_value p1) (p_value p2) in
          if negb (rc =? 0) then rc else param_cmp_loop l1 l2 ig_nf
      | None => if negb ig_nf then 1 else param_cmp_loop l1 l2 ig_nf
      end
  end.

Definition pjsip_param_cmp (l1 l2 : list pjsip_param) (ig_nf : bool) : Z :=
  if negb ig_nf && negb (Nat.eqb (length l1) (length l2)) then 1 else param_cmp_loop l1 l2 ig_nf.

(** ** SIP URIs *)

Section config.
(** [pjsip_cfg()->endpt.allow_tx_hash_in_uri], [allow_port_in_fromto_hdr] *)
Context (allow_tx_hash_in_uri allow_port_in_fromto_hdr : bool).

Definition print_userinfo (url : pjsip_sip_uri) : printer :=
  print_if (negb (slen (u_user url) =? 0)) (print_all [
    copy_advance_escape (u_user url)
      (if allow_tx_hash_in_uri then pjsip_USER_SPEC_LENIENT else pjsip_USER_SPEC);
    print_if (negb (slen (u_passwd url) =? 0)) (print_seq
      (copy_advance_char_check 58) (copy_advance_escape (u_passwd url) pjsip_PASSWD_SPEC));
    copy_advance_char_check 64 ]).

Definition print_host (host : list Z) : printer :=
  if in_set host 58 then copy_advance_pair_quote_cond [] host 91 93 else copy_advance_check host.

Definition print_port (context : pjsip_uri_context) (port : Z) : printer :=
  print_if (negb (port =? 0) &&
            (negb (bool_decide (context = PJSIP_URI_IN_FROMTO_HDR)) || allow_port_in_fromto_hdr))
    (need 10 (print_seq (copy_advance_char_check 58) (print_text (pj_utoa (int_to_ulong port))))).

Definition print_maddr (maddr : list Z) : printer :=
  if in_set maddr 58 then copy_advance_pair_quote_cond (lit ";maddr=") maddr 91 93
  else copy_advance_pair_escape (lit ";maddr=") maddr pjsip_PARAM_CHAR_SPEC.

(** [context] is [PJSIP_URI_IN_FROMTO_HDR], and so on. *)
Definition in_fromto (context : pjsip_uri_context) : bool := bool_decide (context = PJSIP_URI_IN_FROMTO_HDR).
Definition in_contact (context : pjsip_uri_context) : bool := bool_decide (context = PJSIP_URI_IN_CONTACT_HDR).
Definition in_routing (context : pjsip_uri_context) : bool := bool_decide (context = PJSIP_URI_IN_ROUTING_HDR).
Definition in_other (context : pjsip_uri_context) : bool := bool_decide (context = PJSIP_URI_IN_OTHER).

Definition print_uri_params (context : pjsip_uri_context) (url : pjsip_sip_uri) : printer :=
  print_all [
    copy_advance_pair_check (lit ";user=") (u_user_param url);
    print_if (in_other context)
      (copy_advance_pair_escape (lit ";method=") (u_method_param url) pjsip_PARAM_CHAR_SPEC);
    print_if (negb (in_fromto context))
      (copy_advance_pair_escape (lit ";transport=") (u_transport_param url) pjsip_PARAM_CHAR_SPEC);
    print_if ((0 <=? u_ttl_param url) && negb (in_fromto context) && negb (in_routing context))
      (need 15 (print_text (lit ";ttl=" ++ pj_utoa (int_to_ulong (u_ttl_param url)))));
    print_if (negb (in_fromto context) && negb (slen (u_maddr_param url) =? 0))
      (print_maddr (u_maddr_param url));
    print_if (u_lr_param url && negb (in_fromto context) && negb (in_contact context))
      (need 3 (copy_advance_check (lit ";lr"))) ].

(** The text before the zero byte that ends it.  [size] is the size of the
    buffer. *)
Definition pjsip_url_print (context : pjsip_uri_context) (url : pjsip_sip_uri) (size : Z) : option (list Z) :=
  if size - 1 <? 0 then None
  else print_all [
    copy_advance_check (pjsip_url_get_scheme url);
    copy_advance_char_check 58;
    print_userinfo url;
    print_host (u_host url);
    print_port context (u_port url);
    print_uri_params context url;
    pjsip_param_print_on (u_other_param url) pjsip_PARAM_CHAR_SPEC pjsip_PARAM_CHAR_SPEC 59;
    print_if (in_contact context || in_other context)
      (pjsip_param_print_on (u_header_param url) pjsip_HDR_CHAR_SPEC pjsip_HDR_CHAR_SPEC 63) ] (size - 1).

(** [PJSIP_ECMPSCHEME] and so on ([sip_errno.h]). *)
Definition PJSIP_ECMPSCHEME : Z := 171080.
Definition PJSIP_ECMPUSER : Z := 171081.
Definition PJSIP_ECMPPASSWD : Z := 171082.
Definition PJSIP_ECMPHOST : Z := 171083.
Definition PJSIP_ECMPPORT : Z := 171084.
Definition PJSIP_ECMPTRANSPORTPRM : Z := 171085.
Definition PJSIP_ECMPTTLPARAM : Z := 171086.
Definition PJSIP_ECMPUSERPARAM : Z := 171087.
Definition PJSIP_ECMPMETHODPARAM : Z := 171088.
Definition PJSIP_ECMPMADDRPARAM : Z := 171089.
Definition PJSIP_ECMPOTHERPARAM : Z := 171090.
Definition PJSIP_ECMPHEADERPARAM : Z := 171091.

Fixpoint header_param_cmp (l1 l2 : list pjsip_param) : Z :=
  match l1 with
  | [] => PJ_SUCCESS
  | p1 :: l1 =>
      match pjsip_param_find l2 (p_name p1) with
      | Some p2 =>
          if negb (pj_stricmp (p_value p1) (p_value p2) =? 0) then PJSIP_ECMPHEADERPARAM
          else header_param_cmp l1 l2
      | None => PJSIP_ECMPHEADERPARAM
      end
  end.

Definition pjsip_url_compare (context : pjsip_uri_context) (url1 url2 : pjsip_sip_uri) : Z :=
  if negb (eqb (u_secure url1) (u_secure url2)) then PJSIP_ECMPSCHEME
  else if negb (pj_strcmp (u_user url1) (u_user url2) =? 0) then PJSIP_ECMPUSER
  else if negb (pj_strcmp (u_passwd url1) (u_passwd url2) =? 0) then PJSIP_ECMPPASSWD
  else if negb (pj_stricmp (u_host url1) (u_host url2) =? 0) then PJSIP_ECMPHOST
  else if negb (in_fromto context) && negb (u_port url1 =? u_port url2) then PJSIP_ECMPPORT
  else if negb (in_fromto context) && negb (pj_stricmp (u_transport_param url1) (u_transport_param url2) =? 0)
  then PJSIP_ECMPTRANSPORTPRM
  else if negb (in_fromto context) && negb (in_routing context) && negb (u_ttl_param url1 =? u_ttl_param url2)
  then PJSIP_ECMPTTLPARAM
  else if negb (pj_stricmp (u_user_param url1) (u_user_param url2) =? 0) then PJSIP_ECMPUSERPARAM
  else if in_other context && negb (pj_stricmp (u_method_param url1) (u_method_param url2) =? 0)
  then PJSIP_ECMPMETHODPARAM
  else if negb (in_fromto context) && negb (pj_stricmp (u_maddr_param url1) (u_maddr_param url2) =? 0)
  then PJSIP_ECMPMADDRPARAM
  else if negb (pjsip_param_cmp (u_other_param url1) (u_other_param url2) true =? 0)
  then PJSIP_ECMPOTHERPARAM
  else header_param_cmp (u_header_param url1) (u_header_param url2).

(** ** [tel:] URIs *)

Definition pjsip_TEL_EXT_VALUE_SPEC : Z -> bool := in_set (lit "0123456789-.()").
Definition pjsip_TEL_NUMBER_SPEC : Z -> bool := in_set (lit "0123456789aAbBcCdDeEfF*#-.()+0123456789-.()").
Definition pjsip_TEL_VISUAL_SEP_SPEC : Z -> bool := in_set (lit "-.()").
Definition pjsip_TEL_PHONE_CONTEXT_SPEC : Z -> bool := cis_add pjsip_ALNUM_SPEC "+0123456789-.()".
Definition pjsip_TEL_URIC_SPEC : Z -> bool := cis_add pjsip_ALNUM_SPEC "/:@&$,+0123456789-_.!~*'()%[]+".
Definition pjsip_TEL_PNAME_SPEC : Z -> bool := cis_add pjsip_ALNUM_SPEC "-".
Definition pjsip_TEL_PVALUE_SPEC : Z -> bool := cis_add pjsip_ALNUM_SPEC "[]/:&+$0123456789-_.!~*'()%".
Definition pjsip_TEL_PARSING_PVALUE_SPEC (c : Z) : bool :=
  pjsip_TEL_URIC_SPEC c || pjsip_TEL_PVALUE_SPEC c || in_set (lit "=") c.

Definition tel_uri_print (uri : pjsip_tel_uri) (size : Z) : option (list Z) :=
  print_all [
    copy_advance_check (lit "tel");
    copy_advance_char_check 58;
    copy_advance_escape (t_number uri) pjsip_TEL_NUMBER_SPEC;
    copy_advance_pair_escape (lit ";ext=") (t_ext_param uri) pjsip_TEL_EXT_VALUE_SPEC;
    copy_advance_pair_escape (lit ";isub=") (t_isub_param uri) pjsip_TEL_URIC_SPEC;
    copy_advance_pair_escape (lit ";phone-context=") (t_context uri) pjsip_TEL_PHONE_CONTEXT_SPEC;
    pjsip_param_print_on (t_other_param uri) pjsip_TEL_PNAME_SPEC pjsip_TEL_PVALUE_SPEC 59 ] (size - 1).

(** The loop of [pjsip_tel_nb_cmp] drops the separators of either number. *)
Fixpoint skip_visual_sep (s : list Z) : list Z :=
  match s with c :: s' => if pjsip_TEL_VISUAL_SEP_SPEC c then skip_visual_sep s' else s | [] => [] end.

(** Its turns; every turn drops a character of [s1] or of [s2]. *)
Fixpoint tel_nb_cmp_loop (fuel : nat) (s1 s2 : list Z) : option (Z + list Z * list Z) :=
  match fuel with
  | O => None
  | S fuel =>
      match s1, s2 with
      | c1 :: r1, c2 :: r2 =>
          if pjsip_TEL_VISUAL_SEP_SPEC c1 then tel_nb_cmp_loop fuel r1 s2
          else if pjsip_TEL_VISUAL_SEP_SPEC c2 then tel_nb_cmp_loop fuel s1 r2
          else
            let diff := pj_tolower c1 - pj_tolower c2 in
            if diff =? 0 then tel_nb_cmp_loop fuel r1 r2 else Some (inl diff)
      | _, _ => Some (inr (s1, s2))
      end
  end.

Definition pjsip_tel_nb_cmp (number1 number2 : list Z) : option Z :=
  match tel_nb_cmp_loop (S (length number1 + length number2)) number1 number2 with
  | None => None
  | Some (inl diff) => Some diff
  | Some (inr (s1, s2)) =>
      match skip_visual_sep s1, skip_visual_sep s2 with
      | [], [] => Some 0
      | [], _ => Some (-1)
      | _, _ => Some 1
      end
  end.

Fixpoint tel_param_cmp (l1 l2 : list pjsip_param) : Z :=
  match l1 with
  | [] => 0
  | p1 :: l1 =>
      match pjsip_param_find l2 (p_name p1) with
      | None => 1
      | Some p2 =>
          let result := pj_stricmp (p_value p1) (p_value p2) in
          if negb (result =? 0) then result else tel_param_cmp l1 l2
      end
  end.

Definition tel_other_param_cmp (l1 l2 : list pjsip_param) : Z :=
  match l1, l2 with
  | _ :: _, _ =>
      let result := tel_param_cmp l1 l2 in
      if negb (result =? 0) then result
      else if Nat.ltb (length l1) (length l2) then -1
      else if Nat.ltb (length l2) (length l1) then 1 else 0
  | [], _ :: _ => -1
  | [], [] => 0
  end.

Definition tel_context_cmp (context1 context2 : list Z) : option Z :=
  if negb (slen context1 =? 0) then
    if negb (curchar context1 =? 43) then Some (pj_stricmp context1 context2)
    else pjsip_tel_nb_cmp context1 context2
  else Some (if negb (slen context2 =? 0) then -1 else 0).

Definition tel_uri_cmp (url1 url2 : pjsip_tel_uri) : option Z :=
  result ← pjsip_tel_nb_cmp (t_number url1) (t_number url2);
  if negb (result =? 0) then Some result
  else
    result ← tel_context_cmp (t_context url1) (t_context url2);
    if negb (result =? 0) then Some result
    else
      result ← (if slen (t_ext_param url1) =? 0 then Some 0
                else pjsip_tel_nb_cmp (t_ext_param url1) (t_ext_param url2));
      if negb (result =? 0) then Some result
      else
        let result := if slen (t_isub_param url1) =? 0 then 0
                      else pj_stricmp (t_isub_param url1) (t_isub_param url2) in
        if negb (result =? 0) then Some result
        else Some (tel_other_param_cmp (t_other_param url1) (t_other_param url2)).

(** ** Other URIs *)

Definition other_uri_print (uri : pjsip_other_uri) (size : Z) : option (list Z) :=
  if s32 size <? slen (o_scheme uri) + slen (o_content uri) + 1 then None
  else print_all [
    copy_advance_check (o_scheme uri);
    copy_advance_char_check 58;
    copy_advance_check (o_content uri) ] (size - 1).

Definition other_uri_cmp (uri1 uri2 : pjsip_other_uri) : Z :=
  if negb (pj_stricmp (o_scheme uri1) (o_scheme uri2) =? 0) then PJSIP_ECMPSCHEME
  else if negb (pj_stricmp (o_content uri1) (o_content uri2) =? 0) then -1
  else 0.

(** ** Any URI *)

(** The URIs of a comparison through the function table of the first; one of
    another kind is another table. *)
Definition pjsip_uri_print (context : pjsip_uri_context) (uri : pjsip_uri) (size : Z) : option (list Z) :=
  match uri with
  | SipUri u => pjsip_url_print context u size
  | TelUri t => tel_uri_print t size
  | OtherUri o => other_uri_print o size
  end.

Definition pjsip_uri_cmp (context : pjsip_uri_context) (uri1 uri2 : pjsip_uri) : option Z :=
  match uri1, uri2 with
  | SipUri u1, SipUri u2 => Some (pjsip_url_compare context u1 u2)
  | SipUri _, _ => Some PJSIP_ECMPSCHEME
  | TelUri t1, TelUri t2 => tel_uri_cmp t1 t2
  | TelUri _, _ => Some (-1)
  | OtherUri o1, OtherUri o2 => Some (other_uri_cmp o1 o2)
  | OtherUri _, _ => Some (-1)
  end.

(** [printed < 1] is a failure. *)
Definition print_uri_in (context : pjsip_uri_context) (uri : pjsip_uri) : printer := fun room =>
  t ← pjsip_uri_print context uri room; if slen t <? 1 then None else Some t.

(** [None] for a missing URI, which the code dereferences. *)
Definition pjsip_name_addr_print (context : pjsip_uri_context) (name : pjsip_name_addr) (size : Z) :
    option (list Z) :=
  uri ← na_uri name;
  let bracket := negb (bool_decide (context = PJSIP_URI_IN_REQ_URI)) in
  print_all [
    print_if bracket (print_seq
      (print_if (negb (slen (na_display name) =? 0))
         (need (slen (na_display name) + 3) (print_all [
            copy_advance_char_check 34; copy_advance_check (na_display name);
            copy_advance_char_check 34; copy_advance_char_check 32 ])))
      (copy_advance_char_check 60));
    print_uri_in context uri;
    print_if bracket (copy_advance_char_check 62) ] (size - 1).

Definition pjsip_name_addr_compare (context : pjsip_uri_context) (naddr1 naddr2 : pjsip_name_addr) :
    option Z :=
  if negb (pj_strcmp (na_display naddr1) (na_display naddr2) =? 0) then Some (-1)
  else
    uri1 ← na_uri naddr1; uri2 ← na_uri naddr2;
    pjsip_uri_cmp context uri1 uri2.
End config.
