(* ===== verification/SipUriParse.v ===== *)
(** * Parsing URIs

    The part of [pjsip/sip_parser.c] and [pjsip/sip_tel_uri.c] that reads
    URIs, name addresses and parameters.  A loop over the input has as many
    turns as there are characters left, plus one. *)

From Stdlib Require Import String.
From S2P Require Import Prelude Hash PjString Scanner SipScan SipUri.
Local Open Scope Z_scope.

(** ** Loops *)

(** [while (test( *scanner->curptr)) a = body(a)] *)
Fixpoint while_loop {A} (fuel : nat) (test : Z -> bool) (body : A -> sip A) (a : A) : sip A :=
  c ← cur;
  if test c then
    match fuel with
    | O => stuck
    | S fuel => a ← body a; while_loop fuel test body a
    end
  else mret a.

Definition turns : sip nat := fun s => Ret (length (curptr s)) s.

Definition while_cur {A} (test : Z -> bool) (body : A -> sip A) (a : A) : sip A :=
  n ← turns; while_loop n test body a.

Definition is_char (c d : Z) : bool := d =? c.

(** ** Parameters *)

(** [esc]: the parameter is unescaped; [remove_quote]: the option
    [PJSIP_PARSE_REMOVE_QUOTE]. *)
Definition get_word (esc : bool) (spec : Z -> bool) : sip (list Z) :=
  if esc then parser_get_and_unescape spec else scan_get spec.

Definition parse_param_imp (spec : Z -> bool) (esc remove_quote : bool) : sip pjsip_param :=
  pname ← get_word esc spec;
  c ← cur;
  if c =? 61 then
    _ ← get_char;
    e ← eof;
    if e : bool then mret (mk_param pname []) else
    c ← cur;
    if c =? 34 then
      pvalue ← scan_get_quote 34 34;
      mret (mk_param pname (if remove_quote then removelast (tail pvalue) else pvalue))
    else if spec c then
      pvalue ← get_word esc spec;
      mret (mk_param pname pvalue)
    else mret (mk_param pname [])
  else mret (mk_param pname []).

Definition pjsip_parse_param_imp (remove_quote : bool) : sip pjsip_param :=
  parse_param_imp pjsip_TOKEN_SPEC false remove_quote.

Definition pjsip_parse_uri_param_imp (remove_quote : bool) : sip pjsip_param :=
  parse_param_imp pjsip_PARAM_CHAR_SPEC true remove_quote.

Definition int_parse_param (remove_quote : bool) : sip pjsip_param :=
  _ ← get_char; pjsip_parse_param_imp remove_quote.

Definition int_parse_uri_param (remove_quote : bool) : sip pjsip_param :=
  _ ← get_char; pjsip_parse_uri_param_imp remove_quote.

Definition int_parse_hparam : sip pjsip_param :=
  _ ← get_char;
  hname ← parser_get_and_unescape pjsip_HDR_CHAR_SPEC;
  c ← cur;
  if c =? 61 then
    _ ← get_char;
    e ← eof;
    c ← cur;
    if negb e && pjsip_HDR_CHAR_SPEC c then
      hvalue ← parser_get_and_unescape pjsip_HDR_CHAR_SPEC;
      mret (mk_param hname hvalue)
    else mret (mk_param hname [])
  else mret (mk_param hname []).

(** ** Hosts and users *)

Definition int_parse_host : sip (list Z) :=
  c ← cur;
  if c =? 91 then
    _ ← get_char;
    host ← get_until_ch 93;
    _ ← get_char;
    mret host
  else scan_get pjsip_HOST_SPEC.

Definition PJSIP_MAX_PORT : Z := 65535.
Definition PJSIP_MAX_TTL : Z := 255.

Definition int_parse_uri_host_port : sip (list Z * Z) :=
  host ← int_parse_host;
  c ← cur;
  if c =? 58 then
    _ ← get_char;
    port ← scan_get pjsip_DIGIT_SPEC;
    p ← strtoi_validate port 0 PJSIP_MAX_PORT;
    mret (host, p)
  else mret (host, 0).

Definition int_is_next_user : sip bool :=
  '(_, c) ← scan_peek pjsip_PROBE_USER_HOST_SPEC; mret (c =? 64).

Definition int_parse_user_pass : sip (list Z * list Z) :=
  user ← parser_get_and_unescape pjsip_USER_SPEC_LENIENT;
  c ← cur;
  pass ← (if c =? 58 then _ ← get_char; parser_get_and_unescape pjsip_PASSWD_SPEC else mret []);
  _ ← get_char;
  mret (user, pass).

(** ** SIP URIs *)

(** One parameter of the URI, stored in its place. *)
Definition store_uri_param (url : pjsip_sip_uri) (p : pjsip_param) : sip pjsip_sip_uri :=
  let name := p_name p in
  let value := p_value p in
  let some := negb (slen value =? 0) in
  if parser_stricmp_eq name (lit "user") && some then mret (url <| u_user_param := value |>)
  else if parser_stricmp_eq name (lit "method") && some then mret (url <| u_method_param := value |>)
  else if parser_stricmp_eq name (lit "transport") && some then mret (url <| u_transport_param := value |>)
  else if parser_stricmp_eq name (lit "ttl") && some then
    ttl ← strtoi_validate value 0 PJSIP_MAX_TTL; mret (url <| u_ttl_param := ttl |>)
  else if parser_stricmp_eq name (lit "maddr") && some then mret (url <| u_maddr_param := value |>)
  else if parser_stricmp_eq name (lit "lr") then mret (url <| u_lr_param := true |>)
  else mret (url <| u_other_param := u_other_param url ++ [p] |>).

Definition uri_param (url : pjsip_sip_uri) : sip pjsip_sip_uri :=
  p ← int_parse_uri_param false; store_uri_param url p.

Definition header_param (url : pjsip_sip_uri) : sip pjsip_sip_uri :=
  p ← int_parse_hparam; mret (url <| u_header_param := u_header_param url ++ [p] |>).

Definition int_parse_sip_url (parse_params : bool) : sip pjsip_uri :=
  flags ← get_skip_ws;
  _ ← set_skip_ws 0;
  scheme ← scan_get pjsip_TOKEN_SPEC;
  colon ← get_char;
  if negb (colon =? 58) then on_syntax_error else
  url ← (if parser_stricmp_eq scheme (lit "sip") then mret (pjsip_sip_uri_create false)
         else if parser_stricmp_eq scheme (lit "sips") then mret (pjsip_sip_uri_create true)
         else on_syntax_error);
  is_user ← int_is_next_user;
  '(user, pass) ← (if is_user : bool then int_parse_user_pass else mret ([], []));
  '(host, port) ← int_parse_uri_host_port;
  let url := url <| u_user := user |> <| u_passwd := pass |> <| u_host := host |> <| u_port := port |> in
  url ← (if parse_params then while_cur (is_char 59) uri_param url else mret url);
  c ← cur;
  url ← (if parse_params && (c =? 63) then
           url ← header_param url; while_cur (is_char 38) header_param url
         else mret url);
  _ ← set_skip_ws flags;
  _ ← skip_whitespace;
  mret (SipUri url).

(** ** [tel:] URIs *)

Definition tel_param (uri : pjsip_tel_uri) : sip pjsip_tel_uri :=
  _ ← get_char;
  pname ← scan_get pjsip_PARAM_CHAR_SPEC;
  c ← cur;
  pvalue ← (if c =? 61 then _ ← get_char; parser_get_and_unescape pjsip_TEL_PARSING_PVALUE_SPEC
            else mret []);
  if pj_stricmp pname (lit "isub") =? 0 then mret (uri <| t_isub_param := pvalue |>)
  else if pj_stricmp pname (lit "ext") =? 0 then mret (uri <| t_ext_param := pvalue |>)
  else if pj_stricmp pname (lit "phone-context") =? 0 then mret (uri <| t_context := pvalue |>)
  else mret (uri <| t_other_param := t_other_param uri ++ [mk_param pname pvalue] |>).

Definition tel_uri_parse (parse_params : bool) : sip pjsip_uri :=
  flags ← get_skip_ws;
  _ ← set_skip_ws 0;
  token ← scan_get pjsip_TOKEN_SPEC;
  colon ← get_char;
  if negb (colon =? 58) then on_syntax_error
  else if negb (pj_stricmp token (lit "tel") =? 0) then on_syntax_error else
  number ← parser_get_and_unescape pjsip_TEL_NUMBER_SPEC;
  let uri := pjsip_tel_uri_create <| t_number := number |> in
  uri ← (if parse_params then while_cur (is_char 59) tel_param uri else mret uri);
  _ ← set_skip_ws flags;
  _ ← skip_whitespace;
  mret (TelUri uri).

(** ** Other URIs *)

Definition int_parse_other_uri (parse_params : bool) : sip pjsip_uri :=
  flags ← get_skip_ws;
  _ ← set_skip_ws 0;
  scheme ← scan_get pjsip_TOKEN_SPEC;
  colon ← get_char;
  if negb (colon =? 58) then on_syntax_error else
  content ← scan_get pjsip_OTHER_URI_CONTENT;
  _ ← set_skip_ws flags;
  mret (OtherUri (mk_other_uri scheme content)).

(** ** Any URI *)

(** The parsers that [init_parser] and [pjsip_tel_uri_subsys_init] register. *)
Definition uri_handler : list (list Z * (bool -> sip pjsip_uri)) :=
  [(lit "sip", int_parse_sip_url); (lit "sips", int_parse_sip_url); (lit "tel", tel_uri_parse)].

Fixpoint find_uri_handler_in (handlers : list (list Z * (bool -> sip pjsip_uri))) (scheme : list Z) :
    bool -> sip pjsip_uri :=
  match handlers with
  | [] => int_parse_other_uri
  | (name, parse) :: handlers =>
      if parser_stricmp_eq name scheme then parse else find_uri_handler_in handlers scheme
  end.

Definition find_uri_handler (scheme : list Z) : bool -> sip pjsip_uri :=
  find_uri_handler_in uri_handler scheme.

Definition int_parse_uri (parse_params : bool) : sip pjsip_uri :=
  '(scheme, colon) ← scan_peek pjsip_TOKEN_SPEC;
  if negb (colon =? 58) then on_syntax_error else find_uri_handler scheme parse_params.

Fixpoint pj_strrtrim_rev (s : list Z) : list Z :=
  match s with c :: s' => if pj_isspace c then pj_strrtrim_rev s' else s | [] => [] end.

Definition pj_strtrim (s : list Z) : list Z := rev (pj_strrtrim_rev (rev (pj_strltrim s))).

(** The display name, quoted or not. *)
Definition parse_display : sip (list Z) :=
  c ← cur;
  if c =? 34 then d ← scan_get_quote 34 34; mret (removelast (tail d))
  else if negb (c =? 60) then
    '(_, next) ← scan_peek pjsip_DISPLAY_SPEC;
    if next =? 60 then d ← get_until_ch 60; mret (pj_strtrim d) else mret []
  else mret [].

Definition int_parse_name_addr : sip pjsip_name_addr :=
  display ← parse_display;
  _ ← skip_whitespace;
  c ← cur;
  let has_bracket := c =? 60 in
  _ ← (if has_bracket then _ ← get_char; mret tt
       else if negb (slen display =? 0) then on_syntax_error else mret tt);
  uri ← int_parse_uri true;
  _ ← (if has_bracket then c ← get_char; if negb (c =? 62) then on_syntax_error else mret tt
       else mret tt);
  mret (mk_name_addr display (Some uri)).

(** The options [PJSIP_PARSE_URI_AS_NAMEADDR] and
    [PJSIP_PARSE_URI_IN_FROM_TO_HDR]. *)
Definition int_parse_uri_or_name_addr (as_nameaddr in_from_to : bool) : sip uri_or_name_addr :=
  _ ← skip_whitespace;
  c ← cur;
  if (c =? 34) || (c =? 60) then n ← int_parse_name_addr; mret (NameAddr n)
  else
    '(scheme, next_ch) ← scan_peek pjsip_DISPLAY_SPEC;
    if next_ch =? 58 then
      uri ← find_uri_handler scheme (negb in_from_to);
      mret (if as_nameaddr then NameAddr (pjsip_name_addr_create <| na_uri := Some uri |>) else Uri uri)
    else n ← int_parse_name_addr; mret (NameAddr n).

(** [pjsip_parse_uri]: all of the input, or up to a newline; [None] when the
    fuel was not enough. *)
Definition pjsip_parse_uri (buf : list Z) (as_nameaddr in_from_to : bool) :
    option (option uri_or_name_addr) :=
  match run_scanner (int_parse_uri_or_name_addr as_nameaddr in_from_to) 0 buf with
  | Stuck => None
  | Throw _ _ => Some None
  | Ret uri s =>
      if pj_scan_is_eof (curptr s) || scan_is_newline (curchar (curptr s)) then Some (Some uri)
      else Some None
  end.

(** ** Progress *)

Lemma uses_while_loop {A} test (body : A -> sip A) n a s :
  test 0 = false -> (forall a, uses 1 (body a)) -> (length (curptr s) <= n)%nat ->
  match while_loop n test body a s with
  | Ret _ s' | Throw _ s' => (length (curptr s') <= length (curptr s))%nat
  | Stuck => False
  end.
Proof.
  intros H0 Hb. revert s a. induction n as [|n IH]; intros s a Hn; cbn [while_loop]; unfold mbind, sip_bind, cur.
  - destruct (curptr s) as [|c r] eqn:E; cbn in Hn; [|lia]. cbn [curchar]. rewrite H0. cbn. by rewrite E.
  - cbv beta iota. destruct (test (curchar (curptr s))); [|cbn; lia]. specialize (Hb a s). destruct (body a s) as [a' s'|e s'|]; [|done|done].
    specialize (IH s' a' ltac:(lia)). destruct (while_loop _ _ _ _ _); lia || done.
Qed.

Lemma uses_while {A} test (body : A -> sip A) a :
  test 0 = false -> (forall a, uses 1 (body a)) -> uses 0 (while_cur test body a).
Proof.
  intros H0 Hb s. unfold while_cur, turns, mbind, sip_bind.
  pose proof (uses_while_loop test body _ a s H0 Hb (le_n _)) as H.
  destruct (while_loop _ _ _ _ _); [|lia|done]. lia.
Qed.

Lemma uses_word esc spec : uses 1 (get_word esc spec).
Proof. destruct esc; cbn [get_word]; uses. Qed.
#[export] Hint Resolve uses_word : uses.

Lemma uses_param spec esc q : uses 1 (parse_param_imp spec esc q).
Proof. unfold parse_param_imp. uses. Qed.
#[export] Hint Resolve uses_param : uses.

Lemma uses_int_param q : uses 2 (int_parse_param q).
Proof. eapply uses_bind; [apply uses_get_char|intros _; apply uses_param|lia]. Qed.

Lemma uses_uri_param q : uses 2 (int_parse_uri_param q).
Proof. eapply uses_bind; [apply uses_get_char|intros _; apply uses_param|lia]. Qed.

Lemma uses_hparam : uses 1 int_parse_hparam.
Proof. unfold int_parse_hparam. uses. Qed.

Lemma uses_host : uses 1 int_parse_host.
Proof. unfold int_parse_host. uses. Qed.

Lemma uses_host_port : uses 1 int_parse_uri_host_port.
Proof. unfold int_parse_uri_host_port. eapply uses_bind_0; [apply uses_host|]. intros h. uses. Qed.

Lemma uses_user_pass : uses 1 int_parse_user_pass.
Proof. unfold int_parse_user_pass. uses. Qed.
#[export] Hint Resolve uses_hparam uses_host uses_host_port uses_user_pass : uses.

Lemma uses_url_param url : uses 1 (uri_param url).
Proof.
  unfold uri_param, store_uri_param.
  eapply uses_bind_0; [eapply (uses_weak 2); [lia|apply uses_uri_param]|]. intros p. uses.
Qed.

Lemma uses_url_header url : uses 1 (header_param url).
Proof. unfold header_param. uses. Qed.

Lemma uses_tel_param uri : uses 1 (tel_param uri).
Proof. unfold tel_param. uses. Qed.

#[export] Hint Resolve uses_url_param uses_url_header uses_tel_param : uses.
#[export] Hint Extern 1 (uses 0 (while_cur _ _ _)) => apply uses_while; [done|intros; solve [eauto with uses]] : uses.

Lemma uses_sip_url b : uses 1 (int_parse_sip_url b).
Proof. unfold int_parse_sip_url, int_is_next_user. uses. Qed.

Lemma uses_tel_uri b : uses 1 (tel_uri_parse b).
Proof. unfold tel_uri_parse. uses. Qed.

Lemma uses_other_uri b : uses 1 (int_parse_other_uri b).
Proof. unfold int_parse_other_uri. uses. Qed.

Lemma uses_handler scheme b : uses 1 (find_uri_handler scheme b).
Proof.
  unfold find_uri_handler, uri_handler. cbn [find_uri_handler_in].
  repeat destruct (parser_stricmp_eq _ scheme); [apply uses_sip_url|apply uses_sip_url|apply uses_tel_uri|].
  apply uses_other_uri.
Qed.
#[export] Hint Resolve uses_handler : uses.

Lemma uses_uri b : uses 1 (int_parse_uri b).
Proof. unfold int_parse_uri. uses. Qed.
#[export] Hint Resolve uses_uri : uses.

Lemma uses_display : uses 0 parse_display.
Proof. unfold parse_display. uses. Qed.
#[export] Hint Resolve uses_display : uses.

Lemma uses_name_addr : uses 1 int_parse_name_addr.
Proof. unfold int_parse_name_addr. uses. Qed.
#[export] Hint Resolve uses_name_addr : uses.

Lemma uses_uri_or_name_addr a b : uses 1 (int_parse_uri_or_name_addr a b).
Proof. unfold int_parse_uri_or_name_addr. uses. Qed.
#[export] Hint Resolve uses_uri_or_name_addr : uses.

Lemma parse_uri_total buf a b : exists r, pjsip_parse_uri buf a b = Some r.
Proof.
  unfold pjsip_parse_uri, run_scanner.
  pose proof (uses_uri_or_name_addr a b (mk_scanner (pj_scan_init 0 buf) 0)) as H.
  destruct (int_parse_uri_or_name_addr a b _) as [u s|e s|]; [|by eexists|done].
  destruct (_ || _); by eexists.
Qed.
