(* ===== verification/SipUriText.v ===== *)
(** * The text of a URI

    What the printing functions of [SipUri] write, without the room: every
    printing function gives exactly its text, or nothing; it stays inside its
    room; and it succeeds when there are sixteen more bytes than the text
    needs.  Escaping is undone by [pj_str_unescape]. *)

From Stdlib Require Import String.
From S2P Require Import Prelude Hash PjString Scanner SipScan SipUri.
Local Open Scope Z_scope.

(** ** Escaped text *)

Definition escape_char (unres : Z -> bool) (c : Z) : list Z :=
  if unres c then [c] else 37 :: pj_val_to_hex_digit c.

Fixpoint escape (unres : Z -> bool) (s : list Z) : list Z :=
  match s with [] => [] | c :: s => escape_char unres c ++ escape unres s end.

Definition is_byte (c : Z) : Prop := 0 <= c < 256.

(** No part of the text reads as an escaped character: the printing functions
    leave a percent sign as it is. *)
Fixpoint no_escapes (s : list Z) : bool :=
  match s with
  | c :: (h :: l :: _) as s' => negb ((c =? 37) && pj_isxdigit h && pj_isxdigit l) && no_escapes s'
  | _ => true
  end.

Definition plain (s : list Z) : Prop := Forall is_byte s /\ no_escapes s = true.

#[export] Instance plain_dec s : Decision (plain s).
Proof. unfold plain, is_byte. apply _. Defined.

Lemma escape_length unres s : slen s <= slen (escape unres s) <= 3 * slen s.
Proof.
  induction s as [|c s IH]; cbn [escape]; [by cbn|]. rewrite slen_app, slen_cons.
  unfold escape_char. destruct (unres c).
  - change (slen [c]) with 1. lia.
  - change (slen (37 :: pj_val_to_hex_digit c)) with 3. lia.
Qed.

Lemma escape_nonempty unres s : s <> [] -> escape unres s <> [].
Proof.
  intros H E. destruct s as [|c s]; [done|]. cbn [escape] in E. apply app_nil in E as [E _].
  revert E. unfold escape_char. by destruct (unres c).
Qed.

Lemma escape_loop_spec unres s room t :
  0 <= room -> strncpy_escape_loop unres s room = Some t -> t = escape unres s /\ slen t <= room.
Proof.
  revert room t. induction s as [|c s IH]; intros room t Hr; cbn [strncpy_escape_loop escape].
  - intros [= <-]. by cbn.
  - destruct (Z.leb_spec room 0); [done|]. unfold escape_char. destruct (unres c).
    + destruct (strncpy_escape_loop unres s (room - 1)) as [u|] eqn:E; [|done]. intros [= <-].
      apply IH in E as [-> Hl]; [|lia]. split; [done|]. rewrite slen_cons. lia.
    + destruct (Z.ltb_spec 2 room); [|done].
      destruct (strncpy_escape_loop unres s (room - 3)) as [u|] eqn:E; [|done]. intros [= <-].
      apply IH in E as [-> Hl]; [|lia]. split; [done|].
      change (slen (37 :: pj_val_to_hex_digit c ++ escape unres s) <= room). rewrite slen_cons, slen_app.
      change (slen (pj_val_to_hex_digit c)) with 2. lia.
Qed.

Lemma escape_loop_fits unres s room :
  slen (escape unres s) <= room -> strncpy_escape_loop unres s room = Some (escape unres s).
Proof.
  revert room. induction s as [|c s IH]; intros room; cbn [strncpy_escape_loop escape]; [done|].
  rewrite slen_app. pose proof (slen_nonneg (escape unres s)). unfold escape_char.
  destruct (unres c).
  - change (slen [c]) with 1. intros Hr. destruct (Z.leb_spec room 0); [lia|]. by rewrite IH by lia.
  - change (slen (37 :: pj_val_to_hex_digit c)) with 3. intros Hr.
    destruct (Z.leb_spec room 0), (Z.ltb_spec 2 room); try lia. by rewrite IH by lia.
Qed.

(** ** What a printing function prints *)

Definition slack : Z := 15.

Definition prints (p : printer) (t : list Z) : Prop :=
  (forall room x, 0 <= room -> p room = Some x -> x = t /\ slen t <= room) /\
  (forall room, slen t + slack < room -> p room = Some t).

Lemma prints_nothing : prints print_nothing [].
Proof. split; [intros room x Hr [= <-]; done|done]. Qed.

Lemma prints_seq p q t u : prints p t -> prints q u -> prints (print_seq p q) (t ++ u).
Proof.
  intros [Hp1 Hp2] [Hq1 Hq2]. split; intros room; unfold print_seq.
  - intros x Hr. destruct (p room) as [a|] eqn:Ea; [|done]. cbn.
    destruct (Hp1 _ _ Hr Ea) as [-> Hl]. destruct (q (room - slen t)) as [b|] eqn:Eb; [|done]. cbn.
    intros [= <-]. assert (0 <= room - slen t) as Hr' by lia. destruct (Hq1 _ _ Hr' Eb) as [-> Hl']. split; [done|]. rewrite slen_app. lia.
  - rewrite slen_app. intros Hr. pose proof (slen_nonneg u). pose proof (slen_nonneg t).
    rewrite Hp2 by lia. cbn. by rewrite Hq2 by lia.
Qed.

Lemma prints_if b p t : (b = true -> prints p t) -> prints (print_if b p) (if b then t else []).
Proof. destruct b; [intros H; by apply H|intros _; apply prints_nothing]. Qed.

Lemma prints_all_nil : prints (print_all []) [].
Proof. apply prints_nothing. Qed.

Lemma prints_all_cons p l t u : prints p t -> prints (print_all l) u -> prints (print_all (p :: l)) (t ++ u).
Proof. apply prints_seq. Qed.

Lemma prints_char c : prints (copy_advance_char_check c) [c].
Proof.
  split; intros room; unfold copy_advance_char_check; change (slen [c]) with 1; destruct (Z.leb_spec room 1); try done.
  - intros x _ [= <-]. split; [done|lia].
  - unfold slack. lia.
Qed.

Lemma prints_check t : prints (copy_advance_check t) t.
Proof.
  split; intros room; unfold copy_advance_check; destruct (Z.leb_spec room (slen t)); try done.
  - intros x _ [= <-]. split; [done|lia].
  - unfold slack. lia.
Qed.

Definition pair_text (a b : list Z) : list Z := if slen b =? 0 then [] else a ++ b.

Lemma prints_pair a b : prints (copy_advance_pair_check a b) (pair_text a b).
Proof.
  unfold copy_advance_pair_check, pair_text. destruct (slen b =? 0).
  - split; [intros room x Hr [= <-]; done|done].
  - split; intros room; rewrite slen_app; destruct (Z.leb_spec room (slen a + slen b)); try done.
    + intros x _ [= <-]. split; [done|lia].
    + unfold slack. lia.
Qed.

Lemma prints_quote a b x y : prints (copy_advance_pair_quote a b x y) (a ++ [x] ++ b ++ [y]).
Proof.
  assert (E : slen (a ++ [x] ++ b ++ [y]) = slen a + slen b + 2) by (rewrite !slen_app; change (slen [x]) with 1; change (slen [y]) with 1; lia).
  unfold copy_advance_pair_quote. split; intros room; rewrite E; destruct (Z.leb_spec room (slen a + slen b + 2)); try done.
  - intros z _ [= <-]. split; [done|lia].
  - unfold slack. lia.
Qed.

Lemma prints_escape s unres : prints (copy_advance_escape s unres) (escape unres s).
Proof.
  pose proof (escape_length unres s). unfold copy_advance_escape, pj_strncpy2_escape.
  split; intros room; destruct (Z.ltb_spec room (slen s)); try done.
  - intros x Hr Hx. by apply escape_loop_spec in Hx as [-> Hl].
  - unfold slack. lia.
  - unfold slack. intros Hr. apply escape_loop_fits. lia.
Qed.

Lemma prints_pair_escape a s unres : prints (copy_advance_pair_escape a s unres) (pair_text a (escape unres s)).
Proof.
  unfold copy_advance_pair_escape, pair_text. pose proof (escape_length unres s) as Hl. pose proof (slen_nonneg a).
  destruct (Z.eqb_spec (slen s) 0) as [E|E].
  - rewrite E in Hl. rewrite (proj2 (Z.eqb_eq (slen (escape unres s)) 0)) by lia.
    split; [intros room x Hr [= <-]; done|done].
  - pose proof (slen_nonneg s). rewrite (proj2 (Z.eqb_neq (slen (escape unres s)) 0)) by lia.
    split; intros room; rewrite slen_app; destruct (Z.leb_spec room (slen a + slen s)); try done.
    + intros x Hr. unfold pj_strncpy2_escape. destruct (Z.ltb_spec (room - slen a) (slen s)); [done|].
      destruct (strncpy_escape_loop _ _ _) as [u|] eqn:Eu; [|done]. intros [= <-].
      apply escape_loop_spec in Eu as [-> Hu]; [|lia]. split; [done|lia].
    + unfold slack. lia.
    + unfold slack, pj_strncpy2_escape. intros Hr. destruct (Z.ltb_spec (room - slen a) (slen s)); [lia|].
      by rewrite escape_loop_fits by lia.
Qed.

Lemma prints_need n p t :
  (forall room, n <= room -> p room = Some t) -> slen t <= n <= slack -> prints (need n p) t.
Proof.
  unfold slack. intros Hp Hn. pose proof (slen_nonneg t). unfold need.
  split; intros room; destruct (Z.ltb_spec room n) as [Hr|Hr]; try done.
  - rewrite (Hp room Hr). intros x _ [= <-]. split; [done|lia].
  - unfold slack. lia.
  - intros _. by apply Hp.
Qed.

Lemma prints_need_more n p t : n <= slack -> prints p t -> prints (need n p) t.
Proof.
  unfold slack. intros Hn [H1 H2]. pose proof (slen_nonneg t). unfold need.
  split; intros room; destruct (Z.ltb_spec room n); try done; [apply H1|unfold slack; lia|apply H2].
Qed.

(** ** The texts *)

Definition param_text (p : pjsip_param) (pname_spec pvalue_spec : Z -> bool) (sep : Z) : list Z :=
  [sep] ++ escape pname_spec (p_name p) ++
  (if negb (slen (p_value p) =? 0)
   then [61] ++ (if curchar (p_value p) =? 34 then p_value p else escape pvalue_spec (p_value p))
   else []).

Fixpoint params_text (l : list pjsip_param) (pname_spec pvalue_spec : Z -> bool) (sep : Z) : list Z :=
  match l with
  | [] => []
  | p :: l => param_text p pname_spec pvalue_spec sep ++
              params_text l pname_spec pvalue_spec (if sep =? 63 then 38 else sep)
  end.

Lemma prints_param p ns vs sep : prints (param_print p ns vs sep) (param_text p ns vs sep).
Proof.
  unfold param_print, param_text.
  apply prints_all_cons; [apply prints_char|]. apply prints_all_cons; [apply prints_escape|].
  rewrite <- (app_nil_r (if negb _ then _ else _)). apply prints_all_cons; [|apply prints_all_nil].
  apply prints_if. intros _. apply prints_seq; [apply prints_char|].
  destruct (_ =? 34); [apply prints_check|apply prints_escape].
Qed.

Lemma prints_params l ns vs sep : prints (pjsip_param_print_on l ns vs sep) (params_text l ns vs sep).
Proof.
  revert sep. induction l as [|p l IH]; intros sep; [apply prints_nothing|].
  apply prints_seq; [apply prints_param|apply IH].
Qed.

Definition host_text (host : list Z) : list Z :=
  if in_set host 58 && negb (curchar host =? 91) then [91] ++ host ++ [93] else host.

Section text.
Context (allow_tx_hash_in_uri allow_port_in_fromto_hdr : bool).
Definition user_spec : Z -> bool :=
  if allow_tx_hash_in_uri then pjsip_USER_SPEC_LENIENT else pjsip_USER_SPEC.

Definition userinfo_text (url : pjsip_sip_uri) : list Z :=
  if negb (slen (u_user url) =? 0) then
    escape user_spec (u_user url) ++
    (if negb (slen (u_passwd url) =? 0) then [58] ++ escape pjsip_PASSWD_SPEC (u_passwd url) else []) ++ [64]
  else [].

Definition port_text (context : pjsip_uri_context) (port : Z) : list Z :=
  if negb (port =? 0) &&
     (negb (bool_decide (context = PJSIP_URI_IN_FROMTO_HDR)) || allow_port_in_fromto_hdr)
  then [58] ++ pj_utoa (int_to_ulong port) else [].

Definition maddr_text (maddr : list Z) : list Z :=
  lit ";maddr=" ++ (if in_set maddr 58 then host_text maddr else escape pjsip_PARAM_CHAR_SPEC maddr).

Definition uri_params_text (context : pjsip_uri_context) (url : pjsip_sip_uri) : list Z :=
  pair_text (lit ";user=") (u_user_param url) ++
  (if in_other context then pair_text (lit ";method=") (escape pjsip_PARAM_CHAR_SPEC (u_method_param url)) else []) ++
  (if negb (in_fromto context)
   then pair_text (lit ";transport=") (escape pjsip_PARAM_CHAR_SPEC (u_transport_param url)) else []) ++
  (if (0 <=? u_ttl_param url) && negb (in_fromto context) && negb (in_routing context)
   then lit ";ttl=" ++ pj_utoa (int_to_ulong (u_ttl_param url)) else []) ++
  (if negb (in_fromto context) && negb (slen (u_maddr_param url) =? 0) then maddr_text (u_maddr_param url) else []) ++
  (if u_lr_param url && negb (in_fromto context) && negb (in_contact context) then lit ";lr" else []).

Definition uri_tail_text (context : pjsip_uri_context) (url : pjsip_sip_uri) : list Z :=
  params_text (u_other_param url) pjsip_PARAM_CHAR_SPEC pjsip_PARAM_CHAR_SPEC 59 ++
  (if in_contact context || in_other context
   then params_text (u_header_param url) pjsip_HDR_CHAR_SPEC pjsip_HDR_CHAR_SPEC 63 else []).

Definition uri_text (context : pjsip_uri_context) (url : pjsip_sip_uri) : list Z :=
  pjsip_url_get_scheme url ++ [58] ++ userinfo_text url ++ host_text (u_host url) ++
  port_text context (u_port url) ++ uri_params_text context url ++ uri_tail_text context url.

Lemma prints_userinfo url : prints (print_userinfo allow_tx_hash_in_uri url) (userinfo_text url).
Proof.
  unfold print_userinfo, userinfo_text. apply prints_if. intros _.
  apply prints_all_cons; [apply prints_escape|].
  apply prints_all_cons; [apply prints_if; intros _; apply prints_seq; [apply prints_char|apply prints_escape]|].
  rewrite <- (app_nil_r [64]). apply prints_all_cons; [apply prints_char|apply prints_all_nil].
Qed.

Lemma quote_cond_text a b :
  slen b <> 0 ->
  prints (copy_advance_pair_quote_cond a b 91 93) (a ++ (if negb (curchar b =? 91) then [91] ++ b ++ [93] else b)).
Proof.
  intros Hb. unfold copy_advance_pair_quote_cond. rewrite (proj2 (Z.eqb_neq _ _)) by done. cbn [negb andb].
  destruct (negb (curchar b =? 91)); [apply prints_quote|].
  pose proof (prints_pair a b) as H. unfold pair_text in H. by rewrite (proj2 (Z.eqb_neq (slen b) 0)) in H.
Qed.

Lemma in_set_nonempty s c : in_set s c = true -> slen s <> 0.
Proof. destruct s; [done|]. intros _. rewrite slen_cons. pose proof (slen_nonneg s). lia. Qed.

Lemma prints_host h : prints (print_host h) (host_text h).
Proof.
  unfold print_host, host_text. destruct (in_set h 58) eqn:E; [|apply prints_check].
  apply in_set_nonempty in E. apply (quote_cond_text [] h E).
Qed.

Lemma prints_maddr m : slen m <> 0 -> prints (print_maddr m) (maddr_text m).
Proof.
  intros Hm. unfold print_maddr, maddr_text, host_text. destruct (in_set m 58) eqn:E; cbn [andb].
  - by apply quote_cond_text.
  - pose proof (prints_pair_escape (lit ";maddr=") m pjsip_PARAM_CHAR_SPEC) as H. unfold pair_text in H.
    pose proof (escape_length pjsip_PARAM_CHAR_SPEC m). pose proof (slen_nonneg m).
    by rewrite (proj2 (Z.eqb_neq (slen (escape pjsip_PARAM_CHAR_SPEC m)) 0)) in H by lia.
Qed.

Definition int_port (port : Z) : Prop := 0 <= port <= 65535.

Lemma utoa_small v k : 0 <= v < 10 ^ k -> 0 < k <= 10 -> slen (pj_utoa (int_to_ulong v)) <= k.
Proof.
  intros Hv Hk. assert (10 ^ k <= 10 ^ 10) by (apply Z.pow_le_mono_r; lia).
  change (10 ^ 10) with 10000000000 in *. unfold int_to_ulong. rewrite Z.mod_small by lia.
  apply utoa_length; [change (2 ^ 64) with 18446744073709551616|..]; lia.
Qed.

Lemma prints_port context port :
  int_port port -> prints (print_port allow_port_in_fromto_hdr context port) (port_text context port).
Proof.
  unfold int_port. intros Hp. unfold print_port, port_text. apply prints_if. intros _. apply prints_need.
  - intros room Hr. unfold print_seq, copy_advance_char_check. by destruct (Z.leb_spec room 1); [lia|].
  - rewrite slen_app. change (slen [58]) with 1. unfold slack.
    pose proof (utoa_small port 5 ltac:(change (10 ^ 5) with 100000; lia) ltac:(lia)). lia.
Qed.

(** A TTL that [print] shows is an [int]. *)
Definition int_ttl (ttl : Z) : Prop := -1 <= ttl <= PJ_MAXINT32.

Lemma prints_uri_params context url :
  int_ttl (u_ttl_param url) -> prints (print_uri_params context url) (uri_params_text context url).
Proof.
  unfold int_ttl, PJ_MAXINT32. intros Ht. unfold print_uri_params, uri_params_text.
  apply prints_all_cons; [apply prints_pair|].
  apply prints_all_cons; [apply prints_if; intros _; apply prints_pair_escape|].
  apply prints_all_cons; [apply prints_if; intros _; apply prints_pair_escape|].
  apply prints_all_cons.
  { apply prints_if. intros [[H0%Z.leb_le _]%andb_true_iff _]%andb_true_iff. apply prints_need; [done|].
    rewrite slen_app. change (slen (lit ";ttl=")) with 5. unfold slack.
    pose proof (utoa_small (u_ttl_param url) 10 ltac:(change (10 ^ 10) with 10000000000; lia) ltac:(lia)). lia. }
  apply prints_all_cons.
  { apply prints_if. intros [_ Hm]%andb_true_iff. apply prints_maddr. by apply negb_true_iff, Z.eqb_neq in Hm. }
  rewrite <- (app_nil_r (if u_lr_param url && _ && _ then _ else _)). apply prints_all_cons; [|apply prints_all_nil].
  apply prints_if. intros _. apply prints_need_more; [unfold slack; lia|]. apply prints_check.
Qed.

(** A SIP URI prints as its text, inside the buffer, with a byte left for the
    zero; sixteen bytes more than that are enough. *)
Lemma url_print_spec context url size :
  int_port (u_port url) -> int_ttl (u_ttl_param url) ->
  (forall t, pjsip_url_print allow_tx_hash_in_uri allow_port_in_fromto_hdr context url size = Some t ->
             t = uri_text context url /\ slen t < size) /\
  (slen (uri_text context url) + 16 < size ->
   pjsip_url_print allow_tx_hash_in_uri allow_port_in_fromto_hdr context url size = Some (uri_text context url)).
Proof.
  intros Hp Ht. unfold pjsip_url_print.
  match goal with |- context [print_all ?l] => assert (H : prints (print_all l) (uri_text context url)) end.
  { unfold uri_text, uri_tail_text.
    apply prints_all_cons; [apply prints_check|]. apply prints_all_cons; [apply prints_char|].
    apply prints_all_cons; [apply prints_userinfo|]. apply prints_all_cons; [apply prints_host|].
    apply prints_all_cons; [by apply prints_port|]. apply prints_all_cons; [by apply prints_uri_params|].
    apply prints_all_cons; [apply prints_params|].
    rewrite <- (app_nil_r (if in_contact context || _ then _ else _)). apply prints_all_cons; [|apply prints_all_nil].
    apply prints_if. intros _. apply prints_params. }
  destruct H as [H1 H2]. pose proof (slen_nonneg (uri_text context url)). split.
  - intros t. destruct (Z.ltb_spec (size - 1) 0); [done|]. intros E. apply H1 in E as [-> Hl]; [|lia].
    split; [done|lia].
  - intros Hs. destruct (Z.ltb_spec (size - 1) 0); [lia|]. apply H2. unfold slack. lia.
Qed.
End text.
