(* ===== verification/SipUriSpec.v ===== *)
(** * URIs read back

    The text of a SIP URI, parsed, is the URI as its context shows it. *)

From Stdlib Require Import String.
From S2P Require Import Prelude Hash PjString Scanner SipScan SipUri SipUriParse SipUriText.
Local Open Scope Z_scope.

(** ** Character classes *)

Definition alnum_chars : list Z := lit "abcdefghijklmnopqrstuvwxyzABCDEFGHIJKLMNOPQRSTUVWXYZ0123456789".

Lemma in_set_forallb (Q : Z -> bool) set c : forallb Q set = true -> in_set set c = true -> Q c = true.
Proof.
  intros H (d & Hd & ->%Z.eqb_eq)%existsb_exists. by eapply forallb_forall in H.
Qed.

Lemma alnum_in c : pjsip_ALNUM_SPEC c = true -> in_set alnum_chars c = true.
Proof.
  unfold pjsip_ALNUM_SPEC, cis_alpha, pj_isdigit. intros H.
  assert (Hr : exists k, (k < 62)%nat /\ c = nth k alnum_chars 0).
  { rewrite !orb_true_iff, !andb_true_iff, !Z.leb_le in H.
    destruct H as [[H|H]|H]; [exists (Z.to_nat (c - 97))|exists (Z.to_nat (c - 65 + 26))|exists (Z.to_nat (c - 48 + 52))];
    (split; [lia|]).
    - assert (E : forallb (fun i => (97 + Z.of_nat i =? nth i alnum_chars 0)) (seq 0 26) = true) by by vm_compute.
      rewrite forallb_forall in E. specialize (E (Z.to_nat (c - 97))). rewrite in_seq in E.
      apply Z.eqb_eq in E; lia.
    - assert (E : forallb (fun i => (65 + Z.of_nat i =? nth (i + 26) alnum_chars 0)) (seq 0 26) = true) by by vm_compute.
      rewrite forallb_forall in E. specialize (E (Z.to_nat (c - 65))). rewrite in_seq in E.
      replace (Z.to_nat (c - 65 + 26)) with (Z.to_nat (c - 65) + 26)%nat by lia. apply Z.eqb_eq in E; lia.
    - assert (E : forallb (fun i => (48 + Z.of_nat i =? nth (i + 52) alnum_chars 0)) (seq 0 10) = true) by by vm_compute.
      rewrite forallb_forall in E. specialize (E (Z.to_nat (c - 48))). rewrite in_seq in E.
      replace (Z.to_nat (c - 48 + 52)) with (Z.to_nat (c - 48) + 52)%nat by lia. apply Z.eqb_eq in E; lia. }
  destruct Hr as (k & Hk & ->). apply existsb_exists. exists (nth k alnum_chars 0).
  split; [|apply Z.eqb_refl]. apply nth_In. by vm_compute (length alnum_chars).
Qed.

(** [covers spec unres]: the characters of [unres], and those an escaped
    character is written with, are in [spec]. *)
Definition covers (spec unres : Z -> bool) : Prop :=
  (forall c, unres c = true -> spec c = true) /\ spec 37 = true /\
  (forall v, 0 <= v < 16 -> spec (hex_digit v) = true).

Lemma cis_add_sub (Q base : Z -> bool) s :
  (forall c, base c = true -> Q c = true) -> forallb Q (lit s) = true ->
  forall c, cis_add base s c = true -> Q c = true.
Proof. intros Hb Hs c [H|H]%orb_true_iff; [by apply Hb|]. by eapply in_set_forallb. Qed.

Lemma alnum_sub (Q : Z -> bool) : forallb Q alnum_chars = true -> forall c, pjsip_ALNUM_SPEC c = true -> Q c = true.
Proof. intros H c Hc. eapply in_set_forallb; [done|]. by apply alnum_in. Qed.

Lemma hex_digits_in (Q : Z -> bool) :
  forallb Q (lit "0123456789abcdef") = true -> forall v, 0 <= v < 16 -> Q (hex_digit v) = true.
Proof.
  intros H v Hv. eapply in_set_forallb; [done|].
  assert (E : forallb (fun i => in_set (lit "0123456789abcdef") (hex_digit (Z.of_nat i))) (seq 0 16) = true) by by vm_compute.
  rewrite forallb_forall in E. specialize (E (Z.to_nat v)). rewrite in_seq, Z2Nat.id in E by lia. apply E. lia.
Qed.

Ltac char_class := first
  [ by vm_compute
  | apply hex_digits_in; by vm_compute
  | apply alnum_sub; by vm_compute
  | apply cis_add_sub; [char_class|by vm_compute] ].
Ltac covers := split; [char_class|split; [by vm_compute|apply hex_digits_in; by vm_compute]].

Lemma escape_char_forall spec unres c : covers spec unres -> Forall (fun d => spec d = true) (escape_char unres c).
Proof.
  intros (H1 & H2 & H3). unfold escape_char. destruct (unres c) eqn:E; [by repeat constructor; apply H1|].
  assert (Hb : forall n, 0 <= Z.land n 15 < 16).
  { intros n. change 15 with (Z.ones 4). rewrite Z.land_ones by lia. apply Z.mod_pos_bound. lia. }
  repeat constructor; [done| |]; apply H3; [|apply Hb].
  rewrite Z.shiftr_land. change (Z.shiftr 240 4) with 15. apply Hb.
Qed.

Lemma escape_forall spec unres s : covers spec unres -> Forall (fun d => spec d = true) (escape unres s).
Proof. intros H. induction s as [|c s IH]; cbn [escape]; [constructor|]. apply Forall_app. split; [by apply escape_char_forall|done]. Qed.

(** ** Unescaping *)

Lemma unescape_other c s : c <> 37 -> pj_str_unescape (c :: s) = c :: pj_str_unescape s.
Proof. intros H%Z.eqb_neq. destruct s as [|h [|l s]]; cbn; [done..|]. by rewrite H. Qed.

Lemma unescape_hex c s : is_byte c -> pj_str_unescape (37 :: pj_val_to_hex_digit c ++ s) = c :: pj_str_unescape s.
Proof.
  intros Hc. unfold pj_val_to_hex_digit. cbn [app pj_str_unescape].
  set (h := hex_digit (Z.shiftr (Z.land c 240) 4)). set (l := hex_digit (Z.land c 15)).
  assert (E : forallb (fun i => let c := Z.of_nat i in
    let h := hex_digit (Z.shiftr (Z.land c 240) 4) in let l := hex_digit (Z.land c 15) in
    pj_isxdigit h && pj_isxdigit l &&
    ((Z.shiftl (pj_hex_digit_to_val h) 4 + pj_hex_digit_to_val l) mod 256 =? c)) (seq 0 256) = true) by by vm_compute.
  unfold is_byte in Hc. rewrite forallb_forall in E. specialize (E (Z.to_nat c)). rewrite in_seq, Z2Nat.id in E by lia.
  specialize (E ltac:(lia)). cbv zeta in E. fold h l in E. apply andb_true_iff in E as [E1 E2%Z.eqb_eq].
  change (37 =? 37) with true. cbn [andb]. rewrite E1. by rewrite E2.
Qed.

(** The first character of escaped text is a percent sign or the first
    character of the text. *)
Lemma escape_head unres s x y :
  escape unres s = x :: y -> x = 37 \/ exists s', s = x :: s' /\ y = escape unres s'.
Proof.
  destruct s as [|c s]; [done|]. cbn [escape]. unfold escape_char. destruct (unres c).
  - intros [= <- <-]. right. by eexists.
  - intros [= <- _]. by left.
Qed.

Lemma unescape_escape unres s : plain s -> pj_str_unescape (escape unres s) = s.
Proof.
  intros [Hb Hn]. induction Hb as [|c s Hc Hb IH]; [done|].
  assert (Hs : no_escapes s = true).
  { destruct s as [|h [|l s]]; [done..|]. by apply andb_true_iff in Hn as [_ Hn]. }
  specialize (IH Hs). cbn [escape]. unfold escape_char. destruct (unres c) eqn:E.
  - cbn [app]. destruct (Z.eq_dec c 37) as [->|Hne]; [|by rewrite unescape_other, IH].
    enough (Hx : pj_str_unescape (37 :: escape unres s) = 37 :: pj_str_unescape (escape unres s)) by by rewrite Hx, IH.
    destruct (escape unres s) as [|h [|l r]] eqn:Ee; [done..|]. cbn [pj_str_unescape].
    destruct (pj_isxdigit h) eqn:Eh; [|done]. destruct (pj_isxdigit l) eqn:El; [|by rewrite andb_false_r].
    exfalso. apply escape_head in Ee as [->|(s1 & -> & Ee)]; [done|].
    symmetry in Ee. apply escape_head in Ee as [->|(s2 & -> & _)]; [done|].
    cbn in Hn. by rewrite Eh, El in Hn.
  - change ((37 :: pj_val_to_hex_digit c) ++ escape unres s) with (37 :: pj_val_to_hex_digit c ++ escape unres s).
    by rewrite unescape_hex, IH.
Qed.

Lemma escape_id unres s : Forall (fun c => unres c = true) s -> escape unres s = s.
Proof. induction 1 as [|c s Hc Hs IH]; cbn [escape]; [done|]. unfold escape_char. by rewrite Hc, IH. Qed.

(** ** Reading with no flags set *)

(** [m] reads [x], gives [a] and leaves [r]. *)
Definition reads {A} (m : sip A) (x r : list Z) (a : A) : Prop :=
  m (mk_scanner (x ++ r) 0) = Ret a (mk_scanner r 0).

Lemma bind_ret {A B} (m : sip A) (f : A -> sip B) s a s' : m s = Ret a s' -> mbind f m s = f a s'.
Proof. unfold mbind, sip_bind. by intros ->. Qed.

Lemma reading_bind {A B} (m : sip A) (f : A -> sip B) x y r a b :
  reads m x (y ++ r) a -> reads (f a) y r b -> reads (mbind f m) (x ++ y) r b.
Proof. unfold reads, mbind, sip_bind. intros H1 H2. by rewrite <- app_assoc, H1. Qed.

Lemma reads_then {A B} (m : sip A) (f : A -> sip B) x r a b :
  reads m x r a -> reads (f a) [] r b -> reads (mbind f m) x r b.
Proof. intros H1 H2. rewrite <- (app_nil_r x). by eapply reading_bind. Qed.

Lemma reading_ret {A} (a : A) r : reads (mret a) [] r a.
Proof. done. Qed.

Lemma reads_cur {B} (f : Z -> sip B) x r b : reads (f (curchar (x ++ r))) x r b -> reads (mbind f cur) x r b.
Proof. done. Qed.

Definition stops (spec : Z -> bool) (r : list Z) : Prop :=
  match r with [] => True | d :: _ => spec d = false end.

Lemma reads_scan_get spec x r :
  x <> [] -> Forall (fun c => spec c = true) x -> stops spec r -> reads (scan_get spec) x r x.
Proof.
  intros Hx H Hr. unfold reads, scan_get, call, pj_scan_get. cbn [skip_ws curptr].
  rewrite span_app by done. destruct x as [|c x]; [done|]. inversion H as [|? ? Hc]. subst. cbn [app].
  rewrite Hc. by rewrite skip_if_0.
Qed.

Lemma reads_get_char c r : c <> 0 -> reads get_char [c] r c.
Proof.
  intros Hc. unfold reads, get_char, call, pj_scan_get_char. cbn [skip_ws curptr app].
  rewrite (proj2 (Z.eqb_neq _ _)) by done. by rewrite skip_if_0.
Qed.

Lemma reads_until_ch c x r : lacks c x -> reads (get_until_ch c) x (c :: r) x.
Proof.
  intros H. unfold reads, get_until_ch, call. cbn [skip_ws curptr]. by rewrite get_until_ch_app.
Qed.

Lemma reads_escape spec unres s r :
  covers spec unres -> plain s -> s <> [] -> stops spec r ->
  reads (parser_get_and_unescape spec) (escape unres s) r s.
Proof.
  intros Hc Hp Hs Hr. eapply reads_then.
  - apply reads_scan_get; [by apply escape_nonempty|by apply escape_forall|done].
  - unfold reads. cbn. unfold mret, sip_ret. by rewrite unescape_escape.
Qed.

Lemma curchar_app x r : x <> [] -> curchar (x ++ r) = curchar x.
Proof. by destruct x. Qed.

(** A parameter, with its value in the text [v]. *)
Lemma reads_param_value spec unres name v value r :
  covers spec unres -> plain name -> name <> [] -> spec 61 = false -> spec 34 = false ->
  v <> [] -> Forall (fun c => spec c = true) v -> pj_str_unescape v = value -> stops spec r ->
  reads (parse_param_imp spec true false) (escape unres name ++ 61 :: v) r (mk_param name value).
Proof.
  intros Hc Hp Hn H61 H34 Hv Hs Hu Hr. unfold parse_param_imp. cbn [get_word].
  eapply reading_bind; [by apply reads_escape|]. apply reads_cur. cbn [app curchar].
  change (61 =? 61) with true. cbv iota.
  change (61 :: v) with ([61] ++ v). eapply reading_bind; [by apply reads_get_char|].
  assert (Hh : curchar v <> 34 /\ spec (curchar v) = true).
  { destruct v as [|c v]; [done|]. inversion Hs as [|? ? H1]. subst. cbn. split; [congruence|done]. }
  destruct v as [|c v]; [done|]. cbn [curchar] in Hh. destruct Hh as [H1 H2].
  unfold reads, mbind at 1, sip_bind at 1. cbn [eof curptr pj_scan_is_eof app]. cbv iota.
  change (reads (c0 ← cur; if c0 =? 34 then
      pvalue ← scan_get_quote 34 34; mret (mk_param name pvalue)
    else if spec c0 then pvalue ← parser_get_and_unescape spec; mret (mk_param name pvalue)
    else mret (mk_param name [])) (c :: v) r (mk_param name value)).
  apply reads_cur. cbn [app curchar]. rewrite (proj2 (Z.eqb_neq _ _)) by done. rewrite H2.
  eapply reads_then; [eapply reads_then; [by apply reads_scan_get|apply reading_ret]|]. rewrite Hu. apply reading_ret.
Qed.

Lemma reads_param_name spec unres name r :
  covers spec unres -> plain name -> name <> [] -> stops spec r -> curchar r <> 61 ->
  reads (parse_param_imp spec true false) (escape unres name) r (mk_param name []).
Proof.
  intros Hc Hp Hn Hr H61. unfold parse_param_imp. cbn [get_word].
  eapply reads_then; [by apply reads_escape|]. apply reads_cur. cbn [app].
  rewrite (proj2 (Z.eqb_neq _ _)) by done. apply reading_ret.
Qed.

(** ** Parameters of a URI *)

(** What may follow a parameter, and a header. *)
Definition param_stop (r : list Z) : Prop := r = [] \/ In (curchar r) [59; 63; 62; 32] /\ r <> [].
Definition header_stop (r : list Z) : Prop := r = [] \/ In (curchar r) [38; 62; 32] /\ r <> [].
Definition uri_stop (r : list Z) : Prop := r = [] \/ In (curchar r) [62; 32] /\ r <> [].

Lemma stops_in spec set r : forallb (fun c => negb (spec c)) set = true -> In (curchar r) set -> stops spec r.
Proof.
  intros H Hin. destruct r as [|d r]; [done|]. rewrite forallb_forall in H. apply H, negb_true_iff in Hin. done.
Qed.

Lemma param_stop_stops r : param_stop r -> stops pjsip_PARAM_CHAR_SPEC r /\ curchar r <> 61.
Proof.
  intros [->|[H _]]; [done|]. split; [by eapply stops_in; [|exact H]; vm_compute|].
  intros E. rewrite E in H. cbn in H. intuition done.
Qed.

Lemma header_stop_stops r : header_stop r -> stops pjsip_HDR_CHAR_SPEC r /\ curchar r <> 61.
Proof.
  intros [->|[H _]]; [done|]. split; [by eapply stops_in; [|exact H]; vm_compute|].
  intros E. rewrite E in H. cbn in H. intuition done.
Qed.

Lemma uri_stop_param r : uri_stop r -> param_stop r.
Proof. intros [->|[H Hr]]; [by left|right]. split; [|done]. cbn in *. intuition. Qed.

Lemma uri_stop_header r : uri_stop r -> header_stop r.
Proof. intros [->|[H Hr]]; [by left|right]. split; [|done]. cbn in *. intuition. Qed.

Lemma covers_param : covers pjsip_PARAM_CHAR_SPEC pjsip_PARAM_CHAR_SPEC. Proof. covers. Qed.
Lemma covers_hdr : covers pjsip_HDR_CHAR_SPEC pjsip_HDR_CHAR_SPEC. Proof. covers. Qed.

(** The loop over the parameters, on a text that is a list of parameters:
    [runs u t u'] says that it reads [t] and goes on with [u']. *)
Definition loop_at (n : nat) (u : pjsip_sip_uri) (s : list Z) : result pjsip_sip_uri :=
  while_loop n (is_char 59) uri_param u (mk_scanner s 0).

Definition runs (u : pjsip_sip_uri) (t : list Z) (u' : pjsip_sip_uri) : Prop :=
  forall r n, param_stop r -> (length (t ++ r) <= n)%nat ->
    exists m, (length r <= m)%nat /\ loop_at n u (t ++ r) = loop_at m u' r.

Definition begins (t : list Z) : Prop := t = [] \/ exists t', t = 59 :: t'.

Lemma runs_nil u : runs u [] u.
Proof. intros r n Hr Hn. by exists n. Qed.

Lemma runs_app u t u1 t' u2 : runs u t u1 -> runs u1 t' u2 -> begins t' -> runs u (t ++ t') u2.
Proof.
  intros H1 H2 Hb r n Hr Hn. rewrite <- app_assoc in Hn. rewrite <- app_assoc.
  destruct (H1 (t' ++ r) n) as (m & Hm & ->); [|done|by apply H2].
  destruct Hb as [->|(t1 & ->)]; [done|]. right. cbn. intuition done.
Qed.

Lemma runs_one u x u' p :
  (forall r, param_stop r -> reads (parse_param_imp pjsip_PARAM_CHAR_SPEC true false) x r p) ->
  (forall s, store_uri_param u p s = Ret u' s) ->
  runs u (59 :: x) u'.
Proof.
  intros Hx Hs r n Hr Hn. cbn [app length] in Hn. rewrite length_app in Hn. destruct n as [|n]; [lia|]. exists n.
  split; [lia|]. unfold loop_at. cbn [app while_loop]. unfold mbind, sip_bind, cur. cbn [curptr curchar].
  change (is_char 59 59) with true. cbv beta iota.
  enough (E : uri_param u (mk_scanner (59 :: x ++ r) 0) = Ret u' (mk_scanner r 0)) by by rewrite E.
  unfold uri_param, int_parse_uri_param, pjsip_parse_uri_param_imp, mbind, sip_bind.
  pose proof (reads_get_char 59 (x ++ r) ltac:(done)) as Hg. unfold reads in Hg. cbn [app] in Hg. rewrite Hg.
  specialize (Hx r Hr). unfold reads in Hx. rewrite Hx. apply Hs.
Qed.

Lemma loop_end n u r : uri_stop r \/ curchar r = 63 -> loop_at n u r = Ret u (mk_scanner r 0).
Proof.
  intros H. assert (E : is_char 59 (curchar r) = false).
  { destruct H as [[->|[H _]]| -> ]; [done| |done]. cbn in H. unfold is_char. destruct H as [<-|[<-|[]]]; done. }
  unfold loop_at. destruct n; cbn [while_loop]; unfold mbind, sip_bind, cur; cbn [curptr]; by rewrite E.
Qed.

(** The text of a parameter with a value, or none. *)
Lemma runs_value u u' name v value :
  plain name -> name <> [] -> v <> [] -> Forall (fun c => pjsip_PARAM_CHAR_SPEC c = true) v ->
  pj_str_unescape v = value -> (forall s, store_uri_param u (mk_param name value) s = Ret u' s) ->
  runs u (59 :: escape pjsip_PARAM_CHAR_SPEC name ++ 61 :: v) u'.
Proof.
  intros Hp Hn Hv Hf Hu Hs. eapply runs_one; [|exact Hs]. intros r Hr.
  eapply reads_param_value; (apply covers_param || done || by apply param_stop_stops).
Qed.

Lemma runs_name u u' name :
  plain name -> name <> [] -> (forall s, store_uri_param u (mk_param name []) s = Ret u' s) ->
  runs u (59 :: escape pjsip_PARAM_CHAR_SPEC name) u'.
Proof.
  intros Hp Hn Hs. eapply runs_one; [|exact Hs]. intros r Hr.
  apply reads_param_name; (apply covers_param || done || by apply param_stop_stops).
Qed.

Definition param_text_ok (v : list Z) : Prop :=
  Forall (fun c => pjsip_PARAM_CHAR_SPEC c = true) v /\ pj_str_unescape v = v.

Lemma plain_unescape s : plain s -> pj_str_unescape s = s.
Proof. intros H. rewrite <- (unescape_escape (fun _ => true) s H) at 2. by rewrite escape_id by (apply Forall_true; done). Qed.

Lemma slen_empty {v : list Z} : (slen v =? 0) = bool_decide (v = []).
Proof.
  destruct v; [done|]. rewrite slen_cons, bool_decide_eq_false_2 by done.
  pose proof (slen_nonneg v). apply Z.eqb_neq. lia.
Qed.

Lemma escape_param_forall v : Forall (fun c => pjsip_PARAM_CHAR_SPEC c = true) (escape pjsip_PARAM_CHAR_SPEC v).
Proof. apply escape_forall, covers_param. Qed.

(** The texts [";name=" v] of the parameters the URI has fields for. *)
Ltac runs_field u v :=
  unfold pair_text; rewrite slen_empty; case_bool_decide as Hv;
  [ try (subst v; destruct u; cbn in *; subst; apply runs_nil)
  | match goal with |- runs _ (?t ++ ?x) _ =>
      let n := eval vm_compute in (removelast (tail t)) in
      change (t ++ x) with (59 :: escape pjsip_PARAM_CHAR_SPEC n ++ 61 :: x) end;
    eapply runs_value; [apply (bool_decide_eq_true_1 (plain _)); by vm_compute|done|try done|try apply escape_param_forall| |] ].

Lemma runs_user_param u v :
  u_user_param u = [] -> param_text_ok v -> runs u (pair_text (lit ";user=") v) (u <| u_user_param := v |>).
Proof.
  intros Hu [H1 H2]. runs_field u v; [done|exact H2|].
  intros s. unfold store_uri_param. cbn [p_name p_value]. rewrite slen_empty, bool_decide_eq_false_2 by done.
  reflexivity.
Qed.

Lemma escape_nil unres v : escape unres v = [] <-> v = [].
Proof. split; [|by intros ->]. intros E. destruct v as [|c v]; [done|]. by destruct (escape_nonempty unres (c :: v)). Qed.

Lemma runs_method u v :
  u_method_param u = [] -> plain v ->
  runs u (pair_text (lit ";method=") (escape pjsip_PARAM_CHAR_SPEC v)) (u <| u_method_param := v |>).
Proof.
  intros Hu Hp. runs_field u v.
  - apply escape_nil in Hv. subst v. destruct u; cbn in *; subst. apply runs_nil.
  - by apply unescape_escape.
  - intros s. unfold store_uri_param. cbn [p_name p_value].
    rewrite slen_empty, bool_decide_eq_false_2 by (by intros ->). reflexivity.
Qed.

Lemma runs_transport u v :
  u_transport_param u = [] -> plain v ->
  runs u (pair_text (lit ";transport=") (escape pjsip_PARAM_CHAR_SPEC v)) (u <| u_transport_param := v |>).
Proof.
  intros Hu Hp. runs_field u v.
  - apply escape_nil in Hv. subst v. destruct u; cbn in *; subst. apply runs_nil.
  - by apply unescape_escape.
  - intros s. unfold store_uri_param. cbn [p_name p_value].
    rewrite slen_empty, bool_decide_eq_false_2 by (by intros ->). reflexivity.
Qed.


Lemma digit_spec c : is_digit c -> pjsip_DIGIT_SPEC c = true.
Proof. unfold is_digit, pjsip_DIGIT_SPEC, pj_isdigit. intros H. by rewrite (proj2 (Z.leb_le 48 c)), (proj2 (Z.leb_le c 57)) by lia. Qed.

Lemma digits_in spec v :
  (forall c, pjsip_ALNUM_SPEC c = true -> spec c = true) -> 0 <= v < 2 ^ 64 ->
  Forall (fun c => spec c = true) (pj_utoa v).
Proof.
  intros Hs Hv. eapply Forall_impl; [by apply utoa_digit|]. intros c Hc. cbn.
  apply Hs. unfold pjsip_ALNUM_SPEC. fold pjsip_DIGIT_SPEC. change (pj_isdigit c) with (pjsip_DIGIT_SPEC c).
  by rewrite digit_spec, orb_true_r.
Qed.

Lemma unescape_no_percent v : lacks 37 v -> pj_str_unescape v = v.
Proof. induction 1 as [|c v Hc Hv IH]; [done|]. by rewrite unescape_other, IH. Qed.

Lemma utoa_unescape v : 0 <= v < 2 ^ 64 -> pj_str_unescape (pj_utoa v) = pj_utoa v.
Proof.
  intros Hv. apply unescape_no_percent. eapply Forall_impl; [by apply utoa_digit|]. unfold is_digit. intros c Hc. cbn. lia.
Qed.

Lemma runs_ttl u v :
  0 <= v <= PJSIP_MAX_TTL ->
  runs u (lit ";ttl=" ++ pj_utoa (int_to_ulong v)) (u <| u_ttl_param := v |>).
Proof.
  unfold PJSIP_MAX_TTL. intros Hv. unfold int_to_ulong. rewrite Z.mod_small by lia.
  change (lit ";ttl=" ++ pj_utoa v) with (59 :: escape pjsip_PARAM_CHAR_SPEC (lit "ttl") ++ 61 :: pj_utoa v).
  assert (H64 : 0 <= v < 2 ^ 64) by lia.
  eapply runs_value; [apply (bool_decide_eq_true_1 (plain _)); by vm_compute|done|by apply utoa_nonempty| |by apply utoa_unescape|].
  - apply digits_in; [|done]. char_class.
  - intros s. unfold store_uri_param. cbn [p_name p_value].
    rewrite slen_empty, bool_decide_eq_false_2 by by apply utoa_nonempty. cbn [negb andb].
    change (parser_stricmp_eq (lit "ttl") (lit "user")) with false.
    change (parser_stricmp_eq (lit "ttl") (lit "method")) with false.
    change (parser_stricmp_eq (lit "ttl") (lit "transport")) with false.
    change (parser_stricmp_eq (lit "ttl") (lit "ttl")) with true. cbn [andb].
    unfold mbind, sip_bind. by rewrite strtoi_utoa by (unfold PJ_MAXINT32, PJSIP_MAX_TTL; lia).
Qed.

(** The parser does not take the brackets off an address in [maddr]. *)
Definition maddr_ok (m : list Z) : Prop :=
  m = [] \/ (in_set m 58 = false /\ plain m) \/ (curchar m = 91 /\ param_text_ok m).

Lemma runs_maddr u m :
  maddr_ok m -> m <> [] -> runs u (maddr_text m) (u <| u_maddr_param := m |>).
Proof.
  intros Hm Hne.
  assert (E : exists v, maddr_text m = lit ";maddr=" ++ v /\ v <> [] /\
              Forall (fun c => pjsip_PARAM_CHAR_SPEC c = true) v /\ pj_str_unescape v = m).
  { unfold maddr_text, host_text. destruct Hm as [->|[[H1 H2]|[H1 [H2 H3]]]]; [done| |].
    - rewrite H1. exists (escape pjsip_PARAM_CHAR_SPEC m). split; [done|]. split; [by rewrite escape_nil|].
      split; [apply escape_param_forall|by apply unescape_escape].
    - exists m. split; [|done]. f_equal. rewrite H1. change (91 =? 91) with true. cbn [negb]. rewrite andb_false_r.
      destruct (in_set m 58); [done|]. by apply escape_id. }
  destruct E as (v & -> & Hv & Hf & Hu).
  change (lit ";maddr=" ++ v) with (59 :: escape pjsip_PARAM_CHAR_SPEC (lit "maddr") ++ 61 :: v).
  eapply runs_value; [apply (bool_decide_eq_true_1 (plain _)); by vm_compute|done|done|done|exact Hu|].
  intros s. unfold store_uri_param. cbn [p_name p_value]. rewrite slen_empty, bool_decide_eq_false_2 by done. reflexivity.
Qed.

Lemma runs_lr u : runs u (lit ";lr") (u <| u_lr_param := true |>).
Proof.
  change (lit ";lr") with (59 :: escape pjsip_PARAM_CHAR_SPEC (lit "lr")).
  apply runs_name; [apply (bool_decide_eq_true_1 (plain _)); by vm_compute|done|]. intros s. reflexivity.
Qed.

(** A parameter the URI has no field for. *)
Definition reserved (p : pjsip_param) : bool :=
  (negb (slen (p_value p) =? 0) &&
   existsb (parser_stricmp_eq (p_name p)) [lit "user"; lit "method"; lit "transport"; lit "ttl"; lit "maddr"]) ||
  parser_stricmp_eq (p_name p) (lit "lr").

(** A quote at the start of a value makes it a quoted string. *)
Definition param_ok (p : pjsip_param) : Prop :=
  p_name p <> [] /\ plain (p_name p) /\ plain (p_value p) /\ curchar (p_value p) <> 34.

Lemma runs_param u p :
  param_ok p -> reserved p = false ->
  runs u (param_text p pjsip_PARAM_CHAR_SPEC pjsip_PARAM_CHAR_SPEC 59)
       (u <| u_other_param := u_other_param u ++ [p] |>).
Proof.
  intros (Hn & Hp & Hv & Hq) Hr. destruct p as [name value]. cbn [p_name p_value] in *.
  assert (Hs : forall s, store_uri_param u (mk_param name value) s =
                         Ret (u <| u_other_param := u_other_param u ++ [mk_param name value] |>) s).
  { intros s. unfold reserved in Hr. cbn [p_name p_value existsb] in Hr. unfold store_uri_param. cbn [p_name p_value].
    apply orb_false_iff in Hr as [Hr ->]. destruct (negb (slen value =? 0)); rewrite ?andb_false_r, ?andb_true_r; [|done].
    cbn [andb] in Hr. rewrite !orb_false_iff in Hr. by destruct Hr as (-> & -> & -> & -> & -> & _). }
  unfold param_text. cbn [p_name p_value]. rewrite slen_empty. case_bool_decide as Hb; cbn [negb].
  - subst value. rewrite app_nil_r. by apply runs_name.
  - rewrite (proj2 (Z.eqb_neq _ _)) by done. eapply runs_value; [done..| |apply escape_param_forall|by apply unescape_escape|done].
    by rewrite escape_nil.
Qed.

Lemma params_begin l : begins (params_text l pjsip_PARAM_CHAR_SPEC pjsip_PARAM_CHAR_SPEC 59).
Proof. destruct l as [|p l]; [by left|right]. by eexists. Qed.

Lemma runs_params u l :
  Forall (fun p => param_ok p /\ reserved p = false) l ->
  runs u (params_text l pjsip_PARAM_CHAR_SPEC pjsip_PARAM_CHAR_SPEC 59)
       (u <| u_other_param := u_other_param u ++ l |>).
Proof.
  intros Hl. revert u. induction Hl as [|p l [H1 H2] Hl IH]; intros u; cbn [params_text].
  - replace (u <| u_other_param := u_other_param u ++ [] |>) with u; [apply runs_nil|].
    destruct u. cbn. by rewrite app_nil_r.
  - change (59 =? 63) with false. cbv iota. eapply runs_app; [by apply runs_param| |apply params_begin].
    replace (u <| u_other_param := u_other_param u ++ p :: l |>) with
      ((u <| u_other_param := u_other_param u ++ [p] |>)
         <| u_other_param := u_other_param (u <| u_other_param := u_other_param u ++ [p] |>) ++ l |>); [apply IH|].
    destruct u. cbn. by rewrite <- app_assoc.
Qed.

(** ** Headers of a URI *)

Lemma reads_hparam p sep r :
  sep <> 0 -> param_ok p -> header_stop r ->
  reads int_parse_hparam (param_text p pjsip_HDR_CHAR_SPEC pjsip_HDR_CHAR_SPEC sep) r p.
Proof.
  intros Hsep (Hn & Hp & Hv & Hq) Hr. destruct p as [name value]. cbn [p_name p_value] in *.
  destruct (header_stop_stops r Hr) as [Hs H61].
  unfold int_parse_hparam, param_text. cbn [p_name p_value].
  eapply reading_bind; [by apply reads_get_char|]. rewrite slen_empty. case_bool_decide as Hb; cbn [negb].
  - subst value. rewrite app_nil_r. eapply reads_then; [by eapply reads_escape; [apply covers_hdr|..]|].
    apply reads_cur. cbn [app]. rewrite (proj2 (Z.eqb_neq _ _)) by done. apply reading_ret.
  - rewrite (proj2 (Z.eqb_neq _ _)) by done.
    eapply reading_bind; [by eapply reads_escape; [apply covers_hdr|..]|].
    apply reads_cur. cbn [app curchar]. change (61 =? 61) with true. cbv iota.
    change (61 :: ?v) with ([61] ++ v). eapply reading_bind; [by apply reads_get_char|].
    assert (Hne : escape pjsip_HDR_CHAR_SPEC value <> []) by by rewrite escape_nil.
    pose proof (escape_forall _ _ value covers_hdr) as Hf.
    destruct (escape pjsip_HDR_CHAR_SPEC value) as [|c v] eqn:E; [done|]. inversion Hf as [|? ? Hc]. subst.
    unfold reads, mbind, sip_bind. cbn [eof cur curptr pj_scan_is_eof app curchar negb andb]. rewrite Hc.
    change (c :: v ++ r) with ((c :: v) ++ r). rewrite <- E.
    pose proof (reads_escape _ _ value r covers_hdr Hv Hb Hs) as Hx. unfold reads in Hx. by rewrite Hx.
Qed.

Lemma reads_header u p sep r :
  sep <> 0 -> param_ok p -> header_stop r ->
  header_param u (mk_scanner (param_text p pjsip_HDR_CHAR_SPEC pjsip_HDR_CHAR_SPEC sep ++ r) 0) =
    Ret (u <| u_header_param := u_header_param u ++ [p] |>) (mk_scanner r 0).
Proof.
  intros Hs Hp Hr. pose proof (reads_hparam p sep r Hs Hp Hr) as H. unfold reads in H.
  unfold header_param, mbind, sip_bind. by rewrite H.
Qed.

Lemma header_text_stop l r : uri_stop r -> header_stop (params_text l pjsip_HDR_CHAR_SPEC pjsip_HDR_CHAR_SPEC 38 ++ r).
Proof.
  intros Hr. destruct l as [|p l]; [by apply uri_stop_header|]. right. cbn. intuition done.
Qed.

Lemma header_loop l u r n :
  Forall param_ok l -> uri_stop r ->
  (length (params_text l pjsip_HDR_CHAR_SPEC pjsip_HDR_CHAR_SPEC 38 ++ r) <= n)%nat ->
  while_loop n (is_char 38) header_param u
    (mk_scanner (params_text l pjsip_HDR_CHAR_SPEC pjsip_HDR_CHAR_SPEC 38 ++ r) 0) =
  Ret (u <| u_header_param := u_header_param u ++ l |>) (mk_scanner r 0).
Proof.
  intros Hl Hr. revert u n. induction Hl as [|p l Hp Hl IH]; intros u n Hn.
  - cbn [params_text app] in *.
    assert (E : is_char 38 (curchar r) = false).
    { destruct Hr as [->|[H _]]; [done|]. cbn in H. unfold is_char. destruct H as [<-|[<-|[]]]; done. }
    replace (u <| u_header_param := u_header_param u ++ [] |>) with u by (destruct u; cbn; by rewrite app_nil_r).
    destruct n; cbn [while_loop]; unfold mbind, sip_bind, cur; cbn [curptr]; by rewrite E.
  - cbn [params_text] in *. change (38 =? 63) with false in *. cbv iota in *. rewrite <- app_assoc in *.
    destruct n as [|n]; [cbn in Hn; lia|]. cbn [while_loop]. unfold mbind, sip_bind, cur. cbn [curptr].
    rewrite curchar_app by done. change (is_char 38 (curchar (param_text p _ _ 38))) with true. cbv beta iota.
    rewrite reads_header by (done || by apply header_text_stop).
    rewrite IH by (cbn in Hn; rewrite ?length_app in *; cbn in Hn; lia).
    destruct u. cbn. by rewrite <- app_assoc.
Qed.

(** The headers of a URI: a first one after a question mark, the others. *)
Definition read_headers (u : pjsip_sip_uri) : sip pjsip_sip_uri :=
  c ← cur;
  if c =? 63 then u ← header_param u; while_cur (is_char 38) header_param u else mret u.

Lemma reads_headers u l r :
  Forall param_ok l -> uri_stop r ->
  reads (read_headers u) (params_text l pjsip_HDR_CHAR_SPEC pjsip_HDR_CHAR_SPEC 63) r
    (u <| u_header_param := u_header_param u ++ l |>).
Proof.
  intros Hl Hr. unfold read_headers. apply reads_cur. destruct Hl as [|p l Hp Hl].
  - cbn [params_text app].
    replace (u <| u_header_param := u_header_param u ++ [] |>) with u by (destruct u; cbn; by rewrite app_nil_r).
    rewrite (proj2 (Z.eqb_neq _ _)); [apply reading_ret|].
    destruct Hr as [->|[H _]]; [done|]. cbn in H. destruct H as [<-|[<-|[]]]; done.
  - cbn [params_text]. change (63 =? 63) with true. cbv iota. rewrite <- app_assoc, curchar_app by done.
    change (curchar (param_text p _ _ 63) =? 63) with true. cbv iota.
    unfold reads, mbind, sip_bind. rewrite <- app_assoc, reads_header by (done || by apply header_text_stop).
    unfold while_cur, turns, mbind, sip_bind. cbn [curptr].
    rewrite header_loop by done. destruct u. cbn. by rewrite <- app_assoc.
Qed.

(** ** Hosts, users *)

Definition host_ok (h : list Z) : Prop :=
  h <> [] /\ Forall (fun c => pjsip_HOST_SPEC c || (c =? 58) = true) h.

#[export] Instance host_ok_dec h : Decision (host_ok h).
Proof. unfold host_ok. apply _. Defined.

Lemma host_stop_stops r : param_stop r \/ curchar r = 58 -> stops pjsip_HOST_SPEC r.
Proof.
  intros [[->|[H _]]|H]; [done| |]; [by eapply stops_in; [|exact H]; vm_compute|].
  eapply (stops_in _ [58]); [by vm_compute|]. rewrite H. by left.
Qed.

Lemma in_set_spec s c : in_set s c = true <-> In c s.
Proof.
  unfold in_set. rewrite existsb_exists. split; [intros (d & Hd & ->%Z.eqb_eq); done|].
  intros H. exists c. split; [done|apply Z.eqb_refl].
Qed.

Lemma reads_host h r :
  host_ok h -> param_stop r \/ curchar r = 58 -> reads int_parse_host (host_text h) r h.
Proof.
  intros [Hn Hf] Hr. unfold int_parse_host, host_text. apply reads_cur.
  assert (H91 : curchar h <> 91).
  { destruct h as [|c h]; [done|]. inversion Hf as [|? ? Hc]. subst. cbn. intros ->. done. }
  rewrite (proj2 (Z.eqb_neq (curchar h) 91)) by done. cbn [negb]. rewrite andb_true_r.
  destruct (in_set h 58) eqn:E.
  - cbn [app curchar]. change (91 =? 91) with true. cbv iota.
    change (91 :: h ++ [93]) with ([91] ++ (h ++ [93])).
    eapply reading_bind; [by apply reads_get_char|]. eapply reading_bind.
    + cbn [app]. apply reads_until_ch. eapply Forall_impl; [exact Hf|]. intros c Hc ->. done.
    + eapply reads_then; [by apply reads_get_char|apply reading_ret].
  - rewrite curchar_app by done. rewrite (proj2 (Z.eqb_neq (curchar h) 91)) by done.
    apply reads_scan_get; [done| |by apply host_stop_stops].
    rewrite Forall_forall in *. intros c Hc. specialize (Hf c Hc). apply orb_true_iff in Hf as [Hf|Hf%Z.eqb_eq]; [done|].
    subst c. exfalso. rewrite <- not_true_iff_false in E. apply E, in_set_spec. by apply list_elem_of_In.
Qed.

Lemma uri_scan_digits v r :
  0 <= v < 2 ^ 64 -> param_stop r -> reads (scan_get pjsip_DIGIT_SPEC) (pj_utoa v) r (pj_utoa v).
Proof.
  intros Hv Hr. apply reads_scan_get; [by apply utoa_nonempty| |].
  - eapply Forall_impl; [by apply utoa_digit|]. apply digit_spec.
  - destruct Hr as [->|[H _]]; [done|]. by eapply stops_in; [|exact H]; vm_compute.
Qed.

(** [print_port] with the condition of the context already decided. *)
Definition port_shown (port : Z) : list Z := if port =? 0 then [] else [58] ++ pj_utoa (int_to_ulong port).

Lemma reads_host_port h port r :
  host_ok h -> int_port port -> param_stop r ->
  reads int_parse_uri_host_port (host_text h ++ port_shown port) r (h, port).
Proof.
  unfold int_port. intros Hh Hp Hr. unfold int_parse_uri_host_port, port_shown.
  assert (H64 : 0 <= port < 2 ^ 64) by lia.
  destruct (Z.eqb_spec port 0) as [->|Hne].
  - rewrite app_nil_r. eapply reads_then; [by apply reads_host; [|left]|]. apply reads_cur. cbn [app].
    rewrite (proj2 (Z.eqb_neq _ _)); [apply reading_ret|].
    destruct Hr as [->|[H _]]; [done|]. cbn in H. intuition lia.
  - eapply reading_bind; [by apply reads_host; [|right]|]. apply reads_cur. cbn [app curchar].
    change (58 =? 58) with true. cbv iota. change (58 :: ?v) with ([58] ++ v).
    eapply reading_bind; [by apply reads_get_char|].
    unfold int_to_ulong. rewrite Z.mod_small by lia.
    eapply reads_then; [by apply uri_scan_digits|]. unfold reads, mbind, sip_bind.
    by rewrite strtoi_utoa by (unfold PJ_MAXINT32, PJSIP_MAX_PORT; lia).
Qed.

(** ** The URI *)

(** A URI that the text of shows: an IPv6 address without its brackets as the
    host, text without escape sequences, values that are not quoted. *)
Record sip_uri_ok (u : pjsip_sip_uri) : Prop := {
  ok_user : plain (u_user u);
  ok_passwd : plain (u_passwd u);
  ok_no_user : u_user u = [] -> u_passwd u = [];
  ok_host : host_ok (u_host u);
  ok_port : int_port (u_port u);
  ok_user_param : param_text_ok (u_user_param u);
  ok_method : plain (u_method_param u);
  ok_transport : plain (u_transport_param u);
  ok_ttl : -1 <= u_ttl_param u <= PJSIP_MAX_TTL;
  ok_maddr : maddr_ok (u_maddr_param u);
  ok_other : Forall (fun p => param_ok p /\ reserved p = false) (u_other_param u);
  ok_header : Forall param_ok (u_header_param u)
}.

(** What a context shows of a URI. *)
Definition seen_in (allow_port_in_fromto_hdr : bool) (context : pjsip_uri_context) (u : pjsip_sip_uri) :
    pjsip_sip_uri :=
  mk_sip_uri (u_secure u) (u_user u) (u_passwd u) (u_host u)
    (if negb (in_fromto context) || allow_port_in_fromto_hdr then u_port u else 0)
    (u_user_param u)
    (if in_other context then u_method_param u else [])
    (if negb (in_fromto context) then u_transport_param u else [])
    (if negb (in_fromto context) && negb (in_routing context) then u_ttl_param u else -1)
    (u_lr_param u && negb (in_fromto context) && negb (in_contact context))
    (if negb (in_fromto context) then u_maddr_param u else [])
    (u_other_param u)
    (if in_contact context || in_other context then u_header_param u else []).

Lemma begins_app t t' : begins t -> begins t' -> begins (t ++ t').
Proof. intros [->|(x & ->)] H; [done|]. right. by eexists. Qed.

Lemma begins_if (b : bool) t : begins t -> begins (if b then t else []).
Proof. destruct b; [done|by left]. Qed.

Ltac begins := first
  [ apply begins_if; begins
  | by left
  | unfold pair_text; destruct (slen _ =? 0); [by left|right; by eexists]
  | right; by eexists ].

Lemma runs_if (b : bool) u t u' : (b = true -> runs u t u') -> (b = false -> u' = u) -> runs u (if b then t else []) u'.
Proof. destruct b; intros H1 H2; [by apply H1|]. rewrite H2 by done. apply runs_nil. Qed.

(** What [while_cur] reads of the parameters. *)
Lemma runs_uri_params context s us pw h p up me tr ttl lr ma ot hd :
  let u := mk_sip_uri s us pw h p up me tr ttl lr ma ot hd in
  sip_uri_ok u ->
  runs (mk_sip_uri s us pw h p [] [] [] (-1) false [] [] [])
    (uri_params_text context u ++ params_text ot pjsip_PARAM_CHAR_SPEC pjsip_PARAM_CHAR_SPEC 59)
    (mk_sip_uri s us pw h p up (if in_other context then me else [])
       (if negb (in_fromto context) then tr else [])
       (if negb (in_fromto context) && negb (in_routing context) then ttl else -1)
       (lr && negb (in_fromto context) && negb (in_contact context))
       (if negb (in_fromto context) then ma else []) ot []).
Proof.
  intros u [Hus Hpw Hnu Hh Hp Hup Hme Htr Httl Hma Hot Hhd]. subst u. cbn [u_user u_passwd u_host u_port
    u_user_param u_method_param u_transport_param u_ttl_param u_lr_param u_maddr_param u_other_param u_header_param] in *.
  unfold uri_params_text. cbn [u_user_param u_method_param u_transport_param u_ttl_param u_lr_param u_maddr_param].
  rewrite <- !app_assoc.
  eapply runs_app; [by apply runs_user_param| |repeat apply begins_app; (apply params_begin || begins)].
  eapply runs_app with (u1 := mk_sip_uri s us pw h p up (if in_other context then me else []) [] (-1) false [] [] []);
    [apply runs_if; [intros ->; by apply (runs_method (mk_sip_uri s us pw h p up [] [] (-1) false [] [] []))|by intros ->]
    | |repeat apply begins_app; (apply params_begin || begins)].
  set (me' := if in_other context then me else []).
  eapply runs_app with (u1 := mk_sip_uri s us pw h p up me' (if negb (in_fromto context) then tr else []) (-1) false [] [] []);
    [apply runs_if; [intros ->; by apply (runs_transport (mk_sip_uri s us pw h p up me' [] (-1) false [] [] []))|by intros ->]
    | |repeat apply begins_app; (apply params_begin || begins)].
  set (tr' := if negb (in_fromto context) then tr else []).
  set (ttl' := if negb (in_fromto context) && negb (in_routing context) then ttl else -1).
  eapply runs_app with (u1 := mk_sip_uri s us pw h p up me' tr' ttl' false [] [] []);
    [apply runs_if| |repeat apply begins_app; (apply params_begin || begins)].
  { rewrite !andb_true_iff. intros [[H0%Z.leb_le H1] H2]. subst ttl'. rewrite H1, H2.
    apply (runs_ttl (mk_sip_uri s us pw h p up me' tr' (-1) false [] [] [])). lia. }
  { subst ttl'. rewrite <- andb_assoc. destruct (negb (in_fromto context) && negb (in_routing context)); [|done]. rewrite andb_true_r. intros H0%Z.leb_gt.
    by replace ttl with (-1) by lia. }
  set (ma' := if negb (in_fromto context) then ma else []).
  eapply runs_app with (u1 := mk_sip_uri s us pw h p up me' tr' ttl' false ma' [] []);
    [apply runs_if| |repeat apply begins_app; (apply params_begin || begins)].
  { rewrite andb_true_iff, slen_empty. intros [H1 H2%negb_true_iff%bool_decide_eq_false_1]. subst ma'. rewrite H1.
    by apply (runs_maddr (mk_sip_uri s us pw h p up me' tr' ttl' false [] [] [])). }
  { subst ma'. destruct (negb (in_fromto context)); [|done]. rewrite slen_empty.
    intros H%negb_false_iff%bool_decide_eq_true_1. by rewrite H. }
  set (lr' := lr && negb (in_fromto context) && negb (in_contact context)).
  eapply runs_app with (u1 := mk_sip_uri s us pw h p up me' tr' ttl' lr' ma' [] []);
    [apply runs_if; [intros ->; apply (runs_lr (mk_sip_uri s us pw h p up me' tr' ttl' false ma' [] []))|by intros ->]
    | |apply params_begin].
  by apply (runs_params (mk_sip_uri s us pw h p up me' tr' ttl' lr' ma' [] []) ot).
Qed.

Lemma headers_text_stop (b : bool) l r :
  uri_stop r ->
  param_stop ((if b then params_text l pjsip_HDR_CHAR_SPEC pjsip_HDR_CHAR_SPEC 63 else []) ++ r) /\
  (uri_stop ((if b then params_text l pjsip_HDR_CHAR_SPEC pjsip_HDR_CHAR_SPEC 63 else []) ++ r) \/
   curchar ((if b then params_text l pjsip_HDR_CHAR_SPEC pjsip_HDR_CHAR_SPEC 63 else []) ++ r) = 63).
Proof.
  intros Hr. destruct b; [|split; [by apply uri_stop_param|by left]].
  destruct l as [|p l]; [split; [by apply uri_stop_param|by left]|].
  split; [right; cbn; intuition done|by right].
Qed.

Lemma begins_stop t r : begins t -> param_stop r -> param_stop (t ++ r).
Proof. intros [->|(x & ->)] Hr; [done|]. right. cbn. intuition done. Qed.

Lemma reads_params context s us pw h p up me tr ttl lr ma ot hd r :
  let u := mk_sip_uri s us pw h p up me tr ttl lr ma ot hd in
  let u1 := mk_sip_uri s us pw h p up (if in_other context then me else [])
       (if negb (in_fromto context) then tr else [])
       (if negb (in_fromto context) && negb (in_routing context) then ttl else -1)
       (lr && negb (in_fromto context) && negb (in_contact context))
       (if negb (in_fromto context) then ma else []) ot [] in
  sip_uri_ok u -> param_stop r -> uri_stop r \/ curchar r = 63 ->
  reads (while_cur (is_char 59) uri_param (mk_sip_uri s us pw h p [] [] [] (-1) false [] [] []))
    (uri_params_text context u ++ params_text ot pjsip_PARAM_CHAR_SPEC pjsip_PARAM_CHAR_SPEC 59) r u1.
Proof.
  intros u u1 Hu Hr Hr'. unfold reads, while_cur, turns, mbind, sip_bind. cbn [curptr].
  destruct (runs_uri_params context s us pw h p up me tr ttl lr ma ot hd Hu r _ Hr (le_n _)) as (m & _ & E).
  unfold loop_at in E. fold u in E. rewrite E. by apply loop_end.
Qed.

Lemma uri_params_begin context u : begins (uri_params_text context u).
Proof. unfold uri_params_text. repeat apply begins_app; begins. Qed.

(** ** Is there a user? *)

Lemma covers_probe_user : covers pjsip_PROBE_USER_HOST_SPEC pjsip_USER_SPEC_LENIENT. Proof. covers. Qed.
Lemma covers_probe_passwd : covers pjsip_PROBE_USER_HOST_SPEC pjsip_PASSWD_SPEC. Proof. covers. Qed.
Lemma covers_probe_param : covers pjsip_PROBE_USER_HOST_SPEC pjsip_PARAM_CHAR_SPEC. Proof. covers. Qed.
Lemma covers_probe_hdr : covers pjsip_PROBE_USER_HOST_SPEC pjsip_HDR_CHAR_SPEC. Proof. covers. Qed.
Lemma covers_user : covers pjsip_USER_SPEC_LENIENT pjsip_USER_SPEC_LENIENT. Proof. covers. Qed.
Lemma covers_passwd : covers pjsip_PASSWD_SPEC pjsip_PASSWD_SPEC. Proof. covers. Qed.

Lemma covers_user_spec allow : covers pjsip_USER_SPEC_LENIENT (user_spec allow).
Proof. destruct allow; [apply covers_user|]. unfold user_spec. covers. Qed.

Lemma covers_probe_user_spec allow : covers pjsip_PROBE_USER_HOST_SPEC (user_spec allow).
Proof. destruct allow; [apply covers_probe_user|]. unfold user_spec. covers. Qed.

(** Text that the search for the at sign passes over. *)
Definition probed (t : list Z) : Prop := Forall (fun c => pjsip_PROBE_USER_HOST_SPEC c = true) t.

Lemma probed_lit (b : string) t : forallb pjsip_PROBE_USER_HOST_SPEC (lit b) = true -> probed t -> probed (lit b ++ t).
Proof. intros H Ht. apply Forall_app. split; [|done]. apply Forall_forall. intros c Hc%list_elem_of_In. by eapply forallb_forall in H. Qed.

Lemma probed_param p ns sep :
  covers pjsip_PROBE_USER_HOST_SPEC ns -> pjsip_PROBE_USER_HOST_SPEC sep = true -> curchar (p_value p) <> 34 ->
  probed (param_text p ns ns sep).
Proof.
  intros Hc Hs Hq. unfold param_text, probed. apply Forall_app. split; [by repeat constructor|].
  apply Forall_app. split; [by apply escape_forall|]. destruct (negb _); [|constructor].
  apply Forall_app. split; [by repeat constructor|]. rewrite (proj2 (Z.eqb_neq _ _)) by done. by apply escape_forall.
Qed.

Lemma probed_params l ns sep :
  covers pjsip_PROBE_USER_HOST_SPEC ns -> In sep [59; 63; 38] -> Forall param_ok l -> probed (params_text l ns ns sep).
Proof.
  intros Hc Hs Hl. revert sep Hs. induction Hl as [|p l (_ & _ & _ & Hq) Hl IH]; intros sep Hs; [constructor|].
  cbn [params_text]. apply Forall_app. split.
  - apply probed_param; [done| |done]. cbn in Hs. by destruct Hs as [<-|[<-|[<-|[]]]].
  - apply IH. cbn in Hs. destruct Hs as [<-|[<-|[<-|[]]]]; cbn; intuition.
Qed.

Lemma probed_pair b v : forallb pjsip_PROBE_USER_HOST_SPEC (lit b) = true -> probed v -> probed (pair_text (lit b) v).
Proof. intros Hb Hv. unfold pair_text. destruct (slen v =? 0); [constructor|]. by apply probed_lit. Qed.

Lemma probed_if (b : bool) t : (b = true -> probed t) -> probed (if b then t else []).
Proof. destruct b; [auto|constructor]. Qed.

Lemma probed_number v : 0 <= v < 2 ^ 64 -> probed (pj_utoa (int_to_ulong v)).
Proof. intros Hv. unfold int_to_ulong. rewrite Z.mod_small by lia. apply digits_in; [char_class|done]. Qed.

Lemma probed_forall (spec : Z -> bool) v :
  (forall c, spec c = true -> pjsip_PROBE_USER_HOST_SPEC c = true) -> Forall (fun c => spec c = true) v -> probed v.
Proof. intros H Hv. eapply Forall_impl; [exact Hv|]. intros c Hc. by apply H. Qed.

Lemma probed_host h : host_ok h -> probed (host_text h).
Proof.
  intros [_ Hf]. assert (Hp : probed h).
  { eapply Forall_impl; [exact Hf|]. cbn. intros c [Hc|Hc%Z.eqb_eq]%orb_true_iff; [|by subst c].
    revert c Hc. char_class. }
  unfold host_text. destruct (_ && _); [|done]. apply Forall_app. split; [by repeat constructor|].
  apply Forall_app. split; [done|by repeat constructor].
Qed.

Lemma probed_maddr m : maddr_ok m -> probed (maddr_text m).
Proof.
  intros Hm. unfold maddr_text. apply probed_lit; [by vm_compute|]. unfold host_text.
  destruct Hm as [->|[[-> _]|[-> [H _]]]]; [by vm_compute|apply escape_forall, covers_probe_param|].
  change (91 =? 91) with true. cbn [negb]. rewrite andb_false_r.
  destruct (in_set m 58); [|apply escape_forall, covers_probe_param].
  eapply probed_forall; [|exact H]. apply covers_probe_param.
Qed.

Lemma probed_uri_params context u : sip_uri_ok u -> probed (uri_params_text context u).
Proof.
  intros Hu. unfold uri_params_text. unfold PJSIP_MAX_TTL in *. pose proof (ok_ttl u Hu) as Ht. unfold PJSIP_MAX_TTL in Ht.
  apply Forall_app; split; [apply probed_pair; [by vm_compute|]; eapply probed_forall; [|apply (ok_user_param u Hu)]; apply covers_probe_param|].
  apply Forall_app; split; [apply probed_if; intros _; apply probed_pair; [by vm_compute|apply escape_forall, covers_probe_param]|].
  apply Forall_app; split; [apply probed_if; intros _; apply probed_pair; [by vm_compute|apply escape_forall, covers_probe_param]|].
  apply Forall_app; split.
  { apply probed_if. intros [[H0%Z.leb_le _]%andb_true_iff _]%andb_true_iff. apply probed_lit; [by vm_compute|].
    apply probed_number. lia. }
  apply Forall_app; split; [apply probed_if; intros _; apply probed_maddr, (ok_maddr u Hu)|].
  apply probed_if. intros _. rewrite <- (app_nil_r (lit ";lr")). apply probed_lit; [by vm_compute|constructor].
Qed.

Section uri.
Context (allow_tx_hash_in_uri allow_port_in_fromto_hdr : bool).
Local Abbreviation text := (uri_text allow_tx_hash_in_uri allow_port_in_fromto_hdr).
Local Abbreviation seen := (seen_in allow_port_in_fromto_hdr).

(** The text after the user. *)
Definition uri_rest (context : pjsip_uri_context) (u : pjsip_sip_uri) : list Z :=
  (host_text (u_host u) ++ port_shown (u_port (seen context u))) ++
  (uri_params_text context u ++ params_text (u_other_param u) pjsip_PARAM_CHAR_SPEC pjsip_PARAM_CHAR_SPEC 59) ++
  (if in_contact context || in_other context
   then params_text (u_header_param u) pjsip_HDR_CHAR_SPEC pjsip_HDR_CHAR_SPEC 63 else []).

Lemma uri_text_split context u :
  text context u = pjsip_url_get_scheme u ++ [58] ++ userinfo_text allow_tx_hash_in_uri u ++ uri_rest context u.
Proof.
  unfold uri_text, uri_rest, uri_tail_text. do 3 f_equal. rewrite <- !app_assoc. do 2 f_equal.
  unfold port_text, port_shown. cbn [u_port seen_in]. fold (in_fromto context).
  destruct (_ || _); [|by rewrite andb_false_r]. rewrite andb_true_r. by destruct (u_port u =? 0).
Qed.

Lemma seen_port context u : int_port (u_port u) -> int_port (u_port (seen context u)).
Proof. unfold int_port. cbn. destruct (_ || _); lia. Qed.

Lemma probed_rest context u : sip_uri_ok u -> probed (uri_rest context u).
Proof.
  intros Hu. unfold uri_rest. apply Forall_app; split; [|apply Forall_app; split]; [apply Forall_app; split..|].
  - apply probed_host, (ok_host u Hu).
  - pose proof (seen_port context u (ok_port u Hu)) as Hp. unfold int_port in Hp. unfold port_shown.
    destruct (_ =? 0); [constructor|]. apply Forall_app. split; [by repeat constructor|]. apply probed_number. lia.
  - by apply probed_uri_params.
  - apply probed_params; [apply covers_probe_param|by left|]. eapply Forall_impl; [apply (ok_other u Hu)|]. by intros p [H _].
  - apply probed_if. intros _. apply probed_params; [apply covers_probe_hdr|cbn; intuition|apply (ok_header u Hu)].
Qed.

Lemma rest_nonempty context u : sip_uri_ok u -> uri_rest context u <> [].
Proof.
  intros Hu. unfold uri_rest, host_text. destruct (ok_host u Hu) as [Hh _]. destruct (u_host u) as [|c h]; [done|].
  by destruct (_ && _).
Qed.

Lemma peek_at spec t d r :
  t ++ d :: r <> [] -> Forall (fun c => spec c = true) t -> spec d = false ->
  scan_peek spec (mk_scanner (t ++ d :: r) 0) = Ret (t, d) (mk_scanner (t ++ d :: r) 0).
Proof.
  intros Hn Ht Hd. unfold scan_peek. cbn [curptr]. rewrite span_app by done.
  by destruct t.
Qed.

Lemma next_user context u r :
  sip_uri_ok u -> uri_stop r ->
  let s := mk_scanner (userinfo_text allow_tx_hash_in_uri u ++ uri_rest context u ++ r) 0 in
  int_is_next_user s = Ret (negb (slen (u_user u) =? 0)) s.
Proof.
  intros Hu Hr s. subst s. unfold int_is_next_user, mbind, sip_bind, userinfo_text.
  destruct (slen (u_user u) =? 0) eqn:E; cbn [negb].
  - cbn [app]. pose proof (probed_rest context u Hu) as Hp. pose proof (rest_nonempty context u Hu) as Hn.
    unfold scan_peek. cbn [curptr].
    assert (Hs : scan_span pjsip_PROBE_USER_HOST_SPEC (uri_rest context u ++ r) = (uri_rest context u, r)).
    { apply span_app; [done|]. destruct Hr as [->|[H Hne]]; [done|]. destruct r as [|d r]; [done|].
      cbn in H. destruct H as [<-|[<-|[]]]; done. }
    rewrite Hs. destruct (uri_rest context u) as [|c t]; [done|]. cbn [app].
    destruct Hr as [->|[H Hne]]; [done|]. cbn in H. by destruct H as [<-|[<-|[]]].
  - rewrite <- !app_assoc. cbn [app].
    match goal with |- context [scan_peek _ (mk_scanner (?a ++ ?b ++ 64 :: ?c) 0)] =>
      rewrite (app_assoc a b); rewrite (peek_at _ (a ++ b) 64 c) end; [done|by intros [_ ?]%app_nil| |done].
    apply Forall_app. split; [apply escape_forall, covers_probe_user_spec|]. destruct (negb _); [|constructor].
    constructor; [done|apply escape_forall, covers_probe_passwd].
Qed.

Lemma reads_user u r :
  sip_uri_ok u -> u_user u <> [] ->
  reads int_parse_user_pass (userinfo_text allow_tx_hash_in_uri u) r (u_user u, u_passwd u).
Proof.
  intros Hu Hne. unfold int_parse_user_pass, userinfo_text. rewrite slen_empty, bool_decide_eq_false_2 by done. cbn [negb].
  assert (Hst : forall c t, In c [58; 64] -> stops pjsip_USER_SPEC_LENIENT (c :: t)).
  { intros c t Hc. by eapply (stops_in _ [58; 64]); [by vm_compute|]. }
  eapply reading_bind.
  { eapply reads_escape; [apply covers_user_spec|apply (ok_user u Hu)|done|].
    rewrite slen_empty. case_bool_decide; cbn [negb app]; apply Hst; cbn; intuition. }
  apply reads_cur. rewrite slen_empty. case_bool_decide as Hp; cbn [negb app curchar].
  - rewrite Hp. change (64 =? 58) with false. cbv iota. change [64] with ([] ++ [64]).
    eapply reading_bind; [apply reading_ret|]. eapply reads_then; [by apply reads_get_char|apply reading_ret].
  - change (58 =? 58) with true. cbv iota.
    change (58 :: ?v ++ [64]) with ((58 :: v) ++ [64]). eapply reading_bind.
    { change (58 :: ?v) with ([58] ++ v). eapply reading_bind; [by apply reads_get_char|].
      eapply reads_escape; [apply covers_passwd|apply (ok_passwd u Hu)|done|done]. }
    eapply reads_then; [by apply reads_get_char|apply reading_ret].
Qed.

(** The text of a URI, before something that no URI goes on with. *)
Lemma reads_sip_url context u r flags :
  sip_uri_ok u -> uri_stop r ->
  int_parse_sip_url true (mk_scanner (text context u ++ r) flags) =
    Ret (SipUri (seen context u)) (mk_scanner (pj_scan_skip_whitespace flags r) flags).
Proof.
  intros Hu Hr. unfold int_parse_sip_url.
  rewrite (bind_ret get_skip_ws _ (mk_scanner (text context u ++ r) flags) flags (mk_scanner (text context u ++ r) flags) eq_refl).
  rewrite (bind_ret (set_skip_ws 0) _ (mk_scanner (text context u ++ r) flags) tt (mk_scanner (text context u ++ r) 0) eq_refl).
  rewrite uri_text_split, <- !app_assoc.
  assert (Hsch : pjsip_url_get_scheme u <> [] /\
                 Forall (fun c => pjsip_TOKEN_SPEC c = true) (pjsip_url_get_scheme u)).
  { unfold pjsip_url_get_scheme. destruct (u_secure u); (split; [done|]); repeat constructor. }
  destruct Hsch as [Hsn Hsf].
  match goal with |- mbind _ _ (mk_scanner (_ ++ ?y) 0) = _ =>
    pose proof (reads_scan_get pjsip_TOKEN_SPEC (pjsip_url_get_scheme u) y Hsn Hsf eq_refl) as H1 end.
  rewrite (bind_ret _ _ _ _ _ H1). clear H1.
  match goal with |- mbind _ _ (mk_scanner (_ ++ ?y) 0) = _ =>
    pose proof (reads_get_char 58 y ltac:(done)) as H1 end.
  rewrite (bind_ret _ _ _ _ _ H1). clear H1.
  change (negb (58 =? 58)) with false. cbv iota.
  assert (Hs : (if parser_stricmp_eq (pjsip_url_get_scheme u) (lit "sip") then mret (pjsip_sip_uri_create false)
       else if parser_stricmp_eq (pjsip_url_get_scheme u) (lit "sips") then mret (pjsip_sip_uri_create true)
       else on_syntax_error) = (mret (pjsip_sip_uri_create (u_secure u)) : sip pjsip_sip_uri)).
  { unfold pjsip_url_get_scheme. by destruct (u_secure u). }
  rewrite Hs. clear Hs Hsn Hsf.
  match goal with |- mbind _ _ ?s = _ => rewrite (bind_ret (mret (pjsip_sip_uri_create (u_secure u))) _ s _ s eq_refl) end.
  rewrite (bind_ret _ _ _ _ _ (next_user context u r Hu Hr)).
  destruct u as [sec us pw h p up me tr ttl lr ma ot hd].
  assert (Huser : (if negb (slen us =? 0) then int_parse_user_pass else mret ([], []))
     (mk_scanner (userinfo_text allow_tx_hash_in_uri (mk_sip_uri sec us pw h p up me tr ttl lr ma ot hd) ++
        uri_rest context (mk_sip_uri sec us pw h p up me tr ttl lr ma ot hd) ++ r) 0) =
     Ret (us, pw) (mk_scanner (uri_rest context (mk_sip_uri sec us pw h p up me tr ttl lr ma ot hd) ++ r) 0)).
  { rewrite slen_empty. case_bool_decide as Hb; cbn [negb].
    - pose proof (ok_no_user _ Hu Hb) as Hpw. cbn in Hpw. subst. unfold userinfo_text. by cbn [u_user].
    - by apply (reads_user (mk_sip_uri sec us pw h p up me tr ttl lr ma ot hd)). }
  cbn [u_user]. rewrite (bind_ret _ _ _ _ _ Huser). clear Huser. cbv iota.
  unfold uri_rest. cbn [u_host u_other_param u_header_param]. rewrite <- !app_assoc.
  set (hdrs := if in_contact context || in_other context
               then params_text hd pjsip_HDR_CHAR_SPEC pjsip_HDR_CHAR_SPEC 63 else []).
  destruct (headers_text_stop (in_contact context || in_other context) hd r Hr) as [Hst Hend].
  fold hdrs in Hst, Hend.
  pose proof (reads_host_port h (u_port (seen context (mk_sip_uri sec us pw h p up me tr ttl lr ma ot hd)))
    (uri_params_text context (mk_sip_uri sec us pw h p up me tr ttl lr ma ot hd) ++
     params_text ot pjsip_PARAM_CHAR_SPEC pjsip_PARAM_CHAR_SPEC 59 ++ hdrs ++ r) (ok_host _ Hu)
    (seen_port _ _ (ok_port _ Hu))) as H1.
  unfold reads in H1. rewrite <- app_assoc in H1. rewrite (bind_ret _ _ _ _ _ (H1 ltac:(apply begins_stop;
    [apply uri_params_begin|apply begins_stop; [apply params_begin|done]]))). clear H1. cbv iota.
  set (p' := u_port (seen _ _)).
  assert (Hu' : sip_uri_ok (mk_sip_uri sec us pw h p' up me tr ttl lr ma ot hd)).
  { pose proof (seen_port context _ (ok_port _ Hu)) as Hsp. fold p' in Hsp. destruct Hu. by constructor. }
  pose proof (reads_params context sec us pw h p' up me tr ttl lr ma ot hd (hdrs ++ r) Hu' Hst Hend) as H1.
  unfold reads in H1. rewrite <- app_assoc in H1.
  change (pjsip_sip_uri_create sec <| u_user := us |> <| u_passwd := pw |> <| u_host := h |> <| u_port := p' |>) with
    (mk_sip_uri sec us pw h p' [] [] [] (-1) false [] [] []).
  change (uri_params_text context (mk_sip_uri sec us pw h p up me tr ttl lr ma ot hd)) with
    (uri_params_text context (mk_sip_uri sec us pw h p' up me tr ttl lr ma ot hd)).
  rewrite (bind_ret _ _ _ _ _ H1). clear H1. set (u1 := mk_sip_uri _ _ _ _ _ _ _ _ _ _ _ _ _).
  assert (Hh : read_headers u1 (mk_scanner (hdrs ++ r) 0) =
     Ret (u1 <| u_header_param := if in_contact context || in_other context then hd else [] |>) (mk_scanner r 0)).
  { subst hdrs. destruct (in_contact context || in_other context).
    - apply (reads_headers u1 hd r (ok_header _ Hu) Hr).
    - apply (reads_headers u1 [] r (Forall_nil_2 _) Hr). }
  unfold read_headers, mbind at 1, sip_bind at 1, cur in Hh.
  unfold mbind at 1, sip_bind at 1, cur. cbn [curptr andb] in *.
  unfold mbind at 1, sip_bind at 1. rewrite Hh. done.
Qed.
End uri.

(** ** The public functions *)

Lemma scheme_handler u : find_uri_handler (pjsip_url_get_scheme u) = int_parse_sip_url.
Proof. unfold pjsip_url_get_scheme. by destruct (u_secure u). Qed.

Lemma scheme_display u y :
  scan_span pjsip_DISPLAY_SPEC (pjsip_url_get_scheme u ++ 58 :: y) = (pjsip_url_get_scheme u, 58 :: y).
Proof. apply span_app; [|done]. unfold pjsip_url_get_scheme. by destruct (u_secure u); repeat constructor. Qed.

Lemma scheme_token u y :
  scan_span pjsip_TOKEN_SPEC (pjsip_url_get_scheme u ++ 58 :: y) = (pjsip_url_get_scheme u, 58 :: y).
Proof. apply span_app; [|done]. unfold pjsip_url_get_scheme. by destruct (u_secure u); repeat constructor. Qed.

Lemma scheme_head u y : exists z, pjsip_url_get_scheme u ++ y = 115 :: z.
Proof. unfold pjsip_url_get_scheme. destruct (u_secure u); by eexists. Qed.

Section uri.
Context (allow_tx_hash_in_uri allow_port_in_fromto_hdr : bool).
Local Abbreviation text := (uri_text allow_tx_hash_in_uri allow_port_in_fromto_hdr).
Local Abbreviation seen := (seen_in allow_port_in_fromto_hdr).

Lemma text_head context u r : exists z, text context u ++ r = 115 :: z.
Proof. unfold uri_text. rewrite <- app_assoc. apply scheme_head. Qed.

Lemma text_shape context u r : exists y, text context u ++ r = pjsip_url_get_scheme u ++ 58 :: y.
Proof. unfold uri_text. rewrite <- !app_assoc. by eexists. Qed.

(** [int_parse_uri], and [int_parse_uri_or_name_addr] where a header may not
    have the parameters. *)
Lemma parse_uri_text context u r flags :
  sip_uri_ok u -> uri_stop r ->
  int_parse_uri true (mk_scanner (text context u ++ r) flags) =
    Ret (SipUri (seen context u)) (mk_scanner (pj_scan_skip_whitespace flags r) flags).
Proof.
  intros Hu Hr. unfold int_parse_uri. destruct (text_shape context u r) as [y Hy].
  assert (Hp : scan_peek pjsip_TOKEN_SPEC (mk_scanner (text context u ++ r) flags) =
               Ret (pjsip_url_get_scheme u, 58) (mk_scanner (text context u ++ r) flags)).
  { unfold scan_peek. cbn [curptr]. rewrite Hy, scheme_token. destruct (scheme_head u (58 :: y)) as [z ->]. done. }
  rewrite (bind_ret _ _ _ _ _ Hp). cbv iota. change (negb (58 =? 58)) with false. cbv iota.
  rewrite scheme_handler. by apply reads_sip_url.
Qed.

Lemma not_space_head c x flags : scan_is_probably_space c = false -> pj_scan_skip_whitespace flags (c :: x) = c :: x.
Proof. apply skip_whitespace_head. Qed.

Lemma parse_bare_text context u :
  sip_uri_ok u -> pjsip_parse_uri (text context u) false false = Some (Some (Uri (SipUri (seen context u)))).
Proof.
  intros Hu. unfold pjsip_parse_uri, run_scanner, pj_scan_init. change (negb (0 =? 0)) with false. cbv iota.
  destruct (text_shape context u []) as [y Hy]. destruct (text_head context u []) as [z Hz]. rewrite app_nil_r in *.
  unfold int_parse_uri_or_name_addr.
  assert (Hw : skip_whitespace (mk_scanner (text context u) 0) = Ret tt (mk_scanner (text context u) 0)).
  { unfold skip_whitespace. cbn [skip_ws curptr]. rewrite Hz. by rewrite not_space_head. }
  rewrite (bind_ret _ _ _ _ _ Hw).
  assert (Hc : cur (mk_scanner (text context u) 0) = Ret 115 (mk_scanner (text context u) 0)).
  { unfold cur. cbn [curptr]. by rewrite Hz. }
  rewrite (bind_ret _ _ _ _ _ Hc). change ((115 =? 34) || (115 =? 60)) with false. cbv iota.
  assert (Hp : scan_peek pjsip_DISPLAY_SPEC (mk_scanner (text context u) 0) =
               Ret (pjsip_url_get_scheme u, 58) (mk_scanner (text context u) 0)).
  { unfold scan_peek. cbn [curptr]. rewrite Hy, scheme_display. destruct (scheme_head u (58 :: y)) as [z' ->]. done. }
  rewrite (bind_ret _ _ _ _ _ Hp). cbv iota. change (58 =? 58) with true. cbv iota.
  rewrite scheme_handler. cbn [negb].
  pose proof (reads_sip_url allow_tx_hash_in_uri allow_port_in_fromto_hdr context u [] 0 Hu (or_introl eq_refl)) as H.
  rewrite app_nil_r in H. by rewrite (bind_ret _ _ _ _ _ H).
Qed.
End uri.

(** C6: a SIP URI within [sip_uri_ok] that is printed in a context and parsed
    is the URI as the context shows it, as often as printing succeeds, and
    printing succeeds with enough room. [sip_uri_ok] asks for a user, password,
    parameter names and values without a percent sign followed by two
    hexadecimal digits ([percent_lost] shows what is lost otherwise), a
    password only with a user, a host that is not empty and is held without
    brackets, a port up to 65535 and a ttl up to 255, an IPv6 maddr held with
    its brackets ([maddr_brackets]), and other parameters that have a name
    which is not one of the known ones and no value that starts with a quote. *)
Theorem sip_uri_roundtrip allow_tx_hash_in_uri allow_port_in_fromto_hdr context u size :
  sip_uri_ok u ->
  (forall t, pjsip_url_print allow_tx_hash_in_uri allow_port_in_fromto_hdr context u size = Some t ->
     slen t < size /\
     pjsip_parse_uri t false false = Some (Some (Uri (SipUri (seen_in allow_port_in_fromto_hdr context u))))) /\
  (slen (uri_text allow_tx_hash_in_uri allow_port_in_fromto_hdr context u) + 16 < size ->
     exists t, pjsip_url_print allow_tx_hash_in_uri allow_port_in_fromto_hdr context u size = Some t).
Proof.
  intros Hu. pose proof (ok_ttl u Hu) as Ht. unfold PJSIP_MAX_TTL in Ht.
  destruct (url_print_spec allow_tx_hash_in_uri allow_port_in_fromto_hdr context u size (ok_port u Hu)) as [H1 H2].
  { unfold int_ttl, PJ_MAXINT32. lia. }
  split; [|by eexists; apply H2]. intros t Hp. apply H1 in Hp as [-> Hs]. split; [done|]. by apply parse_bare_text.
Qed.

(** ** Name addresses *)

(** The display name is printed between quotes as it is. *)
Definition display_ok (d : list Z) : Prop := lacks 34 d /\ lacks 10 d /\ lacks 92 d.

Lemma quoted_app c x r : lacks c x -> lacks 10 x -> lacks 92 x -> c <> 92 -> quoted c false (x ++ c :: r) = Some (x, r).
Proof.
  intros H1 H2 H3 Hc. induction x as [|d x IH]; cbn [app quoted].
  - by rewrite Z.eqb_refl.
  - inversion H1 as [|? ? E1 F1]; inversion H2 as [|? ? E2 F2]; inversion H3 as [|? ? E3 F3]. subst.
    rewrite (proj2 (Z.eqb_neq d c)), (proj2 (Z.eqb_neq d 10)), (proj2 (Z.eqb_neq d 92)) by done. cbn [andb].
    by rewrite IH.
Qed.

Section name_addr.
Context (allow_tx_hash_in_uri allow_port_in_fromto_hdr : bool).
Local Abbreviation text := (uri_text allow_tx_hash_in_uri allow_port_in_fromto_hdr).
Local Abbreviation seen := (seen_in allow_port_in_fromto_hdr).

Definition display_text (d : list Z) : list Z := if slen d =? 0 then [] else [34] ++ d ++ [34; 32].

(** [name_addr_text] is what is printed outside of a request line. *)
Definition name_addr_text (context : pjsip_uri_context) (d : list Z) (u : pjsip_sip_uri) : list Z :=
  display_text d ++ [60] ++ text context u ++ [62].

Lemma name_addr_prints context d u size t :
  int_port (u_port u) -> int_ttl (u_ttl_param u) -> context <> PJSIP_URI_IN_REQ_URI ->
  pjsip_name_addr_print allow_tx_hash_in_uri allow_port_in_fromto_hdr context
    (mk_name_addr d (Some (SipUri u))) size = Some t ->
  t = name_addr_text context d u /\ slen t < size.
Proof.
  intros Hp Ht Hc. unfold pjsip_name_addr_print. cbn [na_uri na_display mbind option_bind].
  rewrite bool_decide_eq_false_2 by done. cbn [negb print_if print_all].
  assert (Hd : forall room x, print_if (negb (slen d =? 0)) (need (slen d + 3) (print_all [
      copy_advance_char_check 34; copy_advance_check d; copy_advance_char_check 34; copy_advance_char_check 32 ])) room = Some x ->
      0 <= room \/ room < 0 -> x = display_text d /\ (0 <= room -> slen x <= room)).
  { intros room x. unfold display_text. destruct (slen d =? 0); cbn [negb print_if].
    - intros [= <-] _. by split.
    - unfold need. destruct (Z.ltb_spec room (slen d + 3)); [done|]. intros Hx _.
      pose proof (slen_nonneg d).
      assert (Hpr : prints (print_all [copy_advance_char_check 34; copy_advance_check d; copy_advance_char_check 34;
         copy_advance_char_check 32]) ([34] ++ d ++ [34] ++ [32] ++ [])).
      { repeat (apply prints_all_cons; [first [apply prints_char|apply prints_check]|]). apply prints_all_nil. }
      apply Hpr in Hx as [-> Hl]; [|lia]. by split. }
  unfold print_seq at 1 2. set (pd := print_if _ _) in *.
  destruct (pd (size - 1)) as [x|] eqn:Ex; [|done]. cbn [mbind option_bind].
  apply Hd in Ex as [-> Hx]; [|lia]. unfold copy_advance_char_check.
  destruct (Z.leb_spec (size - 1 - slen (display_text d)) 1) as [|Hroom]; [done|]. cbn [mbind option_bind].
  pose proof (slen_nonneg (display_text d)). rewrite slen_app. change (slen [60]) with 1.
  unfold print_seq at 1, print_uri_in, pjsip_uri_print.
  destruct (url_print_spec allow_tx_hash_in_uri allow_port_in_fromto_hdr context u
    (size - 1 - (slen (display_text d) + 1)) Hp Ht) as [H1 _].
  destruct (pjsip_url_print _ _ _ _ _) as [y|] eqn:Ey; [|done]. cbn [mbind option_bind].
  destruct (slen y <? 1); [done|]. cbn [mbind option_bind].
  destruct (H1 y eq_refl) as [-> Hy]. unfold print_seq, print_nothing.
  destruct (Z.leb_spec (size - 1 - (slen (display_text d) + 1) - slen (text context u)) 1); [done|].
  cbn [mbind option_bind]. intros [= <-]. unfold name_addr_text. split; [by rewrite <- !app_assoc|].
  rewrite !slen_app. change (slen [60]) with 1. change (slen [62]) with 1. lia.
Qed.

Lemma skip_if_head c x flags : scan_is_probably_space c = false -> scan_skip_if_space flags (c :: x) = c :: x.
Proof. unfold scan_skip_if_space. by intros ->. Qed.

(** What is left after the display name has a bracket behind its spaces. *)
Lemma reads_display d x flags :
  display_ok d ->
  exists w, parse_display (mk_scanner (display_text d ++ 60 :: x) flags) = Ret d (mk_scanner w flags) /\
            pj_scan_skip_whitespace flags w = 60 :: x.
Proof.
  intros (D1 & D2 & D3). unfold display_text. rewrite slen_empty. case_bool_decide as Hd.
  - subst d. exists (60 :: x). split; [done|]. by apply skip_whitespace_head.
  - exists (scan_skip_if_space flags (32 :: 60 :: x)). split.
    + unfold parse_display, mbind, sip_bind, cur, scan_get_quote, call. cbn [app curptr skip_ws curchar].
      change (34 =? 34) with true. cbv iota. rewrite <- app_assoc. cbn [app curptr skip_ws].
      change (34 =? 34) with true. cbv iota.
      by rewrite quoted_app; [|done..]; cbn [tail]; rewrite removelast_last.
    + unfold scan_skip_if_space. change (scan_is_probably_space 32) with true. cbn [andb].
      assert (E : pj_scan_skip_whitespace flags (32 :: 60 :: x) = 60 :: x).
      { change (pj_scan_skip_whitespace flags (32 :: 60 :: x)) with (pj_scan_skip_whitespace flags (60 :: x)).
        by apply skip_whitespace_head. }
      destruct (negb (flags =? 0)); rewrite E; [by apply skip_whitespace_head|done].
Qed.

(** A name address as the headers read it, with any flags. *)
Lemma parse_name_addr_text context d u r flags :
  sip_uri_ok u -> display_ok d ->
  int_parse_name_addr (mk_scanner (name_addr_text context d u ++ r) flags) =
    Ret (mk_name_addr d (Some (SipUri (seen context u)))) (mk_scanner (scan_skip_if_space flags r) flags).
Proof.
  intros Hu Hd. unfold int_parse_name_addr, name_addr_text. rewrite <- !app_assoc.
  destruct (reads_display d (text context u ++ 62 :: r) flags Hd) as (w & H0 & Hw).
  rewrite (bind_ret _ _ _ _ _ H0).
  assert (H1 : skip_whitespace (mk_scanner w flags) = Ret tt (mk_scanner (60 :: text context u ++ 62 :: r) flags)).
  { unfold skip_whitespace. cbn [skip_ws curptr]. by rewrite Hw. }
  rewrite (bind_ret _ _ _ _ _ H1).
  rewrite (bind_ret cur _ (mk_scanner (60 :: text context u ++ 62 :: r) flags) 60 _ eq_refl).
  change (60 =? 60) with true. cbv zeta iota.
  destruct (text_head allow_tx_hash_in_uri allow_port_in_fromto_hdr context u (62 :: r)) as [z Hz].
  assert (H2 : (_ ← get_char; mret tt : sip unit) (mk_scanner (60 :: text context u ++ 62 :: r) flags) =
               Ret tt (mk_scanner (text context u ++ 62 :: r) flags)).
  { unfold mbind, sip_bind, get_char, call, pj_scan_get_char. cbn [skip_ws curptr].
    change (60 =? 0) with false. cbv iota. rewrite Hz. by rewrite skip_if_head. }
  rewrite (bind_ret _ _ _ _ _ H2).
  assert (Hr : uri_stop (62 :: r)) by (right; split; [by left|done]).
  rewrite (bind_ret _ _ _ _ _ (parse_uri_text allow_tx_hash_in_uri allow_port_in_fromto_hdr context u (62 :: r) flags Hu Hr)).
  rewrite skip_whitespace_head by done. done.
Qed.

Lemma display_text_head d x : In (curchar (display_text d ++ 60 :: x)) [34; 60].
Proof. unfold display_text. destruct (slen d =? 0); cbn; intuition. Qed.

Lemma parse_uri_name_addr_text context d u r flags a b :
  sip_uri_ok u -> display_ok d ->
  int_parse_uri_or_name_addr a b (mk_scanner (name_addr_text context d u ++ r) flags) =
    Ret (NameAddr (mk_name_addr d (Some (SipUri (seen context u)))))
        (mk_scanner (scan_skip_if_space flags r) flags).
Proof.
  intros Hu Hd. unfold int_parse_uri_or_name_addr.
  set (t := name_addr_text context d u ++ r).
  assert (Ht : In (curchar t) [34; 60]).
  { subst t. unfold name_addr_text. rewrite <- !app_assoc. apply display_text_head. }
  assert (Hw : skip_whitespace (mk_scanner t flags) = Ret tt (mk_scanner t flags)).
  { unfold skip_whitespace. cbn [skip_ws curptr]. destruct t as [|c t]; [cbn in Ht; intuition done|].
    rewrite skip_whitespace_head; [done|]. cbn in Ht. by destruct Ht as [<-|[<-|[]]]. }
  rewrite (bind_ret _ _ _ _ _ Hw). rewrite (bind_ret cur _ (mk_scanner t flags) (curchar t) _ eq_refl).
  assert (Hc : (curchar t =? 34) || (curchar t =? 60) = true).
  { cbn in Ht. by destruct Ht as [<-|[<-|[]]]. }
  rewrite Hc. subst t. by rewrite (bind_ret _ _ _ _ _ (parse_name_addr_text context d u r flags Hu Hd)).
Qed.
End name_addr.

(** C11: a name address that is printed for a header (in any context but that
    of a Request-URI, which shows no name) and parsed is itself, with the URI
    as the header shows it. The URI is within [sip_uri_ok] (see
    [sip_uri_roundtrip]), and the display name has no quote, backslash or
    newline: printing puts it in quotes and escapes nothing. *)
Theorem name_addr_roundtrip allow_tx_hash_in_uri allow_port_in_fromto_hdr context d u size t :
  sip_uri_ok u -> display_ok d -> context <> PJSIP_URI_IN_REQ_URI ->
  pjsip_name_addr_print allow_tx_hash_in_uri allow_port_in_fromto_hdr context
    (mk_name_addr d (Some (SipUri u))) size = Some t ->
  slen t < size /\
  pjsip_parse_uri t true false =
    Some (Some (NameAddr (mk_name_addr d (Some (SipUri (seen_in allow_port_in_fromto_hdr context u)))))).
Proof.
  intros Hu Hd Hc Hp. pose proof (ok_ttl u Hu) as Ht. unfold PJSIP_MAX_TTL in Ht.
  apply name_addr_prints in Hp as [-> Hs]; [|apply (ok_port u Hu)|unfold int_ttl, PJ_MAXINT32; lia|done].
  split; [done|]. unfold pjsip_parse_uri, run_scanner, pj_scan_init. change (negb (0 =? 0)) with false. cbv iota.
  pose proof (parse_uri_name_addr_text allow_tx_hash_in_uri allow_port_in_fromto_hdr context d u [] 0 true false Hu Hd) as H.
  rewrite app_nil_r in H. by rewrite H.
Qed.
