(* ===== verification/SipUriCmp.v ===== *)
(** * Comparing URIs

    When [pjsip_url_compare] finds two URIs equal, what a context shows of a
    URI compares equal to the URI, and where the comparison depends on the
    order of its arguments. *)

From Stdlib Require Import String.
From S2P Require Import Prelude Hash PjString Scanner SipScan SipUri SipUriParse SipUriText SipUriSpec.
Local Open Scope Z_scope.

Lemma strncasecmp_0 n a b : strncasecmp n a b = 0 <-> strncaseeq n a b = true.
Proof.
  revert n b. induction a as [|x a IH]; intros [|n] [|y b]; cbn [strncasecmp strncaseeq]; try done.
  destruct (Z.ltb_spec (pj_tolower x) (pj_tolower y)), (Z.ltb_spec (pj_tolower y) (pj_tolower x)),
    (Z.eqb_spec (pj_tolower x) (pj_tolower y)); try lia; cbn [andb]; try (split; done).
  destruct (x =? 0); [done|]. apply IH.
Qed.

Lemma stricmp_0 a b : pj_stricmp a b = 0 <-> str_ci a b.
Proof.
  unfold pj_stricmp, str_ci, stricmp_eq, slen.
  destruct (Z.leb_spec (Z.of_nat (length a)) 0), (Z.leb_spec (Z.of_nat (length b)) 0); try done.
  assert (E : Z.to_nat (if Z.of_nat (length a) <? Z.of_nat (length b) then Z.of_nat (length a)
                        else Z.of_nat (length b)) = Nat.min (length a) (length b)).
  { destruct (Z.ltb_spec (Z.of_nat (length a)) (Z.of_nat (length b))); lia. }
  rewrite E. clear E. rewrite andb_true_iff, <- strncasecmp_0.
  destruct (Z.eqb_spec (strncasecmp (Nat.min (length a) (length b)) a b) 0) as [Hz|Hz]; [|intuition].
  destruct (Z.ltb_spec (Z.of_nat (length a)) (Z.of_nat (length b))),
    (Z.eqb_spec (Z.of_nat (length a)) (Z.of_nat (length b))); intuition lia.
Qed.

Lemma stricmp_refl a : pj_stricmp a a = 0.
Proof. by apply stricmp_0. Qed.

Lemma param_find_spec l name p :
  pjsip_param_find l name = Some p -> p ∈ l /\ str_ci (p_name p) name.
Proof.
  induction l as [|q l IH]; cbn [pjsip_param_find]; [done|].
  destruct (Z.eqb_spec (pj_stricmp (p_name q) name) 0) as [E%stricmp_0|].
  - intros [= ->]. split; [left|done].
  - intros [H1 H2]%IH. split; [by right|done].
Qed.

(** Every parameter of [l1] that [l2] has as well has the same value there;
    every header of [l1] is in [l2]. *)
Definition params_agree (l1 l2 : list pjsip_param) : Prop :=
  Forall (fun p1 => match pjsip_param_find l2 (p_name p1) with
                    | Some p2 => str_ci (p_value p1) (p_value p2) | None => True end) l1.

Definition headers_agree (l1 l2 : list pjsip_param) : Prop :=
  Forall (fun p1 => match pjsip_param_find l2 (p_name p1) with
                    | Some p2 => str_ci (p_value p1) (p_value p2) | None => False end) l1.

Lemma param_cmp_0 l1 l2 : pjsip_param_cmp l1 l2 true = 0 <-> params_agree l1 l2.
Proof.
  unfold pjsip_param_cmp. cbn [negb andb]. unfold params_agree.
  induction l1 as [|p l1 IH]; cbn [param_cmp_loop]; [by split; [constructor|]|].
  rewrite Forall_cons, <- IH. destruct (pjsip_param_find l2 (p_name p)) as [p2|]; [|by intuition].
  rewrite <- stricmp_0. destruct (Z.eqb_spec (pj_stricmp (p_value p) (p_value p2)) 0); cbn [negb]; intuition.
Qed.

Lemma header_cmp_0 l1 l2 : header_param_cmp l1 l2 = 0 <-> headers_agree l1 l2.
Proof.
  unfold headers_agree.
  induction l1 as [|p l1 IH]; cbn [header_param_cmp]; [by split; [constructor|]|].
  rewrite Forall_cons, <- IH. destruct (pjsip_param_find l2 (p_name p)) as [p2|]; [|by split; [|intros []]].
  rewrite <- stricmp_0. destruct (Z.eqb_spec (pj_stricmp (p_value p) (p_value p2)) 0); cbn [negb]; intuition done.
Qed.

(** The URIs that [pjsip_url_compare] finds equal in a context. *)
Record urls_agree (context : pjsip_uri_context) (u1 u2 : pjsip_sip_uri) : Prop := {
  ag_secure : u_secure u1 = u_secure u2;
  ag_user : u_user u1 = u_user u2;
  ag_passwd : u_passwd u1 = u_passwd u2;
  ag_host : str_ci (u_host u1) (u_host u2);
  ag_port : in_fromto context = false -> u_port u1 = u_port u2;
  ag_transport : in_fromto context = false -> str_ci (u_transport_param u1) (u_transport_param u2);
  ag_ttl : in_fromto context = false -> in_routing context = false -> u_ttl_param u1 = u_ttl_param u2;
  ag_user_param : str_ci (u_user_param u1) (u_user_param u2);
  ag_method : in_other context = true -> str_ci (u_method_param u1) (u_method_param u2);
  ag_maddr : in_fromto context = false -> str_ci (u_maddr_param u1) (u_maddr_param u2);
  ag_other : params_agree (u_other_param u1) (u_other_param u2);
  ag_header : headers_agree (u_header_param u1) (u_header_param u2)
}.

Lemma compare_step (b : bool) (P Q : Prop) code rest :
  code <> 0 -> (b = false <-> P) -> (rest = 0 <-> Q) -> ((if b then code else rest) = 0 <-> P /\ Q).
Proof. destruct b; intuition done. Qed.

Lemma url_compare_spec context u1 u2 :
  pjsip_url_compare context u1 u2 = PJ_SUCCESS <-> urls_agree context u1 u2.
Proof.
  unfold pjsip_url_compare, PJ_SUCCESS.
  assert (Hc : forall g a, (g && negb (pj_stricmp (fst a) (snd a) =? 0) = false) <->
                           (g = true -> str_ci (fst a) (snd a))).
  { intros g [a b]. cbn [fst snd]. rewrite <- stricmp_0. destruct (Z.eqb_spec (pj_stricmp a b) 0), g; cbn; intuition done. }
  assert (Hz : forall g a b, (g && negb (a =? b) = false) <-> (g = true -> a = b)).
  { intros g a b. destruct (Z.eqb_spec a b), g; cbn; intuition done. }
  assert (Hs : forall a b, (negb (pj_strcmp a b =? 0) = false) <-> a = b).
  { intros a b. by rewrite negb_false_iff, Z.eqb_eq, strcmp_0. }
  pose proof (Hc true) as Ht. cbn [andb] in Ht.
  assert (Hl : negb (eqb (u_secure u1) (u_secure u2)) = false <-> u_secure u1 = u_secure u2).
  { by rewrite negb_false_iff, eqb_true_iff. }
  rewrite compare_step; [|done|exact Hl|
   apply compare_step; [done|apply Hs|apply compare_step; [done|apply Hs|
   apply compare_step; [done|apply (Ht (_, _))|apply compare_step; [done|apply Hz|
   apply compare_step; [done|apply (Hc _ (_, _))|apply compare_step; [done|apply Hz|
   apply compare_step; [done|apply (Ht (_, _))|apply compare_step; [done|apply (Hc _ (_, _))|
   apply compare_step; [done|apply (Hc _ (_, _))|apply compare_step; [done| |apply header_cmp_0]]]]]]]]]]].
  2:{ rewrite negb_false_iff, Z.eqb_eq. apply param_cmp_0. }
  cbn [fst snd]. rewrite !andb_true_iff, !negb_true_iff. split.
  - intros (?&?&?&?&?&?&?&?&?&?&?&?). constructor; auto.
  - intros []. repeat split; auto. intros [? ?]. auto.
Qed.

(** ** What was received is what was sent *)

(** The parameter found under a name is the one that has it. *)
Definition names_unique (l : list pjsip_param) : Prop :=
  Forall (fun p => pjsip_param_find l (p_name p) = Some p) l.

Lemma params_agree_self l : names_unique l -> params_agree l l /\ headers_agree l l.
Proof.
  unfold names_unique, params_agree, headers_agree. intros H.
  split; (eapply Forall_impl; [exact H|]); intros p ->; done.
Qed.

(** C12: a URI within [sip_uri_ok] (see [sip_uri_roundtrip]: no percent
    sequences, an IPv6 maddr with its brackets) whose parameters, and whose
    headers, have different names compares equal to what the context showed of
    it, so that the peer that parses the text that was printed has a URI equal
    to the one that was printed. *)
Theorem sip_uri_received_equal allow_tx_hash_in_uri allow_port_in_fromto_hdr context u size t :
  sip_uri_ok u -> names_unique (u_other_param u) -> names_unique (u_header_param u) ->
  pjsip_url_print allow_tx_hash_in_uri allow_port_in_fromto_hdr context u size = Some t ->
  exists u', pjsip_parse_uri t false false = Some (Some (Uri (SipUri u'))) /\
             pjsip_url_compare context u' u = PJ_SUCCESS.
Proof.
  intros Hu Ho Hh Hp. exists (seen_in allow_port_in_fromto_hdr context u). split.
  { destruct (url_print_spec allow_tx_hash_in_uri allow_port_in_fromto_hdr context u size (ok_port u Hu)) as [H1 _].
    { pose proof (ok_ttl u Hu). unfold int_ttl, PJ_MAXINT32, PJSIP_MAX_TTL in *. lia. }
    apply H1 in Hp as [-> _]. by apply parse_bare_text. }
  apply url_compare_spec. destruct (params_agree_self _ Ho) as [H1 _]. destruct (params_agree_self _ Hh) as [_ H2].
  constructor; cbn; try done; intros; repeat match goal with H : _ = _ |- _ => rewrite H end; try done.
  destruct (_ || _); [done|constructor].
Qed.

(** ** Telephone numbers *)

(** A number without its separators, in lower case. *)
Definition dialled (s : list Z) : list Z :=
  pj_tolower <$> List.filter (fun c => negb (pjsip_TEL_VISUAL_SEP_SPEC c)) s.

Lemma skip_sep_nil s : skip_visual_sep s = [] <-> dialled s = [].
Proof.
  unfold dialled. induction s as [|c s IH]; cbn; [done|]. destruct (pjsip_TEL_VISUAL_SEP_SPEC c); cbn; [done|].
  split; done.
Qed.

Lemma dialled_sep c s : pjsip_TEL_VISUAL_SEP_SPEC c = true -> dialled (c :: s) = dialled s.
Proof. intros H. unfold dialled. cbn [List.filter]. by rewrite H. Qed.

Lemma dialled_char c s :
  pjsip_TEL_VISUAL_SEP_SPEC c = false -> dialled (c :: s) = pj_tolower c :: dialled s.
Proof. intros H. unfold dialled. cbn [List.filter]. by rewrite H. Qed.

Lemma nb_cmp_loop_spec fuel s1 s2 :
  (length s1 + length s2 < fuel)%nat ->
  match tel_nb_cmp_loop fuel s1 s2 with
  | None => False
  | Some (inl d) => d <> 0 /\ dialled s1 <> dialled s2
  | Some (inr (r1, r2)) => (r1 = [] \/ r2 = []) /\ (dialled s1 = dialled s2 <-> dialled r1 = dialled r2)
  end.
Proof.
  revert s1 s2. induction fuel as [|fuel IH]; intros s1 s2 Hf; [lia|]. cbn [tel_nb_cmp_loop].
  destruct s1 as [|c1 r1]; [by split; [left|]|]. destruct s2 as [|c2 r2]; [by split; [right|]|].
  cbn [length] in Hf.
  destruct (pjsip_TEL_VISUAL_SEP_SPEC c1) eqn:E1.
  { rewrite (dialled_sep c1 r1 E1). apply IH. cbn [length]. lia. }
  destruct (pjsip_TEL_VISUAL_SEP_SPEC c2) eqn:E2.
  { rewrite (dialled_sep c2 r2 E2). apply IH. cbn [length]. lia. }
  rewrite (dialled_char c1 r1 E1), (dialled_char c2 r2 E2). cbv zeta.
  destruct (Z.eqb_spec (pj_tolower c1 - pj_tolower c2) 0) as [E|E].
  - specialize (IH r1 r2 ltac:(lia)). replace (pj_tolower c2) with (pj_tolower c1) by lia.
    destruct (tel_nb_cmp_loop fuel r1 r2) as [[d|[q1 q2]]|]; [| |done].
    + destruct IH as [H1 H2]. split; [done|]. by intros [= ?].
    + destruct IH as [H1 H2]. split; [done|]. rewrite <- H2. split; [by intros [= ?]|by intros ->].
  - split; [done|]. intros [= H _]. lia.
Qed.

(** The comparison of two numbers comes to an end, and finds them equal when
    they are the same without separators and regardless of case. *)
Lemma tel_nb_cmp_spec n1 n2 :
  exists r, pjsip_tel_nb_cmp n1 n2 = Some r /\ (r = 0 <-> dialled n1 = dialled n2).
Proof.
  unfold pjsip_tel_nb_cmp. pose proof (nb_cmp_loop_spec _ n1 n2 (Nat.lt_succ_diag_r _)) as H.
  destruct (tel_nb_cmp_loop _ n1 n2) as [[d|[r1 r2]]|]; [|destruct H as [Hn H]|done].
  - exists d. split; [done|]. intuition.
  - pose proof (skip_sep_nil r1) as H1. pose proof (skip_sep_nil r2) as H2.
    destruct (skip_visual_sep r1) as [|a x], (skip_visual_sep r2) as [|b y]; eexists; (split; [done|]); rewrite H.
    + by rewrite (proj1 H1), (proj1 H2) by done.
    + split; [done|]. rewrite (proj1 H1) by done. intros E. by discriminate (proj2 H2 (eq_sym E)).
    + split; [done|]. rewrite (proj1 H2) by done. intros E. by discriminate (proj2 H1 E).
    + exfalso. destruct Hn as [->| ->]; [by discriminate (proj2 H1 eq_refl)|by discriminate (proj2 H2 eq_refl)].
Qed.

(** ** An example, and what the code gets wrong *)

Definition demo_uri : pjsip_sip_uri :=
  mk_sip_uri true (lit "al ice") (lit "s#crt") (lit "2001:db8::1") 5061 (lit "phone") (lit "INVITE")
    (lit "tcp") 15 true (lit "10.0.0.1") [mk_param (lit "x y") (lit "1;2"); mk_param (lit "ob") []]
    [mk_param (lit "Subject") (lit "hi there"); mk_param (lit "P") []].

Ltac by_dec := apply (bool_decide_eq_true_1 _); by vm_compute.

Lemma demo_uri_ok : sip_uri_ok demo_uri.
Proof. constructor; try by_dec; unfold int_port, PJSIP_MAX_TTL; cbn; lia. Qed.

Lemma sip_uri_roundtrip_witness :
  exists t, pjsip_url_print false false PJSIP_URI_IN_OTHER demo_uri 256 = Some t /\
            pjsip_parse_uri t false false = Some (Some (Uri (SipUri demo_uri))).
Proof.
  destruct (sip_uri_roundtrip false false PJSIP_URI_IN_OTHER demo_uri 256 demo_uri_ok) as [H1 H2].
  destruct (H2 ltac:(by vm_compute)) as [t Ht]. exists t. split; [done|]. by apply H1.
Defined.

Lemma name_addr_roundtrip_witness :
  exists t, pjsip_name_addr_print false false PJSIP_URI_IN_FROMTO_HDR
              (mk_name_addr (lit "Al I. Ce") (Some (SipUri demo_uri))) 256 = Some t /\
    pjsip_parse_uri t true false =
      Some (Some (NameAddr (mk_name_addr (lit "Al I. Ce")
        (Some (SipUri (seen_in false PJSIP_URI_IN_FROMTO_HDR demo_uri)))))).
Proof.
  destruct (pjsip_name_addr_print false false PJSIP_URI_IN_FROMTO_HDR
    (mk_name_addr (lit "Al I. Ce") (Some (SipUri demo_uri))) 256) as [t|] eqn:E; [|by exfalso; vm_compute in E].
  exists t. split; [done|].
  refine (proj2 (name_addr_roundtrip false false PJSIP_URI_IN_FROMTO_HDR (lit "Al I. Ce") demo_uri 256 t
    demo_uri_ok _ _ E)); [|done]. repeat split; by_dec.
Defined.

Lemma sip_uri_received_equal_witness :
  exists t u', pjsip_url_print false true PJSIP_URI_IN_REQ_URI demo_uri 256 = Some t /\
    pjsip_parse_uri t false false = Some (Some (Uri (SipUri u'))) /\
    pjsip_url_compare PJSIP_URI_IN_REQ_URI u' demo_uri = PJ_SUCCESS.
Proof.
  destruct (pjsip_url_print false true PJSIP_URI_IN_REQ_URI demo_uri 256) as [t|] eqn:E; [|by exfalso; vm_compute in E].
  exists t. destruct (sip_uri_received_equal false true PJSIP_URI_IN_REQ_URI demo_uri 256 t demo_uri_ok) as (u' & H1 & H2);
    [by repeat constructor|by repeat constructor|done|]. exists u'. done.
Defined.

(** A percent sign that was escaped is not escaped again: a URI that is
    parsed and printed is another URI. *)
Lemma percent_lost :
  exists u u' t,
    pjsip_parse_uri (lit "sip:a%2541@h") false false = Some (Some (Uri (SipUri u))) /\
    pjsip_url_print false false PJSIP_URI_IN_OTHER u 64 = Some t /\
    pjsip_parse_uri t false false = Some (Some (Uri (SipUri u'))) /\
    pjsip_url_compare PJSIP_URI_IN_OTHER u u' = PJSIP_ECMPUSER.
Proof. do 3 eexists. repeat split; by vm_compute. Qed.

(** Headers are looked for on one side only: the comparison depends on the
    order of its arguments. *)
Lemma compare_not_symmetric :
  let u := pjsip_sip_uri_create false <| u_host := lit "h" |> in
  let v := u <| u_header_param := [mk_param (lit "Subject") (lit "x")] |> in
  pjsip_url_compare PJSIP_URI_IN_OTHER u v = PJ_SUCCESS /\
  pjsip_url_compare PJSIP_URI_IN_OTHER v u = PJSIP_ECMPHEADERPARAM.
Proof. by vm_compute. Qed.

(** An extension only the second [tel:] URI has is not compared. *)
Lemma tel_compare_not_symmetric :
  let u := pjsip_tel_uri_create <| t_number := lit "+1" |> in
  let v := u <| t_ext_param := lit "22" |> in
  tel_uri_cmp u v = Some 0 /\ tel_uri_cmp v u = Some 1.
Proof. by vm_compute. Qed.

(** The address in [maddr] is printed in brackets and read with them. *)
Lemma maddr_brackets :
  exists t u',
    pjsip_url_print false false PJSIP_URI_IN_OTHER
      (pjsip_sip_uri_create false <| u_host := lit "h" |> <| u_maddr_param := lit "::1" |>) 64 = Some t /\
    pjsip_parse_uri t false false = Some (Some (Uri (SipUri u'))) /\
    u_maddr_param u' = lit "[::1]".
Proof. do 2 eexists. repeat split; by vm_compute. Qed.

(** The parser accepts a URI with an empty host, which [pjsip_url_print]
    asserts there is none of. *)
Lemma empty_host_accepted :
  pjsip_parse_uri (lit "sip:[]") false false =
    Some (Some (Uri (SipUri (pjsip_sip_uri_create false)))).
Proof. by vm_compute. Qed.
