(* ===== verification/SipHdr.v ===== *)
(** * SIP headers: data and parsers

    The header structures of [pjsip/sip_msg.h] and [pjsip/sip_auth_msg.h],
    and the parsers of header values of [pjsip/sip_parser.c] and
    [pjsip/sip_auth_parser.c].  A parser reads what follows the colon, up to
    and with the end of the line.  It works on the scanner and, when a
    received packet is parsed, on the fields [msg_info] of its [rdata]. *)

From Stdlib Require Import String.
From S2P Require Import Prelude PjString Hash Scanner TsxData SipScan SipUri SipUriParse.
Local Open Scope Z_scope.

(** ** Data *)

Record pjsip_contact_hdr := mk_contact_hdr {
  co_star : bool;
  co_uri : option uri_or_name_addr;   (* none with a star *)
  co_q1000 : Z;
  co_expires : Z;
  co_other_param : list pjsip_param
}.

#[export] Instance eta_contact_hdr : Settable pjsip_contact_hdr :=
  fun h => mk_contact_hdr (co_star h) (co_uri h) (co_q1000 h) (co_expires h) (co_other_param h).

Record pjsip_media_type := mk_media_type {
  mt_type : list Z;
  mt_subtype : list Z;
  mt_param : list pjsip_param
}.

#[export] Instance eta_media_type : Settable pjsip_media_type :=
  fun m => mk_media_type (mt_type m) (mt_subtype m) (mt_param m).

Record pjsip_fromto_hdr := mk_fromto_hdr {
  ft_uri : option uri_or_name_addr;
  ft_tag : list Z;
  ft_other_param : list pjsip_param
}.

#[export] Instance eta_fromto_hdr : Settable pjsip_fromto_hdr :=
  fun h => mk_fromto_hdr (ft_uri h) (ft_tag h) (ft_other_param h).

Record pjsip_routing_hdr := mk_routing_hdr {
  ro_name_addr : pjsip_name_addr;
  ro_other_param : list pjsip_param
}.

#[export] Instance eta_routing_hdr : Settable pjsip_routing_hdr :=
  fun h => mk_routing_hdr (ro_name_addr h) (ro_other_param h).

Record pjsip_retry_after_hdr := mk_retry_after_hdr {
  ra_ivalue : Z;
  ra_param : list pjsip_param;
  ra_comment : list Z
}.

#[export] Instance eta_retry_after_hdr : Settable pjsip_retry_after_hdr :=
  fun h => mk_retry_after_hdr (ra_ivalue h) (ra_param h) (ra_comment h).

Record via_hdr := mk_via {
  v_transport : list Z;
  v_host : list Z;         (* sent_by.host *)
  v_port : Z;              (* sent_by.port *)
  v_ttl_param : Z;
  v_rport_param : Z;
  v_maddr_param : list Z;
  v_recvd_param : list Z;
  v_branch_param : list Z;
  v_other_param : list pjsip_param;
  v_comment : list Z
}.

#[export] Instance eta_via : Settable via_hdr := fun h =>
  mk_via (v_transport h) (v_host h) (v_port h) (v_ttl_param h) (v_rport_param h) (v_maddr_param h)
    (v_recvd_param h) (v_branch_param h) (v_other_param h) (v_comment h).

Record pjsip_digest_credential := mk_digest_credential {
  dc_realm : list Z;
  dc_other_param : list pjsip_param;
  dc_username : list Z;
  dc_nonce : list Z;
  dc_uri : list Z;
  dc_response : list Z;
  dc_algorithm : list Z;
  dc_cnonce : list Z;
  dc_opaque : list Z;
  dc_qop : list Z;
  dc_nc : list Z
}.

#[export] Instance eta_digest_credential : Settable pjsip_digest_credential := fun c =>
  mk_digest_credential (dc_realm c) (dc_other_param c) (dc_username c) (dc_nonce c) (dc_uri c)
    (dc_response c) (dc_algorithm c) (dc_cnonce c) (dc_opaque c) (dc_qop c) (dc_nc c).

Record pjsip_digest_challenge := mk_digest_challenge {
  ch_realm : list Z;
  ch_other_param : list pjsip_param;
  ch_domain : list Z;
  ch_nonce : list Z;
  ch_opaque : list Z;
  ch_stale : bool;
  ch_algorithm : list Z;
  ch_qop : list Z
}.

#[export] Instance eta_digest_challenge : Settable pjsip_digest_challenge := fun c =>
  mk_digest_challenge (ch_realm c) (ch_other_param c) (ch_domain c) (ch_nonce c) (ch_opaque c)
    (ch_stale c) (ch_algorithm c) (ch_qop c).

Inductive array_kind := HAccept | HAllow | HRequire | HSupported | HUnsupported.
Inductive int_kind := HExpires | HMaxForwards | HMinExpires.
Inductive fromto_kind := HFrom | HTo.
Inductive routing_kind := HRoute | HRecordRoute.
Inductive authorization_kind := HAuthorization | HProxyAuthorization.
Inductive authenticate_kind := HWwwAuthenticate | HProxyAuthenticate.

(** A header; the structure [pjsip_generic_array_hdr], for one, is that of
    five of them. *)
Inductive pjsip_hdr :=
  | ArrayHdr (k : array_kind) (values : list (list Z))
  | IntHdr (k : int_kind) (ivalue : Z)
  | CidHdr (id : list Z)
  | ContactHdr (h : pjsip_contact_hdr)
  | ClenHdr (len : Z)
  | CtypeHdr (media : pjsip_media_type)
  | CseqHdr (h : pjsip_cseq_hdr)
  | FromToHdr (k : fromto_kind) (h : pjsip_fromto_hdr)
  | RoutingHdr (k : routing_kind) (h : pjsip_routing_hdr)
  | RetryAfterHdr (h : pjsip_retry_after_hdr)
  | ViaHdr (h : via_hdr)
  | AuthorizationHdr (k : authorization_kind) (scheme : list Z) (digest : pjsip_digest_credential)
  | AuthenticateHdr (k : authenticate_kind) (scheme : list Z) (digest : pjsip_digest_challenge)
  | StringHdr (name hvalue : list Z).

(** [pjsip_xxx_hdr_create] *)
Definition PJSIP_EXPIRES_NOT_SPECIFIED : Z := 4294967295.
Definition pjsip_contact_hdr_create : pjsip_contact_hdr :=
  mk_contact_hdr false None 0 PJSIP_EXPIRES_NOT_SPECIFIED [].
Definition pjsip_fromto_hdr_create : pjsip_fromto_hdr := mk_fromto_hdr None [] [].
Definition pjsip_via_hdr_create : via_hdr := mk_via [] [] 0 (-1) (-1) [] [] [] [] [].
Definition pjsip_digest_credential_zero : pjsip_digest_credential :=
  mk_digest_credential [] [] [] [] [] [] [] [] [] [] [].
Definition pjsip_digest_challenge_zero : pjsip_digest_challenge :=
  mk_digest_challenge [] [] [] [] [] false [] [].

(** [pjsip_method_init_np] *)
Definition method_names : list (pjsip_method_e * list Z) :=
  [ (PJSIP_INVITE_METHOD, lit "INVITE"); (PJSIP_CANCEL_METHOD, lit "CANCEL");
    (PJSIP_ACK_METHOD, lit "ACK"); (PJSIP_BYE_METHOD, lit "BYE");
    (PJSIP_REGISTER_METHOD, lit "REGISTER"); (PJSIP_OPTIONS_METHOD, lit "OPTIONS") ].

Fixpoint method_find (names : list (pjsip_method_e * list Z)) (str : list Z) : pjsip_method :=
  match names with
  | (i, name) :: names =>
      if pj_stricmp str name =? 0 then mk_method i name else method_find names str
  | [] => mk_method PJSIP_OTHER_METHOD str
  end.

Definition pjsip_method_init_np (str : list Z) : pjsip_method := method_find method_names str.

(** ** Parsers of values *)

Definition IS_NEWLINE (c : Z) : bool := (c =? 13) || (c =? 10).

Definition parse_hdr_end : sip unit :=
  e ← eof;
  c ← cur;
  if e : bool then mret tt
  else if c =? 38 then _ ← get_char; mret tt
  else get_newline.

(** *** Arrays

    The values read before an exception stay in the header, which matters
    for the headers that several lines share. *)

Definition PJSIP_GENERIC_ARRAY_MAX_COUNT : Z := 32.

Definition count (values : list (list Z)) : Z := Z.of_nat (length values).

Definition stored (A : Type) : Type := pj_scanner -> list (list Z) * result A.

Definition next_value : sip (list Z) := _ ← get_char; scan_get pjsip_NOT_COMMA_OR_NEWLINE.

Fixpoint array_loop (fuel : nat) (values : list (list Z)) : stored unit := fun s =>
  match fuel with
  | O => (values, Stuck)
  | S fuel =>
      if (count values <? PJSIP_GENERIC_ARRAY_MAX_COUNT) && (curchar (curptr s) =? 44) then
        match next_value s with
        | Ret v s => array_loop fuel (values ++ [v]) s
        | Throw e s => (values, Throw e s)
        | Stuck => (values, Stuck)
        end
      else (values, parse_hdr_end s)
  end.

Definition parse_generic_array_hdr (values : list (list Z)) : stored unit := fun s =>
  if pj_scan_is_eof (curptr s) || IS_NEWLINE (curchar (curptr s)) then (values, parse_hdr_end s)
  else if PJSIP_GENERIC_ARRAY_MAX_COUNT <=? count values then (values, on_syntax_error s)
  else
    match scan_get pjsip_NOT_COMMA_OR_NEWLINE s with
    | Ret v s => array_loop 33 (values ++ [v]) s
    | Throw e s => (values, Throw e s)
    | Stuck => (values, Stuck)
    end.

(** A header of its own. *)
Definition array_hdr (k : array_kind) : sip pjsip_hdr := fun s =>
  let '(values, r) := parse_generic_array_hdr [] s in
  match r with
  | Ret _ s => Ret (ArrayHdr k values) s
  | Throw e s => Throw e s
  | Stuck => Stuck
  end.

(** *** Strings and numbers *)

(** One turn of the loop: the break is its condition, false there. *)
Definition string_fraction (hvalue : list Z) : sip (list Z) :=
  hvalue ← scan_get pjsip_NOT_NEWLINE;
  e ← eof;
  c ← cur;
  if e || IS_NEWLINE c then mret hvalue
  else next ← scan_get pjsip_NOT_NEWLINE; mret (hvalue ++ [32] ++ next).

Definition parse_generic_string_hdr : sip (list Z) :=
  hvalue ← while_cur pjsip_NOT_NEWLINE string_fraction [];
  _ ← parse_hdr_end;
  mret hvalue.

Definition parse_generic_int_hdr : sip Z :=
  tmp ← scan_get pjsip_DIGIT_SPEC;
  _ ← parse_hdr_end;
  mret (u32 (pj_strtoul tmp)).

Definition call_id_value : sip (list Z) :=
  id ← scan_get pjsip_NOT_NEWLINE; _ ← parse_hdr_end; mret id.

(** The length is an [int]. *)
Definition content_len_value : sip Z :=
  digit ← scan_get pjsip_DIGIT_SPEC; _ ← parse_hdr_end; mret (s32 (pj_strtoul digit)).

Definition PJSIP_MAX_CSEQ : Z := PJ_MAXINT32.

Definition cseq_value : sip pjsip_cseq_hdr :=
  cseq ← scan_get pjsip_DIGIT_SPEC;
  cseq_val ← strtoi_validate cseq 0 PJSIP_MAX_CSEQ;
  method ← scan_get pjsip_TOKEN_SPEC;
  _ ← parse_hdr_end;
  mret (mk_cseq_hdr cseq_val (pjsip_method_init_np method)).

(** *** Parameters of headers *)

(** A list of parameters, [(';' param)*]. *)
Definition more_param (l : list pjsip_param) : sip (list pjsip_param) :=
  p ← int_parse_param false; mret (l ++ [p]).

Definition params : sip (list pjsip_param) := while_cur (is_char 59) more_param [].

Definition content_type_value : sip pjsip_media_type :=
  type ← scan_get pjsip_TOKEN_SPEC;
  _ ← get_char;
  subtype ← scan_get pjsip_TOKEN_SPEC;
  param ← params;
  _ ← parse_hdr_end;
  mret (mk_media_type type subtype param).

(** *** Contact *)

(** [char] is signed. *)
Definition schar (c : Z) : Z := if c <? 128 then c else c - 256.

Definition mindigit_step (value c : Z) : Z := u64 (u64 (value * 10) + (schar c - 48)).

Definition pj_strtoul_mindigit (str : list Z) (mindig : nat) : Z :=
  Nat.iter (mindig - length str) (fun value => u64 (value * 10)) (foldl mindigit_step 0 str).

Definition PJSIP_MAX_Q1000 : Z := 2147483.

(** What precedes the first dot, and what follows it. *)
Fixpoint split_dot (s : list Z) : option (list Z * list Z) :=
  match s with
  | [] => None
  | c :: s =>
      if c =? 46 then Some ([], s)
      else (fun '(a, b) => (c :: a, b)) <$> split_dot s
  end.

Definition q_value (pvalue : list Z) : sip Z :=
  match split_dot pvalue with
  | None => q ← strtoi_validate pvalue 0 PJSIP_MAX_Q1000; mret (q * 1000)
  | Some (tmp, frac) =>
      q ← strtoi_validate tmp 0 PJSIP_MAX_Q1000;
      let q1000 := q * 1000 in
      let qval_frac := pj_strtoul_mindigit (take 3 frac) 3 in
      if u64 (PJ_MAXINT32 - qval_frac) <? u32 q1000 then on_syntax_error
      else mret (s32 (u64 (q1000 + qval_frac)))
  end.

Definition expires_value (pvalue : list Z) : Z :=
  let expires := u32 (pj_strtoul pvalue) in
  if expires =? PJSIP_EXPIRES_NOT_SPECIFIED then expires - 1 else expires.

Definition contact_param (hdr : pjsip_contact_hdr) : sip pjsip_contact_hdr :=
  p ← int_parse_param false;
  let some := negb (slen (p_value p) =? 0) in
  if parser_stricmp_eq (p_name p) (lit "q") && some then
    q ← q_value (p_value p); mret (hdr <| co_q1000 := q |>)
  else if parser_stricmp_eq (p_name p) (lit "expires") && some then
    mret (hdr <| co_expires := expires_value (p_value p) |>)
  else mret (hdr <| co_other_param := co_other_param hdr ++ [p] |>).

Definition one_contact : sip pjsip_contact_hdr :=
  c ← cur;
  if c =? 42 then _ ← get_char; mret (pjsip_contact_hdr_create <| co_star := true |>)
  else
    uri ← int_parse_uri_or_name_addr true true;
    while_cur (is_char 59) contact_param (pjsip_contact_hdr_create <| co_uri := Some uri |>).

(** [do hdr = one; while (next is a comma, which is taken)], for the headers
    that hold several values: they become a header each. *)
Definition more_of {A} (one : sip A) (l : list A) : sip (list A) :=
  _ ← get_char; a ← one; mret (l ++ [a]).

Definition comma_list {A} (one : sip A) : sip (list A) :=
  first ← one;
  l ← while_cur (is_char 44) (more_of one) [first];
  _ ← parse_hdr_end;
  mret l.

Definition contact_values : sip (list pjsip_contact_hdr) := comma_list one_contact.

(** *** From and To *)

Definition fromto_param (hdr : pjsip_fromto_hdr) : sip pjsip_fromto_hdr :=
  p ← int_parse_param false;
  if parser_stricmp_eq (p_name p) (lit "tag") then mret (hdr <| ft_tag := p_value p |>)
  else mret (hdr <| ft_other_param := ft_other_param hdr ++ [p] |>).

Definition parse_hdr_fromto : sip pjsip_fromto_hdr :=
  uri ← int_parse_uri_or_name_addr true true;
  hdr ← while_cur (is_char 59) fromto_param (pjsip_fromto_hdr_create <| ft_uri := Some uri |>);
  _ ← parse_hdr_end;
  mret hdr.

(** *** Route and Record-Route *)

Definition parse_hdr_rr_route : sip pjsip_routing_hdr :=
  temp ← int_parse_name_addr; other_param ← params; mret (mk_routing_hdr temp other_param).

Definition routing_values : sip (list pjsip_routing_hdr) := comma_list parse_hdr_rr_route.

(** *** Retry-After *)

Definition PJSIP_MAX_RETRY_AFTER : Z := PJ_MAXINT32.

Definition not_end (c : Z) : bool := negb (IS_NEWLINE c).

(** The text between the quotes. *)
Definition unquote (s : list Z) : list Z := removelast (tail s).

Definition retry_after_part (hdr : pjsip_retry_after_hdr) : sip pjsip_retry_after_hdr :=
  c ← cur;
  if c =? 40 then comment ← scan_get_quote 40 41; mret (hdr <| ra_comment := unquote comment |>)
  else if c =? 59 then prm ← int_parse_param false; mret (hdr <| ra_param := ra_param hdr ++ [prm] |>)
  else on_syntax_error.

(** [while (!pj_scan_is_eof(scanner) && not a newline)] *)
Fixpoint retry_after_loop (fuel : nat) (hdr : pjsip_retry_after_hdr) : sip pjsip_retry_after_hdr :=
  match fuel with
  | O => stuck
  | S fuel =>
      e ← eof;
      c ← cur;
      if negb e && not_end c then hdr ← retry_after_part hdr; retry_after_loop fuel hdr
      else mret hdr
  end.

Definition retry_after_value : sip pjsip_retry_after_hdr :=
  tmp ← scan_get pjsip_DIGIT_SPEC;
  ivalue ← strtoi_validate tmp 0 PJSIP_MAX_RETRY_AFTER;
  n ← turns;
  hdr ← retry_after_loop (S n) (mk_retry_after_hdr ivalue [] []);
  _ ← parse_hdr_end;
  mret hdr.

(** *** Via *)

Definition via_param (hdr : via_hdr) : sip via_hdr :=
  _ ← get_char;
  p ← parse_param_imp pjsip_VIA_PARAM_SPEC false false;
  let name := p_name p in
  let value := p_value p in
  let some := negb (slen value =? 0) in
  if parser_stricmp_eq name (lit "branch") && some then mret (hdr <| v_branch_param := value |>)
  else if parser_stricmp_eq name (lit "ttl") && some then
    ttl ← strtoi_validate value 0 PJSIP_MAX_TTL; mret (hdr <| v_ttl_param := ttl |>)
  else if parser_stricmp_eq name (lit "maddr") && some then mret (hdr <| v_maddr_param := value |>)
  else if parser_stricmp_eq name (lit "received") && some then mret (hdr <| v_recvd_param := value |>)
  else if parser_stricmp_eq name (lit "rport") then
    if some then rport ← strtoi_validate value 0 PJSIP_MAX_PORT; mret (hdr <| v_rport_param := rport |>)
    else mret (hdr <| v_rport_param := 0 |>)
  else mret (hdr <| v_other_param := v_other_param hdr ++ [p] |>).

Definition parse_sip_version : sip unit :=
  sip ← scan_get pjsip_ALPHA_SPEC;
  slash ← get_char;
  if negb (slash =? 47) then on_syntax_error else
  version ← scan_get_n 3;
  if negb (pj_stricmp sip (lit "SIP") =? 0) || negb (pj_stricmp version (lit "2.0") =? 0)
  then on_syntax_error else mret tt.

Definition via_port : sip Z :=
  c ← cur;
  if c =? 58 then
    _ ← get_char;
    digit ← scan_get pjsip_DIGIT_SPEC;
    strtoi_validate digit 0 PJSIP_MAX_PORT
  else mret 0.

Definition via_comment : sip (list Z) :=
  c ← cur;
  if c =? 40 then
    _ ← get_char;
    comment ← get_until_ch 41;
    _ ← get_char;
    mret comment
  else mret [].

Definition one_via : sip via_hdr :=
  _ ← parse_sip_version;
  slash ← get_char;
  if negb (slash =? 47) then on_syntax_error else
  transport ← scan_get pjsip_TOKEN_SPEC;
  host ← int_parse_host;
  port ← via_port;
  hdr ← while_cur (is_char 59) via_param
          (pjsip_via_hdr_create <| v_transport := transport |> <| v_host := host |> <| v_port := port |>);
  comment ← via_comment;
  mret (hdr <| v_comment := comment |>).

Definition via_values : sip (list via_hdr) := comma_list one_via.

(** *** Authorization *)

Definition named (p : pjsip_param) (n : string) : bool := pj_stricmp (p_name p) (lit n) =? 0.

Definition credential_param (p : pjsip_param) (c : pjsip_digest_credential) : pjsip_digest_credential :=
  let value := p_value p in
  if named p "username" then c <| dc_username := value |>
  else if named p "realm" then c <| dc_realm := value |>
  else if named p "nonce" then c <| dc_nonce := value |>
  else if named p "uri" then c <| dc_uri := value |>
  else if named p "response" then c <| dc_response := value |>
  else if named p "algorithm" then c <| dc_algorithm := value |>
  else if named p "cnonce" then c <| dc_cnonce := value |>
  else if named p "opaque" then c <| dc_opaque := value |>
  else if named p "qop" then c <| dc_qop := value |>
  else if named p "nc" then c <| dc_nc := value |>
  else c <| dc_other_param := dc_other_param c ++ [p] |>.

Definition unquoted_value (value : list Z) : list Z :=
  if curchar value =? 34 then unquote value else value.

Definition challenge_param (p : pjsip_param) (c : pjsip_digest_challenge) : pjsip_digest_challenge :=
  let value := unquoted_value (p_value p) in
  if named p "realm" then c <| ch_realm := value |>
  else if named p "domain" then c <| ch_domain := value |>
  else if named p "nonce" then c <| ch_nonce := value |>
  else if named p "opaque" then c <| ch_opaque := value |>
  else if named p "stale" then
    if (pj_stricmp (p_value p) (lit "true") =? 0) || (pj_stricmp (p_value p) (34 :: lit "true" ++ [34]) =? 0)
    then c <| ch_stale := true |> else c
  else if named p "algorithm" then c <| ch_algorithm := value |>
  else if named p "qop" then c <| ch_qop := value |>
  else c <| ch_other_param := ch_other_param c ++ [p] |>.

(** The loop of [parse_digest_credential] and [parse_digest_challenge]. *)
Definition digest_param {A} (remove_quote : bool) (store : pjsip_param -> A -> A) (a : A) : sip A :=
  p ← pjsip_parse_param_imp remove_quote; mret (store p a).

Definition next_digest_param {A} (remove_quote : bool) (store : pjsip_param -> A -> A) (a : A) : sip A :=
  _ ← get_char; digest_param remove_quote store a.

Definition parse_digest {A} (remove_quote : bool) (store : pjsip_param -> A -> A) (a : A) : sip A :=
  a ← digest_param remove_quote store a;
  while_cur (is_char 44) (next_digest_param remove_quote store) a.

Definition auth_scheme : sip (list Z) :=
  c ← cur;
  if c =? 34 then scheme ← scan_get_quote 34 34; mret (unquote scheme) else scan_get pjsip_TOKEN_SPEC.

(** A scheme other than Digest, PGP included, is an error. *)
Definition int_parse_hdr_auth {A} (digest : sip A) : sip (list Z * A) :=
  scheme ← auth_scheme;
  if pj_stricmp scheme (lit "Digest") =? 0 then
    d ← digest; _ ← parse_hdr_end; mret (scheme, d)
  else on_syntax_error.

Definition int_parse_hdr_authorization : sip (list Z * pjsip_digest_credential) :=
  int_parse_hdr_auth (parse_digest true credential_param pjsip_digest_credential_zero).

Definition int_parse_hdr_authenticate : sip (list Z * pjsip_digest_challenge) :=
  int_parse_hdr_auth (parse_digest false challenge_param pjsip_digest_challenge_zero).

(** ** Handlers *)

(** [rdata->msg_info], where a header that was parsed is found again.  The
    values of Require and of Supported are those of all their lines. *)
Record msg_info := mk_msg_info {
  mi_via : option via_hdr;
  mi_from : option pjsip_fromto_hdr;
  mi_to : option pjsip_fromto_hdr;
  mi_cid : option (list Z);
  mi_cseq : option pjsip_cseq_hdr;
  mi_max_fwd : option Z;
  mi_route : option pjsip_routing_hdr;
  mi_record_route : option pjsip_routing_hdr;
  mi_ctype : option pjsip_media_type;
  mi_clen : option Z;
  mi_require : option (list (list Z));
  mi_supported : option (list (list Z))
}.

#[export] Instance eta_msg_info : Settable msg_info := fun m =>
  mk_msg_info (mi_via m) (mi_from m) (mi_to m) (mi_cid m) (mi_cseq m) (mi_max_fwd m) (mi_route m)
    (mi_record_route m) (mi_ctype m) (mi_clen m) (mi_require m) (mi_supported m).

Definition no_msg_info : msg_info := mk_msg_info None None None None None None None None None None None None.

(** What a handler adds to the list of headers: headers, or a pointer to one
    that later lines of the same name extend. *)
Inductive hdr_node :=
  | Node (h : pjsip_hdr)
  | RequireNode
  | SupportedNode.

(** [ctx->rdata] is [None] for a message that is parsed without packet. *)
Definition rdata : Type := option msg_info.

Inductive outcome :=
  | HRet (nodes : list hdr_node) (r : rdata) (s : pj_scanner)
  | HThrow (e : exn) (r : rdata) (s : pj_scanner)
  | HStuck.

Definition pjsip_parse_hdr_func : Type := rdata -> pj_scanner -> outcome.

(** A handler that parses a value, makes headers of it and notes it. *)
Definition handler_of {A} (value : sip A) (hdrs : A -> list pjsip_hdr) (note : A -> msg_info -> msg_info) :
    pjsip_parse_hdr_func := fun r s =>
  match value s with
  | Ret a s => HRet (Node <$> hdrs a) (note a <$> r) s
  | Throw e s => HThrow e r s
  | Stuck => HStuck
  end.

Definition no_note {A} (a : A) (m : msg_info) : msg_info := m.

(** [if (msg_info.x == NULL) msg_info.x = first] *)
Definition first_of {A} (old : option A) (l : list A) : option A :=
  match old with Some x => Some x | None => head l end.

Definition parse_hdr_accept := handler_of (array_hdr HAccept) (fun h => [h]) no_note.
Definition parse_hdr_allow := handler_of (array_hdr HAllow) (fun h => [h]) no_note.
Definition parse_hdr_unsupported := handler_of (array_hdr HUnsupported) (fun h => [h]) no_note.
Definition parse_hdr_call_id :=
  handler_of call_id_value (fun id => [CidHdr id]) (fun id m => m <| mi_cid := Some id |>).
Definition parse_hdr_contact :=
  handler_of contact_values (fmap ContactHdr) no_note.
Definition parse_hdr_content_len :=
  handler_of content_len_value (fun n => [ClenHdr n]) (fun n m => m <| mi_clen := Some n |>).
Definition parse_hdr_content_type :=
  handler_of content_type_value (fun t => [CtypeHdr t]) (fun t m => m <| mi_ctype := Some t |>).
Definition parse_hdr_cseq :=
  handler_of cseq_value (fun h => [CseqHdr h]) (fun h m => m <| mi_cseq := Some h |>).
Definition parse_hdr_expires := handler_of parse_generic_int_hdr (fun v => [IntHdr HExpires v]) no_note.
Definition parse_hdr_min_expires := handler_of parse_generic_int_hdr (fun v => [IntHdr HMinExpires v]) no_note.
Definition parse_hdr_max_forwards :=
  handler_of parse_generic_int_hdr (fun v => [IntHdr HMaxForwards v]) (fun v m => m <| mi_max_fwd := Some v |>).
Definition parse_hdr_from :=
  handler_of parse_hdr_fromto (fun h => [FromToHdr HFrom h]) (fun h m => m <| mi_from := Some h |>).
Definition parse_hdr_to :=
  handler_of parse_hdr_fromto (fun h => [FromToHdr HTo h]) (fun h m => m <| mi_to := Some h |>).
Definition parse_hdr_rr :=
  handler_of routing_values (fmap (RoutingHdr HRecordRoute))
    (fun l m => m <| mi_record_route := first_of (mi_record_route m) l |>).
Definition parse_hdr_route :=
  handler_of routing_values (fmap (RoutingHdr HRoute))
    (fun l m => m <| mi_route := first_of (mi_route m) l |>).
Definition parse_hdr_retry_after := handler_of retry_after_value (fun h => [RetryAfterHdr h]) no_note.
Definition parse_hdr_via :=
  handler_of via_values (fmap ViaHdr) (fun l m => m <| mi_via := first_of (mi_via m) l |>).
Definition parse_hdr_authorization :=
  handler_of int_parse_hdr_authorization (fun '(s, d) => [AuthorizationHdr HAuthorization s d]) no_note.
Definition parse_hdr_proxy_authorization :=
  handler_of int_parse_hdr_authorization (fun '(s, d) => [AuthorizationHdr HProxyAuthorization s d]) no_note.
Definition parse_hdr_www_authenticate :=
  handler_of int_parse_hdr_authenticate (fun '(s, d) => [AuthenticateHdr HWwwAuthenticate s d]) no_note.
Definition parse_hdr_proxy_authenticate :=
  handler_of int_parse_hdr_authenticate (fun '(s, d) => [AuthenticateHdr HProxyAuthenticate s d]) no_note.

(** [parse_hdr_require] and [parse_hdr_supported]: without a packet each line
    is a header; with one, the first line makes the header, which is noted
    before its value is read, and the others extend it. *)
Definition shared_array_hdr (k : array_kind) (node : hdr_node)
    (get : msg_info -> option (list (list Z))) (put : list (list Z) -> msg_info -> msg_info) :
    pjsip_parse_hdr_func := fun r s =>
  match r with
  | None => handler_of (array_hdr k) (fun h => [h]) no_note r s
  | Some m =>
      let '(values, res) := parse_generic_array_hdr (default [] (get m)) s in
      let r := Some (put values m) in
      match res with
      | Ret _ s => HRet (match get m with None => [node] | Some _ => [] end) r s
      | Throw e s => HThrow e r s
      | Stuck => HStuck
      end
  end.

Definition parse_hdr_require :=
  shared_array_hdr HRequire RequireNode mi_require (fun l m => m <| mi_require := Some l |>).
Definition parse_hdr_supported :=
  shared_array_hdr HSupported SupportedNode mi_supported (fun l m => m <| mi_supported := Some l |>).

(** A header without handler; its name is the one of the line. *)
Definition parse_hdr_generic_string (hname : list Z) :=
  handler_of parse_generic_string_hdr (fun v => [StringHdr hname v]) no_note.
