(* ===== verification/SipHdrTable.v ===== *)
(** * The table of header parsers

    Registration of header parsers and their search, [pjsip/sip_parser.c]: a
    table sorted by the hash of the name, searched by halving.  A name is
    registered as it is written, in lower case and in its short form; a
    header line is looked up as it is written, then in lower case. *)

From Stdlib Require Import String.
From S2P Require Import Prelude PjString Hash Scanner SipScan SipHdr.
Local Open Scope Z_scope.

Definition PJSIP_MAX_HEADER_TYPES : Z := 72.
Definition PJSIP_MAX_HNAME_LEN : Z := 64.
Definition PJ_ENAMETOOLONG : Z := 70005.

Section table.
Context {F : Type}.   (* parsers *)

Record handler_rec := mk_handler_rec { h_name : list Z; h_hash : Z; h_handler : F }.

(** The keys have no more characters than they are said to have. *)
Definition name_hash (name : list Z) : Z := default 0 (pj_hash_calc 0 name (slen name)).

(** [name_len] characters of the array [hname] are compared; the name in it
    is followed by zero. *)
Definition compare_handler (r : handler_rec) (name : list Z) (hash : Z) : Z :=
  if h_hash r <? hash then -1
  else if hash <? h_hash r then 1
  else memcmp (length name) (h_name r ++ replicate (length name) 0) name.

(** Where the record goes; [None]: there is one for the name. *)
Fixpoint insert_handler (rec : handler_rec) (table : list handler_rec) : option (list handler_rec) :=
  match table with
  | [] => Some [rec]
  | r :: table =>
      let d := compare_handler r (h_name rec) (h_hash rec) in
      if d =? 0 then None
      else if 0 <? d then Some (rec :: r :: table)
      else cons r <$> insert_handler rec table
  end.

Definition int_register_parser (name : list Z) (fptr : F) (table : list handler_rec) :
    Z * list handler_rec :=
  if PJSIP_MAX_HEADER_TYPES <=? Z.of_nat (length table) then (PJ_ETOOMANY, table)
  else if PJSIP_MAX_HNAME_LEN + 1 <=? slen name then (PJ_ENAMETOOLONG, table)
  else
    match insert_handler (mk_handler_rec name (name_hash name) fptr) table with
    | Some table => (PJ_SUCCESS, table)
    | None => (PJ_EEXISTS, table)
    end.

(** [if (status != PJ_SUCCESS) return status] *)
Definition and_register (name : list Z) (fptr : F) (p : Z * list handler_rec) : Z * list handler_rec :=
  let '(status, table) := p in
  if status =? PJ_SUCCESS then int_register_parser name fptr table else p.

Definition pjsip_register_hdr_parser (hname : list Z) (hshortname : option (list Z)) (fptr : F)
    (table : list handler_rec) : Z * list handler_rec :=
  if PJSIP_MAX_HNAME_LEN <? slen hname then (PJ_ENAMETOOLONG, table)
  else
    let p := and_register (pj_tolower <$> hname) fptr (int_register_parser hname fptr table) in
    match hshortname with
    | Some short => and_register short fptr p
    | None => p
    end.

(** The search among [n] records from [first]; [None]: an access outside the
    table, or no fuel. *)
Fixpoint search_handler (fuel : nat) (table : list handler_rec) (first n : nat) (hash : Z) (hname : list Z) :
    option (option F) :=
  if Nat.eqb n 0 then Some None
  else
    match fuel with
    | O => None
    | S fuel =>
        let half := Nat.div n 2 in
        mid ← table !! (first + half)%nat;
        let comp := compare_handler mid hname hash in
        if comp <? 0 then search_handler fuel table (S (first + half)) (n - (half + 1)) hash hname
        else if comp =? 0 then Some (Some (h_handler mid))
        else search_handler fuel table first half hash hname
    end.

Definition find_handler_imp (table : list handler_rec) (hash : Z) (hname : list Z) : option (option F) :=
  search_handler (length table) table 0 (length table) hash hname.

Definition find_handler (table : list handler_rec) (hname : list Z) : option (option F) :=
  if PJSIP_MAX_HNAME_LEN <=? slen hname then Some None
  else
    func ← find_handler_imp table (name_hash hname) hname;
    match func with
    | Some f => Some (Some f)
    | None =>
        let '(hash, tmp) := pj_hash_calc_tolower 0 hname in
        find_handler_imp table hash tmp
    end.
End table.
Arguments handler_rec F : clear implicits.

(** [init_parser] and [pjsip_auth_init_parser]: the names, the short names
    and the parsers, in the order of their registration. *)
Definition header_parsers : list (string * option string * pjsip_parse_hdr_func) :=
  [ ("Accept", None, parse_hdr_accept);
    ("Allow", None, parse_hdr_allow);
    ("Call-ID", Some "i", parse_hdr_call_id);
    ("Contact", Some "m", parse_hdr_contact);
    ("Content-Length", Some "l", parse_hdr_content_len);
    ("Content-Type", Some "c", parse_hdr_content_type);
    ("CSeq", None, parse_hdr_cseq);
    ("Expires", None, parse_hdr_expires);
    ("From", Some "f", parse_hdr_from);
    ("Max-Forwards", None, parse_hdr_max_forwards);
    ("Min-Expires", None, parse_hdr_min_expires);
    ("Record-Route", None, parse_hdr_rr);
    ("Route", None, parse_hdr_route);
    ("Require", None, parse_hdr_require);
    ("Retry-After", None, parse_hdr_retry_after);
    ("Supported", Some "k", parse_hdr_supported);
    ("To", Some "t", parse_hdr_to);
    ("Unsupported", None, parse_hdr_unsupported);
    ("Via", Some "v", parse_hdr_via);
    ("Authorization", None, parse_hdr_authorization);
    ("Proxy-Authorization", None, parse_hdr_proxy_authorization);
    ("WWW-Authenticate", None, parse_hdr_www_authenticate);
    ("Proxy-Authenticate", None, parse_hdr_proxy_authenticate) ]%string.

Definition register_all {F} (l : list (string * option string * F)) : Z * list (handler_rec F) :=
  fold_left (fun p '(name, short, f) =>
      let '(status, table) := p in
      if status =? PJ_SUCCESS then pjsip_register_hdr_parser (lit name) (lit <$> short) f table else p)
    l (PJ_SUCCESS, []).

(** The table once the parser is initialized. *)
Definition handler : list (handler_rec pjsip_parse_hdr_func) := (register_all header_parsers).2.

(** ** The parser of a name *)

Definition sorted_table {F} (table : list (handler_rec F)) : Prop :=
  forall i j r1 r2, (i < j)%nat -> table !! i = Some r1 -> table !! j = Some r2 -> h_hash r1 < h_hash r2.

Fixpoint increasing {F} (table : list (handler_rec F)) : bool :=
  match table with
  | r1 :: (r2 :: _) as rest => (h_hash r1 <? h_hash r2) && increasing rest
  | _ => true
  end.

Lemma increasing_head {F} (r : handler_rec F) table j r' :
  increasing (r :: table) = true -> table !! j = Some r' -> h_hash r < h_hash r'.
Proof.
  revert r j. induction table as [|r2 table IH]; intros r j H Hj; [done|].
  cbn [increasing] in H. apply andb_prop in H as [H1%Z.ltb_lt H2].
  destruct j as [|j]; [by injection Hj as ->|]. specialize (IH r2 j H2 Hj). lia.
Qed.

Lemma increasing_sorted {F} (table : list (handler_rec F)) : increasing table = true -> sorted_table table.
Proof.
  unfold sorted_table. induction table as [|r table IH]; intros H i j r1 r2 Hij H1 H2; [done|].
  destruct j as [|j]; [lia|]. destruct i as [|i].
  - injection H1 as ->. by eapply increasing_head.
  - eapply (IH ltac:(destruct table; [done|]; cbn [increasing] in H; by apply andb_prop in H as [_ H])
             i j); [lia|done..].
Qed.

(** A record that halving finds, and none is when there is none. *)
Lemma search_spec {F} (table : list (handler_rec F)) fuel first n hash hname :
  sorted_table table -> (n <= fuel)%nat -> (first + n <= length table)%nat ->
  exists res, search_handler fuel table first n hash hname = Some res /\
    match res with
    | Some f => exists r, r ∈ table /\ compare_handler r hname hash = 0 /\ h_handler r = f
    | None => forall i r, (first <= i < first + n)%nat -> table !! i = Some r -> compare_handler r hname hash <> 0
    end.
Proof.
  intros Hs. revert first n. induction fuel as [|fuel IH]; intros first n Hf Hb; cbn [search_handler].
  { assert (n = 0)%nat as -> by lia. eexists. split; [done|]. intros i r Hi. lia. }
  destruct (Nat.eqb_spec n 0) as [->|Hn]; [eexists; split; [done|]; intros i r Hi; lia|].
  pose proof (Nat.div_lt n 2 ltac:(lia) ltac:(lia)) as Hd.
  set (half := (n / 2)%nat) in *. destruct (lookup_lt_is_Some_2 table (first + half)) as [mid Hm]; [lia|].
  rewrite Hm. cbn [mbind option_bind].
  assert (Hlo : forall i r, table !! i = Some r -> (i < first + half)%nat -> h_hash r < h_hash mid)
    by (intros; eapply Hs; [|done..]; done).
  assert (Hhi : forall i r, table !! i = Some r -> (first + half < i)%nat -> h_hash mid < h_hash r)
    by (intros; eapply Hs; [|done..]; done).
  assert (Hcmp : forall r : handler_rec F, h_hash r < hash -> compare_handler r hname hash <> 0).
  { intros r Hr. unfold compare_handler. by rewrite (proj2 (Z.ltb_lt _ _) Hr). }
  assert (Hcmp' : forall r : handler_rec F, hash < h_hash r -> compare_handler r hname hash <> 0).
  { intros r Hr. unfold compare_handler. rewrite (proj2 (Z.ltb_ge _ _)) by lia.
    by rewrite (proj2 (Z.ltb_lt _ _) Hr). }
  destruct (Z.ltb_spec (compare_handler mid hname hash) 0) as [Hc|Hc].
  - assert (h_hash mid <= hash).
    { unfold compare_handler in Hc. destruct (Z.ltb_spec (h_hash mid) hash); [lia|].
      destruct (Z.ltb_spec hash (h_hash mid)); lia. }
    destruct (IH (S (first + half)) (n - (half + 1))%nat) as (res & -> & Hres); [lia..|].
    exists res. split; [done|]. destruct res; [done|]. intros i r Hi Hr.
    destruct (Nat.lt_trichotomy i (first + half)) as [Hl|[->|Hl]].
    + apply Hcmp. specialize (Hlo i r Hr Hl). lia.
    + rewrite Hm in Hr. injection Hr as <-. lia.
    + eapply Hres; [|done]. lia.
  - destruct (Z.eqb_spec (compare_handler mid hname hash) 0) as [E|E].
    { exists (Some (h_handler mid)). split; [done|]. exists mid. split; [by eapply list_elem_of_lookup_2|done]. }
    assert (hash <= h_hash mid).
    { unfold compare_handler in Hc. destruct (Z.ltb_spec (h_hash mid) hash); [lia|].
      destruct (Z.ltb_spec hash (h_hash mid)); lia. }
    destruct (IH first half) as (res & -> & Hres); [lia..|].
    exists res. split; [done|]. destruct res; [done|]. intros i r Hi Hr.
    destruct (Nat.lt_trichotomy i (first + half)) as [Hl|[->|Hl]].
    + eapply Hres; [|done]. lia.
    + rewrite Hm in Hr. by injection Hr as <-.
    + apply Hcmp'. specialize (Hhi i r Hr Hl). lia.
Qed.

Definition same_name (a b : list Z) : bool := bool_decide (pj_tolower <$> a = pj_tolower <$> b).

Fixpoint parser_of {F} (l : list (string * option string * F)) (name : list Z) : option F :=
  match l with
  | [] => None
  | (full, short, f) :: l =>
      if same_name name (lit full) || from_option (fun s => same_name name (lit s)) false short then Some f
      else parser_of l name
  end.

(** *** Facts of the table, by computation

    The parsers themselves are variables there. *)

Ltac abstract_parsers :=
  unfold handler, header_parsers;
  generalize parse_hdr_accept, parse_hdr_allow, parse_hdr_call_id, parse_hdr_contact,
    parse_hdr_content_len, parse_hdr_content_type, parse_hdr_cseq, parse_hdr_expires, parse_hdr_from,
    parse_hdr_max_forwards, parse_hdr_min_expires, parse_hdr_rr, parse_hdr_route, parse_hdr_require,
    parse_hdr_retry_after, parse_hdr_supported, parse_hdr_to, parse_hdr_unsupported, parse_hdr_via,
    parse_hdr_authorization, parse_hdr_proxy_authorization, parse_hdr_www_authenticate,
    parse_hdr_proxy_authenticate; intros.

Lemma Forall_conj {A} (P : A -> Prop) l : foldr (fun a Q => P a /\ Q) True l -> Forall P l.
Proof. induction l as [|a l IH]; cbn; [done|]. intros [H1 H2]. constructor; [done|by apply IH]. Qed.

Lemma handler_sorted : sorted_table handler.
Proof. apply increasing_sorted. by vm_compute. Qed.

(** Every name that is registered is one of the list, under its parser. *)
Lemma handler_listed : Forall (fun r => parser_of header_parsers (h_name r) = Some (h_handler r)) handler.
Proof. apply Forall_conj. abstract_parsers. vm_compute. repeat split. Qed.

Fixpoint record_of {F} (name : list Z) (table : list (handler_rec F)) : option F :=
  match table with
  | [] => None
  | r :: table =>
      if bool_decide (h_name r = name) then Some (h_handler r) else record_of name table
  end.

Lemma record_of_in {F} name (table : list (handler_rec F)) f :
  record_of name table = Some f -> exists r, r ∈ table /\ h_name r = name /\ h_handler r = f.
Proof.
  induction table as [|r table IH]; cbn [record_of]; [done|]. case_bool_decide as E.
  - intros [= <-]. exists r. split; [by constructor|done].
  - intros H. apply IH in H as (r' & Hr & H). exists r'. split; [by constructor|done].
Qed.

Lemma handler_unique : Forall (fun r => record_of (h_name r) handler = Some (h_handler r)) handler.
Proof. apply Forall_conj. abstract_parsers. vm_compute. repeat split. Qed.

(** Every name of the list is registered in lower case, and its short form. *)
Lemma handler_complete :
  Forall (fun '(full, short, f) =>
    record_of (pj_tolower <$> lit full) handler = Some f /\
    from_option (fun s => record_of (pj_tolower <$> lit s) handler = Some f) True short) header_parsers.
Proof. apply Forall_conj. abstract_parsers. vm_compute. repeat split. Qed.

(** The hash of a record is the one of its name, and of no prefix of it. *)
Definition prefixes_differ {F} (r : handler_rec F) : bool :=
  (h_hash r =? name_hash (h_name r)) &&
  forallb (fun k => negb (name_hash (take k (h_name r)) =? h_hash r)) (seq 0 (length (h_name r))).

Lemma handler_prefixes : forallb prefixes_differ handler = true.
Proof. by vm_compute. Qed.

Lemma handler_short :
  Forall (fun '(full, short, _) => slen (lit full) < PJSIP_MAX_HNAME_LEN /\
    from_option (fun s => slen (lit s) < PJSIP_MAX_HNAME_LEN) True short) header_parsers.
Proof. apply Forall_conj. abstract_parsers. vm_compute. repeat split. Qed.

#[local] Opaque handler header_parsers.

Lemma memcmp_pad name h k :
  Forall (fun c => c <> 0) name -> (length name <= k)%nat ->
  memcmp (length name) (h ++ replicate k 0) name = 0 -> exists rest, h = name ++ rest.
Proof.
  intros Hn. revert h k. induction Hn as [|c name Hc Hn IH]; intros h k Hk; [by exists h|].
  destruct h as [|x h]; cbn [app length] in *.
  - destruct k as [|k]; [lia|]. cbn [replicate memcmp]. destruct (Z.ltb_spec 0 c); [done|].
    destruct (Z.ltb_spec c 0); [done|lia].
  - cbn [memcmp]. destruct (Z.ltb_spec x c); [done|]. destruct (Z.ltb_spec c x); [done|].
    intros Hm. apply IH in Hm as [rest ->]; [|lia]. exists rest. by assert (x = c) as -> by lia.
Qed.

Lemma memcmp_padded name k : memcmp (length name) (name ++ replicate k 0) name = 0.
Proof. induction name as [|c name IH]; [by destruct k|]. cbn [length app memcmp]. by rewrite Z.ltb_irrefl. Qed.

Lemma name_hash_lower name :
  slen name < PJ_HASH_KEY_STRING ->
  pj_hash_calc_tolower 0 name = (name_hash (pj_tolower <$> name), pj_tolower <$> name).
Proof.
  intros Hl. rewrite calc_tolower_spec. f_equal. unfold name_hash, pj_hash_calc.
  rewrite key_bytes_full by (unfold slen in Hl; by rewrite length_fmap). cbn [mbind option_bind default].
  generalize 0. induction name as [|c name IH]; intros h; [done|]. cbn. apply IH.
  unfold slen in *. cbn in Hl. lia.
Qed.

(** What is found is the record of the name. *)
Lemma find_exact name :
  Forall (fun c => c <> 0) name ->
  find_handler_imp handler (name_hash name) name = Some (record_of name handler).
Proof.
  intros Hn. unfold find_handler_imp.
  destruct (search_spec handler (length handler) 0 (length handler) (name_hash name) name handler_sorted)
    as (res & -> & Hres); [lia..|]. f_equal.
  assert (Hin : forall r, r ∈ handler -> prefixes_differ r = true).
  { intros r Hr. exact (proj1 (forallb_forall _ _) handler_prefixes r (proj1 (list_elem_of_In _ _) Hr)). }
  assert (Hcmp : forall r, r ∈ handler -> compare_handler r name (name_hash name) = 0 <-> h_name r = name).
  { intros r Hr. apply Hin, andb_prop in Hr as [Hh%Z.eqb_eq Hr]. unfold compare_handler. split.
    - destruct (Z.ltb_spec (h_hash r) (name_hash name)); [done|].
      destruct (Z.ltb_spec (name_hash name) (h_hash r)); [done|].
      intros Hm. apply memcmp_pad in Hm as [rest Hm]; [|done|lia].
      destruct rest as [|x rest]; [by rewrite app_nil_r in Hm|].
      rewrite forallb_forall in Hr. specialize (Hr (length name)).
      assert (E : name_hash name = h_hash r) by lia.
      exfalso. assert (Hlt : (length name < length (h_name r))%nat).
      { rewrite Hm, length_app. cbn. lia. }
      specialize (Hr ltac:(apply in_seq; lia)). by rewrite Hm, take_app_length, E, Z.eqb_refl in Hr.
    - intros <-. rewrite Hh, Z.ltb_irrefl. apply memcmp_padded. }
  destruct res as [f|].
  - destruct Hres as (r & Hr & Hc & Hf). apply Hcmp in Hc; [|done].
    pose proof (proj1 (Forall_forall _ _) handler_unique r Hr) as Hu. cbn in Hu. by rewrite <- Hc, Hu, Hf.
  - destruct (record_of name handler) as [f|] eqn:E; [|done].
    apply record_of_in in E as (r & Hr & Hname & _). apply list_elem_of_lookup_1 in Hr as [i Hi].
    exfalso. eapply (Hres i r); [|done|].
    + apply lookup_lt_Some in Hi. lia.
    + apply Hcmp; [by eapply list_elem_of_lookup_2|done].
Qed.

Lemma tolower_idem c : pj_tolower (pj_tolower c) = pj_tolower c.
Proof.
  unfold pj_tolower. destruct ((65 <=? c) && (c <=? 90)) eqn:E; [|by rewrite E].
  apply andb_prop in E as [H1%Z.leb_le H2%Z.leb_le].
  by rewrite (proj2 (Z.leb_gt (c + 32) 90)), andb_false_r by lia.
Qed.

Lemma lower_idem (s : list Z) : pj_tolower <$> (pj_tolower <$> s) = pj_tolower <$> s.
Proof. induction s as [|c s IH]; [done|]. cbn. by rewrite tolower_idem, IH. Qed.

Lemma parser_of_lower {F} (l : list (string * option string * F)) name :
  parser_of l (pj_tolower <$> name) = parser_of l name.
Proof.
  induction l as [|[[full [short|]] f] l IH]; cbn [parser_of from_option]; [done|..];
    unfold same_name; rewrite lower_idem; by rewrite IH.
Qed.

Lemma record_parser name f : record_of name handler = Some f -> parser_of header_parsers name = Some f.
Proof.
  intros H. apply record_of_in in H as (r & Hr & <- & <-).
  by apply (proj1 (Forall_forall _ _) handler_listed r).
Qed.

Lemma parser_record name f :
  parser_of header_parsers name = Some f -> record_of (pj_tolower <$> name) handler = Some f.
Proof.
  generalize handler_complete. generalize header_parsers as l.
  induction l as [|[[full short] f'] l IH]; cbn [parser_of]; [done|].
  intros [[Hfull Hshort] Hl]%Forall_cons. unfold same_name. case_bool_decide as E.
  { intros [= <-]. by rewrite E. }
  destruct short as [short|]; cbn [from_option orb] in *; [|by apply IH].
  case_bool_decide as E'; [|by apply IH]. intros [= <-]. by rewrite E'.
Qed.

Lemma parser_of_short name f : parser_of header_parsers name = Some f -> slen name < PJSIP_MAX_HNAME_LEN.
Proof.
  pose proof handler_short as H.
  assert (Hlen : forall a b : list Z, pj_tolower <$> a = pj_tolower <$> b -> slen a = slen b).
  { intros a b E. apply (f_equal length) in E. rewrite !length_fmap in E. unfold slen. lia. }
  revert H. generalize header_parsers as l.
  induction l as [|[[full short] f'] l IH]; cbn [parser_of]; [done|].
  intros [[Hfull Hshort] Hl]%Forall_cons. unfold same_name. case_bool_decide as E.
  { intros _. by rewrite (Hlen _ _ E). }
  destruct short as [short|]; cbn [from_option orb] in *; [|by apply IH].
  case_bool_decide as E'; [|by apply IH]. intros _. by rewrite (Hlen _ _ E').
Qed.

(** C10: for any name, whatever its length and the case of its letters, the
    search finds the parser of the header of that name or short name, and
    none for other names. *)
Theorem find_handler_spec name :
  Forall (fun c => c <> 0) name ->
  find_handler handler name = Some (parser_of header_parsers name).
Proof.
  intros Hn. unfold find_handler. destruct (Z.leb_spec PJSIP_MAX_HNAME_LEN (slen name)) as [Hl|Hl].
  { destruct (parser_of header_parsers name) as [f|] eqn:E; [|done]. apply parser_of_short in E. lia. }
  rewrite find_exact by done. cbn [mbind option_bind].
  destruct (record_of name handler) as [f|] eqn:E; [by rewrite (record_parser _ _ E)|].
  rewrite name_hash_lower by (unfold PJSIP_MAX_HNAME_LEN, PJ_HASH_KEY_STRING in *; lia).
  rewrite find_exact.
  - f_equal. destruct (record_of (pj_tolower <$> name) handler) as [f|] eqn:E'.
    + apply record_parser in E'. by rewrite parser_of_lower in E'.
    + destruct (parser_of header_parsers name) as [f|] eqn:E''; [|done]. apply parser_record in E''. congruence.
  - apply Forall_fmap. eapply Forall_impl; [exact Hn|]. cbn. intros c Hc. unfold pj_tolower.
    destruct (_ && _) eqn:E'; [|done]. apply andb_prop in E' as [?%Z.leb_le _]. lia.
Qed.

#[local] Transparent handler header_parsers.

Lemma find_handler_spec_witness :
  find_handler handler (lit "cONTENT-lENGTH") = Some (Some parse_hdr_content_len) /\
  find_handler handler (lit "Subject") = Some None.
Proof.
  split.
  - rewrite (find_handler_spec (lit "cONTENT-lENGTH")); [abstract_parsers; by vm_compute|by repeat constructor].
  - rewrite (find_handler_spec (lit "Subject")); [abstract_parsers; by vm_compute|by repeat constructor].
Defined.
