(* ===== verification/SipMsg.v ===== *)
(** * SIP messages: the parser

    [int_parse_msg] of [pjsip/sip_parser.c] and the functions that call it,
    [pjsip_parse_msg], [pjsip_parse_rdata], and those that parse parts of
    messages, [pjsip_parse_headers], [pjsip_parse_hdr],
    [pjsip_parse_status_line].  [None] is a parser that does not end, or an
    access outside the table of header parsers.  Positions in error reports
    are left out. *)

From Stdlib Require Import String.
From S2P Require Import Prelude PjString Hash Scanner TsxData SipScan SipUri SipUriParse SipHdr.
From S2P Require Import SipHdrTable.
Local Open Scope Z_scope.

Definition PJSIP_EINVALIDMSG : Z := 171020.

(** ** Messages *)

Inductive msg_line :=
  | RequestLine (method : pjsip_method) (uri : pjsip_uri)
  | StatusLine (code : Z) (reason : list Z).

(** The text of a body; that of a body in several parts is left to
    [pjsip_multipart_parse]. *)
Inductive pjsip_msg_body :=
  | TextBody (content_type : pjsip_media_type) (data : list Z)
  | MultipartBody (media : pjsip_media_type) (text : list Z).

Record sip_msg := mk_sip_msg {
  msg_first : msg_line;
  msg_hdr : list pjsip_hdr;
  msg_body : option pjsip_msg_body
}.

(** [pjsip_parser_err_report]: the exception and the name of the header, of
    the first line, or no name. *)
Record err_report := mk_err_report { err_code : exn; err_hname : list Z }.

(** ** The first line *)

Definition is_next_sip_version : sip bool :=
  '(sip, c) ← scan_peek pjsip_ALPHA_SPEC;
  mret (((c =? 47) || (c =? 32) || (c =? 9)) && (pj_stricmp sip (lit "SIP") =? 0)).

Definition int_parse_req_line : sip msg_line :=
  token ← scan_get pjsip_TOKEN_SPEC;
  let method := pjsip_method_init_np token in
  uri ← int_parse_uri true;
  _ ← parse_sip_version;
  _ ← get_newline;
  mret (RequestLine method uri).

Definition PJSIP_MIN_STATUS_CODE : Z := 100.
Definition PJSIP_MAX_STATUS_CODE : Z := 999.

Definition parse_reason : sip (list Z) :=
  c ← cur;
  if negb (c =? 13) && negb (c =? 10) then scan_get pjsip_NOT_NEWLINE else mret [].

Definition int_parse_status_line : sip msg_line :=
  _ ← parse_sip_version;
  token ← scan_get pjsip_DIGIT_SPEC;
  code ← strtoi_validate token PJSIP_MIN_STATUS_CODE PJSIP_MAX_STATUS_CODE;
  reason ← parse_reason;
  _ ← get_newline;
  mret (StatusLine code reason).

(** ** Headers *)

(** A name and its colon.  The name that was read stays for the report when
    the colon is missing. *)
Inductive named_result :=
  | NameRead (hname : list Z) (s : pj_scanner)
  | NameThrow (e : exn) (hname : list Z) (s : pj_scanner)
  | NameStuck.

Definition header_name (s : pj_scanner) : named_result :=
  match scan_get pjsip_TOKEN_SPEC s with
  | Ret hname s =>
      match get_char s with
      | Ret c s => if c =? 58 then NameRead hname s else NameThrow PJSIP_SYN_ERR_EXCEPTION hname s
      | Throw e s => NameThrow e hname s
      | Stuck => NameStuck
      end
  | Throw e s => NameThrow e [] s
  | Stuck => NameStuck
  end.

(** What parsing has come to: the headers, the Content-Type header, the
    noted headers and the reports. *)
Record parsed := mk_parsed {
  pd_nodes : list hdr_node;
  pd_ctype : option pjsip_media_type;
  pd_rdata : rdata;
  pd_errs : list err_report
}.

#[export] Instance eta_parsed : Settable parsed :=
  fun p => mk_parsed (pd_nodes p) (pd_ctype p) (pd_rdata p) (pd_errs p).

Definition report (e : exn) (hname : list Z) (p : parsed) : parsed :=
  p <| pd_errs := pd_errs p ++ [mk_err_report e hname] |>.

(** [if (hdr && hdr->type == PJSIP_H_CONTENT_TYPE) ctype_hdr = hdr] *)
Definition ctype_of (nodes : list hdr_node) (old : option pjsip_media_type) : option pjsip_media_type :=
  match nodes with Node (CtypeHdr m) :: _ => Some m | _ => old end.

Definition insert_nodes (nodes : list hdr_node) (r : rdata) (p : parsed) : parsed :=
  p <| pd_nodes := pd_nodes p ++ nodes |> <| pd_ctype := ctype_of nodes (pd_ctype p) |> <| pd_rdata := r |>.

(** One line: [inl] when an exception was thrown. *)
Definition header_line (p : parsed) (s : pj_scanner) : option (parsed * pj_scanner + parsed * pj_scanner) :=
  match header_name s with
  | NameStuck => None
  | NameThrow e hname s => Some (inl (report e hname p, s))
  | NameRead hname s =>
      func ← find_handler handler hname;
      match default (parse_hdr_generic_string hname) func (pd_rdata p) s with
      | HRet nodes r s => Some (inr (insert_nodes nodes r p, s))
      | HThrow e r s => Some (inl (report e hname (p <| pd_rdata := r |>), s))
      | HStuck => None
      end
  end.

(** [do pj_scan_skip_line(scanner); while (IS_SPACE( *scanner->curptr))] *)
Fixpoint skip_header (fuel : nat) (s : list Z) : option (list Z) :=
  match fuel with
  | O => None
  | S fuel =>
      let s := pj_scan_skip_line s in
      if scan_is_space (curchar s) then skip_header fuel s else Some s
  end.

(** After an exception: the rest of the header is skipped and the flags of
    the scanner are restored. *)
Definition recover (s : pj_scanner) : option pj_scanner :=
  let text := curptr s in
  text ← (if pj_scan_is_eof text then Some text else skip_header (S (length text)) text);
  Some (mk_scanner text PJ_SCAN_AUTOSKIP_WS_HEADER).

Definition more_lines (s : pj_scanner) : bool :=
  negb (pj_scan_is_eof (curptr s)) && negb (IS_NEWLINE (curchar (curptr s))).

(** How the lines end: with an empty line or the end of the text, with an
    exception after which there are no more lines, or, for a caller that
    wants it, with the first exception. *)
Inductive lines_end := LinesDone | LinesFailed | LinesStopped.

Fixpoint header_lines (fuel : nat) (stop : bool) (p : parsed) (s : pj_scanner) :
    option (lines_end * parsed * pj_scanner) :=
  match fuel with
  | O => None
  | S fuel =>
      line ← header_line p s;
      match line with
      | inr (p, s) => if more_lines s then header_lines fuel stop p s else Some (LinesDone, p, s)
      | inl (p, s) =>
          if stop then Some (LinesStopped, p, s)
          else
            s ← recover s;
            if more_lines s then header_lines fuel stop p s else Some (LinesFailed, p, s)
      end
  end.

Definition all_lines (stop : bool) (p : parsed) (s : pj_scanner) : option (lines_end * parsed * pj_scanner) :=
  header_lines (S (length (curptr s))) stop p s.

(** ** Messages *)

(** The empty line, if there is one. *)
Definition eat_newline (s : list Z) : list Z :=
  match pj_scan_get_newline s with
  | Some (_, s') => s'
  | None => s
  end.

Definition body_of (ctype : option pjsip_media_type) (text : list Z) : option pjsip_msg_body :=
  match ctype with
  | Some media =>
      if pj_scan_is_eof text then None
      else if pj_stricmp (mt_type media) (lit "multipart") =? 0 then Some (MultipartBody media text)
      else Some (TextBody media text)
  | None => None
  end.

(** The headers, once the values of those that are shared are known. *)
Definition hdr_of (r : rdata) (n : hdr_node) : pjsip_hdr :=
  let values get := default [] (m ← r; (get : msg_info -> _) m) in
  match n with
  | Node h => h
  | RequireNode => ArrayHdr HRequire (values mi_require)
  | SupportedNode => ArrayHdr HSupported (values mi_supported)
  end.

Record parsed_msg := mk_parsed_msg {
  pm_msg : option sip_msg;
  pm_rdata : rdata;
  pm_errs : list err_report
}.

Definition first_line : sip msg_line :=
  v ← is_next_sip_version;
  if v : bool then int_parse_status_line else int_parse_req_line.

Definition skip_newlines : sip unit := while_cur IS_NEWLINE (fun _ => get_newline) tt.

(** The first report: a line whose kind is not known yet has no name. *)
Definition line_name (s : pj_scanner) : list Z :=
  match is_next_sip_version s with
  | Ret true _ => lit "Status Line"
  | Ret false _ => lit "Request Line"
  | _ => []
  end.

Definition int_parse_msg (r : rdata) (s : pj_scanner) : option parsed_msg :=
  match skip_newlines s with
  | Stuck => None
  | Throw e s => Some (mk_parsed_msg None r [mk_err_report e []])
  | Ret _ s =>
      if pj_scan_is_eof (curptr s) then Some (mk_parsed_msg None r [])
      else
        match first_line s with
        | Stuck => None
        | Throw e _ => Some (mk_parsed_msg None r [mk_err_report e (line_name s)])
        | Ret line s =>
            '(fin, p, s) ← all_lines false (mk_parsed [] None r []) s;
            match fin with
            | LinesDone =>
                let body := body_of (pd_ctype p) (eat_newline (curptr s)) in
                let hdr := hdr_of (pd_rdata p) <$> pd_nodes p in
                Some (mk_parsed_msg (Some (mk_sip_msg line hdr body)) (pd_rdata p) (pd_errs p))
            | _ => Some (mk_parsed_msg None (pd_rdata p) (pd_errs p))
            end
        end
  end.

(** [pj_scan_init] with the flags of the SIP parser. *)
Definition sip_scanner (buf : list Z) : pj_scanner :=
  mk_scanner (pj_scan_init PJ_SCAN_AUTOSKIP_WS_HEADER buf) PJ_SCAN_AUTOSKIP_WS_HEADER.

Definition pjsip_parse_msg (buf : list Z) : option parsed_msg := int_parse_msg None (sip_scanner buf).

Definition pjsip_parse_rdata (buf : list Z) : option parsed_msg :=
  int_parse_msg (Some no_msg_info) (sip_scanner buf).

(** ** Parts of messages *)

(** The status, the code and the reason.  The code is stored before it is
    found out of range, and errors after it are tolerated. *)
Definition pjsip_parse_status_line (buf : list Z) : option (Z * (Z * list Z)) :=
  match parse_sip_version (sip_scanner buf) with
  | Stuck => None
  | Throw _ _ => Some (PJSIP_EINVALIDMSG, (0, []))
  | Ret _ s =>
      match scan_get pjsip_DIGIT_SPEC s with
      | Stuck => None
      | Throw _ _ => Some (PJSIP_EINVALIDMSG, (0, []))
      | Ret token s =>
          match strtoi_status token PJSIP_MIN_STATUS_CODE PJSIP_MAX_STATUS_CODE with
          | (_, None) => Some (PJSIP_EINVALIDMSG, (0, []))
          | (status, Some code) =>
              if negb (status =? PJ_SUCCESS) then Some (PJ_SUCCESS, (code, []))
              else
                match parse_reason s with
                | Stuck => None
                | Throw _ _ => Some (PJ_SUCCESS, (code, []))
                | Ret reason _ => Some (PJ_SUCCESS, (code, reason))
                end
          end
      end
  end.

(** The headers, and how much of the text was used. *)
Definition pjsip_parse_hdr (hname buf : list Z) : option (option (list pjsip_hdr) * Z) :=
  let s := sip_scanner buf in
  let parsed_len s := slen buf - slen (curptr s) in
  func ← find_handler handler hname;
  match default (parse_hdr_generic_string hname) func None s with
  | HRet nodes r s => Some (Some (hdr_of r <$> nodes), parsed_len s)
  | HThrow _ _ s => Some (None, parsed_len s)
  | HStuck => None
  end.

Definition pjsip_parse_headers (input : list Z) (stop_on_error : bool) : option (Z * list pjsip_hdr) :=
  '(fin, p, _) ← all_lines stop_on_error (mk_parsed [] None None []) (sip_scanner input);
  let hdr := hdr_of (pd_rdata p) <$> pd_nodes p in
  Some (match fin with LinesStopped => PJSIP_EINVALIDHDR | _ => PJ_SUCCESS end, hdr).
