(* ===== verification/SipMsgSpec.v ===== *)
(** * SIP messages: what the parser returns

    The parser ends on any text, and the messages it returns are well-typed:
    numbers are in their ranges, arrays in their bounds, mandatory parts
    present. *)

From Stdlib Require Import String.
From S2P Require Import Prelude PjString Hash Scanner TsxData SipScan SipUri SipUriParse SipHdr.
From S2P Require Import SipHdrTable SipMsg.
Local Open Scope Z_scope.

(** ** The parser ends *)

Lemma uses_hdr_end : uses 0 parse_hdr_end.
Proof. unfold parse_hdr_end. uses. Qed.
#[export] Hint Resolve uses_hdr_end : uses.

Lemma uses_fraction hvalue : uses 1 (string_fraction hvalue).
Proof. unfold string_fraction. uses. Qed.

Lemma uses_more_param l : uses 1 (more_param l).
Proof. unfold more_param. eapply uses_bind_0; [eapply (uses_weak 2); [lia|apply uses_int_param]|]. intros p. uses. Qed.
#[export] Hint Resolve uses_fraction uses_more_param uses_int_param : uses.

Lemma uses_param_1 q : uses 1 (int_parse_param q).
Proof. eapply (uses_weak 2); [lia|apply uses_int_param]. Qed.
#[export] Hint Resolve uses_param_1 : uses.

Lemma uses_params : uses 0 params.
Proof. unfold params. uses. Qed.
#[export] Hint Resolve uses_params : uses.

Lemma uses_string_hdr : uses 0 parse_generic_string_hdr.
Proof. unfold parse_generic_string_hdr. uses. Qed.

Lemma uses_int_hdr : uses 0 parse_generic_int_hdr.
Proof. unfold parse_generic_int_hdr. uses. Qed.

Lemma uses_q_value v : uses 0 (q_value v).
Proof. unfold q_value. uses. Qed.
#[export] Hint Resolve uses_string_hdr uses_int_hdr uses_q_value : uses.

Lemma uses_contact_param h : uses 1 (contact_param h).
Proof. unfold contact_param. uses. Qed.

Lemma uses_fromto_param h : uses 1 (fromto_param h).
Proof. unfold fromto_param. uses. Qed.

Lemma uses_via_param h : uses 1 (via_param h).
Proof. unfold via_param. uses. Qed.
#[export] Hint Resolve uses_contact_param uses_fromto_param uses_via_param : uses.

Lemma uses_one_contact : uses 1 one_contact.
Proof. unfold one_contact. uses. Qed.

Lemma uses_get_some n : uses 0 (scan_get_n n).
Proof. eapply (uses_weak n); [lia|apply uses_get_n]. Qed.
#[export] Hint Resolve uses_get_some : uses.

Lemma uses_sip_version : uses 1 parse_sip_version.
Proof. unfold parse_sip_version. uses. Qed.
#[export] Hint Resolve uses_one_contact uses_sip_version : uses.

Lemma uses_via_port : uses 0 via_port.
Proof. unfold via_port. uses. Qed.

Lemma uses_via_comment : uses 0 via_comment.
Proof. unfold via_comment. uses. Qed.
#[export] Hint Resolve uses_via_port uses_via_comment : uses.

Lemma uses_one_via : uses 1 one_via.
Proof. unfold one_via. uses. Qed.

Lemma uses_rr_route : uses 1 parse_hdr_rr_route.
Proof. unfold parse_hdr_rr_route. uses. Qed.
#[export] Hint Resolve uses_one_via uses_rr_route : uses.

Lemma uses_comma_list {A} (one : sip A) : uses 1 one -> uses 0 (comma_list one).
Proof.
  intros H. unfold comma_list. apply uses_0_bind; [by eapply (uses_weak 1); [lia|]|]. intros a.
  apply uses_0_bind; [|intros l; uses]. apply uses_while; [done|]. intros l. unfold more_of.
  eapply uses_bind_0; [apply uses_get_char|]. intros _. apply uses_0_bind; [by eapply (uses_weak 1); [lia|]|]. intros b. uses.
Qed.

Lemma uses_contacts : uses 0 contact_values. Proof. apply uses_comma_list. uses. Qed.
Lemma uses_routes : uses 0 routing_values. Proof. apply uses_comma_list. uses. Qed.
Lemma uses_vias : uses 0 via_values. Proof. apply uses_comma_list. uses. Qed.

Lemma uses_fromto : uses 0 parse_hdr_fromto.
Proof. unfold parse_hdr_fromto. uses. Qed.

Lemma uses_retry_part h : uses 1 (retry_after_part h).
Proof. unfold retry_after_part. uses. Qed.

Lemma uses_retry_loop n h s :
  (length (curptr s) < n)%nat ->
  match retry_after_loop n h s with
  | Ret _ s' | Throw _ s' => (length (curptr s') <= length (curptr s))%nat
  | Stuck => False
  end.
Proof.
  revert h s. induction n as [|n IH]; intros h s Hn; [lia|]. cbn [retry_after_loop].
  unfold eof, cur, mbind, sip_bind. destruct (negb _ && not_end _); [|cbn; lia]. pose proof (uses_retry_part h s) as Hp.
  destruct (retry_after_part h s) as [h' s'|e s'|]; [|lia|done].
  specialize (IH h' s' ltac:(lia)). destruct (retry_after_loop n h' s'); [lia|lia|done].
Qed.

Lemma uses_retry_after : uses 0 retry_after_value.
Proof.
  unfold retry_after_value. apply uses_0_bind; [uses|]. intros tmp. apply uses_0_bind; [uses|]. intros v.
  intros s. unfold turns, mbind at 1, sip_bind at 1.
  pose proof (uses_retry_loop (S (length (curptr s))) (mk_retry_after_hdr v [] []) s ltac:(lia)) as H.
  unfold mbind, sip_bind. destruct (retry_after_loop _ _ _) as [h s'|e s'|]; [|lia|done].
  pose proof (uses_hdr_end s') as He. destruct (parse_hdr_end s'); [cbn; lia|lia|done].
Qed.

Lemma uses_digest {A} q (store : pjsip_param -> A -> A) a : uses 1 (parse_digest q store a).
Proof.
  unfold parse_digest, digest_param. eapply uses_bind_0; [uses|]. intros b.
  apply uses_while; [done|]. intros c. unfold next_digest_param, digest_param. uses.
Qed.
#[export] Hint Resolve uses_digest uses_contacts uses_routes uses_vias uses_fromto uses_retry_after : uses.

Lemma uses_auth {A} (d : sip A) : uses 1 d -> uses 1 (int_parse_hdr_auth d).
Proof.
  intros H. unfold int_parse_hdr_auth, auth_scheme. eapply uses_bind_0; [uses|]. intros s.
  destruct (_ =? 0); [|uses]. apply uses_0_bind; [by eapply (uses_weak 1); [lia|]|]. intros. uses.
Qed.

Lemma uses_call_id : uses 0 call_id_value. Proof. unfold call_id_value. uses. Qed.
Lemma uses_content_len : uses 0 content_len_value. Proof. unfold content_len_value. uses. Qed.
Lemma uses_content_type : uses 0 content_type_value. Proof. unfold content_type_value. uses. Qed.
Lemma uses_cseq : uses 0 cseq_value. Proof. unfold cseq_value. uses. Qed.
Lemma uses_authorization : uses 0 int_parse_hdr_authorization.
Proof. eapply (uses_weak 1); [lia|]. apply uses_auth. uses. Qed.
Lemma uses_authenticate : uses 0 int_parse_hdr_authenticate.
Proof. eapply (uses_weak 1); [lia|]. apply uses_auth. uses. Qed.
#[export] Hint Resolve uses_call_id uses_content_len uses_content_type uses_cseq uses_authorization
  uses_authenticate : uses.

(** ** Types *)

Definition sip_uri_typed (u : pjsip_sip_uri) : Prop :=
  0 <= u_port u <= PJSIP_MAX_PORT /\ -1 <= u_ttl_param u <= PJSIP_MAX_TTL.

Definition uri_typed (u : pjsip_uri) : Prop :=
  match u with SipUri u => sip_uri_typed u | TelUri _ | OtherUri _ => True end.

Definition name_addr_typed (n : pjsip_name_addr) : Prop := exists u, na_uri n = Some u /\ uri_typed u.

(** In headers all addresses are name addresses. *)
Definition addr_typed (a : option uri_or_name_addr) : Prop :=
  exists n, a = Some (NameAddr n) /\ name_addr_typed n.

Definition contact_typed (h : pjsip_contact_hdr) : Prop :=
  (if co_star h then co_uri h = None else addr_typed (co_uri h)) /\
  is_s32 (co_q1000 h) /\ is_u32 (co_expires h).

Definition fromto_typed (h : pjsip_fromto_hdr) : Prop := addr_typed (ft_uri h).

Definition routing_typed (h : pjsip_routing_hdr) : Prop := name_addr_typed (ro_name_addr h).

Definition retry_after_typed (h : pjsip_retry_after_hdr) : Prop := 0 <= ra_ivalue h <= PJ_MAXINT32.

Definition via_typed (h : via_hdr) : Prop :=
  0 <= v_port h <= PJSIP_MAX_PORT /\ -1 <= v_ttl_param h <= PJSIP_MAX_TTL /\
  -1 <= v_rport_param h <= PJSIP_MAX_PORT.

(** The id of a method is that of its name. *)
Definition method_typed (m : pjsip_method) : Prop := pjsip_method_init_np (m_name m) = m.

Definition cseq_typed (h : pjsip_cseq_hdr) : Prop :=
  0 <= cs_cseq h <= PJ_MAXINT32 /\ method_typed (cs_method h).

(** Text of one line. *)
Definition line_text (s : list Z) : Prop := Forall (fun c => pjsip_NOT_NEWLINE c = true) s.

Definition value_typed (v : list Z) : Prop :=
  v <> [] /\ Forall (fun c => pjsip_NOT_COMMA_OR_NEWLINE c = true) v.

Definition values_typed (l : list (list Z)) : Prop :=
  count l <= PJSIP_GENERIC_ARRAY_MAX_COUNT /\ Forall value_typed l.

Definition hdr_typed (h : pjsip_hdr) : Prop :=
  match h with
  | ArrayHdr _ l => values_typed l
  | IntHdr _ v => is_u32 v
  | CidHdr id => id <> [] /\ line_text id
  | ContactHdr h => contact_typed h
  | ClenHdr n => is_s32 n
  | CtypeHdr m => mt_type m <> [] /\ mt_subtype m <> []
  | CseqHdr h => cseq_typed h
  | FromToHdr _ h => fromto_typed h
  | RoutingHdr _ h => routing_typed h
  | RetryAfterHdr h => retry_after_typed h
  | ViaHdr h => via_typed h
  | AuthorizationHdr _ scheme _ | AuthenticateHdr _ scheme _ => pj_stricmp scheme (lit "Digest") = 0
  | StringHdr name v => name <> [] /\ line_text v
  end.

Definition line_typed (l : msg_line) : Prop :=
  match l with
  | RequestLine m u => method_typed m /\ uri_typed u
  | StatusLine code reason => PJSIP_MIN_STATUS_CODE <= code <= PJSIP_MAX_STATUS_CODE /\ line_text reason
  end.

(** A body has a header that says what it is. *)
Definition body_typed (hdr : list pjsip_hdr) (b : pjsip_msg_body) : Prop :=
  match b with
  | TextBody m text | MultipartBody m text => text <> [] /\ CtypeHdr m ∈ hdr
  end.

Definition msg_typed (m : sip_msg) : Prop :=
  line_typed (msg_first m) /\ Forall hdr_typed (msg_hdr m) /\
  from_option (body_typed (msg_hdr m)) True (msg_body m).

(** [yields P m]: what [m] returns satisfies [P]. *)
Definition yields {A} (P : A -> Prop) (m : sip A) : Prop :=
  forall s, match m s with Ret a _ => P a | Throw _ _ | Stuck => True end.

Lemma yields_bind {A B} (Q : A -> Prop) (P : B -> Prop) (m : sip A) (f : A -> sip B) :
  yields Q m -> (forall a, Q a -> yields P (f a)) -> yields P (mbind f m).
Proof.
  intros Hm Hf s. unfold mbind, sip_bind. specialize (Hm s). destruct (m s) as [a s'|e s'|]; [|done|done].
  by apply Hf.
Qed.

Lemma yields_ret {A} (P : A -> Prop) a : P a -> yields P (mret a).
Proof. by intros H s. Qed.

Lemma yields_throw {A} (P : A -> Prop) e : yields P (throw e).
Proof. by intros s. Qed.

Lemma yields_any {A} (m : sip A) : yields (fun _ => True) m.
Proof. intros s. by destruct (m s). Qed.

Lemma yields_mono {A} (P Q : A -> Prop) (m : sip A) : (forall a, P a -> Q a) -> yields P m -> yields Q m.
Proof. intros H Hm s. specialize (Hm s). destruct (m s); [by apply H|done|done]. Qed.

Lemma yields_while {A} (P : A -> Prop) test (body : A -> sip A) a :
  P a -> (forall a, P a -> yields P (body a)) -> yields P (while_cur test body a).
Proof.
  intros Ha Hb. unfold while_cur. eapply yields_bind; [apply yields_any|]. intros n _. cbn beta.
  revert a Ha. induction n as [|n IH]; intros a Ha; cbn [while_loop];
    (eapply yields_bind; [apply yields_any|]; intros c _; destruct (test c); [|by apply yields_ret]).
  - by intros s.
  - eapply yields_bind; [by apply Hb|]. intros b Hb'. by apply IH.
Qed.

Lemma yields_scan_get spec :
  yields (fun t => t <> [] /\ Forall (fun c => spec c = true) t) (scan_get spec).
Proof.
  intros s. unfold scan_get, call, pj_scan_get. destruct (curptr s) as [|c t]; [done|].
  destruct (spec c) eqn:E; [|done]. destruct (scan_span spec (c :: t)) as [x r] eqn:Ex.
  split; [|by apply span_spec in Ex as [_ ?]].
  intros ->. cbn [scan_span] in Ex. rewrite E in Ex. by destruct (scan_span spec t).
Qed.

Lemma yields_strtoi str a b :
  -2147483648 <= a -> b <= PJ_MAXINT32 -> yields (fun v => a <= v <= b) (strtoi_validate str a b).
Proof.
  intros Ha Hb s. unfold strtoi_validate, strtoi_status. destruct (pj_strtol2 str) as [st v].
  destruct (negb (st =? PJ_EINVAL)); [|done].
  destruct (Z.ltb_spec v a); [done|]. destruct (Z.ltb_spec b v); [done|].
  destruct (st =? PJ_SUCCESS); [|done]. cbn. rewrite s32_id; [done|]. unfold is_s32, PJ_MAXINT32 in *. lia.
Qed.

Create HintDb yields.
#[export] Hint Resolve yields_scan_get yields_throw : yields.
#[export] Hint Resolve yields_any | 100 : yields.
#[export] Hint Extern 1 (yields _ (strtoi_validate _ _ _)) =>
  apply yields_strtoi; [vm_compute; discriminate|vm_compute; discriminate] : yields.

(** Follow a parsing function to what it returns. *)
Ltac yields :=
  repeat first
    [ match goal with
      | |- yields _ (mbind _ _) => eapply yields_bind; [solve [typeclasses eauto 3 with yields]|intros ? ?; cbn beta in *]
      | |- yields _ (throw _) => apply yields_throw
      | |- yields _ on_syntax_error => apply yields_throw
      | |- yields _ (mret _) => apply yields_ret
      | |- yields _ (if ?b then _ else _) => destruct b
      | |- yields _ (let '(_, _) := ?p in _) => destruct p
      | |- yields _ (let _ := _ in _) => cbv zeta
      | |- yields _ (match ?x with _ => _ end) => destruct x
      end ].

Lemma yields_url_param u : sip_uri_typed u -> yields sip_uri_typed (uri_param u).
Proof.
  intros [Hp Ht]. unfold uri_param, store_uri_param. eapply yields_bind; [apply yields_any|]. intros p _.
  yields; (split; [exact Hp|]); try exact Ht. cbn. lia.
Qed.

Lemma yields_url_header u : sip_uri_typed u -> yields sip_uri_typed (header_param u).
Proof. intros H. unfold header_param. by yields. Qed.

Lemma yields_host_port : yields (fun '(_, p) => 0 <= p <= PJSIP_MAX_PORT) int_parse_uri_host_port.
Proof. unfold int_parse_uri_host_port. yields; unfold PJSIP_MAX_PORT in *; lia. Qed.
#[export] Hint Resolve yields_url_param yields_url_header yields_host_port : yields.
#[export] Hint Extern 1 (yields ?P (while_cur _ _ _)) =>
  apply yields_while; [assumption|intros; solve [typeclasses eauto 3 with yields]] : yields.

Lemma yields_if {A} (P : A -> Prop) (b : bool) (m n : sip A) :
  yields P m -> yields P n -> yields P (if b then m else n).
Proof. by destruct b. Qed.

(** One step whose result is unimportant. *)
Ltac skip_step := eapply yields_bind; [apply yields_any|intros ? _; cbn beta].

Lemma yields_created sec : sip_uri_typed (pjsip_sip_uri_create sec).
Proof. split; cbn; unfold PJSIP_MAX_PORT, PJSIP_MAX_TTL; lia. Qed.

Lemma yields_sip_url b : yields uri_typed (int_parse_sip_url b).
Proof.
  unfold int_parse_sip_url. do 4 skip_step. destruct (negb _); [apply yields_throw|].
  apply (yields_bind sip_uri_typed).
  { repeat apply yields_if; try apply yields_throw; apply yields_ret, yields_created. }
  intros url [_ Ht]. skip_step. skip_step. destruct a4 as [user pass].
  eapply yields_bind; [apply yields_host_port|]. intros [host port] Hp. cbv zeta.
  apply (yields_bind sip_uri_typed).
  { assert (sip_uri_typed (url <| u_user := user |> <| u_passwd := pass |> <| u_host := host |> <| u_port := port |>))
      by (by split). apply yields_if; [|by apply yields_ret]. apply yields_while; [done|]. apply yields_url_param. }
  intros url' Hu. skip_step. apply (yields_bind sip_uri_typed).
  { apply yields_if; [|by apply yields_ret]. eapply yields_bind; [by apply yields_url_header|].
    intros u Hu'. apply yields_while; [done|]. apply yields_url_header. }
  intros url'' Hu'. do 2 skip_step. by apply yields_ret.
Qed.

Lemma yields_tel_uri b : yields uri_typed (tel_uri_parse b).
Proof. unfold tel_uri_parse. by yields. Qed.

Lemma yields_other_uri b : yields uri_typed (int_parse_other_uri b).
Proof. unfold int_parse_other_uri. by yields. Qed.

Lemma yields_handler scheme b : yields uri_typed (find_uri_handler scheme b).
Proof.
  unfold find_uri_handler, uri_handler. cbn [find_uri_handler_in].
  repeat destruct (parser_stricmp_eq _ scheme); auto using yields_sip_url, yields_tel_uri, yields_other_uri.
Qed.

Lemma yields_uri b : yields uri_typed (int_parse_uri b).
Proof. unfold int_parse_uri. skip_step. destruct a as [scheme c]. apply yields_if; [apply yields_throw|apply yields_handler]. Qed.
#[export] Hint Resolve yields_uri yields_handler : yields.

Lemma yields_name_addr : yields name_addr_typed int_parse_name_addr.
Proof. unfold int_parse_name_addr. yields. by eexists. Qed.
#[export] Hint Resolve yields_name_addr : yields.

Lemma yields_addr b : yields (fun a => addr_typed (Some a)) (int_parse_uri_or_name_addr true b).
Proof. unfold int_parse_uri_or_name_addr. yields; eexists; (split; [done|]); [done| |done]. by eexists. Qed.
#[export] Hint Resolve yields_addr : yields.

(** *** Values *)

Lemma yields_int_hdr : yields is_u32 parse_generic_int_hdr.
Proof. unfold parse_generic_int_hdr. yields. apply u32_range. Qed.

Lemma yields_content_len : yields is_s32 content_len_value.
Proof. unfold content_len_value. yields. apply s32_range. Qed.

Lemma yields_call_id : yields (fun id => id <> [] /\ line_text id) call_id_value.
Proof. unfold call_id_value. by yields. Qed.

Lemma method_find_idem names str :
  Forall (fun '(i, name) => pjsip_method_init_np name = mk_method i name) names ->
  (method_find names str = mk_method PJSIP_OTHER_METHOD str /\
     Forall (fun '(_, name) => (pj_stricmp str name =? 0) = false) names) \/
  method_typed (method_find names str).
Proof.
  induction names as [|[i name] names IH]; cbn [method_find]; [by left|].
  intros [Hi Hn]%Forall_cons. destruct (pj_stricmp str name =? 0) eqn:E; [by right|].
  destruct (IH Hn) as [[H1 H2]|H]; [left|by right]. split; [done|]. by constructor.
Qed.

Lemma method_find_none names str :
  Forall (fun '(_, name) => (pj_stricmp str name =? 0) = false) names ->
  method_find names str = mk_method PJSIP_OTHER_METHOD str.
Proof. induction 1 as [|[i name] names H _ IH]; cbn [method_find]; [done|]. by rewrite H. Qed.

Lemma method_init_typed name : method_typed (pjsip_method_init_np name).
Proof.
  destruct (method_find_idem method_names name) as [[H1 H2]|H]; [by repeat (constructor; [by vm_compute|])| |done].
  unfold pjsip_method_init_np, method_typed. rewrite H1. by apply method_find_none.
Qed.

Lemma yields_cseq : yields cseq_typed cseq_value.
Proof. unfold cseq_value. yields. split; [done|apply method_init_typed]. Qed.

Lemma yields_content_type : yields (fun m => mt_type m <> [] /\ mt_subtype m <> []) content_type_value.
Proof. unfold content_type_value. yields. cbn. tauto. Qed.

Lemma line_text_app a b : line_text a -> line_text b -> line_text (a ++ [32] ++ b).
Proof. intros Ha Hb. apply Forall_app. split; [done|]. by constructor. Qed.

Lemma yields_string_hdr : yields line_text parse_generic_string_hdr.
Proof.
  unfold parse_generic_string_hdr. eapply yields_bind.
  - apply (yields_while line_text); [constructor|]. intros v _. unfold string_fraction.
    yields; [tauto|]. apply line_text_app; tauto.
  - intros v Hv. by yields.
Qed.

Lemma yields_q_value v : yields is_s32 (q_value v).
Proof.
  unfold q_value. yields.
  - apply s32_range.
  - unfold is_s32, PJSIP_MAX_Q1000 in *. lia.
Qed.

Lemma yields_contact_param h : contact_typed h -> yields contact_typed (contact_param h).
Proof.
  intros (Ha & Hq & He). unfold contact_param. skip_step. cbv zeta. apply yields_if.
  - eapply yields_bind; [apply yields_q_value|]. intros q Hv. by apply yields_ret.
  - yields; (split; [exact Ha|split; [exact Hq|]]); [|exact He]. cbn. unfold expires_value.
    pose proof (u32_range (pj_strtoul (p_value a))) as Hu. unfold is_u32 in *.
    destruct (_ =? _) eqn:E; [|done]. apply Z.eqb_eq in E. rewrite E. unfold PJSIP_EXPIRES_NOT_SPECIFIED. lia.
Qed.

Lemma yields_contact : yields contact_typed one_contact.
Proof.
  assert (H0 : is_s32 0) by (unfold is_s32; lia).
  assert (He : is_u32 PJSIP_EXPIRES_NOT_SPECIFIED) by (unfold is_u32, PJSIP_EXPIRES_NOT_SPECIFIED; lia).
  unfold one_contact. skip_step. apply yields_if; [by yields|].
  eapply yields_bind; [apply yields_addr|]. intros uri Hu. apply yields_while; [by split|].
  apply yields_contact_param.
Qed.

Lemma yields_comma_list {A} (P : A -> Prop) (one : sip A) :
  yields P one -> yields (fun l => l <> [] /\ Forall P l) (comma_list one).
Proof.
  intros H. unfold comma_list. eapply yields_bind; [exact H|]. intros a Ha.
  apply (yields_bind (fun l => l <> [] /\ Forall P l)); [|intros l Hl; skip_step; by apply yields_ret].
  apply yields_while; [by repeat constructor|]. intros l [Hn Hl]. unfold more_of. skip_step.
  eapply yields_bind; [exact H|]. intros b Hb. apply yields_ret. split; [by destruct l|].
  apply Forall_app. split; [done|]. by constructor.
Qed.

Lemma yields_fromto : yields fromto_typed parse_hdr_fromto.
Proof.
  unfold parse_hdr_fromto. eapply yields_bind; [apply yields_addr|]. intros uri Hu.
  apply (yields_bind fromto_typed); [|intros h Hh; skip_step; by apply yields_ret]. apply yields_while; [done|].
  intros h Hh. unfold fromto_param. by yields.
Qed.

Lemma yields_route : yields routing_typed parse_hdr_rr_route.
Proof. unfold parse_hdr_rr_route. by yields. Qed.

Lemma yields_retry_loop n h : retry_after_typed h -> yields retry_after_typed (retry_after_loop n h).
Proof.
  revert h. induction n as [|n IH]; intros h Hh; cbn [retry_after_loop]; [by intros s|].
  do 2 skip_step. apply yields_if; [|by apply yields_ret].
  apply (yields_bind retry_after_typed); [|intros h' Hh'; by apply IH]. unfold retry_after_part. by yields.
Qed.

Lemma yields_retry_after : yields retry_after_typed retry_after_value.
Proof.
  unfold retry_after_value. skip_step. eapply yields_bind; [typeclasses eauto 3 with yields|]. intros v Hv.
  skip_step. eapply yields_bind; [by apply yields_retry_loop|]. intros h Hh. skip_step. by apply yields_ret.
Qed.

Lemma yields_via_param h : via_typed h -> yields via_typed (via_param h).
Proof.
  intros (Hp & Ht & Hr). unfold via_param. skip_step. skip_step. cbv zeta.
  yields; (split; [exact Hp|split]); try exact Ht; try exact Hr; cbn; unfold PJSIP_MAX_TTL, PJSIP_MAX_PORT in *; lia.
Qed.

Lemma yields_via_port : yields (fun p => 0 <= p <= PJSIP_MAX_PORT) via_port.
Proof.
  unfold via_port. skip_step. apply yields_if; [|apply yields_ret; unfold PJSIP_MAX_PORT; lia].
  do 2 skip_step. typeclasses eauto 3 with yields.
Qed.

Lemma yields_via : yields via_typed one_via.
Proof.
  unfold one_via. do 2 skip_step. apply yields_if; [apply yields_throw|]. do 2 skip_step.
  eapply yields_bind; [apply yields_via_port|]. intros port Hp. eapply yields_bind.
  - apply yields_while; [|apply yields_via_param]. split; [done|]. cbn. unfold PJSIP_MAX_TTL, PJSIP_MAX_PORT in *. lia.
  - intros h Hh. skip_step. by apply yields_ret.
Qed.

Lemma yields_auth {A} (d : sip A) :
  yields (fun '(scheme, _) => pj_stricmp scheme (lit "Digest") = 0) (int_parse_hdr_auth d).
Proof.
  unfold int_parse_hdr_auth. skip_step. destruct (_ =? 0) eqn:E; [|apply yields_throw].
  do 2 skip_step. apply yields_ret. by apply Z.eqb_eq.
Qed.

(** ** Arrays *)

Lemma values_snoc values v :
  values_typed values -> count values < PJSIP_GENERIC_ARRAY_MAX_COUNT -> value_typed v -> values_typed (values ++ [v]).
Proof.
  intros [_ Hv] Hc H. split; [unfold count in *; rewrite length_app; cbn; lia|].
  apply Forall_app. split; [done|]. by constructor.
Qed.

(** What an array parser leaves, with [n] characters to read. *)
Definition stored_ok {A} (n : nat) (res : list (list Z) * result A) : Prop :=
  values_typed res.1 /\
  match res.2 with Ret _ s | Throw _ s => (length (curptr s) <= n)%nat | Stuck => False end.

Lemma stored_run {A} n values (m : sip A) s :
  values_typed values -> uses 0 m -> (length (curptr s) <= n)%nat -> stored_ok n (values, m s).
Proof. intros Hv Hm Hs. split; [done|]. cbn. specialize (Hm s). destruct (m s); [lia|lia|done]. Qed.

Lemma uses_next_value : uses 1 next_value.
Proof. unfold next_value. uses. Qed.

Lemma yields_value : yields value_typed (scan_get pjsip_NOT_COMMA_OR_NEWLINE).
Proof. apply yields_scan_get. Qed.

Lemma array_loop_ok fuel values s n :
  values_typed values -> (32 - length values < fuel)%nat -> (length (curptr s) <= n)%nat ->
  stored_ok n (array_loop fuel values s).
Proof.
  revert values s. induction fuel as [|fuel IH]; intros values s Hv Hf Hn; [lia|]. cbn [array_loop].
  destruct ((count values <? _) && _) eqn:E; [|apply stored_run; [done|apply uses_hdr_end|done]].
  apply andb_prop in E as [Hc%Z.ltb_lt _]. pose proof (uses_next_value s) as Hu.
  assert (Hy : yields value_typed next_value) by (unfold next_value; skip_step; apply yields_value).
  specialize (Hy s). destruct (next_value s) as [v s'|e s'|]; [|split; [done|cbn; lia]|done].
  apply IH; [by apply values_snoc| |lia]. rewrite length_app. unfold count, PJSIP_GENERIC_ARRAY_MAX_COUNT in Hc. cbn. lia.
Qed.

Lemma array_hdr_ok values s :
  values_typed values -> stored_ok (length (curptr s)) (parse_generic_array_hdr values s).
Proof.
  intros Hv. unfold parse_generic_array_hdr.
  destruct (_ || _); [apply stored_run; [done|apply uses_hdr_end|done]|].
  destruct (Z.leb_spec PJSIP_GENERIC_ARRAY_MAX_COUNT (count values)); [split; [done|cbn; lia]|].
  pose proof (uses_scan_get pjsip_NOT_COMMA_OR_NEWLINE s) as Hu. pose proof (yields_value s) as Hy.
  destruct (scan_get _ s) as [v s'|e s'|]; [|split; [done|cbn; lia]|done].
  apply array_loop_ok; [by apply values_snoc|lia|lia].
Qed.

Lemma values_nil : values_typed [].
Proof. split; [by vm_compute|constructor]. Qed.

Lemma uses_array_hdr k : uses 0 (array_hdr k).
Proof.
  intros s. unfold array_hdr. destruct (array_hdr_ok [] s values_nil) as [_ H].
  destruct (parse_generic_array_hdr [] s) as [v [a s'|e s'|]]; cbn in *; [lia|lia|done].
Qed.

Lemma yields_array_hdr k : yields hdr_typed (array_hdr k).
Proof.
  intros s. unfold array_hdr. destruct (array_hdr_ok [] s values_nil) as [Hv _].
  by destruct (parse_generic_array_hdr [] s) as [v [a s'|e s'|]].
Qed.

(** ** Handlers *)

Record info_typed (m : msg_info) : Prop := {
  it_via : from_option via_typed True (mi_via m);
  it_from : from_option fromto_typed True (mi_from m);
  it_to : from_option fromto_typed True (mi_to m);
  it_cid : from_option line_text True (mi_cid m);
  it_cseq : from_option cseq_typed True (mi_cseq m);
  it_max_fwd : from_option is_u32 True (mi_max_fwd m);
  it_route : from_option routing_typed True (mi_route m);
  it_record_route : from_option routing_typed True (mi_record_route m);
  it_clen : from_option is_s32 True (mi_clen m);
  it_require : from_option values_typed True (mi_require m);
  it_supported : from_option values_typed True (mi_supported m)
}.

Definition rdata_typed (r : rdata) : Prop := from_option info_typed True r.

Definition node_typed (n : hdr_node) : Prop := match n with Node h => hdr_typed h | _ => True end.

Definition handler_ok (f : pjsip_parse_hdr_func) : Prop := forall r s,
  rdata_typed r ->
  match f r s with
  | HRet nodes r s' => (length (curptr s') <= length (curptr s))%nat /\ Forall node_typed nodes /\ rdata_typed r
  | HThrow _ r s' => (length (curptr s') <= length (curptr s))%nat /\ rdata_typed r
  | HStuck => False
  end.

Lemma handler_of_ok {A} (P : A -> Prop) value hdrs note :
  uses 0 value -> yields P value -> (forall a, P a -> Forall hdr_typed (hdrs a)) ->
  (forall a m, P a -> info_typed m -> info_typed (note a m)) -> handler_ok (handler_of value hdrs note).
Proof.
  intros Hu Hy Hh Hn r s Hr. unfold handler_of. specialize (Hu s). specialize (Hy s).
  destruct (value s) as [a s'|e s'|]; [|split; [lia|done]|done]. split; [lia|]. split.
  - apply Forall_fmap. eapply Forall_impl; [by apply Hh|]. done.
  - destruct r as [m|]; [by apply Hn|done].
Qed.

Lemma shared_ok k node get put :
  node_typed node ->
  (forall m, info_typed m -> values_typed (default [] (get m))) ->
  (forall l m, values_typed l -> info_typed m -> info_typed (put l m)) ->
  handler_ok (shared_array_hdr k node get put).
Proof.
  intros Hn Hg Hp r s Hr. unfold shared_array_hdr. destruct r as [m|].
  - destruct (array_hdr_ok (default [] (get m)) s (Hg m Hr)) as [Hv H].
    destruct (parse_generic_array_hdr _ s) as [v [a s'|e s'|]]; cbn in *; [|split; [done|by apply Hp]|done].
    split; [done|]. split; [destruct (get m); [constructor|by constructor]|by apply Hp].
  - apply (handler_of_ok hdr_typed); [apply uses_array_hdr|apply yields_array_hdr|by repeat constructor|done|done].
Qed.

Lemma first_typed {A} (P : A -> Prop) old l :
  from_option P True old -> l <> [] /\ Forall P l -> from_option P True (first_of old l).
Proof. destruct old as [x|]; [done|]. intros _ [_ H]. destruct H; done. Qed.

Lemma Forall_hdrs {A} (P : A -> Prop) (mk : A -> pjsip_hdr) l :
  (forall a, P a -> hdr_typed (mk a)) -> l <> [] /\ Forall P l -> Forall hdr_typed (mk <$> l).
Proof. intros H [_ Hl]. apply Forall_fmap. eapply Forall_impl; [exact Hl|]. exact H. Qed.

Lemma yields_contacts : yields (fun l => l <> [] /\ Forall contact_typed l) contact_values.
Proof. apply yields_comma_list, yields_contact. Qed.

Lemma yields_routes : yields (fun l => l <> [] /\ Forall routing_typed l) routing_values.
Proof. apply yields_comma_list, yields_route. Qed.

Lemma yields_vias : yields (fun l => l <> [] /\ Forall via_typed l) via_values.
Proof. apply yields_comma_list, yields_via. Qed.

Lemma yields_authorization :
  yields (fun '(scheme, _) => pj_stricmp scheme (lit "Digest") = 0) int_parse_hdr_authorization.
Proof. apply yields_auth. Qed.

Lemma yields_authenticate :
  yields (fun '(scheme, _) => pj_stricmp scheme (lit "Digest") = 0) int_parse_hdr_authenticate.
Proof. apply yields_auth. Qed.

#[export] Hint Resolve uses_array_hdr yields_array_hdr yields_int_hdr yields_content_len yields_call_id
  yields_cseq yields_content_type yields_string_hdr yields_contacts yields_fromto yields_routes
  yields_retry_after yields_vias yields_authorization yields_authenticate : yields.

(** A handler of the list. *)
Ltac handler_ok :=
  eapply handler_of_ok;
    [solve [eauto using uses_array_hdr with uses]
    |solve [typeclasses eauto 3 with yields]
    |intros a Ha; solve [by eapply Forall_hdrs|apply Forall_singleton; cbn in *; tauto
      |destruct a; apply Forall_singleton; cbn in *; tauto]
    |intros ? ? ? []; constructor; cbn; try done; try (by apply first_typed); cbn beta in *; tauto].

Lemma require_ok : handler_ok parse_hdr_require.
Proof.
  apply shared_ok; [done| |].
  - intros m []. destruct (mi_require m); [done|apply values_nil].
  - intros l m Hl []. by constructor.
Qed.

Lemma supported_ok : handler_ok parse_hdr_supported.
Proof.
  apply shared_ok; [done| |].
  - intros m []. destruct (mi_supported m); [done|apply values_nil].
  - intros l m Hl []. by constructor.
Qed.

Lemma generic_ok hname : hname <> [] -> handler_ok (parse_hdr_generic_string hname).
Proof. intros Hn. handler_ok. Qed.

Lemma parsers_ok : Forall (fun '(_, f) => handler_ok f) header_parsers.
Proof.
  unfold header_parsers.
  repeat (apply Forall_cons; split); first [apply require_ok|apply supported_ok|apply Forall_nil; done|handler_ok].
Qed.

(** ** Messages *)

(** The search ends, for any name, and finds a parser of the list. *)
Lemma find_handler_total name :
  exists func, find_handler handler name = Some func /\
    forall f, func = Some f -> handler_ok f.
Proof.
  assert (Hok : forall f r, r ∈ handler -> h_handler r = f -> handler_ok f).
  { intros f r Hr <-. pose proof (proj1 (Forall_forall _ _) handler_listed r Hr) as H.
    pose proof parsers_ok as Hp. revert H Hp. generalize header_parsers as l.
    induction l as [|[[full short] f'] l IH]; cbn [parser_of]; [done|].
    intros H [Hp Hl]%Forall_cons. revert H. destruct (_ || _); [|intros H; by apply IH].
    intros [= E]. by rewrite <- E. }
  assert (Hf : forall hash hname, exists func, find_handler_imp handler hash hname = Some func /\
      forall f, func = Some f -> handler_ok f).
  { intros hash hname. unfold find_handler_imp.
    destruct (search_spec handler (length handler) 0 (length handler) hash hname handler_sorted)
      as (res & -> & H); [lia..|]. exists res. split; [done|]. intros f ->.
    destruct H as (r & Hr & _ & Hrf). by eapply Hok. }
  unfold find_handler. destruct (_ <=? _); [by exists None|].
  destruct (Hf (name_hash name) name) as ([f|] & -> & H); cbn [mbind option_bind]; [by exists (Some f)|].
  destruct (pj_hash_calc_tolower 0 name) as [h t]. apply Hf.
Qed.

Record parsed_ok (p : parsed) : Prop := {
  po_nodes : Forall node_typed (pd_nodes p);
  po_rdata : rdata_typed (pd_rdata p);
  po_ctype : forall m, pd_ctype p = Some m -> Node (CtypeHdr m) ∈ pd_nodes p
}.

Lemma insert_ok nodes r p :
  parsed_ok p -> Forall node_typed nodes -> rdata_typed r -> parsed_ok (insert_nodes nodes r p).
Proof.
  intros [Hn Hr Hc] Hnodes Hr'. split; cbn; [by apply Forall_app|done|].
  intros m Hm. apply elem_of_app.
  assert (H : ctype_of nodes (pd_ctype p) = Some m -> Node (CtypeHdr m) ∈ nodes \/ pd_ctype p = Some m).
  { destruct nodes as [|[[]| |] nodes]; cbn; try (by right). intros [= ->]. left. by constructor. }
  destruct (H Hm) as [H'|H']; [by right|left; by apply Hc].
Qed.

Lemma report_ok e hname p : parsed_ok p -> parsed_ok (report e hname p).
Proof. by intros []. Qed.

(** A line is read, or reported with nothing given back. *)
Lemma header_line_ok p s :
  parsed_ok p ->
  exists res, header_line p s = Some res /\
    match res with
    | inl (p', s') => parsed_ok p' /\ (length (curptr s') <= length (curptr s))%nat
    | inr (p', s') => parsed_ok p' /\ (length (curptr s') < length (curptr s))%nat
    end.
Proof.
  intros Hp. unfold header_line, header_name.
  pose proof (uses_scan_get pjsip_TOKEN_SPEC s) as Hu. pose proof (yields_scan_get pjsip_TOKEN_SPEC s) as Hy.
  destruct (scan_get pjsip_TOKEN_SPEC s) as [hname s1|e s1|]; [|eexists; split; [done|]; by split; [apply report_ok|]|done].
  pose proof (uses_get_char s1) as Hg. destruct (get_char s1) as [c s2|e s2|];
    [|eexists; split; [done|]; split; [by apply report_ok|lia]|done].
  destruct (c =? 58); [|eexists; split; [done|]; split; [by apply report_ok|lia]].
  destruct (find_handler_total hname) as (func & -> & Hf). cbn [mbind option_bind].
  assert (Hok : handler_ok (default (parse_hdr_generic_string hname) func)).
  { destruct func as [f|]; [by apply Hf|]. apply generic_ok, Hy. }
  specialize (Hok (pd_rdata p) s2 (po_rdata p Hp)).
  destruct (default _ func (pd_rdata p) s2) as [nodes r s3|e r s3|]; [| |done]; (eexists; split; [done|]).
  - destruct Hok as (Hl & Hn & Hr). split; [by apply insert_ok|lia].
  - destruct Hok as (Hl & Hr). destruct Hp as [H1 H2 H3]. by split; [apply report_ok|lia].
Qed.

Lemma skip_header_ok fuel s :
  (length s < fuel)%nat -> s <> [] -> exists r, skip_header fuel s = Some r /\ (length r < length s)%nat.
Proof.
  revert s. induction fuel as [|fuel IH]; intros s Hf Hs; [lia|]. cbn [skip_header].
  assert (Hl : (length (pj_scan_skip_line s) < length s)%nat).
  { pose proof (skip_line_length s). destruct s; [done|cbn [length] in *; lia]. }
  destruct (scan_is_space _) eqn:E; [|by eexists].
  destruct (IH (pj_scan_skip_line s)) as (r & -> & Hr); [lia| |exists r; split; [done|lia]].
  intros H. rewrite H in E. done.
Qed.

Lemma recover_ok s :
  exists s', recover s = Some s' /\
    (if more_lines s' then (length (curptr s') < length (curptr s))%nat
     else (length (curptr s') <= length (curptr s))%nat).
Proof.
  unfold recover. destruct (curptr s) as [|c t] eqn:E; cbn [pj_scan_is_eof mbind option_bind].
  { eexists. split; [done|]. cbn. lia. }
  destruct (skip_header_ok (S (length (c :: t))) (c :: t)) as (r & -> & Hr); [lia|done|].
  eexists. split; [done|]. cbn [curptr]. destruct (more_lines _); lia.
Qed.

Lemma header_lines_ok fuel stop p s :
  (length (curptr s) < fuel)%nat -> parsed_ok p ->
  exists fin p' s', header_lines fuel stop p s = Some (fin, p', s') /\ parsed_ok p' /\
    (length (curptr s') <= length (curptr s))%nat.
Proof.
  revert p s. induction fuel as [|fuel IH]; intros p s Hf Hp; [lia|]. cbn [header_lines].
  destruct (header_line_ok p s Hp) as ([[p' s']|[p' s']] & -> & Hp' & Hl); cbn [mbind option_bind].
  - destruct stop; [by do 3 eexists|].
    destruct (recover_ok s') as (s2 & -> & Hs). cbn [mbind option_bind].
    destruct (more_lines s2); [|do 3 eexists; split; [done|]; split; [done|lia]].
    destruct (IH p' s2) as (fin & p3 & s3 & -> & H1 & H2); [lia|done|]. do 3 eexists. split; [done|]. split; [done|lia].
  - destruct (more_lines s'); [|do 3 eexists; split; [done|]; split; [done|lia]].
    destruct (IH p' s') as (fin & p3 & s3 & -> & H1 & H2); [lia|done|]. do 3 eexists. split; [done|]. split; [done|lia].
Qed.

Lemma all_lines_ok stop r s :
  rdata_typed r ->
  exists fin p' s', all_lines stop (mk_parsed [] None r []) s = Some (fin, p', s') /\ parsed_ok p'.
Proof.
  intros Hr. destruct (header_lines_ok (S (length (curptr s))) stop (mk_parsed [] None r []) s)
    as (fin & p & s' & H & Hp & _); [lia|by split|]. by do 3 eexists.
Qed.

Lemma hdr_of_typed r n : rdata_typed r -> node_typed n -> hdr_typed (hdr_of r n).
Proof.
  intros Hr. destruct n as [h| |]; cbn; [done| |]; intros _; (destruct r as [m|]; [|apply values_nil]);
    destruct Hr; cbn; [destruct (mi_require m)|destruct (mi_supported m)]; done || apply values_nil.
Qed.

Lemma uses_first_line : uses 0 first_line.
Proof.
  unfold first_line, is_next_sip_version, int_parse_status_line, int_parse_req_line, parse_reason. uses.
Qed.

Lemma yields_first_line : yields line_typed first_line.
Proof.
  unfold first_line. skip_step. apply yields_if.
  - unfold int_parse_status_line. do 2 skip_step.
    eapply yields_bind; [typeclasses eauto 3 with yields|]. intros code Hc.
    apply (yields_bind line_text); [|intros reason Hr; skip_step; by apply yields_ret].
    unfold parse_reason. skip_step. apply yields_if; [|by apply yields_ret; constructor].
    eapply yields_mono; [|apply yields_scan_get]. by intros t [_ Ht].
  - unfold int_parse_req_line. yields. split; [apply method_init_typed|done].
Qed.

Definition parsed_msg_typed (pm : parsed_msg) : Prop :=
  from_option msg_typed True (pm_msg pm) /\ rdata_typed (pm_rdata pm).

Lemma msg_of_typed line p text :
  line_typed line -> parsed_ok p ->
  msg_typed (mk_sip_msg line (hdr_of (pd_rdata p) <$> pd_nodes p) (body_of (pd_ctype p) text)).
Proof.
  intros Hl [Hn Hr Hc]. split; [done|]. split; cbn [msg_hdr msg_body].
  - apply Forall_fmap. eapply Forall_impl; [exact Hn|]. intros n. by apply hdr_of_typed.
  - unfold body_of. destruct (pd_ctype p) as [m|]; [|done]. destruct text as [|c text]; [done|]. cbn [pj_scan_is_eof].
    assert (H : CtypeHdr m ∈ hdr_of (pd_rdata p) <$> pd_nodes p).
    { apply list_elem_of_fmap. exists (Node (CtypeHdr m)). split; [done|by apply Hc]. }
    by destruct (_ =? 0).
Qed.

Lemma parse_msg_typed r s :
  rdata_typed r -> exists pm, int_parse_msg r s = Some pm /\ parsed_msg_typed pm.
Proof.
  intros Hr. unfold int_parse_msg.
  assert (Hs : uses 0 skip_newlines) by (unfold skip_newlines; uses).
  specialize (Hs s). destruct (skip_newlines s) as [[] s1|e s1|]; [|by eexists|done].
  destruct (pj_scan_is_eof _); [by eexists|].
  pose proof (uses_first_line s1) as Hu. pose proof (yields_first_line s1) as Hy.
  destruct (first_line s1) as [line s2|e s2|]; [|by eexists|done].
  destruct (all_lines_ok false r s2 Hr) as (fin & p & s3 & -> & Hp). cbn [mbind option_bind].
  destruct fin; (eexists; split; [done|]); split; try done; try apply Hp. by apply msg_of_typed.
Qed.

Lemma no_info_typed : info_typed no_msg_info.
Proof. by split. Qed.

(** C8: whatever the text, parsing it ends, as a message or as a received
    packet; a message that is returned is well-typed, and so are the headers
    noted in the packet: the array headers have at most as many values as the
    array holds, URIs have the kind their header needs, and the numbers that
    the parser validates (ports, ttl, rport, CSeq, Retry-After, status codes)
    are in the range it checks. The numbers that it does not validate are
    integers of their type and nothing more: q1000 and Content-Length may be
    negative ([q_value_negative], [content_length_negative]), Expires and the
    other integer headers may be any unsigned number. *)
Theorem sip_parse_typed buf :
  (exists pm, pjsip_parse_msg buf = Some pm /\ parsed_msg_typed pm) /\
  (exists pm, pjsip_parse_rdata buf = Some pm /\ parsed_msg_typed pm).
Proof. split; apply parse_msg_typed; [done|apply no_info_typed]. Qed.

(** The other entries of the parser end too. *)
Lemma parse_headers_total input stop : exists res, pjsip_parse_headers input stop = Some res.
Proof.
  unfold pjsip_parse_headers.
  destruct (all_lines_ok stop None (sip_scanner input) I) as (fin & p & s & -> & _). by eexists.
Qed.

Lemma parse_hdr_total hname buf : hname <> [] -> exists res, pjsip_parse_hdr hname buf = Some res.
Proof.
  intros Hn. unfold pjsip_parse_hdr. destruct (find_handler_total hname) as (func & -> & Hf).
  cbn [mbind option_bind].
  assert (Hok : handler_ok (default (parse_hdr_generic_string hname) func)).
  { destruct func as [f|]; [by apply Hf|by apply generic_ok]. }
  specialize (Hok None (sip_scanner buf) I). destruct (default _ func None _); [by eexists|by eexists|done].
Qed.
