(* ===== verification/SipFrame.v ===== *)
(** * Messages in packets and streams

    How received bytes become messages: [pjsip_find_msg] of
    [pjsip/sip_parser.c] finds where a message ends,
    [pjsip_tpmgr_receive_packet] of [pjsip/sip_transport.c] cuts a packet into
    messages, parses and checks them, and [on_data_read] of
    [pjsip/sip_transport_tcp.c] with [ioqueue_on_read_complete] of
    [pj/activesock.c] keep what is left for the next read of a stream. *)

From Stdlib Require Import String.
From S2P Require Import Prelude PjString Hash Scanner TsxData SipScan SipUri SipUriParse SipHdr.
From S2P Require Import SipHdrTable SipMsg.
Local Open Scope Z_scope.

Definition PJSIP_EPARTIALMSG : Z := 171024.
Definition PJSIP_EINVALIDSTATUS : Z := 171030.
Definition PJSIP_ERXOVERFLOW : Z := 171062.
Definition PJSIP_MAX_PKT_LEN : Z := 4000.
Definition PJSIP_MAX_CONTENT_LENGTH : Z := PJ_MAXINT32.

(** ** The end of a message *)

Fixpoint is_prefix (p s : list Z) : bool :=
  match p, s with
  | [], _ => true
  | c :: p, d :: s => (c =? d) && is_prefix p s
  | _ :: _, [] => false
  end.

(** The offset of the first occurrence. *)
Fixpoint pj_strstr (str substr : list Z) : option nat :=
  if is_prefix substr str then Some O
  else match str with [] => None | _ :: str => S <$> pj_strstr str substr end.

(** What follows the first [chr]. *)
Fixpoint after_chr (str : list Z) (chr : Z) : option (list Z) :=
  match str with
  | [] => None
  | c :: str => if c =? chr then Some str else after_chr str chr
  end.

Definition end_hdr : list Z := [10; 13; 10].

(** Does the line begin with the name of Content-Length? *)
Definition is_clen_name (line : list Z) : bool :=
  let c := curchar line in
  let d := curchar (tail line) in
  (((c =? 67) || (c =? 99)) && (strncasecmp 14 line (lit "Content-Length") =? 0)) ||
  (((c =? 108) || (c =? 76)) && ((d =? 32) || (d =? 9) || (d =? 58))).

Definition advance_n (n : nat) : sip unit := call (fun k => pj_scan_advance_n k n true).

Definition clen_value (line : list Z) : sip Z :=
  let c := curchar line in
  _ ← (if (c =? 67) || (c =? 99) then advance_n 14
       else if (c =? 108) || (c =? 76) then advance_n 1 else mret tt);
  colon ← get_char;
  if negb (colon =? 58) then on_syntax_error else
  str_clen ← scan_get pjsip_DIGIT_SPEC;
  _ ← get_newline;
  strtoi_validate str_clen 0 PJSIP_MAX_CONTENT_LENGTH.

(** From a line of the header area, which is followed by the rest of it:
    [inr], the length of the body, or [inl], the status.  The area ends with
    a newline, which no step of [clen_value] passes but the last. *)
Fixpoint clen_loop (fuel : nat) (area : list Z) (status : Z) : option (Z + Z) :=
  match after_chr area 10 with
  | None => Some (inl status)
  | Some line =>
      match fuel with
      | O => None
      | S fuel =>
          if is_clen_name line then
            match clen_value line (sip_scanner line) with
            | Ret content_length _ => Some (inr content_length)
            | Throw PJSIP_SYN_ERR_EXCEPTION _ => clen_loop fuel line PJSIP_EMISSINGHDR
            | Throw PJSIP_EINVAL_ERR_EXCEPTION _ => clen_loop fuel line PJSIP_EINVALIDHDR
            | Stuck => None
            end
          else clen_loop fuel line status
      end
  end.

(** The status and the size of the message. *)
Definition pjsip_find_msg (buf : list Z) (is_datagram : bool) : option (Z * Z) :=
  let size := slen buf in
  if is_datagram then Some (PJ_SUCCESS, size)
  else
    match pj_strstr buf end_hdr with
    | None => Some (PJSIP_EPARTIALMSG, size)
    | Some pos =>
        let area := take (pos + 1) buf in
        len ← clen_loop (length area) area PJSIP_EMISSINGHDR;
        match len with
        | inl status => Some (status, size)
        | inr content_length =>
            let msg_size := Z.of_nat (pos + 3) + content_length in
            Some (if msg_size <=? size then PJ_SUCCESS else PJSIP_EPARTIALMSG, msg_size)
        end
    end.

(** ** Packets *)

(** What the manager does with messages: [on_rx_msg] of the endpoint, and the
    [status] of [tp_drop_data_cb] for the bytes that are dropped. *)
Inductive rx_event :=
  | OnRxMsg (status : Z) (m : parsed_msg)
  | Dropped (status : Z) (data : list Z) (len : Z).

Section transport.
(** [rdata->pkt_info.src_name] and [src_port]; whether there is a
    [tp_drop_data_cb], and the length it stores in [dd.len] when it is told
    of a fragment with a syntax error. *)
Context (src_name : list Z) (src_port : Z) (drop_cb : option (list Z -> Z)).

(** [tp_drop_data_cb] is given the bytes and, apart from them, a length. *)
Definition drop (status : Z) (data : list Z) (len : Z) : list rx_event :=
  match drop_cb with Some _ => [Dropped status data len] | None => [] end.

(** The Via of [msg_info] is the first of the message. *)
Definition set_via (v : via_hdr) : via_hdr :=
  let v := v <| v_recvd_param := src_name |> in
  if v_rport_param v =? 0 then v <| v_rport_param := src_port |> else v.

Fixpoint set_first_via (l : list pjsip_hdr) : list pjsip_hdr :=
  match l with
  | ViaHdr v :: l => ViaHdr (set_via v) :: l
  | h :: l => h :: set_first_via l
  | [] => []
  end.

Definition received (m : parsed_msg) (msg : sip_msg) (i : msg_info) : parsed_msg :=
  mk_parsed_msg (Some (mk_sip_msg (msg_first msg) (set_first_via (msg_hdr msg)) (msg_body msg)))
    (Some (i <| mi_via := set_via <$> mi_via i |>)) (pm_errs m).

(** [msg_info.cid == NULL || msg_info.cid->id.slen == 0 || ...] *)
Definition missing_hdr (i : msg_info) : bool :=
  match mi_cid i, mi_from i, mi_to i, mi_via i, mi_cseq i with
  | Some id, Some _, Some _, Some _, Some _ => slen id =? 0
  | _, _, _, _, _ => true
  end.

(** A fragment that was parsed; the size it is found to have. *)
Definition process_fragment (data : list Z) (m : parsed_msg) : list rx_event * Z :=
  let size := slen data in
  match pm_msg m, pm_rdata m, pm_errs m with
  | Some msg, Some i, [] =>
      if missing_hdr i then (OnRxMsg PJSIP_EMISSINGHDR m :: drop PJSIP_EMISSINGHDR data size, size)
      else
        match msg_first msg with
        | RequestLine _ _ => ([OnRxMsg PJ_SUCCESS (received m msg i)], size)
        | StatusLine code _ =>
            if (code <? 100) || (700 <=? code) then
              (OnRxMsg PJSIP_EINVALIDSTATUS m :: drop PJSIP_EINVALIDSTATUS data size, size)
            else ([OnRxMsg PJ_SUCCESS m], size)
        end
  | _, _, errs =>
      match errs, drop_cb with
      | _ :: _, Some cb =>
          let len := cb data in
          (drop PJSIP_EINVALIDMSG data size, if (0 <? len) && (len <? size) then len else size)
      | _, _ => ([], size)
      end
  end.

(** The newlines at the start. *)
Fixpoint skip_crlf (s : list Z) : list Z * list Z :=
  match s with
  | c :: s' => if IS_NEWLINE c then let '(a, b) := skip_crlf s' in (c :: a, b) else ([], s)
  | [] => ([], [])
  end.

Definition drop_newlines (nl : list Z) : list rx_event :=
  match nl with [] => [] | _ => drop PJ_EIGNORED nl (slen nl) end.

(** The loop of [pjsip_tpmgr_receive_packet]: what happened, and the bytes
    that were not processed. *)
Fixpoint receive_loop (fuel : nat) (is_datagram : bool) (pkt : list Z) : option (list rx_event * list Z) :=
  match pkt with
  | [] => Some ([], [])
  | _ =>
      match fuel with
      | O => None
      | S fuel =>
          let '(nl, pkt) := skip_crlf pkt in
          let evs := drop_newlines nl in
          if slen pkt =? 0 then Some (evs, [])
          else
            '(status, size) ← pjsip_find_msg pkt is_datagram;
            if negb (status =? PJ_SUCCESS) then
              if slen pkt =? PJSIP_MAX_PKT_LEN then
                let m := mk_parsed_msg None (Some no_msg_info) [] in
                Some (evs ++ OnRxMsg PJSIP_ERXOVERFLOW m :: drop PJSIP_ERXOVERFLOW pkt size, [])
              else Some (evs, pkt)
            else
              let data := take (Z.to_nat size) pkt in
              m ← pjsip_parse_rdata data;
              let '(evs', eaten) := process_fragment data m in
              '(evs'', rest) ← receive_loop fuel is_datagram (List.skipn (Z.to_nat eaten) pkt);
              Some (evs ++ evs' ++ evs'', rest)
      end
  end.

Definition pjsip_tpmgr_receive_packet (is_datagram : bool) (pkt : list Z) : option (list rx_event * list Z) :=
  receive_loop (length pkt) is_datagram pkt.

(** ** Streams

    The reads of a connection, none of which is empty: the bytes of each are
    appended to those that the last one left. *)
Definition on_data_read (left data : list Z) : option (list rx_event * list Z) :=
  pjsip_tpmgr_receive_packet false (left ++ data).

Fixpoint read_stream (left : list Z) (reads : list (list Z)) : option (list rx_event * list Z) :=
  match reads with
  | [] => Some ([], left)
  | data :: reads =>
      '(evs, left) ← on_data_read left data;
      '(evs', left) ← read_stream left reads;
      Some (evs ++ evs', left)
  end.
End transport.
