(* ===== verification/SipFrameSpec.v ===== *)
(** * Messages in packets and streams: every message is delivered once

    Where a message ends does not depend on what follows it, so however a
    stream is cut into reads, its messages come out one by one, in order. *)

From Stdlib Require Import String.
From S2P Require Import Prelude PjString Hash Scanner TsxData SipScan SipUri SipUriParse SipHdr.
From S2P Require Import SipHdrTable SipMsg SipMsgSpec SipFrame.
Local Open Scope Z_scope.

(** ** The end of a message *)

Lemma is_prefix_app p s r : is_prefix p s = true -> is_prefix p (s ++ r) = true.
Proof.
  revert s. induction p as [|c p IH]; intros [|d s]; cbn; try done.
  intros [-> H]%andb_prop. by apply IH.
Qed.

Lemma is_prefix_short p s r :
  (length p <= length s)%nat -> is_prefix p (s ++ r) = is_prefix p s.
Proof.
  revert s. induction p as [|c p IH]; intros [|d s] Hl; cbn in *; try done; [lia|].
  by rewrite IH by lia.
Qed.

Lemma is_prefix_length p s : is_prefix p s = true -> (length p <= length s)%nat.
Proof.
  revert s. induction p as [|c p IH]; intros [|d s]; cbn; try done; [lia|].
  intros [_ H]%andb_prop. apply IH in H. lia.
Qed.

Lemma strstr_bound s sub pos : pj_strstr s sub = Some pos -> (pos + length sub <= length s)%nat.
Proof.
  revert pos. induction s as [|c s IH]; intros pos; cbn [pj_strstr].
  - destruct (is_prefix sub []) eqn:E; [|done]. intros [= <-]. by apply is_prefix_length in E.
  - destruct (is_prefix sub (c :: s)) eqn:E; [intros [= <-]; by apply is_prefix_length in E|].
    destruct (pj_strstr s sub) as [q|]; [|done]. intros [= <-]. specialize (IH q eq_refl). cbn. lia.
Qed.

Lemma strstr_app s sub pos r : pj_strstr s sub = Some pos -> pj_strstr (s ++ r) sub = Some pos.
Proof.
  intros H. pose proof (strstr_bound _ _ _ H) as Hb. revert pos H Hb.
  induction s as [|c s IH]; intros pos; cbn [app pj_strstr].
  - destruct (is_prefix sub []) eqn:E; [|done]. intros [= <-] _. destruct sub; [by destruct r|done].
  - destruct (is_prefix sub (c :: s)) eqn:E.
    { intros [= <-] _. by rewrite (is_prefix_app _ (c :: s) r E : is_prefix sub (c :: s ++ r) = true). }
    destruct (pj_strstr s sub) as [q|] eqn:Eq; [|done]. intros [= <-] Hb. cbn [length] in Hb.
    assert (Ep : is_prefix sub (c :: s ++ r) = false).
    { rewrite <- E. apply (is_prefix_short sub (c :: s)). cbn. lia. }
    rewrite Ep, (IH q); [done|done|lia].
Qed.

Lemma after_chr_length s c r : after_chr s c = Some r -> (length r < length s)%nat.
Proof.
  revert r. induction s as [|d s IH]; intros r; cbn [after_chr]; [done|].
  destruct (d =? c); [intros [= ->]; cbn; lia|]. intros H. apply IH in H. cbn. lia.
Qed.

Lemma uses_advance n : uses 0 (advance_n n).
Proof.
  apply uses_call. intros k s [] s'. unfold pj_scan_advance_n. destruct (Nat.ltb _ _); [done|].
  pose proof (length_drop s n). pose proof (skip_whitespace_length k (List.skipn n s)).
  destruct (List.skipn n s) as [|c t]; intros [= <-]; cbn [length] in *; [lia|].
  destruct (_ && _); cbn [length] in *; lia.
Qed.
#[export] Hint Resolve uses_advance : uses.

Lemma uses_clen_value line : uses 0 (clen_value line).
Proof. unfold clen_value. uses. Qed.

Lemma yields_clen_value line : yields (fun v => 0 <= v <= PJSIP_MAX_CONTENT_LENGTH) (clen_value line).
Proof.
  unfold clen_value. do 2 skip_step. apply yields_if; [apply yields_throw|]. do 2 skip_step.
  typeclasses eauto 3 with yields.
Qed.

(** The search ends; a status is an error, a length is one. *)
Lemma clen_loop_ok fuel area status :
  (length area <= fuel)%nat -> status <> PJ_SUCCESS ->
  exists res, clen_loop fuel area status = Some res /\
    match res with inl st => st <> PJ_SUCCESS | inr len => 0 <= len end.
Proof.
  revert area status. induction fuel as [|fuel IH]; intros area status Hf Hs; cbn [clen_loop];
    (destruct (after_chr area 10) as [line|] eqn:E; [apply after_chr_length in E|by eexists]); [lia|].
  destruct (is_clen_name line); [|apply IH; [lia|done]].
  pose proof (uses_clen_value line (sip_scanner line)) as Hu.
  pose proof (yields_clen_value line (sip_scanner line)) as Hy.
  destruct (clen_value line _) as [len s|[] s|]; [eexists; split; [done|apply Hy]|apply IH; [lia|done]..|done].
Qed.

Lemma find_msg_ok buf :
  exists st n, pjsip_find_msg buf false = Some (st, n) /\
    (st = PJ_SUCCESS -> 0 < n <= slen buf /\
       forall more, pjsip_find_msg (buf ++ more) false = Some (PJ_SUCCESS, n)).
Proof.
  unfold pjsip_find_msg. destruct (pj_strstr buf end_hdr) as [pos|] eqn:E; [|by do 2 eexists].
  pose proof (strstr_bound _ _ _ E) as Hb. cbn [length end_hdr] in Hb.
  destruct (clen_loop_ok (length (take (pos + 1) buf)) (take (pos + 1) buf) PJSIP_EMISSINGHDR)
    as (res & Hc & Hr); [lia|done|]. rewrite Hc. cbn [mbind option_bind].
  destruct res as [st|len]; [by do 2 eexists|]. do 2 eexists. split; [done|].
  destruct (Z.leb_spec (Z.of_nat (pos + 3) + len) (slen buf)) as [Hl|Hl]; [|done]. intros _. split; [lia|].
  intros more. rewrite (strstr_app _ _ _ more E), take_app_le, Hc by lia. cbn [mbind option_bind].
  rewrite slen_app. pose proof (slen_nonneg more). by rewrite (proj2 (Z.leb_le _ _)) by lia.
Qed.

(** ** Streams *)

(** A message with its end, which does not begin with a newline. *)
Definition framed (m : list Z) : Prop :=
  IS_NEWLINE (curchar m) = false /\ pjsip_find_msg m false = Some (PJ_SUCCESS, slen m).

#[export] Instance framed_dec m : Decision (framed m).
Proof. unfold framed. apply _. Defined.

Lemma framed_nonempty m : framed m -> m <> [].
Proof. intros [_ H] ->. vm_compute in H. discriminate H. Qed.

Section delivery.
Context (src_name : list Z) (src_port : Z) (drop_cb : option (list Z -> Z)).

(** The application does not change the size of what it is told of. *)
Definition keeps_size : Prop := forall cb data, drop_cb = Some cb -> cb data <= 0 \/ slen data <= cb data.

(** What becomes of one message. *)
Definition deliver (m : list Z) : list rx_event :=
  from_option (fun pm => (process_fragment src_name src_port drop_cb m pm).1) [] (pjsip_parse_rdata m).

Lemma process_size m pm : keeps_size -> (process_fragment src_name src_port drop_cb m pm).2 = slen m.
Proof.
  intros Hk. unfold process_fragment.
  assert (He : forall errs : list err_report,
    (match errs, drop_cb with
     | _ :: _, Some cb =>
         let len := cb m in (drop drop_cb PJSIP_EINVALIDMSG m (slen m), if (0 <? len) && (len <? slen m) then len else slen m)
     | _, _ => ([], slen m)
     end).2 = slen m).
  { intros [|e errs]; [done|]. destruct drop_cb as [cb|] eqn:E; [|done]. cbn.
    destruct (Hk cb m E); [by rewrite (proj2 (Z.ltb_ge _ _)) by lia|].
    by rewrite (proj2 (Z.ltb_ge (cb m) _)), andb_false_r by lia. }
  destruct (pm_msg pm) as [msg|]; [|by apply He]. destruct (pm_rdata pm) as [i|]; [|by apply He].
  destruct (pm_errs pm) as [|e errs] eqn:Ee; [|apply (He (e :: errs))].
  destruct (missing_hdr i); [done|]. destruct (msg_first msg); [done|]. by destruct (_ || _).
Qed.

Lemma parse_fragment_total buf : exists pm, pjsip_parse_rdata buf = Some pm.
Proof. destruct (parse_msg_typed (Some no_msg_info) (sip_scanner buf) no_info_typed) as (pm & H & _). by exists pm. Qed.

Lemma skip_crlf_none s : IS_NEWLINE (curchar s) = false -> skip_crlf s = ([], s).
Proof. destruct s as [|c s]; [done|]. cbn [curchar skip_crlf]. by intros ->. Qed.

(** A part of a message is no message. *)
Lemma framed_part m b tl : framed m -> m = b ++ tl -> tl <> [] ->
  exists st n, pjsip_find_msg b false = Some (st, n) /\ st <> PJ_SUCCESS.
Proof.
  intros [_ Hm] -> Ht. destruct (find_msg_ok b) as (st & n & Hb & Hs). do 2 eexists. split; [done|].
  intros ->. destruct (Hs eq_refl) as [Hn Hmore]. rewrite Hmore in Hm. injection Hm as ->.
  rewrite slen_app in Hn. destruct tl; [done|]. unfold slen in Hn. cbn in Hn. lia.
Qed.

Lemma receive_step fuel pkt :
  pkt <> [] -> IS_NEWLINE (curchar pkt) = false ->
  receive_loop src_name src_port drop_cb (S fuel) false pkt =
  '(status, size) ← pjsip_find_msg pkt false;
  if negb (status =? PJ_SUCCESS) then
    if slen pkt =? PJSIP_MAX_PKT_LEN then
      Some (OnRxMsg PJSIP_ERXOVERFLOW (mk_parsed_msg None (Some no_msg_info) []) ::
              drop drop_cb PJSIP_ERXOVERFLOW pkt size, [])
    else Some ([], pkt)
  else
    let data := take (Z.to_nat size) pkt in
    m ← pjsip_parse_rdata data;
    let '(evs', eaten) := process_fragment src_name src_port drop_cb data m in
    '(evs'', rest) ← receive_loop src_name src_port drop_cb fuel false (List.skipn (Z.to_nat eaten) pkt);
    Some (evs' ++ evs'', rest).
Proof.
  intros Hn Hc. cbn [receive_loop]. rewrite (skip_crlf_none _ Hc). cbn [drop_newlines app].
  destruct pkt as [|c pkt]; [done|]. by rewrite (proj2 (Z.eqb_neq _ _)) by (unfold slen; cbn; lia).
Qed.

(** The messages whose end has been read are delivered; the rest is a part of
    the next one. *)
Lemma receive_part fuel ms b tl :
  keeps_size -> Forall framed ms -> Forall (fun m => slen m <= PJSIP_MAX_PKT_LEN) ms ->
  concat ms = b ++ tl -> (length b <= fuel)%nat ->
  exists ms1 ms2 left,
    receive_loop src_name src_port drop_cb fuel false b = Some (flat_map deliver ms1, left) /\
    ms = ms1 ++ ms2 /\ concat ms2 = left ++ tl /\ (tl = [] -> left = []).
Proof.
  intros Hk Hms Hlen. revert fuel b. induction ms as [|m ms IH]; intros fuel b Hb Hf.
  { destruct b; [|done]. exists [], [], []. by destruct fuel. }
  apply Forall_cons in Hms as [Hm Hms]. apply Forall_cons in Hlen as [Hl Hlen]. cbn [concat] in Hb.
  destruct (decide (b = [])) as [->|Hne].
  { exists [], (m :: ms), []. split; [by destruct fuel|]. done. }
  destruct fuel as [|fuel]; [destruct b; [done|cbn in Hf; lia]|].
  assert (Hhead : IS_NEWLINE (curchar b) = false).
  { destruct b as [|c b]; [done|]. destruct m as [|d m]; [destruct (framed_nonempty _ Hm eq_refl)|].
    injection Hb as -> _. apply Hm. }
  rewrite (receive_step fuel b Hne Hhead).
  destruct (decide (length m <= length b)%nat) as [Hle|Hlt].
  - assert (exists b', b = m ++ b' /\ concat ms = b' ++ tl) as (b' & -> & Hb').
    { destruct (app_eq_inv _ _ _ _ Hb) as [(k & -> & Ht)|(k & -> & Hk')]; [|by exists k].
      rewrite length_app in Hle. destruct k; [|cbn in Hle; lia]. exists []. by rewrite !app_nil_r. }
    destruct (find_msg_ok m) as (st & n & Hfind & Hs). destruct Hm as [_ Hm]. rewrite Hm in Hfind.
    injection Hfind as <- <-. destruct (Hs eq_refl) as [Hpos Hmore]. rewrite Hmore. cbn [mbind option_bind].
    change (negb (PJ_SUCCESS =? PJ_SUCCESS)) with false. cbv iota zeta.
    assert (Hn : Z.to_nat (slen m) = length m) by (unfold slen; lia). rewrite Hn, take_app_length.
    destruct (parse_fragment_total m) as (pm & Hpm). rewrite Hpm. cbn [mbind option_bind].
    pose proof (process_size m pm Hk) as Hsize.
    destruct (process_fragment src_name src_port drop_cb m pm) as [evs size] eqn:Ep. cbn [snd] in Hsize. subst size.
    rewrite Hn, drop_app_length.
    rewrite length_app in Hf. unfold slen in Hpos.
    destruct (IH Hms Hlen fuel b') as (ms1 & ms2 & left & -> & -> & H1 & H2); [done|lia|].
    exists (m :: ms1), ms2, left. cbn [mbind option_bind flat_map]. unfold deliver at 2. rewrite Hpm. cbn [from_option]. by rewrite Ep.
  - assert (exists k, m = b ++ k /\ k <> [] /\ tl = k ++ concat ms) as (k & Hmk & Hkn & ->).
    { destruct (app_eq_inv _ _ _ _ Hb) as [(k & -> & Ht)|(k & -> & Hk')].
      - exists k. repeat split; [|done]. intros ->. rewrite app_nil_r in Hlt. lia.
      - rewrite length_app in Hlt. lia. }
    destruct (framed_part m b k Hm Hmk Hkn) as (st & n & -> & Hst). cbn [mbind option_bind].
    rewrite (proj2 (Z.eqb_neq _ _) Hst). cbn [negb].
    assert (Hbl : slen b < slen m).
    { rewrite Hmk. rewrite slen_app. destruct k; [done|]. unfold slen. cbn. lia. }
    rewrite (proj2 (Z.eqb_neq _ _)) by lia.
    exists [], (m :: ms), b. repeat split; [cbn; by rewrite Hmk, <- app_assoc|].
    intros H. apply app_eq_nil in H as [-> _]. done.
Qed.

(** C7: however a stream of messages is cut into reads, each message is
    delivered once, in order, and nothing is left. *)
Theorem sip_stream_delivered ms reads :
  keeps_size -> Forall framed ms -> Forall (fun m => slen m <= PJSIP_MAX_PKT_LEN) ms ->
  concat reads = concat ms ->
  read_stream src_name src_port drop_cb [] reads = Some (flat_map deliver ms, []).
Proof.
  intros Hk Hms Hl Hr. cut (forall left ms, Forall framed ms -> Forall (fun m => slen m <= PJSIP_MAX_PKT_LEN) ms ->
    left ++ concat reads = concat ms -> (reads = [] -> left = []) ->
    read_stream src_name src_port drop_cb left reads = Some (flat_map deliver ms, [])).
  { intros H. by apply H. }
  clear ms Hms Hl Hr. induction reads as [|data reads IH]; intros left ms Hms Hl Hr Hn; cbn [read_stream concat] in *.
  - rewrite (Hn eq_refl) in *. destruct ms as [|m ms]; [done|]. exfalso.
    apply Forall_cons in Hms as [Hm _]. destruct m; [destruct (framed_nonempty _ Hm eq_refl)|done].
  - unfold on_data_read, pjsip_tpmgr_receive_packet.
    destruct (receive_part (length (left ++ data)) ms (left ++ data) (concat reads))
      as (ms1 & ms2 & left' & -> & -> & H1 & H2); [done|done|done|by rewrite <- app_assoc|lia|].
    cbn [mbind option_bind]. apply Forall_app in Hms as [_ Hms]. apply Forall_app in Hl as [_ Hl].
    rewrite (IH left' ms2); [by rewrite flat_map_app|done|done|done|].
    intros ->. by apply H2.
Qed.
End delivery.

(** ** Termination *)

Lemma skip_crlf_length s : (length (skip_crlf s).2 <= length s)%nat.
Proof. induction s as [|c s IH]; cbn [skip_crlf]; [done|]. destruct (IS_NEWLINE c); [|done]. destruct (skip_crlf s). cbn in *. lia. Qed.

(** Some of the data is always processed, whatever the application stores. *)
Lemma process_some src_name src_port drop_cb data pm :
  data <> [] -> 0 < (process_fragment src_name src_port drop_cb data pm).2.
Proof.
  intros Hd. assert (Hs : 0 < slen data) by (destruct data; [done|unfold slen; cbn; lia]). unfold process_fragment.
  repeat case_match; simplify_eq/=; try lia; rewrite ?andb_true_iff, ?Z.ltb_lt in *; lia.
Qed.

(** A packet that has been found has at least one byte. *)
Lemma find_some pkt dg :
  pkt <> [] -> exists st n, pjsip_find_msg pkt dg = Some (st, n) /\
    (st = PJ_SUCCESS -> 0 < n).
Proof.
  intros Hp. destruct dg.
  - exists PJ_SUCCESS, (slen pkt). split; [done|]. destruct pkt; [done|]. unfold slen. cbn. lia.
  - destruct (find_msg_ok pkt) as (st & n & Hf & Hs). exists st, n. split; [done|]. intros E. by destruct (Hs E) as [? _]; lia.
Qed.

(** C9: the processing of a packet ends, whatever its bytes, its transport
    and what the application stores for the data that is dropped. *)
Theorem sip_receive_total src_name src_port drop_cb dg pkt :
  exists evs left, pjsip_tpmgr_receive_packet src_name src_port drop_cb dg pkt = Some (evs, left).
Proof.
  cut (forall fuel pkt, (length pkt <= fuel)%nat ->
    exists evs left, receive_loop src_name src_port drop_cb fuel dg pkt = Some (evs, left)).
  { intros H. by apply H. }
  clear pkt. induction fuel as [|fuel IH]; intros [|c pkt] Hf; try (by do 2 eexists); [cbn in Hf; lia|].
  cbn [receive_loop]. pose proof (skip_crlf_length (c :: pkt)) as Hc.
  destruct (skip_crlf (c :: pkt)) as [nl s] eqn:Es. cbn [snd] in Hc.
  destruct (Z.eqb_spec (slen s) 0) as [H0|H0]; [by do 2 eexists|].
  assert (Hs : s <> []) by (by intros ->).
  destruct (find_some s dg Hs) as (st & n & -> & Hn). cbn [mbind option_bind].
  destruct (Z.eqb_spec st PJ_SUCCESS) as [->|]; [|by cbn [negb]; destruct (slen s =? PJSIP_MAX_PKT_LEN); do 2 eexists].
  cbn [negb]. destruct (parse_fragment_total (take (Z.to_nat n) s)) as (pm & ->). cbn [mbind option_bind].
  assert (Ht : take (Z.to_nat n) s <> []).
  { specialize (Hn eq_refl). destruct s; [done|]. destruct (Z.to_nat n) eqn:En; [lia|done]. }
  pose proof (process_some src_name src_port drop_cb _ pm Ht) as Hp.
  destruct (process_fragment _ _ _ _ _) as [evs' eaten]. cbn [snd] in Hp.
  destruct (IH (List.skipn (Z.to_nat eaten) s)) as (evs'' & left & ->); [|by do 2 eexists].
  rewrite length_skipn. cbn [length] in *. lia.
Qed.
