(* ===== verification/SipMsgDemo.v ===== *)
(** * SIP messages: instances and defects

    A request and a response that are read from a stream, and what the parser
    does against its intent. *)

From Stdlib Require Import String.
From S2P Require Import Prelude PjString Hash Scanner TsxData SipScan SipUri SipUriParse SipHdr.
From S2P Require Import SipHdrTable SipMsg SipMsgSpec SipFrame SipFrameSpec.
Local Open Scope Z_scope.

Definition lines (l : list string) : list Z := flat_map (fun s => lit s ++ [13; 10]) l.

Definition demo_request : list Z := lines
  [ "INVITE sip:bob@biloxi.example.com SIP/2.0";
    "Via: SIP/2.0/TCP client.atlanta.example.com:5060;branch=z9hG4bK74b43;rport";
    "Max-Forwards: 70";
    "From: Alice <sip:alice@atlanta.example.com>;tag=9fxced76sl";
    "t: Bob <sip:bob@biloxi.example.com>";
    "Call-ID: 3848276298220188511@atlanta.example.com";
    "CSEQ: 1 INVITE";
    "Contact: <sip:alice@client.atlanta.example.com;transport=tcp>;q=0.5, sip:alice@home";
    "Supported: 100rel, timer";
    "Content-Type: text/plain";
    "l : 5";
    "";
    "hello" ]%string.

Definition demo_message : list Z := take (length demo_request - 2) demo_request.

Definition demo_response : list Z := lines
  [ "SIP/2.0 200 OK";
    "Via: SIP/2.0/TCP client.atlanta.example.com:5060;branch=z9hG4bK74b43";
    "From: Alice <sip:alice@atlanta.example.com>;tag=9fxced76sl";
    "To: Bob <sip:bob@biloxi.example.com>;tag=8321234356";
    "Call-ID: 3848276298220188511@atlanta.example.com";
    "CSeq: 1 INVITE";
    "Content-Length: 0";
    "" ]%string.

Lemma demo_framed : framed demo_message /\ framed demo_response.
Proof. split; split; by vm_compute. Qed.

(** The two messages, in three reads that end anywhere. *)
Lemma sip_stream_delivered_witness :
  exists m1 m2, read_stream (lit "10.0.0.1") 4711 None []
      [take 100 demo_message; List.skipn 100 demo_message ++ take 17 demo_response; List.skipn 17 demo_response] =
    Some ([OnRxMsg PJ_SUCCESS m1; OnRxMsg PJ_SUCCESS m2], []).
Proof.
  do 2 eexists. rewrite (sip_stream_delivered (lit "10.0.0.1") 4711 None [demo_message; demo_response]).
  - by vm_compute.
  - done.
  - repeat constructor; apply demo_framed.
  - repeat constructor; by vm_compute.
  - by vm_compute.
Defined.

(** What a test reads of a message that was parsed. *)
Definition parsed_hdrs (buf : list Z) : option (list pjsip_hdr) :=
  pm ← pjsip_parse_msg buf; msg_hdr <$> pm_msg pm.

Definition hdr_of_line (name value : string) : option (list pjsip_hdr) :=
  '(hdr, _) ← pjsip_parse_hdr (lit name) (lit value ++ [13; 10]); hdr.

(** ** Defects *)

(** Of a header folded on three lines only the last is kept. *)
Lemma folded_header_lost :
  pjsip_parse_hdr (lit "Subject") (lines ["a"; " b"; " c"]%string) =
    Some (Some [StringHdr (lit "Subject") (lit "c")], 11).
Proof. by vm_compute. Qed.

(** A header that is not understood is skipped, unless it is the last one:
    then there is no message. *)
Lemma bad_last_header :
  let req l := lines ("OPTIONS sip:h SIP/2.0"%string :: l ++ [""%string]) in
  parsed_hdrs (req ["CSeq: x"; "Call-ID: 1"]%string) = Some [CidHdr (lit "1")] /\
  parsed_hdrs (req ["Call-ID: 1"; "CSeq: x"]%string) = None.
Proof. by vm_compute. Qed.

(** A Require header with an error takes the values of those that follow it,
    and is in no message. *)
Lemma require_orphan :
  (pm ← pjsip_parse_rdata (lines ["OPTIONS sip:h SIP/2.0"; "Require: a, ,"; "Require: b"; ""]%string);
   Some (msg_hdr <$> pm_msg pm, i ← pm_rdata pm; mi_require i)) =
  Some (Some [], Some [lit "a"; lit "b"]).
Proof. by vm_compute. Qed.

(** The fraction of a q-value may be any text, and the value below 0. *)
Lemma q_value_negative :
  hdr_of_line "Contact" "<sip:h>;q=0.!" =
  Some [ContactHdr (pjsip_contact_hdr_create
    <| co_uri := Some (NameAddr (mk_name_addr [] (Some (SipUri (pjsip_sip_uri_create false <| u_host := lit "h" |>))))) |>
    <| co_q1000 := -1500 |>)].
Proof. by vm_compute. Qed.

(** A length over 2^31 is negative. *)
Lemma content_length_negative : hdr_of_line "Content-Length" "4294967295" = Some [ClenHdr (-1)].
Proof. by vm_compute. Qed.

(** A status code out of range is an error of the message parser; the parser
    of status lines takes it for the bound. *)
Lemma status_out_of_range :
  pjsip_parse_status_line (lines ["SIP/2.0 99 x"]%string) = Some (PJ_SUCCESS, (100, [])) /\
  pm_msg <$> pjsip_parse_msg (lines ["SIP/2.0 99 x"; "Call-ID: 1"; ""]%string) = Some None.
Proof. by vm_compute. Qed.

(** A host in brackets may hold newlines, and so another header. *)
Lemma host_spans_lines :
  hdr_of_line "To" "<sip:[x" = None /\
  (hdrs ← parsed_hdrs (lines ["OPTIONS sip:h SIP/2.0"; "Route: <sip:[x"; "Evil: y]>"; ""]%string); Some hdrs) =
  Some [RoutingHdr HRoute (mk_routing_hdr (mk_name_addr []
    (Some (SipUri (pjsip_sip_uri_create false <| u_host := lit "x" ++ [13; 10] ++ lit "Evil: y" |>)))) [])].
Proof. by vm_compute. Qed.

(** When the buffer is full, the length that the application is told is the
    one the message should have: here twice that of the data. *)
Definition long_message : list Z :=
  let hdr := lines ["OPTIONS sip:h SIP/2.0"; "Content-Length: 7954"; ""]%string in
  hdr ++ replicate (4000 - length hdr) 120.

Lemma overflow_length :
  (slen long_message = 4000) /\
  (pjsip_tpmgr_receive_packet [] 0 (Some slen) false long_message =
   Some ([OnRxMsg PJSIP_ERXOVERFLOW (mk_parsed_msg None (Some no_msg_info) []);
          Dropped PJSIP_ERXOVERFLOW long_message 8001], [])).
Proof. by vm_compute. Qed.
